(* ===== verification/_CoqProject ===== *)
-Q . S2P
Prelude.v
Bytes.v
ElfReader.v
ElfTheorems.v
SymbolRegistry.v
ShimTable.v
ModuleLayout.v
LoaderSample.v
LayoutTheorems.v
ShimLookup.v
Relocation.v
RelocTheorems.v
Protections.v
ModulePrepare.v
Bitmap.v
DmaMapping.v
DmaTheorems.v
BlockDevice.v
BlockTheorems.v
UsbStorage.v
UsbTheorems.v
UsbCommands.v
Memory.v
InputEvents.v
InputTheorems.v
KernelObjects.v
KernelObjectTheorems.v
FileTable.v
FileTheorems.v
UsbCore.v
UsbCoreTheorems.v
PageArena.v
PageTheorems.v
LinuxDma.v
LinuxDmaTheorems.v
MockDevice.v
KvmGuest.v
KvmTheorems.v
UsbSynthetic.v
DeferredWork.v
WorkTheorems.v
Irq.v
IrqTheorems.v
FsLocal.v
FsLocalTheorems.v
FsBlock.v
FsBlockTheorems.v
FsBio.v
FsBioTheorems.v
Heap.v
HeapTheorems.v
HeapArena.v
Net.v
NetFrames.v
NetTheorems.v
Crc.v
Kfifo.v
RbTree.v
LinkedLists.v
Ida.v
Pids.v
Drm.v
StubHelpers.v
Sync.v
SyncTheorems.v
WaitTheorems.v
Printk.v
PrintkTheorems.v
