(* ===== verification/Prelude.v ===== *)
(** * kobox: a verification development

    kobox loads Linux kernel modules ([.ko] files) into an ordinary process and
    runs them against a re-implementation of the kernel services they import.
    This library models the part of that program that is self-contained logic
    and proves what makes it correct.  Paths below are relative to the
    repository, [src/src/...] being its C sources.

    ** The parts and how they interact

    A module's image is read by the ELF reader (loader/elf_reader.c).  The loader
    (loader/module_loader.c) places its sections in one image, resolves its
    undefined symbols against the symbols other modules exported
    (loader/symbol_registry.c) and the shim symbol table, which flattens the
    symbol tables of fourteen providers, applies its relocations, registers its
    own exports and protects its pages; calls go through 48-byte stubs the loader
    writes behind the sections.
    Running modules call the subsystems: bitmap helpers (module_loader.c), DMA
    mapping (linux_subsystem/dma/dma.c), which forwards to a device backend, the
    block layer (linux_subsystem/block/block.c), the USB core
    (linux_subsystem/usb/usb.c), which tells mass storage
    (linux_subsystem/usb/storage.c) about interfaces, and that in turn registers
    its disks with the block layer and serves them through callbacks; the input
    subsystem (linux_subsystem/input/input.c), the registry of kernel objects
    (linux_subsystem/fs/kernel_object_registry.c), and the page arena
    (linux_subsystem/kvm/kvm_symbols.c), whose pages modules map for DMA through
    linux_personality/linux_dma.c and linux_dma_pool.c.  File systems read and
    write block devices over those disks through bios and a buffer cache
    (linux_subsystem/fs/fs.c).  Modules take memory from a heap (linux_memory.c), send
    and receive through network devices (linux_subsystem/net/net_device.c) and use the
    small services of linux_stubs.c.  Work, timers and tasklets of modules run later, in
    drains of one queue (linux_personality/linux_work.c), interrupts when the code
    waits for them (linux_irq.c).  A device backend such as the mock
    (device/linux_mock/device_linux_mock.c) is at the bottom.

    ** The files

    - Prelude.v (this file): machine integers with their wrap-around, the
      [outcome] monad ([Done], early return [Fail], undefined behaviour [Fault]),
      buffers with [slice]/[splice], record update, counting loops, the tactics
      [mred], [boolify], [safe_steps], [ilia].
    - Bytes.v: the integer readers and writers of elf_reader.c, module_loader.c
      and storage.c with their round trips.
    - ElfReader.v, ElfTheorems.v: all of elf_reader.c.  No image makes a reader
      leave the buffer; headers, symbols and relocations read back as encoded;
      [.modinfo] iteration is splitting at NUL bytes.
    - SymbolRegistry.v: all of symbol_registry.c, refining a finite map.
    - ShimTable.v: symbol cache, FNV-1a hash index, call stubs of
      module_loader.c (lines 1396-1693 and the stub loop of load_sections).
      Look-up finds the first provider of a name; stubs are written where they
      belong and never overlap.
    - ModuleLayout.v, LayoutTheorems.v: both passes of load_sections over the
      sections, the list of loaded modules.  Sections are disjoint and aligned,
      protections never share a page, the image holds the file's bytes; the last
      theorem shows what sizes that wrap around do.
    - LoaderSample.v: two small files the loader's examples use.
    - ShimLookup.v: lookup_module_shim_symbol and the symbols the loader
      overrides or interposes.
    - Relocation.v, RelocTheorems.v: resolve_symbol, register_module_exports,
      apply_relocations and what they call.  Relocation stays in its target
      sections, is memory-safe, writes S + A (- P) exactly or refuses, and
      resolves names in a fixed order.
    - Protections.v: finalize_section_protections over a page map.
    - ModulePrepare.v: prepare_module from relocation on, instruction patches,
      destroy_module.  A prepared module has exact page protections and no page
      that is writable and executable; a failed load leaves the registry as it
      was.
    - Bitmap.v: the bitmap shims of module_loader.c (lines 428-625) and
      [kb_find_next_bit] of linux_netdev.c.
    - DmaMapping.v, DmaTheorems.v: dma.c over an arbitrary device backend; an
      invariant of every reachable state, pinning of borrowed windows, roll-back
      of failed requests, map/unmap round trip, page translation.
    - BlockDevice.v, BlockTheorems.v: block.c over an arbitrary device world; the
      [ByteDisk] class is what the callbacks of a disk promise, and read-back is
      proved against it.
    - UsbStorage.v, UsbTheorems.v: storage.c; the sparse extents implement
      [ByteDisk].
    - UsbCommands.v: SCSI and the bulk-only transport end to end: a session of
      commands refines an array of bytes, errors come back as sense data, every
      packet gets a matching status block, attaching sets the disk up.
    - Memory.v: byte memory with little-endian loads and stores, for the objects
      of modules that kobox reads and writes at fixed offsets.
    - InputEvents.v, InputTheorems.v: input.c.  The ring is a FIFO queue, frames
      stay whole in every reachable state whatever drivers do in callbacks,
      overflow is counted and reported, publishing always makes progress.
    - KernelObjects.v, KernelObjectTheorems.v: character devices, /proc entries,
      classes and cdevs of kernel_object_registry.c.
    - FileTable.v, FileTheorems.v: its descriptors, files and memory areas.  The
      descriptor table refines a finite map; files are freed once.
    - UsbCore.v, UsbCoreTheorems.v: usb.c and port_state.c over mass storage.
      Keys stay unique; releasing a controller removes exactly its tree, mass
      storage included; root-hub events are told once.
    - PageArena.v, PageTheorems.v: the page arena of kvm_symbols.c over
      DmaMapping.v.  Blocks never overlap, allocation is first fit and complete,
      release is exact, and all views of a page agree once it is mapped.
    - LinuxDma.v, LinuxDmaTheorems.v: DMA by page, address, scatterlist and pool,
      over the arena and DmaMapping.v.
    - MockDevice.v: the mock backend as an instance of the operations
      DmaMapping.v is written against; over it device addresses are CPU
      addresses.
    - KvmGuest.v, KvmTheorems.v: the rest of kvm_symbols.c: descriptors, misc
      devices, memory slots and the emulator of guest instructions.  A run of a
      virtual CPU refines the instructions it executes; a failed request for a
      descriptor leaves nothing behind; addresses are translated by the slots.
    - UsbSynthetic.v: config.c and synthetic.c of the USB subsystem: the switches
      with their caches, and replies of made-up devices that stay in their buffer.
    - DeferredWork.v, WorkTheorems.v: linux_work.c with callbacks that may call it
      again.  The queue keeps its invariant, between calls and at every step of the
      callbacks (a run with checks is the run itself), flushes run what was queued before
      them, the context of the caller is restored and nesting is bounded.
    - Irq.v, IrqTheorems.v: linux_irq.c.  An interrupt runs its handlers exactly
      once and leaves the context as it was, for handlers that leave the requested
      interrupts alone; numbers lead back to their vectors.
    - FsLocal.v, FsLocalTheorems.v: xarrays, types, mounts and local files of
      fs.c, refining finite maps.
    - FsBlock.v, FsBlockTheorems.v: its block devices over disks (BlockDevice.v),
      GPT partitions and the buffer cache.  A range of a disk is an array of bytes
      at any alignment ([ByteDevice]), and with the dirty blocks laid over it a
      device is still one.
    - FsBio.v, FsBioTheorems.v: its bios and buffer heads.  A drain completes every
      bio once, in order; a buffer that was synchronised is on the device.
    - Heap.v, HeapTheorems.v, HeapArena.v: linux_memory.c: blocks with guards from the
      host, the arena or whole pages, object caches, memory pools, shrinkers.  Over any
      [PageSource] blocks never overlap and the heap is a map from addresses to byte
      strings; the page arena is a [PageSource].
    - Net.v, NetFrames.v, NetTheorems.v: net_device.c: the table of devices, socket
      buffers on pages of the arena, frames, transmission, NAPI.  Buffers are byte
      strings with a limit and lose no page; driver and host get exactly the frame; data
      with its checksum verifies and changes of a word are noticed.
    - Helpers of linux_stubs.c, a file each: Crc.v (CRC-32 and CRC-32C; the processor's
      instructions, by polynomial division, agree with the loop, and bursts of four bytes
      are noticed), Kfifo.v (rings of elements are bounded queues), RbTree.v (trees in
      memory are the lists of their nodes), LinkedLists.v (rings and stacks of links),
      Ida.v (identifier allocators are sets), Pids.v (pids and signals; no pid in use is
      recycled), Drm.v (graphics devices over KernelObjects.v; files own their memory),
      StubHelpers.v (strings, searches, numbers, counters).
    - Sync.v, SyncTheorems.v, WaitTheorems.v: linux_sync.c and the waiting and waking of
      threads of linux_stubs.c: RCU, mutexes, completions, wait queues (rings of
      LinkedLists.v).  Deferred callbacks run once, in order and without readers; a wake-up
      takes the first waiters; among threads that prepare, finish, give way and wake in any
      order, a thread that prepared to wait is runnable once a wake-up took its entry.
    - Printk.v, PrintkTheorems.v: linux_printk.c.  The formatter writes the beginning of the
      text of its format that fits and nothing else, whatever format and arguments are;
      numbers read back as their values.

    ** Conventions

    A C function that changes state takes the state and returns the new one; an
    out-parameter is a component of the result; a status code that ends a
    function early is a value ([Fail] or the negative number of the source).
    Pointers are numbers (0 is NULL) or, for strings and buffers, [option]s of
    their contents.  Results of [malloc]/[calloc] are arguments, so the theorems
    hold for every pattern of allocation failures.  Unsigned arithmetic that can
    wrap is wrapped with [u8] ... [u64].  Linked lists and static arrays are
    lists in the order of the code.

    ** Fuel

    Loops that are not structural take a [nat] bound that is the largest number
    of iterations the code can make: the section size for the [.modinfo] scans,
    the number of hash slots for probing, the number of bytes for the extent
    loops (each iteration moves at least one byte), the number of tags for the
    tag scan, the number of sections, symbols and relocations of a file, the 1024
    slots of the event ring, the 256 descriptors and 4097 candidates of the page
    scan, the 53 doublings of a number of pages, the 1024 rounds the guest
    emulator allows itself, three rounds of carries, the requested interrupts and
    one more.  Callbacks that call back nest at most 24 deep, 8
    drains and 16 work items, which the code enforces; a drain takes at most the
    1024 items of the code's own limit; a walk over items may take 65536 steps.
    The drain of bios needs as many rounds as there are bios and takes its fuel as
    an argument, like the loops that wait for a buffer; without enough they are
    [Endless], and the theorems name the fuel that is enough; so do the loops over
    trees ([None] without enough, one step per node is enough), whose erasure nests
    once, over the entries of a wait queue (one step each) and over deferred
    callbacks ([rcu_steps]).  The search of an identifier allocator takes one step more than there are
    identifiers given out.  Elsewhere running
    out is [Fault] or an explicit default, and the theorems show the result is
    reached.

    ** Not modelled

    The initial contents of a module's shim data (load_sections, lines
    2734-2955), the running of module code and the context switches around it;
    most structure-offset adapters under linux_personality/; of fs.c the page
    cache, inodes, dentries, access-control lists, mount parameters and the
    mounting of modules, which mirror kernel structures by raw offsets and mostly
    call module code; devices over image files of the host; the host part of the
    KVM symbols; device backends other than the mock and host interfaces (their
    operations are parameters); profiling counters, tracing and printing; tools
    and tests.  Next in line: linux_mmio.c, ata.c and the page cache of
    fs.c. *)

From stdpp Require Export base list numbers option strings gmap.

#[global] Open Scope Z_scope.

(** ** Record update

    [x <| f := v |>] and [x <| f ::= g |>] are the C assignments
    [x->f = v] and [x->f = g(x->f)].  A record type becomes updatable by one
    [Settable] instance that lists its fields through the existing getters. *)

Class Settable (R : Type) := field_eta : R -> R.

Class Setter {R E : Type} (get : R -> E) := set_field : (E -> E) -> R -> R.
Arguments set_field {R E} get {_} _ _ /.

Ltac derive_setter get :=
  lazymatch type of get with
  | ?R -> _ =>
      let inst := constr:(field_eta (R := R)) in
      let body := eval hnf in inst in
      lazymatch eval pattern get in body with
      | ?F _ => let u := eval cbv beta in (fun upd => F (fun r => upd (get r))) in exact u
      end
  end.

#[global] Hint Extern 1 (Setter ?get) => derive_setter get : typeclass_instances.

#[warnings="-postfix-notation-not-level-1"]
Notation "x <| f := v |>" := (set_field f (fun _ => v) x)
  (at level 12, f at next level, left associativity, format "x  <| f  :=  v |>").
#[warnings="-postfix-notation-not-level-1"]
Notation "x <| f ::= g |>" := (set_field f g x)
  (at level 12, f at next level, left associativity, format "x  <| f  ::=  g |>").

(** ** Machine integers

    A w-bit unsigned value is a [Z] in [[0, 2^w)]; the wrap-around of an
    operation that can overflow is written out with these functions.  [s64] is
    the two's complement reading of a 64-bit pattern (a C cast to [int64_t]). *)

Definition u8 (z : Z) : Z := z mod 0x100.
Definition u16 (z : Z) : Z := z mod 0x10000.
Definition u32 (z : Z) : Z := z mod 0x100000000.
Definition u64 (z : Z) : Z := z mod 0x10000000000000000.
Definition s32 (z : Z) : Z := (z + 0x80000000) mod 0x100000000 - 0x80000000.
Definition s64 (z : Z) : Z :=
  (z + 0x8000000000000000) mod 0x10000000000000000 - 0x8000000000000000.

Definition UINT32_MAX : Z := 0xffffffff.
Definition UINT64_MAX : Z := 0xffffffffffffffff.

Definition is_u8 (z : Z) : Prop := 0 <= z < 0x100.
Definition is_u16 (z : Z) : Prop := 0 <= z < 0x10000.
Definition is_u32 (z : Z) : Prop := 0 <= z < 0x100000000.
Definition is_u64 (z : Z) : Prop := 0 <= z < 0x10000000000000000.
Definition is_s64 (z : Z) : Prop := - 0x8000000000000000 <= z < 0x8000000000000000.

Create HintDb ints.

Lemma u8_small z : is_u8 z -> u8 z = z.
Proof. apply Z.mod_small. Qed.
Lemma u16_small z : is_u16 z -> u16 z = z.
Proof. apply Z.mod_small. Qed.
Lemma u32_small z : is_u32 z -> u32 z = z.
Proof. apply Z.mod_small. Qed.
Lemma u64_small z : is_u64 z -> u64 z = z.
Proof. apply Z.mod_small. Qed.
Lemma u8_range z : is_u8 (u8 z).
Proof. unfold is_u8, u8. apply Z.mod_pos_bound. lia. Qed.
Lemma u16_range z : is_u16 (u16 z).
Proof. unfold is_u16, u16. apply Z.mod_pos_bound. lia. Qed.
Lemma u32_range z : is_u32 (u32 z).
Proof. unfold is_u32, u32. apply Z.mod_pos_bound. lia. Qed.
Lemma u64_range z : is_u64 (u64 z).
Proof. unfold is_u64, u64. apply Z.mod_pos_bound. lia. Qed.
#[export] Hint Resolve u8_small u16_small u32_small u64_small : ints.
#[export] Hint Resolve u8_range u16_range u32_range u64_range : ints.

(** Linear arithmetic over the wrapped operations: unfold them, turn [/] and
    [mod] into their defining inequations, and call [lia]. *)
Ltac unfold_ints :=
  unfold u8, u16, u32, u64, s32, s64, is_u8, is_u16, is_u32, is_u64, is_s64,
    UINT32_MAX, UINT64_MAX in *.
Ltac ilia := unfold_ints; Z.to_euclidean_division_equations; lia.

(** The two's complement reading and its inverse. *)
Lemma s64_u64 z : is_s64 z -> s64 (u64 z) = z.
Proof. intros H. ilia. Qed.

Lemma u64_s64 z : is_u64 z -> u64 (s64 z) = z.
Proof. intros H. ilia. Qed.

(** Bits above the width of a bounded value are clear. *)
Lemma testbit_above z n k : 0 <= z < 2 ^ n -> n <= k -> Z.testbit z k = false.
Proof.
  intros Hz Hk. destruct (decide (z = 0)) as [->|Hne]; [apply Z.testbit_0_l|].
  apply Z.bits_above_log2; [lia|].
  apply Z.log2_lt_pow2; [lia|].
  apply Z.lt_le_trans with (2 ^ n); [lia|].
  apply Z.pow_le_mono_r; lia.
Qed.

(** Disjoint bit fields: [lor] of a low part and a shifted high part is a sum. *)
Lemma lor_shiftl_add a b n :
  0 <= n -> 0 <= a < 2 ^ n -> 0 <= b -> Z.lor a (Z.shiftl b n) = a + b * 2 ^ n.
Proof.
  intros Hn Ha Hb. rewrite <- Z.shiftl_mul_pow2 by lia.
  rewrite <- Z.add_lor_land.
  assert (Z.land a (Z.shiftl b n) = 0) as ->; [|lia].
  apply Z.bits_inj'. intros k Hk. rewrite Z.land_spec, Z.testbit_0_l.
  destruct (decide (k < n)).
  - rewrite Z.shiftl_spec_low by lia. apply andb_false_r.
  - rewrite (testbit_above a n k) by lia. done.
Qed.

(** ** Status codes and outcomes

    [kb_status] is the enumeration of include/kobox/device.h. *)

Inductive kb_status :=
  | KB_OK
  | KB_ERR_INVALID
  | KB_ERR_NOT_FOUND
  | KB_ERR_DENIED
  | KB_ERR_NOMEM
  | KB_ERR_IO
  | KB_ERR_UNSUPPORTED
  | KB_ERR_PCI_CONFIG.

#[export] Instance kb_status_eq_dec : EqDecision kb_status.
Proof. solve_decision. Defined.

Definition kb_status_code (s : kb_status) : Z :=
  match s with
  | KB_OK => 0
  | KB_ERR_INVALID => -1
  | KB_ERR_NOT_FOUND => -2
  | KB_ERR_DENIED => -3
  | KB_ERR_NOMEM => -4
  | KB_ERR_IO => -5
  | KB_ERR_UNSUPPORTED => -6
  | KB_ERR_PCI_CONFIG => -7
  end.

(** The result of a C function that writes its result through an out-pointer
    and returns a status: [Done v] is [KB_OK] with the out-value [v], [Fail e]
    the early return of status [e], and [Fault] what C leaves undefined: an
    access outside the buffer, or a loop that has used up its fuel.  Safety
    theorems say that [Fault] is never the result. *)
Inductive outcome (A : Type) :=
  | Done (a : A)
  | Fail (e : kb_status)
  | Fault.
Arguments Done {A} a.
Arguments Fail {A} e.
Arguments Fault {A}.

#[export] Instance outcome_eq_dec `{EqDecision A} : EqDecision (outcome A).
Proof. solve_decision. Defined.

#[export] Instance outcome_ret : MRet outcome := fun A a => Done a.
#[export] Instance outcome_bind : MBind outcome := fun A B k m =>
  match m with
  | Done a => k a
  | Fail e => Fail e
  | Fault => Fault
  end.

(** Reduce a bind whose first computation is known. *)
Ltac mred := cbn [mbind outcome_bind mret outcome_ret].
Tactic Notation "mred" "in" hyp(H) := cbn [mbind outcome_bind mret outcome_ret] in H.

(** [safe m]: the computation stays inside C's defined behaviour. *)
Definition safe {A} (m : outcome A) : Prop := m <> Fault.

Create HintDb safety.

Lemma safe_done {A} (a : A) : safe (Done a).
Proof. done. Qed.
Lemma safe_fail {A} e : safe (Fail e : outcome A).
Proof. done. Qed.
Lemma safe_bind {A B} (m : outcome A) (k : A -> outcome B) :
  safe m -> (forall a, m = Done a -> safe (k a)) -> safe (m ≫= k).
Proof. destruct m; cbn; intros Hm Hk; [by apply Hk|done|done]. Qed.
Lemma safe_if {A} (b : bool) (m n : outcome A) :
  (b = true -> safe m) -> (b = false -> safe n) -> safe (if b then m else n).
Proof. destruct b; auto. Qed.
#[export] Hint Resolve safe_done safe_fail : safety.

(** Reduce a safety goal along binds and conditionals. *)
Ltac safe_steps :=
  repeat lazymatch goal with
  | |- safe (Done _) => apply safe_done
  | |- safe (Fail _) => apply safe_fail
  | |- safe (mret _) => apply safe_done
  | |- safe (_ ≫= _) => apply safe_bind; [|intros ? ?]
  | |- safe (if _ then _ else _) => apply safe_if; intros ?
  end.

(** Boolean guards of the C code as propositions. *)
Ltac boolify :=
  repeat match goal with
  | H : (_ && _)%bool = true |- _ => apply andb_true_iff in H as [? ?]
  | H : (_ || _)%bool = false |- _ => apply orb_false_iff in H as [? ?]
  | H : (_ || _)%bool = true |- _ => apply orb_true_iff in H
  | H : (_ && _)%bool = false |- _ => apply andb_false_iff in H
  | H : negb _ = true |- _ => apply negb_true_iff in H
  | H : negb _ = false |- _ => apply negb_false_iff in H
  | H : (_ <? _) = true |- _ => apply Z.ltb_lt in H
  | H : (_ <? _) = false |- _ => apply Z.ltb_ge in H
  | H : (_ <=? _) = true |- _ => apply Z.leb_le in H
  | H : (_ <=? _) = false |- _ => apply Z.leb_gt in H
  | H : (_ =? _) = true |- _ => apply Z.eqb_eq in H
  | H : (_ =? _) = false |- _ => apply Z.eqb_neq in H
  | H : bool_decide _ = true |- _ => apply bool_decide_eq_true in H
  | H : bool_decide _ = false |- _ => apply bool_decide_eq_false in H
  end.

(** ** Buffers

    A C buffer is the list of its bytes; a pointer into it is an offset.  Loads
    and stores outside the buffer are [Fault]. *)

Definition bytes_ok (p : list Z) : Prop := Forall is_u8 p.

Definition blen (p : list Z) : Z := Z.of_nat (length p).

Definition load8 (p : list Z) (o : Z) : outcome Z :=
  if (0 <=? o) && (o <? blen p) then Done (nth (Z.to_nat o) p 0) else Fault.

(** [memcpy]/[memset] reads: the [n] bytes at offset [o]. *)
Definition slice (p : list Z) (o n : Z) : list Z :=
  take (Z.to_nat n) (drop (Z.to_nat o) p).

(** [memcpy(p + o, q, length q)] for a range inside [p]. *)
Definition splice (p : list Z) (o : Z) (q : list Z) : list Z :=
  take (Z.to_nat o) p ++ q ++ drop (Z.to_nat o + length q) p.

(** The bytes of a string literal, without its terminating NUL. *)
Definition cstr (s : string) : list Z :=
  map (fun a => Z.of_N (Ascii.N_of_ascii a)) (String.list_ascii_of_string s).

Lemma load8_safe p o : 0 <= o < blen p -> safe (load8 p o).
Proof. intros H. unfold load8. destruct (Z.leb_spec 0 o), (Z.ltb_spec o (blen p)); done || lia. Qed.

Lemma load8_done p o b : load8 p o = Done b -> 0 <= o < blen p /\ b = nth (Z.to_nat o) p 0.
Proof.
  unfold load8. destruct (Z.leb_spec 0 o), (Z.ltb_spec o (blen p)); cbn; try done.
  intros [= <-]. done.
Qed.

Lemma load8_in p o : 0 <= o < blen p -> load8 p o = Done (nth (Z.to_nat o) p 0).
Proof. intros H. unfold load8. destruct (Z.leb_spec 0 o), (Z.ltb_spec o (blen p)); done || lia. Qed.

Lemma load8_byte p o b : bytes_ok p -> load8 p o = Done b -> is_u8 b.
Proof.
  intros Hok [Hr ->]%load8_done. unfold bytes_ok in Hok. rewrite Forall_forall in Hok.
  apply Hok. apply list_elem_of_In, nth_In. unfold blen in Hr. lia.
Qed.

Lemma length_slice p o n :
  0 <= o -> 0 <= n -> o + n <= blen p -> length (slice p o n) = Z.to_nat n.
Proof. unfold slice, blen. intros. rewrite length_take, length_drop. lia. Qed.

Lemma length_splice p o q :
  0 <= o -> o + blen q <= blen p -> length (splice p o q) = length p.
Proof.
  unfold splice, blen. intros. rewrite !length_app, length_take, length_drop. lia.
Qed.

Lemma slice_splice_same p o q :
  0 <= o -> o + blen q <= blen p -> slice (splice p o q) o (blen q) = q.
Proof.
  unfold slice, splice, blen. intros.
  rewrite drop_app_ge by (rewrite length_take; lia). rewrite length_take.
  replace (Z.to_nat o - (Z.to_nat o `min` length p))%nat with 0%nat by lia.
  rewrite drop_0, take_app_le by lia. rewrite take_ge by lia. done.
Qed.

Lemma lookup_splice p o q (i : nat) :
  0 <= o -> o + blen q <= blen p ->
  splice p o q !! i =
    if decide (o <= Z.of_nat i < o + blen q) then q !! (i - Z.to_nat o)%nat else p !! i.
Proof.
  unfold splice, blen. intros Ho Hq. case_decide as Hi.
  - rewrite lookup_app_r by (rewrite length_take; lia). rewrite length_take.
    rewrite lookup_app_l by lia. f_equal. lia.
  - destruct (decide (Z.of_nat i < o)).
    + rewrite lookup_app_l by (rewrite length_take; lia). apply lookup_take_lt. lia.
    + rewrite lookup_app_r by (rewrite length_take; lia). rewrite length_take.
      rewrite lookup_app_r by lia. rewrite lookup_drop. f_equal. lia.
Qed.

Lemma nth_splice_other p o q (i : nat) d :
  0 <= o -> o + blen q <= blen p -> (Z.of_nat i < o \/ o + blen q <= Z.of_nat i) ->
  nth i (splice p o q) d = nth i p d.
Proof.
  intros Ho Hq Hi. rewrite !nth_lookup, lookup_splice by done.
  rewrite decide_False by lia. done.
Qed.

Lemma nth_splice_in p o q (i : nat) d :
  0 <= o -> o + blen q <= blen p -> o <= Z.of_nat i < o + blen q ->
  nth i (splice p o q) d = nth (i - Z.to_nat o) q d.
Proof.
  intros Ho Hq Hi. rewrite !nth_lookup, lookup_splice by done.
  rewrite decide_True by lia. done.
Qed.

Lemma lookup_slice p o n (i : nat) :
  0 <= o -> 0 <= n ->
  slice p o n !! i = if decide (Z.of_nat i < n) then p !! (Z.to_nat o + i)%nat else None.
Proof.
  intros Ho Hn. unfold slice. case_decide.
  - rewrite lookup_take_lt by lia. apply lookup_drop.
  - apply lookup_take_ge. lia.
Qed.

Lemma bytes_ok_slice p o n : bytes_ok p -> bytes_ok (slice p o n).
Proof. intros H. by apply Forall_take, Forall_drop. Qed.

Lemma bytes_ok_splice p o q : bytes_ok p -> bytes_ok q -> bytes_ok (splice p o q).
Proof.
  intros Hp Hq. unfold splice, bytes_ok.
  apply Forall_app; split; [by apply Forall_take|].
  apply Forall_app; split; [done|by apply Forall_drop].
Qed.

Lemma slice_splice_other p o q o' n :
  0 <= o -> o + blen q <= blen p -> 0 <= o' -> 0 <= n ->
  o' + n <= o \/ o + blen q <= o' -> slice (splice p o q) o' n = slice p o' n.
Proof.
  intros Ho Hq Ho' Hn Hd. apply list_eq. intros i. rewrite !lookup_slice by done.
  case_decide; [|done]. rewrite lookup_splice by done. by rewrite decide_False by lia.
Qed.

Lemma blen_splice p o q : 0 <= o -> o + blen q <= blen p -> blen (splice p o q) = blen p.
Proof. intros. unfold blen at 1. by rewrite length_splice. Qed.

(** ** Counting loops

    [for (i = i0; i < i0 + n; i++) body] with an early exit on [Fail] or
    [Fault], and its invariant rule. *)
Fixpoint for_from {S : Type} (n : nat) (i : Z) (body : Z -> S -> outcome S) (s : S) : outcome S :=
  match n with
  | O => Done s
  | S n => s' ← body i s; for_from n (i + 1) body s'
  end.

Lemma for_from_inv {S : Type} (P : Z -> S -> Prop) (body : Z -> S -> outcome S) n i s :
  P i s ->
  (forall j s, i <= j < i + Z.of_nat n -> P j s -> exists s', body j s = Done s' /\ P (j + 1) s') ->
  exists s', for_from n i body s = Done s' /\ P (i + Z.of_nat n) s'.
Proof.
  revert i s. induction n as [|n IH]; intros i s H0 Hstep; cbn [for_from].
  - exists s. by rewrite Z.add_0_r.
  - destruct (Hstep i s ltac:(lia) H0) as (s1 & -> & H1). mred.
    destruct (IH (i + 1) s1 H1) as (s' & Hrun & HP).
    { intros j t Hj. apply Hstep. lia. }
    exists s'. split; [done|]. by replace (i + Z.of_nat (Datatypes.S n)) with (i + 1 + Z.of_nat n) by lia.
Qed.

(** The same loop when the state an early exit leaves behind matters. *)
Fixpoint for_state {S : Type} (n : nat) (i : Z) (body : Z -> S -> S * outcome unit) (s : S) : S * outcome unit :=
  match n with
  | O => (s, Done tt)
  | S n =>
      match body i s with
      | (s, Done _) => for_state n (i + 1) body s
      | r => r
      end
  end.

Lemma for_state_keeps {S : Type} (P : S -> Prop) (body : Z -> S -> S * outcome unit) n i s :
  (forall j s, i <= j < i + Z.of_nat n -> P s -> P (body j s).1) -> P s -> P (for_state n i body s).1.
Proof.
  revert i s. induction n as [|n IH]; intros i s Hstep Hs; cbn [for_state]; [done|].
  pose proof (Hstep i s ltac:(lia) Hs) as H1. destruct (body i s) as [s1 [[]| |]]; [|done|done].
  apply IH; [|done]. intros j t Hj. apply Hstep. lia.
Qed.

(** The first index of a range that satisfies a test, found by counting up. *)
Fixpoint search_up (n : nat) (i : Z) (test : Z -> outcome bool) : outcome (option Z) :=
  match n with
  | O => Done None
  | S n => b ← test i; if (b : bool) then Done (Some i) else search_up n (i + 1) test
  end.

Lemma search_up_spec n i test (p : Z -> bool) :
  (forall j, i <= j < i + Z.of_nat n -> test j = Done (p j)) ->
  exists r, search_up n i test = Done r /\
  match r with
  | Some k => i <= k < i + Z.of_nat n /\ p k = true /\ forall j, i <= j < k -> p j = false
  | None => forall j, i <= j < i + Z.of_nat n -> p j = false
  end.
Proof.
  revert i. induction n as [|n IH]; intros i Ht; cbn [search_up].
  - exists None. split; [done|]. intros; lia.
  - rewrite Ht by lia. mred. destruct (p i) eqn:Hp.
    + exists (Some i). split; [done|]. split_and!; [lia|lia|done|intros; lia].
    + destruct (IH (i + 1)) as (r & -> & Hr); [intros; apply Ht; lia|]. exists r. split; [done|].
      assert (forall j, i <= j -> (i + 1 <= j -> p j = false) -> p j = false) as Hcase.
      { intros j Hj H. destruct (decide (j = i)) as [->|]; [done|apply H; lia]. }
      destruct r as [k|].
      * destruct Hr as (Hk & Hpk & Hlt). split_and!; [lia|lia|done|].
        intros j Hj. apply Hcase; [lia|]. intros; apply Hlt; lia.
      * intros j Hj. apply Hcase; [lia|]. intros; apply Hr; lia.
Qed.

(** ** Tables: static arrays of records updated in place *)

Lemma list_lookup_alter_Some {A} (f : A -> A) (l : list A) (i j : nat) (y : A) :
  alter f i l !! j = Some y ->
  (i = j /\ exists x, l !! j = Some x /\ y = f x) \/ (i <> j /\ l !! j = Some y).
Proof.
  rewrite list_lookup_alter. case_decide as Hij; [subst|by right].
  intros Hy. apply fmap_Some in Hy as (x & Hx & ->). left. eauto.
Qed.

(** The index of the first entry that passes a test. *)
Definition first_index {A} (p : A -> bool) (l : list A) : option nat :=
  fst <$> list_find (fun x => p x = true) l.

Lemma first_index_Some {A} (p : A -> bool) (l : list A) i :
  first_index p l = Some i <->
  exists x, l !! i = Some x /\ p x = true /\ forall j y, l !! j = Some y -> (j < i)%nat -> p y = false.
Proof.
  unfold first_index. rewrite fmap_Some. split.
  - intros ([k x] & Hf & ->). apply list_find_Some in Hf as (Hl & Hp & Hlt). exists x.
    split_and!; [done|done|]. intros j y Hj Hji. apply not_true_is_false. eauto.
  - intros (x & Hl & Hp & Hlt). exists (i, x). split; [|done]. apply list_find_Some.
    split_and!; [done|done|]. intros j y Hj Hji. apply not_true_iff_false. eauto.
Qed.

Lemma first_index_None {A} (p : A -> bool) (l : list A) :
  first_index p l = None <-> Forall (fun x => p x = false) l.
Proof.
  unfold first_index. rewrite fmap_None, list_find_None.
  apply Forall_proper; [|done]. intros x. apply not_true_iff_false.
Qed.

Lemma first_index_alter {A} (p : A -> bool) (f : A -> A) i (l : list A) :
  (forall x, p (f x) = p x) -> first_index p (alter f i l) = first_index p l.
Proof.
  intros Hp. revert i. induction l as [|x l IH]; intros [|i]; [done|done| |].
  - unfold first_index. cbn. destruct (decide (p x = true)), (decide (p (f x) = true)); try done; congruence.
  - specialize (IH i). unfold first_index in *. cbn. case_decide; [done|].
    destruct (list_find _ (alter f i l)) as [[]|], (list_find _ l) as [[]|]; cbn in *; congruence.
Qed.

(** Counting the entries of a table that pass a test, under updates of one entry. *)
Lemma filter_length_alter {A} (p : A -> bool) (f : A -> A) (l : list A) i x :
  l !! i = Some x ->
  (length (List.filter p (alter f i l)) + (if p x then 1 else 0) =
   length (List.filter p l) + (if p (f x) then 1 else 0))%nat.
Proof.
  revert i. induction l as [|y l IH]; intros i Hi; [done|]. destruct i as [|i]; cbn in *.
  - injection Hi as ->. destruct (p x), (p (f x)); cbn; lia.
  - specialize (IH i Hi). destruct (p y); cbn; lia.
Qed.

Lemma list_alter_none {A} (f : A -> A) (l : list A) i : l !! i = None -> alter f i l = l.
Proof.
  intros Hi. apply list_eq. intros j. rewrite list_lookup_alter. case_decide; [subst j|done]. by rewrite Hi.
Qed.

Lemma filter_length_all {A} (p : A -> bool) (l : list A) :
  length (List.filter p l) = length l <-> Forall (fun x => p x = true) l.
Proof.
  induction l as [|y l IH]; [done|]. cbn. rewrite Forall_cons.
  pose proof (filter_length_le p l). destruct (p y) eqn:Hy; cbn; rewrite <- IH; split; try lia; intros []; done.
Qed.

(** An invariant of a loop over a list. *)
Lemma foldl_keeps {A B} (P : A -> Prop) (f : A -> B -> A) l a :
  (forall a b, b ∈ l -> P a -> P (f a b)) -> P a -> P (foldl f a l).
Proof.
  revert a. induction l as [|b l IH]; intros a Hf Ha; cbn [foldl]; [done|].
  apply IH; [|by apply Hf; [left|]]. intros x y Hy. apply Hf. by right.
Qed.
