(* ===== verification/Bytes.v ===== *)
(** * Byte codecs

    The fixed-width integer readers and writers that the ELF reader
    (src/src/loader/elf_reader.c), the module loader
    (src/src/loader/module_loader.c) and the USB mass-storage model
    (src/src/linux_subsystem/usb/storage.c) each define for themselves, with
    the round-trip lemmas the components share.  A pointer argument [p] of the
    C functions is a buffer and an offset into it; a read outside the buffer
    is [Fault]. *)

From S2P Require Import Prelude.

(** ** Readers *)

Definition read_u16le (p : list Z) (o : Z) : outcome Z :=
  b0 ← load8 p o; b1 ← load8 p (o + 1);
  mret (u16 (Z.lor b0 (Z.shiftl b1 8))).

Definition read_u32le (p : list Z) (o : Z) : outcome Z :=
  b0 ← load8 p o; b1 ← load8 p (o + 1); b2 ← load8 p (o + 2); b3 ← load8 p (o + 3);
  mret (Z.lor (Z.lor (Z.lor b0 (Z.shiftl b1 8)) (Z.shiftl b2 16)) (Z.shiftl b3 24)).

Definition read_u64le (p : list Z) (o : Z) : outcome Z :=
  lo ← read_u32le p o; hi ← read_u32le p (o + 4);
  mret (Z.lor lo (Z.shiftl hi 32)).

Definition read_be16 (p : list Z) (o : Z) : outcome Z :=
  b0 ← load8 p o; b1 ← load8 p (o + 1);
  mret (u16 (Z.lor (Z.shiftl b0 8) b1)).

Definition read_be32 (p : list Z) (o : Z) : outcome Z :=
  b0 ← load8 p o; b1 ← load8 p (o + 1); b2 ← load8 p (o + 2); b3 ← load8 p (o + 3);
  mret (Z.lor (Z.lor (Z.lor (Z.shiftl b0 24) (Z.shiftl b1 16)) (Z.shiftl b2 8)) b3).

(** [read_le32] of storage.c is the same function as [read_u32le]. *)
Definition read_le32 (p : list Z) (o : Z) : outcome Z :=
  b0 ← load8 p o; b1 ← load8 p (o + 1); b2 ← load8 p (o + 2); b3 ← load8 p (o + 3);
  mret (Z.lor (Z.lor (Z.lor b0 (Z.shiftl b1 8)) (Z.shiftl b2 16)) (Z.shiftl b3 24)).

(** ** Writers: the bytes stored at [p], in order. *)

Definition write_u16le (v : Z) : list Z := [u8 v; u8 (Z.shiftr v 8)].

Definition write_u32le (v : Z) : list Z :=
  [Z.land v 0xff; Z.land (Z.shiftr v 8) 0xff;
   Z.land (Z.shiftr v 16) 0xff; Z.land (Z.shiftr v 24) 0xff].

Definition write_u64le (v : Z) : list Z :=
  write_u32le (Z.land v 0xffffffff) ++ write_u32le (u32 (Z.shiftr v 32)).

Definition write_be32 (v : Z) : list Z :=
  [u8 (Z.shiftr v 24); u8 (Z.shiftr v 16); u8 (Z.shiftr v 8); u8 v].

Definition write_le32 (v : Z) : list Z :=
  [u8 v; u8 (Z.shiftr v 8); u8 (Z.shiftr v 16); u8 (Z.shiftr v 24)].

(** ** Arithmetic of the readers *)

Lemma le16_sum b0 b1 : is_u8 b0 -> is_u8 b1 -> Z.lor b0 (Z.shiftl b1 8) = b0 + b1 * 256.
Proof. intros H0 H1. unfold is_u8 in *. apply (lor_shiftl_add b0 b1 8); lia. Qed.

Lemma le32_sum b0 b1 b2 b3 : is_u8 b0 -> is_u8 b1 -> is_u8 b2 -> is_u8 b3 ->
  Z.lor (Z.lor (Z.lor b0 (Z.shiftl b1 8)) (Z.shiftl b2 16)) (Z.shiftl b3 24) =
  b0 + b1 * 256 + b2 * 65536 + b3 * 16777216.
Proof.
  intros H0 H1 H2 H3. rewrite le16_sum by done. unfold is_u8 in *.
  rewrite (lor_shiftl_add _ b2 16) by lia. rewrite (lor_shiftl_add _ b3 24) by lia. lia.
Qed.

Lemma be32_sum b0 b1 b2 b3 : is_u8 b0 -> is_u8 b1 -> is_u8 b2 -> is_u8 b3 ->
  Z.lor (Z.lor (Z.lor (Z.shiftl b0 24) (Z.shiftl b1 16)) (Z.shiftl b2 8)) b3 =
  b3 + b2 * 256 + b1 * 65536 + b0 * 16777216.
Proof.
  intros H0 H1 H2 H3. rewrite <- (le32_sum b3 b2 b1 b0) by done.
  apply Z.bits_inj'. intros n _. rewrite !Z.lor_spec.
  by destruct (Z.testbit b3 n), (Z.testbit _ n), (Z.testbit _ n), (Z.testbit _ n).
Qed.

(** ** Readers stay inside a long enough buffer *)

Section reader_safety.
Context (p : list Z) (o : Z) (Hp : bytes_ok p).

Lemma read_u16le_safe : 0 <= o -> o + 2 <= blen p -> safe (read_u16le p o).
Proof. intros. unfold read_u16le. safe_steps; apply load8_safe; lia. Qed.

Lemma read_u32le_safe : 0 <= o -> o + 4 <= blen p -> safe (read_u32le p o).
Proof. intros. unfold read_u32le. safe_steps; apply load8_safe; lia. Qed.

Lemma read_u16le_range v : read_u16le p o = Done v -> is_u16 v.
Proof.
  unfold read_u16le. destruct (load8 p o); cbn; try done.
  destruct (load8 p (o + 1)); cbn; try done. intros [= <-]. apply u16_range.
Qed.

Lemma read_u32le_range v : read_u32le p o = Done v -> is_u32 v.
Proof.
  unfold read_u32le.
  destruct (load8 p o) as [b0| |] eqn:E0; cbn; try done.
  destruct (load8 p (o + 1)) as [b1| |] eqn:E1; cbn; try done.
  destruct (load8 p (o + 2)) as [b2| |] eqn:E2; cbn; try done.
  destruct (load8 p (o + 3)) as [b3| |] eqn:E3; cbn; try done.
  apply load8_byte in E0, E1, E2, E3; try done.
  intros [= <-]. rewrite le32_sum by done. unfold is_u8, is_u32 in *. lia.
Qed.
End reader_safety.

Lemma read_u64le_safe p o : 0 <= o -> o + 8 <= blen p -> safe (read_u64le p o).
Proof. intros. unfold read_u64le. safe_steps; apply read_u32le_safe; lia. Qed.

Lemma read_u64le_range p o v : bytes_ok p -> read_u64le p o = Done v -> is_u64 v.
Proof.
  intros Hp. unfold read_u64le.
  destruct (read_u32le p o) as [lo| |] eqn:E0; cbn; try done.
  destruct (read_u32le p (o + 4)) as [hi| |] eqn:E1; cbn; try done.
  apply read_u32le_range in E0, E1; try done. unfold is_u32, is_u64 in *.
  intros [= <-]. rewrite (lor_shiftl_add lo hi 32) by lia. lia.
Qed.

(** Turn the known results of readers into their ranges. *)
Ltac reader_ranges :=
  repeat match goal with
  | H : read_u64le _ _ = Done _ |- _ => apply read_u64le_range in H; [|done]
  | H : read_u32le _ _ = Done _ |- _ => apply read_u32le_range in H; [|done]
  | H : read_u16le _ _ = Done _ |- _ => apply read_u16le_range in H
  end; unfold is_u64, is_u32, is_u16 in *.

(** A read at a fixed distance from an offset known to be in range. *)
Ltac solve_read :=
  first [ apply read_u64le_safe; lia | apply read_u32le_safe; lia
        | apply read_u16le_safe; lia | apply load8_safe; lia ].

#[export] Hint Resolve load8_safe read_u16le_safe read_u32le_safe read_u64le_safe : safety.

(** ** Round trips *)

(** The bytes [q] sit at offset [o] of [p]. *)
Definition bytes_at (p : list Z) (o : Z) (q : list Z) : Prop :=
  0 <= o /\ slice p o (blen q) = q.

Lemma bytes_at_app p o q r :
  bytes_at p o (q ++ r) -> bytes_at p o q /\ bytes_at p (o + blen q) r.
Proof.
  intros [Ho H]. unfold bytes_at, slice, blen in *.
  pose proof (f_equal length H) as HL.
  rewrite length_take, length_drop, length_app in HL. rewrite length_app in H.
  replace (Z.to_nat (Z.of_nat (length q + length r))) with (length q + length r)%nat in H by lia.
  rewrite <- take_take_drop in H.
  apply app_inj_1 in H as [Hq Hr]; [|rewrite length_take, length_drop; lia].
  rewrite !Nat2Z.id. split; [done|split; [lia|]].
  rewrite drop_drop in Hr. rewrite <- Hr at 2. f_equal. f_equal. lia.
Qed.

Lemma bytes_at_load p o q k b :
  0 <= k -> bytes_at p o q -> q !! Z.to_nat k = Some b -> load8 p (o + k) = Done b.
Proof.
  intros Hk [Ho H] Hi. pose proof (lookup_lt_Some _ _ _ Hi).
  rewrite <- H in Hi. rewrite lookup_slice in Hi by (unfold blen; lia).
  case_decide; [|done]. pose proof (lookup_lt_Some _ _ _ Hi).
  rewrite load8_in by (unfold blen; lia). f_equal.
  rewrite nth_lookup. replace (Z.to_nat (o + k)) with (Z.to_nat o + Z.to_nat k)%nat by lia.
  by rewrite Hi.
Qed.

Lemma bytes_at_load0 p o q b : bytes_at p o (b :: q) -> load8 p o = Done b.
Proof. intros H. rewrite <- (Z.add_0_r o). by apply (bytes_at_load p o (b :: q)). Qed.

(** A piece of known bytes, at its distance from the start. *)
Lemma bytes_at_sub p o q k r :
  0 <= k -> bytes_at p o q -> slice q k (blen r) = r -> bytes_at p (o + k) r.
Proof.
  intros Hk [Ho H] Hr. split; [lia|].
  pose proof (f_equal length Hr) as HL. unfold slice, blen in *.
  rewrite length_take, length_drop in HL. rewrite <- H in Hr.
  rewrite skipn_firstn_comm, take_take, drop_drop in Hr.
  rewrite <- Hr at 2. f_equal; [lia|]. f_equal. lia.
Qed.

Lemma bytes_at_prefix p o q r : bytes_at p o q -> slice q 0 (blen r) = r -> bytes_at p o r.
Proof. intros H Hr. rewrite <- (Z.add_0_r o). by apply (bytes_at_sub _ _ q). Qed.

(** Replace the loads of a reader by the bytes known to be there. *)
Ltac load_bytes H :=
  rewrite ?(bytes_at_load0 _ _ _ _ H);
  repeat match goal with
  | |- context [load8 _ (_ + Zpos ?k)] =>
      rewrite (bytes_at_load _ _ _ (Zpos k) _ ltac:(lia) H eq_refl)
  end;
  cbn [mbind outcome_bind mret outcome_ret].

Lemma bytes_at_splice p o q : 0 <= o -> o + blen q <= blen p -> bytes_at (splice p o q) o q.
Proof. intros. split; [done|]. by apply slice_splice_same. Qed.

Lemma land_ff v : Z.land v 0xff = v mod 256.
Proof. change 0xff with (Z.ones 8). by rewrite Z.land_ones by lia. Qed.

Lemma land_ffffffff v : Z.land v 0xffffffff = v mod 0x100000000.
Proof. change 0xffffffff with (Z.ones 32). by rewrite Z.land_ones by lia. Qed.

Ltac shift_arith :=
  rewrite ?land_ff, ?land_ffffffff, ?Z.shiftr_div_pow2 in * by lia;
  change (2 ^ 8) with 256 in *; change (2 ^ 16) with 65536 in *;
  change (2 ^ 24) with 16777216 in *; change (2 ^ 32) with 4294967296 in *;
  unfold_ints; Z.to_euclidean_division_equations; lia.

Lemma read_write_u16le p o v : is_u16 v -> bytes_at p o (write_u16le v) -> read_u16le p o = Done v.
Proof.
  intros Hv H. unfold read_u16le.
  load_bytes H. f_equal.
  rewrite le16_sum by apply u8_range. shift_arith.
Qed.

Lemma read_write_u32le p o v : is_u32 v -> bytes_at p o (write_u32le v) -> read_u32le p o = Done v.
Proof.
  intros Hv H. unfold read_u32le.
  load_bytes H. f_equal.
  rewrite le32_sum by (rewrite land_ff; apply u8_range). shift_arith.
Qed.

Lemma write_u32le_length v : length (write_u32le v) = 4%nat.
Proof. done. Qed.
Lemma write_u64le_length v : length (write_u64le v) = 8%nat.
Proof. done. Qed.

Lemma read_write_u64le p o v : is_u64 v -> bytes_at p o (write_u64le v) -> read_u64le p o = Done v.
Proof.
  intros Hv H. unfold write_u64le in H. apply bytes_at_app in H as [Hlo Hhi].
  change (blen (write_u32le (Z.land v 0xffffffff))) with 4 in Hhi.
  rewrite land_ffffffff in Hlo. unfold read_u64le.
  rewrite (read_write_u32le _ _ _ (u32_range _) Hlo).
  cbn [mbind outcome_bind]. rewrite (read_write_u32le _ _ _ (u32_range _) Hhi).
  cbn [mbind outcome_bind mret outcome_ret]. f_equal.
  pose proof (u32_range v) as Hl. pose proof (u32_range (Z.shiftr v 32)) as Hh. unfold is_u32 in Hl, Hh.
  rewrite (lor_shiftl_add (u32 v) _ 32) by lia. shift_arith.
Qed.

Lemma read_write_le32 p o v : is_u32 v -> bytes_at p o (write_le32 v) -> read_le32 p o = Done v.
Proof.
  intros Hv H. unfold read_le32.
  load_bytes H. f_equal.
  rewrite le32_sum by apply u8_range. shift_arith.
Qed.

Lemma read_write_be32 p o v : is_u32 v -> bytes_at p o (write_be32 v) -> read_be32 p o = Done v.
Proof.
  intros Hv H. unfold read_be32.
  load_bytes H. f_equal.
  rewrite be32_sum by apply u8_range. shift_arith.
Qed.

Lemma read_write_be16 p o v :
  is_u16 v -> bytes_at p o [u8 (Z.shiftr v 8); u8 v] -> read_be16 p o = Done v.
Proof.
  intros Hv H. unfold read_be16. load_bytes H. f_equal.
  rewrite Z.lor_comm, le16_sum by apply u8_range. shift_arith.
Qed.

Lemma bytes_ok_write_u32le v : bytes_ok (write_u32le v).
Proof. repeat constructor; rewrite ?land_ff; apply u8_range. Qed.
Lemma bytes_ok_write_u64le v : bytes_ok (write_u64le v).
Proof. apply Forall_app; split; apply bytes_ok_write_u32le. Qed.
