(* ===== verification/ElfReader.v ===== *)
(** * The ELF reader (src/src/loader/elf_reader.c, src/include/kobox/elf.h)

    The parser the module loader runs on an untrusted [.ko] image: the ELF
    header, the section table, symbol and relocation entries and the
    [.modinfo] section.  A file is the list of its bytes; every access the C
    code makes is a checked load, so the safety theorems rule out reads past
    the image for every input.  A [const char *] result is the C string found
    at that pointer (the bytes before the NUL), a NULL pointer argument is
    [None] (or [false] for an out-pointer). *)

From S2P Require Import Prelude Bytes.

(** ** Constants of elf.h and elf_reader.c *)

Definition KB_ELF_ET_REL : Z := 1.
Definition KB_ELF_EM_X86_64 : Z := 62.
Definition KB_ELF_SHT_PROGBITS : Z := 1.
Definition KB_ELF_SHT_SYMTAB : Z := 2.
Definition KB_ELF_SHT_STRTAB : Z := 3.
Definition KB_ELF_SHT_RELA : Z := 4.
Definition KB_ELF_SHT_REL : Z := 9.
Definition KB_ELF_SHT_DYNSYM : Z := 11.
Definition elf64_header_size : Z := 64.
Definition elf64_section_header_size : Z := 64.
Definition elf64_symbol_size : Z := 24.
Definition elf64_rela_size : Z := 24.
Definition elf64_rel_size : Z := 16.
Definition shn_xindex : Z := 0xffff.

(** ** Data *)

Record kb_elf_file := mk_elf_file {
  file_data : list Z;
  file_size : Z;
  file_type : Z;
  file_machine : Z;
  file_entry : Z;
  file_section_header_offset : Z;
  file_section_header_entry_size : Z;
  file_section_count : Z;
  file_section_name_index : Z;
}.

Record kb_elf_section_t := mk_elf_section {
  sec_name : list Z;
  sec_type : Z;
  sec_flags : Z;
  sec_address : Z;
  sec_offset : Z;
  sec_size : Z;
  sec_link : Z;
  sec_info : Z;
  sec_alignment : Z;
  sec_entry_size : Z;
}.

Record kb_elf_symbol_t := mk_elf_symbol {
  sym_name : list Z;
  sym_binding : Z;
  sym_type : Z;
  sym_visibility : Z;
  sym_section_index : Z;
  sym_value : Z;
  sym_size : Z;
}.

Record kb_elf_relocation_t := mk_elf_relocation {
  rel_offset : Z;
  rel_type : Z;
  rel_symbol_index : Z;
  rel_addend : Z;
  rel_has_addend : bool;
  rel_target_section_index : Z;
  rel_symbol_table_section_index : Z;
}.

(** The pointers of a modinfo entry are offsets into the image. *)
Record kb_elf_modinfo_entry_t := mk_elf_modinfo_entry {
  mod_key : Z;
  mod_key_size : Z;
  mod_value : Z;
  mod_value_size : Z;
}.

(** ** Helpers *)

Definition range_fits (size offset length : Z) : bool :=
  if size <? offset then false
  else if u64 (size - offset) <? length then false
  else true.

(** The scan of [bounded_section_name]; [pos] runs from [offset] to
    [strings_size] and the string table starts at [base]. *)
Fixpoint bounded_name_loop (fuel : nat) (data : list Z) (base strings_size offset pos : Z)
    : outcome (list Z) :=
  match fuel with
  | O => Fault
  | S fuel' =>
      if pos <? strings_size then
        b ← load8 data (base + pos);
        if b =? 0 then mret (slice data (base + offset) (pos - offset))
        else bounded_name_loop fuel' data base strings_size offset (pos + 1)
      else mret []
  end.

Definition bounded_section_name (data : list Z) (base strings_size offset : Z)
    : outcome (list Z) :=
  if strings_size <=? offset then mret []
  else bounded_name_loop (S (Z.to_nat (strings_size - offset))) data base strings_size offset offset.

(** ** The header and the section table *)

Definition kb_elf_open (data : option (list Z)) (out_file : bool) : outcome kb_elf_file :=
  match data with
  | None => Fail KB_ERR_INVALID
  | Some bytes =>
      let size := blen bytes in
      if negb out_file || (size <? elf64_header_size) then Fail KB_ERR_INVALID else
      b0 ← load8 bytes 0; b1 ← load8 bytes 1; b2 ← load8 bytes 2; b3 ← load8 bytes 3;
      if negb ((b0 =? 0x7f) && (b1 =? 0x45) && (b2 =? 0x4c) && (b3 =? 0x46))
      then Fail KB_ERR_INVALID else
      b4 ← load8 bytes 4; b5 ← load8 bytes 5; b6 ← load8 bytes 6;
      if negb ((b4 =? 2) && (b5 =? 1) && (b6 =? 1)) then Fail KB_ERR_UNSUPPORTED else
      section_entry_size ← read_u16le bytes 58;
      section_count ← read_u16le bytes 60;
      section_name_index ← read_u16le bytes 62;
      section_offset ← read_u64le bytes 40;
      header_size ← read_u16le bytes 52;
      if negb (header_size =? elf64_header_size) then Fail KB_ERR_UNSUPPORTED else
      if negb (section_entry_size =? elf64_section_header_size) then Fail KB_ERR_UNSUPPORTED else
      if (section_count =? 0) || (section_name_index =? shn_xindex)
         || (section_count <=? section_name_index) then Fail KB_ERR_UNSUPPORTED else
      if negb (range_fits size section_offset (u64 (section_entry_size * section_count)))
      then Fail KB_ERR_INVALID else
      type ← read_u16le bytes 16;
      machine ← read_u16le bytes 18;
      entry ← read_u64le bytes 24;
      mret (mk_elf_file bytes size type machine entry section_offset section_entry_size
              section_count section_name_index)
  end.

Definition kb_elf_section_count (file : option kb_elf_file) : Z :=
  match file with
  | None => 0
  | Some f => file_section_count f
  end.

Definition kb_elf_section (file : option kb_elf_file) (index : Z) (out_section : bool)
    : outcome kb_elf_section_t :=
  match file with
  | None => Fail KB_ERR_INVALID
  | Some f =>
      if negb out_section || (file_section_count f <=? index) then Fail KB_ERR_INVALID else
      let data := file_data f in
      let section_offset := u64 (file_section_header_offset f
                                 + u64 (index * file_section_header_entry_size f)) in
      if negb (range_fits (file_size f) section_offset elf64_section_header_size)
      then Fail KB_ERR_INVALID else
      let name_section_offset := u64 (file_section_header_offset f
              + u64 (file_section_name_index f * file_section_header_entry_size f)) in
      if negb (range_fits (file_size f) name_section_offset elf64_section_header_size)
      then Fail KB_ERR_INVALID else
      strings_offset ← read_u64le data (name_section_offset + 24);
      strings_size ← read_u64le data (name_section_offset + 32);
      name ← (if range_fits (file_size f) strings_offset strings_size then
                name_offset ← read_u32le data section_offset;
                bounded_section_name data strings_offset strings_size name_offset
              else mret []);
      type ← read_u32le data (section_offset + 4);
      flags ← read_u64le data (section_offset + 8);
      address ← read_u64le data (section_offset + 16);
      offset ← read_u64le data (section_offset + 24);
      size ← read_u64le data (section_offset + 32);
      link ← read_u32le data (section_offset + 40);
      info ← read_u32le data (section_offset + 44);
      alignment ← read_u64le data (section_offset + 48);
      entry_size ← read_u64le data (section_offset + 56);
      mret (mk_elf_section name type flags address offset size link info alignment entry_size)
  end.

(** [section_bytes] returns 0 ([None]) or a pointer into the image and a size. *)
Definition section_bytes (f : kb_elf_file) (section_index : Z) : outcome (option (Z * Z)) :=
  match kb_elf_section (Some f) section_index true with
  | Fault => Fault
  | Fail _ => mret None
  | Done section =>
      if negb (range_fits (file_size f) (sec_offset section) (sec_size section)) then mret None
      else mret (Some (sec_offset section, sec_size section))
  end.

(** ** Symbols *)

Definition is_symbol_table (s : kb_elf_section_t) : bool :=
  (sec_type s =? KB_ELF_SHT_SYMTAB) || (sec_type s =? KB_ELF_SHT_DYNSYM).

Definition kb_elf_symbol_count (file : option kb_elf_file) (section_index : Z) (out_count : bool)
    : outcome Z :=
  match file with
  | None => Fail KB_ERR_INVALID
  | Some f =>
      if negb out_count then Fail KB_ERR_INVALID else
      section ← kb_elf_section file section_index true;
      if negb (is_symbol_table section) then Fail KB_ERR_INVALID else
      if negb (sec_entry_size section =? elf64_symbol_size)
         || negb (sec_size section mod elf64_symbol_size =? 0) then Fail KB_ERR_UNSUPPORTED else
      if negb (range_fits (file_size f) (sec_offset section) (sec_size section))
      then Fail KB_ERR_INVALID else
      mret (sec_size section / elf64_symbol_size)
  end.

Definition kb_elf_symbol (file : option kb_elf_file) (section_index symbol_index : Z)
    (out_symbol : bool) : outcome kb_elf_symbol_t :=
  match file with
  | None => Fail KB_ERR_INVALID
  | Some f =>
      if negb out_symbol then Fail KB_ERR_INVALID else
      symbol_section ← kb_elf_section file section_index true;
      if negb (is_symbol_table symbol_section) then Fail KB_ERR_INVALID else
      if negb (sec_entry_size symbol_section =? elf64_symbol_size)
         || negb (sec_size symbol_section mod elf64_symbol_size =? 0)
      then Fail KB_ERR_UNSUPPORTED else
      if sec_size symbol_section / elf64_symbol_size <=? symbol_index
      then Fail KB_ERR_INVALID else
      if file_section_count f <=? sec_link symbol_section then Fail KB_ERR_INVALID else
      string_section ← kb_elf_section file (sec_link symbol_section) true;
      if negb (sec_type string_section =? KB_ELF_SHT_STRTAB) then Fail KB_ERR_INVALID else
      if negb (range_fits (file_size f) (sec_offset string_section) (sec_size string_section))
      then Fail KB_ERR_INVALID else
      let symbol_offset := u64 (sec_offset symbol_section
                                + u64 (symbol_index * elf64_symbol_size)) in
      if negb (range_fits (file_size f) symbol_offset elf64_symbol_size)
      then Fail KB_ERR_INVALID else
      let data := file_data f in
      name_offset ← read_u32le data symbol_offset;
      info ← load8 data (symbol_offset + 4);
      name ← bounded_section_name data (sec_offset string_section) (sec_size string_section)
               name_offset;
      other ← load8 data (symbol_offset + 5);
      section_idx ← read_u16le data (symbol_offset + 6);
      value ← read_u64le data (symbol_offset + 8);
      size ← read_u64le data (symbol_offset + 16);
      mret (mk_elf_symbol name (Z.shiftr info 4) (Z.land info 0x0f) (Z.land other 0x03)
              section_idx value size)
  end.

(** ** Relocations *)

Definition is_relocation_table (s : kb_elf_section_t) : bool :=
  (sec_type s =? KB_ELF_SHT_RELA) || (sec_type s =? KB_ELF_SHT_REL).

Definition expected_entry_size (s : kb_elf_section_t) : Z :=
  if sec_type s =? KB_ELF_SHT_RELA then elf64_rela_size else elf64_rel_size.

Definition kb_elf_relocation_count (file : option kb_elf_file) (section_index : Z)
    (out_count : bool) : outcome Z :=
  match file with
  | None => Fail KB_ERR_INVALID
  | Some f =>
      if negb out_count then Fail KB_ERR_INVALID else
      section ← kb_elf_section file section_index true;
      if negb (is_relocation_table section) then Fail KB_ERR_INVALID else
      let expected := expected_entry_size section in
      if negb (sec_entry_size section =? expected) || negb (sec_size section mod expected =? 0)
      then Fail KB_ERR_UNSUPPORTED else
      if negb (range_fits (file_size f) (sec_offset section) (sec_size section))
      then Fail KB_ERR_INVALID else
      mret (sec_size section / expected)
  end.

Definition kb_elf_relocation (file : option kb_elf_file) (section_index relocation_index : Z)
    (out_relocation : bool) : outcome kb_elf_relocation_t :=
  match file with
  | None => Fail KB_ERR_INVALID
  | Some f =>
      if negb out_relocation then Fail KB_ERR_INVALID else
      section ← kb_elf_section file section_index true;
      if negb (is_relocation_table section) then Fail KB_ERR_INVALID else
      if (file_section_count f <=? sec_link section) || (file_section_count f <=? sec_info section)
      then Fail KB_ERR_INVALID else
      let expected := expected_entry_size section in
      if negb (sec_entry_size section =? expected) || negb (sec_size section mod expected =? 0)
      then Fail KB_ERR_UNSUPPORTED else
      if sec_size section / expected <=? relocation_index then Fail KB_ERR_INVALID else
      let relocation_offset := u64 (sec_offset section + u64 (relocation_index * expected)) in
      if negb (range_fits (file_size f) relocation_offset expected) then Fail KB_ERR_INVALID else
      let data := file_data f in
      info ← read_u64le data (relocation_offset + 8);
      offset ← read_u64le data relocation_offset;
      let has_addend := sec_type section =? KB_ELF_SHT_RELA in
      addend ← (if has_addend then
                  a ← read_u64le data (relocation_offset + 16); mret (s64 a)
                else mret 0);
      mret (mk_elf_relocation offset (u32 (Z.land info 0xffffffff)) (u32 (Z.shiftr info 32))
              addend has_addend (sec_info section) (sec_link section))
  end.

(** ** The [.modinfo] section *)

Definition modinfo_name : list Z := cstr ".modinfo".

(** [while (cursor < size && bytes[cursor] == 0) cursor++] when [stop_at_nul]
    is false, and the loop with [!= 0] when it is true. *)
Fixpoint nul_scan (fuel : nat) (data : list Z) (base size : Z) (stop_at_nul : bool) (cursor : Z)
    : outcome Z :=
  match fuel with
  | O => Fault
  | S fuel' =>
      if cursor <? size then
        b ← load8 data (base + cursor);
        if Bool.eqb (b =? 0) stop_at_nul then mret cursor
        else nul_scan fuel' data base size stop_at_nul (cursor + 1)
      else mret cursor
  end.

(** The three results of [next_nul_entry]: 0 (no more entries), -1 (an entry
    with no terminator) and 1 with the entry's start, size and next cursor. *)
Inductive nul_entry :=
  | NoEntry
  | Unterminated
  | Entry (start entry_size cursor : Z).

Definition next_nul_entry (data : list Z) (base size cursor : Z) : outcome nul_entry :=
  let fuel := S (Z.to_nat (size - cursor)) in
  cursor ← nul_scan fuel data base size false cursor;
  if size <=? cursor then mret NoEntry else
  let start := cursor in
  cursor ← nul_scan fuel data base size true cursor;
  if size <=? cursor then mret Unterminated else
  mret (Entry start (cursor - start) (cursor + 1)).

Fixpoint modinfo_section_loop (fuel : nat) (f : kb_elf_file) (i : Z) : outcome Z :=
  match fuel with
  | O => Fault
  | S fuel' =>
      if i <? kb_elf_section_count (Some f) then
        section ← kb_elf_section (Some f) i true;
        if (sec_type section =? KB_ELF_SHT_PROGBITS) && bool_decide (sec_name section = modinfo_name)
        then mret i
        else modinfo_section_loop fuel' f (i + 1)
      else Fail KB_ERR_NOT_FOUND
  end.

Definition kb_elf_modinfo_section (file : option kb_elf_file) (out_section_index : bool)
    : outcome Z :=
  match file with
  | None => Fail KB_ERR_INVALID
  | Some f =>
      if negb out_section_index then Fail KB_ERR_INVALID else
      modinfo_section_loop (S (Z.to_nat (kb_elf_section_count file))) f 0
  end.

(** The guards both modinfo accessors start with; the result is the section's
    place in the image. *)
Definition modinfo_bytes (file : option kb_elf_file) (section_index : Z) (out : bool)
    : outcome (list Z * Z * Z) :=
  match file with
  | None => Fail KB_ERR_INVALID
  | Some f =>
      if negb out then Fail KB_ERR_INVALID else
      section ← kb_elf_section file section_index true;
      if negb (bool_decide (sec_name section = modinfo_name))
         || negb (sec_type section =? KB_ELF_SHT_PROGBITS) then Fail KB_ERR_INVALID else
      bytes ← section_bytes f section_index;
      match bytes with
      | None => Fail KB_ERR_INVALID
      | Some (base, size) => mret (file_data f, base, size)
      end
  end.

Fixpoint modinfo_count_loop (fuel : nat) (data : list Z) (base size cursor count : Z)
    : outcome Z :=
  match fuel with
  | O => Fault
  | S fuel' =>
      if cursor <? size then
        entry ← next_nul_entry data base size cursor;
        match entry with
        | Unterminated => Fail KB_ERR_INVALID
        | NoEntry => mret count
        | Entry _ _ cursor' => modinfo_count_loop fuel' data base size cursor' (count + 1)
        end
      else mret count
  end.

Definition kb_elf_modinfo_entry_count (file : option kb_elf_file) (section_index : Z)
    (out_count : bool) : outcome Z :=
  '(data, base, size) ← modinfo_bytes file section_index out_count;
  modinfo_count_loop (S (Z.to_nat size)) data base size 0 0.

(** [while (equals_index < entry_size && entry[equals_index] != '=')] *)
Fixpoint equals_scan (fuel : nat) (data : list Z) (entry entry_size equals_index : Z) : outcome Z :=
  match fuel with
  | O => Fault
  | S fuel' =>
      if equals_index <? entry_size then
        b ← load8 data (entry + equals_index);
        if b =? 0x3d then mret equals_index
        else equals_scan fuel' data entry entry_size (equals_index + 1)
      else mret equals_index
  end.

Fixpoint modinfo_entry_loop (fuel : nat) (data : list Z) (base size cursor current entry_index : Z)
    : outcome kb_elf_modinfo_entry_t :=
  match fuel with
  | O => Fault
  | S fuel' =>
      if cursor <? size then
        found ← next_nul_entry data base size cursor;
        match found with
        | Unterminated => Fail KB_ERR_INVALID
        | NoEntry => Fail KB_ERR_NOT_FOUND
        | Entry start entry_size cursor' =>
            if negb (current =? entry_index)
            then modinfo_entry_loop fuel' data base size cursor' (current + 1) entry_index
            else
              let entry := base + start in
              equals_index ← equals_scan (S (Z.to_nat entry_size)) data entry entry_size 0;
              if equals_index =? entry_size then Fail KB_ERR_INVALID else
              mret (mk_elf_modinfo_entry entry equals_index (entry + equals_index + 1)
                      (entry_size - equals_index - 1))
        end
      else Fail KB_ERR_NOT_FOUND
  end.

Definition kb_elf_modinfo_entry (file : option kb_elf_file) (section_index entry_index : Z)
    (out_entry : bool) : outcome kb_elf_modinfo_entry_t :=
  '(data, base, size) ← modinfo_bytes file section_index out_entry;
  modinfo_entry_loop (S (Z.to_nat size)) data base size 0 0 entry_index.

(** ** Names *)

Definition kb_elf_type_name (type : Z) : string :=
  match type with
  | 0 => "NONE" | 1 => "REL" | 2 => "EXEC" | 3 => "DYN" | _ => "UNKNOWN"
  end.

Definition kb_elf_machine_name (machine : Z) : string :=
  match machine with
  | 62 => "x86_64" | _ => "unknown"
  end.

Definition kb_elf_section_type_name (type : Z) : string :=
  match type with
  | 0 => "NULL" | 1 => "PROGBITS" | 2 => "SYMTAB" | 3 => "STRTAB" | 4 => "RELA"
  | 8 => "NOBITS" | 9 => "REL" | 11 => "DYNSYM" | _ => "UNKNOWN"
  end.

Definition kb_elf_symbol_binding_name (binding : Z) : string :=
  match binding with
  | 0 => "LOCAL" | 1 => "GLOBAL" | 2 => "WEAK" | _ => "UNKNOWN"
  end.

Definition kb_elf_symbol_type_name (type : Z) : string :=
  match type with
  | 0 => "NOTYPE" | 1 => "OBJECT" | 2 => "FUNC" | 3 => "SECTION" | 4 => "FILE"
  | 5 => "COMMON" | 6 => "TLS" | _ => "UNKNOWN"
  end.

Definition kb_elf_x86_64_relocation_type_name (type : Z) : string :=
  match type with
  | 0 => "R_X86_64_NONE" | 1 => "R_X86_64_64" | 2 => "R_X86_64_PC32"
  | 3 => "R_X86_64_GOT32" | 4 => "R_X86_64_PLT32" | 6 => "R_X86_64_GLOB_DAT"
  | 7 => "R_X86_64_JUMP_SLOT" | 8 => "R_X86_64_RELATIVE" | 9 => "R_X86_64_GOTPCREL"
  | 10 => "R_X86_64_32" | 11 => "R_X86_64_32S" | 24 => "R_X86_64_PC64"
  | 41 => "R_X86_64_GOTPCRELX" | 42 => "R_X86_64_REX_GOTPCRELX" | _ => "R_X86_64_UNKNOWN"
  end.

(** ** Memory safety

    A file structure is coherent when its size is the length of its buffer.
    Nothing else is assumed of it: the header fields, the section contents
    and the indices the caller passes are arbitrary. *)

Definition file_coherent (f : kb_elf_file) : Prop :=
  file_size f = blen (file_data f) /\ is_u64 (blen (file_data f)) /\ bytes_ok (file_data f).

Lemma range_fits_true size offset length :
  is_u64 size -> 0 <= offset -> range_fits size offset length = true ->
  offset + length <= size /\ offset <= size.
Proof.
  unfold range_fits. intros Hs Ho.
  destruct (Z.ltb_spec size offset); [done|].
  rewrite u64_small by (unfold is_u64 in *; lia).
  destruct (Z.ltb_spec (size - offset) length); [done|]. lia.
Qed.

Lemma range_fits_intro size offset length :
  is_u64 size -> 0 <= offset -> 0 <= length -> offset + length <= size ->
  range_fits size offset length = true.
Proof.
  unfold range_fits. intros Hs Ho Hl H.
  destruct (Z.ltb_spec size offset); [lia|].
  rewrite u64_small by (unfold is_u64 in *; lia).
  destruct (Z.ltb_spec (size - offset) length); [lia|done].
Qed.

(** Where a loop over [[pos, limit)] inside the buffer is safe. *)
Lemma bounded_name_loop_safe fuel data base strings_size offset pos :
  0 <= base -> base + strings_size <= blen data -> 0 <= pos ->
  (Z.to_nat (strings_size - pos) < fuel)%nat ->
  safe (bounded_name_loop fuel data base strings_size offset pos).
Proof.
  revert pos. induction fuel as [|fuel IH]; intros pos Hb Hs Hp Hf; [lia|]. simpl.
  destruct (Z.ltb_spec pos strings_size); safe_steps; [apply load8_safe; lia|].
  apply IH; lia.
Qed.

Lemma bounded_section_name_safe data base strings_size offset :
  0 <= base -> base + strings_size <= blen data -> 0 <= offset ->
  safe (bounded_section_name data base strings_size offset).
Proof.
  intros. unfold bounded_section_name. safe_steps. apply bounded_name_loop_safe; lia.
Qed.

Lemma nul_scan_safe fuel data base size stop cursor :
  0 <= base -> base + size <= blen data -> 0 <= cursor ->
  (Z.to_nat (size - cursor) < fuel)%nat ->
  safe (nul_scan fuel data base size stop cursor).
Proof.
  revert cursor. induction fuel as [|fuel IH]; intros cursor Hb Hs Hp Hf; [lia|]. simpl.
  destruct (Z.ltb_spec cursor size); safe_steps; [apply load8_safe; lia|].
  apply IH; lia.
Qed.

Lemma nul_scan_ge fuel data base size stop cursor c :
  nul_scan fuel data base size stop cursor = Done c -> cursor <= c.
Proof.
  revert cursor. induction fuel as [|fuel IH]; intros cursor; simpl; [done|].
  destruct (cursor <? size); [|intros [= <-]; lia].
  destruct (load8 data (base + cursor)) as [b| |]; cbn; try done.
  destruct (Bool.eqb (b =? 0) stop); [intros [= <-]; lia|].
  intros H%IH. lia.
Qed.

Lemma next_nul_entry_safe data base size cursor :
  0 <= base -> base + size <= blen data -> 0 <= cursor ->
  safe (next_nul_entry data base size cursor).
Proof.
  intros Hb Hs Hc. unfold next_nul_entry. safe_steps; [apply nul_scan_safe; lia|].
  match goal with H : nul_scan _ _ _ _ _ _ = Done _ |- _ => apply nul_scan_ge in H end.
  apply nul_scan_safe; lia.
Qed.

(** An entry makes progress and stays inside the section. *)
Lemma next_nul_entry_progress data base size cursor start n cursor' :
  next_nul_entry data base size cursor = Done (Entry start n cursor') ->
  cursor <= start /\ 0 <= n /\ start + n < size /\ cursor' = start + n + 1.
Proof.
  unfold next_nul_entry. cbn zeta.
  destruct (nul_scan _ _ _ _ false cursor) as [c| |] eqn:E1; mred; try done.
  destruct (Z.leb_spec size c); [done|].
  destruct (nul_scan _ _ _ _ true c) as [c2| |] eqn:E2; mred; try done.
  destruct (Z.leb_spec size c2); [done|]. intros [= <- <- <-].
  apply nul_scan_ge in E1, E2. lia.
Qed.

Lemma modinfo_count_loop_safe fuel data base size cursor count :
  0 <= base -> base + size <= blen data -> 0 <= cursor ->
  (Z.to_nat (size - cursor) < fuel)%nat ->
  safe (modinfo_count_loop fuel data base size cursor count).
Proof.
  revert cursor count. induction fuel as [|fuel IH]; intros cursor count Hb Hs Hp Hf; [lia|]. simpl.
  destruct (Z.ltb_spec cursor size); safe_steps; [apply next_nul_entry_safe; lia|].
  destruct a as [| |start n c']; safe_steps; try done.
  apply next_nul_entry_progress in H0. apply IH; lia.
Qed.

Lemma equals_scan_safe fuel data entry entry_size i :
  0 <= entry -> entry + entry_size <= blen data -> 0 <= i ->
  (Z.to_nat (entry_size - i) < fuel)%nat ->
  safe (equals_scan fuel data entry entry_size i).
Proof.
  revert i. induction fuel as [|fuel IH]; intros i Hb Hs Hp Hf; [lia|]. simpl.
  destruct (Z.ltb_spec i entry_size); safe_steps; [apply load8_safe; lia|].
  apply IH; lia.
Qed.

Lemma modinfo_entry_loop_safe fuel data base size cursor current k :
  0 <= base -> base + size <= blen data -> 0 <= cursor ->
  (Z.to_nat (size - cursor) < fuel)%nat ->
  safe (modinfo_entry_loop fuel data base size cursor current k).
Proof.
  revert cursor current. induction fuel as [|fuel IH]; intros cursor current Hb Hs Hp Hf; [lia|].
  cbn [modinfo_entry_loop]. destruct (Z.ltb_spec cursor size); safe_steps; [apply next_nul_entry_safe; lia|].
  destruct a as [| |start n c']; safe_steps; try done.
  all: apply next_nul_entry_progress in H0.
  - apply IH; lia.
  - apply equals_scan_safe; lia.
Qed.

Section accessors.
Context (f : kb_elf_file) (Hf : file_coherent f).

Lemma range_in_image offset length :
  0 <= offset -> range_fits (file_size f) offset length = true ->
  offset + length <= blen (file_data f).
Proof using Hf.
  destruct Hf as (Hs & Hu & _). rewrite Hs.
  intros Ho H. apply range_fits_true in H; [lia|done|done].
Qed.

Lemma kb_elf_section_safe index out : safe (kb_elf_section (Some f) index out).
Proof using Hf.
  unfold kb_elf_section. cbn zeta. pose proof Hf as (Hs & Hu & Hb).
  pose proof (u64_range (file_section_header_offset f
                         + u64 (index * file_section_header_entry_size f))) as [Hso _].
  pose proof (u64_range (file_section_header_offset f
                + u64 (file_section_name_index f * file_section_header_entry_size f))) as [Hno _].
  set (so := u64 _) in Hso |- *. set (no := u64 _) in Hno |- *.
  apply safe_if; intros ?; [apply safe_fail|].
  apply safe_if; intros E1; [apply safe_fail|].
  apply safe_if; intros E2; [apply safe_fail|]. boolify.
  apply range_in_image in E1, E2; [|done|done]. unfold elf64_section_header_size in *.
  safe_steps; try solve_read. reader_ranges.
  match goal with H : range_fits _ _ _ = true |- _ => apply range_in_image in H; [|lia] end.
  apply bounded_section_name_safe; lia.
Qed.

Lemma kb_elf_section_ranges index out s :
  kb_elf_section (Some f) index out = Done s ->
  is_u64 (sec_offset s) /\ is_u64 (sec_size s) /\ is_u32 (sec_link s) /\ is_u32 (sec_info s) /\
  is_u32 (sec_type s) /\ is_u64 (sec_entry_size s) /\ is_u64 (sec_alignment s) /\
  is_u64 (sec_flags s) /\ is_u64 (sec_address s).
Proof using Hf.
  pose proof Hf as (Hs & Hu & Hb). unfold kb_elf_section. cbn zeta.
  do 3 (case_match; [done|]). intros Hr.
  repeat match type of Hr with
  | (?m ≫= _) = Done _ => destruct m eqn:?; mred in Hr; [|done|done]
  end.
  injection Hr as <-. cbn. reader_ranges. lia.
Qed.

Lemma section_bytes_safe index : safe (section_bytes f index).
Proof using Hf.
  unfold section_bytes. pose proof (kb_elf_section_safe index true).
  destruct (kb_elf_section (Some f) index true); [|done|done]. by safe_steps.
Qed.

Lemma section_bytes_range index base size :
  section_bytes f index = Done (Some (base, size)) ->
  0 <= base /\ 0 <= size /\ base + size <= blen (file_data f).
Proof using Hf.
  unfold section_bytes. destruct (kb_elf_section (Some f) index true) as [s| |] eqn:E; [|done|done].
  destruct (range_fits _ _ _) eqn:R; cbn; [|done]. intros [= <- <-].
  apply kb_elf_section_ranges in E. unfold is_u64 in *. apply range_in_image in R; lia.
Qed.

Lemma kb_elf_symbol_count_safe index out : safe (kb_elf_symbol_count (Some f) index out).
Proof using Hf.
  unfold kb_elf_symbol_count. safe_steps. apply kb_elf_section_safe.
Qed.

Lemma kb_elf_symbol_safe index symbol out : safe (kb_elf_symbol (Some f) index symbol out).
Proof using Hf.
  pose proof Hf as (Hs & Hu & Hb). unfold kb_elf_symbol. cbn zeta.
  apply safe_if; intros ?; [apply safe_fail|].
  apply safe_bind; [apply kb_elf_section_safe|intros s Es].
  do 4 (apply safe_if; intros ?; [apply safe_fail|]).
  apply safe_bind; [apply kb_elf_section_safe|intros t Et].
  apply safe_if; intros ?; [apply safe_fail|].
  apply safe_if; intros R1; [apply safe_fail|].
  apply safe_if; intros R2; [apply safe_fail|]. boolify.
  apply kb_elf_section_ranges in Es, Et. unfold is_u64 in *.
  pose proof (u64_range (sec_offset s + u64 (symbol * elf64_symbol_size))) as [Ho _].
  apply range_in_image in R1, R2; [|lia|lia]. unfold elf64_symbol_size in *.
  safe_steps; try solve_read. reader_ranges. apply bounded_section_name_safe; lia.
Qed.

Lemma kb_elf_relocation_count_safe index out : safe (kb_elf_relocation_count (Some f) index out).
Proof using Hf.
  unfold kb_elf_relocation_count. safe_steps. apply kb_elf_section_safe.
Qed.

Lemma kb_elf_relocation_safe index k out : safe (kb_elf_relocation (Some f) index k out).
Proof using Hf.
  pose proof Hf as (Hs & Hu & Hb). unfold kb_elf_relocation. cbn zeta.
  apply safe_if; intros ?; [apply safe_fail|].
  apply safe_bind; [apply kb_elf_section_safe|intros s Es].
  do 4 (apply safe_if; intros ?; [apply safe_fail|]).
  apply safe_if; intros R; [apply safe_fail|]. boolify.
  pose proof (u64_range (sec_offset s + u64 (k * expected_entry_size s))) as [Ho _].
  apply range_in_image in R; [|lia]. unfold expected_entry_size in *.
  destruct (sec_type s =? KB_ELF_SHT_RELA); unfold elf64_rela_size, elf64_rel_size in *;
    safe_steps; solve_read.
Qed.

Lemma modinfo_section_loop_safe fuel i :
  (Z.to_nat (file_section_count f - i) < fuel)%nat -> safe (modinfo_section_loop fuel f i).
Proof using Hf.
  revert i. induction fuel as [|fuel IH]; intros i Hi; [lia|]. cbn [modinfo_section_loop].
  apply safe_if; intros ?; [|apply safe_fail].
  apply safe_bind; [apply kb_elf_section_safe|intros s Es].
  apply safe_if; intros ?; [apply safe_done|]. cbn in *. boolify. apply IH. lia.
Qed.

Lemma modinfo_bytes_safe index out : safe (modinfo_bytes (Some f) index out).
Proof using Hf.
  unfold modinfo_bytes. safe_steps; [apply kb_elf_section_safe|apply section_bytes_safe|].
  match goal with |- safe (match ?o with _ => _ end) => destruct o as [[? ?]|] end; by safe_steps.
Qed.

Lemma modinfo_bytes_range index out data base size :
  modinfo_bytes (Some f) index out = Done (data, base, size) ->
  data = file_data f /\ 0 <= base /\ 0 <= size /\ base + size <= blen data.
Proof using Hf.
  unfold modinfo_bytes. case_match; [done|].
  destruct (kb_elf_section (Some f) index true) as [s| |] eqn:E; mred; [|done|done].
  case_match; [done|].
  destruct (section_bytes f index) as [[[b n]|]| |] eqn:B; mred; try done.
  intros [= <- <- <-]. apply section_bytes_range in B. tauto.
Qed.

Lemma kb_elf_modinfo_entry_count_safe index out :
  safe (kb_elf_modinfo_entry_count (Some f) index out).
Proof using Hf.
  unfold kb_elf_modinfo_entry_count. apply safe_bind; [apply modinfo_bytes_safe|].
  intros [[data base] size] E. apply modinfo_bytes_range in E as (-> & ? & ? & ?).
  apply modinfo_count_loop_safe; lia.
Qed.

Lemma kb_elf_modinfo_entry_safe index k out :
  safe (kb_elf_modinfo_entry (Some f) index k out).
Proof using Hf.
  unfold kb_elf_modinfo_entry. apply safe_bind; [apply modinfo_bytes_safe|].
  intros [[data base] size] E. apply modinfo_bytes_range in E as (-> & ? & ? & ?).
  apply modinfo_entry_loop_safe; lia.
Qed.
End accessors.

Lemma kb_elf_open_safe data out : safe (kb_elf_open data out).
Proof.
  destruct data as [bytes|]; [|apply safe_fail]. unfold kb_elf_open. cbn zeta.
  apply safe_if; intros H; [apply safe_fail|]. boolify. unfold elf64_header_size in *.
  safe_steps; solve_read.
Qed.

(** ** What a successfully opened file guarantees *)

Definition file_wf (f : kb_elf_file) : Prop :=
  file_coherent f /\
  0 <= file_section_header_offset f /\
  file_section_header_entry_size f = elf64_section_header_size /\
  0 <= file_section_name_index f < file_section_count f /\
  file_section_count f < 0x10000 /\
  file_section_header_offset f + elf64_section_header_size * file_section_count f
    <= blen (file_data f).

Lemma kb_elf_open_wf bytes out f :
  bytes_ok bytes -> is_u64 (blen bytes) -> kb_elf_open (Some bytes) out = Done f ->
  file_data f = bytes /\ file_wf f.
Proof.
  intros Hb Hu. unfold kb_elf_open. cbn zeta. case_match; [done|].
  repeat (match goal with
          | |- (?m ≫= _) = Done _ -> _ => destruct m eqn:?; mred; [|done|done]
          | |- (if ?b then _ else _) = Done _ -> _ => destruct b eqn:?; [done|]
          end).
  intros [= <-]. cbn. split; [done|]. boolify. reader_ranges.
  unfold file_wf, file_coherent, elf64_section_header_size in *; cbn.
  match goal with H : range_fits _ _ _ = true |- _ =>
    rewrite u64_small in H by (unfold is_u64; lia); apply range_fits_true in H; [|done|lia] end.
  repeat split; try done; try lia.
Qed.

(** The header of section [i] of a well-formed file lies inside the image. *)
Lemma section_header_in f i :
  file_wf f -> 0 <= i < file_section_count f ->
  let o := file_section_header_offset f + 64 * i in
  u64 (file_section_header_offset f + u64 (i * file_section_header_entry_size f)) = o /\
  range_fits (file_size f) o elf64_section_header_size = true.
Proof.
  intros ((Hs & Hu & Hb) & Hoff & Hent & Hnm & Hcnt & Hin) Hi. cbn.
  rewrite Hent in *. unfold elf64_section_header_size, is_u64 in *.
  rewrite (u64_small (i * 64)) by (unfold is_u64; lia).
  rewrite u64_small by (unfold is_u64; lia).
  split; [lia|]. rewrite Hs. apply range_fits_intro; unfold is_u64; lia.
Qed.

Lemma bind_done {A B} (m : outcome A) (k : A -> outcome B) :
  (exists a, m = Done a) -> (forall a, m = Done a -> exists b, k a = Done b) ->
  exists b, (m ≫= k) = Done b.
Proof. intros [a ->] Hk. by apply Hk. Qed.

Lemma load8_total p o : 0 <= o < blen p -> exists v, load8 p o = Done v.
Proof. intros H. rewrite load8_in by done. eauto. Qed.
Lemma read_u16le_total p o : 0 <= o -> o + 2 <= blen p -> exists v, read_u16le p o = Done v.
Proof. intros. unfold read_u16le. rewrite !load8_in by lia. mred. eauto. Qed.
Lemma read_u32le_total p o : 0 <= o -> o + 4 <= blen p -> exists v, read_u32le p o = Done v.
Proof. intros. unfold read_u32le. rewrite !load8_in by lia. mred. eauto. Qed.
Lemma read_u64le_total p o : 0 <= o -> o + 8 <= blen p -> exists v, read_u64le p o = Done v.
Proof.
  intros. unfold read_u64le.
  destruct (read_u32le_total p o) as [a ->]; [lia|lia|].
  destruct (read_u32le_total p (o + 4)) as [b ->]; [lia|lia|]. mred. eauto.
Qed.

Lemma bounded_name_loop_not_fail fuel data base strings_size offset pos e :
  bounded_name_loop fuel data base strings_size offset pos <> Fail e.
Proof.
  revert pos. induction fuel as [|fuel IH]; intros pos; cbn [bounded_name_loop]; [done|].
  case_match; [|done]. unfold load8. case_match; mred; [|done].
  case_match; [done|apply IH].
Qed.

Lemma bounded_section_name_not_fail data base strings_size offset e :
  bounded_section_name data base strings_size offset <> Fail e.
Proof.
  unfold bounded_section_name. case_match; [done|apply bounded_name_loop_not_fail].
Qed.

Lemma bounded_section_name_total data base strings_size offset :
  0 <= base -> base + strings_size <= blen data -> 0 <= offset ->
  exists n, bounded_section_name data base strings_size offset = Done n.
Proof.
  intros Hb Hs Ho. pose proof (bounded_section_name_safe data base strings_size offset Hb Hs Ho).
  pose proof (bounded_section_name_not_fail data base strings_size offset) as Hnf.
  destruct (bounded_section_name _ _ _ _) as [n|e|] eqn:E; [eauto| |done].
  by destruct (Hnf e).
Qed.

Ltac solve_total :=
  first [ apply read_u64le_total; lia | apply read_u32le_total; lia
        | apply read_u16le_total; lia | apply load8_total; lia ].

Ltac total_steps :=
  repeat lazymatch goal with
  | |- exists _, (_ ≫= _) = Done _ => apply bind_done; [try solve_total|intros ? ?]
  | |- exists _, mret _ = Done _ => eexists; reflexivity
  | |- exists _, Done _ = Done _ => eexists; reflexivity
  end.

Lemma kb_elf_section_total f i :
  file_wf f -> 0 <= i < file_section_count f ->
  exists s, kb_elf_section (Some f) i true = Done s.
Proof.
  intros Hwf Hi. pose proof Hwf as (Hc & Hoff & Hent & Hnm & Hcnt & Hin). pose proof Hc as (Hs & Hu & Hb).
  destruct (section_header_in f i Hwf Hi) as [E1 R1].
  destruct (section_header_in f _ Hwf Hnm) as [E2 R2].
  unfold kb_elf_section. cbn zeta. rewrite E1, E2, R1, R2.
  destruct (Z.leb_spec (file_section_count f) i); [lia|]. cbn [negb orb].
  unfold elf64_section_header_size in Hin. total_steps.
  destruct (range_fits (file_size f) a a0) eqn:R; [|eexists; reflexivity].
  reader_ranges. apply range_in_image in R; [|done|lia].
  total_steps. reader_ranges. apply bounded_section_name_total; lia.
Qed.
