(* ===== verification/ElfTheorems.v ===== *)
(** * Correctness of the ELF reader

    The properties of ElfReader.v: no access of the reader leaves the image,
    the section table of an opened file is total, the decoders invert the
    encodings of the ELF-64 structures, and the [.modinfo] accessors agree with
    a reference splitting of the section into NUL-terminated entries. *)

From S2P Require Import Prelude Bytes ElfReader.

(** ** The ELF-64 encodings *)

(** A section header, with the offset of its name in the string table. *)
Definition encode_shdr (name_offset : Z) (s : kb_elf_section_t) : list Z :=
  write_u32le name_offset ++ write_u32le (sec_type s) ++ write_u64le (sec_flags s) ++
  write_u64le (sec_address s) ++ write_u64le (sec_offset s) ++ write_u64le (sec_size s) ++
  write_u32le (sec_link s) ++ write_u32le (sec_info s) ++ write_u64le (sec_alignment s) ++
  write_u64le (sec_entry_size s).

Definition encode_symbol (name_offset : Z) (s : kb_elf_symbol_t) : list Z :=
  write_u32le name_offset ++ [sym_binding s * 16 + sym_type s; sym_visibility s] ++
  write_u16le (sym_section_index s) ++ write_u64le (sym_value s) ++ write_u64le (sym_size s).

(** An [Elf64_Rela] entry; the addend is stored in two's complement. *)
Definition encode_rela (r : kb_elf_relocation_t) : list Z :=
  write_u64le (rel_offset r) ++
  write_u64le (rel_type r + rel_symbol_index r * 0x100000000) ++
  write_u64le (u64 (rel_addend r)).

(** The fields fit the widths of the C structures. *)
Definition section_fields_ok (s : kb_elf_section_t) : Prop :=
  is_u32 (sec_type s) /\ is_u64 (sec_flags s) /\ is_u64 (sec_address s) /\
  is_u64 (sec_offset s) /\ is_u64 (sec_size s) /\ is_u32 (sec_link s) /\ is_u32 (sec_info s) /\
  is_u64 (sec_alignment s) /\ is_u64 (sec_entry_size s).

Definition symbol_fields_ok (s : kb_elf_symbol_t) : Prop :=
  0 <= sym_binding s < 16 /\ 0 <= sym_type s < 16 /\ 0 <= sym_visibility s < 4 /\
  is_u16 (sym_section_index s) /\ is_u64 (sym_value s) /\ is_u64 (sym_size s).

Definition relocation_fields_ok (r : kb_elf_relocation_t) : Prop :=
  is_u64 (rel_offset r) /\ is_u32 (rel_type r) /\ is_u32 (rel_symbol_index r) /\
  is_s64 (rel_addend r).

(** The C string [name] is the entry at [offset] of the string table that
    occupies [[base, base + size)] of the image. *)
Definition string_table_entry (data : list Z) (base size offset : Z) (name : list Z) : Prop :=
  0 <= offset /\ offset + blen name < size /\ base + size <= blen data /\
  Forall (fun b => b <> 0) name /\ bytes_at data (base + offset) (name ++ [0]).

(** ** String table lookups *)

Lemma nth_bytes_at data o q (k : nat) d :
  bytes_at data o q -> (k < length q)%nat -> nth (Z.to_nat o + k) data d = nth k q d.
Proof.
  intros [Ho H] Hk. rewrite <- H. rewrite !nth_lookup, lookup_slice by (unfold blen; lia).
  rewrite decide_True by (unfold blen; lia). done.
Qed.

Lemma bounded_name_loop_finds fuel data base size offset (k : nat) name :
  0 <= base -> string_table_entry data base size offset name ->
  (k <= length name)%nat -> (Z.to_nat (size - (offset + Z.of_nat k)) < fuel)%nat ->
  bounded_name_loop fuel data base size offset (offset + Z.of_nat k) = Done name.
Proof.
  intros Hbase (Ho & Hlt & Hin & Hnz & Hat). unfold blen in Hlt.
  revert k. induction fuel as [|fuel IH]; intros k Hk Hf; [lia|]. cbn [bounded_name_loop].
  destruct (Z.ltb_spec (offset + Z.of_nat k) size); [|lia].
  rewrite load8_in by (unfold blen in *; lia). mred.
  replace (Z.to_nat (base + (offset + Z.of_nat k))) with (Z.to_nat (base + offset) + k)%nat by lia.
  rewrite (nth_bytes_at _ _ _ _ _ Hat) by (rewrite length_app; cbn; lia).
  destruct (decide (k = length name)) as [->|].
  - rewrite nth_middle. cbn. replace (offset + _ - offset) with (Z.of_nat (length name)) by lia.
    apply bytes_at_app in Hat as [[_ Hat] _]. by rewrite <- Hat at 2.
  - rewrite app_nth1 by lia. rewrite Forall_forall in Hnz.
    destruct (Z.eqb_spec (nth k name 0) 0) as [E|_].
    + exfalso. apply (Hnz (nth k name 0)); [|done]. apply list_elem_of_In, nth_In. lia.
    + replace (offset + Z.of_nat k + 1) with (offset + Z.of_nat (S k)) by lia. apply IH; lia.
Qed.

Lemma bounded_section_name_finds data base size offset name :
  0 <= base -> string_table_entry data base size offset name ->
  bounded_section_name data base size offset = Done name.
Proof.
  intros Hbase He. pose proof He as (Ho & Hlt & _). unfold bounded_section_name, blen in *.
  destruct (Z.leb_spec size offset); [lia|].
  pose proof (bounded_name_loop_finds (S (Z.to_nat (size - offset))) data base size offset 0 name) as L.
  rewrite Z.add_0_r in L. apply L; [done|done|lia|lia].
Qed.

(** ** Decoding a section header *)

(** Read the field [v], [k] bytes into a structure whose encoding is known. *)
Ltac field H k lem v :=
  rewrite (lem _ _ v ltac:(assumption) (bytes_at_sub _ _ _ k _ ltac:(lia) H eq_refl)); mred.

Ltac field0 H lem v :=
  rewrite (lem _ _ v ltac:(assumption) (bytes_at_prefix _ _ _ _ H eq_refl)); mred.

Lemma kb_elf_section_decodes f i n s strhdr nstr :
  file_wf f -> 0 <= i < file_section_count f ->
  section_fields_ok s -> section_fields_ok strhdr -> is_u32 n ->
  bytes_at (file_data f) (file_section_header_offset f + 64 * i) (encode_shdr n s) ->
  bytes_at (file_data f) (file_section_header_offset f + 64 * file_section_name_index f)
    (encode_shdr nstr strhdr) ->
  string_table_entry (file_data f) (sec_offset strhdr) (sec_size strhdr) n (sec_name s) ->
  kb_elf_section (Some f) i true = Done s.
Proof.
  intros Hwf Hi Hok Hok2 Hn Hs Hstr He.
  pose proof Hwf as (Hc & Hoff & Hent & Hnm & Hcnt & Hin). pose proof Hc as (Hsz & Hu & Hb).
  destruct (section_header_in f i Hwf Hi) as [E1 R1].
  destruct (section_header_in f _ Hwf Hnm) as [E2 R2].
  unfold kb_elf_section. cbn zeta. rewrite E1, E2, R1, R2.
  destruct (Z.leb_spec (file_section_count f) i); [lia|]. cbn [negb orb].
  destruct Hok as (? & ? & ? & ? & ? & ? & ? & ? & ?).
  destruct Hok2 as (_ & _ & _ & ? & ? & _ & _ & _ & _).
  field Hstr 24 read_write_u64le (sec_offset strhdr).
  field Hstr 32 read_write_u64le (sec_size strhdr).
  pose proof He as (? & ? & Hin2 & _). pose proof Hu. unfold is_u64 in *.
  rewrite range_fits_intro by (unfold is_u64; lia).
  field0 Hs read_write_u32le n.
  rewrite bounded_section_name_finds with (name := sec_name s) by (done || lia). mred.
  field Hs 4 read_write_u32le (sec_type s). field Hs 8 read_write_u64le (sec_flags s).
  field Hs 16 read_write_u64le (sec_address s). field Hs 24 read_write_u64le (sec_offset s).
  field Hs 32 read_write_u64le (sec_size s). field Hs 40 read_write_u32le (sec_link s).
  field Hs 44 read_write_u32le (sec_info s). field Hs 48 read_write_u64le (sec_alignment s).
  field Hs 56 read_write_u64le (sec_entry_size s). by destruct s.
Qed.

(** ** Decoding symbols and relocations *)

(** Entry [k] of a table of [entry]-byte entries that lies inside the image. *)
Lemma table_entry_in f (Hf : file_coherent f) offset size entry k :
  is_u64 offset -> is_u64 size -> 0 < entry -> range_fits (file_size f) offset size = true ->
  0 <= k < size / entry ->
  u64 (offset + u64 (k * entry)) = offset + k * entry /\
  range_fits (file_size f) (offset + k * entry) entry = true.
Proof.
  intros Ho Hs He R Hk. destruct Hf as (Hsz & Hu & _). rewrite Hsz in *.
  apply range_fits_true in R as [R _]; [|done|unfold is_u64 in *; lia].
  assert (k * entry + entry <= size).
  { pose proof (Z.mul_div_le size entry). nia. }
  unfold is_u64 in *. rewrite (u64_small (k * entry)) by (unfold is_u64; nia).
  rewrite u64_small by (unfold is_u64; nia). split; [done|].
  apply range_fits_intro; unfold is_u64; nia.
Qed.

Lemma symbol_info_split b t : 0 <= b < 16 -> 0 <= t < 16 ->
  Z.shiftr (b * 16 + t) 4 = b /\ Z.land (b * 16 + t) 0x0f = t.
Proof.
  intros Hb Ht. split.
  - rewrite Z.shiftr_div_pow2 by lia. change (2 ^ 4) with 16.
    rewrite Z.div_add_l by lia. rewrite Z.div_small by lia. lia.
  - change 0x0f with (Z.ones 4). rewrite Z.land_ones by lia. change (2 ^ 4) with 16.
    rewrite Z.add_comm, Z.mod_add by lia. by apply Z.mod_small.
Qed.

(** The tables an entry is read through: the symbol section and its strings. *)
Record symbol_table (f : kb_elf_file) (index : Z) (symtab strtab : kb_elf_section_t) : Prop := {
  st_section : kb_elf_section (Some f) index true = Done symtab;
  st_type : is_symbol_table symtab = true;
  st_entry : sec_entry_size symtab = elf64_symbol_size;
  st_whole : sec_size symtab mod elf64_symbol_size = 0;
  st_fits : range_fits (file_size f) (sec_offset symtab) (sec_size symtab) = true;
  st_link : sec_link symtab < file_section_count f;
  st_strings : kb_elf_section (Some f) (sec_link symtab) true = Done strtab;
  st_strtab : sec_type strtab = KB_ELF_SHT_STRTAB;
  st_strings_fit : range_fits (file_size f) (sec_offset strtab) (sec_size strtab) = true;
}.

Lemma kb_elf_symbol_unfold f index symtab strtab k :
  file_coherent f -> symbol_table f index symtab strtab ->
  0 <= k < sec_size symtab / elf64_symbol_size ->
  let data := file_data f in
  let o := sec_offset symtab + k * elf64_symbol_size in
  kb_elf_symbol (Some f) index k true =
    (name_offset ← read_u32le data o;
     info ← load8 data (o + 4);
     name ← bounded_section_name data (sec_offset strtab) (sec_size strtab) name_offset;
     other ← load8 data (o + 5);
     section_idx ← read_u16le data (o + 6);
     value ← read_u64le data (o + 8);
     size ← read_u64le data (o + 16);
     mret (mk_elf_symbol name (Z.shiftr info 4) (Z.land info 0x0f) (Z.land other 0x03)
             section_idx value size))
  /\ 0 <= o /\ o + 24 <= blen data.
Proof.
  intros Hc [S1 S2 S3 S4 S5 S6 S7 S8 S9] Hk. cbn zeta.
  pose proof (kb_elf_section_ranges f Hc _ _ _ S1) as (? & ? & _).
  destruct (table_entry_in f Hc (sec_offset symtab) (sec_size symtab) elf64_symbol_size k)
    as [E R]; [done|done|done|done|done|].
  split.
  - unfold kb_elf_symbol. cbn zeta. cbn [negb]. rewrite S1. mred. rewrite S2, S3, S4, E. cbn [negb Z.eqb orb].
    rewrite Z.eqb_refl. cbn [negb orb].
    destruct (Z.leb_spec (sec_size symtab / elf64_symbol_size) k); [lia|].
    destruct (Z.leb_spec (file_section_count f) (sec_link symtab)); [lia|].
    rewrite S7. mred. rewrite S8, S9, R. done.
  - apply range_in_image in R; [|done|unfold is_u64, elf64_symbol_size in *; lia].
    unfold is_u64, elf64_symbol_size in *. lia.
Qed.

Lemma kb_elf_relocation_unfold f index s k :
  file_coherent f -> kb_elf_section (Some f) index true = Done s ->
  sec_type s = KB_ELF_SHT_RELA -> sec_entry_size s = elf64_rela_size ->
  sec_size s mod elf64_rela_size = 0 ->
  range_fits (file_size f) (sec_offset s) (sec_size s) = true ->
  sec_link s < file_section_count f -> sec_info s < file_section_count f ->
  0 <= k < sec_size s / elf64_rela_size ->
  let data := file_data f in
  let o := sec_offset s + k * elf64_rela_size in
  kb_elf_relocation (Some f) index k true =
    (info ← read_u64le data (o + 8);
     offset ← read_u64le data o;
     addend ← (a ← read_u64le data (o + 16); mret (s64 a));
     mret (mk_elf_relocation offset (u32 (Z.land info 0xffffffff)) (u32 (Z.shiftr info 32))
             addend true (sec_info s) (sec_link s))).
Proof.
  intros Hc S1 S2 S3 S4 S5 S6 S7 Hk. cbn zeta.
  pose proof (kb_elf_section_ranges f Hc _ _ _ S1) as (? & ? & _).
  destruct (table_entry_in f Hc (sec_offset s) (sec_size s) elf64_rela_size k)
    as [E R]; [done|done|done|done|done|].
  unfold kb_elf_relocation. cbn zeta. cbn [negb]. rewrite S1. mred.
  unfold is_relocation_table, expected_entry_size. rewrite S2. rewrite !Z.eqb_refl. cbn [orb negb].
  destruct (Z.leb_spec (file_section_count f) (sec_link s)); [lia|].
  destruct (Z.leb_spec (file_section_count f) (sec_info s)); [lia|].
  rewrite S3, S4, E, R. cbn [orb negb]. rewrite Z.eqb_refl. cbn [orb negb].
  destruct (Z.leb_spec (sec_size s / elf64_rela_size) k); [lia|]. done.
Qed.

(** ** The reference reading of a [.modinfo] section

    The section is a sequence of NUL-terminated strings, with runs of NULs as
    padding.  [nul_split acc bs] lists the non-empty strings of [acc ++ bs] and
    says whether the last one is terminated. *)

Fixpoint nul_split (acc bs : list Z) : list (list Z) * bool :=
  match bs with
  | [] => ([], bool_decide (acc = []))
  | b :: rest =>
      if b =? 0 then
        let '(es, t) := nul_split [] rest in
        (if bool_decide (acc = []) then es else acc :: es, t)
      else nul_split (acc ++ [b]) rest
  end.

Lemma nul_split_zeros zs bs : Forall (fun b => b = 0) zs -> nul_split [] (zs ++ bs) = nul_split [] bs.
Proof.
  induction 1 as [|z zs -> Hz IH]; [done|]. cbn. rewrite IH. by destruct (nul_split [] bs).
Qed.

Lemma nul_split_word acc w bs :
  Forall (fun b => b <> 0) w ->
  nul_split acc (w ++ bs) = nul_split (acc ++ w) bs.
Proof.
  intros Hw. revert acc. induction Hw as [|b w Hb Hw IH]; intros acc; cbn; [by rewrite app_nil_r|].
  destruct (Z.eqb_spec b 0); [done|]. rewrite IH. by rewrite <- app_assoc.
Qed.

Section modinfo.
Context (data : list Z) (base size : Z).
Context (Hbase : 0 <= base) (Hsize : 0 <= size) (Hin : base + size <= blen data).

Let bs : list Z := slice data base size.

#[local] Lemma bs_length : length bs = Z.to_nat size.
Proof using Hbase Hsize Hin. apply length_slice; lia. Qed.

#[local] Lemma bs_load c : 0 <= c < size -> load8 data (base + c) = Done (nth (Z.to_nat c) bs 0).
Proof using Hbase Hsize Hin.
  intros Hc. rewrite load8_in by lia. f_equal. unfold bs.
  rewrite !nth_lookup, lookup_slice by lia. rewrite decide_True by lia. do 2 f_equal. lia.
Qed.

#[local] Lemma bs_cons c : 0 <= c < size ->
  drop (Z.to_nat c) bs = nth (Z.to_nat c) bs 0 :: drop (Z.to_nat (c + 1)) bs.
Proof using Hbase Hsize Hin.
  intros Hc. pose proof bs_length as L.
  destruct (lookup_lt_is_Some_2 bs (Z.to_nat c)) as [x Hx]; [lia|].
  rewrite (drop_S _ _ _ Hx), nth_lookup, Hx. cbn. f_equal. f_equal. lia.
Qed.

#[local] Lemma bs_end c : size <= c -> drop (Z.to_nat c) bs = [].
Proof using Hbase Hsize Hin. intros. apply drop_ge. rewrite bs_length. lia. Qed.

(** A scan consumes a run of bytes of one kind and stops at the other. *)
Lemma nul_scan_spec fuel stop c :
  0 <= c <= size -> (Z.to_nat (size - c) < fuel)%nat ->
  exists run c', nul_scan fuel data base size stop c = Done c' /\
    c' = c + blen run /\ c <= c' <= size /\
    drop (Z.to_nat c) bs = run ++ drop (Z.to_nat c') bs /\
    Forall (fun b => (b =? 0) = negb stop) run /\
    (c' < size -> (nth (Z.to_nat c') bs 0 =? 0) = stop).
Proof using Hbase Hsize Hin.
  revert c. induction fuel as [|fuel IH]; intros c Hc Hf; [lia|]. cbn [nul_scan].
  destruct (Z.ltb_spec c size).
  - rewrite bs_load by lia. mred.
    destruct (Bool.eqb (nth (Z.to_nat c) bs 0 =? 0) stop) eqn:E.
    + exists [], c. apply Bool.eqb_prop in E. unfold blen; cbn. repeat split; try lia; try done.
    + destruct (IH (c + 1)) as (run & c' & -> & -> & Hr & Hd & Hrun & Hstop); [lia|lia|].
      exists (nth (Z.to_nat c) bs 0 :: run), (c + 1 + blen run). unfold blen in *; cbn [length].
      rewrite (bs_cons c) by lia. rewrite Hd. repeat split; try lia; try done.
      constructor; [|done]. by destruct (nth (Z.to_nat c) bs 0 =? 0), stop.
  - exists [], c. unfold blen; cbn. repeat split; try lia; try done.
Qed.

(** What one call of [next_nul_entry] says about the rest of the section. *)
Lemma next_nul_entry_spec c :
  0 <= c <= size ->
  match next_nul_entry data base size c with
  | Done NoEntry => nul_split [] (drop (Z.to_nat c) bs) = ([], true)
  | Done Unterminated => nul_split [] (drop (Z.to_nat c) bs) = ([], false)
  | Done (Entry start n c') =>
      c <= start /\ 0 < n /\ c' = start + n + 1 /\ c' <= size /\
      nul_split [] (drop (Z.to_nat c) bs) =
        (let '(es, t) := nul_split [] (drop (Z.to_nat c') bs) in (slice bs start n :: es, t))
  | _ => False
  end.
Proof using Hbase Hsize Hin.
  intros Hc. unfold next_nul_entry. cbn zeta.
  destruct (nul_scan_spec (S (Z.to_nat (size - c))) false c) as
    (zs & s & -> & Es & Hs & Dz & Hz & Sz); [lia|lia|]. mred. rewrite Dz.
  rewrite nul_split_zeros by (eapply Forall_impl; [exact Hz|]; cbn; intros ?; apply Z.eqb_eq).
  destruct (Z.leb_spec size s); [by rewrite bs_end by lia|].
  destruct (nul_scan_spec (S (Z.to_nat (size - c))) true s) as
    (w & e & -> & Ee & He & Dw & Hw & Sw); [lia|lia|]. mred. rewrite Dw.
  rewrite nul_split_word by (eapply Forall_impl; [exact Hw|]; cbn; intros ?; apply Z.eqb_neq).
  assert (Hne : w <> []).
  { intros ->. unfold blen in Ee; cbn in Ee. assert (e = s) as -> by lia.
    rewrite Sz in Sw by lia. specialize (Sw ltac:(lia)). done. }
  destruct (Z.leb_spec size e).
  - rewrite (bs_end e) by lia. cbn. by rewrite bool_decide_false.
  - rewrite (bs_cons e) by lia. specialize (Sw ltac:(lia)). cbn [nul_split app].
    rewrite Sw. assert (0 < blen w) by (unfold blen; destruct w; [done|cbn; lia]).
    repeat split; try lia.
    replace (s + (e - s) + 1) with (e + 1) by lia.
    destruct (nul_split [] (drop (Z.to_nat (e + 1)) bs)). rewrite bool_decide_false by done.
    do 2 f_equal. unfold slice. rewrite Dw, take_app_le by (unfold blen in *; lia).
    rewrite take_ge by (unfold blen in *; lia). done.
Qed.

Lemma modinfo_count_loop_spec fuel c count es t :
  0 <= c <= size -> (Z.to_nat (size - c) < fuel)%nat ->
  nul_split [] (drop (Z.to_nat c) bs) = (es, t) ->
  modinfo_count_loop fuel data base size c count =
    if t then Done (count + Z.of_nat (length es)) else Fail KB_ERR_INVALID.
Proof using Hbase Hsize Hin.
  revert c count es. induction fuel as [|fuel IH]; intros c count es Hc Hf Hs; [lia|].
  cbn [modinfo_count_loop]. destruct (Z.ltb_spec c size).
  - pose proof (next_nul_entry_spec c Hc) as Hn.
    destruct (next_nul_entry data base size c) as [[| |start n c']| |]; mred; try done;
      rewrite Hs in Hn.
    + injection Hn as -> ->. cbn. f_equal. lia.
    + by injection Hn as -> ->.
    + destruct Hn as (? & ? & ? & ? & Hn).
      destruct (nul_split [] (drop (Z.to_nat c') bs)) as [es' t'] eqn:E.
      injection Hn as -> ->. rewrite (IH c' (count + 1) es') by (lia || done).
      destruct t'; [|done]. f_equal. cbn. lia.
  - rewrite bs_end in Hs by lia. injection Hs as <- <-. cbn. f_equal. lia.
Qed.

Lemma equals_scan_spec fuel entry (n k : nat) e :
  0 <= entry -> slice data entry (Z.of_nat n) = e -> length e = n ->
  entry + Z.of_nat n <= blen data -> (k <= n)%nat -> (n - k < fuel)%nat ->
  equals_scan fuel data entry (Z.of_nat n) (Z.of_nat k) =
    match list_find (fun b => b = 0x3d) (drop k e) with
    | Some (j, _) => Done (Z.of_nat (k + j))
    | None => Done (Z.of_nat n)
    end.
Proof using.
  intros He Hsl Hlen Hd. revert k. induction fuel as [|fuel IH]; intros k Hk Hf; [lia|].
  cbn [equals_scan]. destruct (Z.ltb_spec (Z.of_nat k) (Z.of_nat n)).
  - destruct (lookup_lt_is_Some_2 e k) as [b Hb]; [lia|].
    rewrite (drop_S _ _ _ Hb). rewrite load8_in by lia.
    assert (nth (Z.to_nat (entry + Z.of_nat k)) data 0 = b) as ->.
    { rewrite <- Hsl in Hb. rewrite lookup_slice in Hb by lia. rewrite decide_True in Hb by lia.
      rewrite nth_lookup. replace (Z.to_nat (entry + Z.of_nat k)) with (Z.to_nat entry + k)%nat by lia.
      by rewrite Hb. }
    mred. cbn [list_find]. destruct (Z.eqb_spec b 0x3d) as [->|Hne].
    + rewrite decide_True by done. cbn. do 2 f_equal. lia.
    + rewrite decide_False by done. replace (Z.of_nat k + 1) with (Z.of_nat (S k)) by lia.
      rewrite IH by lia. destruct (list_find _ (drop (S k) e)) as [[j ?]|]; cbn; [|done].
      do 2 f_equal. lia.
  - rewrite drop_ge by lia. cbn. f_equal. lia.
Qed.

(** The result the reference reading gives for entry number [k]. *)
Definition modinfo_entry_result (es : list (list Z)) (t : bool) (k : nat)
    (r : outcome kb_elf_modinfo_entry_t) : Prop :=
  match es !! k with
  | None => r = Fail (if t then KB_ERR_NOT_FOUND else KB_ERR_INVALID)
  | Some e =>
      match list_find (fun b => b = 0x3d) e with
      | None => r = Fail KB_ERR_INVALID
      | Some (n, _) =>
          exists m, r = Done m /\
            slice data (mod_key m) (mod_key_size m) = take n e /\
            slice data (mod_value m) (mod_value_size m) = drop (S n) e
      end
  end.

#[local] Lemma slice_bs start n :
  0 <= start -> 0 <= n -> start + n <= size -> slice bs start n = slice data (base + start) n.
Proof using Hbase Hsize.
  intros. unfold bs, slice. rewrite skipn_firstn_comm, take_take, drop_drop.
  f_equal; [lia|]. f_equal. lia.
Qed.

Lemma modinfo_entry_loop_spec fuel c current (k : nat) es t :
  0 <= c <= size -> (Z.to_nat (size - c) < fuel)%nat ->
  nul_split [] (drop (Z.to_nat c) bs) = (es, t) ->
  modinfo_entry_result es t k
    (modinfo_entry_loop fuel data base size c current (current + Z.of_nat k)).
Proof using Hbase Hsize Hin.
  revert c current k es. induction fuel as [|fuel IH]; intros c current k es Hc Hf Hs; [lia|].
  cbn [modinfo_entry_loop]. destruct (Z.ltb_spec c size).
  2: { rewrite bs_end in Hs by lia. by injection Hs as <- <-. }
  pose proof (next_nul_entry_spec c Hc) as Hn.
  destruct (next_nul_entry data base size c) as [[| |start n c']| |]; mred; try done;
    rewrite Hs in Hn; [by injection Hn as -> ->|by injection Hn as -> ->|].
  destruct Hn as (? & ? & ? & ? & Hn).
  destruct (nul_split [] (drop (Z.to_nat c') bs)) as [es' t'] eqn:E. injection Hn as -> ->.
  destruct k as [|k].
  - rewrite Z.add_0_r, Z.eqb_refl. cbn [negb]. unfold modinfo_entry_result. cbn [lookup list_lookup].
    rewrite slice_bs by lia. set (e := slice data (base + start) n).
    assert (Hl : length e = Z.to_nat n) by (apply length_slice; lia).
    pose proof (equals_scan_spec (S (Z.to_nat n)) (base + start) (Z.to_nat n) 0 e) as Eq.
    rewrite Z2Nat.id, drop_0 in Eq by lia. change (Z.of_nat 0) with 0 in Eq. rewrite Eq by (lia || done).
    destruct (list_find (fun b => b = 0x3d) e) as [[j b]|] eqn:F; mred.
    + apply list_find_Some in F as (Hj & _ & _). pose proof (lookup_lt_Some _ _ _ Hj).
      destruct (Z.eqb_spec (Z.of_nat (0 + j)) n); [lia|]. eexists; split; [done|]. cbn [mod_key mod_key_size mod_value mod_value_size].
      unfold e, slice. rewrite take_take, skipn_firstn_comm, drop_drop.
      split; f_equal; try lia. f_equal. lia.
    + rewrite Z.eqb_refl. done.
  - destruct (Z.eqb_spec current (current + Z.of_nat (S k))); [lia|]. cbn [negb].
    replace (current + Z.of_nat (S k)) with ((current + 1) + Z.of_nat k) by lia.
    apply (IH c' (current + 1) k es'); [lia|lia|done].
Qed.
End modinfo.

(** ** A small image for the examples

    Five sections: the null section, [.shstrtab], [.modinfo] ("name=kb" and
    "license=GPL"), a symbol table whose strings are in [.shstrtab] too, and a
    relocation section with one entry. *)

Definition sample_strings : list Z :=
  [0] ++ cstr ".shstrtab" ++ [0] ++ cstr ".modinfo" ++ [0] ++ cstr ".symtab" ++ [0] ++
  cstr ".rela.text" ++ [0].

Definition sample_modinfo : list Z := cstr "name=kb" ++ [0; 0] ++ cstr "license=GPL" ++ [0].

Definition sample_symbol : kb_elf_symbol_t := mk_elf_symbol (cstr ".modinfo") 1 2 0 1 16 8.

Definition sample_rela : kb_elf_relocation_t := mk_elf_relocation 4 2 0 (-4) true 2 3.

Definition sample_null : kb_elf_section_t := mk_elf_section [] 0 0 0 0 0 0 0 0 0.
Definition sample_shstrtab : kb_elf_section_t :=
  mk_elf_section (cstr ".shstrtab") KB_ELF_SHT_STRTAB 0 0 64 39 0 0 1 0.
Definition sample_modinfo_section : kb_elf_section_t :=
  mk_elf_section (cstr ".modinfo") KB_ELF_SHT_PROGBITS 2 0 103 21 0 0 1 0.
Definition sample_symtab : kb_elf_section_t :=
  mk_elf_section (cstr ".symtab") KB_ELF_SHT_SYMTAB 0 0 124 24 1 0 8 24.
Definition sample_rela_section : kb_elf_section_t :=
  mk_elf_section (cstr ".rela.text") KB_ELF_SHT_RELA 0 0 148 24 3 2 8 24.

Definition sample_image : list Z :=
  [0x7f; 0x45; 0x4c; 0x46; 2; 1; 1; 0] ++ replicate 8 0 ++
  write_u16le 1 ++ write_u16le 62 ++ write_u32le 1 ++ write_u64le 0 ++ write_u64le 0 ++
  write_u64le 172 ++ write_u32le 0 ++ write_u16le 64 ++ write_u16le 0 ++ write_u16le 0 ++
  write_u16le 64 ++ write_u16le 5 ++ write_u16le 1 ++
  sample_strings ++ sample_modinfo ++
  encode_symbol 11 sample_symbol ++ encode_rela sample_rela ++
  encode_shdr 0 sample_null ++ encode_shdr 1 sample_shstrtab ++
  encode_shdr 11 sample_modinfo_section ++ encode_shdr 20 sample_symtab ++
  encode_shdr 28 sample_rela_section.

Definition sample_file : kb_elf_file :=
  mk_elf_file sample_image 492 1 62 0 172 64 5 1.

Lemma sample_bytes_ok : bytes_ok sample_image.
Proof. vm_compute. repeat constructor; discriminate. Qed.

Example sample_opens : kb_elf_open (Some sample_image) true = Done sample_file.
Proof. vm_compute. reflexivity. Qed.

Example sample_modinfo_found : kb_elf_modinfo_section (Some sample_file) true = Done 2.
Proof. vm_compute. reflexivity. Qed.

Lemma sample_wf : file_wf sample_file.
Proof.
  destruct (kb_elf_open_wf sample_image true sample_file sample_bytes_ok) as [_ H];
    [unfold is_u64; vm_compute; by split|vm_compute; reflexivity|exact H].
Qed.

(** ** The properties *)

(** C5: on any byte string the reader never accesses memory outside it and
    every scan terminates: neither [kb_elf_open] nor, on the file it returns,
    any accessor with any section, symbol, relocation or entry index ends in
    [Fault]. *)
Theorem elf_reader_memory_safe (bytes : list Z) (f : kb_elf_file) (out out' : bool) (i k : Z) :
  bytes_ok bytes -> is_u64 (blen bytes) ->
  safe (kb_elf_open (Some bytes) out) /\
  (kb_elf_open (Some bytes) out = Done f ->
   safe (kb_elf_section (Some f) i out') /\
   safe (kb_elf_symbol_count (Some f) i out') /\ safe (kb_elf_symbol (Some f) i k out') /\
   safe (kb_elf_relocation_count (Some f) i out') /\ safe (kb_elf_relocation (Some f) i k out') /\
   safe (kb_elf_modinfo_section (Some f) out') /\
   safe (kb_elf_modinfo_entry_count (Some f) i out') /\
   safe (kb_elf_modinfo_entry (Some f) i k out')).
Proof.
  intros Hb Hu. split; [apply kb_elf_open_safe|].
  intros H. apply kb_elf_open_wf in H as [_ Hwf]; [|done|done].
  pose proof Hwf as (Hc & _ & _ & Hn & _).
  repeat split.
  - by apply kb_elf_section_safe.
  - by apply kb_elf_symbol_count_safe.
  - by apply kb_elf_symbol_safe.
  - by apply kb_elf_relocation_count_safe.
  - by apply kb_elf_relocation_safe.
  - unfold kb_elf_modinfo_section. apply safe_if; intros ?; [apply safe_fail|].
    apply modinfo_section_loop_safe; [done|]. cbn. lia.
  - by apply kb_elf_modinfo_entry_count_safe.
  - by apply kb_elf_modinfo_entry_safe.
Qed.

Lemma elf_reader_memory_safe_witness :
  safe (kb_elf_symbol (Some sample_file) 3 (2 ^ 60) true).
Proof.
  eapply (elf_reader_memory_safe sample_image sample_file true true 3 (2 ^ 60)).
  - exact sample_bytes_ok.
  - unfold is_u64; vm_compute; by split.
  - vm_compute. reflexivity.
Defined.

(** once [kb_elf_open] accepts an image, [kb_elf_section] succeeds on exactly
    the indices below the section count, so the loader's section loops never
    stop on a table error. *)
Theorem kb_elf_open_section_table (bytes : list Z) (f : kb_elf_file) (i : Z) :
  bytes_ok bytes -> is_u64 (blen bytes) -> 0 <= i ->
  kb_elf_open (Some bytes) true = Done f ->
  0 < kb_elf_section_count (Some f) /\
  (i < kb_elf_section_count (Some f) <-> exists s, kb_elf_section (Some f) i true = Done s) /\
  (kb_elf_section_count (Some f) <= i -> kb_elf_section (Some f) i true = Fail KB_ERR_INVALID).
Proof.
  intros Hb Hu Hi H. apply kb_elf_open_wf in H as [_ Hwf]; [|done|done].
  pose proof Hwf as (_ & _ & _ & Hn & _). cbn [kb_elf_section_count].
  assert (Hge : file_section_count f <= i -> kb_elf_section (Some f) i true = Fail KB_ERR_INVALID).
  { intros Hge. unfold kb_elf_section. by destruct (Z.leb_spec (file_section_count f) i); [|lia]. }
  split; [lia|split; [|done]]. split.
  - intros Hlt. by apply kb_elf_section_total.
  - intros [s Hs]. destruct (Z.lt_ge_cases i (file_section_count f)) as [|Hge']; [done|].
    rewrite Hge in Hs by done. discriminate.
Qed.

Lemma kb_elf_open_section_table_witness :
  exists s, kb_elf_section (Some sample_file) 4 true = Done s.
Proof.
  eapply (kb_elf_open_section_table sample_image sample_file 4).
  - exact sample_bytes_ok.
  - unfold is_u64; vm_compute; by split.
  - lia.
  - vm_compute; reflexivity.
  - vm_compute; reflexivity.
Defined.

(** decoding inverts encoding for section headers: if the ELF-64 encodings
    of a header [s] and of the section-name string table sit in the table of a
    well-formed file, and the string table holds [s]'s name, then
    [kb_elf_section] returns exactly [s]. *)
Theorem kb_elf_section_roundtrip (f : kb_elf_file) (i n nstr : Z) (s strhdr : kb_elf_section_t) :
  file_wf f -> 0 <= i < file_section_count f ->
  section_fields_ok s -> section_fields_ok strhdr -> is_u32 n ->
  bytes_at (file_data f) (file_section_header_offset f + 64 * i) (encode_shdr n s) ->
  bytes_at (file_data f) (file_section_header_offset f + 64 * file_section_name_index f)
    (encode_shdr nstr strhdr) ->
  string_table_entry (file_data f) (sec_offset strhdr) (sec_size strhdr) n (sec_name s) ->
  kb_elf_section (Some f) i true = Done s.
Proof. intros. by eapply kb_elf_section_decodes. Qed.

Ltac sample_facts :=
  unfold section_fields_ok, symbol_fields_ok, relocation_fields_ok, string_table_entry, bytes_at,
    is_u64, is_u32, is_u16, is_s64, range_fits; cbn;
  repeat split; try lia; try (vm_compute; (reflexivity || discriminate));
  try (repeat constructor; discriminate).

Lemma kb_elf_section_roundtrip_witness :
  kb_elf_section (Some sample_file) 3 true = Done sample_symtab.
Proof.
  apply (kb_elf_section_roundtrip sample_file 3 20 1 sample_symtab sample_shstrtab
           sample_wf); sample_facts.
Defined.

(** decoding inverts encoding for symbols, and [kb_elf_symbol] succeeds on
    every index below the count [kb_elf_symbol_count] reports when the linked
    string table is usable: no symbol of a well-formed table is lost, whatever
    the other fields hold. *)
Theorem kb_elf_symbol_roundtrip (f : kb_elf_file) (index k n count : Z)
    (symtab strtab : kb_elf_section_t) (s : kb_elf_symbol_t) :
  file_coherent f -> symbol_table f index symtab strtab ->
  kb_elf_symbol_count (Some f) index true = Done count ->
  (0 <= k < count -> exists s', kb_elf_symbol (Some f) index k true = Done s') /\
  (count <= k -> kb_elf_symbol (Some f) index k true = Fail KB_ERR_INVALID) /\
  (0 <= k < count -> symbol_fields_ok s -> is_u32 n ->
   bytes_at (file_data f) (sec_offset symtab + k * elf64_symbol_size) (encode_symbol n s) ->
   string_table_entry (file_data f) (sec_offset strtab) (sec_size strtab) n (sym_name s) ->
   kb_elf_symbol (Some f) index k true = Done s).
Proof.
  intros Hc Ht. pose proof Ht as [S1 S2 S3 S4 S5 S6 S7 S8 S9].
  pose proof Hc as (Hsz & Hu & Hb).
  pose proof (kb_elf_section_ranges f Hc _ _ _ S7) as (Ro & Rs & _).
  unfold kb_elf_symbol_count. rewrite S1. mred. rewrite S2, S3, S4, S5. cbn [negb orb Z.eqb].
  rewrite Z.eqb_refl. intros [= <-]. split; [|split].
  - intros Hk. destruct (kb_elf_symbol_unfold f index symtab strtab k Hc Ht Hk) as (-> & Ho & Hend).
    total_steps. reader_ranges.
    apply range_in_image in S9; [|done|lia]. apply bounded_section_name_total; lia.
  - intros Hk. unfold kb_elf_symbol. rewrite S1. mred. rewrite S2, S3, S4. cbn [negb orb Z.eqb].
    rewrite Z.eqb_refl. cbn [negb orb].
    by destruct (Z.leb_spec (sec_size symtab / elf64_symbol_size) k); [|lia].
  - intros Hk Hok Hn Hat He.
    destruct (kb_elf_symbol_unfold f index symtab strtab k Hc Ht Hk) as (-> & Ho & Hend).
    destruct Hok as (? & ? & ? & ? & ? & ?).
    field0 Hat read_write_u32le n.
    rewrite (bytes_at_load _ _ _ 4 _ ltac:(lia) Hat eq_refl). mred.
    rewrite bounded_section_name_finds with (name := sym_name s) by (done || (unfold is_u64 in *; lia)).
    mred. rewrite (bytes_at_load _ _ _ 5 _ ltac:(lia) Hat eq_refl). mred.
    field Hat 6 read_write_u16le (sym_section_index s).
    field Hat 8 read_write_u64le (sym_value s). field Hat 16 read_write_u64le (sym_size s).
    destruct (symbol_info_split (sym_binding s) (sym_type s)) as [-> ->]; [done|done|].
    change 0x03 with (Z.ones 2). rewrite Z.land_ones by lia. rewrite Z.mod_small by (cbn; lia).
    by destruct s.
Qed.

Lemma sample_symbol_table : symbol_table sample_file 3 sample_symtab sample_shstrtab.
Proof. split; vm_compute; reflexivity. Qed.

Lemma kb_elf_symbol_roundtrip_witness :
  kb_elf_symbol (Some sample_file) 3 0 true = Done sample_symbol.
Proof.
  apply (kb_elf_symbol_roundtrip sample_file 3 0 11 1 sample_symtab sample_shstrtab sample_symbol).
  - apply sample_wf.
  - apply sample_symbol_table.
  - vm_compute. reflexivity.
  - lia.
  - sample_facts.
  - sample_facts.
  - sample_facts.
  - sample_facts.
Defined.

(** decoding inverts encoding for [Elf64_Rela] entries: offset, type, symbol
    index and the signed 64-bit addend come back, together with the target and
    symbol-table sections of the relocation section. *)
Theorem kb_elf_relocation_roundtrip (f : kb_elf_file) (index k : Z) (sec : kb_elf_section_t)
    (r : kb_elf_relocation_t) :
  file_coherent f -> kb_elf_section (Some f) index true = Done sec ->
  sec_type sec = KB_ELF_SHT_RELA -> sec_link sec < file_section_count f ->
  sec_info sec < file_section_count f ->
  rel_has_addend r = true -> rel_target_section_index r = sec_info sec ->
  rel_symbol_table_section_index r = sec_link sec -> relocation_fields_ok r ->
  (exists count, kb_elf_relocation_count (Some f) index true = Done count /\ 0 <= k < count) ->
  bytes_at (file_data f) (sec_offset sec + k * elf64_rela_size) (encode_rela r) ->
  kb_elf_relocation (Some f) index k true = Done r.
Proof.
  intros Hc S1 S2 S3 S4 Ha Hi Hl (? & Hty & Hsy & Had) [count [Hcount Hk]] Hat.
  unfold kb_elf_relocation_count in Hcount. rewrite S1 in Hcount. mred in Hcount. cbn [negb] in Hcount.
  unfold is_relocation_table, expected_entry_size in Hcount. rewrite S2 in Hcount.
  rewrite !Z.eqb_refl in Hcount. cbn [orb negb] in Hcount.
  destruct (negb (sec_entry_size sec =? _) || _) eqn:E1 in Hcount; [done|].
  destruct (range_fits _ _ _) eqn:E2 in Hcount; [|done]. injection Hcount as <-. boolify.
  rewrite (kb_elf_relocation_unfold f index sec k) by done.
  assert (is_u64 (rel_type r + rel_symbol_index r * 0x100000000)) by (unfold_ints; lia).
  assert (is_u64 (u64 (rel_addend r))) by apply u64_range.
  field Hat 8 read_write_u64le (rel_type r + rel_symbol_index r * 0x100000000).
  field0 Hat read_write_u64le (rel_offset r).
  field Hat 16 read_write_u64le (u64 (rel_addend r)).
  rewrite s64_u64 by done. rewrite land_ffffffff.
  replace (u32 ((rel_type r + rel_symbol_index r * 4294967296) mod 4294967296)) with (rel_type r) by ilia.
  replace (u32 (Z.shiftr _ 32)) with (rel_symbol_index r) by shift_arith.
  destruct r; cbn in *; by subst.
Qed.

Lemma kb_elf_relocation_roundtrip_witness :
  kb_elf_relocation (Some sample_file) 4 0 true = Done sample_rela.
Proof.
  apply (kb_elf_relocation_roundtrip sample_file 4 0 sample_rela_section sample_rela);
    [apply sample_wf|vm_compute; reflexivity|sample_facts..| |sample_facts].
  exists 1. split; [vm_compute; reflexivity|lia].
Defined.

(** the [.modinfo] accessors agree with the reference reading: the count is
    the number of NUL-terminated strings of the section (or an error when the
    last one is unterminated), entry [k] is string [k] split at its first '=',
    and the errors are exactly the missing entry, the unterminated tail and
    the entry with no '='. *)
Theorem kb_elf_modinfo_refines_split (f : kb_elf_file) (index base size : Z) (data : list Z)
    (es : list (list Z)) (t : bool) (k : nat) :
  file_coherent f ->
  modinfo_bytes (Some f) index true = Done (data, base, size) ->
  nul_split [] (slice data base size) = (es, t) ->
  kb_elf_modinfo_entry_count (Some f) index true =
    (if t then Done (Z.of_nat (length es)) else Fail KB_ERR_INVALID) /\
  modinfo_entry_result data es t k (kb_elf_modinfo_entry (Some f) index (Z.of_nat k) true).
Proof.
  intros Hc Hm Hs. pose proof (modinfo_bytes_range f Hc _ _ _ _ _ Hm) as (-> & ? & ? & ?).
  unfold kb_elf_modinfo_entry_count, kb_elf_modinfo_entry. rewrite Hm. mred. split.
  - rewrite (modinfo_count_loop_spec _ base size) with (es := es) (t := t) by (lia || done).
    by destruct t.
  - apply (modinfo_entry_loop_spec _ base size) with (current := 0); (lia || done).
Qed.

Lemma kb_elf_modinfo_refines_split_witness :
  kb_elf_modinfo_entry_count (Some sample_file) 2 true = Done 2 /\
  modinfo_entry_result sample_image [cstr "name=kb"; cstr "license=GPL"] true 1
    (kb_elf_modinfo_entry (Some sample_file) 2 1 true).
Proof.
  apply (kb_elf_modinfo_refines_split sample_file 2 103 21 sample_image
           [cstr "name=kb"; cstr "license=GPL"] true 1).
  - apply sample_wf.
  - vm_compute. reflexivity.
  - vm_compute. reflexivity.
Defined.
