(* ===== verification/SymbolRegistry.v ===== *)
(** * The export registry (src/src/loader/symbol_registry.c)

    The fixed table of symbols that loaded modules export to each other.  A
    [char *] is its address together with the C string found there; the code
    only dereferences addresses that pass [symbol_pointer_is_valid].  Owners
    are module pointers, 0 is NULL. *)

From S2P Require Import Prelude.

Record cptr := mk_cptr { cp_addr : Z; cp_str : list Z }.
Definition null_cptr : cptr := mk_cptr 0 [].

Record kb_loader_exported_symbol := mk_exported_symbol {
  ex_name : cptr;
  ex_address : Z;
  ex_owner : Z;
}.

Definition KB_LOADER_EXPORTED_SYMBOL_MAX : nat := 4096.

(** A zeroed slot ([memset] and the initial contents of the static array). *)
Definition empty_slot : kb_loader_exported_symbol := mk_exported_symbol null_cptr 0 0.

Definition exported_symbols_init : list kb_loader_exported_symbol :=
  replicate KB_LOADER_EXPORTED_SYMBOL_MAX empty_slot.

Definition symbol_pointer_is_valid (name : cptr) : bool :=
  (4096 <=? cp_addr name) && (cp_addr name <? UINT64_MAX - 4095).

Definition symbol_name_matches (a b : cptr) : bool :=
  if negb (symbol_pointer_is_valid a) || negb (symbol_pointer_is_valid b) then false
  else bool_decide (cp_str a = cp_str b).

(** [name[0] == '\0'] *)
Definition empty_string (name : cptr) : bool := bool_decide (cp_str name = []).

Definition kb_loader_symbol_registry_lookup_export
    (exported_symbols : list kb_loader_exported_symbol) (name : cptr) : Z :=
  if negb (symbol_pointer_is_valid name) || empty_string name then 0
  else match list_find (fun s => symbol_name_matches (ex_name s) name = true) exported_symbols with
       | Some (_, s) => ex_address s
       | None => 0
       end.

Definition kb_loader_symbol_registry_add_export
    (exported_symbols : list kb_loader_exported_symbol) (name : cptr) (address owner : Z)
    : list kb_loader_exported_symbol * kb_status :=
  if negb (symbol_pointer_is_valid name) || empty_string name || (address =? 0) || (owner =? 0)
  then (exported_symbols, KB_ERR_INVALID)
  else
    match list_find (fun s => symbol_name_matches (ex_name s) name = true) exported_symbols with
    | Some _ => (exported_symbols, KB_OK)
    | None =>
        match list_find (fun s => cp_addr (ex_name s) = 0) exported_symbols with
        | Some (i, _) => (<[i := mk_exported_symbol name address owner]> exported_symbols, KB_OK)
        | None => (exported_symbols, KB_ERR_NOMEM)
        end
    end.

Definition kb_loader_symbol_registry_remove_owner
    (exported_symbols : list kb_loader_exported_symbol) (owner : Z)
    : list kb_loader_exported_symbol :=
  if owner =? 0 then exported_symbols
  else map (fun s => if ex_owner s =? owner then empty_slot else s) exported_symbols.

(** ** The abstract registry: a map from names to addresses and owners *)

Definition slot_entry (s : kb_loader_exported_symbol) : option (list Z * (Z * Z)) :=
  if cp_addr (ex_name s) =? 0 then None
  else Some (cp_str (ex_name s), (ex_address s, ex_owner s)).

Definition registry_abs (tbl : list kb_loader_exported_symbol) : gmap (list Z) (Z * Z) :=
  list_to_map (omap slot_entry tbl).

(** ** Invariant

    Every occupied slot holds a valid, non-empty name with a non-zero address
    and owner, an empty slot is all zero, and no name occurs twice. *)

Definition slot_ok (s : kb_loader_exported_symbol) : Prop :=
  (s = empty_slot) \/
  (symbol_pointer_is_valid (ex_name s) = true /\ cp_str (ex_name s) <> [] /\
   ex_address s <> 0 /\ ex_owner s <> 0).

Record registry_ok (tbl : list kb_loader_exported_symbol) : Prop := {
  ro_length : length tbl = KB_LOADER_EXPORTED_SYMBOL_MAX;
  ro_slots : Forall slot_ok tbl;
  ro_names : NoDup (omap slot_entry tbl).*1;
}.

Lemma valid_nonzero p : symbol_pointer_is_valid p = true -> cp_addr p <> 0.
Proof. unfold symbol_pointer_is_valid. intros H. boolify. lia. Qed.

Lemma slot_ok_match s name :
  slot_ok s -> symbol_pointer_is_valid name = true ->
  symbol_name_matches (ex_name s) name = true <->
  exists v, slot_entry s = Some (cp_str name, v).
Proof.
  intros [->|(Hv & _ & _ & _)] Hn; unfold symbol_name_matches, slot_entry.
  - cbn. split; [done|]. by intros [v ?].
  - rewrite Hv, Hn. cbn [negb orb]. pose proof (valid_nonzero _ Hv).
    destruct (Z.eqb_spec (cp_addr (ex_name s)) 0); [done|].
    rewrite bool_decide_eq_true. split; [intros ->; eauto|]. intros [v [= -> _]]. done.
Qed.

Lemma entry_lookup tbl k v :
  NoDup (omap slot_entry tbl).*1 ->
  registry_abs tbl !! k = Some v <-> exists i s, tbl !! i = Some s /\ slot_entry s = Some (k, v).
Proof.
  intros Hnd. unfold registry_abs. rewrite <- elem_of_list_to_map by done.
  rewrite list_elem_of_omap. setoid_rewrite list_elem_of_lookup. split.
  - intros (s & [i Hi] & He). eauto.
  - intros (i & s & Hi & He). eauto.
Qed.

(** Linear search is the lookup of the abstract map. *)
Lemma find_name tbl name :
  registry_ok tbl -> symbol_pointer_is_valid name = true ->
  match list_find (fun s => symbol_name_matches (ex_name s) name = true) tbl with
  | Some (i, s) => tbl !! i = Some s /\ slot_entry s = Some (cp_str name, (ex_address s, ex_owner s)) /\
                   registry_abs tbl !! cp_str name = Some (ex_address s, ex_owner s)
  | None => registry_abs tbl !! cp_str name = None
  end.
Proof.
  intros [HL Hs Hnd] Hv. rewrite Forall_lookup in Hs.
  destruct (list_find _ tbl) as [[i s]|] eqn:E.
  - apply list_find_Some in E as (Hi & Hm & _). pose proof (Hs _ _ Hi) as Hok.
    assert (slot_entry s = Some (cp_str name, (ex_address s, ex_owner s))) as He.
    { apply slot_ok_match in Hm as [v Hv']; [|done|done]. rewrite Hv'.
      unfold slot_entry in Hv'. case_match; [done|]. congruence. }
    split; [done|split; [done|]]. apply entry_lookup; [done|]. eauto.
  - apply list_find_None in E. rewrite Forall_lookup in E.
    apply eq_None_not_Some. intros [v Hl]. apply entry_lookup in Hl as (i & s & Hi & He); [|done].
    apply (E _ _ Hi). apply slot_ok_match; eauto.
Qed.

Lemma omap_insert_free tbl i s t :
  tbl !! i = Some t -> slot_entry t = None ->
  omap slot_entry (<[i := s]> tbl) ≡ₚ
    match slot_entry s with Some e => e :: omap slot_entry tbl | None => omap slot_entry tbl end.
Proof.
  revert i. induction tbl as [|u tbl IH]; intros i Hi Ht; [done|].
  destruct i as [|i]; cbn in *.
  - injection Hi as ->. rewrite Ht. by destruct (slot_entry s).
  - specialize (IH i Hi Ht). destruct (slot_entry u) as [e|]; [|done].
    rewrite IH. destruct (slot_entry s); [|done]. by rewrite Permutation_swap.
Qed.

Lemma registry_ok_init : registry_ok exported_symbols_init.
Proof.
  split; [apply length_replicate|apply Forall_replicate; by left|].
  unfold exported_symbols_init. induction KB_LOADER_EXPORTED_SYMBOL_MAX; [constructor|done].
Qed.

(** The entries a removal keeps are a sublist of the old ones. *)
Lemma slot_entry_owner s e : slot_entry s = Some e -> e.2.2 = ex_owner s.
Proof. unfold slot_entry. case_match; [done|]. by intros [= <-]. Qed.

Lemma omap_remove_owner tbl owner :
  omap slot_entry (map (fun s => if ex_owner s =? owner then empty_slot else s) tbl) =
  filter (fun e => e.2.2 <> owner) (omap slot_entry tbl).
Proof.
  induction tbl as [|s tbl IH]; [done|]. cbn [map omap list_omap].
  destruct (slot_entry s) as [e|] eqn:Es; destruct (Z.eqb_spec (ex_owner s) owner) as [E|E].
  - rewrite IH. pose proof (slot_entry_owner _ _ Es). rewrite filter_cons_False; [done|]. naive_solver.
  - rewrite Es, IH. pose proof (slot_entry_owner _ _ Es). rewrite filter_cons_True; [done|]. congruence.
  - by rewrite IH.
  - by rewrite Es, IH.
Qed.

Lemma list_to_map_filter (l : list (list Z * (Z * Z))) owner :
  NoDup l.*1 ->
  (list_to_map (filter (fun e => e.2.2 <> owner) l) : gmap (list Z) (Z * Z)) =
  filter (fun kv => kv.2.2 <> owner) (list_to_map l).
Proof.
  induction l as [|[k v] l IH]; intros Hnd; [cbn; by rewrite map_filter_empty|].
  cbn [fmap list_fmap fst] in Hnd. rewrite list_to_map_cons.
  apply NoDup_cons in Hnd as [Hk Hnd].
  assert (Hn : (list_to_map l : gmap (list Z) (Z * Z)) !! k = None) by by apply not_elem_of_list_to_map_1.
  destruct (decide (v.2 = owner)) as [E|E].
  - rewrite filter_cons_False by (cbn; tauto). rewrite IH by done.
    rewrite map_filter_insert_False by (cbn; tauto). f_equal. symmetry. by apply delete_id.
  - rewrite filter_cons_True by done. rewrite list_to_map_cons, IH by done.
    by rewrite map_filter_insert_True.
Qed.

(** ** Preservation *)

Lemma registry_ok_add tbl name address owner :
  registry_ok tbl -> registry_ok (kb_loader_symbol_registry_add_export tbl name address owner).1.
Proof.
  intros Hok. unfold kb_loader_symbol_registry_add_export. case_match eqn:Hg; [done|].
  boolify. unfold empty_string in *. boolify.
  pose proof (find_name _ _ Hok ltac:(eassumption)) as Hf.
  destruct (list_find _ tbl) as [[i s]|]; [done|].
  destruct (list_find (fun s => cp_addr (ex_name s) = 0) tbl) as [[i s]|] eqn:E; [|done].
  apply list_find_Some in E as (Hi & Hz & _). destruct Hok as [HL Hs Hnd].
  assert (slot_entry s = None) as Hnone by (unfold slot_entry; by rewrite Hz).
  split; cbn.
  - by rewrite length_insert.
  - apply Forall_insert; [done|]. by right.
  - pose proof (omap_insert_free tbl i (mk_exported_symbol name address owner) s Hi Hnone) as Hp.
    unfold slot_entry at 2 in Hp. cbn in Hp.
    pose proof (valid_nonzero name ltac:(done)). destruct (Z.eqb_spec (cp_addr name) 0); [done|].
    rewrite Hp. cbn. constructor; [|done]. by apply not_elem_of_list_to_map.
Qed.

Lemma registry_ok_remove tbl owner :
  registry_ok tbl -> registry_ok (kb_loader_symbol_registry_remove_owner tbl owner).
Proof.
  intros [HL Hs Hnd]. unfold kb_loader_symbol_registry_remove_owner.
  destruct (owner =? 0); [done|]. split.
  - by rewrite length_map.
  - apply Forall_map. eapply Forall_impl; [done|]. intros s ?; cbn. case_match; [by left|done].
  - rewrite omap_remove_owner. eapply sublist_NoDup; [done|]. apply fmap_sublist, sublist_filter.
Qed.

(** The abstraction of an insertion into a free slot. *)
Lemma registry_abs_insert tbl i name address owner :
  registry_ok tbl -> symbol_pointer_is_valid name = true ->
  registry_abs tbl !! cp_str name = None ->
  list_find (fun s => cp_addr (ex_name s) = 0) tbl = Some i ->
  registry_abs (<[i.1 := mk_exported_symbol name address owner]> tbl) =
  <[cp_str name := (address, owner)]> (registry_abs tbl).
Proof.
  intros [HL Hs Hnd] Hv Hn. destruct i as [i s]. intros (Hi & Hz & _)%list_find_Some. cbn.
  assert (slot_entry s = None) as Hnone by (unfold slot_entry; by rewrite Hz).
  pose proof (omap_insert_free tbl i (mk_exported_symbol name address owner) s Hi Hnone) as Hp.
  unfold slot_entry at 2 in Hp. cbn in Hp.
  pose proof (valid_nonzero name Hv). destruct (Z.eqb_spec (cp_addr name) 0); [done|].
  unfold registry_abs at 1. erewrite list_to_map_proper; [| |exact Hp]; [done|].
  rewrite Hp. cbn. constructor; [|done]. by apply not_elem_of_list_to_map.
Qed.

Lemma registry_abs_remove tbl owner :
  registry_ok tbl ->
  registry_abs (kb_loader_symbol_registry_remove_owner tbl owner) =
  if owner =? 0 then registry_abs tbl else filter (fun kv => kv.2.2 <> owner) (registry_abs tbl).
Proof.
  intros [HL Hs Hnd]. unfold kb_loader_symbol_registry_remove_owner, registry_abs.
  destruct (owner =? 0); [done|]. rewrite omap_remove_owner. by apply list_to_map_filter.
Qed.

(** A free slot exists exactly while the map is below the capacity. *)
Lemma omap_full_length tbl :
  Forall slot_ok tbl ->
  (length (omap slot_entry tbl) <= length tbl)%nat /\
  (list_find (fun s => cp_addr (ex_name s) = 0) tbl = None <->
   length (omap slot_entry tbl) = length tbl).
Proof.
  intros Hs. rewrite list_find_None. induction Hs as [|s tbl Hok Hs [IHle IH]]; [split; [done|split; [done|constructor]]|].
  assert (slot_entry s = None <-> cp_addr (ex_name s) = 0) as He.
  { clear IH. unfold slot_entry. destruct (Z.eqb_spec (cp_addr (ex_name s)) 0); [done|]. by split. }
  rewrite Forall_cons. cbn [omap list_omap length].
  destruct (slot_entry s) as [e|] eqn:Es; cbn [length].
  - split; [lia|]. rewrite IH. split; [intros [_ ?]; lia|]. intros ?. split; [|lia].
    intros Hz. apply He in Hz. done.
  - split; [lia|]. split; [|lia]. intros [Hz _]. exfalso. apply Hz. by apply He.
Qed.

Lemma size_registry_abs tbl :
  registry_ok tbl -> size (registry_abs tbl) = length (omap slot_entry tbl).
Proof.
  intros [_ _ Hnd]. unfold registry_abs. 
  rewrite <- length_map_to_list. by rewrite map_to_list_to_map.
Qed.

(** The loader's entry point for modules that look up a symbol by name. *)
Definition kb_module_lookup_exported_symbol
    (exported_symbols : list kb_loader_exported_symbol) (name : cptr) : Z :=
  kb_loader_symbol_registry_lookup_export exported_symbols name.

(** ** The specification: a map of bounded size

    The same three operations on a map from names to (address, owner). *)

Inductive registry_op :=
  | OpLookup (name : cptr)
  | OpAdd (name : cptr) (address owner : Z)
  | OpRemoveOwner (owner : Z).

Inductive registry_reply :=
  | ReplyAddress (a : Z)
  | ReplyStatus (s : kb_status)
  | ReplyUnit.

Definition registry_step (tbl : list kb_loader_exported_symbol) (o : registry_op)
    : list kb_loader_exported_symbol * registry_reply :=
  match o with
  | OpLookup name => (tbl, ReplyAddress (kb_module_lookup_exported_symbol tbl name))
  | OpAdd name address owner =>
      let r := kb_loader_symbol_registry_add_export tbl name address owner in
      (r.1, ReplyStatus r.2)
  | OpRemoveOwner owner => (kb_loader_symbol_registry_remove_owner tbl owner, ReplyUnit)
  end.

Definition name_usable (name : cptr) : bool :=
  symbol_pointer_is_valid name && negb (empty_string name).

Definition spec_step (m : gmap (list Z) (Z * Z)) (o : registry_op)
    : gmap (list Z) (Z * Z) * registry_reply :=
  match o with
  | OpLookup name =>
      (m, ReplyAddress (if name_usable name then default 0 (fst <$> m !! cp_str name) else 0))
  | OpAdd name address owner =>
      if negb (name_usable name) || (address =? 0) || (owner =? 0)
      then (m, ReplyStatus KB_ERR_INVALID)
      else match m !! cp_str name with
           | Some _ => (m, ReplyStatus KB_OK)
           | None =>
               if decide (size m = KB_LOADER_EXPORTED_SYMBOL_MAX)
               then (m, ReplyStatus KB_ERR_NOMEM)
               else (<[cp_str name := (address, owner)]> m, ReplyStatus KB_OK)
           end
  | OpRemoveOwner owner =>
      (if owner =? 0 then m else filter (fun kv => kv.2.2 <> owner) m, ReplyUnit)
  end.

Fixpoint run_ops {S : Type} (step : S -> registry_op -> S * registry_reply) (s : S)
    (os : list registry_op) : S * list registry_reply :=
  match os with
  | [] => (s, [])
  | o :: os => let r := step s o in let rest := run_ops step r.1 os in (rest.1, r.2 :: rest.2)
  end.

Lemma lookup_refines tbl name :
  registry_ok tbl ->
  kb_module_lookup_exported_symbol tbl name =
  if name_usable name then default 0 (fst <$> registry_abs tbl !! cp_str name) else 0.
Proof.
  intros Hok. unfold kb_module_lookup_exported_symbol, kb_loader_symbol_registry_lookup_export, name_usable.
  destruct (symbol_pointer_is_valid name) eqn:Hv; [|done].
  destruct (empty_string name); [done|]. cbn.
  pose proof (find_name _ _ Hok Hv) as Hf.
  destruct (list_find _ tbl) as [[i s]|]; [destruct Hf as (_ & _ & ->)|rewrite Hf]; done.
Qed.

Lemma add_refines tbl name address owner :
  registry_ok tbl ->
  let r := kb_loader_symbol_registry_add_export tbl name address owner in
  (registry_abs r.1, ReplyStatus r.2) = spec_step (registry_abs tbl) (OpAdd name address owner).
Proof.
  intros Hok. unfold kb_loader_symbol_registry_add_export, spec_step, name_usable.
  destruct (symbol_pointer_is_valid name) eqn:Hv; [|done].
  destruct (empty_string name); [done|]. cbn [negb orb andb].
  destruct (address =? 0); [done|]. destruct (owner =? 0); [done|]. cbn [orb].
  pose proof (find_name _ _ Hok Hv) as Hf.
  destruct (list_find _ tbl) as [[i s]|]; [destruct Hf as (_ & _ & ->); done|rewrite Hf].
  pose proof (omap_full_length tbl (ro_slots _ Hok)) as [_ Hfull].
  rewrite (ro_length _ Hok) in Hfull. rewrite <- size_registry_abs in Hfull by done.
  destruct (list_find (fun s => cp_addr (ex_name s) = 0) tbl) as [[i s]|] eqn:E.
  - rewrite decide_False by (intros Hsz; apply Hfull in Hsz; done). cbn [fst snd].
    pose proof (registry_abs_insert _ _ name address owner Hok Hv Hf E) as Hins.
    cbn [fst] in Hins. by rewrite Hins.
  - by rewrite decide_True by (by apply Hfull).
Qed.

Lemma registry_step_ok tbl o : registry_ok tbl -> registry_ok (registry_step tbl o).1.
Proof.
  intros H. destruct o; [done|by apply registry_ok_add|by apply registry_ok_remove].
Qed.

Lemma registry_step_refines tbl o :
  registry_ok tbl ->
  spec_step (registry_abs tbl) o =
  (registry_abs (registry_step tbl o).1, (registry_step tbl o).2).
Proof.
  intros H. destruct o as [name|name a w|w]; cbn [registry_step fst snd].
  - cbn. by rewrite lookup_refines.
  - by rewrite <- add_refines.
  - cbn. by rewrite registry_abs_remove.
Qed.

Lemma run_refines tbl os :
  registry_ok tbl ->
  registry_ok (run_ops registry_step tbl os).1 /\
  run_ops spec_step (registry_abs tbl) os =
  (registry_abs (run_ops registry_step tbl os).1, (run_ops registry_step tbl os).2).
Proof.
  revert tbl. induction os as [|o os IH]; intros tbl Hok; [done|]. cbn [run_ops].
  rewrite registry_step_refines by done. cbn [fst snd].
  destruct (IH _ (registry_step_ok _ o Hok)) as [Hok' ->]. done.
Qed.

Lemma registry_abs_init : registry_abs exported_symbols_init = empty.
Proof.
  unfold registry_abs, exported_symbols_init.
  induction KB_LOADER_EXPORTED_SYMBOL_MAX; done.
Qed.

(** C9: From the zeroed static table, every sequence of look-ups, exports and
    owner removals gets exactly the replies of a map with at most 4096 names:
    the first exporter of a name wins and a later export of it reports success
    without effect, a full table reports out of memory, bad arguments report
    invalid, and removing an owner deletes all and only its names.  The table
    invariant (no name twice, occupied slots complete) holds throughout. *)
Theorem symbol_registry_refines_map (os : list registry_op) :
  registry_ok (run_ops registry_step exported_symbols_init os).1 /\
  run_ops spec_step empty os =
  (registry_abs (run_ops registry_step exported_symbols_init os).1,
   (run_ops registry_step exported_symbols_init os).2).
Proof. rewrite <- registry_abs_init. apply run_refines, registry_ok_init. Qed.

(** A name exported by two modules is lost when the first of them goes: the
    second export was reported as a success but never recorded. *)
Definition dup_name : cptr := mk_cptr 0x10000 (cstr "shared_symbol").

(** An export that a second module makes of a name already taken reports
    success, and yet the name no longer resolves once the first owner's
    exports are removed, although the second owner is still loaded. *)
Theorem duplicate_export_is_lost :
  (run_ops registry_step exported_symbols_init
     [OpAdd dup_name 0x5000 1; OpAdd dup_name 0x6000 2; OpLookup dup_name;
      OpRemoveOwner 1; OpLookup dup_name]).2 =
  [ReplyStatus KB_OK; ReplyStatus KB_OK; ReplyAddress 0x5000; ReplyUnit; ReplyAddress 0].
Proof. vm_compute. reflexivity. Qed.
