(* ===== verification/ShimTable.v ===== *)
(** * The shim symbol table (src/src/loader/module_loader.c, lines 1396-1664)

    The loader flattens the symbol tables of its fourteen providers into
    [shim_symbol_cache], in provider order, and indexes the names with an
    open-addressing table of 16-bit cache indices (FNV-1a hash, linear
    probing).  A module reaches a shim through a 48-byte stub whose position in
    the module's stub area is the cache index; stubs for calls into other
    modules are handed out behind them.

    The static array [shim_symbol_cache] with its counter is the list of the
    entries appended so far (entries past the counter are NULL and never
    stored).  The providers are arguments: their contents are data. *)

From S2P Require Import Prelude Bytes.

Record kb_linux_symbol := mk_linux_symbol {
  ls_name : option (list Z);
  ls_address : Z;
}.

#[export] Instance kb_linux_symbol_eq_dec : EqDecision kb_linux_symbol.
Proof. solve_decision. Defined.

Definition KB_LOCAL_SHIM_STUB_SIZE : Z := 48.
Definition KB_LOCAL_SHIM_STUB_COUNT : Z := 4096.
Definition KB_LOCAL_SHIM_SYMBOL_HASH_SIZE : Z := 16384.
Definition UINT16_MAX : Z := 65535.

Record shim_state := mk_shim_state {
  shim_symbol_cache : list kb_linux_symbol;
  shim_symbol_hash_index : list Z;
  shim_symbol_cache_ready : bool;
  shim_symbol_cache_overflow : bool;
}.
#[export] Instance shim_state_eta : Settable shim_state := fun r =>
  mk_shim_state (shim_symbol_cache r) (shim_symbol_hash_index r)
    (shim_symbol_cache_ready r) (shim_symbol_cache_overflow r).

(** The zero-initialised statics. *)
Definition shim_state_init : shim_state :=
  mk_shim_state [] (replicate (Z.to_nat KB_LOCAL_SHIM_SYMBOL_HASH_SIZE) 0) false false.

Definition shim_symbol_cache_count (st : shim_state) : Z :=
  Z.of_nat (length (shim_symbol_cache st)).

Fixpoint fnv1a_loop (hash : Z) (name : list Z) : Z :=
  match name with
  | [] => hash
  | c :: name => fnv1a_loop (u64 (Z.lxor hash c * 1099511628211)) name
  end.

Definition shim_symbol_name_hash (name : option (list Z)) : Z :=
  match name with
  | None => 0
  | Some name => fnv1a_loop 1469598103934665603 name
  end.

Definition hash_slot (name : option (list Z)) : Z :=
  Z.land (shim_symbol_name_hash name) (KB_LOCAL_SHIM_SYMBOL_HASH_SIZE - 1).

Definition next_slot (slot : Z) : Z :=
  Z.land (slot + 1) (KB_LOCAL_SHIM_SYMBOL_HASH_SIZE - 1).

(** [symbol != NULL && symbol->name != NULL && strcmp(symbol->name, name) == 0] *)
Definition entry_named (name : list Z) (entry : option kb_linux_symbol) : bool :=
  match entry with
  | Some s => bool_decide (ls_name s = Some name)
  | None => false
  end.

(** The probe loop of [shim_symbol_hash_insert_first]. *)
Fixpoint hash_insert_loop (fuel : nat) (cache : list kb_linux_symbol) (table : list Z)
    (slot : Z) (name : list Z) (index : Z) : list Z :=
  match fuel with
  | O => table
  | S fuel =>
      let stored := nth (Z.to_nat slot) table 0 in
      if stored =? 0 then <[Z.to_nat slot := u16 (index + 1)]> table
      else if entry_named name (cache !! Z.to_nat (stored - 1)) then table
      else hash_insert_loop fuel cache table (next_slot slot) name index
  end.

Definition shim_symbol_hash_insert_first (st : shim_state) (symbol : kb_linux_symbol) (index : Z)
    : shim_state :=
  match ls_name symbol with
  | None => st
  | Some name =>
      if UINT16_MAX <=? index then st
      else st <| shim_symbol_hash_index :=
             hash_insert_loop (Z.to_nat KB_LOCAL_SHIM_SYMBOL_HASH_SIZE) (shim_symbol_cache st)
               (shim_symbol_hash_index st) (hash_slot (ls_name symbol)) name index |>
  end.

Fixpoint append_provider_loop (st : shim_state) (symbols : list kb_linux_symbol) : shim_state :=
  match symbols with
  | [] => st
  | symbol :: symbols =>
      if KB_LOCAL_SHIM_STUB_COUNT <=? shim_symbol_cache_count st
      then st <| shim_symbol_cache_overflow := true |>
      else
        let index := shim_symbol_cache_count st in
        let st := st <| shim_symbol_cache ::= (fun c => c ++ [symbol]) |> in
        append_provider_loop (shim_symbol_hash_insert_first st symbol index) symbols
  end.

Definition shim_symbol_append_provider (st : shim_state) (symbols : option (list kb_linux_symbol))
    : shim_state :=
  match symbols with
  | None => st
  | Some symbols => append_provider_loop st symbols
  end.

(** [providers]: the loader's own table, then core, stub, pci, usb, ata, block,
    dma, fs, input, net, security, sound and kvm. *)
Definition shim_symbol_table_init (providers : list (option (list kb_linux_symbol)))
    (st : shim_state) : shim_state :=
  if shim_symbol_cache_ready st then st
  else foldl shim_symbol_append_provider st providers <| shim_symbol_cache_ready := true |>.

Section table.
Context (providers : list (option (list kb_linux_symbol))).

Definition shim_symbol_table_count (st : shim_state) : shim_state * Z :=
  let st := shim_symbol_table_init providers st in
  (st, if shim_symbol_cache_overflow st then KB_LOCAL_SHIM_STUB_COUNT + 1
       else shim_symbol_cache_count st).

Definition shim_symbol_table_at (st : shim_state) (index : Z)
    : shim_state * option kb_linux_symbol :=
  let st := shim_symbol_table_init providers st in
  (st, if index <? shim_symbol_cache_count st
       then shim_symbol_cache st !! Z.to_nat index else None).

Fixpoint hash_find_loop (fuel : nat) (cache : list kb_linux_symbol) (table : list Z)
    (slot : Z) (name : list Z) : option Z :=
  match fuel with
  | O => None
  | S fuel =>
      let stored := nth (Z.to_nat slot) table 0 in
      if stored =? 0 then None
      else
        let index := stored - 1 in
        if entry_named name (cache !! Z.to_nat index) then Some index
        else hash_find_loop fuel cache table (next_slot slot) name
  end.

Definition shim_symbol_find_index (st : shim_state) (name : option (list Z))
    : shim_state * option Z :=
  match name with
  | None => (st, None)
  | Some nm =>
      let st := shim_symbol_table_init providers st in
      (st, hash_find_loop (Z.to_nat KB_LOCAL_SHIM_SYMBOL_HASH_SIZE) (shim_symbol_cache st)
             (shim_symbol_hash_index st) (hash_slot name) nm)
  end.

Definition shim_symbol_find_address (st : shim_state) (name : option (list Z))
    : shim_state * Z :=
  match shim_symbol_find_index st name with
  | (st, None) => (st, 0)
  | (st, Some index) =>
      match shim_symbol_table_at st index with
      | (st, None) => (st, 0)
      | (st, Some symbol) => (st, ls_address symbol)
      end
  end.
End table.

(** ** Probe sequences *)

Definition probe (slot k : Z) : Z := (slot + k) mod KB_LOCAL_SHIM_SYMBOL_HASH_SIZE.

Lemma land_hash_mask z :
  Z.land z (KB_LOCAL_SHIM_SYMBOL_HASH_SIZE - 1) = z mod KB_LOCAL_SHIM_SYMBOL_HASH_SIZE.
Proof. exact (Z.land_ones z 14 ltac:(lia)). Qed.

Lemma hash_slot_range name : 0 <= hash_slot name < KB_LOCAL_SHIM_SYMBOL_HASH_SIZE.
Proof. unfold hash_slot. rewrite land_hash_mask. by apply Z.mod_pos_bound. Qed.

Lemma probe_0 slot : 0 <= slot < KB_LOCAL_SHIM_SYMBOL_HASH_SIZE -> probe slot 0 = slot.
Proof. intros. unfold probe. rewrite Z.add_0_r. by apply Z.mod_small. Qed.

Lemma probe_range slot k : 0 <= probe slot k < KB_LOCAL_SHIM_SYMBOL_HASH_SIZE.
Proof. by apply Z.mod_pos_bound. Qed.

Lemma probe_next slot k : probe (next_slot slot) k = probe slot (k + 1).
Proof.
  unfold probe, next_slot. rewrite land_hash_mask, Zplus_mod_idemp_l. f_equal. lia.
Qed.

(** Every slot is on the probe sequence of every other. *)
Lemma probe_onto slot s :
  0 <= s < KB_LOCAL_SHIM_SYMBOL_HASH_SIZE ->
  exists k, 0 <= k < KB_LOCAL_SHIM_SYMBOL_HASH_SIZE /\ probe slot k = s.
Proof.
  intros Hs. exists ((s - slot) mod KB_LOCAL_SHIM_SYMBOL_HASH_SIZE).
  split; [by apply Z.mod_pos_bound|]. unfold probe. rewrite Zplus_mod_idemp_r.
  replace (slot + (s - slot)) with s by lia. by apply Z.mod_small.
Qed.

Definition cell (table : list Z) (s : Z) : Z := nth (Z.to_nat s) table 0.

(** A probe stops at a free slot or at an entry of the name. *)
Definition stops (cache : list kb_linux_symbol) (table : list Z) (name : list Z) (s : Z) : bool :=
  (cell table s =? 0) || entry_named name (cache !! Z.to_nat (cell table s - 1)).

Fixpoint first_stop (fuel : nat) (cache : list kb_linux_symbol) (table : list Z) (slot : Z)
    (name : list Z) : option Z :=
  match fuel with
  | O => None
  | S fuel =>
      if stops cache table name slot then Some slot
      else first_stop fuel cache table (next_slot slot) name
  end.

Lemma hash_find_first_stop fuel cache table slot name :
  hash_find_loop fuel cache table slot name =
  match first_stop fuel cache table slot name with
  | Some s => if cell table s =? 0 then None else Some (cell table s - 1)
  | None => None
  end.
Proof.
  revert slot. induction fuel as [|fuel IH]; intros slot; [done|].
  cbn [hash_find_loop first_stop]. unfold stops. fold (cell table slot).
  destruct (cell table slot =? 0) eqn:E; cbn [orb]; [by rewrite E|].
  destruct (entry_named _ _); [by rewrite E|apply IH].
Qed.

Lemma hash_insert_first_stop fuel cache table slot name index :
  hash_insert_loop fuel cache table slot name index =
  match first_stop fuel cache table slot name with
  | Some s => if cell table s =? 0 then <[Z.to_nat s := u16 (index + 1)]> table else table
  | None => table
  end.
Proof.
  revert slot. induction fuel as [|fuel IH]; intros slot; [done|].
  cbn [hash_insert_loop first_stop]. unfold stops. fold (cell table slot).
  destruct (cell table slot =? 0) eqn:E; cbn [orb]; [by rewrite E|].
  destruct (entry_named _ _); [by rewrite E|apply IH].
Qed.

Lemma first_stop_spec fuel cache table slot name :
  0 <= slot < KB_LOCAL_SHIM_SYMBOL_HASH_SIZE ->
  match first_stop fuel cache table slot name with
  | Some s => exists k, 0 <= k < Z.of_nat fuel /\ s = probe slot k /\ stops cache table name s = true /\
                forall j, 0 <= j < k -> stops cache table name (probe slot j) = false
  | None => forall j, 0 <= j < Z.of_nat fuel -> stops cache table name (probe slot j) = false
  end.
Proof.
  revert slot. induction fuel as [|fuel IH]; intros slot Hs; cbn [first_stop]; [intros; lia|].
  destruct (stops cache table name slot) eqn:E.
  { exists 0. rewrite probe_0 by done. split_and!; [lia|lia|done|done|intros; lia]. }
  assert (0 <= next_slot slot < KB_LOCAL_SHIM_SYMBOL_HASH_SIZE) as Hn.
  { unfold next_slot. rewrite land_hash_mask. by apply Z.mod_pos_bound. }
  specialize (IH _ Hn).
  assert (forall j m, (forall i, 0 <= i < m -> stops cache table name (probe (next_slot slot) i) = false) ->
          0 <= j < m + 1 -> stops cache table name (probe slot j) = false) as Hstep.
  { intros j m H Hj. destruct (decide (j = 0)) as [->|]; [by rewrite probe_0|].
    replace j with (j - 1 + 1) by lia. rewrite <- probe_next. apply H. lia. }
  destruct (first_stop fuel cache table (next_slot slot) name) as [s|].
  - destruct IH as (k & Hk & Hsk & Hst & Hlt). exists (k + 1).
    rewrite <- probe_next. split_and!; [lia|lia|done|done|]. intros j Hj. by eapply Hstep.
  - intros j Hj. eapply Hstep; [done|lia].
Qed.

(** ** Invariant of the cache and its index *)

(** The reference: the first entry of the name, by linear search. *)
Definition first_named (name : list Z) (cache : list kb_linux_symbol) : option (nat * kb_linux_symbol) :=
  list_find (fun s => ls_name s = Some name) cache.

Definition used_cells (table : list Z) : nat := length (filter (fun v => v <> 0) table).

Record table_inv (cache : list kb_linux_symbol) (table : list Z) : Prop := {
  ti_length : Z.of_nat (length table) = KB_LOCAL_SHIM_SYMBOL_HASH_SIZE;
  ti_count : Z.of_nat (length cache) <= KB_LOCAL_SHIM_STUB_COUNT;
  ti_cells : forall s, 0 <= s < KB_LOCAL_SHIM_SYMBOL_HASH_SIZE -> cell table s <> 0 ->
    exists n i sym, first_named n cache = Some (i, sym) /\ cell table s = Z.of_nat i + 1;
  ti_stored : forall n i sym, first_named n cache = Some (i, sym) ->
    exists k, 0 <= k < KB_LOCAL_SHIM_SYMBOL_HASH_SIZE /\
      cell table (probe (hash_slot (Some n)) k) = Z.of_nat i + 1 /\
      forall j, 0 <= j < k -> cell table (probe (hash_slot (Some n)) j) <> 0;
  ti_used : (used_cells table <= length cache)%nat;
}.

Lemma first_named_lookup n cache i sym :
  first_named n cache = Some (i, sym) ->
  cache !! i = Some sym /\ ls_name sym = Some n /\
  forall j s, cache !! j = Some s -> ls_name s = Some n -> (i <= j)%nat.
Proof.
  intros (Hi & Hn & Hlt)%list_find_Some. split_and!; [done|done|].
  intros j s Hj Hs. destruct (decide (j < i)%nat) as [Hlt'|]; [|lia]. by destruct (Hlt j s Hj Hlt').
Qed.

Lemma entry_named_true n e : entry_named n e = true <-> exists s, e = Some s /\ ls_name s = Some n.
Proof.
  destruct e as [s|]; cbn; [rewrite bool_decide_eq_true|]; [|by split; [|intros (? & ? & ?)]].
  split; [eauto|]. by intros (? & [= <-] & ?).
Qed.

(** The entry a matching cell points at is the first of its name. *)
Lemma cell_match cache table n s :
  table_inv cache table -> 0 <= s < KB_LOCAL_SHIM_SYMBOL_HASH_SIZE -> cell table s <> 0 ->
  entry_named n (cache !! Z.to_nat (cell table s - 1)) = true ->
  exists i sym, first_named n cache = Some (i, sym) /\ cell table s = Z.of_nat i + 1.
Proof.
  intros Hinv Hs Hne Hm. destruct (ti_cells _ _ Hinv s Hs Hne) as (n' & i & sym & Hf & Hc).
  apply entry_named_true in Hm as (s' & Hl & Hn). rewrite Hc in Hl.
  replace (Z.to_nat (Z.of_nat i + 1 - 1)) with i in Hl by lia.
  pose proof (first_named_lookup _ _ _ _ Hf) as (Hi & Hni & _).
  assert (s' = sym) as -> by congruence. assert (n' = n) as -> by congruence. eauto.
Qed.

Lemma stored_stops cache table n i sym s :
  first_named n cache = Some (i, sym) -> cell table s = Z.of_nat i + 1 ->
  stops cache table n s = true.
Proof.
  intros (Hi & Hn & _)%first_named_lookup Hc. unfold stops. rewrite Hc.
  replace (Z.of_nat i + 1 - 1) with (Z.of_nat i) by lia. rewrite Nat2Z.id.
  apply orb_true_iff. right. apply entry_named_true. eauto.
Qed.

Lemma hash_find_correct cache table n :
  table_inv cache table ->
  hash_find_loop (Z.to_nat KB_LOCAL_SHIM_SYMBOL_HASH_SIZE) cache table (hash_slot (Some n)) n =
  (fun p => Z.of_nat p.1) <$> first_named n cache.
Proof.
  intros Hinv. rewrite hash_find_first_stop.
  pose proof (first_stop_spec (Z.to_nat KB_LOCAL_SHIM_SYMBOL_HASH_SIZE) cache table _ n
    (hash_slot_range (Some n))) as Hspec.
  destruct (first_stop _ _ _ _ _) as [s|].
  - destruct Hspec as (k & Hk & -> & Hst & Hlt).
    destruct (Z.eqb_spec (cell table (probe (hash_slot (Some n)) k)) 0) as [Hz|Hnz].
    + destruct (first_named n cache) as [[i sym]|] eqn:Hf; [exfalso|done].
      destruct (ti_stored _ _ Hinv _ _ _ Hf) as (k' & Hk' & Hc & Hbefore).
      destruct (decide (k < k')) as [Hkk|]; [by apply (Hbefore k); [lia|]|].
      destruct (decide (k = k')) as [->|]; [lia|].
      assert (stops cache table n (probe (hash_slot (Some n)) k') = true) as Hm; [|rewrite Hlt in Hm; [done|lia]].
      by eapply stored_stops.
    + unfold stops in Hst. rewrite (proj2 (Z.eqb_neq _ _) Hnz) in Hst. cbn [orb] in Hst.
      destruct (cell_match _ _ _ _ Hinv (probe_range _ _) Hnz Hst) as (i & sym & -> & ->).
      cbn. f_equal. lia.
  - destruct (first_named n cache) as [[i sym]|] eqn:Hf; [exfalso|done].
    destruct (ti_stored _ _ Hinv _ _ _ Hf) as (k' & Hk' & Hc & _).
    assert (stops cache table n (probe (hash_slot (Some n)) k') = true) as Hm; [|rewrite Hspec in Hm; [done|lia]].
    by eapply stored_stops.
Qed.

(** ** Appending an entry *)

Lemma first_named_app n cache sym :
  first_named n (cache ++ [sym]) =
  match first_named n cache with
  | Some p => Some p
  | None => if decide (ls_name sym = Some n) then Some (length cache, sym) else None
  end.
Proof.
  unfold first_named. destruct (list_find _ cache) as [[i x]|] eqn:E.
  - by apply list_find_app_l.
  - rewrite list_find_app_r by done. cbn. destruct (decide (ls_name sym = Some n)); cbn; [|done].
    done.
Qed.

Lemma cell_insert table s v x :
  0 <= s < Z.of_nat (length table) -> 0 <= x ->
  cell (<[Z.to_nat s := v]> table) x = if decide (x = s) then v else cell table x.
Proof.
  intros Hs Hx. unfold cell. rewrite !nth_lookup. case_decide as Hd.
  - subst x. rewrite list_lookup_insert_eq by lia. done.
  - rewrite list_lookup_insert_ne by lia. done.
Qed.

Lemma used_cells_insert table i v : (used_cells (<[i := v]> table) <= S (used_cells table))%nat.
Proof.
  unfold used_cells. revert i. induction table as [|c table IH]; intros [|i]; [cbn; lia|cbn; lia| |].
  - change (<[0%nat := v]> (c :: table)) with (v :: table). rewrite !filter_cons. repeat case_decide; cbn [length]; lia.
  - specialize (IH i). change (<[S i := v]> (c :: table)) with (c :: <[i := v]> table).
    rewrite !filter_cons. case_decide; cbn [length]; lia.
Qed.

Lemma used_cells_full table :
  (forall s, 0 <= s < Z.of_nat (length table) -> cell table s <> 0) ->
  used_cells table = length table.
Proof.
  intros H. unfold used_cells. assert (Forall (fun v => v <> 0) table) as Ha.
  { apply Forall_lookup. intros i v Hi. specialize (H (Z.of_nat i)). unfold cell in H.
    rewrite Nat2Z.id, nth_lookup, Hi in H. apply H. apply lookup_lt_Some in Hi. lia. }
  clear H. induction Ha as [|v table Hv Ha IH]; [done|]. rewrite filter_cons_True by done. cbn. lia.
Qed.

(** The index holds fewer entries than slots, so a probe always stops. *)
Lemma probe_stops cache cache' table n :
  table_inv cache table ->
  exists s, first_stop (Z.to_nat KB_LOCAL_SHIM_SYMBOL_HASH_SIZE) cache' table (hash_slot (Some n)) n = Some s.
Proof.
  intros Hinv. pose proof (first_stop_spec (Z.to_nat KB_LOCAL_SHIM_SYMBOL_HASH_SIZE) cache' table _ n
    (hash_slot_range (Some n))) as Hspec.
  destruct (first_stop _ _ _ _ _) as [s|]; [eauto|exfalso].
  assert (used_cells table = length table) as Hfull.
  { apply used_cells_full. rewrite (ti_length _ _ Hinv). intros s Hs.
    destruct (probe_onto (hash_slot (Some n)) s Hs) as (k & Hk & <-).
    specialize (Hspec k ltac:(lia)). unfold stops in Hspec. boolify. done. }
  destruct Hinv as [HL Hc _ _ Hu]. unfold KB_LOCAL_SHIM_STUB_COUNT, KB_LOCAL_SHIM_SYMBOL_HASH_SIZE in *. lia.
Qed.

(** A cell that matches a name against the extended cache holds an old entry. *)
Lemma cell_match_app cache sym table n s :
  table_inv cache table -> 0 <= s < KB_LOCAL_SHIM_SYMBOL_HASH_SIZE -> cell table s <> 0 ->
  stops (cache ++ [sym]) table n s = true -> exists p, first_named n cache = Some p.
Proof.
  intros Hinv Hs Hne Hst. unfold stops in Hst.
  rewrite (proj2 (Z.eqb_neq _ _) Hne) in Hst. cbn [orb] in Hst.
  destruct (ti_cells _ _ Hinv s Hs Hne) as (n' & i & x & Hf & Hc).
  pose proof (first_named_lookup _ _ _ _ Hf) as (Hi & _ & _).
  destruct (cell_match cache table n s Hinv Hs Hne) as (i' & x' & Hf' & _); [|eauto].
  rewrite Hc in *. replace (Z.of_nat i + 1 - 1) with (Z.of_nat i) in * by lia. rewrite Nat2Z.id in *.
  rewrite lookup_app_l in Hst; [done|]. by eapply lookup_lt_Some.
Qed.

Lemma table_inv_keep cache sym table :
  table_inv cache table -> Z.of_nat (length cache) < KB_LOCAL_SHIM_STUB_COUNT ->
  (forall n, ls_name sym = Some n -> exists p, first_named n cache = Some p) ->
  table_inv (cache ++ [sym]) table.
Proof.
  intros [HL Hc Hcells Hst Hu] Hlt Hold. split; [done| | | |]; rewrite ?length_app; cbn [length].
  - lia.
  - intros s Hs Hne. destruct (Hcells s Hs Hne) as (n & i & x & Hf & He).
    exists n, i, x. by rewrite first_named_app, Hf.
  - intros n i x. rewrite first_named_app. destruct (first_named n cache) as [p|] eqn:Hf.
    + intros [= ->]. by eapply Hst.
    + case_decide as Hn; [|done]. destruct (Hold n Hn) as [p Hp]. congruence.
  - lia.
Qed.

Lemma table_inv_insert cache sym table n k :
  table_inv cache table -> Z.of_nat (length cache) < KB_LOCAL_SHIM_STUB_COUNT ->
  ls_name sym = Some n -> first_named n cache = None ->
  0 <= k < KB_LOCAL_SHIM_SYMBOL_HASH_SIZE -> cell table (probe (hash_slot (Some n)) k) = 0 ->
  (forall j, 0 <= j < k -> cell table (probe (hash_slot (Some n)) j) <> 0) ->
  table_inv (cache ++ [sym])
    (<[Z.to_nat (probe (hash_slot (Some n)) k) := Z.of_nat (length cache) + 1]> table).
Proof.
  intros [HL Hc Hcells Hst Hu] Hlt Hn Hnew Hk Hz Hbefore.
  set (s := probe (hash_slot (Some n)) k) in *.
  pose proof (probe_range (hash_slot (Some n)) k) as Hsr. fold s in Hsr.
  assert (forall x, 0 <= x -> cell table x <> 0 ->
    cell (<[Z.to_nat s := Z.of_nat (length cache) + 1]> table) x = cell table x) as Hkeep.
  { intros x Hx Hne. rewrite cell_insert by lia. case_decide; congruence. }
  split; rewrite ?length_insert, ?length_app; cbn [length]; [done|lia| | |].
  - intros x Hx. rewrite cell_insert by lia. case_decide as Hd; intros Hne.
    + exists n, (length cache), sym. by rewrite first_named_app, Hnew, decide_True.
    + destruct (Hcells x Hx Hne) as (m & i & y & Hf & He).
      exists m, i, y. by rewrite first_named_app, Hf.
  - intros m i x. rewrite first_named_app. destruct (first_named m cache) as [p|] eqn:Hf.
    + intros [= ->]. destruct (Hst m i x Hf) as (k' & Hk' & He & Hb).
      pose proof (probe_range (hash_slot (Some m))) as Hr.
      exists k'. split_and!; [lia|lia| |].
      * rewrite Hkeep; [done|apply Hr|lia].
      * intros j Hj. rewrite Hkeep; [by apply Hb|apply Hr|by apply Hb].
    + case_decide as Hm; [|done]. intros [= <- <-]. assert (m = n) as -> by congruence.
      exists k. fold s. split_and!; [lia|lia| |].
      * rewrite cell_insert by lia. by rewrite decide_True.
      * intros j Hj. rewrite Hkeep; [by apply Hbefore|apply probe_range|by apply Hbefore].
  - pose proof (used_cells_insert table (Z.to_nat s) (Z.of_nat (length cache) + 1)). lia.
Qed.

Lemma insert_first_inv st sym :
  table_inv (shim_symbol_cache st) (shim_symbol_hash_index st) ->
  shim_symbol_cache_count st < KB_LOCAL_SHIM_STUB_COUNT ->
  let st' := shim_symbol_hash_insert_first (st <| shim_symbol_cache ::= (fun c => c ++ [sym]) |>) sym
    (shim_symbol_cache_count st) in
  table_inv (shim_symbol_cache st') (shim_symbol_hash_index st') /\
  shim_symbol_cache st' = shim_symbol_cache st ++ [sym].
Proof.
  destruct st as [cache table r o]. unfold shim_symbol_cache_count, shim_symbol_hash_insert_first. cbn.
  intros Hinv Hlt. destruct (ls_name sym) as [n|] eqn:Hn; cbn.
  2: { split; [|done]. apply table_inv_keep; [done|done|]. by rewrite Hn. }
  destruct (Z.leb_spec UINT16_MAX (Z.of_nat (length cache))) as [Hbig|_].
  { unfold UINT16_MAX, KB_LOCAL_SHIM_STUB_COUNT in *. lia. }
  cbn. split; [|done]. rewrite hash_insert_first_stop.
  destruct (probe_stops cache (cache ++ [sym]) table n Hinv) as [s Hs].
  pose proof (first_stop_spec (Z.to_nat KB_LOCAL_SHIM_SYMBOL_HASH_SIZE) (cache ++ [sym]) table _ n
    (hash_slot_range (Some n))) as Hspec.
  rewrite Hs in *. destruct Hspec as (k & Hk & -> & Hst & Hlt').
  assert (forall j, 0 <= j < k -> cell table (probe (hash_slot (Some n)) j) <> 0) as Hb.
  { intros j Hj. specialize (Hlt' j Hj). unfold stops in Hlt'. boolify. done. }
  destruct (Z.eqb_spec (cell table (probe (hash_slot (Some n)) k)) 0) as [Hz|Hnz].
  - rewrite u16_small by (unfold is_u16, KB_LOCAL_SHIM_STUB_COUNT in *; lia).
    apply table_inv_insert; [done|done|done| |lia|done|done].
    destruct (first_named n cache) as [[i x]|] eqn:Hf; [exfalso|done].
    destruct (ti_stored _ _ Hinv _ _ _ Hf) as (k' & Hk' & Hc & Hb').
    destruct (decide (k < k')); [by apply (Hb' k); [lia|]|].
    destruct (decide (k = k')) as [->|]; [lia|].
    assert (stops (cache ++ [sym]) table n (probe (hash_slot (Some n)) k') = true) as Hm;
      [|rewrite Hlt' in Hm; [done|lia]].
    eapply stored_stops; [by rewrite first_named_app, Hf|done].
  - apply table_inv_keep; [done|done|]. rewrite Hn. intros m [= <-].
    by eapply cell_match_app; [done|apply probe_range|..].
Qed.

(** ** Building the table *)

Definition shim_inv (st : shim_state) : Prop :=
  table_inv (shim_symbol_cache st) (shim_symbol_hash_index st).

Lemma shim_inv_init : shim_inv shim_state_init.
Proof.
  assert (forall s, cell (replicate (Z.to_nat KB_LOCAL_SHIM_SYMBOL_HASH_SIZE) 0) s = 0) as Hz.
  { intros s. unfold cell. rewrite nth_lookup.
    destruct (replicate _ 0 !! Z.to_nat s) eqn:E; [|done]. by apply lookup_replicate in E as [-> _]. }
  unfold shim_inv, shim_state_init. split; cbn [shim_symbol_cache shim_symbol_hash_index].
  - rewrite length_replicate. done.
  - done.
  - intros s _ Hne. by rewrite Hz in Hne.
  - done.
  - unfold used_cells. generalize (Z.to_nat KB_LOCAL_SHIM_SYMBOL_HASH_SIZE). intros n.
    induction n as [|n IH]; [done|]. cbn [replicate]. rewrite filter_cons_False by tauto. done.
Qed.

(** The first 4096 symbols are kept; more than that raises the overflow flag. *)
Definition kept (l : list kb_linux_symbol) : list kb_linux_symbol :=
  take (Z.to_nat KB_LOCAL_SHIM_STUB_COUNT) l.
Definition too_many (l : list kb_linux_symbol) : bool :=
  bool_decide (KB_LOCAL_SHIM_STUB_COUNT < Z.of_nat (length l)).

Lemma hash_insert_flags st sym i :
  shim_symbol_cache_ready (shim_symbol_hash_insert_first st sym i) = shim_symbol_cache_ready st /\
  shim_symbol_cache_overflow (shim_symbol_hash_insert_first st sym i) = shim_symbol_cache_overflow st.
Proof. unfold shim_symbol_hash_insert_first. destruct (ls_name sym); [|done]. by case_match. Qed.

Lemma append_loop_spec symbols st :
  shim_inv st ->
  let st' := append_provider_loop st symbols in
  shim_inv st' /\
  shim_symbol_cache st' = kept (shim_symbol_cache st ++ symbols) /\
  shim_symbol_cache_ready st' = shim_symbol_cache_ready st /\
  shim_symbol_cache_overflow st' =
    shim_symbol_cache_overflow st || (too_many (shim_symbol_cache st ++ symbols)).
Proof.
  revert st. induction symbols as [|sym symbols IH]; intros st Hinv; cbn [append_provider_loop].
  - pose proof (ti_count _ _ Hinv). unfold kept, too_many. rewrite app_nil_r, take_ge by lia.
    rewrite bool_decide_false by lia. by rewrite orb_false_r.
  - pose proof (ti_count _ _ Hinv) as Hc.
    destruct (Z.leb_spec KB_LOCAL_SHIM_STUB_COUNT (shim_symbol_cache_count st)) as [Hle|Hlt].
    + unfold shim_symbol_cache_count in Hle. unfold kept, too_many. rewrite take_app_length' by lia.
      rewrite bool_decide_true by (rewrite length_app; cbn [length]; lia).
      rewrite orb_true_r. split_and!; [exact Hinv|done|done|done].
    + destruct (insert_first_inv st sym Hinv Hlt) as [Hinv' Hcache].
      destruct (IH _ Hinv') as (HA & HB & HC & HD). split; [exact HA|].
      rewrite HB, HC, HD, Hcache, <- app_assoc.
      split; [done|]. destruct (hash_insert_flags (st <| shim_symbol_cache ::= (fun c => c ++ [sym]) |>)
        sym (shim_symbol_cache_count st)) as [-> ->]. done.
Qed.

Definition all_symbols (providers : list (option (list kb_linux_symbol))) : list kb_linux_symbol :=
  mjoin (default [] <$> providers).

Lemma kept_kept l r : kept (kept l ++ r) = kept (l ++ r).
Proof.
  unfold kept. destruct (decide (length l <= Z.to_nat KB_LOCAL_SHIM_STUB_COUNT)%nat).
  - by rewrite (take_ge l) by lia.
  - rewrite take_app_le by (rewrite length_take; lia). rewrite take_app_le by lia.
    rewrite take_take. by rewrite Nat.min_id.
Qed.

Lemma too_many_kept l r : too_many l || too_many (kept l ++ r) = too_many (l ++ r).
Proof.
  unfold too_many, kept. rewrite !length_app, length_take.
  repeat (case_bool_decide; cbn); lia || done.
Qed.

Lemma append_providers_spec providers st l :
  shim_inv st -> shim_symbol_cache st = kept l -> shim_symbol_cache_overflow st = too_many l ->
  let st' := foldl shim_symbol_append_provider st providers in
  shim_inv st' /\ shim_symbol_cache st' = kept (l ++ all_symbols providers) /\
  shim_symbol_cache_overflow st' = too_many (l ++ all_symbols providers).
Proof.
  revert st l. induction providers as [|p providers IH]; intros st l Hinv Hc Ho; cbn [foldl].
  - unfold all_symbols. cbn. by rewrite app_nil_r.
  - unfold all_symbols. cbn [fmap list_fmap mjoin list_join]. fold (all_symbols providers).
    rewrite app_assoc. destruct p as [symbols|]; cbn [shim_symbol_append_provider default].
    + destruct (append_loop_spec symbols st Hinv) as (HA & HB & _ & HD). apply IH; [exact HA| |].
      * rewrite HB, Hc. apply kept_kept.
      * rewrite HD, Ho, Hc. apply too_many_kept.
    + rewrite app_nil_r. by apply IH.
Qed.

Lemma table_init_spec providers :
  let st := shim_symbol_table_init providers shim_state_init in
  shim_inv st /\ shim_symbol_cache st = kept (all_symbols providers) /\
  shim_symbol_cache_overflow st = too_many (all_symbols providers) /\
  shim_symbol_cache_ready st = true.
Proof.
  unfold shim_symbol_table_init. cbn [shim_state_init shim_symbol_cache_ready].
  destruct (append_providers_spec providers shim_state_init [] shim_inv_init) as (HA & HB & HC); [done|done|].
  done.
Qed.

Lemma table_init_ready providers st :
  shim_symbol_cache_ready st = true -> shim_symbol_table_init providers st = st.
Proof. intros H. unfold shim_symbol_table_init. by rewrite H. Qed.

(** C8: Whatever the fourteen providers contain, a look-up by name through the
    FNV-1a hash table gives the answer of a linear search for the first symbol
    of that name in provider order, among the first 4096 symbols: the index,
    the symbol's address (or NULL), also on later look-ups when the table is
    already built; and the reported symbol count is 4097 exactly when there
    were too many symbols. *)
Theorem shim_lookup_is_first_provider
    (providers : list (option (list kb_linux_symbol))) (name : list Z) :
  let st := shim_symbol_table_init providers shim_state_init in
  let first := first_named name (kept (all_symbols providers)) in
  shim_symbol_find_index providers shim_state_init (Some name) = (st, (fun p => Z.of_nat p.1) <$> first) /\
  shim_symbol_find_index providers st (Some name) = (st, (fun p => Z.of_nat p.1) <$> first) /\
  shim_symbol_find_address providers st (Some name) = (st, default 0 ((fun p => ls_address p.2) <$> first)) /\
  shim_symbol_table_count providers st =
    (st, if decide (KB_LOCAL_SHIM_STUB_COUNT < Z.of_nat (length (all_symbols providers)))
         then KB_LOCAL_SHIM_STUB_COUNT + 1 else Z.of_nat (length (all_symbols providers))).
Proof.
  cbv zeta. destruct (table_init_spec providers) as (Hinv & Hc & Ho & Hr).
  set (st := shim_symbol_table_init providers shim_state_init) in *.
  assert (shim_symbol_find_index providers st (Some name) =
    (st, (fun p => Z.of_nat p.1) <$> first_named name (kept (all_symbols providers)))) as Hfind.
  { unfold shim_symbol_find_index. rewrite (table_init_ready _ _ Hr).
    by rewrite hash_find_correct, Hc. }
  split_and!.
  - unfold shim_symbol_find_index. fold st. by rewrite hash_find_correct, Hc.
  - done.
  - unfold shim_symbol_find_address. rewrite Hfind.
    destruct (first_named name (kept (all_symbols providers))) as [[i s]|] eqn:Hf; [|done].
    cbn [fmap option_fmap option_map fst snd default]. unfold shim_symbol_table_at. rewrite (table_init_ready _ _ Hr). unfold shim_symbol_cache_count.
    rewrite Hc, Nat2Z.id. apply first_named_lookup in Hf as (Hl & _ & _). rewrite Hl.
    rewrite (proj2 (Z.ltb_lt _ _)) by (apply lookup_lt_Some in Hl; lia). done.
  - unfold shim_symbol_table_count. rewrite (table_init_ready _ _ Hr), Ho. unfold shim_symbol_cache_count.
    rewrite Hc. unfold too_many, kept. f_equal. rewrite length_take.
    case_bool_decide; case_decide; lia.
Qed.

(** ** Stubs in a module's stub area

    [ms_stubs] is the memory at [module->shim_symbol_stubs] (48 bytes for each
    of the 4096 stubs, [None] for NULL) and a stub address is its offset in it.
    [trampoline] and [noop] are the addresses of
    [kb_shim_external_call_trampoline] and [kb_static_call_preserve_noop]. *)

Record module_stubs := mk_module_stubs {
  ms_stubs : option (list Z);
  ms_external_stub_count : Z;
  ms_kernel_gs : Z;
}.
#[export] Instance module_stubs_eta : Settable module_stubs := fun r =>
  mk_module_stubs (ms_stubs r) (ms_external_stub_count r) (ms_kernel_gs r).

Section stubs.
Context (providers : list (option (list kb_linux_symbol))) (trampoline noop : Z).

(** [memset(p, 0x90, KB_LOCAL_SHIM_STUB_SIZE)] *)
Definition nop_stub : list Z := replicate (Z.to_nat KB_LOCAL_SHIM_STUB_SIZE) 0x90.

Definition write_abs_jump_stub (target caller_gs callee_gs : Z) : list Z :=
  splice nop_stub 0
    ([0x49; 0xbb] ++ write_u64le target ++
     [0x49; 0xba] ++ write_u64le caller_gs ++
     [0x48; 0xb8] ++ write_u64le callee_gs ++
     [0xff; 0x25] ++ write_u32le 0 ++ write_u64le trampoline).

Definition write_abs_jump_raw_stub (target : Z) : list Z :=
  splice nop_stub 0 ([0x49; 0xbb] ++ write_u64le target ++ [0x41; 0xff; 0xe3]).

Definition write_ret_stub : list Z := splice nop_stub 0 [0xc3].

Definition symbol_uses_linux_user_access_abi (name : option (list Z)) : bool :=
  match name with
  | None => false
  | Some name =>
      bool_decide (name ∈ [cstr "__get_user_1"; cstr "__get_user_2"; cstr "__get_user_4";
                           cstr "__get_user_8"; cstr "__put_user_4"; cstr "__put_user_8"])
  end.

Definition module_shim_stub_by_name (st : shim_state) (module : option module_stubs)
    (name : option (list Z)) : shim_state * option Z :=
  match module, name with
  | Some m, Some nm =>
      match ms_stubs m with
      | None => (st, None)
      | Some _ =>
          match shim_symbol_find_index providers st (Some nm) with
          | (st, Some index) => (st, Some (index * KB_LOCAL_SHIM_STUB_SIZE))
          | (st, None) => (st, None)
          end
      end
  | _, _ => (st, None)
  end.

Definition allocate_external_call_stub_for_caller (st : shim_state) (module : option module_stubs)
    (target caller_gs callee_gs : Z) : shim_state * option module_stubs * option Z :=
  let '(st, symbol_count) := shim_symbol_table_count providers st in
  match module with
  | None => (st, module, None)
  | Some m =>
      match ms_stubs m with
      | None => (st, module, None)
      | Some area =>
          if (target =? 0) || (caller_gs =? 0) || (callee_gs =? 0) then (st, module, None)
          else if KB_LOCAL_SHIM_STUB_COUNT <=? symbol_count + ms_external_stub_count m
          then (st, module, None)
          else
            let stub := (symbol_count + ms_external_stub_count m) * KB_LOCAL_SHIM_STUB_SIZE in
            (st, Some (m <| ms_external_stub_count ::= Z.add 1 |>
                         <| ms_stubs := Some (splice area stub (write_abs_jump_stub target caller_gs callee_gs)) |>),
             Some stub)
      end
  end.

Definition allocate_external_call_stub (st : shim_state) (m : module_stubs)
    (target callee_gs : Z) : shim_state * option module_stubs * option Z :=
  allocate_external_call_stub_for_caller st (Some m) target (ms_kernel_gs m) callee_gs.

(** The stub written for the symbol at one cache index. *)
Definition shim_stub_for (gs : Z) (symbol : kb_linux_symbol) : list Z :=
  if ls_address symbol =? noop then write_ret_stub
  else if bool_decide (ls_name symbol = Some (cstr "stackleak_track_stack")) then write_ret_stub
  else if symbol_uses_linux_user_access_abi (ls_name symbol)
  then write_abs_jump_raw_stub (ls_address symbol)
  else write_abs_jump_stub (ls_address symbol) gs gs.

Fixpoint fill_stubs_loop (fuel : nat) (st : shim_state) (gs : Z) (i symbol_count : Z) (area : list Z)
    : outcome (list Z) :=
  match fuel with
  | O => Done area
  | S fuel =>
      if i <? symbol_count then
        match (shim_symbol_table_at providers st i).2 with
        | None => Fail KB_ERR_INVALID
        | Some symbol =>
            (* [strcmp] on a NULL name *)
            if negb (ls_address symbol =? noop) && bool_decide (ls_name symbol = None) then Fault
            else fill_stubs_loop fuel st gs (i + 1) symbol_count
              (splice area (i * KB_LOCAL_SHIM_STUB_SIZE) (shim_stub_for gs symbol))
        end
      else Done area
  end.

(** The part of [load_sections] that writes the symbol stubs. *)
Definition fill_symbol_stubs (st : shim_state) (gs : Z) (area : list Z) : outcome (list Z) :=
  let '(st, symbol_count) := shim_symbol_table_count providers st in
  if KB_LOCAL_SHIM_STUB_COUNT <? symbol_count then Fail KB_ERR_NOMEM
  else fill_stubs_loop (Z.to_nat symbol_count) st gs 0 symbol_count area.
End stubs.

(** ** Stub properties *)

Lemma stub_lengths tr target caller callee :
  blen (write_abs_jump_stub tr target caller callee) = KB_LOCAL_SHIM_STUB_SIZE /\
  blen (write_abs_jump_raw_stub target) = KB_LOCAL_SHIM_STUB_SIZE /\
  blen write_ret_stub = KB_LOCAL_SHIM_STUB_SIZE.
Proof. done. Qed.

Lemma blen_shim_stub_for tr noop gs symbol :
  blen (shim_stub_for tr noop gs symbol) = KB_LOCAL_SHIM_STUB_SIZE.
Proof. unfold shim_stub_for. by repeat case_match. Qed.

(** The machine code of an external stub carries its four operands. *)
Lemma stub_operands p o tr target caller callee :
  is_u64 target -> is_u64 caller -> is_u64 callee -> is_u64 tr ->
  bytes_at p o (write_abs_jump_stub tr target caller callee) ->
  read_u64le p (o + 2) = Done target /\ read_u64le p (o + 12) = Done caller /\
  read_u64le p (o + 22) = Done callee /\ read_u64le p (o + 36) = Done tr.
Proof.
  intros Ht Hc He Hr H.
  split_and!; (apply read_write_u64le; [done|]; (eapply bytes_at_sub; [lia|exact H|done])).
Qed.

Definition stub_area_ok (area : list Z) : Prop :=
  blen area = KB_LOCAL_SHIM_STUB_SIZE * KB_LOCAL_SHIM_STUB_COUNT.

Lemma stub_slot_fits area i stub :
  stub_area_ok area -> blen stub = KB_LOCAL_SHIM_STUB_SIZE -> 0 <= i < KB_LOCAL_SHIM_STUB_COUNT ->
  i * KB_LOCAL_SHIM_STUB_SIZE + blen stub <= blen area.
Proof. unfold stub_area_ok, KB_LOCAL_SHIM_STUB_SIZE, KB_LOCAL_SHIM_STUB_COUNT. lia. Qed.

(** Stubs of different indices do not overlap. *)
Lemma stub_other area i j stub :
  stub_area_ok area -> blen stub = KB_LOCAL_SHIM_STUB_SIZE -> 0 <= i < KB_LOCAL_SHIM_STUB_COUNT ->
  0 <= j -> i <> j ->
  slice (splice area (i * KB_LOCAL_SHIM_STUB_SIZE) stub) (j * KB_LOCAL_SHIM_STUB_SIZE) KB_LOCAL_SHIM_STUB_SIZE =
  slice area (j * KB_LOCAL_SHIM_STUB_SIZE) KB_LOCAL_SHIM_STUB_SIZE.
Proof.
  intros Ha Hs Hi Hj Hne. pose proof (stub_slot_fits _ _ _ Ha Hs Hi).
  unfold stub_area_ok, KB_LOCAL_SHIM_STUB_SIZE, KB_LOCAL_SHIM_STUB_COUNT in *.
  apply slice_splice_other; lia.
Qed.

Lemma stub_same area i stub :
  stub_area_ok area -> blen stub = KB_LOCAL_SHIM_STUB_SIZE -> 0 <= i < KB_LOCAL_SHIM_STUB_COUNT ->
  slice (splice area (i * KB_LOCAL_SHIM_STUB_SIZE) stub) (i * KB_LOCAL_SHIM_STUB_SIZE) KB_LOCAL_SHIM_STUB_SIZE = stub.
Proof.
  intros Ha Hs Hi. pose proof (stub_slot_fits _ _ _ Ha Hs Hi). rewrite <- Hs at 3.
  apply slice_splice_same; [unfold KB_LOCAL_SHIM_STUB_SIZE; lia|done].
Qed.

Lemma stub_area_splice area i stub :
  stub_area_ok area -> blen stub = KB_LOCAL_SHIM_STUB_SIZE -> 0 <= i < KB_LOCAL_SHIM_STUB_COUNT ->
  stub_area_ok (splice area (i * KB_LOCAL_SHIM_STUB_SIZE) stub).
Proof.
  intros Ha Hs Hi. unfold stub_area_ok. rewrite blen_splice; [done| |by apply stub_slot_fits].
  unfold KB_LOCAL_SHIM_STUB_SIZE. lia.
Qed.

Definition all_named (l : list kb_linux_symbol) : Prop := Forall (fun s => is_Some (ls_name s)) l.

Lemma fill_stubs_loop_spec providers tr noop st gs fuel i area :
  shim_symbol_cache_ready st = true -> shim_symbol_cache_count st <= KB_LOCAL_SHIM_STUB_COUNT ->
  all_named (shim_symbol_cache st) -> stub_area_ok area ->
  0 <= i -> i + Z.of_nat fuel = shim_symbol_cache_count st ->
  exists area', fill_stubs_loop providers tr noop fuel st gs i (shim_symbol_cache_count st) area = Done area' /\
    stub_area_ok area' /\
    (forall j sym, i <= Z.of_nat j -> shim_symbol_cache st !! j = Some sym ->
       slice area' (Z.of_nat j * KB_LOCAL_SHIM_STUB_SIZE) KB_LOCAL_SHIM_STUB_SIZE = shim_stub_for tr noop gs sym) /\
    (forall j, 0 <= j < i -> slice area' (j * KB_LOCAL_SHIM_STUB_SIZE) KB_LOCAL_SHIM_STUB_SIZE =
       slice area (j * KB_LOCAL_SHIM_STUB_SIZE) KB_LOCAL_SHIM_STUB_SIZE).
Proof.
  intros Hr Hcount Hnamed. revert i area. induction fuel as [|fuel IH]; intros i area Ha Hi He;
    cbn [fill_stubs_loop].
  - exists area. split_and!; [done|done| |done]. intros j sym Hj Hl%lookup_lt_Some.
    unfold shim_symbol_cache_count in *. lia.
  - rewrite (proj2 (Z.ltb_lt i _)) by lia. unfold shim_symbol_table_at.
    rewrite (table_init_ready _ _ Hr), (proj2 (Z.ltb_lt i _)) by lia. cbn [snd].
    destruct (lookup_lt_is_Some_2 (shim_symbol_cache st) (Z.to_nat i)) as [sym Hsym];
      [unfold shim_symbol_cache_count in *; lia|].
    rewrite Hsym. rewrite (bool_decide_false (ls_name sym = None)), andb_false_r.
    2: { intros Hn. pose proof (Forall_lookup_1 _ _ _ _ Hnamed Hsym) as [x Hx]. congruence. }
    pose proof (blen_shim_stub_for tr noop gs sym) as Hlen.
    destruct (IH (i + 1) (splice area (i * KB_LOCAL_SHIM_STUB_SIZE) (shim_stub_for tr noop gs sym)))
      as (area' & Hrun & Hok & Hnew & Hold); [apply stub_area_splice; [done|done|lia]|lia|lia|].
    exists area'. split_and!; [done|done| |].
    + intros j x Hj Hx. destruct (decide (Z.of_nat j = i)) as [<-|]; [|apply Hnew; [lia|done]].
      rewrite Nat2Z.id in Hsym. rewrite Hold by lia. rewrite stub_same by (done || lia). congruence.
    + intros j Hj. rewrite Hold by lia. apply stub_other; (done || lia).
Qed.

(** ** Allocating stubs for calls into other modules *)

Record stub_request := mk_stub_request { rq_target : Z; rq_caller : Z; rq_callee : Z }.

Definition request_ok (r : stub_request) : Prop :=
  is_u64 (rq_target r) /\ is_u64 (rq_caller r) /\ is_u64 (rq_callee r) /\
  rq_target r <> 0 /\ rq_caller r <> 0 /\ rq_callee r <> 0.

Fixpoint allocate_all (providers : list (option (list kb_linux_symbol))) (trampoline : Z)
    (st : shim_state) (m : option module_stubs) (rs : list stub_request)
    : option module_stubs * list (option Z) :=
  match rs with
  | [] => (m, [])
  | r :: rs =>
      let '(st, m, stub) := allocate_external_call_stub_for_caller providers trampoline st m
                              (rq_target r) (rq_caller r) (rq_callee r) in
      let '(m, stubs) := allocate_all providers trampoline st m rs in
      (m, stub :: stubs)
  end.

Definition request_stub (trampoline : Z) (r : stub_request) : list Z :=
  write_abs_jump_stub trampoline (rq_target r) (rq_caller r) (rq_callee r).

(** The address of stub number [i], when there is room for it. *)
Definition stub_offset (i : Z) : option Z :=
  if i <? KB_LOCAL_SHIM_STUB_COUNT then Some (i * KB_LOCAL_SHIM_STUB_SIZE) else None.

Lemma allocate_step providers tr st ext gs area r :
  shim_symbol_cache_ready st = true -> shim_symbol_cache_overflow st = false ->
  request_ok r -> 
  let base := shim_symbol_cache_count st + ext in
  allocate_external_call_stub_for_caller providers tr st (Some (mk_module_stubs (Some area) ext gs))
    (rq_target r) (rq_caller r) (rq_callee r) =
  (st, Some (if base <? KB_LOCAL_SHIM_STUB_COUNT
             then mk_module_stubs (Some (splice area (base * KB_LOCAL_SHIM_STUB_SIZE) (request_stub tr r))) (1 + ext) gs
             else mk_module_stubs (Some area) ext gs),
   stub_offset base).
Proof.
  intros Hr Ho (_ & _ & _ & H1 & H2 & H3).
  unfold allocate_external_call_stub_for_caller, shim_symbol_table_count, stub_offset.
  rewrite (table_init_ready _ _ Hr), Ho. cbn [ms_stubs ms_external_stub_count ms_kernel_gs].
  rewrite !(proj2 (Z.eqb_neq _ _)) by done. cbn [orb].
  rewrite Z.leb_antisym. by destruct (_ <? _).
Qed.

Lemma allocate_all_spec providers tr st gs rs ext area :
  shim_symbol_cache_ready st = true -> shim_symbol_cache_overflow st = false ->
  Forall request_ok rs -> stub_area_ok area -> 0 <= ext ->
  let base := shim_symbol_cache_count st + ext in
  exists area' ext',
    let out := allocate_all providers tr st (Some (mk_module_stubs (Some area) ext gs)) rs in
    out.1 = Some (mk_module_stubs (Some area') ext' gs) /\ length out.2 = length rs /\
    (forall i r, rs !! i = Some r -> out.2 !! i = Some (stub_offset (base + Z.of_nat i)) /\
       (base + Z.of_nat i < KB_LOCAL_SHIM_STUB_COUNT ->
        bytes_at area' ((base + Z.of_nat i) * KB_LOCAL_SHIM_STUB_SIZE) (request_stub tr r))) /\
    (forall j, 0 <= j < base -> slice area' (j * KB_LOCAL_SHIM_STUB_SIZE) KB_LOCAL_SHIM_STUB_SIZE =
       slice area (j * KB_LOCAL_SHIM_STUB_SIZE) KB_LOCAL_SHIM_STUB_SIZE).
Proof.
  intros Hr Ho Hrs. revert ext area. induction Hrs as [|r rs Hreq Hrs IH]; intros ext area Ha Hext base.
  { exists area, ext. done. }
  cbn [allocate_all]. rewrite (allocate_step _ _ _ _ _ _ _ Hr Ho Hreq). fold base.
  assert (0 <= shim_symbol_cache_count st) as Hcc by (unfold shim_symbol_cache_count; lia).
  destruct (Z.ltb_spec base KB_LOCAL_SHIM_STUB_COUNT) as [Hroom|Hfull].
  - assert (blen (request_stub tr r) = KB_LOCAL_SHIM_STUB_SIZE) as Hlen by done.
    destruct (IH (1 + ext) (splice area (base * KB_LOCAL_SHIM_STUB_SIZE) (request_stub tr r)))
      as (area' & ext' & H1 & H2 & H3 & H4); [apply stub_area_splice; [done|done|lia]|lia|].
    exists area', ext'. destruct (allocate_all _ _ _ _ _) as [m' out]. cbn [fst snd] in *.
    split_and!; [done|cbn; lia| |].
    + intros [|i] x Hx.
      * injection Hx as <-. rewrite Z.add_0_r. split; [done|]. intros _.
        split; [unfold KB_LOCAL_SHIM_STUB_SIZE; lia|]. rewrite Hlen. rewrite H4 by lia.
        apply stub_same; [done|done|lia].
      * destruct (H3 i x Hx) as [H5 H6]. cbn [lookup list_lookup] in *.
        replace (base + Z.of_nat (S i)) with (shim_symbol_cache_count st + (1 + ext) + Z.of_nat i) by lia. done.
    + intros j Hj. rewrite H4 by lia. apply stub_other; (done || lia).
  - destruct (IH ext area Ha Hext) as (area' & ext' & H1 & H2 & H3 & H4).
    exists area', ext'. destruct (allocate_all _ _ _ _ _) as [m' out]. cbn [fst snd] in *.
    split_and!; [done|cbn; lia| |done].
    assert (forall i, stub_offset (base + Z.of_nat i) = None) as Hnone.
    { intros i. unfold stub_offset. by rewrite (proj2 (Z.ltb_ge _ _)) by lia. }
    intros [|i] x Hx; rewrite Hnone; (split; [|lia]).
    + cbn. f_equal. rewrite <- (Z.add_0_r base). apply (Hnone 0%nat).
    + destruct (H3 i x Hx) as [H5 _]. fold base in H5. rewrite Hnone in H5. done.
Qed.

(** A small provider list: [kfree] is defined twice. *)
Definition sample_providers : list (option (list kb_linux_symbol)) :=
  [Some [mk_linux_symbol (Some (cstr "kfree")) 0x1000; mk_linux_symbol (Some (cstr "_printk")) 0x2000];
   None; Some [mk_linux_symbol (Some (cstr "kfree")) 0x3000]].

Definition zero_area : list Z :=
  replicate (Z.to_nat (KB_LOCAL_SHIM_STUB_SIZE * KB_LOCAL_SHIM_STUB_COUNT)) 0.

Lemma zero_area_ok : stub_area_ok zero_area.
Proof. unfold stub_area_ok, zero_area, blen. rewrite length_replicate. apply Z2Nat.id. done. Qed.

(** Once a module's stub area has been filled, a name that a provider
    defines reaches, through [module_shim_stub_by_name], a stub inside the area
    holding the code generated for the first provider's symbol of that name;
    filling never fails while at most 4096 named symbols exist. *)
Theorem symbol_stubs_filled providers trampoline noop gs m area :
  Z.of_nat (length (all_symbols providers)) <= KB_LOCAL_SHIM_STUB_COUNT ->
  all_named (all_symbols providers) -> stub_area_ok area ->
  exists area', fill_symbol_stubs providers trampoline noop shim_state_init gs area = Done area' /\
    forall name, match first_named name (all_symbols providers) with
    | Some (i, sym) =>
        (module_shim_stub_by_name providers shim_state_init
           (Some (m <| ms_stubs := Some area' |>)) (Some name)).2 = Some (Z.of_nat i * KB_LOCAL_SHIM_STUB_SIZE) /\
        bytes_at area' (Z.of_nat i * KB_LOCAL_SHIM_STUB_SIZE) (shim_stub_for trampoline noop gs sym)
    | None => (module_shim_stub_by_name providers shim_state_init
                 (Some (m <| ms_stubs := Some area' |>)) (Some name)).2 = None
    end.
Proof.
  intros Hle Hnamed Ha. destruct (table_init_spec providers) as (Hinv & Hc & Ho & Hr).
  assert (kept (all_symbols providers) = all_symbols providers) as Hk by (apply take_ge; lia).
  rewrite Hk in Hc. unfold fill_symbol_stubs, shim_symbol_table_count.
  set (st := shim_symbol_table_init providers shim_state_init) in *.
  rewrite Ho. unfold too_many. rewrite bool_decide_false by lia.
  assert (shim_symbol_cache_count st <= KB_LOCAL_SHIM_STUB_COUNT) as Hcount
    by (unfold shim_symbol_cache_count; rewrite Hc; lia).
  rewrite (proj2 (Z.ltb_ge _ _)) by done.
  rewrite <- Hc in Hnamed.
  destruct (fill_stubs_loop_spec providers trampoline noop st gs (Z.to_nat (shim_symbol_cache_count st)) 0 area)
    as (area' & Hrun & Hok & Hnew & _); [done|done|done|done|lia|unfold shim_symbol_cache_count; lia|].
  exists area'. split; [done|]. intros name.
  assert (forall i, (module_shim_stub_by_name providers shim_state_init
    (Some (m <| ms_stubs := Some area' |>)) (Some name)).2 = i <->
    (fun p => Z.of_nat p.1 * KB_LOCAL_SHIM_STUB_SIZE) <$> first_named name (all_symbols providers) = i) as Hlook.
  { intros i. unfold module_shim_stub_by_name. cbn [ms_stubs].
    unfold shim_symbol_find_index. fold st. rewrite hash_find_correct by exact Hinv. rewrite Hc.
    by destruct (first_named name (all_symbols providers)) as [[? ?]|]. }
  destruct (first_named name (all_symbols providers)) as [[i sym]|] eqn:Hf; [|by apply Hlook].
  split; [by apply Hlook|]. apply first_named_lookup in Hf as (Hl & _ & _). rewrite <- Hc in Hl.
  split; [unfold KB_LOCAL_SHIM_STUB_SIZE; lia|]. rewrite blen_shim_stub_for. apply Hnew; [lia|done].
Qed.

Lemma symbol_stubs_filled_witness :
  exists area', fill_symbol_stubs sample_providers 0x9000 0x8000 shim_state_init 0x7000 zero_area = Done area' /\
    bytes_at area' 0 (shim_stub_for 0x9000 0x8000 0x7000 (mk_linux_symbol (Some (cstr "kfree")) 0x1000)) /\
    bytes_at area' 48 (shim_stub_for 0x9000 0x8000 0x7000 (mk_linux_symbol (Some (cstr "_printk")) 0x2000)).
Proof.
  destruct (symbol_stubs_filled sample_providers 0x9000 0x8000 0x7000
    (mk_module_stubs None 0 0x7000) zero_area) as (area' & Hrun & Hnames).
  - vm_compute. done.
  - repeat constructor; done.
  - exact zero_area_ok.
  - exists area'. split; [exact Hrun|]. split.
    + exact (proj2 (Hnames (cstr "kfree"))).
    + exact (proj2 (Hnames (cstr "_printk"))).
Defined.

(** Any sequence of allocations of external-call stubs hands out
    consecutive, non-overlapping stubs behind the symbol stubs until the area
    of 4096 is used up and NULL from then on; every stub handed out still
    carries its own target, caller and callee after all later allocations, and
    no symbol stub changes. *)
Theorem external_stubs_disjoint providers trampoline gs rs area :
  Z.of_nat (length (all_symbols providers)) <= KB_LOCAL_SHIM_STUB_COUNT ->
  Forall request_ok rs -> is_u64 trampoline -> stub_area_ok area ->
  let st := shim_symbol_table_init providers shim_state_init in
  let base := Z.of_nat (length (all_symbols providers)) in
  exists area' ext,
    let out := allocate_all providers trampoline st (Some (mk_module_stubs (Some area) 0 gs)) rs in
    out.1 = Some (mk_module_stubs (Some area') ext gs) /\ length out.2 = length rs /\
    (forall i r, rs !! i = Some r -> out.2 !! i = Some (stub_offset (base + Z.of_nat i))) /\
    (forall i r o, rs !! i = Some r -> stub_offset (base + Z.of_nat i) = Some o ->
       read_u64le area' (o + 2) = Done (rq_target r) /\ read_u64le area' (o + 12) = Done (rq_caller r) /\
       read_u64le area' (o + 22) = Done (rq_callee r) /\ read_u64le area' (o + 36) = Done trampoline) /\
    (forall j, 0 <= j < base -> slice area' (j * KB_LOCAL_SHIM_STUB_SIZE) KB_LOCAL_SHIM_STUB_SIZE =
       slice area (j * KB_LOCAL_SHIM_STUB_SIZE) KB_LOCAL_SHIM_STUB_SIZE).
Proof.
  intros Hle Hrs Htr Ha st base. destruct (table_init_spec providers) as (_ & Hc & Ho & Hr).
  fold st in Hc, Ho, Hr. unfold too_many in Ho. rewrite bool_decide_false in Ho by lia.
  assert (shim_symbol_cache_count st + 0 = base) as Hbase.
  { unfold shim_symbol_cache_count, kept in *. rewrite Hc, take_ge by lia. lia. }
  destruct (allocate_all_spec providers trampoline st gs rs 0 area Hr Ho Hrs Ha ltac:(lia))
    as (area' & ext & H1 & H2 & H3 & H4). rewrite Hbase in *.
  exists area', ext. split_and!; [done|done|intros i r Hi; exact (proj1 (H3 i r Hi))| |done].
  intros i r o Hi Hoff. unfold stub_offset in Hoff. case_match eqn:Hlt; [|done].
  injection Hoff as <-. boolify. destruct (Forall_lookup_1 _ _ _ _ Hrs Hi) as (? & ? & ? & _).
  apply stub_operands; [done|done|done|done|]. by apply H3.
Qed.

Lemma external_stubs_disjoint_witness :
  exists area' ext,
    (allocate_all sample_providers 0x9000 (shim_symbol_table_init sample_providers shim_state_init)
      (Some (mk_module_stubs (Some zero_area) 0 0x7000)) [mk_stub_request 0x4000 0x7000 0x7100]).1 =
      Some (mk_module_stubs (Some area') ext 0x7000) /\
    read_u64le area' (144 + 2) = Done 0x4000.
Proof.
  destruct (external_stubs_disjoint sample_providers 0x9000 0x7000 [mk_stub_request 0x4000 0x7000 0x7100]
    zero_area) as (area' & ext & H1 & _ & _ & H4 & _).
  - vm_compute. done.
  - repeat constructor; done.
  - split; [vm_compute; discriminate|reflexivity].
  - exact zero_area_ok.
  - exists area', ext. split; [exact H1|]. exact (proj1 (H4 0%nat _ 144 eq_refl eq_refl)).
Defined.
