(* ===== verification/ModuleLayout.v ===== *)
(** * Section placement (src/src/loader/module_loader.c, load_sections)

    The first pass of [load_sections] assigns every SHF_ALLOC section an offset
    in one image, the last pass copies the file contents there.  Behind the
    sections the image continues with the shim region (call stubs, ShimTable.v,
    and data).  The model keeps the three parts of the image as three buffers:
    [m_image] (the sections), the stub area of [m_stubs] and [m_shim_data]; a
    store outside its buffer is [Fault].  [page] is the host's page size, the
    result of [mmap] is an argument, and [percpu_next] and [gs] are the shared
    cursor and contents of the per-CPU area.  The initial values of the shim
    data are not modelled. *)

From S2P Require Import Prelude Bytes ElfReader ShimTable.

Definition KB_ELF_SHT_NOBITS : Z := 8.
Definition KB_ELF_SHF_WRITE : Z := 1.
Definition KB_ELF_SHF_ALLOC : Z := 2.
Definition KB_ELF_SHF_EXECINSTR : Z := 4.
Definition KB_LOCAL_SHIM_DATA_SIZE : Z := 32768.
Definition KB_LOCAL_SHIM_REGION_SIZE : Z :=
  KB_LOCAL_SHIM_STUB_SIZE * KB_LOCAL_SHIM_STUB_COUNT + KB_LOCAL_SHIM_DATA_SIZE.
Definition KB_LOCAL_GS_SIZE : Z := 1024 * 1024.

Record loaded_section := mk_loaded_section {
  l_base : Z;
  l_size : Z;
  l_offset : Z;
  l_alignment : Z;
  l_flags : Z;
}.
#[export] Instance loaded_section_eta : Settable loaded_section := fun r =>
  mk_loaded_section (l_base r) (l_size r) (l_offset r) (l_alignment r) (l_flags r).

(** A section record from [calloc]. *)
Definition zero_section : loaded_section := mk_loaded_section 0 0 0 0 0.

(** The part of [struct kb_module] the loader works on.  [m_named_stubs] holds
    the nineteen pointers [shim_printk] ... [shim_iowrite32] under the names
    [bind_named_shim_stubs] binds them to. *)
Record kb_module := mk_module {
  m_elf : kb_elf_file;
  m_name : option (list Z);
  m_image_base : Z;
  m_image : list Z;
  m_sections : list loaded_section;
  m_stubs : module_stubs;
  m_shim_data : list Z;
  m_named_stubs : list (list Z * Z);
  m_percpu_offset : Z;
  m_percpu_size : Z;
}.
#[export] Instance module_eta : Settable kb_module := fun r =>
  mk_module (m_elf r) (m_name r) (m_image_base r) (m_image r) (m_sections r) (m_stubs r) (m_shim_data r)
    (m_named_stubs r) (m_percpu_offset r) (m_percpu_size r).

(** [module->shim_region] *)
Definition m_shim_region (m : kb_module) : Z := m_image_base m + blen (m_image m).

(** [memcpy] and single stores into a buffer, checked. *)
Definition store (p : list Z) (o : Z) (q : list Z) : outcome (list Z) :=
  if (0 <=? o) && (o + blen q <=? blen p) then Done (splice p o q) else Fault.

Definition align_up_u64 (value alignment : Z) : Z :=
  if alignment =? 0 then value
  else let mask := u64 (alignment - 1) in Z.land (u64 (value + mask)) (u64 (Z.lnot mask)).

Definition section_protection (flags : Z) : Z :=
  if negb (Z.land flags KB_ELF_SHF_EXECINSTR =? 0) then 2
  else if negb (Z.land flags KB_ELF_SHF_WRITE =? 0) then 1
  else 0.

Definition is_alloc (section : kb_elf_section_t) : bool := negb (Z.land (sec_flags section) KB_ELF_SHF_ALLOC =? 0).

Definition percpu_name : list Z := cstr ".data..percpu".
Definition is_percpu (section : kb_elf_section_t) : bool := bool_decide (sec_name section = percpu_name).

(** ** The first pass *)

Record placement := mk_placement {
  pl_image_size : Z;
  pl_previous_protection : Z;
  pl_sections : list loaded_section;
  pl_percpu_offset : Z;
  pl_percpu_size : Z;
  pl_percpu_next : Z;
}.
#[export] Instance placement_eta : Settable placement := fun r =>
  mk_placement (pl_image_size r) (pl_previous_protection r) (pl_sections r) (pl_percpu_offset r)
    (pl_percpu_size r) (pl_percpu_next r).

Section placing.
Context (page : Z).

Definition section_alignment (section : kb_elf_section_t) : Z :=
  if sec_alignment section =? 0 then 1 else sec_alignment section.

(** The module's slice of the per-CPU area. *)
Definition place_percpu (st : placement) (section : kb_elf_section_t) : placement * outcome unit :=
  if negb (pl_percpu_offset st =? 0) then (st, Fail KB_ERR_INVALID)
  else
    let alignment := section_alignment section in
    let percpu_alignment := if alignment <? 8 then 8 else alignment in
    let percpu_offset := align_up_u64 (pl_percpu_next st) percpu_alignment in
    if (KB_LOCAL_GS_SIZE <? percpu_offset) || (KB_LOCAL_GS_SIZE - percpu_offset <? sec_size section)
    then (st, Fail KB_ERR_NOMEM)
    else (st <| pl_percpu_offset := percpu_offset |> <| pl_percpu_size := sec_size section |>
             <| pl_percpu_next := percpu_offset + sec_size section |>, Done tt).

(** One section of the first pass. *)
Definition place_one (st : placement) (i : nat) (section : kb_elf_section_t) : placement * outcome unit :=
  if negb (is_alloc section) then (st, Done tt)
  else
    let protection := section_protection (sec_flags section) in
    let image_size :=
      if negb (pl_previous_protection st =? -1) && negb (protection =? pl_previous_protection st)
      then align_up_u64 (pl_image_size st) page else pl_image_size st in
    let alignment := section_alignment section in
    let '(st, percpu) := if is_percpu section then place_percpu st section else (st, Done tt) in
    match percpu with
    | Done _ =>
        let image_size := align_up_u64 image_size alignment in
        let placed := mk_loaded_section (l_base (nth i (pl_sections st) zero_section)) (sec_size section)
                        image_size alignment (sec_flags section) in
        (st <| pl_sections ::= <[i := placed]> |>
            <| pl_image_size := u64 (image_size + sec_size section) |>
            <| pl_previous_protection ::= (fun p => if sec_size section =? 0 then p else protection) |>, Done tt)
    | _ => (st, percpu)
    end.

Fixpoint place_loop (fuel : nat) (f : kb_elf_file) (st : placement) (i : nat) : placement * outcome unit :=
  match fuel with
  | O => (st, Done tt)
  | S fuel =>
      match kb_elf_section (Some f) (Z.of_nat i) true with
      | Done section =>
          match place_one st i section with
          | (st, Done _) => place_loop fuel f st (S i)
          | (st, r) => (st, r)
          end
      | Fail e => (st, Fail e)
      | Fault => (st, Fault)
      end
  end.

(** The whole pass, for a module whose section records are zero. *)
Definition place_sections (f : kb_elf_file) (percpu_next : Z) : placement * outcome unit :=
  let n := Z.to_nat (file_section_count f) in
  place_loop n f (mk_placement 0 (-1) (replicate n zero_section) 0 0 percpu_next) 0.
End placing.

(** ** The last pass *)

(** One section of the copy loop: the image, the per-CPU area and the record. *)
Definition copy_one (f : kb_elf_file) (image_base percpu_offset percpu_size : Z) (image gs : list Z)
    (placed : loaded_section) (section : kb_elf_section_t) : outcome (list Z * list Z * loaded_section) :=
  let memory := image_base + l_offset placed in
  if l_size placed =? 0 then Done (image, gs, placed <| l_base := memory |>)
  else
    image ← (if negb (sec_type section =? KB_ELF_SHT_NOBITS) then
               if negb (range_fits (file_size f) (sec_offset section) (sec_size section)) then Fail KB_ERR_INVALID
               else store image (l_offset placed) (slice (file_data f) (sec_offset section) (sec_size section))
             else Done image);
    gs ← (if is_percpu section then
            if (percpu_offset =? 0) || negb (sec_size section =? percpu_size) ||
               (KB_LOCAL_GS_SIZE - percpu_offset <? sec_size section)
            then Fail KB_ERR_INVALID
            else if negb (sec_type section =? KB_ELF_SHT_NOBITS) && negb (sec_size section =? 0)
            then store gs percpu_offset (slice (file_data f) (sec_offset section) (sec_size section))
            else Done gs
          else Done gs);
    mret (image, gs, placed <| l_base := memory |>).

Fixpoint copy_loop (fuel : nat) (f : kb_elf_file) (image_base percpu_offset percpu_size : Z)
    (image gs : list Z) (sections : list loaded_section) (i : nat) : outcome (list Z * list Z * list loaded_section) :=
  match fuel with
  | O => Done (image, gs, sections)
  | S fuel =>
      section ← kb_elf_section (Some f) (Z.of_nat i) true;
      if negb (is_alloc section)
      then copy_loop fuel f image_base percpu_offset percpu_size image gs sections (S i)
      else
        '(image, gs, placed) ← copy_one f image_base percpu_offset percpu_size image gs
                                 (nth i sections zero_section) section;
        copy_loop fuel f image_base percpu_offset percpu_size image gs (<[i := placed]> sections) (S i)
  end.

(** ** Loading the image

    [load_sections] from the first pass to the last, without the contents of
    the shim region: [image_base] is the result of [alloc_section_memory] (0 for
    failure); the section part of the zeroed image ends where the shim region
    begins, or with the mapping when the total size wraps around. *)

Definition load_image (page : Z) (f : kb_elf_file) (percpu_next : Z) (image_base : Z) (gs : list Z)
    : placement * outcome (list Z * list Z * list loaded_section) :=
  match place_sections page f percpu_next with
  | (st, Done _) =>
      (st,
       if pl_image_size st =? 0 then Fail KB_ERR_INVALID
       else
         let shim_region_offset := align_up_u64 (pl_image_size st) page in
         let image_size := u64 (shim_region_offset + KB_LOCAL_SHIM_REGION_SIZE) in
         if image_base =? 0 then Fail KB_ERR_NOMEM
         else copy_loop (Z.to_nat (file_section_count f)) f image_base (pl_percpu_offset st) (pl_percpu_size st)
                (replicate (Z.to_nat (Z.min shim_region_offset image_size)) 0) gs (pl_sections st) 0)
  | (st, Fail e) => (st, Fail e)
  | (st, Fault) => (st, Fault)
  end.

(** ** Addresses of loaded modules *)

Definition section_holds (address : Z) (s : loaded_section) : bool :=
  negb (l_base s =? 0) && negb (l_size s =? 0) && (l_base s <=? address) && (address <? u64 (l_base s + l_size s)).

Definition module_contains_address (module : option kb_module) (address : Z) : bool :=
  match module with
  | None => false
  | Some m => if address =? 0 then false else existsb (section_holds address) (m_sections m)
  end.

Definition module_contains_executable_address (module : option kb_module) (address : Z) : bool :=
  match module with
  | None => false
  | Some m =>
      if address =? 0 then false
      else existsb (fun s => negb (Z.land (l_flags s) KB_ELF_SHF_EXECINSTR =? 0) && section_holds address s) (m_sections m)
  end.

(** [kb_loaded_modules]: module pointers with their modules, newest first. *)
Definition loaded_modules : Type := list (Z * kb_module).

Definition module_for_address (loaded : loaded_modules) (address : Z) : option (Z * kb_module) :=
  snd <$> list_find (fun p => module_contains_address (Some p.2) address = true) loaded.

Definition kb_module_find_owner_for_address (loaded : loaded_modules) (address : Z) : option (Z * kb_module) :=
  module_for_address loaded address.

Definition kb_module_is_executable_address (loaded : loaded_modules) (address : Z) : bool :=
  existsb (fun p => module_contains_executable_address (Some p.2) address) loaded.

Definition kb_module_kernel_gs_for_address (loaded : loaded_modules) (address : Z) : Z :=
  match module_for_address loaded address with
  | None => 0
  | Some (_, m) => ms_kernel_gs (m_stubs m)
  end.

Definition register_loaded_module (loaded : loaded_modules) (ptr : Z) (m : option kb_module) : loaded_modules :=
  match m with None => loaded | Some m => (ptr, m) :: loaded end.

Fixpoint unregister_loaded_module (loaded : loaded_modules) (ptr : Z) : loaded_modules :=
  match loaded with
  | [] => []
  | p :: loaded => if p.1 =? ptr then loaded else p :: unregister_loaded_module loaded ptr
  end.
