(* ===== verification/LoaderSample.v ===== *)
(** * Small modules for the loader's examples

    [demo_file] is a relocatable file with code, data, per-CPU data and bss, four
    symbols and four relocations; [wrap_file] has two sections whose sizes add up
    to more than 2^64. *)

From S2P Require Import Prelude Bytes ElfReader ElfTheorems ShimTable ModuleLayout.

(** ** Building a file *)

(** A string table with [names] and the offset of the [i]th. *)
Definition strings (names : list (list Z)) : list Z := 0 :: concat (map (fun n => n ++ [0]) names).
Definition name_at (names : list (list Z)) (i : nat) : Z := blen (strings (take i names)).

(** An ELF-64 file: the header, [body], then the section headers (each with the
    index of its name); section 1 is the string table. *)
Definition elf_image (names : list (list Z)) (body : list Z) (headers : list (Z * kb_elf_section_t)) : list Z :=
  [0x7f; 0x45; 0x4c; 0x46; 2; 1; 1; 0] ++ replicate 8 0 ++
  write_u16le 1 ++ write_u16le 62 ++ write_u32le 1 ++ write_u64le 0 ++ write_u64le 0 ++
  write_u64le (64 + blen body) ++ write_u32le 0 ++ write_u16le 64 ++ write_u16le 0 ++ write_u16le 0 ++
  write_u16le 64 ++ write_u16le (blen (map fst headers)) ++ write_u16le 1 ++
  body ++ concat (map (fun h => encode_shdr (fst h) (snd h)) headers).

Definition elf_of (names : list (list Z)) (body : list Z) (headers : list (Z * kb_elf_section_t)) : kb_elf_file :=
  let image := elf_image names body headers in
  mk_elf_file image (blen image) 1 62 0 (64 + blen body) 64 (blen (map fst headers)) 1.

(** ** The demo module *)

Definition demo_names : list (list Z) :=
  map cstr [".shstrtab"; ".text"; ".data"; ".data..percpu"; ".bss"; ".symtab"; ".rela.text";
            "__fentry__"; "peer"; "value"; "counter"]%string.

Definition demo_text : list Z :=
  [0xe8; 0; 0; 0; 0;  0xe8; 0; 0; 0; 0;  0x48; 0xb8; 0; 0; 0; 0; 0; 0; 0; 0;  0x65; 0x8b; 0x04; 0x25; 0; 0; 0; 0;
   0x90; 0x90; 0x90; 0xc3].
Definition demo_data : list Z := [1; 2; 3; 4; 5; 6; 7; 8].
Definition demo_percpu : list Z := [11; 12; 13; 14; 15; 16; 17; 18].

Definition demo_symbols : list (Z * kb_elf_symbol_t) :=
  [(name_at demo_names 7, mk_elf_symbol (cstr "__fentry__") 1 0 0 0 0 0);
   (name_at demo_names 8, mk_elf_symbol (cstr "peer") 1 0 0 0 0 0);
   (name_at demo_names 9, mk_elf_symbol (cstr "value") 1 1 0 3 4 4);
   (name_at demo_names 10, mk_elf_symbol (cstr "counter") 0 1 0 4 0 8)].

Definition demo_relocations : list kb_elf_relocation_t :=
  [mk_elf_relocation 1 4 0 (-4) true 2 6; mk_elf_relocation 6 4 1 (-4) true 2 6;
   mk_elf_relocation 12 1 2 0 true 2 6; mk_elf_relocation 24 11 3 0 true 2 6].

Definition demo_strings_end : Z := 64 + blen (strings demo_names).

Definition demo_body : list Z :=
  strings demo_names ++ demo_text ++ demo_data ++ demo_percpu ++
  concat (map (fun s => encode_symbol (fst s) (snd s)) demo_symbols) ++ concat (map encode_rela demo_relocations).

Definition demo_sections : list kb_elf_section_t :=
  let e := demo_strings_end in
  [mk_elf_section [] 0 0 0 0 0 0 0 0 0;
   mk_elf_section (cstr ".shstrtab") KB_ELF_SHT_STRTAB 0 0 64 (blen (strings demo_names)) 0 0 1 0;
   mk_elf_section (cstr ".text") KB_ELF_SHT_PROGBITS 6 0 e 32 0 0 16 0;
   mk_elf_section (cstr ".data") KB_ELF_SHT_PROGBITS 3 0 (e + 32) 8 0 0 8 0;
   mk_elf_section (cstr ".data..percpu") KB_ELF_SHT_PROGBITS 3 0 (e + 40) 8 0 0 8 0;
   mk_elf_section (cstr ".bss") KB_ELF_SHT_NOBITS 3 0 (e + 48) 64 0 0 32 0;
   mk_elf_section (cstr ".symtab") KB_ELF_SHT_SYMTAB 0 0 (e + 48) 96 1 0 8 24;
   mk_elf_section (cstr ".rela.text") KB_ELF_SHT_RELA 0 0 (e + 144) 96 6 2 8 24].

(** The null section has no name; the others have the first seven. *)
Definition numbered (names : list (list Z)) (secs : list kb_elf_section_t) : list (Z * kb_elf_section_t) :=
  imap (fun i s => (match i with O => 0 | S i => name_at names i end, s)) secs.

Definition demo_file : kb_elf_file := Eval vm_compute in elf_of demo_names demo_body (numbered demo_names demo_sections).

Lemma demo_opens : kb_elf_open (Some (file_data demo_file)) true = Done demo_file.
Proof. vm_compute. reflexivity. Qed.

(** ** A module whose section sizes wrap around *)

Definition wrap_names : list (list Z) := map cstr [".shstrtab"; ".bss"; ".data"]%string.
Definition wrap_body : list Z := strings wrap_names ++ replicate 32 0x41.
Definition wrap_sections : list kb_elf_section_t :=
  [mk_elf_section [] 0 0 0 0 0 0 0 0 0;
   mk_elf_section (cstr ".shstrtab") KB_ELF_SHT_STRTAB 0 0 64 (blen (strings wrap_names)) 0 0 1 0;
   mk_elf_section (cstr ".bss") KB_ELF_SHT_NOBITS 3 0 0 (2 ^ 64 - 16) 0 0 1 0;
   mk_elf_section (cstr ".data") KB_ELF_SHT_PROGBITS 3 0 (64 + blen (strings wrap_names)) 32 0 0 1 0].
Definition wrap_file : kb_elf_file := Eval vm_compute in elf_of wrap_names wrap_body (numbered wrap_names wrap_sections).

Lemma wrap_opens : kb_elf_open (Some (file_data wrap_file)) true = Done wrap_file.
Proof. vm_compute. reflexivity. Qed.

(** ** Facts about the two *)

