(* ===== verification/LayoutTheorems.v ===== *)
(** * Properties of section placement (ModuleLayout.v)

    Sections get disjoint, aligned ranges of the image in file order, sections of
    different protection never share a page, and the loaded image holds the
    file's bytes.  All of this needs the sizes to add up without wrapping around;
    the loader does not check that, and the last theorem shows what happens. *)

From S2P Require Import Prelude Bytes ElfReader ElfTheorems ShimTable ModuleLayout LoaderSample.

(** ** Alignment *)

Lemma ldiff_land_disjoint x m : Z.land (Z.ldiff x m) (Z.land x m) = 0.
Proof. rewrite (Z.land_comm x m), Z.land_assoc, (Z.land_ldiff x m). apply Z.land_0_l. Qed.

Lemma land_not_u64 x m : is_u64 x -> Z.land x (u64 (Z.lnot m)) = x - Z.land x m.
Proof.
  intros Hx. assert (Z.land x (u64 (Z.lnot m)) = Z.ldiff x m) as ->.
  { apply Z.bits_inj'. intros k Hk. rewrite Z.land_spec, Z.ldiff_spec. unfold u64.
    change 0x10000000000000000 with (2 ^ 64). destruct (decide (k < 64)).
    - rewrite Z.mod_pow2_bits_low, Z.lnot_spec by lia. done.
    - rewrite (testbit_above x 64 k) by (unfold is_u64 in Hx; lia). done. }
  pose proof (Z.add_lor_land (Z.ldiff x m) (Z.land x m)) as H.
  rewrite Z.lor_ldiff_and, ldiff_land_disjoint in H. lia.
Qed.

Lemma land_le_r x m : 0 <= x -> 0 <= m -> 0 <= Z.land x m <= m.
Proof.
  intros Hx Hm. split; [apply Z.land_nonneg; lia|].
  pose proof (Z.add_lor_land (Z.ldiff m x) (Z.land x m)) as H.
  rewrite (Z.land_comm x m), Z.lor_ldiff_and, ldiff_land_disjoint in H.
  assert (0 <= Z.ldiff m x) by (apply Z.ldiff_nonneg; lia). rewrite (Z.land_comm x m). lia.
Qed.

(** Aligning never moves down and moves up by less than the alignment. *)
Lemma align_up_bounds v a :
  0 <= v -> 0 < a -> v + a <= UINT64_MAX -> v <= align_up_u64 v a < v + a.
Proof.
  intros Hv Ha Hs. unfold align_up_u64, UINT64_MAX in *. rewrite (proj2 (Z.eqb_neq a 0)) by lia.
  cbv zeta. rewrite (u64_small (a - 1)) by (unfold is_u64; lia).
  rewrite (u64_small (v + (a - 1))) by (unfold is_u64; lia).
  rewrite land_not_u64 by (unfold is_u64; lia). pose proof (land_le_r (v + (a - 1)) (a - 1)). lia.
Qed.

(** A power of two divides what it aligns. *)
Lemma align_up_divides v a k :
  0 <= v -> v + a <= UINT64_MAX -> a = 2 ^ k -> 0 <= k -> (a | align_up_u64 v a).
Proof.
  intros Hv Hs -> Hk. assert (0 < 2 ^ k) by (apply Z.pow_pos_nonneg; lia). unfold align_up_u64, UINT64_MAX in *.
  rewrite (proj2 (Z.eqb_neq (2 ^ k) 0)) by lia. cbv zeta.
  rewrite (u64_small (2 ^ k - 1)) by (unfold is_u64; lia).
  rewrite (u64_small (v + (2 ^ k - 1))) by (unfold is_u64; lia).
  rewrite land_not_u64 by (unfold is_u64; lia).
  replace (2 ^ k - 1) with (Z.ones k) by (rewrite Z.ones_equiv; lia). rewrite Z.land_ones by lia.
  exists ((v + Z.ones k) / 2 ^ k). pose proof (Z.div_mod (v + Z.ones k) (2 ^ k)). lia.
Qed.

(** ** The sections of a file *)

(** [secs] are the section headers the reader returns. *)
Definition sections_of (f : kb_elf_file) (secs : list kb_elf_section_t) : Prop :=
  length secs = Z.to_nat (file_section_count f) /\
  forall i s, secs !! i = Some s -> kb_elf_section (Some f) (Z.of_nat i) true = Done s.

Fixpoint place_list (page : Z) (st : placement) (i : nat) (secs : list kb_elf_section_t) : placement * outcome unit :=
  match secs with
  | [] => (st, Done tt)
  | s :: secs =>
      match place_one page st i s with
      | (st, Done _) => place_list page st (S i) secs
      | (st, r) => (st, r)
      end
  end.

Lemma place_loop_list page f st i secs :
  (forall k s, secs !! k = Some s -> kb_elf_section (Some f) (Z.of_nat (i + k)) true = Done s) ->
  place_loop page (length secs) f st i = place_list page st i secs.
Proof.
  revert st i. induction secs as [|s secs IH]; intros st i H; [done|]. cbn [length place_loop place_list].
  pose proof (H 0%nat s eq_refl) as H0. rewrite Nat.add_0_r in H0. rewrite H0.
  destruct (place_one page st i s) as [st1 [[]| |]]; try done. apply IH. intros k s' Hk.
  specialize (H (S k) s' Hk). by rewrite Nat.add_succ_r in H.
Qed.

(** An upper bound on the room the sections take. *)
Definition room (page : Z) (secs : list kb_elf_section_t) : Z :=
  foldr (fun s n => sec_size s + section_alignment s + page + n) 0 secs.

(** Sizes and alignments are 64-bit values. *)
Definition sizes_ok (secs : list kb_elf_section_t) : Prop :=
  Forall (fun s => 0 <= sec_size s /\ 0 < section_alignment s) secs.

Lemma room_nonneg page secs : 0 <= page -> sizes_ok secs -> 0 <= room page secs.
Proof. intros Hp H. induction H as [|s secs [? ?] _ IH]; cbn; [done|]. unfold room in *. lia. Qed.

(** ** The invariant of the first pass *)

Definition section_end (l : loaded_section) : Z := l_offset l + l_size l.

(** What placing does to the record of a section. *)
Record placed_ok (s : kb_elf_section_t) (l : loaded_section) : Prop := {
  po_size : l_size l = sec_size s;
  po_flags : l_flags l = sec_flags s;
  po_base : l_base l = 0;
  po_offset : 0 <= l_offset l;
  po_aligned : forall k, 0 <= k -> section_alignment s = 2 ^ k -> (section_alignment s | l_offset l);
}.

(** A page boundary between [lo] and [hi]. *)
Definition page_edge (page lo hi : Z) : Prop := exists edge, (page | edge) /\ lo <= edge <= hi.

(** [a] lies before [b], on other pages when both are non-empty and their
    protections differ. *)
Definition separated (page : Z) (a b : loaded_section) : Prop :=
  section_end a <= l_offset b /\
  (l_size a <> 0 -> l_size b <> 0 -> section_protection (l_flags a) <> section_protection (l_flags b) ->
   page_edge page (section_end a) (l_offset b)).

Record layout_inv (page : Z) (secs : list kb_elf_section_t) (i : nat) (st : placement) : Prop := {
  li_length : length (pl_sections st) = length secs;
  li_size : 0 <= pl_image_size st;
  li_placed : forall j s, (j < i)%nat -> secs !! j = Some s -> is_alloc s = true ->
    exists l, pl_sections st !! j = Some l /\ placed_ok s l /\ section_end l <= pl_image_size st /\
      (l_size l <> 0 -> section_protection (l_flags l) = pl_previous_protection st \/
                        page_edge page (section_end l) (pl_image_size st));
  li_rest : forall j s, secs !! j = Some s -> (i <= j)%nat \/ is_alloc s = false -> pl_sections st !! j = Some zero_section;
  li_order : forall j k a b sj sk, (j < k < i)%nat -> secs !! j = Some sj -> secs !! k = Some sk ->
    is_alloc sj = true -> is_alloc sk = true -> pl_sections st !! j = Some a -> pl_sections st !! k = Some b ->
    separated page a b;
}.

Lemma page_edge_mono page lo hi hi' : hi <= hi' -> page_edge page lo hi -> page_edge page lo hi'.
Proof. intros H (e & He & Hr). exists e. split; [done|lia]. Qed.

Lemma place_percpu_keeps st s st' r :
  place_percpu st s = (st', r) -> pl_sections st' = pl_sections st /\ pl_image_size st' = pl_image_size st /\
  pl_previous_protection st' = pl_previous_protection st.
Proof.
  unfold place_percpu. intros H. apply (f_equal fst) in H. cbn in H. subst st'. by repeat case_match.
Qed.

(** The cursor before the section's own alignment. *)
Definition cursor_before (page : Z) (st : placement) (s : kb_elf_section_t) : Z :=
  if negb (pl_previous_protection st =? -1) && negb (section_protection (sec_flags s) =? pl_previous_protection st)
  then align_up_u64 (pl_image_size st) page else pl_image_size st.

Lemma place_one_done page st i s st' :
  is_alloc s = true -> place_one page st i s = (st', Done tt) ->
  let offset := align_up_u64 (cursor_before page st s) (section_alignment s) in
  pl_sections st' = <[i := mk_loaded_section (l_base (nth i (pl_sections st) zero_section)) (sec_size s) offset
                             (section_alignment s) (sec_flags s)]> (pl_sections st) /\
  pl_image_size st' = u64 (offset + sec_size s) /\
  pl_previous_protection st' = if sec_size s =? 0 then pl_previous_protection st else section_protection (sec_flags s).
Proof.
  intros Ha. unfold place_one. rewrite Ha. cbn [negb]. fold (cursor_before page st s).
  destruct (if is_percpu s then _ else _) as [st1 r] eqn:E.
  assert (pl_sections st1 = pl_sections st /\ pl_image_size st1 = pl_image_size st /\
    pl_previous_protection st1 = pl_previous_protection st) as (H1 & H2 & H3).
  { destruct (is_percpu s); [by apply place_percpu_keeps in E|]. by injection E as <- _. }
  destruct r; intros H; try done. pose proof (f_equal fst H) as Hst. cbn [fst] in Hst. subst st'.
  cbn. rewrite H1, H3. done.
Qed.

Lemma cursor_before_bounds page st s :
  0 < page -> 0 <= pl_image_size st -> pl_image_size st + page <= UINT64_MAX ->
  pl_image_size st <= cursor_before page st s <= pl_image_size st + page.
Proof.
  intros Hp H0 Hm. unfold cursor_before. case_match; [|lia].
  pose proof (align_up_bounds (pl_image_size st) page H0 Hp Hm). lia.
Qed.

(** Whatever is already placed has the protection of the next section or ends
    before a page boundary. *)
Lemma cursor_before_edge page p st s l :
  page = 2 ^ p -> 0 <= p -> 0 <= pl_image_size st -> pl_image_size st + page <= UINT64_MAX ->
  section_end l <= pl_image_size st ->
  (section_protection (l_flags l) = pl_previous_protection st \/ page_edge page (section_end l) (pl_image_size st)) ->
  section_protection (l_flags l) = section_protection (sec_flags s) \/
  page_edge page (section_end l) (cursor_before page st s).
Proof.
  intros -> Hp H0 Hm Hend Hl. assert (0 < 2 ^ p) as Hpos by (apply Z.pow_pos_nonneg; lia).
  pose proof (cursor_before_bounds (2 ^ p) st s Hpos H0 Hm) as Hc.
  destruct Hl as [Hl|He]; [|right; by apply (page_edge_mono _ _ (pl_image_size st)); [lia|]].
  unfold cursor_before in *. destruct (negb _ && negb _) eqn:E.
  - right. exists (align_up_u64 (pl_image_size st) (2 ^ p)). split; [|lia]. by apply (align_up_divides _ _ p).
  - left. boolify. destruct E; boolify; [|congruence]. exfalso.
    assert (0 <= section_protection (l_flags l)) by (unfold section_protection; by repeat case_match). lia.
Qed.

Lemma place_one_skip page st i s : is_alloc s = false -> place_one page st i s = (st, Done tt).
Proof. intros H. unfold place_one. by rewrite H. Qed.

Section step.
Context (page p : Z) (Hpage : page = 2 ^ p) (Hp : 0 <= p).

Lemma page_pos : 0 < page.
Proof using All. rewrite Hpage. apply Z.pow_pos_nonneg; lia. Qed.

(** The new record and where the cursor goes. *)
Lemma place_one_bounds st i s st' :
  is_alloc s = true -> place_one page st i s = (st', Done tt) ->
  0 <= pl_image_size st -> 0 <= sec_size s -> 0 < section_alignment s ->
  pl_image_size st + (sec_size s + section_alignment s + page) <= UINT64_MAX ->
  exists offset, cursor_before page st s <= offset /\ pl_image_size st <= offset /\
    pl_image_size st' = offset + sec_size s /\
    pl_image_size st' <= pl_image_size st + (sec_size s + section_alignment s + page) /\
    (forall k, 0 <= k -> section_alignment s = 2 ^ k -> (section_alignment s | offset)) /\
    pl_sections st' = <[i := mk_loaded_section (l_base (nth i (pl_sections st) zero_section)) (sec_size s) offset
                               (section_alignment s) (sec_flags s)]> (pl_sections st).
Proof using All.
  intros Ha H H0 Hs Hal Hm. pose proof page_pos as Hpos.
  destruct (place_one_done page st i s st' Ha H) as (Hsec & Hsize & _).
  pose proof (cursor_before_bounds page st s Hpos H0 ltac:(lia)) as Hc.
  pose proof (align_up_bounds (cursor_before page st s) (section_alignment s) ltac:(lia) Hal ltac:(lia)) as Ho.
  exists (align_up_u64 (cursor_before page st s) (section_alignment s)).
  rewrite u64_small in Hsize by (unfold is_u64, UINT64_MAX in *; lia).
  split_and!; [lia|lia|done|lia| |done]. intros k Hk Hk2. apply (align_up_divides _ _ k); lia.
Qed.

Lemma place_one_inv secs st i s st' :
  layout_inv page secs i st -> secs !! i = Some s -> 0 <= sec_size s -> 0 < section_alignment s ->
  pl_image_size st + (sec_size s + section_alignment s + page) <= UINT64_MAX ->
  place_one page st i s = (st', Done tt) -> layout_inv page secs (S i) st'.
Proof using All.
  intros Hinv Hi Hs Hal Hm H. destruct (is_alloc s) eqn:Ha.
  2:{ rewrite place_one_skip in H by done. injection H as <-. destruct Hinv as [HL H0 Hpl Hrest Hord]. constructor; try done.
      - intros j sj Hj Hl Haj. destruct (decide (j = i)) as [->|]; [congruence|]. apply Hpl; [lia|done|done].
      - intros j sj Hl Hor. apply (Hrest j sj Hl). destruct (decide (j = i)) as [->|]; [|destruct Hor; [left; lia|by right]].
        right. congruence.
      - intros j k a b sj sk Hjk Hj Hk Haj Hak. destruct (decide (k = i)) as [->|]; [congruence|].
        apply (Hord j k a b sj sk); try done. lia. }
  pose proof (li_size _ _ _ _ Hinv) as H0. pose proof (li_length _ _ _ _ Hinv) as HL.
  destruct (place_one_done page st i s st' Ha H) as (_ & _ & Hprev).
  destruct (place_one_bounds st i s st' Ha H H0 Hs Hal Hm) as (offset & Hcur & Hge & Hsize & _ & Hdiv & Hsec).
  set (l := mk_loaded_section _ _ _ _ _) in Hsec. pose proof (lookup_lt_Some _ _ _ Hi) as Hlt.
  assert (pl_sections st' !! i = Some l) as Hnew by (rewrite Hsec; apply list_lookup_insert_eq; lia).
  assert (forall j, j <> i -> pl_sections st' !! j = pl_sections st !! j) as Hold.
  { intros j Hj. rewrite Hsec. by apply list_lookup_insert_ne. }
  assert (l_base l = 0) as Hbase.
  { cbn. rewrite nth_lookup, (li_rest _ _ _ _ Hinv i s Hi) by (left; lia). done. }
  constructor.
  - rewrite Hsec, length_insert. done.
  - lia.
  - intros j sj Hj Hl Haj. destruct (decide (j = i)) as [->|Hne].
    + rewrite Hi in Hl. injection Hl as <-. exists l. split_and!; [done| |unfold section_end; cbn; lia|].
      * constructor; try done. cbn. lia.
      * cbn. intros Hnz. left. rewrite Hprev, (proj2 (Z.eqb_neq _ _) Hnz). done.
    + destruct (li_placed _ _ _ _ Hinv j sj ltac:(lia) Hl Haj) as (lj & Hlj & Hok & Hend & Hedge).
      exists lj. rewrite Hold by done. split_and!; [done|done|lia|]. intros Hnz. rewrite Hprev.
      destruct (Z.eqb_spec (sec_size s) 0).
      * destruct (Hedge Hnz); [by left|right]. by apply (page_edge_mono _ _ (pl_image_size st)); [lia|].
      * destruct (cursor_before_edge page p st s lj) as [?|?]; try done; [lia|by apply Hedge|by left|].
        right. by apply (page_edge_mono _ _ (cursor_before page st s)); [lia|].
  - intros j sj Hl Hor. destruct (decide (j = i)) as [->|Hne].
    + rewrite Hi in Hl. injection Hl as <-. destruct Hor; [lia|congruence].
    + rewrite Hold by done. apply (li_rest _ _ _ _ Hinv j sj Hl). destruct Hor; [left; lia|by right].
  - intros j k a b sj sk Hjk Hj Hk Haj Hak Hla Hlb. rewrite Hold in Hla by lia.
    destruct (decide (k = i)) as [->|Hne].
    + rewrite Hnew in Hlb. injection Hlb as <-. rewrite Hi in Hk. injection Hk as <-.
      destruct (li_placed _ _ _ _ Hinv j sj ltac:(lia) Hj Haj) as (lj & Hlj & Hok & Hend & Hedge).
      rewrite Hlj in Hla. injection Hla as <-. split; [cbn; lia|]. intros Hnz _ Hdiff.
      destruct (cursor_before_edge page p st s lj) as [?|?]; try done; [lia|by apply Hedge|].
      by apply (page_edge_mono _ _ (cursor_before page st s)).
    + rewrite Hold in Hlb by done. by apply (li_order _ _ _ _ Hinv j k a b sj sk); [lia|..].
Qed.
End step.

Lemma place_list_inv page p secs rest st i st' :
  page = 2 ^ p -> 0 <= p -> layout_inv page secs i st -> drop i secs = rest -> sizes_ok rest ->
  pl_image_size st + room page rest <= UINT64_MAX ->
  place_list page st i rest = (st', Done tt) ->
  layout_inv page secs (i + length rest) st' /\ pl_image_size st' <= pl_image_size st + room page rest.
Proof.
  intros Hpage Hp. pose proof (page_pos page p Hpage Hp) as Hpos. revert st i.
  induction rest as [|s rest IH]; intros st i Hinv Hdrop Hok Hm H.
  { cbn in H. injection H as <-. rewrite Nat.add_0_r. split; [done|]. cbn. lia. }
  cbn [place_list] in H. apply Forall_cons in Hok as [[Hs Hal] Hok].
  pose proof (room_nonneg page rest ltac:(lia) Hok) as Hroom.
  change (room page (s :: rest)) with (sec_size s + section_alignment s + page + room page rest) in *.
  assert (secs !! i = Some s) as Hi.
  { rewrite <- (Nat.add_0_r i). rewrite <- lookup_drop. by rewrite Hdrop. }
  assert (drop (S i) secs = rest) as Hdrop'.
  { replace (S i) with (i + 1)%nat by lia. rewrite <- drop_drop, Hdrop. done. }
  destruct (place_one page st i s) as [st1 r] eqn:E.
  destruct r as [[]| |]; [|discriminate|discriminate].
  pose proof (place_one_inv page p Hpage Hp secs st i s st1 Hinv Hi Hs Hal ltac:(lia) E) as Hinv1.
  assert (pl_image_size st1 <= pl_image_size st + (sec_size s + section_alignment s + page)) as Hsize.
  { destruct (is_alloc s) eqn:Ha; [|rewrite place_one_skip in E by done; injection E as <-; lia].
    destruct (place_one_bounds page p Hpage Hp st i s st1 Ha E (li_size _ _ _ _ Hinv) Hs Hal ltac:(lia))
      as (offset & _ & _ & _ & H1 & _). exact H1. }
  destruct (IH st1 (S i) Hinv1 Hdrop' Hok ltac:(lia) H) as [Hfin Hle].
  cbn [length]. rewrite Nat.add_succ_r. split; [exact Hfin|lia].
Qed.

Lemma layout_inv_init page secs n :
  layout_inv page secs 0 (mk_placement 0 (-1) (replicate (length secs) zero_section) 0 0 n).
Proof.
  constructor; try (intros; lia); cbn.
  - apply length_replicate.
  - lia.
  - intros j s Hj _. apply lookup_replicate_2. by apply lookup_lt_Some in Hj.
Qed.

Lemma place_sections_inv page p f secs n st :
  page = 2 ^ p -> 0 <= p -> sections_of f secs -> sizes_ok secs -> room page secs <= UINT64_MAX ->
  place_sections page f n = (st, Done tt) ->
  layout_inv page secs (length secs) st /\ pl_image_size st <= room page secs.
Proof.
  intros Hpage Hp [HL Hsecs] Hok Hm. unfold place_sections. rewrite <- HL.
  rewrite place_loop_list by (intros k s Hk; exact (Hsecs k s Hk)). intros H.
  apply (place_list_inv page p secs) in H; [|done|done|apply layout_inv_init|done|done|done]. exact H.
Qed.

(** When the sections' sizes, alignments and a page for each add up to less
    than 2^64, the first pass of the loader gives every allocated section its own
    range of the image: ranges follow file order without overlap, each start is a
    multiple of the section's (power-of-two) alignment, and all of them end
    before the shim region. *)
Theorem section_layout_disjoint page p f secs n st :
  page = 2 ^ p -> 0 <= p -> sections_of f secs -> sizes_ok secs -> room page secs + page <= UINT64_MAX ->
  place_sections page f n = (st, Done tt) ->
  (forall j s, secs !! j = Some s -> is_alloc s = true ->
     exists l, pl_sections st !! j = Some l /\ placed_ok s l /\ section_end l <= align_up_u64 (pl_image_size st) page) /\
  (forall j k a b sj sk, (j < k)%nat -> secs !! j = Some sj -> secs !! k = Some sk ->
     is_alloc sj = true -> is_alloc sk = true -> pl_sections st !! j = Some a -> pl_sections st !! k = Some b ->
     section_end a <= l_offset b).
Proof.
  intros Hpage Hp Hsecs Hok Hm H. pose proof (page_pos page p Hpage Hp) as Hpos.
  destruct (place_sections_inv page p f secs n st Hpage Hp Hsecs Hok ltac:(lia) H) as [Hinv Hle].
  pose proof (align_up_bounds (pl_image_size st) page (li_size _ _ _ _ Hinv) Hpos ltac:(lia)) as Hal. split.
  - intros j s Hj Ha. destruct (li_placed _ _ _ _ Hinv j s (lookup_lt_Some _ _ _ Hj) Hj Ha) as (l & Hl & Hok' & Hend & _).
    exists l. split_and!; [done|done|lia].
  - intros j k a b sj sk Hjk Hj Hk Haj Hak Hla Hlb.
    apply (li_order _ _ _ _ Hinv j k a b sj sk); try done. split; [done|by apply lookup_lt_Some in Hk].
Qed.

(** The pages a range of bytes touches. *)
Definition touches_page (page : Z) (l : loaded_section) (k : Z) : Prop :=
  exists o, l_offset l <= o < section_end l /\ o / page = k.

(** Sections on the same page have the same protection. *)
Lemma layout_shares page secs st j k a b sj sk x :
  0 < page -> layout_inv page secs (length secs) st ->
  secs !! j = Some sj -> secs !! k = Some sk -> is_alloc sj = true -> is_alloc sk = true ->
  pl_sections st !! j = Some a -> pl_sections st !! k = Some b -> touches_page page a x -> touches_page page b x ->
  section_protection (l_flags a) = section_protection (l_flags b).
Proof.
  intros Hpos Hinv.
  assert (forall j k a b sj sk, (j < k)%nat -> secs !! j = Some sj -> secs !! k = Some sk -> is_alloc sj = true ->
    is_alloc sk = true -> pl_sections st !! j = Some a -> pl_sections st !! k = Some b ->
    touches_page page a x -> touches_page page b x ->
    section_protection (l_flags a) = section_protection (l_flags b)) as Hlt.
  { clear j k a b sj sk. intros j k a b sj sk Hjk Hj Hk Haj Hak Hla Hlb (o1 & Ho1 & Hx1) (o2 & Ho2 & Hx2).
    destruct (decide (section_protection (l_flags a) = section_protection (l_flags b))) as [|Hne]; [done|exfalso].
    unfold section_end in *.
    destruct (li_order _ _ _ _ Hinv j k a b sj sk) as [_ Hedge]; try done; [split; [done|by apply lookup_lt_Some in Hk]|].
    destruct (Hedge ltac:(lia) ltac:(lia) Hne) as (e & [q ->] & Hr). unfold section_end in *.
    assert (o1 / page < q) by (apply Z.div_lt_upper_bound; lia).
    assert (q <= o2 / page) by (apply Z.div_le_lower_bound; lia). lia. }
  intros Hj Hk Haj Hak Hla Hlb Ha Hb. destruct (lt_eq_lt_dec j k) as [[Hjk|Hjk]|Hjk].
  - by apply (Hlt j k a b sj sk).
  - subst k. congruence.
  - symmetry. by apply (Hlt k j b a sk sj).
Qed.

(** No page of the image belongs to two sections of different protection:
    executable code never shares a page with writable or read-only data, so the
    protections that are applied page by page afterwards are those of every byte
    on the page. *)
Theorem protections_share_no_page page p f secs n st :
  page = 2 ^ p -> 0 <= p -> sections_of f secs -> sizes_ok secs -> room page secs + page <= UINT64_MAX ->
  place_sections page f n = (st, Done tt) ->
  forall j k a b sj sk x, secs !! j = Some sj -> secs !! k = Some sk -> is_alloc sj = true -> is_alloc sk = true ->
    pl_sections st !! j = Some a -> pl_sections st !! k = Some b ->
    touches_page page a x -> touches_page page b x ->
    section_protection (l_flags a) = section_protection (l_flags b).
Proof.
  intros Hpage Hp Hsecs Hok Hm H. pose proof (page_pos page p Hpage Hp) as Hpos.
  destruct (place_sections_inv page p f secs n st Hpage Hp Hsecs Hok ltac:(lia) H) as [Hinv _].
  intros j k a b sj sk x. by apply layout_shares.
Qed.

(** ** The per-CPU slice *)

(** Every allocated per-CPU section placed so far is the one that was given the
    slice. *)
Definition percpu_inv (secs : list kb_elf_section_t) (i : nat) (st : placement) : Prop :=
  0 < pl_percpu_next st /\ 0 <= pl_percpu_offset st <= KB_LOCAL_GS_SIZE /\
  pl_percpu_next st <= KB_LOCAL_GS_SIZE /\
  forall j s, (j < i)%nat -> secs !! j = Some s -> is_alloc s = true -> is_percpu s = true ->
    pl_percpu_offset st <> 0 /\ sec_size s = pl_percpu_size st /\
    pl_percpu_offset st + sec_size s <= KB_LOCAL_GS_SIZE.

Lemma place_one_percpu page secs st i s st' :
  percpu_inv secs i st -> secs !! i = Some s -> 0 <= sec_size s -> 0 < section_alignment s <= 0x4000000000000000 ->
  place_one page st i s = (st', Done tt) -> percpu_inv secs (S i) st'.
Proof.
  intros (Hn & Ho & Hmax & Hall) Hi Hs Hal H.
  assert (forall st2, pl_percpu_next st2 = pl_percpu_next st -> pl_percpu_offset st2 = pl_percpu_offset st ->
    pl_percpu_size st2 = pl_percpu_size st -> is_alloc s = false \/ is_percpu s = false ->
    percpu_inv secs (S i) st2) as Hkeep.
  { intros st2 H1 H2 H3 Hnot. unfold percpu_inv. rewrite H1, H2, H3. split_and!; try lia. intros j sj Hj Hl Ha Hpc.
    destruct (decide (j = i)) as [->|]; [destruct Hnot; congruence|]. apply (Hall j sj); [lia|done..]. }
  unfold place_one in H. destruct (is_alloc s) eqn:Ha; cbn [negb] in H; [|injection H as <-; apply Hkeep; auto].
  destruct (is_percpu s) eqn:Hpc.
  2:{ pose proof (f_equal fst H) as Hst. cbn [fst] in Hst. subst st'. apply Hkeep; auto. }
  unfold place_percpu in H. destruct (Z.eqb_spec (pl_percpu_offset st) 0) as [Hz|]; cbn [negb] in H; [|discriminate].
  set (al := if section_alignment s <? 8 then 8 else section_alignment s) in H.
  assert (0 < al <= 0x4000000000000000) as Hal' by (unfold al; destruct (Z.ltb_spec (section_alignment s) 8); lia).
  pose proof (align_up_bounds (pl_percpu_next st) al ltac:(lia) ltac:(lia)
    ltac:(unfold KB_LOCAL_GS_SIZE, UINT64_MAX in *; lia)) as Hb.
  set (off := align_up_u64 (pl_percpu_next st) al) in *. destruct (_ || _) eqn:Hg in H; [discriminate|]. boolify.
  pose proof (f_equal fst H) as Hst. cbn [fst] in Hst. subst st'. unfold percpu_inv. cbn.
  split_and!; try lia. intros j sj Hj Hl Haj Hpcj. destruct (decide (j = i)) as [->|].
  - rewrite Hi in Hl. injection Hl as <-. split_and!; lia.
  - destruct (Hall j sj ltac:(lia) Hl Haj Hpcj) as [Hne _]. lia.
Qed.

Definition alignments_ok (secs : list kb_elf_section_t) : Prop :=
  Forall (fun s => section_alignment s <= 0x4000000000000000) secs.

Lemma place_list_percpu page secs rest st i st' :
  percpu_inv secs i st -> drop i secs = rest -> sizes_ok rest -> alignments_ok rest ->
  place_list page st i rest = (st', Done tt) -> percpu_inv secs (i + length rest) st'.
Proof.
  revert st i. induction rest as [|s rest IH]; intros st i Hinv Hdrop Hok Hal H.
  { cbn in H. injection H as <-. by rewrite Nat.add_0_r. }
  cbn [place_list] in H. apply Forall_cons in Hok as [[Hs Hpos] Hok]. apply Forall_cons in Hal as [Ha Hal].
  assert (secs !! i = Some s) as Hi.
  { rewrite <- (Nat.add_0_r i). rewrite <- lookup_drop. by rewrite Hdrop. }
  destruct (place_one page st i s) as [st1 r] eqn:E. destruct r as [[]| |]; [|discriminate|discriminate].
  cbn [length]. rewrite Nat.add_succ_r. apply (IH st1 (S i)); try done.
  - by apply (place_one_percpu page secs st i s).
  - replace (S i) with (i + 1)%nat by lia. rewrite <- drop_drop, Hdrop. done.
Qed.

Lemma place_sections_percpu page f secs n st :
  sections_of f secs -> sizes_ok secs -> alignments_ok secs -> 0 < n <= KB_LOCAL_GS_SIZE ->
  place_sections page f n = (st, Done tt) -> percpu_inv secs (length secs) st.
Proof.
  intros [HL Hsecs] Hok Hal Hn. unfold place_sections. rewrite <- HL.
  rewrite place_loop_list by (intros k s Hk; exact (Hsecs k s Hk)). intros H.
  apply (place_list_percpu page secs secs _ 0) in H; try done. unfold percpu_inv. cbn. split_and!; lia.
Qed.

(** ** The second pass *)

(** What the file holds for a section. *)
Definition contents (f : kb_elf_file) (s : kb_elf_section_t) : list Z :=
  if sec_type s =? KB_ELF_SHT_NOBITS then replicate (Z.to_nat (sec_size s)) 0
  else slice (file_data f) (sec_offset s) (sec_size s).

(** Sections with contents lie inside the file. *)
Definition in_file (f : kb_elf_file) (s : kb_elf_section_t) : Prop :=
  is_alloc s = true -> sec_size s <> 0 -> sec_type s <> KB_ELF_SHT_NOBITS ->
  0 <= sec_offset s /\ sec_offset s + sec_size s <= blen (file_data f).

Lemma blen_contents f s :
  is_alloc s = true -> 0 <= sec_size s -> in_file f s -> blen (contents f s) = sec_size s.
Proof.
  intros Ha Hs Hf. unfold contents. destruct (Z.eqb_spec (sec_type s) KB_ELF_SHT_NOBITS).
  - unfold blen. rewrite length_replicate. lia.
  - destruct (decide (sec_size s = 0)) as [Hz|Hnz].
    + unfold slice. rewrite Hz. cbn. done.
    + unfold blen. destruct (Hf Ha Hnz n). rewrite length_slice; lia.
Qed.

Lemma store_in p o q : 0 <= o -> o + blen q <= blen p -> store p o q = Done (splice p o q).
Proof.
  intros Ho Hl. unfold store. by rewrite (proj2 (Z.leb_le 0 o)), (proj2 (Z.leb_le (o + blen q) (blen p))).
Qed.

Section copying.
Context (f : kb_elf_file) (secs : list kb_elf_section_t) (placed : list loaded_section).
Context (image_base percpu_offset percpu_size size : Z).
Hypothesis file_ok : file_coherent f.
Hypothesis secs_ok : sections_of f secs.
Hypothesis lengths : length placed = length secs.
Hypothesis files : Forall (in_file f) secs.
Hypothesis sizes : sizes_ok secs.
Hypothesis inside : forall j s l, secs !! j = Some s -> is_alloc s = true -> placed !! j = Some l ->
  placed_ok s l /\ section_end l <= size.
Hypothesis apart : forall j k a b sj sk, (j < k)%nat -> secs !! j = Some sj -> secs !! k = Some sk ->
  is_alloc sj = true -> is_alloc sk = true -> placed !! j = Some a -> placed !! k = Some b -> section_end a <= l_offset b.
Hypothesis percpu_ok : 0 <= percpu_offset /\ forall j s, secs !! j = Some s -> is_alloc s = true -> is_percpu s = true ->
  percpu_offset <> 0 /\ sec_size s = percpu_size /\ percpu_offset + sec_size s <= KB_LOCAL_GS_SIZE.

(** The record of section [j] after the first [i] sections were copied. *)
Definition copied_record (i j : nat) (s : kb_elf_section_t) (l : loaded_section) : loaded_section :=
  if is_alloc s && (j <? i)%nat then l <| l_base := image_base + l_offset l |> else l.

Definition copied_bytes (i j : nat) (s : kb_elf_section_t) : list Z :=
  if (j <? i)%nat then contents f s else replicate (Z.to_nat (sec_size s)) 0.

Record copy_inv (i : nat) (image gs : list Z) (sections : list loaded_section) : Prop := {
  ci_image : blen image = size;
  ci_gs : blen gs = KB_LOCAL_GS_SIZE;
  ci_length : length sections = length secs;
  ci_records : forall j s l, secs !! j = Some s -> placed !! j = Some l ->
    sections !! j = Some (copied_record i j s l);
  ci_bytes : forall j s l, secs !! j = Some s -> is_alloc s = true -> placed !! j = Some l ->
    slice image (l_offset l) (l_size l) = copied_bytes i j s;
}.

(** Storing one section's bytes leaves the other sections' bytes alone. *)
Lemma store_section_other i j si sj li lj image q :
  secs !! i = Some si -> secs !! j = Some sj -> is_alloc si = true -> is_alloc sj = true ->
  placed !! i = Some li -> placed !! j = Some lj -> j <> i -> blen q = l_size li -> blen image = size ->
  slice (splice image (l_offset li) q) (l_offset lj) (l_size lj) = slice image (l_offset lj) (l_size lj).
Proof using All.
  intros Hi Hj Hai Haj Hli Hlj Hne Hq Him.
  destruct (inside i si li Hi Hai Hli) as [[? ? ? ? _] ?], (inside j sj lj Hj Haj Hlj) as [[Hsz ? ? ? _] ?].
  pose proof (proj1 (Forall_lookup_1 _ _ _ _ sizes Hj)) as Hpos. unfold section_end in *.
  apply slice_splice_other; [lia|lia|lia|cbv beta in Hpos; lia|].
  destruct (decide (j < i)%nat).
  - left. pose proof (apart j i lj li sj si ltac:(lia) Hj Hi Haj Hai Hlj Hli). unfold section_end in *. lia.
  - right. pose proof (apart i j li lj si sj ltac:(lia) Hi Hj Hai Haj Hli Hlj). unfold section_end in *. lia.
Qed.

(** The part of [copy_one] that writes the image. *)
Lemma copy_one_ok i s l image gs sections :
  copy_inv i image gs sections -> secs !! i = Some s -> is_alloc s = true -> placed !! i = Some l ->
  exists image' gs', copy_one f image_base percpu_offset percpu_size image gs l s =
      Done (image', gs', l <| l_base := image_base + l_offset l |>) /\
    blen image' = size /\ blen gs' = KB_LOCAL_GS_SIZE /\
    slice image' (l_offset l) (l_size l) = contents f s /\
    forall j sj lj, secs !! j = Some sj -> is_alloc sj = true -> placed !! j = Some lj -> j <> i ->
      slice image' (l_offset lj) (l_size lj) = slice image (l_offset lj) (l_size lj).
Proof using All.
  intros Hinv Hi Ha Hl. destruct (inside i s l Hi Ha Hl) as [[Hsz Hfl Hb Ho _] Hend]. unfold section_end in Hend.
  pose proof (Forall_lookup_1 _ _ _ _ files Hi) as Hfile. pose proof (Forall_lookup_1 _ _ _ _ sizes Hi) as [Hpos _].
  pose proof (ci_image _ _ _ _ Hinv) as Him. pose proof (ci_gs _ _ _ _ Hinv) as Hgs.
  pose proof (ci_bytes _ _ _ _ Hinv i s l Hi Ha Hl) as Hzero. unfold copied_bytes in Hzero.
  rewrite (proj2 (Nat.ltb_ge i i)) in Hzero by lia.
  pose proof (blen_contents f s Ha Hpos Hfile) as Hblen. unfold contents in *. rewrite Hsz in *.
  unfold copy_one. rewrite Hsz. destruct (Z.eqb_spec (sec_size s) 0) as [Hz|Hnz].
  { eexists image, gs. split; [done|]. split_and!; try done. rewrite Hzero, Hz. by destruct (_ =? _). }
  assert (exists image', (if negb (sec_type s =? KB_ELF_SHT_NOBITS) then
      if negb (range_fits (file_size f) (sec_offset s) (sec_size s)) then Fail KB_ERR_INVALID
      else store image (l_offset l) (slice (file_data f) (sec_offset s) (sec_size s)) else Done image) = Done image' /\
    blen image' = size /\ slice image' (l_offset l) (sec_size s) = contents f s /\
    forall j sj lj, secs !! j = Some sj -> is_alloc sj = true -> placed !! j = Some lj -> j <> i ->
      slice image' (l_offset lj) (l_size lj) = slice image (l_offset lj) (l_size lj)) as (image' & -> & H1 & H2 & H3).
  { unfold contents. destruct (Z.eqb_spec (sec_type s) KB_ELF_SHT_NOBITS) as [|Hty]; cbn [negb]; [by exists image|].
    set (q := slice (file_data f) (sec_offset s) (sec_size s)) in *. destruct (Hfile Ha Hnz Hty) as [Hso Hse]. destruct file_ok as (Hfs & Hu & _).
    rewrite Hfs, range_fits_intro by (done || lia). cbn [negb]. rewrite store_in by lia.
    eexists. split; [done|]. split; [rewrite blen_splice; lia|]. split.
    - rewrite <- Hblen. apply slice_splice_same; lia.
    - intros j sj lj Hj Haj Hlj Hne. apply (store_section_other i j s sj l lj); try done; by rewrite Hsz. }
  mred. assert (exists gs', (if is_percpu s then
      if (percpu_offset =? 0) || negb (sec_size s =? percpu_size) || (KB_LOCAL_GS_SIZE - percpu_offset <? sec_size s)
      then Fail KB_ERR_INVALID
      else if negb (sec_type s =? KB_ELF_SHT_NOBITS) && negb false
      then store gs percpu_offset (slice (file_data f) (sec_offset s) (sec_size s)) else Done gs
    else Done gs) = Done gs' /\ blen gs' = KB_LOCAL_GS_SIZE) as (gs' & -> & Hgs').
  { destruct (is_percpu s) eqn:Hpc; [|by exists gs]. destruct percpu_ok as [Hp0 Hpc'].
    destruct (Hpc' i s Hi Ha Hpc) as (Hne & Heq & Hle).
    rewrite (proj2 (Z.eqb_neq percpu_offset 0)), Heq, Z.eqb_refl by done.
    rewrite (proj2 (Z.ltb_ge (KB_LOCAL_GS_SIZE - percpu_offset) percpu_size)) by lia. cbn [negb orb].
    rewrite <- Heq. destruct (Z.eqb_spec (sec_type s) KB_ELF_SHT_NOBITS); cbn [negb andb]; [by exists gs|].
    assert (blen (slice (file_data f) (sec_offset s) (sec_size s)) = sec_size s) as Hq by done.
    rewrite store_in by lia. eexists. split; [done|]. rewrite blen_splice; lia. }
  mred. exists image', gs'. split; [done|]. split_and!; done.
Qed.

Lemma copied_record_step i j s l : j <> i -> copied_record (S i) j s l = copied_record i j s l.
Proof using All.
  intros Hne. unfold copied_record.
  by destruct (is_alloc s), (Nat.ltb_spec j (S i)), (Nat.ltb_spec j i); cbn; (done || lia).
Qed.

Lemma copied_bytes_step i j s : j <> i -> copied_bytes (S i) j s = copied_bytes i j s.
Proof using All.
  intros Hne. unfold copied_bytes. destruct (Nat.ltb_spec j (S i)), (Nat.ltb_spec j i); (done || lia).
Qed.

(** A section that is not loaded leaves the invariant as it is. *)
Lemma copy_inv_skip i s image gs sections :
  copy_inv i image gs sections -> secs !! i = Some s -> is_alloc s = false -> copy_inv (S i) image gs sections.
Proof using All.
  intros [H1 H2 H3 H4 H5] Hi Ha. constructor; try done.
  - intros j sj l Hj Hl. rewrite (H4 j sj l Hj Hl). f_equal. destruct (decide (j = i)) as [->|].
    + rewrite Hi in Hj. injection Hj as <-. unfold copied_record. by rewrite Ha.
    + by rewrite copied_record_step.
  - intros j sj l Hj Haj Hl. rewrite (H5 j sj l Hj Haj Hl). destruct (decide (j = i)) as [->|]; [congruence|].
    by rewrite copied_bytes_step.
Qed.

(** A copied section moves it forward. *)
Lemma copy_inv_step i s l image gs sections image' gs' :
  copy_inv i image gs sections -> secs !! i = Some s -> is_alloc s = true -> placed !! i = Some l ->
  blen image' = size -> blen gs' = KB_LOCAL_GS_SIZE -> slice image' (l_offset l) (l_size l) = contents f s ->
  (forall j sj lj, secs !! j = Some sj -> is_alloc sj = true -> placed !! j = Some lj -> j <> i ->
     slice image' (l_offset lj) (l_size lj) = slice image (l_offset lj) (l_size lj)) ->
  copy_inv (S i) image' gs' (<[i := l <| l_base := image_base + l_offset l |>]> sections).
Proof using All.
  intros [H1 H2 H3 H4 H5] Hi Ha Hl Him Hgs Hown Hother. pose proof (lookup_lt_Some _ _ _ Hi) as Hlt. constructor; try done.
  - by rewrite length_insert.
  - intros j sj lj Hj Hlj. destruct (decide (j = i)) as [->|Hne].
    + rewrite list_lookup_insert_eq by lia. rewrite Hi in Hj. injection Hj as <-. rewrite Hl in Hlj. injection Hlj as <-.
      unfold copied_record. by rewrite Ha, (proj2 (Nat.ltb_lt i (S i))) by lia.
    + rewrite list_lookup_insert_ne, copied_record_step by done. by apply H4.
  - intros j sj lj Hj Haj Hlj. destruct (decide (j = i)) as [->|Hne].
    + rewrite Hi in Hj. injection Hj as <-. rewrite Hl in Hlj. injection Hlj as <-.
      unfold copied_bytes. by rewrite (proj2 (Nat.ltb_lt i (S i))) by lia.
    + rewrite (Hother j sj lj Hj Haj Hlj Hne), copied_bytes_step by done. by apply H5.
Qed.

Lemma copy_loop_ok rest i image gs sections :
  copy_inv i image gs sections -> drop i secs = rest ->
  exists image' gs' sections',
    copy_loop (length rest) f image_base percpu_offset percpu_size image gs sections i = Done (image', gs', sections') /\
    copy_inv (i + length rest) image' gs' sections'.
Proof using All.
  revert i image gs sections. induction rest as [|s rest IH]; intros i image gs sections Hinv Hdrop.
  { exists image, gs, sections. cbn. by rewrite Nat.add_0_r. }
  assert (secs !! i = Some s) as Hi.
  { rewrite <- (Nat.add_0_r i). rewrite <- lookup_drop. by rewrite Hdrop. }
  assert (drop (S i) secs = rest) as Hrest.
  { replace (S i) with (i + 1)%nat by lia. by rewrite <- drop_drop, Hdrop. }
  cbn [length copy_loop]. rewrite (proj2 secs_ok i s Hi). mred. rewrite Nat.add_succ_r.
  destruct (is_alloc s) eqn:Ha; cbn [negb].
  2:{ apply (IH (S i)); [|done]. by apply (copy_inv_skip i s). }
  destruct (lookup_lt_is_Some_2 placed i) as [l Hl]; [rewrite lengths; by apply lookup_lt_Some in Hi|].
  assert (nth i sections zero_section = l) as ->.
  { rewrite nth_lookup, (ci_records _ _ _ _ Hinv i s l Hi Hl). cbn. unfold copied_record.
    by rewrite (proj2 (Nat.ltb_ge i i)), andb_false_r by lia. }
  destruct (copy_one_ok i s l image gs sections Hinv Hi Ha Hl) as (image' & gs' & -> & H1 & H2 & H3 & H4).
  mred. apply (IH (S i)); [|done]. by apply (copy_inv_step i s l image gs sections).
Qed.
End copying.

Lemma slice_zeros n o k : 0 <= o -> 0 <= k -> o + k <= n -> slice (replicate (Z.to_nat n) 0) o k = replicate (Z.to_nat k) 0.
Proof.
  intros Ho Hk H. unfold slice. rewrite drop_replicate, take_replicate. f_equal. lia.
Qed.

(** Before the first section is copied the image is zero. *)
Lemma copy_inv_init page f secs base st size gs :
  layout_inv page secs (length secs) st -> sizes_ok secs -> pl_image_size st <= size -> blen gs = KB_LOCAL_GS_SIZE ->
  copy_inv f secs (pl_sections st) base size 0 (replicate (Z.to_nat size) 0) gs (pl_sections st).
Proof.
  intros Hinv Hok Hle Hgs. pose proof (li_size _ _ _ _ Hinv). constructor.
  - unfold blen. rewrite length_replicate. lia.
  - done.
  - exact (li_length _ _ _ _ Hinv).
  - intros j s l Hj Hl. rewrite Hl. unfold copied_record. by rewrite andb_false_r.
  - intros j s l Hj Ha Hl. unfold copied_bytes. cbn.
    destruct (li_placed _ _ _ _ Hinv j s (lookup_lt_Some _ _ _ Hj) Hj Ha) as (l' & Hl' & [Hsz _ _ Ho _] & Hend & _).
    rewrite Hl in Hl'. injection Hl' as <-. pose proof (Forall_lookup_1 _ _ _ _ Hok Hj) as [Hpos _].
    unfold section_end in Hend. rewrite slice_zeros by lia. by rewrite Hsz.
Qed.

(** What the loader needs of a file: sizes that add up below 2^64 with the shim
    region, and section contents inside the file. *)
Record loadable (page : Z) (f : kb_elf_file) (secs : list kb_elf_section_t) : Prop := {
  lo_file : file_coherent f;
  lo_secs : sections_of f secs;
  lo_sizes : sizes_ok secs;
  lo_alignments : alignments_ok secs;
  lo_files : Forall (in_file f) secs;
  lo_room : room page secs + page + KB_LOCAL_SHIM_REGION_SIZE <= UINT64_MAX;
}.

(** The invariants of both passes at the end of loading. *)
Lemma load_image_inv page p f secs percpu_next st base gs :
  page = 2 ^ p -> 0 <= p -> loadable page f secs -> 0 < percpu_next <= KB_LOCAL_GS_SIZE ->
  blen gs = KB_LOCAL_GS_SIZE -> base <> 0 ->
  place_sections page f percpu_next = (st, Done tt) -> pl_image_size st <> 0 ->
  layout_inv page secs (length secs) st /\ pl_image_size st <= align_up_u64 (pl_image_size st) page /\
  exists image gs' sections, load_image page f percpu_next base gs = (st, Done (image, gs', sections)) /\
    copy_inv f secs (pl_sections st) base (align_up_u64 (pl_image_size st) page) (length secs) image gs' sections.
Proof.
  intros Hpage Hp [Hf Hsecs Hok Hal Hfiles Hm] Hn Hgs Hbase H Hnz. pose proof (page_pos page p Hpage Hp) as Hpos.
  assert (0 < KB_LOCAL_SHIM_REGION_SIZE) as Hreg by reflexivity.
  destruct (place_sections_inv page p f secs percpu_next st Hpage Hp Hsecs Hok ltac:(lia) H) as [Hinv Hle].
  pose proof (align_up_bounds (pl_image_size st) page (li_size _ _ _ _ Hinv) Hpos ltac:(lia)) as Halign.
  destruct (place_sections_percpu page f secs percpu_next st Hsecs Hok Hal Hn H) as (_ & Hp0 & _ & Hpc).
  unfold load_image. rewrite H. cbv beta iota zeta. rewrite (proj2 (Z.eqb_neq _ 0) Hnz), (proj2 (Z.eqb_neq base 0) Hbase).
  pose proof (li_size _ _ _ _ Hinv) as H0. set (size := align_up_u64 (pl_image_size st) page) in *.
  rewrite (u64_small (size + _)) by (unfold is_u64, UINT64_MAX in *; lia). rewrite Z.min_l by lia.
  split; [done|]. split; [lia|].
  edestruct (copy_loop_ok f secs (pl_sections st) base (pl_percpu_offset st) (pl_percpu_size st) size)
    with (rest := secs) (i := 0%nat) as (image & gs' & sections & Hloop & Hc); try done.
  - exact (li_length _ _ _ _ Hinv).
  - intros j s l Hj Ha Hl. destruct (li_placed _ _ _ _ Hinv j s (lookup_lt_Some _ _ _ Hj) Hj Ha) as (l' & Hl' & Hpl & Hend & _).
    rewrite Hl in Hl'. injection Hl' as <-. split; [done|lia].
  - intros j k a b sj sk Hjk Hj Hk Haj Hak Hla Hlb.
    apply (li_order _ _ _ _ Hinv j k a b sj sk); try done. split; [done|by apply lookup_lt_Some in Hk].
  - split; [lia|]. intros j s Hj. by apply (Hpc j s (lookup_lt_Some _ _ _ Hj)).
  - apply (copy_inv_init page); try done. lia.
  - rewrite (proj1 Hsecs) in Hloop. rewrite Hloop. by exists image, gs', sections.
Qed.

(** The final record of a section. *)
Lemma loaded_record page f secs st base size image gs sections j s :
  layout_inv page secs (length secs) st ->
  copy_inv f secs (pl_sections st) base size (length secs) image gs sections ->
  secs !! j = Some s ->
  exists l, pl_sections st !! j = Some l /\ sections !! j = Some (if is_alloc s then l <| l_base := base + l_offset l |> else l) /\
    (if is_alloc s then placed_ok s l /\ section_end l <= pl_image_size st else l = zero_section).
Proof.
  intros Hinv Hc Hj. pose proof (lookup_lt_Some _ _ _ Hj) as Hlt.
  destruct (is_alloc s) eqn:Ha.
  - destruct (li_placed _ _ _ _ Hinv j s Hlt Hj Ha) as (l & Hl & Hok & Hend & _). exists l. split; [done|].
    rewrite (ci_records _ _ _ _ _ _ _ _ _ Hc j s l Hj Hl). unfold copied_record. rewrite Ha, (proj2 (Nat.ltb_lt _ _) Hlt).
    done.
  - pose proof (li_rest _ _ _ _ Hinv j s Hj ltac:(by right)) as Hl. exists zero_section. split; [done|].
    rewrite (ci_records _ _ _ _ _ _ _ _ _ Hc j s _ Hj Hl). unfold copied_record. by rewrite Ha.
Qed.

(** C4: When the first pass succeeds, loading succeeds, and every allocated
    section's record has the address [image_base + offset] and the section's
    size, and the image holds there the section's bytes of the file (zeros for
    SHT_NOBITS): copying a later section never damages an earlier one, and no
    copy leaves the image or the per-CPU area. *)
Theorem load_image_copies_sections page p f secs percpu_next st base gs :
  page = 2 ^ p -> 0 <= p -> loadable page f secs -> 0 < percpu_next <= KB_LOCAL_GS_SIZE ->
  blen gs = KB_LOCAL_GS_SIZE -> base <> 0 ->
  place_sections page f percpu_next = (st, Done tt) -> pl_image_size st <> 0 ->
  exists image gs' sections, load_image page f percpu_next base gs = (st, Done (image, gs', sections)) /\
    blen image = align_up_u64 (pl_image_size st) page /\
    forall j s, secs !! j = Some s -> is_alloc s = true ->
      exists l, sections !! j = Some l /\ l_base l = base + l_offset l /\ l_size l = sec_size s /\
        l_flags l = sec_flags s /\ slice image (l_offset l) (l_size l) = contents f s.
Proof.
  intros Hpage Hp Hload Hn Hgs Hbase H Hnz.
  destruct (load_image_inv page p f secs percpu_next st base gs Hpage Hp Hload Hn Hgs Hbase H Hnz)
    as (Hinv & _ & image & gs' & sections & Hl & Hc).
  exists image, gs', sections. split; [done|]. split; [exact (ci_image _ _ _ _ _ _ _ _ _ Hc)|]. intros j s Hj Ha.
  destruct (loaded_record _ _ _ _ _ _ _ _ _ j s Hinv Hc Hj) as (l & Hpl & Hr & Hok). rewrite Ha in *.
  destruct Hok as [[Hsz Hfl _ _ _] _]. pose proof (ci_bytes _ _ _ _ _ _ _ _ _ Hc j s l Hj Ha Hpl) as Hb.
  unfold copied_bytes in Hb. rewrite (proj2 (Nat.ltb_lt _ _) (lookup_lt_Some _ _ _ Hj)) in Hb.
  eexists. split; [exact Hr|]. by split_and!.
Qed.

(** ** The demo module *)

Lemma demo_sections_of : sections_of demo_file demo_sections.
Proof.
  split; [vm_compute; reflexivity|]. intros i s H.
  do 8 (destruct i as [|i]; [vm_compute in H; injection H as <-; vm_compute; reflexivity|]). discriminate.
Qed.

Lemma demo_loadable : loadable 4096 demo_file demo_sections.
Proof.
  constructor.
  - split_and!; [vm_compute; reflexivity|unfold is_u64; vm_compute; by split|vm_compute; repeat constructor; discriminate].
  - exact demo_sections_of.
  - repeat constructor; vm_compute; (done || discriminate).
  - repeat constructor; vm_compute; discriminate.
  - repeat (apply Forall_cons_2; [intros _ _ _; vm_compute; (split; discriminate) |]). apply Forall_nil_2.
  - vm_compute. discriminate.
Qed.

Lemma demo_sizes : sizes_ok demo_sections.
Proof. exact (lo_sizes _ _ _ demo_loadable). Qed.

Definition demo_placement : placement := Eval vm_compute in fst (place_sections 4096 demo_file 64).

Lemma demo_placed : place_sections 4096 demo_file 64 = (demo_placement, Done tt).
Proof. vm_compute. reflexivity. Qed.

Lemma section_layout_disjoint_witness :
  exists a b, pl_sections demo_placement !! 2%nat = Some a /\ pl_sections demo_placement !! 5%nat = Some b /\
    l_offset b = 4128 /\ section_end a <= l_offset b.
Proof.
  exists (mk_loaded_section 0 32 0 16 6), (mk_loaded_section 0 64 4128 32 3). split_and!; [reflexivity..|].
  apply (proj2 (section_layout_disjoint 4096 12 demo_file demo_sections 64 demo_placement eq_refl
    ltac:(lia) demo_sections_of demo_sizes ltac:(vm_compute; discriminate) demo_placed) 2%nat 5%nat _ _
    (nth 2 demo_sections sample_null) (nth 5 demo_sections sample_null)); (reflexivity || lia).
Defined.

Lemma protections_share_no_page_witness :
  touches_page 4096 (mk_loaded_section 0 8 4096 8 3) 1 /\ touches_page 4096 (mk_loaded_section 0 64 4128 32 3) 1 /\
  section_protection 3 = section_protection 3.
Proof.
  assert (touches_page 4096 (mk_loaded_section 0 8 4096 8 3) 1) as H1 by (exists 4096; vm_compute; intuition discriminate).
  assert (touches_page 4096 (mk_loaded_section 0 64 4128 32 3) 1) as H2 by (exists 4128; vm_compute; intuition discriminate).
  split_and!; [done|done|].
  exact (protections_share_no_page 4096 12 demo_file demo_sections 64 demo_placement eq_refl
    ltac:(lia) demo_sections_of demo_sizes ltac:(vm_compute; discriminate) demo_placed 3%nat 5%nat
    (mk_loaded_section 0 8 4096 8 3) (mk_loaded_section 0 64 4128 32 3)
    (nth 3 demo_sections sample_null) (nth 5 demo_sections sample_null) 1 eq_refl eq_refl eq_refl eq_refl eq_refl eq_refl H1 H2).
Defined.

Definition zero_gs : list Z := replicate (Z.to_nat KB_LOCAL_GS_SIZE) 0.
Lemma blen_zero_gs : blen zero_gs = KB_LOCAL_GS_SIZE.
Proof. unfold blen, zero_gs. rewrite length_replicate. apply Z2Nat.id. discriminate. Qed.

Lemma load_image_copies_sections_witness :
  exists image gs sections l, load_image 4096 demo_file 64 0x7f0000000000 zero_gs =
      (demo_placement, Done (image, gs, sections)) /\
    sections !! 3%nat = Some l /\ slice image (l_offset l) (l_size l) = demo_data.
Proof.
  destruct (load_image_copies_sections 4096 12 demo_file demo_sections 64 demo_placement 0x7f0000000000
    zero_gs eq_refl ltac:(lia) demo_loadable ltac:(vm_compute; split; congruence) blen_zero_gs ltac:(discriminate) demo_placed ltac:(discriminate))
    as (image & gs & sections & H & _ & Hs).
  destruct (Hs 3%nat (nth 3 demo_sections sample_null) eq_refl eq_refl) as (l & Hl & _ & _ & _ & Hb).
  exists image, gs, sections, l. split_and!; [exact H|exact Hl|]. rewrite Hb. vm_compute. reflexivity.
Defined.

(** ** Sizes that wrap around *)

(** The first pass accepts [wrap_file] although its second section starts 16
    bytes below 2^64, and the copy of that section starts 16 bytes below the
    image: no check of [load_sections] notices the wrapped sum. *)
Theorem wrapped_size_leaves_image base gs n :
  base <> 0 ->
  (exists st, place_sections 4096 wrap_file n = (st, Done tt) /\ pl_image_size st = 16) /\
  snd (load_image 4096 wrap_file n base gs) = Fault.
Proof.
  intros Hb. assert (exists sections, place_sections 4096 wrap_file n =
    (mk_placement 16 1 sections 0 0 n, Done tt) /\ sections = pl_sections (fst (place_sections 4096 wrap_file 1))) as (sections & H & Hs).
  { eexists. split; [vm_compute; reflexivity|]. vm_compute. reflexivity. }
  split; [exists (mk_placement 16 1 sections 0 0 n); split; [exact H|reflexivity]|]. unfold load_image. rewrite H. cbv beta iota zeta.
  rewrite (proj2 (Z.eqb_neq base 0) Hb). rewrite Hs. vm_compute. reflexivity.
Qed.
