(* ===== verification/ShimLookup.v ===== *)
(** * Resolving kernel symbols for a module (src/src/loader/module_loader.c)

    A symbol a module does not define is looked up among the data the loader
    keeps for the module in its shim region, the per-CPU area, the call stubs of
    the shim table (ShimTable.v) and finally the shim functions themselves.  A
    few symbols a module does define are redirected to shims as well.

    [loader_env] has what the code reads from outside: the providers' tables,
    addresses of functions and objects of the loader and of the personality,
    and environment variables.  [loader_state] has what it changes: the shim
    table (filled on first use), the module, and the addresses passed to
    [kb_register_jiffies_storage], newest first.  Address 0 is NULL. *)

From S2P Require Import Prelude Bytes ElfReader SymbolRegistry ShimTable ModuleLayout.

Record loader_env := mk_loader_env {
  le_providers : list (option (list kb_linux_symbol));
  le_kvm_symbols : list (list Z * Z);       (* kb_linux_kvm_symbols: names and addresses *)
  le_trampoline : Z;                        (* kb_shim_external_call_trampoline *)
  le_return_zero : Z;                       (* &kb_return_zero *)
  le_blockdev_superblock : Z;               (* kb_module_shared_blockdev_superblock() *)
  le_tasklist_lock : Z;                     (* shared_tasklist_lock() *)
  le_current_task : Z;                      (* shared_current_task() *)
  le_dma_ops : Z;                           (* the pointer at kb_linux_dma_ops_symbol() *)
  le_backend : option (list Z);             (* getenv("KOBOX_DEVICE_BACKEND") *)
  le_mock_nvidia : bool;                    (* KOBOX_MOCK_NVIDIA_PROBE_COUNT is set *)
  le_names : Z;                             (* where the file's symbol names are in memory *)
  le_loaded : loaded_modules;               (* kb_loaded_modules *)
}.

Record loader_state := mk_loader_state {
  ls_shims : shim_state;
  ls_module : kb_module;
  ls_jiffies : list Z;
}.
#[export] Instance loader_state_eta : Settable loader_state := fun r =>
  mk_loader_state (ls_shims r) (ls_module r) (ls_jiffies r).

(** ** Where the loader keeps kernel data *)

Definition KB_LOCAL_SHIM_DATA_OFFSET : Z := KB_LOCAL_SHIM_STUB_SIZE * KB_LOCAL_SHIM_STUB_COUNT.
Definition KB_LOCAL_USB_DATA_OFFSET : Z := KB_LOCAL_SHIM_DATA_OFFSET + 11264.
Definition KB_LOCAL_USB_CONTROL_MSG_STUB_OFFSET : Z := KB_LOCAL_USB_DATA_OFFSET + 1024.
Definition KB_LOCAL_DMA_OPS_PTR_OFFSET : Z := KB_LOCAL_SHIM_DATA_OFFSET + 7192.
Definition KB_LOCAL_JIFFIES_OFFSET : Z := KB_LOCAL_SHIM_DATA_OFFSET + 4096.
Definition KB_LOCAL_GS_PCPU_HOT_OFFSET : Z := 0x100.
Definition KB_LOCAL_GS_STACK_CHK_GUARD_OFFSET : Z := 0x180.
Definition KB_LOCAL_GS_PREEMPT_COUNT_OFFSET : Z := 0x188.
Definition KB_LOCAL_GS_CPU_NUMBER_OFFSET : Z := 0x190.
Definition KB_LOCAL_GS_NUMA_NODE_OFFSET : Z := 0x198.
Definition KB_LOCAL_GS_CPU_INFO_OFFSET : Z := 0x200.

(** An offset from the shim region or in the per-CPU area. *)
Inductive shim_place := InRegion (offset : Z) | InData (offset : Z) | InGs (offset : Z).

Definition place_address (m : kb_module) (p : shim_place) : Z :=
  match p with
  | InRegion offset => m_shim_region m + offset
  | InData offset => m_shim_region m + KB_LOCAL_SHIM_DATA_OFFSET + offset
  | InGs offset => offset
  end.

Definition find_place (name : list Z) (table : list (list Z * shim_place)) : option shim_place :=
  snd <$> (snd <$> list_find (fun p => p.1 = name) table).

(** The names tested before the KVM and stub lookups. *)
Definition early_places : list (list Z * shim_place) :=
  [(cstr "__num_online_cpus", InRegion (KB_LOCAL_USB_DATA_OFFSET + 0));
   (cstr "pcpu_hot", InGs KB_LOCAL_GS_PCPU_HOT_OFFSET);
   (cstr "const_current_task", InGs KB_LOCAL_GS_PCPU_HOT_OFFSET);
   (cstr "__ref_stack_chk_guard", InGs KB_LOCAL_GS_STACK_CHK_GUARD_OFFSET);
   (cstr "__preempt_count", InGs KB_LOCAL_GS_PREEMPT_COUNT_OFFSET);
   (cstr "cpu_number", InGs KB_LOCAL_GS_CPU_NUMBER_OFFSET);
   (cstr "numa_node", InGs KB_LOCAL_GS_NUMA_NODE_OFFSET);
   (cstr "cpu_info", InGs KB_LOCAL_GS_CPU_INFO_OFFSET);
   (cstr "page_offset_base", InData 7168);
   (cstr "vmemmap_base", InData 7176);
   (cstr "phys_base", InData 7184)].

(** The names tested between the KVM and the stub lookup. *)
Definition usb_places : list (list Z * shim_place) :=
  [(cstr "pm_suspend_target_state", InRegion (KB_LOCAL_USB_DATA_OFFSET + 320));
   (cstr "usb_hcd_pci_pm_ops", InRegion (KB_LOCAL_USB_DATA_OFFSET + 384));
   (cstr "__tracepoint_xhci_dbg_init", InRegion (KB_LOCAL_USB_DATA_OFFSET + 704));
   (cstr "__tracepoint_xhci_dbg_quirks", InRegion (KB_LOCAL_USB_DATA_OFFSET + 704))].

(** The data tested after the stubs; the [module->shim_...] pointers have the
    offsets [load_sections] gives them. *)
Definition late_places : list (list Z * shim_place) :=
  [(cstr "kmalloc_caches", InData 0);
   (cstr "random_kmalloc_seed", InData 2048);
   (cstr "param_ops_int", InData 3072);
   (cstr "param_ops_uint", InData 3136);
   (cstr "param_ops_bool", InData 3200);
   (cstr "param_ops_bint", InData 3200);
   (cstr "param_ops_byte", InData 3264);
   (cstr "param_ops_ulong", InData 3328);
   (cstr "param_ops_charp", InData 3328);
   (cstr "param_array_ops", InData 3328);
   (cstr "__cpu_possible_mask", InData 3392);
   (cstr "cpu_possible_mask", InData 3424);
   (cstr "__cpu_online_mask", InData 3408);
   (cstr "cpu_online_mask", InData 3432);
   (cstr "nr_cpu_ids", InData 3440);
   (cstr "percpu_counter_batch", InData 3448);
   (cstr "const_pcpu_hot", InGs KB_LOCAL_GS_PCPU_HOT_OFFSET);
   (cstr "this_cpu_off", InData 3456);
   (cstr "__per_cpu_offset", InData 3568);
   (cstr "pernet_ops_rwsem", InData 3472);
   (cstr "panic_notifier_list", InData 3520);
   (cstr "pv_ops", InData 3840);
   (cstr "pv_irq_ops", InData 3840);
   (cstr "pv_lock_ops", InData 3840);
   (cstr "node_data", InData 6144);
   (cstr "node_states", InData 6400);
   (cstr "boot_cpu_data", InData 6656)].

(** The names that share [shim_misc_data]. *)
Definition misc_names : list (list Z) :=
  map cstr
    ["__default_kernel_pte_mask"; "_ctype"; "acpi_gbl_FADT"; "cpu_bit_bitmap"; "debug_locks_silent";
     "devmap_managed_key"; "dotdot_name"; "efi"; "hugetlb_optimize_vmemmap_key"; "iomem_resource";
     "ioport_resource"; "init_uts_ns"; "hv_vp_assist_page"; "fs_overflowgid"; "fs_overflowuid"; "fs_bio_set";
     "fs_holder_ops"; "gdt_page"; "__tss_limit_invalid"; "fs_kobj"; "latent_entropy"; "l1tf_mitigation";
     "kfree_link"; "kmalloc_caches"; "ms_hyperv"; "nop_posix_acl_access"; "nop_posix_acl_default";
     "nop_mnt_idmap"; "oops_in_progress"; "dquot_quotactl_sysfile_ops"; "pci_bus_type"; "pci_power_names";
     "pm_wq"; "preempt_model_full"; "power_group_name"; "screen_info"; "sme_me_mask"; "system_freezable_wq";
     "system_long_wq"; "system_percpu_wq"; "system_state"; "system_unbound_wq"; "system_power_efficient_wq";
     "system_wq"; "param_ops_string"; "param_ops_ushort"; "param_ops_ullong"; "usb_debug_root"; "uuid_null";
     "pm_suspend_global_flags"; "freezer_active"; "x86_cpu_to_apicid"; "x2apic_mode"; "x86_verw_sel";
     "x86_virt_spec_ctrl"; "__x86_call_depth"; "irq_stat"; "x86_spec_ctrl_current"; "sched_smt_present"]%string.

(** The names [bind_named_shim_stubs] binds, in its order. *)
Definition named_stub_names : list (list Z) :=
  map cstr
    ["_printk"; "kfree"; "kmalloc"; "kzalloc"; "kmalloc_trace"; "request_threaded_irq"; "free_irq";
     "dma_alloc_attrs"; "dma_free_attrs"; "__stack_chk_fail"; "__pci_register_driver"; "pci_unregister_driver";
     "pci_enable_device"; "pci_disable_device"; "pci_set_master"; "pci_iomap"; "pci_iounmap"; "ioread32";
     "iowrite32"]%string.

Section lookup.
Context (env : loader_env).

(** The address of the module's stub for a shim, 0 when there is none. *)
Definition stub_address (m : kb_module) (shims : shim_state) (name : list Z) : shim_state * Z :=
  match module_shim_stub_by_name (le_providers env) shims (Some (m_stubs m)) (Some name) with
  | (shims, Some offset) => (shims, m_shim_region m + offset)
  | (shims, None) => (shims, 0)
  end.

Fixpoint bind_names (m : kb_module) (shims : shim_state) (names : list (list Z)) : shim_state * list (list Z * Z) :=
  match names with
  | [] => (shims, [])
  | name :: names =>
      let '(shims, address) := stub_address m shims name in
      let '(shims, bound) := bind_names m shims names in
      (shims, (name, address) :: bound)
  end.

Definition bind_named_shim_stubs (s : loader_state) : loader_state * kb_status :=
  let '(shims, bound) := bind_names (ls_module s) (ls_shims s) named_stub_names in
  (s <| ls_shims := shims |> <| ls_module ::= (fun m => m <| m_named_stubs := bound |>) |>,
   if existsb (fun p => p.2 =? 0) bound then KB_ERR_INVALID else KB_OK).

Definition lookup_shim_symbol (s : loader_state) (name : list Z) : loader_state * Z :=
  let '(shims, address) := shim_symbol_find_address (le_providers env) (ls_shims s) (Some name) in
  (s <| ls_shims := shims |>, address).

(** [strstr(haystack, needle) != NULL] *)
Fixpoint contains (needle haystack : list Z) : bool :=
  bool_decide (take (length needle) haystack = needle) ||
  match haystack with [] => false | _ :: haystack => contains needle haystack end.

Definition module_prefers_kvm_symbols (module : option kb_module) : bool :=
  match module with
  | None => false
  | Some m =>
      match m_name m with
      | None => false
      | Some name =>
          existsb (fun needle => contains needle name)
            (map cstr ["kvm.ko"; "kvm-amd.ko"; "kvm-intel.ko"; "/kvm/"]%string ++
             [[92] ++ cstr "kvm" ++ [92]])              (* between backslashes *)
      end
  end.

Definition kvm_provider_names : list (list Z) :=
  map cstr ["anon_inode_getfd"; "anon_inode_getfile"; "anon_inode_getfile_fmode"; "fd_install";
            "get_unused_fd_flags"; "put_unused_fd"]%string.

Definition lookup_kvm_provider_symbol (name : list Z) : Z :=
  if negb (bool_decide (name ∈ kvm_provider_names)) then 0
  else match list_find (fun p => p.1 = name) (le_kvm_symbols env) with
       | Some (_, p) => p.2
       | None => 0
       end.

(** The stub whose shim has both the name and the provider's address. *)
Fixpoint kvm_stub_loop (fuel : nat) (shims : shim_state) (name : list Z) (provider_symbol i : Z)
    : outcome (option Z) :=
  match fuel with
  | O => Done None
  | S fuel =>
      match (shim_symbol_table_at (le_providers env) shims i).2 with
      | None => kvm_stub_loop fuel shims name provider_symbol (i + 1)
      | Some symbol =>
          match ls_name symbol with
          | None => Fault                                   (* strcmp on NULL *)
          | Some found =>
              if bool_decide (found = name) && (ls_address symbol =? provider_symbol) then Done (Some i)
              else kvm_stub_loop fuel shims name provider_symbol (i + 1)
          end
      end
  end.

Definition module_kvm_provider_stub_by_name (s : loader_state) (name : list Z) : outcome (loader_state * Z) :=
  match ms_stubs (m_stubs (ls_module s)) with
  | None => Done (s, 0)
  | Some _ =>
      let provider_symbol := lookup_kvm_provider_symbol name in
      if provider_symbol =? 0 then Done (s, 0)
      else
        let '(shims, symbol_count) := shim_symbol_table_count (le_providers env) (ls_shims s) in
        found ← kvm_stub_loop (Z.to_nat symbol_count) shims name provider_symbol 0;
        mret (s <| ls_shims := shims |>,
              match found with Some i => m_shim_region (ls_module s) + i * KB_LOCAL_SHIM_STUB_SIZE | None => 0 end)
  end.

(** ["dma_ops"]: the module's copy of the pointer. *)
Definition dma_ops_storage (s : loader_state) : outcome (loader_state * Z) :=
  data ← store (m_shim_data (ls_module s)) (KB_LOCAL_DMA_OPS_PTR_OFFSET - KB_LOCAL_SHIM_DATA_OFFSET)
           (write_u64le (le_dma_ops env));
  mret (s <| ls_module ::= (fun m => m <| m_shim_data := data |>) |>,
        m_shim_region (ls_module s) + KB_LOCAL_DMA_OPS_PTR_OFFSET).

(** After the tables of data: the stubs by name, then what is left. *)
Definition lookup_after_stubs (s : loader_state) (name : list Z) : outcome (loader_state * Z) :=
  let m := ls_module s in
  let named := if bool_decide (name = cstr "printk") then cstr "_printk" else name in
  match list_find (fun p => p.1 = named) (m_named_stubs m) with
  | Some (_, p) => Done (s, p.2)
  | None =>
      match find_place name late_places with
      | Some p => Done (s, place_address m p)
      | None =>
          if bool_decide (name ∈ misc_names) then Done (s, place_address m (InData 3584))
          else if bool_decide (name = cstr "jiffies") then
            let storage := m_shim_region m + KB_LOCAL_JIFFIES_OFFSET in
            Done (s <| ls_jiffies ::= cons storage |>, storage)
          else Done (lookup_shim_symbol s name)
      end
  end.

Definition lookup_module_shim_symbol (s : loader_state) (name : list Z) : outcome (loader_state * Z) :=
  let m := ls_module s in
  if bool_decide (name = cstr "blockdev_superblock") then Done (s, le_blockdev_superblock env)
  else if bool_decide (name = cstr "tasklist_lock") then Done (s, le_tasklist_lock env)
  else match find_place name early_places with
  | Some p => Done (s, place_address m p)
  | None =>
      if bool_decide (name = cstr "init_task") then Done (s, le_current_task env)
      else if bool_decide (name = cstr "init_user_ns") then Done (s, place_address m (InData 7200))
      else if bool_decide (name = cstr "dma_ops") then dma_ops_storage s
      else
        '(s, kvm_stub) ← (if module_prefers_kvm_symbols (Some m) then module_kvm_provider_stub_by_name s name
                          else Done (s, 0));
        if negb (kvm_stub =? 0) then Done (s, kvm_stub)
        else match find_place name usb_places with
        | Some p => Done (s, place_address m p)
        | None =>
            let '(shims, symbol_stub) := stub_address m (ls_shims s) name in
            let s := s <| ls_shims := shims |> in
            if negb (symbol_stub =? 0) then Done (s, symbol_stub) else lookup_after_stubs s name
        end
  end.

(** ** Symbols a module defines but the loader replaces *)

Definition return_zero_names : list (list Z) :=
  map cstr ["_nv037805rm"; "nv_kthread_q_stop"; "os_flush_cpu_cache"; "os_flush_cpu_cache_all";
            "usb_enable_lpm"; "usb_disable_lpm"; "usb_unlocked_enable_lpm"; "usb_unlocked_disable_lpm";
            "usb_device_supports_lpm"; "usb_enable_usb2_hardware_lpm"; "usb_disable_usb2_hardware_lpm"]%string.

Definition same_name_overrides : list (list Z) :=
  map cstr ["kvm_configure_mmu"; "kvm_mmu_set_me_spte_mask"; "kvm_mmu_set_mmio_spte_mask"]%string.

(** The names redirected to a shim of another name. *)
Definition renamed_overrides : list (list Z * list Z) :=
  map (fun p => (cstr p.1, cstr p.2))
    [("__SCT__kvm_x86_vcpu_precreate", "__static_call_return0");
     ("__SCT__kvm_x86_vcpu_pre_run", "__static_call_return1");
     ("__SCT__kvm_x86_vcpu_run", "__kobox_kvm_vcpu_run_exit");
     ("__SCT__kvm_x86_is_valid_cr0", "__static_call_return1");
     ("__SCT__kvm_x86_is_valid_cr4", "__static_call_return1");
     ("kvm_lapic_hv_timer_in_use", "__static_call_return0");
     ("__kvm_vcpu_update_apicv", "rep_stos_alternative");
     ("__ext4_fc_track_create", "rep_stos_alternative");
     ("__ext4_fc_track_link", "rep_stos_alternative");
     ("__ext4_fc_track_unlink", "rep_stos_alternative");
     ("ext4_fc_track_create", "rep_stos_alternative");
     ("ext4_fc_track_link", "rep_stos_alternative");
     ("ext4_fc_track_unlink", "rep_stos_alternative");
     ("ext4_fc_track_inode", "rep_stos_alternative");
     ("ext4_fc_track_range", "rep_stos_alternative")]%string.

Definition lookup_internal_symbol_override (s : loader_state) (name : list Z) : outcome (loader_state * Z) :=
  if bool_decide (name ∈ return_zero_names) then Done (s, le_return_zero env)
  else if bool_decide (name = cstr "usb_control_msg")
  then Done (s, m_shim_region (ls_module s) + KB_LOCAL_USB_CONTROL_MSG_STUB_OFFSET)
  else if bool_decide (name = cstr "hub_port_debounce") && bool_decide (le_backend env = Some (cstr "pachaos"))
  then lookup_module_shim_symbol s (cstr "hub_port_debounce")
  else if bool_decide (name ∈ same_name_overrides) then lookup_module_shim_symbol s name
  else match list_find (fun p => p.1 = name) renamed_overrides with
       | Some (_, p) => lookup_module_shim_symbol s p.2
       | None => Done (s, 0)
       end.

Definition should_interpose_exported_symbol (name : list Z) : bool :=
  bool_decide (name ∈ map cstr
    ["usb_deregister"; "usb_deregister_dev"; "usb_find_common_endpoints"; "usb_find_interface";
     "usb_hcd_pci_probe"; "usb_hcd_pci_remove"; "usb_hcd_pci_shutdown"; "usb_kill_urb"; "usb_register_driver";
     "usb_submit_urb"; "usb_unlink_urb"; "kvm_configure_mmu"; "kvm_mmu_set_me_spte_mask";
     "kvm_mmu_set_mmio_spte_mask"]%string).
End lookup.
