(* ===== verification/Relocation.v ===== *)
(** * Relocation (src/src/loader/module_loader.c)

    The loader resolves each relocation's symbol (the module's own sections, the
    per-CPU slice, exported symbols of other modules, shims), then writes the
    relocated value into the image.  Some external calls (return and indirect
    thunks, [__fentry__]) are replaced by other instructions instead.

    Addresses are those of the process; the image occupies
    [m_image_base ...], and a store outside it is [Fault].  Signed 64-bit
    overflow, which C leaves undefined, is [Fault] too.  Trace output is left
    out. *)

From S2P Require Import Prelude Bytes ElfReader SymbolRegistry ShimTable ModuleLayout ShimLookup.

Definition KB_ELF_SHN_UNDEF : Z := 0.
Definition KB_ELF_SHN_ABS : Z := 0xfff1.
Definition KB_ELF_STB_GLOBAL : Z := 1.
Definition KB_ELF_R_X86_64_NONE : Z := 0.
Definition KB_ELF_R_X86_64_64 : Z := 1.
Definition KB_ELF_R_X86_64_PC32 : Z := 2.
Definition KB_ELF_R_X86_64_PLT32 : Z := 4.
Definition KB_ELF_R_X86_64_32 : Z := 10.
Definition KB_ELF_R_X86_64_32S : Z := 11.
Definition KB_ELF_R_X86_64_PC64 : Z := 24.

(** [module->section_count] *)
Definition m_section_count (m : kb_module) : Z := Z.of_nat (length (m_sections m)).

Definition section_at (m : kb_module) (i : Z) : loaded_section := nth (Z.to_nat i) (m_sections m) zero_section.

(** Memory of the image by address. *)
Definition image_load (m : kb_module) (address : Z) : outcome Z := load8 (m_image m) (address - m_image_base m).
Definition image_store (m : kb_module) (address : Z) (bytes : list Z) : outcome kb_module :=
  image ← store (m_image m) (address - m_image_base m) bytes; mret (m <| m_image := image |>).

(** [int64_t] arithmetic. *)
Definition checked_s64 (z : Z) : outcome Z :=
  if (- 0x8000000000000000 <=? z) && (z <? 0x8000000000000000) then Done z else Fault.

Definition kb_low_or_err_pointer (value : Z) : bool :=
  (value =? 0) || (value <? 4096) || (UINT64_MAX - 4095 <=? value) ||
  ((0x00007fffffffffff <? value) && (value <? 0xffff800000000000)).

Definition symbol_name_pointer_is_valid (name : cptr) : bool := negb (kb_low_or_err_pointer (cp_addr name)).

(** ** Symbols of the module *)

Definition loaded_section_address (m : kb_module) (section_index value : Z) : outcome Z :=
  if m_section_count m <=? section_index then Fail KB_ERR_INVALID
  else
    let section := section_at m section_index in
    if (l_base section =? 0) || (l_size section <? value) then Fail KB_ERR_INVALID
    else Done (u64 (l_base section + value)).

Definition symbol_is_percpu_offset (m : kb_module) (symbol : kb_elf_symbol_t) : bool :=
  if m_section_count m <=? sym_section_index symbol then false
  else match kb_elf_section (Some (m_elf m)) (sym_section_index symbol) true with
       | Done section => is_percpu section
       | _ => false
       end.

(** The per-CPU offset of a symbol of [.data..percpu]. *)
Definition percpu_symbol_offset (m : kb_module) (symbol : kb_elf_symbol_t) : outcome Z :=
  if (m_percpu_offset m =? 0) || (m_percpu_size m <? sym_value symbol) then Fail KB_ERR_INVALID
  else Done (u64 (m_percpu_offset m + sym_value symbol)).

(** A loop over the symbols of all symbol tables of the file. *)
Section symbols.
Context {S : Type} (f : kb_elf_file) (body : Z -> Z -> kb_elf_symbol_t -> S -> S * outcome unit).

Definition for_table_symbols (section_index : Z) (s : S) : S * outcome unit :=
  match kb_elf_section (Some f) section_index true with
  | Done section =>
      if negb (is_symbol_table section) then (s, Done tt)
      else match kb_elf_symbol_count (Some f) section_index true with
           | Done symbol_count =>
               for_state (Z.to_nat symbol_count) 0 (fun symbol_index s =>
                 match kb_elf_symbol (Some f) section_index symbol_index true with
                 | Done symbol => body section_index symbol_index symbol s
                 | Fail e => (s, Fail e)
                 | Fault => (s, Fault)
                 end) s
           | Fail e => (s, Fail e)
           | Fault => (s, Fault)
           end
  | Fail e => (s, Fail e)
  | Fault => (s, Fault)
  end.

Definition for_symbols (s : S) : S * outcome unit := for_state (Z.to_nat (file_section_count f)) 0 for_table_symbols s.
End symbols.

Section resolving.
Context (env : loader_env).

Definition resolve_symbol (s : loader_state) (symbol_table_section_index symbol_index : Z)
    : outcome (loader_state * Z) :=
  let m := ls_module s in
  symbol ← kb_elf_symbol (Some (m_elf m)) symbol_table_section_index symbol_index true;
  if sym_section_index symbol =? KB_ELF_SHN_UNDEF then
    let '(s, address) := lookup_shim_symbol env s (sym_name symbol) in
    if address =? 0 then Fail KB_ERR_UNSUPPORTED else Done (s, address)
  else if sym_section_index symbol =? KB_ELF_SHN_ABS then Done (s, sym_value symbol)
  else if symbol_is_percpu_offset m symbol then
    address ← percpu_symbol_offset m symbol; mret (s, address)
  else address ← loaded_section_address m (sym_section_index symbol) (sym_value symbol); mret (s, address).

(** The first symbol of that name decides. *)
Fixpoint find_symbol_loop (fuel : nat) (f : kb_elf_file) (name : list Z) (section_index : Z) : outcome (option (Z * Z)) :=
  match fuel with
  | O => Done None
  | S fuel =>
      section ← kb_elf_section (Some f) section_index true;
      if negb (is_symbol_table section) then find_symbol_loop fuel f name (section_index + 1)
      else
        symbol_count ← kb_elf_symbol_count (Some f) section_index true;
        found ← search_up (Z.to_nat symbol_count) 0 (fun symbol_index =>
                  symbol ← kb_elf_symbol (Some f) section_index symbol_index true;
                  mret (bool_decide (sym_name symbol = name)));
        match found with
        | Some symbol_index => Done (Some (section_index, symbol_index))
        | None => find_symbol_loop fuel f name (section_index + 1)
        end
  end.

Definition find_symbol_address (s : loader_state) (name : list Z) : outcome (loader_state * Z) :=
  let f := m_elf (ls_module s) in
  found ← find_symbol_loop (Z.to_nat (file_section_count f)) f name 0;
  match found with
  | Some (section_index, symbol_index) => resolve_symbol s (u32 section_index) (u32 symbol_index)
  | None => Fail KB_ERR_NOT_FOUND
  end.

(** Exporting one symbol; the registry keeps the name's address in the file and
    the module's. *)
Definition register_one_export (owner section_index symbol_index : Z) (symbol : kb_elf_symbol_t)
    (st : loader_state * list kb_loader_exported_symbol) : (loader_state * list kb_loader_exported_symbol) * outcome unit :=
  let '(s, registry) := st in
  let name := mk_cptr (le_names env) (sym_name symbol) in
  if negb (sym_binding symbol =? KB_ELF_STB_GLOBAL) || (sym_section_index symbol =? KB_ELF_SHN_UNDEF) ||
     negb (symbol_name_pointer_is_valid name) || empty_string name
  then (st, Done tt)
  else match resolve_symbol s (u32 section_index) (u32 symbol_index) with
       | Done (s, address) =>
           let '(registry, status) := kb_loader_symbol_registry_add_export registry name address owner in
           ((s, registry), if bool_decide (status = KB_OK) then Done tt else Fail status)
       | Fail _ => (st, Done tt)
       | Fault => (st, Fault)
       end.

Definition register_module_exports (s : loader_state) (registry : list kb_loader_exported_symbol) (owner : Z)
    : (loader_state * list kb_loader_exported_symbol) * outcome unit :=
  for_symbols (m_elf (ls_module s)) (register_one_export owner) (s, registry).
End resolving.

(** ** Relocation targets *)

Definition relocation_target (m : kb_module) (relocation : kb_elf_relocation_t) : outcome Z :=
  if m_section_count m <=? rel_target_section_index relocation then Fail KB_ERR_INVALID
  else
    let section := section_at m (rel_target_section_index relocation) in
    if (l_base section =? 0) || (l_size section <=? rel_offset relocation) then Fail KB_ERR_INVALID
    else Done (l_base section + rel_offset relocation).

Definition relocation_operand_fits (m : kb_module) (relocation : kb_elf_relocation_t) (width : Z) : bool :=
  if m_section_count m <=? rel_target_section_index relocation then false
  else
    let section := section_at m (rel_target_section_index relocation) in
    negb (l_base section =? 0) && (rel_offset relocation <=? l_size section) &&
    (width <=? l_size section - rel_offset relocation).

Definition value_fits_u32 (value : Z) : bool := (0 <=? value) && (value <=? 0xffffffff).
Definition value_fits_i32 (value : Z) : bool := (- 0x80000000 <=? value) && (value <=? 0x7fffffff).

Definition is_pc_relative (relocation : kb_elf_relocation_t) : bool :=
  (rel_type relocation =? KB_ELF_R_X86_64_PC32) || (rel_type relocation =? KB_ELF_R_X86_64_PLT32).

(** ** Instructions replaced instead of relocated *)

Definition thunk_registers : list (list Z * Z) :=
  map (fun p => (cstr ("__x86_indirect_thunk_" ++ p.1)%string, p.2))
    [("rax"%string, 0); ("rcx"%string, 1); ("rdx"%string, 2); ("rbx"%string, 3); ("rbp"%string, 5);
     ("rsi"%string, 6); ("r8"%string, 8); ("r9"%string, 9); ("r10"%string, 10); ("r11"%string, 11);
     ("r12"%string, 12); ("r13"%string, 13); ("r14"%string, 14); ("r15"%string, 15)].

Definition indirect_thunk_register (name : list Z) : Z :=
  match list_find (fun p => p.1 = name) thunk_registers with Some (_, p) => p.2 | None => -1 end.

(** The instruction for a call ([opcode] 0xe8) or jump (0xe9) through a register. *)
Definition indirect_branch (opcode register : Z) : list Z :=
  let modrm_base := if opcode =? 0xe8 then 0xd0 else 0xe0 in
  if register <? 8 then [0xff; u8 (modrm_base + register); 0x90; 0x90; 0x90]
  else [0x41; 0xff; u8 (modrm_base + (register - 8)); 0x90; 0x90].

(** The five bytes from [target - 1] on after the patch, [None] when there is
    none.  The last four tests of the C function (for rax, rdx, r8 and r10)
    repeat the general test above them: they are reached only when
    [target[-1]] is neither 0xe8 nor 0xe9, where they do nothing. *)
Definition patch_local_x86_64_external (m : kb_module) (symbol : kb_elf_symbol_t)
    (relocation : kb_elf_relocation_t) (target : Z) : outcome (option kb_module) :=
  if negb (is_pc_relative relocation) then Done None
  else if bool_decide (sym_name symbol = cstr "__x86_return_thunk") then
    m ← image_store m (target - 1) [0xc3; 0x90; 0x90; 0x90; 0x90]; mret (Some m)
  else if bool_decide (sym_name symbol = cstr "__fentry__") then
    m ← image_store m (target - 1) [0x90; 0x90; 0x90; 0x90; 0x90]; mret (Some m)
  else
    let register := indirect_thunk_register (sym_name symbol) in
    if register <? 0 then Done None
    else
      opcode ← image_load m (target - 1);
      if (opcode =? 0xe8) || (opcode =? 0xe9) then
        m ← image_store m (target - 1) (indirect_branch opcode register); mret (Some m)
      else Done None.

Definition relocation_is_direct_call (m : kb_module) (target : Z) : outcome bool :=
  if target =? 0 then Done false else opcode ← image_load m (target - 1); mret (opcode =? 0xe8).

(** ** One relocation *)

Section relocating.
Context (env : loader_env) (registry : list kb_loader_exported_symbol).

(** Interposed names come from the shims first; all others from the exports of
    the loaded modules, then from the shims.  The flag tells whether the address
    is an export. *)
Definition find_external (s : loader_state) (name : list Z) : outcome (loader_state * Z * bool) :=
  '(s, address) ← (if should_interpose_exported_symbol name then lookup_module_shim_symbol env s name else Done (s, 0));
  let exported :=
    if address =? 0 then kb_loader_symbol_registry_lookup_export registry (mk_cptr (le_names env) name) else 0 in
  if negb (address =? 0) then Done (s, address, false)
  else if negb (exported =? 0) then Done (s, exported, true)
  else '(s, address) ← lookup_module_shim_symbol env s name; mret (s, address, false).

(** A call into another module goes through a stub that switches GS. *)
Definition cross_module_stub (s : loader_state) (address : Z) : outcome (loader_state * Z) :=
  let callee_gs := kb_module_kernel_gs_for_address (le_loaded env) address in
  if callee_gs =? 0 then Done (s, address)
  else
    match allocate_external_call_stub (le_providers env) (le_trampoline env) (ls_shims s) (m_stubs (ls_module s))
            address callee_gs with
    | (shims, Some stubs, Some offset) =>
        Done (s <| ls_shims := shims |> <| ls_module ::= (fun m => m <| m_stubs := stubs |>) |>,
              m_shim_region (ls_module s) + offset)
    | _ => Fail KB_ERR_NOMEM
    end.

(** The address of a symbol the module does not define. *)
Definition external_symbol_address (s : loader_state) (symbol : kb_elf_symbol_t) (relocation : kb_elf_relocation_t)
    : outcome (loader_state * Z) :=
  let name := sym_name symbol in
  '(s, address, address_from_exported_module) ← find_external s name;
  if (address : Z) =? 0 then Fail KB_ERR_UNSUPPORTED
  else
    '(s, address) ← (if (address_from_exported_module : bool) && kb_module_is_executable_address (le_loaded env) address
                     then cross_module_stub s address else Done (s, address));
    mret (s, if is_pc_relative relocation && bool_decide (name = cstr "softnet_data") then KB_LOCAL_GS_PCPU_HOT_OFFSET
             else if is_pc_relative relocation && bool_decide (name = cstr "this_cpu_off") then 0
             else (address : Z)).

(** The address of a symbol in one of the module's sections. *)
Definition internal_symbol_address (s : loader_state) (symbol : kb_elf_symbol_t) : outcome (loader_state * Z) :=
  let m := ls_module s in
  if symbol_is_percpu_offset m symbol then address ← percpu_symbol_offset m symbol; mret (s, address)
  else
    address ← loaded_section_address m (sym_section_index symbol) (sym_value symbol);
    '(s, override) ← lookup_internal_symbol_override env s (sym_name symbol);
    mret (s, if negb ((override : Z) =? 0) then override else address).

(** The NVIDIA probe mock replaces one direct call. *)
Definition mocked_symbol_address (s : loader_state) (symbol : kb_elf_symbol_t) (relocation : kb_elf_relocation_t)
    (target symbol_address : Z) : outcome (loader_state * Z) :=
  if negb (sym_section_index symbol =? KB_ELF_SHN_UNDEF) && is_pc_relative relocation && (0 <? rel_offset relocation) then
    direct ← relocation_is_direct_call (ls_module s) target;
    if (direct : bool) && bool_decide (sym_name symbol = cstr "nv_pci_count_devices") && le_mock_nvidia env then
      '(s, stub) ← lookup_module_shim_symbol env s (cstr "kobox_nvidia_mock_nv_pci_count_devices");
      mret (s, if negb ((stub : Z) =? 0) then stub else symbol_address)
    else Done (s, symbol_address)
  else Done (s, symbol_address).

(** The switch over the relocation types. *)
Definition write_relocation (m : kb_module) (relocation : kb_elf_relocation_t) (target value : Z) : outcome kb_module :=
  let type := rel_type relocation in
  if type =? KB_ELF_R_X86_64_NONE then Done m
  else if type =? KB_ELF_R_X86_64_64 then
    if negb (relocation_operand_fits m relocation 8) then Fail KB_ERR_INVALID
    else image_store m target (write_u64le (u64 value))
  else if is_pc_relative relocation then
    if negb (relocation_operand_fits m relocation 4) then Fail KB_ERR_INVALID
    else
      distance ← checked_s64 (value - s64 target);
      if negb (value_fits_i32 distance) then Fail KB_ERR_UNSUPPORTED
      else image_store m target (write_u32le (u32 distance))
  else if type =? KB_ELF_R_X86_64_PC64 then
    if negb (relocation_operand_fits m relocation 8) then Fail KB_ERR_INVALID
    else distance ← checked_s64 (value - s64 target); image_store m target (write_u64le (u64 distance))
  else if type =? KB_ELF_R_X86_64_32 then
    if negb (relocation_operand_fits m relocation 4) then Fail KB_ERR_INVALID
    else if negb (value_fits_u32 value) then Fail KB_ERR_UNSUPPORTED
    else image_store m target (write_u32le (u32 value))
  else if type =? KB_ELF_R_X86_64_32S then
    if negb (relocation_operand_fits m relocation 4) then Fail KB_ERR_INVALID
    else if negb (value_fits_i32 value) then Fail KB_ERR_UNSUPPORTED
    else image_store m target (write_u32le (u32 value))
  else Fail KB_ERR_UNSUPPORTED.

(** [S + A] from the symbol's address on. *)
Definition relocate_with (s : loader_state) (symbol : kb_elf_symbol_t) (relocation : kb_elf_relocation_t)
    (target symbol_address : Z) : outcome loader_state :=
  let addend := if rel_has_addend relocation then rel_addend relocation else 0 in
  '(s, relocated_symbol_address) ← mocked_symbol_address s symbol relocation target symbol_address;
  value ← checked_s64 (s64 relocated_symbol_address + addend);
  m ← write_relocation (ls_module s) relocation target value;
  mret (s <| ls_module := m |>).

Definition apply_one_relocation (s : loader_state) (relocation : kb_elf_relocation_t) : outcome loader_state :=
  let m := ls_module s in
  target ← relocation_target m relocation;
  symbol ← kb_elf_symbol (Some (m_elf m)) (rel_symbol_table_section_index relocation) (rel_symbol_index relocation) true;
  if sym_section_index symbol =? KB_ELF_SHN_UNDEF then
    patched ← (if (0 <? rel_offset relocation) && relocation_operand_fits m relocation 4
               then patch_local_x86_64_external m symbol relocation target else Done None);
    match patched with
    | Some m => Done (s <| ls_module := m |>)
    | None =>
        '(s, symbol_address) ← external_symbol_address s symbol relocation;
        relocate_with s symbol relocation target symbol_address
    end
  else if sym_section_index symbol =? KB_ELF_SHN_ABS then relocate_with s symbol relocation target (sym_value symbol)
  else
    '(s, symbol_address) ← internal_symbol_address s symbol;
    relocate_with s symbol relocation target symbol_address.

(** ** All relocations of the file *)

Definition apply_section_relocations (section_index : Z) (s : loader_state) : outcome loader_state :=
  let m := ls_module s in
  section ← kb_elf_section (Some (m_elf m)) section_index true;
  if negb (is_relocation_table section) then Done s
  else if (m_section_count m <=? sec_info section) || (l_base (section_at m (sec_info section)) =? 0) then Done s
  else
    relocation_count ← kb_elf_relocation_count (Some (m_elf m)) section_index true;
    for_from (Z.to_nat relocation_count) 0 (fun relocation_index s =>
      relocation ← kb_elf_relocation (Some (m_elf (ls_module s))) section_index relocation_index true;
      apply_one_relocation s relocation) s.

Definition apply_relocations (s : loader_state) : outcome loader_state :=
  for_from (Z.to_nat (file_section_count (m_elf (ls_module s)))) 0 apply_section_relocations s.
End relocating.
