(* ===== verification/RelocTheorems.v ===== *)
(** * Properties of relocation (Relocation.v)

    On a module whose sections lie side by side in its image, a relocation
    changes bytes of its target section only, the written field decodes to the
    value of the relocation's formula or the relocation is refused, and
    resolution follows the loader's order of precedence. *)

From S2P Require Import Prelude Bytes ElfReader ElfTheorems SymbolRegistry ShimTable ModuleLayout LoaderSample LayoutTheorems ShimLookup Relocation.

(** ** Well-formed modules *)

(** What loading establishes about a module's sections and image. *)
Record module_wf (m : kb_module) : Prop := {
  mw_base : 0 < m_image_base m /\ m_image_base m + blen (m_image m) <= 0x7fffffffffffffff;
  mw_section : forall i l, m_sections m !! i = Some l -> l_base l <> 0 ->
    l_base l = m_image_base m + l_offset l /\ 0 <= l_offset l /\ 0 <= l_size l /\ section_end l <= blen (m_image m);
  mw_apart : forall i j a b, (i < j)%nat -> m_sections m !! i = Some a -> m_sections m !! j = Some b ->
    l_base a <> 0 -> l_base b <> 0 -> section_end a <= l_offset b;
  mw_elf : file_wf (m_elf m);
  mw_data : blen (m_shim_data m) = KB_LOCAL_SHIM_DATA_SIZE;
}.

(** A record with an address comes from an allocated section. *)
Lemma loaded_record_inv page f secs st base size image gs sections i l :
  layout_inv page secs (length secs) st ->
  copy_inv f secs (pl_sections st) base size (length secs) image gs sections ->
  sections !! i = Some l -> l_base l <> 0 ->
  exists s l0, secs !! i = Some s /\ is_alloc s = true /\ pl_sections st !! i = Some l0 /\ placed_ok s l0 /\
    section_end l0 <= pl_image_size st /\ l = l0 <| l_base := base + l_offset l0 |>.
Proof.
  intros Hinv Hc Hi Hne. assert (exists s, secs !! i = Some s) as [s Hs].
  { apply lookup_lt_is_Some. rewrite <- (ci_length _ _ _ _ _ _ _ _ _ Hc). by apply lookup_lt_Some in Hi. }
  destruct (loaded_record _ _ _ _ _ _ _ _ _ i s Hinv Hc Hs) as (l0 & Hl0 & Hr & Hok). rewrite Hi in Hr.
  destruct (is_alloc s) eqn:Ha; injection Hr as ->; [|by rewrite Hok in Hne].
  exists s, l0. destruct Hok. by split_and!.
Qed.

(** Loading makes a well-formed module. *)
Lemma load_image_wf page p f secs percpu_next st base gs image gs' sections name stubs data :
  page = 2 ^ p -> 0 <= p -> loadable page f secs -> 0 < percpu_next <= KB_LOCAL_GS_SIZE ->
  blen gs = KB_LOCAL_GS_SIZE -> 0 < base -> base + align_up_u64 (pl_image_size st) page <= 0x7fffffffffffffff ->
  place_sections page f percpu_next = (st, Done tt) -> pl_image_size st <> 0 ->
  load_image page f percpu_next base gs = (st, Done (image, gs', sections)) ->
  file_wf f -> blen data = KB_LOCAL_SHIM_DATA_SIZE ->
  module_wf (mk_module f name base image sections stubs data [] (pl_percpu_offset st) (pl_percpu_size st)).
Proof.
  intros Hpage Hp Hload Hn Hgs Hb Hbe H Hnz Hli Hwf Hdata.
  destruct (load_image_inv page p f secs percpu_next st base gs Hpage Hp Hload Hn Hgs ltac:(lia) H Hnz)
    as (Hinv & Hle & image1 & gs1 & sections1 & Hl & Hc).
  rewrite Hl in Hli. injection Hli as -> -> ->. pose proof (ci_image _ _ _ _ _ _ _ _ _ Hc) as Him.
  pose proof (fun i l => loaded_record_inv _ _ _ _ _ _ _ _ _ i l Hinv Hc) as Hrec.
  constructor; cbn [m_image_base m_image m_sections m_elf m_shim_data]; try done.
  - rewrite Him. split; [done|lia].
  - intros i l Hi Hne. destruct (Hrec i l Hi Hne) as (s & l0 & Hs & Ha & _ & [Hsz _ _ Ho _] & Hend & ->).
    pose proof (Forall_lookup_1 _ _ _ _ (lo_sizes _ _ _ Hload) Hs) as [Hpos _]. unfold section_end in *. cbn in *.
    rewrite Him. split_and!; lia.
  - intros i j a b Hij Hi Hj Hna Hnb.
    destruct (Hrec i a Hi Hna) as (si & li & Hsi & Hai & Hli & _ & _ & ->).
    destruct (Hrec j b Hj Hnb) as (sj & lj & Hsj & Haj & Hlj & _ & _ & ->).
    pose proof (li_order _ _ _ _ Hinv i j li lj si sj) as [Hsep _]; try done.
    split; [done|]. by apply lookup_lt_Some in Hsj.
Qed.

(** ** What resolution leaves alone *)

Record module_frame (m m' : kb_module) : Prop := {
  mf_elf : m_elf m' = m_elf m;
  mf_base : m_image_base m' = m_image_base m;
  mf_sections : m_sections m' = m_sections m;
  mf_image : blen (m_image m') = blen (m_image m);
  mf_data : blen (m_shim_data m') = blen (m_shim_data m);
  mf_percpu : m_percpu_offset m' = m_percpu_offset m /\ m_percpu_size m' = m_percpu_size m;
}.

#[export] Instance module_frame_refl : Reflexive module_frame.
Proof. intros m. by constructor. Qed.
#[export] Instance module_frame_trans : Transitive module_frame.
Proof.
  intros m1 m2 m3 [? ? ? ? ? []] [? ? ? ? ? []]. constructor; try congruence. split; congruence.
Qed.

Lemma module_frame_wf m m' : module_frame m m' -> module_wf m -> module_wf m'.
Proof.
  intros [He Hb Hs Hi Hd _] [H1 H2 H3 H4 H5].
  constructor; rewrite ?He, ?Hb, ?Hs, ?Hi, ?Hd; done.
Qed.

(** Resolution may change stubs and shim data and fill the shim table, but
    neither sections nor image. *)
Definition shims_from (env : loader_env) (st st' : shim_state) : Prop :=
  st' = st \/ st' = shim_symbol_table_init (le_providers env) st.

Lemma shims_from_init env st : shims_from env st (shim_symbol_table_init (le_providers env) st).
Proof. by right. Qed.

Lemma table_init_is_ready providers st : shim_symbol_cache_ready (shim_symbol_table_init providers st) = true.
Proof. unfold shim_symbol_table_init. by destruct (shim_symbol_cache_ready st) eqn:E. Qed.

#[export] Instance shims_from_trans env : Transitive (shims_from env).
Proof.
  intros s1 s2 s3 [->| ->] [->| ->]; [by left|by right|by right|]. right.
  apply table_init_ready, table_init_is_ready.
Qed.

Record resolves (env : loader_env) (s s' : loader_state) : Prop := {
  rs_frame : module_frame (ls_module s) (ls_module s');
  rs_image : m_image (ls_module s') = m_image (ls_module s);
  rs_shims : shims_from env (ls_shims s) (ls_shims s');
}.

#[export] Instance resolves_refl env : Reflexive (resolves env).
Proof. intros s. split; [done|done|by left]. Qed.
#[export] Instance resolves_trans env : Transitive (resolves env).
Proof. intros s1 s2 s3 [H1 E1 S1] [H2 E2 S2]. split; [by etrans|congruence|by etrans]. Qed.

Lemma bind_Done {A B} (x : outcome A) (k : A -> outcome B) r :
  (y ← x; k y) = Done r -> exists y, x = Done y /\ k y = Done r.
Proof. destruct x; [|discriminate|discriminate]. intros H. by exists a. Qed.

Lemma bind_Fault {A B} (x : outcome A) (k : A -> outcome B) :
  (y ← x; k y) = Fault -> x = Fault \/ exists y, x = Done y /\ k y = Fault.
Proof. destruct x; [|discriminate|by left]. intros H. right. by exists a. Qed.

Section lookups.
Context (env : loader_env).

Lemma resolves_shims s shims : shims_from env (ls_shims s) shims -> resolves env s (s <| ls_shims := shims |>).
Proof. intros H. split; [by constructor|done|done]. Qed.

Lemma resolves_jiffies s j : resolves env s (s <| ls_jiffies := j |>).
Proof. split; [by constructor|done|by left]. Qed.

Lemma find_index_shims st name : shims_from env st (shim_symbol_find_index (le_providers env) st (Some name)).1.
Proof. apply shims_from_init. Qed.

Lemma stub_address_shims m st name : shims_from env st (stub_address env m st name).1.
Proof.
  unfold stub_address, module_shim_stub_by_name. destruct (ms_stubs _); [|by left].
  pose proof (find_index_shims st name) as H. by destruct (shim_symbol_find_index _ _ _) as [? [?|]].
Qed.

Lemma store_done p o q r : store p o q = Done r -> 0 <= o /\ o + blen q <= blen p /\ r = splice p o q.
Proof.
  unfold store. destruct (_ && _) eqn:E; [|discriminate]. intros H. injection H as <-. boolify. split_and!; [lia|lia|done].
Qed.

Lemma dma_ops_storage_resolves s s' a : dma_ops_storage env s = Done (s', a) -> resolves env s s'.
Proof.
  intros (data & Hs & H)%bind_Done. apply store_done in Hs as (Ho & Hl & ->).
  pose proof (f_equal (fun x => match x with Done (t, _) => t | _ => s end) H) as E. cbn in E. subst s'.
  split; [|done|by left]. constructor; try done. cbn. by apply blen_splice.
Qed.

Lemma lookup_shim_symbol_resolves s name : resolves env s (lookup_shim_symbol env s name).1.
Proof.
  unfold lookup_shim_symbol, shim_symbol_find_address. pose proof (find_index_shims (ls_shims s) name) as H.
  destruct (shim_symbol_find_index _ _ _) as [st [i|]]; [|by apply resolves_shims]. cbn [fst] in H.
  assert (shims_from env (ls_shims s) (shim_symbol_table_at (le_providers env) st i).1) as H2.
  { etrans; [exact H|apply shims_from_init]. }
  destruct (shim_symbol_table_at _ _ _) as [st2 [x|]]; by apply resolves_shims.
Qed.

Lemma kvm_stub_resolves s name s' a : module_kvm_provider_stub_by_name env s name = Done (s', a) -> resolves env s s'.
Proof.
  unfold module_kvm_provider_stub_by_name. destruct (ms_stubs _); [|by intros [= <- _]].
  destruct (_ =? 0); [by intros [= <- _]|]. unfold shim_symbol_table_count.
  intros (found & _ & H)%bind_Done. injection H as <- _. apply resolves_shims, shims_from_init.
Qed.

Lemma lookup_after_stubs_resolves s name s' a : lookup_after_stubs env s name = Done (s', a) -> resolves env s s'.
Proof.
  unfold lookup_after_stubs. destruct (list_find _ _) as [[? ?]|]; [by intros [= <- _]|].
  destruct (find_place _ _); [by intros [= <- _]|]. destruct (bool_decide _); [by intros [= <- _]|].
  destruct (bool_decide _); [intros [= <- _]; apply resolves_jiffies|].
  intros H. injection H as H. pose proof (lookup_shim_symbol_resolves s name) as Hr. by rewrite H in Hr.
Qed.

Lemma lookup_module_shim_symbol_resolves s name s' a :
  lookup_module_shim_symbol env s name = Done (s', a) -> resolves env s s'.
Proof.
  unfold lookup_module_shim_symbol. do 2 (destruct (bool_decide _); [by intros [= <- _]|]).
  destruct (find_place _ _); [by intros [= <- _]|]. do 2 (destruct (bool_decide _); [by intros [= <- _]|]).
  destruct (bool_decide _); [apply dma_ops_storage_resolves|].
  intros ([s1 kvm] & H1 & H)%bind_Done. assert (resolves env s s1) as Hs1.
  { destruct (module_prefers_kvm_symbols _); [by apply kvm_stub_resolves in H1|by injection H1 as <- _]. }
  destruct (negb (kvm =? 0)); [by injection H as <- _|]. destruct (find_place _ _); [by injection H as <- _|].
  pose proof (stub_address_shims (ls_module s) (ls_shims s1) name) as Hst.
  destruct (stub_address _ _ _ _) as [shims stub]. transitivity s1; [done|].
  transitivity (s1 <| ls_shims := shims |>); [by apply resolves_shims|].
  destruct (negb (stub =? 0)); [by injection H as <- _|by apply lookup_after_stubs_resolves in H].
Qed.

Lemma lookup_internal_symbol_override_resolves s name s' a :
  lookup_internal_symbol_override env s name = Done (s', a) -> resolves env s s'.
Proof.
  unfold lookup_internal_symbol_override. do 2 (destruct (bool_decide _); [by intros [= <- _]|]).
  destruct (_ && _); [apply lookup_module_shim_symbol_resolves|].
  destruct (bool_decide _); [apply lookup_module_shim_symbol_resolves|].
  destruct (list_find _ _) as [[? ?]|]; [apply lookup_module_shim_symbol_resolves|by intros [= <- _]].
Qed.

Lemma find_external_resolves registry s name s' a b :
  find_external env registry s name = Done (s', a, b) -> resolves env s s'.
Proof.
  intros ([s1 a1] & H1 & H)%bind_Done. assert (resolves env s s1) as Hs1.
  { destruct (should_interpose_exported_symbol name); [by apply lookup_module_shim_symbol_resolves in H1|by injection H1 as <- _]. }
  destruct (negb (a1 =? 0)); [by injection H as <- _ _|]. cbv zeta in H.
  destruct (negb _) in H; [by injection H as <- _ _|].
  apply bind_Done in H as ([s2 a2] & H2 & H). injection H as <- _ _. transitivity s1; [done|].
  by apply lookup_module_shim_symbol_resolves in H2.
Qed.

Lemma cross_module_stub_resolves s address s' a : cross_module_stub env s address = Done (s', a) -> resolves env s s'.
Proof.
  unfold cross_module_stub. destruct (_ =? 0); [by intros [= <- _]|].
  destruct (allocate_external_call_stub _ _ _ _ _ _) as [[shims stubs] offset] eqn:Ea.
  assert (shims_from env (ls_shims s) shims) as Hsh.
  { unfold allocate_external_call_stub, allocate_external_call_stub_for_caller, shim_symbol_table_count in Ea.
    apply (f_equal (fun x => x.1.1)) in Ea. cbn [fst] in Ea. rewrite <- Ea.
    repeat case_match; apply shims_from_init. }
  destruct stubs as [stubs|]; [|discriminate]. destruct offset as [offset|]; [|discriminate].
  intros H. pose proof (f_equal (fun x => match x with Done (t, _) => t | _ => s end) H) as E. cbn in E. subst s'.
  split; [by constructor|done|done].
Qed.

Lemma external_symbol_address_resolves registry s symbol relocation s' a :
  external_symbol_address env registry s symbol relocation = Done (s', a) -> resolves env s s'.
Proof.
  intros ([[s1 a1] b1] & H1%find_external_resolves & H)%bind_Done. destruct (a1 =? 0); [discriminate|].
  apply bind_Done in H as ([s2 a2] & H2 & H). injection H as <- _. transitivity s1; [done|].
  destruct (_ && _); [by apply cross_module_stub_resolves in H2|by injection H2 as <- _].
Qed.

Lemma internal_symbol_address_resolves s symbol s' a :
  internal_symbol_address env s symbol = Done (s', a) -> resolves env s s'.
Proof.
  unfold internal_symbol_address. destruct (symbol_is_percpu_offset _ _); intros (a1 & H1 & H)%bind_Done.
  - by injection H as <- _.
  - apply bind_Done in H as ([s2 a2] & H2 & H). injection H as <- _. by apply lookup_internal_symbol_override_resolves in H2.
Qed.

Lemma mocked_symbol_address_resolves s symbol relocation target a s' a' :
  mocked_symbol_address env s symbol relocation target a = Done (s', a') -> resolves env s s'.
Proof.
  unfold mocked_symbol_address. destruct (_ && _); [|by intros [= <- _]]. intros (d & _ & H)%bind_Done.
  destruct (_ && _) in H; [|by injection H as <- _]. apply bind_Done in H as ([s2 a2] & H2 & H). injection H as <- _.
  by apply lookup_module_shim_symbol_resolves in H2.
Qed.
End lookups.

(** ** Writes *)

(** Everything but the bytes of section [l] is as before. *)
Record writes_within (l : loaded_section) (m m' : kb_module) : Prop := {
  ww_frame : module_frame m m';
  ww_bytes : forall k : nat, ~ (l_offset l <= Z.of_nat k < section_end l) -> m_image m' !! k = m_image m !! k;
}.

#[export] Instance writes_within_refl l : Reflexive (writes_within l).
Proof. intros m. by split. Qed.
#[export] Instance writes_within_trans l : Transitive (writes_within l).
Proof. intros m1 m2 m3 [F1 B1] [F2 B2]. split; [by etrans|]. intros k Hk. by rewrite B2, B1. Qed.

Lemma resolves_within env l s s' : resolves env s s' -> writes_within l (ls_module s) (ls_module s').
Proof. intros [H E _]. split; [done|]. by rewrite E. Qed.

(** The target section of a relocation. *)
Definition target_section (m : kb_module) (r : kb_elf_relocation_t) : loaded_section :=
  section_at m (rel_target_section_index r).

Lemma image_store_done m a q m' : image_store m a q = Done m' ->
  0 <= a - m_image_base m /\ a - m_image_base m + blen q <= blen (m_image m) /\
  m' = m <| m_image := splice (m_image m) (a - m_image_base m) q |>.
Proof.
  intros (image & Hs & H)%bind_Done. apply store_done in Hs as (H0 & H1 & ->). split_and!; [done|done|].
  exact (eq_sym (f_equal (fun x => match x with Done y => y | _ => m end) H)).
Qed.

Lemma image_store_frame m a q m' : image_store m a q = Done m' -> module_frame m m'.
Proof. intros (H0 & H1 & ->)%image_store_done. constructor; try done. cbn. by apply blen_splice. Qed.

Section target.
Context (m : kb_module) (r : kb_elf_relocation_t) (target : Z).
Hypothesis wf : module_wf m.
Hypothesis offset_ok : 0 <= rel_offset r.
Hypothesis index_ok : 0 <= rel_target_section_index r.
Hypothesis has_target : relocation_target m r = Done target.

Lemma target_bounds :
  m_sections m !! Z.to_nat (rel_target_section_index r) = Some (target_section m r) /\
  l_base (target_section m r) <> 0 /\
  target = m_image_base m + l_offset (target_section m r) + rel_offset r /\
  0 <= l_offset (target_section m r) /\ rel_offset r < l_size (target_section m r) /\
  section_end (target_section m r) <= blen (m_image m).
Proof using All.
  unfold relocation_target in has_target. fold (target_section m r) in has_target.
  destruct (Z.leb_spec (m_section_count m) (rel_target_section_index r)) as [|Hi]; [discriminate|].
  destruct (_ || _) eqn:E in has_target; [discriminate|]. injection has_target as <-. boolify.
  unfold m_section_count in Hi.
  assert (m_sections m !! Z.to_nat (rel_target_section_index r) = Some (target_section m r)) as Hl.
  { unfold target_section, section_at. rewrite nth_lookup.
    destruct (lookup_lt_is_Some_2 (m_sections m) (Z.to_nat (rel_target_section_index r))) as [l ->]; [lia|done]. }
  destruct (mw_section _ wf _ _ Hl ltac:(lia)) as (Hb & Hlo & Hsz & Hend). split_and!; (done || lia).
Qed.

Lemma fits_bounds w : relocation_operand_fits m r w = true -> rel_offset r + w <= l_size (target_section m r).
Proof using Type.
  unfold relocation_operand_fits. fold (target_section m r). destruct (_ <=? _); [discriminate|]. intros H. boolify. lia.
Qed.

(** A store of [w] bytes that ends in the section changes only the section. *)
Lemma image_store_within a d q m' :
  a = target + d -> 0 <= rel_offset r + d -> rel_offset r + d + blen q <= l_size (target_section m r) ->
  image_store m a q = Done m' -> writes_within (target_section m r) m m'.
Proof using All.
  intros -> H0 Hq Hs. pose proof target_bounds as (_ & _ & Ht & Hlo & _ & Hhi). split; [by apply image_store_frame in Hs|].
  apply image_store_done in Hs as (H1 & H2 & ->). cbn. intros k Hk. unfold section_end in *.
  rewrite lookup_splice, decide_False by lia. done.
Qed.

Lemma image_store_succeeds a d q :
  a = target + d -> 0 <= rel_offset r + d -> rel_offset r + d + blen q <= l_size (target_section m r) ->
  image_store m a q <> Fault.
Proof using All.
  intros -> H0 Hq. pose proof target_bounds as (_ & _ & Ht & Hlo & _ & Hhi). unfold section_end in *.
  unfold image_store. rewrite store_in by lia. discriminate.
Qed.

Lemma indirect_branch_length opcode register : blen (indirect_branch opcode register) = 5.
Proof using Type. unfold indirect_branch. by destruct (register <? 8). Qed.

(** A replaced instruction is the one around the relocated operand. *)
Lemma patch_within symbol m' :
  0 < rel_offset r -> relocation_operand_fits m r 4 = true ->
  patch_local_x86_64_external m symbol r target = Done (Some m') -> writes_within (target_section m r) m m'.
Proof using All.
  intros Hr Hfit%fits_bounds. unfold patch_local_x86_64_external. destruct (negb _); [discriminate|].
  assert (forall q m', blen q = 5 -> image_store m (target - 1) q = Done m' -> writes_within (target_section m r) m m') as Hst.
  { intros q m1 Hq. apply (image_store_within _ (-1)); lia. }
  destruct (bool_decide _); [intros (m1 & Hs & [= ->])%bind_Done; by apply Hst in Hs|].
  destruct (bool_decide _); [intros (m1 & Hs & [= ->])%bind_Done; by apply Hst in Hs|].
  destruct (_ <? 0); [discriminate|]. intros (opcode & _ & H)%bind_Done. destruct (_ || _); [|discriminate].
  apply bind_Done in H as (m1 & Hs & [= ->]). apply Hst in Hs; [done|]. apply indirect_branch_length.
Qed.

Lemma write_relocation_within value m' :
  write_relocation m r target value = Done m' -> writes_within (target_section m r) m m'.
Proof using All.
  assert (forall w q m', relocation_operand_fits m r w = true -> blen q = w -> image_store m target q = Done m' ->
    writes_within (target_section m r) m m') as Hst.
  { intros w q m1 Hf%fits_bounds Hq. apply (image_store_within _ 0); lia. }
  unfold write_relocation. destruct (_ =? _); [by intros [= ->]|].
  destruct (_ =? _).
  { destruct (relocation_operand_fits m r 8) eqn:Hf; [|discriminate]. by apply (Hst 8). }
  destruct (is_pc_relative r).
  { destruct (relocation_operand_fits m r 4) eqn:Hf; [|discriminate]. intros (d & _ & H)%bind_Done.
    destruct (negb _); [discriminate|]. revert H. by apply (Hst 4). }
  destruct (_ =? _).
  { destruct (relocation_operand_fits m r 8) eqn:Hf; [|discriminate]. intros (d & _ & H)%bind_Done. revert H. by apply (Hst 8). }
  destruct (_ =? _).
  { destruct (relocation_operand_fits m r 4) eqn:Hf; [|discriminate]. cbn [negb]. destruct (negb _); [discriminate|]. by apply (Hst 4). }
  destruct (_ =? _); [|discriminate].
  destruct (relocation_operand_fits m r 4) eqn:Hf; [|discriminate]. cbn [negb]. destruct (negb _); [discriminate|]. by apply (Hst 4).
Qed.
End target.


(** ** One relocation stays in its section *)

Lemma relocation_target_frame m m' r : module_frame m m' -> relocation_target m' r = relocation_target m r.
Proof. intros H. unfold relocation_target, m_section_count, section_at. by rewrite (mf_sections _ _ H). Qed.

Lemma target_section_frame m m' r : module_frame m m' -> target_section m' r = target_section m r.
Proof. intros H. unfold target_section, section_at. by rewrite (mf_sections _ _ H). Qed.

Lemma relocate_with_within env s symbol r target address s' :
  module_wf (ls_module s) -> 0 <= rel_offset r -> 0 <= rel_target_section_index r ->
  relocation_target (ls_module s) r = Done target ->
  relocate_with env s symbol r target address = Done s' ->
  writes_within (target_section (ls_module s) r) (ls_module s) (ls_module s').
Proof.
  intros Hwf Ho Hi Ht ([s1 a1] & H1 & H)%bind_Done. apply mocked_symbol_address_resolves in H1 as Hr.
  pose proof Hr as [Hf He _]. apply bind_Done in H as (v & _ & H). apply bind_Done in H as (m2 & Hw & H).
  assert (ls_module s' = m2) as -> by (by injection H as <-).
  transitivity (ls_module s1); [by apply (resolves_within env)|]. rewrite <- (target_section_frame _ _ r Hf).
  apply (write_relocation_within _ r target) with (value := v); try done.
  - by apply (module_frame_wf (ls_module s)).
  - by rewrite (relocation_target_frame _ _ r Hf).
Qed.

Lemma apply_one_relocation_within env registry s r s' :
  module_wf (ls_module s) -> 0 <= rel_offset r -> 0 <= rel_target_section_index r ->
  apply_one_relocation env registry s r = Done s' ->
  writes_within (target_section (ls_module s) r) (ls_module s) (ls_module s').
Proof.
  intros Hwf Ho Hi (target & Ht & H)%bind_Done. apply bind_Done in H as (symbol & _ & H).
  assert (forall s1 a, resolves env s s1 -> relocate_with env s1 symbol r target a = Done s' ->
    writes_within (target_section (ls_module s) r) (ls_module s) (ls_module s')) as Hrel.
  { intros s1 a Hres Hrel. pose proof Hres as [Hf He _]. transitivity (ls_module s1); [by apply (resolves_within env)|].
    rewrite <- (target_section_frame _ _ r Hf). apply (relocate_with_within env s1 symbol r target a); try done.
    - by apply (module_frame_wf (ls_module s)).
    - by rewrite (relocation_target_frame _ _ r Hf). }
  destruct (_ =? _) in H.
  - apply bind_Done in H as ([m1|] & Hp & H).
    + assert (ls_module s' = m1) as -> by (by injection H as <-).
      destruct (_ && _) eqn:E in Hp; [|discriminate]. boolify. by apply (patch_within _ r target) with (symbol := symbol).
    + apply bind_Done in H as ([s1 a] & H1%external_symbol_address_resolves & H). by apply (Hrel s1 a).
  - destruct (_ =? _) in H; [by apply (Hrel s (sym_value symbol))|].
    apply bind_Done in H as ([s1 a] & H1%internal_symbol_address_resolves & H). by apply (Hrel s1 a).
Qed.

(** ** All relocations *)

Lemma for_from_keeps {S} (P : S -> Prop) (body : Z -> S -> outcome S) n i s s' :
  (forall j s s', i <= j < i + Z.of_nat n -> P s -> body j s = Done s' -> P s') ->
  P s -> for_from n i body s = Done s' -> P s'.
Proof.
  revert i s. induction n as [|n IH]; intros i s Hstep Hs; cbn [for_from]; [by intros [= <-]|].
  intros (s1 & H1 & H)%bind_Done. apply (IH (i + 1) s1); [|by apply (Hstep i s); [lia|..]|done].
  intros j t t' Hj. apply Hstep. lia.
Qed.

Lemma kb_elf_relocation_target f i k r section :
  file_coherent f -> kb_elf_section (Some f) i true = Done section -> kb_elf_relocation (Some f) i k true = Done r ->
  rel_target_section_index r = sec_info section /\ 0 <= rel_offset r /\ 0 <= rel_target_section_index r.
Proof.
  intros Hf Hs. pose proof Hf as (_ & _ & Hb). pose proof (kb_elf_section_ranges f Hf _ _ _ Hs) as (_ & _ & _ & Hi & _).
  unfold kb_elf_relocation. cbn zeta. cbn [negb]. rewrite Hs. mred. do 5 (case_match; [done|]).
  intros (info & _ & Hr)%bind_Done. apply bind_Done in Hr as (offset & Ho & Hr). apply bind_Done in Hr as (addend & _ & Hr).
  injection Hr as <-. cbn. apply read_u64le_range in Ho; [|done]. unfold is_u64, is_u32 in *. split_and!; (done || lia).
Qed.

(** Byte [k] of the image lies in the section relocated by section [i] of the file. *)
Definition relocated_by (m : kb_module) (i k : Z) : Prop :=
  0 <= i < file_section_count (m_elf m) /\
  exists section, kb_elf_section (Some (m_elf m)) i true = Done section /\ is_relocation_table section = true /\
    sec_info section < m_section_count m /\
    l_offset (section_at m (sec_info section)) <= k < section_end (section_at m (sec_info section)).

(** [m'] is [m] up to relocated bytes. *)
Record relocated (m m' : kb_module) : Prop := {
  rl_frame : module_frame m m';
  rl_bytes : forall k : nat, (forall i, ~ relocated_by m i (Z.of_nat k)) -> m_image m' !! k = m_image m !! k;
}.

Lemma relocated_by_frame m m' i k : module_frame m m' -> relocated_by m' i k <-> relocated_by m i k.
Proof.
  intros H. unfold relocated_by, m_section_count, section_at. by rewrite (mf_elf _ _ H), (mf_sections _ _ H).
Qed.

Lemma apply_section_relocations_relocated env registry m i s s' :
  module_wf m -> 0 <= i < file_section_count (m_elf m) -> relocated m (ls_module s) -> apply_section_relocations env registry i s = Done s' ->
  relocated m (ls_module s').
Proof.
  intros Hwf Hi Hrl (section & Hs & H)%bind_Done. destruct (is_relocation_table section) eqn:Ht; cbn [negb] in H; [|by injection H as <-].
  destruct (_ || _) eqn:E in H; [by injection H as <-|]. apply bind_Done in H as (n & _ & H). boolify.
  rewrite (mf_elf _ _ (rl_frame _ _ Hrl)) in Hs. unfold m_section_count in *. rewrite (mf_sections _ _ (rl_frame _ _ Hrl)) in *.
  revert Hrl H. apply (for_from_keeps (fun t => relocated m (ls_module t))). intros j t t' _ [Hf Hb] (r & Hr & Happ)%bind_Done.
  pose proof (module_frame_wf _ _ Hf Hwf) as Hwft. rewrite (mf_elf _ _ Hf) in Hr.
  destruct (kb_elf_relocation_target _ i j r section (proj1 (mw_elf _ Hwf)) Hs Hr) as (Htgt & Ho & Hti).
  destruct (apply_one_relocation_within env registry t r t' Hwft Ho Hti Happ) as [Hf' Hb'].
  rewrite (target_section_frame _ _ r Hf) in Hb'. split; [by etrans|]. intros k Hk. rewrite Hb', Hb; [done|done|].
  intros Hin. apply (Hk i). split; [done|]. exists section. unfold target_section in Hin. rewrite Htgt in Hin.
  unfold m_section_count. split_and!; (done || lia).
Qed.

Lemma apply_relocations_relocated env registry s s' :
  module_wf (ls_module s) -> apply_relocations env registry s = Done s' -> relocated (ls_module s) (ls_module s').
Proof.
  intros Hwf H. revert H. unfold apply_relocations.
  apply (for_from_keeps (fun t => relocated (ls_module s) (ls_module t))); [|by split].
  intros j t t' Hj. apply apply_section_relocations_relocated; [done|].
  destruct (mw_elf _ Hwf) as (_ & _ & _ & Hc & _). lia.
Qed.

(** C3: Relocating a loaded module writes only inside sections that a SHT_RELA or
    SHT_REL section of the file names as its target: every other byte of the
    image, and the image's size, the section records and the file, stay as they
    were, whatever the symbols resolve to. *)
Theorem relocation_stays_in_targets env registry s s' :
  module_wf (ls_module s) -> apply_relocations env registry s = Done s' ->
  module_wf (ls_module s') /\ m_sections (ls_module s') = m_sections (ls_module s) /\
  (forall k : nat, (forall i, ~ relocated_by (ls_module s) i (Z.of_nat k)) ->
     m_image (ls_module s') !! k = m_image (ls_module s) !! k).
Proof.
  intros Hwf [Hf Hb]%apply_relocations_relocated; [|done].
  split_and!; [by apply (module_frame_wf (ls_module s))|exact (mf_sections _ _ Hf)|done].
Qed.

(** ** Memory safety *)

(** The states relocation works on: the module is loaded and the shim table
    filled, with a name for every shim. *)
Record state_ok (s : loader_state) : Prop := {
  so_module : module_wf (ls_module s);
  so_ready : shim_symbol_cache_ready (ls_shims s) = true;
  so_named : all_named (shim_symbol_cache (ls_shims s));
}.

Lemma resolves_ok env s s' : resolves env s s' -> state_ok s -> state_ok s'.
Proof.
  intros [Hf _ Hs] [Hm Hr Hn]. assert (ls_shims s' = ls_shims s) as E.
  { destruct Hs as [->| ->]; [done|]. by apply table_init_ready. }
  split; rewrite ?E; try done. by apply (module_frame_wf (ls_module s)).
Qed.

Section safety.
Context (env : loader_env) (registry : list kb_loader_exported_symbol).

Lemma kvm_stub_loop_safe fuel st name provider i :
  shim_symbol_cache_ready st = true -> all_named (shim_symbol_cache st) ->
  safe (kvm_stub_loop env fuel st name provider i).
Proof using Type.
  intros Hr Hn. revert i. induction fuel as [|fuel IH]; intros i; [done|]. cbn [kvm_stub_loop].
  unfold shim_symbol_table_at. rewrite (table_init_ready _ _ Hr). cbn [snd].
  destruct (i <? _); [|apply IH]. destruct (shim_symbol_cache st !! Z.to_nat i) as [sym|] eqn:E; [|apply IH].
  destruct (Forall_lookup_1 _ _ _ _ Hn E) as [x ->]. by destruct (_ && _); [|apply IH].
Qed.

Lemma lookup_module_shim_symbol_safe s name : state_ok s -> safe (lookup_module_shim_symbol env s name).
Proof using Type.
  intros Hok. unfold lookup_module_shim_symbol. repeat (apply safe_if; intros _; [done|]).
  destruct (find_place _ _); [done|]. do 2 (apply safe_if; intros _; [done|]). apply safe_if; intros _.
  { apply safe_bind; [|done]. rewrite store_in; [done|vm_compute; discriminate|].
    rewrite (mw_data _ (so_module _ Hok)). vm_compute. discriminate. }
  apply safe_bind.
  - destruct (module_prefers_kvm_symbols _); [|done]. unfold module_kvm_provider_stub_by_name.
    destruct (ms_stubs _); [|done]. apply safe_if; intros _; [done|]. unfold shim_symbol_table_count.
    rewrite (table_init_ready _ _ (so_ready _ Hok)). apply safe_bind; [|done].
    apply kvm_stub_loop_safe; [exact (so_ready _ Hok)|exact (so_named _ Hok)].
  - intros [s1 kvm] _. apply safe_if; intros _; [done|]. destruct (find_place _ _); [done|].
    destruct (stub_address _ _ _ _) as [shims stub]. apply safe_if; intros _; [done|].
    unfold lookup_after_stubs. destruct (list_find _ _) as [[? ?]|]; [done|]. destruct (find_place _ _); [done|].
    by repeat (apply safe_if; intros _; [done|]).
Qed.

Lemma lookup_internal_symbol_override_safe s name : state_ok s -> safe (lookup_internal_symbol_override env s name).
Proof using Type.
  intros Hok. unfold lookup_internal_symbol_override. do 2 (apply safe_if; intros _; [done|]).
  do 2 (apply safe_if; intros _; [by apply lookup_module_shim_symbol_safe|]).
  destruct (list_find _ _) as [[? ?]|]; [by apply lookup_module_shim_symbol_safe|done].
Qed.

Lemma external_symbol_address_safe s symbol r : state_ok s -> safe (external_symbol_address env registry s symbol r).
Proof using Type.
  intros Hok. apply safe_bind.
  - apply safe_bind; [destruct (should_interpose_exported_symbol _); [by apply lookup_module_shim_symbol_safe|done]|].
    intros [s1 a1] H1. assert (state_ok s1).
    { destruct (should_interpose_exported_symbol _); [|by injection H1 as <- _].
      apply lookup_module_shim_symbol_resolves in H1. by apply (resolves_ok env s). }
    apply safe_if; intros _; [done|]. apply safe_if; intros _; [done|].
    apply safe_bind; [by apply lookup_module_shim_symbol_safe|]. by intros [? ?].
  - intros [[s1 a1] b1] _. apply safe_if; intros _; [done|]. apply safe_bind; [|by intros [? ?]].
    apply safe_if; intros _; [|done]. unfold cross_module_stub. apply safe_if; intros _; [done|].
    destruct (allocate_external_call_stub _ _ _ _ _ _) as [[? [?|]] [?|]]; done.
Qed.

Lemma internal_symbol_address_safe s symbol : state_ok s -> safe (internal_symbol_address env s symbol).
Proof using Type.
  intros Hok. unfold internal_symbol_address. apply safe_if; intros _.
  - apply safe_bind; [|done]. unfold percpu_symbol_offset. by apply safe_if.
  - apply safe_bind; [unfold loaded_section_address; by repeat (apply safe_if; intros _; [done|])|]. intros a _.
    apply safe_bind; [by apply lookup_internal_symbol_override_safe|]. by intros [? ?].
Qed.
End safety.

Lemma checked_s64_done z v : checked_s64 z = Done v -> v = z /\ is_s64 z.
Proof. unfold checked_s64. destruct (_ && _) eqn:E; [|discriminate]. intros [= <-]. boolify. unfold is_s64. lia. Qed.

Lemma checked_s64_fault z : checked_s64 z = Fault -> ~ is_s64 z.
Proof. unfold checked_s64. destruct (_ && _) eqn:E; [discriminate|]. boolify. unfold is_s64. lia. Qed.

Section fault.
Context (m : kb_module) (r : kb_elf_relocation_t) (target : Z).
Hypothesis wf : module_wf m.
Hypothesis offset_ok : 0 <= rel_offset r.
Hypothesis index_ok : 0 <= rel_target_section_index r.
Hypothesis has_target : relocation_target m r = Done target.

Lemma patch_safe symbol :
  0 < rel_offset r -> relocation_operand_fits m r 4 = true ->
  safe (patch_local_x86_64_external m symbol r target).
Proof using All.
  intros Hr Hfit%fits_bounds. assert (forall q, blen q = 5 -> safe (image_store m (target - 1) q)) as Hst.
  { intros q Hq. apply (image_store_succeeds m r target wf offset_ok index_ok has_target _ (-1)); lia. }
  pose proof (target_bounds m r target wf offset_ok index_ok has_target) as (_ & _ & Ht & Hlo & Hhi & Hend).
  unfold patch_local_x86_64_external. apply safe_if; intros _; [done|].
  do 2 (apply safe_if; intros _; [apply safe_bind; [by apply Hst|done]|]). apply safe_if; intros _; [done|].
  apply safe_bind; [|intros opcode _].
  - apply load8_safe. unfold section_end in Hend. lia.
  - apply safe_if; intros _; [|done]. apply safe_bind; [|done]. apply Hst, indirect_branch_length.
Qed.

(** The only undefined step of writing is the signed difference. *)
Lemma write_relocation_fault value :
  write_relocation m r target value = Fault -> ~ is_s64 (value - target).
Proof using All.
  assert (forall w q, relocation_operand_fits m r w = true -> blen q = w -> image_store m target q <> Fault) as Hst.
  { intros w q Hf%fits_bounds Hq. apply (image_store_succeeds m r target wf offset_ok index_ok has_target _ 0); lia. }
  assert (s64 target = target) as Hs.
  { pose proof (target_bounds m r target wf offset_ok index_ok has_target) as (_ & _ & Ht & Hlo & Hhi & Hend).
    pose proof (mw_base _ wf). unfold section_end, s64 in *. rewrite Z.mod_small; lia. }
  unfold write_relocation. rewrite Hs. destruct (_ =? _); [discriminate|].
  destruct (_ =? _).
  { destruct (relocation_operand_fits m r 8) eqn:Hf; [|discriminate]. intros H. by apply (Hst 8) in H. }
  destruct (is_pc_relative r).
  { destruct (relocation_operand_fits m r 4) eqn:Hf; [|discriminate].
    intros [H|(d & _ & H)]%bind_Fault; [by apply checked_s64_fault in H|].
    destruct (negb _); [discriminate|]. by apply (Hst 4) in H. }
  destruct (_ =? _).
  { destruct (relocation_operand_fits m r 8) eqn:Hf; [|discriminate].
    intros [H|(d & _ & H)]%bind_Fault; [by apply checked_s64_fault in H|by apply (Hst 8) in H]. }
  do 2 (destruct (_ =? _);
    [destruct (relocation_operand_fits m r 4) eqn:Hf; [|discriminate]; cbn [negb];
     destruct (negb _); [discriminate|]; intros H; by apply (Hst 4) in H|]).
  discriminate.
Qed.
End fault.

(** The addend of a relocation. *)
Definition addend_of (r : kb_elf_relocation_t) : Z := if rel_has_addend r then rel_addend r else 0.

(** The address a relocation adds its addend to. *)
Definition symbol_address (env : loader_env) (registry : list kb_loader_exported_symbol) (s : loader_state)
    (symbol : kb_elf_symbol_t) (r : kb_elf_relocation_t) : outcome (loader_state * Z) :=
  if sym_section_index symbol =? KB_ELF_SHN_UNDEF then external_symbol_address env registry s symbol r
  else if sym_section_index symbol =? KB_ELF_SHN_ABS then Done (s, sym_value symbol)
  else internal_symbol_address env s symbol.

Definition relocated_address (env : loader_env) (registry : list kb_loader_exported_symbol) (s : loader_state)
    (symbol : kb_elf_symbol_t) (r : kb_elf_relocation_t) (target : Z) : outcome (loader_state * Z) :=
  '(s, a) ← symbol_address env registry s symbol r; mocked_symbol_address env s symbol r target a.

(** S + A and S + A - P do not overflow. *)
Definition no_overflow (r : kb_elf_relocation_t) (target address : Z) : Prop :=
  is_s64 (s64 address + addend_of r) /\ is_s64 (s64 address + addend_of r - target).

Lemma relocate_with_safe env s symbol r target address :
  state_ok s -> 0 <= rel_offset r -> 0 <= rel_target_section_index r ->
  relocation_target (ls_module s) r = Done target ->
  (forall s1 a, mocked_symbol_address env s symbol r target address = Done (s1, a) -> no_overflow r target a) ->
  safe (relocate_with env s symbol r target address).
Proof.
  intros Hok Ho Hi Ht Hno. apply safe_bind.
  { unfold mocked_symbol_address. apply safe_if; intros E; [|done]. boolify.
    pose proof (target_bounds _ r target (so_module _ Hok) Ho Hi Ht) as (_ & _ & Hta & Hlo & Hhi & Hend).
    unfold section_end in *. apply safe_bind.
    - unfold relocation_is_direct_call. apply safe_if; intros _; [done|]. apply safe_bind; [|done]. apply load8_safe. lia.
    - intros d _. apply safe_if; intros _; [|done]. apply safe_bind; [by apply lookup_module_shim_symbol_safe|by intros [? ?]]. }
  intros [s1 a1] H1. destruct (Hno s1 a1 H1) as [Hv Hd]. apply mocked_symbol_address_resolves in H1. fold (addend_of r).
  apply safe_bind; [intros H; by apply checked_s64_fault in H|]. intros v [-> _]%checked_s64_done.
  apply safe_bind; [|done]. pose proof (rs_frame _ _ _ H1) as Hf. intros H.
  apply (write_relocation_fault _ r target) in H; [done| |done|done|by rewrite (relocation_target_frame _ _ r Hf)].
  by apply (module_frame_wf (ls_module s)), (so_module _ Hok).
Qed.

(** Applying a relocation is memory-safe on any loaded module, with any
    relocation entry and whatever its symbol resolves to: every read and write
    stays inside the image, the stub area and the shim data, provided that S + A
    and S + A - P do not overflow 64 bits. *)
Theorem relocation_memory_safe env registry s r :
  state_ok s -> 0 <= rel_offset r -> 0 <= rel_target_section_index r ->
  (forall target symbol s1 a, relocation_target (ls_module s) r = Done target ->
     kb_elf_symbol (Some (m_elf (ls_module s))) (rel_symbol_table_section_index r) (rel_symbol_index r) true = Done symbol ->
     relocated_address env registry s symbol r target = Done (s1, a) -> no_overflow r target a) ->
  safe (apply_one_relocation env registry s r).
Proof.
  intros Hok Ho Hi Hno. unfold apply_one_relocation. apply safe_bind.
  { unfold relocation_target. by repeat (apply safe_if; intros _; [done|]). }
  intros target Ht. apply safe_bind; [apply kb_elf_symbol_safe, (mw_elf _ (so_module _ Hok))|]. intros symbol Hsym.
  specialize (Hno target symbol). unfold relocated_address, symbol_address in Hno.
  assert (forall s0 a0, resolves env s s0 ->
    (forall s1 a, mocked_symbol_address env s0 symbol r target a0 = Done (s1, a) -> no_overflow r target a) ->
    safe (relocate_with env s0 symbol r target a0)) as Hrel.
  { intros s0 a0 Hr Hm. apply relocate_with_safe; try done; [by apply (resolves_ok env s)|].
    by rewrite (relocation_target_frame _ _ r (rs_frame _ _ _ Hr)). }
  destruct (_ =? KB_ELF_SHN_UNDEF).
  - apply safe_bind.
    { apply safe_if; intros E; [|done]. boolify. by apply patch_safe; [exact (so_module _ Hok)|..]. }
    intros [m1|] _; [done|]. apply safe_bind; [by apply external_symbol_address_safe|]. intros [s1 a1] H1.
    apply Hrel; [by apply external_symbol_address_resolves in H1|]. intros s2 a2 H2. apply (Hno s2 a2 Ht Hsym). by rewrite H1.
  - destruct (_ =? KB_ELF_SHN_ABS); [apply Hrel; [done|]; intros s2 a2; by apply Hno|].
    apply safe_bind; [by apply internal_symbol_address_safe|]. intros [s1 a1] H1.
    apply Hrel; [by apply internal_symbol_address_resolves in H1|]. intros s2 a2 H2. apply (Hno s2 a2 Ht Hsym). by rewrite H1.
Qed.

(** ** What is written *)

(** The field at offset [o] of the image encodes the value [v] (S + A) for the
    relocation type, as the processor will read it at address [target]. *)
Definition encodes (image : list Z) (o : Z) (r : kb_elf_relocation_t) (target v : Z) : Prop :=
  let type := rel_type r in
  if type =? KB_ELF_R_X86_64_NONE then True
  else if type =? KB_ELF_R_X86_64_64 then read_u64le image o = Done (u64 v)
  else if is_pc_relative r then exists d, read_u32le image o = Done d /\ target + s32 d = v
  else if type =? KB_ELF_R_X86_64_PC64 then exists d, read_u64le image o = Done d /\ target + s64 d = v
  else if type =? KB_ELF_R_X86_64_32 then read_u32le image o = Done v
  else type = KB_ELF_R_X86_64_32S /\ exists d, read_u32le image o = Done d /\ s32 d = v.

Lemma s32_u32 d : - 0x80000000 <= d <= 0x7fffffff -> s32 (u32 d) = d.
Proof. intros H. unfold s32, u32. Z.div_mod_to_equations. lia. Qed.

Lemma image_store_reads32 m a v m' : is_u32 v -> image_store m a (write_u32le v) = Done m' ->
  read_u32le (m_image m') (a - m_image_base m) = Done v.
Proof. intros Hv (H0 & H1 & ->)%image_store_done. by apply read_write_u32le, bytes_at_splice. Qed.

Lemma image_store_reads64 m a v m' : is_u64 v -> image_store m a (write_u64le v) = Done m' ->
  read_u64le (m_image m') (a - m_image_base m) = Done v.
Proof. intros Hv (H0 & H1 & ->)%image_store_done. by apply read_write_u64le, bytes_at_splice. Qed.

Lemma write_relocation_encodes m r target v m' :
  s64 target = target -> is_s64 v -> write_relocation m r target v = Done m' ->
  encodes (m_image m') (target - m_image_base m) r target v.
Proof.
  intros Hs Hv. unfold write_relocation, encodes. rewrite Hs. destruct (_ =? _); [done|].
  destruct (_ =? _).
  { destruct (relocation_operand_fits m r 8); [|discriminate]. apply image_store_reads64, u64_range. }
  destruct (is_pc_relative r).
  { destruct (relocation_operand_fits m r 4); [|discriminate]. intros (d & [-> _]%checked_s64_done & H)%bind_Done.
    destruct (value_fits_i32 _) eqn:Hf; [|discriminate]. unfold value_fits_i32 in Hf. boolify.
    eexists. split; [apply (image_store_reads32 _ _ _ _ (u32_range _) H)|]. rewrite s32_u32; lia. }
  destruct (_ =? _).
  { destruct (relocation_operand_fits m r 8); [|discriminate]. intros (d & [-> Hd]%checked_s64_done & H)%bind_Done.
    eexists. split; [apply (image_store_reads64 _ _ _ _ (u64_range _) H)|]. rewrite s64_u64 by done. lia. }
  destruct (_ =? _).
  { destruct (relocation_operand_fits m r 4); [|discriminate]. cbn [negb].
    destruct (value_fits_u32 _) eqn:Hf; [|discriminate]. unfold value_fits_u32 in Hf. boolify.
    assert (u32 v = v) as -> by (unfold u32; apply Z.mod_small; lia). apply image_store_reads32. unfold is_u32. lia. }
  destruct (Z.eqb_spec (rel_type r) KB_ELF_R_X86_64_32S); [|discriminate].
  destruct (relocation_operand_fits m r 4); [|discriminate]. cbn [negb].
  destruct (value_fits_i32 _) eqn:Hf; [|discriminate]. unfold value_fits_i32 in Hf. boolify. intros Hst.
  split; [done|]. eexists. split; [apply (image_store_reads32 _ _ _ _ (u32_range _) Hst)|]. apply s32_u32. lia.
Qed.

Lemma relocate_with_encodes env s symbol r target a s' :
  s64 target = target -> relocate_with env s symbol r target a = Done s' ->
  exists s1 b, mocked_symbol_address env s symbol r target a = Done (s1, b) /\
    encodes (m_image (ls_module s')) (target - m_image_base (ls_module s)) r target (s64 b + addend_of r).
Proof.
  intros Ht ([s1 b] & H1 & H)%bind_Done. fold (addend_of r) in H. exists s1, b. split; [done|].
  apply bind_Done in H as (v & [-> Hv]%checked_s64_done & H). apply bind_Done in H as (m2 & Hw & H).
  assert (ls_module s' = m2) as -> by (by injection H as <-).
  apply mocked_symbol_address_resolves in H1. rewrite <- (mf_base _ _ (rs_frame _ _ _ H1)).
  by apply write_relocation_encodes.
Qed.

(** C2: A relocation that succeeds either replaced one of the known external
    calls, or wrote the field the x86-64 psABI prescribes for its type: the
    stored 64- or 32-bit field, read back and extended as the processor does
    (relative to the place for the PC types), is exactly S + A, where S is the
    address the symbol resolved to.  Values that do not fit are refused, never
    truncated. *)
Theorem relocation_writes_formula env registry s r s' :
  module_wf (ls_module s) -> 0 <= rel_offset r -> 0 <= rel_target_section_index r ->
  apply_one_relocation env registry s r = Done s' ->
  exists target symbol, relocation_target (ls_module s) r = Done target /\
    kb_elf_symbol (Some (m_elf (ls_module s))) (rel_symbol_table_section_index r) (rel_symbol_index r) true = Done symbol /\
    ((sym_section_index symbol = KB_ELF_SHN_UNDEF /\
      patch_local_x86_64_external (ls_module s) symbol r target = Done (Some (ls_module s'))) \/
     exists s1 a, relocated_address env registry s symbol r target = Done (s1, a) /\
       encodes (m_image (ls_module s')) (target - m_image_base (ls_module s)) r target (s64 a + addend_of r)).
Proof.
  intros Hwf Ho Hi (target & Ht & H)%bind_Done. apply bind_Done in H as (symbol & Hsym & H).
  exists target, symbol. split; [done|]. split; [done|]. unfold relocated_address, symbol_address.
  assert (s64 target = target) as Hs.
  { pose proof (target_bounds _ r target Hwf Ho Hi Ht) as (_ & _ & -> & Hlo & Hhi & Hend).
    pose proof (mw_base _ Hwf). unfold section_end, s64 in *. rewrite Z.mod_small; lia. }
  assert (forall s0 a0 d, resolves env s s0 -> d = m_image_base (ls_module s) -> relocate_with env s0 symbol r target a0 = Done s' ->
    exists s1 a, mocked_symbol_address env s0 symbol r target a0 = Done (s1, a) /\
      encodes (m_image (ls_module s')) (target - d) r target (s64 a + addend_of r)) as Hrel.
  { intros s0 a0 d Hr ->. rewrite <- (mf_base _ _ (rs_frame _ _ _ Hr)). by apply relocate_with_encodes. }
  destruct (Z.eqb_spec (sym_section_index symbol) KB_ELF_SHN_UNDEF).
  - apply bind_Done in H as ([m1|] & Hp & H).
    + left. split; [done|]. destruct (_ && _); [|discriminate]. rewrite Hp. by injection H as <-.
    + right. apply bind_Done in H as ([s1 a1] & H1 & H). rewrite H1. apply external_symbol_address_resolves in H1.
      by apply Hrel.
  - right. destruct (_ =? KB_ELF_SHN_ABS); [by apply Hrel|].
    apply bind_Done in H as ([s1 a1] & H1 & H). rewrite H1. apply internal_symbol_address_resolves in H1. by apply Hrel.
Qed.

(** ** Precedence *)

Definition exported_address (registry : list kb_loader_exported_symbol) (name : list Z) : Z :=
  default 0 (fst <$> registry_abs registry !! name).

(** An external symbol resolves in a fixed order.  An export of a loaded
    module (the registry read as a map) wins over the shims, except for the
    interposed names, whose shim wins whenever it exists; the shims are asked
    last, and a name that nobody provides fails the relocation as unsupported
    instead of resolving to 0. *)
Theorem external_symbol_precedence env registry s symbol r :
  registry_ok registry -> name_usable (mk_cptr (le_names env) (sym_name symbol)) = true ->
  let name := sym_name symbol in
  match find_external env registry s name with
  | Done (s', a, exported) =>
      (a = 0 -> external_symbol_address env registry s symbol r = Fail KB_ERR_UNSUPPORTED) /\
      if exported
      then a = exported_address registry name /\ a <> 0 /\
           (should_interpose_exported_symbol name = true -> exists s1, lookup_module_shim_symbol env s name = Done (s1, 0))
      else (should_interpose_exported_symbol name = true /\ a <> 0 /\ lookup_module_shim_symbol env s name = Done (s', a)) \/
           (exported_address registry name = 0 /\
            exists s1, resolves env s s1 /\ lookup_module_shim_symbol env s1 name = Done (s', a))
  | _ => True
  end.
Proof.
  intros Hok Hu name. destruct (find_external env registry s name) as [[[s' a] exported]| |] eqn:E; [|done|done]. split.
  { intros ->. unfold external_symbol_address. fold name. by rewrite E. }
  apply bind_Done in E as ([s1 a1] & H1 & H). cbv zeta in H.
  assert (kb_loader_symbol_registry_lookup_export registry (mk_cptr (le_names env) name) = exported_address registry name) as Hlook.
  { pose proof (lookup_refines registry (mk_cptr (le_names env) name) Hok) as Hl. fold name in Hu. rewrite Hu in Hl. exact Hl. }
  rewrite Hlook in H. destruct (Z.eqb_spec a1 0) as [->|Hne]; cbn [negb] in H.
  2:{ injection H as <- <- <-. left. destruct (should_interpose_exported_symbol name); [done|]. by injection H1 as <- <-. }
  assert (resolves env s s1) as Hr.
  { destruct (should_interpose_exported_symbol name); [by apply lookup_module_shim_symbol_resolves in H1|by injection H1 as <-]. }
  destruct (Z.eqb_spec (exported_address registry name) 0) as [Hz|Hnz]; cbn [negb] in H.
  - apply bind_Done in H as ([s2 a2] & H2 & H). injection H as <- <- <-. right. split; [done|]. by exists s1.
  - injection H as <- <- <-. split_and!; [done|done|]. intros Hi. rewrite Hi in H1. by exists s1.
Qed.

(** ** The demo module, relocated *)

Definition demo_base : Z := 0x7f0000000000.

Definition loaded_parts (r : outcome (list Z * list Z * list loaded_section)) : list Z * list loaded_section :=
  match r with Done (image, _, sections) => (image, sections) | _ => ([], []) end.
Definition demo_loaded : list Z * list loaded_section := loaded_parts (snd (load_image 4096 demo_file 64 demo_base zero_gs)).
Definition demo_image : list Z := fst demo_loaded.
Definition demo_loaded_sections : list loaded_section := snd demo_loaded.

(** One shim, and a symbol "peer" that another module exports. *)
Definition demo_providers : list (option (list kb_linux_symbol)) := [Some [mk_linux_symbol (Some (cstr "_printk")) 0x500000]].
Definition demo_env : loader_env :=
  mk_loader_env demo_providers [] 0x600000 0x601000 0x602000 0x603000 0x604000 0x605000 None false 0x700000 [].
Definition demo_registry : list kb_loader_exported_symbol :=
  fst (kb_loader_symbol_registry_add_export exported_symbols_init (mk_cptr 0x710000 (cstr "peer")) 0x7f0000100000 0x42).

Definition demo_module : kb_module :=
  mk_module demo_file (Some (cstr "demo.ko")) demo_base demo_image demo_loaded_sections
    (mk_module_stubs (Some zero_area) 0 0x800000) (replicate (Z.to_nat KB_LOCAL_SHIM_DATA_SIZE) 0) []
    (pl_percpu_offset demo_placement) (pl_percpu_size demo_placement).

Definition demo_state : loader_state :=
  mk_loader_state (shim_symbol_table_init demo_providers shim_state_init) demo_module [].

Lemma demo_file_wf : file_wf demo_file.
Proof.
  destruct (kb_elf_open_wf (file_data demo_file) true demo_file) as [_ H]; [| |exact demo_opens|exact H].
  - exact (proj2 (proj2 (lo_file _ _ _ demo_loadable))).
  - exact (proj1 (proj2 (lo_file _ _ _ demo_loadable))).
Qed.

Lemma demo_module_wf : module_wf demo_module.
Proof.
  destruct (load_image_inv 4096 12 demo_file demo_sections 64 demo_placement demo_base zero_gs eq_refl ltac:(lia)
    demo_loadable ltac:(vm_compute; split; congruence) blen_zero_gs ltac:(discriminate) demo_placed ltac:(discriminate))
    as (_ & _ & image & gs & sections & H & _).
  assert (demo_image = image) as Hi by (unfold demo_image, demo_loaded; by rewrite H).
  assert (demo_loaded_sections = sections) as Hs by (unfold demo_loaded_sections, demo_loaded; by rewrite H).
  unfold demo_module. rewrite Hi, Hs.
  refine (load_image_wf 4096 12 demo_file demo_sections 64 demo_placement demo_base zero_gs image gs sections _ _ _
    eq_refl _ demo_loadable _ blen_zero_gs _ _ demo_placed _ H demo_file_wf _);
    [lia|vm_compute; split; congruence|reflexivity|vm_compute; discriminate|discriminate|].
  unfold blen. rewrite length_replicate. apply Z2Nat.id. discriminate.
Qed.

Lemma demo_state_ok : state_ok demo_state.
Proof. split; [exact demo_module_wf|reflexivity|]. vm_compute. repeat constructor. by eexists. Qed.

Lemma demo_relocates : exists s', apply_relocations demo_env demo_registry demo_state = Done s'.
Proof.
  assert (match apply_relocations demo_env demo_registry demo_state with Done _ => true | _ => false end = true) as H
    by (vm_compute; reflexivity).
  destruct (apply_relocations demo_env demo_registry demo_state) as [s'| |]; [by exists s'|discriminate|discriminate].
Qed.

(** No relocation of the demo module targets its data. *)
Lemma demo_data_not_relocated i : ~ relocated_by demo_module i 4096.
Proof.
  intros (Hi & section & Hs & Ht & _ & Hr). change (file_section_count (m_elf demo_module)) with 8 in Hi.
  assert (forall j, (j < 7)%nat -> is_relocation_table (nth j demo_sections sample_null) = false) as Hno.
  { intros j Hj. do 7 (destruct j as [|j]; [reflexivity|]). lia. }
  assert (exists j : nat, i = Z.of_nat j /\ (j < 8)%nat) as (j & -> & Hj) by (exists (Z.to_nat i); lia).
  destruct (lookup_lt_is_Some_2 demo_sections j) as [s Hl]; [done|].
  pose proof (proj2 demo_sections_of j s Hl) as Hsec. change (m_elf demo_module) with demo_file in Hs.
  rewrite Hs in Hsec. injection Hsec as ->. apply (nth_lookup_Some _ _ sample_null) in Hl as Hn.
  destruct (decide (j < 7)%nat) as [Hlt|]; [specialize (Hno j Hlt); congruence|].
  assert (j = 7%nat) as -> by lia. revert Hr. vm_compute in Hl. injection Hl as <-. vm_compute. intros [_ H]. discriminate.
Qed.

Lemma relocation_stays_in_targets_witness :
  exists s', apply_relocations demo_env demo_registry demo_state = Done s' /\
    m_image (ls_module s') !! 4096%nat = m_image demo_module !! 4096%nat.
Proof.
  destruct demo_relocates as [s' Hs]. exists s'. split; [exact Hs|].
  apply (relocation_stays_in_targets demo_env demo_registry demo_state s' demo_module_wf Hs).
  exact demo_data_not_relocated.
Defined.

(** The absolute relocation of "value" in [.text]. *)
Definition demo_reloc : kb_elf_relocation_t := mk_elf_relocation 12 1 2 0 true 2 6.

(** Only the address of a resolution's result. *)
Definition address_of (r : outcome (loader_state * Z)) : Z := match r with Done (_, a) => a | _ => -1 end.

Lemma demo_no_overflow target symbol s1 a :
  relocation_target (ls_module demo_state) demo_reloc = Done target ->
  kb_elf_symbol (Some (m_elf (ls_module demo_state))) 6 2 true = Done symbol ->
  relocated_address demo_env demo_registry demo_state symbol demo_reloc target = Done (s1, a) ->
  no_overflow demo_reloc target a.
Proof.
  intros Ht Hs Ha. vm_compute in Ht. injection Ht as <-. vm_compute in Hs. injection Hs as <-.
  apply (f_equal address_of) in Ha. change (address_of (Done (s1, a))) with a in Ha. rewrite <- Ha.
  vm_compute. split; split; congruence.
Qed.

Lemma relocation_memory_safe_witness : safe (apply_one_relocation demo_env demo_registry demo_state demo_reloc).
Proof.
  apply (relocation_memory_safe demo_env demo_registry demo_state demo_reloc demo_state_ok);
    [vm_compute; discriminate|vm_compute; discriminate|]. exact demo_no_overflow.
Defined.

Lemma demo_reloc_applies : exists s', apply_one_relocation demo_env demo_registry demo_state demo_reloc = Done s'.
Proof.
  assert (match apply_one_relocation demo_env demo_registry demo_state demo_reloc with Done _ => true | _ => false end = true)
    as H by (vm_compute; reflexivity).
  destruct (apply_one_relocation demo_env demo_registry demo_state demo_reloc) as [s'| |]; [by exists s'|discriminate|discriminate].
Qed.

Lemma relocation_writes_formula_witness :
  exists s' target symbol, apply_one_relocation demo_env demo_registry demo_state demo_reloc = Done s' /\
    relocation_target demo_module demo_reloc = Done target /\
    ((sym_section_index symbol = KB_ELF_SHN_UNDEF /\
      patch_local_x86_64_external demo_module symbol demo_reloc target = Done (Some (ls_module s'))) \/
     exists s1 a, relocated_address demo_env demo_registry demo_state symbol demo_reloc target = Done (s1, a) /\
       encodes (m_image (ls_module s')) (target - demo_base) demo_reloc target (s64 a + addend_of demo_reloc)).
Proof.
  destruct demo_reloc_applies as [s' Hs].
  destruct (relocation_writes_formula demo_env demo_registry demo_state demo_reloc s' demo_module_wf
    ltac:(vm_compute; discriminate) ltac:(vm_compute; discriminate) Hs) as (target & symbol & Ht & _ & H).
  exists s', target, symbol. split_and!; [exact Hs|exact Ht|exact H].
Defined.

(** With an addend of 2^63 - 1, which an Elf64_Rela entry can hold, [S + A]
    overflows [int64_t]: the C code has no defined behaviour there. *)
Theorem relocation_addend_overflows :
  apply_one_relocation demo_env demo_registry demo_state
    (mk_elf_relocation 12 KB_ELF_R_X86_64_64 2 0x7fffffffffffffff true 2 6) = Fault.
Proof. vm_compute. reflexivity. Qed.

Lemma external_symbol_precedence_witness :
  exists s', find_external demo_env demo_registry demo_state (cstr "peer") = Done (s', 0x7f0000100000, true) /\
    exported_address demo_registry (cstr "peer") = 0x7f0000100000.
Proof.
  pose proof (external_symbol_precedence demo_env demo_registry demo_state (mk_elf_symbol (cstr "peer") 1 0 0 0 0 0) demo_reloc
    (registry_ok_add _ _ _ _ registry_ok_init) eq_refl) as H. cbv zeta in H. cbn [sym_name] in H.
  assert (match find_external demo_env demo_registry demo_state (cstr "peer") with
          | Done (_, a, b) => (a =? 0x7f0000100000) && b | _ => false end = true) as Hr by (vm_compute; reflexivity).
  destruct (find_external demo_env demo_registry demo_state (cstr "peer")) as [[[s' a] b]| |]; [|discriminate|discriminate].
  apply andb_true_iff in Hr as [Ha ->]. apply Z.eqb_eq in Ha. destruct H as [_ (He & _)]. exists s'. by rewrite <- He, Ha.
Defined.
