(* ===== verification/Protections.v ===== *)
(** * Page protections (src/src/loader/module_loader.c, finalize_section_protections)

    After relocation the loader makes the whole image read-only and then gives
    each run of sections, the stubs and the shim data their own protection.

    [perms k] is the protection of the [k]th page of the image, in the bits of
    [mprotect]; [allowed] tells whether the system lets a call succeed.  A call
    whose start is not a multiple of the page size fails (EINVAL). *)

From S2P Require Import Prelude Bytes ElfReader ShimTable ModuleLayout LoaderSample LayoutTheorems ShimLookup Relocation RelocTheorems.

Definition PROT_READ : Z := 1.
Definition PROT_WRITE : Z := 2.
Definition PROT_EXEC : Z := 4.

Section protecting.
Context (page : Z) (allowed : Z -> Z -> Z -> bool).

(** Offsets are relative to [image_base], which is a page boundary. *)
Definition mprotect (perms : Z -> Z) (start len prot : Z) : option (Z -> Z) :=
  if negb (start mod page =? 0) || negb (allowed start len prot) then None
  else Some (fun k => if (start <=? k * page) && (k * page <? start + len) then prot else perms k).

Definition native_prot (protection : Z) : Z :=
  if protection =? 2 then Z.lor PROT_READ PROT_EXEC
  else if protection =? 1 then Z.lor PROT_READ PROT_WRITE
  else PROT_READ.

Definition protect_section_run (perms : Z -> Z) (start finish protection : Z) : option (Z -> Z) :=
  mprotect perms start (u64 (finish - start)) (native_prot protection).

Record protection_run := mk_run {
  run_start : Z;
  run_end : Z;
  run_protection : Z;
  run_perms : Z -> Z;
}.

(** Apply the run so far. *)
Definition flush_run (st : protection_run) : option (Z -> Z) :=
  if run_protection st =? -1 then Some (run_perms st)
  else protect_section_run (run_perms st) (run_start st) (run_end st) (run_protection st).

Definition section_start (section : loaded_section) : Z := Z.land (l_offset section) (u64 (Z.lnot (u64 (page - 1)))).
Definition section_finish (section : loaded_section) : Z := align_up_u64 (u64 (l_offset section + l_size section)) page.

(** One section of the loop. *)
Definition protect_step (st : protection_run) (section : loaded_section) : option protection_run :=
  if (l_base section =? 0) || (l_size section =? 0) then Some st
  else
    let start := section_start section in
    let finish := section_finish section in
    let protection := section_protection (l_flags section) in
    if (run_protection st =? protection) && (start <=? run_end st) then
      Some (mk_run (run_start st) (if run_end st <? finish then finish else run_end st) (run_protection st) (run_perms st))
    else
      match flush_run st with
      | None => None
      | Some perms => Some (mk_run start finish protection perms)
      end.

Fixpoint protect_loop (st : protection_run) (sections : list loaded_section) : option protection_run :=
  match sections with
  | [] => Some st
  | section :: sections =>
      match protect_step st section with
      | None => None
      | Some st => protect_loop st sections
      end
  end.

(** [module->image_size]: the sections and the shim region. *)
Definition m_image_size (m : kb_module) : Z := blen (m_image m) + KB_LOCAL_SHIM_REGION_SIZE.

Definition finalize_section_protections (m : kb_module) (perms : Z -> Z) : outcome (Z -> Z) :=
  let rounded_size := align_up_u64 (m_image_size m) page in
  let shim_region := blen (m_image m) in
  match mprotect perms 0 rounded_size PROT_READ with
  | None => Fail KB_ERR_UNSUPPORTED
  | Some perms =>
      match protect_loop (mk_run 0 0 (-1) perms) (m_sections m) with
      | None => Fail KB_ERR_UNSUPPORTED
      | Some st =>
          match flush_run st with
          | None => Fail KB_ERR_UNSUPPORTED
          | Some perms =>
              match mprotect perms shim_region KB_LOCAL_SHIM_DATA_OFFSET (Z.lor PROT_READ PROT_EXEC) with
              | None => Fail KB_ERR_UNSUPPORTED
              | Some perms =>
                  match mprotect perms (shim_region + KB_LOCAL_SHIM_DATA_OFFSET) KB_LOCAL_SHIM_DATA_SIZE
                          (Z.lor PROT_READ PROT_WRITE) with
                  | None => Fail KB_ERR_UNSUPPORTED
                  | Some perms => Done perms
                  end
              end
          end
      end
  end.
End protecting.

(** ** Pages of a section *)

Section pages.
Context (page p : Z) (Hpage : page = 2 ^ p) (Hp : 0 <= p).

Lemma page_positive : 0 < page.
Proof using All. by apply (page_pos page p). Qed.

(** A section that takes part: loaded and not empty, inside the address space. *)
Definition occupies (l : loaded_section) : Prop := l_base l <> 0 /\ l_size l <> 0.
Definition in_bounds (l : loaded_section) : Prop :=
  0 <= l_offset l /\ 0 <= l_size l /\ section_end l + page <= UINT64_MAX.

Lemma section_start_floor l : in_bounds l -> section_start page l = page * (l_offset l / page).
Proof using All.
  intros (H0 & H1 & H2). pose proof page_positive as Hpos. unfold section_end, UINT64_MAX in *. unfold section_start.
  rewrite (u64_small (page - 1)) by (unfold is_u64; lia). rewrite land_not_u64 by (unfold is_u64; lia).
  rewrite Hpage at 1. replace (2 ^ p - 1) with (Z.ones p) by (rewrite Z.ones_equiv; lia). rewrite Z.land_ones by lia.
  rewrite <- Hpage. pose proof (Z.div_mod (l_offset l) page ltac:(lia)). lia.
Qed.

Lemma section_finish_ceiling l : in_bounds l ->
  (page | section_finish page l) /\ section_end l <= section_finish page l < section_end l + page.
Proof using All.
  intros (H0 & H1 & H2). pose proof page_positive as Hpos. unfold section_finish, section_end, UINT64_MAX in *.
  rewrite u64_small by (unfold is_u64; lia). split.
  - apply (align_up_divides _ _ p); unfold UINT64_MAX; (done || lia).
  - apply align_up_bounds; unfold UINT64_MAX; lia.
Qed.

(** The pages of a section are those the loop protects for it. *)
Lemma touches_page_range l k : in_bounds l -> occupies l ->
  touches_page page l k <-> section_start page l <= k * page < section_finish page l.
Proof using All.
  intros Hb [_ Hnz]. pose proof page_positive as Hpos. pose proof (section_finish_ceiling l Hb) as [[q Hq] Hf].
  rewrite (section_start_floor l Hb). destruct Hb as (H0 & H1 & _). rewrite Hq in *. unfold section_end in *. split.
  - intros (o & Ho & <-). pose proof (Z.div_mod o page ltac:(lia)). pose proof (Z.mod_pos_bound o page Hpos).
    pose proof (Z.div_le_mono (l_offset l) o page Hpos ltac:(lia)). unfold section_end in *. nia.
  - intros [Hlo Hhi]. assert (k < q) by nia. assert (l_offset l / page <= k) by nia.
    pose proof (Z.div_mod (l_offset l) page ltac:(lia)). pose proof (Z.mod_pos_bound (l_offset l) page Hpos).
    assert (l_offset l < (k + 1) * page) by nia. assert (k * page < l_offset l + l_size l) by nia.
    exists (Z.max (l_offset l) (k * page)). split; [unfold section_end; lia|].
    symmetry. apply (Z.div_unique _ _ _ (Z.max (l_offset l) (k * page) - page * k)); lia.
Qed.

(** ** The loop *)

Context (allowed : Z -> Z -> Z -> bool) (sections : list loaded_section).
Hypothesis bounds : forall i l, sections !! i = Some l -> occupies l -> in_bounds l.
Hypothesis sorted : forall i j a b, (i < j)%nat -> sections !! i = Some a -> sections !! j = Some b ->
  occupies a -> occupies b -> l_offset a <= l_offset b.
Hypothesis shares : forall i j a b k, sections !! i = Some a -> sections !! j = Some b -> occupies a -> occupies b ->
  touches_page page a k -> touches_page page b k -> section_protection (l_flags a) = section_protection (l_flags b).

Record run_inv (i : nat) (st : protection_run) : Prop := {
  ri_aligned : (page | run_start st) /\ (page | run_end st);
  ri_order : 0 <= run_start st <= run_end st /\ run_end st <= UINT64_MAX;
  ri_done : forall j l k, (j < i)%nat -> sections !! j = Some l -> occupies l -> touches_page page l k ->
    (run_protection st = section_protection (l_flags l) /\ run_start st <= k * page < run_end st) \/
    run_perms st k = native_prot (section_protection (l_flags l));
  ri_run : run_protection st <> -1 ->
    (exists j l, (j < i)%nat /\ sections !! j = Some l /\ occupies l /\ run_start st = section_start page l) /\
    forall k, run_start st <= k * page < run_end st -> exists j l, (j < i)%nat /\ sections !! j = Some l /\ occupies l /\
      section_protection (l_flags l) = run_protection st /\ touches_page page l k;
}.

Lemma mprotect_done perms start len prot perms' :
  mprotect page allowed perms start len prot = Some perms' ->
  forall k, perms' k = if (start <=? k * page) && (k * page <? start + len) then prot else perms k.
Proof using Type. unfold mprotect. destruct (_ || _); [discriminate|]. by intros [= <-]. Qed.

(** Applying the run settles every section seen so far. *)
Lemma flush_run_settles i st perms :
  run_inv i st -> flush_run page allowed st = Some perms ->
  forall j l k, (j < i)%nat -> sections !! j = Some l -> occupies l -> touches_page page l k ->
    perms k = native_prot (section_protection (l_flags l)).
Proof using All.
  intros Hinv Hfl j l k Hj Hl Ho Ht. unfold flush_run in Hfl. pose proof (ri_done _ _ Hinv j l k Hj Hl Ho Ht) as Hd.
  destruct (Z.eqb_spec (run_protection st) (-1)) as [Hr|Hr].
  { injection Hfl as <-. destruct Hd as [[Hd _]|]; [|done]. exfalso. rewrite Hr in Hd.
    revert Hd. unfold section_protection. by repeat case_match. }
  destruct (ri_order _ _ Hinv) as [Hor Hmax]. unfold protect_section_run in Hfl. rewrite u64_small in Hfl by (unfold is_u64, UINT64_MAX in *; lia).
  rewrite (mprotect_done _ _ _ _ _ Hfl k). replace (run_start st + (run_end st - run_start st)) with (run_end st) by lia.
  destruct (_ && _) eqn:E.
  - boolify. destruct (proj2 (ri_run _ _ Hinv Hr) k ltac:(lia)) as (j' & l' & _ & Hl' & Ho' & <- & Ht').
    f_equal. apply (shares j' j l' l k); done.
  - destruct Hd as [[_ Hin]|]; [|done]. boolify. destruct E; boolify; lia.
Qed.

Lemma section_protection_cases flags :
  section_protection flags = 0 \/ section_protection flags = 1 \/ section_protection flags = 2.
Proof using Type. unfold section_protection. repeat case_match; auto. Qed.

Lemma start_finish l : in_bounds l -> occupies l ->
  (page | section_start page l) /\ (page | section_finish page l) /\
  0 <= section_start page l <= section_finish page l /\ section_finish page l <= UINT64_MAX.
Proof using All.
  intros Hb [_ Hnz]. pose proof page_positive as Hpos. pose proof (section_finish_ceiling l Hb) as [Hd Hf].
  rewrite (section_start_floor l Hb) in *. destruct Hb as (H0 & H1 & H2). unfold section_end in *.
  pose proof (Z.div_mod (l_offset l) page ltac:(lia)). pose proof (Z.mod_pos_bound (l_offset l) page Hpos).
  pose proof (Z.div_pos (l_offset l) page H0 Hpos). split_and!; [by exists (l_offset l / page); lia|done|nia|nia|lia].
Qed.

(** Starts follow the order of the sections. *)
Lemma starts_sorted i j a b :
  (i < j)%nat -> sections !! i = Some a -> sections !! j = Some b -> occupies a -> occupies b ->
  section_start page a <= section_start page b.
Proof using All.
  intros Hij Ha Hb Hoa Hob. pose proof page_positive as Hpos. rewrite !section_start_floor by eauto.
  pose proof (Z.div_le_mono (l_offset a) (l_offset b) page Hpos (sorted i j a b Hij Ha Hb Hoa Hob)). nia.
Qed.

(** A new run with one section. *)
Lemma new_run_inv i l perms :
  sections !! i = Some l -> occupies l ->
  (forall j l k, (j < i)%nat -> sections !! j = Some l -> occupies l -> touches_page page l k ->
     perms k = native_prot (section_protection (l_flags l))) ->
  run_inv (S i) (mk_run (section_start page l) (section_finish page l) (section_protection (l_flags l)) perms).
Proof using All.
  intros Hl Ho Hold. pose proof (start_finish l (bounds i l Hl Ho) Ho) as (Hd1 & Hd2 & Hr & Hm). constructor; cbn.
  - done.
  - done.
  - intros j l' k Hj Hl' Ho' Ht. destruct (decide (j = i)) as [->|].
    + left. rewrite Hl in Hl'. injection Hl' as <-. split; [done|]. by apply touches_page_range; [eauto|..].
    + right. apply (Hold j); (done || lia).
  - intros _. split; [exists i, l; split_and!; (done || lia)|]. intros k Hk. exists i, l.
    split_and!; [lia|done|done|done|]. by apply touches_page_range; [eauto|..].
Qed.

(** A section that joins the run. *)
Lemma joined_run_inv i l st :
  run_inv i st -> sections !! i = Some l -> occupies l ->
  run_protection st = section_protection (l_flags l) -> section_start page l <= run_end st ->
  run_inv (S i) (mk_run (run_start st) (if run_end st <? section_finish page l then section_finish page l else run_end st)
                   (run_protection st) (run_perms st)).
Proof using All.
  intros [[Ha1 Ha2] [Ho1 Ho2] Hdone Hrun] Hl Ho Hpr Hst.
  pose proof (start_finish l (bounds i l Hl Ho) Ho) as (Hd1 & Hd2 & Hr & Hm).
  assert (run_protection st <> -1) as Hne by (destruct (section_protection_cases (l_flags l)); lia).
  destruct (Hrun Hne) as [(j0 & l0 & Hj0 & Hl0 & Ho0 & Hs0) Hcover].
  pose proof (starts_sorted j0 i l0 l ltac:(lia) Hl0 Hl Ho0 Ho) as Hge. rewrite <- Hs0 in Hge.
  set (fin := if run_end st <? section_finish page l then section_finish page l else run_end st).
  assert (fin = Z.max (run_end st) (section_finish page l)) as Hfin.
  { unfold fin. destruct (Z.ltb_spec (run_end st) (section_finish page l)); lia. }
  constructor; cbn.
  - split; [done|]. unfold fin. by destruct (_ <? _).
  - lia.
  - intros j l' k Hj Hl' Ho' Ht. destruct (decide (j = i)) as [->|].
    + left. rewrite Hl in Hl'. injection Hl' as <-. split; [done|].
      apply touches_page_range in Ht; [|eauto|done]. lia.
    + destruct (Hdone j l' k ltac:(lia) Hl' Ho' Ht) as [[? ?]|]; [left; split; [done|lia]|by right].
  - intros _. split; [exists j0, l0; split_and!; (done || lia)|]. intros k Hk.
    destruct (decide (k * page < run_end st)) as [Hlt|].
    + destruct (Hcover k ltac:(lia)) as (j & l' & Hj & Hrest). exists j, l'. split; [lia|done].
    + exists i, l. split_and!; [lia|done|done|done|]. apply touches_page_range; [eauto|done|]. lia.
Qed.

Lemma protect_step_inv i l st st' :
  run_inv i st -> sections !! i = Some l -> 0 <= l_size l -> protect_step page allowed st l = Some st' -> run_inv (S i) st'.
Proof using All.
  intros Hinv Hl Hsz. unfold protect_step. destruct (_ || _) eqn:E.
  { intros [= <-]. assert (~ occupies l) as Hno by (unfold occupies; boolify; destruct E; boolify; lia).
    destruct Hinv as [H1 H2 H3 H4]. constructor; try done.
    - intros j l' k Hj Hl' Ho Ht. destruct (decide (j = i)) as [->|]; [congruence|]. apply (H3 j); (done || lia).
    - intros Hne. destruct (H4 Hne) as [(j0 & l0 & Hj0 & Hrest) Hc]. split; [exists j0, l0; split; [lia|done]|].
      intros k Hk. destruct (Hc k Hk) as (j & l' & Hj & Hr). exists j, l'. split; [lia|done]. }
  boolify. assert (occupies l) as Ho by done. destruct (_ && _) eqn:E2.
  - boolify. intros [= <-]. by apply joined_run_inv.
  - destruct (flush_run page allowed st) as [perms|] eqn:Hf; [|discriminate]. intros [= <-]. apply new_run_inv; [done|done|].
    by apply (flush_run_settles i st).
Qed.

Lemma protect_loop_inv rest i st st' :
  run_inv i st -> drop i sections = rest -> Forall (fun l => 0 <= l_size l) rest ->
  protect_loop page allowed st rest = Some st' -> run_inv (i + length rest) st'.
Proof using All.
  revert i st. induction rest as [|l rest IH]; intros i st Hinv Hd Hsz; cbn [protect_loop length].
  { intros [= <-]. by rewrite Nat.add_0_r. }
  assert (sections !! i = Some l) as Hl.
  { rewrite <- (Nat.add_0_r i). rewrite <- lookup_drop. by rewrite Hd. }
  apply Forall_cons in Hsz as [Hl0 Hsz].
  destruct (protect_step page allowed st l) as [st1|] eqn:E; [|discriminate]. rewrite Nat.add_succ_r. apply (IH (S i)); try done.
  - by apply (protect_step_inv i l st).
  - replace (S i) with (i + 1)%nat by lia. by rewrite <- drop_drop, Hd.
Qed.

Lemma run_inv_init perms : run_inv 0 (mk_run 0 0 (-1) perms).
Proof using All. constructor; cbn; [split; apply Z.divide_0_r|unfold UINT64_MAX; lia|intros; lia|done]. Qed.
End pages.

(** ** The whole pass *)

(** What loading establishes about the pages of a module. *)
Record protectable (page : Z) (m : kb_module) : Prop := {
  pr_wf : module_wf m;
  pr_page : exists p, 0 <= p /\ page = 2 ^ p;
  pr_aligned : (page | blen (m_image m)) /\ (page | KB_LOCAL_SHIM_DATA_OFFSET);
  pr_room : m_image_size m + page <= UINT64_MAX;
  pr_sizes : Forall (fun l => 0 <= l_size l) (m_sections m);
  pr_shares : forall i j a b k, m_sections m !! i = Some a -> m_sections m !! j = Some b -> occupies a -> occupies b ->
    touches_page page a k -> touches_page page b k -> section_protection (l_flags a) = section_protection (l_flags b);
}.

(** Writable and executable at once. *)
Definition writable_and_executable (prot : Z) : bool := Z.testbit prot 1 && Z.testbit prot 2.

Lemma native_prot_strict protection : writable_and_executable (native_prot protection) = false.
Proof. unfold native_prot. by repeat case_match. Qed.

Definition strict (perms : Z -> Z) (k : Z) : Prop := writable_and_executable (perms k) = false.

Lemma mprotect_strict page allowed perms start len prot perms' k :
  mprotect page allowed perms start len prot = Some perms' -> writable_and_executable prot = false ->
  strict perms k -> strict perms' k.
Proof. intros H Hp Hk. unfold strict. rewrite (mprotect_done page allowed _ _ _ _ _ H). by case_match. Qed.

Lemma flush_run_strict page allowed st perms k :
  flush_run page allowed st = Some perms -> strict (run_perms st) k -> strict perms k.
Proof.
  unfold flush_run. destruct (_ =? _); [by intros [= <-]|]. intros H. apply (mprotect_strict _ _ _ _ _ _ _ _ H).
  apply native_prot_strict.
Qed.

Lemma protect_loop_strict page allowed sections st st' k :
  protect_loop page allowed st sections = Some st' -> strict (run_perms st) k -> strict (run_perms st') k.
Proof.
  revert st. induction sections as [|l sections IH]; intros st; cbn [protect_loop]; [by intros [= <-]|].
  destruct (protect_step page allowed st l) as [st1|] eqn:E; [|discriminate]. intros H Hk. apply (IH st1 H).
  revert E. unfold protect_step. destruct (_ || _); [by intros [= <-]|]. destruct (_ && _); [by intros [= <-]|].
  destruct (flush_run page allowed st) as [perms|] eqn:Hf; [|discriminate]. intros [= <-]. by apply (flush_run_strict _ _ _ _ _ Hf).
Qed.

(** The five calls a successful pass makes. *)
Lemma finalize_done page allowed m perms perms' :
  finalize_section_protections page allowed m perms = Done perms' ->
  exists p0 st p1 p2, mprotect page allowed perms 0 (align_up_u64 (m_image_size m) page) PROT_READ = Some p0 /\
    protect_loop page allowed (mk_run 0 0 (-1) p0) (m_sections m) = Some st /\ flush_run page allowed st = Some p1 /\
    mprotect page allowed p1 (blen (m_image m)) KB_LOCAL_SHIM_DATA_OFFSET (Z.lor PROT_READ PROT_EXEC) = Some p2 /\
    mprotect page allowed p2 (blen (m_image m) + KB_LOCAL_SHIM_DATA_OFFSET) KB_LOCAL_SHIM_DATA_SIZE
      (Z.lor PROT_READ PROT_WRITE) = Some perms'.
Proof.
  unfold finalize_section_protections. destruct (mprotect _ _ _ _ _ _) as [p0|] eqn:E0; [|discriminate].
  destruct (protect_loop _ _ _ _) as [st|] eqn:E1; [|discriminate]. destruct (flush_run _ _ _) as [p1|] eqn:E2; [|discriminate].
  destruct (mprotect page allowed p1 _ _ _) as [p2|] eqn:E3; [|discriminate]. destruct (mprotect page allowed p2 _ _ _) as [p3|] eqn:E4; [|discriminate].
  intros [= <-]. by exists p0, st, p1, p2.
Qed.

Lemma protectable_bounds page m i l :
  protectable page m -> m_sections m !! i = Some l -> occupies l -> in_bounds page l /\ section_end l <= blen (m_image m).
Proof.
  intros Hpr Hl [Hbase _]. destruct (mw_section _ (pr_wf _ _ Hpr) i l Hl Hbase) as (_ & H1 & H2 & H3).
  pose proof (pr_room _ _ Hpr). unfold in_bounds, m_image_size in *.
  assert (0 < KB_LOCAL_SHIM_REGION_SIZE) by reflexivity. split_and!; lia.
Qed.

(** Before the shim region is protected, every section has its protection. *)
Lemma sections_settled page allowed m p0 st p1 i l k :
  protectable page m -> protect_loop page allowed (mk_run 0 0 (-1) p0) (m_sections m) = Some st ->
  flush_run page allowed st = Some p1 -> m_sections m !! i = Some l -> occupies l -> touches_page page l k ->
  p1 k = native_prot (section_protection (l_flags l)).
Proof.
  intros Hpr E1 E2 Hl Ho Ht. destruct (pr_page _ _ Hpr) as (p & Hp & Hpage). pose proof (pr_wf _ _ Hpr) as Hwf.
  assert (forall j x, m_sections m !! j = Some x -> occupies x -> in_bounds page x) as Hb.
  { intros j x Hj Hx. by apply (protectable_bounds page m j). }
  assert (forall j j' a b, (j < j')%nat -> m_sections m !! j = Some a -> m_sections m !! j' = Some b ->
    occupies a -> occupies b -> l_offset a <= l_offset b) as Hsorted.
  { intros j j' a b Hjj Hja Hjb [Hna _] [Hnb _]. pose proof (mw_apart _ Hwf j j' a b Hjj Hja Hjb Hna Hnb).
    destruct (mw_section _ Hwf j a Hja Hna) as (_ & _ & ? & _). unfold section_end in *. lia. }
  pose proof (pr_shares _ _ Hpr) as Hsh.
  refine (flush_run_settles page p Hpage Hp allowed (m_sections m) Hb Hsorted Hsh _ st p1 _ E2 i l k _ Hl Ho Ht);
    [|apply (lookup_lt_Some _ _ _ Hl)].
  refine (protect_loop_inv page p Hpage Hp allowed (m_sections m) Hb Hsorted Hsh (m_sections m) 0 _ st _ eq_refl _ E1).
  - by apply (run_inv_init page p).
  - exact (pr_sizes _ _ Hpr).
Qed.

(** The first call makes every page of the image read-only. *)
Lemma first_call_covers page allowed m perms p0 k :
  protectable page m -> mprotect page allowed perms 0 (align_up_u64 (m_image_size m) page) PROT_READ = Some p0 ->
  0 <= k * page < m_image_size m -> p0 k = PROT_READ.
Proof.
  intros Hpr H Hk. rewrite (mprotect_done page allowed _ _ _ _ _ H). destruct (pr_page _ _ Hpr) as (p & Hp & Hpage).
  pose proof (page_pos page p Hpage Hp) as Hpos. pose proof (align_up_bounds (m_image_size m) page ltac:(lia) Hpos (pr_room _ _ Hpr)).
  by rewrite (proj2 (Z.leb_le 0 (k * page))), (proj2 (Z.ltb_lt (k * page) _)) by lia.
Qed.

Lemma m_image_size_parts m :
  m_image_size m = blen (m_image m) + KB_LOCAL_SHIM_DATA_OFFSET + KB_LOCAL_SHIM_DATA_SIZE.
Proof. unfold m_image_size, KB_LOCAL_SHIM_REGION_SIZE, KB_LOCAL_SHIM_DATA_OFFSET. lia. Qed.

(** When the pass succeeds, every page that holds a byte of a loaded section
    has exactly the protection of that section (read, plus write for writable
    data, plus execute for code), the stubs are read-execute, the shim data is
    read-write, and no page of the image is both writable and executable. *)
Lemma finalize_protects page allowed m perms perms' :
  protectable page m -> finalize_section_protections page allowed m perms = Done perms' ->
  (forall i l k, m_sections m !! i = Some l -> occupies l -> touches_page page l k ->
     perms' k = native_prot (section_protection (l_flags l))) /\
  (forall k, blen (m_image m) <= k * page < blen (m_image m) + KB_LOCAL_SHIM_DATA_OFFSET ->
     perms' k = Z.lor PROT_READ PROT_EXEC) /\
  (forall k, blen (m_image m) + KB_LOCAL_SHIM_DATA_OFFSET <= k * page < m_image_size m ->
     perms' k = Z.lor PROT_READ PROT_WRITE) /\
  (forall k, 0 <= k * page < m_image_size m -> writable_and_executable (perms' k) = false).
Proof.
  intros Hpr (p0 & st & p1 & p2 & E0 & E1 & E2 & E3 & E4)%finalize_done. rewrite m_image_size_parts.
  assert (0 < KB_LOCAL_SHIM_DATA_OFFSET /\ 0 < KB_LOCAL_SHIM_DATA_SIZE) as [Hd1 Hd2] by done. split_and!.
  - intros i l k Hl Ho Ht. rewrite <- (sections_settled page allowed m p0 st p1 i l k Hpr E1 E2 Hl Ho Ht).
    destruct (protectable_bounds page m i l Hpr Hl Ho) as [_ Hend]. destruct Ht as (o & Hr & Hk).
    destruct (pr_page _ _ Hpr) as (p & Hp & Hpage). pose proof (page_pos page p Hpage Hp) as Hpos.
    pose proof (Z.mul_div_le o page Hpos). assert (k * page < blen (m_image m)) by (subst k; lia).
    rewrite (mprotect_done page allowed _ _ _ _ _ E4), (mprotect_done page allowed _ _ _ _ _ E3).
    by rewrite !(proj2 (Z.leb_gt _ (k * page))) by lia.
  - intros k Hk. rewrite (mprotect_done page allowed _ _ _ _ _ E4), (mprotect_done page allowed _ _ _ _ _ E3).
    rewrite (proj2 (Z.leb_gt (blen (m_image m) + _) (k * page))) by lia. cbn [andb].
    by rewrite (proj2 (Z.leb_le (blen (m_image m)) (k * page))), (proj2 (Z.ltb_lt (k * page) _)) by lia.
  - intros k Hk. rewrite (mprotect_done page allowed _ _ _ _ _ E4).
    by rewrite (proj2 (Z.leb_le _ (k * page))), (proj2 (Z.ltb_lt (k * page) _)) by lia.
  - intros k Hk. apply (mprotect_strict _ _ _ _ _ _ _ _ E4); [done|]. apply (mprotect_strict _ _ _ _ _ _ _ _ E3); [done|].
    apply (flush_run_strict _ _ _ _ _ E2), (protect_loop_strict _ _ _ _ _ _ E1). unfold strict. cbn [run_perms].
    rewrite <- m_image_size_parts in Hk. by rewrite (first_call_covers page allowed m perms p0 k Hpr E0 Hk).
Qed.

(** Loading makes a module that can be protected page by page. *)
Lemma load_image_protectable page p f secs percpu_next st base gs image gs' sections name stubs data :
  page = 2 ^ p -> 0 <= p -> loadable page f secs -> 0 < percpu_next <= KB_LOCAL_GS_SIZE ->
  blen gs = KB_LOCAL_GS_SIZE -> 0 < base -> base + align_up_u64 (pl_image_size st) page <= 0x7fffffffffffffff ->
  page <= 0x10000 -> place_sections page f percpu_next = (st, Done tt) -> pl_image_size st <> 0 ->
  load_image page f percpu_next base gs = (st, Done (image, gs', sections)) ->
  file_wf f -> blen data = KB_LOCAL_SHIM_DATA_SIZE ->
  protectable page (mk_module f name base image sections stubs data [] (pl_percpu_offset st) (pl_percpu_size st)).
Proof.
  intros Hpage Hp Hload Hn Hgs Hb Hbe Hsmall H Hnz Hli Hwf Hdata. pose proof (page_pos page p Hpage Hp) as Hpos.
  pose proof (load_image_wf page p f secs percpu_next st base gs image gs' sections name stubs data
    Hpage Hp Hload Hn Hgs Hb Hbe H Hnz Hli Hwf Hdata) as Hmwf.
  destruct (load_image_inv page p f secs percpu_next st base gs Hpage Hp Hload Hn Hgs ltac:(lia) H Hnz)
    as (Hinv & Hle & image1 & gs1 & sections1 & Hl & Hc).
  rewrite Hl in Hli. injection Hli as -> -> ->. pose proof (ci_image _ _ _ _ _ _ _ _ _ Hc) as Him.
  pose proof (fun i l => loaded_record_inv _ _ _ _ _ _ _ _ _ i l Hinv Hc) as Hrec.
  assert (p <= 16) as Hp16. { apply (Z.pow_le_mono_r_iff 2); lia. }
  constructor; cbn [m_image m_sections]; [done|by exists p| | | |].
  - split.
    + rewrite Him. apply (align_up_divides _ _ p); [exact (li_size _ _ _ _ Hinv)| |done|done]. unfold UINT64_MAX. lia.
    + exists (3 * 2 ^ (16 - p)). rewrite Hpage, <- Z.mul_assoc, <- Z.pow_add_r by lia. by replace (16 - p + p) with 16 by lia.
  - unfold m_image_size. cbn [m_image]. rewrite Him. assert (KB_LOCAL_SHIM_REGION_SIZE <= 0x40000) by (vm_compute; discriminate).
    unfold UINT64_MAX. lia.
  - apply Forall_lookup. intros i l Hi. destruct (decide (l_base l = 0)) as [Hz|Hnz'].
    + assert (exists s, secs !! i = Some s) as [s Hs].
      { apply lookup_lt_is_Some. rewrite <- (ci_length _ _ _ _ _ _ _ _ _ Hc). by apply lookup_lt_Some in Hi. }
      destruct (loaded_record _ _ _ _ _ _ _ _ _ i s Hinv Hc Hs) as (l0 & _ & Hr & Hok). rewrite Hi in Hr. injection Hr as ->.
      destruct (is_alloc s); [|by rewrite Hok]. destruct Hok as [[Hsz _ _ _ _] _]. cbn.
      pose proof (Forall_lookup_1 _ _ _ _ (lo_sizes _ _ _ Hload) Hs) as [? _]. lia.
    + destruct (mw_section _ Hmwf i l Hi Hnz') as (_ & _ & ? & _). done.
  - intros i j a b k Hi Hj [Hna _] [Hnb _] Hta Htb.
    destruct (Hrec i a Hi Hna) as (si & la & Hsi & Hai & Hla & _ & _ & ->).
    destruct (Hrec j b Hj Hnb) as (sj & lb & Hsj & Haj & Hlb & _ & _ & ->).
    exact (layout_shares page secs st i j la lb si sj k Hpos Hinv Hsi Hsj Hai Haj Hla Hlb Hta Htb).
Qed.

(** The stub for "usb_control_msg" lies in the shim data, so once the protections
    are in place its page is not executable, although
    [lookup_internal_symbol_override] hands the address out as the target of
    calls. *)
Theorem usb_control_msg_stub_not_executable page allowed m perms perms' k :
  protectable page m -> finalize_section_protections page allowed m perms = Done perms' ->
  k * page <= blen (m_image m) + KB_LOCAL_USB_CONTROL_MSG_STUB_OFFSET < (k + 1) * page ->
  Z.testbit (perms' k) 2 = false.
Proof.
  intros Hpr Hf Hk. pose proof (finalize_done page allowed m perms perms' Hf) as (p0 & st & p1 & p2 & _ & _ & _ & _ & E4).
  destruct (pr_aligned _ _ Hpr) as [[q1 Hq1] [q2 Hq2]]. destruct (pr_page _ _ Hpr) as (p & Hp & Hpage).
  pose proof (page_pos page p Hpage Hp) as Hpos. rewrite (mprotect_done page allowed _ _ _ _ _ E4).
  assert (KB_LOCAL_USB_CONTROL_MSG_STUB_OFFSET = KB_LOCAL_SHIM_DATA_OFFSET + 12288) as Hoff by reflexivity.
  assert (12288 < KB_LOCAL_SHIM_DATA_SIZE) as Hsz by reflexivity. rewrite Hoff, Hq1, Hq2 in *.
  assert (q1 + q2 < k + 1) by nia.
  rewrite (proj2 (Z.leb_le _ (k * page))), (proj2 (Z.ltb_lt (k * page) _)) by nia. done.
Qed.

(** ** The demo module *)

Lemma demo_protectable : protectable 4096 demo_module.
Proof.
  destruct (load_image_inv 4096 12 demo_file demo_sections 64 demo_placement demo_base zero_gs eq_refl ltac:(lia)
    demo_loadable ltac:(vm_compute; split; congruence) blen_zero_gs ltac:(discriminate) demo_placed ltac:(discriminate))
    as (_ & _ & image & gs & sections & H & _).
  assert (demo_image = image) as Hi by (unfold demo_image, demo_loaded; by rewrite H).
  assert (demo_loaded_sections = sections) as Hs by (unfold demo_loaded_sections, demo_loaded; by rewrite H).
  unfold demo_module. rewrite Hi, Hs.
  refine (load_image_protectable 4096 12 demo_file demo_sections 64 demo_placement demo_base zero_gs image gs sections _ _ _
    eq_refl _ demo_loadable _ blen_zero_gs _ _ _ demo_placed _ H demo_file_wf _);
    [lia|vm_compute; split; congruence|reflexivity|vm_compute; discriminate|vm_compute; discriminate|discriminate|].
  unfold blen. rewrite length_replicate. apply Z2Nat.id. discriminate.
Qed.

Lemma demo_finalizes : exists perms, finalize_section_protections 4096 (fun _ _ _ => true) demo_module (fun _ => 3) = Done perms.
Proof.
  assert (match finalize_section_protections 4096 (fun _ _ _ => true) demo_module (fun _ => 3) with Done _ => true | _ => false end
    = true) as H by (vm_compute; reflexivity).
  destruct (finalize_section_protections 4096 _ demo_module _) as [perms| |]; [by exists perms|discriminate|discriminate].
Qed.
