(* ===== verification/ModulePrepare.v ===== *)
(** * Preparing and destroying a module (src/src/loader/module_loader.c)

    What [prepare_module] does once the sections are loaded: relocation
    (Relocation.v), replacing the bodies of static trace calls and of the xHCI
    doorbell helper, registering exports, finding the entry points, protecting
    the pages (Protections.v).  [open_loaded] adds what [kb_module_open_image] and
    [destroy_module] do with the list of modules and the registry. *)

From S2P Require Import Prelude Bytes ElfReader SymbolRegistry ShimTable ModuleLayout LoaderSample LayoutTheorems ShimLookup Relocation RelocTheorems Protections.

(** ** Static trace calls *)

Definition trace_prefix : list Z := cstr "__SCT__tp_func_".

Definition symbol_is_static_trace_call (env : loader_env) (symbol : kb_elf_symbol_t) : bool :=
  symbol_name_pointer_is_valid (mk_cptr (le_names env) (sym_name symbol)) &&
  bool_decide (take (length trace_prefix) (sym_name symbol) = trace_prefix).

(** [ret] and padding, at most eight bytes. *)
Definition trace_patch (remaining size : Z) : list Z :=
  let patch_size := if negb (size =? 0) && (size <? remaining) then size else remaining in
  let patch_size := if 8 <? patch_size then 8 else patch_size in
  0xc3 :: replicate (Z.to_nat (patch_size - 1)) 0x90.

Definition patch_one_trace_call (env : loader_env) (section_index symbol_index : Z) (symbol : kb_elf_symbol_t) (m : kb_module)
    : kb_module * outcome unit :=
  if negb (symbol_is_static_trace_call env symbol) || (sym_section_index symbol =? KB_ELF_SHN_UNDEF) ||
     (m_section_count m <=? sym_section_index symbol)
  then (m, Done tt)
  else match kb_elf_section (Some (m_elf m)) (sym_section_index symbol) true with
       | Done target_section =>
           let loaded := section_at m (sym_section_index symbol) in
           if (l_base loaded =? 0) || (Z.land (sec_flags target_section) KB_ELF_SHF_EXECINSTR =? 0) ||
              (l_size loaded <=? sym_value symbol)
           then (m, Done tt)
           else match image_store m (l_base loaded + sym_value symbol)
                        (trace_patch (l_size loaded - sym_value symbol) (sym_size symbol)) with
                | Done m => (m, Done tt)
                | Fail e => (m, Fail e)
                | Fault => (m, Fault)
                end
       | Fail e => (m, Fail e)
       | Fault => (m, Fault)
       end.

Definition patch_module_static_trace_calls (env : loader_env) (m : kb_module) : kb_module * outcome unit :=
  for_symbols (m_elf m) (patch_one_trace_call env) m.

(** ** The xHCI command doorbell *)

Definition xhci_suffix : list Z :=
  [0x55; 0x48; 0x89; 0xe5; 0x53; 0x48; 0x89; 0xfb; 0x66; 0x90; 0x66; 0x90; 0x48; 0x8b; 0x53; 0x28;
   0x31; 0xc0; 0x89; 0x02; 0x48; 0x8b; 0x43; 0x28; 0x8b; 0x00].

(** [code] is what follows in the section. *)
Definition xhci_command_doorbell_helper_matches (code : list Z) (remaining : Z) : bool :=
  if remaining <? 5 + blen xhci_suffix then false
  else
    let has_fentry_call := nth 0 code 0 =? 0xe8 in
    let has_patched_fentry_nops := bool_decide (take 5 code = replicate 5 0x90) in
    if negb has_fentry_call && negb has_patched_fentry_nops then false
    else bool_decide (slice code 5 (blen xhci_suffix) = xhci_suffix).

Definition patch_relative_jump (m : kb_module) (code target : Z) : outcome kb_module :=
  next ← checked_s64 (s64 code + 5);
  rel ← checked_s64 (s64 target - next);
  if negb (value_fits_i32 rel) then Fail KB_ERR_UNSUPPORTED
  else image_store m code (0xe9 :: write_u32le (u32 rel)).

Definition module_backend_is_pachaos (env : loader_env) : bool :=
  bool_decide (le_backend env = Some (cstr "pachaos")) || bool_decide (le_backend env = Some (cstr "pachaos_capsule")).

(** One offset of one section: patch when the helper starts there. *)
Definition patch_doorbell_at (section : loaded_section) (stub offset : Z) (m : kb_module) : outcome kb_module :=
  if xhci_command_doorbell_helper_matches (slice (m_image m) (l_base section - m_image_base m + offset) 31)
       (l_size section - offset)
  then patch_relative_jump m (l_base section + offset) stub
  else Done m.

Definition patch_doorbell_in (stub : Z) (section_index : Z) (m : kb_module) : outcome kb_module :=
  let section := section_at m section_index in
  if (l_base section =? 0) || (l_size section =? 0) || (Z.land (l_flags section) KB_ELF_SHF_EXECINSTR =? 0)
  then Done m
  else for_from (Z.to_nat (l_size section - 30)) 0 (patch_doorbell_at section stub) m.

Definition patch_module_xhci_command_doorbell (env : loader_env) (s : loader_state) : outcome loader_state :=
  match m_name (ls_module s) with
  | None => Done s
  | Some name =>
      if negb (contains (cstr "xhci-hcd") name) || negb (module_backend_is_pachaos env) then Done s
      else
        '(s, stub) ← lookup_module_shim_symbol env s (cstr "kobox_xhci_ring_cmd_db");
        if (stub : Z) =? 0 then Fail KB_ERR_UNSUPPORTED
        else
          m ← for_from (Z.to_nat (m_section_count (ls_module s))) 0 (patch_doorbell_in stub) (ls_module s);
          mret (s <| ls_module := m |>)
  end.

(** ** The whole preparation *)

Record prepared := mk_prepared {
  pp_state : loader_state;
  pp_registry : list kb_loader_exported_symbol;
  pp_init : Z;
  pp_cleanup : Z;
  pp_perms : Z -> Z;
}.

(** [init_module] and [cleanup_module]: 0 when the symbol does not exist. *)
Definition entry_point (env : loader_env) (s : loader_state) (name : list Z) : outcome (loader_state * Z) :=
  match find_symbol_address env s name with
  | Fail KB_ERR_NOT_FOUND => Done (s, 0)
  | r => r
  end.

Definition finish_preparation (env : loader_env) (page : Z) (allowed : Z -> Z -> Z -> bool) (s : loader_state)
    (registry : list kb_loader_exported_symbol) (perms : Z -> Z) : outcome prepared :=
  '(s, init_address) ← entry_point env s (cstr "init_module");
  '(s, cleanup_address) ← entry_point env s (cstr "cleanup_module");
  perms ← finalize_section_protections page allowed (ls_module s) perms;
  mret (mk_prepared s registry init_address cleanup_address perms).

(** [prepare_module] after [load_sections]: the registry it leaves and the
    result. *)
Definition prepare_loaded (env : loader_env) (page : Z) (allowed : Z -> Z -> Z -> bool) (s : loader_state)
    (registry : list kb_loader_exported_symbol) (owner : Z) (perms : Z -> Z)
    : list kb_loader_exported_symbol * outcome prepared :=
  match (s ← apply_relocations env registry s;
         let '(m, traced) := patch_module_static_trace_calls env (ls_module s) in
         _ ← traced;
         patch_module_xhci_command_doorbell env (s <| ls_module := m |>)) with
  | Done s =>
      match register_module_exports env s registry owner with
      | ((s, registry), Done _) => (registry, finish_preparation env page allowed s registry perms)
      | ((_, registry), Fail e) => (registry, Fail e)
      | ((_, registry), Fault) => (registry, Fault)
      end
  | Fail e => (registry, Fail e)
  | Fault => (registry, Fault)
  end.

(** [destroy_module]: the list of modules and the registry without the module. *)
Definition destroy_module (loaded : loaded_modules) (registry : list kb_loader_exported_symbol) (module : Z)
    : loaded_modules * list kb_loader_exported_symbol :=
  if module =? 0 then (loaded, registry)
  else (unregister_loaded_module loaded module, kb_loader_symbol_registry_remove_owner registry module).

(** The end of [kb_module_open_image]: a prepared module joins the list, a failed
    one is destroyed. *)
Definition open_loaded (env : loader_env) (page : Z) (allowed : Z -> Z -> Z -> bool) (s : loader_state)
    (registry : list kb_loader_exported_symbol) (module : Z) (perms : Z -> Z)
    : loaded_modules * list kb_loader_exported_symbol * outcome prepared :=
  match prepare_loaded env page allowed s registry module perms with
  | (registry, Done p) => (register_loaded_module (le_loaded env) module (Some (ls_module (pp_state p))), registry, Done p)
  | (registry, r) => (destroy_module (le_loaded env) registry module, r)
  end.

Definition kb_module_close (loaded : loaded_modules) (registry : list kb_loader_exported_symbol) (module : Z)
    : loaded_modules * list kb_loader_exported_symbol := destroy_module loaded registry module.

(** ** Exports of a module that goes away *)

Lemma add_export_erased tbl name address owner :
  registry_ok tbl -> owner <> 0 ->
  kb_loader_symbol_registry_remove_owner (kb_loader_symbol_registry_add_export tbl name address owner).1 owner =
  kb_loader_symbol_registry_remove_owner tbl owner.
Proof.
  intros [_ Hs _] Ho. unfold kb_loader_symbol_registry_add_export. destruct (_ || _); [done|].
  destruct (list_find _ tbl) as [[? ?]|]; [done|]. destruct (list_find _ tbl) as [[i s]|] eqn:E; [|done]. cbn [fst].
  apply list_find_Some in E as (Hi & Hz & _). unfold kb_loader_symbol_registry_remove_owner.
  rewrite (proj2 (Z.eqb_neq owner 0) Ho). set (f := fun s => if ex_owner s =? owner then empty_slot else s).
  assert (s = empty_slot) as ->.
  { destruct (Forall_lookup_1 _ _ _ _ Hs Hi) as [|(Hv & _)]; [done|]. apply valid_nonzero in Hv. lia. }
  change (f <$> <[i := mk_exported_symbol name address owner]> tbl = f <$> tbl). rewrite list_fmap_insert. apply list_insert_id.
  rewrite list_lookup_fmap, Hi. cbn [fmap option_fmap option_map]. f_equal.
  transitivity empty_slot; unfold f; [by destruct (_ =? owner)|]. cbn [ex_owner]. by rewrite Z.eqb_refl.
Qed.

(** A table that differs from [tbl] only by exports of [owner]. *)
Definition only_exports (owner : Z) (tbl tbl' : list kb_loader_exported_symbol) : Prop :=
  registry_ok tbl' /\ kb_loader_symbol_registry_remove_owner tbl' owner = kb_loader_symbol_registry_remove_owner tbl owner.

Lemma register_module_exports_only env s registry owner :
  registry_ok registry -> owner <> 0 ->
  only_exports owner registry (register_module_exports env s registry owner).1.2.
Proof.
  intros Hok Ho. unfold register_module_exports, for_symbols.
  apply (for_state_keeps (fun st => only_exports owner registry st.2)); [|by split].
  intros i [s1 reg] _ H. unfold for_table_symbols. destruct (kb_elf_section _ _ _) as [section| |]; [|done|done].
  destruct (negb _); [done|]. destruct (kb_elf_symbol_count _ _ _) as [n| |]; [|done|done].
  apply (for_state_keeps (fun st => only_exports owner registry st.2)); [|done].
  clear - Ho. intros k [s2 reg2] _ H. destruct (kb_elf_symbol _ _ _ _) as [symbol| |]; [|done|done].
  unfold register_one_export. destruct (_ || _); [done|]. destruct (resolve_symbol _ _ _ _) as [[s1 a]| |]; [|done|done].
  destruct H as [Hok He]. pose proof (registry_ok_add reg2 (mk_cptr (le_names env) (sym_name symbol)) a owner Hok) as Hok'.
  pose proof (add_export_erased reg2 (mk_cptr (le_names env) (sym_name symbol)) a owner Hok Ho) as He'.
  destruct (kb_loader_symbol_registry_add_export _ _ _ _) as [reg' status]. cbn in *. split; [done|congruence].
Qed.

Lemma remove_fresh_owner tbl owner :
  Forall (fun s => ex_owner s <> owner) tbl -> kb_loader_symbol_registry_remove_owner tbl owner = tbl.
Proof.
  intros H. unfold kb_loader_symbol_registry_remove_owner. destruct (owner =? 0); [done|].
  induction H as [|s tbl Hs _ IH]; [done|]. cbn [map]. rewrite IH, (proj2 (Z.eqb_neq _ _) Hs). done.
Qed.

Lemma prepare_loaded_exports env page allowed s registry owner perms :
  registry_ok registry -> owner <> 0 ->
  only_exports owner registry (prepare_loaded env page allowed s registry owner perms).1.
Proof.
  intros Hok Ho. unfold prepare_loaded. destruct (_ ≫= _) as [s1| |]; [|by split|by split].
  pose proof (register_module_exports_only env s1 registry owner Hok Ho) as H.
  destruct (register_module_exports env s1 registry owner) as [[s2 reg] [[]| |]]; exact H.
Qed.

(** C39: Loading is all or nothing for the symbol registry: when any step of the
    preparation fails (relocation, patching, a full registry, protections), the
    registry is again exactly what it was, and a module that was loaded and is
    closed again takes exactly its own exports with it. *)
Theorem failed_load_leaves_registry env page allowed s registry module perms :
  registry_ok registry -> module <> 0 -> Forall (fun slot => ex_owner slot <> module) registry ->
  let '(loaded, registry', result) := open_loaded env page allowed s registry module perms in
  match result with
  | Done p => kb_loader_symbol_registry_remove_owner registry' module = registry /\
              (kb_module_close loaded registry' module) = (le_loaded env, registry)
  | _ => registry' = registry
  end.
Proof.
  intros Hok Hm Hfresh. pose proof (remove_fresh_owner registry module Hfresh) as Hsame.
  pose proof (prepare_loaded_exports env page allowed s registry module perms Hok Hm) as [_ He]. rewrite Hsame in He.
  unfold open_loaded. destruct (prepare_loaded env page allowed s registry module perms) as [reg [p| |]]; cbn [fst] in He.
  - split; [done|]. unfold kb_module_close, destroy_module. rewrite (proj2 (Z.eqb_neq module 0) Hm), He.
    cbn. by rewrite Z.eqb_refl.
  - unfold destroy_module. rewrite (proj2 (Z.eqb_neq module 0) Hm). done.
  - unfold destroy_module. rewrite (proj2 (Z.eqb_neq module 0) Hm). done.
Qed.

(** ** The prepared module *)

Lemma patch_one_trace_call_frame env i k symbol m : module_frame m (patch_one_trace_call env i k symbol m).1.
Proof.
  unfold patch_one_trace_call. destruct (_ || _); [done|]. destruct (kb_elf_section _ _ _); [|done|done].
  destruct (_ || _); [done|]. destruct (image_store _ _ _) as [m'| |] eqn:E; [|done|done]. by apply image_store_frame in E.
Qed.

Lemma for_symbols_frame f body m :
  (forall i k symbol m, module_frame m (body i k symbol m).1) -> module_frame m (for_symbols f body m).1.
Proof.
  intros Hb. unfold for_symbols. apply (for_state_keeps (fun x => module_frame m x)); [|done].
  intros i m1 _ H. unfold for_table_symbols. destruct (kb_elf_section _ _ _) as [section| |]; [|done|done].
  destruct (negb _); [done|]. destruct (kb_elf_symbol_count _ _ _) as [n| |]; [|done|done].
  apply (for_state_keeps (fun x => module_frame m x)); [|done]. intros k m2 _ H2.
  destruct (kb_elf_symbol _ _ _ _) as [symbol| |]; [|done|done]. etrans; [exact H2|apply Hb].
Qed.

Lemma patch_relative_jump_frame m code target m' : patch_relative_jump m code target = Done m' -> module_frame m m'.
Proof.
  intros (next & _ & H)%bind_Done. apply bind_Done in H as (rel & _ & H). destruct (negb _); [discriminate|].
  by apply image_store_frame in H.
Qed.

Lemma patch_xhci_frame env s s' :
  patch_module_xhci_command_doorbell env s = Done s' -> module_frame (ls_module s) (ls_module s').
Proof.
  unfold patch_module_xhci_command_doorbell. destruct (m_name _); [|by intros [= <-]].
  destruct (_ || _); [by intros [= <-]|]. intros ([s1 stub] & H1%lookup_module_shim_symbol_resolves & H)%bind_Done.
  destruct (stub =? 0); [discriminate|]. apply bind_Done in H as (m & Hm & H).
  assert (ls_module s' = m) as -> by (by injection H as <-). transitivity (ls_module s1); [exact (rs_frame _ _ _ H1)|].
  revert Hm. apply (for_from_keeps (fun x => module_frame (ls_module s1) x)); [|done]. intros i m1 m2 _ Hf.
  unfold patch_doorbell_in. destruct (_ || _); [by intros [= <-]|].
  apply (for_from_keeps (fun x => module_frame (ls_module s1) x)); [|done]. intros k m3 m4 _ Hf3.
  unfold patch_doorbell_at. destruct (xhci_command_doorbell_helper_matches _ _); [|by intros [= <-]].
  intros H4%patch_relative_jump_frame. by etrans.
Qed.

Lemma resolve_symbol_resolves env s i k s' a : resolve_symbol env s i k = Done (s', a) -> resolves env s s'.
Proof.
  intros (symbol & _ & H)%bind_Done. destruct (_ =? _) in H.
  { pose proof (lookup_shim_symbol_resolves env s (sym_name symbol)) as Hr.
    destruct (lookup_shim_symbol env s (sym_name symbol)) as [s1 a1]. destruct (a1 =? 0); [discriminate|].
    by injection H as <- _. }
  destruct (_ =? _) in H; [by injection H as <- _|].
  destruct (symbol_is_percpu_offset _ _); apply bind_Done in H as (? & _ & H); by injection H as <- _.
Qed.

Lemma entry_point_resolves env s name s' a : entry_point env s name = Done (s', a) -> resolves env s s'.
Proof.
  unfold entry_point. destruct (find_symbol_address env s name) as [[s1 a1]|e|] eqn:E; [|by destruct e; intros [= <- _]|discriminate].
  intros [= <- _]. revert E. unfold find_symbol_address. intros (found & _ & H)%bind_Done.
  destruct found as [[i k]|]; [|discriminate]. by apply resolve_symbol_resolves in H.
Qed.

Lemma register_module_exports_resolves env s registry owner :
  resolves env s (register_module_exports env s registry owner).1.1.
Proof.
  unfold register_module_exports, for_symbols. apply (for_state_keeps (fun st => resolves env s st.1)); [|done].
  intros i [s1 reg] _ H. unfold for_table_symbols. destruct (kb_elf_section _ _ _) as [section| |]; [|done|done].
  destruct (negb _); [done|]. destruct (kb_elf_symbol_count _ _ _) as [n| |]; [|done|done].
  apply (for_state_keeps (fun st => resolves env s st.1)); [|done].
  clear. intros k [s2 reg2] _ H. destruct (kb_elf_symbol _ _ _ _) as [symbol| |]; [|done|done].
  unfold register_one_export. destruct (_ || _); [done|].
  destruct (resolve_symbol env s2 _ _) as [[s3 a]| |] eqn:E; [|done|done]. apply resolve_symbol_resolves in E.
  destruct (kb_loader_symbol_registry_add_export _ _ _ _) as [reg' status]. cbn in *. by etrans.
Qed.

(** The module of every successful preparation, and its last step. *)
Lemma prepare_loaded_done env page allowed s registry owner perms registry' p :
  module_wf (ls_module s) -> prepare_loaded env page allowed s registry owner perms = (registry', Done p) ->
  module_frame (ls_module s) (ls_module (pp_state p)) /\
  finalize_section_protections page allowed (ls_module (pp_state p)) perms = Done (pp_perms p).
Proof.
  intros Hwf. unfold prepare_loaded. destruct (_ ≫= _) as [s3| |] eqn:E; [|discriminate|discriminate].
  apply bind_Done in E as (s1 & H1 & H). assert (module_frame (ls_module s) (ls_module s1)) as F1.
  { apply (apply_relocations_relocated env registry s s1) in H1; [|done]. exact (rl_frame _ _ H1). }
  pose proof (for_symbols_frame (m_elf (ls_module s1)) (patch_one_trace_call env) (ls_module s1) (patch_one_trace_call_frame env)) as F2.
  fold (patch_module_static_trace_calls env (ls_module s1)) in F2.
  destruct (patch_module_static_trace_calls env (ls_module s1)) as [m2 traced]. apply bind_Done in H as (_ & _ & H).
  apply patch_xhci_frame in H as F3. cbn in F2, F3.
  pose proof (register_module_exports_resolves env s3 registry owner) as F4.
  destruct (register_module_exports env s3 registry owner) as [[s4 reg] [[]| |]]; [|discriminate|discriminate].
  intros Hf. apply (f_equal snd) in Hf. cbn [fst snd] in *. apply bind_Done in Hf as ([s5 init] & H5%entry_point_resolves & Hf).
  apply bind_Done in Hf as ([s6 cleanup] & H6%entry_point_resolves & Hf). apply bind_Done in Hf as (perms' & Hfin & Hf).
  injection Hf as <-. cbn. split; [|done].
  transitivity (ls_module s1); [done|]. transitivity m2; [done|]. transitivity (ls_module s3); [done|].
  transitivity (ls_module s4); [exact (rs_frame _ _ _ F4)|].
  transitivity (ls_module s5); [exact (rs_frame _ _ _ H5)|exact (rs_frame _ _ _ H6)].
Qed.

Lemma protectable_frame page m m' : module_frame m m' -> protectable page m -> protectable page m'.
Proof.
  intros F [H1 H2 H3 H4 H5 H6]. pose proof (module_frame_wf _ _ F H1). destruct F as [_ _ Hs Hi _ _].
  constructor; unfold m_image_size in *; rewrite ?Hs, ?Hi; done.
Qed.

(** C1: A module that was loaded and prepared successfully keeps the section
    layout of its loading, and when control is about to be passed to it no page of
    its image is both writable and executable: each page that holds bytes of a
    section has exactly that section's protection, the call stubs are
    read-execute and the shim data read-write. *)
Theorem prepared_module_protected env page allowed s registry owner perms registry' p :
  protectable page (ls_module s) ->
  prepare_loaded env page allowed s registry owner perms = (registry', Done p) ->
  let m := ls_module (pp_state p) in
  module_wf m /\ m_sections m = m_sections (ls_module s) /\
  (forall i l k, m_sections m !! i = Some l -> occupies l -> touches_page page l k ->
     pp_perms p k = native_prot (section_protection (l_flags l))) /\
  (forall k, blen (m_image m) <= k * page < blen (m_image m) + KB_LOCAL_SHIM_DATA_OFFSET ->
     pp_perms p k = Z.lor PROT_READ PROT_EXEC) /\
  (forall k, blen (m_image m) + KB_LOCAL_SHIM_DATA_OFFSET <= k * page < m_image_size m ->
     pp_perms p k = Z.lor PROT_READ PROT_WRITE) /\
  (forall k, 0 <= k * page < m_image_size m -> writable_and_executable (pp_perms p k) = false).
Proof.
  intros Hpr H. destruct (prepare_loaded_done env page allowed s registry owner perms registry' p (pr_wf _ _ Hpr) H) as [F Hf].
  pose proof (protectable_frame page _ _ F Hpr) as Hpr'. split; [exact (pr_wf _ _ Hpr')|]. split; [exact (mf_sections _ _ F)|].
  exact (finalize_protects page allowed _ perms _ Hpr' Hf).
Qed.

(** ** The demo module *)

Lemma demo_registry_ok : registry_ok demo_registry.
Proof. apply registry_ok_add, registry_ok_init. Qed.

Lemma demo_registry_fresh : Forall (fun slot => ex_owner slot <> 0x99) demo_registry.
Proof. apply (bool_decide_unpack _). vm_compute. exact I. Qed.

(** Preparation that fails at the very end, after the exports were registered. *)
Lemma failed_load_leaves_registry_witness :
  exists loaded, open_loaded demo_env 4096 (fun _ _ _ => false) demo_state demo_registry 0x99 (fun _ => 3) =
    (loaded, demo_registry, Fail KB_ERR_UNSUPPORTED).
Proof.
  pose proof (failed_load_leaves_registry demo_env 4096 (fun _ _ _ => false) demo_state demo_registry 0x99 (fun _ => 3)
    demo_registry_ok ltac:(discriminate) demo_registry_fresh) as H.
  assert (match snd (open_loaded demo_env 4096 (fun _ _ _ => false) demo_state demo_registry 0x99 (fun _ => 3)) with
          | Fail KB_ERR_UNSUPPORTED => true | _ => false end = true) as Hr by (vm_compute; reflexivity).
  destruct (open_loaded demo_env 4096 (fun _ _ _ => false) demo_state demo_registry 0x99 (fun _ => 3)) as [[loaded reg] r].
  exists loaded. cbn in Hr. destruct r as [p|e|]; [discriminate| |discriminate]. destruct e; try discriminate. by rewrite H.
Defined.

Lemma demo_prepares :
  exists registry p, prepare_loaded demo_env 4096 (fun _ _ _ => true) demo_state demo_registry 0x99 (fun _ => 3) = (registry, Done p).
Proof.
  assert (match snd (prepare_loaded demo_env 4096 (fun _ _ _ => true) demo_state demo_registry 0x99 (fun _ => 3)) with
          | Done _ => true | _ => false end = true) as H by (vm_compute; reflexivity).
  destruct (prepare_loaded demo_env 4096 _ demo_state demo_registry 0x99 _) as [reg [p| |]]; [by exists reg, p|discriminate|discriminate].
Qed.

Lemma prepared_module_protected_witness :
  exists registry p, prepare_loaded demo_env 4096 (fun _ _ _ => true) demo_state demo_registry 0x99 (fun _ => 3) = (registry, Done p) /\
    m_sections (ls_module (pp_state p)) = m_sections demo_module /\ pp_perms p 0 = Z.lor PROT_READ PROT_EXEC.
Proof.
  destruct demo_prepares as (registry & p & H). exists registry, p. split; [exact H|].
  destruct (prepared_module_protected demo_env 4096 (fun _ _ _ => true) demo_state demo_registry 0x99 (fun _ => 3) registry p
    demo_protectable H) as (_ & Hs & Hp & _). split; [exact Hs|].
  apply (Hp 2%nat (mk_loaded_section demo_base 32 0 16 6)).
  - rewrite Hs. vm_compute. reflexivity.
  - split; discriminate.
  - exists 0. vm_compute. split; [split; congruence|reflexivity].
Defined.
