(* ===== verification/Bitmap.v ===== *)
(** * Bitmap shims (src/src/loader/module_loader.c, lines 428-620, and
    src/src/linux_personality/linux_netdev.c, lines 591-602)

    The kernel bitmap helpers that the loader offers to modules.  A map is the
    list of its 64-bit words, an access past its end is [Fault], NULL is
    [None].  The two-operand routines take their sources as [bitmap_src]: [Same]
    is a source that aliases the destination, which the kernel interface
    permits, [Other] a separate map. *)

From S2P Require Import Prelude.

Definition word_bits : Z := 64.

Definition word_at (m : list Z) (w : Z) : outcome Z :=
  if (0 <=? w) && (w <? blen m) then Done (nth (Z.to_nat w) m 0) else Fault.

Definition set_word (m : list Z) (w v : Z) : outcome (list Z) :=
  if (0 <=? w) && (w <? blen m) then Done (<[Z.to_nat w := v]> m) else Fault.

Inductive bitmap_src := Same | Other (m : list Z).

Definition src_word (dst : list Z) (s : bitmap_src) (w : Z) : outcome Z :=
  match s with Same => word_at dst w | Other m => word_at m w end.

Definition kb_bitmap_word_mask (bit : Z) : Z := Z.shiftl 1 (bit mod word_bits).

(** [~w] on 64 bits. *)
Definition not64 (w : Z) : Z := UINT64_MAX - w.

(** ** Searching *)

Definition kb_find_next_bit (addr : option (list Z)) (size offset : Z) : outcome Z :=
  match addr with
  | None => Done size
  | Some m =>
      if size <=? offset then Done size
      else r ← search_up (Z.to_nat (size - offset)) offset
             (fun bit => w ← word_at m (bit / word_bits);
                         mret (negb (Z.land w (Z.shiftl 1 (bit mod word_bits)) =? 0)));
           mret (default size r)
  end.

Definition kb_find_first_bit_shim (addr : option (list Z)) (size : Z) : outcome Z :=
  kb_find_next_bit addr size 0.

Definition kb_find_next_zero_bit_shim (addr : option (list Z)) (size offset : Z) : outcome Z :=
  match addr with
  | None => Done size
  | Some m =>
      if size <=? offset then Done size
      else r ← search_up (Z.to_nat (size - offset)) offset
             (fun bit => w ← word_at m (bit / word_bits);
                         mret (Z.land w (Z.shiftl 1 (bit mod word_bits)) =? 0));
           mret (default size r)
  end.

Definition kb_find_first_zero_bit_shim (addr : option (list Z)) (size : Z) : outcome Z :=
  kb_find_next_zero_bit_shim addr size 0.

Fixpoint find_last_loop (fuel : nat) (m : list Z) (bit size : Z) : outcome Z :=
  match fuel with
  | O => Done size
  | S fuel =>
      if 0 <? bit then
        let index := bit - 1 in
        w ← word_at m (index / word_bits);
        if negb (Z.land w (Z.shiftl 1 (index mod word_bits)) =? 0) then Done index
        else find_last_loop fuel m (bit - 1) size
      else Done size
  end.

Definition kb_find_last_bit_shim (addr : option (list Z)) (size : Z) : outcome Z :=
  match addr with
  | None => Done size
  | Some m => if size =? 0 then Done size else find_last_loop (S (Z.to_nat size)) m size size
  end.

(** ** Population count *)

Fixpoint hweight_loop (fuel : nat) (count value : Z) : outcome Z :=
  match fuel with
  | O => Fault
  | S fuel => if value =? 0 then Done count
              else hweight_loop fuel (count + Z.land value 1) (Z.shiftr value 1)
  end.

Definition kb_hweight32 (value : Z) : outcome Z := hweight_loop 33 0 value.
Definition kb_hweight64 (value : Z) : outcome Z := hweight_loop 65 0 value.

(** ** Range set and clear *)

Definition kb_bitmap_set_shim (map : option (list Z)) (start len : Z) : outcome (option (list Z)) :=
  match map with
  | None => Done None
  | Some m =>
      if len <=? 0 then Done map
      else m' ← for_from (Z.to_nat len) 0 (fun i m =>
                  let bit := u32 (start + i) in
                  w ← word_at m (bit / word_bits);
                  set_word m (bit / word_bits) (Z.lor w (kb_bitmap_word_mask bit))) m;
           mret (Some m')
  end.

Definition kb_bitmap_clear_shim (map : option (list Z)) (start len : Z) : outcome (option (list Z)) :=
  match map with
  | None => Done None
  | Some m =>
      if len <=? 0 then Done map
      else m' ← for_from (Z.to_nat len) 0 (fun i m =>
                  let bit := u32 (start + i) in
                  w ← word_at m (bit / word_bits);
                  set_word m (bit / word_bits) (Z.land w (not64 (kb_bitmap_word_mask bit)))) m;
           mret (Some m')
  end.

(** ** Word-wise operations *)

Definition bitmap_words (bits : Z) : Z := u32 (bits + word_bits - 1) / word_bits.

Definition wordwise (f : Z -> Z -> Z) (dst : list Z) (src1 src2 : bitmap_src) (bits : Z)
    : outcome (list Z * bool) :=
  for_from (Z.to_nat (bitmap_words bits)) 0 (fun i '(dst, any) =>
    a ← src_word dst src1 i;
    b ← src_word dst src2 i;
    dst' ← set_word dst i (f a b);
    mret (dst', any || negb (f a b =? 0))) (dst, false).

Definition kb_bitmap_and_shim (dst : option (list Z)) (src1 src2 : option bitmap_src) (bits : Z)
    : outcome (option (list Z) * bool) :=
  match dst, src1, src2 with
  | Some d, Some s1, Some s2 =>
      r ← wordwise (fun a b => Z.land a b) d s1 s2 bits; mret (Some r.1, r.2)
  | _, _, _ => Done (dst, false)
  end.

Definition kb_bitmap_andnot_shim (dst : option (list Z)) (src1 src2 : option bitmap_src) (bits : Z)
    : outcome (option (list Z) * bool) :=
  match dst, src1, src2 with
  | Some d, Some s1, Some s2 =>
      r ← wordwise (fun a b => Z.land a (not64 b)) d s1 s2 bits; mret (Some r.1, r.2)
  | _, _, _ => Done (dst, false)
  end.

Definition kb_bitmap_or_shim (dst : option (list Z)) (src1 src2 : option bitmap_src) (bits : Z)
    : outcome (option (list Z)) :=
  match dst, src1, src2 with
  | Some d, Some s1, Some s2 =>
      r ← wordwise (fun a b => Z.lor a b) d s1 s2 bits; mret (Some r.1)
  | _, _, _ => Done dst
  end.

Definition kb_bitmap_complement_shim (dst : option (list Z)) (src : option bitmap_src) (bits : Z)
    : outcome (option (list Z)) :=
  match dst, src with
  | Some d, Some s => r ← wordwise (fun a _ => not64 a) d s s bits; mret (Some r.1)
  | _, _ => Done dst
  end.

Definition kb_bitmap_intersects_shim (src1 src2 : option (list Z)) (bits : Z) : outcome bool :=
  match src1, src2 with
  | Some a, Some b =>
      r ← search_up (Z.to_nat (bitmap_words bits)) 0
            (fun i => x ← word_at a i; y ← word_at b i; mret (negb (Z.land x y =? 0)));
      mret (bool_decide (is_Some r))
  | _, _ => Done false
  end.

(** [memset(dst, 0, words * sizeof(unsigned long))] *)
Definition clear_words (dst : list Z) (words : Z) : outcome (list Z) :=
  if words <=? blen dst then Done (splice dst 0 (replicate (Z.to_nat words) 0)) else Fault.

Definition or_bit (m : list Z) (bit : Z) : outcome (list Z) :=
  w ← word_at m (bit / word_bits);
  set_word m (bit / word_bits) (Z.lor w (kb_bitmap_word_mask bit)).

Definition kb_bitmap_shift_left_shim (dst : option (list Z)) (src : option bitmap_src)
    (shift bits : Z) : outcome (option (list Z)) :=
  match dst, src with
  | Some d, Some s =>
      d ← clear_words d (bitmap_words bits);
      d ← for_from (Z.to_nat bits) 0 (fun bit d =>
            w ← src_word d s (bit / word_bits);
            if negb (Z.land w (kb_bitmap_word_mask bit) =? 0) && (u32 (bit + shift) <? bits)
            then or_bit d (u32 (bit + shift)) else mret d) d;
      mret (Some d)
  | _, _ => Done dst
  end.

Definition kb_bitmap_shift_right_shim (dst : option (list Z)) (src : option bitmap_src)
    (shift bits : Z) : outcome (option (list Z)) :=
  match dst, src with
  | Some d, Some s =>
      d ← clear_words d (bitmap_words bits);
      d ← for_from (Z.to_nat (bits - shift)) shift (fun bit d =>
            w ← src_word d s (bit / word_bits);
            if negb (Z.land w (kb_bitmap_word_mask bit) =? 0)
            then or_bit d (bit - shift) else mret d) d;
      mret (Some d)
  | _, _ => Done dst
  end.

(** ** The abstract bitmap: bit [i] of a list of words *)

Definition bit_of (m : list Z) (i : Z) : bool :=
  Z.testbit (nth (Z.to_nat (i / word_bits)) m 0) (i mod word_bits).

Definition words_ok (m : list Z) : Prop := Forall is_u64 m.
Definition nbits (m : list Z) : Z := word_bits * blen m.

Lemma land_bit w k : 0 <= k -> (Z.land w (Z.shiftl 1 k) =? 0) = negb (Z.testbit w k).
Proof.
  intros Hk. rewrite Z.shiftl_1_l. destruct (Z.testbit w k) eqn:E; cbn.
  - apply Z.eqb_neq. intros H. apply (f_equal (fun z => Z.testbit z k)) in H.
    rewrite Z.land_spec, E, Z.pow2_bits_true, Z.testbit_0_l in H by lia. done.
  - apply Z.eqb_eq. apply Z.bits_inj'. intros j Hj. rewrite Z.land_spec, Z.testbit_0_l.
    rewrite Z.pow2_bits_eqb by lia. destruct (Z.eqb_spec k j) as [<-|]; [by rewrite E|apply andb_false_r].
Qed.

Lemma mask_bit i j : 0 <= j -> Z.testbit (kb_bitmap_word_mask i) j = (i mod word_bits =? j).
Proof.
  intros Hj. unfold kb_bitmap_word_mask. rewrite Z.shiftl_1_l. apply Z.pow2_bits_eqb.
  by apply Z.mod_pos_bound.
Qed.

Lemma mask_u64 b : is_u64 (kb_bitmap_word_mask b).
Proof.
  unfold kb_bitmap_word_mask, is_u64, word_bits. rewrite Z.shiftl_1_l.
  pose proof (Z.mod_pos_bound b 64 ltac:(lia)). split; [apply Z.pow_nonneg; lia|].
  apply (Z.pow_lt_mono_r 2 (b mod 64) 64); lia.
Qed.

Lemma not64_bit w k : is_u64 w -> 0 <= k < 64 -> Z.testbit (not64 w) k = negb (Z.testbit w k).
Proof.
  intros Hw Hk. unfold not64. change UINT64_MAX with (Z.ones 64).
  rewrite Z.sub_nocarry_ldiff; [rewrite Z.ldiff_spec, Z.ones_spec_low by lia; done|].
  apply Z.bits_inj'. intros j Hj. rewrite Z.ldiff_spec, Z.testbit_0_l.
  destruct (decide (j < 64)).
  - rewrite Z.ones_spec_low by lia. apply andb_false_r.
  - rewrite (testbit_above w 64 j); [done|exact Hw|lia].
Qed.

Lemma word_at_in m w : 0 <= w < blen m -> word_at m w = Done (nth (Z.to_nat w) m 0).
Proof. intros H. unfold word_at. destruct (Z.leb_spec 0 w), (Z.ltb_spec w (blen m)); done || lia. Qed.

Lemma set_word_in m w v : 0 <= w < blen m -> set_word m w v = Done (<[Z.to_nat w := v]> m).
Proof. intros H. unfold set_word. destruct (Z.leb_spec 0 w), (Z.ltb_spec w (blen m)); done || lia. Qed.

(** A bit index inside the map addresses a word of it. *)
Lemma bit_word m i : 0 <= i < nbits m -> 0 <= i / word_bits < blen m.
Proof. unfold nbits, word_bits. intros H. ilia. Qed.

Lemma bit_of_insert m w v i :
  0 <= w < blen m -> 0 <= i ->
  bit_of (<[Z.to_nat w := v]> m) i =
  if decide (i / word_bits = w) then Z.testbit v (i mod word_bits) else bit_of m i.
Proof.
  intros Hw Hi. unfold bit_of. rewrite !nth_lookup.
  assert (0 <= i / word_bits) by (apply Z.div_pos; unfold word_bits; lia).
  case_decide as Hd.
  - rewrite Hd, list_lookup_insert_eq by (unfold blen in Hw; lia). done.
  - rewrite list_lookup_insert_ne by lia. done.
Qed.

(** Rewriting one word with a bit-wise change of bit [b] changes just that bit. *)
Lemma update_bit m b v (f : bool) :
  0 <= b < nbits m ->
  (forall j, 0 <= j < 64 -> Z.testbit v j =
     if b mod word_bits =? j then f else Z.testbit (nth (Z.to_nat (b / word_bits)) m 0) j) ->
  let m' := <[Z.to_nat (b / word_bits) := v]> m in
  blen m' = blen m /\ forall i, 0 <= i -> bit_of m' i = if decide (i = b) then f else bit_of m i.
Proof.
  intros Hb Hv m'. split; [unfold m', blen; by rewrite length_insert|]. intros i Hi. unfold m'.
  rewrite bit_of_insert by (by apply bit_word || done). case_decide as Hd.
  - rewrite Hv by (unfold word_bits; by apply Z.mod_pos_bound).
    destruct (Z.eqb_spec (b mod word_bits) (i mod word_bits)) as [E|E].
    + rewrite decide_True; [done|]. unfold word_bits in *. ilia.
    + rewrite decide_False by congruence. unfold bit_of. by rewrite Hd.
  - rewrite decide_False by congruence. done.
Qed.

Lemma or_bit_spec m b :
  0 <= b < nbits m ->
  exists m', or_bit m b = Done m' /\ blen m' = blen m /\
    forall i, 0 <= i -> bit_of m' i = if decide (i = b) then true else bit_of m i.
Proof.
  intros Hb. unfold or_bit. rewrite word_at_in by by apply bit_word. mred.
  rewrite set_word_in by by apply bit_word. eexists. split; [done|].
  apply update_bit; [done|]. intros j Hj. rewrite Z.lor_spec, mask_bit by lia.
  destruct (_ =? j); [apply orb_true_r|apply orb_false_r].
Qed.

Lemma clear_bit_spec m b :
  0 <= b < nbits m ->
  exists m', (w ← word_at m (b / word_bits);
     set_word m (b / word_bits) (Z.land w (not64 (kb_bitmap_word_mask b)))) = Done m' /\
    blen m' = blen m /\
    forall i, 0 <= i -> bit_of m' i = if decide (i = b) then false else bit_of m i.
Proof.
  intros Hb. rewrite word_at_in by by apply bit_word. mred.
  rewrite set_word_in by by apply bit_word. eexists. split; [done|].
  apply update_bit; [done|]. intros j Hj. rewrite Z.land_spec, not64_bit; [|apply mask_u64|lia].
  rewrite mask_bit by lia. destruct (_ =? j); [apply andb_false_r|apply andb_true_r].
Qed.

Lemma test_bit_in m i :
  0 <= i < nbits m -> word_at m (i / word_bits) = Done (nth (Z.to_nat (i / word_bits)) m 0) /\
  (Z.land (nth (Z.to_nat (i / word_bits)) m 0) (Z.shiftl 1 (i mod word_bits)) =? 0) = negb (bit_of m i).
Proof.
  intros Hi. split; [by apply word_at_in, bit_word|]. apply land_bit. by apply Z.mod_pos_bound.
Qed.

(** ** Searches *)

Lemma find_last_loop_spec fuel m bit size :
  0 <= bit <= nbits m -> bit < Z.of_nat fuel ->
  exists r, find_last_loop fuel m bit size = Done r /\
    ((0 <= r < bit /\ bit_of m r = true /\ forall j, r < j < bit -> bit_of m j = false) \/
     (r = size /\ forall j, 0 <= j < bit -> bit_of m j = false)).
Proof.
  revert bit. induction fuel as [|fuel IH]; intros bit Hb Hf; [lia|]. cbn [find_last_loop].
  destruct (Z.ltb_spec 0 bit); [|exists size; split; [done|]; right; split; [done|]; intros; lia].
  destruct (test_bit_in m (bit - 1)) as [Hw Ht]; [lia|]. rewrite Hw. mred. rewrite Ht. rewrite negb_involutive.
  destruct (bit_of m (bit - 1)) eqn:E.
  - exists (bit - 1). split; [done|]. left. split_and!; [lia|lia|done|intros; lia].
  - destruct (IH (bit - 1) ltac:(lia) ltac:(lia)) as (r & -> & Hr). exists r. split; [done|].
    assert (forall j, j < bit -> (j < bit - 1 -> bit_of m j = false) -> bit_of m j = false) as Hcase.
    { intros j Hj H'. destruct (decide (j = bit - 1)) as [->|]; [done|apply H'; lia]. }
    destruct Hr as [(Hr & Htr & Hab)|(-> & Hall)]; [left|right].
    + split_and!; [lia|lia|done|]. intros j Hj. apply Hcase; [lia|]. intros; apply Hab; lia.
    + split; [done|]. intros j Hj. apply Hcase; [lia|]. intros; apply Hall; lia.
Qed.

(** On a map that holds at least [size] bits, the forward searches return
    the first set (clear) bit at or after the offset and below the size, the
    backward search the last set bit below the size, and each returns the size
    when there is none; no search reads outside the map. *)
Theorem bitmap_searches m size offset :
  0 <= size <= nbits m -> 0 <= offset ->
  (exists r, kb_find_next_bit (Some m) size offset = Done r /\
     ((offset <= r < size /\ bit_of m r = true /\ forall j, offset <= j < r -> bit_of m j = false) \/
      (r = size /\ forall j, offset <= j < size -> bit_of m j = false))) /\
  (exists r, kb_find_next_zero_bit_shim (Some m) size offset = Done r /\
     ((offset <= r < size /\ bit_of m r = false /\ forall j, offset <= j < r -> bit_of m j = true) \/
      (r = size /\ forall j, offset <= j < size -> bit_of m j = true))) /\
  (exists r, kb_find_last_bit_shim (Some m) size = Done r /\
     ((0 <= r < size /\ bit_of m r = true /\ forall j, r < j < size -> bit_of m j = false) \/
      (r = size /\ forall j, 0 <= j < size -> bit_of m j = false))).
Proof.
  intros Hs Ho. split_and!.
  - unfold kb_find_next_bit. destruct (Z.leb_spec size offset); [eexists; split; [done|right; split; [done|intros; lia]]|].
    edestruct (search_up_spec (Z.to_nat (size - offset)) offset) as (r & -> & Hr).
    { intros j Hj. destruct (test_bit_in m j) as [Hw Ht]; [lia|]. rewrite Hw. mred. rewrite Ht. by rewrite negb_involutive. }
    mred. eexists. split; [done|]. destruct r as [k|]; cbn in *.
    + left. split; [lia|]. split; apply Hr.
    + right. split; [done|]. intros; apply Hr; lia.
  - unfold kb_find_next_zero_bit_shim. destruct (Z.leb_spec size offset); [eexists; split; [done|right; split; [done|intros; lia]]|].
    edestruct (search_up_spec (Z.to_nat (size - offset)) offset) as (r & -> & Hr).
    { intros j Hj. destruct (test_bit_in m j) as [Hw Ht]; [lia|]. rewrite Hw. mred. rewrite Ht. done. }
    mred. eexists. split; [done|]. destruct r as [k|]; cbn in *.
    + left. destruct Hr as (? & Hk & Hlt). apply negb_true_iff in Hk. split_and!; [lia|lia|done|].
      intros j Hj. apply negb_false_iff. apply Hlt. lia.
    + right. split; [done|]. intros j Hj. apply negb_false_iff, Hr. lia.
  - unfold kb_find_last_bit_shim. destruct (Z.eqb_spec size 0) as [->|]; [eexists; split; [done|right; split; [done|intros; lia]]|].
    apply find_last_loop_spec; lia.
Qed.

Lemma bitmap_searches_witness :
  exists r, kb_find_next_bit (Some [0; 8]) 128 3 = Done r /\ r = 67.
Proof.
  destruct (bitmap_searches [0; 8] 128 3) as [(r & Hr & _) _]; [vm_compute; split; discriminate|lia|].
  exists r. split; [exact Hr|]. vm_compute in Hr. congruence.
Defined.

(** ** Range updates *)

(** A loop that sets each of the bits [start, start + len) to [f]. *)
Lemma range_update (step : Z -> list Z -> outcome (list Z)) (f : bool) m start len :
  0 <= start -> 0 <= len -> start + len <= nbits m ->
  (forall j m', 0 <= j < len -> blen m' = blen m ->
     exists m'', step j m' = Done m'' /\ blen m'' = blen m' /\
     forall i, 0 <= i -> bit_of m'' i = if decide (i = start + j) then f else bit_of m' i) ->
  exists m', for_from (Z.to_nat len) 0 step m = Done m' /\ blen m' = blen m /\
    forall i, 0 <= i -> bit_of m' i = if decide (start <= i < start + len) then f else bit_of m i.
Proof.
  intros Hs Hl Hn Hstep.
  destruct (for_from_inv (fun j m' => blen m' = blen m /\
    forall i, 0 <= i -> bit_of m' i = if decide (start <= i < start + j) then f else bit_of m i)
    step (Z.to_nat len) 0 m) as (m' & Hrun & HL & Hbits).
  - split; [done|]. intros i Hi. by rewrite decide_False by lia.
  - intros j t Hj [HL Hb]. destruct (Hstep j t ltac:(lia) HL) as (t' & Ht & HL' & Hb').
    exists t'. split; [done|]. split; [congruence|]. intros i Hi. rewrite Hb', Hb by done.
    repeat case_decide; done || lia.
  - exists m'. split; [done|]. split; [done|]. intros i Hi. rewrite Hbits by done.
    replace (0 + Z.of_nat (Z.to_nat len)) with len by lia. done.
Qed.

(** Setting (clearing) a range that lies inside the map changes exactly
    the bits of the range and keeps the length of the map. *)
Theorem bitmap_set_clear_range m start len :
  0 <= start -> 0 < len -> start + len <= nbits m -> start + len <= 0x100000000 ->
  (exists m', kb_bitmap_set_shim (Some m) start len = Done (Some m') /\ blen m' = blen m /\
     forall i, 0 <= i -> bit_of m' i = if decide (start <= i < start + len) then true else bit_of m i) /\
  (exists m', kb_bitmap_clear_shim (Some m) start len = Done (Some m') /\ blen m' = blen m /\
     forall i, 0 <= i -> bit_of m' i = if decide (start <= i < start + len) then false else bit_of m i).
Proof.
  intros Hs Hl Hn Hw. unfold kb_bitmap_set_shim, kb_bitmap_clear_shim.
  rewrite (proj2 (Z.leb_gt len 0)) by done.
  split.
  - destruct (range_update (fun i m => or_bit m (u32 (start + i))) true m start len Hs ltac:(lia) Hn)
      as (m' & Hrun & HL & Hb); [|unfold or_bit in Hrun; rewrite Hrun; mred; by exists m'].
    intros j t Hj HL. rewrite u32_small by (unfold is_u32; lia).
    apply or_bit_spec. unfold nbits in *. rewrite HL. lia.
  - destruct (range_update (fun i m => w ← word_at m (u32 (start + i) / word_bits);
      set_word m (u32 (start + i) / word_bits) (Z.land w (not64 (kb_bitmap_word_mask (u32 (start + i))))))
      false m start len Hs ltac:(lia) Hn) as (m' & Hrun & HL & Hb); [|rewrite Hrun; mred; by exists m'].
    intros j t Hj HL. rewrite u32_small by (unfold is_u32; lia).
    apply clear_bit_spec. unfold nbits in *. rewrite HL. lia.
Qed.

Lemma bitmap_set_clear_range_witness :
  exists m', kb_bitmap_set_shim (Some [0; 0]) 62 4 = Done (Some m') /\ bit_of m' 65 = true /\ bit_of m' 66 = false.
Proof.
  destruct (bitmap_set_clear_range [0; 0] 62 4) as [(m' & H & _ & Hb) _];
    [lia|lia|vm_compute; discriminate|lia|].
  exists m'. split; [exact H|]. split; [exact (Hb 65 ltac:(lia))|exact (Hb 66 ltac:(lia))].
Defined.

(** ** Word-wise operations *)

Definition resolve (dst : list Z) (s : bitmap_src) : list Z :=
  match s with Same => dst | Other m => m end.

Lemma src_word_resolve d0 d s w :
  blen d = blen d0 -> (forall j, w <= j -> nth (Z.to_nat j) d 0 = nth (Z.to_nat j) d0 0) ->
  0 <= w < blen (resolve d0 s) -> src_word d s w = Done (nth (Z.to_nat w) (resolve d0 s) 0).
Proof.
  intros HL Hk Hw. destruct s; cbn [src_word resolve] in *; [|by apply word_at_in].
  rewrite word_at_in by lia. by rewrite Hk by lia.
Qed.

Lemma nth_insert_word (m : list Z) w v j :
  0 <= w < blen m -> 0 <= j ->
  nth (Z.to_nat j) (<[Z.to_nat w := v]> m) 0 = if decide (j = w) then v else nth (Z.to_nat j) m 0.
Proof.
  intros Hw Hj. rewrite !nth_lookup. case_decide as Hd.
  - subst. rewrite list_lookup_insert_eq by (unfold blen in Hw; lia). done.
  - rewrite list_lookup_insert_ne by lia. done.
Qed.

Lemma wordwise_spec f d s1 s2 bits :
  let words := bitmap_words bits in
  words <= blen d -> words <= blen (resolve d s1) -> words <= blen (resolve d s2) ->
  exists d' any, wordwise f d s1 s2 bits = Done (d', any) /\ blen d' = blen d /\
    (forall w, 0 <= w -> nth (Z.to_nat w) d' 0 =
       if decide (w < words) then f (nth (Z.to_nat w) (resolve d s1) 0) (nth (Z.to_nat w) (resolve d s2) 0)
       else nth (Z.to_nat w) d 0) /\
    (any = true <-> exists w, 0 <= w < words /\ nth (Z.to_nat w) d' 0 <> 0).
Proof.
  intros words Hd H1 H2. assert (0 <= words) by (apply Z.div_pos; [apply u32_range|done]).
  destruct (for_from_inv (fun j '(t, any) => blen t = blen d /\
    (forall w, 0 <= w -> nth (Z.to_nat w) t 0 =
       if decide (w < j) then f (nth (Z.to_nat w) (resolve d s1) 0) (nth (Z.to_nat w) (resolve d s2) 0)
       else nth (Z.to_nat w) d 0) /\
    (any = true <-> exists w, 0 <= w < j /\ nth (Z.to_nat w) t 0 <> 0))
    (fun i '(dst, any) => a ← src_word dst s1 i; b ← src_word dst s2 i;
       dst' ← set_word dst i (f a b); mret (dst', any || negb (f a b =? 0)))
    (Z.to_nat words) 0 (d, false)) as ([d' any] & Hrun & HL & Hw & Ha).
  - split_and!; [done| |split; [done|intros (w & ? & _); lia]]. intros w Hw. by rewrite decide_False by lia.
  - intros j [t any] Hj (HL & Hw & Ha).
    assert (forall k, j <= k -> nth (Z.to_nat k) t 0 = nth (Z.to_nat k) d 0) as Hlater.
    { intros k Hk. rewrite Hw by lia. by rewrite decide_False by lia. }
    rewrite (src_word_resolve d t s1 j HL Hlater) by lia. mred.
    rewrite (src_word_resolve d t s2 j HL Hlater) by lia. mred.
    rewrite set_word_in by lia. mred. eexists. split; [done|]. cbn beta.
    set (v := f _ _). split; [unfold blen; rewrite length_insert; exact HL|]. split.
    + intros w Hwp. rewrite nth_insert_word by lia. case_decide as E.
      * subst w. by rewrite decide_True by lia.
      * rewrite Hw by done. repeat case_decide; done || lia.
    + rewrite orb_true_iff, Ha, negb_true_iff, Z.eqb_neq. split.
      * intros [(w & Hwj & Hne)|Hne].
        -- exists w. split; [lia|]. rewrite nth_insert_word by lia. by rewrite decide_False by lia.
        -- exists j. split; [lia|]. rewrite nth_insert_word by lia. by rewrite decide_True.
      * intros (w & Hwj & Hne). rewrite nth_insert_word in Hne by lia.
        case_decide; [by right|]. left. exists w. split; [lia|done].
  - exists d', any. replace (0 + Z.of_nat (Z.to_nat words)) with words in * by lia. done.
Qed.

(** The word-wise operations compute, bit by bit on every whole word the
    bit count touches, the conjunction, the difference, the disjunction and the
    complement of their sources, also when a source is the destination itself;
    words beyond are kept, and [and]/[andnot] report whether a bit is left. *)
Theorem bitmap_wordwise_ops d s1 s2 bits :
  words_ok (resolve d s1) -> words_ok (resolve d s2) -> 0 <= bits -> bits + 63 <= UINT32_MAX ->
  let words := (bits + 63) / 64 in
  words <= blen d -> words <= blen (resolve d s1) -> words <= blen (resolve d s2) ->
  let a := bit_of (resolve d s1) in let b := bit_of (resolve d s2) in
  let agrees d' (f : Z -> bool) := blen d' = blen d /\
    forall i, 0 <= i -> bit_of d' i = if decide (i < 64 * words) then f i else bit_of d i in
  (exists d' any, kb_bitmap_and_shim (Some d) (Some s1) (Some s2) bits = Done (Some d', any) /\
     agrees d' (fun i => a i && b i) /\
     (any = true <-> exists w, 0 <= w < words /\ nth (Z.to_nat w) d' 0 <> 0)) /\
  (exists d' any, kb_bitmap_andnot_shim (Some d) (Some s1) (Some s2) bits = Done (Some d', any) /\
     agrees d' (fun i => a i && negb (b i)) /\
     (any = true <-> exists w, 0 <= w < words /\ nth (Z.to_nat w) d' 0 <> 0)) /\
  (exists d', kb_bitmap_or_shim (Some d) (Some s1) (Some s2) bits = Done (Some d') /\
     agrees d' (fun i => a i || b i)) /\
  (exists d', kb_bitmap_complement_shim (Some d) (Some s1) bits = Done (Some d') /\
     agrees d' (fun i => negb (a i))).
Proof.
  intros Hok1 Hok2 Hb0 Hb words Hd H1 H2 a b agrees.
  assert (bitmap_words bits = words) as Hwords.
  { unfold bitmap_words, words, word_bits. rewrite u32_small by (unfold is_u32, UINT32_MAX in *; lia).
    f_equal. lia. }
  assert (forall s i, words_ok (resolve d s) -> is_u64 (nth i (resolve d s) 0)) as Hu.
  { intros s i Hok. rewrite nth_lookup. destruct (resolve d s !! i) eqn:E; cbn; [|done].
    by apply (Forall_lookup_1 _ _ _ _ Hok E). }
  assert (forall d' f g, blen d' = blen d ->
    (forall w, 0 <= w -> nth (Z.to_nat w) d' 0 =
       if decide (w < words) then f (nth (Z.to_nat w) (resolve d s1) 0) (nth (Z.to_nat w) (resolve d s2) 0)
       else nth (Z.to_nat w) d 0) ->
    (forall i, 0 <= i -> Z.testbit (f (nth (Z.to_nat (i / 64)) (resolve d s1) 0)
       (nth (Z.to_nat (i / 64)) (resolve d s2) 0)) (i mod 64) = g i) -> agrees d' g) as Hagree.
  { intros d' f g HL Hw Hfg. split; [done|]. intros i Hi. unfold bit_of, word_bits.
    rewrite Hw by (by apply Z.div_pos). repeat case_decide; [by apply Hfg| | |done]; ilia. }
  assert (forall i, 0 <= i mod 64 < 64) as Hmod by (intros; by apply Z.mod_pos_bound).
  split_and!.
  - edestruct (wordwise_spec (fun x y => Z.land x y) d s1 s2 bits) as (d' & any & Hrun & HL & Hw & Ha); [lia..|].
    exists d', any. unfold kb_bitmap_and_shim. rewrite Hrun. rewrite Hwords in *. split; [done|]. split; [|done].
    eapply Hagree; [done|done|]. intros i Hi. cbn beta. by rewrite Z.land_spec.
  - edestruct (wordwise_spec (fun x y => Z.land x (not64 y)) d s1 s2 bits) as (d' & any & Hrun & HL & Hw & Ha); [lia..|].
    exists d', any. unfold kb_bitmap_andnot_shim. rewrite Hrun. rewrite Hwords in *. split; [done|]. split; [|done].
    eapply (Hagree d' (fun x y => Z.land x (not64 y))); [done|done|]. intros i Hi. cbn beta.
    by rewrite Z.land_spec, not64_bit by auto.
  - edestruct (wordwise_spec (fun x y => Z.lor x y) d s1 s2 bits) as (d' & any & Hrun & HL & Hw & Ha); [lia..|].
    exists d'. unfold kb_bitmap_or_shim. rewrite Hrun. rewrite Hwords in *. split; [done|].
    eapply Hagree; [done|done|]. intros i Hi. cbn beta. by rewrite Z.lor_spec.
  - edestruct (wordwise_spec (fun x _ => not64 x) d s1 s1 bits) as (d' & any & Hrun & HL & Hw & Ha); [lia..|].
    exists d'. unfold kb_bitmap_complement_shim. rewrite Hrun. rewrite Hwords in *. split; [done|].
    eapply (Hagree d' (fun x _ => not64 x)); [done|done|]. intros i Hi. cbn beta. by rewrite not64_bit by auto.
Qed.

Lemma bitmap_wordwise_ops_witness :
  exists d' any, kb_bitmap_and_shim (Some [12; 7]) (Some Same) (Some (Other [10; 8])) 65 = Done (Some d', any) /\
    bit_of d' 3 = true /\ bit_of d' 2 = false.
Proof.
  destruct (bitmap_wordwise_ops [12; 7] Same (Other [10; 8]) 65) as [(d' & any & H & [_ Hb] & _) _];
    [repeat constructor; done|repeat constructor; done|lia|vm_compute; discriminate|
     vm_compute; discriminate|vm_compute; discriminate|vm_compute; discriminate|].
  exists d', any. split; [exact H|]. split; [exact (Hb 3 ltac:(lia))|exact (Hb 2 ltac:(lia))].
Defined.

(** ** Shifts *)

Lemma clear_words_spec d words :
  0 <= words <= blen d ->
  exists d', clear_words d words = Done d' /\ blen d' = blen d /\
    forall i, 0 <= i -> bit_of d' i = if decide (i < 64 * words) then false else bit_of d i.
Proof.
  intros Hw. unfold clear_words. rewrite (proj2 (Z.leb_le _ _)) by lia.
  assert (blen (replicate (Z.to_nat words) 0) = words) as Hl by (unfold blen; rewrite length_replicate; lia).
  eexists. split; [done|]. split; [apply blen_splice; lia|]. intros i Hi. unfold bit_of, word_bits.
  assert (0 <= i / 64) by (by apply Z.div_pos). case_decide.
  - rewrite nth_splice_in by (rewrite ?Hl; ilia). rewrite nth_lookup.
    destruct (replicate _ 0 !! _) eqn:E; cbn; [apply lookup_replicate in E as [-> _]|]; apply Z.testbit_0_l.
  - rewrite nth_splice_other by (rewrite ?Hl; ilia). done.
Qed.

Lemma bitmap_words_small bits :
  0 <= bits -> bits + 63 <= UINT32_MAX ->
  bitmap_words bits = (bits + 63) / 64 /\ 0 <= (bits + 63) / 64 /\ bits <= 64 * ((bits + 63) / 64).
Proof.
  intros H0 H1. unfold bitmap_words, word_bits. rewrite u32_small by (unfold is_u32, UINT32_MAX in *; lia).
  replace (bits + 64 - 1) with (bits + 63) by lia. split; [done|]. ilia.
Qed.

(** A loop that moves each source bit [j] of [lo, hi) to [j + delta], where that
    is below [bits], into a destination whose first [words] words are zero. *)
Lemma move_bits d d0 s lo hi delta bits words step :
  blen d0 = blen d -> words <= blen d -> bits <= 64 * words -> 0 <= lo + delta -> lo <= hi ->
  (forall i, 0 <= i -> bit_of d0 i = if decide (i < 64 * words) then false else bit_of d i) ->
  (forall j t, lo <= j < hi ->
     step j t = if bit_of s j && (j + delta <? bits) then or_bit t (j + delta) else Done t) ->
  exists d', for_from (Z.to_nat (hi - lo)) lo step d0 = Done d' /\ blen d' = blen d /\
    forall i, 0 <= i -> bit_of d' i =
      if decide (i < 64 * words) then bool_decide (lo <= i - delta < hi /\ i < bits) && bit_of s (i - delta)
      else bit_of d i.
Proof.
  intros HL0 Hw Hcov Hlo Hhi Hd0 Hstep.
  destruct (for_from_inv (fun j t => blen t = blen d /\ forall i, 0 <= i -> bit_of t i =
    if decide (i < 64 * words) then bool_decide (lo <= i - delta < j /\ i < bits) && bit_of s (i - delta)
    else bit_of d i) step (Z.to_nat (hi - lo)) lo d0) as (d' & Hrun & HL & Hbit).
  - split; [done|]. intros i Hi. rewrite Hd0 by done. case_decide; [|done].
    by rewrite bool_decide_false by lia.
  - intros j t Hj [HL Hbit]. rewrite Hstep by lia.
    destruct (bit_of s j && (j + delta <? bits)) eqn:E.
    + boolify. destruct (or_bit_spec t (j + delta)) as (t' & -> & HL' & Hb'); [unfold nbits, word_bits; lia|].
      exists t'. split; [done|]. split; [congruence|]. intros i Hi. rewrite Hb', Hbit by done.
      destruct (decide (i = j + delta)) as [->|Hne].
      * rewrite decide_True, bool_decide_true by lia. by replace (j + delta - delta) with j by lia.
      * case_decide; [|done]. f_equal. apply bool_decide_ext. lia.
    + exists t. split; [done|]. split; [done|]. intros i Hi. rewrite Hbit by done.
      case_decide; [|done]. destruct (decide (i - delta = j)) as [Hij|]; [|f_equal; apply bool_decide_ext; lia].
      rewrite Hij. apply andb_false_iff in E as [->|E]; [by rewrite !andb_false_r|].
      boolify. by rewrite !bool_decide_false by lia.
  - replace (lo + Z.of_nat (Z.to_nat (hi - lo))) with hi in Hbit by lia. eauto.
Qed.

(** Shifting a bitmap into a separate destination moves bit [i] to
    [i + shift] (to [i - shift]), drops what leaves the range of [bits] bits,
    fills with zeros up to the end of the last word and keeps the rest. *)
Theorem bitmap_shifts d s shift bits :
  0 <= shift -> 0 <= bits -> shift + bits <= UINT32_MAX -> bits + 63 <= UINT32_MAX ->
  let words := (bits + 63) / 64 in
  words <= blen d -> words <= blen s ->
  (exists d', kb_bitmap_shift_left_shim (Some d) (Some (Other s)) shift bits = Done (Some d') /\
     blen d' = blen d /\ forall i, 0 <= i -> bit_of d' i =
       if decide (i < 64 * words) then bool_decide (shift <= i < bits) && bit_of s (i - shift)
       else bit_of d i) /\
  (exists d', kb_bitmap_shift_right_shim (Some d) (Some (Other s)) shift bits = Done (Some d') /\
     blen d' = blen d /\ forall i, 0 <= i -> bit_of d' i =
       if decide (i < 64 * words) then bool_decide (i + shift < bits) && bit_of s (i + shift)
       else bit_of d i).
Proof.
  intros Hsh Hb0 Hsum Hb words Hd Hs.
  destruct (bitmap_words_small bits Hb0 Hb) as (Hw & Hw0 & Hcov). fold words in Hw, Hw0, Hcov.
  destruct (clear_words_spec d words) as (d0 & Hclr & HL0 & Hd0); [lia|].
  assert (forall i, 0 <= i < bits -> word_at s (i / word_bits) = Done (nth (Z.to_nat (i / word_bits)) s 0) /\
    (Z.land (nth (Z.to_nat (i / word_bits)) s 0) (kb_bitmap_word_mask i) =? 0) = negb (bit_of s i)) as Htest.
  { intros i Hi. apply test_bit_in. unfold nbits, word_bits. lia. }
  unfold kb_bitmap_shift_left_shim, kb_bitmap_shift_right_shim. rewrite Hw, Hclr. mred. cbn [src_word]. split.
  - edestruct (move_bits d d0 s 0 bits shift bits words) as (d' & Hrun & HL & Hbit);
      [done|lia|lia|lia|lia|done| |].
    2: { rewrite Z.sub_0_r in Hrun. rewrite Hrun. mred. exists d'. split_and!; [done|done|].
         intros i Hi. rewrite Hbit by done. case_decide; [|done]. f_equal. apply bool_decide_ext. lia. }
    intros j t Hj. cbn beta. destruct (Htest j) as [Hwd Ht]; [lia|]. rewrite Hwd. mred. rewrite Ht.
    rewrite negb_involutive, u32_small by (unfold is_u32, UINT32_MAX in *; lia). done.
  - destruct (decide (shift <= bits)) as [Hle|Hgt].
    + edestruct (move_bits d d0 s shift bits (- shift) bits words) as (d' & Hrun & HL & Hbit);
        [done|lia|lia|lia|lia|done| |].
      2: { rewrite Hrun. mred. exists d'. split_and!; [done|done|]. intros i Hi. rewrite Hbit by done.
           case_decide; [|done]. replace (i - - shift) with (i + shift) by lia. f_equal. apply bool_decide_ext. lia. }
      intros j t Hj. cbn beta. destruct (Htest j) as [Hwd Ht]; [lia|]. rewrite Hwd. mred. rewrite Ht.
      rewrite negb_involutive, (proj2 (Z.ltb_lt _ _)), andb_true_r by lia. done.
    + replace (Z.to_nat (bits - shift)) with 0%nat by lia. cbn [for_from]. mred. exists d0.
      split_and!; [done|done|]. intros i Hi. rewrite Hd0 by done. case_decide; [|done].
      by rewrite bool_decide_false by lia.
Qed.

Lemma bitmap_shifts_witness :
  exists d', kb_bitmap_shift_left_shim (Some [7; 0]) (Some (Other [5; 0])) 63 70 = Done (Some d') /\
    bit_of d' 63 = true /\ bit_of d' 64 = false /\ bit_of d' 65 = true.
Proof.
  destruct (bitmap_shifts [7; 0] [5; 0] 63 70) as [(d' & H & _ & Hb) _];
    [lia|lia|vm_compute; discriminate|vm_compute; discriminate|vm_compute; discriminate|vm_compute; discriminate|].
  exists d'. split; [exact H|]. split; [exact (Hb 63 ltac:(lia))|].
  split; [exact (Hb 64 ltac:(lia))|exact (Hb 65 ltac:(lia))].
Defined.

(** When source and destination of a shift are the same map, every word of
    the range is cleared before it is read, so the result is always zero. *)
Theorem bitmap_shift_in_place_clears d shift bits :
  0 <= shift -> 0 <= bits -> shift + bits <= UINT32_MAX -> bits + 63 <= UINT32_MAX ->
  (bits + 63) / 64 <= blen d ->
  exists d', kb_bitmap_shift_left_shim (Some d) (Some Same) shift bits = Done (Some d') /\
    kb_bitmap_shift_right_shim (Some d) (Some Same) shift bits = Done (Some d') /\
    forall i, 0 <= i < bits -> bit_of d' i = false.
Proof.
  intros Hsh Hb0 Hsum Hb Hd.
  destruct (bitmap_words_small bits Hb0 Hb) as (Hw & Hw0 & Hcov).
  destruct (clear_words_spec d _ (conj Hw0 Hd)) as (d0 & Hclr & HL0 & Hd0).
  assert (forall i, 0 <= i < bits -> bit_of d0 i = false) as Hz.
  { intros i Hi. rewrite Hd0 by lia. by rewrite decide_True by lia. }
  assert (forall i, 0 <= i < bits -> word_at d0 (i / word_bits) = Done (nth (Z.to_nat (i / word_bits)) d0 0) /\
    (Z.land (nth (Z.to_nat (i / word_bits)) d0 0) (kb_bitmap_word_mask i) =? 0) = true) as Htest.
  { intros i Hi. destruct (test_bit_in d0 i) as [H1 H2]; [unfold nbits, word_bits; lia|].
    split; [done|]. unfold kb_bitmap_word_mask. by rewrite H2, Hz. }
  exists d0. unfold kb_bitmap_shift_left_shim, kb_bitmap_shift_right_shim. rewrite Hw, Hclr. mred. cbn [src_word].
  split_and!; [| |done].
  - edestruct (for_from_inv (fun _ t => t = d0)) as (d' & Hrun & ->); [done| |by rewrite Hrun].
    intros j t Hj ->. destruct (Htest j) as [H1 H2]; [lia|]. exists d0. rewrite H1. mred. by rewrite H2.
  - edestruct (for_from_inv (fun _ t => t = d0)) as (d' & Hrun & ->); [done| |by rewrite Hrun].
    intros j t Hj ->. destruct (Htest j) as [H1 H2]; [lia|]. exists d0. rewrite H1. mred. by rewrite H2.
Qed.

Lemma bitmap_shift_in_place_clears_witness :
  exists d', kb_bitmap_shift_left_shim (Some [5]) (Some Same) 1 8 = Done (Some d') /\ bit_of d' 1 = false.
Proof.
  destruct (bitmap_shift_in_place_clears [5] 1 8) as (d' & H & _ & Hz);
    [lia|lia|vm_compute; discriminate|vm_compute; discriminate|vm_compute; discriminate|].
  exists d'. split; [exact H|apply Hz; lia].
Defined.

(** ** Population count *)

(** The number of set bits among the lowest [n]. *)
Fixpoint popcount (n : nat) (v : Z) : Z :=
  match n with
  | O => 0
  | S n => Z.b2z (Z.testbit v (Z.of_nat n)) + popcount n v
  end.

Lemma popcount_0 n : popcount n 0 = 0.
Proof. induction n as [|n IH]; [done|]. cbn [popcount]. by rewrite Z.testbit_0_l, IH. Qed.

Lemma popcount_shift n v : popcount (S n) v = Z.b2z (Z.testbit v 0) + popcount n (Z.shiftr v 1).
Proof.
  induction n as [|n IH]; [done|]. change (popcount (S (S n)) v) with
    (Z.b2z (Z.testbit v (Z.of_nat (S n))) + popcount (S n) v). rewrite IH. cbn [popcount].
  rewrite Z.shiftr_spec by lia. replace (Z.of_nat n + 1) with (Z.of_nat (S n)) by lia. lia.
Qed.

Lemma hweight_loop_spec n fuel count v :
  0 <= v < 2 ^ Z.of_nat n -> (n < fuel)%nat -> hweight_loop fuel count v = Done (count + popcount n v).
Proof.
  revert fuel count v. induction n as [|n IH]; intros [|fuel] count v Hv Hf; try lia.
  - cbn [hweight_loop]. replace v with 0 by (cbn in Hv; lia). cbn. f_equal. lia.
  - rewrite popcount_shift. cbn [hweight_loop]. destruct (Z.eqb_spec v 0) as [->|].
    + f_equal. rewrite Z.testbit_0_l, Z.shiftr_0_l, popcount_0. cbn. lia.
    + rewrite IH; [f_equal|rewrite Z.shiftr_div_pow2 by lia; change (2 ^ 1) with 2|lia].
      * change 1 with (Z.ones 1) at 1. rewrite Z.land_ones by lia. change (2 ^ 1) with 2.
        rewrite <- Z.bit0_mod. lia.
      * rewrite Nat2Z.inj_succ, Z.pow_succ_r in Hv by lia. ilia.
Qed.

(** The population counts terminate on every 32-bit and 64-bit value with
    the number of its set bits. *)
Theorem hweight_counts_bits v :
  (is_u32 v -> kb_hweight32 v = Done (popcount 32 v)) /\
  (is_u64 v -> kb_hweight64 v = Done (popcount 64 v)).
Proof.
  split; intros Hv; [apply (hweight_loop_spec 32 33 0)|apply (hweight_loop_spec 64 65 0)]; done || lia.
Qed.

Lemma hweight_counts_bits_witness : kb_hweight32 0xf0000001 = Done 5.
Proof.
  destruct (hweight_counts_bits 0xf0000001) as [H _]. rewrite H; [reflexivity|].
  split; [vm_compute; discriminate|reflexivity].
Defined.
