(* ===== verification/DmaMapping.v ===== *)
(** * DMA mappings and the DMA window (src/src/linux_subsystem/dma/dma.c)

    The subsystem keeps a list of the mappings it has handed out and one DMA
    window: a scope of memory whose pages are mapped once and lent to the
    requests inside it.  The device backend behind it is a parameter: a record
    of operations, each of which may be missing and answers as a function of
    the log of calls made so far, so that any deterministic backend is an
    instance.  Calls with an effect are appended to that log.  Pointers are
    addresses (0 is NULL), [kb_kzalloc] of a list node succeeds or fails by the
    argument [zalloc]; the profiling counters of KOBOX_STORAGE_PROFILE builds
    are left out. *)

From S2P Require Import Prelude.

Definition KB_DMA_TO_DEVICE : Z := 1.
Definition KB_DMA_FROM_DEVICE : Z := 2.
Definition KB_DMA_BIDIRECTIONAL : Z := 3.
Definition KB_DEVICE_DMA_MAPPING_MAX_PAGES : Z := 512.
Definition KB_SUBSYSTEM_DMA_PAGE_SIZE : Z := 4096.
Definition UINTPTR_MAX : Z := UINT64_MAX.
Definition SIZE_MAX : Z := UINT64_MAX.

Record kb_dma_buffer := mk_dma_buffer {
  buf_cpu_addr : Z;
  buf_dma_addr : Z;
  buf_size : Z;
  buf_flags : Z;
}.

Record kb_subsystem_dma_mapping := mk_mapping {
  m_cpu_addr : Z;
  m_dma_addr : Z;
  m_size : Z;
  m_device : Z;
  m_borrowed_window : bool;
  m_persistent_allocation : bool;
}.

Record kb_subsystem_dma_window := mk_window {
  w_backend : Z;
  w_device : Z;
  w_scope_start : Z;
  w_scope_size : Z;
  w_direction : Z;
  w_mapped_start : Z;
  w_mapped_size : Z;
  w_mapped_page_count : Z;
  w_page_dma : list Z;
  w_borrowers : Z;
  w_active : bool;
  w_mapped : bool;
}.
#[export] Instance window_eta : Settable kb_subsystem_dma_window := fun r =>
  mk_window (w_backend r) (w_device r) (w_scope_start r) (w_scope_size r) (w_direction r)
    (w_mapped_start r) (w_mapped_size r) (w_mapped_page_count r) (w_page_dma r) (w_borrowers r)
    (w_active r) (w_mapped r).

Definition zero_page_dma : list Z := replicate (Z.to_nat KB_DEVICE_DMA_MAPPING_MAX_PAGES) 0.

(** [memset(&dma_window, 0, sizeof(dma_window))] *)
Definition zero_window : kb_subsystem_dma_window :=
  mk_window 0 0 0 0 0 0 0 0 zero_page_dma 0 false false.

(** Calls into the backend that change what the device may reach. *)
Inductive dma_event :=
  | EvAlloc (device size : Z) (status : kb_status) (buffer : kb_dma_buffer)
  | EvFree (device : Z) (buffer : kb_dma_buffer)
  | EvMap (device cpu_addr size direction : Z) (status : kb_status) (dma_addr : Z)
  | EvMapPages (device cpu_addr size direction : Z) (status : kb_status) (pages : list Z)
  | EvMapFixed (device cpu_addr size dma_addr direction : Z) (status : kb_status)
  | EvUnmap (device dma_addr size direction : Z).

(** The operations dma.c calls.  A callback that returns something is a function
    of the calls made so far and its arguments, [None] when the pointer is NULL;
    for the two that return nothing only whether the pointer is set matters. *)
Record kb_device_backend_ops := mk_backend_ops {
  op_device_at : option (list dma_event -> Z -> kb_status * Z);
  op_dma_alloc : option (list dma_event -> Z -> Z -> Z -> Z -> kb_status * kb_dma_buffer);
  op_dma_free : bool;
  op_dma_map : option (list dma_event -> Z -> Z -> Z -> Z -> kb_status * Z);
  op_dma_map_pages : option (list dma_event -> Z -> Z -> Z -> Z -> Z -> kb_status * list Z);
  op_dma_map_fixed : option (list dma_event -> Z -> Z -> Z -> Z -> Z -> kb_status);
  op_dma_unmap : bool;
}.

Record dma_state := mk_dma_state {
  dma_mappings : list kb_subsystem_dma_mapping;
  dma_window : kb_subsystem_dma_window;
  dma_log : list dma_event;
}.
#[export] Instance dma_state_eta : Settable dma_state := fun r =>
  mk_dma_state (dma_mappings r) (dma_window r) (dma_log r).

Definition dma_state_init : dma_state := mk_dma_state [] zero_window [].

Definition log_event (st : dma_state) (e : dma_event) : dma_state :=
  st <| dma_log ::= cons e |>.

(** The entries a backend writes at the start of a caller's array. *)
Definition overlay (old new : list Z) : list Z := new ++ drop (length new) old.

(** ** The mapping list *)

Definition remember_dma_mapping_full (st : dma_state) (cpu_addr dma_addr size device : Z)
    (borrowed_window persistent_allocation zalloc : bool) : dma_state * kb_status :=
  if (cpu_addr =? 0) || (size =? 0) then (st, KB_ERR_INVALID)
  else if negb zalloc then (st, KB_ERR_NOMEM)
  else (st <| dma_mappings ::= cons (mk_mapping cpu_addr dma_addr size device
                                       borrowed_window persistent_allocation) |>, KB_OK).

Definition remember_dma_mapping (st : dma_state) (cpu_addr dma_addr size device : Z)
    (borrowed_window zalloc : bool) : dma_state * kb_status :=
  remember_dma_mapping_full st cpu_addr dma_addr size device borrowed_window false zalloc.

Fixpoint take_first (p : kb_subsystem_dma_mapping -> bool) (l : list kb_subsystem_dma_mapping)
    : option (kb_subsystem_dma_mapping * list kb_subsystem_dma_mapping) :=
  match l with
  | [] => None
  | entry :: l =>
      if p entry then Some (entry, l)
      else match take_first p l with
           | Some (e, l') => Some (e, entry :: l')
           | None => None
           end
  end.

Definition take_dma_mapping (st : dma_state) (device dma_addr : Z)
    : dma_state * option kb_subsystem_dma_mapping :=
  match take_first (fun e => (m_device e =? device) && (m_dma_addr e =? dma_addr)) (dma_mappings st) with
  | Some (e, l) => (st <| dma_mappings := l |>, Some e)
  | None => (st, None)
  end.

Definition kb_subsystem_dma_has_transient_mapping (st : dma_state) (device dma_addr : Z) : bool :=
  existsb (fun e => (m_device e =? device) && (m_dma_addr e =? dma_addr) &&
                    negb (m_persistent_allocation e)) (dma_mappings st).

Section backend.
Context (get_ops : Z -> option kb_device_backend_ops).

Definition kb_device_backend_get_ops (backend : Z) : option kb_device_backend_ops :=
  if (backend =? 0) || (backend <? 4096) then None else get_ops backend.

(** [ops != NULL && ops->dma_unmap != NULL], then the call. *)
Definition backend_unmap (st : dma_state) (backend device dma_addr size direction : Z) : dma_state :=
  match kb_device_backend_get_ops backend with
  | Some ops => if op_dma_unmap ops then log_event st (EvUnmap device dma_addr size direction) else st
  | None => st
  end.

Definition kb_subsystem_dma_default_device (st : dma_state) (backend : Z) : Z :=
  match kb_device_backend_get_ops backend with
  | None => 0
  | Some ops =>
      match op_device_at ops with
      | None => 0
      | Some f => match f (dma_log st) 0 with (KB_OK, device) => device | _ => 0 end
      end
  end.

(** [if (device == NULL) device = kb_subsystem_dma_default_device(backend)] *)
Definition resolve_device (st : dma_state) (backend device : Z) : Z :=
  if device =? 0 then kb_subsystem_dma_default_device st backend else device.

(** ** The DMA window *)

Definition dma_window_release_mapping (st : dma_state) : dma_state :=
  let w := dma_window st in
  if negb (w_mapped w) || negb (w_borrowers w =? 0) then st
  else
    let st := backend_unmap st (w_backend w) (w_device w) (nth 0 (w_page_dma w) 0)
                (w_mapped_size w) (w_direction w) in
    st <| dma_window := w <| w_mapped := false |> <| w_mapped_start := 0 |> <| w_mapped_size := 0 |>
                          <| w_mapped_page_count := 0 |> <| w_page_dma := zero_page_dma |> |>.

Definition dma_window_begin_common (st : dma_state) (backend device cpu_addr size direction : Z)
    : dma_state * kb_status :=
  if (backend =? 0) || (cpu_addr =? 0) || (size =? 0) || w_active (dma_window st)
  then (st, KB_ERR_INVALID)
  else
    let device := resolve_device st backend device in
    match kb_device_backend_get_ops backend with
    | None => (st, KB_ERR_INVALID)
    | Some ops =>
        if (device =? 0) || bool_decide (op_dma_map_pages ops = None) || negb (op_dma_unmap ops) ||
           (UINTPTR_MAX - size <? cpu_addr)
        then (st, KB_ERR_INVALID)
        else
          let w := dma_window st in
          let st :=
            if w_mapped w && (negb (backend =? w_backend w) || negb (device =? w_device w) ||
                              negb (direction =? w_direction w) || negb (cpu_addr =? w_mapped_start w))
            then dma_window_release_mapping st else st in
          let st := if negb (w_mapped (dma_window st)) then st <| dma_window := zero_window |> else st in
          (st <| dma_window ::= (fun w =>
             w <| w_backend := backend |> <| w_device := device |> <| w_scope_start := cpu_addr |>
               <| w_scope_size := size |> <| w_direction := direction |> <| w_active := true |>) |>,
           KB_OK)
    end.

Definition kb_subsystem_dma_window_begin (st : dma_state) (backend device cpu_addr size direction : Z)
    : dma_state * kb_status :=
  let st :=
    if w_mapped (dma_window st) && negb (w_active (dma_window st))
    then dma_window_release_mapping st <| dma_window := zero_window |> else st in
  dma_window_begin_common st backend device cpu_addr size direction.

Definition kb_subsystem_dma_cached_window_begin (st : dma_state) (backend device cpu_addr size direction : Z)
    : dma_state * kb_status :=
  dma_window_begin_common st backend device cpu_addr size direction.

Definition kb_subsystem_dma_window_end (st : dma_state) : dma_state :=
  if negb (w_active (dma_window st)) || negb (w_borrowers (dma_window st) =? 0) then st
  else dma_window_release_mapping st <| dma_window := zero_window |>.

Definition kb_subsystem_dma_cached_window_end (st : dma_state) : dma_state :=
  if negb (w_active (dma_window st)) || negb (w_borrowers (dma_window st) =? 0) then st
  else st <| dma_window ::= (fun w =>
         w <| w_active := false |> <| w_scope_start := 0 |> <| w_scope_size := 0 |>) |>.

Definition kb_subsystem_dma_cached_window_discard (st : dma_state) : dma_state :=
  if w_active (dma_window st) || negb (w_borrowers (dma_window st) =? 0) then st
  else dma_window_release_mapping st <| dma_window := zero_window |>.

(** [size / PAGE + (size % PAGE != 0)] *)
Definition page_count_of (size : Z) : Z :=
  size / KB_SUBSYSTEM_DMA_PAGE_SIZE +
  (if size mod KB_SUBSYSTEM_DMA_PAGE_SIZE =? 0 then 0 else 1).

(** The mapping step of [dma_window_map_pages]: reuse the window's mapping or
    replace it.  [Some status] is an early return. *)
Definition window_ensure_mapped (st : dma_state) (backend device request_start size direction : Z)
    : dma_state * option kb_status :=
  let w := dma_window st in
  let request_end := request_start + size in
  let scope_end := u64 (w_scope_start w + w_scope_size w) in
  if w_mapped w && (w_mapped_start w <=? request_start) &&
     (request_end <=? u64 (w_mapped_start w + w_mapped_size w))
  then (st, None)
  else if negb (w_borrowers w =? 0) then (st, Some KB_ERR_INVALID)
  else
    let st := dma_window_release_mapping st in
    let remaining := scope_end - request_start in
    let maximum := KB_DEVICE_DMA_MAPPING_MAX_PAGES * KB_SUBSYSTEM_DMA_PAGE_SIZE in
    let map_size := if remaining <? maximum then remaining else maximum in
    if map_size <? size then (st, Some KB_ERR_UNSUPPORTED)
    else
      match kb_device_backend_get_ops backend with
      | None => (st, Some KB_ERR_UNSUPPORTED)
      | Some ops =>
          match op_dma_map_pages ops with
          | None => (st, Some KB_ERR_UNSUPPORTED)
          | Some f =>
              let '(status, pages) := f (dma_log st) device request_start map_size direction
                                        KB_DEVICE_DMA_MAPPING_MAX_PAGES in
              let pages := take (Z.to_nat KB_DEVICE_DMA_MAPPING_MAX_PAGES) pages in
              let st := log_event st (EvMapPages device request_start map_size direction status pages) in
              let st := st <| dma_window ::= (fun w => w <| w_page_dma ::= (fun old => overlay old pages) |>) |> in
              if bool_decide (status = KB_OK) then
                (st <| dma_window ::= (fun w =>
                   w <| w_mapped_start := request_start |> <| w_mapped_size := map_size |>
                     <| w_mapped_page_count := page_count_of map_size |> <| w_mapped := true |>) |>, None)
              else (st, Some status)
          end
      end.

(** Returns the state, the status, [*out_used] and the page addresses written
    to [out_page_dma] (empty when none are). *)
Definition dma_window_map_pages (st : dma_state) (backend device cpu_addr size direction : Z)
    (out_capacity : Z) (zalloc : bool) : dma_state * kb_status * bool * list Z :=
  let w := dma_window st in
  if negb (w_active w) || negb (backend =? w_backend w) || negb (device =? w_device w) ||
     negb (direction =? w_direction w)
  then (st, KB_ERR_INVALID, false, [])
  else if UINTPTR_MAX - size <? cpu_addr then (st, KB_ERR_INVALID, false, [])
  else
    let request_end := cpu_addr + size in
    let scope_end := u64 (w_scope_start w + w_scope_size w) in
    if (cpu_addr <? w_scope_start w) || (scope_end <? request_end) ||
       negb (Z.land cpu_addr (KB_SUBSYSTEM_DMA_PAGE_SIZE - 1) =? 0)
    then (st, KB_ERR_INVALID, false, [])
    else
      let request_pages := page_count_of size in
      if (request_pages =? 0) || (out_capacity <? request_pages) ||
         (KB_DEVICE_DMA_MAPPING_MAX_PAGES <? request_pages)
      then (st, KB_ERR_UNSUPPORTED, true, [])
      else
        match window_ensure_mapped st backend device cpu_addr size direction with
        | (st, Some status) => (st, status, true, [])
        | (st, None) =>
            let w := dma_window st in
            let first_page := (cpu_addr - w_mapped_start w) / KB_SUBSYSTEM_DMA_PAGE_SIZE in
            if (w_mapped_page_count w <? first_page) ||
               (w_mapped_page_count w - first_page <? request_pages)
            then (st, KB_ERR_INVALID, true, [])
            else
              let out := slice (w_page_dma w) first_page request_pages in
              match remember_dma_mapping st cpu_addr (nth 0 out 0) size device true zalloc with
              | (st, KB_OK) =>
                  (st <| dma_window ::= (fun w => w <| w_borrowers ::= Z.add 1 |>) |>, KB_OK, true, out)
              | (st, status) => (st, status, true, out)
              end
        end.

(** ** Allocations *)

(** [dma_handle] is NULL when [handle_out] is false; the result is the CPU
    address (0 on failure) and the value stored through [dma_handle]. *)
Definition kb_subsystem_dma_alloc (st : dma_state) (backend device size : Z)
    (handle_out zalloc : bool) : dma_state * Z * option Z :=
  if (backend =? 0) || (size =? 0) || negb handle_out then (st, 0, None)
  else
    let device := resolve_device st backend device in
    if device =? 0 then (st, 0, None)
    else
      match kb_device_backend_get_ops backend with
      | None => (st, 0, None)
      | Some ops =>
          match op_dma_alloc ops with
          | None => (st, 0, None)
          | Some f =>
              let '(status, buffer) := f (dma_log st) device size 4096 KB_DMA_BIDIRECTIONAL in
              let st := log_event st (EvAlloc device size status buffer) in
              if negb (bool_decide (status = KB_OK)) then (st, 0, None)
              else
                match remember_dma_mapping_full st (buf_cpu_addr buffer) (buf_dma_addr buffer)
                        (buf_size buffer) device false true zalloc with
                | (st, KB_OK) => (st, buf_cpu_addr buffer, Some (buf_dma_addr buffer))
                | (st, _) =>
                    (if op_dma_free ops then log_event st (EvFree device buffer) else st, 0, None)
                end
          end
      end.

Definition kb_subsystem_dma_free (st : dma_state) (backend size cpu_addr dma_handle : Z) : dma_state :=
  match take_first (fun e => (m_cpu_addr e =? cpu_addr) && (m_dma_addr e =? dma_handle)) (dma_mappings st) with
  | None => st
  | Some (entry, l) =>
      let st := st <| dma_mappings := l |> in
      let buffer := mk_dma_buffer (m_cpu_addr entry) (m_dma_addr entry)
                      (if size =? 0 then m_size entry else size) 0 in
      match kb_device_backend_get_ops backend with
      | Some ops => if op_dma_free ops then log_event st (EvFree (m_device entry) buffer) else st
      | None => st
      end
  end.

(** ** Looking addresses up *)

(** A persistent mapping of the device that contains the request. *)
Definition covers (device request_start request_end : Z) (e : kb_subsystem_dma_mapping) : bool :=
  m_persistent_allocation e && (m_device e =? device) &&
  (m_cpu_addr e <=? UINTPTR_MAX - m_size e) &&
  (m_cpu_addr e <=? request_start) && (request_end <=? m_cpu_addr e + m_size e).

(** [x & ~(uint64_t)(PAGE - 1)] *)
Definition page_floor (x : Z) : Z := Z.ldiff x (KB_SUBSYSTEM_DMA_PAGE_SIZE - 1).

Definition kb_subsystem_dma_preallocated_pages (st : dma_state) (device cpu_addr size : Z)
    (out_page_dma : bool) (out_capacity : Z) : outcome (list Z) :=
  if (device =? 0) || (cpu_addr =? 0) || (size =? 0) || negb out_page_dma || (out_capacity =? 0)
  then Fail KB_ERR_INVALID
  else if UINTPTR_MAX - size <? cpu_addr then Fail KB_ERR_INVALID
  else
    match list_find (fun e => covers device cpu_addr (cpu_addr + size) e = true) (dma_mappings st) with
    | None => Fail KB_ERR_NOT_FOUND
    | Some (_, entry) =>
        let page_offset := Z.land cpu_addr (KB_SUBSYSTEM_DMA_PAGE_SIZE - 1) in
        if SIZE_MAX - page_offset <? size then Fail KB_ERR_INVALID
        else
          let page_count := page_count_of (page_offset + size) in
          if (page_count =? 0) || (out_capacity <? page_count) then Fail KB_ERR_UNSUPPORTED
          else
            let mapping_offset := cpu_addr - m_cpu_addr entry in
            if UINT64_MAX - m_dma_addr entry <? mapping_offset then Fail KB_ERR_INVALID
            else
              let dma_start := m_dma_addr entry + mapping_offset in
              let page_base := page_floor dma_start in
              let last_index := page_count - 1 in
              if (1 <? page_count) &&
                 ((UINT64_MAX / KB_SUBSYSTEM_DMA_PAGE_SIZE <? last_index) ||
                  (UINT64_MAX - page_base <? u64 (last_index * KB_SUBSYSTEM_DMA_PAGE_SIZE)))
              then Fail KB_ERR_INVALID
              else Done (dma_start ::
                     map (fun i => u64 (page_base + u64 (Z.of_nat i * KB_SUBSYSTEM_DMA_PAGE_SIZE)))
                         (seq 1 (Z.to_nat page_count - 1)))
    end.

(** The mapping whose device range contains the address (64-bit end). *)
Definition dma_contains (dma_addr : Z) (e : kb_subsystem_dma_mapping) : bool :=
  (m_dma_addr e <=? dma_addr) && (dma_addr <? u64 (m_dma_addr e + m_size e)).

(** The CPU address (0 is NULL) and [*out_available]. *)
Definition kb_subsystem_dma_cpu_addr (st : dma_state) (dma_addr : Z) : Z * Z :=
  match list_find (fun e => dma_contains dma_addr e = true) (dma_mappings st) with
  | Some (_, entry) =>
      let offset := dma_addr - m_dma_addr entry in
      (u64 (m_cpu_addr entry + offset), u64 (m_size entry - offset))
  | None => (0, 0)
  end.

Definition kb_subsystem_dma_mapping_error (st : dma_state) (dma_addr : Z) : bool :=
  if dma_addr =? 0 then true
  else if existsb (dma_contains dma_addr) (dma_mappings st) then false
  else dma_addr =? 0.

(** ** Mapping and unmapping *)

(** The device address (0 on failure) and [*out_status]. *)
Definition dma_map_with_lifetime (st : dma_state) (backend device cpu_addr size direction : Z)
    (persistent_allocation zalloc : bool) : dma_state * Z * kb_status :=
  if (backend =? 0) || (cpu_addr =? 0) || (size =? 0) then (st, 0, KB_ERR_INVALID)
  else
    let device := resolve_device st backend device in
    if device =? 0 then (st, 0, KB_ERR_INVALID)
    else
      match kb_device_backend_get_ops backend with
      | None => (st, 0, KB_ERR_UNSUPPORTED)
      | Some ops =>
          match op_dma_map ops with
          | None => (st, 0, KB_ERR_UNSUPPORTED)
          | Some f =>
              if persistent_allocation && negb (op_dma_unmap ops) then (st, 0, KB_ERR_UNSUPPORTED)
              else
                let '(status, dma_addr) := f (dma_log st) device cpu_addr size direction in
                let st := log_event st (EvMap device cpu_addr size direction status dma_addr) in
                if bool_decide (status = KB_OK) && (dma_addr =? 0) then
                  (if op_dma_unmap ops then log_event st (EvUnmap device dma_addr size direction) else st,
                   0, KB_ERR_IO)
                else if bool_decide (status = KB_OK) then
                  match remember_dma_mapping_full st cpu_addr dma_addr size device false
                          persistent_allocation zalloc with
                  | (st, KB_OK) => (st, dma_addr, KB_OK)
                  | (st, remember_status) =>
                      (if op_dma_unmap ops then log_event st (EvUnmap device dma_addr size direction) else st,
                       0, remember_status)
                  end
                else (st, 0, status)
          end
      end.

Definition kb_subsystem_dma_map (st : dma_state) (backend device cpu_addr size direction : Z)
    (zalloc : bool) : dma_state * Z * kb_status :=
  dma_map_with_lifetime st backend device cpu_addr size direction false zalloc.

Definition kb_subsystem_dma_map_persistent_bidirectional (st : dma_state)
    (backend device cpu_addr size : Z) (zalloc : bool) : dma_state * Z * kb_status :=
  dma_map_with_lifetime st backend device cpu_addr size KB_DMA_BIDIRECTIONAL true zalloc.

(** [out] is the caller's array before the call ([None] for NULL); the result
    carries the page addresses of a successful call. *)
Definition kb_subsystem_dma_map_pages (st : dma_state) (backend device cpu_addr size direction : Z)
    (out : option (list Z)) (out_capacity : Z) (zalloc : bool) : dma_state * kb_status * list Z :=
  match out with
  | None => (st, KB_ERR_INVALID, [])
  | Some out =>
      if (backend =? 0) || (cpu_addr =? 0) || (size =? 0) || (out_capacity =? 0)
      then (st, KB_ERR_INVALID, out)
      else
        let device := resolve_device st backend device in
        if device =? 0 then (st, KB_ERR_INVALID, out)
        else
          match kb_device_backend_get_ops backend with
          | None => (st, KB_ERR_UNSUPPORTED, out)
          | Some ops =>
              match op_dma_map_pages ops with
              | None => (st, KB_ERR_UNSUPPORTED, out)
              | Some f =>
                  let '(st, status, used_window, pages) :=
                    dma_window_map_pages st backend device cpu_addr size direction out_capacity zalloc in
                  if (used_window : bool) then (st, status, overlay out pages)
                  else
                    let '(status, pages) := f (dma_log st) device cpu_addr size direction out_capacity in
                    let pages := take (Z.to_nat out_capacity) pages in
                    let st := log_event st (EvMapPages device cpu_addr size direction status pages) in
                    let out := overlay out pages in
                    if negb (bool_decide (status = KB_OK)) then (st, status, out)
                    else
                      match remember_dma_mapping_full st cpu_addr (nth 0 out 0) size device false false zalloc with
                      | (st, KB_OK) => (st, KB_OK, out)
                      | (st, status) =>
                          (if op_dma_unmap ops
                           then log_event st (EvUnmap device (nth 0 out 0) size direction) else st, status, out)
                      end
              end
          end
  end.

Definition kb_subsystem_dma_map_fixed (st : dma_state) (backend device cpu_addr size dma_addr direction : Z)
    (zalloc : bool) : dma_state * kb_status :=
  if (backend =? 0) || (cpu_addr =? 0) || (size =? 0) then (st, KB_ERR_INVALID)
  else
    let device := resolve_device st backend device in
    if device =? 0 then (st, KB_ERR_INVALID)
    else
      match kb_device_backend_get_ops backend with
      | None => (st, KB_ERR_UNSUPPORTED)
      | Some ops =>
          match op_dma_map_fixed ops with
          | None => (st, KB_ERR_UNSUPPORTED)
          | Some f =>
              let status := f (dma_log st) device cpu_addr size dma_addr direction in
              let st := log_event st (EvMapFixed device cpu_addr size dma_addr direction status) in
              if negb (bool_decide (status = KB_OK)) then (st, status)
              else
                match remember_dma_mapping st cpu_addr dma_addr size device false zalloc with
                | (st, KB_OK) => (st, KB_OK)
                | (st, status) =>
                    (if op_dma_unmap ops then log_event st (EvUnmap device dma_addr size direction) else st,
                     status)
                end
          end
      end.

Definition kb_subsystem_dma_unmap (st : dma_state) (backend device dma_addr size direction : Z) : dma_state :=
  if (backend =? 0) || (size =? 0) then st
  else
    let device := resolve_device st backend device in
    let '(st, mapping) := take_dma_mapping st device dma_addr in
    match mapping with
    | Some mapping =>
        if m_borrowed_window mapping then
          if negb (w_borrowers (dma_window st) =? 0)
          then st <| dma_window ::= (fun w => w <| w_borrowers ::= Z.pred |>) |> else st
        else if negb (device =? 0) then backend_unmap st backend device dma_addr size direction else st
    | None =>
        if negb (device =? 0) then backend_unmap st backend device dma_addr size direction else st
    end.
End backend.
