(* ===== verification/DmaTheorems.v ===== *)
(** * Properties of the DMA subsystem model (DmaMapping.v)

    The window invariant over all reachable states, the pinning of a borrowed
    window, roll-back and round-trip of mappings, and the address translations. *)

From S2P Require Import Prelude DmaMapping.

(** ** Operations as steps *)

Inductive dma_op :=
  | OpWindowBegin (backend device cpu_addr size direction : Z)
  | OpCachedWindowBegin (backend device cpu_addr size direction : Z)
  | OpWindowEnd
  | OpCachedWindowEnd
  | OpCachedWindowDiscard
  | OpAlloc (backend device size : Z) (handle_out zalloc : bool)
  | OpFree (backend size cpu_addr dma_handle : Z)
  | OpMap (backend device cpu_addr size direction : Z) (zalloc : bool)
  | OpMapPersistent (backend device cpu_addr size : Z) (zalloc : bool)
  | OpMapPages (backend device cpu_addr size direction : Z) (out : option (list Z)) (out_capacity : Z) (zalloc : bool)
  | OpMapFixed (backend device cpu_addr size dma_addr direction : Z) (zalloc : bool)
  | OpUnmap (backend device dma_addr size direction : Z).

(** Addresses and sizes of the window and page-mapping requests are 64-bit. *)
Definition dma_op_ok (o : dma_op) : Prop :=
  match o with
  | OpWindowBegin _ _ cpu_addr size _ | OpCachedWindowBegin _ _ cpu_addr size _
  | OpMapPages _ _ cpu_addr size _ _ _ _ => is_u64 cpu_addr /\ is_u64 size
  | _ => True
  end.

(** ** Arithmetic of pages *)

Lemma length_overlay old new : (length new <= length old)%nat -> length (overlay old new) = length old.
Proof. intros. unfold overlay. rewrite length_app, length_drop. lia. Qed.

Lemma page_aligned x : Z.land x (KB_SUBSYSTEM_DMA_PAGE_SIZE - 1) = 0 -> x mod KB_SUBSYSTEM_DMA_PAGE_SIZE = 0.
Proof. intros <-. symmetry. exact (Z.land_ones x 12 ltac:(lia)). Qed.

Lemma page_count_max size : 0 <= size <= KB_DEVICE_DMA_MAPPING_MAX_PAGES * KB_SUBSYSTEM_DMA_PAGE_SIZE ->
  page_count_of size <= KB_DEVICE_DMA_MAPPING_MAX_PAGES.
Proof.
  unfold page_count_of, KB_DEVICE_DMA_MAPPING_MAX_PAGES, KB_SUBSYSTEM_DMA_PAGE_SIZE. intros H.
  destruct (Z.eqb_spec (size mod 4096) 0); ilia.
Qed.

Lemma page_count_pos size : 0 < size -> 0 < page_count_of size.
Proof.
  unfold page_count_of, KB_SUBSYSTEM_DMA_PAGE_SIZE. intros H. destruct (Z.eqb_spec (size mod 4096) 0); ilia.
Qed.

Lemma nth0_slice p o n : 0 <= o -> 0 < n -> o < blen p -> nth 0 (slice p o n) 0 = nth (Z.to_nat o) p 0.
Proof.
  intros Ho Hn Hp. rewrite !nth_lookup, lookup_slice by lia. rewrite decide_True by lia.
  by rewrite Nat.add_0_r.
Qed.

Section steps.
Context (get_ops : Z -> option kb_device_backend_ops).

Definition dma_exec (st : dma_state) (o : dma_op) : dma_state :=
  match o with
  | OpWindowBegin b d c s dir => (kb_subsystem_dma_window_begin get_ops st b d c s dir).1
  | OpCachedWindowBegin b d c s dir => (kb_subsystem_dma_cached_window_begin get_ops st b d c s dir).1
  | OpWindowEnd => kb_subsystem_dma_window_end get_ops st
  | OpCachedWindowEnd => kb_subsystem_dma_cached_window_end st
  | OpCachedWindowDiscard => kb_subsystem_dma_cached_window_discard get_ops st
  | OpAlloc b d s h z => (kb_subsystem_dma_alloc get_ops st b d s h z).1.1
  | OpFree b s c h => kb_subsystem_dma_free get_ops st b s c h
  | OpMap b d c s dir z => (kb_subsystem_dma_map get_ops st b d c s dir z).1.1
  | OpMapPersistent b d c s z => (kb_subsystem_dma_map_persistent_bidirectional get_ops st b d c s z).1.1
  | OpMapPages b d c s dir out cap z => (kb_subsystem_dma_map_pages get_ops st b d c s dir out cap z).1.1
  | OpMapFixed b d c s a dir z => (kb_subsystem_dma_map_fixed get_ops st b d c s a dir z).1
  | OpUnmap b d a s dir => kb_subsystem_dma_unmap get_ops st b d a s dir
  end.

Inductive dma_step : dma_state -> dma_state -> Prop :=
  | dma_step_op st o : dma_op_ok o -> dma_step st (dma_exec st o).

(** ** The window invariant *)

Definition borrowed_count (l : list kb_subsystem_dma_mapping) : Z :=
  Z.of_nat (length (filter (fun e => m_borrowed_window e = true) l)).

(** A borrowed mapping lies in the window's mapping and carries the device
    address of its page. *)
Definition backed_by (w : kb_subsystem_dma_window) (e : kb_subsystem_dma_mapping) : Prop :=
  w_mapped w = true /\ m_device e = w_device w /\
  w_mapped_start w <= m_cpu_addr e /\
  m_cpu_addr e + m_size e <= w_mapped_start w + w_mapped_size w /\
  m_dma_addr e = nth (Z.to_nat ((m_cpu_addr e - w_mapped_start w) / KB_SUBSYSTEM_DMA_PAGE_SIZE)) (w_page_dma w) 0.

(** [k] borrowed mappings were given to [kb_subsystem_dma_free], which forgets them without
    returning them to the window. *)
Record dma_inv (k : Z) (st : dma_state) : Prop := {
  di_count : w_borrowers (dma_window st) = borrowed_count (dma_mappings st) + k;
  di_leaked : 0 <= k;
  di_inactive : w_active (dma_window st) = false -> w_borrowers (dma_window st) = 0;
  di_backed : forall e, e ∈ dma_mappings st -> m_borrowed_window e = true -> backed_by (dma_window st) e;
  di_pages : length (w_page_dma (dma_window st)) = Z.to_nat KB_DEVICE_DMA_MAPPING_MAX_PAGES;
  di_mapped : w_mapped (dma_window st) = true ->
    0 <= w_mapped_start (dma_window st) /\ 0 <= w_mapped_size (dma_window st) /\
    w_mapped_start (dma_window st) + w_mapped_size (dma_window st) <= UINT64_MAX /\
    w_mapped_page_count (dma_window st) = page_count_of (w_mapped_size (dma_window st)) /\
    w_mapped_page_count (dma_window st) <= KB_DEVICE_DMA_MAPPING_MAX_PAGES /\
    w_mapped_start (dma_window st) mod KB_SUBSYSTEM_DMA_PAGE_SIZE = 0;
  di_scope : w_active (dma_window st) = true ->
    0 <= w_scope_start (dma_window st) /\ 0 <= w_scope_size (dma_window st) /\
    w_scope_start (dma_window st) + w_scope_size (dma_window st) <= UINT64_MAX;
}.

Lemma borrowed_count_nonneg l : 0 <= borrowed_count l.
Proof. unfold borrowed_count. lia. Qed.

Lemma borrowed_count_cons e l :
  borrowed_count (e :: l) = (if m_borrowed_window e then 1 else 0) + borrowed_count l.
Proof.
  unfold borrowed_count. rewrite filter_cons. destruct (m_borrowed_window e); case_decide; try done.
  cbn [length]. lia.
Qed.

Lemma borrowed_none l :
  borrowed_count l <= 0 -> forall e, e ∈ l -> m_borrowed_window e = true -> False.
Proof.
  intros Hc e He Hb. induction He as [e l|e x l He IH]; rewrite borrowed_count_cons in Hc.
  - rewrite Hb in Hc. pose proof (borrowed_count_nonneg l). lia.
  - apply IH; [|done]. pose proof (borrowed_count_nonneg l). destruct (m_borrowed_window x); lia.
Qed.

Lemma take_first_spec p l e l' :
  take_first p l = Some (e, l') -> p e = true /\ l ≡ₚ e :: l'.
Proof.
  revert l'. induction l as [|x l IH]; intros l'; cbn; [done|]. destruct (p x) eqn:E.
  - intros [= -> ->]. done.
  - destruct (take_first p l) as [[y l1]|]; [|done]. intros [= -> <-].
    destruct (IH _ eq_refl) as [? Hp]. split; [done|]. rewrite Hp. constructor.
Qed.

Lemma borrowed_count_perm l l' : l ≡ₚ l' -> borrowed_count l = borrowed_count l'.
Proof. intros H. unfold borrowed_count. by rewrite H. Qed.

(** With no borrower the window may be replaced freely. *)
Lemma inv_no_borrowed k st :
  dma_inv k st -> w_borrowers (dma_window st) = 0 ->
  forall e, e ∈ dma_mappings st -> m_borrowed_window e = true -> False.
Proof. intros Hi H0. apply borrowed_none. pose proof (di_count _ _ Hi). pose proof (di_leaked _ _ Hi). lia. Qed.

Lemma inv_log k st e : dma_inv k st -> dma_inv k (log_event st e).
Proof. intros []. by split. Qed.

Lemma inv_cons k st e :
  dma_inv k st -> m_borrowed_window e = false -> dma_inv k (st <| dma_mappings ::= cons e |>).
Proof.
  intros [] Hb. split; cbn; try done.
  - rewrite borrowed_count_cons, Hb. lia.
  - intros x [->|Hx]%elem_of_cons Hx'; [congruence|auto].
Qed.

Lemma inv_remember k st c a s d per z :
  dma_inv k st -> dma_inv k (remember_dma_mapping_full st c a s d false per z).1.
Proof. intros H. unfold remember_dma_mapping_full. repeat case_match; [done|done|]. by apply inv_cons. Qed.

Lemma inv_backend_unmap k st b d a s dir : dma_inv k st -> dma_inv k (backend_unmap get_ops st b d a s dir).
Proof. intros H. unfold backend_unmap. repeat case_match; try done. by apply inv_log. Qed.

Lemma backend_unmap_fields st b d a s dir :
  dma_mappings (backend_unmap get_ops st b d a s dir) = dma_mappings st /\
  dma_window (backend_unmap get_ops st b d a s dir) = dma_window st.
Proof. unfold backend_unmap. by repeat case_match. Qed.

Lemma zero_window_inv k st :
  dma_inv k st -> w_borrowers (dma_window st) = 0 -> dma_inv k (st <| dma_window := zero_window |>).
Proof.
  intros Hi H0. pose proof (inv_no_borrowed _ _ Hi H0) as Hn. pose proof (borrowed_count_nonneg (dma_mappings st)).
  destruct Hi. split; cbn; try done; [lia|]. intros e He Hb. by destruct (Hn e He Hb).
Qed.

Lemma release_fields st :
  dma_mappings (dma_window_release_mapping get_ops st) = dma_mappings st /\
  w_borrowers (dma_window (dma_window_release_mapping get_ops st)) = w_borrowers (dma_window st) /\
  w_active (dma_window (dma_window_release_mapping get_ops st)) = w_active (dma_window st).
Proof.
  unfold dma_window_release_mapping. case_match; [done|]. cbn.
  by rewrite (proj1 (backend_unmap_fields _ _ _ _ _ _)).
Qed.

Lemma inv_release k st : dma_inv k st -> dma_inv k (dma_window_release_mapping get_ops st).
Proof.
  intros Hi. unfold dma_window_release_mapping. case_match eqn:Hg; [done|]. boolify.
  pose proof (inv_no_borrowed _ _ Hi ltac:(eassumption)) as Hn. destruct Hi.
  split; cbn; rewrite ?(proj1 (backend_unmap_fields _ _ _ _ _ _)); try done.
  intros e He Hb. by destruct (Hn e He Hb).
Qed.

Lemma inv_window_begin k st b d c s dir :
  is_u64 c -> is_u64 s -> dma_inv k st -> dma_inv k (dma_window_begin_common get_ops st b d c s dir).1.
Proof.
  intros Hc Hs Hi. unfold dma_window_begin_common. case_match eqn:Hg; [done|]. boolify.
  destruct (kb_device_backend_get_ops get_ops b) as [ops|]; [|done]. case_match eqn:Hg2; [done|]. boolify.
  pose proof (di_inactive _ _ Hi ltac:(assumption)) as Hz.
  match goal with |- context [if ?g then dma_window_release_mapping get_ops st else st] =>
    set (st1 := if g then dma_window_release_mapping get_ops st else st) end.
  assert (dma_inv k st1 /\ w_borrowers (dma_window st1) = 0) as [Hi1 Hz1].
  { unfold st1. case_match; [|done]. split; [by apply inv_release|].
    destruct (release_fields st) as (_ & -> & _). done. }
  assert (dma_inv k (if negb (w_mapped (dma_window st1)) then st1 <| dma_window := zero_window |> else st1) /\
    w_borrowers (dma_window (if negb (w_mapped (dma_window st1)) then st1 <| dma_window := zero_window |> else st1)) = 0)
    as [Hi2 Hz2].
  { destruct (negb (w_mapped (dma_window st1))); [|done]. split; [by apply zero_window_inv|done]. }
  revert Hi2 Hz2. generalize (if negb (w_mapped (dma_window st1)) then st1 <| dma_window := zero_window |> else st1).
  intros st2 Hi2 Hz2. pose proof (inv_no_borrowed _ _ Hi2 Hz2) as Hn. destruct Hi2. split; cbn; try done.
  - intros e He Hb. by destruct (Hn e He Hb).
  - intros _. unfold UINTPTR_MAX, is_u64, UINT64_MAX in *. lia.
Qed.

(** Filling the window's page array while nothing is borrowed or mapped. *)
Lemma inv_fill_pages k st pages :
  dma_inv k st -> w_borrowers (dma_window st) = 0 -> (length pages <= Z.to_nat KB_DEVICE_DMA_MAPPING_MAX_PAGES)%nat ->
  dma_inv k (st <| dma_window ::= (fun w => w <| w_page_dma ::= (fun old => overlay old pages) |>) |>).
Proof.
  intros Hi Hz Hl. pose proof (inv_no_borrowed _ _ Hi Hz) as Hn. destruct Hi. split; cbn; try done.
  - intros e He Hb. by destruct (Hn e He Hb).
  - rewrite length_overlay; lia.
Qed.

(** The outcome of securing a mapping for a request inside the scope. *)
Record ensured (k : Z) (st st' : dma_state) (start size : Z) (r : option kb_status) : Prop := {
  en_inv : dma_inv k st';
  en_mappings : dma_mappings st' = dma_mappings st;
  en_borrowers : w_borrowers (dma_window st') = w_borrowers (dma_window st);
  en_active : w_active (dma_window st') = w_active (dma_window st);
  en_device : w_device (dma_window st') = w_device (dma_window st);
  en_mapped : r = None ->
    w_mapped (dma_window st') = true /\ w_mapped_start (dma_window st') <= start /\
    start + size <= w_mapped_start (dma_window st') + w_mapped_size (dma_window st');
  en_pinned : w_borrowers (dma_window st) <> 0 -> st' = st;
}.

Lemma release_device st : w_device (dma_window (dma_window_release_mapping get_ops st)) = w_device (dma_window st).
Proof. unfold dma_window_release_mapping. by case_match. Qed.

Lemma release_scope st :
  w_scope_start (dma_window (dma_window_release_mapping get_ops st)) = w_scope_start (dma_window st) /\
  w_scope_size (dma_window (dma_window_release_mapping get_ops st)) = w_scope_size (dma_window st).
Proof. unfold dma_window_release_mapping. by case_match. Qed.

Lemma window_ensure_spec k st b d start size dir :
  dma_inv k st -> w_active (dma_window st) = true -> 0 <= size ->
  start mod KB_SUBSYSTEM_DMA_PAGE_SIZE = 0 ->
  w_scope_start (dma_window st) <= start ->
  start + size <= w_scope_start (dma_window st) + w_scope_size (dma_window st) ->
  let r := window_ensure_mapped get_ops st b d start size dir in
  ensured k st r.1 start size r.2.
Proof.
  intros Hi Ha Hsz Hal Hlo Hhi. destruct (di_scope _ _ Hi Ha) as (Hs0 & Hs1 & Hs2).
  unfold window_ensure_mapped. rewrite (u64_small (w_scope_start _ + _)) by (unfold is_u64, UINT64_MAX in *; lia).
  destruct (w_mapped (dma_window st) && _ && _) eqn:Hreuse; cbn [fst snd].
  { boolify. destruct (di_mapped _ _ Hi ltac:(assumption)) as (? & ? & ? & ? & ? & ?).
    split; try done. intros _. rewrite u64_small in * by (unfold is_u64, UINT64_MAX in *; lia). done. }
  destruct (Z.eqb_spec (w_borrowers (dma_window st)) 0) as [Hz|Hnz]; cbn [negb].
  2: { by split. }
  pose proof (inv_release _ _ Hi) as Hir.
  destruct (release_fields st) as (Hrm & Hrb & Hra). pose proof (release_device st) as Hrd.
  revert Hir Hrm Hrb Hra Hrd. generalize (dma_window_release_mapping get_ops st). intros st1 Hir Hrm Hrb Hra Hrd.
  set (maximum := KB_DEVICE_DMA_MAPPING_MAX_PAGES * KB_SUBSYSTEM_DMA_PAGE_SIZE).
  set (map_size := if _ <? maximum then _ else maximum).
  destruct (Z.ltb_spec map_size size) as [|Hge]; [by split|].
  destruct (kb_device_backend_get_ops get_ops b) as [ops|]; [|by split].
  destruct (op_dma_map_pages ops) as [f|]; [|by split].
  destruct (f _ _ _ _ _ _) as [status pages].
  match goal with |- context [log_event st1 ?ev <| dma_window ::= ?g |>] =>
    assert (dma_inv k (log_event st1 ev <| dma_window ::= g |>)) as Hi2
      by (apply inv_fill_pages; [by apply inv_log|cbn; lia|rewrite length_take; lia]);
    set (st2 := log_event st1 ev <| dma_window ::= g |>) in * end.
  assert (dma_mappings st2 = dma_mappings st /\ w_borrowers (dma_window st2) = w_borrowers (dma_window st) /\
    w_active (dma_window st2) = w_active (dma_window st) /\ w_device (dma_window st2) = w_device (dma_window st))
    as (Hm2 & Hb2 & Ha2 & Hd2) by done.
  clearbody st2. destruct (bool_decide (status = KB_OK)); cbn [fst snd]; [|by split].
  assert (start + map_size <= w_scope_start (dma_window st) + w_scope_size (dma_window st) /\ map_size <= maximum)
    as [Hms Hmx] by (unfold map_size; destruct (Z.ltb_spec (w_scope_start (dma_window st) + w_scope_size (dma_window st) - start) maximum); lia).
  split; cbn; try done.
  - pose proof (inv_no_borrowed _ _ Hi2 ltac:(lia)) as Hn. destruct Hi2. split; cbn; try done.
    + intros e He Hb. by destruct (Hn e He Hb).
    + intros _. split_and!; [lia|lia|lia|done| |done]. apply page_count_max. unfold maximum in Hmx. lia.
  - intros _. split_and!; [done|lia|lia].
Qed.

Lemma inv_window_map_pages k st b d c s dir cap z :
  is_u64 c -> is_u64 s -> c <> 0 -> s <> 0 -> dma_inv k st ->
  dma_inv k (dma_window_map_pages get_ops st b d c s dir cap z).1.1.1.
Proof.
  intros Hc Hs Hc0 Hs0 Hi. unfold dma_window_map_pages.
  case_match eqn:Hg1; [done|]. case_match eqn:Hg2; [done|]. case_match eqn:Hg3; [done|].
  case_match eqn:Hg4; [done|]. boolify.
  destruct (di_scope _ _ Hi ltac:(done)) as (Hp & Hq & Hr).
  rewrite u64_small in * by (unfold is_u64, UINT64_MAX in *; lia).
  pose proof (window_ensure_spec k st b d c s dir Hi ltac:(done) ltac:(unfold is_u64 in *; lia)
    ltac:(by apply page_aligned) ltac:(lia) ltac:(lia)) as He.
  destruct (window_ensure_mapped get_ops st b d c s dir) as [st1 [status|]]; cbn [fst snd] in He; destruct He; [done|].
  destruct (en_mapped0 eq_refl) as (Hm & Hlo & Hhi). case_match eqn:Hg5; [done|]. boolify.
  unfold remember_dma_mapping, remember_dma_mapping_full.
  rewrite !(proj2 (Z.eqb_neq _ 0)) by done. cbn [orb]. destruct z; cbn [negb fst snd]; [|done].
  destruct en_inv0. assert (w_active (dma_window st1) = true) as Hact by (rewrite en_active0; done).
  split; cbn; try done.
  - rewrite borrowed_count_cons. cbn [m_borrowed_window]. lia.
  - congruence.
  - intros e [->|Hin]%elem_of_cons Hb.
    + unfold backed_by; cbn. split_and!; [done|rewrite en_device0; done|done|done|].
      destruct (di_mapped0 Hm) as (? & ? & ? & Hpc & Hpm & _). pose proof (page_count_pos s ltac:(unfold is_u64 in *; lia)).
      apply nth0_slice; [apply Z.div_pos; [lia|done]|done|]. unfold blen. rewrite di_pages0. lia.
    + by apply di_backed0.
Qed.

Lemma inv_remove k st e l :
  dma_inv k st -> dma_mappings st ≡ₚ e :: l ->
  dma_inv (k + (if m_borrowed_window e then 1 else 0)) (st <| dma_mappings := l |>).
Proof.
  intros [] Hp. pose proof (borrowed_count_perm _ _ Hp) as Hc. rewrite borrowed_count_cons in Hc.
  split; cbn; try done.
  - lia.
  - destruct (m_borrowed_window e); lia.
  - intros x Hx Hb. apply di_backed0; [|done]. rewrite Hp. apply elem_of_cons. by right.
Qed.

Lemma inv_return k st e l :
  dma_inv k st -> dma_mappings st ≡ₚ e :: l -> m_borrowed_window e = true ->
  w_borrowers (dma_window st) <> 0 /\
  dma_inv k (st <| dma_mappings := l |> <| dma_window ::= (fun w => w <| w_borrowers ::= Z.pred |>) |>).
Proof.
  intros Hi Hp Hb. pose proof (inv_remove _ _ _ _ Hi Hp) as Hr.
  pose proof (borrowed_count_perm _ _ Hp) as Hc. rewrite borrowed_count_cons, Hb in Hc. rewrite Hb in Hr.
  pose proof (borrowed_count_nonneg l). pose proof (di_count _ _ Hi). pose proof (di_leaked _ _ Hi). split; [lia|].
  destruct Hr. split; cbn in *; try done; [lia|]. intros Ha. specialize (di_inactive0 Ha). lia.
Qed.

(** Walk through an operation whose pieces all preserve the invariant. *)
Ltac inv_steps :=
  repeat first
    [ progress cbn [fst snd]
    | assumption
    | apply inv_log
    | apply inv_backend_unmap
    | lazymatch goal with |- dma_inv ?k ?X =>
      lazymatch X with context [remember_dma_mapping_full ?st ?c ?a ?s ?d false ?per ?z] =>
          let H := fresh "Hrem" in
          assert (dma_inv k (remember_dma_mapping_full st c a s d false per z).1) as H;
          [apply inv_remember|destruct (remember_dma_mapping_full st c a s d false per z) as [? ?]; cbn [fst snd] in H]
      end end
    | progress case_match ].

Lemma inv_unmap k st b d a s dir : dma_inv k st -> dma_inv k (kb_subsystem_dma_unmap get_ops st b d a s dir).
Proof.
  intros Hi. unfold kb_subsystem_dma_unmap. case_match; [done|]. unfold take_dma_mapping.
  destruct (take_first _ _) as [[e l]|] eqn:E.
  - apply take_first_spec in E as [_ Hp]. pose proof (inv_remove _ _ _ _ Hi Hp) as Hr.
    destruct (m_borrowed_window e) eqn:Hb.
    + destruct (inv_return _ _ _ _ Hi Hp Hb) as [Hne Hret]. cbn [dma_window set_field].
      rewrite (proj2 (Z.eqb_neq _ _) Hne). exact Hret.
    + rewrite Z.add_0_r in Hr. case_match; [by apply inv_backend_unmap|done].
  - case_match; [by apply inv_backend_unmap|done].
Qed.

(** Whether a request gives a borrowed mapping to [kb_subsystem_dma_free]. *)
Definition misfree (st : dma_state) (o : dma_op) : Z :=
  match o with
  | OpFree _ _ cpu_addr dma_handle =>
      match take_first (fun e => (m_cpu_addr e =? cpu_addr) && (m_dma_addr e =? dma_handle)) (dma_mappings st) with
      | Some (e, _) => if m_borrowed_window e then 1 else 0
      | None => 0
      end
  | _ => 0
  end.
Lemma inv_free k st b s c h :
  dma_inv k st -> dma_inv (k + misfree st (OpFree b s c h)) (kb_subsystem_dma_free get_ops st b s c h).
Proof.
  intros Hi. unfold kb_subsystem_dma_free, misfree. destruct (take_first _ _) as [[e l]|] eqn:E; [|by rewrite Z.add_0_r].
  apply take_first_spec in E as [_ Hp]. pose proof (inv_remove _ _ _ _ Hi Hp). inv_steps.
Qed.

Lemma inv_end k st : dma_inv k st -> w_borrowers (dma_window st) = 0 ->
  dma_inv k (dma_window_release_mapping get_ops st <| dma_window := zero_window |>).
Proof.
  intros Hi Hz. apply zero_window_inv; [by apply inv_release|].
  by destruct (release_fields st) as (_ & -> & _).
Qed.

Lemma inv_alloc k st b d s h z : dma_inv k st -> dma_inv k (kb_subsystem_dma_alloc get_ops st b d s h z).1.1.
Proof. intros Hi. unfold kb_subsystem_dma_alloc. inv_steps. Qed.

Lemma inv_map k st b d c s dir per z :
  dma_inv k st -> dma_inv k (dma_map_with_lifetime get_ops st b d c s dir per z).1.1.
Proof. intros Hi. unfold dma_map_with_lifetime. inv_steps. Qed.

Lemma inv_map_fixed k st b d c s a dir z :
  dma_inv k st -> dma_inv k (kb_subsystem_dma_map_fixed get_ops st b d c s a dir z).1.
Proof. intros Hi. unfold kb_subsystem_dma_map_fixed, remember_dma_mapping. inv_steps. Qed.

Lemma inv_map_pages k st b d c s dir out cap z :
  is_u64 c -> is_u64 s -> dma_inv k st ->
  dma_inv k (kb_subsystem_dma_map_pages get_ops st b d c s dir out cap z).1.1.
Proof.
  intros Hc Hs Hi. unfold kb_subsystem_dma_map_pages. destruct out as [out|]; [|done].
  case_match eqn:Hg; [done|]. boolify. case_match; [done|].
  destruct (kb_device_backend_get_ops get_ops b) as [ops|]; [|done].
  destruct (op_dma_map_pages ops) as [f|]; [|done].
  pose proof (inv_window_map_pages k st b (resolve_device get_ops st b d) c s dir cap z
    Hc Hs ltac:(done) ltac:(done) Hi) as Hw.
  destruct (dma_window_map_pages _ _ _ _ _ _ _ _ _) as [[[st1 status] used] pages]. cbn [fst snd] in Hw.
  inv_steps.
Qed.

Lemma inv_exec k st o : dma_op_ok o -> dma_inv k st -> dma_inv (k + misfree st o) (dma_exec st o).
Proof.
  intros Hok Hi. destruct o; cbn [dma_exec dma_op_ok] in *; try (change (misfree st _) with 0; rewrite Z.add_0_r).
  - destruct Hok. unfold kb_subsystem_dma_window_begin. apply inv_window_begin; [done|done|].
    case_match eqn:Hg; [|done]. boolify. apply inv_end; [done|]. by apply (di_inactive _ _ Hi).
  - destruct Hok. by apply inv_window_begin.
  - unfold kb_subsystem_dma_window_end. case_match eqn:Hg; [done|]. boolify. by apply inv_end.
  - unfold kb_subsystem_dma_cached_window_end. case_match eqn:Hg; [done|]. boolify.
    destruct Hi. by split.
  - unfold kb_subsystem_dma_cached_window_discard. case_match eqn:Hg; [done|]. boolify. by apply inv_end.
  - by apply inv_alloc.
  - by apply inv_free.
  - by apply inv_map.
  - by apply inv_map.
  - destruct Hok. by apply inv_map_pages.
  - by apply inv_map_fixed.
  - by apply inv_unmap.
Qed.

(** The state after a sequence of requests, and how many of them were misdirected frees. *)
Definition dma_run (st : dma_state) (os : list dma_op) : dma_state := foldl dma_exec st os.
Fixpoint misfreed (st : dma_state) (os : list dma_op) : Z :=
  match os with [] => 0 | o :: os => misfree st o + misfreed (dma_exec st o) os end.

Lemma inv_init : dma_inv 0 dma_state_init.
Proof. split; cbn; try done. intros e He. by apply not_elem_of_nil in He. Qed.

Lemma run_inv k st os : Forall dma_op_ok os -> dma_inv k st -> dma_inv (k + misfreed st os) (dma_run st os).
Proof.
  intros Hok. revert k st. induction Hok as [|o os Ho _ IH]; intros k st Hi; cbn; [by rewrite Z.add_0_r|].
  rewrite Z.add_assoc. by apply IH, inv_exec.
Qed.

Lemma reachable_inv st : rtc dma_step dma_state_init st -> exists k, dma_inv k st.
Proof.
  intros H. revert st H. apply rtc_ind_r; [exists 0; apply inv_init|].
  intros st st' _ Hstep [k IH]. destruct Hstep as [st o Hok]. eexists. by apply inv_exec.
Qed.
End steps.

(** ** Reachable states *)

(** A backend that maps memory one to one (device address = CPU address plus
    an offset), used by the examples below. *)
Definition page_list (base : Z) (n : nat) : list Z :=
  map (fun i => base + 4096 * Z.of_nat i) (seq 0 n).

Definition linear_ops : kb_device_backend_ops :=
  mk_backend_ops (Some (fun _ _ => (KB_OK, 7)))
    (Some (fun _ _ size _ _ => (KB_OK, mk_dma_buffer 0x30000 0x930000 size 0))) true
    (Some (fun _ _ cpu _ _ => (KB_OK, cpu + 0x900000)))
    (Some (fun _ _ cpu size _ _ => (KB_OK, page_list (cpu + 0x900000) (S (Z.to_nat (page_count_of size - 1))))))
    (Some (fun _ _ _ _ _ _ => KB_OK)) true.

Definition linear_backend (b : Z) : option kb_device_backend_ops :=
  if b =? 0x5000 then Some linear_ops else None.

(** A window over four pages with one borrowed page. *)
Definition sample_requests : list dma_op :=
  [OpCachedWindowBegin 0x5000 7 0x10000 0x4000 1; OpMapPages 0x5000 7 0x11000 0x1000 1 (Some [0]) 1 true].
Definition sample_window_state : dma_state := dma_run linear_backend dma_state_init sample_requests.

Definition sample_entry : kb_subsystem_dma_mapping := mk_mapping 0x11000 0x911000 0x1000 7 true false.

Lemma sample_reachable : rtc (dma_step linear_backend) dma_state_init sample_window_state.
Proof.
  unfold sample_window_state, sample_requests. cbn [dma_run foldl].
  eapply rtc_r; [eapply rtc_r; [apply rtc_refl|]|]; apply dma_step_op; cbn [dma_op_ok]; unfold is_u64; lia.
Qed.

Lemma sample_mappings : dma_mappings sample_window_state = [sample_entry].
Proof. vm_compute. reflexivity. Qed.

(** C7: After any sequence of DMA requests, with any backend and any pattern of allocation
    failures: each borrowed mapping lies inside the window's current mapping and holds the
    device address of its page; the borrower count is exactly the number of borrowed mappings
    plus the number of borrowed mappings that were given to kb_subsystem_dma_free instead of
    being unmapped; a window that is not active has no borrowers; and the recorded page count
    is that of the mapped size and fits the page array. *)
Theorem dma_window_invariant get_ops os :
  Forall dma_op_ok os -> dma_inv (misfreed get_ops dma_state_init os) (dma_run get_ops dma_state_init os).
Proof. intros Hok. apply (run_inv get_ops 0 _ _ Hok inv_init). Qed.

Lemma dma_window_invariant_witness : dma_inv 0 sample_window_state /\ w_borrowers (dma_window sample_window_state) = 1.
Proof.
  split; [|vm_compute; reflexivity].
  pose proof (dma_window_invariant linear_backend sample_requests ltac:(repeat constructor; cbn; unfold is_u64; lia)) as H.
  replace (misfreed linear_backend dma_state_init sample_requests) with 0 in H by (vm_compute; reflexivity). exact H.
Defined.

(** A borrowed mapping that is given to kb_subsystem_dma_free is never returned: the window
    keeps a borrower although nothing is mapped, and can neither be ended nor discarded. *)
Lemma misfree_pins_window :
  let st := dma_exec linear_backend sample_window_state (OpFree 0x5000 0 0x11000 0x911000) in
  dma_mappings st = [] /\ w_borrowers (dma_window st) = 1 /\
  dma_exec linear_backend st OpWindowEnd = st /\ dma_exec linear_backend st OpCachedWindowDiscard = st.
Proof. vm_compute. split_and!; reflexivity. Qed.

(** ** A borrowed window is pinned *)

(** The parts of the window that describe what the device can reach. *)
Definition same_mapping (w w' : kb_subsystem_dma_window) : Prop :=
  w_backend w' = w_backend w /\ w_device w' = w_device w /\ w_direction w' = w_direction w /\
  w_mapped w' = w_mapped w /\ w_mapped_start w' = w_mapped_start w /\
  w_mapped_size w' = w_mapped_size w /\ w_mapped_page_count w' = w_mapped_page_count w /\
  w_page_dma w' = w_page_dma w /\ w_active w' = w_active w.

Section pinned.
Context (get_ops : Z -> option kb_device_backend_ops).

Lemma remember_window st c a s d bw per z :
  dma_window (remember_dma_mapping_full st c a s d bw per z).1 = dma_window st.
Proof. unfold remember_dma_mapping_full. by repeat case_match. Qed.

Ltac window_steps :=
  repeat first
    [ done
    | progress cbn [fst snd]
    | rewrite (proj2 (backend_unmap_fields _ _ _ _ _ _ _))
    | lazymatch goal with
      | |- context [remember_dma_mapping_full ?st ?c ?a ?s ?d ?bw ?per ?z] =>
          let H := fresh "Hrem" in
          pose proof (remember_window st c a s d bw per z) as H;
          destruct (remember_dma_mapping_full st c a s d bw per z) as [? ?]; cbn [fst snd] in H
      end
    | match goal with |- context [dma_window (log_event ?x ?e)] =>
        change (dma_window (log_event x e)) with (dma_window x) end
    | match goal with H : dma_window ?x = _ |- context [dma_window ?x] => rewrite H end
    | progress case_match ].

Lemma same_mapping_eq w w' : w = w' -> same_mapping w' w.
Proof. by intros ->. Qed.

Lemma window_map_pages_pinned k st b d c s dir cap z :
  is_u64 c -> is_u64 s -> dma_inv k st -> w_borrowers (dma_window st) <> 0 ->
  same_mapping (dma_window st) (dma_window (dma_window_map_pages get_ops st b d c s dir cap z).1.1.1).
Proof.
  intros Hc Hs Hi Hne. unfold dma_window_map_pages.
  case_match eqn:Hg1; [done|]. case_match eqn:Hg2; [done|]. case_match eqn:Hg3; [done|].
  case_match eqn:Hg4; [done|]. boolify. destruct (di_scope _ _ Hi ltac:(done)) as (? & ? & ?).
  rewrite u64_small in * by (unfold is_u64, UINT64_MAX in *; lia).
  pose proof (window_ensure_spec get_ops k st b d c s dir Hi ltac:(done) ltac:(unfold is_u64 in *; lia)
    ltac:(by apply page_aligned) ltac:(lia) ltac:(lia)) as He.
  destruct (window_ensure_mapped get_ops st b d c s dir) as [st1 r]; cbn [fst snd] in He.
  pose proof (en_pinned _ _ _ _ _ _ He Hne) as ->. destruct r; [done|]. case_match; [done|].
  unfold remember_dma_mapping. window_steps; cbn; by rewrite ?Hrem.
Qed.

Lemma exec_pinned k st o :
  dma_op_ok o -> dma_inv k st -> w_borrowers (dma_window st) <> 0 ->
  same_mapping (dma_window st) (dma_window (dma_exec get_ops st o)).
Proof.
  intros Hok Hi Hne. assert (w_active (dma_window st) = true) as Ha.
  { destruct (w_active (dma_window st)) eqn:E; [done|]. by destruct (di_inactive _ _ Hi E). }
  assert ((w_borrowers (dma_window st) =? 0) = false) as Hb by by apply Z.eqb_neq.
  destruct o; cbn [dma_exec dma_op_ok] in *.
  - unfold kb_subsystem_dma_window_begin, dma_window_begin_common. rewrite Ha, andb_false_r, Ha, orb_true_r. done.
  - unfold kb_subsystem_dma_cached_window_begin, dma_window_begin_common. by rewrite Ha, orb_true_r.
  - unfold kb_subsystem_dma_window_end. by rewrite Hb, orb_true_r.
  - unfold kb_subsystem_dma_cached_window_end. by rewrite Hb, orb_true_r.
  - unfold kb_subsystem_dma_cached_window_discard. by rewrite Ha.
  - unfold kb_subsystem_dma_alloc. apply same_mapping_eq. window_steps.
  - unfold kb_subsystem_dma_free. apply same_mapping_eq. window_steps.
  - unfold kb_subsystem_dma_map, dma_map_with_lifetime. apply same_mapping_eq. window_steps.
  - unfold kb_subsystem_dma_map_persistent_bidirectional, dma_map_with_lifetime. apply same_mapping_eq. window_steps.
  - destruct Hok as [Hc Hs]. unfold kb_subsystem_dma_map_pages.
    destruct out as [out|]; [|done]. case_match; [done|]. case_match; [done|].
    destruct (kb_device_backend_get_ops get_ops backend) as [ops|]; [|done].
    destruct (op_dma_map_pages ops) as [f|]; [|done].
    pose proof (window_map_pages_pinned k st backend (resolve_device get_ops st backend device) cpu_addr size
      direction out_capacity zalloc Hc Hs Hi Hne) as Hw.
    destruct (dma_window_map_pages _ _ _ _ _ _ _ _ _) as [[[st1 status] used] pages]. cbn [fst snd] in Hw.
    window_steps.
  - unfold kb_subsystem_dma_map_fixed, remember_dma_mapping. apply same_mapping_eq. window_steps.
  - unfold kb_subsystem_dma_unmap, take_dma_mapping. case_match; [done|].
    destruct (take_first _ _) as [[x l]|]; [|window_steps]. destruct (m_borrowed_window x); window_steps.
Qed.
End pinned.

(** As long as one mapping borrowed from the window is outstanding, no
    operation whatsoever moves, replaces or drops the window's mapping: backend,
    device, direction, range and page addresses stay as they are. *)
Theorem borrowed_window_is_pinned get_ops st o e :
  rtc (dma_step get_ops) dma_state_init st -> dma_op_ok o ->
  e ∈ dma_mappings st -> m_borrowed_window e = true ->
  same_mapping (dma_window st) (dma_window (dma_exec get_ops st o)).
Proof.
  intros Hr Hok He Hb. destruct (reachable_inv _ _ Hr) as [k Hi]. apply (exec_pinned get_ops k); [done|done|].
  intros Hz. by apply (inv_no_borrowed _ _ Hi Hz e).
Qed.

Lemma borrowed_window_is_pinned_witness :
  same_mapping (dma_window sample_window_state)
    (dma_window (dma_exec linear_backend sample_window_state OpWindowEnd)).
Proof.
  apply (borrowed_window_is_pinned linear_backend sample_window_state OpWindowEnd sample_entry).
  - exact sample_reachable.
  - exact I.
  - rewrite sample_mappings. apply elem_of_cons. left. reflexivity.
  - reflexivity.
Defined.

(** ** Accounting of backend mappings *)

Fixpoint remove_one (x : Z * Z) (l : list (Z * Z)) : list (Z * Z) :=
  match l with
  | [] => []
  | y :: l => if decide (y = x) then l else y :: remove_one x l
  end.

(** The (device, address) pairs that have been mapped and not unmapped, by the
    log (newest call first). *)
Fixpoint outstanding (log : list dma_event) : list (Z * Z) :=
  match log with
  | [] => []
  | EvMap d _ _ _ KB_OK a :: log => (d, a) :: outstanding log
  | EvMapPages d _ _ _ KB_OK pages :: log => (d, nth 0 pages 0) :: outstanding log
  | EvMapFixed d _ _ a _ KB_OK :: log => (d, a) :: outstanding log
  | EvUnmap d a _ _ :: log => remove_one (d, a) (outstanding log)
  | _ :: log => outstanding log
  end.

Lemma remove_one_hd x l : remove_one x (x :: l) = l.
Proof. cbn. by rewrite decide_True. Qed.

Section mapping.
Context (get_ops : Z -> option kb_device_backend_ops).

(** What a mapping call that did not succeed leaves behind. *)
Definition untouched (st st' : dma_state) : Prop :=
  dma_mappings st' = dma_mappings st /\ dma_window st' = dma_window st /\
  outstanding (dma_log st') = outstanding (dma_log st).

Definition can_unmap (backend : Z) : Prop :=
  forall ops, kb_device_backend_get_ops get_ops backend = Some ops -> op_dma_unmap ops = true.

(** Backends write the first page address of a successful page mapping. *)
Definition fills_pages (backend : Z) : Prop :=
  forall ops f log d c s dir cap pages, kb_device_backend_get_ops get_ops backend = Some ops ->
    op_dma_map_pages ops = Some f -> f log d c s dir cap = (KB_OK, pages) -> pages <> [].

Lemma outstanding_fail_map d c s dir status a log :
  status <> KB_OK -> outstanding (EvMap d c s dir status a :: log) = outstanding log.
Proof. by destruct status. Qed.

Lemma map_rollback st b d c s dir per z :
  can_unmap b ->
  let r := dma_map_with_lifetime get_ops st b d c s dir per z in
  (r.2 <> KB_OK -> r.1.2 = 0 /\ untouched st r.1.1) /\
  (r.2 = KB_OK -> exists dev a, dev <> 0 /\ dev = resolve_device get_ops st b d /\ a <> 0 /\ r.1.2 = a /\
     r.1.1 = mk_dma_state (mk_mapping c a s dev false per :: dma_mappings st) (dma_window st)
               (EvMap dev c s dir KB_OK a :: dma_log st)).
Proof.
  intros Hu. unfold dma_map_with_lifetime.
  case_match eqn:Hg; [by split|]. boolify. case_match eqn:Hd; [by split|]. boolify.
  destruct (kb_device_backend_get_ops get_ops b) as [ops|] eqn:Ho; [|by split].
  destruct (op_dma_map ops) as [f|]; [|by split]. rewrite (Hu ops Ho), andb_false_r.
  destruct (f _ _ _ _ _) as [status a]. destruct (decide (status = KB_OK)) as [->|Hs].
  - rewrite bool_decide_true by done. cbn [andb]. destruct (Z.eqb_spec a 0) as [->|Ha].
    { cbn [fst snd]. split; [|done]. intros _. split; [done|]. unfold untouched. cbn.
      by rewrite decide_True. }
    unfold remember_dma_mapping_full. rewrite !(proj2 (Z.eqb_neq _ 0)) by done. cbn [orb].
    destruct z; cbn [negb fst snd].
    + split; [done|]. intros _. eauto 10.
    + split; [|done]. intros _. split; [done|]. unfold untouched. cbn. by rewrite decide_True.
  - rewrite !bool_decide_false by done. cbn [andb fst snd]. split; [|done]. intros _. split; [done|].
    unfold untouched. cbn [dma_log log_event dma_mappings dma_window set_field].
    by rewrite outstanding_fail_map.
Qed.

Lemma map_fixed_rollback st b d c s a dir z :
  can_unmap b ->
  let r := kb_subsystem_dma_map_fixed get_ops st b d c s a dir z in
  r.2 <> KB_OK -> untouched st r.1.
Proof.
  intros Hu. unfold kb_subsystem_dma_map_fixed, remember_dma_mapping, remember_dma_mapping_full.
  case_match eqn:Hg; [done|]. boolify. case_match; [done|].
  destruct (kb_device_backend_get_ops get_ops b) as [ops|] eqn:Ho; [|done].
  destruct (op_dma_map_fixed ops) as [f|]; [|done]. rewrite (Hu ops Ho).
  destruct (f _ _ _ _ _ _) eqn:Hf; rewrite ?bool_decide_true, ?bool_decide_false by done; try done.
  rewrite !(proj2 (Z.eqb_neq _ 0)) by done. destruct z; [done|]. intros _. unfold untouched. cbn.
  by rewrite decide_True.
Qed.

Lemma map_pages_rollback st b d c s dir out cap z :
  can_unmap b -> fills_pages b -> 0 < cap -> w_active (dma_window st) = false ->
  let r := kb_subsystem_dma_map_pages get_ops st b d c s dir (Some out) cap z in
  r.1.2 <> KB_OK -> untouched st r.1.1.
Proof.
  intros Hu Hfill Hcap Hw. unfold kb_subsystem_dma_map_pages, remember_dma_mapping_full.
  case_match eqn:Hg; [done|]. boolify. case_match; [done|].
  destruct (kb_device_backend_get_ops get_ops b) as [ops|] eqn:Ho; [|done].
  destruct (op_dma_map_pages ops) as [f|] eqn:Hf; [|done].
  unfold dma_window_map_pages. rewrite Hw. cbn [negb orb]. rewrite (Hu ops Ho).
  destruct (f _ _ _ _ _ _) as [status pages] eqn:Hr.
  destruct (decide (status = KB_OK)) as [->|Hs].
  2: { rewrite bool_decide_false by done. cbn [negb fst snd]. intros _. by destruct status. }
  rewrite bool_decide_true by done. cbn [negb]. rewrite !(proj2 (Z.eqb_neq _ 0)) by done. cbn [orb].
  destruct z; cbn [negb fst snd]; [done|]. intros _. pose proof (Hfill _ _ _ _ _ _ _ _ _ Ho Hf Hr) as Hne.
  destruct pages as [|p pages]; [done|]. unfold untouched. cbn.
  destruct (Z.to_nat cap) eqn:Ec; [lia|]. cbn. by rewrite decide_True.
Qed.
End mapping.

(** A mapping request that fails for whatever reason (bad arguments, no
    device, missing or failing backend operation, a zero device address, no
    memory for the list node) leaves the mapping list, the window and the set
    of mappings held in the backend exactly as they were, and a failed
    [kb_subsystem_dma_map] returns 0. *)
Theorem dma_failed_maps_roll_back get_ops st b d c s dir :
  can_unmap get_ops b -> fills_pages get_ops b -> w_active (dma_window st) = false ->
  (forall z, let r := kb_subsystem_dma_map get_ops st b d c s dir z in
     r.2 <> KB_OK -> r.1.2 = 0 /\ untouched st r.1.1) /\
  (forall z, let r := kb_subsystem_dma_map_persistent_bidirectional get_ops st b d c s z in
     r.2 <> KB_OK -> r.1.2 = 0 /\ untouched st r.1.1) /\
  (forall a z, let r := kb_subsystem_dma_map_fixed get_ops st b d c s a dir z in
     r.2 <> KB_OK -> untouched st r.1) /\
  (forall out cap z, 0 < cap ->
     let r := kb_subsystem_dma_map_pages get_ops st b d c s dir (Some out) cap z in
     r.1.2 <> KB_OK -> untouched st r.1.1).
Proof.
  intros Hu Hf Hw. split_and!; intros.
  - by apply (map_rollback get_ops st b d c s dir false z Hu).
  - by apply (map_rollback get_ops st b d c s KB_DMA_BIDIRECTIONAL true z Hu).
  - by apply map_fixed_rollback.
  - by apply map_pages_rollback.
Qed.

Lemma dma_failed_maps_roll_back_witness :
  let r := kb_subsystem_dma_map linear_backend dma_state_init 0x5000 7 0x10000 0x1000 1 false in
  r.2 = KB_ERR_NOMEM /\ r.1.2 = 0 /\ untouched dma_state_init r.1.1.
Proof.
  split; [reflexivity|].
  apply (dma_failed_maps_roll_back linear_backend dma_state_init 0x5000 7 0x10000 0x1000 1).
  - intros ops [= <-]. reflexivity.
  - intros ops f log d c s dir cap pages [= <-] [= <-] [= <-]. discriminate.
  - reflexivity.
  - discriminate.
Defined.

(** A successful mapping is found again by its device address, offset by
    offset, with the number of bytes left in it; it counts as a transient
    mapping; and unmapping it restores the mapping list and the backend's set
    of mappings. *)
Theorem dma_map_unmap_roundtrip get_ops st b d c s dir z :
  can_unmap get_ops b -> is_u64 c -> is_u64 s ->
  let r := kb_subsystem_dma_map get_ops st b d c s dir z in
  r.2 = KB_OK ->
  let st1 := r.1.1 in let a := r.1.2 in let dev := resolve_device get_ops st b d in
  a <> 0 /\ kb_subsystem_dma_has_transient_mapping st1 dev a = true /\
  (0 <= a -> a + s <= UINT64_MAX -> c + s <= UINT64_MAX ->
     forall k, 0 <= k < s -> kb_subsystem_dma_cpu_addr st1 (a + k) = (c + k, s - k)) /\
  untouched st (kb_subsystem_dma_unmap get_ops st1 b dev a s dir).
Proof.
  intros Hu Hc Hs r Hok st1 a dev.
  destruct (proj2 (map_rollback get_ops st b d c s dir false z Hu) Hok) as (dev' & a' & Hd & -> & Ha & Hra & Hst).
  fold dev in Hd, Hst. change (a = a') in Hra. subst a'. change (st1 = mk_dma_state
    (mk_mapping c a s dev false false :: dma_mappings st) (dma_window st) (EvMap dev c s dir KB_OK a :: dma_log st)) in Hst.
  assert (b <> 0 /\ s <> 0) as [Hb0 Hs0].
  { unfold r, kb_subsystem_dma_map, dma_map_with_lifetime in Hok.
    destruct (Z.eqb_spec b 0), (Z.eqb_spec c 0), (Z.eqb_spec s 0); done. }
  rewrite Hst. split_and!; [done| | |].
  - cbn. by rewrite !Z.eqb_refl.
  - intros Ha0 Has Hcs k Hk. unfold kb_subsystem_dma_cpu_addr. cbn [dma_mappings list_find].
    rewrite decide_True.
    + cbn. f_equal; replace (a + k - a) with k by lia; apply u64_small; unfold is_u64, UINT64_MAX in *; lia.
    + unfold dma_contains. cbn. rewrite u64_small by (unfold is_u64, UINT64_MAX in *; lia).
      apply andb_true_iff. split; [apply Z.leb_le; lia|apply Z.ltb_lt; lia].
  - unfold kb_subsystem_dma_unmap, resolve_device, take_dma_mapping.
    rewrite (proj2 (Z.eqb_neq b 0)), (proj2 (Z.eqb_neq s 0)), (proj2 (Z.eqb_neq dev 0)) by done.
    cbn [orb dma_mappings take_first m_device m_dma_addr]. rewrite !Z.eqb_refl. cbn [andb m_borrowed_window negb].
    unfold backend_unmap. destruct (kb_device_backend_get_ops get_ops b) as [ops|] eqn:Ho.
    + rewrite (Hu ops Ho). unfold untouched. rewrite (proj2 (Z.eqb_neq dev 0)) by done. split_and!; [done|done|]. exact (remove_one_hd (dev, a) _).
    + exfalso. unfold r, kb_subsystem_dma_map, dma_map_with_lifetime in Hok. rewrite Ho in Hok.
      repeat case_match; done.
Qed.

Lemma dma_map_unmap_roundtrip_witness :
  let r := kb_subsystem_dma_map linear_backend dma_state_init 0x5000 0 0x10000 0x1000 1 true in
  r.1.2 = 0x910000 /\ kb_subsystem_dma_cpu_addr r.1.1 (0x910000 + 12) = (0x1000c, 0xff4).
Proof.
  destruct (dma_map_unmap_roundtrip linear_backend dma_state_init 0x5000 0 0x10000 0x1000 1 true)
    as (_ & _ & H & _).
  - intros ops [= <-]. reflexivity.
  - unfold is_u64. lia.
  - unfold is_u64. lia.
  - reflexivity.
  - split; [reflexivity|]. apply (H ltac:(discriminate) ltac:(discriminate) ltac:(discriminate) 12). lia.
Defined.

(** ** Reusing the window *)

Lemma page_count_within size total off :
  0 < size -> 0 <= off -> off mod KB_SUBSYSTEM_DMA_PAGE_SIZE = 0 -> off + size <= total ->
  off / KB_SUBSYSTEM_DMA_PAGE_SIZE + page_count_of size <= page_count_of total.
Proof.
  unfold page_count_of, KB_SUBSYSTEM_DMA_PAGE_SIZE. intros H1 H2 H3 H4.
  destruct (Z.eqb_spec (size mod 4096) 0), (Z.eqb_spec (total mod 4096) 0); ilia.
Qed.

(** A page-aligned request inside the part of the active window that is
    already mapped is served without any call to the backend: it succeeds, the
    page addresses are those of the window's pages at the request's offset, and
    one more borrowed mapping is recorded. *)
Theorem dma_window_reuse get_ops st b c s cap out ops f :
  rtc (dma_step get_ops) dma_state_init st ->
  let w := dma_window st in
  w_active w = true -> w_mapped w = true -> w_backend w = b -> w_device w <> 0 -> b <> 0 ->
  kb_device_backend_get_ops get_ops b = Some ops -> op_dma_map_pages ops = Some f ->
  0 < c -> 0 < s -> Z.land c (KB_SUBSYSTEM_DMA_PAGE_SIZE - 1) = 0 ->
  w_scope_start w <= c -> c + s <= w_scope_start w + w_scope_size w ->
  w_mapped_start w <= c -> c + s <= w_mapped_start w + w_mapped_size w ->
  page_count_of s <= cap ->
  let first := (c - w_mapped_start w) / KB_SUBSYSTEM_DMA_PAGE_SIZE in
  let pages := slice (w_page_dma w) first (page_count_of s) in
  length pages = Z.to_nat (page_count_of s) /\
  kb_subsystem_dma_map_pages get_ops st b (w_device w) c s (w_direction w) (Some out) cap true =
    (mk_dma_state (mk_mapping c (nth 0 pages 0) s (w_device w) true false :: dma_mappings st)
       (w <| w_borrowers ::= Z.add 1 |>) (dma_log st), KB_OK, overlay out pages).
Proof.
  intros Hr w Ha Hm Hb Hd Hb0 Ho Hf Hc Hs Hal Hs1 Hs2 Hm1 Hm2 Hcap first pages.
  destruct (reachable_inv _ _ Hr) as [k Hi]. destruct (di_mapped _ _ Hi Hm) as (H1 & H2 & H3 & H4 & H5 & H6).
  destruct (di_scope _ _ Hi Ha) as (H7 & H8 & H9). fold w in H1, H2, H3, H4, H5, H6, H7, H8, H9.
  pose proof (page_count_pos s Hs) as Hp.
  assert (first + page_count_of s <= w_mapped_page_count w) as Hfit.
  { rewrite H4. apply page_count_within; [lia|lia| |lia].
    pose proof (page_aligned _ Hal). unfold KB_SUBSYSTEM_DMA_PAGE_SIZE in *. ilia. }
  assert (0 <= first) as Hfirst by (apply Z.div_pos; [lia|done]).
  assert (blen (w_page_dma w) = KB_DEVICE_DMA_MAPPING_MAX_PAGES) as Hblen
    by (unfold blen, w; rewrite (di_pages _ _ Hi); done).
  split; [apply length_slice; lia|].
  unfold kb_subsystem_dma_map_pages, resolve_device, dma_window_map_pages, window_ensure_mapped,
    remember_dma_mapping, remember_dma_mapping_full. fold w. fold first.
  rewrite Ho, Hf, Ha, Hb, Hm, Hal, !Z.eqb_refl. unfold UINTPTR_MAX.
  rewrite !(u64_small (_ + _)) by (unfold is_u64, UINT64_MAX in *; lia).
  repeat match goal with
  | |- context [?x =? 0] => rewrite (proj2 (Z.eqb_neq x 0)) by lia
  | |- context [?x <? ?y] => rewrite (proj2 (Z.ltb_ge x y)) by (unfold UINT64_MAX in *; lia)
  | |- context [?x <=? ?y] => rewrite (proj2 (Z.leb_le x y)) by lia
  end.
  cbn [negb orb andb]. change (dma_window st) with w. fold first.
  rewrite Z.eqb_refl, !(proj2 (Z.ltb_ge _ _)) by lia. reflexivity.
Qed.

Lemma dma_window_reuse_witness :
  let st := sample_window_state in
  (kb_subsystem_dma_map_pages linear_backend st 0x5000 7 0x13000 0x1000 1 (Some [0]) 1 true).1.2 = KB_OK.
Proof.
  intros st.
  destruct (dma_window_reuse linear_backend st 0x5000 0x13000 0x1000 1 [0] linear_ops
    (fun _ _ cpu size _ _ => (KB_OK, page_list (cpu + 0x900000) (S (Z.to_nat (page_count_of size - 1))))))
    as [_ H];
    [exact sample_reachable|vm_compute; reflexivity|vm_compute; reflexivity|vm_compute; reflexivity|
     vm_compute; discriminate|discriminate|reflexivity|reflexivity|lia|lia|reflexivity|
     vm_compute; discriminate|vm_compute; discriminate|vm_compute; discriminate|vm_compute; discriminate|
     vm_compute; discriminate|].
  assert (w_device (dma_window st) = 7) as Hd by (vm_compute; reflexivity).
  assert (w_direction (dma_window st) = 1) as Hdir by (vm_compute; reflexivity).
  rewrite Hd, Hdir in H. exact (f_equal (fun r => r.1.2) H).
Defined.

(** ** Translating requests inside persistent mappings *)

(** The device address of a CPU address inside a mapping. *)
Definition translate (e : kb_subsystem_dma_mapping) (x : Z) : Z := m_dma_addr e + (x - m_cpu_addr e).

Lemma page_floor_mod x : page_floor x = x - x mod KB_SUBSYSTEM_DMA_PAGE_SIZE.
Proof.
  unfold page_floor. change (KB_SUBSYSTEM_DMA_PAGE_SIZE - 1) with (Z.ones 12).
  rewrite Z.ldiff_ones_r, Z.shiftr_div_pow2, Z.shiftl_mul_pow2 by lia.
  change (2 ^ 12) with KB_SUBSYSTEM_DMA_PAGE_SIZE. unfold KB_SUBSYSTEM_DMA_PAGE_SIZE. ilia.
Qed.

Lemma page_offset_mod x : Z.land x (KB_SUBSYSTEM_DMA_PAGE_SIZE - 1) = x mod KB_SUBSYSTEM_DMA_PAGE_SIZE.
Proof. exact (Z.land_ones x 12 ltac:(lia)). Qed.

(** The pages a request touches: the request's own start, then the following
    page boundaries. *)
Definition request_page (c : Z) (i : nat) : Z :=
  match i with O => c | _ => page_floor c + Z.of_nat i * KB_SUBSYSTEM_DMA_PAGE_SIZE end.

Lemma page_list_ext (f g : nat -> Z) x n :
  x = g 0%nat -> (forall i, (1 <= i < n)%nat -> f i = g i) -> (0 < n)%nat ->
  x :: map f (seq 1 (n - 1)) = map g (seq 0 n).
Proof.
  intros -> H Hn. destruct n as [|n]; [lia|]. cbn [seq map]. f_equal.
  replace (S n - 1)%nat with n by lia. apply map_ext_in. intros i Hi.
  apply in_seq in Hi. apply H. lia.
Qed.

(** A request inside a persistent allocation of the device (the first one in
    the list that contains it) yields the device address of every page it
    touches, without overflow and within the caller's capacity, or
    [KB_ERR_UNSUPPORTED] when the capacity is too small; when no allocation
    contains it the answer is [KB_ERR_NOT_FOUND]. *)
Theorem preallocated_pages_translate st device c s cap :
  device <> 0 -> 0 < c -> 0 < s -> c + s <= UINT64_MAX -> 0 < cap ->
  let r := kb_subsystem_dma_preallocated_pages st device c s true cap in
  let n := page_count_of (c mod KB_SUBSYSTEM_DMA_PAGE_SIZE + s) in
  match list_find (fun e => covers device c (c + s) e = true) (dma_mappings st) with
  | None => r = Fail KB_ERR_NOT_FOUND
  | Some (_, e) =>
      0 <= m_dma_addr e -> m_dma_addr e + m_size e <= UINT64_MAX ->
      (m_dma_addr e - m_cpu_addr e) mod KB_SUBSYSTEM_DMA_PAGE_SIZE = 0 ->
      r = if cap <? n then Fail KB_ERR_UNSUPPORTED
          else Done (map (fun i => translate e (request_page c i)) (seq 0 (Z.to_nat n)))
  end.
Proof.
  intros Hd Hc Hs Hsum Hcap r n. unfold r, kb_subsystem_dma_preallocated_pages. cbn [negb].
  rewrite !(proj2 (Z.eqb_neq _ 0)) by lia. cbn [orb]. unfold UINTPTR_MAX.
  rewrite (proj2 (Z.ltb_ge (UINT64_MAX - s) c)) by lia.
  destruct (list_find _ (dma_mappings st)) as [[j e]|] eqn:Hf; [|done]. intros Ha0 Ha1 Hal.
  apply list_find_Some in Hf as (_ & Hcov & _). unfold covers, UINTPTR_MAX in Hcov. boolify.
  rewrite page_offset_mod. fold n. set (off := c mod KB_SUBSYSTEM_DMA_PAGE_SIZE) in *.
  assert (0 <= off < 4096) as Hoff by (by apply Z.mod_pos_bound).
  assert (off <= c) by (by apply Z.mod_le; [lia|]).
  unfold SIZE_MAX. rewrite (proj2 (Z.ltb_ge (UINT64_MAX - off) s)) by lia.
  pose proof (page_count_pos (off + s) ltac:(lia)) as Hn. fold n in Hn.
  rewrite (proj2 (Z.eqb_neq n 0)) by lia. cbn [orb]. destruct (cap <? n); [done|].
  rewrite (proj2 (Z.ltb_ge (UINT64_MAX - m_dma_addr e) _)) by lia.
  set (start := m_dma_addr e + (c - m_cpu_addr e)).
  assert (page_floor start = translate e (page_floor c)) as Hbase.
  { rewrite !page_floor_mod. unfold translate, start, KB_SUBSYSTEM_DMA_PAGE_SIZE in *. ilia. }
  assert (page_floor c + (n - 1) * 4096 <= c + s - 1 /\ page_floor c = c - off) as [Hlast Hfl].
  { rewrite page_floor_mod. fold off. split; [|done]. unfold n, page_count_of, KB_SUBSYSTEM_DMA_PAGE_SIZE.
    destruct (Z.eqb_spec ((off + s) mod 4096) 0); ilia. }
  assert (0 <= page_floor start) as Hf0 by (rewrite page_floor_mod; unfold start, KB_SUBSYSTEM_DMA_PAGE_SIZE; ilia).
  assert (page_floor start + (n - 1) * 4096 <= UINT64_MAX) as Hmax by (rewrite Hbase; unfold translate; lia).
  rewrite (u64_small ((n - 1) * _)) by (unfold is_u64, KB_SUBSYSTEM_DMA_PAGE_SIZE, UINT64_MAX in *; lia).
  rewrite (proj2 (Z.ltb_ge (UINT64_MAX / _) _)), (proj2 (Z.ltb_ge (UINT64_MAX - _) _)), andb_false_r
    by (unfold KB_SUBSYSTEM_DMA_PAGE_SIZE; try (apply Z.div_le_lower_bound; [lia|]); lia).
  f_equal. apply page_list_ext; [done| |lia]. intros i Hi.
  rewrite !u64_small by (unfold is_u64, KB_SUBSYSTEM_DMA_PAGE_SIZE, UINT64_MAX in *; try rewrite u64_small; unfold is_u64; lia).
  rewrite Hbase. destruct i; [lia|]. unfold translate, request_page. lia.
Qed.

Definition persistent_state : dma_state :=
  (kb_subsystem_dma_alloc linear_backend dma_state_init 0x5000 7 0x4000 true true).1.1.

Lemma preallocated_pages_translate_witness :
  kb_subsystem_dma_preallocated_pages persistent_state 7 0x31010 0x1800 true 4 = Done [0x931010; 0x932000].
Proof.
  pose proof (preallocated_pages_translate persistent_state 7 0x31010 0x1800 4
    ltac:(lia) ltac:(lia) ltac:(lia) ltac:(vm_compute; discriminate) ltac:(lia)) as H.
  exact (H ltac:(vm_compute; discriminate) ltac:(vm_compute; discriminate) ltac:(reflexivity)).
Defined.

(** The mapping-error test depends on the address alone: an address is an
    error exactly when it is 0, whatever is mapped. *)
Theorem dma_mapping_error_is_zero_test st a :
  kb_subsystem_dma_mapping_error st a = (a =? 0).
Proof. unfold kb_subsystem_dma_mapping_error. destruct (a =? 0); [done|]. by destruct (existsb _ _). Qed.
