(* ===== verification/BlockDevice.v ===== *)
(** * The block subsystem (src/src/linux_subsystem/block/block.c)

    Three lists of state records (queues, disks, tag sets), each looked up by
    the address of the object it describes; the newest record comes first, a
    look-up returns the first match, and an update changes that match in place.
    Objects are addresses (0 is NULL).  [calloc] results are arguments: the
    address of the new object, 0 when it fails, and a flag for the record.

    A disk's I/O callbacks act on a device world [D] that the block layer does
    not look into; they are fields of the disk record, as in the source, and
    take the registered context.  Result codes are the negative errno values of
    the source. *)

From S2P Require Import Prelude.

Definition KB_BLOCK_SUBSYSTEM_QUEUE_MAX : Z := 4.
Definition KB_BLOCK_SUBSYSTEM_TAGS_PER_QUEUE : Z := 64.
Definition KB_BLOCK_DISK_WRITE_FUA : Z := 1.

(** Change the first record that satisfies [p]. *)
Fixpoint update_first {A : Type} (p : A -> bool) (f : A -> A) (l : list A) : list A :=
  match l with
  | [] => []
  | x :: l => if p x then f x :: l else x :: update_first p f l
  end.

(** Unlink the first record that satisfies [p]. *)
Fixpoint remove_first {A : Type} (p : A -> bool) (l : list A) : list A :=
  match l with
  | [] => []
  | x :: l => if p x then l else x :: remove_first p l
  end.

Record kb_block_queue_limits := mk_limits {
  logical_block_size : Z;
  physical_block_size : Z;
  io_min : Z;
  io_opt : Z;
  max_hw_sectors : Z;
  max_segments : Z;
  max_discard_sectors : Z;
  max_discard_segments : Z;
  max_write_zeroes_sectors : Z;
  max_zone_append_sectors : Z;
  chunk_sectors : Z;
  dma_alignment : Z;
  virt_boundary_mask : Z;
  limit_flags : Z;
  write_cache : Z;
  fua : Z;
}.
#[export] Instance limits_eta : Settable kb_block_queue_limits := fun r =>
  mk_limits (logical_block_size r) (physical_block_size r) (io_min r) (io_opt r) (max_hw_sectors r)
    (max_segments r) (max_discard_sectors r) (max_discard_segments r) (max_write_zeroes_sectors r)
    (max_zone_append_sectors r) (chunk_sectors r) (dma_alignment r) (virt_boundary_mask r)
    (limit_flags r) (write_cache r) (fua r).

Record kb_block_queue_state := mk_queue_state {
  q_queue : Z;
  q_tag_set : Z;
  q_limits : kb_block_queue_limits;
  q_put_count : Z;
  q_destroy_count : Z;
}.
#[export] Instance queue_state_eta : Settable kb_block_queue_state := fun r =>
  mk_queue_state (q_queue r) (q_tag_set r) (q_limits r) (q_put_count r) (q_destroy_count r).

(** The callbacks of a disk, on the device world [D].  A read returns the bytes
    it stored in the buffer, a batch read those of each request. *)
Section callbacks.
Context (D : Type).
Definition kb_block_disk_read_fn : Type := Z -> D -> Z -> Z -> D * Z * list Z.
Definition kb_block_disk_write_fn : Type := Z -> D -> Z -> list Z -> D * Z.
Definition kb_block_disk_write_flags_fn : Type := Z -> D -> Z -> list Z -> Z -> D * Z.
Definition kb_block_disk_flush_fn : Type := Z -> D -> D * Z.
Definition kb_block_disk_read_batch_fn : Type := Z -> D -> list (Z * Z) -> D * Z * list (list Z).
Definition kb_block_disk_write_batch_fn : Type := Z -> D -> list (Z * list Z) -> D * Z.
End callbacks.

Record kb_block_disk_state (D : Type) := mk_disk_state {
  d_disk : Z;
  d_queue : Z;
  d_part0 : Z;
  d_parent : Z;
  d_groups : Z;
  d_capacity_sectors : Z;
  d_disk_number : Z;
  d_registered : bool;
  d_read_only : bool;
  d_notify_count : Z;
  d_put_count : Z;
  d_dead : bool;
  d_zoned_model : Z;
  d_readahead_update_count : Z;
  d_zone_revalidate_count : Z;
  d_io_ctx : Z;
  d_read_fn : option (kb_block_disk_read_fn D);
  d_read_batch_fn : option (kb_block_disk_read_batch_fn D);
  d_write_fn : option (kb_block_disk_write_fn D);
  d_write_batch_fn : option (kb_block_disk_write_batch_fn D);
  d_write_flags_fn : option (kb_block_disk_write_flags_fn D);
  d_flush_fn : option (kb_block_disk_flush_fn D);
  d_read_count : Z;
  d_write_count : Z;
  d_bytes_read : Z;
  d_bytes_written : Z;
}.
Arguments mk_disk_state {D}.
Arguments d_disk {D}. Arguments d_queue {D}. Arguments d_part0 {D}. Arguments d_parent {D}.
Arguments d_groups {D}. Arguments d_capacity_sectors {D}. Arguments d_disk_number {D}.
Arguments d_registered {D}. Arguments d_read_only {D}. Arguments d_notify_count {D}.
Arguments d_put_count {D}. Arguments d_dead {D}. Arguments d_zoned_model {D}.
Arguments d_readahead_update_count {D}. Arguments d_zone_revalidate_count {D}.
Arguments d_io_ctx {D}. Arguments d_read_fn {D}. Arguments d_read_batch_fn {D}.
Arguments d_write_fn {D}. Arguments d_write_batch_fn {D}. Arguments d_write_flags_fn {D}.
Arguments d_flush_fn {D}. Arguments d_read_count {D}. Arguments d_write_count {D}.
Arguments d_bytes_read {D}. Arguments d_bytes_written {D}.
#[export] Instance disk_state_eta D : Settable (kb_block_disk_state D) := fun r =>
  mk_disk_state (d_disk r) (d_queue r) (d_part0 r) (d_parent r) (d_groups r) (d_capacity_sectors r)
    (d_disk_number r) (d_registered r) (d_read_only r) (d_notify_count r) (d_put_count r) (d_dead r)
    (d_zoned_model r) (d_readahead_update_count r) (d_zone_revalidate_count r) (d_io_ctx r)
    (d_read_fn r) (d_read_batch_fn r) (d_write_fn r) (d_write_batch_fn r) (d_write_flags_fn r)
    (d_flush_fn r) (d_read_count r) (d_write_count r) (d_bytes_read r) (d_bytes_written r).

(** [kb_block_mq_tags_t] keeps [nr_tags] and [active_queues]; its [rqs] pointer
    is the row of [ts_rqs]. *)
Record kb_block_mq_tags := mk_mq_tags { nr_tags : Z; active_queues : Z }.

Record kb_block_tagset_state := mk_tagset_state {
  ts_tag_set : Z;
  ts_tags : list kb_block_mq_tags;
  ts_rqs : list (list Z);
  ts_next_tag : list Z;
  ts_prepared_count : Z;
  ts_nr_hw_queues : Z;
  ts_map_queues_count : Z;
  ts_pci_map_queues_count : Z;
  ts_busy_iter_count : Z;
  ts_wait_completed_count : Z;
}.
#[export] Instance tagset_state_eta : Settable kb_block_tagset_state := fun r =>
  mk_tagset_state (ts_tag_set r) (ts_tags r) (ts_rqs r) (ts_next_tag r) (ts_prepared_count r)
    (ts_nr_hw_queues r) (ts_map_queues_count r) (ts_pci_map_queues_count r) (ts_busy_iter_count r)
    (ts_wait_completed_count r).

Record block_state (D : Type) := mk_block_state {
  tagsets : list kb_block_tagset_state;
  queues : list kb_block_queue_state;
  disks : list (kb_block_disk_state D);
  next_disk_number : Z;
  io_world : D;
}.
Arguments mk_block_state {D}. Arguments tagsets {D}. Arguments queues {D}. Arguments disks {D}.
Arguments next_disk_number {D}. Arguments io_world {D}.
#[export] Instance block_state_eta D : Settable (block_state D) := fun r =>
  mk_block_state (tagsets r) (queues r) (disks r) (next_disk_number r) (io_world r).

Definition block_state_init {D} (d : D) : block_state D := mk_block_state [] [] [] 1 d.

(** ** Queues *)

Section block.
Context {D : Type}.
Implicit Types st : block_state D.

Definition is_queue (queue : Z) (s : kb_block_queue_state) : bool := q_queue s =? queue.

Definition queue_state_for st (queue : Z) : option kb_block_queue_state :=
  if queue =? 0 then None else snd <$> list_find (fun s => is_queue queue s = true) (queues st).

Definition default_limits : kb_block_queue_limits :=
  mk_limits 512 512 0 0 1024 1 0 0 0 0 0 0 0 0 0 0.

(** [state] says whether the record's [calloc] succeeds. *)
Definition queue_state_create st (queue tag_set : Z) (state : bool) : block_state D * bool :=
  if negb state then (st, false)
  else (st <| queues ::= cons (mk_queue_state queue tag_set default_limits 0 0) |>, true).

Definition queue_state_remove st (queue : Z) : block_state D :=
  st <| queues ::= remove_first (is_queue queue) |>.

Definition kb_block_subsystem_queue_alloc st (tag_set queue : Z) (state : bool) : block_state D * Z :=
  if queue =? 0 then (st, 0)
  else match queue_state_create st queue tag_set state with
       | (st, true) => (st, queue)
       | (st, false) => (st, 0)
       end.

(** [deref] reads the first word of an object the subsystem does not track. *)
Definition kb_block_subsystem_queue_tag_set st (deref : Z -> Z) (queue : Z) : Z :=
  match queue_state_for st queue with
  | Some s => q_tag_set s
  | None => if queue =? 0 then 0 else deref queue
  end.

(** [state = queue_state_for(queue); if (state != NULL) update(state)] *)
Definition with_queue st (queue : Z) (f : kb_block_queue_state -> kb_block_queue_state) : block_state D :=
  match queue_state_for st queue with
  | Some _ => st <| queues ::= update_first (is_queue queue) f |>
  | None => st
  end.

Definition set_limit st (queue : Z) (f : kb_block_queue_limits -> kb_block_queue_limits) : block_state D :=
  with_queue st queue (fun s => s <| q_limits ::= f |>).

Definition kb_block_subsystem_queue_put st (queue : Z) : block_state D :=
  with_queue st queue (fun s => s <| q_put_count ::= (fun n => u32 (n + 1)) |>).
Definition kb_block_subsystem_queue_destroy st (queue : Z) : block_state D :=
  with_queue st queue (fun s => s <| q_destroy_count ::= (fun n => u32 (n + 1)) |>).
Definition kb_block_subsystem_queue_set_logical_block_size st (queue size : Z) : block_state D :=
  if negb (size =? 0) then set_limit st queue (fun l => l <| logical_block_size := size |>) else st.
Definition kb_block_subsystem_queue_set_physical_block_size st (queue size : Z) : block_state D :=
  if negb (size =? 0) then set_limit st queue (fun l => l <| physical_block_size := size |>) else st.
Definition kb_block_subsystem_queue_set_io_min st (queue size : Z) : block_state D :=
  set_limit st queue (fun l => l <| io_min := size |>).
Definition kb_block_subsystem_queue_set_io_opt st (queue size : Z) : block_state D :=
  set_limit st queue (fun l => l <| io_opt := size |>).
Definition kb_block_subsystem_queue_set_max_hw_sectors st (queue sectors : Z) : block_state D :=
  set_limit st queue (fun l => l <| max_hw_sectors := sectors |>).
Definition kb_block_subsystem_queue_set_max_segments st (queue segments : Z) : block_state D :=
  set_limit st queue (fun l => l <| max_segments := segments |>).
Definition kb_block_subsystem_queue_set_max_discard_sectors st (queue sectors : Z) : block_state D :=
  set_limit st queue (fun l => l <| max_discard_sectors := sectors |>).
Definition kb_block_subsystem_queue_set_max_discard_segments st (queue segments : Z) : block_state D :=
  set_limit st queue (fun l => l <| max_discard_segments := segments |>).
Definition kb_block_subsystem_queue_set_max_write_zeroes_sectors st (queue sectors : Z) : block_state D :=
  set_limit st queue (fun l => l <| max_write_zeroes_sectors := sectors |>).
Definition kb_block_subsystem_queue_set_max_zone_append_sectors st (queue sectors : Z) : block_state D :=
  set_limit st queue (fun l => l <| max_zone_append_sectors := sectors |>).
Definition kb_block_subsystem_queue_set_chunk_sectors st (queue sectors : Z) : block_state D :=
  set_limit st queue (fun l => l <| chunk_sectors := sectors |>).
Definition kb_block_subsystem_queue_set_dma_alignment st (queue mask : Z) : block_state D :=
  set_limit st queue (fun l => l <| dma_alignment := mask |>).
Definition kb_block_subsystem_queue_set_virt_boundary st (queue mask : Z) : block_state D :=
  set_limit st queue (fun l => l <| virt_boundary_mask := mask |>).
Definition kb_block_subsystem_queue_set_write_cache st (queue cache fua_value : Z) : block_state D :=
  set_limit st queue (fun l => l <| write_cache := if cache =? 0 then 0 else 1 |>
                                 <| fua := if fua_value =? 0 then 0 else 1 |>).
Definition kb_block_subsystem_queue_flag_set st (queue flag : Z) : block_state D :=
  if flag <? 32 then set_limit st queue (fun l => l <| limit_flags ::= (fun f => Z.lor f (Z.shiftl 1 flag)) |>)
  else st.

(** [out_limits] is NULL when [out] is false. *)
Definition kb_block_subsystem_queue_limits st (queue : Z) (out : bool)
    : option kb_block_queue_limits * Z :=
  match queue_state_for st queue with
  | Some s => if out then (Some (q_limits s), 0) else (None, -22)
  | None => (None, -22)
  end.

(** ** Disks *)

Definition is_disk (disk : Z) (s : kb_block_disk_state D) : bool := d_disk s =? disk.

Definition disk_state_for st (disk : Z) : option (kb_block_disk_state D) :=
  if disk =? 0 then None else snd <$> list_find (fun s => is_disk disk s = true) (disks st).

Definition with_disk st (disk : Z) (f : kb_block_disk_state D -> kb_block_disk_state D) : block_state D :=
  match disk_state_for st disk with
  | Some _ => st <| disks ::= update_first (is_disk disk) f |>
  | None => st
  end.

Definition new_disk_state (disk number : Z) : kb_block_disk_state D :=
  mk_disk_state disk 0 0 0 0 0 number false false 0 0 false 0 0 0 0 None None None None None None 0 0 0 0.

Definition disk_state_create st (disk : Z) (state : bool) : block_state D * bool :=
  if negb state then (st, false)
  else (st <| disks ::= cons (new_disk_state disk (next_disk_number st)) |>
           <| next_disk_number ::= (fun n => u32 (n + 1)) |>, true).

Definition disk_state_remove st (disk : Z) : block_state D :=
  st <| disks ::= remove_first (is_disk disk) |>.

Definition kb_block_subsystem_disk_alloc st (disk : Z) (state : bool) : block_state D * Z :=
  if disk =? 0 then (st, 0)
  else match disk_state_create st disk state with
       | (st, true) => (st, disk)
       | (st, false) => (st, 0)
       end.

Definition kb_block_subsystem_disk_attach st (disk queue part0 : Z) : block_state D * Z :=
  match disk_state_for st disk with
  | None => (st, -22)
  | Some _ =>
      if (queue =? 0) || (part0 =? 0) then (st, -22)
      else (with_disk st disk (fun s => s <| d_queue := queue |> <| d_part0 := part0 |>), 0)
  end.

Definition kb_block_subsystem_disk_register st (parent disk groups : Z) : block_state D * Z :=
  match disk_state_for st disk with
  | None => (st, -22)
  | Some _ => (with_disk st disk (fun s => s <| d_parent := parent |> <| d_groups := groups |>
                                             <| d_registered := true |>), 0)
  end.

Definition kb_block_subsystem_disk_unregister st (disk : Z) : block_state D :=
  with_disk st disk (fun s => s <| d_registered := false |>).
Definition kb_block_subsystem_disk_put st (disk : Z) : block_state D :=
  with_disk st disk (fun s => s <| d_put_count ::= (fun n => u32 (n + 1)) |>).
Definition kb_block_subsystem_disk_set_capacity st (disk sectors : Z) : block_state D :=
  with_disk st disk (fun s => s <| d_capacity_sectors := sectors |>).

Definition kb_block_subsystem_disk_set_capacity_and_notify st (disk sectors : Z) : block_state D * bool :=
  match disk_state_for st disk with
  | None => (st, false)
  | Some s => (with_disk st disk (fun s => s <| d_capacity_sectors := sectors |>
                                             <| d_notify_count ::= (fun n => u32 (n + 1)) |>),
               negb (d_capacity_sectors s =? sectors))
  end.

Definition kb_block_subsystem_disk_set_read_only st (disk read_only : Z) : block_state D :=
  with_disk st disk (fun s => s <| d_read_only := negb (read_only =? 0) |>).
Definition kb_block_subsystem_disk_mark_dead st (disk : Z) : block_state D :=
  with_disk st disk (fun s => s <| d_dead := true |> <| d_registered := false |>).
Definition kb_block_subsystem_disk_set_zoned st (disk model : Z) : block_state D :=
  with_disk st disk (fun s => s <| d_zoned_model := model |>).
Definition kb_block_subsystem_disk_update_readahead st (disk : Z) : block_state D :=
  with_disk st disk (fun s => s <| d_readahead_update_count ::= (fun n => u32 (n + 1)) |>).

Definition kb_block_subsystem_disk_revalidate_zones st (disk : Z) : block_state D * Z :=
  match disk_state_for st disk with
  | None => (st, -22)
  | Some _ => (with_disk st disk (fun s => s <| d_zone_revalidate_count ::= (fun n => u32 (n + 1)) |>), 0)
  end.

(** The snapshot copies the record's data fields: the record itself. *)
Definition kb_block_subsystem_disk_snapshot st (disk : Z) (out : bool)
    : option (kb_block_disk_state D) * Z :=
  match disk_state_for st disk with
  | Some s => if out then (Some s, 0) else (None, -22)
  | None => (None, -22)
  end.

Definition kb_block_subsystem_first_registered_disk st : Z :=
  match list_find (fun s : kb_block_disk_state D => d_registered s && negb (d_dead s) = true) (disks st) with
  | Some (_, s) => d_disk s
  | None => 0
  end.

Definition kb_block_subsystem_disk_set_io st (disk ctx : Z) (read_fn : option (kb_block_disk_read_fn D))
    (write_fn : option (kb_block_disk_write_fn D)) : block_state D :=
  with_disk st disk (fun s => s <| d_io_ctx := ctx |> <| d_read_fn := read_fn |> <| d_write_fn := write_fn |>).
Definition kb_block_subsystem_disk_set_read_batch st (disk : Z) (fn : option (kb_block_disk_read_batch_fn D)) : block_state D :=
  with_disk st disk (fun s => s <| d_read_batch_fn := fn |>).
Definition kb_block_subsystem_disk_set_write_batch st (disk : Z) (fn : option (kb_block_disk_write_batch_fn D)) : block_state D :=
  with_disk st disk (fun s => s <| d_write_batch_fn := fn |>).
Definition kb_block_subsystem_disk_set_write_flags st (disk : Z) (fn : option (kb_block_disk_write_flags_fn D)) : block_state D :=
  with_disk st disk (fun s => s <| d_write_flags_fn := fn |>).
Definition kb_block_subsystem_disk_set_flush st (disk : Z) (fn : option (kb_block_disk_flush_fn D)) : block_state D :=
  with_disk st disk (fun s => s <| d_flush_fn := fn |>).

(** ** I/O *)

Definition disk_logical_block_size st (s : option (kb_block_disk_state D)) : Z :=
  match s with
  | None => 512
  | Some s =>
      match queue_state_for st (d_queue s) with
      | None => 512
      | Some q => if logical_block_size (q_limits q) =? 0 then 512 else logical_block_size (q_limits q)
      end
  end.

Definition disk_io_range_valid st (s : option (kb_block_disk_state D)) (sector byte_count : Z) : Z :=
  match s with
  | None => -22
  | Some s =>
      if byte_count =? 0 then -22
      else
        let offset := sector * 512 in
        if UINT64_MAX <? offset then -34
        else
          let end_ := offset + byte_count in
          if UINT64_MAX <? end_ then -34
          else
            let capacity_bytes := d_capacity_sectors s * 512 in
            if UINT64_MAX <? capacity_bytes then -34
            else if capacity_bytes <? end_ then -34
            else
              let size := disk_logical_block_size st (Some s) in
              if negb (offset mod size =? 0) || negb (byte_count mod size =? 0) then -22 else 0
  end.

(** [buffer] is false for NULL; the result carries the bytes of a read. *)
Definition kb_block_subsystem_disk_read st (disk sector : Z) (buffer : bool) (byte_count : Z)
    : block_state D * Z * list Z :=
  match disk_state_for st disk with
  | None => (st, -22, [])
  | Some s =>
      if negb buffer then (st, -22, [])
      else if d_dead s || negb (d_registered s) then (st, -19, [])
      else
        let valid := disk_io_range_valid st (Some s) sector byte_count in
        if negb (valid =? 0) then (st, valid, [])
        else
          match d_read_fn s with
          | None => (st, -95, [])
          | Some read_fn =>
              let '(w, result, data) := read_fn (d_io_ctx s) (io_world st) sector byte_count in
              let st := st <| io_world := w |> in
              (if result =? 0
               then with_disk st disk (fun s => s <| d_read_count ::= (fun n => u64 (n + 1)) |>
                                                  <| d_bytes_read ::= (fun n => u64 (n + byte_count)) |>)
               else st, result, data)
          end
  end.

(** A write request's buffer is its bytes ([None] for NULL). *)
Definition kb_block_subsystem_disk_write_flags st (disk sector : Z) (buffer : option (list Z)) (flags : Z)
    : block_state D * Z :=
  match disk_state_for st disk, buffer with
  | None, _ | _, None => (st, -22)
  | Some s, Some data =>
      if d_dead s || negb (d_registered s) then (st, -19)
      else if d_read_only s then (st, -30)
      else
        let valid := disk_io_range_valid st (Some s) sector (blen data) in
        if negb (valid =? 0) then (st, valid)
        else if negb (Z.ldiff flags KB_BLOCK_DISK_WRITE_FUA =? 0) then (st, -95)
        else
          let finish st (result : Z) :=
            (if result =? 0
             then with_disk st disk (fun s => s <| d_write_count ::= (fun n => u64 (n + 1)) |>
                                                <| d_bytes_written ::= (fun n => u64 (n + blen data)) |>)
             else st, result) in
          match d_write_flags_fn s, d_write_fn s with
          | Some write_flags_fn, _ =>
              let '(w, result) := write_flags_fn (d_io_ctx s) (io_world st) sector data flags in
              finish (st <| io_world := w |>) result
          | None, Some write_fn =>
              let '(w, result) := write_fn (d_io_ctx s) (io_world st) sector data in
              let st := st <| io_world := w |> in
              if (result =? 0) && negb (Z.land flags KB_BLOCK_DISK_WRITE_FUA =? 0) then
                match d_flush_fn s with
                | None => finish st (-95)
                | Some flush_fn =>
                    let '(w, result) := flush_fn (d_io_ctx s) (io_world st) in
                    finish (st <| io_world := w |>) result
                end
              else finish st result
          | None, None => (st, -95)
          end
  end.

Definition kb_block_subsystem_disk_write st (disk sector : Z) (buffer : option (list Z)) : block_state D * Z :=
  kb_block_subsystem_disk_write_flags st disk sector buffer 0.

Record read_request := mk_read_request { rr_sector : Z; rr_buffer : bool; rr_byte_count : Z }.
Record write_request := mk_write_request { wr_sector : Z; wr_buffer : option (list Z) }.

Definition wr_byte_count (r : write_request) : Z := blen (default [] (wr_buffer r)).

Definition read_request_ok st (s : kb_block_disk_state D) (r : read_request) : bool :=
  rr_buffer r && (disk_io_range_valid st (Some s) (rr_sector r) (rr_byte_count r) =? 0).

Definition write_request_ok st (s : kb_block_disk_state D) (r : write_request) : bool :=
  bool_decide (is_Some (wr_buffer r)) &&
  (disk_io_range_valid st (Some s) (wr_sector r) (wr_byte_count r) =? 0).

(** The loops over [read_fn] and [write_fn], stopping at the first error. *)
Fixpoint read_each (read_fn : option (kb_block_disk_read_fn D)) (ctx : Z) (w : D)
    (rs : list read_request) : D * Z * list (list Z) :=
  match rs with
  | [] => (w, 0, [])
  | r :: rs =>
      match read_fn with
      | None => (w, -95, [])
      | Some f =>
          let '(w, result, data) := f ctx w (rr_sector r) (rr_byte_count r) in
          if negb (result =? 0) then (w, result, [data])
          else let '(w, result, rest) := read_each read_fn ctx w rs in (w, result, data :: rest)
      end
  end.

Fixpoint write_each (write_fn : option (kb_block_disk_write_fn D)) (ctx : Z) (w : D)
    (rs : list write_request) : D * Z :=
  match rs with
  | [] => (w, 0)
  | r :: rs =>
      match write_fn with
      | None => (w, -95)
      | Some f =>
          let '(w, result) := f ctx w (wr_sector r) (default [] (wr_buffer r)) in
          if negb (result =? 0) then (w, result) else write_each write_fn ctx w rs
      end
  end.

Definition sum_counts (l : list Z) : Z := foldr Z.add 0 l.

Definition kb_block_subsystem_disk_read_batch st (disk : Z) (requests : option (list read_request))
    : block_state D * Z * list (list Z) :=
  match disk_state_for st disk, requests with
  | None, _ | _, None => (st, -22, [])
  | Some s, Some rs =>
      if bool_decide (rs = []) then (st, -22, [])
      else if d_dead s || negb (d_registered s) then (st, -19, [])
      else if negb (forallb (read_request_ok st s) rs) then (st, -22, [])
      else
        let '(w, result, data) :=
          match d_read_batch_fn s with
          | Some f => f (d_io_ctx s) (io_world st) (map (fun r => (rr_sector r, rr_byte_count r)) rs)
          | None => read_each (d_read_fn s) (d_io_ctx s) (io_world st) rs
          end in
        let st := st <| io_world := w |> in
        (if result =? 0
         then with_disk st disk (fun s => s <| d_read_count ::= (fun n => u64 (n + Z.of_nat (length rs))) |>
                <| d_bytes_read ::= (fun n => u64 (n + sum_counts (map rr_byte_count rs))) |>)
         else st, result, data)
  end.

Definition kb_block_subsystem_disk_write_batch st (disk : Z) (requests : option (list write_request))
    : block_state D * Z :=
  match disk_state_for st disk, requests with
  | None, _ | _, None => (st, -22)
  | Some s, Some rs =>
      if bool_decide (rs = []) then (st, -22)
      else if d_dead s || negb (d_registered s) then (st, -19)
      else if d_read_only s then (st, -30)
      else if negb (forallb (write_request_ok st s) rs) then (st, -22)
      else
        let '(w, result) :=
          match d_write_batch_fn s with
          | Some f => f (d_io_ctx s) (io_world st) (map (fun r => (wr_sector r, default [] (wr_buffer r))) rs)
          | None => write_each (d_write_fn s) (d_io_ctx s) (io_world st) rs
          end in
        let st := st <| io_world := w |> in
        (if result =? 0
         then with_disk st disk (fun s => s <| d_write_count ::= (fun n => u64 (n + Z.of_nat (length rs))) |>
                <| d_bytes_written ::= (fun n => u64 (n + sum_counts (map wr_byte_count rs))) |>)
         else st, result)
  end.

Definition kb_block_subsystem_disk_flush st (disk : Z) : block_state D * Z :=
  match disk_state_for st disk with
  | None => (st, -22)
  | Some s =>
      if d_dead s || negb (d_registered s) then (st, -19)
      else match d_flush_fn s with
           | None => (st, 0)
           | Some f => let '(w, result) := f (d_io_ctx s) (io_world st) in (st <| io_world := w |>, result)
           end
  end.

(** [object] is what [calloc] returned. *)
Definition kb_block_subsystem_block_device_alloc (object : Z) : Z := object.

Definition kb_block_subsystem_object_free st (object : Z) : block_state D :=
  queue_state_remove (disk_state_remove st object) object.

(** ** Tag sets *)

Definition is_tagset (tag_set : Z) (s : kb_block_tagset_state) : bool := ts_tag_set s =? tag_set.

Definition tagset_state_find st (tag_set : Z) : option kb_block_tagset_state :=
  if tag_set =? 0 then None else snd <$> list_find (fun s => is_tagset tag_set s = true) (tagsets st).

Definition new_tagset_state (tag_set : Z) : kb_block_tagset_state :=
  mk_tagset_state tag_set
    (replicate (Z.to_nat KB_BLOCK_SUBSYSTEM_QUEUE_MAX) (mk_mq_tags KB_BLOCK_SUBSYSTEM_TAGS_PER_QUEUE 1))
    (replicate (Z.to_nat KB_BLOCK_SUBSYSTEM_QUEUE_MAX)
       (replicate (Z.to_nat KB_BLOCK_SUBSYSTEM_TAGS_PER_QUEUE) 0))
    (replicate (Z.to_nat KB_BLOCK_SUBSYSTEM_QUEUE_MAX) 1) 0 1 0 0 0 0.

(** Finds the record or creates one; [state] says whether [calloc] succeeds. *)
Definition tagset_state_for st (tag_set : Z) (state : bool)
    : block_state D * option kb_block_tagset_state :=
  match tagset_state_find st tag_set with
  | Some s => (st, Some s)
  | None =>
      if (tag_set =? 0) || negb state then (st, None)
      else let s := new_tagset_state tag_set in (st <| tagsets ::= cons s |>, Some s)
  end.

Definition tagset_state_remove st (tag_set : Z) : block_state D :=
  st <| tagsets ::= remove_first (is_tagset tag_set) |>.

Definition put_tagset st (s : kb_block_tagset_state) : block_state D :=
  st <| tagsets ::= update_first (is_tagset (ts_tag_set s)) (fun _ => s) |>.

Definition kb_block_subsystem_tagset_prepare st (tag_set : Z) (state : bool) : block_state D * Z :=
  match tagset_state_for st tag_set state with
  | (st, None) => (st, -12)
  | (st, Some s) => (put_tagset st (s <| ts_prepared_count ::= (fun n => u32 (n + 1)) |>), 0)
  end.

Definition kb_block_subsystem_tagset_free st (tag_set : Z) : block_state D := tagset_state_remove st tag_set.

Definition kb_block_subsystem_tagset_set_hw_queues st (tag_set nr : Z) (state : bool) : block_state D :=
  match tagset_state_for st tag_set state with
  | (st, None) => st
  | (st, Some s) =>
      let nr := if nr =? 0 then 1 else nr in
      let nr := if KB_BLOCK_SUBSYSTEM_QUEUE_MAX <? nr then KB_BLOCK_SUBSYSTEM_QUEUE_MAX else nr in
      put_tagset st (s <| ts_nr_hw_queues := nr |>
        <| ts_tags ::= imap (fun i t => mk_mq_tags (nr_tags t) (if Z.of_nat i <? nr then 1 else 0)) |>)
  end.

Definition kb_block_subsystem_tagset_note_map_queues st (tag_set : Z) (pci state : bool) : block_state D :=
  match tagset_state_for st tag_set state with
  | (st, None) => st
  | (st, Some s) =>
      put_tagset st (if pci then s <| ts_pci_map_queues_count ::= (fun n => u32 (n + 1)) |>
                     else s <| ts_map_queues_count ::= (fun n => u32 (n + 1)) |>)
  end.

Definition kb_block_subsystem_tagset_note_busy_iter st (tag_set : Z) (state : bool) : block_state D :=
  match tagset_state_for st tag_set state with
  | (st, None) => st
  | (st, Some s) => put_tagset st (s <| ts_busy_iter_count ::= (fun n => u32 (n + 1)) |>)
  end.

Definition kb_block_subsystem_tagset_note_wait_completed st (tag_set : Z) (state : bool) : block_state D :=
  match tagset_state_for st tag_set state with
  | (st, None) => st
  | (st, Some s) => put_tagset st (s <| ts_wait_completed_count ::= (fun n => u32 (n + 1)) |>)
  end.

Definition kb_block_subsystem_tagset_snapshot st (tag_set : Z) (out : bool)
    : option kb_block_tagset_state * Z :=
  match tagset_state_find st tag_set with
  | Some s => if out then (Some s, 0) else (None, -22)
  | None => (None, -22)
  end.

(** The address of the record's own tag array; here, whether there is one. *)
Definition kb_block_subsystem_tagset_array st (tag_set : Z) (state : bool) : block_state D * bool :=
  let '(st, s) := tagset_state_for st tag_set state in (st, bool_decide (is_Some s)).

Definition queue_tags (s : kb_block_tagset_state) (q : nat) : Z :=
  nr_tags (nth q (ts_tags s) (mk_mq_tags 0 0)).
Definition queue_rqs (s : kb_block_tagset_state) (q : nat) : list Z := nth q (ts_rqs s) [].

(** The scan of [kb_block_subsystem_tagset_alloc_tag]: the free tag it stops at. *)
Fixpoint scan_tags (n : nat) (rqs : list Z) (limit tag : Z) : option Z :=
  match n with
  | O => None
  | S n =>
      let tag := if (tag =? 0) || (limit <=? tag) then 1 else tag in
      if nth (Z.to_nat tag) rqs 0 =? 0 then Some tag else scan_tags n rqs limit (tag + 1)
  end.

Definition kb_block_subsystem_tagset_alloc_tag st (tag_set queue_index : Z) (state : bool)
    : block_state D * Z :=
  match tagset_state_for st tag_set state with
  | (st, None) => (st, 1)
  | (st, Some s) =>
      if KB_BLOCK_SUBSYSTEM_QUEUE_MAX <=? queue_index then (st, 1)
      else
        let q := Z.to_nat queue_index in
        let limit := queue_tags s q in
        if limit <=? 1 then (st, 0)
        else
          match scan_tags (Z.to_nat (limit - 1)) (queue_rqs s q) limit (nth q (ts_next_tag s) 0) with
          | None => (st, UINT32_MAX)
          | Some tag =>
              let next := if limit <=? tag + 1 then 1 else tag + 1 in
              (put_tagset st (s <| ts_next_tag ::= insert q next |>), tag)
          end
  end.

Definition kb_block_subsystem_tagset_bind_request st (tag_set queue_index tag request : Z) (state : bool)
    : block_state D * Z :=
  match tagset_state_for st tag_set state with
  | (st, None) => (st, -22)
  | (st, Some s) =>
      let q := Z.to_nat queue_index in
      if (KB_BLOCK_SUBSYSTEM_QUEUE_MAX <=? queue_index) || (queue_tags s q <=? tag) then (st, -22)
      else (put_tagset st (s <| ts_rqs ::= insert q (<[Z.to_nat tag := request]> (queue_rqs s q)) |>), 0)
  end.

Definition kb_block_subsystem_tagset_unbind_request st (tag_set queue_index tag request : Z) (state : bool)
    : block_state D :=
  match tagset_state_for st tag_set state with
  | (st, None) => st
  | (st, Some s) =>
      let q := Z.to_nat queue_index in
      if (KB_BLOCK_SUBSYSTEM_QUEUE_MAX <=? queue_index) || (queue_tags s q <=? tag) then st
      else if nth (Z.to_nat tag) (queue_rqs s q) 0 =? request
      then put_tagset st (s <| ts_rqs ::= insert q (<[Z.to_nat tag := 0]> (queue_rqs s q)) |>)
      else st
  end.

Definition kb_block_subsystem_tagset_request st (tag_set queue_index tag : Z) (state : bool)
    : block_state D * Z :=
  match tagset_state_for st tag_set state with
  | (st, None) => (st, 0)
  | (st, Some s) =>
      let q := Z.to_nat queue_index in
      if (KB_BLOCK_SUBSYSTEM_QUEUE_MAX <=? queue_index) || (queue_tags s q <=? tag) then (st, 0)
      else (st, nth (Z.to_nat tag) (queue_rqs s q) 0)
  end.
End block.
