(* ===== verification/BlockTheorems.v ===== *)
(** * Properties of the block subsystem (BlockDevice.v)

    Which requests reach a disk's callbacks, reading back what was written
    through any backend that keeps bytes, batches as sequences of single
    writes, and the tag allocator. *)

From S2P Require Import Prelude BlockDevice.

(** ** Record lists *)

Lemma update_first_update {A} (p : A -> bool) (f g : A -> A) l :
  (forall x, p x = true -> p (f x) = true) ->
  update_first p g (update_first p f l) = update_first p (fun x => g (f x)) l.
Proof.
  intros Hf. induction l as [|x l IH]; [done|]. cbn. destruct (p x) eqn:E; cbn.
  - by rewrite Hf.
  - by rewrite E, IH.
Qed.

Lemma find_update {A} (p : A -> bool) (f : A -> A) l :
  (forall x, p x = true -> p (f x) = true) ->
  snd <$> list_find (fun x => p x = true) (update_first p f l) =
  f <$> (snd <$> list_find (fun x => p x = true) l).
Proof.
  intros Hf. induction l as [|x l IH]; [done|]. cbn [update_first]. destruct (p x) eqn:E; cbn [list_find].
  - rewrite !decide_True by auto. done.
  - rewrite !decide_False by congruence. rewrite <- !option_fmap_compose in *. cbn.
    revert IH. destruct (list_find _ (update_first p f l)) as [[? ?]|], (list_find _ l) as [[? ?]|]; done.
Qed.

Section disks.
Context {D : Type}.
Implicit Types st : block_state D.

(** Updates that keep a record's address. *)
Definition keeps_disk (f : kb_block_disk_state D -> kb_block_disk_state D) : Prop :=
  forall s, d_disk (f s) = d_disk s.

Lemma keeps_is_disk disk f s : keeps_disk f -> is_disk disk s = true -> is_disk disk (f s) = true.
Proof. intros Hf. unfold is_disk. by rewrite Hf. Qed.

Lemma disk_state_for_world st disk w : disk_state_for (st <| io_world := w |>) disk = disk_state_for st disk.
Proof. done. Qed.

Lemma disk_state_for_with st disk f :
  keeps_disk f -> disk_state_for (with_disk st disk f) disk = f <$> disk_state_for st disk.
Proof.
  intros Hf. unfold with_disk. destruct (disk_state_for st disk) as [s|] eqn:E; [|done].
  unfold disk_state_for in *. destruct (disk =? 0); [done|]. cbn [disks set_field].
  rewrite find_update; [by rewrite E|]. intros x. by apply keeps_is_disk.
Qed.

Lemma with_disk_compose st disk f g :
  keeps_disk f -> with_disk (with_disk st disk f) disk g = with_disk st disk (fun s => g (f s)).
Proof.
  intros Hf. unfold with_disk at 1. rewrite disk_state_for_with by done.
  unfold with_disk. destruct (disk_state_for st disk); [|done]. cbn.
  rewrite update_first_update; [done|]. intros x. by apply keeps_is_disk.
Qed.

Lemma with_disk_world st disk f w :
  with_disk st disk f <| io_world := w |> = with_disk (st <| io_world := w |>) disk f.
Proof. unfold with_disk. rewrite disk_state_for_world. by destruct (disk_state_for st disk). Qed.

Lemma with_disk_queues st disk f : queues (with_disk st disk f) = queues st.
Proof. unfold with_disk. by case_match. Qed.

Lemma io_world_with st disk f : io_world (with_disk st disk f) = io_world st.
Proof. unfold with_disk. by case_match. Qed.

(** Validity of a request depends on the queues, the disk's queue and its
    capacity only. *)
Lemma range_valid_ext st st' s s' sector n :
  queues st' = queues st -> d_queue s' = d_queue s -> d_capacity_sectors s' = d_capacity_sectors s ->
  disk_io_range_valid st' (Some s') sector n = disk_io_range_valid st (Some s) sector n.
Proof.
  intros Hq Hd Hc. unfold disk_io_range_valid, disk_logical_block_size, queue_state_for.
  by rewrite Hq, Hd, Hc.
Qed.

(** The requests the block layer lets through. *)
Definition request_in_range st (s : kb_block_disk_state D) (sector n : Z) : Prop :=
  0 < n /\ sector * 512 + n <= d_capacity_sectors s * 512 /\ d_capacity_sectors s * 512 <= UINT64_MAX /\
  (disk_logical_block_size st (Some s) | sector * 512) /\ (disk_logical_block_size st (Some s) | n).

Lemma logical_block_size_pos st s :
  (forall q, q ∈ queues st -> 0 <= logical_block_size (q_limits q)) -> 0 < disk_logical_block_size st (Some s).
Proof.
  intros Hq. unfold disk_logical_block_size, queue_state_for. destruct (d_queue s =? 0); [done|].
  destruct (list_find _ _) as [[i q]|] eqn:E; cbn; [|done].
  apply list_find_Some in E as (Hi & _ & _). apply list_elem_of_lookup_2 in Hi. specialize (Hq q Hi).
  destruct (Z.eqb_spec (logical_block_size (q_limits q)) 0); lia.
Qed.

Lemma range_valid_spec st s sector n :
  (forall q, q ∈ queues st -> 0 <= logical_block_size (q_limits q)) -> 0 <= sector -> 0 <= n ->
  disk_io_range_valid st (Some s) sector n = 0 <-> request_in_range st s sector n.
Proof.
  intros Hq Hs Hn. pose proof (logical_block_size_pos st s Hq) as Hp.
  unfold disk_io_range_valid, request_in_range. destruct (Z.eqb_spec n 0); [split; [done|lia]|].
  repeat (match goal with |- context [?a <? ?b] => destruct (Z.ltb_spec a b) end; [split; [done|lia]|]).
  rewrite <- !Z.mod_divide by lia.
  destruct (Z.eqb_spec ((sector * 512) mod disk_logical_block_size st (Some s)) 0),
    (Z.eqb_spec (n mod disk_logical_block_size st (Some s)) 0); cbn [negb orb];
    (split; [try done; intros _; split_and!; lia|intros (? & ? & ? & ? & ?); done]).
Qed.

Lemma range_valid_codes st s sector n :
  disk_io_range_valid st (Some s) sector n = 0 \/ disk_io_range_valid st (Some s) sector n = -22 \/
  disk_io_range_valid st (Some s) sector n = -34.
Proof. unfold disk_io_range_valid. repeat case_match; tauto. Qed.
End disks.

(** ** Requests that reach the device *)

Definition count_read (n : Z) {D} (s : kb_block_disk_state D) : kb_block_disk_state D :=
  s <| d_read_count ::= (fun c => u64 (c + 1)) |> <| d_bytes_read ::= (fun c => u64 (c + n)) |>.

Definition count_writes (k n : Z) {D} (s : kb_block_disk_state D) : kb_block_disk_state D :=
  s <| d_write_count ::= (fun c => u64 (c + k)) |> <| d_bytes_written ::= (fun c => u64 (c + n)) |>.

(** The disk takes I/O: it is registered, alive and, for writes, writable. *)
Definition disk_live {D} (s : kb_block_disk_state D) : Prop := d_registered s = true /\ d_dead s = false.

Definition block_sizes_ok {D} (st : block_state D) : Prop :=
  forall q, q ∈ queues st -> 0 <= logical_block_size (q_limits q).

Lemma live_guard {D} (s : kb_block_disk_state D) : disk_live s <-> d_dead s || negb (d_registered s) = false.
Proof. unfold disk_live. destruct (d_dead s), (d_registered s); cbn; split; by (intros [? ?] || idtac). Qed.

Lemma disk_read_accepted {D} (st : block_state D) disk s sector n f :
  disk_state_for st disk = Some s -> block_sizes_ok st -> 0 <= sector -> 0 <= n ->
  disk_live s -> request_in_range st s sector n -> d_read_fn s = Some f ->
  let out := f (d_io_ctx s) (io_world st) sector n in
  kb_block_subsystem_disk_read st disk sector true n =
  (if out.1.2 =? 0 then with_disk (st <| io_world := out.1.1 |>) disk (count_read n)
   else st <| io_world := out.1.1 |>, out.1.2, out.2).
Proof.
  intros Hs Hq H0 Hn Hl Hr Hf. unfold kb_block_subsystem_disk_read. rewrite Hs. cbn [negb].
  apply live_guard in Hl. rewrite Hl. apply range_valid_spec in Hr; [|done|done|done]. rewrite Hr, Hf.
  destruct (f _ _ _ _) as [[w result] data]. done.
Qed.

Lemma disk_write_accepted {D} (st : block_state D) disk s sector data f :
  disk_state_for st disk = Some s -> block_sizes_ok st -> 0 <= sector ->
  disk_live s -> d_read_only s = false -> request_in_range st s sector (blen data) ->
  d_write_flags_fn s = None -> d_write_fn s = Some f ->
  let out := f (d_io_ctx s) (io_world st) sector data in
  kb_block_subsystem_disk_write st disk sector (Some data) =
  (if out.2 =? 0 then with_disk (st <| io_world := out.1 |>) disk (count_writes 1 (blen data))
   else st <| io_world := out.1 |>, out.2).
Proof.
  intros Hs Hq H0 Hl Hro Hr Hff Hf. unfold kb_block_subsystem_disk_write, kb_block_subsystem_disk_write_flags.
  rewrite Hs. apply live_guard in Hl. rewrite Hl, Hro.
  apply range_valid_spec in Hr; [|done|done|unfold blen; lia]. rewrite Hr, Hff, Hf.
  destruct (f _ _ _ _) as [w result]. cbn. by rewrite andb_false_r.
Qed.

(** A read or write reaches the disk's callback exactly when the disk is
    known, registered, not dead, has a callback, (for a write) is not read-only,
    and the request is non-empty, inside the capacity without 64-bit overflow
    and aligned to the logical block size.  Otherwise the whole block state,
    the device included, is unchanged and the error code is negative. *)
Theorem disk_io_rejected_is_inert {D} (st : block_state D) disk sector :
  block_sizes_ok st -> 0 <= sector ->
  let accepted_read n := exists s, disk_state_for st disk = Some s /\ disk_live s /\
    request_in_range st s sector n /\ is_Some (d_read_fn s) in
  let accepted_write n := exists s, disk_state_for st disk = Some s /\ disk_live s /\
    d_read_only s = false /\ request_in_range st s sector n /\
    (is_Some (d_write_fn s) \/ is_Some (d_write_flags_fn s)) in
  (forall n, 0 <= n -> ~ accepted_read n -> exists e,
     kb_block_subsystem_disk_read st disk sector true n = (st, e, []) /\ e < 0) /\
  (forall data, ~ accepted_write (blen data) -> exists e,
     kb_block_subsystem_disk_write st disk sector (Some data) = (st, e) /\ e < 0).
Proof.
  intros Hq Hs accr accw. split.
  - intros n Hn Hna. unfold kb_block_subsystem_disk_read.
    destruct (disk_state_for st disk) as [s|] eqn:E; [|by exists (-22)]. cbn [negb].
    destruct (d_dead s || negb (d_registered s)) eqn:Hl; [by exists (-19)|].
    pose proof (range_valid_spec st s sector n Hq Hs Hn) as Hv.
    destruct (Z.eqb_spec (disk_io_range_valid st (Some s) sector n) 0) as [Hz|Hnz]; cbn [negb].
    + destruct (d_read_fn s) as [f|] eqn:Hf; [|by exists (-95)]. exfalso. apply Hna. exists s.
      split; [done|]. split; [by apply live_guard|]. split; [by apply Hv|by rewrite Hf].
    + eexists. split; [done|]. pose proof (range_valid_codes st s sector n). lia.
  - intros data Hna. unfold kb_block_subsystem_disk_write, kb_block_subsystem_disk_write_flags.
    destruct (disk_state_for st disk) as [s|] eqn:E; [|by exists (-22)].
    destruct (d_dead s || negb (d_registered s)) eqn:Hl; [by exists (-19)|].
    destruct (d_read_only s) eqn:Hro; [by exists (-30)|].
    pose proof (range_valid_spec st s sector (blen data) Hq Hs ltac:(unfold blen; lia)) as Hv.
    destruct (Z.eqb_spec (disk_io_range_valid st (Some s) sector (blen data)) 0) as [Hz|Hnz]; cbn [negb].
    + apply Hv in Hz. cbn. destruct (d_write_flags_fn s) as [g|] eqn:Hg, (d_write_fn s) as [f|] eqn:Hf;
        [exfalso; apply Hna; exists s; rewrite Hf, Hg; apply live_guard in Hl;
         (split; [done|split; [done|split; [done|split; [done|eauto]]]])..|by exists (-95)].
    + eexists. split; [done|]. pose proof (range_valid_codes st s sector (blen data)). lia.
Qed.

(** ** Reading back what was written

    What a pair of callbacks must promise for a disk to behave like an array of
    bytes: reads return the bytes and change none, a successful write changes
    exactly its range. *)

Class ByteDisk {D : Type} (ctx : Z) (rd : kb_block_disk_read_fn D) (wr : kb_block_disk_write_fn D) := {
  bd_ok : D -> Prop;
  bd_byte : D -> Z -> Z;
  bd_read : forall w sector n, bd_ok w -> 0 <= sector -> 0 < n -> sector * 512 + n <= UINT64_MAX ->
    exists w', rd ctx w sector n = (w', 0, map (fun i => bd_byte w (sector * 512 + i)) (seqZ 0 n)) /\
      bd_ok w' /\ forall o, bd_byte w' o = bd_byte w o;
  bd_write : forall w sector data w', bd_ok w -> 0 <= sector -> 0 < blen data ->
    sector * 512 + blen data <= UINT64_MAX -> wr ctx w sector data = (w', 0) ->
    bd_ok w' /\ forall o, 0 <= o -> bd_byte w' o =
      if decide (sector * 512 <= o < sector * 512 + blen data)
      then nth (Z.to_nat (o - sector * 512)) data 0 else bd_byte w o;
}.

Lemma map_seqZ_ext (f g : Z -> Z) n :
  (forall i, 0 <= i < n -> f i = g i) -> map f (seqZ 0 n) = map g (seqZ 0 n).
Proof.
  intros H. apply map_ext_in. intros i Hi%list_elem_of_In. apply elem_of_seqZ in Hi. apply H. lia.
Qed.

Lemma map_seqZ_nth (data : list Z) : map (fun i => nth (Z.to_nat i) data 0) (seqZ 0 (blen data)) = data.
Proof.
  apply list_eq. intros i. change (map ?f ?l) with (f <$> l). rewrite list_lookup_fmap.
  destruct (decide (i < length data)%nat) as [Hi|Hi].
  - rewrite lookup_seqZ_lt by (unfold blen; lia). cbn. rewrite nth_lookup.
    replace (Z.to_nat (0 + Z.of_nat i)) with i by lia.
    by destruct (lookup_lt_is_Some_2 data i Hi) as [x ->].
  - rewrite lookup_seqZ_ge by (unfold blen; lia). symmetry. apply lookup_ge_None. lia.
Qed.

Section readback.
Context {D : Type} (ctx : Z) (rd : kb_block_disk_read_fn D) (wr : kb_block_disk_write_fn D)
  `{!ByteDisk ctx rd wr}.

(** A disk wired to the two callbacks. *)
Definition wired (s : kb_block_disk_state D) : Prop :=
  disk_live s /\ d_read_only s = false /\ d_io_ctx s = ctx /\ d_read_fn s = Some rd /\
  d_write_fn s = Some wr /\ d_write_flags_fn s = None.

Lemma read_wired (st : block_state D) disk s sector n :
  disk_state_for st disk = Some s -> wired s -> block_sizes_ok st -> bd_ok (io_world st) ->
  0 <= sector -> request_in_range st s sector n ->
  exists st', kb_block_subsystem_disk_read st disk sector true n =
    (st', 0, map (fun i => bd_byte (io_world st) (sector * 512 + i)) (seqZ 0 n)).
Proof.
  intros Hs (Hl & Hro & Hc & Hr & Hw & Hf) Hq Hok H0 Hin. pose proof Hin as (Hn & Hcap & Hmax & _ & _).
  rewrite (disk_read_accepted st disk s sector n rd); [|done|done|done|lia|done|done|done].
  rewrite Hc. destruct (bd_read (io_world st) sector n) as (w' & -> & _ & _); [done|done|done|lia|].
  eexists. reflexivity.
Qed.

Lemma write_wired (st st1 : block_state D) disk s sector data :
  disk_state_for st disk = Some s -> wired s -> block_sizes_ok st -> bd_ok (io_world st) ->
  0 <= sector -> request_in_range st s sector (blen data) ->
  kb_block_subsystem_disk_write st disk sector (Some data) = (st1, 0) ->
  bd_ok (io_world st1) /\ block_sizes_ok st1 /\
  (exists s1, disk_state_for st1 disk = Some s1 /\ wired s1 /\
     forall k n, request_in_range st1 s1 k n <-> request_in_range st s k n) /\
  forall o, 0 <= o -> bd_byte (io_world st1) o =
    if decide (sector * 512 <= o < sector * 512 + blen data)
    then nth (Z.to_nat (o - sector * 512)) data 0 else bd_byte (io_world st) o.
Proof.
  intros Hs (Hl & Hro & Hc & Hr & Hw & Hf) Hq Hok H0 Hin. pose proof Hin as (Hn & Hcap & Hmax & _ & _).
  rewrite (disk_write_accepted st disk s sector data wr); [|done..]. rewrite Hc.
  destruct (wr ctx (io_world st) sector data) as [w result] eqn:Hwr. cbn [fst snd].
  intros Heq. injection Heq as Hst ->. cbn in Hst. subst st1.
  destruct (bd_write (io_world st) sector data w) as [Hok' Hb]; [done|done|done|lia|done|].
  rewrite io_world_with. split; [done|]. split.
  { unfold block_sizes_ok. rewrite with_disk_queues. done. }
  split; [|done]. exists (count_writes 1 (blen data) s). split_and!.
  - rewrite disk_state_for_with by done. exact (f_equal (fmap (count_writes 1 (blen data))) Hs).
  - done.
  - intros k n. unfold request_in_range, disk_logical_block_size, queue_state_for.
    rewrite with_disk_queues. done.
Qed.
End readback.

(** On a live, writable disk whose callbacks keep bytes (the [ByteDisk]
    interface), a successful write followed by a read of the same range returns
    the bytes written, and a read of any other valid range returns the new bytes
    where it overlaps the write and the old ones elsewhere. *)
Theorem disk_read_after_write {D} ctx rd wr `{!ByteDisk (D := D) ctx rd wr} (st st1 : block_state D)
    disk s sector data :
  disk_state_for st disk = Some s -> wired ctx rd wr s -> block_sizes_ok st -> bd_ok (io_world st) ->
  0 <= sector -> request_in_range st s sector (blen data) ->
  kb_block_subsystem_disk_write st disk sector (Some data) = (st1, 0) ->
  (exists st2, kb_block_subsystem_disk_read st1 disk sector true (blen data) = (st2, 0, data)) /\
  (forall k n, 0 <= k -> request_in_range st s k n ->
     exists st2, kb_block_subsystem_disk_read st1 disk k true n =
       (st2, 0, map (fun i => let o := k * 512 + i in
          if decide (sector * 512 <= o < sector * 512 + blen data)
          then nth (Z.to_nat (o - sector * 512)) data 0 else bd_byte (io_world st) o) (seqZ 0 n))).
Proof.
  intros Hs Hw Hq Hok H0 Hin Hwr.
  destruct (write_wired ctx rd wr st st1 disk s sector data Hs Hw Hq Hok H0 Hin Hwr)
    as (Hok1 & Hq1 & (s1 & Hs1 & Hw1 & Hr1) & Hb).
  assert (forall k n, 0 <= k -> request_in_range st s k n ->
     exists st2, kb_block_subsystem_disk_read st1 disk k true n =
       (st2, 0, map (fun i => let o := k * 512 + i in
          if decide (sector * 512 <= o < sector * 512 + blen data)
          then nth (Z.to_nat (o - sector * 512)) data 0 else bd_byte (io_world st) o) (seqZ 0 n))) as Hall.
  { intros k n Hk Hin'. destruct (read_wired ctx rd wr st1 disk s1 k n Hs1 Hw1 Hq1 Hok1 Hk) as [st2 Hrd];
      [by apply Hr1|]. exists st2. rewrite Hrd. f_equal. apply map_seqZ_ext. intros i Hi. apply Hb. lia. }
  split; [|exact Hall]. destruct (Hall sector (blen data) H0 Hin) as [st2 ->]. exists st2. f_equal.
  transitivity (map (fun i => nth (Z.to_nat i) data 0) (seqZ 0 (blen data))); [|apply map_seqZ_nth].
  apply map_seqZ_ext. intros i Hi. cbv zeta.
  rewrite decide_True by lia. do 2 f_equal. lia.
Qed.

Lemma disk_io_rejected_is_inert_witness :
  exists e, kb_block_subsystem_disk_read (block_state_init tt) 5 0 true 512 = (block_state_init tt, e, []) /\ e < 0.
Proof.
  apply (disk_io_rejected_is_inert (block_state_init tt) 5 0); [|lia|lia|].
  - intros q Hq. by apply not_elem_of_nil in Hq.
  - intros (s & Hs & _). discriminate.
Defined.

(** ** Batches *)

Fixpoint write_singly {D} (st : block_state D) (disk : Z) (rs : list write_request) : block_state D * Z :=
  match rs with
  | [] => (st, 0)
  | r :: rs =>
      let '(st, result) := kb_block_subsystem_disk_write st disk (wr_sector r) (wr_buffer r) in
      if negb (result =? 0) then (st, result) else write_singly st disk rs
  end.

Lemma u64_add_l a b : u64 (u64 a + b) = u64 (a + b).
Proof. unfold u64. by rewrite Zplus_mod_idemp_l. Qed.

Lemma count_writes_compose {D} a b c d (s : kb_block_disk_state D) :
  count_writes c d (count_writes a b s) = count_writes (a + c) (b + d) s.
Proof. unfold count_writes. cbn. rewrite !u64_add_l. by rewrite !Z.add_assoc. Qed.

Lemma with_disk_ext {D} (st : block_state D) disk f g :
  (forall s, f s = g s) -> with_disk st disk f = with_disk st disk g.
Proof.
  intros H. unfold with_disk. case_match; [|done]. cbn. f_equal.
  induction (disks st) as [|x l IH]; [done|]. cbn. by rewrite H, IH.
Qed.

Lemma write_ok_ext {D} (st st' : block_state D) s s' r :
  queues st' = queues st -> d_queue s' = d_queue s -> d_capacity_sectors s' = d_capacity_sectors s ->
  write_request_ok st' s' r = write_request_ok st s r.
Proof. intros. unfold write_request_ok. by erewrite range_valid_ext. Qed.

(** One accepted write, as part of a batch. *)
Lemma write_single_step {D} (st : block_state D) disk s r f :
  disk_state_for st disk = Some s -> disk_live s -> d_read_only s = false ->
  d_write_flags_fn s = None -> d_write_fn s = Some f -> write_request_ok st s r = true ->
  let out := f (d_io_ctx s) (io_world st) (wr_sector r) (default [] (wr_buffer r)) in
  kb_block_subsystem_disk_write st disk (wr_sector r) (wr_buffer r) =
  (if out.2 =? 0 then with_disk (st <| io_world := out.1 |>) disk (count_writes 1 (wr_byte_count r))
   else st <| io_world := out.1 |>, out.2).
Proof.
  intros Hs Hl Hro Hff Hf Hok. unfold write_request_ok, wr_byte_count in *. boolify.
  destruct (wr_buffer r) as [data|]; [|by destruct H as [? ?]]. cbn [default from_option id] in *.
  unfold kb_block_subsystem_disk_write, kb_block_subsystem_disk_write_flags.
  rewrite Hs. apply live_guard in Hl. rewrite Hl, Hro, H0, Hff, Hf. cbn.
  destruct (f _ _ _ _) as [w result]. by rewrite andb_false_r.
Qed.

Lemma batch_totals D a b r rs :
  count_writes (D := D) (a + 1 + Z.of_nat (length rs)) (b + wr_byte_count r + sum_counts (map wr_byte_count rs)) =
  count_writes (a + Z.of_nat (length (r :: rs))) (b + sum_counts (map wr_byte_count (r :: rs))).
Proof. unfold sum_counts. cbn [map foldr length]. f_equal; lia. Qed.

Lemma write_singly_spec {D} (st : block_state D) disk s f a b rs :
  disk_state_for st disk = Some s -> disk_live s -> d_read_only s = false ->
  d_write_flags_fn s = None -> d_write_fn s = Some f ->
  forallb (write_request_ok st s) rs = true ->
  forall w w', write_each (Some f) (d_io_ctx s) w rs = (w', 0) ->
  write_singly (with_disk (st <| io_world := w |>) disk (count_writes a b)) disk rs =
  (with_disk (st <| io_world := w' |>) disk
     (count_writes (a + Z.of_nat (length rs)) (b + sum_counts (map wr_byte_count rs))), 0).
Proof.
  intros Hs Hl Hro Hff Hf. revert a b. induction rs as [|r rs IH]; intros a b Hok w w'.
  - cbn. intros [= <-]. by rewrite !Z.add_0_r.
  - cbn [forallb] in Hok. apply andb_true_iff in Hok as [Hr Hrs]. cbn [write_each write_singly].
    set (st1 := with_disk (st <| io_world := w |>) disk (count_writes a b)).
    assert (disk_state_for st1 disk = Some (count_writes a b s)) as Hs1.
    { unfold st1. rewrite disk_state_for_with by done. exact (f_equal (fmap (count_writes a b)) Hs). }
    assert (queues st1 = queues st) as Hq1 by (unfold st1; by rewrite with_disk_queues).
    assert (io_world st1 = w) as Hw1 by (unfold st1; by rewrite io_world_with).
    rewrite (write_single_step st1 disk (count_writes a b s) r f);
      [|done|done|done|done|done|by rewrite (write_ok_ext st st1 s)].
    rewrite Hw1. change (d_io_ctx (count_writes a b s)) with (d_io_ctx s).
    destruct (f (d_io_ctx s) w (wr_sector r) (default [] (wr_buffer r))) as [w1 result]. cbn [fst snd].
    destruct (Z.eqb_spec result 0) as [->|Hne]; cbn [negb]; [|intros [= _ ->]; done].
    intros Hrest. unfold st1. rewrite with_disk_world, with_disk_compose by done.
    rewrite (with_disk_ext _ _ _ (count_writes (a + 1) (b + wr_byte_count r))) by (intros; apply count_writes_compose).
    specialize (IH (a + 1) (b + wr_byte_count r) Hrs w1 w' Hrest). cbn [set_field] in *.
    etransitivity; [exact IH|]. by rewrite batch_totals.
Qed.

(** On a disk without a batch callback, a batch write that succeeds has
    exactly the effect of writing its requests one after the other: the same
    device state, the same counters, and success each time. *)
Theorem write_batch_is_sequence {D} (st st' : block_state D) disk s rs :
  disk_state_for st disk = Some s -> d_write_batch_fn s = None -> d_write_flags_fn s = None ->
  kb_block_subsystem_disk_write_batch st disk (Some rs) = (st', 0) ->
  write_singly st disk rs = (st', 0).
Proof.
  intros Hs Hb Hff. unfold kb_block_subsystem_disk_write_batch. rewrite Hs, Hb.
  case_match; [done|]. destruct (d_dead s || negb (d_registered s)) eqn:Hl; [done|].
  destruct (d_read_only s) eqn:Hro; [done|]. destruct (forallb _ rs) eqn:Hok; [|done]. cbn [negb].
  apply live_guard in Hl. destruct rs as [|r rs]; [done|]. cbn [write_each forallb] in *.
  destruct (d_write_fn s) as [f|] eqn:Hf; [|done].
  apply andb_true_iff in Hok as [Hr Hrs].
  cbn [write_singly]. rewrite (write_single_step st disk s r f) by done.
  destruct (f (d_io_ctx s) (io_world st) (wr_sector r) (default [] (wr_buffer r))) as [w1 result]. cbn [fst snd].
  destruct (Z.eqb_spec result 0) as [->|Hne]; cbn [negb].
  2: { rewrite (proj2 (Z.eqb_neq result 0)) by done. by intros [= _ ->]. }
  destruct (write_each (Some f) (d_io_ctx s) w1 rs) as [w' result] eqn:He.
  destruct (Z.eqb_spec result 0) as [->|]; [|by intros [= _ ->]]. intros [= <-].
  rewrite (write_singly_spec st disk s f 1 (wr_byte_count r) rs Hs Hl Hro Hff Hf Hrs w1 w' He).
  f_equal. apply with_disk_ext. intros x. exact (f_equal (fun g => g x) (batch_totals D 0 0 r rs)).
Qed.

(** A disk of one world byte per write, for the examples: each write records
    its sector. *)
Definition log_write : kb_block_disk_write_fn (list Z) := fun _ w sector _ => (sector :: w, 0).

Definition log_disk_state : block_state (list Z) :=
  mk_block_state [] [] [(new_disk_state 9 1) <| d_registered := true |> <| d_capacity_sectors := 8 |>
                          <| d_write_fn := Some log_write |>] 2 [].

Definition log_requests : list write_request :=
  [mk_write_request 1 (Some (replicate 512 7)); mk_write_request 4 (Some (replicate 1024 9))].

Lemma write_batch_is_sequence_witness :
  (write_singly log_disk_state 9 log_requests).2 = 0 /\
  io_world (write_singly log_disk_state 9 log_requests).1 = [4; 1].
Proof.
  assert (write_singly log_disk_state 9 log_requests =
    kb_block_subsystem_disk_write_batch log_disk_state 9 (Some log_requests)) as H.
  { destruct (kb_block_subsystem_disk_write_batch log_disk_state 9 (Some log_requests)) as [st' r] eqn:E.
    assert (r = 0) as -> by (apply (f_equal snd) in E; vm_compute in E; congruence).
    apply (write_batch_is_sequence log_disk_state st' 9
      ((new_disk_state 9 1) <| d_registered := true |> <| d_capacity_sectors := 8 |>
         <| d_write_fn := Some log_write |>) log_requests); [reflexivity|reflexivity|reflexivity|exact E]. }
  rewrite H. split; vm_compute; reflexivity.
Defined.

(** ** Tags *)

Record tagset_ok (s : kb_block_tagset_state) : Prop := {
  to_tags : length (ts_tags s) = 4%nat /\ Forall (fun t => nr_tags t = 64) (ts_tags s);
  to_rqs : length (ts_rqs s) = 4%nat /\ Forall (fun row => length row = 64%nat) (ts_rqs s);
  to_next : length (ts_next_tag s) = 4%nat /\ Forall (fun t => 1 <= t < 64) (ts_next_tag s);
}.

Definition tagsets_ok {D} (st : block_state D) : Prop := Forall tagset_ok (tagsets st).

Lemma new_tagset_ok tag_set : tagset_ok (new_tagset_state tag_set).
Proof. split; (split; [done|]); cbn; repeat (constructor; [done|]); constructor. Qed.

Lemma Forall_update_first {A} (P : A -> Prop) p f l :
  Forall P l -> (forall x, P x -> P (f x)) -> Forall P (update_first p f l).
Proof.
  intros H Hf. induction H as [|x l Hx H IH]; [constructor|]. cbn. case_match; constructor; auto.
Qed.

(** The position the scan looks at in its [k]-th round. *)
Definition scan_pos (limit tag k : Z) : Z := (tag - 1 + k) mod (limit - 1) + 1.

Lemma scan_tags_spec n rqs limit tag :
  1 < limit -> 1 <= tag <= limit ->
  match scan_tags n rqs limit tag with
  | Some t => 1 <= t < limit /\ nth (Z.to_nat t) rqs 0 = 0
  | None => forall k, 0 <= k < Z.of_nat n -> nth (Z.to_nat (scan_pos limit tag k)) rqs 0 <> 0
  end.
Proof.
  intros Hl. revert tag. induction n as [|n IH]; intros tag Ht; cbn [scan_tags]; [intros; lia|].
  set (t := if (tag =? 0) || (limit <=? tag) then 1 else tag).
  assert (1 <= t < limit /\ forall k, scan_pos limit tag k = scan_pos limit t k) as [Htr Hpos].
  { unfold t. destruct (Z.eqb_spec tag 0) as [|_]; [lia|]. cbn [orb].
    destruct (Z.leb_spec limit tag); (split; [lia|]); [|done].
    intros k. unfold scan_pos. replace tag with limit by lia.
    replace (limit - 1 + k) with (k + 1 * (limit - 1)) by lia. rewrite Z_mod_plus_full. f_equal. }
  destruct (Z.eqb_spec (nth (Z.to_nat t) rqs 0) 0) as [Hz|Hnz]; [done|].
  specialize (IH (t + 1) ltac:(lia)). destruct (scan_tags n rqs limit (t + 1)) as [u|]; [done|].
  intros k Hk. rewrite Hpos. destruct (decide (k = 0)) as [->|].
  - unfold scan_pos. rewrite Z.add_0_r, Z.mod_small by lia. by replace (t - 1 + 1) with t by lia.
  - specialize (IH (k - 1) ltac:(lia)). unfold scan_pos in *.
    by replace (t + 1 - 1 + (k - 1)) with (t - 1 + k) in IH by lia.
Qed.

(** A full round visits every tag. *)
Lemma scan_pos_onto limit tag t :
  1 <= tag < limit -> 1 <= t < limit -> exists k, 0 <= k < limit - 1 /\ scan_pos limit tag k = t.
Proof.
  intros Htag Ht. exists ((t - tag) mod (limit - 1)). split; [apply Z.mod_pos_bound; lia|].
  unfold scan_pos. rewrite Zplus_mod_idemp_r. replace (tag - 1 + (t - tag)) with (t - 1) by lia.
  rewrite Z.mod_small by lia. lia.
Qed.

Section tags.
Context {D : Type}.
Implicit Types st : block_state D.

Lemma tagset_for_spec st tag_set state st1 s :
  tagset_state_for st tag_set state = (st1, Some s) ->
  tagset_state_find st1 tag_set = Some s /\ ts_tag_set s = tag_set /\ tag_set <> 0 /\
  (tagsets_ok st -> tagsets_ok st1 /\ tagset_ok s) /\
  (forall q t, kb_block_subsystem_tagset_request st1 tag_set q t true =
    (st1, (kb_block_subsystem_tagset_request st tag_set q t true).2)).
Proof.
  unfold tagset_state_for. destruct (tagset_state_find st tag_set) as [s0|] eqn:E.
  - intros [= <- <-]. pose proof E as E'. unfold tagset_state_find in E'.
    destruct (Z.eqb_spec tag_set 0) as [|Hne]; [done|].
    destruct (list_find _ _) as [[i x]|] eqn:Ef; cbn in E'; [|done]. injection E' as ->.
    apply list_find_Some in Ef as (Hi & Hx & _). unfold is_tagset in Hx. boolify.
    split_and!; [done|done|done| |].
    + intros Hok. split; [done|]. by apply (Forall_lookup_1 _ _ _ _ Hok Hi).
    + intros q t. unfold kb_block_subsystem_tagset_request, tagset_state_for. rewrite E. by case_match.
  - destruct (Z.eqb_spec tag_set 0) as [|Hne]; [done|]. destruct state; [|done]. cbn [orb negb].
    intros Heq. assert (st1 = st <| tagsets ::= cons (new_tagset_state tag_set) |>) as -> by congruence.
    assert (s = new_tagset_state tag_set) as -> by congruence. clear Heq.
    assert (tagset_state_find (st <| tagsets ::= cons (new_tagset_state tag_set) |>) tag_set =
      Some (new_tagset_state tag_set)) as Hf.
    { unfold tagset_state_find. rewrite (proj2 (Z.eqb_neq _ _) Hne). cbn [tagsets set_field list_find].
      rewrite decide_True; [done|]. unfold is_tagset. cbn. apply Z.eqb_refl. }
    split_and!; [done|done|done| |].
    + intros Hok. split; [constructor; [apply new_tagset_ok|done]|apply new_tagset_ok].
    + intros q t. unfold kb_block_subsystem_tagset_request, tagset_state_for. rewrite Hf, E.
      rewrite (proj2 (Z.eqb_neq _ _) Hne). cbn [orb negb]. by case_match.
Qed.

Lemma find_put_tagset st s s' :
  ts_tag_set s' = ts_tag_set s -> tagset_state_find st (ts_tag_set s) = Some s ->
  tagset_state_find (put_tagset st s') (ts_tag_set s) = Some s'.
Proof.
  intros He Hf. unfold put_tagset, tagset_state_find in *. destruct (ts_tag_set s =? 0); [done|].
  cbn [tagsets set_field]. rewrite He, find_update; [by rewrite Hf|].
  intros x _. unfold is_tagset. rewrite He. apply Z.eqb_refl.
Qed.

Lemma put_tagset_ok st s : tagsets_ok st -> tagset_ok s -> tagsets_ok (put_tagset st s).
Proof. intros Hst Hs. by apply Forall_update_first. Qed.

(** The observable requests of a tag set whose record is known. *)
Lemma request_of_find st tag_set s q t state :
  tagset_state_find st tag_set = Some s -> tagset_ok s -> 0 <= q < 4 -> 0 <= t ->
  (kb_block_subsystem_tagset_request st tag_set q t state).2 =
  if t <? 64 then nth (Z.to_nat t) (queue_rqs s (Z.to_nat q)) 0 else 0.
Proof.
  intros Hf Hok Hq Ht. unfold kb_block_subsystem_tagset_request, tagset_state_for. rewrite Hf.
  assert (queue_tags s (Z.to_nat q) = 64) as ->.
  { destruct (to_tags _ Hok) as [HL HF]. unfold queue_tags. rewrite nth_lookup.
    destruct (lookup_lt_is_Some_2 (ts_tags s) (Z.to_nat q)) as [x Hx]; [lia|]. rewrite Hx. cbn.
    by apply (Forall_lookup_1 _ _ _ _ HF Hx). }
  unfold KB_BLOCK_SUBSYSTEM_QUEUE_MAX. rewrite (proj2 (Z.leb_gt 4 q)) by lia. cbn [orb].
  destruct (Z.leb_spec 64 t), (Z.ltb_spec t 64); done || lia.
Qed.

Lemma queue_facts s q : tagset_ok s -> 0 <= q < 4 ->
  queue_tags s (Z.to_nat q) = 64 /\ length (queue_rqs s (Z.to_nat q)) = 64%nat /\
  1 <= nth (Z.to_nat q) (ts_next_tag s) 0 < 64.
Proof.
  intros [[HL1 HF1] [HL2 HF2] [HL3 HF3]] Hq. unfold queue_tags, queue_rqs. rewrite !nth_lookup.
  destruct (lookup_lt_is_Some_2 (ts_tags s) (Z.to_nat q)) as [x Hx]; [lia|].
  destruct (lookup_lt_is_Some_2 (ts_rqs s) (Z.to_nat q)) as [y Hy]; [lia|].
  destruct (lookup_lt_is_Some_2 (ts_next_tag s) (Z.to_nat q)) as [z Hz]; [lia|].
  rewrite Hx, Hy, Hz. cbn. split_and!.
  - by apply (Forall_lookup_1 _ _ _ _ HF1 Hx).
  - by apply (Forall_lookup_1 _ _ _ _ HF2 Hy).
  - by apply (Forall_lookup_1 _ _ _ _ HF3 Hz).
  - by apply (Forall_lookup_1 _ _ _ _ HF3 Hz).
Qed.
End tags.

Section tag_theorems.
Context {D : Type}.
Implicit Types st : block_state D.

Lemma next_tag_ok s q next :
  tagset_ok s -> 1 <= next < 64 -> tagset_ok (s <| ts_next_tag ::= insert q next |>).
Proof.
  intros [H1 H2 [HL HF]] Hn. split; [done|done|]. cbn. rewrite length_insert. split; [done|].
  by apply Forall_insert.
Qed.

Lemma set_rqs_ok s q t request :
  tagset_ok s -> 0 <= q < 4 ->
  tagset_ok (s <| ts_rqs ::= insert (Z.to_nat q) (<[Z.to_nat t := request]> (queue_rqs s (Z.to_nat q))) |>).
Proof.
  intros Hok Hq. destruct (queue_facts s q Hok Hq) as (_ & Hlen & _). destruct Hok as [H1 [HL HF] H3].
  split; [done| |done]. cbn. rewrite length_insert. split; [done|].
  apply Forall_insert; [done|]. by rewrite length_insert.
Qed.

Lemma queue_rqs_insert s q q' row :
  tagset_ok s -> 0 <= q < 4 -> 0 <= q' ->
  queue_rqs (s <| ts_rqs ::= insert (Z.to_nat q) row |>) (Z.to_nat q') =
  if decide (q' = q) then row else queue_rqs s (Z.to_nat q').
Proof.
  intros [_ [HL _] _] Hq Hq'. unfold queue_rqs. cbn. rewrite !nth_lookup. case_decide as Hd.
  - subst. by rewrite list_lookup_insert_eq by lia.
  - by rewrite list_lookup_insert_ne by lia.
Qed.

Lemma alloc_tag_spec st tag_set q :
  tagsets_ok st -> tag_set <> 0 -> 0 <= q < 4 ->
  let r := kb_block_subsystem_tagset_alloc_tag st tag_set q true in
  tagsets_ok r.1 /\
  (forall q' t, 0 <= q' < 4 -> 0 <= t ->
     (kb_block_subsystem_tagset_request r.1 tag_set q' t true).2 =
     (kb_block_subsystem_tagset_request st tag_set q' t true).2) /\
  ((1 <= r.2 < 64 /\ (kb_block_subsystem_tagset_request st tag_set q r.2 true).2 = 0) \/
   (r.2 = UINT32_MAX /\ forall t, 1 <= t < 64 ->
      (kb_block_subsystem_tagset_request st tag_set q t true).2 <> 0)).
Proof.
  intros Hok Hne Hq. unfold kb_block_subsystem_tagset_alloc_tag.
  destruct (tagset_state_for st tag_set true) as [st1 [s|]] eqn:E.
  2: { exfalso. unfold tagset_state_for in E. repeat case_match; simplify_eq.
       rewrite (proj2 (Z.eqb_neq _ _) Hne) in *. done. }
  destruct (tagset_for_spec _ _ _ _ _ E) as (Hf & Hts & _ & Hok1 & Hreq).
  destruct (Hok1 Hok) as [Hst1 Hs]. destruct (queue_facts s q Hs Hq) as (Hlim & Hlen & Hnext).
  unfold KB_BLOCK_SUBSYSTEM_QUEUE_MAX. rewrite (proj2 (Z.leb_gt 4 q)) by lia. rewrite Hlim, (proj2 (Z.leb_gt 64 1)) by lia.
  assert (forall q' t, 0 <= q' < 4 -> 0 <= t -> (kb_block_subsystem_tagset_request st tag_set q' t true).2 =
    if t <? 64 then nth (Z.to_nat t) (queue_rqs s (Z.to_nat q')) 0 else 0) as Hview.
  { intros q' t Hq' Ht. pose proof (f_equal snd (Hreq q' t)) as Hr. cbn [snd] in Hr. rewrite <- Hr.
    rewrite <- Hts in *. by apply request_of_find. }
  pose proof (scan_tags_spec (Z.to_nat (64 - 1)) (queue_rqs s (Z.to_nat q)) 64
    (nth (Z.to_nat q) (ts_next_tag s) 0) ltac:(lia) ltac:(lia)) as Hscan.
  destruct (scan_tags _ _ _ _) as [t|]; cbn [fst snd].
  - destruct Hscan as [Ht Hz]. set (next := if 64 <=? t + 1 then 1 else t + 1).
    assert (1 <= next < 64) as Hn by (unfold next; destruct (Z.leb_spec 64 (t + 1)); lia).
    split_and!.
    + apply put_tagset_ok; [done|]. by apply next_tag_ok.
    + intros q' t' Hq' Ht'. rewrite Hview by done. rewrite <- Hts in *. cbn [fst snd].
      pose proof (next_tag_ok s (Z.to_nat q) next Hs Hn) as Hs'.
      refine (request_of_find _ _ _ q' t' true _ Hs' Hq' Ht'); by apply find_put_tagset.
    + left. split; [done|]. rewrite Hview by lia. rewrite (proj2 (Z.ltb_lt t 64)) by lia. done.
  - split_and!; [done| |].
    + intros q' t' Hq' Ht'. by rewrite Hreq.
    + right. split; [done|]. intros t Ht. rewrite Hview by lia. rewrite (proj2 (Z.ltb_lt t 64)) by lia.
      destruct (scan_pos_onto 64 (nth (Z.to_nat q) (ts_next_tag s) 0) t Hnext Ht) as (k & Hk & <-).
      apply Hscan. lia.
Qed.

Lemma bind_spec st tag_set q t request :
  tagsets_ok st -> tag_set <> 0 -> 0 <= q < 4 -> 0 <= t < 64 ->
  let r := kb_block_subsystem_tagset_bind_request st tag_set q t request true in
  r.2 = 0 /\ tagsets_ok r.1 /\
  forall q' t', 0 <= q' < 4 -> 0 <= t' ->
    (kb_block_subsystem_tagset_request r.1 tag_set q' t' true).2 =
    if decide (q' = q /\ t' = t) then request
    else (kb_block_subsystem_tagset_request st tag_set q' t' true).2.
Proof.
  intros Hok Hne Hq Ht. unfold kb_block_subsystem_tagset_bind_request.
  destruct (tagset_state_for st tag_set true) as [st1 [s|]] eqn:E.
  2: { exfalso. unfold tagset_state_for in E. repeat case_match; simplify_eq.
       rewrite (proj2 (Z.eqb_neq _ _) Hne) in *. done. }
  destruct (tagset_for_spec _ _ _ _ _ E) as (Hf & Hts & _ & Hok1 & Hreq).
  destruct (Hok1 Hok) as [Hst1 Hs]. destruct (queue_facts s q Hs Hq) as (Hlim & Hlen & _).
  unfold KB_BLOCK_SUBSYSTEM_QUEUE_MAX. rewrite (proj2 (Z.leb_gt 4 q)), Hlim, (proj2 (Z.leb_gt 64 t)) by lia.
  cbn [orb fst snd]. set (row := <[Z.to_nat t := request]> (queue_rqs s (Z.to_nat q))).
  pose proof (set_rqs_ok s q t request Hs Hq) as Hs'. fold row in Hs'.
  split_and!; [done|by apply put_tagset_ok|]. intros q' t' Hq' Ht'. rewrite <- Hts in *.
  etransitivity; [refine (request_of_find _ _ _ q' t' true _ Hs' Hq' Ht'); by apply find_put_tagset|].
  pose proof (f_equal snd (Hreq q' t')) as Hr. cbn [snd] in Hr. rewrite <- Hr, (request_of_find st1 _ s q' t' true Hf) by done.
  rewrite queue_rqs_insert by (done || lia). unfold row.
  destruct (decide (q' = q)) as [->|], (decide (t' = t)) as [->|].
  - rewrite decide_True by done. rewrite (proj2 (Z.ltb_lt t 64)) by lia.
    rewrite nth_lookup, list_lookup_insert_eq by lia. done.
  - rewrite decide_False by tauto. case_match; [|done].
    by rewrite !nth_lookup, list_lookup_insert_ne by lia.
  - by rewrite decide_False by tauto.
  - by rewrite decide_False by tauto.
Qed.
End tag_theorems.

(** The tag allocator of a queue returns a tag between 1 and 63 that no
    request holds, and gives up (UINT32_MAX) only when all of them are held; it
    changes no binding, and the tag sets stay well formed. *)
Theorem tag_allocation_sound {D} (st : block_state D) tag_set q :
  tagsets_ok st -> tag_set <> 0 -> 0 <= q < 4 ->
  let r := kb_block_subsystem_tagset_alloc_tag st tag_set q true in
  tagsets_ok r.1 /\
  (forall q' t, 0 <= q' < 4 -> 0 <= t ->
     (kb_block_subsystem_tagset_request r.1 tag_set q' t true).2 =
     (kb_block_subsystem_tagset_request st tag_set q' t true).2) /\
  ((1 <= r.2 < 64 /\ (kb_block_subsystem_tagset_request st tag_set q r.2 true).2 = 0) \/
   (r.2 = UINT32_MAX /\ forall t, 1 <= t < 64 ->
      (kb_block_subsystem_tagset_request st tag_set q t true).2 <> 0)).
Proof. apply alloc_tag_spec. Qed.

Lemma tag_allocation_sound_witness :
  let r := kb_block_subsystem_tagset_alloc_tag (block_state_init tt) 0x700 2 true in
  r.2 = 1 /\ tagsets_ok r.1.
Proof.
  split; [reflexivity|].
  apply (tag_allocation_sound (block_state_init tt) 0x700 2); [constructor|discriminate|lia].
Defined.

(** Binding a request to a tag makes exactly that tag of that queue answer
    with the request; allocating from the queue afterwards never hands the tag
    out again while the request is bound. *)
Theorem tag_bind_lookup {D} (st : block_state D) tag_set q t request :
  tagsets_ok st -> tag_set <> 0 -> 0 <= q < 4 -> 0 <= t < 64 -> request <> 0 ->
  let st1 := (kb_block_subsystem_tagset_bind_request st tag_set q t request true).1 in
  (kb_block_subsystem_tagset_bind_request st tag_set q t request true).2 = 0 /\
  (forall q' t', 0 <= q' < 4 -> 0 <= t' ->
     (kb_block_subsystem_tagset_request st1 tag_set q' t' true).2 =
     if decide (q' = q /\ t' = t) then request
     else (kb_block_subsystem_tagset_request st tag_set q' t' true).2) /\
  (kb_block_subsystem_tagset_alloc_tag st1 tag_set q true).2 <> t.
Proof.
  intros Hok Hne Hq Ht Hr st1. destruct (bind_spec st tag_set q t request Hok Hne Hq Ht) as (H0 & Hok1 & Hview).
  fold st1 in Hok1, Hview. split_and!; [done|done|].
  destruct (alloc_tag_spec st1 tag_set q Hok1 Hne Hq) as (_ & _ & [[Hrange Hz]|[Hmax _]]).
  - intros Heq. rewrite Heq in Hz. rewrite Hview in Hz by lia. by rewrite decide_True in Hz.
  - rewrite Hmax. unfold UINT32_MAX. lia.
Qed.

Lemma tag_bind_lookup_witness :
  let st1 := (kb_block_subsystem_tagset_bind_request (block_state_init tt) 0x700 2 1 0xabc true).1 in
  (kb_block_subsystem_tagset_request st1 0x700 2 1 true).2 = 0xabc /\
  (kb_block_subsystem_tagset_alloc_tag st1 0x700 2 true).2 <> 1.
Proof.
  destruct (tag_bind_lookup (block_state_init tt) 0x700 2 1 0xabc) as (_ & Hv & Ha);
    [constructor|discriminate|lia|lia|discriminate|].
  split; [exact (Hv 2 1 ltac:(lia) ltac:(lia))|exact Ha].
Defined.
