(* ===== verification/UsbStorage.v ===== *)
(** * USB mass storage (src/src/linux_subsystem/usb/storage.c)

    A synthetic USB disk: records of attached mass-storage interfaces, a sparse
    backing store in 4096-byte extents, the SCSI commands and the bulk-only
    transport (BOT) on top.  Each record registers a disk with the block
    subsystem and serves it through its read and write callbacks, so the state
    is the block subsystem's, with this component's records as the device world
    (BlockDevice.v).  A record pointer is its index in [storage_records].

    Environment: [env] is the parsed KOBOX_USB_STORAGE_SECTORS, [endpoints] what
    the USB subsystem enumerates, [block_allocs] the results of the [calloc]
    calls of one block registration and [extent_callocs] the answers of the
    next [calloc]s of extents (an empty list answers yes).  Results stored
    through [out_result] are returned; printing is left out. *)

From S2P Require Import Prelude Bytes BlockDevice.

Definition KB_USB_STORAGE_MAX : Z := 32.
Definition KB_USB_STORAGE_DEFAULT_SECTOR_SIZE : Z := 512.
Definition KB_USB_STORAGE_DEFAULT_SECTORS : Z := 131072.
Definition KB_USB_STORAGE_CLASS_MASS_STORAGE : Z := 0x08.
Definition KB_USB_ENDPOINT_TYPE_BULK : Z := 2.
Definition KB_USB_STORAGE_EXTENT_SIZE : Z := 4096.
Definition KB_USB_STORAGE_BOT_CBW_SIGNATURE : Z := 0x43425355.
Definition KB_USB_STORAGE_BOT_CSW_SIGNATURE : Z := 0x53425355.
Definition KB_USB_STORAGE_BOT_FLAG_DATA_IN : Z := 0x80.
Definition KB_USB_STORAGE_BOT_CBW_SIZE : Z := 31.
Definition KB_USB_STORAGE_BOT_CSW_SIZE : Z := 13.
Definition KB_USB_STORAGE_SCSI_STATUS_GOOD : Z := 0x00.
Definition KB_USB_STORAGE_SCSI_STATUS_CHECK_CONDITION : Z := 0x02.
Definition KB_USB_STORAGE_BOT_STATUS_PASSED : Z := 0x00.
Definition KB_USB_STORAGE_BOT_STATUS_FAILED : Z := 0x01.
Definition KB_USB_STORAGE_BOT_STATUS_PHASE_ERROR : Z := 0x02.
Definition KB_SCSI_OP_TEST_UNIT_READY : Z := 0x00.
Definition KB_SCSI_OP_REQUEST_SENSE : Z := 0x03.
Definition KB_SCSI_OP_INQUIRY : Z := 0x12.
Definition KB_SCSI_OP_MODE_SENSE_6 : Z := 0x1a.
Definition KB_SCSI_OP_START_STOP_UNIT : Z := 0x1b.
Definition KB_SCSI_OP_READ_CAPACITY_10 : Z := 0x25.
Definition KB_SCSI_OP_READ_10 : Z := 0x28.
Definition KB_SCSI_OP_WRITE_10 : Z := 0x2a.
Definition KB_SCSI_OP_SYNCHRONIZE_CACHE_10 : Z := 0x35.
Definition KB_SCSI_SENSE_NO_SENSE : Z := 0x00.
Definition KB_SCSI_SENSE_NOT_READY : Z := 0x02.
Definition KB_SCSI_SENSE_ILLEGAL_REQUEST : Z := 0x05.
Definition KB_SCSI_ASC_INVALID_COMMAND : Z := 0x20.
Definition KB_SCSI_ASC_LBA_OUT_OF_RANGE : Z := 0x21.
Definition KB_SCSI_ASC_INVALID_FIELD_IN_CDB : Z := 0x24.

Record kb_usb_storage_snapshot := mk_snapshot {
  sn_udev : Z;
  sn_interface : Z;
  sn_linux_device : Z;
  sn_parent_linux_device : Z;
  sn_driver : Z;
  sn_driver_data : Z;
  sn_scsi_host : Z;
  sn_scsi_host_private : Z;
  sn_disk : Z;
  sn_queue : Z;
  sn_part0 : Z;
  sn_tag_set : Z;
  sn_capacity_sectors : Z;
  sn_sector_size : Z;
  sn_disk_number : Z;
  sn_registered : Z;
  sn_medium_present : Z;
  sn_scan_count : Z;
  sn_add_host_count : Z;
  sn_backing_bytes : Z;
  sn_read_count : Z;
  sn_write_count : Z;
  sn_bytes_read : Z;
  sn_bytes_written : Z;
  sn_scsi_command_count : Z;
  sn_scsi_read_command_count : Z;
  sn_scsi_write_command_count : Z;
  sn_bot_command_count : Z;
  sn_bot_success_count : Z;
  sn_bot_failed_count : Z;
  sn_bot_phase_error_count : Z;
  sn_bot_reset_count : Z;
  sn_last_bot_tag : Z;
  sn_last_bot_residue : Z;
  sn_last_scsi_opcode : Z;
  sn_last_sense_key : Z;
  sn_last_asc : Z;
  sn_last_ascq : Z;
  sn_last_bot_status : Z;
  sn_interface_number : Z;
  sn_subclass : Z;
  sn_protocol : Z;
  sn_bulk_in_endpoint : Z;
  sn_bulk_out_endpoint : Z;
}.
#[export] Instance snapshot_eta : Settable kb_usb_storage_snapshot := fun r =>
  mk_snapshot
    (sn_udev r) (sn_interface r) (sn_linux_device r) (sn_parent_linux_device r) (sn_driver r)
    (sn_driver_data r) (sn_scsi_host r) (sn_scsi_host_private r) (sn_disk r) (sn_queue r)
    (sn_part0 r) (sn_tag_set r) (sn_capacity_sectors r) (sn_sector_size r) (sn_disk_number r)
    (sn_registered r) (sn_medium_present r) (sn_scan_count r) (sn_add_host_count r)
    (sn_backing_bytes r) (sn_read_count r) (sn_write_count r) (sn_bytes_read r)
    (sn_bytes_written r) (sn_scsi_command_count r) (sn_scsi_read_command_count r)
    (sn_scsi_write_command_count r) (sn_bot_command_count r) (sn_bot_success_count r)
    (sn_bot_failed_count r) (sn_bot_phase_error_count r) (sn_bot_reset_count r)
    (sn_last_bot_tag r) (sn_last_bot_residue r) (sn_last_scsi_opcode r) (sn_last_sense_key r)
    (sn_last_asc r) (sn_last_ascq r) (sn_last_bot_status r) (sn_interface_number r)
    (sn_subclass r) (sn_protocol r) (sn_bulk_in_endpoint r) (sn_bulk_out_endpoint r).

(** A record after [memset] to zero. *)
Definition zero_snapshot : kb_usb_storage_snapshot :=
  mk_snapshot
    0 0 0 0 0 0 0 0 0 0 0 0 0 0 0 0 0 0 0 0 0 0 0 0 0 0 0 0 0 0 0 0 0 0 0 0 0 0 0 0 0 0 0 0.

Record kb_usb_storage_extent := mk_extent { x_index : Z; x_data : list Z }.

Record kb_usb_storage_record := mk_record {
  active : bool;
  snapshot : kb_usb_storage_snapshot;
  extents : list kb_usb_storage_extent;
}.
#[export] Instance record_eta : Settable kb_usb_storage_record := fun r =>
  mk_record (active r) (snapshot r) (extents r).

Definition zero_record : kb_usb_storage_record := mk_record false zero_snapshot [].

Record storage_world := mk_storage_world {
  storage_records : list kb_usb_storage_record;
  storage_driver_registered : bool;
  extent_callocs : list bool;
}.
#[export] Instance storage_world_eta : Settable storage_world := fun r =>
  mk_storage_world (storage_records r) (storage_driver_registered r) (extent_callocs r).

Definition storage_world_init : storage_world :=
  mk_storage_world (replicate (Z.to_nat KB_USB_STORAGE_MAX) zero_record) false [].

Definition storage_state : Type := block_state storage_world.

(** ** Records *)

Definition get_record (w : storage_world) (i : nat) : kb_usb_storage_record :=
  nth i (storage_records w) zero_record.

(** [record->snapshot.f = ...] for the record at index [i]. *)
Definition set_record (w : storage_world) (i : nat) (f : kb_usb_storage_record -> kb_usb_storage_record)
    : storage_world :=
  w <| storage_records ::= alter f i |>.

Definition snap (st : storage_state) (i : nat) : kb_usb_storage_snapshot := snapshot (get_record (io_world st) i).

Definition set_snap (st : storage_state) (i : nat) (f : kb_usb_storage_snapshot -> kb_usb_storage_snapshot) : storage_state :=
  st <| io_world ::= (fun w => set_record w i (fun r => r <| snapshot ::= f |>)) |>.

Definition default_capacity_sectors (env : option Z) : Z :=
  match env with
  | None => KB_USB_STORAGE_DEFAULT_SECTORS
  | Some sectors => if sectors =? 0 then KB_USB_STORAGE_DEFAULT_SECTORS else sectors
  end.

(** The first active record whose snapshot passes the test. *)
Definition record_find (w : storage_world) (p : kb_usb_storage_snapshot -> bool) : option nat :=
  fst <$> list_find (fun r => active r && p (snapshot r) = true) (storage_records w).

Definition record_find_by_interface (w : storage_world) (interface : Z) : option nat :=
  if interface =? 0 then None else record_find w (fun s => sn_interface s =? interface).
Definition record_find_by_host_private (w : storage_world) (host_private : Z) : option nat :=
  if host_private =? 0 then None else record_find w (fun s => sn_driver_data s =? host_private).
Definition record_find_by_host (w : storage_world) (host : Z) : option nat :=
  if host =? 0 then None else record_find w (fun s => sn_scsi_host s =? host).
Definition record_find_by_linux_device (w : storage_world) (dev : Z) : option nat :=
  if dev =? 0 then None
  else record_find w (fun s => (sn_linux_device s =? dev) || (sn_parent_linux_device s =? dev)).
Definition record_find_by_disk (w : storage_world) (disk : Z) : option nat :=
  if disk =? 0 then None else record_find w (fun s => sn_disk s =? disk).

(** The index of the only active record without a host. *)
Definition record_only_without_host (w : storage_world) : option nat :=
  match filter (fun ir => active ir.2 = true /\ sn_scsi_host (snapshot ir.2) = 0)
          (imap pair (storage_records w)) with
  | [(i, _)] => Some i
  | _ => None
  end.

Definition record_for_interface (w : storage_world) (env : option Z) (interface : Z)
    : storage_world * option nat :=
  match record_find_by_interface w interface with
  | Some i => (w, Some i)
  | None =>
      if interface =? 0 then (w, None)
      else
        match list_find (fun r => active r = false) (storage_records w) with
        | None => (w, None)
        | Some (i, _) =>
            (set_record w i (fun _ => mk_record true
               (zero_snapshot <| sn_interface := interface |>
                  <| sn_sector_size := KB_USB_STORAGE_DEFAULT_SECTOR_SIZE |>
                  <| sn_capacity_sectors := default_capacity_sectors env |>
                  <| sn_medium_present := 1 |>) []), Some i)
        end
  end.

(** ** Results *)

Record kb_usb_storage_scsi_result := mk_scsi_result {
  sr_status : Z;
  sr_sense_key : Z;
  sr_asc : Z;
  sr_ascq : Z;
  sr_data_transferred : Z;
  sr_residue : Z;
}.

Definition result_good (transferred buffer_len : Z) : kb_usb_storage_scsi_result :=
  let residue := if transferred <=? buffer_len then buffer_len - transferred else 0 in
  mk_scsi_result KB_USB_STORAGE_SCSI_STATUS_GOOD KB_SCSI_SENSE_NO_SENSE 0 0 transferred
    (if UINT32_MAX <? residue then UINT32_MAX else residue).

Definition result_check_condition (st : storage_state) (i : nat) (sense_key asc ascq buffer_len : Z)
    : storage_state * kb_usb_storage_scsi_result :=
  (set_snap st i (fun s => s <| sn_last_sense_key := sense_key |> <| sn_last_asc := asc |>
                             <| sn_last_ascq := ascq |>),
   mk_scsi_result KB_USB_STORAGE_SCSI_STATUS_CHECK_CONDITION sense_key asc ascq 0
     (if UINT32_MAX <? buffer_len then UINT32_MAX else buffer_len)).

Record kb_usb_storage_bot_result := mk_bot_result {
  br_tag : Z;
  br_residue : Z;
  br_status : Z;
  br_data_transferred : Z;
  br_csw : list Z;
}.

Definition bot_fill_csw (tag residue status data_transferred : Z) : kb_usb_storage_bot_result :=
  mk_bot_result tag residue status data_transferred
    (write_le32 KB_USB_STORAGE_BOT_CSW_SIGNATURE ++ write_le32 tag ++ write_le32 residue ++ [status]).

Definition bot_record_status (st : storage_state) (i : nat) (tag residue status : Z) : storage_state :=
  set_snap st i (fun s =>
    let s := s <| sn_last_bot_tag := tag |> <| sn_last_bot_residue := residue |>
               <| sn_last_bot_status := status |> in
    if status =? KB_USB_STORAGE_BOT_STATUS_PASSED then s <| sn_bot_success_count ::= (fun n => u64 (n + 1)) |>
    else if status =? KB_USB_STORAGE_BOT_STATUS_FAILED then s <| sn_bot_failed_count ::= (fun n => u64 (n + 1)) |>
    else if status =? KB_USB_STORAGE_BOT_STATUS_PHASE_ERROR
    then s <| sn_bot_phase_error_count ::= (fun n => u64 (n + 1)) |>
    else s).

(** The bytes copied and the buffer afterwards. *)
Definition copy_limited (buffer : option (list Z)) (buffer_len : Z) (data : list Z)
    : option (list Z) * Z :=
  match buffer with
  | None => (None, 0)
  | Some b =>
      if buffer_len =? 0 then (buffer, 0)
      else
        let transferred := if blen data <? buffer_len then blen data else buffer_len in
        (Some (splice b 0 (slice data 0 transferred)), transferred)
  end.

(** ** Endpoints *)

(** The fields of the endpoint snapshot that this component reads. *)
Record kb_usb_endpoint_snapshot := mk_endpoint {
  ep_interface : Z;
  ep_type : Z;
  ep_direction_in : Z;
  ep_address : Z;
}.

Definition storage_attach_endpoint (st : storage_state) (i : nat) (endpoint : kb_usb_endpoint_snapshot)
    : storage_state :=
  if negb (ep_type endpoint =? KB_USB_ENDPOINT_TYPE_BULK) then st
  else if negb (ep_direction_in endpoint =? 0)
  then set_snap st i (fun s => s <| sn_bulk_in_endpoint := ep_address endpoint |>)
  else set_snap st i (fun s => s <| sn_bulk_out_endpoint := ep_address endpoint |>).

Definition endpoint_matches_record (st : storage_state) (i : nat) (endpoint : kb_usb_endpoint_snapshot)
    : storage_state :=
  if negb (ep_interface endpoint =? sn_interface (snap st i)) then st
  else storage_attach_endpoint st i endpoint.

Definition storage_collect_endpoints (st : storage_state) (endpoints : list kb_usb_endpoint_snapshot) (i : nat)
    : storage_state :=
  foldl (fun st e => endpoint_matches_record st i e) st endpoints.

(** ** The backing store *)

Definition storage_release_backing (st : storage_state) (i : nat) : storage_state :=
  st <| io_world ::= (fun w => set_record w i (fun r =>
    r <| extents := [] |> <| snapshot ::= (fun s => s <| sn_backing_bytes := 0 |>) |>)) |>.

Definition storage_find_extent (r : kb_usb_storage_record) (index : Z) : option kb_usb_storage_extent :=
  snd <$> list_find (fun x => (x_index x =? index) = true) (extents r).

Definition zero_extent (index : Z) : kb_usb_storage_extent :=
  mk_extent index (replicate (Z.to_nat KB_USB_STORAGE_EXTENT_SIZE) 0).

(** The next answer of [calloc] and the answers after it. *)
Definition next_calloc (answers : list bool) : bool * list bool :=
  match answers with [] => (true, []) | a :: rest => (a, rest) end.

(** Finds the extent or allocates a zeroed one; false when [calloc] fails. *)
Definition storage_ensure_extent (r : kb_usb_storage_record) (answers : list bool) (index : Z)
    : kb_usb_storage_record * list bool * bool :=
  match storage_find_extent r index with
  | Some _ => (r, answers, true)
  | None =>
      let '(ok, answers) := next_calloc answers in
      if negb ok then (r, answers, false)
      else (r <| extents ::= cons (zero_extent index) |>
              <| snapshot ::= (fun s => s <| sn_backing_bytes ::= (fun n => u64 (n + KB_USB_STORAGE_EXTENT_SIZE)) |>) |>,
            answers, true)
  end.

(** [memcpy(extent->data + off, cursor, chunk)] *)
Definition extent_store (r : kb_usb_storage_record) (index off : Z) (data : list Z) : kb_usb_storage_record :=
  r <| extents ::= update_first (fun x => x_index x =? index)
         (fun x => mk_extent (x_index x) (splice (x_data x) off data)) |>.

(** The bytes of the current extent from [offset] on, at most [remaining]. *)
Definition chunk_at (offset remaining : Z) : Z :=
  let chunk := KB_USB_STORAGE_EXTENT_SIZE - offset mod KB_USB_STORAGE_EXTENT_SIZE in
  if remaining <? chunk then remaining else chunk.

(** The loop of [storage_backing_transfer] with [write] set: [data] is what is
    left at [cursor]. *)
Fixpoint backing_write_loop (fuel : nat) (r : kb_usb_storage_record) (answers : list bool)
    (offset : Z) (data : list Z) : kb_usb_storage_record * list bool * Z :=
  match fuel with
  | O => (r, answers, 0)
  | S fuel =>
      if blen data =? 0 then (r, answers, 0)
      else
        let extent_index := offset / KB_USB_STORAGE_EXTENT_SIZE in
        let extent_offset := offset mod KB_USB_STORAGE_EXTENT_SIZE in
        let chunk := chunk_at offset (blen data) in
        match storage_ensure_extent r answers extent_index with
        | (r, answers, false) => (r, answers, -12)
        | (r, answers, true) =>
            backing_write_loop fuel (extent_store r extent_index extent_offset (slice data 0 chunk)) answers
              (u64 (offset + chunk)) (drop (Z.to_nat chunk) data)
        end
  end.

(** The same loop with [write] clear: the bytes stored at [cursor]. *)
Fixpoint backing_read_loop (fuel : nat) (r : kb_usb_storage_record) (offset remaining : Z) : list Z :=
  match fuel with
  | O => []
  | S fuel =>
      if remaining =? 0 then []
      else
        let extent_index := offset / KB_USB_STORAGE_EXTENT_SIZE in
        let extent_offset := offset mod KB_USB_STORAGE_EXTENT_SIZE in
        let chunk := chunk_at offset remaining in
        match storage_find_extent r extent_index with
        | Some extent => slice (x_data extent) extent_offset chunk
        | None => replicate (Z.to_nat chunk) 0
        end ++ backing_read_loop fuel r (u64 (offset + chunk)) (remaining - chunk)
  end.

Definition record_sector_size (r : kb_usb_storage_record) : Z :=
  if negb (sn_sector_size (snapshot r) =? 0) then sn_sector_size (snapshot r)
  else KB_USB_STORAGE_DEFAULT_SECTOR_SIZE.

(** [storage_backing_transfer] for reads and for writes. *)
Definition storage_backing_read (r : kb_usb_storage_record) (sector byte_count : Z) : Z * list Z :=
  if byte_count =? 0 then (-22, [])
  else (0, backing_read_loop (Z.to_nat byte_count) r (u64 (sector * record_sector_size r)) byte_count).

Definition storage_backing_write (r : kb_usb_storage_record) (answers : list bool) (sector : Z) (data : list Z)
    : kb_usb_storage_record * list bool * Z :=
  if blen data =? 0 then (r, answers, -22)
  else backing_write_loop (length data) r answers (u64 (sector * record_sector_size r)) data.

Definition storage_block_read : kb_block_disk_read_fn storage_world := fun ctx w sector byte_count =>
  let i := Z.to_nat ctx in
  let '(result, data) := storage_backing_read (get_record w i) sector byte_count in
  (if result =? 0
   then set_record w i (fun r => r <| snapshot ::= (fun s =>
          s <| sn_read_count ::= (fun n => u64 (n + 1)) |>
            <| sn_bytes_read ::= (fun n => u64 (n + byte_count)) |>) |>)
   else w, result, data).

Definition storage_block_write : kb_block_disk_write_fn storage_world := fun ctx w sector data =>
  let i := Z.to_nat ctx in
  let '(r, answers, result) := storage_backing_write (get_record w i) (extent_callocs w) sector data in
  let w := set_record w i (fun _ => r) <| extent_callocs := answers |> in
  (if result =? 0
   then set_record w i (fun r => r <| snapshot ::= (fun s =>
          s <| sn_write_count ::= (fun n => u64 (n + 1)) |>
            <| sn_bytes_written ::= (fun n => u64 (n + blen data)) |>) |>)
   else w, result).

(** ** The block device of a record *)

Record block_allocs := mk_block_allocs {
  al_tag_set : Z;
  al_queue : Z;
  al_queue_state : bool;
  al_disk : Z;
  al_disk_state : bool;
  al_part0 : Z;
}.

Definition storage_release_block (st : storage_state) (i : nat) : storage_state :=
  let s := snap st i in
  let st := if negb (sn_disk s =? 0) then kb_block_subsystem_disk_unregister st (sn_disk s) else st in
  let st := kb_block_subsystem_object_free st (sn_disk s) in
  let st := kb_block_subsystem_object_free st (sn_part0 s) in
  let st := kb_block_subsystem_object_free st (sn_queue s) in
  let st := set_snap st i (fun s => s <| sn_disk := 0 |> <| sn_part0 := 0 |> <| sn_queue := 0 |>
                                      <| sn_tag_set := 0 |> <| sn_disk_number := 0 |>
                                      <| sn_registered := 0 |>) in
  storage_release_backing st i.

Definition storage_ensure_block (st : storage_state) (al : block_allocs) (i : nat) : storage_state * Z :=
  let s := snap st i in
  if negb (sn_disk s =? 0) then (st, 0)
  else
    let tag_set := al_tag_set al in
    let '(st, queue) := kb_block_subsystem_queue_alloc st tag_set (al_queue al) (al_queue_state al) in
    let '(st, disk) := kb_block_subsystem_disk_alloc st (al_disk al) (al_disk_state al) in
    let part0 := kb_block_subsystem_block_device_alloc (al_part0 al) in
    let free_all st := kb_block_subsystem_object_free
      (kb_block_subsystem_object_free (kb_block_subsystem_object_free st queue) disk) part0 in
    if (tag_set =? 0) || (queue =? 0) || (disk =? 0) || (part0 =? 0) then (free_all st, -12)
    else
      let st := kb_block_subsystem_queue_set_logical_block_size st queue (sn_sector_size s) in
      let st := kb_block_subsystem_queue_set_physical_block_size st queue (sn_sector_size s) in
      let st := kb_block_subsystem_queue_set_io_min st queue (sn_sector_size s) in
      let st := kb_block_subsystem_queue_set_max_hw_sectors st queue 240 in
      let st := kb_block_subsystem_queue_set_max_segments st queue 128 in
      let '(st, r1) := kb_block_subsystem_disk_attach st disk queue part0 in
      if negb (r1 =? 0) then (free_all st, -22)
      else
        let '(st, r2) := kb_block_subsystem_disk_register st (sn_interface s) disk 0 in
        if negb (r2 =? 0) then (free_all st, -22)
        else
          let st := kb_block_subsystem_disk_set_capacity st disk (sn_capacity_sectors s) in
          let st := kb_block_subsystem_disk_set_io st disk (Z.of_nat i) (Some storage_block_read)
                      (Some storage_block_write) in
          let st := match kb_block_subsystem_disk_snapshot st disk true with
                    | (Some d, _) => set_snap st i (fun s => s <| sn_disk_number := d_disk_number d |>)
                    | (None, _) => st
                    end in
          (set_snap st i (fun s => s <| sn_tag_set := tag_set |> <| sn_queue := queue |> <| sn_disk := disk |>
                                     <| sn_part0 := part0 |> <| sn_registered := 1 |>), 0).

(** ** Attaching and removing *)

(** The fields of the interface snapshot that this component reads. *)
Record kb_usb_interface_snapshot := mk_interface {
  if_interface : Z;
  if_udev : Z;
  if_linux_device : Z;
  if_parent_linux_device : Z;
  if_driver : Z;
  if_driver_data : Z;
  if_number : Z;
  if_class : Z;
  if_subclass : Z;
  if_protocol : Z;
}.

Definition kb_usb_storage_subsystem_observe_interface (st : storage_state) (env : option Z)
    (endpoints : list kb_usb_endpoint_snapshot) (al : block_allocs)
    (interface : option kb_usb_interface_snapshot) : storage_state :=
  match interface with
  | None => st
  | Some f =>
      if negb (if_class f =? KB_USB_STORAGE_CLASS_MASS_STORAGE) then st
      else
        match record_for_interface (io_world st) env (if_interface f) with
        | (w, None) => st <| io_world := w |>
        | (w, Some i) =>
            let st := st <| io_world := w |> in
            let st := set_snap st i (fun s =>
              s <| sn_udev := if_udev f |> <| sn_interface := if_interface f |>
                <| sn_linux_device := if_linux_device f |> <| sn_parent_linux_device := if_parent_linux_device f |>
                <| sn_driver := if_driver f |> <| sn_driver_data := if_driver_data f |>
                <| sn_interface_number := if_number f |> <| sn_subclass := if_subclass f |>
                <| sn_protocol := if_protocol f |>) in
            let st := storage_collect_endpoints st endpoints i in
            if storage_driver_registered (io_world st) || negb (if_driver f =? 0) || negb (if_driver_data f =? 0)
            then (storage_ensure_block st al i).1 else st
        end
  end.

Definition kb_usb_storage_subsystem_observe_endpoint (st : storage_state) (al : block_allocs)
    (endpoint : option kb_usb_endpoint_snapshot) : storage_state :=
  match endpoint with
  | None => st
  | Some e =>
      match record_find_by_interface (io_world st) (ep_interface e) with
      | None => st
      | Some i =>
          let st := storage_attach_endpoint st i e in
          if storage_driver_registered (io_world st) || negb (sn_driver (snap st i) =? 0) ||
             negb (sn_driver_data (snap st i) =? 0)
          then (storage_ensure_block st al i).1 else st
      end
  end.

Definition kb_usb_storage_subsystem_remove_interface (st : storage_state) (interface : Z) : storage_state :=
  match record_find_by_interface (io_world st) interface with
  | None => st
  | Some i =>
      let st := storage_release_block st i in
      st <| io_world ::= (fun w => set_record w i (fun _ => zero_record)) |>
  end.

(** [usb_storage] is [module_name_is_usb_storage]; one allocation set per record. *)
Definition kb_usb_storage_subsystem_note_driver_registered (st : storage_state)
    (endpoints : list kb_usb_endpoint_snapshot) (als : nat -> block_allocs) (driver : Z) (usb_storage : bool)
    : storage_state :=
  if negb usb_storage then st
  else
    let st := st <| io_world ::= (fun w => w <| storage_driver_registered := true |>) |> in
    foldl (fun st i =>
      if active (get_record (io_world st) i) then
        let st := set_snap st i (fun s => s <| sn_driver := driver |>) in
        let st := storage_collect_endpoints st endpoints i in
        (storage_ensure_block st (als i) i).1
      else st) st (seq 0 (Z.to_nat KB_USB_STORAGE_MAX)).

Definition kb_usb_storage_subsystem_note_driver_deregistered (st : storage_state) : storage_state :=
  st <| io_world ::= (fun w => w <| storage_driver_registered := false |>) |>.

(** The record a SCSI host belongs to, by the four look-ups in turn. *)
Definition record_for_host (w : storage_world) (host_private dev dma_dev : Z) : option nat :=
  match record_find_by_host_private w host_private with
  | Some i => Some i
  | None =>
      match record_find_by_linux_device w dev with
      | Some i => Some i
      | None =>
          match record_find_by_linux_device w dma_dev with
          | Some i => Some i
          | None => record_only_without_host w
          end
      end
  end.

Definition kb_usb_storage_subsystem_note_scsi_host (st : storage_state) (al : block_allocs)
    (host host_private dev dma_dev : Z) : storage_state :=
  match record_for_host (io_world st) host_private dev dma_dev with
  | None => st
  | Some i =>
      let st := set_snap st i (fun s =>
        let s := s <| sn_scsi_host := host |> <| sn_scsi_host_private := host_private |> in
        let s := if sn_driver_data s =? 0 then s <| sn_driver_data := host_private |> else s in
        s <| sn_add_host_count ::= (fun n => u32 (n + 1)) |>) in
      (storage_ensure_block st al i).1
  end.

Definition kb_usb_storage_subsystem_note_scsi_scan (st : storage_state) (al : block_allocs) (host : Z)
    : storage_state :=
  match record_find_by_host (io_world st) host with
  | None => st
  | Some i =>
      let st := set_snap st i (fun s => s <| sn_scan_count ::= (fun n => u32 (n + 1)) |>) in
      (storage_ensure_block st al i).1
  end.

Definition kb_usb_storage_subsystem_remove_scsi_host (st : storage_state) (host : Z) : storage_state :=
  match record_find_by_host (io_world st) host with
  | None => st
  | Some i =>
      let st := storage_release_block st i in
      set_snap st i (fun s => s <| sn_scsi_host := 0 |> <| sn_scsi_host_private := 0 |>)
  end.

Definition kb_usb_storage_subsystem_synthesize_mass_storage (st : storage_state) (env : option Z)
    (al : block_allocs) (udev interface linux_device parent_linux_device : Z) : storage_state * Z :=
  if interface =? 0 then (st, -22)
  else
    match record_for_interface (io_world st) env interface with
    | (w, None) => (st <| io_world := w |>, -12)
    | (w, Some i) =>
        let st := st <| io_world := w |> in
        let st := set_snap st i (fun s =>
          s <| sn_udev := udev |> <| sn_interface := interface |> <| sn_linux_device := linux_device |>
            <| sn_parent_linux_device := parent_linux_device |> <| sn_interface_number := 0 |>
            <| sn_subclass := 0x06 |> <| sn_protocol := 0x50 |> <| sn_bulk_in_endpoint := 0x81 |>
            <| sn_bulk_out_endpoint := 0x02 |> <| sn_medium_present := 1 |>) in
        if storage_driver_registered (io_world st) || negb (sn_driver (snap st i) =? 0) ||
           negb (sn_driver_data (snap st i) =? 0)
        then storage_ensure_block st al i else (st, 0)
    end.

Definition kb_usb_storage_subsystem_snapshot (st : storage_state) (interface : Z) (out : bool)
    : option kb_usb_storage_snapshot * Z :=
  match record_find_by_interface (io_world st) interface with
  | Some i => if out then (Some (snap st i), 0) else (None, -22)
  | None => (None, -22)
  end.

Definition kb_usb_storage_subsystem_snapshot_by_disk (st : storage_state) (disk : Z) (out : bool)
    : option kb_usb_storage_snapshot * Z :=
  match record_find_by_disk (io_world st) disk with
  | Some i => if out then (Some (snap st i), 0) else (None, -22)
  | None => (None, -22)
  end.

Definition kb_usb_storage_subsystem_count (st : storage_state) : Z :=
  Z.of_nat (length (filter (fun r => active r = true) (storage_records (io_world st)))).

(** ** SCSI commands *)

Definition sense_data (s : kb_usb_storage_snapshot) : list Z :=
  [0x70; 0; sn_last_sense_key s; 0; 0; 0; 0; 10; 0; 0; 0; 0; sn_last_asc s; sn_last_ascq s; 0; 0; 0; 0].

Definition inquiry_data : list Z :=
  [0x00; 0x80; 0x06; 0x02; 31; 0; 0; 0] ++ cstr "KOBOX   " ++ cstr "USB STORAGE     " ++ cstr "0001".

Definition capacity_data (s : kb_usb_storage_snapshot) : list Z :=
  let sectors := sn_capacity_sectors s in
  let last_lba := if sectors =? 0 then 0
                  else if UINT32_MAX <? sectors - 1 then UINT32_MAX else sectors - 1 in
  write_be32 last_lba ++ write_be32 (sn_sector_size s).

(** What a command leaves: the state, the buffer and [*out_result]. *)
Definition scsi_reply : Type := storage_state * option (list Z) * kb_usb_storage_scsi_result.

Definition illegal_request (st : storage_state) (i : nat) (asc : Z) (buffer : option (list Z)) (buffer_len : Z)
    : scsi_reply :=
  let '(st, r) := result_check_condition st i KB_SCSI_SENSE_ILLEGAL_REQUEST asc 0 buffer_len in (st, buffer, r).

(** The data a command returns, copied into the buffer. *)
Definition reply_data (st : storage_state) (data : list Z) (buffer : option (list Z)) (buffer_len : Z) : scsi_reply :=
  let '(buffer, transferred) := copy_limited buffer buffer_len data in
  (st, buffer, result_good transferred buffer_len).

(** READ(10) and WRITE(10). *)
Definition scsi_read_write (st : storage_state) (i : nat) (cdb : list Z) (write : bool)
    (buffer : option (list Z)) (buffer_len : Z) (data_out : bool) : outcome scsi_reply :=
  if blen cdb <? 10 then Done (illegal_request st i KB_SCSI_ASC_INVALID_FIELD_IN_CDB buffer buffer_len)
  else if (write && negb data_out) || (negb write && data_out)
  then Done (illegal_request st i KB_SCSI_ASC_INVALID_FIELD_IN_CDB buffer buffer_len)
  else
    lba ← read_be32 cdb 2;
    blocks ← read_be16 cdb 7;
    let s := snap st i in
    let byte_count := blocks * sn_sector_size s in
    if blocks =? 0 then Done (st, buffer, result_good 0 buffer_len)
    else
      let beyond := sn_capacity_sectors s <? lba + blocks in
      match buffer with
      | None =>
          Done (illegal_request st i (if beyond then KB_SCSI_ASC_LBA_OUT_OF_RANGE
                                      else KB_SCSI_ASC_INVALID_FIELD_IN_CDB) buffer buffer_len)
      | Some b =>
          if (buffer_len <? byte_count) || beyond
          then Done (illegal_request st i (if beyond then KB_SCSI_ASC_LBA_OUT_OF_RANGE
                                           else KB_SCSI_ASC_INVALID_FIELD_IN_CDB) buffer buffer_len)
          else
            let '(st, result, b) :=
              if write then
                let '(st, result) := kb_block_subsystem_disk_write st (sn_disk s) lba (Some (slice b 0 byte_count)) in
                (st, result, b)
              else
                let '(st, result, data) := kb_block_subsystem_disk_read st (sn_disk s) lba true byte_count in
                (st, result, splice b 0 data) in
            if negb (result =? 0)
            then Done (illegal_request st i (if result =? -34 then KB_SCSI_ASC_LBA_OUT_OF_RANGE
                                             else KB_SCSI_ASC_INVALID_FIELD_IN_CDB) (Some b) buffer_len)
            else
              let st := set_snap st i (fun s =>
                if write then s <| sn_scsi_write_command_count ::= (fun n => u64 (n + 1)) |>
                else s <| sn_scsi_read_command_count ::= (fun n => u64 (n + 1)) |>) in
              Done (st, Some b, result_good byte_count buffer_len)
      end.

Definition is_op (opcode : Z) (ops : list Z) : bool := existsb (Z.eqb opcode) ops.

(** [inl] is the return of -22 before any effect. *)
Definition kb_usb_storage_subsystem_scsi_command (st : storage_state) (interface : Z) (cdb : option (list Z))
    (buffer : option (list Z)) (buffer_len : Z) (data_out : bool) : outcome (Z + scsi_reply) :=
  match record_find_by_interface (io_world st) interface, cdb with
  | None, _ | _, None => Done (inl (-22))
  | Some i, Some cdb =>
      if blen cdb =? 0 then Done (inl (-22))
      else
        opcode ← load8 cdb 0;
        let st := set_snap st i (fun s => s <| sn_scsi_command_count ::= (fun n => u64 (n + 1)) |>
                                            <| sn_last_scsi_opcode := opcode |>) in
        if sn_medium_present (snap st i) =? 0 then
          let '(st, r) := result_check_condition st i KB_SCSI_SENSE_NOT_READY 0x3a 0x00 buffer_len in
          Done (inr (st, buffer, r))
        else if is_op opcode [KB_SCSI_OP_TEST_UNIT_READY; KB_SCSI_OP_START_STOP_UNIT; KB_SCSI_OP_SYNCHRONIZE_CACHE_10]
        then Done (inr (st, buffer, result_good 0 buffer_len))
        else if opcode =? KB_SCSI_OP_REQUEST_SENSE
        then Done (inr (reply_data st (sense_data (snap st i)) buffer buffer_len))
        else if opcode =? KB_SCSI_OP_INQUIRY then
          if data_out then Done (inr (illegal_request st i KB_SCSI_ASC_INVALID_FIELD_IN_CDB buffer buffer_len))
          else Done (inr (reply_data st inquiry_data buffer buffer_len))
        else if opcode =? KB_SCSI_OP_MODE_SENSE_6
        then Done (inr (reply_data st [3; 0; 0; 0] buffer buffer_len))
        else if opcode =? KB_SCSI_OP_READ_CAPACITY_10 then
          if data_out then Done (inr (illegal_request st i KB_SCSI_ASC_INVALID_FIELD_IN_CDB buffer buffer_len))
          else Done (inr (reply_data st (capacity_data (snap st i)) buffer buffer_len))
        else if is_op opcode [KB_SCSI_OP_READ_10; KB_SCSI_OP_WRITE_10] then
          r ← scsi_read_write st i cdb (opcode =? KB_SCSI_OP_WRITE_10) buffer buffer_len data_out;
          mret (inr r)
        else Done (inr (illegal_request st i KB_SCSI_ASC_INVALID_COMMAND buffer buffer_len))
  end.

(** ** The bulk-only transport *)

Definition bot_reply : Type := storage_state * option (list Z) * kb_usb_storage_bot_result.

(** A phase error reports the whole transfer as residue. *)
Definition bot_phase_error (st : storage_state) (i : nat) (tag transfer_len : Z) (data : option (list Z)) : bot_reply :=
  (bot_record_status st i tag transfer_len KB_USB_STORAGE_BOT_STATUS_PHASE_ERROR, data,
   bot_fill_csw tag transfer_len KB_USB_STORAGE_BOT_STATUS_PHASE_ERROR 0).

Definition kb_usb_storage_subsystem_bot_transfer (st : storage_state) (interface : Z) (cbw : option (list Z))
    (data : option (list Z)) (data_len : Z) : outcome (Z + bot_reply) :=
  match record_find_by_interface (io_world st) interface, cbw with
  | None, _ | _, None => Done (inl (-22))
  | Some i, Some packet =>
      if blen packet <? KB_USB_STORAGE_BOT_CBW_SIZE then Done (inl (-22))
      else
        signature ← read_le32 packet 0;
        tag ← read_le32 packet 4;
        transfer_len ← read_le32 packet 8;
        flags ← load8 packet 12;
        lun ← load8 packet 13;
        cdb_len ← load8 packet 14;
        if negb (signature =? KB_USB_STORAGE_BOT_CBW_SIGNATURE) || negb (lun =? 0) || (cdb_len =? 0) || (16 <? cdb_len)
        then Done (inl (-22))
        else
          let st := set_snap st i (fun s => s <| sn_bot_command_count ::= (fun n => u64 (n + 1)) |>) in
          let data_out := negb (transfer_len =? 0) && (Z.land flags KB_USB_STORAGE_BOT_FLAG_DATA_IN =? 0) in
          if (data_len <? transfer_len) || (negb (transfer_len =? 0) && bool_decide (data = None))
          then Done (inr (bot_phase_error st i tag transfer_len data))
          else
            reply ← kb_usb_storage_subsystem_scsi_command st interface (Some (slice packet 15 cdb_len))
                      data transfer_len data_out;
            match reply with
            | inl _ => Done (inr (bot_phase_error st i tag transfer_len data))
            | inr (st, data, scsi) =>
                let residue := if transfer_len <? sr_residue scsi then transfer_len else sr_residue scsi in
                let status := if sr_status scsi =? KB_USB_STORAGE_SCSI_STATUS_GOOD
                              then KB_USB_STORAGE_BOT_STATUS_PASSED else KB_USB_STORAGE_BOT_STATUS_FAILED in
                Done (inr (bot_record_status st i tag residue status, data,
                           bot_fill_csw tag residue status (sr_data_transferred scsi)))
            end
  end.

Definition kb_usb_storage_subsystem_bot_reset (st : storage_state) (interface : Z) : storage_state :=
  match record_find_by_interface (io_world st) interface with
  | None => st
  | Some i => set_snap st i (fun s => s <| sn_bot_reset_count ::= (fun n => u64 (n + 1)) |>
                <| sn_last_bot_status := KB_USB_STORAGE_BOT_STATUS_PASSED |> <| sn_last_bot_residue := 0 |>)
  end.

Definition storage_build_bot_cbw (tag transfer_len : Z) (data_in : bool) (cdb : list Z) : list Z :=
  splice (replicate (Z.to_nat KB_USB_STORAGE_BOT_CBW_SIZE) 0) 0
    (write_le32 KB_USB_STORAGE_BOT_CBW_SIGNATURE ++ write_le32 tag ++ write_le32 transfer_len ++
     [if data_in then KB_USB_STORAGE_BOT_FLAG_DATA_IN else 0; 0; u8 (blen cdb)] ++ cdb).
