(* ===== verification/UsbTheorems.v ===== *)
(** * Properties of the USB mass-storage model (UsbStorage.v)

    The sparse extents behave like an array of bytes and discharge the
    [ByteDisk] interface of the block layer. *)

From S2P Require Import Prelude Bytes BlockDevice BlockTheorems UsbStorage.

(** ** Records *)

Lemma get_set_record w i f :
  (i < length (storage_records w))%nat -> get_record (set_record w i f) i = f (get_record w i).
Proof.
  intros Hi. unfold get_record, set_record. cbn. rewrite !nth_lookup, list_lookup_alter_eq.
  by destruct (lookup_lt_is_Some_2 (storage_records w) i Hi) as [r ->].
Qed.

Lemma length_set_record w i f : length (storage_records (set_record w i f)) = length (storage_records w).
Proof. unfold set_record. cbn. apply length_alter. Qed.

(** ** The extents as an array of bytes *)

Definition ext_byte (r : kb_usb_storage_record) (o : Z) : Z :=
  match storage_find_extent r (o / KB_USB_STORAGE_EXTENT_SIZE) with
  | Some x => nth (Z.to_nat (o mod KB_USB_STORAGE_EXTENT_SIZE)) (x_data x) 0
  | None => 0
  end.

Definition extents_ok (r : kb_usb_storage_record) : Prop :=
  Forall (fun x => blen (x_data x) = KB_USB_STORAGE_EXTENT_SIZE) (extents r).

Lemma find_extent_ok r index x :
  extents_ok r -> storage_find_extent r index = Some x -> blen (x_data x) = KB_USB_STORAGE_EXTENT_SIZE.
Proof.
  intros Hok. unfold storage_find_extent. destruct (list_find _ _) as [[i y]|] eqn:E; cbn; [|done].
  intros [= <-]. apply list_find_Some in E as (Hi & _ & _). by apply (Forall_lookup_1 _ _ _ _ Hok Hi).
Qed.

(** A chunk stays in the extent of its offset and makes progress. *)
Lemma chunk_bounds offset remaining :
  0 <= offset -> 0 < remaining ->
  let c := chunk_at offset remaining in
  0 < c <= remaining /\ offset mod 4096 + c <= 4096 /\
  forall k, 0 <= k < c -> (offset + k) / 4096 = offset / 4096 /\ (offset + k) mod 4096 = offset mod 4096 + k.
Proof.
  intros Ho Hr. unfold chunk_at, KB_USB_STORAGE_EXTENT_SIZE.
  pose proof (Z.mod_pos_bound offset 4096 ltac:(lia)) as Hm.
  assert (forall k, 0 <= k < 4096 - offset mod 4096 ->
    (offset + k) / 4096 = offset / 4096 /\ (offset + k) mod 4096 = offset mod 4096 + k) as Hk by (intros; ilia).
  destruct (Z.ltb_spec remaining (4096 - offset mod 4096)); cbv zeta; split_and!; try lia; intros; apply Hk; lia.
Qed.

Lemma read_loop_spec r fuel offset remaining :
  extents_ok r -> 0 <= offset -> 0 <= remaining <= Z.of_nat fuel -> offset + remaining <= UINT64_MAX ->
  length (backing_read_loop fuel r offset remaining) = Z.to_nat remaining /\
  forall j, 0 <= j < remaining ->
    backing_read_loop fuel r offset remaining !! Z.to_nat j = Some (ext_byte r (offset + j)).
Proof.
  intros Hok. revert offset remaining. induction fuel as [|fuel IH]; intros offset remaining Ho Hr Hmax.
  { cbn. split; [lia|intros; lia]. }
  cbn [backing_read_loop]. destruct (Z.eqb_spec remaining 0) as [->|Hne]; [split; [done|intros; lia]|].
  destruct (chunk_bounds offset remaining Ho ltac:(lia)) as (Hc & Hfit & Hsame).
  set (c := chunk_at offset remaining) in *. unfold KB_USB_STORAGE_EXTENT_SIZE in *.
  rewrite u64_small by (unfold is_u64, UINT64_MAX in *; lia).
  destruct (IH (offset + c) (remaining - c)) as [HL Hrest]; [lia|lia|lia|].
  set (piece := match storage_find_extent r (offset / 4096) with Some _ => _ | None => _ end).
  assert (length piece = Z.to_nat c /\ forall j, 0 <= j < c -> piece !! Z.to_nat j = Some (ext_byte r (offset + j)))
    as [HLp Hp].
  { pose proof (Z.mod_pos_bound offset 4096 ltac:(lia)) as Hm. unfold piece, ext_byte, KB_USB_STORAGE_EXTENT_SIZE.
    destruct (storage_find_extent r (offset / 4096)) as [x|] eqn:E.
    - pose proof (find_extent_ok _ _ _ Hok E) as Hx. unfold KB_USB_STORAGE_EXTENT_SIZE in Hx.
      split; [apply length_slice; lia|]. intros j Hj. destruct (Hsame j Hj) as [-> ->]. rewrite E.
      rewrite lookup_slice by lia. rewrite decide_True by lia. rewrite nth_lookup.
      replace (Z.to_nat (offset mod 4096 + j)) with (Z.to_nat (offset mod 4096) + Z.to_nat j)%nat by lia.
      destruct (lookup_lt_is_Some_2 (x_data x) (Z.to_nat (offset mod 4096) + Z.to_nat j)) as [b ->]; [|done].
      unfold blen in Hx. lia.
    - split; [apply length_replicate|]. intros j Hj. destruct (Hsame j Hj) as [-> _]. rewrite E.
      apply lookup_replicate_2. lia. }
  split; [rewrite length_app; lia|]. intros j Hj. destruct (decide (j < c)) as [Hlt|Hge].
  - rewrite lookup_app_l by lia. apply Hp. lia.
  - rewrite lookup_app_r by lia. rewrite HLp.
    replace (Z.to_nat j - Z.to_nat c)%nat with (Z.to_nat (j - c)) by lia.
    rewrite Hrest by lia. do 2 f_equal. lia.
Qed.

Lemma read_loop_map r fuel offset n :
  extents_ok r -> 0 <= offset -> 0 <= n <= Z.of_nat fuel -> offset + n <= UINT64_MAX ->
  backing_read_loop fuel r offset n = map (fun i => ext_byte r (offset + i)) (seqZ 0 n).
Proof.
  intros Hok Ho Hn Hmax. destruct (read_loop_spec r fuel offset n Hok Ho Hn Hmax) as [HL Hl].
  apply list_eq. intros j. change (map ?f ?l) with (f <$> l). rewrite list_lookup_fmap.
  destruct (decide (Z.of_nat j < n)).
  - rewrite lookup_seqZ_lt by lia. cbn [fmap option_fmap option_map]. specialize (Hl (Z.of_nat j) ltac:(lia)).
    by rewrite Nat2Z.id in Hl.
  - rewrite lookup_seqZ_ge by lia. apply lookup_ge_None. lia.
Qed.

(** ** Writing *)

Lemma find_extent_update_other l f index index' :
  index <> index' -> (forall x, x_index (f x) = x_index x) ->
  snd <$> list_find (fun x => (x_index x =? index') = true) (update_first (fun x => x_index x =? index) f l) =
  snd <$> list_find (fun x => (x_index x =? index') = true) l.
Proof.
  intros Hne Hf. induction l as [|x l IH]; [done|]. cbn [update_first].
  destruct (Z.eqb_spec (x_index x) index) as [E|E]; cbn [list_find].
  - rewrite !decide_False; [done| |]; rewrite ?Hf, E; apply not_true_iff_false, Z.eqb_neq; done.
  - destruct (decide ((x_index x =? index') = true)); [done|].
    revert IH. destruct (list_find _ (update_first _ f l)) as [[? ?]|], (list_find _ l) as [[? ?]|]; done.
Qed.

Lemma find_extent_store r index off data index' :
  storage_find_extent (extent_store r index off data) index' =
  if decide (index' = index)
  then (fun x => mk_extent (x_index x) (splice (x_data x) off data)) <$> storage_find_extent r index
  else storage_find_extent r index'.
Proof.
  unfold storage_find_extent, extent_store. cbn [extents set_field]. case_decide as Hd.
  - subst. apply (find_update (fun x => x_index x =? index)). done.
  - by apply find_extent_update_other.
Qed.

Lemma extent_store_ok r index off data :
  extents_ok r -> 0 <= off -> off + blen data <= KB_USB_STORAGE_EXTENT_SIZE ->
  extents_ok (extent_store r index off data).
Proof.
  intros Hok Ho Hl. unfold extents_ok, extent_store. cbn. apply Forall_update_first; [done|].
  intros x Hx. cbn. by rewrite blen_splice by lia.
Qed.

(** Ensuring an extent changes no byte. *)
Lemma ensure_extent_spec r answers index r' answers' ok :
  extents_ok r -> storage_ensure_extent r answers index = (r', answers', ok) ->
  extents_ok r' /\ (forall o, ext_byte r' o = ext_byte r o) /\
  sn_sector_size (snapshot r') = sn_sector_size (snapshot r) /\
  (ok = true -> is_Some (storage_find_extent r' index)).
Proof.
  intros Hok. unfold storage_ensure_extent. destruct (storage_find_extent r index) as [x|] eqn:E.
  { intros [= <- <- <-]. rewrite E. by eauto. }
  destruct (next_calloc answers) as [[|] rest]; cbn [negb]; intros Heq; injection Heq as <- <- <-; [|done].
  assert (forall k, storage_find_extent
    (r <| extents ::= cons (zero_extent index) |>
       <| snapshot ::= (fun s => s <| sn_backing_bytes ::= (fun n => u64 (n + KB_USB_STORAGE_EXTENT_SIZE)) |>) |>) k =
    if decide (k = index) then Some (zero_extent index) else storage_find_extent r k) as Hfind.
  { intros k. unfold storage_find_extent. cbn [extents set_field list_find x_index zero_extent].
    destruct (decide ((index =? k) = true)) as [Hk|Hk].
    - apply Z.eqb_eq in Hk. by rewrite decide_True.
    - rewrite decide_False by (intros ->; by rewrite Z.eqb_refl in Hk).
      by destruct (list_find _ (extents r)) as [[? ?]|]. }
  split_and!.
  - constructor; [|done]. cbn. unfold blen. rewrite length_replicate. done.
  - intros o. unfold ext_byte. rewrite Hfind. case_decide as Hd; [|done].
    rewrite Hd, E. cbn [x_data zero_extent]. rewrite nth_lookup.
    destruct (replicate _ 0 !! _) eqn:El; [|done]. by apply lookup_replicate in El as [-> _].
  - done.
  - intros _. rewrite Hfind, decide_True by done. eauto.
Qed.

(** Storing a chunk inside one extent. *)
Lemma ext_byte_store r offset data o :
  extents_ok r -> is_Some (storage_find_extent r (offset / 4096)) -> 0 <= offset -> 0 <= o ->
  offset mod 4096 + blen data <= 4096 ->
  ext_byte (extent_store r (offset / 4096) (offset mod 4096) data) o =
  if decide (offset <= o < offset + blen data) then nth (Z.to_nat (o - offset)) data 0 else ext_byte r o.
Proof.
  intros Hok [x Hx] Ho Hoo Hfit. unfold ext_byte. rewrite find_extent_store, Hx.
  pose proof (find_extent_ok _ _ _ Hok Hx) as Hlen. unfold KB_USB_STORAGE_EXTENT_SIZE in *.
  pose proof (Z.mod_pos_bound offset 4096 ltac:(lia)). pose proof (Z.mod_pos_bound o 4096 ltac:(lia)).
  assert (0 <= blen data) by (unfold blen; lia).
  destruct (decide (o / 4096 = offset / 4096)) as [Hd|Hd]; cbn [fmap option_fmap option_map x_data].
  - rewrite Hd, Hx. destruct (decide (offset <= o < offset + blen data)) as [Hin|Hout].
    + rewrite nth_splice_in by ilia. f_equal. ilia.
    + rewrite nth_splice_other by ilia. done.
  - rewrite decide_False by (intros ?; ilia). done.
Qed.

Lemma write_loop_spec fuel r answers offset data r' answers' :
  extents_ok r -> 0 <= offset -> (length data <= fuel)%nat -> offset + blen data <= UINT64_MAX ->
  backing_write_loop fuel r answers offset data = (r', answers', 0) ->
  extents_ok r' /\ sn_sector_size (snapshot r') = sn_sector_size (snapshot r) /\
  forall o, 0 <= o -> ext_byte r' o =
    if decide (offset <= o < offset + blen data) then nth (Z.to_nat (o - offset)) data 0 else ext_byte r o.
Proof.
  revert r answers offset data. induction fuel as [|fuel IH]; intros r answers offset data Hok Ho Hf Hmax.
  { destruct data; [|cbn in Hf; lia]. cbn [backing_write_loop]. intros [= <- <-]. split_and!; [done|done|].
    intros o Hoo. by rewrite decide_False by (unfold blen; cbn [length]; lia). }
  cbn [backing_write_loop]. destruct (Z.eqb_spec (blen data) 0) as [Hz|Hne].
  { intros [= <- <-]. split_and!; [done|done|]. intros o Hoo. by rewrite decide_False by lia. }
  assert (0 < blen data) as Hpos by (unfold blen in *; lia).
  destruct (chunk_bounds offset (blen data) Ho Hpos) as (Hc & Hfit & _).
  set (c := chunk_at offset (blen data)) in *. unfold KB_USB_STORAGE_EXTENT_SIZE.
  destruct (storage_ensure_extent r answers (offset / 4096)) as [[r1 a1] ok] eqn:Hens.
  destruct (ensure_extent_spec _ _ _ _ _ _ Hok Hens) as (Hok1 & Hb1 & Hs1 & Hfound).
  destruct ok; [|intros [=]].
  rewrite u64_small by (unfold is_u64, UINT64_MAX in *; lia). intros Hrest.
  assert (blen (slice data 0 c) = c) as Hlc by (unfold blen at 1; rewrite length_slice; lia).
  assert (blen (drop (Z.to_nat c) data) = blen data - c) as Hld by (unfold blen in *; rewrite length_drop; lia).
  pose proof (Z.mod_pos_bound offset 4096 ltac:(lia)) as Hm.
  apply IH in Hrest as (Hok2 & Hs2 & Hb2);
    [|apply extent_store_ok; [done|lia|unfold KB_USB_STORAGE_EXTENT_SIZE; lia]|lia|
      unfold blen in *; rewrite length_drop; lia|lia].
  split_and!; [done|rewrite Hs2; exact Hs1|]. intros o Hoo. rewrite Hb2 by done. rewrite Hld.
  destruct (decide (offset + c <= o < offset + c + (blen data - c))) as [Hin|Hout].
  - rewrite decide_True by lia. rewrite !nth_lookup, lookup_drop. f_equal. f_equal. lia.
  - rewrite ext_byte_store by (done || lia || auto). rewrite Hlc.
    destruct (decide (offset <= o < offset + c)) as [Hin2|].
    + rewrite decide_True by lia. rewrite !nth_lookup, lookup_slice by lia. by rewrite decide_True by lia.
    + rewrite decide_False by lia. apply Hb1.
Qed.

(** With memory for the extents, a write always completes. *)
Lemma write_loop_total fuel r offset data :
  0 <= offset -> (length data <= fuel)%nat -> exists r', backing_write_loop fuel r [] offset data = (r', [], 0).
Proof.
  revert r offset data. induction fuel as [|fuel IH]; intros r offset data Ho Hf; cbn [backing_write_loop]; [eauto|].
  destruct (Z.eqb_spec (blen data) 0) as [|Hne]; [eauto|].
  assert (0 < blen data) as Hpos by (unfold blen in *; lia).
  destruct (chunk_bounds offset (blen data) Ho Hpos) as (Hc & _).
  unfold storage_ensure_extent. cbn [next_calloc negb].
  destruct (storage_find_extent _ _); apply IH; [exact (proj1 (u64_range _))| |exact (proj1 (u64_range _))|];
    rewrite length_drop; lia.
Qed.

Definition record_ready (r : kb_usb_storage_record) : Prop :=
  extents_ok r /\ record_sector_size r = 512.

Lemma backing_write_spec r answers sector data r' answers' :
  record_ready r -> 0 <= sector -> 0 < blen data -> sector * 512 + blen data <= UINT64_MAX ->
  storage_backing_write r answers sector data = (r', answers', 0) ->
  record_ready r' /\ forall o, 0 <= o -> ext_byte r' o =
    if decide (sector * 512 <= o < sector * 512 + blen data)
    then nth (Z.to_nat (o - sector * 512)) data 0 else ext_byte r o.
Proof.
  intros [Hok Hss] Hs Hd Hmax. unfold storage_backing_write. rewrite (proj2 (Z.eqb_neq (blen data) 0)) by lia.
  rewrite Hss, u64_small by (unfold is_u64, UINT64_MAX in *; lia). intros Hw.
  apply write_loop_spec in Hw as (Hok' & Hs' & Hb); [|done|lia|done|done].
  split; [|done]. split; [done|]. unfold record_sector_size in *. by rewrite Hs'.
Qed.

Lemma backing_read_spec r sector n :
  record_ready r -> 0 <= sector -> 0 < n -> sector * 512 + n <= UINT64_MAX ->
  storage_backing_read r sector n = (0, map (fun i => ext_byte r (sector * 512 + i)) (seqZ 0 n)).
Proof.
  intros [Hok Hss] Hs Hn Hmax. unfold storage_backing_read. rewrite (proj2 (Z.eqb_neq n 0)) by lia.
  rewrite Hss, u64_small by (unfold is_u64, UINT64_MAX in *; lia). by rewrite read_loop_map by (done || lia).
Qed.

(** The sparse backing store of a record is an array of bytes that starts
    out zero: after a write that reports success a read of any range returns the
    written bytes inside the written range and the previous bytes outside it
    (zero where nothing was ever written), and a write reports failure only when
    memory for an extent runs out. *)
Theorem usb_backing_is_byte_array r answers sector data :
  record_ready r -> 0 <= sector -> 0 < blen data -> sector * 512 + blen data <= UINT64_MAX ->
  (forall r' answers', storage_backing_write r answers sector data = (r', answers', 0) ->
     record_ready r' /\
     forall k n, 0 <= k -> 0 < n -> k * 512 + n <= UINT64_MAX ->
       storage_backing_read r' k n =
       (0, map (fun i => let o := k * 512 + i in
                  if decide (sector * 512 <= o < sector * 512 + blen data)
                  then nth (Z.to_nat (o - sector * 512)) data 0 else ext_byte r o) (seqZ 0 n))) /\
  (exists r', storage_backing_write r [] sector data = (r', [], 0)) /\
  (extents r = [] -> forall o, ext_byte r o = 0).
Proof.
  intros Hr Hs Hd Hmax. split_and!.
  - intros r' answers' Hw. destruct (backing_write_spec _ _ _ _ _ _ Hr Hs Hd Hmax Hw) as [Hr' Hb].
    split; [done|]. intros k n Hk Hn Hkn. rewrite backing_read_spec by done. f_equal.
    apply map_seqZ_ext. intros i Hi. apply Hb. lia.
  - unfold storage_backing_write. rewrite (proj2 (Z.eqb_neq (blen data) 0)) by lia.
    apply write_loop_total; [exact (proj1 (u64_range _))|done].
  - intros He o. unfold ext_byte, storage_find_extent. by rewrite He.
Qed.

Definition fresh_record : kb_usb_storage_record :=
  mk_record true (zero_snapshot <| sn_interface := 0x40 |> <| sn_sector_size := 512 |>
                   <| sn_capacity_sectors := 64 |> <| sn_medium_present := 1 |>) [].

Lemma usb_backing_is_byte_array_witness :
  exists r', storage_backing_write fresh_record [] 7 (replicate 1024 9) = (r', [], 0) /\
    storage_backing_read r' 8 1024 = (0, replicate 512 9 ++ replicate 512 0).
Proof.
  destruct (usb_backing_is_byte_array fresh_record [] 7 (replicate 1024 9)) as (H & (r' & Hw) & _).
  - split; [constructor|reflexivity].
  - lia.
  - reflexivity.
  - vm_compute. discriminate.
  - exists r'. split; [exact Hw|].
    destruct (H r' [] Hw) as [_ Hread]. rewrite (Hread 8 1024) by (lia || (vm_compute; discriminate)).
    vm_compute. reflexivity.
Defined.

(** ** The callbacks keep bytes *)

Definition world_ready (i : nat) (w : storage_world) : Prop :=
  (i < length (storage_records w))%nat /\ record_ready (get_record w i).

Lemma count_keeps_bytes r f :
  (forall s, sn_sector_size (f s) = sn_sector_size s) ->
  (forall o, ext_byte (r <| snapshot ::= f |>) o = ext_byte r o) /\
  (record_ready r -> record_ready (r <| snapshot ::= f |>)).
Proof.
  intros Hf. split; [done|]. intros [Hok Hs]. split; [done|]. unfold record_sector_size in *. cbn. by rewrite Hf.
Qed.

Lemma storage_read_law i w sector n :
  world_ready i w -> 0 <= sector -> 0 < n -> sector * 512 + n <= UINT64_MAX ->
  exists w', storage_block_read (Z.of_nat i) w sector n =
    (w', 0, map (fun k => ext_byte (get_record w i) (sector * 512 + k)) (seqZ 0 n)) /\
    world_ready i w' /\ forall o, ext_byte (get_record w' i) o = ext_byte (get_record w i) o.
Proof.
  intros [Hi Hr] Hs Hn Hmax. unfold storage_block_read. rewrite Nat2Z.id, backing_read_spec by done.
  cbn [Z.eqb]. eexists. split; [done|]. rewrite get_set_record by done.
  match goal with |- context [?r <| snapshot ::= ?f |>] => destruct (count_keeps_bytes r f) as [Hb Hk] end; [done|].
  split; [|done]. split; [by rewrite length_set_record|]. rewrite get_set_record by done. by apply Hk.
Qed.

Lemma storage_write_law i w sector data w' :
  world_ready i w -> 0 <= sector -> 0 < blen data -> sector * 512 + blen data <= UINT64_MAX ->
  storage_block_write (Z.of_nat i) w sector data = (w', 0) ->
  world_ready i w' /\ forall o, 0 <= o -> ext_byte (get_record w' i) o =
    if decide (sector * 512 <= o < sector * 512 + blen data)
    then nth (Z.to_nat (o - sector * 512)) data 0 else ext_byte (get_record w i) o.
Proof.
  intros [Hi Hr] Hs Hd Hmax. unfold storage_block_write. rewrite Nat2Z.id.
  destruct (storage_backing_write _ _ _ _) as [[r1 a1] result] eqn:Hw.
  intros Heq. pose proof (f_equal snd Heq) as Hres. pose proof (f_equal fst Heq) as Hw'.
  cbn [fst snd] in Hres, Hw'. subst result. cbn [Z.eqb] in Hw'.
  destruct (backing_write_spec _ _ _ _ _ _ Hr Hs Hd Hmax Hw) as [Hr1 Hb1].
  set (w1 := set_record w i (fun _ => r1) <| extent_callocs := a1 |>) in Hw'.
  assert (get_record w1 i = r1) as Hg1 by (exact (get_set_record w i (fun _ => r1) Hi)).
  assert (length (storage_records w1) = length (storage_records w)) as HL1 by (exact (length_set_record w i _)).
  assert (i < length (storage_records w1))%nat as Hi1 by (rewrite HL1; exact Hi).
  clearbody w1. subst w'. rewrite (get_set_record w1 i _ Hi1), Hg1.
  match goal with |- context [?r <| snapshot ::= ?f |>] => destruct (count_keeps_bytes r f) as [Hb Hk] end; [done|].
  split; [|intros o Hoo; rewrite Hb; by apply Hb1]. split; [by rewrite length_set_record|].
  rewrite (get_set_record w1 i _ Hi1), Hg1. by apply Hk.
Qed.

#[export] Instance storage_byte_disk (i : nat) :
    ByteDisk (Z.of_nat i) storage_block_read storage_block_write := {
  bd_ok := world_ready i;
  bd_byte := fun w o => ext_byte (get_record w i) o;
  bd_read := storage_read_law i;
  bd_write := storage_write_law i;
}.
