(* ===== verification/UsbCommands.v ===== *)
(** * SCSI commands and the bulk-only transport, end to end (UsbStorage.v)

    A disk attached to a record serves WRITE(10) and READ(10) through the block
    layer and the sparse extents; errors are reported through sense data; the
    bulk-only transport wraps a command in a command block and its result in a
    status block; attaching an interface sets all of this up. *)

From S2P Require Import Prelude Bytes BlockDevice BlockTheorems UsbStorage UsbTheorems.

(** ** What identifies a record

    I/O changes a record's counters and extents, never these fields. *)

Definition identity (r : kb_usb_storage_record) : bool * Z * Z * Z * Z * Z :=
  (active r, sn_interface (snapshot r), sn_medium_present (snapshot r), sn_sector_size (snapshot r),
   sn_disk (snapshot r), sn_capacity_sectors (snapshot r)).

Definition identities (w : storage_world) : list (bool * Z * Z * Z * Z * Z) :=
  identity <$> storage_records w.

(** What the look-up by interface reads. *)
Definition find_key (r : kb_usb_storage_record) : bool * Z := (active r, sn_interface (snapshot r)).

Lemma find_by_keys w w' interface :
  find_key <$> storage_records w' = find_key <$> storage_records w ->
  record_find_by_interface w' interface = record_find_by_interface w interface.
Proof.
  intros H. unfold record_find_by_interface. destruct (interface =? 0); [done|].
  assert (forall v, record_find v (fun s => sn_interface s =? interface) =
    fst <$> list_find (fun x : bool * Z => x.1 && (x.2 =? interface) = true) (find_key <$> storage_records v)) as Hf.
  { intros v. unfold record_find. rewrite list_find_fmap, <- option_fmap_compose.
    by destruct (list_find _ (storage_records v)) as [[? ?]|]. }
  by rewrite !Hf, H.
Qed.

Lemma find_by_identities w w' interface :
  identities w' = identities w -> record_find_by_interface w' interface = record_find_by_interface w interface.
Proof.
  intros H. apply find_by_keys. apply (f_equal (fmap (fun x : bool * Z * Z * Z * Z * Z => x.1.1.1.1))) in H.
  unfold identities in H. by rewrite <- !list_fmap_compose in H.
Qed.

Lemma identities_set_record w i f :
  (forall r, storage_records w !! i = Some r -> identity (f r) = identity r) ->
  identities (set_record w i f) = identities w.
Proof.
  intros Hf. unfold identities, set_record. cbn [storage_records set_field]. apply list_eq. intros j.
  rewrite !list_lookup_fmap, list_lookup_alter. case_decide as Hd; [|done]. subst j.
  destruct (storage_records w !! i) as [r|] eqn:E; [|done]. cbn. by rewrite Hf.
Qed.

Lemma get_record_lookup w i r : storage_records w !! i = Some r -> get_record w i = r.
Proof. intros H. unfold get_record. by rewrite nth_lookup, H. Qed.

Lemma identities_get w w' i :
  identities w' = identities w -> (i < length (storage_records w))%nat ->
  identity (get_record w' i) = identity (get_record w i).
Proof.
  intros H Hi. pose proof (f_equal (fun l => l !! i) H) as Hl. unfold identities in Hl.
  cbn beta in Hl. rewrite !list_lookup_fmap in Hl.
  destruct (lookup_lt_is_Some_2 (storage_records w) i Hi) as [r Hr]. rewrite Hr in Hl.
  destruct (storage_records w' !! i) as [r'|] eqn:Hr'; [|done].
  rewrite (get_record_lookup _ _ _ Hr), (get_record_lookup _ _ _ Hr').
  exact (f_equal (from_option id (identity r)) Hl).
Qed.

Lemma identities_length w w' :
  identities w' = identities w -> length (storage_records w') = length (storage_records w).
Proof. intros H%(f_equal length). unfold identities in H. by rewrite !length_fmap in H. Qed.

Lemma write_loop_identity fuel r answers offset data :
  identity (backing_write_loop fuel r answers offset data).1.1 = identity r.
Proof.
  revert r answers offset data. induction fuel as [|fuel IH]; intros r answers offset data; cbn [backing_write_loop]; [done|].
  destruct (blen data =? 0); [done|]. unfold storage_ensure_extent.
  destruct (storage_find_extent _ _); [by rewrite IH|].
  destruct (next_calloc answers) as [[|] rest]; cbn [negb]; [by rewrite IH|done].
Qed.

Lemma block_write_identities i w sector data :
  identities (storage_block_write (Z.of_nat i) w sector data).1 = identities w.
Proof.
  unfold storage_block_write. rewrite Nat2Z.id.
  assert (identity (storage_backing_write (get_record w i) (extent_callocs w) sector data).1.1 =
          identity (get_record w i)) as Hid.
  { unfold storage_backing_write. destruct (blen data =? 0); [done|]. apply write_loop_identity. }
  destruct (storage_backing_write _ _ _ _) as [[r answers] result]. cbn [fst snd] in *.
  assert (identities (set_record w i (fun _ => r) <| extent_callocs := answers |>) = identities w) as H.
  { apply (identities_set_record w i (fun _ => r)). intros r0 Hr0. rewrite Hid. by rewrite (get_record_lookup _ _ _ Hr0). }
  destruct (result =? 0); [|exact H]. rewrite <- H. by apply identities_set_record.
Qed.

Lemma block_read_identities i w sector n :
  identities (storage_block_read (Z.of_nat i) w sector n).1.1 = identities w.
Proof.
  unfold storage_block_read. destruct (storage_backing_read _ _ _) as [result data]. cbn [fst snd].
  destruct (result =? 0); [|done]. by apply identities_set_record.
Qed.

(** ** An attached disk *)

(** The record at index [i] serves [interface] with 512-byte sectors through
    the disk record [s] of the block layer. *)
Record storage_attached (st : storage_state) (interface : Z) (i : nat) (s : kb_block_disk_state storage_world) : Prop := {
  at_found : record_find_by_interface (io_world st) interface = Some i;
  at_medium : sn_medium_present (snap st i) <> 0;
  at_sector_size : sn_sector_size (snap st i) = 512;
  at_ready : world_ready i (io_world st);
  at_disk : disk_state_for st (sn_disk (snap st i)) = Some s;
  at_wired : wired (Z.of_nat i) storage_block_read storage_block_write s;
  at_capacity : sn_capacity_sectors (snap st i) = d_capacity_sectors s;
  at_bytes : d_capacity_sectors s * 512 <= UINT64_MAX;
  at_block_size : disk_logical_block_size st (Some s) = 512;
  at_sizes : block_sizes_ok st;
}.

(** Being attached survives every change that keeps the records' identities,
    the disk record's wiring and the queues. *)
Lemma attached_mono st st' interface i s s' :
  storage_attached st interface i s ->
  identities (io_world st') = identities (io_world st) -> world_ready i (io_world st') ->
  queues st' = queues st ->
  disk_state_for st' (sn_disk (snap st i)) = Some s' ->
  wired (Z.of_nat i) storage_block_read storage_block_write s' ->
  d_capacity_sectors s' = d_capacity_sectors s -> d_queue s' = d_queue s ->
  storage_attached st' interface i s'.
Proof.
  intros [Hf Hm Hss Hr Hd Hw Hc Hb Hl Hz] Hid Hr' Hq Hd' Hw' Hc' Hq'.
  pose proof (identities_get _ _ i Hid (proj1 Hr)) as He. unfold identity in He.
  injection He as _ _ Hm' Hss' Hdisk Hcap.
  fold (snap st' i) (snap st i) in Hm', Hss', Hdisk, Hcap. constructor; rewrite ?Hm', ?Hss', ?Hdisk, ?Hcap, ?Hc'; try done.
  - rewrite <- Hf. by apply find_by_identities.
  - rewrite <- Hl. unfold disk_logical_block_size, queue_state_for. by rewrite Hq, Hq'.
  - unfold block_sizes_ok. by rewrite Hq.
Qed.

(** Bookkeeping in the record keeps the disk attached. *)
Lemma attached_set_snap st interface i s f :
  storage_attached st interface i s ->
  (forall r, identity (r <| snapshot ::= f |>) = identity r) ->
  storage_attached (set_snap st i f) interface i s /\
  forall o, ext_byte (get_record (io_world (set_snap st i f)) i) o = ext_byte (get_record (io_world st) i) o.
Proof.
  intros Hat Hf. pose proof (at_ready _ _ _ _ Hat) as [Hi Hr].
  assert (get_record (io_world (set_snap st i f)) i = get_record (io_world st) i <| snapshot ::= f |>) as Hg
    by (exact (get_set_record (io_world st) i _ Hi)).
  assert (sn_sector_size (f (snapshot (get_record (io_world st) i))) = sn_sector_size (snapshot (get_record (io_world st) i)))
    as Hss by (pose proof (Hf (get_record (io_world st) i)) as E; injection E; done).
  split; [|intros o; by rewrite Hg]. apply (attached_mono st _ interface i s s); try done; try apply Hat.
  - by apply identities_set_record.
  - split; [exact (eq_ind_r (lt i) Hi (length_set_record (io_world st) i _))|]. rewrite Hg.
    split; [apply Hr|]. destruct Hr as [_ Hr]. unfold record_sector_size in *. cbn. by rewrite Hss.
Qed.

(** ** Disk I/O on an attached disk *)

Lemma attached_range st interface i s sector n :
  storage_attached st interface i s -> 0 < n -> (sector + n) <= d_capacity_sectors s ->
  request_in_range st s sector (n * 512).
Proof.
  intros Hat Hn Hc. unfold request_in_range. rewrite (at_block_size _ _ _ _ Hat).
  pose proof (at_bytes _ _ _ _ Hat). split_and!; [lia|lia|lia|by exists sector|by exists n].
Qed.

Lemma attached_write st interface i s sector n data :
  storage_attached st interface i s -> extent_callocs (io_world st) = [] ->
  0 <= sector -> 0 < n -> sector + n <= d_capacity_sectors s -> blen data = n * 512 ->
  exists st1, kb_block_subsystem_disk_write st (sn_disk (snap st i)) sector (Some data) = (st1, 0) /\
    storage_attached st1 interface i (count_writes 1 (blen data) s) /\ extent_callocs (io_world st1) = [] /\
    forall o, 0 <= o -> ext_byte (get_record (io_world st1) i) o =
      if decide (sector * 512 <= o < sector * 512 + blen data)
      then nth (Z.to_nat (o - sector * 512)) data 0 else ext_byte (get_record (io_world st) i) o.
Proof.
  intros Hat Hcall Hs Hn Hc Hlen. pose proof (attached_range _ _ _ _ _ _ Hat Hn Hc) as Hin.
  rewrite <- Hlen in Hin. destruct (at_wired _ _ _ _ Hat) as (Hl & Hro & Hctx & Hrd & Hwr & Hfl).
  pose proof (at_bytes _ _ _ _ Hat) as Hmax.
  rewrite (disk_write_accepted st _ s sector data storage_block_write); try done; try apply Hat.
  rewrite Hctx. pose proof (block_write_identities i (io_world st) sector data) as Hid.
  destruct (storage_block_write (Z.of_nat i) (io_world st) sector data) as [w result] eqn:Hw. cbn [fst snd] in *.
  assert (result = 0 /\ extent_callocs w = []) as [-> Hcall'].
  { revert Hw. unfold storage_block_write, storage_backing_write. rewrite (proj2 (Z.eqb_neq (blen data) 0)) by lia.
    rewrite Hcall. edestruct (write_loop_total (length data)) as [r' ->]; [|done|].
    - exact (proj1 (u64_range _)).
    - intros E. exact (conj (eq_sym (f_equal snd E)) (f_equal (fun x => extent_callocs x.1) (eq_sym E))). }
  destruct (storage_write_law i (io_world st) sector data w) as [Hready Hb]; [apply Hat|done|lia|lia|done|].
  cbn [Z.eqb]. eexists. split; [done|]. rewrite io_world_with. split; [|split; [exact Hcall'|exact Hb]].
  eapply attached_mono; [exact Hat|rewrite io_world_with; done..|by rewrite with_disk_queues| |done|done|done].
  rewrite disk_state_for_with by done. exact (f_equal (fmap (count_writes 1 (blen data))) (at_disk _ _ _ _ Hat)).
Qed.

Lemma attached_read st interface i s sector n :
  storage_attached st interface i s -> 0 <= sector -> 0 < n -> sector + n <= d_capacity_sectors s ->
  exists st1, kb_block_subsystem_disk_read st (sn_disk (snap st i)) sector true (n * 512) =
    (st1, 0, map (fun k => ext_byte (get_record (io_world st) i) (sector * 512 + k)) (seqZ 0 (n * 512))) /\
    storage_attached st1 interface i (count_read (n * 512) s) /\
    extent_callocs (io_world st1) = extent_callocs (io_world st) /\
    forall o, ext_byte (get_record (io_world st1) i) o = ext_byte (get_record (io_world st) i) o.
Proof.
  intros Hat Hs Hn Hc. pose proof (attached_range _ _ _ _ _ _ Hat Hn Hc) as Hin.
  destruct (at_wired _ _ _ _ Hat) as (Hl & Hro & Hctx & Hrd & Hwr & Hfl).
  pose proof (at_bytes _ _ _ _ Hat) as Hmax.
  rewrite (disk_read_accepted st _ s sector (n * 512) storage_block_read); try done; try apply Hat; [|lia].
  rewrite Hctx. pose proof (block_read_identities i (io_world st) sector (n * 512)) as Hid.
  destruct (storage_read_law i (io_world st) sector (n * 512)) as (w & Hr & Hready & Hb); [apply Hat|done|lia|lia|].
  assert (extent_callocs w = extent_callocs (io_world st)) as Hcall.
  { change w with ((w, 0, map (fun k => ext_byte (get_record (io_world st) i) (sector * 512 + k)) (seqZ 0 (n * 512))).1.1).
    rewrite <- Hr. unfold storage_block_read. destruct (storage_backing_read _ _ _) as [result ?].
    cbn. by destruct (result =? 0). }
  rewrite Hr in *. cbn [fst snd Z.eqb] in *. eexists. split; [done|]. rewrite io_world_with.
  split; [|split; [exact Hcall|exact Hb]].
  eapply attached_mono; [exact Hat|rewrite io_world_with; done..|by rewrite with_disk_queues| |done|done|done].
  rewrite disk_state_for_with by done. exact (f_equal (fmap (count_read (n * 512))) (at_disk _ _ _ _ Hat)).
Qed.

(** ** READ(10) and WRITE(10) *)

(** The ten-byte command block of a read or write. *)
Definition rw10 (opcode lba blocks : Z) : list Z :=
  [opcode; 0] ++ write_be32 lba ++ [0; u8 (Z.shiftr blocks 8); u8 blocks; 0].

Lemma rw10_fields opcode lba blocks :
  is_u32 lba -> is_u16 blocks ->
  read_be32 (rw10 opcode lba blocks) 2 = Done lba /\ read_be16 (rw10 opcode lba blocks) 7 = Done blocks.
Proof.
  intros Hl Hb. split; [apply read_write_be32|apply read_write_be16]; (done || (split; [lia|reflexivity])).
Qed.

(** What counting a command does to a record. *)
Definition count_command (opcode : Z) (s : kb_usb_storage_snapshot) : kb_usb_storage_snapshot :=
  s <| sn_scsi_command_count ::= (fun n => u64 (n + 1)) |> <| sn_last_scsi_opcode := opcode |>.

Lemma scsi_dispatch st interface i s opcode lba blocks buffer buffer_len data_out :
  storage_attached st interface i s -> is_op opcode [KB_SCSI_OP_READ_10; KB_SCSI_OP_WRITE_10] = true ->
  kb_usb_storage_subsystem_scsi_command st interface (Some (rw10 opcode lba blocks)) buffer buffer_len data_out =
  (r ← scsi_read_write (set_snap st i (count_command opcode)) i (rw10 opcode lba blocks)
         (opcode =? KB_SCSI_OP_WRITE_10) buffer buffer_len data_out; mret (inr r)).
Proof.
  intros Hat Hop. unfold kb_usb_storage_subsystem_scsi_command. rewrite (at_found _ _ _ _ Hat).
  change (load8 (rw10 opcode lba blocks) 0) with (Done opcode). mred. change (blen (rw10 _ _ _) =? 0) with false.
  cbv iota. fold (count_command opcode). change (fun s0 => set_field _ _ _) with (count_command opcode).
  destruct (attached_set_snap _ _ _ _ (count_command opcode) Hat) as [Hat1 _]; [done|].
  rewrite (proj2 (Z.eqb_neq _ _) (at_medium _ _ _ _ Hat1)). rewrite Hop.
  cbn in Hop. rewrite orb_false_r in Hop. apply orb_true_iff in Hop as [H|H]; apply Z.eqb_eq in H as ->; reflexivity.
Qed.

(** ** The abstract disk: an array of bytes *)

Definition mem_write (mem : Z -> Z) (lba : Z) (data : list Z) (o : Z) : Z :=
  if decide (lba * 512 <= o < lba * 512 + blen data) then nth (Z.to_nat (o - lba * 512)) data 0 else mem o.

Definition mem_read (mem : Z -> Z) (lba blocks : Z) : list Z :=
  map (fun k => mem (lba * 512 + k)) (seqZ 0 (blocks * 512)).

(** The record at [i] serves [interface] as a disk of [capacity] sectors that
    holds [mem], with memory for its extents. *)
Definition serves (st : storage_state) (interface : Z) (i : nat) (capacity : Z) (mem : Z -> Z) : Prop :=
  exists s, storage_attached st interface i s /\ d_capacity_sectors s = capacity /\
    extent_callocs (io_world st) = [] /\ forall o, 0 <= o -> ext_byte (get_record (io_world st) i) o = mem o.

Lemma serves_set_snap st interface i capacity mem f :
  serves st interface i capacity mem -> (forall r, identity (r <| snapshot ::= f |>) = identity r) ->
  serves (set_snap st i f) interface i capacity mem.
Proof.
  intros (s & Hat & Hc & Hcall & Hb) Hf. destruct (attached_set_snap _ _ _ _ f Hat Hf) as [Hat' Hb'].
  exists s. split_and!; [done|done|done|]. intros o Ho. rewrite Hb'. by apply Hb.
Qed.

(** A request for whole sectors inside the disk. *)
Definition request_fits (capacity lba blocks : Z) : Prop :=
  is_u32 lba /\ is_u16 blocks /\ 0 < blocks /\ lba + blocks <= capacity.

(** The guards of READ(10)/WRITE(10) let a fitting request through. *)
Lemma read_write_guards st interface i s lba blocks (write : bool) b buffer_len :
  storage_attached st interface i s -> request_fits (d_capacity_sectors s) lba blocks -> blocks * 512 <= buffer_len ->
  scsi_read_write st i (rw10 (if write then KB_SCSI_OP_WRITE_10 else KB_SCSI_OP_READ_10) lba blocks) write
    (Some b) buffer_len write =
  let '(st, result, b) :=
    if write then
      let '(st, result) := kb_block_subsystem_disk_write st (sn_disk (snap st i)) lba (Some (slice b 0 (blocks * 512))) in
      (st, result, b)
    else
      let '(st, result, data) := kb_block_subsystem_disk_read st (sn_disk (snap st i)) lba true (blocks * 512) in
      (st, result, splice b 0 data) in
  if negb (result =? 0)
  then Done (illegal_request st i (if result =? -34 then KB_SCSI_ASC_LBA_OUT_OF_RANGE
                                   else KB_SCSI_ASC_INVALID_FIELD_IN_CDB) (Some b) buffer_len)
  else
    let st := set_snap st i (fun s =>
      if write then s <| sn_scsi_write_command_count ::= (fun n => u64 (n + 1)) |>
      else s <| sn_scsi_read_command_count ::= (fun n => u64 (n + 1)) |>) in
    Done (st, Some b, result_good (blocks * 512) buffer_len).
Proof.
  intros Hat (Hl & Hb & Hpos & Hc) Hlen. unfold scsi_read_write.
  destruct (rw10_fields (if write then KB_SCSI_OP_WRITE_10 else KB_SCSI_OP_READ_10) lba blocks Hl Hb) as [-> ->].
  change (blen (rw10 _ _ _) <? 10) with false. cbv iota. mred.
  assert ((write && negb write) || (negb write && write) = false) as -> by (by destruct write).
  rewrite (proj2 (Z.eqb_neq blocks 0)) by lia. cbv zeta.
  rewrite (at_sector_size _ _ _ _ Hat), (at_capacity _ _ _ _ Hat).
  rewrite (proj2 (Z.ltb_ge buffer_len (blocks * 512))) by lia.
  rewrite (proj2 (Z.ltb_ge (d_capacity_sectors s) (lba + blocks))) by lia. done.
Qed.

Lemma scsi_write_ok st interface i capacity mem lba blocks b buffer_len :
  serves st interface i capacity mem -> request_fits capacity lba blocks ->
  blocks * 512 <= buffer_len -> buffer_len <= blen b ->
  exists st1, kb_usb_storage_subsystem_scsi_command st interface (Some (rw10 KB_SCSI_OP_WRITE_10 lba blocks))
      (Some b) buffer_len true = Done (inr (st1, Some b, result_good (blocks * 512) buffer_len)) /\
    serves st1 interface i capacity (mem_write mem lba (slice b 0 (blocks * 512))).
Proof.
  intros (s & Hat & <- & Hcall & Hb) Hfit Hlen Hbuf. rewrite (scsi_dispatch _ _ _ _ _ _ _ _ _ _ Hat) by done.
  destruct (attached_set_snap _ _ _ _ (count_command KB_SCSI_OP_WRITE_10) Hat) as [Hat1 Hb1]; [done|].
  set (st1 := set_snap st i _) in *. assert (extent_callocs (io_world st1) = []) as Hcall1 by exact Hcall. clearbody st1.
  change (KB_SCSI_OP_WRITE_10 =? KB_SCSI_OP_WRITE_10) with true.
  rewrite (read_write_guards st1 interface i s lba blocks true b buffer_len Hat1 Hfit Hlen).
  destruct Hfit as (Hl & Hn & Hpos & Hc). unfold is_u32 in Hl.
  assert (blen (slice b 0 (blocks * 512)) = blocks * 512) as HL by (unfold blen at 1; rewrite length_slice; lia).
  destruct (attached_write st1 interface i s lba blocks (slice b 0 (blocks * 512)) Hat1 Hcall1) as (st2 & -> & Hat2 & Hcall2 & Hb2);
    [lia|done|done|done|].
  cbn [Z.eqb negb]. mred. eexists. split; [done|]. apply serves_set_snap; [|done].
  eexists. split; [exact Hat2|]. split_and!; [done|done|]. intros o Ho. rewrite Hb2 by done.
  unfold mem_write. case_decide; [done|]. rewrite Hb1. by apply Hb.
Qed.

Lemma scsi_read_ok st interface i capacity mem lba blocks b buffer_len :
  serves st interface i capacity mem -> request_fits capacity lba blocks -> blocks * 512 <= buffer_len ->
  exists st1, kb_usb_storage_subsystem_scsi_command st interface (Some (rw10 KB_SCSI_OP_READ_10 lba blocks))
      (Some b) buffer_len false =
      Done (inr (st1, Some (splice b 0 (mem_read mem lba blocks)), result_good (blocks * 512) buffer_len)) /\
    serves st1 interface i capacity mem.
Proof.
  intros (s & Hat & <- & Hcall & Hb) Hfit Hlen. rewrite (scsi_dispatch _ _ _ _ _ _ _ _ _ _ Hat) by done.
  destruct (attached_set_snap _ _ _ _ (count_command KB_SCSI_OP_READ_10) Hat) as [Hat1 Hb1]; [done|].
  set (st1 := set_snap st i _) in *. assert (extent_callocs (io_world st1) = []) as Hcall1 by exact Hcall. clearbody st1.
  change (KB_SCSI_OP_READ_10 =? KB_SCSI_OP_WRITE_10) with false.
  rewrite (read_write_guards st1 interface i s lba blocks false b buffer_len Hat1 Hfit Hlen).
  destruct Hfit as (Hl & Hn & Hpos & Hc). unfold is_u32 in Hl.
  destruct (attached_read st1 interface i s lba blocks Hat1) as (st2 & -> & Hat2 & Hcall2 & Hb2); [lia|done|done|].
  cbn [Z.eqb negb]. mred.
  assert (map (fun k => ext_byte (get_record (io_world st1) i) (lba * 512 + k)) (seqZ 0 (blocks * 512)) =
          mem_read mem lba blocks) as ->.
  { apply map_seqZ_ext. intros k Hk. rewrite Hb1. apply Hb. lia. }
  eexists. split; [done|]. apply serves_set_snap; [|done].
  eexists. split; [exact Hat2|]. split_and!; [done|congruence|]. intros o Ho. rewrite Hb2, Hb1. by apply Hb.
Qed.

(** ** The bulk-only transport *)

Definition count_bot (s : kb_usb_storage_snapshot) : kb_usb_storage_snapshot :=
  s <| sn_bot_command_count ::= (fun n => u64 (n + 1)) |>.

(** The status block and the bookkeeping for the result of a command. *)
Definition bot_wrap (st0 : storage_state) (i : nat) (tag transfer_len : Z) (data : option (list Z))
    (reply : Z + scsi_reply) : bot_reply :=
  match reply with
  | inl _ => bot_phase_error st0 i tag transfer_len data
  | inr (st, data, scsi) =>
      let residue := Z.min transfer_len (sr_residue scsi) in
      let status := if sr_status scsi =? KB_USB_STORAGE_SCSI_STATUS_GOOD
                    then KB_USB_STORAGE_BOT_STATUS_PASSED else KB_USB_STORAGE_BOT_STATUS_FAILED in
      (bot_record_status st i tag residue status, data, bot_fill_csw tag residue status (sr_data_transferred scsi))
  end.

(** The fields of a command block, read back from the packet. *)
Lemma cbw_fields tag transfer_len (data_in : bool) cdb :
  is_u32 tag -> is_u32 transfer_len -> 0 < blen cdb <= 16 ->
  let packet := storage_build_bot_cbw tag transfer_len data_in cdb in
  blen packet = 31 /\ read_le32 packet 0 = Done KB_USB_STORAGE_BOT_CBW_SIGNATURE /\
  read_le32 packet 4 = Done tag /\ read_le32 packet 8 = Done transfer_len /\
  load8 packet 12 = Done (if data_in then KB_USB_STORAGE_BOT_FLAG_DATA_IN else 0) /\ load8 packet 13 = Done 0 /\
  load8 packet 14 = Done (blen cdb) /\ slice packet 15 (blen cdb) = cdb.
Proof.
  intros Ht Hl Hc packet.
  set (header := write_le32 KB_USB_STORAGE_BOT_CBW_SIGNATURE ++ write_le32 tag ++ write_le32 transfer_len ++
     [if data_in then KB_USB_STORAGE_BOT_FLAG_DATA_IN else 0; 0; u8 (blen cdb)] : list Z).
  assert (packet = splice (replicate (Z.to_nat KB_USB_STORAGE_BOT_CBW_SIZE) 0) 0 (header ++ cdb)) as ->
    by reflexivity.
  assert (blen (header ++ cdb) = 15 + blen cdb) as HL.
  { unfold blen. rewrite length_app. change (length header) with 15%nat. lia. }
  set (zeros := replicate (Z.to_nat KB_USB_STORAGE_BOT_CBW_SIZE) 0). assert (blen zeros = 31) as Hz by reflexivity.
  pose proof (bytes_at_splice zeros 0 (header ++ cdb) ltac:(lia) ltac:(lia)) as Hat.
  split; [rewrite blen_splice by lia; done|].
  apply bytes_at_app in Hat as [Hh Hcdb]. change (0 + blen header) with 15 in Hcdb.
  assert (u8 (blen cdb) = blen cdb) as Hu8 by (apply u8_small; unfold is_u8; lia).
  split_and!.
  - apply read_write_le32; [done|]. by apply (bytes_at_prefix _ _ header).
  - apply read_write_le32; [done|]. by apply (bytes_at_sub _ 0 header 4).
  - apply read_write_le32; [done|]. by apply (bytes_at_sub _ 0 header 8).
  - by apply (bytes_at_load _ 0 header 12).
  - by apply (bytes_at_load _ 0 header 13).
  - rewrite <- Hu8. by apply (bytes_at_load _ 0 header 14).
  - apply Hcdb.
Qed.

(** A packet built by [storage_build_bot_cbw] runs its command once. *)
Lemma bot_transfer_runs st interface i tag transfer_len (data_in : bool) cdb data data_len :
  record_find_by_interface (io_world st) interface = Some i ->
  is_u32 tag -> is_u32 transfer_len -> 0 < blen cdb <= 16 ->
  kb_usb_storage_subsystem_bot_transfer st interface (Some (storage_build_bot_cbw tag transfer_len data_in cdb))
    data data_len =
  let st0 := set_snap st i count_bot in
  if (data_len <? transfer_len) || (negb (transfer_len =? 0) && bool_decide (data = None))
  then Done (inr (bot_phase_error st0 i tag transfer_len data))
  else reply ← kb_usb_storage_subsystem_scsi_command st0 interface (Some cdb) data transfer_len
                 (negb (transfer_len =? 0) && negb data_in);
       Done (inr (bot_wrap st0 i tag transfer_len data reply)).
Proof.
  intros Hf Ht Hl Hc. unfold kb_usb_storage_subsystem_bot_transfer. rewrite Hf.
  destruct (cbw_fields tag transfer_len data_in cdb Ht Hl Hc) as (HL & -> & -> & -> & -> & -> & -> & Hcdb).
  rewrite HL. change (31 <? KB_USB_STORAGE_BOT_CBW_SIZE) with false. cbv iota. mred. rewrite Hcdb.
  rewrite (proj2 (Z.eqb_neq (blen cdb) 0)) by lia. rewrite (proj2 (Z.ltb_ge 16 (blen cdb))) by lia.
  change (negb (_ =? _) || negb (0 =? 0) || false || false) with false. cbv iota zeta.
  change (fun s0 => set_field _ _ _) with count_bot.
  assert ((Z.land (if data_in then KB_USB_STORAGE_BOT_FLAG_DATA_IN else 0) KB_USB_STORAGE_BOT_FLAG_DATA_IN =? 0) =
          negb data_in) as -> by (by destruct data_in).
  destruct (_ || _); [done|].
  destruct (kb_usb_storage_subsystem_scsi_command _ _ _ _ _ _) as [[e|[[st1 d] scsi]]| |]; try done.
  mred. unfold bot_wrap.
  assert ((if transfer_len <? sr_residue scsi then transfer_len else sr_residue scsi) =
          Z.min transfer_len (sr_residue scsi)) as -> by (destruct (Z.ltb_spec transfer_len (sr_residue scsi)); lia).
  done.
Qed.

(** ** A session of reads and writes *)

Inductive disk_command :=
  | Write10 (lba : Z) (data : list Z)
  | Read10 (lba blocks : Z).

(** The abstract disk: a write stores its bytes, a read returns them. *)
Definition mem_step (mem : Z -> Z) (c : disk_command) : (Z -> Z) * list Z :=
  match c with
  | Write10 lba data => (mem_write mem lba data, data)
  | Read10 lba blocks => (mem, mem_read mem lba blocks)
  end.

Definition command_blocks (c : disk_command) : Z :=
  match c with Write10 _ data => blen data / 512 | Read10 _ blocks => blocks end.

Definition command_ok (capacity : Z) (c : disk_command) : Prop :=
  match c with
  | Write10 lba data => request_fits capacity lba (blen data / 512) /\ blen data = blen data / 512 * 512
  | Read10 lba blocks => request_fits capacity lba blocks
  end.

(** One command as the host sends it: the packet, the data phase and the status
    block that comes back with the data buffer. *)
Definition host_step (st : storage_state) (interface tag : Z) (c : disk_command)
    : outcome (Z + bot_reply) :=
  let n := command_blocks c * 512 in
  match c with
  | Write10 lba data =>
      kb_usb_storage_subsystem_bot_transfer st interface
        (Some (storage_build_bot_cbw tag n false (rw10 KB_SCSI_OP_WRITE_10 lba (command_blocks c)))) (Some data) n
  | Read10 lba blocks =>
      kb_usb_storage_subsystem_bot_transfer st interface
        (Some (storage_build_bot_cbw tag n true (rw10 KB_SCSI_OP_READ_10 lba (command_blocks c))))
        (Some (replicate (Z.to_nat n) 0)) n
  end.

(** The commands of a session in order, with the data and status block of each;
    [None] when one is refused before it runs. *)
Fixpoint host_run (st : storage_state) (interface tag : Z) (cs : list disk_command)
    : option (storage_state * list (option (list Z) * kb_usb_storage_bot_result)) :=
  match cs with
  | [] => Some (st, [])
  | c :: cs =>
      match host_step st interface tag c with
      | Done (inr (st, data, csw)) =>
          '(st, rest) ← host_run st interface (u32 (tag + 1)) cs; Some (st, (data, csw) :: rest)
      | _ => None
      end
  end.

Fixpoint mem_run (mem : Z -> Z) (cs : list disk_command) : (Z -> Z) * list (list Z) :=
  match cs with
  | [] => (mem, [])
  | c :: cs => let '(mem, data) := mem_step mem c in let '(mem, rest) := mem_run mem cs in (mem, data :: rest)
  end.

(** The status blocks of a session in which everything passed. *)
Fixpoint passed (tag : Z) (cs : list disk_command) : list kb_usb_storage_bot_result :=
  match cs with
  | [] => []
  | c :: cs => bot_fill_csw tag 0 KB_USB_STORAGE_BOT_STATUS_PASSED (command_blocks c * 512) :: passed (u32 (tag + 1)) cs
  end.

Lemma result_good_exact n : result_good n n = mk_scsi_result KB_USB_STORAGE_SCSI_STATUS_GOOD KB_SCSI_SENSE_NO_SENSE 0 0 n 0.
Proof. unfold result_good. by rewrite Z.leb_refl, Z.sub_diag. Qed.

Lemma serves_bot_status st interface i capacity mem tag residue status :
  serves st interface i capacity mem -> serves (bot_record_status st i tag residue status) interface i capacity mem.
Proof. intros H. apply serves_set_snap; [done|]. intros r. by repeat destruct (status =? _). Qed.

Lemma host_step_ok st interface i capacity mem tag c :
  serves st interface i capacity mem -> is_u32 tag -> command_ok capacity c ->
  exists st1, host_step st interface tag c =
    Done (inr (st1, Some (mem_step mem c).2, bot_fill_csw tag 0 KB_USB_STORAGE_BOT_STATUS_PASSED (command_blocks c * 512))) /\
    serves st1 interface i capacity (mem_step mem c).1.
Proof.
  intros Hs Ht Hc. assert (request_fits capacity (match c with Write10 l _ => l | Read10 l _ => l end) (command_blocks c)) as Hfit
    by (destruct c; apply Hc).
  pose proof Hfit as (_ & Hn & Hpos & _). set (n := command_blocks c * 512) in *.
  assert (is_u32 n) as Hn32 by (unfold is_u16, is_u32 in *; lia).
  pose proof (serves_set_snap _ _ _ _ _ count_bot Hs ltac:(done)) as Hs0.
  assert (record_find_by_interface (io_world st) interface = Some i) as Hf by (destruct Hs as (? & Hat & _); apply Hat).
  assert ((n <? n) || (negb (n =? 0) && false) = false) as Hg by (rewrite Z.ltb_irrefl; by destruct (n =? 0)).
  assert (negb (n =? 0) = true) as Hnz by (apply negb_true_iff, Z.eqb_neq; lia).
  destruct c as [lba data|lba blocks]; unfold host_step; fold n; cbn [mem_step fst snd];
    rewrite (bot_transfer_runs _ _ i) by (done || (split; done)); cbv zeta;
    rewrite bool_decide_eq_false_2, Hg, Hnz by done; cbn [andb negb].
  - destruct Hc as [_ Hlen]. cbn [command_blocks] in *. fold n in Hlen.
    destruct (scsi_write_ok _ _ _ _ _ lba (blen data / 512) data n Hs0 Hfit) as (st1 & -> & Hs1); [lia|lia|].
    fold n in Hs1 |- *. mred. cbn [bot_wrap]. rewrite result_good_exact. cbn [sr_residue sr_status sr_data_transferred].
    rewrite Z.min_r by lia. eexists. split; [done|]. apply serves_bot_status.
    assert (slice data 0 n = data) as Hall; [|by rewrite Hall in Hs1].
    unfold slice. rewrite drop_0. apply take_ge. unfold blen in Hlen. lia.
  - cbn [command_blocks] in *.
    destruct (scsi_read_ok _ _ _ _ _ lba blocks (replicate (Z.to_nat n) 0) n Hs0 Hfit) as (st1 & -> & Hs1); [lia|].
    fold n in Hs1 |- *. mred. cbn [bot_wrap]. rewrite result_good_exact. cbn [sr_residue sr_status sr_data_transferred].
    rewrite Z.min_r by lia. eexists. split; [|by apply serves_bot_status]. do 4 f_equal.
    unfold splice. cbn [Z.to_nat take app]. rewrite drop_ge; [by rewrite app_nil_r|].
    unfold mem_read. rewrite length_map, length_seqZ, length_replicate. fold n. lia.
Qed.

(** C6: A session of WRITE(10) and READ(10) commands over the bulk-only transport
    refines an array of bytes: whatever the commands (each inside the disk), all
    of them pass with residue 0 and their own tag, every read returns what the
    abstract disk holds after the writes before it, and the disk still serves
    the resulting array. *)
Theorem usb_disk_refines_byte_array st interface i capacity mem tag cs :
  serves st interface i capacity mem -> is_u32 tag -> Forall (command_ok capacity) cs ->
  exists st1, host_run st interface tag cs =
    Some (st1, zip (map Some (mem_run mem cs).2) (passed tag cs)) /\
    serves st1 interface i capacity (mem_run mem cs).1.
Proof.
  intros Hs Ht Hcs. revert st mem tag Hs Ht. induction Hcs as [|c cs Hc _ IH]; intros st mem tag Hs Ht.
  { by exists st. }
  destruct (host_step_ok st interface i capacity mem tag c Hs Ht Hc) as (st1 & Hstep & Hs1).
  destruct (IH st1 (mem_step mem c).1 (u32 (tag + 1)) Hs1 (u32_range _)) as (st2 & Hrun & Hs2).
  exists st2. cbn [host_run mem_run passed]. rewrite Hstep, Hrun.
  destruct (mem_step mem c) as [mem1 data]. cbn [fst snd] in *. by destruct (mem_run mem1 cs) as [mem2 rest].
Qed.

(** ** Attaching a disk *)

Lemma with_disk_head {D} ts qs ds n (w : D) s f disk :
  d_disk s = disk -> disk <> 0 ->
  with_disk (mk_block_state ts qs (s :: ds) n w) disk f = mk_block_state ts qs (f s :: ds) n w.
Proof.
  intros H Hd. unfold with_disk, disk_state_for. rewrite (proj2 (Z.eqb_neq disk 0)) by done.
  assert (is_disk disk s = true) as Hs by (by apply Z.eqb_eq).
  cbn. rewrite decide_True by done. cbn. by rewrite Hs.
Qed.

Lemma disk_state_head {D} ts qs ds n (w : D) s disk :
  d_disk s = disk -> disk <> 0 -> disk_state_for (mk_block_state ts qs (s :: ds) n w) disk = Some s.
Proof.
  intros H Hd. unfold disk_state_for. rewrite (proj2 (Z.eqb_neq disk 0)) by done. cbn.
  rewrite decide_True by (by apply Z.eqb_eq). done.
Qed.

Lemma set_limit_head {D} ts q qs ds n (w : D) f queue :
  q_queue q = queue -> queue <> 0 ->
  set_limit (mk_block_state ts (q :: qs) ds n w) queue f =
  mk_block_state ts (q <| q_limits ::= f |> :: qs) ds n w.
Proof.
  intros H Hd. unfold set_limit, with_queue, queue_state_for. rewrite (proj2 (Z.eqb_neq queue 0)) by done.
  assert (is_queue queue q = true) as Hq by (by apply Z.eqb_eq).
  cbn. rewrite decide_True by done. cbn. by rewrite Hq.
Qed.

Lemma queue_alloc_ok {D} ts qs ds n (w : D) tag_set queue :
  queue <> 0 -> kb_block_subsystem_queue_alloc (mk_block_state ts qs ds n w) tag_set queue true =
  (mk_block_state ts (mk_queue_state queue tag_set default_limits 0 0 :: qs) ds n w, queue).
Proof. intros H%Z.eqb_neq. unfold kb_block_subsystem_queue_alloc. by rewrite H. Qed.

Lemma disk_alloc_ok {D} ts qs ds n (w : D) disk :
  disk <> 0 -> kb_block_subsystem_disk_alloc (mk_block_state ts qs ds n w) disk true =
  (mk_block_state ts qs (new_disk_state disk n :: ds) (u32 (n + 1)) w, disk).
Proof. intros H%Z.eqb_neq. unfold kb_block_subsystem_disk_alloc. by rewrite H. Qed.

(** The allocations of a registration all succeed. *)
Definition allocs_ok (al : block_allocs) : Prop :=
  al_tag_set al <> 0 /\ al_queue al <> 0 /\ al_queue_state al = true /\
  al_disk al <> 0 /\ al_disk_state al = true /\ al_part0 al <> 0.

(** The block state after a registration: one queue and one disk more. *)
Definition registered_queue (al : block_allocs) : kb_block_queue_state :=
  mk_queue_state (al_queue al) (al_tag_set al)
    (default_limits <| logical_block_size := 512 |> <| physical_block_size := 512 |> <| io_min := 512 |>
       <| max_hw_sectors := 240 |> <| max_segments := 128 |>) 0 0.

Definition registered_disk (al : block_allocs) (i : nat) (parent capacity number : Z) : kb_block_disk_state storage_world :=
  new_disk_state (al_disk al) number <| d_queue := al_queue al |> <| d_part0 := al_part0 al |>
    <| d_parent := parent |> <| d_groups := 0 |> <| d_registered := true |> <| d_capacity_sectors := capacity |>
    <| d_io_ctx := Z.of_nat i |> <| d_read_fn := Some storage_block_read |> <| d_write_fn := Some storage_block_write |>.

Lemma ensure_block_state ts qs ds n w al i :
  let st := mk_block_state ts qs ds n w in
  allocs_ok al -> sn_disk (snap st i) = 0 -> sn_sector_size (snap st i) = 512 ->
  storage_ensure_block st al i =
  (set_snap (set_snap (mk_block_state ts (registered_queue al :: qs)
       (registered_disk al i (sn_interface (snap st i)) (sn_capacity_sectors (snap st i)) n :: ds) (u32 (n + 1)) w)
     i (fun s => s <| sn_disk_number := n |>))
     i (fun s => s <| sn_tag_set := al_tag_set al |> <| sn_queue := al_queue al |> <| sn_disk := al_disk al |>
                   <| sn_part0 := al_part0 al |> <| sn_registered := 1 |>), 0).
Proof.
  intros st (Ht & Hq & Hqs & Hd & Hds & Hp) H0 Hss. subst st. unfold storage_ensure_block.
  cbv zeta. rewrite H0, Hss, Hqs, Hds. change (negb (0 =? 0)) with false. cbv iota.
  rewrite queue_alloc_ok by done. cbv beta iota zeta. rewrite disk_alloc_ok by done. cbv beta iota.
  unfold kb_block_subsystem_block_device_alloc.
  apply Z.eqb_neq in Ht, Hp. pose proof (proj2 (Z.eqb_neq _ _) Hq) as Hq'. pose proof (proj2 (Z.eqb_neq _ _) Hd) as Hd'.
  rewrite Ht, Hq', Hd', Hp. change (false || false || false || false) with false. cbv beta iota.
  unfold kb_block_subsystem_queue_set_logical_block_size, kb_block_subsystem_queue_set_physical_block_size,
    kb_block_subsystem_queue_set_io_min, kb_block_subsystem_queue_set_max_hw_sectors,
    kb_block_subsystem_queue_set_max_segments. change (negb (512 =? 0)) with true. cbv beta iota.
  rewrite !set_limit_head by done.
  unfold kb_block_subsystem_disk_attach. rewrite disk_state_head, Hq', Hp by done.
  change (false || false) with false. cbv beta iota. rewrite with_disk_head by done.
  change (negb (0 =? 0)) with false. cbv beta iota.
  unfold kb_block_subsystem_disk_register. rewrite disk_state_head, with_disk_head by done.
  change (negb (0 =? 0)) with false. cbv beta iota.
  unfold kb_block_subsystem_disk_set_capacity, kb_block_subsystem_disk_set_io.
  rewrite !with_disk_head by done. unfold kb_block_subsystem_disk_snapshot. rewrite disk_state_head by done.
  reflexivity.
Qed.

Lemma keys_set_record w i f :
  (forall r, find_key (f r) = find_key r) ->
  find_key <$> storage_records (set_record w i f) = find_key <$> storage_records w.
Proof.
  intros Hf. unfold set_record. cbn [storage_records set_field]. apply list_eq. intros j.
  rewrite !list_lookup_fmap, list_lookup_alter. case_decide as Hd; [|done]. subst j.
  destruct (storage_records w !! i) as [r|]; [|done]. cbn [fmap option_fmap option_map]. by rewrite Hf.
Qed.

(** Registering a record that has no disk yet makes it serve a disk of zeros. *)
Lemma ensure_block_serves st al i interface :
  let s := snap st i in
  allocs_ok al -> block_sizes_ok st -> (i < length (storage_records (io_world st)))%nat ->
  record_find_by_interface (io_world st) interface = Some i ->
  extents (get_record (io_world st) i) = [] -> extent_callocs (io_world st) = [] ->
  sn_disk s = 0 -> sn_sector_size s = 512 -> sn_medium_present s <> 0 ->
  sn_capacity_sectors s * 512 <= UINT64_MAX ->
  exists st1, storage_ensure_block st al i = (st1, 0) /\
    serves st1 interface i (sn_capacity_sectors s) (fun _ => 0).
Proof.
  intros s Hal Hsz Hi Hfind Hx Hcall Hd Hss Hm Hcap. destruct st as [ts qs ds n w]. unfold s in *. clear s.
  rewrite ensure_block_state by done. eexists. split; [done|].
  set (disk := registered_disk _ _ _ _ _). cbn [io_world] in *.
  set (f := fun s => s <| sn_disk_number := n |>). set (g := fun s : kb_usb_storage_snapshot => s <| sn_tag_set := _ |> <| sn_queue := _ |> <| sn_disk := _ |>
                   <| sn_part0 := _ |> <| sn_registered := 1 |>).
  set (w1 := set_record w i (fun r => r <| snapshot ::= f |>)).
  set (w2 := set_record w1 i (fun r => r <| snapshot ::= g |>)).
  set (st1 := mk_block_state ts (registered_queue al :: qs) (disk :: ds) (u32 (n + 1)) w2).
  change (serves st1 interface i (sn_capacity_sectors (snapshot (get_record w i))) (fun _ => 0)).
  assert (length (storage_records w1) = length (storage_records w)) as HL1 by apply length_set_record.
  assert (length (storage_records w2) = length (storage_records w1)) as HL2 by apply length_set_record.
  assert (get_record w2 i = get_record w i <| snapshot ::= f |> <| snapshot ::= g |>) as Hr.
  { unfold w2. rewrite get_set_record by lia. unfold w1. by rewrite get_set_record by lia. }
  assert (extents (get_record w2 i) = []) as Hx2 by (rewrite Hr; exact Hx).
  destruct Hal as (Ht & Hq & _ & Hdk & _ & Hp).
  exists disk. split_and!; [|done|exact Hcall|].
  - constructor; unfold snap; cbn [io_world st1]; rewrite ?Hr; try done.
    + rewrite <- Hfind. transitivity (record_find_by_interface w1 interface); apply find_by_keys, keys_set_record; done.
    + split; [rewrite HL2, HL1; exact Hi|]. unfold record_ready, extents_ok, record_sector_size. rewrite Hx2, Hr.
      split; [constructor|]. cbn. unfold snap in Hss. cbn in Hss. by rewrite Hss.
    + apply disk_state_head; done.
    + unfold disk_logical_block_size, queue_state_for, st1. cbn [d_queue registered_disk set_field disk queues].
      change (d_queue disk) with (al_queue al). rewrite (proj2 (Z.eqb_neq _ _) Hq). cbn [list_find].
      rewrite decide_True; [done|]. unfold is_queue. by apply Z.eqb_eq.
    + intros q [->|Hin]%elem_of_cons; [done|by apply Hsz].
  - intros o _. unfold ext_byte, storage_find_extent. cbn [io_world st1]. by rewrite Hx2.
Qed.

(** A record put in a free slot is found under its interface. *)
Lemma find_new_record w i interface r :
  interface <> 0 -> record_find_by_interface w interface = None -> (i < length (storage_records w))%nat ->
  active r = true -> sn_interface (snapshot r) = interface ->
  record_find_by_interface (set_record w i (fun _ => r)) interface = Some i.
Proof.
  intros H0 Hnone Hi Ha Hif. unfold record_find_by_interface, record_find in *.
  rewrite (proj2 (Z.eqb_neq interface 0) H0) in *. apply fmap_None, list_find_None in Hnone.
  cut (list_find (fun r => active r && (sn_interface (snapshot r) =? interface) = true)
         (storage_records (set_record w i (fun _ => r))) = Some (i, r)); [by intros ->|].
  unfold set_record. cbn [storage_records set_field]. apply list_find_Some. split_and!.
  - rewrite list_lookup_alter_eq. by destruct (lookup_lt_is_Some_2 (storage_records w) i Hi) as [r0 ->].
  - rewrite Ha, Hif. apply Z.eqb_refl.
  - intros j y Hj Hlt. rewrite list_lookup_alter_ne in Hj by lia. by apply (Forall_lookup_1 _ _ _ _ Hnone Hj).
Qed.

(** Attaching a mass-storage interface while the usb-storage driver is
    registered makes a working disk: the first free record takes the interface,
    a queue and a disk are registered with the block layer and wired to it, and
    the disk serves READ(10) and WRITE(10) over the configured number of sectors,
    all of them zero at first. *)
Theorem usb_attach_serves_zeros st env al udev interface linux_device parent i r :
  interface <> 0 -> record_find_by_interface (io_world st) interface = None ->
  list_find (fun r => active r = false) (storage_records (io_world st)) = Some (i, r) ->
  storage_driver_registered (io_world st) = true -> allocs_ok al -> block_sizes_ok st ->
  extent_callocs (io_world st) = [] -> default_capacity_sectors env * 512 <= UINT64_MAX ->
  exists st1, kb_usb_storage_subsystem_synthesize_mass_storage st env al udev interface linux_device parent = (st1, 0) /\
    serves st1 interface i (default_capacity_sectors env) (fun _ => 0).
Proof.
  intros H0 Hnone Hfree Hreg Hal Hsz Hcall Hcap. pose proof (proj1 (list_find_Some _ _ _ _) Hfree) as (Hi%lookup_lt_Some & _ & _).
  unfold kb_usb_storage_subsystem_synthesize_mass_storage, record_for_interface.
  rewrite (proj2 (Z.eqb_neq interface 0) H0), Hnone, Hfree.
  set (fresh := mk_record true _ []). set (w := set_record (io_world st) i (fun _ => fresh)).
  assert (record_find_by_interface w interface = Some i) as Hw by (by apply find_new_record).
  assert (length (storage_records w) = length (storage_records (io_world st))) as HL by apply length_set_record.
  assert (get_record w i = fresh) as Hg by (unfold w; by rewrite get_set_record).
  match goal with |- context [set_snap (st <| io_world := w |>) i ?g] =>
    set (f := g); set (st1 := set_snap (st <| io_world := w |>) i f) end.
  assert (get_record (io_world st1) i = fresh <| snapshot ::= f |>) as Hr.
  { rewrite <- Hg. refine (get_set_record w i (fun r => r <| snapshot ::= f |>) _). rewrite HL. exact Hi. }
  assert (sn_sector_size (snap st1 i) = 512 /\ sn_disk (snap st1 i) = 0 /\ sn_medium_present (snap st1 i) = 1 /\
    sn_capacity_sectors (snap st1 i) = default_capacity_sectors env) as (Hss & Hd & Hm & Hc).
  { unfold snap. rewrite Hr. split_and!; reflexivity. }
  assert (extents (get_record (io_world st1) i) = []) as Hx by (rewrite Hr; reflexivity).
  assert (storage_driver_registered (io_world st1) = true) as -> by exact Hreg. cbn [orb].
  assert (find_key <$> storage_records (io_world st1) = find_key <$> storage_records w) as Hkeys.
  { apply list_eq. intros j. change (storage_records (io_world st1)) with
      (alter (fun r => r <| snapshot ::= f |>) i (storage_records w)).
    rewrite !list_lookup_fmap, list_lookup_alter. case_decide as Hdj; [|done]. subst j.
    change (storage_records w) with (alter (fun _ => fresh) i (storage_records (io_world st))).
    rewrite list_lookup_alter_eq. by destruct (storage_records (io_world st) !! i). }
  pose proof (f_equal length Hkeys) as HLk. rewrite !length_fmap in HLk.
  assert (extent_callocs (io_world st1) = []) as Hcall1 by exact Hcall.
  assert (block_sizes_ok st1) as Hsz1 by exact Hsz.
  rewrite <- (find_by_keys _ _ interface Hkeys) in Hw. clearbody st1. rewrite <- Hc.
  apply ensure_block_serves; [done|done|lia|done|done|done|done|done|by rewrite Hm|by rewrite Hc].
Qed.

(** ** Errors *)

Definition supported_opcodes : list Z :=
  [KB_SCSI_OP_TEST_UNIT_READY; KB_SCSI_OP_START_STOP_UNIT; KB_SCSI_OP_SYNCHRONIZE_CACHE_10; KB_SCSI_OP_REQUEST_SENSE;
   KB_SCSI_OP_INQUIRY; KB_SCSI_OP_MODE_SENSE_6; KB_SCSI_OP_READ_CAPACITY_10; KB_SCSI_OP_READ_10; KB_SCSI_OP_WRITE_10].

(** The fixed-format sense data of an illegal request. *)
Definition illegal_request_sense (asc : Z) : list Z := [0x70; 0; 5; 0; 0; 0; 0; 10; 0; 0; 0; 0; asc; 0; 0; 0; 0; 0].

Definition set_sense (asc : Z) (s : kb_usb_storage_snapshot) : kb_usb_storage_snapshot :=
  s <| sn_last_sense_key := KB_SCSI_SENSE_ILLEGAL_REQUEST |> <| sn_last_asc := asc |> <| sn_last_ascq := 0 |>.

Definition illegal_result (asc buffer_len : Z) : kb_usb_storage_scsi_result :=
  mk_scsi_result KB_USB_STORAGE_SCSI_STATUS_CHECK_CONDITION KB_SCSI_SENSE_ILLEGAL_REQUEST asc 0 0
    (Z.min buffer_len UINT32_MAX).

Lemma illegal_request_result st i asc buffer buffer_len :
  illegal_request st i asc buffer buffer_len = (set_snap st i (set_sense asc), buffer, illegal_result asc buffer_len).
Proof.
  unfold illegal_request, result_check_condition, illegal_result.
  assert ((if UINT32_MAX <? buffer_len then UINT32_MAX else buffer_len) = Z.min buffer_len UINT32_MAX) as ->; [|done].
  destruct (Z.ltb_spec UINT32_MAX buffer_len); lia.
Qed.

(** A command on an attached disk is counted and then dispatched. *)
Lemma scsi_command_head st interface i s opcode rest buffer buffer_len data_out :
  storage_attached st interface i s -> ~ opcode ∈ supported_opcodes ->
  kb_usb_storage_subsystem_scsi_command st interface (Some (opcode :: rest)) buffer buffer_len data_out =
  Done (inr (illegal_request (set_snap st i (count_command opcode)) i KB_SCSI_ASC_INVALID_COMMAND buffer buffer_len)).
Proof.
  intros Hat Hop. unfold kb_usb_storage_subsystem_scsi_command. rewrite (at_found _ _ _ _ Hat).
  assert (load8 (opcode :: rest) 0 = Done opcode) as -> by (rewrite load8_in by (unfold blen; cbn; lia); done).
  rewrite (proj2 (Z.eqb_neq (blen (opcode :: rest)) 0)) by (unfold blen; cbn; lia). mred.
  change (fun s0 => set_field _ _ _) with (count_command opcode).
  destruct (attached_set_snap _ _ _ _ (count_command opcode) Hat) as [Hat1 _]; [done|].
  rewrite (proj2 (Z.eqb_neq _ _) (at_medium _ _ _ _ Hat1)).
  unfold supported_opcodes in Hop. rewrite !not_elem_of_cons in Hop. destruct Hop as (? & ? & ? & ? & ? & ? & ? & ? & ? & _).
  unfold is_op. cbn [existsb]. rewrite !(proj2 (Z.eqb_neq _ _)) by done. done.
Qed.

(** REQUEST SENSE after an error. *)
Lemma request_sense_ok st interface i capacity mem asc :
  serves st interface i capacity mem -> snap st i = set_sense asc (snap st i) ->
  exists st1, kb_usb_storage_subsystem_scsi_command st interface (Some [KB_SCSI_OP_REQUEST_SENSE; 0; 0; 0; 18; 0])
      (Some (replicate 18 0)) 18 false =
      Done (inr (st1, Some (illegal_request_sense asc), result_good 18 18)) /\
    serves st1 interface i capacity mem.
Proof.
  intros Hs Hsense. pose proof Hs as (s & Hat & _).
  unfold kb_usb_storage_subsystem_scsi_command. rewrite (at_found _ _ _ _ Hat).
  change (load8 _ 0) with (Done KB_SCSI_OP_REQUEST_SENSE). mred. change (blen _ =? 0) with false. cbv iota.
  change (fun s0 => set_field _ _ _) with (count_command KB_SCSI_OP_REQUEST_SENSE).
  pose proof (serves_set_snap _ _ _ _ _ (count_command KB_SCSI_OP_REQUEST_SENSE) Hs ltac:(done)) as Hs1.
  destruct (attached_set_snap _ _ _ _ (count_command KB_SCSI_OP_REQUEST_SENSE) Hat) as [Hat1 _]; [done|].
  rewrite (proj2 (Z.eqb_neq _ _) (at_medium _ _ _ _ Hat1)).
  assert (snap (set_snap st i (count_command KB_SCSI_OP_REQUEST_SENSE)) i =
          count_command KB_SCSI_OP_REQUEST_SENSE (set_sense asc (snap st i))) as Hsnap.
  { rewrite <- Hsense. exact (f_equal snapshot (get_set_record (io_world st) i _ (proj1 (at_ready _ _ _ _ Hat)))). }
  rewrite Hsnap. eexists. split; [reflexivity|done].
Qed.

Lemma snap_set_sense st interface i s asc :
  storage_attached st interface i s ->
  snap (set_snap st i (set_sense asc)) i = set_sense asc (snap (set_snap st i (set_sense asc)) i).
Proof.
  intros Hat. assert (snap (set_snap st i (set_sense asc)) i = set_sense asc (snap st i)) as ->; [|done].
  exact (f_equal snapshot (get_set_record (io_world st) i _ (proj1 (at_ready _ _ _ _ Hat)))).
Qed.

(** A rejected command leaves the sense data behind. *)
Lemma illegal_request_sensed st interface i capacity mem opcode asc :
  serves st interface i capacity mem ->
  let st1 := set_snap (set_snap st i (count_command opcode)) i (set_sense asc) in
  serves st1 interface i capacity mem /\ snap st1 i = set_sense asc (snap st1 i).
Proof.
  intros Hs st1. pose proof (serves_set_snap _ _ _ _ _ (count_command opcode) Hs ltac:(done)) as Hs1.
  split; [by apply serves_set_snap|]. destruct Hs1 as (s & Hat & _). by apply (snap_set_sense _ interface _ s).
Qed.

(** A command the disk rejects changes none of its bytes and is reported
    through sense data: a READ(10) or WRITE(10) that reaches past the last sector
    ends in CHECK CONDITION with ILLEGAL REQUEST, LBA OUT OF RANGE (0x21); one
    whose buffer is too short in INVALID FIELD IN CDB (0x24); an opcode the disk
    does not know in INVALID COMMAND (0x20); and the REQUEST SENSE that follows
    returns exactly that key and code in fixed format. *)
Theorem scsi_errors_are_sensed st interface i capacity mem buffer buffer_len :
  serves st interface i capacity mem ->
  let rejected cdb data_out asc :=
    exists st1, kb_usb_storage_subsystem_scsi_command st interface (Some cdb) (Some buffer) buffer_len data_out =
        Done (inr (st1, Some buffer, illegal_result asc buffer_len)) /\ serves st1 interface i capacity mem /\
      exists st2, kb_usb_storage_subsystem_scsi_command st1 interface
          (Some [KB_SCSI_OP_REQUEST_SENSE; 0; 0; 0; 18; 0]) (Some (replicate 18 0)) 18 false =
          Done (inr (st2, Some (illegal_request_sense asc), result_good 18 18)) /\ serves st2 interface i capacity mem in
  (forall lba blocks (write : bool), is_u32 lba -> is_u16 blocks -> blocks <> 0 ->
     let cdb := rw10 (if write then KB_SCSI_OP_WRITE_10 else KB_SCSI_OP_READ_10) lba blocks in
     (capacity < lba + blocks -> rejected cdb write KB_SCSI_ASC_LBA_OUT_OF_RANGE) /\
     (lba + blocks <= capacity -> buffer_len < blocks * 512 -> rejected cdb write KB_SCSI_ASC_INVALID_FIELD_IN_CDB)) /\
  (forall opcode rest data_out, ~ opcode ∈ supported_opcodes ->
     rejected (opcode :: rest) data_out KB_SCSI_ASC_INVALID_COMMAND).
Proof.
  intros Hs rejected. pose proof Hs as (s & Hat & Hcap & _).
  assert (forall opcode cdb data_out asc,
    kb_usb_storage_subsystem_scsi_command st interface (Some cdb) (Some buffer) buffer_len data_out =
      Done (inr (illegal_request (set_snap st i (count_command opcode)) i asc (Some buffer) buffer_len)) ->
    rejected cdb data_out asc) as Hrej.
  { intros opcode cdb data_out asc Hc. unfold rejected. rewrite Hc, illegal_request_result.
    destruct (illegal_request_sensed _ _ _ _ _ opcode asc Hs) as [Hs1 Hsense].
    eexists. split; [done|]. split; [done|]. by apply request_sense_ok. }
  split.
  - intros lba blocks write Hl Hb Hnz cdb.
    assert (forall asc, asc = (if capacity <? lba + blocks then KB_SCSI_ASC_LBA_OUT_OF_RANGE
                               else KB_SCSI_ASC_INVALID_FIELD_IN_CDB) ->
      (buffer_len <? blocks * 512) || (capacity <? lba + blocks) = true -> rejected cdb write asc) as Hgo.
    { intros asc -> Hbad. apply (Hrej (if write then KB_SCSI_OP_WRITE_10 else KB_SCSI_OP_READ_10)). unfold cdb.
      rewrite (scsi_dispatch _ _ _ _ _ _ _ _ _ _ Hat) by (by destruct write).
      destruct (attached_set_snap _ _ _ _ (count_command (if write then KB_SCSI_OP_WRITE_10 else KB_SCSI_OP_READ_10)) Hat)
        as [Hat1 _]; [done|]. unfold scsi_read_write.
      destruct (rw10_fields (if write then KB_SCSI_OP_WRITE_10 else KB_SCSI_OP_READ_10) lba blocks Hl Hb) as [-> ->].
      change (blen (rw10 _ _ _) <? 10) with false. cbv iota. mred.
      assert (((if write then KB_SCSI_OP_WRITE_10 else KB_SCSI_OP_READ_10) =? KB_SCSI_OP_WRITE_10) = write) as ->
        by (by destruct write).
      assert ((write && negb write) || (negb write && write) = false) as -> by (by destruct write).
      rewrite (proj2 (Z.eqb_neq blocks 0)) by done. cbv zeta.
      rewrite (at_sector_size _ _ _ _ Hat1), (at_capacity _ _ _ _ Hat1), Hcap, Hbad. done. }
    split.
    + intros Hfar. apply Hgo; rewrite (proj2 (Z.ltb_lt capacity (lba + blocks))) by done; [done|apply orb_true_r].
    + intros Hnear Hshort. apply Hgo; [by rewrite (proj2 (Z.ltb_ge capacity (lba + blocks)))|].
      by rewrite (proj2 (Z.ltb_lt buffer_len (blocks * 512))).
  - intros opcode rest data_out Hop. apply (Hrej opcode). by eapply scsi_command_head.
Qed.

(** ** Every packet gets an answer *)

Lemma read32_in p o :
  0 <= o -> o + 4 <= blen p -> is_Some (match read_le32 p o with Done v => Some v | _ => None end) /\
  is_Some (match read_be32 p o with Done v => Some v | _ => None end).
Proof. intros. unfold read_le32, read_be32. rewrite !load8_in by lia. cbn. eauto. Qed.

Lemma read_le32_in p o : bytes_ok p -> 0 <= o -> o + 4 <= blen p -> exists v, read_le32 p o = Done v /\ is_u32 v.
Proof.
  intros Hp Ho Hl. destruct (read32_in p o Ho Hl) as [[v Hv] _]. destruct (read_le32 p o) as [x| |] eqn:E; try done.
  exists x. split; [done|]. exact (read_u32le_range p o Hp x E).
Qed.

Lemma illegal_residue st i asc b buffer_len :
  0 <= buffer_len -> 0 <= sr_residue (illegal_request st i asc b buffer_len).2.
Proof. intros. rewrite illegal_request_result. cbn. unfold UINT32_MAX. lia. Qed.

Lemma good_residue n buffer_len : 0 <= sr_residue (result_good n buffer_len).
Proof. unfold result_good, UINT32_MAX. cbn. destruct (Z.leb_spec n buffer_len); case_match; lia. Qed.

Lemma read_write_total st i cdb write buffer buffer_len data_out :
  0 <= buffer_len -> exists reply, scsi_read_write st i cdb write buffer buffer_len data_out = Done reply /\ 0 <= sr_residue reply.2.
Proof.
  intros Hlen. pose proof (fun st asc b => illegal_residue st i asc b buffer_len Hlen) as Hill.
  unfold scsi_read_write. destruct (Z.ltb_spec (blen cdb) 10); [eauto|]. destruct (_ || _); [eauto|].
  destruct (read32_in cdb 2 ltac:(lia) ltac:(lia)) as [_ [lba Hl]]. destruct (read_be32 cdb 2) as [l| |]; try done.
  mred. unfold read_be16. rewrite !load8_in by lia. mred. destruct (_ =? 0); [eexists; split; [done|apply good_residue]|].
  destruct buffer as [b|]; [|eauto]. destruct (_ || _); [eauto|].
  destruct (if write then _ else _) as [[st1 result] b1]. destruct (negb (result =? 0)); [eauto|].
  eexists. split; [done|]. apply good_residue.
Qed.

Lemma scsi_command_total st interface cdb buffer buffer_len data_out :
  0 <= buffer_len ->
  exists reply, kb_usb_storage_subsystem_scsi_command st interface cdb buffer buffer_len data_out = Done reply /\
    match reply with inr r => 0 <= sr_residue r.2 | inl e => e = -22 end.
Proof.
  intros Hlen. pose proof (fun st i asc b => illegal_residue st i asc b buffer_len Hlen) as Hill.
  assert (forall st data b, 0 <= sr_residue (reply_data st data b buffer_len).2) as Hdata.
  { intros. unfold reply_data. destruct (copy_limited _ _ _) as [? ?]. apply good_residue. }
  unfold kb_usb_storage_subsystem_scsi_command. destruct (record_find_by_interface _ _) as [i|]; [|by exists (inl (-22))].
  destruct cdb as [cdb|]; [|by exists (inl (-22))]. destruct (Z.eqb_spec (blen cdb) 0); [by exists (inl (-22))|].
  rewrite load8_in by (unfold blen in *; lia). mred. generalize (nth (Z.to_nat 0) cdb 0) as opcode. intros opcode.
  destruct (_ =? 0).
  { eexists. split; [reflexivity|]. cbn. unfold UINT32_MAX. case_match; boolify; lia. }
  destruct (is_op _ _); [eexists; split; [done|apply good_residue]|].
  destruct (opcode =? KB_SCSI_OP_REQUEST_SENSE); [eexists; split; [done|apply Hdata]|].
  destruct (opcode =? KB_SCSI_OP_INQUIRY); [destruct data_out; eexists; (split; [done|apply Hill || apply Hdata])|].
  destruct (opcode =? KB_SCSI_OP_MODE_SENSE_6); [eexists; split; [done|apply Hdata]|].
  destruct (opcode =? KB_SCSI_OP_READ_CAPACITY_10); [destruct data_out; eexists; (split; [done|apply Hill || apply Hdata])|].
  destruct (is_op _ _); [|eexists; split; [done|apply Hill]].
  match goal with |- context [scsi_read_write ?st1 i cdb ?w buffer buffer_len data_out] =>
    destruct (read_write_total st1 i cdb w buffer buffer_len data_out Hlen) as (r & -> & Hr) end.
  mred. by exists (inr r).
Qed.

(** The status block in [r] answers the command block with [tag] and [transfer_len]. *)
Definition csw_answers (r : kb_usb_storage_bot_result) (tag transfer_len : Z) : Prop :=
  blen (br_csw r) = KB_USB_STORAGE_BOT_CSW_SIZE /\
  read_le32 (br_csw r) 0 = Done KB_USB_STORAGE_BOT_CSW_SIGNATURE /\
  read_le32 (br_csw r) 4 = Done tag /\ read_le32 (br_csw r) 8 = Done (br_residue r) /\
  load8 (br_csw r) 12 = Done (br_status r) /\ 0 <= br_residue r <= transfer_len /\
  br_status r ∈ [KB_USB_STORAGE_BOT_STATUS_PASSED; KB_USB_STORAGE_BOT_STATUS_FAILED; KB_USB_STORAGE_BOT_STATUS_PHASE_ERROR].

Lemma csw_fields tag transfer_len residue status transferred :
  is_u32 tag -> is_u32 transfer_len -> 0 <= residue <= transfer_len ->
  status ∈ [KB_USB_STORAGE_BOT_STATUS_PASSED; KB_USB_STORAGE_BOT_STATUS_FAILED; KB_USB_STORAGE_BOT_STATUS_PHASE_ERROR] ->
  csw_answers (bot_fill_csw tag residue status transferred) tag transfer_len.
Proof.
  intros Ht Hl Hr Hs. set (r := bot_fill_csw tag residue status transferred).
  assert (bytes_at (br_csw r) 0 (br_csw r)) as Hat by (split; [done|reflexivity]).
  split; [done|]. split; [by apply read_write_le32; [|apply (bytes_at_prefix _ _ (br_csw r))]|].
  split; [by apply read_write_le32; [|apply (bytes_at_sub _ 0 (br_csw r) 4)]|].
  split; [|split; [done|split; [done|done]]].
  apply read_write_le32; [unfold is_u32 in *; cbn; lia|by apply (bytes_at_sub _ 0 (br_csw r) 8)].
Qed.

(** A well-formed command block for LUN 0. *)
Definition cbw_valid (packet : list Z) : Prop :=
  KB_USB_STORAGE_BOT_CBW_SIZE <= blen packet /\ read_le32 packet 0 = Done KB_USB_STORAGE_BOT_CBW_SIGNATURE /\
  load8 packet 13 = Done 0 /\ exists n, load8 packet 14 = Done n /\ 0 < n <= 16.

(** What a reply to a packet says. *)
Definition bot_answered (st : storage_state) (interface : Z) (packet : list Z) (reply : Z + bot_reply) : Prop :=
  match reply with
  | inl e => e = -22 /\ (record_find_by_interface (io_world st) interface = None \/ ~ cbw_valid packet)
  | inr (_, _, r) => cbw_valid packet /\ exists tag transfer_len,
      read_le32 packet 4 = Done tag /\ read_le32 packet 8 = Done transfer_len /\ csw_answers r tag transfer_len
  end.

(** The bulk-only transport never reads outside a packet and answers every
    packet: it refuses, with -22, exactly the packets for an unknown interface
    and the malformed ones (too short, wrong signature, LUN other than 0, command
    length not 1..16); for any other packet, whatever the command and the
    buffer, the status block has the right size and signature, the packet's tag,
    a residue no larger than the announced transfer and one of the three states. *)
Theorem bot_answers_every_packet st interface packet data data_len :
  bytes_ok packet ->
  exists reply, kb_usb_storage_subsystem_bot_transfer st interface (Some packet) data data_len = Done reply /\
    bot_answered st interface packet reply.
Proof.
  intros Hok. unfold kb_usb_storage_subsystem_bot_transfer.
  destruct (record_find_by_interface (io_world st) interface) as [i|] eqn:Hfind; [|eexists; split; [done|split; by auto]].
  destruct (Z.ltb_spec (blen packet) KB_USB_STORAGE_BOT_CBW_SIZE) as [Hshort|Hlen].
  { eexists. split; [done|]. split; [done|]. right. intros [? _]. lia. }
  pose proof Hlen as Hlen'. unfold KB_USB_STORAGE_BOT_CBW_SIZE in Hlen'.
  destruct (read_le32_in packet 0 Hok ltac:(lia) ltac:(lia)) as (signature & Hsig & _).
  destruct (read_le32_in packet 4 Hok ltac:(lia) ltac:(lia)) as (tag & Htag & Ht).
  destruct (read_le32_in packet 8 Hok ltac:(lia) ltac:(lia)) as (transfer_len & Htl & Hl).
  pose proof (load8_in packet 14 ltac:(lia)) as Hcdb. pose proof (load8_byte _ _ _ Hok Hcdb) as Hn.
  pose proof (load8_in packet 13 ltac:(lia)) as Hlun. set (n := nth (Z.to_nat 14) packet 0) in *.
  set (lun := nth (Z.to_nat 13) packet 0) in *.
  rewrite Hsig, Htag, Htl, Hcdb, Hlun, (load8_in packet 12) by lia. mred.
  destruct (_ || (16 <? n)) eqn:Hbad.
  { eexists. split; [done|]. split; [done|]. right. intros (_ & Hsig' & Hlun' & k & Hk & Hr).
    rewrite Hcdb in Hk. rewrite Hlun in Hlun'. rewrite Hsig in Hsig'. injection Hk as <-. injection Hlun' as E.
    injection Hsig' as ->. rewrite E in Hbad. cbn in Hbad. boolify. destruct Hbad; boolify; lia. }
  boolify. assert (cbw_valid packet) as Hv.
  { split_and!; [done|congruence|congruence|]. exists n. split; [done|]. unfold is_u8 in Hn. lia. }
  assert (forall st1 d residue status k, 0 <= residue <= transfer_len -> status ∈ [0; 1; 2] ->
    bot_answered st interface packet (inr (st1, d, bot_fill_csw tag residue status k))) as Hans.
  { intros st1 d residue status k Hr Hst. split; [done|]. exists tag, transfer_len. by split_and!; [| |apply csw_fields]. }
  assert (0 <= transfer_len <= transfer_len) as Hall by (unfold is_u32 in Hl; lia).
  destruct (_ || _); [eexists; split; [done|]; apply Hans; [done|by apply (bool_decide_unpack _)]|].
  edestruct (scsi_command_total (set_snap st i (fun s => s <| sn_bot_command_count ::= (fun n => u64 (n + 1)) |>))
    interface (Some (slice packet 15 n)) data transfer_len) as (reply & -> & Hres); [apply Hl|].
  mred. destruct reply as [e|[[st1 d] scsi]]; eexists; (split; [done|]); apply Hans; [done|by apply (bool_decide_unpack _)| |].
  - cbn [snd] in Hres. destruct (Z.ltb_spec transfer_len (sr_residue scsi)); lia.
  - destruct (_ =? _); by apply (bool_decide_unpack _).
Qed.

(** ** Examples *)

Definition example_allocs : block_allocs := mk_block_allocs 0x100 0x200 true 0x300 true 0x400.

(** One record, its disk not yet registered. *)
Definition example_state : storage_state :=
  block_state_init (mk_storage_world (fresh_record :: replicate 31 zero_record) true []).

Lemma example_serves :
  exists st, storage_ensure_block example_state example_allocs 0 = (st, 0) /\ serves st 0x40 0 64 (fun _ => 0).
Proof.
  refine (ensure_block_serves example_state example_allocs 0 0x40 _ _ _ _ _ _ _ _ _ _).
  - unfold allocs_ok. by split_and!.
  - intros q Hq. by apply not_elem_of_nil in Hq.
  - cbn. lia.
  - reflexivity.
  - reflexivity.
  - reflexivity.
  - reflexivity.
  - reflexivity.
  - discriminate.
  - discriminate.
Qed.

Lemma usb_disk_refines_byte_array_witness :
  exists st st1, storage_ensure_block example_state example_allocs 0 = (st, 0) /\
    host_run st 0x40 7 [Write10 3 (replicate 512 9); Read10 2 2] =
    Some (st1, [(Some (replicate 512 9), bot_fill_csw 7 0 0 512);
                (Some (replicate 512 0 ++ replicate 512 9), bot_fill_csw 8 0 0 1024)]).
Proof.
  destruct example_serves as (st & E & Hs).
  destruct (usb_disk_refines_byte_array st 0x40 0 64 (fun _ => 0) 7 [Write10 3 (replicate 512 9); Read10 2 2] Hs)
    as (st1 & Hrun & _).
  - split; lia.
  - repeat constructor; vm_compute; (reflexivity || discriminate).
  - exists st, st1. split; [exact E|]. etransitivity; [exact Hrun|]. vm_compute. reflexivity.
Defined.

Lemma usb_attach_serves_zeros_witness :
  exists st1, kb_usb_storage_subsystem_synthesize_mass_storage
      (block_state_init (storage_world_init <| storage_driver_registered := true |>)) (Some 64) example_allocs
      1 0x40 2 3 = (st1, 0) /\ serves st1 0x40 0 64 (fun _ => 0).
Proof.
  apply (usb_attach_serves_zeros _ (Some 64) example_allocs 1 0x40 2 3 0 zero_record).
  - discriminate.
  - vm_compute. reflexivity.
  - vm_compute. reflexivity.
  - reflexivity.
  - unfold allocs_ok. by split_and!.
  - intros q Hq. by apply not_elem_of_nil in Hq.
  - reflexivity.
  - vm_compute. discriminate.
Defined.

Lemma scsi_errors_are_sensed_witness :
  exists st st1, storage_ensure_block example_state example_allocs 0 = (st, 0) /\
    kb_usb_storage_subsystem_scsi_command st 0x40 (Some (rw10 KB_SCSI_OP_READ_10 63 2)) (Some (replicate 1024 0)) 1024 false =
    Done (inr (st1, Some (replicate 1024 0), illegal_result KB_SCSI_ASC_LBA_OUT_OF_RANGE 1024)).
Proof.
  destruct example_serves as (st & E & Hs).
  destruct (scsi_errors_are_sensed st 0x40 0 64 (fun _ => 0) (replicate 1024 0) 1024 Hs) as [H _].
  destruct (H 63 2 false) as [Hfar _]; [split; lia|split; lia|discriminate|].
  destruct Hfar as (st1 & Hc & _); [reflexivity|]. exists st, st1. split; [exact E|exact Hc].
Defined.

Lemma bot_answers_every_packet_witness :
  exists reply, kb_usb_storage_subsystem_bot_transfer example_state 0x40
      (Some (storage_build_bot_cbw 5 36 true [KB_SCSI_OP_INQUIRY; 0; 0; 0; 36; 0])) (Some (replicate 36 0)) 36 = Done reply /\
    bot_answered example_state 0x40 (storage_build_bot_cbw 5 36 true [KB_SCSI_OP_INQUIRY; 0; 0; 0; 36; 0]) reply.
Proof.
  apply bot_answers_every_packet. apply Forall_forall. intros x Hx. vm_compute in Hx.
  repeat (apply elem_of_cons in Hx as [->|Hx]; [vm_compute; split; (discriminate || reflexivity)|]).
  by apply not_elem_of_nil in Hx.
Defined.

Lemma disk_read_after_write_witness :
  exists st st1 st2, storage_ensure_block example_state example_allocs 0 = (st, 0) /\
    kb_block_subsystem_disk_write st (sn_disk (snap st 0)) 3 (Some (replicate 512 9)) = (st1, 0) /\
    kb_block_subsystem_disk_read st1 (sn_disk (snap st 0)) 3 true 512 = (st2, 0, replicate 512 9).
Proof.
  destruct example_serves as (st & E & s & Hat & Hc & Hcall & _).
  destruct (attached_write st 0x40 0 s 3 1 (replicate 512 9) Hat Hcall) as (st1 & Hw & _); [lia|lia|lia|reflexivity|].
  destruct (disk_read_after_write (Z.of_nat 0) storage_block_read storage_block_write st st1 (sn_disk (snap st 0)) s 3
    (replicate 512 9)) as [(st2 & Hr) _].
  - apply Hat.
  - apply Hat.
  - apply Hat.
  - apply (at_ready _ _ _ _ Hat).
  - lia.
  - apply (attached_range st 0x40 0 s 3 1 Hat); lia.
  - exact Hw.
  - exists st, st1, st2. split; [exact E|]. split; [exact Hw|exact Hr].
Defined.
