(* ===== verification/Memory.v ===== *)
(** * A flat byte memory

    The objects a module hands to kobox (an input device, a file, a process) are
    raw memory whose layout kobox knows by offsets; it reads and writes them with
    [memcpy] of integers at [base + offset].  This file is the address space
    those accesses go to: a finite map from addresses to bytes, 0 elsewhere, with
    little-endian integers of any width and the load/store laws the components
    share.  Overlapping objects alias as they do in C. *)

From S2P Require Import Prelude.

Abbreviation mem := (gmap Z Z).

Definition mem_byte (m : mem) (a : Z) : Z := default 0 (m !! a).

(** [memcpy(&v, a, n)] into [n] bytes. *)
Fixpoint mload (m : mem) (a : Z) (n : nat) : list Z :=
  match n with
  | O => []
  | S n => mem_byte m a :: mload m (a + 1) n
  end.

(** [memcpy(a, q, sizeof(q))]. *)
Fixpoint mstore (m : mem) (a : Z) (q : list Z) : mem :=
  match q with
  | [] => m
  | b :: q => mstore (<[a := b]> m) (a + 1) q
  end.

(** [memset(a, 0, n)]. *)
Definition mzero (m : mem) (a n : Z) : mem := mstore m a (replicate (Z.to_nat n) 0).

(** The same for ranges too long to write out byte by byte: memory is 0 where the
    map has no entry. *)
Definition mclear (m : mem) (a n : Z) : mem := filter (fun c => ~ (a <= c.1 < a + n)) m.

(** ** Little-endian integers *)

Fixpoint le_value (q : list Z) : Z :=
  match q with
  | [] => 0
  | b :: q => b + 256 * le_value q
  end.

Fixpoint le_bytes (n : nat) (v : Z) : list Z :=
  match n with
  | O => []
  | S n => v mod 256 :: le_bytes n (v / 256)
  end.

Definition mload16 (m : mem) (a : Z) : Z := le_value (mload m a 2).
Definition mload32 (m : mem) (a : Z) : Z := le_value (mload m a 4).
Definition mload64 (m : mem) (a : Z) : Z := le_value (mload m a 8).
(** A C [int]. *)
Definition mload_int (m : mem) (a : Z) : Z := s32 (mload32 m a).

Definition mstore16 (m : mem) (a v : Z) : mem := mstore m a (le_bytes 2 v).
Definition mstore32 (m : mem) (a v : Z) : mem := mstore m a (le_bytes 4 v).
Definition mstore64 (m : mem) (a v : Z) : mem := mstore m a (le_bytes 8 v).

(** [n] consecutive 64-bit words. *)
Fixpoint mload64s (m : mem) (a : Z) (n : nat) : list Z :=
  match n with
  | O => []
  | S n => mload64 m a :: mload64s m (a + 8) n
  end.

(** The string at [value], at most [max_len] bytes of it. *)
Fixpoint bounded_string (m : mem) (value : Z) (max_len : nat) : list Z :=
  match max_len with
  | O => []
  | S n => let b := mem_byte m value in
           if b =? 0 then [] else b :: bounded_string m (value + 1) n
  end.

(** A whole C string: memory is finite, so one byte more than it holds is enough
    to reach the terminator. *)
Definition mem_string (m : mem) (value : Z) : list Z := bounded_string m value (S (size m)).

(** ** Laws *)

Lemma length_le_bytes n v : length (le_bytes n v) = n.
Proof. revert v. induction n as [|n IH]; intros v; cbn [le_bytes length]; [done|by rewrite IH]. Qed.

Lemma le_value_bytes n v : le_value (le_bytes n v) = v mod 256 ^ Z.of_nat n.
Proof.
  revert v. induction n as [|n IH]; intros v; [by rewrite Z.mod_1_r|].
  cbn [le_bytes le_value]. rewrite IH, Nat2Z.inj_succ, Z.pow_succ_r by lia.
  pose proof (Z.pow_pos_nonneg 256 (Z.of_nat n)). rewrite Z.rem_mul_r by lia. lia.
Qed.

Lemma length_mload m a n : length (mload m a n) = n.
Proof. revert a. induction n as [|n IH]; intros a; cbn [mload length]; [done|by rewrite IH]. Qed.

Lemma length_mload64s m a n : length (mload64s m a n) = n.
Proof. revert a. induction n as [|n IH]; intros a; cbn [mload64s length]; [done|by rewrite IH]. Qed.

Lemma lookup_mload64s m a n i :
  (i < n)%nat -> mload64s m a n !! i = Some (mload64 m (a + 8 * Z.of_nat i)).
Proof.
  revert a i. induction n as [|n IH]; intros a i Hi; [lia|].
  destruct i as [|i]; cbn [mload64s lookup list_lookup]; [by rewrite Z.add_0_r|].
  rewrite IH by lia. do 2 f_equal. lia.
Qed.

Lemma mem_byte_mstore_out m a q b :
  b < a \/ a + Z.of_nat (length q) <= b -> mem_byte (mstore m a q) b = mem_byte m b.
Proof.
  revert m a. induction q as [|x q IH]; intros m a Hb; cbn [mstore]; [done|].
  cbn [length] in Hb. rewrite IH by lia. unfold mem_byte.
  rewrite lookup_insert_ne by lia. done.
Qed.

Lemma mem_byte_mclear m a n b :
  mem_byte (mclear m a n) b = if decide (a <= b < a + n) then 0 else mem_byte m b.
Proof.
  unfold mem_byte, mclear. rewrite map_lookup_filter. case_decide as Hb.
  - destruct (m !! b) as [x|]; [|done]. cbn. rewrite option_guard_False; [done|]. cbn. tauto.
  - destruct (m !! b) as [x|]; [|done]. cbn. by rewrite option_guard_True.
Qed.

Lemma mload_mclear_in m a n b k :
  a <= b -> b + Z.of_nat k <= a + n -> mload (mclear m a n) b k = replicate k 0.
Proof.
  revert b. induction k as [|k IH]; intros b Hb Hk; cbn [mload replicate]; [done|].
  rewrite IH, mem_byte_mclear, decide_True by lia. done.
Qed.

Lemma mload_mclear_out m a n b k :
  b + Z.of_nat k <= a \/ a + n <= b -> mload (mclear m a n) b k = mload m b k.
Proof.
  revert b. induction k as [|k IH]; intros b Hb; cbn [mload]; [done|].
  rewrite IH, mem_byte_mclear, decide_False by lia. done.
Qed.

Lemma mload_mstore_same m a q : mload (mstore m a q) a (length q) = q.
Proof.
  revert m a. induction q as [|x q IH]; intros m a; cbn [mstore length mload]; [done|].
  rewrite IH, mem_byte_mstore_out by lia. unfold mem_byte. by rewrite lookup_insert_eq.
Qed.

Lemma mload_mstore_other m a q b n :
  b + Z.of_nat n <= a \/ a + Z.of_nat (length q) <= b -> mload (mstore m a q) b n = mload m b n.
Proof.
  revert b. induction n as [|n IH]; intros b Hb; cbn [mload]; [done|].
  rewrite IH by lia. rewrite mem_byte_mstore_out by lia. done.
Qed.

Lemma mem_byte_mstore m a q b :
  mem_byte (mstore m a q) b = if decide (a <= b < a + blen q) then nth (Z.to_nat (b - a)) q 0 else mem_byte m b.
Proof.
  case_decide as H; [|apply mem_byte_mstore_out; unfold blen in *; lia].
  revert m a H. induction q as [|x q IH]; intros m a H; cbn [mstore]; [unfold blen in H; cbn in H; lia|].
  destruct (decide (b = a)) as [->|Hne].
  - rewrite mem_byte_mstore_out by lia. rewrite Z.sub_diag. unfold mem_byte. by rewrite lookup_insert_eq.
  - rewrite IH by (unfold blen in *; cbn [length] in H; lia). replace (Z.to_nat (b - a)) with (S (Z.to_nat (b - (a + 1)))) by lia. done.
Qed.

Lemma nth_mload m a n i : 0 <= i < n -> nth (Z.to_nat i) (mload m a (Z.to_nat n)) 0 = mem_byte m (a + i).
Proof.
  intros Hi. assert (exists k, n = Z.of_nat k) as [k ->] by (exists (Z.to_nat n); lia). rewrite Nat2Z.id.
  revert a i Hi. induction k as [|k IH]; intros a i Hi; [lia|]. cbn [mload].
  destruct (decide (i = 0)) as [->|]; [by rewrite Z.add_0_r|]. replace (Z.to_nat i) with (S (Z.to_nat (i - 1))) by lia.
  cbn [nth]. rewrite IH by lia. f_equal. lia.
Qed.

Lemma blen_mload m a n : 0 <= n -> blen (mload m a (Z.to_nat n)) = n.
Proof. intros. unfold blen. rewrite length_mload. lia. Qed.

Lemma lookup_mload m a n (i : nat) : mload m a n !! i = if decide (i < n)%nat then Some (mem_byte m (a + Z.of_nat i)) else None.
Proof.
  revert a i. induction n as [|n IH]; intros a i; [done|]. destruct i as [|i]; cbn [mload lookup list_lookup].
  - by rewrite Z.add_0_r.
  - rewrite IH. repeat case_decide; try lia; [|done]. do 2 f_equal. lia.
Qed.

(** Bytes stored inside a range show in it at their offset. *)
Lemma mload_mstore_inside m a n o q :
  0 <= o -> o + blen q <= Z.of_nat n -> mload (mstore m (a + o) q) a n = splice (mload m a n) o q.
Proof.
  intros Ho Hq. apply list_eq. intros i. rewrite lookup_splice by (unfold blen in *; rewrite ?length_mload; lia).
  rewrite !lookup_mload. repeat case_decide.
  - rewrite mem_byte_mstore, decide_True by lia. destruct (lookup_lt_is_Some_2 q (i - Z.to_nat o)%nat) as [x Hx]; [unfold blen in *; lia|].
    rewrite Hx, nth_lookup. replace (Z.to_nat (a + Z.of_nat i - (a + o))) with (i - Z.to_nat o)%nat by lia. by rewrite Hx.
  - f_equal. rewrite mem_byte_mstore, decide_False by lia. done.
  - unfold blen in *. lia.
  - done.
Qed.

Lemma take_mload k m a n : (k <= n)%nat -> take k (mload m a n) = mload m a k.
Proof.
  revert a n. induction k as [|k IH]; intros a n H; [done|]. destruct n as [|n]; [lia|]. cbn. f_equal. apply IH. lia.
Qed.

Lemma mload64_mstore64_same m a v : is_u64 v -> mload64 (mstore64 m a v) a = v.
Proof.
  intros Hv. unfold mload64, mstore64. rewrite <- (length_le_bytes 8 v) at 2.
  rewrite mload_mstore_same, le_value_bytes. by apply u64_small.
Qed.

Lemma mload64_mstore_other m a q b :
  b + 8 <= a \/ a + Z.of_nat (length q) <= b -> mload64 (mstore m a q) b = mload64 m b.
Proof. intros H. unfold mload64. rewrite mload_mstore_other by lia. done. Qed.

Lemma mload64_mstore64_other m a v b :
  b + 8 <= a \/ a + 8 <= b -> mload64 (mstore64 m a v) b = mload64 m b.
Proof.
  intros H. unfold mstore64. apply mload64_mstore_other. rewrite length_le_bytes. lia.
Qed.

Lemma mload64s_mstore_other m a q b n :
  b + 8 * Z.of_nat n <= a \/ a + Z.of_nat (length q) <= b ->
  mload64s (mstore m a q) b n = mload64s m b n.
Proof.
  revert b. induction n as [|n IH]; intros b Hb; cbn [mload64s]; [done|].
  rewrite IH by lia. rewrite mload64_mstore_other by lia. done.
Qed.

Lemma mload32_mstore32_same m a v : is_u32 v -> mload32 (mstore32 m a v) a = v.
Proof.
  intros Hv. unfold mload32, mstore32. rewrite <- (length_le_bytes 4 v) at 2.
  rewrite mload_mstore_same, le_value_bytes. by apply u32_small.
Qed.

(** Bytes of a memory whose cells are bytes. *)
Definition mem_ok (m : mem) : Prop := map_Forall (fun _ b => is_u8 b) m.

Lemma mem_byte_ok m a : mem_ok m -> is_u8 (mem_byte m a).
Proof.
  intros H. unfold mem_byte. destruct (m !! a) as [b|] eqn:E; [by apply (H a)|].
  cbn. unfold is_u8. lia.
Qed.

Lemma le_value_range m a n : mem_ok m -> 0 <= le_value (mload m a n) < 256 ^ Z.of_nat n.
Proof.
  intros H. revert a. induction n as [|n IH]; intros a; [done|].
  rewrite Nat2Z.inj_succ, Z.pow_succ_r by lia. cbn [mload le_value].
  pose proof (mem_byte_ok m a H) as Hb. specialize (IH (a + 1)). unfold is_u8 in Hb. lia.
Qed.

Lemma mload64_range m a : mem_ok m -> is_u64 (mload64 m a).
Proof. intros H. apply (le_value_range m a 8 H). Qed.

Lemma mem_ok_mstore m a q : mem_ok m -> bytes_ok q -> mem_ok (mstore m a q).
Proof.
  revert m a. induction q as [|b q IH]; intros m a Hm Hq; cbn [mstore]; [done|].
  apply Forall_cons in Hq as [Hb Hq]. apply IH; [|done]. by apply map_Forall_insert_2.
Qed.

Lemma bytes_ok_le_bytes n v : bytes_ok (le_bytes n v).
Proof.
  revert v. induction n as [|n IH]; intros v; cbn [le_bytes]; constructor; [|apply IH].
  apply Z.mod_pos_bound. lia.
Qed.
