(* ===== verification/InputEvents.v ===== *)
(** * Input devices and the event queue (src/src/linux_subsystem/input/input.c)

    A table of 64 device records, each with a snapshot of what the module's
    [struct input_dev] says and a stage that collects the events of the current
    frame, and one ring buffer of 1024 events all devices share.  A frame is
    published when the driver reports SYN_REPORT; a frame that does not fit
    empties the queue and leaves SYN_DROPPED markers instead.

    Record pointers are indices into the table.  The module's device objects and
    the absinfo arrays live in the byte memory of Memory.v.  [kb_kzalloc] and
    [calloc] return the address given by an argument (0 on failure); what is
    freed is logged.  A driver's [open] and [close] are parameters that may
    themselves call back into the subsystem.  The switch of the GS base around
    them, tracing and [print_summary] are left out. *)

From S2P Require Import Prelude Memory.

Definition KB_INPUT_DEVICE_MAX : Z := 64.
Definition KB_INPUT_FRAME_STAGE_MAX : Z := 255.
Definition KB_INPUT_NAME_MAX : Z := 128.
Definition KB_INPUT_PHYS_MAX : Z := 128.
Definition KB_INPUT_UNIQ_MAX : Z := 128.
Definition KB_INPUT_ABS_MAX : Z := 64.
Definition KB_INPUT_KEY_WORDS : Z := 12.
Definition KB_INPUT_FF_WORDS : Z := 2.
Definition KB_INPUT_EVENT_QUEUE_MAX : Z := 1024.
Definition KB_INPUT_LINUX_DEVICE_STORAGE_SIZE : Z := 8192.

Definition KB_LINUX_INPUT_DEV_NAME_OFFSET : Z := 0.
Definition KB_LINUX_INPUT_DEV_PHYS_OFFSET : Z := 8.
Definition KB_LINUX_INPUT_DEV_UNIQ_OFFSET : Z := 16.
Definition KB_LINUX_INPUT_DEV_ID_OFFSET : Z := 24.
Definition KB_LINUX_6_8_INPUT_DEV_PROPBIT_OFFSET : Z := 32.
Definition KB_LINUX_6_8_INPUT_DEV_EVBIT_OFFSET : Z := 40.
Definition KB_LINUX_6_8_INPUT_DEV_KEYBIT_OFFSET : Z := 48.
Definition KB_LINUX_6_8_INPUT_DEV_RELBIT_OFFSET : Z := 144.
Definition KB_LINUX_6_8_INPUT_DEV_ABSBIT_OFFSET : Z := 152.
Definition KB_LINUX_6_8_INPUT_DEV_MSCBIT_OFFSET : Z := 160.
Definition KB_LINUX_6_8_INPUT_DEV_LEDBIT_OFFSET : Z := 168.
Definition KB_LINUX_6_8_INPUT_DEV_SNDBIT_OFFSET : Z := 176.
Definition KB_LINUX_6_8_INPUT_DEV_FFBIT_OFFSET : Z := 184.
Definition KB_LINUX_6_8_INPUT_DEV_SWBIT_OFFSET : Z := 200.
Definition KB_LINUX_6_8_INPUT_DEV_ABSINFO_OFFSET : Z := 328.
Definition KB_LINUX_6_8_INPUT_DEV_KEY_OFFSET : Z := 336.
Definition KB_LINUX_6_8_INPUT_DEV_LED_OFFSET : Z := 432.
Definition KB_LINUX_6_8_INPUT_DEV_SND_OFFSET : Z := 440.
Definition KB_LINUX_6_8_INPUT_DEV_SW_OFFSET : Z := 448.
Definition KB_LINUX_6_8_INPUT_DEV_OPEN_OFFSET : Z := 456.
Definition KB_LINUX_6_8_INPUT_DEV_CLOSE_OFFSET : Z := 464.
Definition KB_LINUX_6_8_INPUT_ABSINFO_SIZE : Z := 24.

Definition KB_INPUT_EV_SYN : Z := 0.
Definition KB_INPUT_EV_KEY : Z := 1.
Definition KB_INPUT_EV_REL : Z := 2.
Definition KB_INPUT_EV_ABS : Z := 3.
Definition KB_INPUT_EV_SW : Z := 5.
Definition KB_INPUT_EV_LED : Z := 0x11.
Definition KB_INPUT_EV_SND : Z := 0x12.
Definition KB_INPUT_SYN_REPORT : Z := 0.
Definition KB_INPUT_SYN_DROPPED : Z := 3.
Definition KB_INPUT_ABS_MT_SLOT : Z := 0x2f.

(** ** Data *)

Record kb_input_staged_event := mk_staged {
  st_type : Z;
  st_code : Z;
  st_value : Z;
}.

Record kb_input_event := mk_event {
  ev_sequence : Z;
  ev_device_id : Z;
  ev_linux_dev : Z;
  ev_type : Z;
  ev_code : Z;
  ev_value : Z;
}.
#[export] Instance kb_input_event_eq_dec : EqDecision kb_input_event.
Proof. solve_decision. Defined.

Record kb_input_id := mk_input_id {
  id_bustype : Z;
  id_vendor : Z;
  id_product : Z;
  id_version : Z;
}.

Record kb_input_abs_params := mk_abs_params {
  abs_active : bool;
  abs_value : Z;
  abs_minimum : Z;
  abs_maximum : Z;
  abs_fuzz : Z;
  abs_flat : Z;
  abs_resolution : Z;
}.
#[export] Instance abs_params_eta : Settable kb_input_abs_params := fun r =>
  mk_abs_params (abs_active r) (abs_value r) (abs_minimum r) (abs_maximum r) (abs_fuzz r)
    (abs_flat r) (abs_resolution r).

Record kb_input_device_snapshot := mk_snapshot {
  sn_active : bool;
  sn_id : Z;
  sn_linux_dev : Z;
  sn_name : list Z;
  sn_phys : list Z;
  sn_uniq : list Z;
  sn_input_id : kb_input_id;
  sn_prop_bits : Z;
  sn_event_bits : Z;
  sn_key_bits : list Z;
  sn_key_state : list Z;
  sn_rel_bits : Z;
  sn_abs_bits : Z;
  sn_msc_bits : Z;
  sn_led_bits : Z;
  sn_snd_bits : Z;
  sn_ff_bits : list Z;
  sn_sw_bits : Z;
  sn_led_state : Z;
  sn_snd_state : Z;
  sn_sw_state : Z;
  sn_event_count : Z;
  sn_dropped_events : Z;
  sn_opened : bool;
  sn_open_result : Z;
  sn_mt_slots : Z;
  sn_mt_flags : Z;
  sn_abs : list kb_input_abs_params;
}.
#[export] Instance snapshot_eta : Settable kb_input_device_snapshot := fun r =>
  mk_snapshot (sn_active r) (sn_id r) (sn_linux_dev r) (sn_name r) (sn_phys r) (sn_uniq r)
    (sn_input_id r) (sn_prop_bits r) (sn_event_bits r) (sn_key_bits r) (sn_key_state r)
    (sn_rel_bits r) (sn_abs_bits r) (sn_msc_bits r) (sn_led_bits r) (sn_snd_bits r)
    (sn_ff_bits r) (sn_sw_bits r) (sn_led_state r) (sn_snd_state r) (sn_sw_state r)
    (sn_event_count r) (sn_dropped_events r) (sn_opened r) (sn_open_result r)
    (sn_mt_slots r) (sn_mt_flags r) (sn_abs r).

Record kb_input_device_record := mk_device_record {
  snapshot : kb_input_device_snapshot;
  allocated : bool;
  absinfo_allocated : bool;
  absinfo : Z;
  stage_count : Z;
  stage_dropped_events : Z;
  stage_dropped : bool;
  stage : list kb_input_staged_event;
}.
#[export] Instance device_record_eta : Settable kb_input_device_record := fun r =>
  mk_device_record (snapshot r) (allocated r) (absinfo_allocated r) (absinfo r) (stage_count r)
    (stage_dropped_events r) (stage_dropped r) (stage r).

Definition zero_event : kb_input_event := mk_event 0 0 0 0 0 0.

Definition zero_snapshot : kb_input_device_snapshot :=
  mk_snapshot false 0 0 [] [] [] (mk_input_id 0 0 0 0) 0 0
    (replicate (Z.to_nat KB_INPUT_KEY_WORDS) 0) (replicate (Z.to_nat KB_INPUT_KEY_WORDS) 0)
    0 0 0 0 0 (replicate (Z.to_nat KB_INPUT_FF_WORDS) 0) 0 0 0 0 0 0 false 0 0 0
    (replicate (Z.to_nat KB_INPUT_ABS_MAX) (mk_abs_params false 0 0 0 0 0 0)).

(** [memset(record, 0, sizeof( *record))] *)
Definition zero_record : kb_input_device_record :=
  mk_device_record zero_snapshot false false 0 0 0 false
    (replicate (Z.to_nat KB_INPUT_FRAME_STAGE_MAX) (mk_staged 0 0 0)).

(** The blocks given back to the two allocators. *)
Inductive input_freed :=
  | Kfreed (p : Z)
  | Freed (p : Z).

Record input_state := mk_input_state {
  input_devices : list kb_input_device_record;
  input_events : list kb_input_event;
  input_event_head : Z;
  input_event_count : Z;
  next_event_sequence : Z;
  next_device_id : Z;
  in_mem : mem;
  in_freed : list input_freed;
}.
#[export] Instance input_state_eta : Settable input_state := fun r =>
  mk_input_state (input_devices r) (input_events r) (input_event_head r) (input_event_count r)
    (next_event_sequence r) (next_device_id r) (in_mem r) (in_freed r).

Definition input_state_init (m : mem) : input_state :=
  mk_input_state (replicate (Z.to_nat KB_INPUT_DEVICE_MAX) zero_record)
    (replicate (Z.to_nat KB_INPUT_EVENT_QUEUE_MAX) zero_event) 0 0 1 1 m [].

(** [input_devices[i]] and an update through a pointer to it. *)
Definition record_at (s : input_state) (i : nat) : kb_input_device_record :=
  default zero_record (input_devices s !! i).

Definition with_record (f : kb_input_device_record -> kb_input_device_record) (i : nat)
    (s : input_state) : input_state :=
  s <| input_devices ::= alter f i |>.

(** ** Strings *)

Definition pointer_is_error_or_low (value : Z) : bool :=
  (value <? 4096) || (UINT64_MAX - 4095 <=? value).

Definition bounded_strlen (m : mem) (value max_len : Z) : Z :=
  if value =? 0 then 0 else Z.of_nat (length (bounded_string m value (Z.to_nat max_len))).

(** The string a buffer of [dst_size] bytes holds afterwards. *)
Definition copy_known_string (m : mem) (dst_size src : Z) (fallback : list Z) : list Z :=
  if negb (src =? 0) && negb (pointer_is_error_or_low src)
  then mload m src (Z.to_nat (bounded_strlen m src (dst_size - 1)))
  else take (Z.to_nat (dst_size - 1)) fallback.

Definition linux_input_string (m : mem) (dev offset : Z) : Z :=
  if dev =? 0 then 0 else mload64 m (dev + offset).

Definition linux_input_ptr (m : mem) (dev offset : Z) : Z :=
  if dev =? 0 then 0 else mload64 m (dev + offset).

Definition linux_input_id (m : mem) (dev : Z) : kb_input_id :=
  if dev =? 0 then mk_input_id 0 0 0 0
  else let at_ i := mload16 m (dev + KB_LINUX_INPUT_DEV_ID_OFFSET + 2 * i) in
       mk_input_id (at_ 0) (at_ 1) (at_ 2) (at_ 3).

(** ** Records *)

Definition find_device (s : input_state) (dev : Z) : option nat :=
  if dev =? 0 then None
  else first_index (fun r => sn_linux_dev (snapshot r) =? dev) (input_devices s).

Definition find_device_by_id (s : input_state) (device_id : Z) : option nat :=
  if device_id =? 0 then None
  else first_index (fun r => sn_id (snapshot r) =? device_id) (input_devices s).

(** [next_device_id++] into the [id] of a fresh record. *)
Definition claim_record (i : nat) (f : kb_input_device_snapshot -> kb_input_device_snapshot)
    (s : input_state) : input_state :=
  s <| input_devices ::= <[ i := zero_record <| snapshot ::= fun n =>
                                  f (n <| sn_id := next_device_id s |>) |> ]> |>
    <| next_device_id := u32 (next_device_id s + 1) |>.

Definition alloc_record (dev : Z) (s : input_state) : input_state * option nat :=
  match find_device s dev with
  | Some i => (s, Some i)
  | None =>
      if dev =? 0 then (s, None)
      else match first_index (fun r => sn_linux_dev (snapshot r) =? 0) (input_devices s) with
           | Some i => (claim_record i (fun n => n <| sn_linux_dev := dev |>) s, Some i)
           | None => (s, None)
           end
  end.

Definition fallback_event_record (s : input_state) : input_state * option nat :=
  match first_index (fun r => sn_active (snapshot r) && sn_opened (snapshot r)) (input_devices s) with
  | Some i => (s, Some i)
  | None =>
      match first_index (fun r => sn_active (snapshot r)) (input_devices s) with
      | Some i => (s, Some i)
      | None =>
          match first_index (fun r => (sn_id (snapshot r) =? 0) && (sn_linux_dev (snapshot r) =? 0))
                  (input_devices s) with
          | Some i => (claim_record i (fun n => n <| sn_active := true |>
                                                 <| sn_name := cstr "input" |>) s, Some i)
          | None => (s, None)
          end
      end
  end.

(** ** The ring buffer *)

Definition event_at (s : input_state) (index : Z) : kb_input_event :=
  default zero_event (input_events s !! Z.to_nat index).

Definition set_event (s : input_state) (index : Z) (e : kb_input_event) : input_state :=
  s <| input_events ::= <[ Z.to_nat index := e ]> |>.

(** One iteration of the loop of purge_queued_events_for_device. *)
Definition purge_step (device_id : Z) (s : input_state) : input_state :=
  let event := event_at s (input_event_head s) in
  let s := s <| input_event_head ::= fun h => (h + 1) mod KB_INPUT_EVENT_QUEUE_MAX |>
             <| input_event_count ::= fun c => c - 1 |> in
  if ev_device_id event =? device_id then s
  else
    let tail := (input_event_head s + input_event_count s) mod KB_INPUT_EVENT_QUEUE_MAX in
    set_event s tail event <| input_event_count ::= fun c => c + 1 |>.

Definition purge_queued_events_for_device (device_id : Z) (s : input_state) : input_state :=
  let s := Nat.iter (Z.to_nat (input_event_count s)) (purge_step device_id) s in
  if input_event_count s =? 0 then s <| input_event_head := 0 |> else s.

Definition append_input_event_unchecked (i : nat) (type code value : Z) (s : input_state) : input_state :=
  if KB_INPUT_EVENT_QUEUE_MAX <=? input_event_count s then s
  else
    let index := (input_event_head s + input_event_count s) mod KB_INPUT_EVENT_QUEUE_MAX in
    let sn := snapshot (record_at s i) in
    set_event s index (mk_event (next_event_sequence s) (sn_id sn) (sn_linux_dev sn) type code value)
      <| input_event_count ::= fun c => c + 1 |>
      <| next_event_sequence ::= fun q => u64 (q + 1) |>.

Definition append_recovery_frame_unchecked (i : nat) (s : input_state) : input_state :=
  if negb (sn_active (snapshot (record_at s i))) ||
     (KB_INPUT_EVENT_QUEUE_MAX - 2 <? input_event_count s) then s
  else append_input_event_unchecked i KB_INPUT_EV_SYN KB_INPUT_SYN_REPORT 0
         (append_input_event_unchecked i KB_INPUT_EV_SYN KB_INPUT_SYN_DROPPED 0 s).

(** The [lost_events] array after its two loops: what the queue holds for each
    record, plus what the current record loses. *)
Definition count_lost (s : input_state) (lost : list Z) (k : nat) : list Z :=
  let event := event_at s ((input_event_head s + Z.of_nat k) mod KB_INPUT_EVENT_QUEUE_MAX) in
  match find_device_by_id s (ev_device_id event) with
  | Some i => alter (fun n => u64 (n + 1)) i lost
  | None => lost
  end.

Definition lost_events_of (s : input_state) (current : nat) (current_lost_events : Z) : list Z :=
  let lost := foldl (count_lost s) (replicate (Z.to_nat KB_INPUT_DEVICE_MAX) 0)
                (seq 0 (Z.to_nat (input_event_count s))) in
  if current_lost_events =? 0 then lost
  else alter (fun n => u64 (n + current_lost_events)) current lost.

(** The body of its last loop, for record [i]. *)
Definition recover_record (current : nat) (lost : list Z) (s : input_state) (i : nat) : input_state :=
  let n := default 0 (lost !! i) in
  if n =? 0 then s
  else
    let s := with_record (fun r => r <| snapshot ::= fun sn =>
                            sn <| sn_dropped_events ::= fun d => u64 (d + n) |> |>) i s in
    let r := record_at s i in
    if bool_decide (i <> current) && (negb (stage_count r =? 0) || stage_dropped r)
    then if stage_dropped r then s
         else with_record (fun r => r <| stage_dropped := true |>
                                      <| stage_dropped_events := stage_count r |>
                                      <| stage_count := 0 |>) i s
    else append_recovery_frame_unchecked i s.

Definition recover_input_event_queue_overflow (current : nat) (current_lost_events : Z)
    (s : input_state) : input_state :=
  let lost := lost_events_of s current current_lost_events in
  foldl (recover_record current lost) (s <| input_event_head := 0 |> <| input_event_count := 0 |>)
    (seq 0 (Z.to_nat KB_INPUT_DEVICE_MAX)).

(** ** Frames *)

Definition reset_staged_input_frame (i : nat) (s : input_state) : input_state :=
  with_record (fun r => r <| stage_count := 0 |> <| stage_dropped_events := 0 |>
                          <| stage_dropped := false |>) i s.

Definition append_staged (i : nat) (s : input_state) (k : nat) : input_state :=
  let e := default (mk_staged 0 0 0) (stage (record_at s i) !! k) in
  append_input_event_unchecked i (st_type e) (st_code e) (st_value e) s.

Definition publish_staged_input_frame (i : nat) (s : input_state) : input_state :=
  let r := record_at s i in
  if negb (sn_active (snapshot r)) then reset_staged_input_frame i s
  else if stage_dropped r then
    let lost := u64 (stage_dropped_events r + 1) in
    let s := if KB_INPUT_EVENT_QUEUE_MAX - 2 <? input_event_count s
             then recover_input_event_queue_overflow i lost s
             else append_recovery_frame_unchecked i
                    (with_record (fun r => r <| snapshot ::= fun sn =>
                       sn <| sn_dropped_events ::= fun d => u64 (d + lost) |> |>) i s) in
    reset_staged_input_frame i s
  else if stage_count r =? 0 then s
  else
    let required := stage_count r + 1 in
    if KB_INPUT_EVENT_QUEUE_MAX - required <? input_event_count s
    then reset_staged_input_frame i (recover_input_event_queue_overflow i required s)
    else
      let s := foldl (append_staged i) s (seq 0 (Z.to_nat (stage_count r))) in
      reset_staged_input_frame i
        (append_input_event_unchecked i KB_INPUT_EV_SYN KB_INPUT_SYN_REPORT 0 s).

(** ** Event state *)

(** [tolerance] and its multiples are computed in 64 bits; C division truncates. *)
Definition defuzz_abs_event (value old_value fuzz : Z) : Z :=
  if 0 <? fuzz then
    if (old_value - Z.quot fuzz 2 <? value) && (value <? old_value + Z.quot fuzz 2) then old_value
    else if (old_value - fuzz <? value) && (value <? old_value + fuzz)
    then s32 (Z.quot (old_value * 3 + value) 4)
    else if (old_value - fuzz * 2 <? value) && (value <? old_value + fuzz * 2)
    then s32 (Z.quot (old_value + value) 2)
    else value
  else value.

Definition with_snapshot (f : kb_input_device_snapshot -> kb_input_device_snapshot) (i : nat)
    (s : input_state) : input_state :=
  with_record (fun r => r <| snapshot ::= f |>) i s.

(** The new state, whether the event passes, and the value as adjusted. *)
Definition update_abs_event_state (i : nat) (code value : Z) (s : input_state)
    : input_state * bool * Z :=
  let r := record_at s i in
  if (KB_INPUT_ABS_MAX <=? code) || negb (Z.testbit (sn_abs_bits (snapshot r)) code) ||
     (absinfo r =? 0)
  then (s, false, value)
  else if KB_INPUT_ABS_MT_SLOT <=? code then (s, false, value)
  else
    let a := absinfo r + code * KB_LINUX_6_8_INPUT_ABSINFO_SIZE in
    let value0 := mload_int (in_mem s) a in
    let value := defuzz_abs_event value value0 (mload_int (in_mem s) (a + 12)) in
    if value =? value0 then (s, false, value)
    else
      let s := s <| in_mem ::= fun m => mstore32 m a (u32 value) |> in
      (with_snapshot (fun sn => sn <| sn_abs ::= alter (fun p => p <| abs_value := value |>)
                                                  (Z.to_nat code) |>) i s, true, value).

Definition update_key_event_state (i : nat) (code value : Z) (s : input_state) : input_state * bool :=
  let sn := snapshot (record_at s i) in
  let word := Z.to_nat (code / 64) in
  let bit := code mod 64 in
  if (KB_INPUT_KEY_WORDS <=? code / 64) || negb (Z.testbit (default 0 (sn_key_bits sn !! word)) bit)
  then (s, false)
  else if value =? 2 then (s, true)
  else
    let pressed := negb (value =? 0) in
    if Bool.eqb (Z.testbit (default 0 (sn_key_state sn !! word)) bit) pressed then (s, false)
    else
      let state_slot := sn_linux_dev sn + KB_LINUX_6_8_INPUT_DEV_KEY_OFFSET + (code / 64) * 8 in
      let set_ w := if pressed then Z.setbit w bit else Z.clearbit w bit in
      let s := with_snapshot (fun sn => sn <| sn_key_state ::= alter set_ word |>) i s in
      (s <| in_mem ::= fun m => mstore64 m state_slot (set_ (mload64 m state_slot)) |>, true).

(** [get] and [put] read and write the field [snapshot_state] points to. *)
Definition update_single_word_state (i : nat) (code value supported linux_state_offset : Z)
    (get : kb_input_device_snapshot -> Z)
    (put : Z -> kb_input_device_snapshot -> kb_input_device_snapshot)
    (pass_unchanged : bool) (s : input_state) : input_state * bool :=
  let sn := snapshot (record_at s i) in
  if 64 <=? code then (s, false)
  else if negb (Z.testbit supported code) then (s, false)
  else
    let enabled := negb (value =? 0) in
    if Bool.eqb (Z.testbit (get sn) code) enabled then (s, pass_unchanged)
    else
      let w := if enabled then Z.setbit (get sn) code else Z.clearbit (get sn) code in
      let s := with_snapshot (put w) i s in
      (s <| in_mem ::= fun m => mstore64 m (sn_linux_dev sn + linux_state_offset) w |>, true).

Definition update_switch_event_state (i : nat) (code value : Z) (s : input_state) : input_state * bool :=
  update_single_word_state i code value (sn_sw_bits (snapshot (record_at s i)))
    KB_LINUX_6_8_INPUT_DEV_SW_OFFSET sn_sw_state (fun w sn => sn <| sn_sw_state := w |>) false s.

Definition update_led_event_state (i : nat) (code value : Z) (s : input_state) : input_state * bool :=
  update_single_word_state i code value (sn_led_bits (snapshot (record_at s i)))
    KB_LINUX_6_8_INPUT_DEV_LED_OFFSET sn_led_state (fun w sn => sn <| sn_led_state := w |>) false s.

Definition update_sound_event_state (i : nat) (code value : Z) (s : input_state) : input_state * bool :=
  update_single_word_state i code value (sn_snd_bits (snapshot (record_at s i)))
    KB_LINUX_6_8_INPUT_DEV_SND_OFFSET sn_snd_state (fun w sn => sn <| sn_snd_state := w |>) true s.

Definition input_record_can_open (r : kb_input_device_record) : bool :=
  sn_active (snapshot r) && negb (sn_opened (snapshot r)) && negb (sn_linux_dev (snapshot r) =? 0).

Definition input_record_can_close (r : kb_input_device_record) : bool :=
  sn_active (snapshot r) && sn_opened (snapshot r) && negb (sn_linux_dev (snapshot r) =? 0).

(** ** Drivers

    What the [open] and [close] functions of a module do to the subsystem (they
    may report events or register devices), and the value [open] returns. *)
Class InputDriver := {
  driver_open : Z -> Z -> input_state -> input_state * Z;
  driver_close : Z -> Z -> input_state -> input_state;
}.

Section subsystem.
Context `{InputDriver}.
(** KOBOX_INPUT_TRUST_DEVICE_STRINGS *)
Context (trust_device_strings : bool).

(** The absinfo of one axis as the snapshot shows it. *)
Definition load_abs_params (m : mem) (a : Z) : kb_input_abs_params :=
  mk_abs_params true (mload_int m a) (mload_int m (a + 4)) (mload_int m (a + 8))
    (mload_int m (a + 12)) (mload_int m (a + 16)) (mload_int m (a + 20)).

Definition refresh_abs (m : mem) (absinfo_ : Z) (sn : kb_input_device_snapshot)
    : kb_input_device_snapshot :=
  if absinfo_ =? 0 then sn
  else sn <| sn_abs ::= imap (fun axis p =>
         if Z.testbit (sn_abs_bits sn) (Z.of_nat axis)
         then load_abs_params m (absinfo_ + Z.of_nat axis * KB_LINUX_6_8_INPUT_ABSINFO_SIZE)
         else p) |>.

Definition refresh_snapshot (m : mem) (absinfo_ : Z) (sn : kb_input_device_snapshot)
    : kb_input_device_snapshot :=
  let dev := sn_linux_dev sn in
  let str size off fallback :=
    copy_known_string m size (if trust_device_strings then linux_input_string m dev off else 0) fallback in
  refresh_abs m absinfo_
    (sn <| sn_name := str KB_INPUT_NAME_MAX KB_LINUX_INPUT_DEV_NAME_OFFSET (cstr "input") |>
        <| sn_phys := str KB_INPUT_PHYS_MAX KB_LINUX_INPUT_DEV_PHYS_OFFSET [] |>
        <| sn_uniq := str KB_INPUT_UNIQ_MAX KB_LINUX_INPUT_DEV_UNIQ_OFFSET [] |>
        <| sn_input_id := linux_input_id m dev |>
        <| sn_prop_bits := mload64 m (dev + KB_LINUX_6_8_INPUT_DEV_PROPBIT_OFFSET) |>
        <| sn_event_bits := mload64 m (dev + KB_LINUX_6_8_INPUT_DEV_EVBIT_OFFSET) |>
        <| sn_key_bits := mload64s m (dev + KB_LINUX_6_8_INPUT_DEV_KEYBIT_OFFSET)
                            (Z.to_nat KB_INPUT_KEY_WORDS) |>
        <| sn_key_state := mload64s m (dev + KB_LINUX_6_8_INPUT_DEV_KEY_OFFSET)
                             (Z.to_nat KB_INPUT_KEY_WORDS) |>
        <| sn_rel_bits := mload64 m (dev + KB_LINUX_6_8_INPUT_DEV_RELBIT_OFFSET) |>
        <| sn_abs_bits := mload64 m (dev + KB_LINUX_6_8_INPUT_DEV_ABSBIT_OFFSET) |>
        <| sn_msc_bits := mload64 m (dev + KB_LINUX_6_8_INPUT_DEV_MSCBIT_OFFSET) |>
        <| sn_led_bits := mload64 m (dev + KB_LINUX_6_8_INPUT_DEV_LEDBIT_OFFSET) |>
        <| sn_snd_bits := mload64 m (dev + KB_LINUX_6_8_INPUT_DEV_SNDBIT_OFFSET) |>
        <| sn_ff_bits := mload64s m (dev + KB_LINUX_6_8_INPUT_DEV_FFBIT_OFFSET)
                           (Z.to_nat KB_INPUT_FF_WORDS) |>
        <| sn_sw_bits := mload64 m (dev + KB_LINUX_6_8_INPUT_DEV_SWBIT_OFFSET) |>
        <| sn_led_state := mload64 m (dev + KB_LINUX_6_8_INPUT_DEV_LED_OFFSET) |>
        <| sn_snd_state := mload64 m (dev + KB_LINUX_6_8_INPUT_DEV_SND_OFFSET) |>
        <| sn_sw_state := mload64 m (dev + KB_LINUX_6_8_INPUT_DEV_SW_OFFSET) |>).

Definition refresh_device_snapshot (i : nat) (s : input_state) : input_state :=
  if sn_linux_dev (snapshot (record_at s i)) =? 0 then s
  else with_record (fun r => r <| snapshot ::= refresh_snapshot (in_mem s) (absinfo r) |>) i s.

Definition open_input_record (i : nat) (s : input_state) : input_state * bool :=
  if negb (input_record_can_open (record_at s i)) then (s, false)
  else
    let dev := sn_linux_dev (snapshot (record_at s i)) in
    let open_fn := linux_input_ptr (in_mem s) dev KB_LINUX_6_8_INPUT_DEV_OPEN_OFFSET in
    if (open_fn =? 0) || pointer_is_error_or_low open_fn
    then (with_snapshot (fun sn => sn <| sn_open_result := 0 |> <| sn_opened := true |>) i s, true)
    else
      let '(s, result) := driver_open open_fn dev s in
      let s := with_snapshot (fun sn => sn <| sn_open_result := result |>) i s in
      if result =? 0 then (with_snapshot (fun sn => sn <| sn_opened := true |>) i s, true)
      else (s, false).

Definition close_input_record (i : nat) (s : input_state) : input_state :=
  if negb (input_record_can_close (record_at s i)) then s
  else
    let dev := sn_linux_dev (snapshot (record_at s i)) in
    let close_fn := linux_input_ptr (in_mem s) dev KB_LINUX_6_8_INPUT_DEV_CLOSE_OFFSET in
    let s := if negb (close_fn =? 0) && negb (pointer_is_error_or_low close_fn)
             then driver_close close_fn dev s else s in
    with_snapshot (fun sn => sn <| sn_opened := false |>) i s.

(** ** Operations *)

Definition input_free_log (l : list input_freed) (s : input_state) : input_state :=
  s <| in_freed ::= app l |>.

Definition kb_input_subsystem_allocate_device (kzalloc : Z) (s : input_state) : input_state * Z :=
  if kzalloc =? 0 then (s, 0)
  else
    let s := s <| in_mem ::= fun m => mzero m kzalloc KB_INPUT_LINUX_DEVICE_STORAGE_SIZE |> in
    match alloc_record kzalloc s with
    | (s, None) => (input_free_log [Kfreed kzalloc] s, 0)
    | (s, Some i) => (with_record (fun r => r <| allocated := true |>) i s, kzalloc)
    end.

Definition clear_record (i : nat) (s : input_state) : input_state :=
  with_record (fun _ => zero_record) i s.

Definition kb_input_subsystem_free_device (dev : Z) (s : input_state) : input_state :=
  match find_device s dev with
  | None => s
  | Some i =>
      let s := purge_queued_events_for_device (sn_id (snapshot (record_at s i))) s in
      let s := input_free_log [Freed (absinfo (record_at s i))] s in
      let s := if allocated (record_at s i) then input_free_log [Kfreed dev] s else s in
      clear_record i s
  end.

Definition kb_input_subsystem_register_device (dev : Z) (s : input_state) : input_state * Z :=
  match alloc_record dev s with
  | (s, None) => (s, -12)
  | (s, Some i) =>
      let s := reset_staged_input_frame i s in
      let a := dev + KB_LINUX_6_8_INPUT_DEV_EVBIT_OFFSET in
      let s := s <| in_mem ::= fun m => mstore64 m a (Z.lor (mload64 m a) 1) |> in
      let s := with_snapshot (fun sn => sn <| sn_active := true |>) i s in
      let s := refresh_device_snapshot i s in
      let sn := snapshot (record_at s i) in
      let mt_abs_bits := Z.land (sn_abs_bits sn) (u64 (Z.shiftl UINT64_MAX KB_INPUT_ABS_MT_SLOT)) in
      if negb (sn_mt_slots sn =? 0) || negb (mt_abs_bits =? 0)
      then (with_snapshot (fun sn => sn <| sn_active := false |>) i s, -95)
      else if Z.testbit (sn_event_bits sn) KB_INPUT_EV_ABS && (absinfo (record_at s i) =? 0)
      then (with_snapshot (fun sn => sn <| sn_active := false |>) i s, -22)
      else (s, 0)
  end.

Definition kb_input_subsystem_unregister_device (dev : Z) (s : input_state) : input_state :=
  match find_device s dev with
  | None => s
  | Some i =>
      let s := close_input_record i s in
      let s := purge_queued_events_for_device (sn_id (snapshot (record_at s i))) s in
      let s := reset_staged_input_frame i s in
      let s := with_snapshot (fun sn => sn <| sn_active := false |>) i s in
      if allocated (record_at s i)
      then clear_record i (input_free_log [Kfreed dev; Freed (absinfo (record_at s i))] s)
      else s
  end.

(** The filters of record_event: the new state and the event's value when it
    passes them. *)
Definition filter_event (i : nat) (type code value : Z) (s : input_state)
    : input_state * option Z :=
  let pass '(s, b) := (s, if (b : bool) then Some value else None) in
  if type =? KB_INPUT_EV_KEY then pass (update_key_event_state i code value s)
  else if type =? KB_INPUT_EV_ABS then
    let '(s, b, value) := update_abs_event_state i code value s in
    (s, if (b : bool) then Some value else None)
  else if type =? KB_INPUT_EV_REL then
    pass (s, negb ((64 <=? code) || negb (Z.testbit (sn_rel_bits (snapshot (record_at s i))) code)
                   || (value =? 0)))
  else if type =? KB_INPUT_EV_SW then pass (update_switch_event_state i code value s)
  else if type =? KB_INPUT_EV_LED then pass (update_led_event_state i code value s)
  else if type =? KB_INPUT_EV_SND then pass (update_sound_event_state i code value s)
  else (s, Some value).

(** The staging of an event that passed: publish, drop, or add to the frame. *)
Definition stage_event (i : nat) (type code value : Z) (s : input_state) : input_state :=
  let r := record_at s i in
  if (type =? KB_INPUT_EV_SYN) && (code =? KB_INPUT_SYN_REPORT) then publish_staged_input_frame i s
  else if stage_dropped r
  then with_record (fun r => r <| stage_dropped_events ::= fun n => u64 (n + 1) |>) i s
  else if stage_count r =? KB_INPUT_FRAME_STAGE_MAX
  then with_record (fun r => r <| stage_dropped := true |>
                               <| stage_dropped_events := stage_count r + 1 |>
                               <| stage_count := 0 |>) i s
  else with_record (fun r => r <| stage ::= <[ Z.to_nat (stage_count r) := mk_staged type code value ]> |>
                               <| stage_count := stage_count r + 1 |>) i s.

Definition kb_input_subsystem_record_event (dev type code value : Z) (s : input_state) : input_state :=
  match (if dev =? 0 then fallback_event_record s else alloc_record dev s) with
  | (s, None) => s
  | (s, Some i) =>
      let s := refresh_device_snapshot i s in
      let s := with_snapshot (fun sn => sn <| sn_event_count ::= fun n => u64 (n + 1) |>) i s in
      match filter_event i type code value s with
      | (s, None) => s
      | (s, Some value) =>
          if negb (sn_active (snapshot (record_at s i))) then s
          else stage_event i type code value s
      end
  end.

Definition kb_input_subsystem_alloc_absinfo (dev calloc : Z) (s : input_state) : input_state :=
  match alloc_record dev s with
  | (s, None) => s
  | (s, Some i) =>
      if absinfo_allocated (record_at s i) then s
      else
        let s := with_record (fun r => r <| absinfo := calloc |>) i s in
        if calloc =? 0 then s
        else
          let s := s <| in_mem ::= fun m =>
                     mstore64 (mzero m calloc (KB_INPUT_ABS_MAX * KB_LINUX_6_8_INPUT_ABSINFO_SIZE))
                       (dev + KB_LINUX_6_8_INPUT_DEV_ABSINFO_OFFSET) calloc |> in
          with_record (fun r => r <| absinfo_allocated := true |>) i s
  end.

Definition kb_input_subsystem_set_abs_params (dev axis minimum maximum fuzz flat calloc : Z)
    (s : input_state) : input_state :=
  match alloc_record dev s with
  | (s, None) => s
  | (s, Some i) =>
      if KB_INPUT_ABS_MAX <=? axis then s
      else
        let or_bit a b m := mstore64 m a (Z.setbit (mload64 m a) b) in
        let s := s <| in_mem ::= or_bit (dev + KB_LINUX_6_8_INPUT_DEV_EVBIT_OFFSET) KB_INPUT_EV_ABS |>
                   <| in_mem ::= or_bit (dev + KB_LINUX_6_8_INPUT_DEV_ABSBIT_OFFSET) axis |> in
        let s := with_snapshot (fun sn =>
                   sn <| sn_event_bits ::= fun w => Z.setbit w KB_INPUT_EV_ABS |>
                      <| sn_abs_bits ::= fun w => Z.setbit w axis |>
                      <| sn_abs ::= <[ Z.to_nat axis :=
                                        mk_abs_params true 0 minimum maximum fuzz flat 0 ]> |>) i s in
        let s := kb_input_subsystem_alloc_absinfo dev calloc s in
        let a := absinfo (record_at s i) in
        if a =? 0 then s
        else s <| in_mem ::= fun m =>
               mstore m (a + axis * KB_LINUX_6_8_INPUT_ABSINFO_SIZE)
                 (mbind (fun v => le_bytes 4 (u32 v)) [0; minimum; maximum; fuzz; flat; 0]) |>
  end.

Definition kb_input_subsystem_mt_init_slots (dev num_slots flags : Z) (s : input_state)
    : input_state * Z :=
  match alloc_record dev s with
  | (s, None) => (s, -12)
  | (s, Some i) =>
      if sn_active (snapshot (record_at s i)) then (s, -95)
      else (with_snapshot (fun sn => sn <| sn_mt_slots := num_slots |> <| sn_mt_flags := flags |>) i s, 0)
  end.

Definition kb_input_subsystem_device_count (s : input_state) : Z :=
  foldl (fun n r => if sn_active (snapshot r) then n + 1 else n) 0 (input_devices s).

(** The callback folds over its context and stops on a non-zero result. *)
Fixpoint for_each_device_loop {C} (callback : kb_input_device_snapshot -> C -> C * Z)
    (l : list kb_input_device_record) (ctx : C) (visited : Z) : C * Z :=
  match l with
  | [] => (ctx, visited)
  | r :: l =>
      if negb (sn_active (snapshot r)) then for_each_device_loop callback l ctx visited
      else let '(ctx, stop) := callback (snapshot r) ctx in
           if stop =? 0 then for_each_device_loop callback l ctx (visited + 1)
           else (ctx, visited + 1)
  end.

Definition kb_input_subsystem_for_each_device {C} (callback : kb_input_device_snapshot -> C -> C * Z)
    (ctx : C) (s : input_state) : C * Z :=
  for_each_device_loop callback (input_devices s) ctx 0.

Definition kb_input_subsystem_open_registered_devices (s : input_state) : input_state * Z :=
  foldl (fun '(s, opened) i =>
           let '(s, b) := open_input_record i s in (s, if (b : bool) then opened + 1 else opened))
    (s, 0) (seq 0 (Z.to_nat KB_INPUT_DEVICE_MAX)).

Definition kb_input_subsystem_close_registered_devices (s : input_state) : input_state :=
  foldl (fun s i => close_input_record i s) s (seq 0 (Z.to_nat KB_INPUT_DEVICE_MAX)).

(** The events copied to the caller's buffer; [None] is a NULL buffer. *)
Definition kb_input_subsystem_pop_events (buffer : bool) (max_events : Z) (s : input_state)
    : input_state * list kb_input_event :=
  if negb buffer || (max_events =? 0) then (s, [])
  else
    let copied := Z.min (input_event_count s) max_events in
    let events := map (fun k => event_at s ((input_event_head s + Z.of_nat k)
                                              mod KB_INPUT_EVENT_QUEUE_MAX))
                    (seq 0 (Z.to_nat copied)) in
    (s <| input_event_head ::= fun h => (h + copied) mod KB_INPUT_EVENT_QUEUE_MAX |>
       <| input_event_count ::= fun c => c - copied |>, events).

Definition kb_input_subsystem_event_count (s : input_state) : Z := input_event_count s.

(** What run_mouse_smoke computes from the events it pops ([int] sums that do not
    overflow). *)
Record mouse_summary := mk_mouse {
  ms_x : Z; ms_y : Z; ms_left : bool;
  ms_rel_events : Z; ms_abs_events : Z; ms_key_events : Z; ms_syn_events : Z;
  ms_device_id : Z;
}.
#[export] Instance mouse_eta : Settable mouse_summary := fun r =>
  mk_mouse (ms_x r) (ms_y r) (ms_left r) (ms_rel_events r) (ms_abs_events r) (ms_key_events r)
    (ms_syn_events r) (ms_device_id r).

Definition mouse_event (ms : mouse_summary) (e : kb_input_event) : mouse_summary :=
  let ms := if ms_device_id ms =? 0 then ms <| ms_device_id := ev_device_id e |> else ms in
  let hits t c := (ev_type e =? t) && (ev_code e =? c) in
  if hits 2 0 then ms <| ms_x ::= fun x => x + ev_value e |> <| ms_rel_events ::= Z.succ |>
  else if hits 2 1 then ms <| ms_y ::= fun y => y + ev_value e |> <| ms_rel_events ::= Z.succ |>
  else if hits 3 0 then ms <| ms_x := ev_value e |> <| ms_abs_events ::= Z.succ |>
  else if hits 3 1 then ms <| ms_y := ev_value e |> <| ms_abs_events ::= Z.succ |>
  else if hits 1 0x110 then ms <| ms_left := negb (ev_value e =? 0) |> <| ms_key_events ::= Z.succ |>
  else if ev_type e =? 0 then ms <| ms_syn_events ::= Z.succ |>
  else ms.

Definition kb_input_subsystem_run_mouse_smoke (s : input_state) : input_state * mouse_summary * Z :=
  let '(s, events) := kb_input_subsystem_pop_events true KB_INPUT_EVENT_QUEUE_MAX s in
  let ms := foldl mouse_event (mk_mouse 0 0 false 0 0 0 0 0) events in
  (s, ms, if negb (Z.of_nat (length events) =? 0) && ((2 <=? ms_rel_events ms) || (2 <=? ms_abs_events ms))
          then 0 else -5).

Definition reset_record (s : input_state) (i : nat) : input_state :=
  let r := record_at s i in
  let s := if allocated r && negb (sn_linux_dev (snapshot r) =? 0)
           then input_free_log [Kfreed (sn_linux_dev (snapshot r)); Freed (absinfo r)] s else s in
  clear_record i s.

Definition kb_input_subsystem_reset (s : input_state) : input_state :=
  let s := kb_input_subsystem_close_registered_devices s in
  let s := foldl reset_record s (seq 0 (Z.to_nat KB_INPUT_DEVICE_MAX)) in
  s <| input_events := replicate (Z.to_nat KB_INPUT_EVENT_QUEUE_MAX) zero_event |>
    <| input_event_head := 0 |> <| input_event_count := 0 |>
    <| next_event_sequence := 1 |> <| next_device_id := 1 |>.
End subsystem.
