(* ===== verification/InputTheorems.v ===== *)
(** * Theorems about the input subsystem (InputEvents.v)

    The ring buffer is a queue; frames stay whole and single-device in every
    reachable state, whatever the drivers' callbacks do; an overflow is accounted
    for and reported; noise filtering never leaves the range it is given. *)

From S2P Require Import Prelude Memory InputEvents.

(** ** The ring as a queue *)

(** The queued events, oldest first. *)
Definition queue (s : input_state) : list kb_input_event :=
  map (fun k => event_at s ((input_event_head s + Z.of_nat k) mod KB_INPUT_EVENT_QUEUE_MAX))
    (seq 0 (Z.to_nat (input_event_count s))).

Definition ring_ok (s : input_state) : Prop :=
  length (input_events s) = Z.to_nat KB_INPUT_EVENT_QUEUE_MAX /\
  0 <= input_event_head s < KB_INPUT_EVENT_QUEUE_MAX /\
  0 <= input_event_count s <= KB_INPUT_EVENT_QUEUE_MAX /\
  is_u64 (next_event_sequence s).

Create HintDb input.

Lemma length_queue s : length (queue s) = Z.to_nat (input_event_count s).
Proof. unfold queue. by rewrite length_map, length_seq. Qed.

(** Operations that leave the ring alone. *)
Definition same_ring (s t : input_state) : Prop :=
  input_events s = input_events t /\ input_event_head s = input_event_head t /\
  input_event_count s = input_event_count t /\ next_event_sequence s = next_event_sequence t.

Lemma same_ring_queue s t : same_ring s t -> queue s = queue t.
Proof. intros (He & Hh & Hc & _). unfold queue, event_at. by rewrite He, Hh, Hc. Qed.

Lemma same_ring_ok s t : same_ring s t -> ring_ok t -> ring_ok s.
Proof. intros (He & Hh & Hc & Hn). unfold ring_ok. by rewrite He, Hh, Hc, Hn. Qed.

Lemma ring_index_ne h c k :
  0 <= h -> 0 <= k < c -> c < KB_INPUT_EVENT_QUEUE_MAX ->
  (h + k) mod KB_INPUT_EVENT_QUEUE_MAX <> (h + c) mod KB_INPUT_EVENT_QUEUE_MAX.
Proof. unfold KB_INPUT_EVENT_QUEUE_MAX. intros. Z.to_euclidean_division_equations. lia. Qed.

(** Storing at the tail and counting up appends. *)
Definition push_event (e : kb_input_event) (s : input_state) : input_state :=
  set_event s ((input_event_head s + input_event_count s) mod KB_INPUT_EVENT_QUEUE_MAX) e
    <| input_event_count ::= fun c => c + 1 |>.

Lemma push_event_ok e s :
  ring_ok s -> input_event_count s < KB_INPUT_EVENT_QUEUE_MAX -> ring_ok (push_event e s).
Proof.
  intros (Hl & Hh & Hc & Hs) Hroom. unfold ring_ok, push_event, set_event. cbn.
  rewrite length_insert. split_and!; [done|lia|lia|lia|lia|done].
Qed.

Lemma queue_push_event e s :
  ring_ok s -> input_event_count s < KB_INPUT_EVENT_QUEUE_MAX -> queue (push_event e s) = queue s ++ [e].
Proof.
  intros (Hl & Hh & Hc & Hs) Hroom. unfold queue, push_event, set_event. cbn.
  rewrite Z2Nat.inj_add, Nat.add_1_r, seq_S, map_app by lia. cbn. f_equal.
  - apply map_ext_in. intros k [_ Hk]%in_seq. unfold event_at. cbn.
    rewrite list_lookup_insert_ne; [done|]. cbn in Hk.
    pose proof (ring_index_ne (input_event_head s) (input_event_count s) (Z.of_nat k)) as Hne.
    pose proof (Z.mod_pos_bound (input_event_head s + Z.of_nat k) KB_INPUT_EVENT_QUEUE_MAX).
    pose proof (Z.mod_pos_bound (input_event_head s + input_event_count s) KB_INPUT_EVENT_QUEUE_MAX).
    unfold KB_INPUT_EVENT_QUEUE_MAX in *. lia.
  - unfold event_at. cbn. rewrite Z2Nat.id by lia. rewrite list_lookup_insert_eq; [done|].
    rewrite Hl. unfold KB_INPUT_EVENT_QUEUE_MAX in *.
    pose proof (Z.mod_pos_bound (input_event_head s + input_event_count s) 1024). lia.
Qed.

(** Moving the head past [n] events drops them. *)
Definition skip_events (n : Z) (s : input_state) : input_state :=
  s <| input_event_head ::= fun h => (h + n) mod KB_INPUT_EVENT_QUEUE_MAX |>
    <| input_event_count ::= fun c => c - n |>.

Lemma skip_events_ok n s : ring_ok s -> 0 <= n <= input_event_count s -> ring_ok (skip_events n s).
Proof.
  intros (Hl & Hh & Hc & Hs) Hn. unfold ring_ok, skip_events. cbn.
  split_and!; [done| | |lia|lia|done]; apply Z.mod_pos_bound; unfold KB_INPUT_EVENT_QUEUE_MAX; lia.
Qed.

Lemma queue_skip_events n s :
  0 <= n <= input_event_count s -> queue (skip_events n s) = drop (Z.to_nat n) (queue s).
Proof.
  intros Hn. unfold queue, skip_events. cbn. rewrite <- fmap_drop, drop_seq.
  rewrite Z2Nat.inj_sub by lia. rewrite Nat.add_0_l.
  rewrite <- (Nat.add_0_r (Z.to_nat n)) at 2. rewrite <- fmap_add_seq, <- list_fmap_compose.
  apply map_ext. intros k. cbn. unfold event_at. cbn. do 3 f_equal.
  unfold KB_INPUT_EVENT_QUEUE_MAX. Z.to_euclidean_division_equations. lia.
Qed.

Lemma queue_head s :
  ring_ok s -> 0 < input_event_count s -> head (queue s) = Some (event_at s (input_event_head s)).
Proof.
  intros (_ & Hh & _) Hc. unfold queue.
  replace (Z.to_nat (input_event_count s)) with (S (Z.to_nat (input_event_count s - 1))) by lia.
  cbn. rewrite Z.add_0_r, Z.mod_small by lia. done.
Qed.

(** ** Purging *)

Definition kept (device_id : Z) : kb_input_event -> bool := fun e => negb (ev_device_id e =? device_id).

Lemma purge_step_spec d s :
  ring_ok s -> 0 < input_event_count s ->
  ring_ok (purge_step d s) /\
  queue (purge_step d s) =
    tail (queue s) ++ List.filter (kept d) (take 1 (queue s)).
Proof.
  intros Hok Hc. pose proof (queue_head s Hok Hc) as Hhd.
  assert (queue (skip_events 1 s) = tail (queue s)) as Hq.
  { rewrite queue_skip_events by lia. by destruct (queue s). }
  pose proof (skip_events_ok 1 s Hok ltac:(lia)) as Hok1.
  assert (take 1 (queue s) = [event_at s (input_event_head s)]) as ->.
  { clear Hq. destruct (queue s) as [|x q]; [done|]. by injection Hhd as ->. }
  assert (purge_step d s =
    if ev_device_id (event_at s (input_event_head s)) =? d then skip_events 1 s
    else push_event (event_at s (input_event_head s)) (skip_events 1 s)) as -> by done.
  cbn [List.filter]. unfold kept. destruct (_ =? d); cbn [negb].
  - by rewrite app_nil_r.
  - destruct Hok as (_ & _ & Hm & _). assert (input_event_count (skip_events 1 s) < KB_INPUT_EVENT_QUEUE_MAX).
    { cbn. lia. }
    split; [by apply push_event_ok|]. rewrite queue_push_event by done. by rewrite Hq.
Qed.

Lemma purge_iter_spec d s n :
  ring_ok s -> (n <= length (queue s))%nat ->
  ring_ok (Nat.iter n (purge_step d) s) /\
  queue (Nat.iter n (purge_step d) s) = drop n (queue s) ++ List.filter (kept d) (take n (queue s)).
Proof.
  intros Hok. induction n as [|n IH]; intros Hn; cbn [Nat.iter].
  - split; [done|]. by rewrite app_nil_r.
  - destruct IH as [Hok1 Hq]; [lia|].
    destruct (drop n (queue s)) as [|e q] eqn:Hd.
    { apply (f_equal length) in Hd. rewrite length_drop in Hd. cbn in Hd. lia. }
    assert (0 < input_event_count (Nat.iter n (purge_step d) s)) as Hpos.
    { pose proof (length_queue (Nat.iter n (purge_step d) s)) as HL.
      rewrite Hq in HL. cbn [length app] in HL. lia. }
    destruct (purge_step_spec d _ Hok1 Hpos) as [Hok2 Hq2]. split; [done|].
    change (Nat.iter (S n) (purge_step d) s) with (purge_step d (Nat.iter n (purge_step d) s)).
    rewrite Hq2, Hq. cbn [tail take app]. rewrite take_0.
    assert (queue s !! n = Some e) as He.
    { rewrite <- (Nat.add_0_r n), <- lookup_drop, Hd. done. }
    assert (drop (S n) (queue s) = q) as ->.
    { rewrite <- Nat.add_1_r, <- drop_drop, Hd. done. }
    rewrite (take_S_r _ _ _ He), List.filter_app, <- app_assoc. done.
Qed.

Lemma purge_spec d s :
  ring_ok s ->
  ring_ok (purge_queued_events_for_device d s) /\
  queue (purge_queued_events_for_device d s) = List.filter (kept d) (queue s).
Proof.
  intros Hok.
  destruct (purge_iter_spec d s (length (queue s)) Hok (le_n _)) as [Hok1 Hq].
  rewrite drop_all, firstn_all in Hq. cbn [app] in Hq.
  unfold purge_queued_events_for_device. rewrite <- length_queue.
  destruct (Z.eqb_spec (input_event_count (Nat.iter (length (queue s)) (purge_step d) s)) 0) as [H0|];
    [|done].
  rewrite <- Hq. clear Hq. revert Hok1 H0. generalize (Nat.iter (length (queue s)) (purge_step d) s).
  intros t (Hl & Hh & Hc & Hs) H0.
  split; [split_and!; [exact Hl|done|done|exact (proj1 Hc)|exact (proj2 Hc)|exact Hs]|].
  unfold queue. cbn. by rewrite H0.
Qed.

(** Everything but the ring is left alone by purging. *)
Lemma purge_step_devices d s : input_devices (purge_step d s) = input_devices s.
Proof. unfold purge_step. by case_match. Qed.

Lemma purge_devices d s : input_devices (purge_queued_events_for_device d s) = input_devices s.
Proof.
  unfold purge_queued_events_for_device.
  assert (forall n, input_devices (Nat.iter n (purge_step d) s) = input_devices s) as Hn.
  { induction n as [|n IH]; [done|]. by rewrite Nat.iter_succ, purge_step_devices. }
  case_match; cbn; apply Hn.
Qed.

(** ** Appending *)

Definition new_event (i : nat) (type code value : Z) (s : input_state) : kb_input_event :=
  mk_event (next_event_sequence s) (sn_id (snapshot (record_at s i)))
    (sn_linux_dev (snapshot (record_at s i))) type code value.

Lemma append_event_eq i type code value s :
  input_event_count s < KB_INPUT_EVENT_QUEUE_MAX ->
  append_input_event_unchecked i type code value s =
  push_event (new_event i type code value s) s <| next_event_sequence ::= fun q => u64 (q + 1) |>.
Proof. intros H. unfold append_input_event_unchecked. by rewrite (proj2 (Z.leb_gt _ _) H). Qed.

Lemma append_event_spec i type code value s :
  ring_ok s -> input_event_count s < KB_INPUT_EVENT_QUEUE_MAX ->
  ring_ok (append_input_event_unchecked i type code value s) /\
  queue (append_input_event_unchecked i type code value s) = queue s ++ [new_event i type code value s].
Proof.
  intros Hok Hc. rewrite append_event_eq by done.
  pose proof (push_event_ok (new_event i type code value s) s Hok Hc) as Hp. split.
  - destruct Hp as (Hl & Hh & Hm & _). exact (conj Hl (conj Hh (conj Hm (u64_range _)))).
  - by rewrite <- (queue_push_event _ s) by done.
Qed.

Lemma append_event_devices i type code value s :
  input_devices (append_input_event_unchecked i type code value s) = input_devices s.
Proof. unfold append_input_event_unchecked. by case_match. Qed.

Lemma append_event_count i type code value s :
  input_event_count s < KB_INPUT_EVENT_QUEUE_MAX ->
  input_event_count (append_input_event_unchecked i type code value s) = input_event_count s + 1.
Proof. intros H. by rewrite append_event_eq. Qed.

Lemma record_at_devices s t i : input_devices s = input_devices t -> record_at s i = record_at t i.
Proof. intros H. unfold record_at. by rewrite H. Qed.

Lemma pop_eq n s :
  n <> 0 ->
  kb_input_subsystem_pop_events true n s =
  (skip_events (Z.min (input_event_count s) n) s,
   take (Z.to_nat (Z.min (input_event_count s) n)) (queue s)).
Proof.
  intros Hn. unfold kb_input_subsystem_pop_events. rewrite (proj2 (Z.eqb_neq _ _) Hn). cbn [negb orb].
  f_equal. unfold queue. rewrite <- fmap_take, take_seq. do 2 f_equal. lia.
Qed.

(** The ring buffer of 1024 slots with its head and count is a bounded FIFO
    queue: with the queue read off as a list, appending adds the new event (with
    the next sequence number and the device's id) at the end, and does nothing
    when the queue is full; purging a device removes exactly its events and keeps
    the order of the others; popping returns the oldest events and removes them;
    and every operation leaves a well-formed ring. *)
Theorem input_ring_is_queue s :
  ring_ok s ->
  (forall i type code value,
     let s' := append_input_event_unchecked i type code value s in
     ring_ok s' /\
     queue s' = if decide (length (queue s) = Z.to_nat KB_INPUT_EVENT_QUEUE_MAX) then queue s
                else queue s ++ [new_event i type code value s]) /\
  (forall d, let s' := purge_queued_events_for_device d s in
     ring_ok s' /\ queue s' = List.filter (kept d) (queue s)) /\
  (forall n, 0 < n ->
     let '(s', events) := kb_input_subsystem_pop_events true n s in
     ring_ok s' /\ events = take (Z.to_nat n) (queue s) /\ queue s' = drop (Z.to_nat n) (queue s)).
Proof.
  intros Hok. pose proof (length_queue s) as HL. pose proof Hok as (_ & _ & Hc & _).
  split; [|split].
  - intros i type code value. cbn zeta. case_decide as Hfull.
    + unfold append_input_event_unchecked. rewrite (proj2 (Z.leb_le _ _)); [done|].
      rewrite HL in Hfull. unfold KB_INPUT_EVENT_QUEUE_MAX in *. lia.
    + apply append_event_spec; [done|]. unfold KB_INPUT_EVENT_QUEUE_MAX in *. lia.
  - intros d. by apply purge_spec.
  - intros n Hn. rewrite pop_eq by lia.
    assert (take (Z.to_nat (Z.min (input_event_count s) n)) (queue s) = take (Z.to_nat n) (queue s) /\
            drop (Z.to_nat (Z.min (input_event_count s) n)) (queue s) = drop (Z.to_nat n) (queue s))
      as [Ht Hd].
    { destruct (Z.min_spec (input_event_count s) n) as [[? ->]|[? ->]]; [|done].
      rewrite !take_ge, !drop_ge by lia. done. }
    rewrite <- Ht, <- Hd. split_and!; [apply skip_events_ok; [done|lia]|done|].
    apply queue_skip_events. lia.
Qed.

(** ** Noise filtering *)

Definition is_int (z : Z) : Prop := -0x80000000 <= z < 0x80000000.

Lemma s32_small z : is_int z -> s32 z = z.
Proof. unfold is_int. intros. ilia. Qed.

(** For all 32-bit values, the filtered position lies between the previous
    and the reported position, so the 64-bit computation never leaves the range
    of an [int] when it is cast back; a report at least twice the fuzz away is
    passed unchanged, one within half the fuzz is suppressed, and without fuzz
    nothing is filtered. *)
Theorem defuzz_abs_event_bounds value old_value fuzz :
  is_int value -> is_int old_value -> is_int fuzz ->
  let v := defuzz_abs_event value old_value fuzz in
  Z.min value old_value <= v <= Z.max value old_value /\
  (2 * fuzz <= Z.abs (value - old_value) -> v = value) /\
  (Z.abs (value - old_value) < fuzz / 2 -> v = old_value).
Proof.
  unfold is_int. intros Hv Ho Hf. cbn zeta. unfold defuzz_abs_event.
  assert (Z.min value old_value <= Z.quot (old_value * 3 + value) 4 <= Z.max value old_value) as H1.
  { Z.to_euclidean_division_equations. lia. }
  assert (Z.min value old_value <= Z.quot (old_value + value) 2 <= Z.max value old_value) as H2.
  { Z.to_euclidean_division_equations. lia. }
  rewrite !s32_small by (unfold is_int; lia).
  destruct (Z.ltb_spec 0 fuzz) as [Hpos|]; [|split_and!; try lia; intros; Z.to_euclidean_division_equations; lia].
  rewrite Z.quot_div_nonneg by lia.
  pose proof (Z.div_lt fuzz 2 ltac:(lia) ltac:(lia)) as Hhalf.
  assert (0 <= fuzz / 2) by (apply Z.div_pos; lia).
  repeat (case_match; boolify); split_and!; lia.
Qed.

Lemma defuzz_abs_event_bounds_witness :
  let v := defuzz_abs_event 2147483647 2147483640 8 in
  Z.min 2147483647 2147483640 <= v <= Z.max 2147483647 2147483640 /\
  (2 * 8 <= Z.abs (2147483647 - 2147483640) -> v = 2147483647) /\
  (Z.abs (2147483647 - 2147483640) < 8 / 2 -> v = 2147483640).
Proof. apply (defuzz_abs_event_bounds 2147483647 2147483640 8); unfold is_int; lia. Defined.

Lemma ring_ok_init m : ring_ok (input_state_init m).
Proof. unfold ring_ok, input_state_init, KB_INPUT_EVENT_QUEUE_MAX. cbn -[replicate]. rewrite length_replicate. unfold is_u64. lia. Qed.

Lemma input_ring_is_queue_witness :
  let s := append_input_event_unchecked 0 1 30 1 (input_state_init ∅) in
  (forall i type code value,
     let s' := append_input_event_unchecked i type code value s in
     ring_ok s' /\
     queue s' = if decide (length (queue s) = Z.to_nat KB_INPUT_EVENT_QUEUE_MAX) then queue s
                else queue s ++ [new_event i type code value s]) /\
  (forall d, let s' := purge_queued_events_for_device d s in
     ring_ok s' /\ queue s' = List.filter (kept d) (queue s)) /\
  (forall n, 0 < n ->
     let '(s', events) := kb_input_subsystem_pop_events true n s in
     ring_ok s' /\ events = take (Z.to_nat n) (queue s) /\ queue s' = drop (Z.to_nat n) (queue s)).
Proof.
  apply (input_ring_is_queue (append_input_event_unchecked 0 1 30 1 (input_state_init ∅))).
  apply append_event_spec; [apply ring_ok_init|done].
Defined.

(** ** Frames *)

Definition is_report (type code : Z) : bool :=
  (type =? KB_INPUT_EV_SYN) && (code =? KB_INPUT_SYN_REPORT).

Definition ev_is_report (e : kb_input_event) : bool := is_report (ev_type e) (ev_code e).

(** A frame: the events of one device up to and including its SYN_REPORT. *)
Definition frame (f : list kb_input_event) : Prop :=
  exists body last id, f = body ++ [last] /\ ev_is_report last = true /\
    Forall (fun e => ev_is_report e = false) body /\ Forall (fun e => ev_device_id e = id) f.

(** What is left of a sequence of frames after its first events were taken. *)
Definition framed (q : list kb_input_event) : Prop :=
  exists p fs, p ++ q = concat fs /\ Forall frame fs.

Lemma framed_nil : framed [].
Proof. by exists [], []. Qed.

Lemma framed_app q f : framed q -> frame f -> framed (q ++ f).
Proof.
  intros (p & fs & Hc & Hf) Hframe. exists p, (fs ++ [f]). split.
  - rewrite concat_app, <- Hc. cbn [concat]. by rewrite app_nil_r, app_assoc.
  - apply Forall_app. split; [done|]. by constructor.
Qed.

Lemma framed_drop n q : framed q -> framed (drop n q).
Proof.
  intros (p & fs & Hc & Hf). exists (p ++ take n q), fs. split; [|done].
  by rewrite <- app_assoc, take_drop.
Qed.

(** A frame belongs to the purged device as a whole or not at all. *)
Lemma filter_frame d f : frame f -> List.filter (kept d) f = f \/ List.filter (kept d) f = [].
Proof.
  intros (body & last & id & -> & _ & _ & Hid). destruct (decide (id = d)) as [->|Hne].
  - right. induction Hid as [|e l He _ IH]; [done|]. cbn [List.filter]. unfold kept at 1.
    by rewrite He, Z.eqb_refl.
  - left. induction Hid as [|e l He _ IH]; [done|]. cbn [List.filter]. unfold kept at 1.
    by rewrite He, (proj2 (Z.eqb_neq _ _) Hne), IH.
Qed.

Lemma framed_filter d q : framed q -> framed (List.filter (kept d) q).
Proof.
  intros (p & fs & Hc & Hf).
  assert (exists fs', List.filter (kept d) (concat fs) = concat fs' /\ Forall frame fs')
    as (fs' & Hc' & Hf').
  { clear Hc. induction Hf as [|f fs Hframe _ (fs' & IH & Hf')]; [by exists []|].
    cbn [concat]. rewrite List.filter_app, IH.
    destruct (filter_frame d f Hframe) as [-> | ->].
    - exists (f :: fs'). by split; [|constructor].
    - by exists fs'. }
  exists (List.filter (kept d) p), fs'. split; [|done]. by rewrite <- List.filter_app, Hc.
Qed.

(** ** The invariant *)

Definition staged (r : kb_input_device_record) : list kb_input_staged_event :=
  take (Z.to_nat (stage_count r)) (stage r).

Definition record_ok (r : kb_input_device_record) : Prop :=
  length (stage r) = Z.to_nat KB_INPUT_FRAME_STAGE_MAX /\
  0 <= stage_count r <= KB_INPUT_FRAME_STAGE_MAX /\
  (stage_dropped r = true -> stage_count r = 0) /\
  Forall (fun e => is_report (st_type e) (st_code e) = false) (staged r).

Definition dev_of (r : kb_input_device_record) : Z := sn_linux_dev (snapshot r).

(** A device object has at most one record. *)
Definition devices_distinct (l : list kb_input_device_record) : Prop :=
  forall i j r t, l !! i = Some r -> l !! j = Some t -> dev_of r = dev_of t -> dev_of r <> 0 -> i = j.

Record input_inv (s : input_state) : Prop := mk_input_inv {
  inv_ring : ring_ok s;
  inv_size : length (input_devices s) = Z.to_nat KB_INPUT_DEVICE_MAX;
  inv_records : Forall record_ok (input_devices s);
  inv_devices : devices_distinct (input_devices s);
  inv_framed : framed (queue s);
}.

Lemma zero_record_ok : record_ok zero_record.
Proof.
  unfold record_ok, zero_record, staged, KB_INPUT_FRAME_STAGE_MAX. cbn -[replicate].
  rewrite length_replicate, take_0. split_and!; [lia|lia|lia|done|done].
Qed.

Lemma record_at_ok s i : input_inv s -> record_ok (record_at s i).
Proof.
  intros Hinv. unfold record_at. destruct (input_devices s !! i) as [r|] eqn:E.
  - by apply (Forall_lookup_1 _ _ _ _ (inv_records s Hinv) E).
  - apply zero_record_ok.
Qed.

(** An update of one record in place. *)
Definition keeps_record (f : kb_input_device_record -> kb_input_device_record) : Prop :=
  forall r, record_ok r -> record_ok (f r) /\ (dev_of (f r) = dev_of r \/ dev_of (f r) = 0).

Lemma inv_with_record_at f i s :
  (forall r, input_devices s !! i = Some r -> record_ok r ->
     record_ok (f r) /\ (dev_of (f r) = dev_of r \/ dev_of (f r) = 0)) ->
  input_inv s -> input_inv (with_record f i s).
Proof.
  intros Hf Hinv. split.
  - by apply (same_ring_ok _ s), Hinv.
  - cbn. rewrite length_alter. apply Hinv.
  - apply Forall_alter; [apply Hinv|]. intros r Hr Hok. by apply Hf.
  - cbn. intros a b r t Ha Hb Heq Hne. apply list_lookup_alter_Some in Ha, Hb.
    assert (forall r, input_devices s !! i = Some r -> dev_of (f r) = dev_of r \/ dev_of (f r) = 0) as Hd.
    { intros x Hx. apply Hf; [done|].
      by apply (Forall_lookup_1 _ _ _ _ (inv_records s Hinv) Hx). }
    pose proof (inv_devices s Hinv) as HD. unfold devices_distinct in HD.
    destruct Ha as [(-> & r0 & Hr0 & ->)|[Hia Ha]], Hb as [(<- & t0 & Ht0 & ->)|[Hib Hb]]; [done| | |].
    + destruct (Hd r0 Hr0); [|congruence]. apply (HD _ _ r0 t); congruence.
    + destruct (Hd t0 Ht0); [|congruence]. apply (HD _ _ r t0); congruence.
    + by apply (HD _ _ r t).
  - rewrite (same_ring_queue _ s) by done. apply Hinv.
Qed.

Lemma inv_with_record f i s : keeps_record f -> input_inv s -> input_inv (with_record f i s).
Proof. intros Hf. apply inv_with_record_at. intros r _. apply Hf. Qed.

Lemma inv_with_snapshot g i s :
  (forall sn, sn_linux_dev (g sn) = sn_linux_dev sn) -> input_inv s -> input_inv (with_snapshot g i s).
Proof. intros Hg. apply inv_with_record. intros r Hr. split; [exact Hr|]. left. apply Hg. Qed.

(** Memory, the free log and the sequence counter are not part of the invariant. *)
Lemma inv_irrelevant s t :
  same_ring t s -> input_devices t = input_devices s -> input_inv s -> input_inv t.
Proof.
  intros Hr Hd [H1 H2 H3 H4 H5]. split; rewrite ?Hd; try done.
  - by apply (same_ring_ok _ s).
  - by rewrite (same_ring_queue _ s).
Qed.

Lemma inv_set_mem f s : input_inv s -> input_inv (s <| in_mem ::= f |>).
Proof. by apply inv_irrelevant. Qed.

Lemma inv_free_log l s : input_inv s -> input_inv (input_free_log l s).
Proof. by apply inv_irrelevant. Qed.

(** A new queue over the same devices. *)
Lemma inv_new_queue s t :
  input_devices t = input_devices s -> ring_ok t -> framed (queue t) -> input_inv s -> input_inv t.
Proof. intros Hd Hr Hf [H1 H2 H3 H4 H5]. by split; rewrite ?Hd. Qed.

#[export] Hint Resolve inv_with_snapshot inv_set_mem inv_free_log : input.

(** ** Every operation keeps the invariant *)

(** Overwriting a record by an empty one for a device not yet in the table. *)
Lemma inv_insert_record i r s t :
  input_devices t = <[ i := r ]> (input_devices s) -> same_ring t s -> record_ok r ->
  (dev_of r = 0 \/ Forall (fun q => dev_of q <> dev_of r) (input_devices s)) ->
  input_inv s -> input_inv t.
Proof.
  intros Hd Hring Hr Hnew Hinv. split; rewrite ?Hd.
  - apply (same_ring_ok _ s); [done|apply Hinv].
  - rewrite length_insert. apply Hinv.
  - apply Forall_insert; [apply Hinv|done].
  - intros a b x y Ha Hb Heq Hne. apply list_lookup_insert_Some in Ha, Hb.
    assert (forall c z, input_devices s !! c = Some z -> dev_of z = dev_of r -> dev_of r = 0) as Hfresh.
    { intros c z Hz Hzr. destruct Hnew as [|Hnew]; [done|].
      by destruct (Forall_lookup_1 _ _ _ _ Hnew Hz). }
    destruct Ha as [(-> & -> & _)|[Hia Ha]], Hb as [(<- & <- & _)|[Hib Hb]]; [done| | |].
    + destruct Hne. by apply (Hfresh b y).
    + destruct Hne. rewrite Heq. by apply (Hfresh a x).
    + by apply (inv_devices s Hinv _ _ x y).
  - rewrite (same_ring_queue _ s) by done. apply Hinv.
Qed.

Lemma claimed_record_ok (g : kb_input_device_snapshot -> kb_input_device_snapshot) :
  record_ok (zero_record <| snapshot ::= g |>).
Proof. exact zero_record_ok. Qed.

Lemma alloc_record_inv dev s : input_inv s -> input_inv (alloc_record dev s).1.
Proof.
  intros Hinv. unfold alloc_record, find_device. destruct (Z.eqb_spec dev 0) as [->|Hdev]; [done|].
  destruct (first_index _ _) as [i|] eqn:Hnone; [done|].
  destruct (first_index (fun r => sn_linux_dev (snapshot r) =? 0) _) as [i|]; [|done].
  cbn [fst]. eapply (inv_insert_record i _ s); [reflexivity|done|apply claimed_record_ok| |done].
  right. apply first_index_None in Hnone. eapply Forall_impl; [exact Hnone|].
  cbn. intros r Hr. boolify. done.
Qed.

Lemma fallback_event_record_inv s : input_inv s -> input_inv (fallback_event_record s).1.
Proof.
  intros Hinv. unfold fallback_event_record.
  destruct (first_index _ _); [done|]. destruct (first_index _ _); [done|].
  destruct (first_index _ _) as [i|]; [|done].
  cbn [fst]. eapply (inv_insert_record i _ s); [reflexivity|done|apply claimed_record_ok|by left|done].
Qed.

Lemma purge_inv d s : input_inv s -> input_inv (purge_queued_events_for_device d s).
Proof.
  intros Hinv. destruct (purge_spec d s (inv_ring s Hinv)) as [Hr Hq].
  apply (inv_new_queue s); [apply purge_devices|done| |done].
  rewrite Hq. apply framed_filter, Hinv.
Qed.

Lemma clear_record_inv i s : input_inv s -> input_inv (clear_record i s).
Proof. apply inv_with_record. intros r _. split; [apply zero_record_ok|by right]. Qed.

(** An update that empties the stage or leaves it alone. *)
Lemma keeps_unstaged f :
  (forall r, stage (f r) = stage r /\ dev_of (f r) = dev_of r /\
     (stage_count (f r) = 0 \/ (stage_count (f r) = stage_count r /\ stage_dropped (f r) = stage_dropped r))) ->
  keeps_record f.
Proof.
  intros Hf r (Hl & Hc & Hd & Hs). destruct (Hf r) as (Hst & Hdev & Hcount). split; [|by left].
  unfold record_ok, staged. rewrite Hst.
  destruct Hcount as [->|[-> ->]]; [|done].
  rewrite take_0. split_and!; [done|lia|unfold KB_INPUT_FRAME_STAGE_MAX; lia|done|done].
Qed.

Lemma reset_staged_inv i s : input_inv s -> input_inv (reset_staged_input_frame i s).
Proof. apply inv_with_record, keeps_unstaged. intros r. split_and!; [done|done|by left]. Qed.

#[export] Hint Resolve alloc_record_inv fallback_event_record_inv purge_inv clear_record_inv
  reset_staged_inv : input.

(** A report appended after a body of other events of the same record. *)
Lemma frame_of_events i s (body : list kb_input_event) last :
  ev_is_report last = true -> Forall (fun e => ev_is_report e = false) body ->
  Forall (fun e => ev_device_id e = sn_id (snapshot (record_at s i))) (body ++ [last]) -> frame (body ++ [last]).
Proof. intros. by eexists body, last, _. Qed.

(** The two events that tell a reader of device [id] to resynchronise. *)
Definition recovery_pair (id : Z) (e1 e2 : kb_input_event) : Prop :=
  ev_device_id e1 = id /\ ev_type e1 = KB_INPUT_EV_SYN /\ ev_code e1 = KB_INPUT_SYN_DROPPED /\
  ev_device_id e2 = id /\ ev_type e2 = KB_INPUT_EV_SYN /\ ev_code e2 = KB_INPUT_SYN_REPORT.

Lemma append_recovery_spec i s :
  ring_ok s ->
  let s' := append_recovery_frame_unchecked i s in
  ring_ok s' /\ input_devices s' = input_devices s /\
  (s' = s /\ (sn_active (snapshot (record_at s i)) = false \/
               KB_INPUT_EVENT_QUEUE_MAX - 2 < input_event_count s) \/
   sn_active (snapshot (record_at s i)) = true /\
   input_event_count s' = input_event_count s + 2 /\
   exists e1 e2, queue s' = queue s ++ [e1; e2] /\ frame [e1; e2] /\
     recovery_pair (sn_id (snapshot (record_at s i))) e1 e2).
Proof.
  intros Hok. cbn zeta. unfold append_recovery_frame_unchecked.
  destruct (sn_active (snapshot (record_at s i))) eqn:Ha; cbn [negb orb];
    [|split_and!; [done|done|left; split; [done|by left]]].
  destruct (Z.ltb_spec (KB_INPUT_EVENT_QUEUE_MAX - 2) (input_event_count s)) as [|Hroom];
    [split_and!; [done|done|left; split; [done|by right]]|].
  set (s1 := append_input_event_unchecked i KB_INPUT_EV_SYN KB_INPUT_SYN_DROPPED 0 s).
  destruct (append_event_spec i KB_INPUT_EV_SYN KB_INPUT_SYN_DROPPED 0 s Hok ltac:(lia)) as [Hok1 Hq1].
  pose proof (append_event_count i KB_INPUT_EV_SYN KB_INPUT_SYN_DROPPED 0 s ltac:(lia)) as Hc1.
  pose proof (append_event_devices i KB_INPUT_EV_SYN KB_INPUT_SYN_DROPPED 0 s) as Hd1.
  fold s1 in Hok1, Hq1, Hc1, Hd1.
  destruct (append_event_spec i KB_INPUT_EV_SYN KB_INPUT_SYN_REPORT 0 s1 Hok1 ltac:(lia)) as [Hok2 Hq2].
  split_and!; [done|by rewrite append_event_devices|]. right.
  split_and!; [done|rewrite append_event_count; lia|].
  eexists _, _. split; [rewrite Hq2, Hq1, <- app_assoc; reflexivity|]. split;
    [|unfold recovery_pair; cbn; by rewrite (record_at_devices s1 s)].
  eapply (frame_of_events i s [_]); [done|by constructor|].
  repeat constructor. cbn. by rewrite (record_at_devices s1 s).
Qed.

Lemma append_recovery_inv i s : input_inv s -> input_inv (append_recovery_frame_unchecked i s).
Proof.
  intros Hinv. destruct (append_recovery_spec i s (inv_ring s Hinv)) as (Hok & Hd & [[-> _]|H]); [done|].
  destruct H as (_ & _ & e1 & e2 & Hq & Hf & _). apply (inv_new_queue s); [done|done| |done].
  rewrite Hq. apply framed_app; [apply Hinv|done].
Qed.

Lemma recover_record_inv c lost i s : input_inv s -> input_inv (recover_record c lost s i).
Proof.
  intros Hinv. unfold recover_record. case_match; [done|].
  match goal with |- context [with_record ?f i s] => assert (input_inv (with_record f i s)) as H1 end.
  { apply inv_with_record; [|done]. apply keeps_unstaged. intros r. by split_and!; [..|right]. }
  case_match; [case_match|]; [done| |by apply append_recovery_inv].
  apply inv_with_record; [|done]. apply keeps_unstaged. intros r. split_and!; [done|done|by left].
Qed.

Lemma empty_queue_inv s :
  input_inv s -> input_inv (s <| input_event_head := 0 |> <| input_event_count := 0 |>).
Proof.
  intros Hinv. apply (inv_new_queue s); [done| |apply framed_nil|done].
  destruct (inv_ring s Hinv) as (Hl & _ & _ & Hs). unfold ring_ok. cbn.
  split_and!; [exact Hl|done|done|done|done|exact Hs].
Qed.

Lemma recover_inv c n s : input_inv s -> input_inv (recover_input_event_queue_overflow c n s).
Proof.
  intros Hinv. unfold recover_input_event_queue_overflow. apply foldl_keeps.
  - intros a b _. apply recover_record_inv.
  - by apply empty_queue_inv.
Qed.

(** The events a stage turns into, numbered from [q]. *)
Definition event_of (r : kb_input_device_record) (q : Z) (e : kb_input_staged_event) : kb_input_event :=
  mk_event q (sn_id (snapshot r)) (sn_linux_dev (snapshot r)) (st_type e) (st_code e) (st_value e).

Definition number_from (r : kb_input_device_record) (q : Z) (l : list kb_input_staged_event)
    : list kb_input_event :=
  imap (fun k e => event_of r (u64 (q + Z.of_nat k)) e) l.

Lemma append_staged_spec i s n :
  ring_ok s ->
  input_event_count s + Z.of_nat n < KB_INPUT_EVENT_QUEUE_MAX ->
  (n <= length (stage (record_at s i)))%nat ->
  let s' := foldl (append_staged i) s (seq 0 n) in
  ring_ok s' /\ input_devices s' = input_devices s /\
  input_event_count s' = input_event_count s + Z.of_nat n /\
  next_event_sequence s' = u64 (next_event_sequence s + Z.of_nat n) /\
  queue s' = queue s ++ number_from (record_at s i) (next_event_sequence s)
                          (take n (stage (record_at s i))).
Proof.
  intros Hok. cbn zeta. induction n as [|n IH]; intros Hroom Hn.
  - cbn [seq foldl]. rewrite take_0, app_nil_r, !Z.add_0_r. destruct Hok as (? & ? & ? & Hs).
    by rewrite u64_small.
  - destruct IH as (Hok1 & Hd & Hc & Hnext & Hqueue); [lia|lia|].
    rewrite seq_S, foldl_app. cbn [foldl]. rewrite Nat.add_0_l.
    set (s1 := foldl (append_staged i) s (seq 0 n)) in *.
    destruct (lookup_lt_is_Some_2 (stage (record_at s i)) n ltac:(lia)) as [e He].
    assert (append_staged i s1 n = append_input_event_unchecked i (st_type e) (st_code e) (st_value e) s1) as ->.
    { unfold append_staged. by rewrite (record_at_devices s1 s), He. }
    destruct (append_event_spec i (st_type e) (st_code e) (st_value e) s1 Hok1 ltac:(lia)) as [Hok2 Hq2].
    split_and!; [done|by rewrite append_event_devices|rewrite append_event_count; lia| |].
    + rewrite append_event_eq by lia. cbn. rewrite Hnext. ilia.
    + rewrite Hq2, Hqueue, <- app_assoc. f_equal. rewrite (take_S_r _ _ _ He).
      unfold number_from. rewrite imap_app. f_equal. cbn.
      rewrite length_take_le, Nat.add_0_r by lia. unfold new_event, event_of.
      by rewrite (record_at_devices s1 s), Hnext.
Qed.

(** The whole frame a record publishes. *)
Definition published_frame (r : kb_input_device_record) (q : Z) : list kb_input_event :=
  number_from r q (staged r ++ [mk_staged KB_INPUT_EV_SYN KB_INPUT_SYN_REPORT 0]).

Lemma number_from_device r q l : Forall (fun e => ev_device_id e = sn_id (snapshot r)) (number_from r q l).
Proof. apply Forall_lookup. intros k e He. unfold number_from in He.
  rewrite list_lookup_imap in He. apply fmap_Some in He as (x & _ & ->). done. Qed.

Lemma published_frame_frame r q : record_ok r -> frame (published_frame r q).
Proof.
  intros (_ & _ & _ & Hs). unfold published_frame.
  pose proof (number_from_device r q (staged r ++ [mk_staged KB_INPUT_EV_SYN KB_INPUT_SYN_REPORT 0])) as Hid.
  unfold number_from in *. rewrite imap_app in *. cbn [imap] in *.
  eexists _, _, _. split_and!; [reflexivity|done| |exact Hid].
  apply Forall_lookup. intros k e He. rewrite list_lookup_imap in He.
  apply fmap_Some in He as (x & Hx & ->). by apply (Forall_lookup_1 _ _ _ _ Hs Hx).
Qed.

(** Publishing with room for the frame. *)
Lemma publish_room_spec i s :
  input_inv s ->
  let r := record_at s i in
  sn_active (snapshot r) = true -> stage_dropped r = false -> stage_count r <> 0 ->
  input_event_count s + stage_count r + 1 <= KB_INPUT_EVENT_QUEUE_MAX ->
  exists s1, publish_staged_input_frame i s = reset_staged_input_frame i s1 /\
    ring_ok s1 /\ input_devices s1 = input_devices s /\
    queue s1 = queue s ++ published_frame r (next_event_sequence s).
Proof.
  intros Hinv r Ha Hd Hne Hroom. pose proof (record_at_ok s i Hinv) as (Hl & Hc & _ & _).
  fold r in Hl, Hc. unfold publish_staged_input_frame. fold r. rewrite Ha, Hd. cbn [negb].
  rewrite (proj2 (Z.eqb_neq _ _) Hne). rewrite (proj2 (Z.ltb_ge _ _)) by lia.
  eexists. split; [reflexivity|].
  destruct (append_staged_spec i s (Z.to_nat (stage_count r)) (inv_ring s Hinv))
    as (Hok1 & Hdev & Hcnt & Hnext & Hq); [lia|fold r; rewrite Hl; lia|].
  set (s1 := foldl (append_staged i) s (seq 0 (Z.to_nat (stage_count r)))) in *.
  destruct (append_event_spec i KB_INPUT_EV_SYN KB_INPUT_SYN_REPORT 0 s1 Hok1 ltac:(lia)) as [Hok2 Hq2].
  split_and!; [done|by rewrite append_event_devices|].
  rewrite Hq2, Hq, <- app_assoc. f_equal. unfold published_frame, number_from. rewrite imap_app.
  f_equal. cbn. unfold new_event, event_of. rewrite (record_at_devices s1 s), Hnext by done.
  unfold staged. rewrite length_take_le, Nat.add_0_r by (rewrite Hl; lia). done.
Qed.

Lemma publish_inv i s : input_inv s -> input_inv (publish_staged_input_frame i s).
Proof.
  intros Hinv. destruct (sn_active (snapshot (record_at s i))) eqn:Ha;
    [|unfold publish_staged_input_frame; rewrite Ha; by apply reset_staged_inv].
  destruct (stage_dropped (record_at s i)) eqn:Hd.
  { unfold publish_staged_input_frame. rewrite Ha, Hd. cbn [negb].
    apply reset_staged_inv. case_match; [by apply recover_inv|].
    apply append_recovery_inv, inv_with_record; [|done].
    apply keeps_unstaged. intros r. by split_and!; [..|right]. }
  destruct (decide (stage_count (record_at s i) = 0)) as [H0|H0].
  { unfold publish_staged_input_frame. by rewrite Ha, Hd, H0. }
  destruct (decide (input_event_count s + stage_count (record_at s i) + 1 <= KB_INPUT_EVENT_QUEUE_MAX))
    as [Hroom|Hfull].
  - destruct (publish_room_spec i s Hinv Ha Hd H0 Hroom) as (s1 & -> & Hok & Hdev & Hq).
    apply reset_staged_inv, (inv_new_queue s); [done|done| |done]. rewrite Hq.
    apply framed_app; [apply Hinv|]. by apply published_frame_frame, record_at_ok.
  - unfold publish_staged_input_frame. rewrite Ha, Hd, (proj2 (Z.eqb_neq _ _) H0). cbn [negb].
    rewrite (proj2 (Z.ltb_lt _ _)) by lia. by apply reset_staged_inv, recover_inv.
Qed.

(** Adding an event that is not a report to a stage with a free slot. *)
Lemma stage_push_ok r type code value :
  record_ok r -> stage_dropped r = false -> stage_count r <> KB_INPUT_FRAME_STAGE_MAX ->
  is_report type code = false ->
  record_ok (r <| stage ::= <[ Z.to_nat (stage_count r) := mk_staged type code value ]> |>
               <| stage_count := stage_count r + 1 |>).
Proof.
  intros (Hl & Hc & Hd & Hs) Hnd Hne Hrep. unfold record_ok, staged. cbn.
  rewrite length_insert. split_and!; [done|lia|lia|rewrite Hnd; done|].
  rewrite Z2Nat.inj_add, Nat.add_1_r by lia.
  rewrite (take_S_r _ _ (mk_staged type code value)).
  - apply Forall_app. split; [|by constructor]. by rewrite take_insert_ge by lia.
  - apply list_lookup_insert_eq. rewrite Hl. lia.
Qed.

Lemma stage_event_inv i type code value s : input_inv s -> input_inv (stage_event i type code value s).
Proof.
  intros Hinv. unfold stage_event. fold (is_report type code).
  destruct (is_report type code) eqn:Hrep; [by apply publish_inv|].
  destruct (stage_dropped (record_at s i)) eqn:Hd.
  { apply inv_with_record; [|done]. apply keeps_unstaged. intros r. by split_and!; [..|right]. }
  destruct (Z.eqb_spec (stage_count (record_at s i)) KB_INPUT_FRAME_STAGE_MAX) as [Hfull|Hroom].
  { apply inv_with_record; [|done]. apply keeps_unstaged. intros r. by split_and!; [..|left]. }
  apply inv_with_record_at; [|done]. intros r Hr Hok. split; [|by left].
  unfold record_at in Hd, Hroom. rewrite Hr in Hd, Hroom. by apply stage_push_ok.
Qed.

Lemma filter_event_inv i type code value s : input_inv s -> input_inv (filter_event i type code value s).1.
Proof.
  intros Hinv.
  assert (forall off get put pass sup,
    (forall w sn, sn_linux_dev (put w sn) = sn_linux_dev sn) ->
    input_inv (update_single_word_state i code value sup off get put pass s).1) as Hword.
  { intros off get put pass sup Hput. unfold update_single_word_state.
    repeat case_match; cbn [fst]; auto.
    all: apply inv_set_mem, inv_with_snapshot; [|done]; intros sn; apply Hput. }
  assert (input_inv (update_key_event_state i code value s).1) as Hkey.
  { unfold update_key_event_state. repeat case_match; cbn [fst]; auto.
    all: by apply inv_set_mem, inv_with_snapshot. }
  assert (input_inv (update_abs_event_state i code value s).1.1) as Habs.
  { unfold update_abs_event_state. repeat case_match; cbn [fst]; auto.
    by apply inv_with_snapshot, inv_set_mem. }
  unfold filter_event, update_switch_event_state, update_led_event_state, update_sound_event_state in *.
  repeat (case_match; simplify_eq/=); auto.
  all: match goal with
       | E : update_single_word_state _ _ _ ?sup ?off ?get ?put ?pass _ = _ |- _ =>
           specialize (Hword off get put pass sup); rewrite E in Hword; by apply Hword
       end.
Qed.

Lemma refresh_abs_dev m a sn : sn_linux_dev (refresh_abs m a sn) = sn_linux_dev sn.
Proof. unfold refresh_abs. by case_match. Qed.

Lemma refresh_snapshot_dev trust m a sn : sn_linux_dev (refresh_snapshot trust m a sn) = sn_linux_dev sn.
Proof. unfold refresh_snapshot. by rewrite refresh_abs_dev. Qed.

Lemma refresh_inv trust i s : input_inv s -> input_inv (refresh_device_snapshot trust i s).
Proof.
  intros Hinv. unfold refresh_device_snapshot. case_match; [done|].
  apply inv_with_record; [|done]. intros r Hr. split; [exact Hr|]. left. apply refresh_snapshot_dev.
Qed.

Lemma record_event_inv trust dev type code value s :
  input_inv s -> input_inv (kb_input_subsystem_record_event trust dev type code value s).
Proof.
  intros Hinv. unfold kb_input_subsystem_record_event.
  assert (input_inv (if dev =? 0 then fallback_event_record s else alloc_record dev s).1) as H1.
  { case_match; auto with input. }
  destruct (if dev =? 0 then _ else _) as [s1 [i|]]; [|done]. cbn [fst] in H1.
  set (s2 := with_snapshot _ i _). assert (input_inv s2) as H2.
  { apply inv_with_snapshot; [done|]. by apply refresh_inv. }
  pose proof (filter_event_inv i type code value s2 H2) as H3.
  destruct (filter_event i type code value s2) as [s3 [v|]]; [|done].
  case_match; [done|]. by apply stage_event_inv.
Qed.

#[export] Hint Resolve publish_inv stage_event_inv refresh_inv record_event_inv : input.

(** ** Reachable states *)

(** What the subsystem asks of a driver's callbacks: they may call back into it,
    so whatever they do, the invariant holds when they return. *)
Class WellBehaved (D : InputDriver) : Prop := {
  driver_open_inv fn dev s : input_inv s -> input_inv (driver_open fn dev s).1;
  driver_close_inv fn dev s : input_inv s -> input_inv (driver_close fn dev s);
}.

(** The operations of input.h that change state, with the addresses the
    allocators return. *)
Inductive input_op :=
  | OpAllocate (kzalloc : Z)
  | OpFree (dev : Z)
  | OpRegister (dev : Z)
  | OpUnregister (dev : Z)
  | OpEvent (dev type code value : Z)
  | OpSetAbs (dev axis minimum maximum fuzz flat calloc : Z)
  | OpAllocAbsinfo (dev calloc : Z)
  | OpMtInit (dev num_slots flags : Z)
  | OpOpen
  | OpClose
  | OpPop (buffer : bool) (max_events : nat)
  | OpReset
  | OpModuleWrites (f : mem -> mem).

Lemma input_init_inv m : input_inv (input_state_init m).
Proof.
  split; [apply ring_ok_init| | | |apply framed_nil].
  - cbn -[replicate]. apply length_replicate.
  - apply Forall_replicate, zero_record_ok.
  - intros i j r t Hi Hj _ Hne. apply lookup_replicate in Hi as [-> _]. by destruct Hne.
Qed.

Section reachable.
Context `{D : InputDriver} `{!WellBehaved D} (trust : bool).

Definition input_step (op : input_op) (s : input_state) : input_state :=
  match op with
  | OpAllocate p => (kb_input_subsystem_allocate_device p s).1
  | OpFree dev => kb_input_subsystem_free_device dev s
  | OpRegister dev => (kb_input_subsystem_register_device trust dev s).1
  | OpUnregister dev => kb_input_subsystem_unregister_device dev s
  | OpEvent dev type code value => kb_input_subsystem_record_event trust dev type code value s
  | OpSetAbs dev axis lo hi fuzz flat p => kb_input_subsystem_set_abs_params dev axis lo hi fuzz flat p s
  | OpAllocAbsinfo dev p => kb_input_subsystem_alloc_absinfo dev p s
  | OpMtInit dev n flags => (kb_input_subsystem_mt_init_slots dev n flags s).1
  | OpOpen => (kb_input_subsystem_open_registered_devices s).1
  | OpClose => kb_input_subsystem_close_registered_devices s
  | OpPop b n => (kb_input_subsystem_pop_events b (Z.of_nat n) s).1
  | OpReset => kb_input_subsystem_reset s
  | OpModuleWrites f => s <| in_mem ::= f |>
  end.

Definition input_run (ops : list input_op) (s : input_state) : input_state :=
  foldl (fun s op => input_step op s) s ops.

Lemma allocate_inv p s : input_inv s -> input_inv (kb_input_subsystem_allocate_device p s).1.
Proof using All.
  intros Hinv. unfold kb_input_subsystem_allocate_device. case_match; [done|].
  match goal with |- context [alloc_record p ?t] => pose proof (alloc_record_inv p t) as H1;
    destruct (alloc_record p t) as [s1 [i|]] end; cbn [fst] in *.
  - apply inv_with_record; [|by auto with input]. apply keeps_unstaged. intros r. by split_and!; [..|right].
  - auto with input.
Qed.

Lemma free_device_inv dev s : input_inv s -> input_inv (kb_input_subsystem_free_device dev s).
Proof using All.
  intros Hinv. unfold kb_input_subsystem_free_device. case_match; [|done].
  apply clear_record_inv. case_match; auto with input.
Qed.

Lemma register_device_inv dev s : input_inv s -> input_inv (kb_input_subsystem_register_device trust dev s).1.
Proof using All.
  intros Hinv. unfold kb_input_subsystem_register_device. pose proof (alloc_record_inv dev s Hinv) as H1.
  destruct (alloc_record dev s) as [s1 [i|]]; [|done]. cbn [fst] in H1.
  set (s2 := refresh_device_snapshot trust i _). assert (input_inv s2) as H2.
  { apply refresh_inv, inv_with_snapshot, inv_set_mem; auto with input. }
  repeat case_match; cbn [fst]; auto with input.
Qed.

Lemma close_record_inv i s : input_inv s -> input_inv (close_input_record i s).
Proof using All.
  intros Hinv. unfold close_input_record. case_match; [done|]. apply inv_with_snapshot; [done|].
  case_match; [by apply driver_close_inv|done].
Qed.

Lemma open_record_inv i s : input_inv s -> input_inv (open_input_record i s).1.
Proof using All.
  intros Hinv. unfold open_input_record. destruct (negb _); [done|].
  set (fn := linux_input_ptr _ _ _). set (dev := sn_linux_dev _).
  destruct (_ || _); cbn [fst]; [auto with input|].
  pose proof (driver_open_inv fn dev s Hinv) as H1.
  destruct (driver_open fn dev s) as [s1 result]. cbn [fst] in H1.
  destruct (result =? 0); cbn [fst]; auto with input.
Qed.

Lemma unregister_device_inv dev s : input_inv s -> input_inv (kb_input_subsystem_unregister_device dev s).
Proof using All.
  intros Hinv. unfold kb_input_subsystem_unregister_device. destruct (find_device s dev) as [i|]; [|done].
  pose proof (close_record_inv i s Hinv) as H1. set (s1 := close_input_record i s) in *.
  match goal with |- context [with_snapshot ?g i ?t] => assert (input_inv (with_snapshot g i t)) as H2 end.
  { auto with input. }
  case_match; [|done]. auto with input.
Qed.

Lemma alloc_absinfo_inv dev p s : input_inv s -> input_inv (kb_input_subsystem_alloc_absinfo dev p s).
Proof using All.
  intros Hinv. unfold kb_input_subsystem_alloc_absinfo. pose proof (alloc_record_inv dev s Hinv) as H1.
  destruct (alloc_record dev s) as [s1 [i|]]; [|done]. cbn [fst] in H1. case_match; [done|].
  assert (forall f t, (forall r, stage (f r) = stage r /\ dev_of (f r) = dev_of r /\
     (stage_count (f r) = 0 \/ (stage_count (f r) = stage_count r /\ stage_dropped (f r) = stage_dropped r))) ->
     input_inv t -> input_inv (with_record f i t)) as Hrec.
  { intros f t Hf. by apply inv_with_record, keeps_unstaged. }
  case_match; [|apply Hrec; [|apply inv_set_mem]]; try (intros r; by split_and!; [..|right]).
  all: apply Hrec; [|done]; intros r; by split_and!; [..|right].
Qed.

Lemma set_abs_inv dev axis lo hi fuzz flat p s :
  input_inv s -> input_inv (kb_input_subsystem_set_abs_params dev axis lo hi fuzz flat p s).
Proof using All.
  intros Hinv. unfold kb_input_subsystem_set_abs_params. pose proof (alloc_record_inv dev s Hinv) as H1.
  destruct (alloc_record dev s) as [s1 [i|]]; [|done]. cbn [fst] in H1. case_match; [done|].
  match goal with |- context [kb_input_subsystem_alloc_absinfo dev p ?t] =>
    assert (input_inv (kb_input_subsystem_alloc_absinfo dev p t)) as H2 end.
  { apply alloc_absinfo_inv. auto with input. }
  case_match; auto with input.
Qed.

Lemma pop_inv b (n : nat) s : input_inv s -> input_inv (kb_input_subsystem_pop_events b (Z.of_nat n) s).1.
Proof using All.
  intros Hinv. destruct b; [|done]. destruct (decide (n = 0%nat)) as [->|Hn]; [done|].
  rewrite pop_eq by lia. cbn [fst]. pose proof (inv_ring s Hinv) as Hok.
  pose proof Hok as (_ & _ & Hc & _).
  apply (inv_new_queue s); [done|apply skip_events_ok; [done|lia]| |done].
  rewrite queue_skip_events by lia. apply framed_drop, Hinv.
Qed.

Lemma close_all_inv s : input_inv s -> input_inv (kb_input_subsystem_close_registered_devices s).
Proof using All.
  intros Hinv. unfold kb_input_subsystem_close_registered_devices.
  apply foldl_keeps; [|done]. intros a b _. apply close_record_inv.
Qed.

Lemma open_all_inv s : input_inv s -> input_inv (kb_input_subsystem_open_registered_devices s).1.
Proof using All.
  intros Hinv. unfold kb_input_subsystem_open_registered_devices.
  apply (foldl_keeps (fun p => input_inv p.1)); [|done]. intros [a n] i _ Ha.
  pose proof (open_record_inv i a Ha) as H1. by destruct (open_input_record i a) as [? []].
Qed.

Lemma reset_inv s : input_inv s -> input_inv (kb_input_subsystem_reset s).
Proof using All.
  intros Hinv. unfold kb_input_subsystem_reset.
  match goal with |- context [foldl ?f ?a ?l] => assert (input_inv (foldl f a l)) as H1 end.
  { apply foldl_keeps; [|by apply close_all_inv]. intros a b _ Ha. apply clear_record_inv.
    case_match; auto with input. }
  revert H1. generalize (foldl reset_record (kb_input_subsystem_close_registered_devices s)
    (seq 0 (Z.to_nat KB_INPUT_DEVICE_MAX))). intros t Ht.
  apply (inv_new_queue t); [done|apply (ring_ok_init ∅)|apply framed_nil|done].
Qed.

Lemma mt_init_inv dev n flags s : input_inv s -> input_inv (kb_input_subsystem_mt_init_slots dev n flags s).1.
Proof using All.
  intros Hinv. unfold kb_input_subsystem_mt_init_slots. pose proof (alloc_record_inv dev s Hinv) as H1.
  destruct (alloc_record dev s) as [s1 [i|]]; [|done]. cbn [fst] in H1. case_match; cbn [fst]; auto with input.
Qed.

Lemma input_step_inv op s : input_inv s -> input_inv (input_step op s).
Proof using All.
  destruct op; cbn [input_step].
  - apply allocate_inv.
  - apply free_device_inv.
  - apply register_device_inv.
  - apply unregister_device_inv.
  - apply record_event_inv.
  - apply set_abs_inv.
  - apply alloc_absinfo_inv.
  - apply mt_init_inv.
  - apply open_all_inv.
  - apply close_all_inv.
  - apply pop_inv.
  - apply reset_inv.
  - apply inv_set_mem.
Qed.

Lemma input_run_inv ops s : input_inv s -> input_inv (input_run ops s).
Proof using All.
  intros Hinv. unfold input_run. apply foldl_keeps; [|done]. intros a op _. apply input_step_inv.
Qed.

(** C37: In every state any sequence of operations reaches, with drivers whose
    callbacks may themselves use the subsystem and modules that overwrite their
    device objects at will, the queue is what is left of a sequence of whole
    frames: all events of a frame come from one device, only the last one is a
    SYN_REPORT, and no frame is cut off at the end or mixed with another
    device's.  The ring indices and stage lengths stay in range, no stage holds a
    report, and no device object has two records. *)
Theorem input_frames_stay_whole (ops : list input_op) (m : mem) :
  input_inv (input_run ops (input_state_init m)).
Proof using All. apply input_run_inv, input_init_inv. Qed.
End reachable.

(** A driver whose [open] reports a frame of its own and whose [close] pops the
    queue. *)
Definition chatty_driver : InputDriver := {|
  driver_open fn dev s :=
    (kb_input_subsystem_record_event false dev 0 0 0 (kb_input_subsystem_record_event false dev 4 4 7 s), 0);
  driver_close fn dev s := (kb_input_subsystem_pop_events true 1 s).1;
|}.

#[export] Instance chatty_driver_ok : WellBehaved chatty_driver.
Proof.
  split.
  - intros fn dev s Hinv. cbn [driver_open chatty_driver fst]. auto with input.
  - intros fn dev s Hinv. cbn [driver_close chatty_driver]. rewrite pop_eq by done. cbn [fst].
    pose proof (inv_ring s Hinv) as Hok. pose proof Hok as (_ & _ & Hc & _).
    apply (inv_new_queue s); [done|apply skip_events_ok; [done|lia]| |done].
    rewrite queue_skip_events by lia. apply framed_drop, Hinv.
Qed.

(** A device that is registered with an [open] function, opened, used and closed. *)
Definition sample_ops : list input_op :=
  [OpAllocate 65536; OpModuleWrites (fun m => mstore64 m (65536 + 456) 0x500000);
   OpRegister 65536; OpOpen; OpEvent 65536 4 4 1; OpEvent 65536 4 4 2; OpEvent 65536 0 0 0; OpPop true 1].

Definition sample_queue : list (Z * Z * Z) :=
  map (fun e => (ev_type e, ev_code e, ev_value e))
    (queue (input_run (D := chatty_driver) false sample_ops (input_state_init ∅))).

Example sample_queue_value : sample_queue = [(0, 0, 0); (4, 4, 1); (4, 4, 2); (0, 0, 0)].
Proof. vm_compute. reflexivity. Qed.

Lemma input_frames_stay_whole_witness :
  sample_queue = [(0, 0, 0); (4, 4, 1); (4, 4, 2); (0, 0, 0)] /\
  input_inv (input_run (D := chatty_driver) false sample_ops (input_state_init ∅)).
Proof.
  split; [vm_compute; reflexivity|].
  apply (@input_frames_stay_whole chatty_driver chatty_driver_ok false sample_ops ∅).
Defined.

(** ** Overflow *)

(** How many queued events belong to record [i]. *)
Definition queued_for (s : input_state) (i : nat) : Z :=
  Z.of_nat (length (List.filter (fun e => bool_decide (find_device_by_id s (ev_device_id e) = Some i)) (queue s))).

Lemma lookup_queue s k :
  (k < Z.to_nat (input_event_count s))%nat ->
  queue s !! k = Some (event_at s ((input_event_head s + Z.of_nat k) mod KB_INPUT_EVENT_QUEUE_MAX)).
Proof. intros Hk. unfold queue. rewrite list_lookup_fmap, lookup_seq_lt by done. done. Qed.

Lemma count_lost_spec s i k :
  (i < Z.to_nat KB_INPUT_DEVICE_MAX)%nat -> ring_ok s -> (k <= Z.to_nat (input_event_count s))%nat ->
  foldl (count_lost s) (replicate (Z.to_nat KB_INPUT_DEVICE_MAX) 0) (seq 0 k) !! i =
  Some (Z.of_nat (length (List.filter
    (fun e => bool_decide (find_device_by_id s (ev_device_id e) = Some i)) (take k (queue s))))).
Proof.
  intros Hi Hok. induction k as [|k IH]; intros Hk.
  - cbn [seq foldl]. rewrite take_0. cbn -[replicate]. by rewrite lookup_replicate_2.
  - rewrite seq_S, foldl_app. cbn [foldl]. rewrite Nat.add_0_l. specialize (IH ltac:(lia)).
    rewrite (take_S_r _ _ _ (lookup_queue s k ltac:(lia))), List.filter_app, length_app.
    unfold count_lost at 1. set (e := event_at s _). cbn [List.filter].
    pose proof (filter_length_le (fun e => bool_decide (find_device_by_id s (ev_device_id e) = Some i))
      (take k (queue s))) as Hle. rewrite length_take, length_queue in Hle.
    destruct (find_device_by_id s (ev_device_id e)) as [j|] eqn:Hj.
    + rewrite list_lookup_alter. case_decide as Hij.
      * subst j. rewrite bool_decide_true by done. rewrite IH. cbn [length fmap option_fmap option_map].
        f_equal. destruct Hok as (_ & _ & Hc & _). unfold KB_INPUT_EVENT_QUEUE_MAX in Hc.
        rewrite u64_small by (unfold is_u64; lia). lia.
      * rewrite bool_decide_false by congruence. rewrite IH. cbn [length]. by rewrite Nat.add_0_r.
    + rewrite bool_decide_false by congruence. rewrite IH. cbn [length]. by rewrite Nat.add_0_r.
Qed.

Lemma lost_events_spec s c n i :
  (i < Z.to_nat KB_INPUT_DEVICE_MAX)%nat -> ring_ok s ->
  default 0 (lost_events_of s c n !! i) =
  if decide (i = c) then u64 (queued_for s i + n) else queued_for s i.
Proof.
  intros Hi Hok. pose proof (count_lost_spec s i _ Hi Hok (le_n _)) as H.
  rewrite <- length_queue in H at 2. rewrite firstn_all in H. fold (queued_for s i) in H.
  assert (u64 (queued_for s i + 0) = queued_for s i) as H0.
  { rewrite Z.add_0_r. apply u64_small. unfold queued_for, is_u64.
    pose proof (filter_length_le (fun e => bool_decide (find_device_by_id s (ev_device_id e) = Some i)) (queue s)).
    rewrite length_queue in *. destruct Hok as (_ & _ & Hc & _). unfold KB_INPUT_EVENT_QUEUE_MAX in Hc. lia. }
  unfold lost_events_of. destruct (Z.eqb_spec n 0) as [->|Hn].
  - rewrite H. cbn. by case_decide.
  - rewrite list_lookup_alter. case_decide as Hci; [subst c|].
    + rewrite decide_True by done. by rewrite H.
    + rewrite decide_False by congruence. by rewrite H.
Qed.

Lemma record_at_with_same f i s :
  (i < length (input_devices s))%nat -> record_at (with_record f i s) i = f (record_at s i).
Proof.
  intros Hi. unfold record_at. cbn. rewrite list_lookup_alter_eq.
  destruct (lookup_lt_is_Some_2 _ _ Hi) as [r ->]. done.
Qed.

Lemma record_at_with_other f i j s : i <> j -> record_at (with_record f i s) j = record_at s j.
Proof. intros Hij. unfold record_at. cbn. by rewrite list_lookup_alter_ne. Qed.

(** How the loss of [n] events of a record that was [r] is visible in [t], where
    its record is now [r']: the loss is counted, and if the device is active its
    reader finds a recovery pair in the queue, or will find one when the frame
    that is being staged is published. *)
Definition loss_reported (others_frame : bool) (r r' : kb_input_device_record) (n : Z)
    (q : list kb_input_event) : Prop :=
  sn_dropped_events (snapshot r') = u64 (sn_dropped_events (snapshot r) + n) /\
  (sn_active (snapshot r) = true ->
     (exists l1 e1 e2 l2, q = l1 ++ [e1; e2] ++ l2 /\ recovery_pair (sn_id (snapshot r)) e1 e2) \/
     (others_frame = true /\ stage_dropped r' = true)).

Lemma loss_reported_app b r r' n q l : loss_reported b r r' n q -> loss_reported b r r' n (q ++ l).
Proof.
  intros [Hd Ha]. split; [done|]. intros Hact. destruct (Ha Hact) as [(l1 & e1 & e2 & l2 & -> & Hp)|]; [|by right].
  left. exists l1, e1, e2, (l2 ++ l). split; [|done]. by rewrite <- !app_assoc.
Qed.

Lemma recover_record_spec c lost t k :
  ring_ok t -> (k < length (input_devices t))%nat -> input_event_count t <= KB_INPUT_EVENT_QUEUE_MAX - 2 ->
  let n := default 0 (lost !! k) in
  let t' := recover_record c lost t k in
  ring_ok t' /\ length (input_devices t') = length (input_devices t) /\
  input_event_count t' <= input_event_count t + 2 /\
  (forall j, j <> k -> record_at t' j = record_at t j) /\
  (exists l, queue t' = queue t ++ l) /\
  (n = 0 /\ t' = t \/
   n <> 0 /\ loss_reported (bool_decide (k <> c)) (record_at t k) (record_at t' k) n (queue t')).
Proof.
  intros Hok Hk Hroom. cbn zeta. unfold recover_record. set (n := default 0 (lost !! k)).
  destruct (Z.eqb_spec n 0) as [H0|H0].
  { split_and!; [done|done|lia|done|exists []; by rewrite app_nil_r|by left]. }
  set (f := fun r : kb_input_device_record => r <| snapshot ::= _ |>).
  set (t1 := with_record f k t).
  assert (ring_ok t1 /\ queue t1 = queue t) as [Hok1 Hq1].
  { split; [by apply (same_ring_ok _ t)|by apply same_ring_queue]. }
  assert (record_at t1 k = f (record_at t k)) as Hr1 by (by apply record_at_with_same).
  assert (forall j, j <> k -> record_at t1 j = record_at t j) as Ho1.
  { intros j Hj. by apply record_at_with_other. }
  assert (length (input_devices t1) = length (input_devices t)) as Hl1 by apply length_alter.
  destruct (bool_decide (k <> c) && _) eqn:Hother.
  - apply andb_true_iff in Hother as [-> Hst].
    destruct (stage_dropped (record_at t1 k)) eqn:Hsd.
    + split_and!; [done|done|cbn; lia|exact Ho1|exists []; by rewrite app_nil_r|]. right. split; [done|].
      split; [by rewrite Hr1|]. intros _. by right.
    + match goal with |- context [with_record ?g k t1] => set (g2 := g) end.
      assert (record_at (with_record g2 k t1) k = g2 (record_at t1 k)) as Hr2.
      { apply record_at_with_same. by rewrite Hl1. }
      split_and!; [by apply (same_ring_ok _ t1)|cbn; rewrite length_alter; exact Hl1|cbn; lia| | |].
      * intros j Hj. rewrite record_at_with_other by done. by apply Ho1.
      * exists []. rewrite app_nil_r. by rewrite (same_ring_queue _ t1).
      * right. split; [done|]. rewrite Hr2, Hr1. split; [done|]. intros _. by right.
  - destruct (append_recovery_spec k t1 Hok1) as (Hok2 & Hd2 & Hcase). rewrite Hr1 in Hcase.
    split_and!; [done|by rewrite Hd2| | | |].
    + destruct Hcase as [[-> _]|(_ & -> & _)]; cbn; lia.
    + intros j Hj. rewrite (record_at_devices _ t1) by done. by apply Ho1.
    + destruct Hcase as [[-> _]|(_ & _ & e1 & e2 & -> & _)]; [exists []|exists [e1; e2]];
        rewrite Hq1, ?app_nil_r; done.
    + right. split; [done|].
      rewrite (record_at_devices (append_recovery_frame_unchecked k t1) t1 k) by done. rewrite Hr1. split; [done|].
      intros Hact. left. destruct Hcase as [[_ [Hina|Hfull]]|(_ & _ & e1 & e2 & Hq2 & _ & Hp)].
      * cbn in Hina. congruence.
      * cbn in Hfull. lia.
      * exists (queue t1), e1, e2, []. by rewrite app_nil_r.
Qed.

(** The records below [k] are dealt with, the others are as in [s]. *)
Definition recovered_upto (c : nat) (lost : list Z) (s : input_state) (k : nat) (t : input_state) : Prop :=
  ring_ok t /\ length (input_devices t) = length (input_devices s) /\
  input_event_count t <= 2 * Z.of_nat k /\
  (forall j, (k <= j)%nat -> record_at t j = record_at s j) /\
  (forall j, (j < k)%nat ->
     let n := default 0 (lost !! j) in
     n = 0 /\ record_at t j = record_at s j \/
     n <> 0 /\ loss_reported (bool_decide (j <> c)) (record_at s j) (record_at t j) n (queue t)).

Lemma recover_loop c lost s t k :
  recovered_upto c lost s 0 t -> length (input_devices s) = Z.to_nat KB_INPUT_DEVICE_MAX ->
  (k <= Z.to_nat KB_INPUT_DEVICE_MAX)%nat ->
  recovered_upto c lost s k (foldl (recover_record c lost) t (seq 0 k)).
Proof.
  intros H0 Hsize. induction k as [|k IH]; intros Hk; [done|].
  rewrite seq_S, foldl_app. cbn [foldl]. rewrite Nat.add_0_l. specialize (IH ltac:(lia)).
  set (t1 := foldl _ t (seq 0 k)) in *. destruct IH as (Hok & Hl & Hc & Hge & Hlt).
  destruct (recover_record_spec c lost t1 k Hok) as (Hok' & Hl' & Hc' & Ho & [l Hq] & Hcase).
  { rewrite Hl, Hsize. lia. }
  { unfold KB_INPUT_DEVICE_MAX, KB_INPUT_EVENT_QUEUE_MAX in *. lia. }
  split_and!; [done|by rewrite Hl'|lia| |].
  - intros j Hj. rewrite Ho by lia. apply Hge. lia.
  - intros j Hj. destruct (decide (j = k)) as [->|Hne].
    + rewrite <- (Hge k (le_n k)). destruct Hcase as [[Hz ->]|Hcase]; [by left|by right].
    + rewrite Ho by done. destruct (Hlt j ltac:(lia)) as [?|[Hnz Hrep]]; [by left|].
      right. split; [done|]. rewrite Hq. by apply loss_reported_app.
Qed.

(** The loss of record [i] when the queue is emptied for record [c]. *)
Definition events_lost (s : input_state) (c : nat) (n : Z) (i : nat) : Z :=
  if decide (i = c) then u64 (queued_for s i + n) else queued_for s i.

Lemma recover_spec c n s :
  input_inv s ->
  let s' := recover_input_event_queue_overflow c n s in
  ring_ok s' /\ input_event_count s' <= 2 * KB_INPUT_DEVICE_MAX /\
  length (input_devices s') = length (input_devices s) /\
  forall i, (i < Z.to_nat KB_INPUT_DEVICE_MAX)%nat ->
    events_lost s c n i = 0 /\ record_at s' i = record_at s i \/
    events_lost s c n i <> 0 /\
    loss_reported (bool_decide (i <> c)) (record_at s i) (record_at s' i) (events_lost s c n i) (queue s').
Proof.
  intros Hinv. cbn zeta. unfold recover_input_event_queue_overflow.
  set (lost := lost_events_of s c n). set (t := s <| input_event_head := 0 |> <| input_event_count := 0 |>).
  assert (input_inv t) as Ht by (by apply empty_queue_inv).
  destruct (recover_loop c lost s t (Z.to_nat KB_INPUT_DEVICE_MAX)) as (Hok & Hl & Hc & _ & Hall);
    [|apply Hinv|lia|].
  { split_and!; [apply Ht|done|done|done|intros; lia]. }
  split_and!; [done|unfold KB_INPUT_DEVICE_MAX in *; lia|done|]. intros i Hi.
  pose proof (Hall i Hi) as H. cbn zeta in H. unfold lost in H.
  rewrite lost_events_spec in H by (done || apply Hinv). exact H.
Qed.

(** When the queue cannot take a frame it is emptied, and no loss goes
    unnoticed: for each of the 64 records, the events of that device that were
    queued (plus those of the frame that did not fit, for the current one) are
    added to its counter of dropped events; and the reader of every active device
    that lost events finds a SYN_DROPPED / SYN_REPORT pair of that device in the
    queue, or the device is in the middle of a frame, which is then marked so
    that publishing it produces the pair.  The pairs always fit: at most 128
    events are queued afterwards.  Devices that lost nothing are untouched. *)
Theorem input_overflow_is_reported c n s :
  input_inv s ->
  let s' := recover_input_event_queue_overflow c n s in
  (length (queue s') <= 128)%nat /\
  forall i, (i < 64)%nat ->
    events_lost s c n i = 0 /\ record_at s' i = record_at s i \/
    events_lost s c n i <> 0 /\
    loss_reported (bool_decide (i <> c)) (record_at s i) (record_at s' i) (events_lost s c n i) (queue s').
Proof.
  intros Hinv. destruct (recover_spec c n s Hinv) as (_ & Hc & _ & Hall). split; [|exact Hall].
  rewrite length_queue. unfold KB_INPUT_DEVICE_MAX in Hc. lia.
Qed.

(** A queue that is full with the frames of one device, and a second device. *)
Definition flood_ops : list input_op :=
  [OpAllocate 65536; OpRegister 65536; OpAllocate 131072; OpRegister 131072; OpEvent 131072 4 4 9] ++
  concat (replicate 600 [OpEvent 65536 4 4 1; OpEvent 65536 0 0 0]).

Lemma input_overflow_is_reported_witness :
  let s := input_run (D := chatty_driver) false (take 1027 flood_ops) (input_state_init ∅) in
  let s' := recover_input_event_queue_overflow 0 2 s in
  events_lost s 0 2 0 = 1024 /\
  (length (queue s') <= 128)%nat /\
  forall i, (i < 64)%nat ->
    events_lost s 0 2 i = 0 /\ record_at s' i = record_at s i \/
    events_lost s 0 2 i <> 0 /\
    loss_reported (bool_decide (i <> 0%nat)) (record_at s i) (record_at s' i) (events_lost s 0 2 i) (queue s').
Proof.
  split; [vm_compute; reflexivity|].
  apply (input_overflow_is_reported 0 2
    (input_run (D := chatty_driver) false (take 1027 flood_ops) (input_state_init ∅))).
  apply (@input_run_inv chatty_driver chatty_driver_ok), input_init_inv.
Defined.

(** ** Publishing *)

Lemma queued_for_bound s i : ring_ok s -> 0 <= queued_for s i <= KB_INPUT_EVENT_QUEUE_MAX.
Proof.
  intros (_ & _ & Hc & _). unfold queued_for.
  pose proof (filter_length_le (fun e => bool_decide (find_device_by_id s (ev_device_id e) = Some i)) (queue s)).
  rewrite length_queue in *. lia.
Qed.

(** A record loses at least the frame that did not fit. *)
Lemma recover_current i n s :
  input_inv s -> (i < Z.to_nat KB_INPUT_DEVICE_MAX)%nat -> 0 < n <= 2 ^ 63 ->
  let s' := recover_input_event_queue_overflow i n s in
  length (input_devices s') = length (input_devices s) /\
  exists lost, n <= lost /\ loss_reported false (record_at s i) (record_at s' i) lost (queue s').
Proof.
  intros Hinv Hi Hn. cbn zeta. destruct (recover_spec i n s Hinv) as (_ & _ & Hl & Hall). split; [done|].
  pose proof (queued_for_bound s i (inv_ring s Hinv)) as Hq.
  destruct (Hall i Hi) as [[H0 _]|[_ Hrep]].
  - unfold events_lost in H0. rewrite decide_True in H0 by done.
    rewrite u64_small in H0 by (unfold is_u64, KB_INPUT_EVENT_QUEUE_MAX in *; lia). lia.
  - exists (events_lost s i n i). split.
    + unfold events_lost. rewrite decide_True by done.
      rewrite u64_small by (unfold is_u64, KB_INPUT_EVENT_QUEUE_MAX in *; lia). lia.
    + by rewrite bool_decide_false in Hrep by congruence.
Qed.

(** Emptying the stage does not touch the counters or the queue. *)
Lemma loss_reported_reset i r n t :
  (i < length (input_devices t))%nat ->
  loss_reported false r (record_at t i) n (queue t) ->
  loss_reported false r (record_at (reset_staged_input_frame i t) i) n (queue (reset_staged_input_frame i t)).
Proof.
  intros Hi [Hd Ha]. unfold reset_staged_input_frame at 1 2. rewrite record_at_with_same by done.
  split; [exact Hd|]. intros Hact. destruct (Ha Hact) as [H|[? _]]; [by left|done].
Qed.

Lemma reset_record_at i t :
  (i < length (input_devices t))%nat ->
  staged (record_at (reset_staged_input_frame i t) i) = [] /\
  stage_dropped (record_at (reset_staged_input_frame i t) i) = false.
Proof. intros Hi. unfold reset_staged_input_frame. rewrite record_at_with_same by done. done. Qed.

(** The recovery pair of a frame that overflowed its stage, in a queue with room. *)
Lemma recovery_pair_appended i n s :
  ring_ok s -> (i < length (input_devices s))%nat -> sn_active (snapshot (record_at s i)) = true ->
  input_event_count s <= KB_INPUT_EVENT_QUEUE_MAX - 2 ->
  let s' := append_recovery_frame_unchecked i (with_record (fun r => r <| snapshot ::= fun sn =>
              sn <| sn_dropped_events ::= fun d => u64 (d + n) |> |>) i s) in
  length (input_devices s') = length (input_devices s) /\
  loss_reported false (record_at s i) (record_at s' i) n (queue s').
Proof.
  intros Hok Hi Hact Hroom. cbn zeta. set (s1 := with_record _ i s).
  assert (ring_ok s1) as Hok1 by (by apply (same_ring_ok _ s)).
  destruct (append_recovery_spec i s1 Hok1) as (_ & Hd & Hcase).
  rewrite (record_at_devices (append_recovery_frame_unchecked i s1) s1 i) by done.
  assert (record_at s1 i = record_at s i <| snapshot ::= fun sn =>
            sn <| sn_dropped_events ::= fun d => u64 (d + n) |> |>) as Hr1.
  { by apply record_at_with_same. }
  rewrite Hr1 in *. cbn in Hcase. rewrite Hact in Hcase.
  split; [rewrite Hd; apply length_alter|]. split; [done|]. intros _. left.
  destruct Hcase as [[_ [?|?]]|(_ & _ & e1 & e2 & Hq & _ & Hp)]; [done|lia|].
  exists (queue s1), e1, e2, []. by rewrite app_nil_r.
Qed.

(** Every SYN_REPORT of an active device makes progress: publishing leaves
    the stage empty and open for the next frame, and either the staged events and
    the closing report are appended to the queue, whole, in order and with
    consecutive sequence numbers, or the queue had no room for them (or the frame
    had outgrown its stage) and the loss of at least that frame is counted and
    reported by a recovery pair.  An empty frame changes nothing. *)
Theorem publish_delivers_or_reports i s :
  input_inv s -> (i < 64)%nat -> sn_active (snapshot (record_at s i)) = true ->
  0 <= stage_dropped_events (record_at s i) < 2 ^ 63 ->
  let r := record_at s i in
  let s' := publish_staged_input_frame i s in
  let r' := record_at s' i in
  staged r' = [] /\ stage_dropped r' = false /\
  if stage_dropped r then
    exists n, stage_dropped_events r < n /\ loss_reported false r r' n (queue s')
  else if decide (stage_count r = 0) then s' = s
  else if decide (input_event_count s + stage_count r + 1 <= KB_INPUT_EVENT_QUEUE_MAX)
  then queue s' = queue s ++ published_frame r (next_event_sequence s)
  else exists n, stage_count r < n /\ loss_reported false r r' n (queue s').
Proof.
  intros Hinv Hi Hact Hde. cbn zeta. assert (i < length (input_devices s))%nat as Hlen.
  { rewrite (inv_size s Hinv). unfold KB_INPUT_DEVICE_MAX. lia. }
  pose proof (record_at_ok s i Hinv) as (Hl & Hc & _). unfold KB_INPUT_FRAME_STAGE_MAX in Hc.
  destruct (stage_dropped (record_at s i)) eqn:Hd.
  - unfold publish_staged_input_frame. rewrite Hact, Hd. cbn [negb].
    rewrite u64_small by (unfold is_u64; lia).
    match goal with |- context [reset_staged_input_frame i ?t] => set (s1 := t) end.
    assert (length (input_devices s1) = length (input_devices s) /\
      exists n, stage_dropped_events (record_at s i) < n /\
        loss_reported false (record_at s i) (record_at s1 i) n (queue s1)) as [Hl1 (n & Hn & Hrep)].
    { unfold s1. case_match; boolify.
      - destruct (recover_current i (stage_dropped_events (record_at s i) + 1) s) as (? & n & ? & ?);
          [done|unfold KB_INPUT_DEVICE_MAX; lia|lia|]. split; [done|]. exists n. split; [lia|done].
      - destruct (recovery_pair_appended i (stage_dropped_events (record_at s i) + 1) s) as [? ?];
          [apply Hinv|done|done|lia|]. split; [done|]. eexists. split; [|done]. lia. }
    destruct (reset_record_at i s1) as [Hs Hf]; [by rewrite Hl1|]. split_and!; [done|done|].
    exists n. split; [done|]. apply loss_reported_reset; [by rewrite Hl1|done].
  - destruct (decide (stage_count (record_at s i) = 0)) as [H0|H0].
    { unfold publish_staged_input_frame. rewrite Hact, Hd, H0. cbn.
      unfold staged. rewrite H0. split_and!; [apply take_0|done|done]. }
    case_decide as Hroom.
    + destruct (publish_room_spec i s Hinv Hact Hd H0 Hroom) as (s1 & -> & _ & Hdev & Hq).
      destruct (reset_record_at i s1) as [Hs Hf]; [by rewrite Hdev|]. split_and!; [done|done|].
      by rewrite (same_ring_queue _ s1).
    + unfold publish_staged_input_frame. rewrite Hact, Hd, (proj2 (Z.eqb_neq _ _) H0). cbn [negb].
      rewrite (proj2 (Z.ltb_lt _ _)) by lia.
      destruct (recover_current i (stage_count (record_at s i) + 1) s) as (Hl1 & n & Hn & Hrep);
        [done|unfold KB_INPUT_DEVICE_MAX; lia|lia|].
      match goal with |- context [reset_staged_input_frame i ?t] =>
        destruct (reset_record_at i t) as [Hs Hf]; [by rewrite Hl1|] end.
      split_and!; [done|done|]. exists n. split; [lia|]. apply loss_reported_reset; [by rewrite Hl1|done].
Qed.

(** The next frame of the flooding device does not fit any more. *)
Lemma publish_delivers_or_reports_witness :
  let s := input_run (D := chatty_driver) false (take 1030 flood_ops) (input_state_init ∅) in
  let r := record_at s 0 in
  let s' := publish_staged_input_frame 0 s in
  let r' := record_at s' 0 in
  (input_event_count s =? 1024) && (stage_count r =? 1) = true /\
  staged r' = [] /\ stage_dropped r' = false /\
  if stage_dropped r then
    exists n, stage_dropped_events r < n /\ loss_reported false r r' n (queue s')
  else if decide (stage_count r = 0) then s' = s
  else if decide (input_event_count s + stage_count r + 1 <= KB_INPUT_EVENT_QUEUE_MAX)
  then queue s' = queue s ++ published_frame r (next_event_sequence s)
  else exists n, stage_count r < n /\ loss_reported false r r' n (queue s').
Proof.
  split; [vm_compute; reflexivity|].
  apply (publish_delivers_or_reports 0
    (input_run (D := chatty_driver) false (take 1030 flood_ops) (input_state_init ∅))).
  - apply (@input_run_inv chatty_driver chatty_driver_ok), input_init_inv.
  - lia.
  - vm_compute. reflexivity.
  - vm_compute. split; [discriminate|reflexivity].
Defined.
