(* ===== verification/KernelObjects.v ===== *)
(** * Character devices, /proc entries, classes and cdevs
    (src/src/linux_subsystem/fs/kernel_object_registry.c, lines 1-793)

    Four static tables of 256 records that remember what modules registered, the
    counter of dynamic major numbers, and the encoding of device numbers.  A free
    slot of a table is one whose key field (name, path or cdev pointer) is NULL.
    Records live at the addresses [proc_entry i] and [class_entry i]; the
    operations tables of modules are read from byte memory; [malloc] of a string
    succeeds or fails by an argument.  Tracing and the summary printed at exit
    are left out.  Owners of file operations are found with the list of loaded
    modules of ModuleLayout.v. *)

From S2P Require Import Prelude Memory ModuleLayout.

Definition KB_KERNEL_OBJECT_MAX : Z := 256.
Definition KB_LINUX_CDEV_BYTES : Z := 128.
Definition KB_LINUX_CDEV_OPS_OFFSET : Z := 72.
Definition KB_LINUX_CDEV_LIST_OFFSET : Z := 80.

(** ** Device numbers *)

Definition kb_linux_kernel_decode_major (dev : Z) : Z := u32 (Z.shiftr dev 20).
Definition kb_linux_kernel_decode_minor (dev : Z) : Z := u32 (Z.land dev 0xfffff).
Definition kb_linux_kernel_encode_dev (major minor : Z) : Z :=
  u32 (Z.lor (u32 (Z.shiftl major 20)) (Z.land minor 0xfffff)).

(** ** Records *)

Record kb_file_ops_view := mk_file_ops {
  fo_owner : Z; fo_llseek : Z; fo_read : Z; fo_write : Z; fo_read_iter : Z; fo_write_iter : Z;
  fo_poll : Z; fo_unlocked_ioctl : Z; fo_compat_ioctl : Z; fo_mmap : Z; fo_open : Z; fo_release : Z;
}.

Record kb_proc_ops_view := mk_proc_ops {
  po_open : Z; po_read : Z; po_read_iter : Z; po_write : Z; po_lseek : Z; po_release : Z;
  po_poll : Z; po_ioctl : Z; po_compat_ioctl : Z; po_mmap : Z;
}.

Definition zero_file_ops : kb_file_ops_view := mk_file_ops 0 0 0 0 0 0 0 0 0 0 0 0.
Definition zero_proc_ops : kb_proc_ops_view := mk_proc_ops 0 0 0 0 0 0 0 0 0 0.

Record kb_chrdev_record := mk_chrdev {
  cd_active : bool;
  cd_owner_module : Z;
  cd_major : Z;
  cd_baseminor : Z;
  cd_count : Z;
  cd_name : option (list Z);
  cd_fops : Z;
  cd_fops_view : kb_file_ops_view;
  cd_has_fops_view : bool;
}.
#[export] Instance chrdev_eta : Settable kb_chrdev_record := fun r =>
  mk_chrdev (cd_active r) (cd_owner_module r) (cd_major r) (cd_baseminor r) (cd_count r) (cd_name r)
    (cd_fops r) (cd_fops_view r) (cd_has_fops_view r).
Definition zero_chrdev : kb_chrdev_record := mk_chrdev false 0 0 0 0 None 0 zero_file_ops false.

Record kb_proc_record := mk_proc {
  pr_active : bool;
  pr_owner_module : Z;
  pr_name : option (list Z);
  pr_path : option (list Z);
  pr_mode : Z;
  pr_parent : Z;
  pr_ops : Z;
  pr_data : Z;
  pr_ops_view : kb_proc_ops_view;
  pr_has_ops_view : bool;
}.
#[export] Instance proc_eta : Settable kb_proc_record := fun r =>
  mk_proc (pr_active r) (pr_owner_module r) (pr_name r) (pr_path r) (pr_mode r) (pr_parent r)
    (pr_ops r) (pr_data r) (pr_ops_view r) (pr_has_ops_view r).
Definition zero_proc : kb_proc_record := mk_proc false 0 None None 0 0 0 0 zero_proc_ops false.

Record kb_class_record := mk_class {
  cl_active : bool;
  cl_name : option (list Z);
}.
#[export] Instance class_eta : Settable kb_class_record := fun r => mk_class (cl_active r) (cl_name r).

Record kb_cdev_record := mk_cdev {
  cv_active : bool;
  cv_owner_module : Z;
  cv_cdev : Z;
  cv_dev : Z;
  cv_count : Z;
  cv_fops : Z;
  cv_fops_view : kb_file_ops_view;
  cv_has_fops_view : bool;
}.
#[export] Instance cdev_eta : Settable kb_cdev_record := fun r =>
  mk_cdev (cv_active r) (cv_owner_module r) (cv_cdev r) (cv_dev r) (cv_count r) (cv_fops r)
    (cv_fops_view r) (cv_has_fops_view r).
Definition zero_cdev : kb_cdev_record := mk_cdev false 0 0 0 0 0 zero_file_ops false.

Record kobj_state := mk_kobj_state {
  kb_chrdev_records : list kb_chrdev_record;
  kb_proc_records : list kb_proc_record;
  kb_class_records : list kb_class_record;
  kb_cdev_records : list kb_cdev_record;
  kb_kernel_object_summary_registered : bool;
  kb_next_dynamic_major : Z;
  ko_mem : mem;
}.
#[export] Instance kobj_state_eta : Settable kobj_state := fun r =>
  mk_kobj_state (kb_chrdev_records r) (kb_proc_records r) (kb_class_records r) (kb_cdev_records r)
    (kb_kernel_object_summary_registered r) (kb_next_dynamic_major r) (ko_mem r).

Definition kobj_state_init (m : mem) : kobj_state :=
  let n := Z.to_nat KB_KERNEL_OBJECT_MAX in
  mk_kobj_state (replicate n zero_chrdev) (replicate n zero_proc) (replicate n (mk_class false None))
    (replicate n zero_cdev) false 240 m.

(** ** Strings and fields *)

Definition kb_low_or_err_pointer (ptr : Z) : bool :=
  (ptr =? 0) || (ptr <? 4096) || (UINT64_MAX - 4095 <=? ptr).

(** A string argument: a pointer of the module, or a literal of kobox. *)
Inductive c_string :=
  | CPtr (p : Z)
  | CLit (s : list Z).

Definition or_literal (name : Z) (fallback : list Z) : c_string :=
  if name =? 0 then CLit fallback else CPtr name.

Definition kb_copy_string (m : mem) (value : c_string) (malloc : bool) : option (list Z) :=
  let text := match value with
              | CPtr p => if kb_low_or_err_pointer p then cstr "(unnamed)" else bounded_string m p (Z.to_nat 4096)
              | CLit s => take (Z.to_nat 4096) s
              end in
  if malloc then Some text else None.

Definition kb_read_ptr_field (m : mem) (base offset : Z) : Z :=
  if kb_low_or_err_pointer base then 0 else mload64 m (base + offset).

Definition kb_decode_file_ops (m : mem) (fops : Z) : kb_file_ops_view :=
  if kb_low_or_err_pointer fops then zero_file_ops
  else let f := kb_read_ptr_field m fops in
       mk_file_ops (f 0) (f 8) (f 16) (f 24) (f 32) (f 40) (f 64) (f 72) (f 80) (f 88) (f 104) (f 120).

Definition kb_decode_proc_ops (m : mem) (ops : Z) : kb_proc_ops_view :=
  if kb_low_or_err_pointer ops then zero_proc_ops
  else let f := kb_read_ptr_field m ops in
       mk_proc_ops (f 8) (f 16) (f 24) (f 32) (f 40) (f 48) (f 56) (f 64) (f 72) (f 80).

Definition kb_register_kernel_object_summary (s : kobj_state) : kobj_state :=
  s <| kb_kernel_object_summary_registered := true |>.

(** ** Free slots *)

Definition is_none {A} (o : option A) : bool := match o with None => true | Some _ => false end.

Definition kb_find_free_chrdev_slot (s : kobj_state) : option nat :=
  first_index (fun r => is_none (cd_name r)) (kb_chrdev_records s).
Definition kb_find_free_proc_slot (s : kobj_state) : option nat :=
  first_index (fun r => is_none (pr_path r)) (kb_proc_records s).
Definition kb_find_free_class_slot (s : kobj_state) : option nat :=
  first_index (fun r => is_none (cl_name r)) (kb_class_records s).
Definition kb_find_free_cdev_slot (s : kobj_state) : option nat :=
  first_index (fun r => cv_cdev r =? 0) (kb_cdev_records s).

(** ** Look-up by device number *)

Definition chrdev_covers (major minor : Z) (r : kb_chrdev_record) : bool :=
  negb (is_none (cd_name r)) && (cd_major r =? major) && (cd_baseminor r <=? minor) &&
  (minor <? u32 (cd_baseminor r + cd_count r)).

Definition kb_linux_kernel_chrdev_name_for_dev (s : kobj_state) (dev : Z) : list Z :=
  let major := kb_linux_kernel_decode_major dev in
  let minor := kb_linux_kernel_decode_minor dev in
  match list_find (fun r => chrdev_covers major minor r = true) (kb_chrdev_records s) with
  | Some (_, r) => default [] (cd_name r)
  | None => cstr "(unmatched)"
  end.

Definition cdev_covers (major minor : Z) (r : kb_cdev_record) : bool :=
  let cdev_minor := kb_linux_kernel_decode_minor (cv_dev r) in
  cv_active r && negb (cv_cdev r =? 0) && (kb_linux_kernel_decode_major (cv_dev r) =? major) &&
  (cdev_minor <=? minor) && (minor <? u32 (cdev_minor + cv_count r)).

Definition kb_linux_kernel_find_active_cdev (s : kobj_state) (dev : Z) : option kb_cdev_record :=
  let major := kb_linux_kernel_decode_major dev in
  let minor := kb_linux_kernel_decode_minor dev in
  snd <$> list_find (fun r => cdev_covers major minor r = true) (kb_cdev_records s).

(** ** Paths of /proc *)

Definition kb_join_proc_path (m : mem) (parent : list Z) (name : Z) (malloc : bool) : option (list Z) :=
  let name := if name =? 0 then cstr "(null)" else mem_string m name in
  if negb malloc then None
  else if bool_decide (parent = cstr "/proc") then Some (cstr "/proc/" ++ name)
  else Some (parent ++ cstr "/" ++ name).

(** [strncmp(q, path, path_len) == 0 && q[path_len] == '/'], or the path itself. *)
Definition in_proc_tree (path q : list Z) : bool :=
  bool_decide (q = path) ||
  (bool_decide (take (length path) q = path) && bool_decide (q !! length path = Some 47)).

Definition kb_proc_deactivate_tree (path : list Z) (s : kobj_state) : kobj_state :=
  s <| kb_proc_records ::= map (fun r =>
         match pr_path r with
         | Some q => if in_proc_tree path q then r <| pr_active := false |> else r
         | None => r
         end) |>.

Section registry.
Context (loaded : loaded_modules) (active_module : Z).
Context (proc_entry class_entry : nat -> Z).

Definition owner_of (address : Z) : Z :=
  match kb_module_find_owner_for_address loaded address with Some (p, _) => p | None => 0 end.

Fixpoint first_owner (candidates : list Z) (otherwise : Z) : Z :=
  match candidates with
  | [] => otherwise
  | c :: l => if owner_of c =? 0 then first_owner l otherwise else owner_of c
  end.

Definition kb_linux_kernel_infer_file_ops_owner (fops : Z) (view : kb_file_ops_view) : Z :=
  if negb (active_module =? 0) then active_module
  else first_owner [fo_open view; fo_read_iter view; fo_write_iter view; fo_unlocked_ioctl view;
                    fo_poll view; fo_release view; fo_read view; fo_write view; fo_mmap view;
                    fo_llseek view] (owner_of fops).

(** The index of the record a pointer handed out earlier points to. *)
Definition record_index {A} (entry : nat -> Z) (l : list A) (p : Z) : option nat :=
  fst <$> list_find (fun i => entry i = p) (seq 0 (length l)).

(** ** Character devices *)

(** The fields both ways of registering set. *)
Definition fill_chrdev (major baseminor count : Z) (text : list Z) (r : kb_chrdev_record) : kb_chrdev_record :=
  r <| cd_active := true |> <| cd_owner_module := active_module |> <| cd_major := major |>
    <| cd_baseminor := baseminor |> <| cd_count := count |> <| cd_name := Some text |>.

Definition fill_chrdev_fops (m : mem) (fops : Z) (r : kb_chrdev_record) : kb_chrdev_record :=
  let r := r <| cd_fops := fops |> in
  if fops =? 0 then r
  else r <| cd_fops_view := kb_decode_file_ops m fops |> <| cd_has_fops_view := true |>.

Definition kb_linux_kernel_register_chrdev (major baseminor count name fops : Z) (malloc : bool)
    (s : kobj_state) : kobj_state * Z :=
  let s := kb_register_kernel_object_summary s in
  let assigned_major := if major =? 0 then kb_next_dynamic_major s else major in
  let s := if major =? 0 then s <| kb_next_dynamic_major ::= fun n => u32 (n + 1) |> else s in
  match kb_find_free_chrdev_slot s with
  | None => (s, -12)
  | Some slot =>
      match kb_copy_string (ko_mem s) (or_literal name (cstr "(unnamed)")) malloc with
      | None => (s <| kb_chrdev_records ::= alter (fun _ => zero_chrdev) slot |>, -12)
      | Some text =>
          (s <| kb_chrdev_records ::= alter (fun r =>
                  fill_chrdev_fops (ko_mem s) fops
                    (fill_chrdev assigned_major baseminor count text r)) slot |>,
           if major =? 0 then s32 assigned_major else 0)
      end
  end.

(** [dev] tells whether the out-pointer is set; its value is the third result. *)
Definition kb_linux_kernel_alloc_chrdev_region (dev : bool) (baseminor count name : Z) (malloc : bool)
    (s : kobj_state) : kobj_state * Z * option Z :=
  if negb dev then (s, -22, None)
  else
    let s := kb_register_kernel_object_summary s in
    let assigned_major := kb_next_dynamic_major s in
    let s := s <| kb_next_dynamic_major ::= fun n => u32 (n + 1) |> in
    match kb_find_free_chrdev_slot s with
    | None => (s, -12, None)
    | Some slot =>
        let out := kb_linux_kernel_encode_dev assigned_major baseminor in
        match kb_copy_string (ko_mem s) (or_literal name (cstr "(unnamed)")) malloc with
        | None => (s <| kb_chrdev_records ::= alter (fun _ => zero_chrdev) slot |>, -12, Some out)
        | Some text =>
            (s <| kb_chrdev_records ::= alter (fill_chrdev assigned_major baseminor count text) slot |>,
             0, Some out)
        end
    end.

Definition chrdev_matches (major baseminor : Z) (r : kb_chrdev_record) : bool :=
  negb (is_none (cd_name r)) && cd_active r && (cd_major r =? major) && (cd_baseminor r =? baseminor).

Definition kb_linux_kernel_unregister_chrdev (major baseminor : Z) (s : kobj_state) : kobj_state :=
  match first_index (chrdev_matches major baseminor) (kb_chrdev_records s) with
  | Some i => s <| kb_chrdev_records ::= alter (fun r => r <| cd_active := false |>) i |>
  | None => s
  end.

Definition kb_linux_kernel_unregister_chrdev_region (dev : Z) (s : kobj_state) : kobj_state :=
  let major := kb_linux_kernel_decode_major dev in
  let minor := kb_linux_kernel_decode_minor dev in
  match first_index (chrdev_matches major minor) (kb_chrdev_records s) with
  | Some i => s <| kb_chrdev_records ::= alter (fun r => r <| cd_active := false |>) i |>
  | None => s
  end.

(** ** /proc entries *)

Definition kb_proc_path_for_parent (parent : Z) (s : kobj_state) : list Z :=
  if parent =? 0 then cstr "/proc"
  else match record_index proc_entry (kb_proc_records s) parent with
       | Some i => match (kb_proc_records s !! i) ≫= pr_path with
                   | Some path => path
                   | None => cstr "/proc/?"
                   end
       | None => cstr "/proc/?"
       end.

Definition kb_linux_kernel_proc_create_data (name mode parent ops data : Z) (malloc1 malloc2 : bool)
    (s : kobj_state) : kobj_state * Z :=
  let s := kb_register_kernel_object_summary s in
  match kb_find_free_proc_slot s with
  | None => (s, 0)
  | Some slot =>
      let parent_path := kb_proc_path_for_parent parent s in
      match kb_copy_string (ko_mem s) (or_literal name (cstr "(null)")) malloc1,
            kb_join_proc_path (ko_mem s) parent_path name malloc2 with
      | Some text, Some path =>
          (s <| kb_proc_records ::= alter (fun r =>
                  let r := r <| pr_name := Some text |> <| pr_path := Some path |> <| pr_active := true |>
                             <| pr_owner_module := active_module |> <| pr_mode := mode |>
                             <| pr_parent := parent |> <| pr_ops := ops |> <| pr_data := data |> in
                  if ops =? 0 then r
                  else r <| pr_ops_view := kb_decode_proc_ops (ko_mem s) ops |>
                         <| pr_has_ops_view := true |>) slot |>, proc_entry slot)
      | _, _ => (s <| kb_proc_records ::= <[ slot := zero_proc ]> |>, 0)
      end
  end.

Definition kb_linux_kernel_proc_mkdir_mode (name mode parent : Z) (malloc1 malloc2 : bool)
    (s : kobj_state) : kobj_state * Z :=
  kb_linux_kernel_proc_create_data name mode parent 0 0 malloc1 malloc2 s.

Definition kb_linux_kernel_proc_remove (entry : Z) (s : kobj_state) : kobj_state :=
  if entry =? 0 then s
  else match record_index proc_entry (kb_proc_records s) entry with
       | Some i => match (kb_proc_records s !! i) ≫= pr_path with
                   | Some path => kb_proc_deactivate_tree path s
                   | None => s
                   end
       | None => s
       end.

Definition kb_linux_kernel_remove_proc_entry (name parent : Z) (malloc : bool) (s : kobj_state) : kobj_state :=
  match kb_join_proc_path (ko_mem s) (kb_proc_path_for_parent parent s) name malloc with
  | None => s
  | Some path =>
      if existsb (fun r => bool_decide (pr_path r = Some path)) (kb_proc_records s)
      then kb_proc_deactivate_tree path s else s
  end.

(** ** Classes *)

Definition kb_linux_kernel_class_create (name : Z) (malloc : bool) (s : kobj_state) : kobj_state * Z :=
  let s := kb_register_kernel_object_summary s in
  match kb_find_free_class_slot s with
  | None => (s, 0)
  | Some slot =>
      match kb_copy_string (ko_mem s) (or_literal name (cstr "(unnamed)")) malloc with
      | None => (s <| kb_class_records ::= <[ slot := mk_class false None ]> |>, 0)
      | Some text => (s <| kb_class_records ::= <[ slot := mk_class true (Some text) ]> |>, class_entry slot)
      end
  end.

Definition kb_linux_kernel_class_destroy (class_ptr : Z) (s : kobj_state) : kobj_state :=
  match record_index class_entry (kb_class_records s) class_ptr with
  | Some i => s <| kb_class_records ::= alter (fun r =>
                     if is_none (cl_name r) then r else r <| cl_active := false |>) i |>
  | None => s
  end.

(** ** cdevs *)

Definition kb_linux_kernel_cdev_capture_ops (slot : nat) (cdev : Z) (s : kobj_state) : kobj_state :=
  let r := default zero_cdev (kb_cdev_records s !! slot) in
  if (cdev =? 0) || negb (cv_fops r =? 0) then s
  else
    let fops := mload64 (ko_mem s) (cdev + KB_LINUX_CDEV_OPS_OFFSET) in
    if fops =? 0 then s
    else
      let view := kb_decode_file_ops (ko_mem s) fops in
      s <| kb_cdev_records ::= alter (fun r =>
             let r := r <| cv_fops := fops |> <| cv_fops_view := view |> <| cv_has_fops_view := true |> in
             if cv_owner_module r =? 0
             then r <| cv_owner_module := kb_linux_kernel_infer_file_ops_owner fops view |> else r) slot |>.

(** The record of [cdev], or a free one. *)
Definition cdev_slot (cdev : Z) (s : kobj_state) : option nat :=
  match first_index (fun r => cv_cdev r =? cdev) (kb_cdev_records s) with
  | Some i => Some i
  | None => kb_find_free_cdev_slot s
  end.

Definition init_list_head (list_ : Z) (m : mem) : mem := mstore64 (mstore64 m list_ list_) (list_ + 8) list_.

Definition kb_linux_kernel_cdev_init (cdev fops : Z) (s : kobj_state) : kobj_state :=
  if cdev =? 0 then s
  else
    let s := kb_register_kernel_object_summary s in
    match cdev_slot cdev s with
    | None => s
    | Some slot =>
        let s := s <| kb_cdev_records ::= alter (fun r =>
                        r <| cv_cdev := cdev |> <| cv_owner_module := active_module |>) slot |>
                   <| ko_mem ::= init_list_head (cdev + KB_LINUX_CDEV_LIST_OFFSET) |> in
        if fops =? 0 then s
        else
          let s := s <| ko_mem ::= fun m => mstore64 m (cdev + KB_LINUX_CDEV_OPS_OFFSET) fops |> in
          let view := kb_decode_file_ops (ko_mem s) fops in
          s <| kb_cdev_records ::= alter (fun r =>
                 let r := r <| cv_fops := fops |> <| cv_fops_view := view |> <| cv_has_fops_view := true |> in
                 if cv_owner_module r =? 0
                 then r <| cv_owner_module := kb_linux_kernel_infer_file_ops_owner fops view |> else r) slot |>
    end.

Definition kb_linux_kernel_cdev_alloc (kzalloc : Z) (s : kobj_state) : kobj_state * Z :=
  if kzalloc =? 0 then (s, 0)
  else
    let s := s <| ko_mem ::= fun m => init_list_head (kzalloc + KB_LINUX_CDEV_LIST_OFFSET)
                                        (mzero m kzalloc KB_LINUX_CDEV_BYTES) |> in
    (kb_linux_kernel_cdev_init kzalloc 0 s, kzalloc).

Definition kb_linux_kernel_cdev_add (cdev dev count : Z) (s : kobj_state) : kobj_state * Z :=
  if cdev =? 0 then (s, -22)
  else match cdev_slot cdev s with
       | None => (s, -12)
       | Some slot =>
           let s := s <| kb_cdev_records ::= alter (fun r =>
                           r <| cv_cdev := cdev |> <| cv_active := true |>) slot |> in
           let s := kb_linux_kernel_cdev_capture_ops slot cdev s in
           (s <| kb_cdev_records ::= alter (fun r =>
                   let r := if cv_owner_module r =? 0
                            then r <| cv_owner_module :=
                                       kb_linux_kernel_infer_file_ops_owner (cv_fops r) (cv_fops_view r) |>
                            else r in
                   r <| cv_dev := dev |> <| cv_count := count |>) slot |>, 0)
       end.

Definition kb_linux_kernel_cdev_del (cdev : Z) (s : kobj_state) : kobj_state :=
  match first_index (fun r => cv_cdev r =? cdev) (kb_cdev_records s) with
  | Some i => s <| kb_cdev_records ::= alter (fun r => r <| cv_active := false |>) i |>
  | None => s
  end.
End registry.
