(* ===== verification/KernelObjectTheorems.v ===== *)
(** * Theorems about the kernel-object registry (KernelObjects.v)

    Device numbers round-trip up to the 12 bits a major number has; character
    device slots are handed out exactly 256 times, whatever is unregistered;
    a cdev is found by its device numbers exactly while it is added; removing a
    /proc entry deactivates everything created below it and nothing else. *)

From S2P Require Import Prelude Memory ModuleLayout KernelObjects.

(** ** Device numbers *)

Lemma lor_low_field a b n : 0 <= n -> 0 <= a -> 0 <= b -> Z.lor (a * 2 ^ n) (b mod 2 ^ n) = a * 2 ^ n + b mod 2 ^ n.
Proof.
  intros Hn Ha Hb. pose proof (Z.mod_pos_bound b (2 ^ n) ltac:(lia)).
  rewrite Z.lor_comm, <- Z.shiftl_mul_pow2, lor_shiftl_add by lia. rewrite Z.shiftl_mul_pow2; lia.
Qed.

Lemma land_20 x : Z.land x 0xfffff = x mod 2 ^ 20.
Proof. change 0xfffff with (Z.ones 20). apply Z.land_ones. lia. Qed.

Lemma encode_dev_sum major minor :
  is_u32 major -> is_u32 minor ->
  kb_linux_kernel_encode_dev major minor = major mod 4096 * 2 ^ 20 + minor mod 2 ^ 20.
Proof.
  intros Hmaj Hmin. unfold kb_linux_kernel_encode_dev, is_u32 in *.
  rewrite land_20, Z.shiftl_mul_pow2 by lia.
  assert (u32 (major * 2 ^ 20) = major mod 4096 * 2 ^ 20) as -> by ilia.
  rewrite lor_low_field; [|lia| |lia].
  - ilia.
  - apply Z.mod_pos_bound. lia.
Qed.

(** A device number has 12 bits of major and 20 bits of minor: decoding an
    encoded pair gives back the minor modulo 2^20 and the major modulo 4096, so
    the pair itself when it fits and a truncated one (never an error) when it does
    not; and every 32-bit device number is the encoding of what it decodes to. *)
Theorem dev_number_roundtrip major minor dev :
  is_u32 major -> is_u32 minor -> is_u32 dev ->
  kb_linux_kernel_decode_major (kb_linux_kernel_encode_dev major minor) = major mod 4096 /\
  kb_linux_kernel_decode_minor (kb_linux_kernel_encode_dev major minor) = minor mod 2 ^ 20 /\
  kb_linux_kernel_encode_dev (kb_linux_kernel_decode_major dev) (kb_linux_kernel_decode_minor dev) = dev.
Proof.
  intros Hmaj Hmin Hdev.
  assert (kb_linux_kernel_decode_major dev = dev / 2 ^ 20 /\ kb_linux_kernel_decode_minor dev = dev mod 2 ^ 20)
    as [-> ->].
  { unfold kb_linux_kernel_decode_major, kb_linux_kernel_decode_minor.
    rewrite Z.shiftr_div_pow2, land_20 by lia. split; ilia. }
  assert (is_u32 (dev / 2 ^ 20) /\ is_u32 (dev mod 2 ^ 20)) as [H1 H2] by (split; ilia).
  rewrite !encode_dev_sum by done.
  unfold kb_linux_kernel_decode_major, kb_linux_kernel_decode_minor.
  rewrite Z.shiftr_div_pow2 by lia.
  rewrite land_20. split_and!; ilia.
Qed.

Lemma dev_number_roundtrip_witness :
  kb_linux_kernel_decode_major (kb_linux_kernel_encode_dev 4336 5) = 4336 mod 4096 /\
  kb_linux_kernel_decode_minor (kb_linux_kernel_encode_dev 4336 5) = 5 mod 2 ^ 20 /\
  kb_linux_kernel_encode_dev (kb_linux_kernel_decode_major 0xf0000a) (kb_linux_kernel_decode_minor 0xf0000a)
    = 0xf0000a.
Proof. apply (dev_number_roundtrip 4336 5 0xf0000a); unfold is_u32; lia. Defined.

(** ** Slots of the character-device table *)

Definition chrdev_used (s : kobj_state) : nat :=
  length (List.filter (fun r => negb (is_none (cd_name r))) (kb_chrdev_records s)).

Inductive chrdev_op :=
  | OpRegisterChrdev (major baseminor count name fops : Z) (malloc : bool)
  | OpAllocRegion (baseminor count name : Z) (malloc : bool)
  | OpUnregisterChrdev (major baseminor : Z)
  | OpUnregisterRegion (dev : Z).

(** The new state and whether a registration succeeded. *)
Definition chrdev_step (active_module : Z) (op : chrdev_op) (s : kobj_state) : kobj_state * bool :=
  match op with
  | OpRegisterChrdev major base count name fops malloc =>
      let '(s, r) := kb_linux_kernel_register_chrdev active_module major base count name fops malloc s in
      (s, negb (r =? -12))
  | OpAllocRegion base count name malloc =>
      let '(s, r, _) := kb_linux_kernel_alloc_chrdev_region active_module true base count name malloc s in
      (s, r =? 0)
  | OpUnregisterChrdev major base => (kb_linux_kernel_unregister_chrdev major base s, false)
  | OpUnregisterRegion dev => (kb_linux_kernel_unregister_chrdev_region dev s, false)
  end.

Fixpoint chrdev_run (active_module : Z) (ops : list chrdev_op) (s : kobj_state) : kobj_state * nat :=
  match ops with
  | [] => (s, 0%nat)
  | op :: ops =>
      let '(s, ok) := chrdev_step active_module op s in
      let '(s, n) := chrdev_run active_module ops s in
      (s, if (ok : bool) then S n else n)
  end.

Lemma free_slot_spec s :
  match kb_find_free_chrdev_slot s with
  | Some i => exists r, kb_chrdev_records s !! i = Some r /\ cd_name r = None
  | None => chrdev_used s = length (kb_chrdev_records s)
  end.
Proof.
  unfold kb_find_free_chrdev_slot. destruct (first_index _ _) as [i|] eqn:Hi.
  - apply first_index_Some in Hi as (r & Hr & Hn & _). exists r. split; [done|]. by destruct (cd_name r).
  - apply first_index_None in Hi. apply filter_length_all. eapply Forall_impl; [exact Hi|].
    cbn. intros r ->. done.
Qed.

(** Filling the free slot, and clearing it again. *)
Lemma used_fill f s s' i r :
  kb_chrdev_records s !! i = Some r -> cd_name r = None -> is_none (cd_name (f r)) = false ->
  kb_chrdev_records s' = alter f i (kb_chrdev_records s) -> chrdev_used s' = S (chrdev_used s).
Proof.
  intros Hr Hn Hf Hs. unfold chrdev_used. rewrite Hs.
  pose proof (filter_length_alter (fun r => negb (is_none (cd_name r))) f _ i r Hr) as H.
  cbn in H. rewrite Hn, Hf in H. cbn in H. lia.
Qed.

Lemma used_keep f s s' i :
  (forall r, kb_chrdev_records s !! i = Some r -> is_none (cd_name (f r)) = is_none (cd_name r)) ->
  kb_chrdev_records s' = alter f i (kb_chrdev_records s) -> chrdev_used s' = chrdev_used s.
Proof.
  intros Hf Hs. unfold chrdev_used. rewrite Hs.
  destruct (kb_chrdev_records s !! i) as [r|] eqn:Hr.
  - pose proof (filter_length_alter (fun r => negb (is_none (cd_name r))) f _ i r Hr) as H.
    cbn in H. rewrite Hf in H by done. destruct (negb _); lia.
  - by rewrite list_alter_none.
Qed.

(** [t] is [s] but for the counter of dynamic majors. *)
Definition same_chrdevs (t s : kobj_state) : Prop := kb_chrdev_records t = kb_chrdev_records s.

(** The three ways a registration ends. *)
Lemma slot_filled t s f i :
  same_chrdevs t s -> kb_find_free_chrdev_slot t = Some i -> (forall r, is_none (cd_name (f r)) = false) ->
  let t' := t <| kb_chrdev_records ::= alter f i |> in
  length (kb_chrdev_records t') = length (kb_chrdev_records s) /\ chrdev_used t' = S (chrdev_used s).
Proof.
  intros Ht Hi Hf. cbn zeta. pose proof (free_slot_spec t) as Hslot. rewrite Hi in Hslot.
  destruct Hslot as (r & Hr & Hn). rewrite Ht in Hr. split.
  - cbn. by rewrite length_alter, Ht.
  - apply (used_fill f s _ i r Hr Hn (Hf r)). cbn. by rewrite Ht.
Qed.

Lemma slot_cleared t s i :
  same_chrdevs t s -> kb_find_free_chrdev_slot t = Some i ->
  let t' := t <| kb_chrdev_records ::= alter (fun _ => zero_chrdev) i |> in
  length (kb_chrdev_records t') = length (kb_chrdev_records s) /\ chrdev_used t' = chrdev_used s.
Proof.
  intros Ht Hi. cbn zeta. pose proof (free_slot_spec t) as Hslot. rewrite Hi in Hslot.
  destruct Hslot as (r & Hr & Hn). rewrite Ht in Hr. split.
  - cbn. by rewrite length_alter, Ht.
  - apply (used_keep (fun _ => zero_chrdev) s _ i); [|cbn; by rewrite Ht].
    intros r' Hr'. rewrite Hr in Hr'. injection Hr' as <-. by rewrite Hn.
Qed.

Lemma slot_deactivated s i :
  let t' := s <| kb_chrdev_records ::= alter (fun r => r <| cd_active := false |>) i |> in
  length (kb_chrdev_records t') = length (kb_chrdev_records s) /\ chrdev_used t' = chrdev_used s.
Proof.
  cbn zeta. split; [cbn; apply length_alter|].
  by apply (used_keep (fun r => r <| cd_active := false |>) s _ i).
Qed.

Lemma slot_none t s : same_chrdevs t s ->
  length (kb_chrdev_records t) = length (kb_chrdev_records s) /\ chrdev_used t = chrdev_used s.
Proof. intros Ht. unfold chrdev_used. by rewrite Ht. Qed.

(** The dynamic major a registration leaves, and its result. *)
Definition counts (s t' : kobj_state) (ok : bool) : Prop :=
  length (kb_chrdev_records t') = length (kb_chrdev_records s) /\
  chrdev_used t' = if ok then S (chrdev_used s) else chrdev_used s.

Lemma register_counts act major base count name fops malloc s :
  0 <= kb_next_dynamic_major s < 2 ^ 31 ->
  let '(t', r) := kb_linux_kernel_register_chrdev act major base count name fops malloc s in
  counts s t' (negb (r =? -12)) /\
  kb_next_dynamic_major s <= kb_next_dynamic_major t' <= kb_next_dynamic_major s + 1 /\
  (malloc = true -> r = -12 -> chrdev_used s = length (kb_chrdev_records s)).
Proof.
  intros Hm. unfold kb_linux_kernel_register_chrdev. set (t := if major =? 0 then _ else _).
  set (maj := if major =? 0 then _ else major).
  assert (same_chrdevs t s) as Ht by (unfold t; by destruct (major =? 0)).
  assert (kb_next_dynamic_major s <= kb_next_dynamic_major t <= kb_next_dynamic_major s + 1) as Htm.
  { unfold t. destruct (major =? 0); cbn; [rewrite u32_small by (unfold is_u32; lia)|]; lia. }
  clearbody t. destruct (kb_find_free_chrdev_slot t) as [i|] eqn:Hi.
  - unfold kb_copy_string. destruct malloc.
    + split; [|split; [exact Htm|]].
      * assert (negb ((if major =? 0 then s32 maj else 0) =? -12) = true) as ->.
        { unfold maj. destruct (major =? 0); [|done]. apply negb_true_iff, Z.eqb_neq. cbn. ilia. }
        apply (slot_filled t s _ i Ht Hi). intros r. unfold fill_chrdev_fops. by destruct (fops =? 0).
      * intros _. unfold maj. destruct (major =? 0); [|done]. cbn. intros Hneg. exfalso. ilia.
    + split; [|split; [exact Htm|done]]. by apply slot_cleared.
  - split; [by apply slot_none|]. split; [exact Htm|]. intros _ _.
    pose proof (free_slot_spec t) as Hfull. rewrite Hi in Hfull.
    destruct (slot_none t s Ht) as [Hl Hu]. congruence.
Qed.

Lemma alloc_region_counts act base count name malloc s :
  0 <= kb_next_dynamic_major s < 2 ^ 31 ->
  let '(t', r, _) := kb_linux_kernel_alloc_chrdev_region act true base count name malloc s in
  counts s t' (r =? 0) /\ kb_next_dynamic_major t' = kb_next_dynamic_major s + 1 /\
  (malloc = true -> r <> 0 -> chrdev_used s = length (kb_chrdev_records s)).
Proof.
  intros Hm. unfold kb_linux_kernel_alloc_chrdev_region. cbn [negb].
  set (t := kb_register_kernel_object_summary s <| kb_next_dynamic_major ::= _ |>).
  assert (same_chrdevs t s) as Ht by done.
  assert (kb_next_dynamic_major t = kb_next_dynamic_major s + 1) as Htm.
  { apply u32_small. unfold is_u32. cbn. lia. }
  clearbody t. destruct (kb_find_free_chrdev_slot t) as [i|] eqn:Hi.
  - unfold kb_copy_string. destruct malloc.
    + split; [by apply slot_filled|]. split; [exact Htm|done].
    + split; [by apply slot_cleared|]. split; [exact Htm|done].
  - split; [by apply slot_none|]. split; [exact Htm|]. intros _ _.
    pose proof (free_slot_spec t) as Hfull. rewrite Hi in Hfull.
    destruct (slot_none t s Ht) as [Hl Hu]. congruence.
Qed.

Lemma unregister_counts p s :
  let t' := match first_index p (kb_chrdev_records s) with
            | Some i => s <| kb_chrdev_records ::= alter (fun r => r <| cd_active := false |>) i |>
            | None => s
            end in
  counts s t' false /\ kb_next_dynamic_major t' = kb_next_dynamic_major s.
Proof.
  cbn zeta. destruct (first_index _ _) as [i|]; [|done]. split; [apply slot_deactivated|done].
Qed.

Lemma chrdev_step_counts act op s :
  0 <= kb_next_dynamic_major s < 2 ^ 31 ->
  let '(t, ok) := chrdev_step act op s in
  counts s t ok /\ kb_next_dynamic_major s <= kb_next_dynamic_major t <= kb_next_dynamic_major s + 1.
Proof.
  intros Hm. destruct op as [major base count name fops malloc|base count name malloc|major base|dev];
    cbn [chrdev_step].
  - pose proof (register_counts act major base count name fops malloc s Hm) as H.
    destruct (kb_linux_kernel_register_chrdev _ _ _ _ _ _ _ _). split; apply H.
  - pose proof (alloc_region_counts act base count name malloc s Hm) as H.
    destruct (kb_linux_kernel_alloc_chrdev_region _ _ _ _ _ _ _) as [[? ?] ?]. split; [apply H|lia].
  - destruct (unregister_counts (chrdev_matches major base) s) as [H1 H2].
    unfold kb_linux_kernel_unregister_chrdev. split; [exact H1|lia].
  - match goal with |- context [kb_linux_kernel_unregister_chrdev_region ?d s] =>
      destruct (unregister_counts (chrdev_matches (kb_linux_kernel_decode_major d)
        (kb_linux_kernel_decode_minor d)) s) as [H1 H2] end.
    unfold kb_linux_kernel_unregister_chrdev_region. split; [exact H1|lia].
Qed.

Lemma chrdev_run_counts act ops s :
  0 <= kb_next_dynamic_major s -> kb_next_dynamic_major s + Z.of_nat (length ops) < 2 ^ 31 ->
  let '(t, n) := chrdev_run act ops s in
  length (kb_chrdev_records t) = length (kb_chrdev_records s) /\
  chrdev_used t = (chrdev_used s + n)%nat /\ 0 <= kb_next_dynamic_major t < 2 ^ 31.
Proof.
  revert s. induction ops as [|op ops IH]; intros s H0 Hm; cbn [chrdev_run length] in *.
  - split_and!; [done|lia|lia|lia].
  - pose proof (chrdev_step_counts act op s ltac:(lia)) as Hstep.
    destruct (chrdev_step act op s) as [s1 ok]. destruct Hstep as [[Hl Hu] Hmaj].
    specialize (IH s1 ltac:(lia) ltac:(lia)). destruct (chrdev_run act ops s1) as [t n].
    destruct IH as (Hl1 & Hu1 & Hm1). split_and!; [congruence| |lia|lia]. destruct ok; lia.
Qed.

(** The 256 slots of the character-device table are never reclaimed:
    unregistering only clears a flag, so after any sequence of registrations and
    unregistrations the number of used slots is the number of registrations that
    ever succeeded; a further registration succeeds when that number is below
    256, and once it is 256 every registration fails with -ENOMEM although every
    device may have been unregistered. *)
Theorem chrdev_slots_are_not_reclaimed act ops m major base count name fops :
  Z.of_nat (length ops) < 2 ^ 30 ->
  let '(s, successes) := chrdev_run act ops (kobj_state_init m) in
  let '(_, r) := kb_linux_kernel_register_chrdev act major base count name fops true s in
  (successes <= 256)%nat /\ (r = -12 <-> successes = 256%nat).
Proof.
  intros Hops. pose proof (chrdev_run_counts act ops (kobj_state_init m)) as H.
  destruct (chrdev_run act ops (kobj_state_init m)) as [s n].
  destruct H as (Hl & Hu & Hm); [cbn; lia|cbn; lia|].
  replace (length (kb_chrdev_records (kobj_state_init m))) with 256%nat in Hl by (vm_compute; done).
  replace (chrdev_used (kobj_state_init m)) with 0%nat in Hu by (vm_compute; done).
  pose proof (register_counts act major base count name fops true s Hm) as Hr.
  destruct (kb_linux_kernel_register_chrdev act major base count name fops true s) as [t r].
  destruct Hr as ([Hl2 Hu2] & _ & Hfull).
  pose proof (filter_length_le (fun r => negb (is_none (cd_name r))) (kb_chrdev_records s)) as Hle.
  pose proof (filter_length_le (fun r => negb (is_none (cd_name r))) (kb_chrdev_records t)) as Hle2.
  fold (chrdev_used s) in Hle. fold (chrdev_used t) in Hle2.
  split; [lia|]. split.
  - intros ->. specialize (Hfull eq_refl eq_refl). lia.
  - intros ->. destruct (Z.eqb_spec r (-12)); [done|]. cbn in Hu2. lia.
Qed.

Lemma chrdev_slots_are_not_reclaimed_witness :
  let ops := concat (replicate 256 [OpRegisterChrdev 10 0 1 0 0 true; OpUnregisterChrdev 10 0]) in
  (chrdev_run 7 ops (kobj_state_init ∅)).2 = 256%nat /\
  existsb cd_active (kb_chrdev_records (chrdev_run 7 ops (kobj_state_init ∅)).1) = false /\
  let '(s, successes) := chrdev_run 7 ops (kobj_state_init ∅) in
  let '(_, r) := kb_linux_kernel_register_chrdev 7 10 0 1 0 0 true s in
  (successes <= 256)%nat /\ (r = -12 <-> successes = 256%nat).
Proof.
  split; [vm_compute; reflexivity|]. split; [vm_compute; reflexivity|].
  apply (chrdev_slots_are_not_reclaimed 7
    (concat (replicate 256 [OpRegisterChrdev 10 0 1 0 0 true; OpUnregisterChrdev 10 0])) ∅ 10 0 1 0 0).
  vm_compute. reflexivity.
Defined.

(** ** cdevs *)

Definition cdevs_distinct (l : list kb_cdev_record) : Prop :=
  forall i j r t, l !! i = Some r -> l !! j = Some t -> cv_cdev r = cv_cdev t -> cv_cdev r <> 0 -> i = j.

Section cdevs.
Context (loaded : loaded_modules) (active_module : Z).

(** The fields look-up depends on. *)
Definition cdev_key (r : kb_cdev_record) : Z * bool * Z * Z :=
  (cv_cdev r, cv_active r, cv_dev r, cv_count r).

Lemma capture_alter slot cdev s :
  exists h, kb_cdev_records (kb_linux_kernel_cdev_capture_ops loaded active_module slot cdev s)
              = alter h slot (kb_cdev_records s) /\ forall r, cdev_key (h r) = cdev_key r.
Proof.
  unfold kb_linux_kernel_cdev_capture_ops.
  destruct (_ || _); [|destruct (mload64 _ _ =? 0)].
  1,2: exists (fun r => r); split; [by rewrite list_alter_id|done].
  eexists. split; [reflexivity|]. intros r. cbn. by case_match.
Qed.

Lemma cdev_add_alter cdev dev count s s' :
  kb_linux_kernel_cdev_add loaded active_module cdev dev count s = (s', 0) ->
  cdev <> 0 /\ exists slot g, cdev_slot cdev s = Some slot /\
    kb_cdev_records s' = alter g slot (kb_cdev_records s) /\
    forall r, cdev_key (g r) = (cdev, true, dev, count).
Proof.
  unfold kb_linux_kernel_cdev_add. destruct (Z.eqb_spec cdev 0) as [|Hne]; [done|].
  destruct (cdev_slot cdev s) as [slot|]; [|done]. intros [= <-]. split; [done|].
  match goal with |- context [kb_linux_kernel_cdev_capture_ops _ _ slot cdev ?t] =>
    destruct (capture_alter slot cdev t) as (h & Hh & Hkey) end.
  eexists slot, _. split; [done|]. split.
  - cbn. rewrite Hh. cbn. rewrite !list_alter_alter_eq. reflexivity.
  - intros r. cbn. match goal with |- context [h ?x] => pose proof (Hkey x) as Hx end.
    unfold cdev_key in Hx |- *. cbn in Hx. injection Hx as H1 H2 _ _.
    case_match; cbn; by rewrite H1, H2.
Qed.

Lemma cdev_slot_spec cdev s slot :
  cdev_slot cdev s = Some slot ->
  exists r, kb_cdev_records s !! slot = Some r /\
    (cv_cdev r = cdev \/ cv_cdev r = 0 /\ Forall (fun r => cv_cdev r <> cdev) (kb_cdev_records s)).
Proof.
  unfold cdev_slot, kb_find_free_cdev_slot.
  destruct (first_index (fun r => cv_cdev r =? cdev) _) as [i|] eqn:Hi.
  - intros [= <-]. apply first_index_Some in Hi as (r & Hr & Heq & _). boolify. eauto.
  - apply first_index_None in Hi. intros Hfree. apply first_index_Some in Hfree as (r & Hr & Heq & _).
    boolify. exists r. split; [done|]. right. split; [done|]. eapply Forall_impl; [exact Hi|].
    cbn. intros x Hx. by boolify.
Qed.

(** Giving a slot found for [cdev] to it keeps the pointers distinct. *)
Lemma distinct_alter cdev slot g s :
  cdev_slot cdev s = Some slot -> (forall r, cv_cdev (g r) = cdev) ->
  cdevs_distinct (kb_cdev_records s) -> cdevs_distinct (alter g slot (kb_cdev_records s)).
Proof.
  intros Hslot Hg Hd i j x y Hi Hj Heq Hne.
  destruct (cdev_slot_spec cdev s slot Hslot) as (r & Hr & Hcase).
  assert (forall k z, kb_cdev_records s !! k = Some z -> cv_cdev z = cdev -> cdev <> 0 -> k = slot) as Huniq.
  { intros k z Hk Hz Hnz. destruct Hcase as [Hc|[_ Hnone]].
    - apply (Hd k slot z r); congruence.
    - by destruct (Forall_lookup_1 _ _ _ _ Hnone Hk). }
  apply list_lookup_alter_Some in Hi, Hj.
  destruct Hi as [(-> & x0 & Hx & ->)|[Hsi Hi]], Hj as [(<- & y0 & Hy & ->)|[Hsj Hj]]; [done| | |].
  - rewrite Hg in Heq, Hne. symmetry. by apply (Huniq j y).
  - rewrite Hg in Heq. apply (Huniq i x); congruence.
  - by apply (Hd i j x y).
Qed.

(** Operations on cdevs, as a module may order them. *)
Inductive cdev_op :=
  | OpCdevAlloc (kzalloc : Z)
  | OpCdevInit (cdev fops : Z)
  | OpCdevAdd (cdev dev count : Z)
  | OpCdevDel (cdev : Z).

Definition cdev_step (s : kobj_state) (op : cdev_op) : kobj_state :=
  match op with
  | OpCdevAlloc p => (kb_linux_kernel_cdev_alloc loaded active_module p s).1
  | OpCdevInit cdev fops => kb_linux_kernel_cdev_init loaded active_module cdev fops s
  | OpCdevAdd cdev dev count => (kb_linux_kernel_cdev_add loaded active_module cdev dev count s).1
  | OpCdevDel cdev => kb_linux_kernel_cdev_del cdev s
  end.

Lemma cdev_init_distinct cdev fops s :
  cdevs_distinct (kb_cdev_records s) ->
  cdevs_distinct (kb_cdev_records (kb_linux_kernel_cdev_init loaded active_module cdev fops s)).
Proof.
  intros Hd. unfold kb_linux_kernel_cdev_init. destruct (Z.eqb_spec cdev 0) as [|Hne]; [done|].
  set (t := kb_register_kernel_object_summary s).
  destruct (cdev_slot cdev t) as [slot|] eqn:Hslot; [|done].
  destruct (fops =? 0); cbn; rewrite ?list_alter_alter_eq;
    apply (distinct_alter cdev slot _ t Hslot); try done.
  intros r. cbn. by case_match.
Qed.

Lemma cdev_step_distinct s op :
  cdevs_distinct (kb_cdev_records s) -> cdevs_distinct (kb_cdev_records (cdev_step s op)).
Proof.
  intros Hd. destruct op as [p|cdev fops|cdev dev count|cdev]; cbn [cdev_step].
  - unfold kb_linux_kernel_cdev_alloc. destruct (p =? 0); [done|]. cbn [fst]. by apply cdev_init_distinct.
  - by apply cdev_init_distinct.
  - destruct (kb_linux_kernel_cdev_add loaded active_module cdev dev count s) as [s' r] eqn:Hadd. cbn [fst].
    destruct (decide (r = 0)) as [->|Hr].
    + destruct (cdev_add_alter _ _ _ _ _ Hadd) as (Hne & slot & g & Hslot & -> & Hg).
      apply (distinct_alter cdev slot g s Hslot); [|done]. intros x. by injection (Hg x).
    + unfold kb_linux_kernel_cdev_add in Hadd. destruct (cdev =? 0); [by injection Hadd as <- _|].
      destruct (cdev_slot cdev s); [|by injection Hadd as <- _]. injection Hadd as _ <-. done.
  - unfold kb_linux_kernel_cdev_del. destruct (first_index _ _) as [k|]; [|done]. cbn.
    intros i j x y Hi Hj Heq Hne. apply list_lookup_alter_Some in Hi, Hj.
    destruct Hi as [(-> & x0 & Hx & ->)|[Hsi Hi]], Hj as [(<- & y0 & Hy & ->)|[Hsj Hj]]; eauto.
Qed.

Lemma cdev_run_distinct ops m : cdevs_distinct (kb_cdev_records (foldl cdev_step (kobj_state_init m) ops)).
Proof.
  assert (cdevs_distinct (kb_cdev_records (kobj_state_init m))) as H0.
  { intros i j r t Hi _ _ Hne. apply lookup_replicate in Hi as [-> _]. by destruct Hne. }
  revert H0. generalize (kobj_state_init m). induction ops as [|op ops IH]; intros s Hs; [done|].
  cbn [foldl]. by apply IH, cdev_step_distinct.
Qed.

Lemma find_cdev_Some s d r :
  kb_linux_kernel_find_active_cdev s d = Some r ->
  exists i, kb_cdev_records s !! i = Some r /\
    cdev_covers (kb_linux_kernel_decode_major d) (kb_linux_kernel_decode_minor d) r = true.
Proof.
  unfold kb_linux_kernel_find_active_cdev. intros H. apply fmap_Some in H as ([i x] & Hf & ->).
  apply list_find_Some in Hf as (Hi & Hc & _). eauto.
Qed.

Lemma added_found s s' cdev slot g dev count d :
  cdev <> 0 -> cdev_slot cdev s = Some slot -> kb_cdev_records s' = alter g slot (kb_cdev_records s) ->
  (forall r, cdev_key (g r) = (cdev, true, dev, count)) ->
  kb_linux_kernel_decode_major d = kb_linux_kernel_decode_major dev ->
  kb_linux_kernel_decode_minor dev <= kb_linux_kernel_decode_minor d
    < kb_linux_kernel_decode_minor dev + count ->
  kb_linux_kernel_decode_minor dev + count < 2 ^ 32 ->
  Forall (fun r => cv_cdev r <> cdev ->
    cdev_covers (kb_linux_kernel_decode_major d) (kb_linux_kernel_decode_minor d) r = false)
    (kb_cdev_records s) ->
  exists r, kb_linux_kernel_find_active_cdev s' d = Some r /\ cv_cdev r = cdev.
Proof.
  intros Hne Hslot Hrec Hg Hmaj Hmin Hwrap Hother.
  destruct (cdev_slot_spec cdev s slot Hslot) as (r0 & Hr0 & _).
  assert (cdev_covers (kb_linux_kernel_decode_major d) (kb_linux_kernel_decode_minor d) (g r0) = true) as Hcov.
  { specialize (Hg r0). unfold cdev_key in Hg. injection Hg as Hc Ha Hdev Hcnt. unfold cdev_covers.
    rewrite Hc, Ha, Hdev, Hcnt, Hmaj, Z.eqb_refl, (proj2 (Z.eqb_neq _ _) Hne). cbn [negb andb].
    pose proof (u32_range (Z.land dev 0xfffff)) as Hu. fold (kb_linux_kernel_decode_minor dev) in Hu.
    rewrite u32_small by (unfold is_u32 in *; lia).
    apply andb_true_iff. split; [apply Z.leb_le; lia|apply Z.ltb_lt; lia]. }
  destruct (kb_linux_kernel_find_active_cdev s' d) as [r|] eqn:Hf.
  - exists r. split; [done|]. apply find_cdev_Some in Hf as (i & Hi & Hc). rewrite Hrec in Hi.
    apply list_lookup_alter_Some in Hi as [(-> & x & _ & ->)|[_ Hi]].
    + specialize (Hg x). by injection Hg.
    + destruct (decide (cv_cdev r = cdev)) as [|Hr]; [done|].
      pose proof (Forall_lookup_1 _ _ _ _ Hother Hi Hr). congruence.
  - unfold kb_linux_kernel_find_active_cdev in Hf. apply fmap_None, list_find_None in Hf.
    rewrite Hrec in Hf. destruct (Forall_lookup_1 _ _ slot (g r0) Hf); [|done].
    by rewrite list_lookup_alter_eq, Hr0.
Qed.

Lemma deleted_not_found s cdev d r :
  cdev <> 0 -> cdevs_distinct (kb_cdev_records s) ->
  kb_linux_kernel_find_active_cdev (kb_linux_kernel_cdev_del cdev s) d = Some r -> cv_cdev r <> cdev.
Proof.
  intros Hne Hd Hf Hr. apply find_cdev_Some in Hf as (i & Hi & Hc).
  assert (cv_active r = true) as Hact by (unfold cdev_covers in Hc; boolify; done).
  unfold kb_linux_kernel_cdev_del in Hi.
  destruct (first_index (fun r => cv_cdev r =? cdev) (kb_cdev_records s)) as [k|] eqn:Hk.
  - apply first_index_Some in Hk as (x & Hx & Hxc & _). boolify. cbn in Hi.
    apply list_lookup_alter_Some in Hi as [(-> & y & _ & ->)|[Hki Hi]]; [done|].
    apply Hki. apply (Hd k i x r); congruence.
  - apply first_index_None in Hk. pose proof (Forall_lookup_1 _ _ _ _ Hk Hi) as Hk'. cbn in Hk'.
    boolify. done.
Qed.

(** After any sequence of cdev operations, a cdev that is added is found under
    every device number of its range, unless another active cdev covers that
    number too; and after cdev_del no device number leads to it any more. *)
Theorem cdev_found_while_added (ops : list cdev_op) (m : mem) (cdev : Z) :
  cdev <> 0 ->
  let s := foldl cdev_step (kobj_state_init m) ops in
  (forall dev count s' d,
     kb_linux_kernel_cdev_add loaded active_module cdev dev count s = (s', 0) ->
     kb_linux_kernel_decode_major d = kb_linux_kernel_decode_major dev ->
     kb_linux_kernel_decode_minor dev <= kb_linux_kernel_decode_minor d
       < kb_linux_kernel_decode_minor dev + count ->
     kb_linux_kernel_decode_minor dev + count < 2 ^ 32 ->
     Forall (fun r => cv_cdev r <> cdev ->
       cdev_covers (kb_linux_kernel_decode_major d) (kb_linux_kernel_decode_minor d) r = false)
       (kb_cdev_records s) ->
     exists r, kb_linux_kernel_find_active_cdev s' d = Some r /\ cv_cdev r = cdev) /\
  (forall d r, kb_linux_kernel_find_active_cdev (kb_linux_kernel_cdev_del cdev s) d = Some r -> cv_cdev r <> cdev).
Proof.
  intros Hne s. assert (cdevs_distinct (kb_cdev_records s)) as Hd by apply cdev_run_distinct.
  split.
  - intros dev count s' d Hadd Hmaj Hmin Hwrap Hother.
    destruct (cdev_add_alter _ _ _ _ _ Hadd) as (_ & slot & g & Hslot & Hrec & Hg).
    by apply (added_found s s' cdev slot g dev count).
  - intros d r Hf. by apply (deleted_not_found s cdev d r).
Qed.
End cdevs.

Definition cdev_sample_ops : list cdev_op :=
  [OpCdevInit 0x10000 0; OpCdevAdd 0x10000 0xf000000 4; OpCdevInit 0x20000 0].

Lemma cdev_found_while_added_witness :
  let s := foldl (cdev_step [] 7) (kobj_state_init ∅) cdev_sample_ops in
  (exists r, kb_linux_kernel_find_active_cdev (kb_linux_kernel_cdev_add [] 7 0x20000 0xf000004 2 s).1 0xf000005
     = Some r /\ cv_cdev r = 0x20000) /\
  (forall d r, kb_linux_kernel_find_active_cdev (kb_linux_kernel_cdev_del 0x20000 s) d = Some r -> cv_cdev r <> 0x20000).
Proof.
  destruct (cdev_found_while_added [] 7 cdev_sample_ops ∅ 0x20000 ltac:(done)) as [Hadd Hdel].
  split; [|exact Hdel].
  apply (Hadd 0xf000004 2 (kb_linux_kernel_cdev_add [] 7 0x20000 0xf000004 2
    (foldl (cdev_step [] 7) (kobj_state_init ∅) cdev_sample_ops)).1 0xf000005).
  - vm_compute. reflexivity.
  - vm_compute. reflexivity.
  - vm_compute. split; [discriminate|reflexivity].
  - vm_compute. reflexivity.
  - apply Forall_lookup. intros i r Hi _.
    assert (forallb (fun r => negb (cdev_covers (kb_linux_kernel_decode_major 0xf000005)
      (kb_linux_kernel_decode_minor 0xf000005) r))
      (kb_cdev_records (foldl (cdev_step [] 7) (kobj_state_init ∅) cdev_sample_ops)) = true) as H
      by (vm_compute; reflexivity).
    rewrite forallb_forall in H. apply negb_true_iff, H.
    apply list_elem_of_In. by eapply list_elem_of_lookup_2.
Defined.

(** ** /proc *)

(** [q] is the entry [p] or lies below it. *)
Definition below (p q : list Z) : Prop := q = p \/ exists rest, q = p ++ 47 :: rest.

Lemma in_proc_tree_spec p q : in_proc_tree p q = true <-> below p q.
Proof.
  unfold in_proc_tree, below. rewrite orb_true_iff, andb_true_iff, !bool_decide_eq_true.
  split; intros [H|H]; [by left| |by left|].
  - destruct H as [Ht Hs]. right. exists (drop (S (length p)) q).
    rewrite <- (take_drop (length p) q) at 1. rewrite Ht. f_equal. by apply drop_S.
  - destruct H as [rest ->]. right. split.
    + by rewrite take_app_length.
    + by rewrite lookup_app_r, Nat.sub_diag by lia.
Qed.

Lemma joined_below m p name path : kb_join_proc_path m p name true = Some path -> below p path.
Proof.
  unfold kb_join_proc_path. cbn [negb]. case_bool_decide as Hp; intros [= <-]; right; [|by eexists].
  subst p. eexists (if name =? 0 then _ else _). by cbn.
Qed.

Section proc.
Context (loaded : loaded_modules) (active_module : Z) (proc_entry class_entry : nat -> Z).
Context (Hinj : forall i j, proc_entry i = proc_entry j -> i = j) (Hnz : forall i, proc_entry i <> 0).

Lemma record_index_entry {A} (l : list A) i :
  (i < length l)%nat -> record_index proc_entry l (proc_entry i) = Some i.
Proof using Hinj.
  intros Hi. unfold record_index. apply fmap_Some. exists (i, i). split; [|done].
  apply list_find_Some. split_and!; [by apply lookup_seq_lt|done|].
  intros j y Hj Hji Heq. apply lookup_seq in Hj as [-> _]. apply Hinj in Heq. lia.
Qed.

(** proc_remove of a live entry deactivates its tree. *)
Lemma proc_remove_eq s i r p :
  kb_proc_records s !! i = Some r -> pr_path r = Some p ->
  kb_linux_kernel_proc_remove proc_entry (proc_entry i) s = kb_proc_deactivate_tree p s.
Proof using Hinj Hnz.
  intros Hr Hp. unfold kb_linux_kernel_proc_remove. rewrite (proj2 (Z.eqb_neq _ _) (Hnz i)).
  rewrite record_index_entry by (by apply lookup_lt_Some in Hr). by rewrite Hr; cbn; rewrite Hp.
Qed.

Lemma deactivate_lookup p s j r :
  kb_proc_records s !! j = Some r ->
  exists r', kb_proc_records (kb_proc_deactivate_tree p s) !! j = Some r' /\ pr_path r' = pr_path r /\
    (pr_active r' = true <-> pr_active r = true /\ forall q, pr_path r = Some q -> ~ below p q).
Proof using Type.
  intros Hj. unfold kb_proc_deactivate_tree. cbn. rewrite list_lookup_fmap, Hj. eexists. split; [reflexivity|].
  destruct (pr_path r) as [q|] eqn:Hq.
  - destruct (in_proc_tree p q) eqn:Htree.
    + apply in_proc_tree_spec in Htree. split; [done|]. cbn. split; [done|]. intros [_ Hn].
      by destruct (Hn q).
    + split; [done|]. split; [|by intros []]. intros Ha. split; [done|]. intros q' [= <-] Hb.
      apply in_proc_tree_spec in Hb. congruence.
  - split; [done|]. split; [|by intros []]. by intros Ha.
Qed.

(** Removing a /proc entry deactivates exactly the entries at or below its
    path, and leaves all paths in place: an entry stays active if and only if it
    was active and does not lie below the removed one.  In particular an entry
    created with the removed one as its parent is gone, under whatever name. *)
Theorem proc_remove_takes_subtree s i r p :
  kb_proc_records s !! i = Some r -> pr_path r = Some p ->
  (forall j t, kb_proc_records s !! j = Some t ->
     exists t', kb_proc_records (kb_linux_kernel_proc_remove proc_entry (proc_entry i) s) !! j = Some t' /\
       pr_path t' = pr_path t /\
       (pr_active t' = true <-> pr_active t = true /\ forall q, pr_path t = Some q -> ~ below p q)) /\
  (forall name mode ops data s1 e,
     kb_linux_kernel_proc_create_data active_module proc_entry name mode (proc_entry i) ops data true true s = (s1, e) ->
     e <> 0 ->
     exists k t, e = proc_entry k /\
       kb_proc_records (kb_linux_kernel_proc_remove proc_entry (proc_entry i) s1) !! k = Some t /\
       pr_active t = false).
Proof using Hinj Hnz.
  intros Hr Hp. split.
  - intros j t Hj. rewrite (proc_remove_eq s i r p Hr Hp). by apply deactivate_lookup.
  - intros name mode ops data s1 e Hcreate He. unfold kb_linux_kernel_proc_create_data in Hcreate.
    set (s0 := kb_register_kernel_object_summary s) in *.
    destruct (kb_find_free_proc_slot s0) as [k|] eqn:Hk; [|by injection Hcreate as _ <-].
    apply first_index_Some in Hk as (r0 & Hr0 & Hfree & _).
    assert (kb_proc_path_for_parent proc_entry (proc_entry i) s0 = p) as Hparent.
    { unfold kb_proc_path_for_parent. rewrite (proj2 (Z.eqb_neq _ _) (Hnz i)).
      rewrite record_index_entry by (by apply lookup_lt_Some in Hr). cbn. by rewrite Hr; cbn; rewrite Hp. }
    rewrite Hparent in Hcreate. unfold kb_copy_string in Hcreate.
    destruct (kb_join_proc_path (ko_mem s0) p name true) as [path|] eqn:Hjoin;
      [|by injection Hcreate as _ <-].
    apply joined_below in Hjoin. apply pair_equal_spec in Hcreate as [<- <-].
    match goal with |- context [alter ?f k] => set (g := f) end.
    assert (forall x, pr_path (g x) = Some path) as Hg by (intros x; unfold g; by destruct (ops =? 0)).
    match goal with |- context [kb_linux_kernel_proc_remove proc_entry (proc_entry i) ?t] => set (s2 := t) end.
    assert (kb_proc_records s2 !! k = Some (g r0)) as Hk2.
    { unfold s2. cbn. cbn in Hr0. by rewrite list_lookup_alter_eq, Hr0. }
    assert (k <> i) as Hki. { intros ->. cbn in Hr0. rewrite Hr in Hr0. injection Hr0 as ->. by rewrite Hp in Hfree. }
    assert (kb_proc_records s2 !! i = Some r) as Hi2.
    { unfold s2. cbn. by rewrite list_lookup_alter_ne. }
    rewrite (proc_remove_eq s2 i r p Hi2 Hp).
    destruct (deactivate_lookup p s2 k (g r0) Hk2) as (t & Ht & _ & Hact). exists k, t.
    split_and!; [done|done|]. apply not_true_is_false. intros Ha. apply Hact in Ha as [_ Hn].
    by destruct (Hn path (Hg r0)).
Qed.
End proc.

Definition sample_entry (i : nat) : Z := 0x700000 + 160 * Z.of_nat i.

Definition proc_sample : kobj_state :=
  (kb_linux_kernel_proc_mkdir_mode 7 sample_entry 0x9000 493 0 true true
     (kobj_state_init (mstore ∅ 0x9000 (cstr "driver")))).1.

Lemma proc_remove_takes_subtree_witness :
  exists r, kb_proc_records proc_sample !! 0%nat = Some r /\ pr_path r = Some (cstr "/proc/driver") /\
  (forall j t, kb_proc_records proc_sample !! j = Some t ->
     exists t', kb_proc_records (kb_linux_kernel_proc_remove sample_entry (sample_entry 0) proc_sample) !! j = Some t' /\
       pr_path t' = pr_path t /\
       (pr_active t' = true <-> pr_active t = true /\
          forall q, pr_path t = Some q -> ~ below (cstr "/proc/driver") q)) /\
  (forall name mode ops data s1 e,
     kb_linux_kernel_proc_create_data 7 sample_entry name mode (sample_entry 0) ops data true true proc_sample = (s1, e) ->
     e <> 0 ->
     exists k t, e = sample_entry k /\
       kb_proc_records (kb_linux_kernel_proc_remove sample_entry (sample_entry 0) s1) !! k = Some t /\
       pr_active t = false).
Proof.
  eexists. split; [vm_compute; reflexivity|]. split; [vm_compute; reflexivity|].
  eapply (proc_remove_takes_subtree 7 sample_entry).
  - unfold sample_entry. lia.
  - unfold sample_entry. lia.
  - vm_compute. reflexivity.
  - vm_compute. reflexivity.
Defined.

(** Dynamic majors are not checked against majors a module asked for: a region
    allocated after a registration of major 240 gets the same numbers, and its
    name look-up finds the other driver. *)
Lemma dynamic_major_can_collide :
  let m := mstore (mstore ∅ 0x9000 (cstr "first")) 0x9100 (cstr "second") in
  let s := (kb_linux_kernel_register_chrdev 7 240 0 256 0x9000 0 true (kobj_state_init m)).1 in
  let '(s', r, dev) := kb_linux_kernel_alloc_chrdev_region 7 true 0 256 0x9100 true s in
  r = 0 /\ dev = Some (kb_linux_kernel_encode_dev 240 0) /\
  kb_linux_kernel_chrdev_name_for_dev s' (kb_linux_kernel_encode_dev 240 0) = cstr "first".
Proof. vm_compute. done. Qed.
