(* ===== verification/FileTable.v ===== *)
(** * Descriptors, files, owners and memory areas
    (src/src/linux_subsystem/fs/kernel_object_registry.c, lines 76-104 and 794-1217)

    The table of 256 file descriptors, the file objects kobox makes up for
    [filp_open], the owners set with [f_setown] and the memory areas it makes up
    for [find_vma].  Pointers are addresses; [calloc] returns the addresses given
    as arguments (0 on failure) and what [free] gets is logged (free of NULL
    included, as the code calls it).  Tracing is left out; [fput],
    [unpin_user_page], [remap_pfn_range] and [vmf_insert_pfn] only trace. *)

From S2P Require Import Prelude Memory KernelObjects.

Definition KB_FAKE_FD_MAX : Z := 256.
Definition KB_FAKE_VMA_MAX : Z := 256.
Definition KB_FAKE_FILE_SIZE : Z := 512.
Definition KB_FAKE_INODE_SIZE : Z := 512.
Definition KB_FAKE_MAPPING_SIZE : Z := 512.
Definition KB_FAKE_VMA_SIZE : Z := 512.
Definition KB_FAKE_PAGE_SIZE : Z := 128.

Record kb_fd_record := mk_fd {
  fd_active : bool;
  fd_fd : Z;
  fd_file : Z;
  fd_owned : bool;
  fd_path : Z;
}.
#[export] Instance fd_eta : Settable kb_fd_record := fun r =>
  mk_fd (fd_active r) (fd_fd r) (fd_file r) (fd_owned r) (fd_path r).
Definition zero_fd : kb_fd_record := mk_fd false 0 0 false 0.

Record kb_fake_file_record := mk_file {
  ff_active : bool;
  ff_inode : Z;
  ff_mapping : Z;
  ff_file : Z;
  ff_path : Z;
}.
Definition zero_file : kb_fake_file_record := mk_file false 0 0 0 0.

Record kb_f_owner_record := mk_f_owner {
  fw_active : bool;
  fw_file : Z;
  fw_pid : Z;
  fw_type : Z;
  fw_force : Z;
}.

Record kb_vma_record := mk_vma {
  vm_active : bool;
  vm_mm : Z;
  vm_start : Z;
  vm_end : Z;
  vm_pgoff : Z;
  vm_vma : Z;
  vm_page : Z;
}.
Definition zero_vma : kb_vma_record := mk_vma false 0 0 0 0 0 0.

Record file_state := mk_file_state {
  kb_fd_records : list kb_fd_record;
  kb_fake_file_records : list kb_fake_file_record;
  kb_f_owner_records : list kb_f_owner_record;
  kb_vma_records : list kb_vma_record;
  kb_next_fake_fd : Z;
  ft_mem : mem;
  ft_freed : list Z;
}.
#[export] Instance file_state_eta : Settable file_state := fun r =>
  mk_file_state (kb_fd_records r) (kb_fake_file_records r) (kb_f_owner_records r) (kb_vma_records r)
    (kb_next_fake_fd r) (ft_mem r) (ft_freed r).

Definition file_state_init (m : mem) : file_state :=
  mk_file_state (replicate (Z.to_nat KB_FAKE_FD_MAX) zero_fd)
    (replicate (Z.to_nat KB_KERNEL_OBJECT_MAX) zero_file)
    (replicate (Z.to_nat KB_KERNEL_OBJECT_MAX) (mk_f_owner false 0 0 0 0))
    (replicate (Z.to_nat KB_FAKE_VMA_MAX) zero_vma) 3 m [].

Definition log_free (l : list Z) (s : file_state) : file_state := s <| ft_freed ::= app l |>.

(** ** Writes into kernel objects *)

Definition kb_linux_kernel_write_ptr_field (base offset value : Z) (m : mem) : mem :=
  if base =? 0 then m else mstore64 m (base + offset) value.

Definition kb_linux_kernel_write_u64_field (base offset value : Z) (m : mem) : mem :=
  if base =? 0 then m else mstore64 m (base + offset) value.

Definition kb_write_ptr_field (base offset value : Z) (m : mem) : mem :=
  if kb_low_or_err_pointer base then m else mstore64 m (base + offset) value.

Definition kb_write_u32_field (base offset value : Z) (m : mem) : mem :=
  if kb_low_or_err_pointer base then m else mstore32 m (base + offset) value.

Definition kb_linux_kernel_prepare_fake_vma (vma mm start end_ pgoff : Z) (m : mem) : mem :=
  if vma =? 0 then m
  else
    let m := mzero m vma KB_FAKE_VMA_SIZE in
    let m := kb_linux_kernel_write_u64_field vma 0x00 start m in
    let m := kb_linux_kernel_write_u64_field vma 0x08 end_ m in
    let m := kb_linux_kernel_write_ptr_field vma 0x10 mm m in
    let m := kb_linux_kernel_write_u64_field vma 0x20 0x0b m in
    let m := kb_linux_kernel_write_u64_field vma 0x28 0 m in
    let m := kb_linux_kernel_write_ptr_field vma 0x30 (vma + 0x30) m in
    let m := kb_linux_kernel_write_ptr_field vma 0x40 mm m in
    let m := kb_linux_kernel_write_u64_field vma 0x78 0 m in
    let m := kb_linux_kernel_write_u64_field vma 0x80 pgoff m in
    let m := kb_linux_kernel_write_ptr_field vma 0x88 0 m in
    kb_linux_kernel_write_ptr_field vma 0x90 0 m.

Definition kb_prepare_fake_file_layout (inode mapping file path : Z) (m : mem) : mem :=
  let m := mzero m inode KB_FAKE_INODE_SIZE in
  let m := mzero m mapping KB_FAKE_MAPPING_SIZE in
  let m := mzero m file KB_FAKE_FILE_SIZE in
  let m := kb_write_ptr_field inode 0x40 mapping m in
  let m := kb_write_u32_field inode 0x5c 0 m in
  let m := kb_write_ptr_field file 0x20 inode m in
  let m := kb_write_ptr_field file 0xa8 inode m in
  let m := kb_write_ptr_field file 0xc8 0 m in
  let m := kb_write_ptr_field file 0xd0 0 m in
  let m := kb_write_ptr_field file 0xd8 0 m in
  if path =? 0 then m else kb_write_ptr_field file 0xe0 path m.

(** ** Files *)

(** The addresses [calloc] and the copy of the path got, in the order of the
    code; the copy holds [text]. *)
Record file_allocs := mk_file_allocs {
  fa_inode : Z;
  fa_mapping : Z;
  fa_file : Z;
  fa_path : Z;
}.

Definition kb_alloc_fake_file (text : list Z) (a : file_allocs) (s : file_state) : file_state * Z :=
  match first_index (fun r => negb (ff_active r)) (kb_fake_file_records s) with
  | None => (s, 0)
  | Some slot =>
      if (fa_inode a =? 0) || (fa_mapping a =? 0) || (fa_file a =? 0) || (fa_path a =? 0)
      then (log_free [fa_path a; fa_file a; fa_mapping a; fa_inode a] s, 0)
      else
        let m := mstore (ft_mem s) (fa_path a) (text ++ [0]) in
        (s <| ft_mem := kb_prepare_fake_file_layout (fa_inode a) (fa_mapping a) (fa_file a) (fa_path a) m |>
           <| kb_fake_file_records ::= <[ slot := mk_file true (fa_inode a) (fa_mapping a) (fa_file a)
                                                     (fa_path a) ]> |>, fa_file a)
  end.

Definition kb_release_fake_file (file : Z) (s : file_state) : file_state :=
  if file =? 0 then s
  else match list_find (fun r => ff_active r && (ff_file r =? file) = true) (kb_fake_file_records s) with
       | Some (i, r) =>
           log_free [ff_path r; ff_file r; ff_mapping r; ff_inode r] s
             <| kb_fake_file_records ::= <[ i := zero_file ]> |>
       | None => s
       end.

(** ** Descriptors *)

Definition fd_is (fd : Z) (r : kb_fd_record) : bool := fd_active r && (fd_fd r =? fd).

Definition kb_find_fd_record (fd : Z) (s : file_state) : option nat :=
  first_index (fd_is fd) (kb_fd_records s).

Definition fd_at (s : file_state) (i : nat) : kb_fd_record := default zero_fd (kb_fd_records s !! i).

Definition kb_alloc_fd_record (fd : Z) (s : file_state) : file_state * option nat :=
  match first_index (fun r => negb (fd_active r)) (kb_fd_records s) with
  | Some i => (s <| kb_fd_records ::= alter (fun r => r <| fd_active := true |> <| fd_fd := fd |>) i |>, Some i)
  | None => (s, None)
  end.

(** [kb_next_fake_fd++] with its wrap-around. *)
Definition next_fake_fd (n : Z) : Z :=
  let n := u32 (n + 1) in if KB_FAKE_FD_MAX + 3 <=? n then 3 else n.

Fixpoint unused_fd_loop (steps : nat) (s : file_state) : file_state * Z :=
  match steps with
  | O => (s, -24)
  | S steps =>
      let fd := kb_next_fake_fd s in
      let s := s <| kb_next_fake_fd ::= next_fake_fd |> in
      match kb_find_fd_record fd s with
      | Some _ => unused_fd_loop steps s
      | None =>
          match kb_alloc_fd_record fd s with
          | (s, None) => (s, -24)
          | (s, Some _) => (s, s32 fd)
          end
      end
  end.

Definition kb_linux_kernel_get_unused_fd_flags (s : file_state) : file_state * Z :=
  unused_fd_loop (Z.to_nat KB_FAKE_FD_MAX) s.

Definition kb_linux_kernel_fd_install (fd file : Z) (s : file_state) : file_state :=
  let '(s, record) := match kb_find_fd_record fd s with
                      | Some i => (s, Some i)
                      | None => kb_alloc_fd_record fd s
                      end in
  match record with
  | None => s
  | Some i =>
      let r := fd_at s i in
      let s := if fd_owned r && negb (fd_file r =? file) then kb_release_fake_file (fd_file r) s else s in
      log_free [fd_path r] s
        <| kb_fd_records ::= alter (fun r => r <| fd_file := file |> <| fd_owned := false |> <| fd_path := 0 |>) i |>
  end.

Definition kb_linux_kernel_fget (fd : Z) (s : file_state) : Z :=
  match kb_find_fd_record fd s with
  | Some i => fd_file (fd_at s i)
  | None => 0
  end.

Definition kb_linux_kernel_close_fd (fd : Z) (s : file_state) : file_state * Z :=
  match kb_find_fd_record fd s with
  | None => (s, -9)
  | Some i =>
      let r := fd_at s i in
      let s := if fd_owned r then kb_release_fake_file (fd_file r) s else s in
      (log_free [fd_path r] s <| kb_fd_records ::= alter (fun _ => zero_fd) i |>, 0)
  end.

(** ERR_PTR(-ENOENT) *)
Definition kb_err_ptr_noent : Z := u64 (-2).

Definition kb_linux_kernel_filp_open (path : Z) (a : file_allocs) (s : file_state) : file_state * Z :=
  let text := match or_literal path (cstr "(anonymous)") with
              | CPtr p => if kb_low_or_err_pointer p then cstr "(unnamed)"
                          else bounded_string (ft_mem s) p (Z.to_nat 4096)
              | CLit t => t
              end in
  let '(s, file) := kb_alloc_fake_file text a s in
  (s, if file =? 0 then kb_err_ptr_noent else file).

Definition kb_linux_kernel_dentry_open (a : file_allocs) (s : file_state) : file_state * Z :=
  let '(s, file) := kb_alloc_fake_file (cstr "(dentry)") a s in
  (s, if file =? 0 then kb_err_ptr_noent else file).

Definition kb_linux_kernel_filp_close (file : Z) (s : file_state) : file_state * Z :=
  (kb_release_fake_file file s, 0).

(** The callback folds over its data and stops on a non-zero result. *)
Fixpoint iterate_fd_loop {D} (first : Z) (fn : Z -> Z -> D -> D * Z) (l : list kb_fd_record) (data : D) : D * Z :=
  match l with
  | [] => (data, 0)
  | r :: l =>
      if fd_active r && negb (fd_file r =? 0) && (first <=? fd_fd r)
      then let '(data, result) := fn (fd_file r) (fd_fd r) data in
           if result =? 0 then iterate_fd_loop first fn l data else (data, result)
      else iterate_fd_loop first fn l data
  end.

Definition kb_linux_kernel_iterate_fd {D} (first : Z) (fn : option (Z -> Z -> D -> D * Z)) (data : D)
    (s : file_state) : D * Z :=
  match fn with
  | None => (data, 0)
  | Some fn => iterate_fd_loop first fn (kb_fd_records s) data
  end.

Definition kb_linux_kernel_f_setown (file pid type force : Z) (s : file_state) : file_state :=
  if file =? 0 then s
  else
    let slot := match first_index (fun r => fw_active r && (fw_file r =? file)) (kb_f_owner_records s) with
                | Some i => Some i
                | None => first_index (fun r => negb (fw_active r)) (kb_f_owner_records s)
                end in
    match slot with
    | None => s
    | Some i => s <| kb_f_owner_records ::= <[ i := mk_f_owner true file pid type force ]> |>
    end.

(** ** Memory areas *)

(** [calloc] of the area and of its page. *)
Definition kb_alloc_vma_record (mm start length_ : Z) (vma page : Z) (s : file_state) : file_state * option nat :=
  let length_ := if length_ =? 0 then 4096 else length_ in
  match first_index (fun r => negb (vm_active r)) (kb_vma_records s) with
  | None => (s, None)
  | Some i =>
      if (vma =? 0) || (page =? 0) then (log_free [page; vma] s, None)
      else
        let end_ := u64 (start + length_) in
        let pgoff := Z.shiftr start 12 in
        (s <| kb_vma_records ::= <[ i := mk_vma true mm start end_ pgoff vma page ]> |>
           <| ft_mem ::= fun m => kb_linux_kernel_prepare_fake_vma vma mm start end_ pgoff
                                    (mzero (mzero m vma KB_FAKE_VMA_SIZE) page KB_FAKE_PAGE_SIZE) |>, Some i)
  end.

Definition vma_covers (mm addr : Z) (r : kb_vma_record) : bool :=
  vm_active r && ((mm =? 0) || (vm_mm r =? 0) || (vm_mm r =? mm)) &&
  (vm_start r <=? addr) && (addr <? vm_end r).

Definition kb_linux_kernel_find_vma_record (mm addr : Z) (vma page : Z) (s : file_state)
    : file_state * option nat :=
  match first_index (vma_covers mm addr) (kb_vma_records s) with
  | Some i => (s, Some i)
  | None => kb_alloc_vma_record mm (Z.ldiff addr 0xfff) 4096 vma page s
  end.

Definition vma_at (s : file_state) (i : nat) : kb_vma_record := default zero_vma (kb_vma_records s !! i).

Definition kb_linux_kernel_find_vma (mm addr : Z) (vma page : Z) (s : file_state) : file_state * Z :=
  match kb_linux_kernel_find_vma_record mm addr vma page s with
  | (s, Some i) => (s, vm_vma (vma_at s i))
  | (s, None) => (s, 0)
  end.

Definition kb_linux_kernel_find_vma_intersection (mm start end_ : Z) (vma page : Z) (s : file_state)
    : file_state * Z :=
  kb_linux_kernel_find_vma mm start vma page s.

Definition kb_linux_kernel_follow_pfn (address : Z) : Z := Z.shiftr address 12.

(** The loop from page [i] on; [calloc i] gives the addresses of that iteration.
    The result is what is stored to [pages], the page array. *)
Fixpoint pin_pages_loop (n : nat) (i : Z) (mm start : Z) (calloc : Z -> Z * Z) (s : file_state)
    : file_state * list Z :=
  match n with
  | O => (s, [])
  | S n =>
      let '(vma, page) := calloc i in
      let '(s, record) := kb_linux_kernel_find_vma_record mm (u64 (start + u64 (Z.shiftl i 12))) vma page s in
      let p := match record with Some k => vm_page (vma_at s k) | None => 0 end in
      let '(s, pages) := pin_pages_loop n (i + 1) mm start calloc s in
      (s, p :: pages)
  end.

Definition kb_linux_kernel_pin_user_pages_common (mm start nr_pages : Z) (calloc : Z -> Z * Z)
    (s : file_state) : file_state * list Z * Z :=
  if nr_pages =? 0 then (s, [], 0)
  else
    let '(s, pages) := pin_pages_loop (Z.to_nat nr_pages) 0 mm start calloc s in
    (s, pages, s64 nr_pages).

Definition kb_linux_kernel_pin_user_pages (start nr_pages : Z) (calloc : Z -> Z * Z) (s : file_state)
    : file_state * list Z * Z :=
  kb_linux_kernel_pin_user_pages_common 0 start nr_pages calloc s.

(** [locked], when not NULL, is set to 0 before pages are pinned. *)
Definition kb_linux_kernel_pin_user_pages_remote (mm start nr_pages locked : Z) (calloc : Z -> Z * Z)
    (s : file_state) : file_state * list Z * Z :=
  let s := if locked =? 0 then s else s <| ft_mem ::= fun m => mstore32 m locked 0 |> in
  kb_linux_kernel_pin_user_pages_common mm start nr_pages calloc s.

Definition kb_linux_kernel_get_user_pages_remote (mm start nr_pages locked : Z) (calloc : Z -> Z * Z)
    (s : file_state) : file_state * list Z * Z :=
  let s := if locked =? 0 then s else s <| ft_mem ::= fun m => mstore32 m locked 0 |> in
  kb_linux_kernel_pin_user_pages_common mm start nr_pages calloc s.
