(* ===== verification/FileTheorems.v ===== *)
(** * Theorems about descriptors, files and memory areas (FileTable.v)

    The descriptor table is a finite map from numbers to files; an unused number
    is always found within 256 steps while a slot is free; files are freed once;
    a memory area that is found covers the address, and asking again finds it. *)

From S2P Require Import Prelude Memory KernelObjects FileTable.

(** ** The descriptor table as a map *)

Definition fd_entry (r : kb_fd_record) : Z * Z := (fd_fd r, fd_file r).

Definition fd_map_of (l : list kb_fd_record) : gmap Z Z :=
  list_to_map (map fd_entry (List.filter fd_active l)).

Definition fd_map (s : file_state) : gmap Z Z := fd_map_of (kb_fd_records s).

(** The table holds file [f] under [x]. *)
Definition fd_holds (l : list kb_fd_record) (x f : Z) : Prop :=
  exists i r, l !! i = Some r /\ fd_active r = true /\ fd_fd r = x /\ fd_file r = f.

Definition fds_distinct (l : list kb_fd_record) : Prop :=
  forall i j r t, l !! i = Some r -> l !! j = Some t ->
    fd_active r = true -> fd_active t = true -> fd_fd r = fd_fd t -> i = j.

Record fd_inv (s : file_state) : Prop := mk_fd_inv {
  fd_inv_size : length (kb_fd_records s) = Z.to_nat KB_FAKE_FD_MAX;
  fd_inv_distinct : fds_distinct (kb_fd_records s);
  fd_inv_next : 3 <= kb_next_fake_fd s < KB_FAKE_FD_MAX + 3;
  fd_inv_free : Forall (fun r => fd_active r = false -> r = zero_fd <| fd_fd := fd_fd r |>) (kb_fd_records s);
}.

Lemma fd_active_NoDup l : fds_distinct l -> NoDup (map fd_entry (List.filter fd_active l)).*1.
Proof.
  induction l as [|r l IH]; intros Hd; [constructor|]. cbn [List.filter].
  assert (fds_distinct l) as Hl.
  { intros i j x y Hi Hj Hx Hy Heq. cut (S i = S j); [lia|]. by apply (Hd (S i) (S j) x y). }
  destruct (fd_active r) eqn:Hr; [|by apply IH]. cbn. constructor; [|by apply IH].
  intros Hin. apply list_elem_of_fmap in Hin as ([x f] & Hx & Hin). cbn in Hx.
  apply list_elem_of_fmap in Hin as (t & Ht & Hin). unfold fd_entry in Ht. injection Ht as -> ->.
  apply list_elem_of_In, filter_In in Hin as [Hin Hact]. apply list_elem_of_In, list_elem_of_lookup in Hin as [j Hj].
  pose proof (Hd 0%nat (S j) r t) as H. cbn in H. specialize (H eq_refl Hj Hr Hact Hx). lia.
Qed.

Lemma fd_map_lookup l x f : fds_distinct l -> fd_map_of l !! x = Some f <-> fd_holds l x f.
Proof.
  intros Hd. unfold fd_map_of. rewrite <- elem_of_list_to_map by (by apply fd_active_NoDup).
  rewrite list_elem_of_fmap. unfold fd_holds. split.
  - intros (r & Hr & Hin). apply list_elem_of_In, filter_In in Hin as [Hin Ha].
    apply list_elem_of_In, list_elem_of_lookup in Hin as [i Hi]. injection Hr as -> ->. by exists i, r.
  - intros (i & r & Hi & Ha & <- & <-). exists r. split; [done|].
    apply list_elem_of_In, filter_In. split; [|done]. apply list_elem_of_In. by eapply list_elem_of_lookup_2.
Qed.

(** Two tables that hold the same files are the same map. *)
Lemma fd_map_eq l (m : gmap Z Z) :
  fds_distinct l -> (forall x f, fd_holds l x f <-> m !! x = Some f) -> fd_map_of l = m.
Proof.
  intros Hd H. apply map_eq. intros x. apply option_eq. intros f.
  by rewrite fd_map_lookup by done.
Qed.

(** ** Finding and claiming records *)

Lemma find_fd_spec x s :
  match kb_find_fd_record x s with
  | Some i => exists r, kb_fd_records s !! i = Some r /\ fd_active r = true /\ fd_fd r = x
  | None => forall f, ~ fd_holds (kb_fd_records s) x f
  end.
Proof.
  unfold kb_find_fd_record. destruct (first_index _ _) as [i|] eqn:Hi.
  - apply first_index_Some in Hi as (r & Hr & Hx & _). unfold fd_is in Hx. boolify. eauto.
  - intros f (i & r & Hr & Ha & Hx & _). apply first_index_None in Hi.
    pose proof (Forall_lookup_1 _ _ _ _ Hi Hr) as H. cbn in H. unfold fd_is in H.
    rewrite Ha, Hx, Z.eqb_refl in H. done.
Qed.

Lemma find_fd_map x s :
  fd_inv s -> (kb_find_fd_record x s = None <-> fd_map s !! x = None).
Proof.
  intros [_ Hd _ _]. pose proof (find_fd_spec x s) as H. destruct (kb_find_fd_record x s) as [i|]; split; try done.
  - destruct H as (r & Hr & Ha & Hx). intros Hn. exfalso.
    assert (fd_map s !! x = Some (fd_file r)) as Hs; [|congruence].
    apply fd_map_lookup; [done|]. by exists i, r.
  - intros _. destruct (fd_map s !! x) as [f|] eqn:Hf; [|done]. apply fd_map_lookup in Hf; [|done]. by destruct (H f).
Qed.

(** Replacing one record. *)
Lemma distinct_replace l i g :
  fds_distinct l ->
  (forall r, l !! i = Some r -> fd_active (g r) = true ->
     forall j t, j <> i -> l !! j = Some t -> fd_active t = true -> fd_fd t <> fd_fd (g r)) ->
  fds_distinct (alter g i l).
Proof.
  intros Hd Hnew a b x y Ha Hb Hx Hy Heq. apply list_lookup_alter_Some in Ha, Hb.
  destruct Ha as [(-> & x0 & Hx0 & ->)|[Hia Ha]], Hb as [(<- & y0 & Hy0 & ->)|[Hib Hb]]; [done| | |].
  - by destruct (Hnew x0 Hx0 Hx b y).
  - by destruct (Hnew y0 Hy0 Hy a x).
  - by apply (Hd a b x y).
Qed.

(** Which files a table holds after one record is replaced. *)
Lemma holds_replace l i g r x f :
  l !! i = Some r ->
  fd_holds (alter g i l) x f <->
  (fd_active (g r) = true /\ fd_fd (g r) = x /\ fd_file (g r) = f) \/
  (exists j t, j <> i /\ l !! j = Some t /\ fd_active t = true /\ fd_fd t = x /\ fd_file t = f).
Proof.
  intros Hr. split.
  - intros (j & t & Hj & Ha & Hx & Hf). apply list_lookup_alter_Some in Hj as [(-> & y & Hy & ->)|[Hij Hj]].
    + left. rewrite Hr in Hy. by injection Hy as <-.
    + right. exists j, t. done.
  - intros [(Ha & Hx & Hf)|(j & t & Hij & Hj & Ha & Hx & Hf)].
    + exists i, (g r). by rewrite list_lookup_alter_eq, Hr.
    + exists j, t. by rewrite list_lookup_alter_ne by done.
Qed.

(** Records are only changed one at a time; the rest of the invariant follows. *)
Lemma fd_inv_replace s t i g :
  fd_inv s -> kb_fd_records t = alter g i (kb_fd_records s) -> kb_next_fake_fd t = kb_next_fake_fd s ->
  (forall r, kb_fd_records s !! i = Some r ->
     (fd_active (g r) = false -> g r = zero_fd <| fd_fd := fd_fd (g r) |>) /\
     (fd_active (g r) = true -> forall j u, j <> i -> kb_fd_records s !! j = Some u ->
        fd_active u = true -> fd_fd u <> fd_fd (g r))) ->
  fd_inv t.
Proof.
  intros [Hl Hd Hn Hf] Ht Hnext Hg. split; rewrite ?Ht, ?Hnext.
  - by rewrite length_alter.
  - apply distinct_replace; [done|]. intros r Hr. exact (proj2 (Hg r Hr)).
  - done.
  - apply Forall_alter; [done|]. intros r Hr _. exact (proj1 (Hg r Hr)).
Qed.

Lemma find_free_fd s :
  match first_index (fun r => negb (fd_active r)) (kb_fd_records s) with
  | Some i => exists r, kb_fd_records s !! i = Some r /\ fd_active r = false
  | None => Forall (fun r => fd_active r = true) (kb_fd_records s)
  end.
Proof.
  destruct (first_index _ _) as [i|] eqn:Hi.
  - apply first_index_Some in Hi as (r & Hr & Ha & _). boolify. eauto.
  - apply first_index_None in Hi. eapply Forall_impl; [exact Hi|]. intros r H. cbn in H. by boolify.
Qed.

Lemma fd_map_size s : fd_inv s -> size (fd_map s) = length (List.filter fd_active (kb_fd_records s)).
Proof.
  intros Hinv. unfold fd_map, fd_map_of. rewrite map_size_list_to_map by (apply fd_active_NoDup, Hinv).
  apply length_map.
Qed.

Lemma fd_map_full s :
  fd_inv s -> Forall (fun r => fd_active r = true) (kb_fd_records s) <-> size (fd_map s) = 256%nat.
Proof.
  intros Hinv. rewrite <- filter_length_all, fd_map_size, (fd_inv_size s Hinv) by done. done.
Qed.

(** Claiming a record for a number that is not in use reserves it with no file. *)
Lemma alloc_fd_spec x s :
  fd_inv s -> fd_map s !! x = None ->
  match kb_alloc_fd_record x s with
  | (t, Some i) => fd_inv t /\ fd_map t = <[ x := 0 ]> (fd_map s) /\ size (fd_map s) <> 256%nat /\
      exists r, kb_fd_records t !! i = Some r /\ fd_active r = true /\ fd_fd r = x
  | (t, None) => t = s /\ size (fd_map s) = 256%nat
  end.
Proof.
  intros Hinv Hx. unfold kb_alloc_fd_record. pose proof (find_free_fd s) as Hfree.
  destruct (first_index _ _) as [i|]; [|split; [done|by apply fd_map_full]]. destruct Hfree as (r & Hr & Ha).
  set (g := fun r : kb_fd_record => r <| fd_active := true |> <| fd_fd := x |>).
  assert (forall j u, kb_fd_records s !! j = Some u -> fd_active u = true -> fd_fd u <> x) as Hother.
  { intros j u Hj Hu Hux. assert (fd_map s !! x = Some (fd_file u)); [|congruence].
    apply fd_map_lookup; [apply Hinv|]. by exists j, u. }
  assert (fd_file r = 0) as Hr0.
  { pose proof (Forall_lookup_1 _ _ _ _ (fd_inv_free s Hinv) Hr Ha) as ->. done. }
  set (t := s <| kb_fd_records ::= alter g i |>).
  assert (fd_inv t) as Ht.
  { apply (fd_inv_replace s t i g); [done|done|done|]. intros r' _. split; [done|].
    intros _ j u _ Hj Hu. by apply (Hother j u). }
  split_and!; [done| | |].
  - apply fd_map_eq; [apply Ht|]. intros y f. unfold t. cbn. rewrite (holds_replace _ i g r) by done. cbn.
    rewrite lookup_insert_Some, Hr0. unfold fd_map. rewrite fd_map_lookup by apply Hinv. split.
    + intros [(_ & -> & <-)|(j & u & Hji & Hj & Hu & <- & <-)]; [by left|].
      right. split; [|by exists j, u]. intros Hxy. by apply (Hother j u).
    + intros [[-> <-]|[Hne (j & u & Hj & Hu & Hy & Hf)]]; [by left|]. right. exists j, u. split_and!; try done.
      intros ->. rewrite Hr in Hj. injection Hj as <-. congruence.
  - intros Hfull. apply fd_map_full in Hfull; [|done].
    pose proof (Forall_lookup_1 _ _ _ _ Hfull Hr). cbn in *. congruence.
  - exists (g r). split; [|done]. unfold t. cbn. by rewrite list_lookup_alter_eq, Hr.
Qed.

(** ** Searching an unused number *)

(** The [k]-th number tried from [n] on: all of 3..258 in turn. *)
Definition fd_candidate (n : Z) (k : nat) : Z := 3 + (n - 3 + Z.of_nat k) mod KB_FAKE_FD_MAX.

Lemma next_fake_fd_candidate n k :
  3 <= n < KB_FAKE_FD_MAX + 3 ->
  3 <= next_fake_fd n < KB_FAKE_FD_MAX + 3 /\ fd_candidate (next_fake_fd n) k = fd_candidate n (S k).
Proof.
  unfold next_fake_fd, fd_candidate, KB_FAKE_FD_MAX. intros Hn. rewrite u32_small by (unfold is_u32; lia).
  destruct (Z.leb_spec (256 + 3) (n + 1)); split; try lia; Z.to_euclidean_division_equations; lia.
Qed.

Lemma fd_candidates_NoDup n :
  3 <= n < KB_FAKE_FD_MAX + 3 -> NoDup (map (fd_candidate n) (seq 0 256)).
Proof.
  intros Hn. apply NoDup_fmap_2_strong; [|apply NoDup_seq].
  intros i j Hi Hj. apply elem_of_seq in Hi, Hj. unfold fd_candidate, KB_FAKE_FD_MAX in *. intros Heq.
  Z.to_euclidean_division_equations. lia.
Qed.

(** A loop of [steps] steps either reserves a number that was free, or has found
    them all in use, or the table is full. *)
Lemma unused_fd_loop_spec steps s :
  fd_inv s ->
  let '(t, r) := unused_fd_loop steps s in
  fd_inv t /\
  (3 <= r < 259 /\ fd_map s !! r = None /\ fd_map t = <[ r := 0 ]> (fd_map s) /\ size (fd_map s) <> 256%nat \/
   r = -24 /\ fd_map t = fd_map s /\
   (size (fd_map s) = 256%nat \/
    forall k, (k < steps)%nat -> is_Some (fd_map s !! fd_candidate (kb_next_fake_fd s) k))).
Proof.
  revert s. induction steps as [|steps IH]; intros s Hinv; cbn [unused_fd_loop].
  - split; [done|]. right. split_and!; [done|done|]. right. intros k Hk. lia.
  - pose proof (fd_inv_next s Hinv) as Hnext. set (s1 := s <| kb_next_fake_fd ::= next_fake_fd |>).
    assert (fd_inv s1) as Hinv1.
    { destruct Hinv as [H1 H2 H3 H4]. split; [exact H1|exact H2| |exact H4]. by apply (next_fake_fd_candidate _ 0). }
    assert (fd_candidate (kb_next_fake_fd s) 0 = kb_next_fake_fd s) as Hc0.
    { unfold fd_candidate. rewrite Z.add_0_r, Z.mod_small; lia. }
    change (fd_map s) with (fd_map s1).
    destruct (kb_find_fd_record (kb_next_fake_fd s) s1) as [i|] eqn:Hf.
    + specialize (IH s1 Hinv1). destruct (unused_fd_loop steps s1) as [t r].
      destruct IH as [Ht Hcase]. split; [done|]. destruct Hcase as [?|(Hr & Hm & Hcase)]; [by left|]. right.
      split_and!; [done|done|]. destruct Hcase as [|Hall]; [by left|]. right. intros k Hk.
      destruct k as [|k].
      * rewrite Hc0. apply not_eq_None_Some. intros Hn. apply find_fd_map in Hn; [|done]. congruence.
      * specialize (Hall k ltac:(lia)). cbn in Hall.
        by rewrite (proj2 (next_fake_fd_candidate _ k Hnext)) in Hall.
    + apply find_fd_map in Hf; [|done]. pose proof (alloc_fd_spec (kb_next_fake_fd s) s1 Hinv1 Hf) as Ha.
      destruct (kb_alloc_fd_record (kb_next_fake_fd s) s1) as [t [i|]].
      * destruct Ha as (Ht & Hm & Hsz & _). split; [done|]. left. unfold KB_FAKE_FD_MAX in Hnext.
        assert (s32 (kb_next_fake_fd s) = kb_next_fake_fd s) as -> by ilia. by split_and!; try lia.
      * destruct Ha as [-> Hfull]. split; [done|]. right. split_and!; [done|done|by left].
Qed.

Lemma fd_map_size_le s : fd_inv s -> (size (fd_map s) <= 256)%nat.
Proof.
  intros Hinv. rewrite fd_map_size by done. etransitivity; [apply filter_length_le|].
  by rewrite (fd_inv_size s Hinv).
Qed.

(** If all 256 numbers are taken, so are all 256 records. *)
Lemma all_candidates_used s :
  fd_inv s -> (forall k, (k < 256)%nat -> is_Some (fd_map s !! fd_candidate (kb_next_fake_fd s) k)) ->
  size (fd_map s) = 256%nat.
Proof.
  intros Hinv Hall. pose proof (fd_map_size_le s Hinv) as Hle.
  set (c := map (fd_candidate (kb_next_fake_fd s)) (seq 0 256)).
  assert (size (list_to_set c : gset Z) <= size (dom (fd_map s)))%nat as Hsub.
  { apply subseteq_size. intros x Hx. apply elem_of_list_to_set, list_elem_of_fmap in Hx as (k & -> & Hk).
    apply elem_of_seq in Hk. apply elem_of_dom, Hall. lia. }
  rewrite size_list_to_set in Hsub by (apply fd_candidates_NoDup, Hinv).
  rewrite size_dom in Hsub. unfold c in Hsub. rewrite length_map, length_seq in Hsub. lia.
Qed.

Lemma get_unused_fd_spec s :
  fd_inv s ->
  let '(t, r) := kb_linux_kernel_get_unused_fd_flags s in
  fd_inv t /\
  if decide (size (fd_map s) = 256%nat) then r = -24 /\ fd_map t = fd_map s
  else 3 <= r < 259 /\ fd_map s !! r = None /\ fd_map t = <[ r := 0 ]> (fd_map s).
Proof.
  intros Hinv. unfold kb_linux_kernel_get_unused_fd_flags.
  pose proof (unused_fd_loop_spec (Z.to_nat KB_FAKE_FD_MAX) s Hinv) as H.
  destruct (unused_fd_loop _ s) as [t r]. destruct H as [Ht Hcase]. split; [done|].
  destruct Hcase as [(Hr & Hn & Hm & Hsz)|(-> & Hm & Hcase)].
  - by rewrite decide_False.
  - rewrite decide_True; [done|]. destruct Hcase as [|Hall]; [done|].
    apply all_candidates_used; [done|]. intros k Hk. apply Hall. unfold KB_FAKE_FD_MAX. lia.
Qed.

(** Releasing a file does not touch the descriptors. *)
Lemma release_fds file s :
  kb_fd_records (kb_release_fake_file file s) = kb_fd_records s /\
  kb_next_fake_fd (kb_release_fake_file file s) = kb_next_fake_fd s.
Proof. unfold kb_release_fake_file. case_match; [done|]. by case_match; [case_match|]. Qed.

(** Replacing an active record [i] that holds [x]. *)
Lemma fd_replace_active s t i g r x :
  fd_inv s -> kb_fd_records s !! i = Some r -> fd_active r = true -> fd_fd r = x ->
  kb_fd_records t = alter g i (kb_fd_records s) -> kb_next_fake_fd t = kb_next_fake_fd s ->
  (fd_active (g r) = true -> fd_fd (g r) = x) ->
  (fd_active (g r) = false -> g r = zero_fd) ->
  fd_inv t /\ fd_map t = if fd_active (g r) then <[ x := fd_file (g r) ]> (fd_map s) else delete x (fd_map s).
Proof.
  intros Hinv Hr Ha Hx Ht Hn Hg Hz.
  assert (forall j u, j <> i -> kb_fd_records s !! j = Some u -> fd_active u = true -> fd_fd u <> x) as Hother.
  { intros j u Hji Hj Hu Hux. apply Hji. apply (fd_inv_distinct s Hinv j i u r); congruence. }
  assert (fd_inv t) as Hinvt.
  { apply (fd_inv_replace s t i g); [done|done|done|]. intros r' Hr'. rewrite Hr in Hr'. injection Hr' as <-.
    split; [by intros ->%Hz|]. intros Hga j u Hji Hj Hu. rewrite (Hg Hga). by apply (Hother j u). }
  split; [done|]. apply fd_map_eq; [apply Hinvt|]. intros y f. rewrite Ht, (holds_replace _ i g r) by done.
  assert (forall m : gmap Z Z, m = fd_map s ->
    (exists j t, j <> i /\ kb_fd_records s !! j = Some t /\ fd_active t = true /\ fd_fd t = y /\ fd_file t = f) <->
    x <> y /\ m !! y = Some f) as Hrest.
  { intros m ->. unfold fd_map. rewrite fd_map_lookup by apply Hinv. split.
    - intros (j & u & Hji & Hj & Hu & <- & <-). split; [|by exists j, u]. intros Hxy. by apply (Hother j u).
    - intros [Hne (j & u & Hj & Hu & Hy & Hf)]. exists j, u. split_and!; try done.
      intros ->. rewrite Hr in Hj. injection Hj as <-. congruence. }
  rewrite (Hrest _ eq_refl). destruct (fd_active (g r)) eqn:Hga.
  - rewrite lookup_insert_Some, (Hg eq_refl). intuition congruence.
  - rewrite lookup_delete_Some. intuition congruence.
Qed.

Lemma fd_at_lookup s i r : kb_fd_records s !! i = Some r -> fd_at s i = r.
Proof. intros H. unfold fd_at. by rewrite H. Qed.

Lemma fd_install_spec x file s :
  fd_inv s ->
  let t := kb_linux_kernel_fd_install x file s in
  fd_inv t /\
  fd_map t = if decide (fd_map s !! x = None /\ size (fd_map s) = 256%nat) then fd_map s
             else <[ x := file ]> (fd_map s).
Proof.
  intros Hinv. cbn zeta. unfold kb_linux_kernel_fd_install.
  assert (forall s0 i r, fd_inv s0 -> kb_fd_records s0 !! i = Some r -> fd_active r = true -> fd_fd r = x ->
    let t := log_free [fd_path (fd_at s0 i)]
               (if fd_owned (fd_at s0 i) && negb (fd_file (fd_at s0 i) =? file)
                then kb_release_fake_file (fd_file (fd_at s0 i)) s0 else s0)
             <| kb_fd_records ::= alter (fun r => r <| fd_file := file |> <| fd_owned := false |>
                                                    <| fd_path := 0 |>) i |> in
    fd_inv t /\ fd_map t = <[ x := file ]> (fd_map s0)) as Hset.
  { intros s0 i r Hinv0 Hr Ha Hx. cbn zeta. destruct (release_fds (fd_file (fd_at s0 i)) s0) as [Hrec Hnext].
    match goal with |- fd_inv ?T /\ _ => set (t := T) end.
    pose proof (fd_replace_active s0 t i (fun r => r <| fd_file := file |> <| fd_owned := false |>
      <| fd_path := 0 |>) r x Hinv0 Hr Ha Hx) as H. cbn in H. rewrite Ha in H. apply H.
    - unfold t. cbn. destruct (_ && _); [by rewrite Hrec|done].
    - unfold t. cbn. by destruct (_ && _).
    - done.
    - done. }
  pose proof (find_fd_spec x s) as Hf.
  destruct (kb_find_fd_record x s) as [i|] eqn:Hfind.
  - destruct Hf as (r & Hr & Ha & Hx). rewrite decide_False; [by apply (Hset s i r)|].
    intros [Hn _]. apply find_fd_map in Hn; [|done]. congruence.
  - apply find_fd_map in Hfind; [|done]. pose proof (alloc_fd_spec x s Hinv Hfind) as Halloc.
    destruct (kb_alloc_fd_record x s) as [s1 [i|]].
    + destruct Halloc as (Hinv1 & Hm & Hsz & r & Hr & Ha & Hx). rewrite decide_False by (intros []; done).
      destruct (Hset s1 i r Hinv1 Hr Ha Hx) as [Ht ->]. split; [done|]. by rewrite Hm, insert_insert_eq.
    + destruct Halloc as [-> Hfull]. by rewrite decide_True.
Qed.

Lemma close_fd_spec x s :
  fd_inv s ->
  let '(t, r) := kb_linux_kernel_close_fd x s in
  fd_inv t /\ r = (if decide (fd_map s !! x = None) then -9 else 0) /\ fd_map t = delete x (fd_map s).
Proof.
  intros Hinv. unfold kb_linux_kernel_close_fd. pose proof (find_fd_spec x s) as Hf.
  destruct (kb_find_fd_record x s) as [i|] eqn:Hfind.
  - destruct Hf as (r & Hr & Ha & Hx). rewrite (fd_at_lookup s i r Hr).
    destruct (release_fds (fd_file r) s) as [Hrec Hnext].
    match goal with |- fd_inv ?T /\ _ => set (t := T) end.
    destruct (fd_replace_active s t i (fun _ => zero_fd) r x Hinv Hr Ha Hx) as [Ht Hm].
    + unfold t. cbn. destruct (fd_owned r); [by rewrite Hrec|done].
    + unfold t. cbn. by destruct (fd_owned r).
    + done.
    + done.
    + split_and!; [done| |done]. rewrite decide_False; [done|]. intros Hn. apply find_fd_map in Hn; [|done]. congruence.
  - apply find_fd_map in Hfind; [|done]. rewrite decide_True by done. split_and!; [done|done|].
    by rewrite delete_id.
Qed.

Lemma fget_spec x s : fd_inv s -> kb_linux_kernel_fget x s = default 0 (fd_map s !! x).
Proof.
  intros Hinv. unfold kb_linux_kernel_fget. pose proof (find_fd_spec x s) as Hf.
  destruct (kb_find_fd_record x s) as [i|] eqn:Hfind.
  - destruct Hf as (r & Hr & Ha & Hx). rewrite (fd_at_lookup s i r Hr).
    assert (fd_map s !! x = Some (fd_file r)) as ->; [|done]. apply fd_map_lookup; [apply Hinv|]. by exists i, r.
  - apply find_fd_map in Hfind; [|done]. by rewrite Hfind.
Qed.

Lemma fd_init_inv m : fd_inv (file_state_init m).
Proof.
  split.
  - cbn -[replicate]. apply length_replicate.
  - intros i j r t Hi _ Ha. apply lookup_replicate in Hi as [-> _]. done.
  - cbn. unfold KB_FAKE_FD_MAX. lia.
  - apply Forall_replicate. done.
Qed.

(** ** Sequences of descriptor operations *)

Inductive fd_op :=
  | OpUnusedFd
  | OpInstall (fd file : Z)
  | OpCloseFd (fd : Z).

Definition fd_step (s : file_state) (op : fd_op) : file_state :=
  match op with
  | OpUnusedFd => (kb_linux_kernel_get_unused_fd_flags s).1
  | OpInstall fd file => kb_linux_kernel_fd_install fd file s
  | OpCloseFd fd => (kb_linux_kernel_close_fd fd s).1
  end.

Lemma fd_step_inv s op : fd_inv s -> fd_inv (fd_step s op).
Proof.
  intros Hinv. destruct op as [|fd file|fd]; cbn [fd_step].
  - pose proof (get_unused_fd_spec s Hinv) as H. destruct (kb_linux_kernel_get_unused_fd_flags s). apply H.
  - by apply fd_install_spec.
  - pose proof (close_fd_spec fd s Hinv) as H. destruct (kb_linux_kernel_close_fd fd s). apply H.
Qed.

Definition fd_reachable (s : file_state) : Prop := exists m ops, s = foldl fd_step (file_state_init m) ops.

Lemma fd_reachable_inv s : fd_reachable s -> fd_inv s.
Proof.
  intros (m & ops & ->). apply foldl_keeps; [|apply fd_init_inv]. intros a b _. apply fd_step_inv.
Qed.

(** In every reachable state the descriptor table is a finite map from
    numbers to files with at most 256 entries: fget is look-up; fd_install is
    insertion (dropped only when the number is new and the table full); close_fd
    is deletion, answering -EBADF exactly for numbers not in the map; and
    get_unused_fd_flags inserts an empty entry under a new number. *)
Theorem fd_table_is_a_map s :
  fd_reachable s ->
  (size (fd_map s) <= 256)%nat /\
  (forall fd, kb_linux_kernel_fget fd s = default 0 (fd_map s !! fd)) /\
  (forall fd file, fd_map (kb_linux_kernel_fd_install fd file s) =
     if decide (fd_map s !! fd = None /\ size (fd_map s) = 256%nat) then fd_map s
     else <[ fd := file ]> (fd_map s)) /\
  (forall fd, let '(t, r) := kb_linux_kernel_close_fd fd s in
     r = (if decide (fd_map s !! fd = None) then -9 else 0) /\ fd_map t = delete fd (fd_map s)).
Proof.
  intros Hs. apply fd_reachable_inv in Hs. split_and!.
  - by apply fd_map_size_le.
  - intros fd. by apply fget_spec.
  - intros fd file. by apply fd_install_spec.
  - intros fd. pose proof (close_fd_spec fd s Hs) as H. destruct (kb_linux_kernel_close_fd fd s). apply H.
Qed.

(** The search for an unused descriptor always comes to an end with the right
    answer: its 256 steps visit every number from 3 to 258 once, so it reserves a
    number that was not in use whenever fewer than 256 descriptors are open, and
    answers -EMFILE, reserving nothing, exactly when 256 are. *)
Theorem unused_fd_found_iff_room s :
  fd_reachable s ->
  let '(t, r) := kb_linux_kernel_get_unused_fd_flags s in
  if decide (size (fd_map s) = 256%nat) then r = -24 /\ fd_map t = fd_map s
  else 3 <= r < 259 /\ fd_map s !! r = None /\ fd_map t = <[ r := 0 ]> (fd_map s).
Proof.
  intros Hs. apply fd_reachable_inv in Hs. pose proof (get_unused_fd_spec s Hs) as H.
  destruct (kb_linux_kernel_get_unused_fd_flags s). apply H.
Qed.

Definition fd_sample_ops : list fd_op := [OpUnusedFd; OpUnusedFd; OpInstall 4 0x5000; OpInstall 77 0x6000; OpCloseFd 3].

Lemma fd_table_is_a_map_witness :
  let s := foldl fd_step (file_state_init ∅) fd_sample_ops in
  fd_map s = <[ 4 := 0x5000 ]> {[ 77 := 0x6000 ]} /\
  (size (fd_map s) <= 256)%nat /\
  (forall fd, kb_linux_kernel_fget fd s = default 0 (fd_map s !! fd)) /\
  (forall fd file, fd_map (kb_linux_kernel_fd_install fd file s) =
     if decide (fd_map s !! fd = None /\ size (fd_map s) = 256%nat) then fd_map s
     else <[ fd := file ]> (fd_map s)) /\
  (forall fd, let '(t, r) := kb_linux_kernel_close_fd fd s in
     r = (if decide (fd_map s !! fd = None) then -9 else 0) /\ fd_map t = delete fd (fd_map s)).
Proof.
  split; [vm_compute; reflexivity|].
  apply (fd_table_is_a_map (foldl fd_step (file_state_init ∅) fd_sample_ops)).
  by exists ∅, fd_sample_ops.
Defined.

Lemma unused_fd_found_iff_room_witness :
  let s := foldl fd_step (file_state_init ∅) fd_sample_ops in
  let '(t, r) := kb_linux_kernel_get_unused_fd_flags s in
  r = 5 /\
  if decide (size (fd_map s) = 256%nat) then r = -24 /\ fd_map t = fd_map s
  else 3 <= r < 259 /\ fd_map s !! r = None /\ fd_map t = <[ r := 0 ]> (fd_map s).
Proof.
  pose proof (unused_fd_found_iff_room (foldl fd_step (file_state_init ∅) fd_sample_ops)) as H.
  assert ((kb_linux_kernel_get_unused_fd_flags (foldl fd_step (file_state_init ∅) fd_sample_ops)).2 = 5) as Hr
    by (vm_compute; reflexivity).
  cbn zeta. destruct (kb_linux_kernel_get_unused_fd_flags _) as [t r]. cbn [snd] in Hr.
  split; [exact Hr|]. apply H. by exists ∅, fd_sample_ops.
Defined.

(** ** Memory areas *)

(** Records are added to free slots and never change. *)
Definition vmas_grow (s t : file_state) : Prop :=
  forall i r, kb_vma_records s !! i = Some r -> vm_active r = true -> kb_vma_records t !! i = Some r.

Lemma vmas_grow_same s t : kb_vma_records t = kb_vma_records s -> vmas_grow s t.
Proof. intros H i r. by rewrite H. Qed.

Lemma vmas_grow_trans s t u : vmas_grow s t -> vmas_grow t u -> vmas_grow s u.
Proof. intros H1 H2 i r Hr Ha. apply H2; [by apply H1|done]. Qed.

Lemma page_start addr : Z.ldiff addr 0xfff = addr - addr mod 4096.
Proof.
  change 0xfff with (Z.ones 12). rewrite Z.ldiff_ones_r, Z.shiftr_div_pow2, Z.shiftl_mul_pow2 by lia.
  Z.to_euclidean_division_equations. lia.
Qed.

Lemma find_vma_record_spec mm addr vma page s :
  0 <= addr < 2 ^ 64 - 4096 ->
  let '(t, o) := kb_linux_kernel_find_vma_record mm addr vma page s in
  vmas_grow s t /\
  match o with
  | Some i => exists r, kb_vma_records t !! i = Some r /\ vma_covers mm addr r = true
  | None => Forall (fun r => vma_covers mm addr r = false) (kb_vma_records s) /\
      (vma = 0 \/ page = 0 \/ Forall (fun r => vm_active r = true) (kb_vma_records s))
  end.
Proof.
  intros Haddr. unfold kb_linux_kernel_find_vma_record.
  destruct (first_index (vma_covers mm addr) _) as [i|] eqn:Hi.
  - split; [by apply vmas_grow_same|]. apply first_index_Some in Hi as (r & Hr & Hc & _). eauto.
  - apply first_index_None in Hi. unfold kb_alloc_vma_record. cbn [Z.eqb].
    destruct (first_index (fun r => negb (vm_active r)) _) as [i|] eqn:Hfree.
    + apply first_index_Some in Hfree as (r & Hr & Ha & _). boolify.
      destruct ((vma =? 0) || (page =? 0)) eqn:Hz.
      * split; [by apply vmas_grow_same|]. split; [done|]. apply orb_true_iff in Hz as [Hz|Hz]; boolify; auto.
      * split.
        { intros j x Hx Hax. cbn. rewrite list_lookup_insert_ne; [done|]. intros ->. congruence. }
        eexists. split; [cbn; apply list_lookup_insert_eq; by apply lookup_lt_Some in Hr|].
        unfold vma_covers. cbn. rewrite Z.eqb_refl, orb_true_r, page_start. cbn.
        apply andb_true_iff. pose proof (Z.mod_pos_bound addr 4096).
        rewrite u64_small by (unfold is_u64; lia). split; [apply Z.leb_le; lia|apply Z.ltb_lt; lia].
    + split; [by apply vmas_grow_same|]. split; [done|]. right. right. apply first_index_None in Hfree.
      eapply Forall_impl; [exact Hfree|]. intros x Hx. cbn in Hx. by boolify.
Qed.

(** Finding an address twice finds the same record, whatever [calloc] says. *)
Lemma find_vma_record_again mm addr vma page vma' page' s t i :
  0 <= addr < 2 ^ 64 - 4096 ->
  kb_linux_kernel_find_vma_record mm addr vma page s = (t, Some i) ->
  kb_linux_kernel_find_vma_record mm addr vma' page' t = (t, Some i).
Proof.
  intros Haddr Hf. pose proof (find_vma_record_spec mm addr vma page s Haddr) as H. rewrite Hf in H.
  destruct H as [Hgrow (r & Hr & Hc)]. unfold kb_linux_kernel_find_vma_record in Hf |- *.
  destruct (first_index (vma_covers mm addr) (kb_vma_records s)) as [k|] eqn:Hk.
  - injection Hf as <- <-. by rewrite Hk.
  - apply first_index_None in Hk. assert (first_index (vma_covers mm addr) (kb_vma_records t) = Some i) as ->; [|done].
    apply first_index_Some. exists r. split_and!; [done|done|]. intros j y Hj Hji.
    unfold kb_alloc_vma_record in Hf. cbn [Z.eqb] in Hf.
    destruct (first_index _ (kb_vma_records s)) as [k|]; [|done]. destruct (_ || _); [done|].
    apply pair_equal_spec in Hf as [<- Hki]. injection Hki as ->. cbn in Hj.
    rewrite list_lookup_insert_ne in Hj by lia. by apply (Forall_lookup_1 _ _ _ _ Hk Hj).
Qed.

(** The areas that hold the pages of a pinned range. *)
Lemma pin_pages_loop_spec n i mm start calloc s :
  0 <= i -> 0 <= start -> start + 4096 * (i + Z.of_nat n) < 2 ^ 64 - 4096 ->
  let '(t, pages) := pin_pages_loop n i mm start calloc s in
  vmas_grow s t /\ length pages = n /\
  forall k p, pages !! k = Some p -> p <> 0 ->
    exists j r, kb_vma_records t !! j = Some r /\ vm_page r = p /\
      vma_covers mm (start + 4096 * (i + Z.of_nat k)) r = true.
Proof.
  revert i s. induction n as [|n IH]; intros i s Hi Hstart Hend; cbn [pin_pages_loop].
  - split_and!; [by apply vmas_grow_same|done|]. intros k p Hk. by rewrite lookup_nil in Hk.
  - destruct (calloc i) as [vma page].
    assert (u64 (start + u64 (Z.shiftl i 12)) = start + 4096 * i) as ->.
    { rewrite Z.shiftl_mul_pow2 by lia. ilia. }
    pose proof (find_vma_record_spec mm (start + 4096 * i) vma page s ltac:(lia)) as Hf.
    destruct (kb_linux_kernel_find_vma_record mm (start + 4096 * i) vma page s) as [s1 o].
    destruct Hf as [Hgrow Ho]. specialize (IH (i + 1) s1 ltac:(lia) ltac:(lia) ltac:(lia)).
    destruct (pin_pages_loop n (i + 1) mm start calloc s1) as [t pages]. destruct IH as (Hg2 & Hlen & Hall).
    split_and!; [by eapply vmas_grow_trans|cbn; lia|]. intros [|k] p Hk Hp.
    + cbn in Hk. injection Hk as <-. destruct o as [j|]; [|done]. destruct Ho as (r & Hr & Hc).
      exists j, r. unfold vma_at. rewrite Hr, Z.add_0_r. split_and!; [|done|done].
      apply Hg2; [done|]. unfold vma_covers in Hc. by boolify.
    + destruct (Hall k p Hk Hp) as (j & r & Hr & Hpage & Hc). exists j, r. split_and!; [done|done|].
      by replace (i + Z.of_nat (S k)) with (i + 1 + Z.of_nat k) by lia.
Qed.

(** find_vma on an address (below the last page of the address space) answers
    with an area that contains it, or fails only when no area contains it and
    none can be made; what it answered it answers again; and pin_user_pages
    stores one entry per page, each the page of an area that contains that
    page's address, or NULL. *)
Theorem vma_lookup_covers mm addr vma page s :
  0 <= addr < 2 ^ 64 - 4096 ->
  (let '(t, o) := kb_linux_kernel_find_vma_record mm addr vma page s in
   vmas_grow s t /\
   match o with
   | Some i => exists r, kb_vma_records t !! i = Some r /\ vma_covers mm addr r = true /\
       forall vma' page', kb_linux_kernel_find_vma_record mm addr vma' page' t = (t, Some i)
   | None => Forall (fun r => vma_covers mm addr r = false) (kb_vma_records s) /\
       (vma = 0 \/ page = 0 \/ Forall (fun r => vm_active r = true) (kb_vma_records s))
   end) /\
  forall nr calloc, 0 < nr < 2 ^ 63 -> addr + 4096 * nr < 2 ^ 64 - 4096 ->
    let '(t, pages, r) := kb_linux_kernel_pin_user_pages_common mm addr nr calloc s in
    r = nr /\ Z.of_nat (length pages) = nr /\
    forall k p, pages !! k = Some p -> p <> 0 ->
      exists j v, kb_vma_records t !! j = Some v /\ vm_page v = p /\
        vma_covers mm (addr + 4096 * Z.of_nat k) v = true.
Proof.
  intros Haddr. split.
  - pose proof (find_vma_record_spec mm addr vma page s Haddr) as H.
    destruct (kb_linux_kernel_find_vma_record mm addr vma page s) as [t [i|]] eqn:Hf; [|done].
    destruct H as [Hg (r & Hr & Hc)]. split; [done|]. exists r. split_and!; [done|done|].
    intros vma' page'. by apply (find_vma_record_again mm addr vma page vma' page' s t i).
  - intros nr calloc Hnr Hend. unfold kb_linux_kernel_pin_user_pages_common.
    rewrite (proj2 (Z.eqb_neq _ _)) by lia.
    pose proof (pin_pages_loop_spec (Z.to_nat nr) 0 mm addr calloc s ltac:(lia) ltac:(lia) ltac:(lia)) as H.
    destruct (pin_pages_loop _ _ _ _ _ _) as [t pages]. destruct H as (_ & Hlen & Hall).
    split_and!; [ilia|lia|]. intros k p Hk Hp. by apply Hall in Hk.
Qed.

Definition vma_sample : file_state :=
  (kb_linux_kernel_find_vma 0x40 0x7000123 0x9000 0xa000 (file_state_init ∅)).1.

Lemma vma_lookup_covers_witness :
  (let '(t, o) := kb_linux_kernel_find_vma_record 0x40 0x7000fff 0 0 vma_sample in
   vmas_grow vma_sample t /\
   match o with
   | Some i => exists r, kb_vma_records t !! i = Some r /\ vma_covers 0x40 0x7000fff r = true /\
       forall vma' page', kb_linux_kernel_find_vma_record 0x40 0x7000fff vma' page' t = (t, Some i)
   | None => Forall (fun r => vma_covers 0x40 0x7000fff r = false) (kb_vma_records vma_sample) /\
       (0 = 0 \/ 0 = 0 \/ Forall (fun r => vm_active r = true) (kb_vma_records vma_sample))
   end) /\
  forall nr calloc, 0 < nr < 2 ^ 63 -> 0x7000fff + 4096 * nr < 2 ^ 64 - 4096 ->
    let '(t, pages, r) := kb_linux_kernel_pin_user_pages_common 0x40 0x7000fff nr calloc vma_sample in
    r = nr /\ Z.of_nat (length pages) = nr /\
    forall k p, pages !! k = Some p -> p <> 0 ->
      exists j v, kb_vma_records t !! j = Some v /\ vm_page v = p /\
        vma_covers 0x40 (0x7000fff + 4096 * Z.of_nat k) v = true.
Proof. apply (vma_lookup_covers 0x40 0x7000fff 0 0 vma_sample). lia. Defined.

(** A failed allocation leaves a NULL page, and the call still counts the page as
    pinned. *)
Lemma pin_user_pages_counts_missing_pages :
  let '(_, pages, r) := kb_linux_kernel_pin_user_pages 0x1000 2 (fun _ => (0, 0)) (file_state_init ∅) in
  pages = [0; 0] /\ r = 2.
Proof. vm_compute. done. Qed.

(** For an address in the last page the end of the area wraps to 0: the area made
    for it does not contain it, and every further look-up makes another one. *)
Lemma last_page_vma_is_never_found :
  let f := kb_linux_kernel_find_vma_record 0 UINT64_MAX 0x9000 0xa000 in
  let '(s1, o1) := f (file_state_init ∅) in
  let '(s2, o2) := f s1 in
  o1 = Some 0%nat /\ o2 = Some 1%nat /\ vma_covers 0 UINT64_MAX (vma_at s1 0) = false.
Proof. vm_compute. done. Qed.

(** ** Files *)

(** The blocks of the files that are open. *)
Definition file_blocks (s : file_state) : list Z :=
  mbind (fun r => if ff_active r then [ff_path r; ff_file r; ff_mapping r; ff_inode r] else [])
    (kb_fake_file_records s).

Lemma blocks_replace l i r r' :
  l !! i = Some r ->
  mbind (fun r => if ff_active r then [ff_path r; ff_file r; ff_mapping r; ff_inode r] else []) (<[ i := r' ]> l) ++
    (if ff_active r then [ff_path r; ff_file r; ff_mapping r; ff_inode r] else []) ≡ₚ
  mbind (fun r => if ff_active r then [ff_path r; ff_file r; ff_mapping r; ff_inode r] else []) l ++
    (if ff_active r' then [ff_path r'; ff_file r'; ff_mapping r'; ff_inode r'] else []).
Proof.
  intros Hi. rewrite <- (take_drop_middle l i r Hi) at 2.
  rewrite insert_take_drop by (by apply lookup_lt_Some in Hi).
  rewrite !bind_app, !bind_cons. solve_Permutation.
Qed.

(** The four blocks of a file go from the allocator to the table and from the
    table to free exactly once: opening adds them to the blocks the table owns
    or, when one of them could not be had, frees them all (without a free slot
    none is allocated); closing an open file moves its blocks to
    free, and closing a file that is not open, or twice, frees nothing. *)
Theorem file_blocks_freed_once text a file s :
  (let '(t, f) := kb_alloc_fake_file text a s in
   f <> 0 /\ ft_freed t = ft_freed s /\
     file_blocks t ≡ₚ [fa_path a; fa_file a; fa_mapping a; fa_inode a] ++ file_blocks s \/
   f = 0 /\ file_blocks t = file_blocks s /\
     (t = s /\ Forall (fun r => ff_active r = true) (kb_fake_file_records s) \/
      ft_freed t = [fa_path a; fa_file a; fa_mapping a; fa_inode a] ++ ft_freed s)) /\
  (let t := kb_release_fake_file file s in
   ft_freed t ++ file_blocks t ≡ₚ ft_freed s ++ file_blocks s /\
   (Forall (fun r => ff_active r && (ff_file r =? file) = false) (kb_fake_file_records s) -> t = s)).
Proof.
  split.
  - unfold kb_alloc_fake_file. destruct (first_index _ _) as [i|] eqn:Hi.
    2: { right. split_and!; [done|done|]. left. split; [done|]. apply first_index_None in Hi.
         eapply Forall_impl; [exact Hi|]. intros r Hr. by apply negb_false_iff. }
    apply first_index_Some in Hi as (r & Hr & Ha & _). boolify.
    destruct (_ || _) eqn:Hz; [right; split_and!; [done|done|by right]|]. boolify. left. split_and!; [done|done|].
    pose proof (blocks_replace _ i r (mk_file true (fa_inode a) (fa_mapping a) (fa_file a) (fa_path a)) Hr) as HP.
    rewrite Ha, app_nil_r in HP. unfold file_blocks. cbn in HP |- *.
    rewrite HP. solve_Permutation.
  - cbn zeta. unfold kb_release_fake_file. destruct (Z.eqb_spec file 0) as [->|]; [done|].
    destruct (list_find _ _) as [[i r]|] eqn:Hf; [|done].
    apply list_find_Some in Hf as (Hr & Hact & _). apply andb_true_iff in Hact as [Ha Hfile]. split.
    + pose proof (blocks_replace _ i r zero_file Hr) as HP. rewrite Ha in HP. cbn [ff_active zero_file] in HP.
      rewrite app_nil_r in HP. unfold file_blocks. cbn in HP |- *. rewrite <- HP. solve_Permutation.
    + intros Hnone. pose proof (Forall_lookup_1 _ _ _ _ Hnone Hr) as HN. cbn in HN. by rewrite Ha, Hfile in HN.
Qed.
