(* ===== verification/UsbCore.v ===== *)
(** * USB core records (src/src/linux_subsystem/usb/usb.c and port_state.c)

    Singly linked lists of what the modules' host controllers, URBs, devices,
    interfaces, endpoints and drivers are known to be; new records go to the
    front.  Removing a controller removes what hangs off it, and interfaces and
    endpoints are passed on to mass storage (UsbStorage.v), whose state is part of
    this one; mass storage in turn enumerates the endpoints kept here.

    A record is found by its key, the address of the object it describes; host
    controller records are also handed out by address ([h_ptr]).  [kb_kzalloc]
    succeeds or fails by arguments.  [for_each] callbacks fold over their context
    and do not change the list they walk. *)

From S2P Require Import Prelude Memory BlockDevice UsbStorage.

Definition KB_USB_HUB_STATUS_MAX : Z := 8.
Definition KB_USB_DEVPATH_MAX : Z := 32.

(** ** Records *)

Record kb_usb_hcd_record := mk_hcd {
  h_ptr : Z;
  h_active : bool;
  h_primary : bool;
  h_owner : Z;
  h_driver : Z;
  h_hcd : Z;
  h_primary_hcd : Z;
  h_regs : Z;
  h_owns_storage : bool;
  h_irq : Z;
  h_irq_registered : bool;
  h_added : bool;
  h_irq_count : Z;
  h_died_count : Z;
  h_lost_power_count : Z;
  h_root_hub_poll_count : Z;
  h_root_hub_resume_count : Z;
  h_port_resume_start_count : Z;
  h_port_resume_end_count : Z;
  h_wakeup_notification_count : Z;
  h_remote_wakeup_quirk_count : Z;
  h_hub_event_bits : Z;
}.
#[export] Instance hcd_eta : Settable kb_usb_hcd_record := fun r =>
  mk_hcd (h_ptr r) (h_active r) (h_primary r) (h_owner r) (h_driver r) (h_hcd r) (h_primary_hcd r) (h_regs r)
    (h_owns_storage r) (h_irq r) (h_irq_registered r) (h_added r) (h_irq_count r) (h_died_count r)
    (h_lost_power_count r) (h_root_hub_poll_count r) (h_root_hub_resume_count r)
    (h_port_resume_start_count r) (h_port_resume_end_count r) (h_wakeup_notification_count r)
    (h_remote_wakeup_quirk_count r) (h_hub_event_bits r).

(** A zeroed record at address [p] made active for [hcd]. *)
Definition new_hcd (p hcd : Z) (owns : bool) : kb_usb_hcd_record :=
  mk_hcd p true false 0 0 hcd 0 0 owns 0 false false 0 0 0 0 0 0 0 0 0 0.

Record kb_usb_urb_record := mk_urb {
  u_active : bool;
  u_hcd : Z;
  u_urb : Z;
  u_transfer_buffer : Z;
  u_setup_packet : Z;
  u_transfer_dma : Z;
  u_setup_dma : Z;
  u_transfer_buffer_length : Z;
  u_actual_length : Z;
  u_transfer_flags : Z;
  u_dma_map_flags : Z;
  u_status : Z;
  u_linked : bool;
  u_mapped : bool;
  u_link_count : Z;
  u_unlink_count : Z;
  u_map_count : Z;
  u_unmap_count : Z;
  u_submit_count : Z;
  u_kill_count : Z;
  u_giveback_count : Z;
  u_last_unlink_status : Z;
  u_last_submit_status : Z;
  u_last_giveback_status : Z;
  u_last_mem_flags : Z;
  u_last_submit_mem_flags : Z;
}.
#[export] Instance urb_eta : Settable kb_usb_urb_record := fun r =>
  mk_urb (u_active r) (u_hcd r) (u_urb r) (u_transfer_buffer r) (u_setup_packet r) (u_transfer_dma r)
    (u_setup_dma r) (u_transfer_buffer_length r) (u_actual_length r) (u_transfer_flags r)
    (u_dma_map_flags r) (u_status r) (u_linked r) (u_mapped r) (u_link_count r) (u_unlink_count r)
    (u_map_count r) (u_unmap_count r) (u_submit_count r) (u_kill_count r) (u_giveback_count r)
    (u_last_unlink_status r) (u_last_submit_status r) (u_last_giveback_status r)
    (u_last_mem_flags r) (u_last_submit_mem_flags r).

Definition new_urb (hcd urb : Z) : kb_usb_urb_record :=
  mk_urb true hcd urb 0 0 0 0 0 0 0 0 0 false false 0 0 0 0 0 0 0 0 0 0 0 0.

Record kb_usb_urb_dma_update := mk_urb_dma_update {
  du_transfer_buffer : Z;
  du_setup_packet : Z;
  du_transfer_dma : Z;
  du_setup_dma : Z;
  du_transfer_buffer_length : Z;
  du_actual_length : Z;
  du_transfer_flags : Z;
  du_dma_map_flags : Z;
  du_mem_flags : Z;
}.

(** A device snapshot; an update has the same fields. *)
Record kb_usb_device_snapshot := mk_udevice {
  ud_hcd : Z;
  ud_udev : Z;
  ud_linux_device : Z;
  ud_parent_linux_device : Z;
  ud_bus : Z;
  ud_active_config : Z;
  ud_devnum : Z;
  ud_portnum : Z;
  ud_speed : Z;
  ud_state : Z;
  ud_vendor_id : Z;
  ud_product_id : Z;
  ud_bcd_device : Z;
  ud_device_class : Z;
  ud_device_subclass : Z;
  ud_device_protocol : Z;
  ud_max_packet_size0 : Z;
  ud_configuration_value : Z;
  ud_interface_count : Z;
  ud_devpath : list Z;
}.
#[export] Instance udevice_eta : Settable kb_usb_device_snapshot := fun r =>
  mk_udevice (ud_hcd r) (ud_udev r) (ud_linux_device r) (ud_parent_linux_device r) (ud_bus r)
    (ud_active_config r) (ud_devnum r) (ud_portnum r) (ud_speed r) (ud_state r) (ud_vendor_id r)
    (ud_product_id r) (ud_bcd_device r) (ud_device_class r) (ud_device_subclass r)
    (ud_device_protocol r) (ud_max_packet_size0 r) (ud_configuration_value r) (ud_interface_count r)
    (ud_devpath r).
Definition zero_udevice : kb_usb_device_snapshot :=
  mk_udevice 0 0 0 0 0 0 0 0 0 0 0 0 0 0 0 0 0 0 0 [].

(** An interface snapshot: the fields mass storage reads and the others. *)
Record usb_interface := mk_usb_interface {
  ui_view : kb_usb_interface_snapshot;
  ui_cur_altsetting : Z;
  ui_alternate_setting : Z;
  ui_endpoint_count : Z;
}.

Record usb_endpoint := mk_usb_endpoint {
  ue_view : kb_usb_endpoint_snapshot;
  ue_udev : Z;
  ue_endpoint : Z;
  ue_attributes : Z;
  ue_interval : Z;
  ue_max_packet_size : Z;
}.

Definition ui_interface (i : usb_interface) : Z := if_interface (ui_view i).
Definition ui_udev (i : usb_interface) : Z := if_udev (ui_view i).
Definition ue_interface (e : usb_endpoint) : Z := ep_interface (ue_view e).

Record kb_usb_driver_snapshot := mk_usb_driver {
  dr_driver : Z;
  dr_owner : Z;
  dr_registered : bool;
  dr_last_register_status : Z;
  dr_register_count : Z;
  dr_deregister_count : Z;
  dr_module_name : list Z;
}.
#[export] Instance usb_driver_eta : Settable kb_usb_driver_snapshot := fun r =>
  mk_usb_driver (dr_driver r) (dr_owner r) (dr_registered r) (dr_last_register_status r)
    (dr_register_count r) (dr_deregister_count r) (dr_module_name r).

(** Every record of the last four lists is active: it is made so before it is
    linked and cleared only after it is unlinked. *)
Record usb_state := mk_usb_state {
  usb_hcd_records : list kb_usb_hcd_record;
  usb_urb_records : list kb_usb_urb_record;
  usb_device_records : list kb_usb_device_snapshot;
  usb_interface_records : list usb_interface;
  usb_endpoint_records : list usb_endpoint;
  usb_driver_records : list kb_usb_driver_snapshot;
  usb_storage : storage_state;
  usb_freed : list Z;
}.
#[export] Instance usb_state_eta : Settable usb_state := fun r =>
  mk_usb_state (usb_hcd_records r) (usb_urb_records r) (usb_device_records r) (usb_interface_records r)
    (usb_endpoint_records r) (usb_driver_records r) (usb_storage r) (usb_freed r).

Definition usb_pointer_is_error_or_low (value : Z) : bool :=
  (value <? 4096) || (UINT64_MAX - 4095 <=? value).

(** ** Lists keyed by an address *)

Section keyed.
Context {A : Type} (key : A -> Z).

(** The [*_record_find] functions. *)
Definition find_key (k : Z) (l : list A) : option nat :=
  if k =? 0 then None else first_index (fun r => key r =? k) l.

(** The [*_record_for] functions: find, or link a new record in front. *)
Definition for_key (fresh : Z -> A) (k : Z) (zalloc : bool) (l : list A) : list A * option nat :=
  match find_key k l with
  | Some i => (l, Some i)
  | None => if (k =? 0) || negb zalloc then (l, None) else (fresh k :: l, Some 0%nat)
  end.

(** Unlinking the first record that passes a test. *)
Fixpoint unlink_first (p : A -> bool) (l : list A) : list A :=
  match l with
  | [] => []
  | r :: l => if p r then l else r :: unlink_first p l
  end.

(** The [for_each] loops. *)
Fixpoint for_each_record {C} (callback : A -> C -> C * Z) (l : list A) (ctx : C) (visited : Z) : C * Z :=
  match l with
  | [] => (ctx, visited)
  | r :: l =>
      let '(ctx, stop) := callback r ctx in
      if stop =? 0 then for_each_record callback l ctx (visited + 1) else (ctx, visited + 1)
  end.
End keyed.

(** ** URBs *)

Definition urb_record_find (urb : Z) (s : usb_state) : option nat :=
  if usb_pointer_is_error_or_low urb then None
  else first_index (fun r => u_active r && (u_urb r =? urb)) (usb_urb_records s).

Definition with_urb (i : nat) (f : kb_usb_urb_record -> kb_usb_urb_record) (s : usb_state) : usb_state :=
  s <| usb_urb_records ::= alter f i |>.

Definition urb_record_for (hcd urb : Z) (zalloc : bool) (s : usb_state) : usb_state * option nat :=
  if usb_pointer_is_error_or_low urb then (s, None)
  else match urb_record_find urb s with
       | Some i => (with_urb i (fun r => if u_hcd r =? 0 then r <| u_hcd := hcd |> else r) s, Some i)
       | None => if negb zalloc then (s, None)
                 else (s <| usb_urb_records ::= cons (new_urb hcd urb) |>, Some 0%nat)
       end.

Definition urb_records_release_for_hcd (hcd : Z) (s : usb_state) : usb_state :=
  if usb_pointer_is_error_or_low hcd then s
  else s <| usb_urb_records ::= List.filter (fun r => negb (u_active r && (u_hcd r =? hcd))) |>.

(** The functions that answer with a status need the controller as well. *)
Definition urb_update_status (hcd urb : Z) (zalloc : bool) (f : kb_usb_urb_record -> kb_usb_urb_record)
    (s : usb_state) : usb_state * Z :=
  match urb_record_for hcd urb zalloc s with
  | (s, None) => (s, -22)
  | (s, Some i) => if hcd =? 0 then (s, -22) else (with_urb i f s, 0)
  end.

Definition urb_update (hcd urb : Z) (zalloc : bool) (f : kb_usb_urb_record -> kb_usb_urb_record)
    (s : usb_state) : usb_state :=
  match urb_record_for hcd urb zalloc s with
  | (s, None) => s
  | (s, Some i) => with_urb i (fun r => f (if u_hcd r =? 0 then r <| u_hcd := hcd |> else r)) s
  end.

Definition incr (n : Z) : Z := u32 (n + 1).

Definition kb_usb_subsystem_urb_link (hcd urb : Z) (zalloc : bool) (s : usb_state) : usb_state * Z :=
  urb_update_status hcd urb zalloc (fun r =>
    r <| u_hcd := hcd |> <| u_linked := true |> <| u_link_count ::= incr |>) s.

Definition kb_usb_subsystem_urb_unlink (hcd urb status : Z) (zalloc : bool) (s : usb_state) : usb_state :=
  urb_update hcd urb zalloc (fun r =>
    r <| u_linked := false |> <| u_last_unlink_status := status |> <| u_unlink_count ::= incr |>) s.

Definition kb_usb_subsystem_urb_check_unlink (hcd urb status : Z) (zalloc : bool) (s : usb_state)
    : usb_state * Z :=
  urb_update_status hcd urb zalloc (fun r => r <| u_last_unlink_status := status |>) s.

Definition kb_usb_subsystem_urb_map_dma (hcd urb : Z) (update : option kb_usb_urb_dma_update) (zalloc : bool)
    (s : usb_state) : usb_state * Z :=
  urb_update_status hcd urb zalloc (fun r =>
    let r := r <| u_hcd := hcd |> <| u_mapped := true |> in
    let r := match update with
             | None => r
             | Some d => r <| u_transfer_buffer := du_transfer_buffer d |>
                           <| u_setup_packet := du_setup_packet d |>
                           <| u_transfer_dma := du_transfer_dma d |> <| u_setup_dma := du_setup_dma d |>
                           <| u_transfer_buffer_length := du_transfer_buffer_length d |>
                           <| u_actual_length := du_actual_length d |>
                           <| u_transfer_flags := du_transfer_flags d |>
                           <| u_dma_map_flags := du_dma_map_flags d |> <| u_status := 0 |>
                           <| u_last_mem_flags := du_mem_flags d |>
             end in
    r <| u_map_count ::= incr |>) s.

Definition kb_usb_subsystem_urb_unmap_dma (hcd urb : Z) (zalloc : bool) (s : usb_state) : usb_state :=
  urb_update hcd urb zalloc (fun r =>
    r <| u_mapped := false |> <| u_dma_map_flags := 0 |> <| u_unmap_count ::= incr |>) s.

Definition kb_usb_subsystem_urb_submit (hcd urb mem_flags status : Z) (zalloc : bool) (s : usb_state)
    : usb_state :=
  urb_update hcd urb zalloc (fun r =>
    r <| u_linked := status =? 0 |> <| u_last_submit_status := status |>
      <| u_last_submit_mem_flags := mem_flags |> <| u_submit_count ::= incr |>) s.

Definition kb_usb_subsystem_urb_kill (hcd urb : Z) (zalloc : bool) (s : usb_state) : usb_state :=
  urb_update hcd urb zalloc (fun r => r <| u_linked := false |> <| u_kill_count ::= incr |>) s.

Definition kb_usb_subsystem_urb_giveback (hcd urb status : Z) (zalloc : bool) (s : usb_state) : usb_state :=
  urb_update hcd urb zalloc (fun r =>
    r <| u_linked := false |> <| u_last_giveback_status := status |> <| u_status := status |>
      <| u_giveback_count ::= incr |>) s.

(** A URB snapshot has the fields of the record. *)
Definition kb_usb_subsystem_urb_snapshot (urb : Z) (out : bool) (s : usb_state) : Z * option kb_usb_urb_record :=
  match urb_record_find urb s with
  | Some i => if out then (0, usb_urb_records s !! i) else (-22, None)
  | None => (-22, None)
  end.

Definition kb_usb_subsystem_urb_count (s : usb_state) : Z :=
  Z.of_nat (length (List.filter u_active (usb_urb_records s))).

Definition kb_usb_subsystem_for_each_urb {C} (callback : option (kb_usb_urb_record -> C -> C * Z)) (ctx : C)
    (s : usb_state) : C * Z :=
  match callback with
  | None => (ctx, 0)
  | Some cb => for_each_record cb (List.filter u_active (usb_urb_records s)) ctx 0
  end.

(** ** Releasing what hangs off an object *)

Definition endpoint_records_release_for_interface (interface : Z) (s : usb_state) : usb_state :=
  if interface =? 0 then s
  else s <| usb_endpoint_records ::= List.filter (fun r => negb (ue_interface r =? interface)) |>.

Definition endpoint_records_release_for_udev (udev : Z) (s : usb_state) : usb_state :=
  if udev =? 0 then s
  else s <| usb_endpoint_records ::= List.filter (fun r => negb (ue_udev r =? udev)) |>.

(** What is done for an interface before its record is unlinked. *)
Definition drop_interface (interface : Z) (s : usb_state) : usb_state :=
  endpoint_records_release_for_interface interface
    (s <| usb_storage ::= fun st => kb_usb_storage_subsystem_remove_interface st interface |>).

(** The cursor loop: [l] is the rest of the list, the result the records kept. *)
Fixpoint interface_release_loop (udev : Z) (l : list usb_interface) (s : usb_state)
    : usb_state * list usb_interface :=
  match l with
  | [] => (s, [])
  | r :: l =>
      if ui_udev r =? udev then interface_release_loop udev l (drop_interface (ui_interface r) s)
      else let '(s, kept) := interface_release_loop udev l s in (s, r :: kept)
  end.

Definition interface_records_release_for_udev (udev : Z) (s : usb_state) : usb_state :=
  if udev =? 0 then s
  else let '(s, kept) := interface_release_loop udev (usb_interface_records s) s in
       s <| usb_interface_records := kept |>.

Definition drop_device (udev : Z) (s : usb_state) : usb_state :=
  endpoint_records_release_for_udev udev (interface_records_release_for_udev udev s).

Fixpoint device_release_loop (hcd : Z) (l : list kb_usb_device_snapshot) (s : usb_state)
    : usb_state * list kb_usb_device_snapshot :=
  match l with
  | [] => (s, [])
  | r :: l =>
      if ud_hcd r =? hcd then device_release_loop hcd l (drop_device (ud_udev r) s)
      else let '(s, kept) := device_release_loop hcd l s in (s, r :: kept)
  end.

Definition device_records_release_for_hcd (hcd : Z) (s : usb_state) : usb_state :=
  if usb_pointer_is_error_or_low hcd then s
  else let '(s, kept) := device_release_loop hcd (usb_device_records s) s in
       s <| usb_device_records := kept |>.

(** ** Host controllers *)

Definition kb_usb_subsystem_hcd_for_hcd (hcd : Z) (s : usb_state) : option nat :=
  if usb_pointer_is_error_or_low hcd then None
  else first_index (fun r => h_active r && (h_hcd r =? hcd)) (usb_hcd_records s).

(** [record] and [storage] are the addresses [kb_kzalloc] returns. *)
Definition kb_usb_subsystem_hcd_alloc (record storage : Z) (s : usb_state) : usb_state * Z :=
  if record =? 0 then (s, 0)
  else if storage =? 0 then (s <| usb_freed ::= cons record |>, 0)
  else (s <| usb_hcd_records ::= cons (new_hcd record storage true) |>, record).

Definition hcd_at (s : usb_state) (i : nat) : Z :=
  match usb_hcd_records s !! i with Some r => h_ptr r | None => 0 end.

Definition kb_usb_subsystem_hcd_track (hcd record : Z) (s : usb_state) : usb_state * Z :=
  if usb_pointer_is_error_or_low hcd then (s, 0)
  else match kb_usb_subsystem_hcd_for_hcd hcd s with
       | Some i => (s, hcd_at s i)
       | None => if record =? 0 then (s, 0)
                 else (s <| usb_hcd_records ::= cons (new_hcd record hcd false) |>, record)
       end.

Definition kb_usb_subsystem_primary_hcd_for_owner (owner : Z) (s : usb_state) : Z :=
  if owner =? 0 then 0
  else match first_index (fun r => h_active r && (h_owner r =? owner) && h_primary r) (usb_hcd_records s) with
       | Some i => hcd_at s i
       | None => 0
       end.

Definition hcd_record_index (record : Z) (s : usb_state) : Z :=
  if record =? 0 then -1
  else match first_index (fun r => h_ptr r =? record) (usb_hcd_records s) with
       | Some i => Z.of_nat i
       | None => -1
       end.

Definition kb_usb_subsystem_hcd_release (record : Z) (s : usb_state) : usb_state :=
  match list_find (fun r => h_ptr r = record) (usb_hcd_records s) with
  | None => s
  | Some (_, r) =>
      if negb (h_active r) then s
      else
        let s := urb_records_release_for_hcd (h_hcd r) (device_records_release_for_hcd (h_hcd r) s) in
        let s := if h_owns_storage r then s <| usb_freed ::= cons (h_hcd r) |> else s in
        s <| usb_hcd_records ::= unlink_first (fun q => h_ptr q =? record) |>
          <| usb_freed ::= cons record |>
  end.

Definition kb_usb_subsystem_for_each_hcd {C} (callback : option (kb_usb_hcd_record -> C -> C * Z)) (ctx : C)
    (s : usb_state) : C * Z :=
  match callback with
  | None => (ctx, 0)
  | Some cb => for_each_record cb
                 (List.filter (fun r => h_active r && negb (h_hcd r =? 0)) (usb_hcd_records s)) ctx 0
  end.

Definition hcd_note (f : kb_usb_hcd_record -> kb_usb_hcd_record) (hcd : Z) (s : usb_state) : usb_state :=
  match kb_usb_subsystem_hcd_for_hcd hcd s with
  | Some i => s <| usb_hcd_records ::= alter f i |>
  | None => s
  end.

Definition kb_usb_subsystem_hcd_note_irq : Z -> usb_state -> usb_state :=
  hcd_note (fun r => r <| h_irq_count ::= incr |>).
Definition kb_usb_subsystem_hcd_note_died : Z -> usb_state -> usb_state :=
  hcd_note (fun r => r <| h_died_count ::= incr |>).
Definition kb_usb_subsystem_hcd_note_lost_power : Z -> usb_state -> usb_state :=
  hcd_note (fun r => r <| h_lost_power_count ::= incr |>).
Definition kb_usb_subsystem_hcd_note_root_hub_poll : Z -> usb_state -> usb_state :=
  hcd_note (fun r => r <| h_root_hub_poll_count ::= incr |>).
Definition kb_usb_subsystem_hcd_note_root_hub_resume : Z -> usb_state -> usb_state :=
  hcd_note (fun r => r <| h_root_hub_resume_count ::= incr |>).
Definition kb_usb_subsystem_hcd_note_port_resume_start : Z -> usb_state -> usb_state :=
  hcd_note (fun r => r <| h_port_resume_start_count ::= incr |>).
Definition kb_usb_subsystem_hcd_note_port_resume_end : Z -> usb_state -> usb_state :=
  hcd_note (fun r => r <| h_port_resume_end_count ::= incr |>).
Definition kb_usb_subsystem_hcd_note_wakeup_notification : Z -> usb_state -> usb_state :=
  hcd_note (fun r => r <| h_wakeup_notification_count ::= incr |>).
Definition kb_usb_subsystem_hcd_note_remote_wakeup_quirk : Z -> usb_state -> usb_state :=
  hcd_note (fun r => r <| h_remote_wakeup_quirk_count ::= incr |>).

(** The snapshot copies fields of the record. *)
Definition kb_usb_subsystem_hcd_snapshot (hcd : Z) (out : bool) (s : usb_state) : Z * option kb_usb_hcd_record :=
  match kb_usb_subsystem_hcd_for_hcd hcd s with
  | Some i => if out then (0, usb_hcd_records s !! i) else (-22, None)
  | None => (-22, None)
  end.

(** ** Root hub events *)

Record kb_usb_hub_event_update := mk_hub_update {
  hu_status : list Z;
  hu_status_len : Z;
  hu_bits : Z;
  hu_new_bits : Z;
  hu_injected_before : Z;
  hu_injected_after : Z;
  hu_slot : Z;
}.
#[export] Instance hub_update_eta : Settable kb_usb_hub_event_update := fun r =>
  mk_hub_update (hu_status r) (hu_status_len r) (hu_bits r) (hu_new_bits r) (hu_injected_before r)
    (hu_injected_after r) (hu_slot r).

Definition zero_hub_update : kb_usb_hub_event_update := mk_hub_update (replicate 8 0) 0 0 0 0 0 (-1).

Definition hub_event_record_for_hcd (hcd record : Z) (s : usb_state) : usb_state * option nat :=
  match kb_usb_subsystem_hcd_for_hcd hcd s with
  | Some i => (s, Some i)
  | None =>
      if usb_pointer_is_error_or_low hcd then (s, None)
      else let '(s, p) := kb_usb_subsystem_hcd_track hcd record s in
           (s, if p =? 0 then None else kb_usb_subsystem_hcd_for_hcd hcd s)
  end.

(** [bits |= status[i] << (i * 8)] for the first eight bytes. *)
Fixpoint hub_status_bits (status : list Z) (i : Z) (limit : nat) : Z :=
  match limit, status with
  | S limit, b :: status => Z.lor (u64 (Z.shiftl b (i * 8))) (hub_status_bits status (i + 1) limit)
  | _, _ => 0
  end.

(** [status] is None for a NULL pointer; the update is returned as stored. *)
Definition kb_usb_subsystem_hub_event_prepare (hcd : Z) (status : option (list Z)) (record : Z) (s : usb_state)
    : usb_state * Z * kb_usb_hub_event_update :=
  match status with
  | None => (s, -22, zero_hub_update)
  | Some status =>
      if (hcd =? 0) || (blen status =? 0) then (s, -22, zero_hub_update)
      else match hub_event_record_for_hcd hcd record s with
           | (s, None) => (s, -12, zero_hub_update)
           | (s, Some i) =>
               let copied := Z.min (blen status) KB_USB_HUB_STATUS_MAX in
               let bits := hub_status_bits status 0 8 in
               let injected_before := match usb_hcd_records s !! i with
                                      | Some r => h_hub_event_bits r | None => 0 end in
               let injected := if bits =? 0 then 0 else injected_before in
               let s := s <| usb_hcd_records ::= alter (fun r => r <| h_hub_event_bits := injected |>) i |> in
               (s, 0, mk_hub_update (splice (replicate 8 0) 0 (slice status 0 copied)) copied bits
                        (Z.ldiff bits injected) injected_before injected (hcd_record_index (hcd_at s i) s))
           end
  end.

Definition kb_usb_subsystem_hub_event_commit (hcd bits record : Z) (update : kb_usb_hub_event_update) (s : usb_state)
    : usb_state * Z * kb_usb_hub_event_update :=
  if hcd =? 0 then (s, -22, update)
  else match hub_event_record_for_hcd hcd record s with
       | (s, None) => (s, -12, update)
       | (s, Some i) =>
           let injected_before := match usb_hcd_records s !! i with
                                  | Some r => h_hub_event_bits r | None => 0 end in
           let injected := Z.lor injected_before bits in
           let s := s <| usb_hcd_records ::= alter (fun r => r <| h_hub_event_bits := injected |>) i |> in
           let update := if hu_slot update <? 0
                         then update <| hu_slot := hcd_record_index (hcd_at s i) s |> else update in
           (s, 0, update <| hu_injected_before := injected_before |> <| hu_injected_after := injected |>)
       end.

(** ** Devices *)

Definition device_record_find (udev : Z) (s : usb_state) : option nat :=
  find_key ud_udev udev (usb_device_records s).

Definition device_record_for (udev : Z) (zalloc : bool) (s : usb_state) : usb_state * option nat :=
  let '(l, i) := for_key ud_udev (fun k => zero_udevice <| ud_udev := k |>) udev zalloc (usb_device_records s) in
  (s <| usb_device_records := l |>, i).

(** snprintf("%s") into a buffer of [n] bytes. *)
Definition clip (n : Z) (text : list Z) : list Z := take (Z.to_nat (n - 1)) text.

Definition kb_usb_subsystem_device_observe (update : option kb_usb_device_snapshot) (zalloc : bool) (s : usb_state)
    : usb_state * Z :=
  match update with
  | None => (s, -22)
  | Some u =>
      if ud_udev u =? 0 then (s, -22)
      else match device_record_for (ud_udev u) zalloc s with
           | (s, None) => (s, -12)
           | (s, Some i) =>
               (s <| usb_device_records ::= alter (fun _ =>
                       u <| ud_devpath := clip KB_USB_DEVPATH_MAX (ud_devpath u) |>) i |>, 0)
           end
  end.

Definition kb_usb_subsystem_device_remove (udev : Z) (s : usb_state) : usb_state :=
  match first_index (fun r => ud_udev r =? udev) (usb_device_records s) with
  | None => s
  | Some _ => drop_device udev s <| usb_device_records ::= unlink_first (fun r => ud_udev r =? udev) |>
  end.

Definition kb_usb_subsystem_device_snapshot (udev : Z) (out : bool) (s : usb_state)
    : Z * option kb_usb_device_snapshot :=
  match device_record_find udev s with
  | Some i => if out then (0, usb_device_records s !! i) else (-22, None)
  | None => (-22, None)
  end.

Definition kb_usb_subsystem_device_count (s : usb_state) : Z := Z.of_nat (length (usb_device_records s)).

Definition kb_usb_subsystem_for_each_device {C} (callback : option (kb_usb_device_snapshot -> C -> C * Z))
    (ctx : C) (s : usb_state) : C * Z :=
  match callback with
  | None => (ctx, 0)
  | Some cb => for_each_record cb (usb_device_records s) ctx 0
  end.

(** ** Endpoints *)

Definition endpoint_record_find (endpoint : Z) (s : usb_state) : option nat :=
  find_key ue_endpoint endpoint (usb_endpoint_records s).

Definition endpoint_record_for (endpoint : Z) (zalloc : bool) (s : usb_state) : usb_state * option nat :=
  let '(l, i) := for_key ue_endpoint (fun k => mk_usb_endpoint (mk_endpoint 0 0 0 0) 0 k 0 0 0)
                   endpoint zalloc (usb_endpoint_records s) in
  (s <| usb_endpoint_records := l |>, i).

(** What mass storage sees of the endpoints, in the order of for_each_endpoint. *)
Definition endpoint_views (s : usb_state) : list kb_usb_endpoint_snapshot :=
  map ue_view (usb_endpoint_records s).

Section observe.
Context (env : option Z) (al : block_allocs).

Definition kb_usb_subsystem_endpoint_observe (update : option usb_endpoint) (zalloc : bool) (s : usb_state)
    : usb_state * Z :=
  match update with
  | None => (s, -22)
  | Some u =>
      if ue_endpoint u =? 0 then (s, -22)
      else match endpoint_record_for (ue_endpoint u) zalloc s with
           | (s, None) => (s, -12)
           | (s, Some i) =>
               let s := s <| usb_endpoint_records ::= alter (fun _ => u) i |> in
               (* observe_endpoint ignores an endpoint without an interface *)
               (if ue_interface u =? 0 then s
                else s <| usb_storage ::= fun st =>
                       kb_usb_storage_subsystem_observe_endpoint st al (Some (ue_view u)) |>, 0)
           end
  end.

Definition kb_usb_subsystem_endpoint_remove (endpoint : Z) (s : usb_state) : usb_state :=
  s <| usb_endpoint_records ::= unlink_first (fun r => ue_endpoint r =? endpoint) |>.

Definition kb_usb_subsystem_endpoint_snapshot (endpoint : Z) (out : bool) (s : usb_state)
    : Z * option usb_endpoint :=
  match endpoint_record_find endpoint s with
  | Some i => if out then (0, usb_endpoint_records s !! i) else (-22, None)
  | None => (-22, None)
  end.

Definition kb_usb_subsystem_endpoint_count (s : usb_state) : Z := Z.of_nat (length (usb_endpoint_records s)).

Definition kb_usb_subsystem_for_each_endpoint {C} (callback : option (usb_endpoint -> C -> C * Z)) (ctx : C)
    (s : usb_state) : C * Z :=
  match callback with
  | None => (ctx, 0)
  | Some cb => for_each_record cb (usb_endpoint_records s) ctx 0
  end.

(** ** Interfaces *)

Definition interface_record_find (interface : Z) (s : usb_state) : option nat :=
  find_key ui_interface interface (usb_interface_records s).

Definition interface_record_for (interface : Z) (zalloc : bool) (s : usb_state) : usb_state * option nat :=
  let '(l, i) := for_key ui_interface (fun k => mk_usb_interface (mk_interface k 0 0 0 0 0 0 0 0 0) 0 0 0)
                   interface zalloc (usb_interface_records s) in
  (s <| usb_interface_records := l |>, i).

Definition kb_usb_subsystem_interface_observe (update : option usb_interface) (zalloc : bool) (s : usb_state)
    : usb_state * Z :=
  match update with
  | None => (s, -22)
  | Some u =>
      if ui_interface u =? 0 then (s, -22)
      else match interface_record_for (ui_interface u) zalloc s with
           | (s, None) => (s, -12)
           | (s, Some i) =>
               let s := s <| usb_interface_records ::= alter (fun _ => u) i |> in
               (s <| usb_storage ::= fun st =>
                    kb_usb_storage_subsystem_observe_interface st env (endpoint_views s) al (Some (ui_view u)) |>, 0)
           end
  end.

Definition kb_usb_subsystem_interface_remove (interface : Z) (s : usb_state) : usb_state :=
  match first_index (fun r => ui_interface r =? interface) (usb_interface_records s) with
  | None => s
  | Some _ => drop_interface interface s
                <| usb_interface_records ::= unlink_first (fun r => ui_interface r =? interface) |>
  end.

Definition kb_usb_subsystem_interface_snapshot (interface : Z) (out : bool) (s : usb_state)
    : Z * option usb_interface :=
  match interface_record_find interface s with
  | Some i => if out then (0, usb_interface_records s !! i) else (-22, None)
  | None => (-22, None)
  end.

Definition kb_usb_subsystem_interface_count (s : usb_state) : Z := Z.of_nat (length (usb_interface_records s)).

Definition kb_usb_subsystem_for_each_interface {C} (callback : option (usb_interface -> C -> C * Z)) (ctx : C)
    (s : usb_state) : C * Z :=
  match callback with
  | None => (ctx, 0)
  | Some cb => for_each_record cb (usb_interface_records s) ctx 0
  end.

(** ** Drivers *)

Definition driver_record_find (driver : Z) (s : usb_state) : option nat :=
  find_key dr_driver driver (usb_driver_records s).

Definition driver_record_for (driver : Z) (zalloc : bool) (s : usb_state) : usb_state * option nat :=
  let '(l, i) := for_key dr_driver (fun k => mk_usb_driver k 0 false 0 0 0 []) driver zalloc
                   (usb_driver_records s) in
  (s <| usb_driver_records := l |>, i).

(** [strstr(name, needle) != NULL] *)
Fixpoint has_substring (needle name : list Z) : bool :=
  bool_decide (take (length needle) name = needle) ||
  match name with
  | [] => false
  | _ :: name => has_substring needle name
  end.

Definition module_name_is_usb_storage (module_name : option (list Z)) : bool :=
  match module_name with
  | None => false
  | Some n => has_substring (cstr "usb-storage") n || has_substring (cstr "usb_storage") n
  end.

Definition kb_usb_subsystem_driver_register (driver owner : Z) (module_name : option (list Z)) (status : Z)
    (zalloc : bool) (als : nat -> block_allocs) (s : usb_state) : usb_state :=
  match driver_record_for driver zalloc s with
  | (s, None) => s
  | (s, Some i) =>
      let s := s <| usb_driver_records ::= alter (fun r =>
                 let r := r <| dr_driver := driver |> <| dr_owner := owner |>
                            <| dr_registered := status =? 0 |> <| dr_last_register_status := status |>
                            <| dr_register_count ::= incr |> in
                 match module_name with
                 | Some n => r <| dr_module_name := clip 64 n |>
                 | None => r
                 end) i |> in
      s <| usb_storage ::= fun st => kb_usb_storage_subsystem_note_driver_registered st (endpoint_views s) als
                                       driver (module_name_is_usb_storage module_name) |>
  end.

Definition kb_usb_subsystem_driver_deregister (driver : Z) (zalloc : bool) (s : usb_state) : usb_state :=
  match driver_record_for driver zalloc s with
  | (s, None) => s
  | (s, Some i) =>
      s <| usb_driver_records ::= alter (fun r =>
             r <| dr_registered := false |> <| dr_deregister_count ::= incr |>) i |>
        <| usb_storage ::= kb_usb_storage_subsystem_note_driver_deregistered |>
  end.

Definition kb_usb_subsystem_driver_snapshot (driver : Z) (out : bool) (s : usb_state)
    : Z * option kb_usb_driver_snapshot :=
  match driver_record_find driver s with
  | Some i => if out then (0, usb_driver_records s !! i) else (-22, None)
  | None => (-22, None)
  end.

Definition kb_usb_subsystem_driver_count (s : usb_state) : Z := Z.of_nat (length (usb_driver_records s)).

Definition kb_usb_subsystem_for_each_driver {C} (callback : option (kb_usb_driver_snapshot -> C -> C * Z))
    (ctx : C) (s : usb_state) : C * Z :=
  match callback with
  | None => (ctx, 0)
  | Some cb => for_each_record cb (usb_driver_records s) ctx 0
  end.
End observe.

(** ** Port states (port_state.c) *)

Record kb_usb_port_state := mk_port_state {
  ps_hcd : Z;
  ps_connected_bits : Z;
  ps_enabled_bits : Z;
  ps_change_bits : Z;
  ps_enable_change_bits : Z;
  ps_reset_change_bits : Z;
  ps_cleared_backend_change_bits : Z;
  ps_cleared_backend_enable_change_bits : Z;
  ps_cleared_backend_reset_change_bits : Z;
  ps_actual_port_for_virtual1 : Z;
}.

Definition kb_usb_port_state_for_hcd (hcd : Z) (zalloc : bool) (l : list kb_usb_port_state)
    : list kb_usb_port_state * option nat :=
  if usb_pointer_is_error_or_low hcd then (l, None)
  else match first_index (fun r => ps_hcd r =? hcd) l with
       | Some i => (l, Some i)
       | None => if negb zalloc then (l, None)
                 else (mk_port_state hcd 0 0 0 0 0 0 0 0 0 :: l, Some 0%nat)
       end.

Definition kb_usb_port_state_release (hcd : Z) (l : list kb_usb_port_state) : list kb_usb_port_state :=
  if usb_pointer_is_error_or_low hcd then l else unlink_first (fun r => ps_hcd r =? hcd) l.
