(* ===== verification/UsbCoreTheorems.v ===== *)
(** * Theorems about the USB core (UsbCore.v)

    Keys stay unique in every list and in the records of mass storage; releasing
    a host controller removes exactly what hangs off it, in this component and in
    mass storage; a root-hub event is delivered once per change; operations on one
    URB do not disturb another. *)

From S2P Require Import Prelude Memory BlockDevice UsbStorage UsbCore.

(** ** Mass-storage records seen from here *)

(** The interface of each storage record, 0 for a free one. *)
Definition ifaces (st : storage_state) : list Z :=
  map (fun r => if active r then sn_interface (snapshot r) else 0) (storage_records (io_world st)).

Definition keys_distinct (l : list Z) : Prop :=
  forall i j k, l !! i = Some k -> l !! j = Some k -> k <> 0 -> i = j.

Lemma ifaces_world st st' : io_world st' = io_world st -> ifaces st' = ifaces st.
Proof. intros H. unfold ifaces. by rewrite H. Qed.

Section block_calls.
Context (st : storage_state).

Lemma world_unregister d : io_world (kb_block_subsystem_disk_unregister st d) = io_world st.
Proof. unfold kb_block_subsystem_disk_unregister, with_disk. by case_match. Qed.
Lemma world_object_free o : io_world (kb_block_subsystem_object_free st o) = io_world st.
Proof. unfold kb_block_subsystem_object_free. by repeat case_match. Qed.
Lemma world_queue_alloc a b c : io_world (kb_block_subsystem_queue_alloc st a b c).1 = io_world st.
Proof. unfold kb_block_subsystem_queue_alloc, queue_state_create. by repeat (case_match; simplify_eq/=). Qed.
Lemma world_disk_alloc a b : io_world (kb_block_subsystem_disk_alloc st a b).1 = io_world st.
Proof. unfold kb_block_subsystem_disk_alloc, disk_state_create. by repeat (case_match; simplify_eq/=). Qed.
Lemma world_set_logical q n : io_world (kb_block_subsystem_queue_set_logical_block_size st q n) = io_world st.
Proof. unfold kb_block_subsystem_queue_set_logical_block_size, set_limit, with_queue. by repeat case_match. Qed.
Lemma world_set_physical q n : io_world (kb_block_subsystem_queue_set_physical_block_size st q n) = io_world st.
Proof. unfold kb_block_subsystem_queue_set_physical_block_size, set_limit, with_queue. by repeat case_match. Qed.
Lemma world_set_io_min q n : io_world (kb_block_subsystem_queue_set_io_min st q n) = io_world st.
Proof. unfold kb_block_subsystem_queue_set_io_min, set_limit, with_queue. by repeat case_match. Qed.
Lemma world_set_max_hw q n : io_world (kb_block_subsystem_queue_set_max_hw_sectors st q n) = io_world st.
Proof. unfold kb_block_subsystem_queue_set_max_hw_sectors, set_limit, with_queue. by repeat case_match. Qed.
Lemma world_set_max_segments q n : io_world (kb_block_subsystem_queue_set_max_segments st q n) = io_world st.
Proof. unfold kb_block_subsystem_queue_set_max_segments, set_limit, with_queue. by repeat case_match. Qed.
Lemma world_attach d q p : io_world (kb_block_subsystem_disk_attach st d q p).1 = io_world st.
Proof. unfold kb_block_subsystem_disk_attach, with_disk. by repeat case_match. Qed.
Lemma world_register p d g : io_world (kb_block_subsystem_disk_register st p d g).1 = io_world st.
Proof. unfold kb_block_subsystem_disk_register, with_disk. by repeat case_match. Qed.
Lemma world_set_capacity d n : io_world (kb_block_subsystem_disk_set_capacity st d n) = io_world st.
Proof. unfold kb_block_subsystem_disk_set_capacity, with_disk. by repeat case_match. Qed.
Lemma world_set_io d c r w : io_world (kb_block_subsystem_disk_set_io st d c r w) = io_world st.
Proof. unfold kb_block_subsystem_disk_set_io, with_disk. by repeat case_match. Qed.
End block_calls.

Create Rewrite HintDb world.
#[export] Hint Rewrite world_unregister world_object_free world_queue_alloc world_disk_alloc world_set_logical
  world_set_physical world_set_io_min world_set_max_hw world_set_max_segments world_attach world_register
  world_set_capacity world_set_io : world.

(** Updates that leave the interface keys alone. *)
Lemma ifaces_set_record st i f :
  (forall r, active (f r) = active r /\ sn_interface (snapshot (f r)) = sn_interface (snapshot r)) ->
  ifaces (st <| io_world ::= fun w => set_record w i f |>) = ifaces st.
Proof.
  intros Hf. unfold ifaces, set_record. cbn.
  rewrite (list_fmap_alter _ _ (fun x => x)).
  - by rewrite list_alter_id.
  - apply Forall_forall. intros r _. destruct (Hf r) as [-> ->]. done.
Qed.

Lemma ifaces_set_snap st i f :
  (forall s, sn_interface (f s) = sn_interface s) -> ifaces (set_snap st i f) = ifaces st.
Proof. intros Hf. apply ifaces_set_record. intros r. split; [done|]. apply Hf. Qed.

Lemma ifaces_release_block st i : ifaces (storage_release_block st i) = ifaces st.
Proof.
  unfold storage_release_block, storage_release_backing.
  rewrite ifaces_set_record by done. rewrite ifaces_set_snap by done. apply ifaces_world.
  autorewrite with world. case_match; by autorewrite with world.
Qed.

Lemma ifaces_ensure_block st al i : ifaces (storage_ensure_block st al i).1 = ifaces st.
Proof.
  unfold storage_ensure_block. case_match; [done|].
  destruct (kb_block_subsystem_queue_alloc st _ _ _) as [st1 q] eqn:Hq.
  destruct (kb_block_subsystem_disk_alloc st1 _ _) as [st2 d] eqn:Hd.
  assert (io_world st2 = io_world st) as H2.
  { apply (f_equal fst) in Hq, Hd. cbn [fst] in Hq, Hd. rewrite <- Hd, <- Hq. by autorewrite with world. }
  clear Hq Hd. case_match; cbn [fst]; [apply ifaces_world; by autorewrite with world|].
  match goal with |- context [kb_block_subsystem_disk_attach ?t d q ?p] =>
    destruct (kb_block_subsystem_disk_attach t d q p) as [st3 r1] eqn:Ha;
    assert (io_world st3 = io_world st) as H3 end.
  { apply (f_equal fst) in Ha. cbn [fst] in Ha. rewrite <- Ha. by autorewrite with world. }
  clear Ha. destruct (negb (r1 =? 0)); cbn [fst]; [apply ifaces_world; by autorewrite with world|].
  match goal with |- context [kb_block_subsystem_disk_register ?t ?x d ?p] =>
    destruct (kb_block_subsystem_disk_register t x d p) as [st4 r2] eqn:Hr;
    assert (io_world st4 = io_world st) as H4 end.
  { apply (f_equal fst) in Hr. cbn [fst] in Hr. rewrite <- Hr. by autorewrite with world. }
  clear Hr. destruct (negb (r2 =? 0)); cbn [fst]; [apply ifaces_world; by autorewrite with world|].
  rewrite ifaces_set_snap by done. destruct (kb_block_subsystem_disk_snapshot _ _ _) as [[x|] ?].
  1: rewrite ifaces_set_snap by done.
  all: apply ifaces_world; by autorewrite with world.
Qed.

Lemma ifaces_collect st eps i : ifaces (storage_collect_endpoints st eps i) = ifaces st.
Proof.
  unfold storage_collect_endpoints. revert st. induction eps as [|e eps IH]; intros st; cbn [foldl]; [done|].
  rewrite IH. unfold endpoint_matches_record, storage_attach_endpoint.
  repeat case_match; try done; by apply ifaces_set_snap.
Qed.

(** A new interface takes a free record; a known one keeps its own. *)
Lemma record_for_interface_keys w env k :
  k <> 0 ->
  let keys w := map (fun r => if active r then sn_interface (snapshot r) else 0) (storage_records w) in
  match record_for_interface w env k with
  | (w', Some i) => keys w' !! i = Some k /\
      (w' = w \/ (k ∉ keys w) /\ keys w' = alter (fun _ => k) i (keys w))
  | (w', None) => w' = w
  end.
Proof.
  intros Hk. cbn zeta. unfold record_for_interface, record_find_by_interface, record_find.
  rewrite (proj2 (Z.eqb_neq _ _) Hk).
  destruct (list_find _ _) as [[i r]|] eqn:Hf; cbn [fmap option_fmap option_map fst].
  - apply list_find_Some in Hf as (Hr & Ha & _). apply andb_true_iff in Ha as [Ha Hi]. boolify.
    split; [|by left]. rewrite list_lookup_fmap, Hr. cbn. by rewrite Ha, Hi.
  - apply list_find_None in Hf. destruct (list_find (fun r => active r = false) _) as [[i r]|] eqn:Hfree; [|done].
    apply list_find_Some in Hfree as (Hr & Hina & _).
    assert (forall g, (forall x, (if active (g x) then sn_interface (snapshot (g x)) else 0) = k) ->
      map (fun r => if active r then sn_interface (snapshot r) else 0) (storage_records (set_record w i g)) =
      alter (fun _ => k) i (map (fun r => if active r then sn_interface (snapshot r) else 0) (storage_records w))) as Hset.
    { intros g Hg. unfold set_record. cbn. rewrite (list_fmap_alter _ g (fun _ => k)); [done|].
      apply Forall_forall. intros x _. apply Hg. }
    rewrite Hset by done. split.
    + by rewrite list_lookup_alter_eq, list_lookup_fmap, Hr.
    + right. split; [|done]. intros Hin. apply list_elem_of_fmap in Hin as (x & Hx & Hin).
      apply list_elem_of_lookup in Hin as [j Hj]. apply (Forall_lookup_1 _ _ _ _ Hf Hj).
      destruct (active x); [|congruence]. cbn. by apply Z.eqb_eq.
Qed.

Lemma keys_distinct_alter l i k : keys_distinct l -> k ∉ l -> keys_distinct (alter (fun _ => k) i l).
Proof.
  intros Hd Hk a b x Ha Hb Hx. apply list_lookup_alter_Some in Ha, Hb.
  assert (forall c, l !! c = Some k -> False) as Hno.
  { intros c Hc. apply Hk. by eapply list_elem_of_lookup_2. }
  destruct Ha as [(-> & ? & _ & ->)|[Hia Ha]], Hb as [(<- & ? & _ & ?)|[Hib Hb]]; subst; try done.
  - by destruct (Hno b).
  - by destruct (Hno a).
  - by apply (Hd a b x).
Qed.

(** Observing an interface keeps the storage keys distinct. *)
Lemma observe_interface_distinct st env eps al f :
  keys_distinct (ifaces st) -> if_interface f <> 0 ->
  keys_distinct (ifaces (kb_usb_storage_subsystem_observe_interface st env eps al (Some f))).
Proof.
  intros Hd Hk. unfold kb_usb_storage_subsystem_observe_interface. case_match; [done|].
  pose proof (record_for_interface_keys (io_world st) env (if_interface f) Hk) as Hrec. cbn zeta in Hrec.
  destruct (record_for_interface (io_world st) env (if_interface f)) as [w' [i|]].
  - destruct Hrec as [Hi Hcase].
    set (st1 := st <| io_world := w' |>). set (st2 := set_snap st1 i _).
    assert (ifaces st1 = map (fun r => if active r then sn_interface (snapshot r) else 0) (storage_records w')) as H1 by done.
    assert (keys_distinct (ifaces st1)) as Hd1.
    { rewrite H1. destruct Hcase as [->|[Hn ->]]; [done|]. by apply keys_distinct_alter. }
    assert (ifaces st2 = ifaces st1) as H2.
    { unfold st2, ifaces, set_snap, set_record. cbn. apply list_eq. intros j.
      rewrite !list_lookup_fmap, list_lookup_alter. case_decide as Hij; [subst j|done].
      rewrite list_lookup_fmap in Hi. destruct (storage_records w' !! i) as [r|]; [|done]. cbn in *.
      injection Hi as Hi. destruct (active r); congruence. }
    destruct (_ || _); rewrite ?ifaces_ensure_block, ifaces_collect, H2; done.
  - rewrite Hrec. by rewrite (ifaces_world st) by done.
Qed.

Lemma observe_endpoint_ifaces st al e : ifaces (kb_usb_storage_subsystem_observe_endpoint st al e) = ifaces st.
Proof.
  unfold kb_usb_storage_subsystem_observe_endpoint. destruct e as [e|]; [|done]. case_match; [|done].
  assert (forall n, ifaces (storage_attach_endpoint st n e) = ifaces st) as Ha.
  { intros ?. unfold storage_attach_endpoint. repeat case_match; try done; by apply ifaces_set_snap. }
  case_match; by rewrite ?ifaces_ensure_block, Ha.
Qed.

(** Removing an interface clears its key and no other. *)
Lemma remove_interface_keys st k :
  keys_distinct (ifaces st) ->
  keys_distinct (ifaces (kb_usb_storage_subsystem_remove_interface st k)) /\
  (k <> 0 -> k ∉ ifaces (kb_usb_storage_subsystem_remove_interface st k)) /\
  (forall x, x <> 0 -> x ∈ ifaces (kb_usb_storage_subsystem_remove_interface st k) -> x ∈ ifaces st) /\
  (forall x, x <> k -> x ∈ ifaces st -> x ∈ ifaces (kb_usb_storage_subsystem_remove_interface st k)).
Proof.
  intros Hd. unfold kb_usb_storage_subsystem_remove_interface, record_find_by_interface.
  destruct (Z.eqb_spec k 0) as [->|Hk]; [done|]. unfold record_find.
  destruct (list_find _ _) as [[i r]|] eqn:Hf; cbn [fmap option_fmap option_map fst].
  - apply list_find_Some in Hf as (Hr & Ha & _). apply andb_true_iff in Ha as [Ha Hi]. boolify.
    assert (ifaces st !! i = Some k) as Hik.
    { unfold ifaces. rewrite list_lookup_fmap, Hr. cbn. by rewrite Ha, Hi. }
    set (st1 := storage_release_block st i).
    assert (ifaces (st1 <| io_world ::= fun w => set_record w i (fun _ => zero_record) |>) =
            alter (fun _ => 0) i (ifaces st)) as ->.
    { rewrite <- (ifaces_release_block st i). fold st1. unfold ifaces at 1, set_record. cbn.
      rewrite (list_fmap_alter _ _ (fun _ => 0)); [done|]. apply Forall_forall. done. }
    split_and!.
    + intros a b x Hxa Hxb Hx. apply list_lookup_alter_Some in Hxa, Hxb.
      destruct Hxa as [(-> & ? & _ & ->)|[Hia Hxa]], Hxb as [(-> & ? & _ & Hx0)|[Hib Hxb]]; try done.
      by apply (Hd a b x).
    + intros _ Hin. apply list_elem_of_lookup in Hin as [j Hj].
      apply list_lookup_alter_Some in Hj as [(-> & ? & _ & ->)|[Hij Hj]]; [done|].
      apply Hij. by apply (Hd i j k).
    + intros x Hx Hin. apply list_elem_of_lookup in Hin as [j Hj].
      apply list_lookup_alter_Some in Hj as [(-> & ? & _ & ->)|[Hij Hj]]; [done|]. by eapply list_elem_of_lookup_2.
    + intros x Hx Hin. apply list_elem_of_lookup in Hin as [j Hj]. apply (list_elem_of_lookup_2 _ j).
      rewrite list_lookup_alter. case_decide as Hij; [subst j; congruence|done].
  - apply list_find_None in Hf. split_and!; [done| |done|done]. intros _ Hin.
    apply list_elem_of_fmap in Hin as (r & Hr & Hin). apply list_elem_of_lookup in Hin as [j Hj].
    apply (Forall_lookup_1 _ _ _ _ Hf Hj). destruct (active r); [|congruence]. cbn. by apply Z.eqb_eq.
Qed.

Lemma remove_interfaces_keys l st :
  keys_distinct (ifaces st) ->
  let st' := foldl kb_usb_storage_subsystem_remove_interface st l in
  keys_distinct (ifaces st') /\ (forall k, k ∈ l -> k <> 0 -> k ∉ ifaces st') /\
  (forall x, x <> 0 -> x ∈ ifaces st' -> x ∈ ifaces st) /\
  (forall x, x ∉ l -> x ∈ ifaces st -> x ∈ ifaces st').
Proof.
  revert st. induction l as [|k l IH]; intros st Hd; cbn [foldl].
  - split_and!; [done| |done|done]. intros k Hk. by apply not_elem_of_nil in Hk.
  - destruct (remove_interface_keys st k Hd) as (Hd1 & Hk & Hsub & Hkeep).
    destruct (IH _ Hd1) as (Hd2 & Hall & Hsub2 & Hkeep2). split_and!; [done| | |].
    + intros x Hx Hnz. apply elem_of_cons in Hx as [->|Hx]; [|by apply Hall].
      intros Hin. apply (Hk Hnz). by apply Hsub2.
    + intros x Hx Hin. apply Hsub; [done|]. by apply Hsub2.
    + intros x [Hx1 Hx2]%not_elem_of_cons Hin. apply Hkeep2; [done|]. by apply Hkeep.
Qed.

(** ** Releasing *)

Definition among (l : list Z) (k : Z) : bool := bool_decide (k ∈ l).

(** The interfaces of a device, in list order. *)
Definition interfaces_of (udev : Z) (l : list usb_interface) : list Z :=
  map ui_interface (List.filter (fun r => ui_udev r =? udev) l).

(** [s'] is [s] with the interfaces [ks] dropped: their storage records and their
    endpoints are gone, the lists of controllers, URBs, devices and drivers are
    untouched. *)
Definition dropped (ks : list Z) (s s' : usb_state) : Prop :=
  usb_storage s' = foldl kb_usb_storage_subsystem_remove_interface (usb_storage s) ks /\
  usb_endpoint_records s' = List.filter (fun e => negb (among ks (ue_interface e))) (usb_endpoint_records s) /\
  usb_hcd_records s' = usb_hcd_records s /\ usb_urb_records s' = usb_urb_records s /\
  usb_device_records s' = usb_device_records s /\ usb_driver_records s' = usb_driver_records s /\
  usb_freed s' = usb_freed s.

Lemma filter_filter {A} (p q : A -> bool) l :
  List.filter p (List.filter q l) = List.filter (fun x => q x && p x) l.
Proof.
  induction l as [|x l IH]; [done|]. cbn [List.filter]. destruct (q x); cbn [andb List.filter]; [|done].
  destruct (p x); by rewrite IH.
Qed.

Lemma filter_ext' {A} (p q : A -> bool) l : (forall x, x ∈ l -> p x = q x) -> List.filter p l = List.filter q l.
Proof. intros H. apply List.filter_ext_in. intros x Hx. apply H. by apply list_elem_of_In. Qed.

Lemma filter_all {A} (p : A -> bool) l : (forall x, x ∈ l -> p x = true) -> List.filter p l = l.
Proof.
  intros H. induction l as [|x l IH]; [done|]. cbn [List.filter]. rewrite H by left.
  by rewrite IH by (intros; apply H; by right).
Qed.

Lemma dropped_nil s : dropped [] s s.
Proof.
  split_and!; try done. symmetry. apply filter_all. intros e _. unfold among. rewrite bool_decide_false; [done|].
  apply not_elem_of_nil.
Qed.

Lemma dropped_app ks1 ks2 s s1 s2 : dropped ks1 s s1 -> dropped ks2 s1 s2 -> dropped (ks1 ++ ks2) s s2.
Proof.
  intros (H1 & H2 & H3 & H4 & H5 & H6 & H7) (G1 & G2 & G3 & G4 & G5 & G6 & G7). split_and!; try congruence.
  - by rewrite G1, H1, foldl_app.
  - rewrite G2, H2, filter_filter. apply filter_ext'. intros e _. unfold among.
    rewrite (bool_decide_ext (ue_interface e ∈ ks1 ++ ks2) (ue_interface e ∈ ks1 \/ ue_interface e ∈ ks2))
      by apply elem_of_app.
    rewrite bool_decide_or. by destruct (bool_decide _), (bool_decide _).
Qed.

Lemma drop_interface_dropped k s :
  k <> 0 -> dropped [k] s (drop_interface k s) /\
  usb_interface_records (drop_interface k s) = usb_interface_records s.
Proof.
  intros Hk. unfold drop_interface, endpoint_records_release_for_interface.
  rewrite (proj2 (Z.eqb_neq _ _) Hk). split; [|done]. split_and!; try done. cbn. apply filter_ext'.
  intros e _. f_equal. unfold among. destruct (Z.eqb_spec (ue_interface e) k) as [->|Hne].
  - rewrite bool_decide_true; [done|]. by apply list_elem_of_singleton.
  - rewrite bool_decide_false; [done|]. by intros ?%list_elem_of_singleton.
Qed.

Lemma interface_release_loop_spec udev l s :
  Forall (fun r => ui_interface r <> 0) l ->
  let '(s', kept) := interface_release_loop udev l s in
  kept = List.filter (fun r => negb (ui_udev r =? udev)) l /\ dropped (interfaces_of udev l) s s' /\
  usb_interface_records s' = usb_interface_records s.
Proof.
  revert s. induction l as [|r l IH]; intros s Hl; cbn [interface_release_loop].
  - split_and!; [done|apply dropped_nil|done].
  - apply Forall_cons in Hl as [Hr Hl]. unfold interfaces_of. cbn [List.filter].
    destruct (ui_udev r =? udev); cbn [negb].
    + destruct (drop_interface_dropped (ui_interface r) s Hr) as [Hd1 Hi1].
      specialize (IH (drop_interface (ui_interface r) s) Hl).
      destruct (interface_release_loop udev l (drop_interface (ui_interface r) s)) as [s' kept].
      destruct IH as (-> & Hd2 & Hi2). split_and!; [done| |congruence].
      apply (dropped_app [ui_interface r] _ s _ s' Hd1 Hd2).
    + specialize (IH s Hl). destruct (interface_release_loop udev l s) as [s' kept].
      destruct IH as (-> & Hd & Hi). done.
Qed.

Lemma interface_release_spec udev s :
  udev <> 0 -> Forall (fun r => ui_interface r <> 0) (usb_interface_records s) ->
  let s' := interface_records_release_for_udev udev s in
  usb_interface_records s' = List.filter (fun r => negb (ui_udev r =? udev)) (usb_interface_records s) /\
  dropped (interfaces_of udev (usb_interface_records s)) s s'.
Proof.
  intros Hu Hl. cbn zeta. unfold interface_records_release_for_udev. rewrite (proj2 (Z.eqb_neq _ _) Hu).
  pose proof (interface_release_loop_spec udev _ s Hl) as H.
  destruct (interface_release_loop udev (usb_interface_records s) s) as [s' kept].
  destruct H as (-> & Hd & _). split; [done|]. exact Hd.
Qed.

(** [s'] is [s] with the devices [us] dropped; [ks] are their interfaces. *)
Record devices_dropped (us ks : list Z) (s s' : usb_state) : Prop := mk_devices_dropped {
  dd_interfaces : usb_interface_records s' =
    List.filter (fun r => negb (among us (ui_udev r))) (usb_interface_records s);
  dd_endpoints : usb_endpoint_records s' =
    List.filter (fun e => negb (among us (ue_udev e)) && negb (among ks (ue_interface e))) (usb_endpoint_records s);
  dd_storage : usb_storage s' = foldl kb_usb_storage_subsystem_remove_interface (usb_storage s) ks;
  dd_keys : forall k, k ∈ ks <-> exists r, r ∈ usb_interface_records s /\ ui_udev r ∈ us /\ ui_interface r = k;
  dd_rest : usb_hcd_records s' = usb_hcd_records s /\ usb_urb_records s' = usb_urb_records s /\
    usb_device_records s' = usb_device_records s /\ usb_driver_records s' = usb_driver_records s /\
    usb_freed s' = usb_freed s;
}.

Lemma devices_dropped_nil s : devices_dropped [] [] s s.
Proof.
  split; try done.
  - symmetry. apply filter_all. intros r _. unfold among. by rewrite bool_decide_false by apply not_elem_of_nil.
  - symmetry. apply filter_all. intros e _. unfold among.
    by rewrite !bool_decide_false by apply not_elem_of_nil.
  - intros k. split; [by intros ?%not_elem_of_nil|]. intros (r & _ & Hr & _). by apply not_elem_of_nil in Hr.
Qed.

Lemma among_app l1 l2 k : among (l1 ++ l2) k = among l1 k || among l2 k.
Proof. unfold among. rewrite <- bool_decide_or. apply bool_decide_ext, elem_of_app. Qed.

Lemma among_single u k : among [u] k = (k =? u).
Proof.
  unfold among. destruct (Z.eqb_spec k u) as [->|Hne].
  - apply bool_decide_true. by apply list_elem_of_singleton.
  - apply bool_decide_false. by intros ?%list_elem_of_singleton.
Qed.

Lemma interfaces_of_elem u l k :
  k ∈ interfaces_of u l <-> exists r, r ∈ l /\ ui_udev r = u /\ ui_interface r = k.
Proof.
  unfold interfaces_of. rewrite list_elem_of_fmap. split.
  - intros (r & -> & Hr). apply list_elem_of_In, filter_In in Hr as [Hr Hu]. boolify.
    exists r. by rewrite list_elem_of_In.
  - intros (r & Hr & Hu & <-). exists r. split; [done|]. apply list_elem_of_In, filter_In.
    split; [by apply list_elem_of_In|]. by apply Z.eqb_eq.
Qed.

Lemma drop_device_spec u s :
  u <> 0 -> Forall (fun r => ui_interface r <> 0) (usb_interface_records s) ->
  devices_dropped [u] (interfaces_of u (usb_interface_records s)) s (drop_device u s).
Proof.
  intros Hu Hl. destruct (interface_release_spec u s Hu Hl) as [Hi (H1 & H2 & H3 & H4 & H5 & H6 & H7)].
  unfold drop_device, endpoint_records_release_for_udev. rewrite (proj2 (Z.eqb_neq _ _) Hu).
  split; cbn; try done.
  - rewrite Hi. apply filter_ext'. intros r _. by rewrite among_single.
  - rewrite H2, filter_filter. apply filter_ext'. intros e _. rewrite among_single. apply andb_comm.
  - intros k. rewrite interfaces_of_elem. setoid_rewrite list_elem_of_singleton. done.
Qed.

Lemma devices_dropped_app us1 ks1 us2 ks2 s s1 s2 :
  devices_dropped us1 ks1 s s1 -> devices_dropped us2 ks2 s1 s2 ->
  devices_dropped (us1 ++ us2) (ks1 ++ ks2) s s2.
Proof.
  intros [A1 A2 A3 A4 (A5 & A6 & A7 & A8 & A9)] [B1 B2 B3 B4 (B5 & B6 & B7 & B8 & B9)]. split.
  - rewrite B1, A1, filter_filter. apply filter_ext'. intros r _. by rewrite among_app, negb_orb.
  - rewrite B2, A2, filter_filter. apply filter_ext'. intros e _. rewrite !among_app, !negb_orb.
    by destruct (among us1 _), (among us2 _), (among ks1 _), (among ks2 _).
  - by rewrite B3, A3, foldl_app.
  - intros k. rewrite elem_of_app, A4, B4, A1. split.
    + intros [(r & Hr & Hu & Hk)|(r & Hr & Hu & Hk)].
      * exists r. split_and!; [done| |done]. apply elem_of_app. by left.
      * apply list_elem_of_In, filter_In in Hr as [Hr _]. exists r.
        split_and!; [by apply list_elem_of_In| |done]. apply elem_of_app. by right.
    + intros (r & Hr & Hu & Hk). destruct (decide (ui_udev r ∈ us1)) as [H1|H1]; [left; eauto|].
      apply elem_of_app in Hu as [?|Hu]; [done|]. right. exists r. split_and!; [|done|done].
      apply list_elem_of_In, filter_In. split; [by apply list_elem_of_In|].
      unfold among. by rewrite bool_decide_false.
  - split_and!; congruence.
Qed.

(** The devices of a controller, in list order. *)
Definition devices_of (hcd : Z) (l : list kb_usb_device_snapshot) : list Z :=
  map ud_udev (List.filter (fun r => ud_hcd r =? hcd) l).

Lemma device_release_loop_spec hcd l s :
  Forall (fun r => ud_udev r <> 0) l -> Forall (fun r => ui_interface r <> 0) (usb_interface_records s) ->
  let '(s', kept) := device_release_loop hcd l s in
  kept = List.filter (fun r => negb (ud_hcd r =? hcd)) l /\
  exists ks, devices_dropped (devices_of hcd l) ks s s'.
Proof.
  revert s. induction l as [|r l IH]; intros s Hl Hi; cbn [device_release_loop].
  - split; [done|]. exists []. apply devices_dropped_nil.
  - apply Forall_cons in Hl as [Hr Hl]. unfold devices_of. cbn [List.filter].
    destruct (ud_hcd r =? hcd); cbn [negb].
    + pose proof (drop_device_spec (ud_udev r) s Hr Hi) as Hd.
      assert (Forall (fun r => ui_interface r <> 0) (usb_interface_records (drop_device (ud_udev r) s))) as Hi1.
      { rewrite (dd_interfaces _ _ _ _ Hd). apply Forall_forall. intros x Hx.
        apply list_elem_of_In, filter_In in Hx as [Hx _]. rewrite Forall_forall in Hi. apply Hi.
        by apply list_elem_of_In. }
      specialize (IH _ Hl Hi1). destruct (device_release_loop hcd l (drop_device (ud_udev r) s)) as [s' kept].
      destruct IH as (-> & ks & Hks). split; [done|]. eexists.
      exact (devices_dropped_app [ud_udev r] _ _ ks s _ s' Hd Hks).
    + specialize (IH s Hl Hi). destruct (device_release_loop hcd l s) as [s' kept]. by destruct IH as (-> & Hks).
Qed.

(** ** Keys *)

(** What every list and the mass-storage records satisfy in every reachable state. *)
Definition keyed_list {A} (key : A -> Z) (l : list A) : Prop := NoDup (map key l) /\ 0 ∉ map key l.

Record usb_wf (s : usb_state) : Prop := mk_usb_wf {
  wf_devices : keyed_list ud_udev (usb_device_records s);
  wf_interfaces : keyed_list ui_interface (usb_interface_records s);
  wf_endpoints : keyed_list ue_endpoint (usb_endpoint_records s);
  wf_drivers : keyed_list dr_driver (usb_driver_records s);
  wf_urbs : NoDup (map u_urb (usb_urb_records s)) /\ Forall (fun r => u_active r = true /\ usb_pointer_is_error_or_low (u_urb r) = false) (usb_urb_records s);
  wf_storage : keys_distinct (ifaces (usb_storage s));
}.

Section keyed_lemmas.
Context {A : Type} (key : A -> Z).

Lemma keyed_nonzero l : keyed_list key l -> Forall (fun r => key r <> 0) l.
Proof.
  intros [_ Hz]. apply Forall_forall. intros r Hr H0. apply Hz. rewrite <- H0.
  by apply (list_elem_of_fmap_2 key).
Qed.

Lemma NoDup_filter_map (p : A -> bool) l : NoDup (map key l) -> NoDup (map key (List.filter p l)).
Proof.
  induction l as [|r l IH]; cbn [map List.filter]; [done|]. intros [Hr Hl]%NoDup_cons.
  destruct (p r); cbn [map]; [|by apply IH]. apply NoDup_cons. split; [|by apply IH].
  intros Hin. apply Hr. apply list_elem_of_fmap in Hin as (x & Hx & Hin). rewrite Hx.
  apply list_elem_of_fmap_2. apply list_elem_of_In, filter_In in Hin as [Hin _]. by apply list_elem_of_In.
Qed.

Lemma keyed_filter (p : A -> bool) l : keyed_list key l -> keyed_list key (List.filter p l).
Proof.
  intros [Hn Hz]. split; [by apply NoDup_filter_map|]. intros Hin. apply Hz.
  apply list_elem_of_fmap in Hin as (x & -> & Hin). apply list_elem_of_fmap_2.
  apply list_elem_of_In, filter_In in Hin as [Hin _]. by apply list_elem_of_In.
Qed.

Lemma keyed_alter (f : A -> A) i l :
  (forall r, l !! i = Some r -> key (f r) = key r) -> map key (alter f i l) = map key l.
Proof.
  intros Hf. apply list_eq. intros j. rewrite !list_lookup_fmap, list_lookup_alter.
  case_decide as Hij; [subst j|done]. destruct (l !! i) as [r|] eqn:Hr; [|done]. cbn. by rewrite Hf.
Qed.

(** With distinct keys, unlinking the first match is removing every match. *)
Lemma unlink_first_keyed k l :
  NoDup (map key l) -> unlink_first (fun r => key r =? k) l = List.filter (fun r => negb (key r =? k)) l.
Proof.
  induction l as [|r l IH]; cbn [map unlink_first List.filter]; [done|]. intros [Hr Hl]%NoDup_cons.
  destruct (Z.eqb_spec (key r) k) as [<-|Hne]; cbn [negb]; [|by rewrite IH].
  symmetry. apply filter_all. intros x Hx. apply negb_true_iff, Z.eqb_neq. intros He. apply Hr. rewrite <- He.
  by apply list_elem_of_fmap_2.
Qed.

(** Find-or-link keeps keys distinct and answers with the record of that key. *)
Lemma for_key_keyed fresh k zalloc l :
  (forall k, key (fresh k) = k) -> keyed_list key l ->
  let '(l', i) := for_key key fresh k zalloc l in
  keyed_list key l' /\ (forall j, i = Some j -> exists r, l' !! j = Some r /\ key r = k).
Proof.
  intros Hf Hl. unfold for_key, find_key. destruct (Z.eqb_spec k 0) as [->|Hk]; cbn [orb]; [done|].
  destruct (first_index _ l) as [i|] eqn:Hi.
  - split; [done|]. intros j [= <-]. apply first_index_Some in Hi as (r & Hr & He & _). exists r. by boolify.
  - apply first_index_None in Hi. destruct zalloc; cbn [negb]; [|done]. split.
    + destruct Hl as [Hn Hz]. split; cbn [map]; rewrite Hf.
      * apply NoDup_cons. split; [|done]. intros Hin. apply list_elem_of_fmap in Hin as (r & -> & Hr).
        rewrite Forall_forall in Hi. specialize (Hi r Hr). cbn in Hi. by apply Z.eqb_neq in Hi.
      * intros [|]%elem_of_cons; [by apply Hk|done].
    + intros j [= <-]. exists (fresh k). by rewrite Hf.
Qed.
End keyed_lemmas.

(** ** Reachable states *)

(** The notifications a host controller driver sends. *)
Definition hcd_notes : list (Z -> usb_state -> usb_state) :=
  [kb_usb_subsystem_hcd_note_irq; kb_usb_subsystem_hcd_note_died; kb_usb_subsystem_hcd_note_lost_power;
   kb_usb_subsystem_hcd_note_root_hub_poll; kb_usb_subsystem_hcd_note_root_hub_resume;
   kb_usb_subsystem_hcd_note_port_resume_start; kb_usb_subsystem_hcd_note_port_resume_end;
   kb_usb_subsystem_hcd_note_wakeup_notification; kb_usb_subsystem_hcd_note_remote_wakeup_quirk].

(** The memory an allocation gets is no controller record that is still in the list. *)
Definition fresh_record (record : Z) (s : usb_state) : Prop := record ∉ map h_ptr (usb_hcd_records s).

(** One call into the component.  Allocations may fail; the memory that one of a controller
    gets is in no use for another. *)
Inductive usb_step : usb_state -> usb_state -> Prop :=
| step_hcd_alloc record storage s : fresh_record record s -> storage ∉ map h_hcd (usb_hcd_records s) ->
    usb_step s (kb_usb_subsystem_hcd_alloc record storage s).1
| step_hcd_track hcd record s : fresh_record record s -> usb_step s (kb_usb_subsystem_hcd_track hcd record s).1
| step_hcd_release record s : usb_step s (kb_usb_subsystem_hcd_release record s)
| step_hcd_note note hcd s : note ∈ hcd_notes -> usb_step s (note hcd s)
| step_hub_prepare hcd status record s : fresh_record record s ->
    usb_step s (kb_usb_subsystem_hub_event_prepare hcd status record s).1.1
| step_hub_commit hcd bits record update s : fresh_record record s ->
    usb_step s (kb_usb_subsystem_hub_event_commit hcd bits record update s).1.1
| step_urb_link hcd urb z s : usb_step s (kb_usb_subsystem_urb_link hcd urb z s).1
| step_urb_unlink hcd urb status z s : usb_step s (kb_usb_subsystem_urb_unlink hcd urb status z s)
| step_urb_check_unlink hcd urb status z s :
    usb_step s (kb_usb_subsystem_urb_check_unlink hcd urb status z s).1
| step_urb_map hcd urb update z s : usb_step s (kb_usb_subsystem_urb_map_dma hcd urb update z s).1
| step_urb_unmap hcd urb z s : usb_step s (kb_usb_subsystem_urb_unmap_dma hcd urb z s)
| step_urb_submit hcd urb flags status z s : usb_step s (kb_usb_subsystem_urb_submit hcd urb flags status z s)
| step_urb_kill hcd urb z s : usb_step s (kb_usb_subsystem_urb_kill hcd urb z s)
| step_urb_giveback hcd urb status z s : usb_step s (kb_usb_subsystem_urb_giveback hcd urb status z s)
| step_device_observe update z s : usb_step s (kb_usb_subsystem_device_observe update z s).1
| step_device_remove udev s : usb_step s (kb_usb_subsystem_device_remove udev s)
| step_endpoint_observe al update z s : usb_step s (kb_usb_subsystem_endpoint_observe al update z s).1
| step_endpoint_remove endpoint s : usb_step s (kb_usb_subsystem_endpoint_remove endpoint s)
| step_interface_observe env al update z s : usb_step s (kb_usb_subsystem_interface_observe env al update z s).1
| step_interface_remove interface s : usb_step s (kb_usb_subsystem_interface_remove interface s)
| step_driver_register driver owner name status z als s :
    usb_step s (kb_usb_subsystem_driver_register driver owner name status z als s)
| step_driver_deregister driver z s : usb_step s (kb_usb_subsystem_driver_deregister driver z s).

(** Before any call: no record, and every mass-storage record free. *)
Definition usb_boot (s : usb_state) : Prop :=
  usb_hcd_records s = [] /\ usb_urb_records s = [] /\ usb_device_records s = [] /\
  usb_interface_records s = [] /\ usb_endpoint_records s = [] /\ usb_driver_records s = [] /\
  Forall (fun r => active r = false) (storage_records (io_world (usb_storage s))).

Lemma usb_boot_wf s : usb_boot s -> usb_wf s.
Proof.
  intros (_ & H1 & H2 & H3 & H4 & H5 & H6).
  assert (forall A (key : A -> Z), keyed_list key []) as Hnil.
  { intros A key. split; [apply NoDup_nil_2|apply not_elem_of_nil]. }
  split; rewrite ?H1, ?H2, ?H3, ?H4, ?H5; try apply Hnil; [by split; [apply NoDup_nil_2|]|].
  intros i j k Hi _ Hk. unfold ifaces in Hi. rewrite list_lookup_fmap in Hi.
  apply fmap_Some in Hi as (r & Hr & ->). apply (Forall_lookup_1 _ _ _ _ H6) in Hr. by rewrite Hr in Hk.
Qed.

(** Calls that touch only the controllers. *)
Definition same_but_hcds (s s' : usb_state) : Prop :=
  usb_urb_records s' = usb_urb_records s /\ usb_device_records s' = usb_device_records s /\
  usb_interface_records s' = usb_interface_records s /\ usb_endpoint_records s' = usb_endpoint_records s /\
  usb_driver_records s' = usb_driver_records s /\ usb_storage s' = usb_storage s.

Lemma same_but_hcds_wf s s' : same_but_hcds s s' -> usb_wf s -> usb_wf s'.
Proof. intros (E1 & E2 & E3 & E4 & E5 & E6) []. by split; rewrite ?E1, ?E2, ?E3, ?E4, ?E5, ?E6. Qed.

Lemma hcd_note_same f hcd s : same_but_hcds s (hcd_note f hcd s).
Proof. unfold hcd_note. by case_match. Qed.
Lemma hcd_alloc_same r g s : same_but_hcds s (kb_usb_subsystem_hcd_alloc r g s).1.
Proof. unfold kb_usb_subsystem_hcd_alloc. by repeat case_match. Qed.
Lemma hcd_track_same h r s : same_but_hcds s (kb_usb_subsystem_hcd_track h r s).1.
Proof. unfold kb_usb_subsystem_hcd_track. by repeat case_match. Qed.
Lemma hub_record_same h r s : same_but_hcds s (hub_event_record_for_hcd h r s).1.
Proof.
  unfold hub_event_record_for_hcd. destruct (kb_usb_subsystem_hcd_for_hcd h s); [done|]. case_match; [done|].
  pose proof (hcd_track_same h r s) as Ht. by destruct (kb_usb_subsystem_hcd_track h r s).
Qed.
Lemma hub_prepare_same h st r s : same_but_hcds s (kb_usb_subsystem_hub_event_prepare h st r s).1.1.
Proof.
  unfold kb_usb_subsystem_hub_event_prepare. destruct st as [st|]; [|done]. case_match; [done|].
  pose proof (hub_record_same h r s) as Hr. by destruct (hub_event_record_for_hcd h r s) as [s' [i|]].
Qed.
Lemma hub_commit_same h b r u s : same_but_hcds s (kb_usb_subsystem_hub_event_commit h b r u s).1.1.
Proof.
  unfold kb_usb_subsystem_hub_event_commit. case_match; [done|].
  pose proof (hub_record_same h r s) as Hr. by destruct (hub_event_record_for_hcd h r s) as [s' [i|]].
Qed.

(** URB calls: the list keeps its keys. *)
Lemma with_urb_wf i f s :
  (forall r, u_urb (f r) = u_urb r /\ u_active (f r) = u_active r) -> usb_wf s -> usb_wf (with_urb i f s).
Proof.
  intros Hf [? ? ? ? [Hn Ha] ?]. split; try done. cbn. split.
  - rewrite keyed_alter; [done|]. intros r _. apply Hf.
  - apply Forall_alter; [done|]. intros r _ Hr. cbn in Hr |- *. destruct (Hf r) as [-> ->]. done.
Qed.

Lemma urb_record_for_wf hcd urb z s : usb_wf s -> usb_wf (urb_record_for hcd urb z s).1.
Proof.
  intros Hw. unfold urb_record_for, urb_record_find. destruct (usb_pointer_is_error_or_low urb) eqn:Hlow; [done|].
  destruct (first_index _ _) as [i|] eqn:Hi; cbn [fst].
  - apply with_urb_wf; [|done]. intros r. by case_match.
  - destruct z; cbn; [|done]. destruct Hw as [? ? ? ? [Hn Ha] ?]. split; try done. cbn. split.
    + apply NoDup_cons. split; [|done]. intros Hin. apply list_elem_of_fmap in Hin as (r & Hu & Hr).
      apply first_index_None in Hi. rewrite Forall_forall in Hi, Ha. specialize (Hi r Hr). cbn in Hi.
      rewrite (proj1 (Ha r Hr)) in Hi. cbn in Hi. by apply Z.eqb_neq in Hi.
    + by apply Forall_cons.
Qed.

Lemma urb_update_status_wf hcd urb z f s :
  (forall r, u_urb (f r) = u_urb r /\ u_active (f r) = u_active r) -> usb_wf s ->
  usb_wf (urb_update_status hcd urb z f s).1.
Proof.
  intros Hf Hw. unfold urb_update_status. pose proof (urb_record_for_wf hcd urb z s Hw) as H.
  destruct (urb_record_for hcd urb z s) as [s' [i|]]; [|done]. cbn in H. case_match; [done|]. by apply with_urb_wf.
Qed.

Lemma urb_update_wf hcd urb z f s :
  (forall r, u_urb (f r) = u_urb r /\ u_active (f r) = u_active r) -> usb_wf s ->
  usb_wf (urb_update hcd urb z f s).
Proof.
  intros Hf Hw. unfold urb_update. pose proof (urb_record_for_wf hcd urb z s Hw) as H.
  destruct (urb_record_for hcd urb z s) as [s' [i|]]; [|done]. apply with_urb_wf; [|done].
  intros r. case_match; [|apply Hf]. by destruct (Hf (r <| u_hcd := hcd |>)) as [-> ->].
Qed.

(** Removals. *)
Lemma dropped_wf us ks s s' : devices_dropped us ks s s' -> usb_wf s -> usb_wf s'.
Proof.
  intros [Hi He Hs _ (Hh & Hu & Hd & Hdr & _)] [? ? ? ? ? ?].
  split; rewrite ?Hi, ?He, ?Hu, ?Hd, ?Hdr; try done; try by apply keyed_filter.
  rewrite Hs. by apply remove_interfaces_keys.
Qed.

Lemma drop_interface_wf k s : k <> 0 -> usb_wf s -> usb_wf (drop_interface k s).
Proof.
  intros Hk [? ? ? ? ? ?]. destruct (drop_interface_dropped k s Hk) as [(H1 & H2 & H3 & H4 & H5 & H6 & _) H8].
  split; rewrite ?H2, ?H4, ?H5, ?H6, ?H8; try done; try by apply keyed_filter.
  rewrite H1. by apply remove_interfaces_keys.
Qed.

Lemma device_remove_wf udev s : usb_wf s -> usb_wf (kb_usb_subsystem_device_remove udev s).
Proof.
  intros Hw. unfold kb_usb_subsystem_device_remove. destruct (first_index _ _) as [i|] eqn:Hi; [|done].
  apply first_index_Some in Hi as (r & Hr & He & _). boolify.
  assert (udev <> 0) as Hu.
  { pose proof (keyed_nonzero _ _ (wf_devices s Hw)) as Hz. apply (Forall_lookup_1 _ _ _ _ Hz) in Hr. congruence. }
  pose proof (drop_device_spec udev s Hu (keyed_nonzero _ _ (wf_interfaces s Hw))) as Hd.
  destruct (dropped_wf _ _ _ _ Hd Hw) as [Hdev ? ? ? ? ?]. split; try done. cbn.
  rewrite unlink_first_keyed by apply Hdev. by apply keyed_filter.
Qed.

Lemma interface_remove_wf k s : usb_wf s -> usb_wf (kb_usb_subsystem_interface_remove k s).
Proof.
  intros Hw. unfold kb_usb_subsystem_interface_remove. destruct (first_index _ _) as [i|] eqn:Hi; [|done].
  apply first_index_Some in Hi as (r & Hr & He & _). boolify.
  assert (k <> 0) as Hk.
  { pose proof (keyed_nonzero _ _ (wf_interfaces s Hw)) as Hz. apply (Forall_lookup_1 _ _ _ _ Hz) in Hr. congruence. }
  destruct (drop_interface_wf k s Hk Hw) as [? Hif ? ? ? ?]. split; try done. cbn.
  rewrite unlink_first_keyed by apply Hif. by apply keyed_filter.
Qed.

Lemma devices_release_spec hcd s :
  usb_wf s -> usb_pointer_is_error_or_low hcd = false ->
  let s' := device_records_release_for_hcd hcd s in
  usb_device_records s' = List.filter (fun r => negb (ud_hcd r =? hcd)) (usb_device_records s) /\
  exists ks, devices_dropped (devices_of hcd (usb_device_records s)) ks s
               (s' <| usb_device_records := usb_device_records s |>).
Proof.
  intros Hw Hp. cbn zeta. unfold device_records_release_for_hcd. rewrite Hp.
  pose proof (device_release_loop_spec hcd (usb_device_records s) s (keyed_nonzero _ _ (wf_devices s Hw))
    (keyed_nonzero _ _ (wf_interfaces s Hw))) as H.
  destruct (device_release_loop hcd (usb_device_records s) s) as [s' kept]. destruct H as (-> & ks & Hks).
  split; [done|]. exists ks. destruct Hks as [? ? ? ? (? & ? & ? & ? & ?)]. by split.
Qed.

Lemma device_records_release_wf hcd s : usb_wf s -> usb_wf (device_records_release_for_hcd hcd s).
Proof.
  intros Hw. destruct (usb_pointer_is_error_or_low hcd) eqn:Hp.
  { unfold device_records_release_for_hcd. by rewrite Hp. }
  destruct (devices_release_spec hcd s Hw Hp) as (Hd & ks & Hks).
  destruct (dropped_wf _ _ _ _ Hks Hw) as [? ? ? ? ? ?]. split; try done. rewrite Hd.
  by apply keyed_filter, Hw.
Qed.

Lemma urbs_release_wf hcd s : usb_wf s -> usb_wf (urb_records_release_for_hcd hcd s).
Proof.
  intros [? ? ? ? [Hn Ha] ?]. unfold urb_records_release_for_hcd. case_match; [done|]. split; try done. cbn.
  split; [by apply NoDup_filter_map|]. apply Forall_forall. intros r Hr.
  apply list_elem_of_In, filter_In in Hr as [Hr _]. rewrite Forall_forall in Ha. apply Ha. by apply list_elem_of_In.
Qed.

Lemma hcd_release_wf record s : usb_wf s -> usb_wf (kb_usb_subsystem_hcd_release record s).
Proof.
  intros Hw. unfold kb_usb_subsystem_hcd_release. destruct (list_find _ _) as [[i r]|]; [|done]. case_match; [done|].
  eapply same_but_hcds_wf, (urbs_release_wf (h_hcd r)), (device_records_release_wf (h_hcd r)), Hw.
  by destruct (h_owns_storage r).
Qed.

(** Observations. *)
Lemma observed_keyed {A} (key : A -> Z) fresh k z l (f : A -> A) :
  (forall k, key (fresh k) = k) -> (forall r, key r = k -> key (f r) = k) -> keyed_list key l ->
  let '(l', i) := for_key key fresh k z l in
  keyed_list key l' /\ (forall j, i = Some j -> keyed_list key (alter f j l')).
Proof.
  intros Hf Hk Hl. pose proof (for_key_keyed key fresh k z l Hf Hl) as H.
  destruct (for_key key fresh k z l) as [l' i]. destruct H as [Hl' Hi]. split; [done|].
  intros j Hj. destruct (Hi j Hj) as (r & Hr & Hkr). unfold keyed_list. rewrite keyed_alter; [done|].
  intros r' Hr'. simplify_eq. by apply Hk.
Qed.

Lemma device_observe_wf u z s : usb_wf s -> usb_wf (kb_usb_subsystem_device_observe u z s).1.
Proof.
  intros [Hd ? ? ? ? ?]. unfold kb_usb_subsystem_device_observe, device_record_for. destruct u as [u|]; [|done].
  case_match; [done|].
  pose proof (observed_keyed ud_udev (fun k => zero_udevice <| ud_udev := k |>) (ud_udev u) z _
    (fun _ => u <| ud_devpath := clip KB_USB_DEVPATH_MAX (ud_devpath u) |>) ltac:(done) ltac:(done) Hd) as H1.
  destruct (for_key _ _ _ _ _) as [l [i|]]; destruct H1 as [H1 H2]; split; try done. cbn. by apply H2.
Qed.

Lemma endpoint_observe_wf al u z s : usb_wf s -> usb_wf (kb_usb_subsystem_endpoint_observe al u z s).1.
Proof.
  intros [? ? He ? ? Hs]. unfold kb_usb_subsystem_endpoint_observe, endpoint_record_for. destruct u as [u|]; [|done].
  case_match; [done|].
  pose proof (observed_keyed ue_endpoint (fun k => mk_usb_endpoint (mk_endpoint 0 0 0 0) 0 k 0 0 0) (ue_endpoint u) z
    _ (fun _ => u) ltac:(done) ltac:(done) He) as H1.
  destruct (for_key _ _ _ _ _) as [l [i|]]; destruct H1 as [H1 H2]; [|by split]. cbn [fst].
  destruct (ue_interface u =? 0); split; try done.
  1,2: by apply H2.
  pose proof (observe_endpoint_ifaces (usb_storage s) al (Some (ue_view u))) as Ho. cbn in Ho |- *. by rewrite Ho.
Qed.

Lemma interface_observe_wf env al u z s : usb_wf s -> usb_wf (kb_usb_subsystem_interface_observe env al u z s).1.
Proof.
  intros [? Hi ? ? ? Hs]. unfold kb_usb_subsystem_interface_observe, interface_record_for. destruct u as [u|]; [|done].
  destruct (Z.eqb_spec (ui_interface u) 0) as [|Hu]; [done|].
  pose proof (observed_keyed ui_interface (fun k => mk_usb_interface (mk_interface k 0 0 0 0 0 0 0 0 0) 0 0 0)
    (ui_interface u) z _ (fun _ => u) ltac:(done) ltac:(done) Hi) as H1.
  destruct (for_key _ _ _ _ _) as [l [i|]]; destruct H1 as [H1 H2]; [|by split]. split; try done; cbn.
  - by apply H2.
  - by apply observe_interface_distinct.
Qed.

Lemma driver_registered_ifaces st eps als d b :
  ifaces (kb_usb_storage_subsystem_note_driver_registered st eps als d b) = ifaces st.
Proof.
  unfold kb_usb_storage_subsystem_note_driver_registered. destruct b; cbn [negb]; [|done].
  apply (foldl_keeps (fun st' => ifaces st' = ifaces st)); [|done]. intros st' i _ Hst. case_match; [|done].
  rewrite ifaces_ensure_block, ifaces_collect. by rewrite ifaces_set_snap.
Qed.

Lemma driver_register_wf d o n st z als s : usb_wf s -> usb_wf (kb_usb_subsystem_driver_register d o n st z als s).
Proof.
  intros [? ? ? Hd ? Hs]. unfold kb_usb_subsystem_driver_register, driver_record_for.
  pose proof (for_key_keyed dr_driver (fun k => mk_usb_driver k 0 false 0 0 0 []) d z _ ltac:(done) Hd) as H1.
  destruct (for_key _ _ _ _ _) as [l [i|]]; destruct H1 as [H1 H2]; [|by split]. split; try done; cbn.
  - destruct (H2 i eq_refl) as (r & Hr & Hk). unfold keyed_list. rewrite keyed_alter; [done|].
    intros r' Hr'. simplify_eq. by destruct n.
  - by rewrite driver_registered_ifaces.
Qed.

Lemma driver_deregister_wf d z s : usb_wf s -> usb_wf (kb_usb_subsystem_driver_deregister d z s).
Proof.
  intros [? ? ? Hd ? Hs]. unfold kb_usb_subsystem_driver_deregister, driver_record_for.
  pose proof (for_key_keyed dr_driver (fun k => mk_usb_driver k 0 false 0 0 0 []) d z _ ltac:(done) Hd) as H1.
  destruct (for_key _ _ _ _ _) as [l [i|]]; destruct H1 as [H1 H2]; [|by split]. split; try done. cbn.
  destruct (H2 i eq_refl) as (r & Hr & Hk). unfold keyed_list. by rewrite keyed_alter.
Qed.

Lemma endpoint_remove_wf e s : usb_wf s -> usb_wf (kb_usb_subsystem_endpoint_remove e s).
Proof.
  intros [? ? He ? ? ?]. split; try done. cbn. rewrite unlink_first_keyed by apply He. by apply keyed_filter.
Qed.

Create HintDb usb.
#[export] Hint Resolve hcd_release_wf urb_update_wf urb_update_status_wf device_observe_wf device_remove_wf
  endpoint_observe_wf endpoint_remove_wf interface_observe_wf interface_remove_wf driver_register_wf
  driver_deregister_wf : usb.

Lemma usb_step_wf s s' : usb_step s s' -> usb_wf s -> usb_wf s'.
Proof.
  intros [] Hw; eauto 2 with usb.
  all: try by (eapply same_but_hcds_wf; [|exact Hw]; eauto using hcd_alloc_same, hcd_track_same, hub_prepare_same,
    hub_commit_same).
  all: try by (apply urb_update_wf).
  all: try by (apply urb_update_status_wf).
  - unfold hcd_notes in *. repeat (match goal with H : _ ∈ _ :: _ |- _ => apply elem_of_cons in H as [->|H] end;
      [by eapply same_but_hcds_wf; [apply hcd_note_same|]|]). set_solver.
  - apply urb_update_status_wf; [|done]. intros r. by destruct update.
Qed.

Lemma usb_steps_wf s0 s : rtc usb_step s0 s -> usb_wf s0 -> usb_wf s.
Proof. induction 1 as [|s0 s1 s H01 _ IH]; [done|]. intros Hw. by apply IH, (usb_step_wf s0). Qed.

(** *** Controllers *)

(** The records of the controllers are at different places and of different controllers. *)
Record hcds_wf (s : usb_state) : Prop := mk_hcds_wf {
  hw_records : keyed_list h_ptr (usb_hcd_records s);
  hw_keys : keyed_list h_hcd (usb_hcd_records s);
  hw_active : Forall (fun r => h_active r = true) (usb_hcd_records s);
}.
Definition same_hcds (s s' : usb_state) : Prop := usb_hcd_records s' = usb_hcd_records s.
Lemma same_hcds_wf s s' : same_hcds s s' -> hcds_wf s -> hcds_wf s'.
Proof. intros E []. by split; rewrite E. Qed.

Lemma drop_interface_hcds k s : same_hcds s (drop_interface k s).
Proof. unfold drop_interface, endpoint_records_release_for_interface. by case_match. Qed.
Lemma interface_loop_hcds udev l : forall s, same_hcds s (interface_release_loop udev l s).1.
Proof.
  induction l as [|r l IH]; intros s; cbn [interface_release_loop]; [done|]. case_match; [etrans; [apply IH|apply drop_interface_hcds]|]. specialize (IH s). by destruct (interface_release_loop udev l s).
Qed.
Lemma drop_device_hcds udev s : same_hcds s (drop_device udev s).
Proof.
  unfold drop_device, endpoint_records_release_for_udev, interface_records_release_for_udev. case_match; [done|]. pose proof (interface_loop_hcds udev (usb_interface_records s) s) as Hl. by destruct (interface_release_loop udev _ s).
Qed.
Lemma device_loop_hcds hcd l : forall s, same_hcds s (device_release_loop hcd l s).1.
Proof.
  induction l as [|r l IH]; intros s; cbn [device_release_loop]; [done|]. case_match; [etrans; [apply IH|apply drop_device_hcds]|]. specialize (IH s). by destruct (device_release_loop hcd l s).
Qed.
Lemma urb_update_hcds hcd urb z f s : same_hcds s (urb_update hcd urb z f s) /\ same_hcds s (urb_update_status hcd urb z f s).1.
Proof. unfold urb_update, urb_update_status, urb_record_for. by repeat case_match; simplify_eq. Qed.

Lemma unlink_hcd_wf (s s' : usb_state) record : usb_hcd_records s' = unlink_first (fun q => h_ptr q =? record) (usb_hcd_records s) -> hcds_wf s -> hcds_wf s'.
Proof.
  intros E [H1 H2 H3]. rewrite unlink_first_keyed in E by apply H1. split; rewrite E; [by apply keyed_filter..|]. apply Forall_forall. intros r Hr. apply list_elem_of_In, filter_In in Hr as [Hr%list_elem_of_In _]. by apply (proj1 (Forall_forall _ _) H3).
Qed.
Lemma hcd_release_hcds record s : hcds_wf s -> hcds_wf (kb_usb_subsystem_hcd_release record s).
Proof.
  intros Hw. unfold kb_usb_subsystem_hcd_release. destruct (list_find _ _) as [[i r]|]; [|done]. case_match; [done|]. apply (unlink_hcd_wf s _ record); [|done].
  assert (same_hcds s (urb_records_release_for_hcd (h_hcd r) (device_records_release_for_hcd (h_hcd r) s))) as E.
  { unfold urb_records_release_for_hcd, device_records_release_for_hcd. case_match; [done|]. pose proof (device_loop_hcds (h_hcd r) (usb_device_records s) s) as H'. by destruct (device_release_loop _ _ s). }
  rewrite <- E. by destruct (h_owns_storage r).
Qed.
Lemma alter_hcd_wf f i (s s' : usb_state) : usb_hcd_records s' = alter f i (usb_hcd_records s) -> (forall r, h_ptr (f r) = h_ptr r /\ h_hcd (f r) = h_hcd r /\ h_active (f r) = h_active r) -> hcds_wf s -> hcds_wf s'.
Proof.
  intros E Hf [H1 H2 H3]. split; rewrite E; [by unfold keyed_list; rewrite keyed_alter by (intros; apply Hf)..|]. apply Forall_alter; [done|]. intros r _ Hr. by rewrite (proj2 (proj2 (Hf r))).
Qed.
Lemma new_hcd_wf record hcd owns (s s' : usb_state) : usb_hcd_records s' = new_hcd record hcd owns :: usb_hcd_records s -> record <> 0 -> hcd <> 0 -> fresh_record record s -> hcd ∉ map h_hcd (usb_hcd_records s) -> hcds_wf s -> hcds_wf s'.
Proof.
  intros E H1 H2 F1 F2 [[K1 Z1] [K2 Z2] A]. split; rewrite E; [split; cbn [map]..|by apply Forall_cons].
  1,3: by apply NoDup_cons. all: rewrite elem_of_cons; intros [?|?]; congruence || done.
Qed.
Lemma hcd_track_hcds hcd record s : fresh_record record s -> hcds_wf s -> hcds_wf (kb_usb_subsystem_hcd_track hcd record s).1.
Proof.
  intros Hf Hw. unfold kb_usb_subsystem_hcd_track, kb_usb_subsystem_hcd_for_hcd. destruct (usb_pointer_is_error_or_low hcd) eqn:Hlow; [done|]. destruct (first_index _ _) eqn:Hi; [done|]. destruct (Z.eqb_spec record 0); [done|]. cbn [fst].
  apply (new_hcd_wf record hcd false s); [done|done| |done| |done].
  - intros ->. done.
  - intros (r & -> & Hr)%list_elem_of_fmap. apply first_index_None in Hi. pose proof (proj1 (Forall_forall _ _) Hi r Hr) as Hx. cbn in Hx. rewrite (proj1 (Forall_forall _ _) (hw_active _ Hw) r Hr), Z.eqb_refl in Hx. done.
Qed.
Lemma hub_record_hcds hcd record s : fresh_record record s -> hcds_wf s -> hcds_wf (hub_event_record_for_hcd hcd record s).1.
Proof.
  intros Hf Hw. unfold hub_event_record_for_hcd. destruct (kb_usb_subsystem_hcd_for_hcd hcd s); [done|]. case_match; [done|]. pose proof (hcd_track_hcds hcd record s Hf Hw) as Ht. by destruct (kb_usb_subsystem_hcd_track hcd record s).
Qed.
Lemma hcd_note_hcds f hcd s : (forall r, h_ptr (f r) = h_ptr r /\ h_hcd (f r) = h_hcd r /\ h_active (f r) = h_active r) -> hcds_wf s -> hcds_wf (hcd_note f hcd s).
Proof. intros Hf Hw. unfold hcd_note. case_match; [|done]. by eapply alter_hcd_wf. Qed.
Lemma usb_step_hcds s s' : usb_step s s' -> hcds_wf s -> hcds_wf s'.
Proof.
  intros Hs Hw. destruct Hs as [record storage s Hf Hst|hcd record s Hf|record s|note hcd s Hn|hcd status record s Hf|hcd bits record update s Hf|hcd urb z s|hcd urb status z s|hcd urb status z s|hcd urb update z s|hcd urb z s|hcd urb flags status z s|hcd urb z s|hcd urb status z s|update z s|udev s|al update z s|endpoint s|env al update z s|interface s|driver owner name status z als s|driver z s].
  7-14: eapply same_hcds_wf; [apply urb_update_hcds|done].
  - unfold kb_usb_subsystem_hcd_alloc. destruct (Z.eqb_spec record 0); [done|]. destruct (Z.eqb_spec storage 0); [by apply (same_hcds_wf s)|]. by apply (new_hcd_wf record storage true s).
  - by apply hcd_track_hcds.
  - by apply hcd_release_hcds.
  - unfold hcd_notes in Hn. repeat (apply elem_of_cons in Hn as [->|Hn]; [apply hcd_note_hcds; [intros r; by split_and!|done]|]). by apply elem_of_nil in Hn.
  - unfold kb_usb_subsystem_hub_event_prepare. destruct status as [status|]; [|done]. case_match; [done|]. pose proof (hub_record_hcds hcd record s Hf Hw) as Hr. destruct (hub_event_record_for_hcd hcd record s) as [s' [i|]]; [|done]. cbn [fst] in *. eapply (alter_hcd_wf _ i s'); [reflexivity|intros r; by split_and!|done].
  - unfold kb_usb_subsystem_hub_event_commit. case_match; [done|]. pose proof (hub_record_hcds hcd record s Hf Hw) as Hr. destruct (hub_event_record_for_hcd hcd record s) as [s' [i|]]; [|done]. cbn [fst] in *. eapply (alter_hcd_wf _ i s'); [reflexivity|intros r; by split_and!|done].
  - eapply same_hcds_wf; [|done]. unfold kb_usb_subsystem_device_observe, device_record_for. destruct update; [|done]. case_match; [done|]. by destruct (for_key _ _ _ _ _) as [l [i|]].
  - eapply same_hcds_wf; [|done]. unfold kb_usb_subsystem_device_remove. case_match; [|done]. exact (drop_device_hcds udev s).
  - eapply same_hcds_wf; [|done]. unfold kb_usb_subsystem_endpoint_observe, endpoint_record_for. destruct update; [|done]. case_match; [done|]. destruct (for_key _ _ _ _ _) as [l [i|]]; [|done]. cbn. by case_match.
  - by apply (same_hcds_wf s).
  - eapply same_hcds_wf; [|done]. unfold kb_usb_subsystem_interface_observe, interface_record_for. destruct update; [|done]. case_match; [done|]. by destruct (for_key _ _ _ _ _) as [l [i|]].
  - eapply same_hcds_wf; [|done]. unfold kb_usb_subsystem_interface_remove. case_match; [|done]. exact (drop_interface_hcds interface s).
  - eapply same_hcds_wf; [|done]. unfold kb_usb_subsystem_driver_register, driver_record_for. by destruct (for_key _ _ _ _ _) as [l [i|]].
  - eapply same_hcds_wf; [|done]. unfold kb_usb_subsystem_driver_deregister, driver_record_for. by destruct (for_key _ _ _ _ _) as [l [i|]].
Qed.
Lemma usb_steps_hcds s0 s : rtc usb_step s0 s -> hcds_wf s0 -> hcds_wf s.
Proof. induction 1 as [|s0 s1 s H01 _ IH]; [done|]. intros Hw. by apply IH, (usb_step_hcds s0). Qed.
Lemma usb_boot_hcds s : usb_boot s -> hcds_wf s.
Proof. intros (E & _). split; rewrite E; [split; [apply NoDup_nil_2|apply not_elem_of_nil]..|done]. Qed.

(** C38: In every state reached by the component's calls, whether allocations succeed or not,
    no two records of a list have the same key (controller, device, interface, endpoint,
    driver or URB) and no record has a null key; the URBs and the controllers in their lists
    are active; and no two mass-storage records stand for the same interface.  For the
    controllers this asks that an allocation gets no memory that is in use for another one
    (kb_usb_subsystem_hcd_alloc does not look for the address it got in the list). *)
Theorem usb_keys_stay_unique s0 s : usb_boot s0 -> rtc usb_step s0 s ->
  usb_wf s /\ hcds_wf s /\ keyed_list u_urb (usb_urb_records s).
Proof.
  intros Hb Hr. assert (usb_wf s) as Hw by (by apply (usb_steps_wf s0), usb_boot_wf). split; [done|]. split; [by apply (usb_steps_hcds s0), usb_boot_hcds|].
  destruct (wf_urbs _ Hw) as [Hn Ha]. split; [done|]. intros (r & E & Hin)%list_elem_of_fmap. destruct (proj1 (Forall_forall _ _) Ha r Hin) as [_ Hl]. rewrite <- E in Hl. done.
Qed.

(** Unlinking the first record at an address is deleting its position. *)
Lemma unlink_first_delete {A} (key : A -> Z) k (l : list A) i r :
  list_find (fun q => key q = k) l = Some (i, r) -> unlink_first (fun q => key q =? k) l = delete i l.
Proof.
  intros (Hl & Hr & Hlt)%list_find_Some. revert i Hl Hlt. induction l as [|q l IH]; intros i Hl Hlt; [done|].
  cbn [unlink_first]. destruct i as [|i].
  - injection Hl as ->. by rewrite (proj2 (Z.eqb_eq _ _) Hr).
  - assert (key q <> k) as Hq by (apply (Hlt 0%nat q eq_refl); lia).
    rewrite (proj2 (Z.eqb_neq _ _) Hq). cbn. f_equal. apply IH; [done|].
    intros j y Hj Hji. apply (Hlt (S j) y Hj). lia.
Qed.

Lemma hcd_release_fields record s i r :
  list_find (fun q => h_ptr q = record) (usb_hcd_records s) = Some (i, r) ->
  h_active r = true -> usb_pointer_is_error_or_low (h_hcd r) = false ->
  let s' := kb_usb_subsystem_hcd_release record s in
  let s1 := device_records_release_for_hcd (h_hcd r) s in
  usb_hcd_records s' = unlink_first (fun q => h_ptr q =? record) (usb_hcd_records s1) /\
  usb_device_records s' = usb_device_records s1 /\
  usb_urb_records s' = List.filter (fun u => negb (u_active u && (u_hcd u =? h_hcd r))) (usb_urb_records s1) /\
  usb_interface_records s' = usb_interface_records s1 /\ usb_endpoint_records s' = usb_endpoint_records s1 /\
  usb_driver_records s' = usb_driver_records s1 /\ usb_storage s' = usb_storage s1.
Proof.
  intros Hf Ha Hp. unfold kb_usb_subsystem_hcd_release. rewrite Hf, Ha. unfold urb_records_release_for_hcd.
  rewrite Hp. by destruct (h_owns_storage r).
Qed.

(** Releasing a tracked host controller removes exactly what hangs off it: its
    own record, the devices and URBs recorded under its address, the interfaces of
    those devices, the endpoints of those devices and interfaces, and the
    mass-storage records of those interfaces; everything else stays, in order. *)
Theorem hcd_release_removes_its_tree record s i r :
  usb_wf s -> list_find (fun q => h_ptr q = record) (usb_hcd_records s) = Some (i, r) ->
  h_active r = true -> usb_pointer_is_error_or_low (h_hcd r) = false ->
  let s' := kb_usb_subsystem_hcd_release record s in
  let gone := devices_of (h_hcd r) (usb_device_records s) in
  exists ks, (forall k, k ∈ ks <-> exists f, f ∈ usb_interface_records s /\ ui_udev f ∈ gone /\ ui_interface f = k) /\
  usb_hcd_records s' = delete i (usb_hcd_records s) /\
  usb_device_records s' = List.filter (fun d => negb (ud_hcd d =? h_hcd r)) (usb_device_records s) /\
  usb_urb_records s' = List.filter (fun u => negb (u_hcd u =? h_hcd r)) (usb_urb_records s) /\
  usb_interface_records s' = List.filter (fun f => negb (among gone (ui_udev f))) (usb_interface_records s) /\
  usb_endpoint_records s' =
    List.filter (fun e => negb (among gone (ue_udev e)) && negb (among ks (ue_interface e))) (usb_endpoint_records s) /\
  usb_driver_records s' = usb_driver_records s /\
  (forall k, k <> 0 -> k ∈ ifaces (usb_storage s') <-> k ∈ ifaces (usb_storage s) /\ k ∉ ks).
Proof.
  intros Hw Hf Ha Hp. cbn zeta.
  destruct (devices_release_spec (h_hcd r) s Hw Hp) as (Hd & ks & [Hi He Hs Hk (Hh & Hu & _ & Hdr & _)]).
  cbn in Hi, He, Hs, Hh, Hu, Hdr. destruct (hcd_release_fields record s i r Hf Ha Hp) as (-> & -> & -> & -> & -> & -> & ->).
  rewrite Hh, Hd, Hu, Hi, He, Hdr, Hs. exists ks. split_and!; try done.
  - by apply (unlink_first_delete h_ptr record _ i r).
  - apply filter_ext'. intros u Hin. pose proof (proj2 (wf_urbs s Hw)) as Hact. rewrite Forall_forall in Hact.
    by rewrite (proj1 (Hact u Hin)).
  - destruct (remove_interfaces_keys ks (usb_storage s) (wf_storage s Hw)) as (_ & H1 & H2 & H3).
    intros k Hk0. split; [|by intros [? ?]; apply H3]. intros Hin. split; [by apply H2|].
    intros Hks. by apply (H1 k).
Qed.

(** ** Root-hub events *)

(** What the root-hub poll of linux_usb.c does with a ready hub: prepare, and
    commit the new bits if there are any.  The new bits are what the hub is told. *)
Definition hub_round (hcd : Z) (status : list Z) (s : usb_state) : usb_state * Z :=
  let '(s, rc, u) := kb_usb_subsystem_hub_event_prepare hcd (Some status) 0 s in
  if negb (rc =? 0) then (s, 0)
  else if hu_new_bits u =? 0 then (s, 0)
  else ((kb_usb_subsystem_hub_event_commit hcd (hu_new_bits u) 0 u s).1.1, hu_new_bits u).

Fixpoint hub_rounds (hcd : Z) (statuses : list (list Z)) (s : usb_state) : usb_state * list Z :=
  match statuses with
  | [] => (s, [])
  | b :: statuses =>
      let '(s, n) := hub_round hcd b s in
      let '(s, ns) := hub_rounds hcd statuses s in (s, n :: ns)
  end.

(** The bits told since the last all-zero status, starting from [j]. *)
Definition latch (j b : Z) : Z := if b =? 0 then 0 else Z.lor j b.

Definition told (hcd : Z) (s : usb_state) : option Z :=
  i ← kb_usb_subsystem_hcd_for_hcd hcd s; h_hub_event_bits <$> usb_hcd_records s !! i.

Lemma told_Some hcd s j :
  told hcd s = Some j <->
  exists i r, kb_usb_subsystem_hcd_for_hcd hcd s = Some i /\ usb_hcd_records s !! i = Some r /\ h_hub_event_bits r = j.
Proof.
  unfold told. split.
  - intros (i & Hi & Hr)%bind_Some. apply fmap_Some in Hr as (r & Hr & ->). eauto.
  - intros (i & r & -> & Hr & <-). cbn. by rewrite Hr.
Qed.

Lemma told_set hcd s j n :
  told hcd s = Some j ->
  exists i, kb_usb_subsystem_hcd_for_hcd hcd s = Some i /\
  told hcd (s <| usb_hcd_records ::= alter (fun r => r <| h_hub_event_bits := n |>) i |>) = Some n.
Proof.
  intros (i & r & Hi & Hr & _)%told_Some. exists i. split; [done|]. apply told_Some.
  exists i, (r <| h_hub_event_bits := n |>). split_and!; [| |done].
  - unfold kb_usb_subsystem_hcd_for_hcd in *. destruct (usb_pointer_is_error_or_low hcd); [done|].
    rewrite <- Hi. by apply first_index_alter.
  - cbn. by rewrite list_lookup_alter_eq, Hr.
Qed.

Lemma told_valid hcd s j : told hcd s = Some j -> hcd <> 0.
Proof.
  intros (i & r & Hi & _)%told_Some ->. by unfold kb_usb_subsystem_hcd_for_hcd in Hi.
Qed.

Lemma lor_ldiff j b : Z.lor j (Z.ldiff b j) = Z.lor j b.
Proof.
  apply Z.bits_inj. intros n. rewrite !Z.lor_spec, Z.ldiff_spec. by destruct (Z.testbit j n), (Z.testbit b n).
Qed.

Lemma hub_round_spec hcd status s j :
  told hcd s = Some j -> status <> [] ->
  let '(s', n) := hub_round hcd status s in
  n = Z.ldiff (hub_status_bits status 0 8) j /\
  told hcd s' = Some (latch j (hub_status_bits status 0 8)).
Proof.
  intros Ht Hs. unfold hub_round, kb_usb_subsystem_hub_event_prepare, hub_event_record_for_hcd.
  set (b := hub_status_bits status 0 8).
  rewrite (proj2 (Z.eqb_neq _ _) (told_valid _ _ _ Ht)).
  assert ((blen status =? 0) = false) as ->.
  { apply Z.eqb_neq. unfold blen. destruct status; [done|cbn [length]; lia]. }
  destruct (told_set hcd s j (if b =? 0 then 0 else j) Ht) as (i & Hi & Ht1).
  rewrite Hi. apply told_Some in Ht as (i' & r & Hi' & Hr & Hj). simplify_eq. rewrite Hr.
  set (s1 := s <| usb_hcd_records ::= _ |>) in *. cbn [negb orb Z.eqb hu_new_bits].
  unfold latch. destruct (Z.eqb_spec b 0) as [Hb|Hb].
  - rewrite Hb, !Z.ldiff_0_l. done.
  - destruct (Z.eqb_spec (Z.ldiff b (h_hub_event_bits r)) 0) as [Hn|Hn].
    + split; [done|]. rewrite Ht1. f_equal. by rewrite <- (lor_ldiff (h_hub_event_bits r) b), Hn, Z.lor_0_r.
    + split; [done|]. unfold kb_usb_subsystem_hub_event_commit, hub_event_record_for_hcd.
      rewrite (proj2 (Z.eqb_neq _ _) (told_valid _ _ _ Ht1)).
      destruct (told_set hcd s1 _ (Z.lor (h_hub_event_bits r) (Z.ldiff b (h_hub_event_bits r))) Ht1) as (i1 & Hi1 & Ht2).
      rewrite Hi1. apply told_Some in Ht1 as (i2 & r1 & Hi2 & Hr1 & Hj1). simplify_eq. rewrite Hr1, Hj1.
      rewrite <- (lor_ldiff _ b), <- Ht2. done.
Qed.

Lemma hub_rounds_spec hcd statuses s j :
  told hcd s = Some j -> Forall (fun b => b <> []) statuses ->
  let bits := map (fun b => hub_status_bits b 0 8) statuses in
  forall k n, (hub_rounds hcd statuses s).2 !! k = Some n ->
  exists b, bits !! k = Some b /\ n = Z.ldiff b (foldl latch j (take k bits)).
Proof.
  revert s j. induction statuses as [|st statuses IH]; intros s j Ht Hne; cbn zeta; intros k n Hk; [done|].
  apply Forall_cons in Hne as [Hst Hne]. cbn [hub_rounds] in Hk.
  pose proof (hub_round_spec hcd st s j Ht Hst) as H1. destruct (hub_round hcd st s) as [s1 n1].
  destruct H1 as [-> Ht1]. specialize (IH s1 _ Ht1 Hne). cbn zeta in IH.
  destruct (hub_rounds hcd statuses s1) as [s2 ns]. destruct k as [|k]; cbn in Hk |- *; [|by apply IH].
  injection Hk as <-. eauto.
Qed.

(** A bit is latched iff it was seen and no all-zero status came after. *)
Lemma latched_bit j bits x :
  Z.testbit (foldl latch j bits) x = true <->
  (exists m b, bits !! m = Some b /\ Z.testbit b x = true /\
     forall z, (m < z)%nat -> bits !! z <> Some 0) \/
  (Z.testbit j x = true /\ 0 ∉ bits).
Proof.
  revert j. induction bits as [|b bits IH]; intros j; cbn [foldl].
  - split; [intros H; right; split; [done|apply not_elem_of_nil]|]. intros [(m & b & Hm & _)|[? _]]; done.
  - rewrite IH, not_elem_of_cons. unfold latch. split.
    + intros [(m & c & Hm & Hc & Hz)|[Hj Hn]].
      * left. exists (S m), c. split_and!; [done|done|]. intros [|z] Hlt; [lia|]. apply Hz. lia.
      * destruct (Z.eqb_spec b 0) as [->|Hb]; [by rewrite Z.bits_0 in Hj|].
        rewrite Z.lor_spec in Hj. apply orb_true_iff in Hj as [Hj|Hj]; [by right|]. left. exists 0%nat, b.
        split_and!; [done|done|]. intros [|z] Hlt; [lia|]. cbn. intros Hin. apply Hn. by eapply list_elem_of_lookup_2.
    + intros [(m & c & Hm & Hc & Hz)|(Hj & Hb & Hn)].
      * destruct m as [|m]; cbn in Hm; [|left; exists m, c; split_and!; [done|done|]; intros z Hlt; apply (Hz (S z)); lia].
        right. injection Hm as ->. split.
        -- destruct (Z.eqb_spec c 0) as [->|]; [by rewrite Z.bits_0 in Hc|]. by rewrite Z.lor_spec, Hc, orb_true_r.
        -- intros Hin. apply list_elem_of_lookup in Hin as [z Hin]. apply (Hz (S z)); [lia|done].
      * right. split; [|done]. destruct (Z.eqb_spec b 0) as [->|]; [done|]. by rewrite Z.lor_spec, Hj.
Qed.

(** Root-hub events are told exactly once per change: over any sequence of
    status polls of a known controller, bit [x] is told in round [k] exactly when the
    status of round [k] has it and every earlier occurrence of it (a bit the
    controller had already latched included) is followed, before round [k], by a
    status with no bit set. *)
Theorem hub_events_told_once hcd statuses s j :
  told hcd s = Some j -> Forall (fun b => b <> []) statuses ->
  let bits := map (fun b => hub_status_bits b 0 8) statuses in
  forall k n x, (hub_rounds hcd statuses s).2 !! k = Some n ->
  Z.testbit n x = true <->
  (exists b, bits !! k = Some b /\ Z.testbit b x = true) /\
  (forall m b, (m < k)%nat -> bits !! m = Some b -> Z.testbit b x = true ->
     exists z, (m < z < k)%nat /\ bits !! z = Some 0) /\
  (Z.testbit j x = true -> exists z, (z < k)%nat /\ bits !! z = Some 0).
Proof.
  intros Ht Hne. cbn zeta. set (bits := map _ statuses). intros k n x Hk.
  destruct (hub_rounds_spec hcd statuses s j Ht Hne k n Hk) as (b & Hb & ->). fold bits in Hb |- *.
  rewrite Z.ldiff_spec, andb_true_iff, negb_true_iff. rewrite <- not_true_iff_false, latched_bit.
  assert (forall m y, take k bits !! m = Some y <-> (m < k)%nat /\ bits !! m = Some y) as Htake
    by (intros m y; rewrite lookup_take_Some; tauto).
  split.
  - intros [Hx Hno]. split; [eauto|]. split.
    + intros m c Hm Hc Hcx. destruct (decide (0 ∈ drop (S m) (take k bits))) as [Hin|Hout].
      * apply list_elem_of_lookup in Hin as [z Hz]. rewrite lookup_drop in Hz. apply Htake in Hz as [Hzk Hz].
        exists (S m + z)%nat. split; [lia|done].
      * destruct Hno. left. exists m, c. split_and!; [by apply Htake|done|]. intros z Hz Hz0. apply Hout.
        apply (list_elem_of_lookup_2 _ (z - S m)). rewrite lookup_drop. by replace (S m + (z - S m))%nat with z by lia.
    + intros Hj. destruct (decide (0 ∈ take k bits)) as [Hin|Hout]; [|by destruct Hno; right].
      apply list_elem_of_lookup in Hin as [z Hz]. apply Htake in Hz as [Hzk Hz]. eauto.
  - intros [(c & Hc & Hcx) [H1 H2]]. simplify_eq. split; [done|]. intros [(m & c & Hm & Hcm & Hz)|[Hj Hn]].
    + apply Htake in Hm as [Hmk Hm]. destruct (H1 m c Hmk Hm Hcm) as (z & Hzr & Hz0). apply (Hz z); [lia|].
      apply Htake. split; [lia|done].
    + destruct (H2 Hj) as (z & Hzk & Hz0). apply Hn, (list_elem_of_lookup_2 _ z), Htake. done.
Qed.

(** ** Examples *)

Definition boot_sample : usb_state := mk_usb_state [] [] [] [] [] [] (block_state_init storage_world_init) [].

Definition device_sample (hcd udev : Z) : kb_usb_device_snapshot :=
  zero_udevice <| ud_hcd := hcd |> <| ud_udev := udev |>.

(** A mass-storage interface (class 8, SCSI commands, bulk only) of device 8192. *)
Definition interface_sample : usb_interface := mk_usb_interface (mk_interface 12288 8192 0 0 0 0 0 8 6 80) 0 0 2.

Definition allocs_sample : block_allocs := mk_block_allocs 1 2 true 3 true 4.

(** Two controllers with a device each; the first device has a disk and an URB. *)
Definition usb_sample : usb_state :=
  let s := (kb_usb_subsystem_hcd_track 65536 500 boot_sample).1 in
  let s := (kb_usb_subsystem_hcd_track 131072 600 s).1 in
  let s := (kb_usb_subsystem_device_observe (Some (device_sample 65536 8192)) true s).1 in
  let s := (kb_usb_subsystem_device_observe (Some (device_sample 131072 9000)) true s).1 in
  let s := (kb_usb_subsystem_interface_observe None allocs_sample (Some interface_sample) true s).1 in
  (kb_usb_subsystem_urb_link 65536 20480 true s).1.

Lemma usb_sample_reached : rtc usb_step boot_sample usb_sample.
Proof.
  repeat (eapply rtc_r; [|constructor; apply (bool_decide_unpack (_ ∉ _)); vm_compute; exact I]). apply rtc_refl.
Qed.

Lemma usb_keys_stay_unique_witness :
  usb_wf usb_sample /\ length (usb_device_records usb_sample) = 2%nat /\
  12288 ∈ ifaces (usb_storage usb_sample).
Proof.
  split; [|split; [reflexivity|]].
  - apply (usb_keys_stay_unique boot_sample usb_sample); [|apply usb_sample_reached].
    split_and!; try reflexivity. apply Forall_replicate. reflexivity.
  - apply (list_elem_of_lookup_2 _ 0). reflexivity.
Defined.

Lemma usb_sample_wf : usb_wf usb_sample.
Proof.
  apply (usb_steps_wf boot_sample); [apply usb_sample_reached|]. apply usb_boot_wf.
  split_and!; try reflexivity. apply Forall_replicate. reflexivity.
Qed.

Lemma hcd_release_removes_its_tree_witness :
  let s' := kb_usb_subsystem_hcd_release 500 usb_sample in
  map ud_udev (usb_device_records s') = [9000] /\ usb_urb_records s' = [] /\ usb_interface_records s' = [] /\
  12288 ∉ ifaces (usb_storage s').
Proof.
  destruct (hcd_release_removes_its_tree 500 usb_sample 1 (new_hcd 500 65536 false) usb_sample_wf
    eq_refl eq_refl eq_refl) as (ks & Hks & _ & Hd & Hu & Hi & _ & _ & Hst).
  cbn zeta. split_and!.
  - rewrite Hd. reflexivity.
  - rewrite Hu. reflexivity.
  - rewrite Hi. reflexivity.
  - intros Hin. apply Hst in Hin; [|lia]. destruct Hin as [_ Hin]. apply Hin, Hks.
    exists interface_sample. split_and!; [by left|by left|reflexivity].
Defined.

Lemma hub_events_told_once_witness :
  let out := (hub_rounds 65536 [[2]; [2; 1]; [0]; [2]] usb_sample).2 in
  out = [2; 256; 0; 2] /\ Z.testbit 256 1 = false.
Proof.
  split; [reflexivity|]. apply not_true_is_false. intros H.
  apply (hub_events_told_once 65536 [[2]; [2; 1]; [0]; [2]] usb_sample 0 eq_refl
    ltac:(by repeat constructor) 1%nat 256 1 eq_refl) in H as (_ & H & _).
  destruct (H 0%nat 2 ltac:(lia) eq_refl eq_refl) as (z & Hz & _). lia.
Defined.
