(* ===== verification/PageArena.v ===== *)
(** * The page arena (src/src/linux_subsystem/kvm/kvm_symbols.c)

    kobox gives the modules 4096 pages of memory of its own, with a 64-byte
    [struct page] record for each, and makes the address arithmetic the kernel
    headers inline into the modules ([virt_to_page], [page_address], ...) come out
    right by the three bases it exports.  With a device behind it the arena is
    mapped for DMA once, through the DMA subsystem (DmaMapping.v), and the bases of
    all loaded modules are rewritten (kb_loader_refresh_page_model_for_all_modules
    of module_loader.c).

    [arena_allocs] is what the allocators answer to a call that creates the arena;
    [calloc] returns zeroed memory, and memory no one wrote reads as 0, so only
    [memset] shows in [pa_mem].  Out parameters are returned. *)

From S2P Require Import Prelude Memory DmaMapping.

Definition KB_KVM_PAGE_SHIFT : Z := 12.
Definition KB_KVM_PAGE_SIZE : Z := 4096.
Definition KB_KVM_STRUCT_PAGE_SIZE : Z := 64.
Definition KB_KVM_PAGE_RECORD_MAX : Z := 4096.
Definition KB_KVM_PAGE_PAYLOAD_BYTES : Z := KB_KVM_PAGE_RECORD_MAX * KB_KVM_PAGE_SIZE.
Definition KB_KVM_PAGE_RECORD_BYTES : Z := KB_KVM_PAGE_RECORD_MAX * KB_KVM_STRUCT_PAGE_SIZE.
Definition KB_KVM_PAGE_ALLOC_HEAD : Z := 0x80.
Definition KB_KVM_PAGE_ALLOC_TAIL : Z := 0x40.
Definition KB_KVM_PAGE_ALLOC_ORDER_MASK : Z := 0x0f.
Definition KB_LOCAL_SHIM_DATA_OFFSET : Z := 48 * 4096.
Definition KB_LOCAL_PAGE_OFFSET_BASE_OFFSET : Z := KB_LOCAL_SHIM_DATA_OFFSET + 7168.
Definition KB_LOCAL_VMEMMAP_BASE_OFFSET : Z := KB_LOCAL_SHIM_DATA_OFFSET + 7176.
Definition KB_LOCAL_PHYS_BASE_OFFSET : Z := KB_LOCAL_SHIM_DATA_OFFSET + 7184.

(** The static variables, with the state of the DMA subsystem and memory. *)
Record page_state := mk_page_state {
  kb_kvm_page_payloads : Z;
  kb_kvm_page_records : Z;
  kb_kvm_page_payloads_alloc : Z;
  kb_kvm_page_records_alloc : Z;
  kb_kvm_page_alloc_state : list Z;
  kb_kvm_dma_arena_backend : Z;
  kb_kvm_dma_arena_mapped : bool;
  kb_kvm_page_offset_base : Z;
  kb_kvm_phys_base : Z;
  kb_kvm_vmemmap_base : Z;
  kb_kvm_page_payload_base : Z;
  kb_kvm_vmemmap_record_base : Z;
  kb_kvm_phys_base_valid : bool;
  pa_dma : dma_state;
  pa_mem : mem;
}.
#[export] Instance page_state_eta : Settable page_state := fun r =>
  mk_page_state (kb_kvm_page_payloads r) (kb_kvm_page_records r) (kb_kvm_page_payloads_alloc r)
    (kb_kvm_page_records_alloc r) (kb_kvm_page_alloc_state r) (kb_kvm_dma_arena_backend r)
    (kb_kvm_dma_arena_mapped r) (kb_kvm_page_offset_base r) (kb_kvm_phys_base r) (kb_kvm_vmemmap_base r)
    (kb_kvm_page_payload_base r) (kb_kvm_vmemmap_record_base r) (kb_kvm_phys_base_valid r) (pa_dma r) (pa_mem r).

Definition free_pages : list Z := replicate (Z.to_nat KB_KVM_PAGE_RECORD_MAX) 0.

Definition page_state_init (d : dma_state) (m : mem) : page_state :=
  mk_page_state 0 0 0 0 free_pages 0 false 0 0 0 0 0 false d m.

(** What kb_kvm_host_alloc_dma_arena and the two [calloc]s answer. *)
Record arena_allocs := mk_arena_allocs {
  aa_host_arena : Z;
  aa_records : Z;
  aa_payloads : Z;
}.

(** The aligned address and [*allocation]. *)
Definition kb_kvm_alloc_aligned_zeroed (size alignment raw : Z) : Z * Z :=
  if (alignment =? 0) || negb (Z.land alignment (alignment - 1) =? 0) then (0, 0)
  else if SIZE_MAX - alignment + 1 <? size then (0, 0)
  else if raw =? 0 then (0, 0)
  else (Z.ldiff (u64 (raw + alignment - 1)) (alignment - 1), raw).

Section arena.
Context (get_ops : Z -> option kb_device_backend_ops) (regions : list Z) (al : arena_allocs).

Definition kb_kvm_ensure_page_arena (s : page_state) : page_state * Z :=
  if negb (kb_kvm_page_payloads s =? 0) && negb (kb_kvm_page_records s =? 0) then (s, 0)
  else
    let '(records, records_alloc) :=
      kb_kvm_alloc_aligned_zeroed KB_KVM_PAGE_RECORD_BYTES KB_KVM_STRUCT_PAGE_SIZE (aa_records al) in
    if records =? 0 then (s, -12)
    else
      let '(payloads, payloads_alloc) :=
        if aa_host_arena al =? 0
        then kb_kvm_alloc_aligned_zeroed KB_KVM_PAGE_PAYLOAD_BYTES KB_KVM_PAGE_SIZE (aa_payloads al)
        else (aa_host_arena al, 0) in
      if payloads =? 0 then (s, -12)
      else (s <| kb_kvm_page_alloc_state := free_pages |>
              <| kb_kvm_page_payloads := payloads |> <| kb_kvm_page_records := records |>
              <| kb_kvm_page_payloads_alloc := payloads_alloc |> <| kb_kvm_page_records_alloc := records_alloc |>, 0).

(** ** The bases *)

Definition kb_kvm_sync_page_model (s : page_state) : page_state :=
  let '(s, r) := kb_kvm_ensure_page_arena s in
  if negb (r =? 0) then
    s <| kb_kvm_page_payload_base := 0 |> <| kb_kvm_page_offset_base := 0 |>
      <| kb_kvm_vmemmap_record_base := 0 |> <| kb_kvm_vmemmap_base := 0 |> <| kb_kvm_phys_base_valid := false |>
  else
    let adjust := u64 (Z.shiftr (kb_kvm_phys_base s) KB_KVM_PAGE_SHIFT * KB_KVM_STRUCT_PAGE_SIZE) in
    s <| kb_kvm_page_payload_base := kb_kvm_page_payloads s |>
      <| kb_kvm_page_offset_base := u64 (kb_kvm_page_payloads s - kb_kvm_phys_base s) |>
      <| kb_kvm_vmemmap_record_base := kb_kvm_page_records s |>
      <| kb_kvm_vmemmap_base := u64 (kb_kvm_page_records s - adjust) |>.

Definition kb_linux_kvm_page_offset_base (s : page_state) : page_state * Z :=
  let s := kb_kvm_sync_page_model s in (s, kb_kvm_page_payload_base s).
Definition kb_linux_kvm_exported_page_offset_base (s : page_state) : page_state * Z :=
  let s := kb_kvm_sync_page_model s in (s, kb_kvm_page_offset_base s).
Definition kb_linux_kvm_vmemmap_base (s : page_state) : page_state * Z :=
  let s := kb_kvm_sync_page_model s in (s, kb_kvm_vmemmap_record_base s).
Definition kb_linux_kvm_exported_vmemmap_base (s : page_state) : page_state * Z :=
  let s := kb_kvm_sync_page_model s in (s, kb_kvm_vmemmap_base s).
Definition kb_linux_kvm_phys_base (s : page_state) : page_state * Z :=
  let s := kb_kvm_sync_page_model s in (s, kb_kvm_phys_base s).

(** [regions] are the shim regions of the loaded modules. *)
Definition refresh_region (page_offset_base vmemmap_base phys_base : Z) (m : mem) (region : Z) : mem :=
  mstore64 (mstore64 (mstore64 m (region + KB_LOCAL_PAGE_OFFSET_BASE_OFFSET) page_offset_base)
              (region + KB_LOCAL_VMEMMAP_BASE_OFFSET) vmemmap_base)
    (region + KB_LOCAL_PHYS_BASE_OFFSET) phys_base.

Definition kb_loader_refresh_page_model_for_all_modules (s : page_state) : page_state :=
  let '(s, page_offset_base) := kb_linux_kvm_exported_page_offset_base s in
  let '(s, vmemmap_base) := kb_linux_kvm_exported_vmemmap_base s in
  let '(s, phys_base) := kb_linux_kvm_phys_base s in
  s <| pa_mem ::= fun m => foldl (refresh_region page_offset_base vmemmap_base phys_base) m regions |>.

(** ** Addresses of pages *)

Definition kb_linux_kvm_payload_dma_addr (cpu_addr size : Z) (s : page_state) : page_state * option Z :=
  if (cpu_addr =? 0) || (size =? 0) then (s, None)
  else
    let s := kb_kvm_sync_page_model s in
    let base := kb_kvm_page_payloads s in
    if (cpu_addr <? base) || (KB_KVM_PAGE_PAYLOAD_BYTES <=? cpu_addr - base) then (s, None)
    else
      let offset := cpu_addr - base in
      if KB_KVM_PAGE_PAYLOAD_BYTES - offset <? size then (s, None)
      else if negb (kb_kvm_phys_base_valid s) then (s, None)
      else (s, Some (u64 (kb_kvm_phys_base s + offset))).

Definition kb_linux_kvm_dma_addr_in_payload_arena (dma_addr size : Z) (s : page_state) : page_state * bool :=
  if (dma_addr =? 0) || (size =? 0) then (s, false)
  else
    let s := kb_kvm_sync_page_model s in
    if negb (kb_kvm_phys_base_valid s) || (dma_addr <? kb_kvm_phys_base s) then (s, false)
    else
      let offset := dma_addr - kb_kvm_phys_base s in
      (s, (offset <? KB_KVM_PAGE_PAYLOAD_BYTES) && (size <=? KB_KVM_PAGE_PAYLOAD_BYTES - offset)).

Definition page_in_use (s : page_state) (index : Z) : bool :=
  negb (nth (Z.to_nat index) (kb_kvm_page_alloc_state s) 0 =? 0).

Definition kb_linux_kvm_page_payload (page offset size : Z) (s : page_state) : page_state * Z :=
  if (page =? 0) || (size =? 0) then (s, 0)
  else if KB_KVM_PAGE_SIZE <=? offset then (s, 0)
  else
    let s := kb_kvm_sync_page_model s in
    let page_base := kb_kvm_page_records s in
    if (page <? page_base) || (KB_KVM_PAGE_RECORD_BYTES <=? page - page_base) then (s, 0)
    else
      let record_offset := page - page_base in
      if negb (record_offset mod KB_KVM_STRUCT_PAGE_SIZE =? 0) then (s, 0)
      else
        let page_index := record_offset / KB_KVM_STRUCT_PAGE_SIZE in
        if KB_KVM_PAGE_RECORD_MAX <=? page_index then (s, 0)
        else
          let span := u64 (offset + size) in
          if span <? size then (s, 0)
          else
            let page_count := u64 (span + KB_KVM_PAGE_SIZE - 1) / KB_KVM_PAGE_SIZE in
            if (page_count =? 0) || (KB_KVM_PAGE_RECORD_MAX - page_index <? page_count) then (s, 0)
            else if forallb (fun n => page_in_use s (page_index + Z.of_nat n)) (seq 0 (Z.to_nat page_count))
                 then (s, u64 (kb_kvm_page_payloads s + page_index * KB_KVM_PAGE_SIZE + offset))
                 else (s, 0).

(** The processor's and the device's address. *)
Definition kb_linux_kvm_page_payload_dma_addr (page offset size : Z) (s : page_state)
    : page_state * option (Z * Z) :=
  let '(s, cpu_addr) := kb_linux_kvm_page_payload page offset size s in
  if cpu_addr =? 0 then (s, None)
  else let '(s, dma_addr) := kb_linux_kvm_payload_dma_addr cpu_addr size s in
       (s, match dma_addr with Some d => Some (cpu_addr, d) | None => None end).

(** ** Mapping the arena for DMA *)

Definition kb_kvm_ensure_dma_arena_mapped (backend : Z) (zalloc : bool) (s : page_state) : page_state * kb_status :=
  let '(s, r) := kb_kvm_ensure_page_arena s in
  if negb (r =? 0) then (s, KB_ERR_NOMEM)
  else if backend =? 0 then (s, KB_ERR_INVALID)
  else if kb_kvm_dma_arena_mapped s then
    (s, if (kb_kvm_dma_arena_backend s =? backend) && kb_kvm_phys_base_valid s then KB_OK else KB_ERR_INVALID)
  else
    let '(d, dma_addr, status) :=
      kb_subsystem_dma_map_persistent_bidirectional get_ops (pa_dma s) backend 0 (kb_kvm_page_payloads s)
        KB_KVM_PAGE_PAYLOAD_BYTES zalloc in
    let s := s <| pa_dma := d |> in
    if negb (bool_decide (status = KB_OK)) || (dma_addr =? 0) then
      (s <| kb_kvm_phys_base_valid := false |> <| kb_kvm_dma_arena_backend := 0 |> <| kb_kvm_dma_arena_mapped := false |>,
       if bool_decide (status = KB_OK) then KB_ERR_IO else status)
    else
      (kb_loader_refresh_page_model_for_all_modules
         (s <| kb_kvm_phys_base := dma_addr |> <| kb_kvm_phys_base_valid := true |>
            <| kb_kvm_dma_arena_backend := backend |> <| kb_kvm_dma_arena_mapped := true |>), KB_OK).

Definition kb_kvm_prepare_dma_arena (backend : Z) (zalloc : bool) (s : page_state) : page_state * Z :=
  let '(s, status) := kb_kvm_ensure_dma_arena_mapped backend zalloc s in
  (s, if bool_decide (status = KB_OK) then 0 else - kb_status_code status).

(** ** Allocating and releasing pages *)

(** [n] of the inner loop: how many pages from [candidate] on are free, at most
    [count]. *)
Fixpoint free_run (state : list Z) (candidate : Z) (count : nat) : nat :=
  match count with
  | O => O
  | S count =>
      if nth (Z.to_nat candidate) state 0 =? 0 then S (free_run state (candidate + 1) count) else O
  end.

(** The outer loop, from [candidate] on; it advances by at least one page in every
    round. *)
Fixpoint scan_pages (fuel : nat) (state : list Z) (candidate page_count : Z) : Z :=
  match fuel with
  | O => KB_KVM_PAGE_RECORD_MAX
  | S fuel =>
      if KB_KVM_PAGE_RECORD_MAX - page_count <? candidate then KB_KVM_PAGE_RECORD_MAX
      else
        let n := Z.of_nat (free_run state candidate (Z.to_nat page_count)) in
        if n =? page_count then candidate else scan_pages fuel state (candidate + n + 1) page_count
  end.

(** The states of a block of [page_count] pages, written over the list at [index]. *)
Definition block_states (order : Z) : list Z :=
  Z.lor KB_KVM_PAGE_ALLOC_HEAD (Z.land order KB_KVM_PAGE_ALLOC_ORDER_MASK)
    :: replicate (Z.to_nat (Z.shiftl 1 order - 1)) KB_KVM_PAGE_ALLOC_TAIL.

(** The second half of alloc_pages: find a free run, mark it, clear it. *)
Definition claim_pages (order : Z) (s : page_state) : page_state * Z :=
  let page_count := Z.shiftl 1 order in
  let index := scan_pages (S (Z.to_nat KB_KVM_PAGE_RECORD_MAX)) (kb_kvm_page_alloc_state s) 0 page_count in
  if index =? KB_KVM_PAGE_RECORD_MAX then (s, 0)
  else
    (s <| kb_kvm_page_alloc_state ::= fun l => splice l index (block_states order) |>
       <| pa_mem ::= fun m =>
            mclear (mclear m (kb_kvm_page_records s + index * KB_KVM_STRUCT_PAGE_SIZE)
                      (page_count * KB_KVM_STRUCT_PAGE_SIZE))
              (kb_kvm_page_payloads s + index * KB_KVM_PAGE_SIZE) (page_count * KB_KVM_PAGE_SIZE) |>,
     kb_kvm_page_records s + index * KB_KVM_STRUCT_PAGE_SIZE).

Definition kb_kvm_alloc_pages_stub (backend : Z) (zalloc : bool) (order : Z) (s : page_state) : page_state * Z :=
  if 8 <=? order then (s, 0)
  else
    let page_count := Z.shiftl 1 order in
    if (page_count =? 0) || (KB_KVM_PAGE_RECORD_MAX <? page_count) then (s, 0)
    else
      let '(s, r) := kb_kvm_ensure_page_arena s in
      if negb (r =? 0) then (s, 0)
      else
        let '(s, status) :=
          if backend =? 0 then (s, KB_OK) else kb_kvm_ensure_dma_arena_mapped backend zalloc s in
        if negb (bool_decide (status = KB_OK)) then (s, 0) else claim_pages order s.

Definition kb_kvm_release_page_index (index order : Z) (s : page_state) : page_state * bool :=
  if (8 <=? order) || (KB_KVM_PAGE_RECORD_MAX <=? index) then (s, false)
  else
    let state := nth (Z.to_nat index) (kb_kvm_page_alloc_state s) 0 in
    if (Z.land state KB_KVM_PAGE_ALLOC_HEAD =? 0) || negb (Z.land state KB_KVM_PAGE_ALLOC_ORDER_MASK =? order)
    then (s, false)
    else
      let page_count := Z.shiftl 1 order in
      if (page_count =? 0) || (KB_KVM_PAGE_RECORD_MAX - index <? page_count) then (s, false)
      else if forallb (fun n => nth (Z.to_nat (index + Z.of_nat n)) (kb_kvm_page_alloc_state s) 0
                                =? KB_KVM_PAGE_ALLOC_TAIL) (seq 1 (Z.to_nat (page_count - 1)))
      then (s <| kb_kvm_page_alloc_state ::= fun l => splice l index (replicate (Z.to_nat page_count) 0) |>, true)
      else (s, false).

Definition kb_kvm_release_pages (page order : Z) (s : page_state) : page_state * bool :=
  if page =? 0 then (s, false)
  else
    let '(s, r) := kb_kvm_ensure_page_arena s in
    if negb (r =? 0) then (s, false)
    else
      let base := kb_kvm_page_records s in
      if (page <? base) || (KB_KVM_PAGE_RECORD_BYTES <=? page - base) then (s, false)
      else
        let offset := page - base in
        if negb (offset mod KB_KVM_STRUCT_PAGE_SIZE =? 0) then (s, false)
        else kb_kvm_release_page_index (offset / KB_KVM_STRUCT_PAGE_SIZE) order s.

Definition kb_kvm_free_pages_stub (page order : Z) (s : page_state) : page_state :=
  (kb_kvm_release_pages page order s).1.

Definition kb_kvm_get_free_pages_stub (backend : Z) (zalloc : bool) (order : Z) (s : page_state) : page_state * Z :=
  let '(s, page) := kb_kvm_alloc_pages_stub backend zalloc order s in
  if page =? 0 then (s, 0)
  else
    let index := (page - kb_kvm_page_records s) / KB_KVM_STRUCT_PAGE_SIZE in
    (s, kb_kvm_page_payloads s + index * KB_KVM_PAGE_SIZE).

Definition kb_kvm_free_pages_addr_stub (addr order : Z) (s : page_state) : page_state :=
  if addr =? 0 then s
  else
    let '(s, r) := kb_kvm_ensure_page_arena s in
    if negb (r =? 0) then s
    else
      let base := kb_kvm_page_payloads s in
      if (addr <? base) || (KB_KVM_PAGE_PAYLOAD_BYTES <=? addr - base) then s
      else
        let offset := addr - base in
        if negb (offset mod KB_KVM_PAGE_SIZE =? 0) then s
        else (kb_kvm_release_page_index (offset / KB_KVM_PAGE_SIZE) order s).1.

Definition kb_kvm_free_pages_exact (virt size : Z) (s : page_state) : page_state :=
  if virt =? 0 then s
  else
    let '(s, r) := kb_kvm_ensure_page_arena s in
    if negb (r =? 0) then s
    else
      let base := kb_kvm_page_payloads s in
      if (virt <? base) || (KB_KVM_PAGE_PAYLOAD_BYTES <=? virt - base) then s
      else
        let offset := virt - base in
        if negb (offset mod KB_KVM_PAGE_SIZE =? 0) then s
        else
          let index := offset / KB_KVM_PAGE_SIZE in
          let state := nth (Z.to_nat index) (kb_kvm_page_alloc_state s) 0 in
          if Z.land state KB_KVM_PAGE_ALLOC_HEAD =? 0 then s
          else
            let order := Z.land state KB_KVM_PAGE_ALLOC_ORDER_MASK in
            let allocation_size := Z.shiftl 1 order * KB_KVM_PAGE_SIZE in
            if (size =? 0) || (allocation_size <? size) then s
            else (kb_kvm_release_page_index index order s).1.
End arena.
