(* ===== verification/PageTheorems.v ===== *)
(** * Theorems about the page arena (PageArena.v)

    The state bytes always describe disjoint blocks; allocation is first fit and
    complete; releasing takes back exactly the block that was handed out; the
    bases make the modules' inlined arithmetic agree with the arena, and the DMA
    addresses of pages lead back to them. *)

From S2P Require Import Prelude Memory DmaMapping PageArena.

(** ** Tilings *)

(** A list of states is a sequence of free pages and blocks. *)
Inductive tiled : list Z -> Prop :=
| tiled_nil : tiled []
| tiled_free l : tiled l -> tiled (0 :: l)
| tiled_block o l : 0 <= o < 8 -> tiled l -> tiled (block_states o ++ l).
Create HintDb pages.
#[export] Hint Constructors tiled : pages.

Lemma order_cases (P : Z -> Prop) :
  P 0 -> P 1 -> P 2 -> P 3 -> P 4 -> P 5 -> P 6 -> P 7 -> forall o, 0 <= o < 8 -> P o.
Proof.
  intros ? ? ? ? ? ? ? ? o Hr. assert (o = 0 \/ o = 1 \/ o = 2 \/ o = 3 \/ o = 4 \/ o = 5 \/ o = 6 \/ o = 7) as Ho by lia.
  by destruct Ho as [->|[->|[->|[->|[->|[->|[->| ->]]]]]]].
Qed.

Definition block_pages (o : Z) : nat := Z.to_nat (Z.shiftl 1 o).

Lemma block_states_eq o : 0 <= o < 8 -> block_states o = (128 + o) :: replicate (block_pages o - 1) 64.
Proof. revert o. apply order_cases; reflexivity. Qed.

Lemma block_pages_range o : 0 <= o < 8 -> (1 <= block_pages o <= 128)%nat.
Proof. revert o. apply order_cases; vm_compute; lia. Qed.

Lemma length_block_states o : 0 <= o < 8 -> length (block_states o) = block_pages o.
Proof.
  intros Ho. rewrite block_states_eq by done. cbn [length]. rewrite length_replicate.
  pose proof (block_pages_range o Ho). lia.
Qed.

Lemma shiftl_block_pages o : 0 <= o < 8 -> Z.shiftl 1 o = Z.of_nat (block_pages o).
Proof. revert o. apply order_cases; reflexivity. Qed.

(** The block of order [o] that starts at page [i]. *)
Definition live (l : list Z) (i : nat) (o : Z) : Prop := 0 <= o < 8 /\ l !! i = Some (128 + o).

Lemma tiled_replicate n l : tiled l -> tiled (replicate n 0 ++ l).
Proof. intros Hl. induction n as [|n IH]; cbn; auto with pages. Qed.

Lemma tiled_app l1 l2 : tiled l1 -> tiled l2 -> tiled (l1 ++ l2).
Proof.
  intros H1 H2. induction H1 as [|l H1 IH|o l Ho H1 IH]; [done| |].
  - by constructor.
  - rewrite <- app_assoc. by constructor.
Qed.

Lemma block_states_lookup o k x :
  0 <= o < 8 -> block_states o !! k = Some x ->
  (k < block_pages o)%nat /\ (k = 0%nat /\ x = 128 + o \/ (0 < k)%nat /\ x = 64).
Proof.
  intros Ho. rewrite block_states_eq by done. intros Hk.
  assert (k < block_pages o)%nat as Hlt.
  { apply lookup_lt_Some in Hk. cbn [length] in Hk. rewrite length_replicate in Hk.
    pose proof (block_pages_range o Ho). lia. }
  split; [done|]. destruct k as [|k]; cbn in Hk; [by injection Hk as <-; left|].
  apply lookup_replicate in Hk as [-> _]. right. split; [lia|done].
Qed.

(** A tiling can be cut before any page that is not inside a block. *)
Lemma tiled_cut l i :
  tiled l -> l !! i <> Some 64 -> tiled (take i l) /\ tiled (drop i l).
Proof.
  intros Hl. revert i. induction Hl as [|l Hl IH|o l Ho Hl IH]; intros i Hi.
  - rewrite take_nil, drop_nil. auto with pages.
  - destruct i as [|i]; cbn; [auto with pages|]. destruct (IH i Hi). auto with pages.
  - destruct (decide (i = 0%nat)) as [->|Hi0]; [rewrite drop_0; auto with pages|].
    destruct (decide (i < block_pages o)%nat) as [Hlt|Hge].
    + destruct Hi. rewrite lookup_app_l by (by rewrite length_block_states).
      rewrite block_states_eq by done. destruct i as [|i]; [done|]. cbn. apply lookup_replicate. split; [done|lia].
    + rewrite take_app_ge, drop_app_ge by (rewrite length_block_states by done; lia).
      rewrite length_block_states by done.
      assert (l !! (i - block_pages o)%nat <> Some 64) as Hi'.
      { intros H. apply Hi. rewrite lookup_app_r by (rewrite length_block_states by done; lia).
        by rewrite length_block_states. }
      destruct (IH _ Hi'). auto with pages.
Qed.

(** What starts with a head is that head's block. *)
Lemma tiled_head o l : 0 <= o < 8 -> tiled l -> l !! 0%nat = Some (128 + o) ->
  exists l', l = block_states o ++ l' /\ tiled l'.
Proof.
  intros Ho Hl H. destruct Hl as [|l Hl|o' l Ho' Hl]; [done| |].
  - cbn in H. injection H as H. lia.
  - rewrite lookup_app_l in H by (rewrite length_block_states by done; pose proof (block_pages_range o' Ho'); lia).
    apply block_states_lookup in H as [_ [[_ H]|[? _]]]; [|lia|done]. assert (o' = o) as -> by lia. eauto.
Qed.

Lemma tiled_live l i o : tiled l -> live l i o ->
  exists l', l = take i l ++ block_states o ++ l' /\ tiled (take i l) /\ tiled l' /\ length (take i l) = i.
Proof.
  intros Hl [Ho Hi]. assert (l !! i <> Some 64) as Hn by (rewrite Hi; intros [= ?]; lia).
  destruct (tiled_cut l i Hl Hn) as [H1 H2].
  destruct (tiled_head o (drop i l) Ho H2) as (l' & Hd & Hl'); [by rewrite lookup_drop, Nat.add_0_r|].
  exists l'. split_and!; [|done|done|].
  - by rewrite <- Hd, take_drop.
  - rewrite length_take. apply lookup_lt_Some in Hi. lia.
Qed.

(** A page is in use exactly when a block covers it. *)
Lemma tiled_in_use l k x :
  tiled l -> l !! k = Some x ->
  x <> 0 <-> exists i o, live l i o /\ (i <= k < i + block_pages o)%nat.
Proof.
  intros Hl. revert k. induction Hl as [|l Hl IH|o l Ho Hl IH]; intros k Hk; [done| |].
  - destruct k as [|k]; cbn in Hk.
    + injection Hk as <-. split; [done|]. intros (i & o & [Ho Hi] & Hr). destruct i as [|i]; [|lia].
      cbn in Hi. injection Hi as Hi. lia.
    + rewrite (IH k Hk). split.
      * intros (i & o & [Ho Hi] & Hr). exists (S i), o. split; [done|lia].
      * intros (i & o & [Ho Hi] & Hr). destruct i as [|i]; cbn in Hi; [injection Hi as Hi; lia|].
        exists i, o. split; [done|lia].
  - pose proof (block_pages_range o Ho) as Hb. pose proof (length_block_states o Ho) as Hlen.
    destruct (decide (k < block_pages o)%nat) as [Hlt|Hge].
    + rewrite lookup_app_l in Hk by lia. pose proof (block_states_lookup o k x Ho Hk) as [_ Hx].
      split; [intros _|intros _; lia]. exists 0%nat, o. split; [|lia]. split; [done|].
      rewrite block_states_eq by done. done.
    + rewrite lookup_app_r in Hk by lia. rewrite (IH _ Hk), Hlen. split.
      * intros (i & p & [Hp Hi] & Hr). exists (i + block_pages o)%nat, p. split; [|lia]. split; [done|].
        rewrite lookup_app_r by lia. rewrite <- Hi. f_equal. lia.
      * intros (i & p & [Hp Hi] & Hr). destruct (decide (i < block_pages o)%nat) as [Hil|Hig].
        -- rewrite lookup_app_l in Hi by lia. apply block_states_lookup in Hi as [_ [[-> Hi]|[_ Hi]]]; [|lia|done].
           assert (p = o) as -> by lia. lia.
        -- rewrite lookup_app_r in Hi by lia. exists (i - block_pages o)%nat, p. split; [|lia].
           split; [done|]. by rewrite <- Hlen.
Qed.

(** Two blocks do not overlap, and every block lies inside the list. *)
Lemma tiled_disjoint l i o j p :
  tiled l -> live l i o -> live l j p ->
  (i + block_pages o <= length l)%nat /\
  (i = j /\ o = p \/ (i + block_pages o <= j)%nat \/ (j + block_pages p <= i)%nat).
Proof.
  intros Hl Hi Hj. destruct (tiled_live l i o Hl Hi) as (l' & Hd & _ & _ & Hlen). destruct Hi as [Ho Hi].
  pose proof (length_block_states o Ho) as Hb. split.
  { rewrite Hd, !length_app, Hb, Hlen. lia. }
  destruct (decide (j < i)%nat) as [Hlt|Hge].
  - right. right. destruct (tiled_live l j p Hl Hj) as (r & Hr & _ & _ & Hlenj). destruct Hj as [Hp Hj].
    apply Nat.le_ngt. intros Hin. rewrite Hr in Hi.
    rewrite lookup_app_r, Hlenj in Hi by lia. rewrite lookup_app_l in Hi by (rewrite length_block_states by done; lia).
    apply block_states_lookup in Hi as [_ [[? _]|[_ ?]]]; [lia|lia|done].
  - destruct (decide (j < i + block_pages o)%nat) as [Hlt'|?]; [|right; left; lia]. left.
    destruct Hj as [Hp Hj]. rewrite Hd in Hj. rewrite lookup_app_r, Hlen in Hj by lia.
    rewrite lookup_app_l in Hj by lia. apply block_states_lookup in Hj as [_ [[? ?]|[_ ?]]]; [|lia|done]. lia.
Qed.

(** ** The scan *)

Definition free_window (state : list Z) (c n : Z) : Prop :=
  forall k, c <= k < c + n -> nth (Z.to_nat k) state 0 = 0.

Lemma free_run_spec state c count :
  let n := free_run state c count in
  (n <= count)%nat /\ free_window state c (Z.of_nat n) /\
  ((n < count)%nat -> nth (Z.to_nat (c + Z.of_nat n)) state 0 <> 0).
Proof.
  revert c. induction count as [|count IH]; intros c; cbn [free_run].
  - split_and!; [lia| |lia]. intros k Hk. lia.
  - destruct (Z.eqb_spec (nth (Z.to_nat c) state 0) 0) as [Hc|Hc].
    + destruct (IH (c + 1)) as (H1 & H2 & H3). split_and!; [lia| |].
      * intros k Hk. destruct (decide (k = c)) as [->|]; [done|]. apply H2. lia.
      * intros Hlt. replace (c + Z.of_nat (S (free_run state (c + 1) count)))
          with (c + 1 + Z.of_nat (free_run state (c + 1) count)) by lia. apply H3. lia.
    + split_and!; [lia| |].
      * intros k Hk. lia.
      * intros _. by rewrite Z.add_0_r.
Qed.

(** With more fuel than pages the scan finds the first free window from
    [candidate] on, or 4096 when there is none. *)
Lemma scan_pages_spec fuel state c n :
  0 <= c -> 1 <= n -> 4096 - c < Z.of_nat fuel ->
  let r := scan_pages fuel state c n in
  (r <= 4096 - n /\ c <= r /\ free_window state r n /\
     forall c', c <= c' < r -> ~ free_window state c' n) \/
  (r = 4096 /\ forall c', c <= c' <= 4096 - n -> ~ free_window state c' n).
Proof.
  revert c. induction fuel as [|fuel IH]; intros c Hc Hn Hf; cbn zeta; [right; split; [done|]; lia|].
  cbn [scan_pages]. unfold KB_KVM_PAGE_RECORD_MAX in *. destruct (Z.ltb_spec (4096 - n) c) as [Hend|Hend].
  { right. split; [done|]. lia. }
  destruct (free_run_spec state c (Z.to_nat n)) as (H1 & H2 & H3).
  set (k := free_run state c (Z.to_nat n)) in *. destruct (Z.eqb_spec (Z.of_nat k) n) as [Hk|Hk].
  { left. rewrite Hk in H2. split_and!; [lia|lia|done|lia]. }
  assert (forall c', c <= c' <= c + Z.of_nat k -> ~ free_window state c' n) as Hskip.
  { intros c' Hc' Hw. apply H3; [lia|]. apply Hw. lia. }
  destruct (IH (c + Z.of_nat k + 1)) as [(A1 & A2 & A3 & A4)|(A1 & A2)]; [lia|lia|lia|left|right].
  - split_and!; [done|lia|done|]. intros c' Hc'. destruct (decide (c' <= c + Z.of_nat k)); [apply Hskip; lia|].
    apply A4. lia.
  - split; [done|]. intros c' Hc'. destruct (decide (c' <= c + Z.of_nat k)); [apply Hskip; lia|]. apply A2. lia.
Qed.

(** Writing a block over free pages. *)
Lemma free_window_replicate l i n :
  free_window l (Z.of_nat i) (Z.of_nat n) -> (i + n <= length l)%nat -> take n (drop i l) = replicate n 0.
Proof.
  intros Hw Hl. apply list_eq. intros k. destruct (decide (k < n)%nat) as [Hk|Hk].
  - rewrite lookup_take_lt, lookup_drop, lookup_replicate_2 by done.
    specialize (Hw (Z.of_nat (i + k)) ltac:(lia)). rewrite Nat2Z.id in Hw.
    destruct (lookup_lt_is_Some_2 l (i + k) ltac:(lia)) as [x Hx]. rewrite Hx.
    by rewrite (nth_lookup_Some _ _ _ _ Hx) in Hw; subst.
  - rewrite lookup_take_ge by lia. symmetry. apply lookup_ge_None_2. rewrite length_replicate. lia.
Qed.


Lemma tiled_zeros n l : tiled (replicate n 0 ++ l) -> tiled l.
Proof.
  induction n as [|n IH]; cbn; [done|]. intros H. apply IH. remember (0 :: replicate n 0 ++ l) as x eqn:Hx.
  destruct H as [|x H|o x Ho H]; [done|by simplify_eq|]. rewrite block_states_eq in Hx by done.
  cbn in Hx. injection Hx as Hx _. lia.
Qed.

Lemma free_window_split l i n :
  tiled l -> free_window l (Z.of_nat i) (Z.of_nat n) -> (i + n <= length l)%nat -> (0 < n)%nat ->
  exists b, l = take i l ++ replicate n 0 ++ b /\ tiled (take i l) /\ tiled b /\ length (take i l) = i.
Proof.
  intros Hl Hw Hlen Hn. pose proof (free_window_replicate l i n Hw Hlen) as Hr.
  assert (l !! i <> Some 64) as Hi.
  { intros H. specialize (Hw (Z.of_nat i) ltac:(lia)). rewrite Nat2Z.id in Hw.
    by rewrite (nth_lookup_Some _ _ _ _ H) in Hw. }
  destruct (tiled_cut l i Hl Hi) as [H1 H2]. exists (drop n (drop i l)). split_and!; [|done| |].
  - by rewrite <- Hr, take_drop, take_drop.
  - apply (tiled_zeros n). by rewrite <- Hr, take_drop.
  - rewrite length_take. lia.
Qed.

Lemma splice_app a b c d :
  length b = length c -> splice (a ++ b ++ d) (Z.of_nat (length a)) c = a ++ c ++ d.
Proof.
  intros Hl. unfold splice, blen. rewrite Nat2Z.id, take_app_length. f_equal. f_equal.
  rewrite <- Hl, drop_app_ge by lia. rewrite drop_app_ge by lia.
  by replace (length a + length b - length a - length b)%nat with 0%nat by lia.
Qed.

(** Which blocks a list of the form prefix, middle, suffix has. *)
Lemma live_app a b i o :
  live (a ++ b) i o <-> live a i o \/ (length a <= i)%nat /\ live b (i - length a) o.
Proof.
  unfold live. rewrite lookup_app_Some. split.
  - intros [Ho [Ha|[Hl Hb]]]; [by left|by right].
  - intros [[Ho Ha]|[Hl [Ho Hb]]]; split; auto.
Qed.

Lemma live_block o i p : 0 <= o < 8 -> live (block_states o) i p <-> i = 0%nat /\ p = o.
Proof.
  intros Ho. split.
  - intros [Hp H]. apply block_states_lookup in H as [_ [[-> H]|[_ H]]]; [|lia|done]. split; [done|lia].
  - intros [-> ->]. split; [done|]. by rewrite block_states_eq.
Qed.

Lemma live_zeros n i p : ~ live (replicate n 0) i p.
Proof. intros [Hp H]. apply lookup_replicate in H as [H _]. lia. Qed.

Lemma allocate_tiled l i o :
  tiled l -> 0 <= o < 8 -> free_window l (Z.of_nat i) (Z.shiftl 1 o) -> (i + block_pages o <= length l)%nat ->
  let l' := splice l (Z.of_nat i) (block_states o) in
  tiled l' /\ length l' = length l /\
  (forall j p, live l' j p <-> live l j p \/ j = i /\ p = o) /\
  (forall j p, live l j p -> (j + block_pages p <= i)%nat \/ (i + block_pages o <= j)%nat).
Proof.
  intros Hl Ho Hw Hlen. rewrite shiftl_block_pages in Hw by done. pose proof (block_pages_range o Ho) as Hb.
  destruct (free_window_split l i _ Hl Hw Hlen ltac:(lia)) as (b & Heq & Ha & Htb & Hla). cbn zeta.
  set (a := take i l) in *. clearbody a. subst l i.
  rewrite splice_app by (by rewrite length_replicate, length_block_states). split_and!.
  - apply tiled_app; [done|]. by constructor.
  - rewrite !length_app, length_block_states, length_replicate by done. done.
  - intros j p. rewrite !live_app, live_block by done. rewrite length_block_states, length_replicate by done.
    split.
    + intros [H|[H1 [[H2 ->]|H2]]]; [by left; left| |].
      * right. split; [lia|done].
      * left. right. split; [done|]. by right.
    + intros [[H|[H1 [H2|H2]]]|[-> ->]]; [by left|by destruct (live_zeros _ _ _ H2)| |].
      * right. split; [done|]. by right.
      * right. split; [lia|]. left. split; [lia|done].
  - intros j p Hj. apply live_app in Hj as [Hj|[H1 Hj]].
    + left. destruct (tiled_disjoint a j p j p Ha Hj Hj) as [H _]. done.
    + right. apply live_app in Hj as [Hj|[H2 Hj]]; [by destruct (live_zeros _ _ _ Hj)|].
      rewrite length_replicate in H2. lia.
Qed.

Lemma release_tiled l i o :
  tiled l -> live l i o ->
  let l' := splice l (Z.of_nat i) (replicate (block_pages o) 0) in
  tiled l' /\ length l' = length l /\ (forall j p, live l' j p <-> live l j p /\ j <> i).
Proof.
  intros Hl Hi. destruct (tiled_live l i o Hl Hi) as (b & Heq & Ha & Htb & Hla). destruct Hi as [Ho _]. cbn zeta.
  set (a := take i l) in *. clearbody a. subst l i.
  pose proof (block_pages_range o Ho) as Hb.
  rewrite splice_app by (by rewrite length_replicate, length_block_states). split_and!.
  - apply tiled_app; [done|]. by apply tiled_replicate.
  - rewrite !length_app, length_block_states, length_replicate by done. done.
  - intros j p. rewrite !live_app, live_block by done. rewrite length_block_states, length_replicate by done. split.
    + intros [H|[H1 [H2|H2]]]; [|by destruct (live_zeros _ _ _ H2)|].
      * split; [by left|]. destruct H as [_ H]. apply lookup_lt_Some in H. lia.
      * split; [|lia]. right. split; [done|]. by right.
    + intros [[H|[H1 [[H2 ->]|H2]]] Hne]; [by left|lia|]. right. split; [done|]. by right.
Qed.

(** ** States *)

Definition arena_ready (s : page_state) : Prop := kb_kvm_page_payloads s <> 0 /\ kb_kvm_page_records s <> 0.

Definition pages_ok (s : page_state) : Prop :=
  tiled (kb_kvm_page_alloc_state s) /\ length (kb_kvm_page_alloc_state s) = 4096%nat.

Lemma free_pages_ok : tiled free_pages /\ length free_pages = 4096%nat.
Proof.
  unfold free_pages. split; [|by rewrite length_replicate]. rewrite <- (app_nil_r (replicate _ _)).
  apply tiled_replicate. constructor.
Qed.

Section operations.
Context (get_ops : Z -> option kb_device_backend_ops) (regions : list Z).

(** What creating the arena leaves alone, and what it establishes. *)
Lemma ensure_arena_spec al s :
  let '(s', r) := kb_kvm_ensure_page_arena al s in
  (s' = s \/ kb_kvm_page_alloc_state s' = free_pages) /\ (pages_ok s -> pages_ok s') /\
  (r = 0 -> arena_ready s') /\ (r <> 0 -> s' = s /\ r = -12) /\ (arena_ready s -> s' = s /\ r = 0) /\
  pa_dma s' = pa_dma s /\ kb_kvm_dma_arena_mapped s' = kb_kvm_dma_arena_mapped s /\
  kb_kvm_phys_base_valid s' = kb_kvm_phys_base_valid s /\ kb_kvm_phys_base s' = kb_kvm_phys_base s /\
  pa_mem s' = pa_mem s.
Proof.
  unfold kb_kvm_ensure_page_arena, arena_ready. destruct (_ && _) eqn:Hr.
  { apply andb_true_iff in Hr as [H1 H2]. boolify. split_and!; try done. by left. }
  assert (~ (kb_kvm_page_payloads s <> 0 /\ kb_kvm_page_records s <> 0)) as Hno.
  { intros [H1 H2]. apply Z.eqb_neq in H1, H2. by rewrite H1, H2 in Hr. }
  destruct (kb_kvm_alloc_aligned_zeroed KB_KVM_PAGE_RECORD_BYTES _ _) as [rec ra].
  destruct (Z.eqb_spec rec 0) as [->|Hrec]; [by split_and!; try done; left|].
  destruct (if aa_host_arena al =? 0 then _ else _) as [pay pall].
  destruct (Z.eqb_spec pay 0) as [->|Hpay]; [by split_and!; try done; left|].
  split_and!; try done; [by right|]. intros _. apply free_pages_ok.
Qed.

Lemma sync_alloc_state al s :
  kb_kvm_page_alloc_state (kb_kvm_sync_page_model al s) =
  kb_kvm_page_alloc_state (kb_kvm_ensure_page_arena al s).1.
Proof.
  unfold kb_kvm_sync_page_model. destruct (kb_kvm_ensure_page_arena al s) as [s' r]. by destruct (negb (r =? 0)).
Qed.

Lemma sync_pages_ok al s : pages_ok s -> pages_ok (kb_kvm_sync_page_model al s).
Proof.
  intros Hs. unfold pages_ok. rewrite sync_alloc_state. pose proof (ensure_arena_spec al s) as H.
  destruct (kb_kvm_ensure_page_arena al s) as [s' r]. by apply H.
Qed.

Lemma refresh_pages_ok al s : pages_ok s -> pages_ok (kb_loader_refresh_page_model_for_all_modules regions al s).
Proof.
  intros Hs. unfold kb_loader_refresh_page_model_for_all_modules, kb_linux_kvm_exported_page_offset_base,
    kb_linux_kvm_exported_vmemmap_base, kb_linux_kvm_phys_base.
  apply sync_pages_ok, sync_pages_ok, sync_pages_ok, Hs.
Qed.

Lemma ensure_mapped_pages_ok al backend z s :
  pages_ok s -> pages_ok (kb_kvm_ensure_dma_arena_mapped get_ops regions al backend z s).1.
Proof.
  intros Hs. unfold kb_kvm_ensure_dma_arena_mapped. pose proof (ensure_arena_spec al s) as H.
  destruct (kb_kvm_ensure_page_arena al s) as [s' r]. destruct H as (_ & H & _). specialize (H Hs).
  destruct (negb (r =? 0)); [done|]. destruct (backend =? 0); [done|].
  destruct (kb_kvm_dma_arena_mapped s'); [done|].
  destruct (kb_subsystem_dma_map_persistent_bidirectional _ _ _ _ _ _ _) as [[d a] st].
  destruct (_ || _); [done|]. cbn [fst]. by apply refresh_pages_ok.
Qed.

(** Releasing by page number: exactly the blocks are taken. *)
Lemma head_bits o : 0 <= o < 8 -> Z.land (128 + o) 128 <> 0 /\ Z.land (128 + o) 15 = o.
Proof. revert o. apply order_cases; done. Qed.

Lemma tiled_byte l i x : tiled l -> l !! i = Some x -> x = 0 \/ x = 64 \/ exists o, 0 <= o < 8 /\ x = 128 + o.
Proof.
  intros Hl. revert i. induction Hl as [|l Hl IH|o l Ho Hl IH]; intros i Hi; [done| |].
  - destruct i as [|i]; cbn in Hi; [injection Hi as <-; by left|eauto].
  - apply lookup_app_Some in Hi as [Hi|[_ Hi]]; [|eauto].
    apply block_states_lookup in Hi as [_ [[_ ->]|[_ ->]]]; eauto.
Qed.

Lemma release_index_live i order s :
  pages_ok s -> 0 <= i -> live (kb_kvm_page_alloc_state s) (Z.to_nat i) order ->
  kb_kvm_release_page_index i order s =
  (s <| kb_kvm_page_alloc_state ::= fun l => splice l i (replicate (block_pages order) 0) |>, true).
Proof.
  intros [Hl Hlen] Hi Hlive. pose proof Hlive as [Ho Hx].
  destruct (tiled_live _ _ _ Hl Hlive) as (b & Heq & _ & _ & Hla).
  destruct (tiled_disjoint _ _ _ _ _ Hl Hlive Hlive) as [Hend _].
  pose proof (lookup_lt_Some _ _ _ Hx) as Hlt. pose proof (block_pages_range order Ho) as Hb.
  unfold kb_kvm_release_page_index, KB_KVM_PAGE_RECORD_MAX. rewrite (nth_lookup_Some _ _ _ _ Hx).
  destruct (head_bits order Ho) as [Hh Hm].
  unfold KB_KVM_PAGE_ALLOC_HEAD, KB_KVM_PAGE_ALLOC_ORDER_MASK. rewrite Hm, Z.eqb_refl. apply Z.eqb_neq in Hh. rewrite Hh.
  rewrite (proj2 (Z.leb_gt 8 order)), (proj2 (Z.leb_gt 4096 i)) by lia. cbn [orb negb].
  rewrite shiftl_block_pages by done. rewrite (proj2 (Z.eqb_neq _ _)), (proj2 (Z.ltb_ge _ _)) by lia. cbn [orb].
  rewrite Nat2Z.id. match goal with |- (if ?b then _ else _) = _ => assert (b = true) as -> end; [|done].
  apply forallb_forall. intros n Hn. apply in_seq in Hn. apply Z.eqb_eq.
  set (a := take (Z.to_nat i) (kb_kvm_page_alloc_state s)) in *.
  replace (Z.to_nat (i + Z.of_nat n)) with (length a + n)%nat by lia. clearbody a.
  rewrite Heq, app_nth2_plus, app_nth1 by (rewrite length_block_states by done; lia).
  rewrite block_states_eq by done. destruct n as [|n]; [lia|]. cbn [nth].
  apply nth_lookup_Some, lookup_replicate. split; [done|]. lia.
Qed.

Lemma release_index_not_live i order s :
  pages_ok s -> 0 <= i -> 0 <= order -> ~ live (kb_kvm_page_alloc_state s) (Z.to_nat i) order ->
  kb_kvm_release_page_index i order s = (s, false).
Proof.
  intros [Hl Hlen] Hi Ho Hno. unfold kb_kvm_release_page_index, KB_KVM_PAGE_RECORD_MAX.
  destruct (Z.leb_spec 8 order); [done|]. destruct (Z.leb_spec 4096 i); [done|]. cbn [orb].
  destruct (lookup_lt_is_Some_2 (kb_kvm_page_alloc_state s) (Z.to_nat i) ltac:(lia)) as [x Hx].
  rewrite (nth_lookup_Some _ _ _ _ Hx).
  destruct (tiled_byte _ _ _ Hl Hx) as [->|[->|(o & Ho' & ->)]]; [done|done|].
  destruct (head_bits o Ho') as [Hh Hm]. unfold KB_KVM_PAGE_ALLOC_HEAD, KB_KVM_PAGE_ALLOC_ORDER_MASK.
  rewrite Hm. destruct (Z.eqb_spec o order) as [->|Hne]; [by destruct Hno|]. by rewrite orb_true_r.
Qed.

Lemma release_index_ok i order s :
  pages_ok s -> 0 <= i -> 0 <= order -> pages_ok (kb_kvm_release_page_index i order s).1.
Proof.
  intros Hs Hi Ho. destruct (decide (0 <= order < 8 /\ kb_kvm_page_alloc_state s !! Z.to_nat i = Some (128 + order)))
    as [Hl|Hn].
  - rewrite release_index_live by done. destruct Hs as [Ht Hlen].
    destruct (release_tiled _ _ _ Ht Hl) as (H1 & H2 & _). rewrite Z2Nat.id in H1, H2 by done.
    split; cbn; [done|congruence].
  - by rewrite release_index_not_live.
Qed.

Lemma release_pages_ok al page order s :
  pages_ok s -> 0 <= order -> pages_ok (kb_kvm_release_pages al page order s).1.
Proof.
  intros Hs Ho. unfold kb_kvm_release_pages. destruct (page =? 0); [done|].
  pose proof (ensure_arena_spec al s) as H. destruct (kb_kvm_ensure_page_arena al s) as [s' r].
  destruct H as (_ & H & _). specialize (H Hs). destruct (negb (r =? 0)); [done|].
  destruct (_ || _) eqn:Hr; [done|]. apply orb_false_iff in Hr as [Hr _]. boolify.
  destruct (negb _); [done|]. apply release_index_ok; [done| |done]. apply Z.div_pos; [lia|done].
Qed.

Lemma free_addr_ok al addr order s : pages_ok s -> 0 <= order -> pages_ok (kb_kvm_free_pages_addr_stub al addr order s).
Proof.
  intros Hs Ho. unfold kb_kvm_free_pages_addr_stub. destruct (addr =? 0); [done|].
  pose proof (ensure_arena_spec al s) as H. destruct (kb_kvm_ensure_page_arena al s) as [s' r].
  destruct H as (_ & H & _). specialize (H Hs). destruct (negb (r =? 0)); [done|].
  destruct (_ || _) eqn:Hr; [done|]. apply orb_false_iff in Hr as [Hr _]. boolify.
  destruct (negb _); [done|]. apply release_index_ok; [done| |done]. apply Z.div_pos; [lia|done].
Qed.

Lemma free_exact_ok al virt size s : pages_ok s -> pages_ok (kb_kvm_free_pages_exact al virt size s).
Proof.
  intros Hs. unfold kb_kvm_free_pages_exact. destruct (virt =? 0); [done|].
  pose proof (ensure_arena_spec al s) as H. destruct (kb_kvm_ensure_page_arena al s) as [s' r].
  destruct H as (_ & H & _). specialize (H Hs). destruct (negb (r =? 0)); [done|].
  destruct (_ || _) eqn:Hr; [done|]. apply orb_false_iff in Hr as [Hr _]. boolify.
  destruct (negb _); [done|]. destruct (_ =? 0); [done|]. destruct (_ || _); [done|].
  apply release_index_ok; [done| |].
  - apply Z.div_pos; [lia|done].
  - apply Z.land_nonneg. by right.
Qed.

(** Claiming pages: the first window that no block meets, or nothing when every
    window meets one. *)
Definition meets (l : list Z) (c n : nat) : Prop :=
  exists j p, live l j p /\ (j < c + n)%nat /\ (c < j + block_pages p)%nat.

Lemma window_not_meets l c n :
  tiled l -> (c + n <= length l)%nat -> (0 < n)%nat -> free_window l (Z.of_nat c) (Z.of_nat n) -> ~ meets l c n.
Proof.
  intros Hl Hlen Hn Hw (j & p & Hj & H1 & H2). assert (exists k, k = Nat.max c j) as [k Hk] by eauto.
  destruct (tiled_disjoint l j p j p Hl Hj Hj) as [Hend _]. pose proof (block_pages_range p (proj1 Hj)).
  destruct (lookup_lt_is_Some_2 l k ltac:(lia)) as [x Hx].
  assert (x <> 0) as Hx0 by (apply (tiled_in_use l k x Hl Hx); exists j, p; split; [done|lia]).
  apply Hx0. rewrite <- (nth_lookup_Some _ _ 0 _ Hx). rewrite <- (Nat2Z.id k) at 1. apply Hw. lia.
Qed.

Lemma window_or_meets l c n :
  tiled l -> (c + n <= length l)%nat -> free_window l (Z.of_nat c) (Z.of_nat n) \/ meets l c n.
Proof.
  intros Hl Hlen. destruct (free_run_spec l (Z.of_nat c) n) as (H1 & H2 & H3).
  destruct (decide (free_run l (Z.of_nat c) n = n)) as [He|Hne]; [left; by rewrite He in H2|right]. specialize (H3 ltac:(lia)).
  destruct (lookup_lt_is_Some_2 l (Z.to_nat (Z.of_nat c + Z.of_nat (free_run l (Z.of_nat c) n))) ltac:(lia)) as [x Hx].
  rewrite (nth_lookup_Some _ _ _ _ Hx) in H3. apply (tiled_in_use l _ x Hl Hx) in H3 as (j & p & Hj & Hr).
  exists j, p. split; [done|lia].
Qed.

Lemma claim_pages_spec order s :
  pages_ok s -> 0 <= order < 8 -> arena_ready s -> 0 <= kb_kvm_page_records s ->
  let n := block_pages order in
  let '(s', page) := claim_pages order s in
  let l := kb_kvm_page_alloc_state s in let l' := kb_kvm_page_alloc_state s' in
  pages_ok s' /\
  ((exists i, page = kb_kvm_page_records s + 64 * Z.of_nat i /\ page <> 0 /\ (i + n <= 4096)%nat /\ ~ meets l i n /\
      (forall c, (c < i)%nat -> meets l c n) /\
      l' = splice l (Z.of_nat i) (block_states order) /\
      (forall j p, live l' j p <-> live l j p \/ j = i /\ p = order) /\
      s' = s <| kb_kvm_page_alloc_state := l' |>
             <| pa_mem := mclear (mclear (pa_mem s) page (64 * Z.of_nat n))
                            (kb_kvm_page_payloads s + 4096 * Z.of_nat i) (4096 * Z.of_nat n) |>) \/
   (page = 0 /\ s' = s /\ forall c, (c + n <= 4096)%nat -> meets l c n)).
Proof.
  intros [Hl Hlen] Ho [_ Hrec] Hrec0. cbn zeta. unfold claim_pages.
  pose proof (block_pages_range order Ho) as Hb. rewrite shiftl_block_pages by done.
  set (l := kb_kvm_page_alloc_state s) in *.
  assert (forall c, 0 <= c <= 4096 - Z.of_nat (block_pages order) ->
    ~ free_window l c (Z.of_nat (block_pages order)) -> meets l (Z.to_nat c) (block_pages order)) as Hm.
  { intros c Hc Hn. destruct (window_or_meets l (Z.to_nat c) (block_pages order) Hl ltac:(lia)) as [Hw|]; [|done].
    rewrite Z2Nat.id in Hw by lia. done. }
  pose proof (scan_pages_spec (S (Z.to_nat KB_KVM_PAGE_RECORD_MAX)) l 0 (Z.of_nat (block_pages order))
    ltac:(lia) ltac:(lia) ltac:(unfold KB_KVM_PAGE_RECORD_MAX; lia)) as Hscan.
  set (r := scan_pages _ l 0 _) in *. clearbody r. unfold KB_KVM_PAGE_RECORD_MAX in *.
  destruct Hscan as [(Hr & Hr0 & Hw & Hfirst)|[-> Hnone]].
  - rewrite (proj2 (Z.eqb_neq r 4096)) by lia. destruct (Z_of_nat_complete r Hr0) as [i ->].
    assert (i + block_pages order <= length l)%nat as Hend by lia.
    pose proof Hw as Hw'. rewrite <- shiftl_block_pages in Hw' by done.
    destruct (allocate_tiled l i order Hl Ho Hw' Hend) as (Ht & Hlen' & Hlive & _).
    split; [split; [exact Ht|exact (eq_trans Hlen' Hlen)]|]. left. exists i. unfold KB_KVM_STRUCT_PAGE_SIZE, KB_KVM_PAGE_SIZE.
    split_and!; try done; try lia.
    + apply window_not_meets; [done|lia|lia|done].
    + intros c Hc. rewrite <- (Nat2Z.id c). apply Hm; [lia|]. apply Hfirst. lia.
    + by rewrite !(Z.mul_comm (Z.of_nat _)).
  - rewrite Z.eqb_refl. split; [done|]. right. split_and!; [done|done|]. intros c Hc.
    rewrite <- (Nat2Z.id c). apply Hm; [lia|]. apply Hnone. lia.
Qed.

Lemma claim_pages_ok order s : pages_ok s -> 0 <= order < 8 -> pages_ok (claim_pages order s).1.
Proof.
  intros Hs Ho. pose proof (block_pages_range order Ho) as Hb. destruct Hs as [Hl Hlen]. unfold claim_pages.
  rewrite shiftl_block_pages by done.
  pose proof (scan_pages_spec (S (Z.to_nat KB_KVM_PAGE_RECORD_MAX)) (kb_kvm_page_alloc_state s) 0
    (Z.of_nat (block_pages order)) ltac:(lia) ltac:(lia) ltac:(unfold KB_KVM_PAGE_RECORD_MAX; lia)) as Hscan.
  set (r := scan_pages _ _ 0 _) in *. clearbody r.
  destruct Hscan as [(Hr & Hr0 & Hw & _)|[-> _]]; [|done]. unfold KB_KVM_PAGE_RECORD_MAX.
  rewrite (proj2 (Z.eqb_neq r 4096)) by lia. destruct (Z_of_nat_complete r Hr0) as [i ->].
  rewrite <- shiftl_block_pages in Hw by done.
  destruct (allocate_tiled _ i order Hl Ho Hw ltac:(lia)) as (Ht & Hlen' & _).
  split; [exact Ht|exact (eq_trans Hlen' Hlen)].
Qed.

Lemma alloc_pages_ok al backend z order s :
  pages_ok s -> 0 <= order -> pages_ok (kb_kvm_alloc_pages_stub get_ops regions al backend z order s).1.
Proof.
  intros Hs Ho. unfold kb_kvm_alloc_pages_stub. destruct (Z.leb_spec 8 order); [done|]. destruct (_ || _); [done|].
  pose proof (ensure_arena_spec al s) as H1. destruct (kb_kvm_ensure_page_arena al s) as [s1 r].
  destruct H1 as (_ & H1 & _). specialize (H1 Hs). destruct (negb (r =? 0)); [done|].
  destruct (backend =? 0); [by apply claim_pages_ok|].
  pose proof (ensure_mapped_pages_ok al backend z s1 H1) as H2.
  destruct (kb_kvm_ensure_dma_arena_mapped _ _ _ _ _ s1) as [s2 st]. destruct (negb _); [done|].
  by apply claim_pages_ok.
Qed.

(** One call into the component, or a change other components make: to the DMA
    subsystem, or to memory. *)
Inductive page_step : page_state -> page_state -> Prop :=
| page_sync al s : page_step s (kb_kvm_sync_page_model al s)
| page_prepare al backend z s : page_step s (kb_kvm_prepare_dma_arena get_ops regions al backend z s).1
| page_alloc al backend z order s :
    0 <= order -> page_step s (kb_kvm_alloc_pages_stub get_ops regions al backend z order s).1
| page_get al backend z order s :
    0 <= order -> page_step s (kb_kvm_get_free_pages_stub get_ops regions al backend z order s).1
| page_free al page order s : 0 <= order -> page_step s (kb_kvm_free_pages_stub al page order s)
| page_free_addr al addr order s : 0 <= order -> page_step s (kb_kvm_free_pages_addr_stub al addr order s)
| page_free_exact al virt size s : page_step s (kb_kvm_free_pages_exact al virt size s)
| page_dma d s : page_step s (s <| pa_dma := d |>)
| page_mem m s : page_step s (s <| pa_mem := m |>).

Lemma page_step_ok s s' : page_step s s' -> pages_ok s -> pages_ok s'.
Proof.
  intros [] Hs; try done; auto using sync_pages_ok, alloc_pages_ok, free_addr_ok, free_exact_ok.
  - unfold kb_kvm_prepare_dma_arena. pose proof (ensure_mapped_pages_ok al backend z s0 Hs) as H.
    by destruct (kb_kvm_ensure_dma_arena_mapped _ _ _ _ _ _).
  - unfold kb_kvm_get_free_pages_stub. pose proof (alloc_pages_ok al backend z order s0 Hs H) as H1.
    destruct (kb_kvm_alloc_pages_stub _ _ _ _ _ _ _) as [t p]. by destruct (p =? 0).
  - by apply release_pages_ok.
Qed.

Lemma page_steps_ok d m s : rtc page_step (page_state_init d m) s -> pages_ok s.
Proof.
  intros H. assert (pages_ok (page_state_init d m)) as H0 by apply free_pages_ok. revert H0.
  induction H as [|s0 s1 s H01 _ IH]; [done|]. intros H0. by apply IH, (page_step_ok s0).
Qed.

(** In every reachable state the 4096 state bytes describe blocks of 1 to 128
    pages that lie inside the arena and do not overlap, and a page is marked as in
    use exactly when one of these blocks covers it. *)
Theorem page_blocks_never_overlap d m s :
  rtc page_step (page_state_init d m) s ->
  let l := kb_kvm_page_alloc_state s in
  (forall i o j p, live l i o -> live l j p ->
     (i + block_pages o <= 4096)%nat /\
     (i = j /\ o = p \/ (i + block_pages o <= j)%nat \/ (j + block_pages p <= i)%nat)) /\
  (forall k, 0 <= k < 4096 ->
     page_in_use s k = true <-> exists i o, live l i o /\ (i <= Z.to_nat k < i + block_pages o)%nat).
Proof.
  intros H. apply page_steps_ok in H as [Hl Hlen]. cbn zeta. split.
  - intros i o j p Hi Hj. destruct (tiled_disjoint _ _ _ _ _ Hl Hi Hj) as [H1 H2]. split; [lia|done].
  - intros k Hk. destruct (lookup_lt_is_Some_2 (kb_kvm_page_alloc_state s) (Z.to_nat k) ltac:(lia)) as [x Hx].
    unfold page_in_use. rewrite (nth_lookup_Some _ _ _ _ Hx), negb_true_iff, Z.eqb_neq.
    by apply tiled_in_use.
Qed.

(** A backend under which the arena needs no (further) mapping. *)
Definition mapped_for (backend : Z) (s : page_state) : Prop :=
  backend = 0 \/ kb_kvm_dma_arena_mapped s = true /\ kb_kvm_dma_arena_backend s = backend /\ kb_kvm_phys_base_valid s = true.

Lemma alloc_pages_claims al backend z order s :
  arena_ready s -> mapped_for backend s -> 0 <= order < 8 ->
  kb_kvm_alloc_pages_stub get_ops regions al backend z order s = claim_pages order s.
Proof.
  intros Hr Hb Ho. pose proof (block_pages_range order Ho) as Hbp.
  unfold kb_kvm_alloc_pages_stub. rewrite (proj2 (Z.leb_gt 8 order)) by lia. rewrite shiftl_block_pages by done.
  unfold KB_KVM_PAGE_RECORD_MAX. rewrite (proj2 (Z.eqb_neq _ _)), (proj2 (Z.ltb_ge _ _)) by lia. cbn [orb].
  assert (kb_kvm_ensure_page_arena al s = (s, 0)) as He.
  { pose proof (ensure_arena_spec al s) as H. destruct (kb_kvm_ensure_page_arena al s).
    destruct H as (_ & _ & _ & _ & H & _). by destruct (H Hr) as [-> ->]. }
  rewrite He. cbn [Z.eqb negb]. destruct Hb as [->|(Hm & Hbk & Hv)]; [done|].
  destruct (Z.eqb_spec backend 0) as [|Hnz]; [done|]. unfold kb_kvm_ensure_dma_arena_mapped.
  rewrite He. cbn [Z.eqb negb]. rewrite (proj2 (Z.eqb_neq _ _) Hnz), Hm, Hv, Hbk, Z.eqb_refl. done.
Qed.

(** Allocation is first fit, complete and clearing: with the arena in place, a
    request of order below 8 gets the lowest run of 2^order pages that meets no
    block, and fails, changing nothing, only when every such run meets one; the
    blocks afterwards are the old ones and the new one; the new pages (and their
    records) read as zeros, and memory outside them is untouched. *)
Theorem page_alloc_first_fit al backend z order s :
  pages_ok s -> arena_ready s -> 0 <= kb_kvm_page_records s -> mapped_for backend s -> 0 <= order < 8 ->
  let n := block_pages order in
  let l := kb_kvm_page_alloc_state s in
  let '(s', page) := kb_kvm_alloc_pages_stub get_ops regions al backend z order s in
  (exists i, page = kb_kvm_page_records s + 64 * Z.of_nat i /\ page <> 0 /\ (i + n <= 4096)%nat /\
     ~ meets l i n /\ (forall c, (c < i)%nat -> meets l c n) /\
     (forall j p, live (kb_kvm_page_alloc_state s') j p <-> live l j p \/ j = i /\ p = order) /\
     (forall a, mem_byte (pa_mem s') a =
        if decide (kb_kvm_page_payloads s + 4096 * Z.of_nat i <= a < kb_kvm_page_payloads s + 4096 * Z.of_nat (i + n) \/
                   page <= a < page + 64 * Z.of_nat n)
        then 0 else mem_byte (pa_mem s) a)) \/
  (page = 0 /\ s' = s /\ forall c, (c + n <= 4096)%nat -> meets l c n).
Proof using All.
  intros Hs Hr Hr0 Hb Ho. cbn zeta. rewrite alloc_pages_claims by done.
  pose proof (claim_pages_spec order s Hs Ho Hr Hr0) as H. cbn zeta in H.
  destruct (claim_pages order s) as [s' page]. destruct H as [_ [(i & H1 & H2 & H3 & H4 & H5 & _ & H7 & H8)|H]]; [left|by right].
  exists i. split_and!; try done. intros a. rewrite H8. cbn [pa_mem]. cbn.
  rewrite !mem_byte_mclear. repeat case_decide; try done; lia.
Qed.

Lemma release_pages_at al i order s :
  arena_ready s -> 0 <= i < 4096 -> kb_kvm_page_records s + 64 * i <> 0 ->
  kb_kvm_release_pages al (kb_kvm_page_records s + 64 * i) order s = kb_kvm_release_page_index i order s.
Proof.
  intros Hr Hi Hp. unfold kb_kvm_release_pages. rewrite (proj2 (Z.eqb_neq _ _) Hp).
  pose proof (ensure_arena_spec al s) as H. destruct (kb_kvm_ensure_page_arena al s) as [s' r].
  destruct H as (_ & _ & _ & _ & H & _). destruct (H Hr) as [-> ->]. cbn [Z.eqb negb].
  unfold KB_KVM_PAGE_RECORD_BYTES, KB_KVM_PAGE_RECORD_MAX, KB_KVM_STRUCT_PAGE_SIZE.
  rewrite (proj2 (Z.ltb_ge _ _)), (proj2 (Z.leb_gt _ _)) by lia. cbn [orb].
  replace (kb_kvm_page_records s + 64 * i - kb_kvm_page_records s) with (i * 64) by lia.
  rewrite Z.mod_mul, Z.div_mul by done. done.
Qed.

Lemma release_pages_elsewhere al page order s :
  pages_ok s -> arena_ready s -> 0 <= order ->
  (forall i, page = kb_kvm_page_records s + 64 * Z.of_nat i -> ~ live (kb_kvm_page_alloc_state s) i order) ->
  kb_kvm_release_pages al page order s = (s, false).
Proof.
  intros Hs Hr Ho Hno. unfold kb_kvm_release_pages. destruct (page =? 0); [done|].
  pose proof (ensure_arena_spec al s) as H. destruct (kb_kvm_ensure_page_arena al s) as [s' r].
  destruct H as (_ & _ & _ & _ & H & _). destruct (H Hr) as [-> ->]. cbn [Z.eqb negb].
  destruct (_ || _) eqn:Hrange; [done|]. apply orb_false_iff in Hrange as [H1 H2].
  unfold KB_KVM_STRUCT_PAGE_SIZE. destruct (Z.eqb_spec ((page - kb_kvm_page_records s) mod 64) 0) as [Hm|]; [|done].
  boolify. cbn [negb]. apply release_index_not_live; [done| |done|].
  - apply Z.div_pos; lia.
  - apply Hno. pose proof (Z.div_mod (page - kb_kvm_page_records s) 64 ltac:(done)).
    rewrite Z2Nat.id by (apply Z.div_pos; lia). lia.
Qed.

(** A block written over free pages and taken away again. *)
Lemma splice_block_back l i o :
  tiled l -> 0 <= o < 8 -> (i + block_pages o <= length l)%nat -> ~ meets l i (block_pages o) ->
  splice (splice l (Z.of_nat i) (block_states o)) (Z.of_nat i) (replicate (block_pages o) 0) = l.
Proof.
  intros Hl Ho Hlen Hno. pose proof (block_pages_range o Ho).
  destruct (window_or_meets l i (block_pages o) Hl Hlen) as [Hw|]; [|done].
  destruct (free_window_split l i _ Hl Hw Hlen ltac:(lia)) as (b & Heq & _ & _ & Hla).
  set (a := take i l) in *. clearbody a. subst l i.
  rewrite !splice_app by (by rewrite length_replicate, length_block_states || by rewrite length_block_states, length_replicate).
  done.
Qed.

Lemma released_window l i o :
  tiled l -> live l i o -> ~ meets (splice l (Z.of_nat i) (replicate (block_pages o) 0)) i (block_pages o).
Proof.
  intros Hl Hi. pose proof (block_pages_range o (proj1 Hi)).
  destruct (release_tiled l i o Hl Hi) as (Ht & Hlen & _).
  destruct (tiled_disjoint l i o i o Hl Hi Hi) as [Hend _].
  apply window_not_meets; [done|lia|lia|]. intros k Hk.
  rewrite nth_splice_in by (rewrite ?blen_replicate; unfold blen; rewrite ?length_replicate; lia).
  destruct (lookup_lt_is_Some_2 (replicate (block_pages o) 0) (Z.to_nat k - i)) as [x Hx].
  { rewrite length_replicate. lia. }
  rewrite Nat2Z.id, (nth_lookup_Some _ _ _ _ Hx). by apply lookup_replicate in Hx as [-> _].
Qed.

(** Releasing takes back exactly what was handed out: given the [struct page]
    of a block and its order, the block (and no other) is gone and its pages are
    free; for any other pointer or order nothing happens.  Releasing a block right
    after its allocation restores the state bytes. *)
Theorem page_release_exact al page order s :
  pages_ok s -> arena_ready s -> 0 <= kb_kvm_page_records s -> 0 <= order ->
  let l := kb_kvm_page_alloc_state s in
  (forall i, page = kb_kvm_page_records s + 64 * Z.of_nat i -> live l i order -> page <> 0 ->
     let '(s', r) := kb_kvm_release_pages al page order s in
     r = true /\ s' = s <| kb_kvm_page_alloc_state := kb_kvm_page_alloc_state s' |> /\
     (forall j p, live (kb_kvm_page_alloc_state s') j p <-> live l j p /\ j <> i) /\
     ~ meets (kb_kvm_page_alloc_state s') i (block_pages order)) /\
  ((forall i, page = kb_kvm_page_records s + 64 * Z.of_nat i -> ~ live l i order) ->
     kb_kvm_release_pages al page order s = (s, false)) /\
  (forall backend z, mapped_for backend s ->
     let '(s1, page1) := kb_kvm_alloc_pages_stub get_ops regions al backend z order s in
     page1 <> 0 -> kb_kvm_page_alloc_state (kb_kvm_release_pages al page1 order s1).1 = l).
Proof using All.
  intros Hs Hr Hr0 Ho. cbn zeta. split_and!.
  - intros i -> Hi Hp. pose proof Hs as [Hl Hlen].
    pose proof (lookup_lt_Some _ _ _ (proj2 Hi)) as Hlt. rewrite release_pages_at by (done || lia).
    rewrite release_index_live; [|done|lia|by rewrite Nat2Z.id].
    destruct (release_tiled _ i order Hl Hi) as (Ht & Hlen' & Hlive).
    split_and!; [done|done|exact Hlive|exact (released_window _ _ _ Hl Hi)].
  - by apply release_pages_elsewhere.
  - intros backend z Hb. destruct (decide (order < 8)) as [Ho8|Ho8].
    2: { unfold kb_kvm_alloc_pages_stub. by rewrite (proj2 (Z.leb_le 8 order)) by lia. }
    rewrite alloc_pages_claims by done. pose proof (claim_pages_spec order s Hs ltac:(lia) Hr Hr0) as H. cbn zeta in H.
    destruct (claim_pages order s) as [s1 page1].
    destruct H as [Hs1 [(i & -> & Hp & Hi & Hno & _ & Hl' & Hlive & Heq)|[-> _]]]; [|done]. intros _.
    assert (kb_kvm_page_records s1 = kb_kvm_page_records s /\ arena_ready s1) as [Hrec Hr1] by (by rewrite Heq).
    rewrite <- Hrec in Hp |- *.
    pose proof (block_pages_range order ltac:(lia)). rewrite release_pages_at by (done || lia).
    rewrite release_index_live; [|done|lia|rewrite Nat2Z.id; apply Hlive; by right].
    cbn [fst]. cbn [kb_kvm_page_alloc_state]. cbn. rewrite Hl'. apply splice_block_back; [apply Hs|lia| |done].
    destruct Hs as [_ ->]. done.
Qed.
End operations.

(** ** The bases *)

(** The arithmetic the kernel headers inline into a module, on the bases the
    module reads. *)
Definition page_to_pfn (vmemmap_base page : Z) : Z := u64 (page - vmemmap_base) / 64.
Definition page_address (page_offset_base vmemmap_base page : Z) : Z :=
  u64 (page_offset_base + page_to_pfn vmemmap_base page * 4096).
Definition virt_to_page (page_offset_base vmemmap_base virt : Z) : Z :=
  u64 (vmemmap_base + u64 (virt - page_offset_base) / 4096 * 64).

(** Where the arena and its records lie: inside the address space, at a
    page-aligned device address whose range does not wrap. *)
Record arena_placed (s : page_state) : Prop := mk_arena_placed {
  ap_payloads : 0 < kb_kvm_page_payloads s /\ kb_kvm_page_payloads s + KB_KVM_PAGE_PAYLOAD_BYTES <= 2 ^ 64;
  ap_records : 0 < kb_kvm_page_records s /\ kb_kvm_page_records s + KB_KVM_PAGE_RECORD_BYTES <= 2 ^ 64;
  ap_phys : 0 <= kb_kvm_phys_base s /\ kb_kvm_phys_base s + KB_KVM_PAGE_PAYLOAD_BYTES < 2 ^ 64;
  ap_aligned : kb_kvm_phys_base s mod 4096 = 0;
}.

Lemma u64_shift x k : u64 (x + k * 2 ^ 64) = u64 x.
Proof. unfold u64. by rewrite Z.mod_add. Qed.

Lemma u64_sub_l a b : u64 (u64 a - b) = u64 (a - b).
Proof. unfold u64. by rewrite Zminus_mod_idemp_l. Qed.
Lemma u64_sub_r a b : u64 (a - u64 b) = u64 (a - b).
Proof. unfold u64. by rewrite Zminus_mod_idemp_r. Qed.
Lemma u64_add_wrap_l a b : u64 (u64 a + b) = u64 (a + b).
Proof. unfold u64. by rewrite Zplus_mod_idemp_l. Qed.

Lemma sync_ready al s :
  arena_ready s ->
  let t := kb_kvm_sync_page_model al s in
  kb_kvm_page_payloads t = kb_kvm_page_payloads s /\ kb_kvm_page_records t = kb_kvm_page_records s /\
  kb_kvm_phys_base t = kb_kvm_phys_base s /\ kb_kvm_phys_base_valid t = kb_kvm_phys_base_valid s /\
  kb_kvm_dma_arena_mapped t = kb_kvm_dma_arena_mapped s /\ kb_kvm_dma_arena_backend t = kb_kvm_dma_arena_backend s /\
  kb_kvm_page_alloc_state t = kb_kvm_page_alloc_state s /\ pa_dma t = pa_dma s /\ pa_mem t = pa_mem s /\
  kb_kvm_page_payload_base t = kb_kvm_page_payloads s /\
  kb_kvm_vmemmap_record_base t = kb_kvm_page_records s /\
  kb_kvm_page_offset_base t = u64 (kb_kvm_page_payloads s - kb_kvm_phys_base s) /\
  kb_kvm_vmemmap_base t = u64 (kb_kvm_page_records s - kb_kvm_phys_base s / 4096 * 64).
Proof.
  intros Hready. cbn zeta. unfold kb_kvm_sync_page_model. pose proof (ensure_arena_spec al s) as H.
  destruct (kb_kvm_ensure_page_arena al s) as [t r]. destruct H as (_ & _ & _ & _ & H & _).
  destruct (H Hready) as [-> ->]. cbn [Z.eqb negb]. split_and!; try done.
  cbn. rewrite u64_sub_r. unfold KB_KVM_STRUCT_PAGE_SIZE, KB_KVM_PAGE_SHIFT. by rewrite Z.shiftr_div_pow2.
Qed.

Section bases.
Context (get_ops : Z -> option kb_device_backend_ops) (regions : list Z) (al : arena_allocs) (s : page_state).
Context (Hplaced : arena_placed s).

Lemma placed_ready : arena_ready s.
Proof using Hplaced. destruct Hplaced as [[? _] [? _] _ _]. split; lia. Qed.

Lemma phys_pages : exists pfn, kb_kvm_phys_base s = 4096 * pfn /\ 0 <= pfn /\ 4096 * pfn + 16777216 < 0x10000000000000000.
Proof using Hplaced.
  destruct Hplaced as [_ _ [H1 H2] H3]. exists (kb_kvm_phys_base s / 4096).
  pose proof (Z.div_mod (kb_kvm_phys_base s) 4096 ltac:(done)) as Hdm. rewrite H3 in Hdm.
  change (2 ^ 64) with 18446744073709551616 in H2.
  unfold KB_KVM_PAGE_PAYLOAD_BYTES, KB_KVM_PAGE_RECORD_MAX, KB_KVM_PAGE_SIZE in H2. lia.
Qed.

(** The arithmetic on the exported bases leads to the pages of the arena. *)
Lemma page_arithmetic i off :
  0 <= i < 4096 -> 0 <= off < 4096 ->
  let t := kb_kvm_sync_page_model al s in
  page_address (kb_kvm_page_offset_base t) (kb_kvm_vmemmap_base t) (kb_kvm_page_records s + 64 * i) =
    kb_kvm_page_payloads s + 4096 * i /\
  virt_to_page (kb_kvm_page_offset_base t) (kb_kvm_vmemmap_base t) (kb_kvm_page_payloads s + 4096 * i + off) =
    kb_kvm_page_records s + 64 * i.
Proof using Hplaced.
  intros Hi Hoff. cbn zeta. destruct (sync_ready al s placed_ready) as (_ & _ & _ & _ & _ & _ & _ & _ & _ & _ & _ & -> & ->).
  destruct phys_pages as (pfn & Hphys & Hpfn). destruct Hplaced as [Hp Hr _ _].
  unfold KB_KVM_PAGE_PAYLOAD_BYTES, KB_KVM_PAGE_RECORD_BYTES, KB_KVM_PAGE_RECORD_MAX, KB_KVM_PAGE_SIZE,
    KB_KVM_STRUCT_PAGE_SIZE in *. rewrite Hphys.
  replace (4096 * pfn / 4096) with pfn by (rewrite Z.mul_comm, Z.div_mul; lia).
  unfold page_address, page_to_pfn, virt_to_page. rewrite !u64_sub_r, !u64_add_wrap_l. split.
  - replace (kb_kvm_page_records s + 64 * i - (kb_kvm_page_records s - pfn * 64)) with ((pfn + i) * 64) by lia.
    rewrite (u64_small ((pfn + i) * 64)) by (unfold is_u64; lia). rewrite Z.div_mul by done.
    replace (kb_kvm_page_payloads s - 4096 * pfn + (pfn + i) * 4096) with (kb_kvm_page_payloads s + 4096 * i) by lia.
    apply u64_small. unfold is_u64. lia.
  - replace (kb_kvm_page_payloads s + 4096 * i + off - (kb_kvm_page_payloads s - 4096 * pfn))
      with (off + (pfn + i) * 4096) by lia.
    rewrite (u64_small (off + (pfn + i) * 4096)) by (unfold is_u64; lia).
    rewrite Z.div_add, (Z.div_small off) by lia.
    replace (kb_kvm_page_records s - pfn * 64 + (0 + (pfn + i)) * 64) with (kb_kvm_page_records s + 64 * i) by lia.
    apply u64_small. unfold is_u64. lia.
Qed.
End bases.

Ltac arena_lia :=
  unfold is_u64, KB_KVM_PAGE_PAYLOAD_BYTES, KB_KVM_PAGE_RECORD_BYTES, KB_KVM_PAGE_RECORD_MAX, KB_KVM_PAGE_SIZE,
    KB_KVM_STRUCT_PAGE_SIZE in *; change (2 ^ 64) with 0x10000000000000000 in *; lia.

(** Shim regions of different modules do not overlap. *)
Definition regions_apart (regions : list Z) : Prop :=
  forall i j a b, regions !! i = Some a -> regions !! j = Some b -> i <> j -> a + 229376 <= b \/ b + 229376 <= a.

Definition region_holds (m : mem) (region po vb pb : Z) : Prop :=
  mload64 m (region + KB_LOCAL_PAGE_OFFSET_BASE_OFFSET) = po /\
  mload64 m (region + KB_LOCAL_VMEMMAP_BASE_OFFSET) = vb /\
  mload64 m (region + KB_LOCAL_PHYS_BASE_OFFSET) = pb.

Ltac region_offsets :=
  unfold KB_LOCAL_PAGE_OFFSET_BASE_OFFSET, KB_LOCAL_VMEMMAP_BASE_OFFSET, KB_LOCAL_PHYS_BASE_OFFSET,
    KB_LOCAL_SHIM_DATA_OFFSET in *.

Lemma refresh_region_holds po vb pb m r :
  is_u64 po -> is_u64 vb -> is_u64 pb -> region_holds (refresh_region po vb pb m r) r po vb pb.
Proof.
  intros. unfold region_holds, refresh_region. region_offsets.
  split_and!; repeat (rewrite mload64_mstore64_other by lia); by rewrite mload64_mstore64_same.
Qed.

Lemma refresh_region_other po vb pb m r q a b c :
  r + 229376 <= q \/ q + 229376 <= r -> region_holds m q a b c -> region_holds (refresh_region po vb pb m r) q a b c.
Proof.
  intros Hapart H. unfold region_holds, refresh_region in *. region_offsets.
  by rewrite !mload64_mstore64_other by lia.
Qed.

Lemma refresh_regions_hold po vb pb regions m :
  is_u64 po -> is_u64 vb -> is_u64 pb -> regions_apart regions ->
  Forall (fun r => region_holds (foldl (refresh_region po vb pb) m regions) r po vb pb) regions.
Proof.
  intros Hpo Hvb Hpb. induction regions as [|r regions IH] using rev_ind; intros Hap; [constructor|].
  rewrite foldl_app. cbn [foldl]. apply Forall_app. split.
  - assert (regions_apart regions) as Hap'.
    { intros i j a b Hi Hj. apply Hap; apply lookup_app_l_Some; done. }
    specialize (IH Hap'). apply Forall_forall. intros q Hq. rewrite Forall_forall in IH.
    apply refresh_region_other; [|by apply IH]. apply list_elem_of_lookup in Hq as [i Hi].
    apply (Hap (length regions) i); [|by apply lookup_app_l_Some|].
    + rewrite lookup_app_r by done. by rewrite Nat.sub_diag.
    + apply lookup_lt_Some in Hi. lia.
  - constructor; [|constructor]. by apply refresh_region_holds.
Qed.

(** A successful mapping is the newest entry of the DMA subsystem's list. *)
Lemma map_persistent_newest get_ops d b dev c sz z d' a :
  kb_subsystem_dma_map_persistent_bidirectional get_ops d b dev c sz z = (d', a, KB_OK) ->
  exists device, dma_mappings d' = mk_mapping c a sz device false true :: dma_mappings d.
Proof.
  unfold kb_subsystem_dma_map_persistent_bidirectional, dma_map_with_lifetime, remember_dma_mapping_full.
  intros H. repeat (case_match; simplify_eq/=); eauto.
Qed.

Lemma dma_cpu_addr_newest d c a sz dev l k :
  dma_mappings d = mk_mapping c a sz dev false true :: l ->
  0 <= a -> 0 <= k < sz -> a + sz < 2 ^ 64 -> 0 <= c -> c + sz <= 2 ^ 64 ->
  kb_subsystem_dma_cpu_addr d (a + k) = (c + k, sz - k).
Proof.
  intros Hd Ha Hk Hend Hc Hcend. unfold kb_subsystem_dma_cpu_addr. rewrite Hd.
  change (2 ^ 64) with 0x10000000000000000 in *.
  assert (dma_contains (a + k) (mk_mapping c a sz dev false true) = true) as Hin.
  { unfold dma_contains. cbn [m_dma_addr m_size]. rewrite u64_small by (unfold is_u64; lia).
    apply andb_true_iff. rewrite Z.leb_le, Z.ltb_lt. lia. }
  cbn [list_find]. rewrite decide_True by done. cbn [m_dma_addr m_cpu_addr m_size].
  rewrite !u64_small by (unfold is_u64; lia). f_equal; lia.
Qed.

Section mapping.
Context (get_ops : Z -> option kb_device_backend_ops) (regions : list Z) (al : arena_allocs).

(** Refreshing the modules changes the bases as a synchronisation does, and the
    modules' copies. *)
Lemma refresh_ready s :
  arena_ready s ->
  let t := kb_loader_refresh_page_model_for_all_modules regions al s in
  let po := u64 (kb_kvm_page_payloads s - kb_kvm_phys_base s) in
  let vb := u64 (kb_kvm_page_records s - kb_kvm_phys_base s / 4096 * 64) in
  kb_kvm_page_payloads t = kb_kvm_page_payloads s /\ kb_kvm_page_records t = kb_kvm_page_records s /\
  kb_kvm_phys_base t = kb_kvm_phys_base s /\ kb_kvm_phys_base_valid t = kb_kvm_phys_base_valid s /\
  kb_kvm_dma_arena_mapped t = kb_kvm_dma_arena_mapped s /\ kb_kvm_dma_arena_backend t = kb_kvm_dma_arena_backend s /\
  pa_dma t = pa_dma s /\
  pa_mem t = foldl (refresh_region po vb (kb_kvm_phys_base s)) (pa_mem s) regions.
Proof.
  intros Hr. cbn zeta.
  unfold kb_loader_refresh_page_model_for_all_modules, kb_linux_kvm_exported_page_offset_base,
    kb_linux_kvm_exported_vmemmap_base, kb_linux_kvm_phys_base.
  destruct (sync_ready al s Hr) as (A1 & A2 & A3 & A4 & A5 & A6 & _ & A8 & A9 & _ & _ & A12 & A13).
  set (s1 := kb_kvm_sync_page_model al s) in *.
  assert (arena_ready s1) as Hr1 by (unfold arena_ready; by rewrite A1, A2).
  destruct (sync_ready al s1 Hr1) as (B1 & B2 & B3 & B4 & B5 & B6 & _ & B8 & B9 & _ & _ & B12 & B13).
  set (s2 := kb_kvm_sync_page_model al s1) in *.
  assert (arena_ready s2) as Hr2 by (unfold arena_ready; by rewrite B1, B2).
  destruct (sync_ready al s2 Hr2) as (C1 & C2 & C3 & C4 & C5 & C6 & _ & C8 & C9 & _ & _ & C12 & C13).
  set (s3 := kb_kvm_sync_page_model al s2) in *. clearbody s1 s2 s3.
  split_and!; cbn; congruence.
Qed.

Lemma prepare_first backend z s s' :
  kb_kvm_dma_arena_mapped s = false ->
  kb_kvm_prepare_dma_arena get_ops regions al backend z s = (s', 0) ->
  backend <> 0 /\ arena_ready s' /\ kb_kvm_dma_arena_mapped s' = true /\ kb_kvm_dma_arena_backend s' = backend /\
  kb_kvm_phys_base_valid s' = true /\
  (exists device l, dma_mappings (pa_dma s') =
     mk_mapping (kb_kvm_page_payloads s') (kb_kvm_phys_base s') KB_KVM_PAGE_PAYLOAD_BYTES device false true :: l) /\
  exists m, pa_mem s' = foldl (refresh_region (u64 (kb_kvm_page_payloads s' - kb_kvm_phys_base s'))
              (u64 (kb_kvm_page_records s' - kb_kvm_phys_base s' / 4096 * 64)) (kb_kvm_phys_base s')) m regions.
Proof.
  intros Hm. unfold kb_kvm_prepare_dma_arena, kb_kvm_ensure_dma_arena_mapped.
  pose proof (ensure_arena_spec al s) as H. destruct (kb_kvm_ensure_page_arena al s) as [t r].
  destruct H as (_ & _ & Hready & _ & _ & _ & Hm' & _). destruct (Z.eqb_spec r 0) as [Hr|]; cbn [negb].
  2: { cbn. intros [= ?]. }
  destruct (Z.eqb_spec backend 0) as [|Hb]; [cbn; intros [= ?]|]. rewrite Hm', Hm.
  destruct (kb_subsystem_dma_map_persistent_bidirectional _ _ _ _ _ _ _) as [[d a] st] eqn:Hmap.
  destruct (negb _ || _) eqn:Hfail.
  { intros Hx. exfalso. apply pair_equal_spec in Hx as [_ Hx]. revert Hx. by destruct st. }
  apply orb_false_iff in Hfail as [Hok Ha]. apply negb_false_iff, bool_decide_eq_true in Hok as ->. boolify.
  intros Hx. apply pair_equal_spec in Hx as [<- _].
  destruct (map_persistent_newest _ _ _ _ _ _ _ _ _ Hmap) as [device Hd].
  match goal with |- context [kb_loader_refresh_page_model_for_all_modules _ _ ?x] => set (t1 := x) end.
  assert (arena_ready t1) as Hr1 by apply (Hready Hr).
  destruct (refresh_ready t1 Hr1) as (A1 & A2 & A3 & A4 & A5 & A6 & A7 & A8).
  unfold arena_ready. rewrite A1, A2, A3, A4, A5, A6, A7, A8. split_and!; try done.
  - apply Hr1.
  - apply Hr1.
  - exists device, (dma_mappings (pa_dma t)). exact Hd.
  - eexists. reflexivity.
Qed.
End mapping.

(** Once the arena is mapped for a device, all views of a page agree, for every
    loaded module: with the bases the module finds in its shim region, the
    arithmetic its headers inlined turns [struct page] number [i] into the address
    of page [i] and back; kobox's own DMA look-up gives byte [k] of the arena the
    device address base + [k], which the DMA subsystem translates back to byte [k]
    with the rest of the arena available; and mapping it again changes nothing.
    (The device address has to be page-aligned, the regions disjoint.) *)
Theorem arena_views_agree get_ops regions al backend z s s' :
  kb_kvm_dma_arena_mapped s = false -> kb_kvm_prepare_dma_arena get_ops regions al backend z s = (s', 0) ->
  arena_placed s' -> regions_apart regions ->
  let records := kb_kvm_page_records s' in let payloads := kb_kvm_page_payloads s' in
  (forall region i off, region ∈ regions -> 0 <= i < 4096 -> 0 <= off < 4096 ->
     let po := mload64 (pa_mem s') (region + KB_LOCAL_PAGE_OFFSET_BASE_OFFSET) in
     let vb := mload64 (pa_mem s') (region + KB_LOCAL_VMEMMAP_BASE_OFFSET) in
     page_address po vb (records + 64 * i) = payloads + 4096 * i /\
     virt_to_page po vb (payloads + 4096 * i + off) = records + 64 * i) /\
  (forall al' k size, 0 <= k -> 0 < size -> k + size <= KB_KVM_PAGE_PAYLOAD_BYTES ->
     (kb_linux_kvm_payload_dma_addr al' (payloads + k) size s').2 = Some (kb_kvm_phys_base s' + k) /\
     kb_subsystem_dma_cpu_addr (pa_dma s') (kb_kvm_phys_base s' + k) = (payloads + k, KB_KVM_PAGE_PAYLOAD_BYTES - k)) /\
  (forall al' z', kb_kvm_prepare_dma_arena get_ops regions al' backend z' s' = (s', 0)).
Proof.
  intros Hm Hprep Hpl Hap. cbn zeta.
  destruct (prepare_first get_ops regions al backend z s s' Hm Hprep)
    as (Hb & Hr & Hmap & Hbk & Hv & (device & l & Hd) & (m & Hmem)).
  pose proof Hpl as [[P1 P2] _ [Q1 Q2] _].
  split_and!.
  - intros region i off Hreg Hi Hoff.
    assert (is_u64 (kb_kvm_phys_base s')) as Hphys by arena_lia.
    pose proof (refresh_regions_hold (u64 (kb_kvm_page_payloads s' - kb_kvm_phys_base s'))
      (u64 (kb_kvm_page_records s' - kb_kvm_phys_base s' / 4096 * 64)) (kb_kvm_phys_base s') regions m
      (u64_range _) (u64_range _) Hphys Hap) as Hh.
    rewrite Forall_forall in Hh. destruct (Hh region Hreg) as (E1 & E2 & _). rewrite <- Hmem in E1, E2.
    rewrite E1, E2. pose proof (page_arithmetic al s' Hpl i off Hi Hoff) as Hpa. cbn zeta in Hpa.
    by destruct (sync_ready al s' Hr) as (_ & _ & _ & _ & _ & _ & _ & _ & _ & _ & _ & <- & <-).
  - intros al' k size Hk Hsz Hend. split.
    + unfold kb_linux_kvm_payload_dma_addr. rewrite (proj2 (Z.eqb_neq _ _)), (proj2 (Z.eqb_neq _ _)) by lia. cbn [orb].
      destruct (sync_ready al' s' Hr) as (-> & _ & -> & -> & _). rewrite Hv.
      rewrite (proj2 (Z.ltb_ge _ _)), (proj2 (Z.leb_gt _ _)) by lia. cbn [orb].
      rewrite (proj2 (Z.ltb_ge _ _)) by lia. cbn [negb snd]. f_equal.
      replace (kb_kvm_page_payloads s' + k - kb_kvm_page_payloads s') with k by lia.
      apply u64_small. arena_lia.
    + apply (dma_cpu_addr_newest _ _ _ _ device l); [done|done|lia|done|lia|done].
  - intros al' z'. unfold kb_kvm_prepare_dma_arena, kb_kvm_ensure_dma_arena_mapped.
    pose proof (ensure_arena_spec al' s') as H. destruct (kb_kvm_ensure_page_arena al' s') as [t r].
    destruct H as (_ & _ & _ & _ & H & _). destruct (H Hr) as [-> ->]. cbn [Z.eqb negb].
    by rewrite (proj2 (Z.eqb_neq _ _) Hb), Hmap, Hbk, Hv, Z.eqb_refl.
Qed.

(** ** Examples *)

(** A device that sees memory 0x100000000 higher. *)
Definition shifted_backend (b : Z) : option kb_device_backend_ops :=
  if b =? 0x5000
  then Some (mk_backend_ops (Some (fun _ _ => (KB_OK, 7))) None false
               (Some (fun _ _ cpu _ _ => (KB_OK, cpu + 0x100000000))) None None true)
  else None.

Definition arena_sample : arena_allocs := mk_arena_allocs 0 0x10001 0x200001.

Definition mapped_sample : page_state :=
  (kb_kvm_prepare_dma_arena shifted_backend [0x40000000; 0x50000000] arena_sample 0x5000 true
     (page_state_init dma_state_init ∅)).1.

Definition pages_sample : page_state :=
  (kb_kvm_alloc_pages_stub shifted_backend [] arena_sample 0 true 0
     (kb_kvm_alloc_pages_stub shifted_backend [] arena_sample 0 true 1 (page_state_init dma_state_init ∅)).1).1.

Lemma pages_sample_reached : rtc (page_step shifted_backend []) (page_state_init dma_state_init ∅) pages_sample.
Proof. eapply rtc_r; [eapply rtc_r; [apply rtc_refl|]|]; by apply page_alloc. Qed.

Lemma page_blocks_never_overlap_witness :
  live (kb_kvm_page_alloc_state pages_sample) 0 1 /\ live (kb_kvm_page_alloc_state pages_sample) 2 0 /\
  (0 + block_pages 1 <= 2)%nat.
Proof.
  assert (live (kb_kvm_page_alloc_state pages_sample) 0 1) as H1 by (split; [lia|vm_compute; reflexivity]).
  assert (live (kb_kvm_page_alloc_state pages_sample) 2 0) as H2 by (split; [lia|vm_compute; reflexivity]).
  split_and!; [exact H1|exact H2|].
  destruct (page_blocks_never_overlap shifted_backend [] dma_state_init ∅ pages_sample pages_sample_reached) as [H _].
  destruct (H 0%nat 1 2%nat 0 H1 H2) as [_ [[? _]|[?|?]]]; lia.
Defined.

Lemma pages_sample_ok : pages_ok pages_sample /\ arena_ready pages_sample.
Proof.
  split; [apply (page_steps_ok _ _ _ _ _ pages_sample_reached)|]. split; vm_compute; discriminate.
Qed.

Lemma page_alloc_first_fit_witness :
  (kb_kvm_alloc_pages_stub shifted_backend [] arena_sample 0 true 1 pages_sample).2 = 0x10040 + 64 * 3 /\
  ~ meets (kb_kvm_page_alloc_state pages_sample) 3 2 /\ meets (kb_kvm_page_alloc_state pages_sample) 1 2.
Proof.
  pose proof (page_alloc_first_fit shifted_backend [] arena_sample 0 true 1 pages_sample (proj1 pages_sample_ok)
    (proj2 pages_sample_ok) ltac:(vm_compute; discriminate) ltac:(by left) ltac:(lia)) as H.
  assert ((kb_kvm_alloc_pages_stub shifted_backend [] arena_sample 0 true 1 pages_sample).2 = 0x10040 + 64 * 3) as Hp
    by (vm_compute; reflexivity).
  assert (kb_kvm_page_records pages_sample = 0x10040) as Hrec by (vm_compute; reflexivity).
  split; [exact Hp|]. cbn zeta in H.
  destruct (kb_kvm_alloc_pages_stub shifted_backend [] arena_sample 0 true 1 pages_sample) as [s' page].
  cbn [snd] in Hp. destruct H as [(i & H1 & _ & _ & H4 & H5 & _)|[H1 _]]; [|lia].
  assert (i = 3%nat) as -> by lia. split; [exact H4|]. apply H5. lia.
Defined.

Lemma page_release_exact_witness :
  kb_kvm_release_pages arena_sample (0x10040 + 64 * 1) 0 pages_sample = (pages_sample, false) /\
  (kb_kvm_release_pages arena_sample 0x10040 1 pages_sample).2 = true.
Proof.
  assert (kb_kvm_page_records pages_sample = 0x10040) as Hrec by (vm_compute; reflexivity).
  assert (forall page order, 0 <= order -> _) as H by (intros page order Ho;
    exact (page_release_exact shifted_backend [] arena_sample page order pages_sample (proj1 pages_sample_ok)
      (proj2 pages_sample_ok) ltac:(vm_compute; discriminate) Ho)). cbn zeta in H.
  split.
  - apply (proj1 (proj2 (H (0x10040 + 64 * 1) 0 ltac:(lia)))). rewrite Hrec. intros i Hi [_ Hl].
    assert (i = 1%nat) as -> by lia. vm_compute in Hl. discriminate Hl.
  - pose proof (proj1 (H 0x10040 1 ltac:(lia)) 0%nat) as H1. rewrite Hrec in H1.
    specialize (H1 ltac:(lia) ltac:(split; [lia|vm_compute; reflexivity]) ltac:(lia)).
    destruct (kb_kvm_release_pages arena_sample 0x10040 1 pages_sample) as [s' r]. apply H1.
Defined.

Lemma mapped_sample_eq :
  kb_kvm_prepare_dma_arena shifted_backend [0x40000000; 0x50000000] arena_sample 0x5000 true
    (page_state_init dma_state_init ∅) = (mapped_sample, 0).
Proof.
  rewrite (surjective_pairing (kb_kvm_prepare_dma_arena _ _ _ _ _ _)). unfold mapped_sample.
  apply (f_equal (pair _)). vm_compute. reflexivity.
Qed.

Lemma arena_views_agree_witness :
  let s' := mapped_sample in
  mload64 (pa_mem s') (0x50000000 + KB_LOCAL_PHYS_BASE_OFFSET) = 0x100201000 /\
  kb_subsystem_dma_cpu_addr (pa_dma s') (0x100201000 + 5000) = (0x201000 + 5000, 16777216 - 5000) /\
  page_address (mload64 (pa_mem s') (0x50000000 + KB_LOCAL_PAGE_OFFSET_BASE_OFFSET))
    (mload64 (pa_mem s') (0x50000000 + KB_LOCAL_VMEMMAP_BASE_OFFSET)) (0x10040 + 64 * 9) = 0x201000 + 4096 * 9.
Proof.
  assert (kb_kvm_page_records mapped_sample = 0x10040 /\ kb_kvm_page_payloads mapped_sample = 0x201000 /\
          kb_kvm_phys_base mapped_sample = 0x100201000) as (E1 & E2 & E3) by (vm_compute; split_and!; reflexivity).
  assert (arena_placed mapped_sample) as Hpl.
  { split; rewrite ?E1, ?E2, ?E3; vm_compute; split_and?; try reflexivity; try discriminate. }
  assert (regions_apart [0x40000000; 0x50000000]) as Hap.
  { intros [|[|i]] [|[|j]] a b Ha Hb Hij; try done; injection Ha as <-; injection Hb as <-; lia. }
  destruct (arena_views_agree shifted_backend [0x40000000; 0x50000000] arena_sample 0x5000 true
    (page_state_init dma_state_init ∅) mapped_sample eq_refl mapped_sample_eq
    Hpl Hap) as (H1 & H2 & _).
  rewrite E1, E2 in H1. rewrite E2, E3 in H2. cbn zeta. split_and!.
  - vm_compute. reflexivity.
  - apply (H2 arena_sample 5000 1); unfold KB_KVM_PAGE_PAYLOAD_BYTES, KB_KVM_PAGE_RECORD_MAX, KB_KVM_PAGE_SIZE; lia.
  - apply (H1 0x50000000 9 0); [by right; left|lia|lia].
Defined.
