(* ===== verification/LinuxDma.v ===== *)
(** * The kernel's DMA interface for modules (linux_dma.c, linux_dma_pool.c and the
    scatterlist helpers of linux_input.c, under src/src/linux_personality)

    Modules map memory by [struct page] and offset, by address, or through pools;
    scatterlists name a buffer by a page link.  A page of the arena (PageArena.v)
    already has a device address; any other buffer is named by a tagged number
    that encodes its page, decoded again before the DMA subsystem (DmaMapping.v)
    maps it.

    [device_for] is kb_pci_backend_device_for_linux_dev of linux_pci.c, [backend]
    the current device backend; both are arguments, as are the answers of the
    allocators.  Trace output is left out; the aliases without the kb_ prefix only
    forward. *)

From S2P Require Import Prelude Memory DmaMapping PageArena.

Definition KB_LINUX_DMA_ENCODED_PAGE_TAG : Z := 2 ^ 63.
Definition KB_LINUX_DMA_MAPPING_ERROR : Z := UINT64_MAX.

Definition linux_dma_dir (dir : Z) : Z :=
  if dir =? 1 then KB_DMA_TO_DEVICE else if dir =? 2 then KB_DMA_FROM_DEVICE else KB_DMA_BIDIRECTIONAL.

(** The CPU address, if [page] encodes one. *)
Definition linux_page_to_cpu_addr (page offset : Z) : option Z :=
  if page =? 0 then None
  else if 0xfff <? offset then None
  else if Z.land page KB_LINUX_DMA_ENCODED_PAGE_TAG =? 0 then None
  else
    let encoded := Z.ldiff page KB_LINUX_DMA_ENCODED_PAGE_TAG in
    if negb (Z.land encoded 0x3f =? 0) then None
    else Some (u64 (u64 (Z.shiftl (Z.shiftr encoded 6) 12) + offset)).

(** ** Scatterlists *)

Definition KB_INPUT_SG_SIZE : Z := 32.
Definition KB_INPUT_STRUCT_PAGE_SIZE : Z := 64.
Definition KB_INPUT_PAGE_RECORD_MAX : Z := 4096.
Definition KB_INPUT_PAGE_SIZE : Z := 4096.
Definition KB_INPUT_PAGE_SHIFT : Z := 12.
Definition KB_INPUT_PAGE_MASK : Z := 0xfff.
Definition KB_INPUT_SG_PAGE_LINK_OFFSET : Z := 0x0.
Definition KB_INPUT_SG_OFFSET_OFFSET : Z := 0x8.
Definition KB_INPUT_SG_LENGTH_OFFSET : Z := 0xc.
Definition KB_INPUT_SG_END : Z := 0x2.
Definition KB_INPUT_ENCODED_PAGE_TAG : Z := 2 ^ 63.

Definition write_ptr_at (base offset ptr : Z) (m : mem) : mem := mstore64 m (base + offset) ptr.
Definition write_u32_at (base offset value : Z) (m : mem) : mem := mstore32 m (base + offset) value.

Section dma.
Context (get_ops : Z -> option kb_device_backend_ops) (al : arena_allocs).

(** The page and the offset of a buffer in the arena. *)
Definition page_for_buffer (buf buflen : Z) (s : page_state) : page_state * option (Z * Z) :=
  let '(s, page_offset) := kb_linux_kvm_page_offset_base al s in
  let payload_size := KB_INPUT_PAGE_RECORD_MAX * KB_INPUT_PAGE_SIZE in
  if (page_offset =? 0) || (buf <? page_offset) || (u64 (page_offset + payload_size) <=? buf) then (s, None)
  else
    let offset := buf - page_offset in
    if u64 (payload_size - offset) <? buflen then (s, None)
    else
      let '(s, vmemmap) := kb_linux_kvm_vmemmap_base al s in
      (s, Some (u64 (vmemmap + Z.shiftr offset KB_INPUT_PAGE_SHIFT * KB_INPUT_STRUCT_PAGE_SIZE),
                u32 (Z.land offset KB_INPUT_PAGE_MASK))).

Definition encoded_page_for_buffer (buf buflen : Z) : option (Z * Z) :=
  if (buf =? 0) || (buflen =? 0) then None
  else
    let offset := u32 (Z.land buf KB_INPUT_PAGE_MASK) in
    let page_base := Z.ldiff buf KB_INPUT_PAGE_MASK in
    Some (Z.lor KB_INPUT_ENCODED_PAGE_TAG
            (u64 (Z.shiftr page_base KB_INPUT_PAGE_SHIFT * KB_INPUT_STRUCT_PAGE_SIZE)), offset).

Definition kb_sg_init_one (sg buf buflen : Z) (s : page_state) : page_state :=
  if sg =? 0 then s
  else
    let s := s <| pa_mem ::= fun m => mzero m sg KB_INPUT_SG_SIZE |> in
    if (buf =? 0) || (buflen =? 0) then s
    else
      let '(s, found) := page_for_buffer buf buflen s in
      match (match found with Some p => Some p | None => encoded_page_for_buffer buf buflen end) with
      | None => s
      | Some (page, offset) =>
          s <| pa_mem ::= fun m =>
                 write_u32_at sg KB_INPUT_SG_LENGTH_OFFSET buflen
                   (write_u32_at sg KB_INPUT_SG_OFFSET_OFFSET offset
                      (write_ptr_at sg KB_INPUT_SG_PAGE_LINK_OFFSET (Z.lor page KB_INPUT_SG_END) m)) |>
      end.

Definition kb_sg_init_table (sg nents : Z) (s : page_state) : page_state :=
  if (sg =? 0) || (nents =? 0) then s
  else s <| pa_mem ::= fun m =>
              write_ptr_at (sg + (nents - 1) * KB_INPUT_SG_SIZE) KB_INPUT_SG_PAGE_LINK_OFFSET KB_INPUT_SG_END
                (mclear m sg (nents * KB_INPUT_SG_SIZE)) |>.

(** ** Mapping *)

Context (device_for : Z -> Z) (backend : Z).

Definition dma_device (dev : Z) (s : page_state) : Z :=
  if device_for dev =? 0 then kb_subsystem_dma_default_device get_ops (pa_dma s) backend else device_for dev.

(** The address and [*dma_handle]. *)
Definition kb_dma_alloc_attrs (dev size : Z) (handle_out zalloc : bool) (s : page_state)
    : page_state * Z * option Z :=
  if (size =? 0) || negb handle_out then (s, 0, None)
  else
    let '(d, ptr, handle) := kb_subsystem_dma_alloc get_ops (pa_dma s) backend (dma_device dev s) size true zalloc in
    (s <| pa_dma := d |>, ptr, handle).

Definition kb_dma_free_attrs (size cpu_addr dma_handle : Z) (s : page_state) : page_state :=
  s <| pa_dma ::= fun d => kb_subsystem_dma_free get_ops d backend size cpu_addr dma_handle |>.

Definition kb_dma_cpu_addr (dma_addr : Z) (s : page_state) : Z * Z := kb_subsystem_dma_cpu_addr (pa_dma s) dma_addr.

(** [kb_subsystem_dma_map], with its failures turned into the error value. *)
Definition map_buffer (device cpu_addr size dir : Z) (zalloc : bool) (s : page_state) : page_state * Z :=
  let '(d, dma_addr, status) :=
    kb_subsystem_dma_map get_ops (pa_dma s) backend device cpu_addr size (linux_dma_dir dir) zalloc in
  (s <| pa_dma := d |>,
   if bool_decide (status = KB_OK) && negb (dma_addr =? 0) then dma_addr else KB_LINUX_DMA_MAPPING_ERROR).

Definition kb_dma_map_page_attrs (dev page offset size dir : Z) (zalloc : bool) (s : page_state) : page_state * Z :=
  if (page =? 0) || (size =? 0) then (s, KB_LINUX_DMA_MAPPING_ERROR)
  else
    let '(s, direct) := kb_linux_kvm_page_payload_dma_addr al page offset size s in
    match direct with
    | Some (_, direct_dma_addr) => (s, direct_dma_addr)
    | None =>
        let device := dma_device dev s in
        if device =? 0 then (s, KB_LINUX_DMA_MAPPING_ERROR)
        else match linux_page_to_cpu_addr page offset with
             | None => (s, KB_LINUX_DMA_MAPPING_ERROR)
             | Some cpu_addr => map_buffer device cpu_addr size dir zalloc s
             end
    end.

Definition kb_dma_map_single_attrs (dev ptr size dir : Z) (zalloc : bool) (s : page_state) : page_state * Z :=
  if (ptr =? 0) || (size =? 0) then (s, KB_LINUX_DMA_MAPPING_ERROR)
  else
    let '(s, direct) := kb_linux_kvm_payload_dma_addr al ptr size s in
    match direct with
    | Some direct_dma_addr => (s, direct_dma_addr)
    | None =>
        let device := dma_device dev s in
        if device =? 0 then (s, KB_LINUX_DMA_MAPPING_ERROR) else map_buffer device ptr size dir zalloc s
    end.

Definition kb_dma_unmap_page_attrs (dev dma_addr size dir : Z) (s : page_state) : page_state :=
  if (dma_addr =? 0) || (size =? 0) then s
  else
    let device := dma_device dev s in
    let '(s, in_arena) := kb_linux_kvm_dma_addr_in_payload_arena al dma_addr size s in
    if in_arena && negb (kb_subsystem_dma_has_transient_mapping (pa_dma s) device dma_addr) then s
    else s <| pa_dma ::= fun d =>
                kb_subsystem_dma_unmap get_ops d backend device dma_addr size (linux_dma_dir dir) |>.

Definition kb_dma_unmap_single_attrs : Z -> Z -> Z -> Z -> page_state -> page_state := kb_dma_unmap_page_attrs.

Definition kb_dma_mapping_error (dma_addr : Z) (s : page_state) : page_state * bool :=
  if dma_addr =? KB_LINUX_DMA_MAPPING_ERROR then (s, true)
  else
    let '(s, in_arena) := kb_linux_kvm_dma_addr_in_payload_arena al dma_addr 1 s in
    (s, if in_arena then false else kb_subsystem_dma_mapping_error (pa_dma s) dma_addr).

Definition kb_dma_need_sync : Z := 0.
Definition kb_dma_max_mapping_size : Z := 2 ^ 30.
Definition kb_arch_dma_alloc_attrs : Z := 1.

(** ** Pools *)

Record shim_dma_pool := mk_pool {
  pool_size : Z;
  pool_align : Z;
  pool_allocs : list (Z * Z);
}.

Definition low_or_error_pointer (value : Z) : bool :=
  negb (value =? 0) && ((value <? 4096) || (UINT64_MAX - 4094 <=? value)).

(** [None] is NULL; [zalloc] whether [kb_kzalloc] of the pool succeeds. *)
Definition kb_dma_pool_create (size align : Z) (zalloc : bool) : option shim_dma_pool :=
  if size =? 0 then None
  else if negb zalloc then None
  else Some (mk_pool size (if align =? 0 then 4096 else align) []).

(** The new pool, the address and [*dma_handle] ([None] when not written). *)
Definition kb_dma_pool_alloc (pool : shim_dma_pool) (handle_out zalloc_mapping zalloc_node : bool) (s : page_state)
    : page_state * shim_dma_pool * Z * option Z :=
  if negb handle_out then (s, pool, 0, None)
  else
    let '(s, vaddr, handle) := kb_dma_alloc_attrs 0 (pool_size pool) true zalloc_mapping s in
    if vaddr =? 0 then (s, pool, 0, handle)
    else
      let h := default 0 handle in
      if low_or_error_pointer vaddr
      then (kb_dma_free_attrs (pool_size pool) vaddr h s, pool, 0, Some 0)
      else if negb zalloc_node
      then (kb_dma_free_attrs (pool_size pool) vaddr h s, pool, 0, handle)
      else (s, mk_pool (pool_size pool) (pool_align pool) ((vaddr, h) :: pool_allocs pool), vaddr, handle).

(** Unlinking the first entry with this pair of addresses. *)
Fixpoint pool_unlink (vaddr dma_addr : Z) (l : list (Z * Z)) : list (Z * Z) :=
  match l with
  | [] => []
  | (v, a) :: l => if (v =? vaddr) && (a =? dma_addr) then l else (v, a) :: pool_unlink vaddr dma_addr l
  end.

Definition kb_dma_pool_free (pool : shim_dma_pool) (vaddr dma_addr : Z) (s : page_state) : page_state * shim_dma_pool :=
  if vaddr =? 0 then (s, pool)
  else (kb_dma_free_attrs (pool_size pool) vaddr dma_addr s,
        mk_pool (pool_size pool) (pool_align pool) (pool_unlink vaddr dma_addr (pool_allocs pool))).

Definition kb_dma_pool_destroy (pool : shim_dma_pool) (s : page_state) : page_state :=
  foldl (fun s '(v, a) => kb_dma_free_attrs (pool_size pool) v a s) s (pool_allocs pool).

(** ** Masks *)

(** [dma_set_mask] of the backend, [None] when it has none; the last argument says
    whether the mask is for coherent memory. *)
Context (ops_dma_set_mask : option (Z -> Z -> bool -> kb_status)).

Definition set_mask (coherent : bool) (mask : Z) (s : page_state) : Z :=
  let device := kb_subsystem_dma_default_device get_ops (pa_dma s) backend in
  if device =? 0 then 0
  else match kb_device_backend_get_ops get_ops backend, ops_dma_set_mask with
       | Some _, Some f => if bool_decide (f device mask coherent = KB_OK) then 0 else -22
       | _, _ => 0
       end.

Definition kb_dma_set_mask : Z -> page_state -> Z := set_mask false.
Definition kb_dma_set_coherent_mask : Z -> page_state -> Z := set_mask true.
End dma.
