(* ===== verification/LinuxDmaTheorems.v ===== *)
(** * Theorems about the DMA interface of modules (LinuxDma.v)

    Encoding a buffer as a page loses nothing; mapping a scatterlist entry is
    mapping its buffer; pools give back what they took. *)

From S2P Require Import Prelude Memory DmaMapping DmaTheorems PageArena PageTheorems LinuxDma.

(** ** Bits *)

Lemma lor_disjoint a b : Z.land a b = 0 -> Z.lor a b = a + b.
Proof. intros H. by rewrite Z.add_nocarry_lxor, Z.lxor_lor by done. Qed.

Lemma ldiff_lor_disjoint a b : Z.land a b = 0 -> Z.ldiff (Z.lor a b) a = b.
Proof.
  intros H. apply Z.bits_inj'. intros n Hn. rewrite Z.ldiff_spec, Z.lor_spec.
  assert (Z.testbit a n && Z.testbit b n = false) as Hab by (by rewrite <- Z.land_spec, H, Z.bits_0).
  by destruct (Z.testbit a n), (Z.testbit b n).
Qed.

Lemma land_high k e : 0 <= k -> 0 <= e < 2 ^ k -> Z.land (2 ^ k) e = 0.
Proof.
  intros Hk He. destruct (decide (e = 0)) as [->|Hnz]; [apply Z.land_0_r|].
  apply Z.bits_inj'. intros n Hn. rewrite Z.land_spec, Z.bits_0. destruct (decide (n = k)) as [->|Hne].
  - rewrite (Z.bits_above_log2 e k), andb_false_r; [done|lia|]. apply Z.log2_lt_pow2; lia.
  - by rewrite Z.pow2_bits_false by lia.
Qed.

Lemma ldiff_low k x : 0 <= k -> Z.ldiff x (Z.ones k) = x / 2 ^ k * 2 ^ k.
Proof. intros Hk. by rewrite Z.ldiff_ones_r, Z.shiftl_mul_pow2, Z.shiftr_div_pow2. Qed.

(** A scatterlist link keeps its page. *)
Lemma sg_link_page p : p mod 64 = 0 -> Z.ldiff (Z.lor p KB_INPUT_SG_END) 3 = p /\ Z.lor p KB_INPUT_SG_END = p + 2.
Proof.
  intros Hp. pose proof (Z.div_mod p 64 ltac:(done)) as Hdm. rewrite Hp in Hdm.
  assert (Z.land p 2 = 0) as Hland.
  { apply Z.bits_inj'. intros n Hn. rewrite Z.land_spec, Z.bits_0. destruct (decide (n = 1)) as [->|Hne].
    - rewrite Hdm. replace (64 * (p / 64) + 0) with ((p / 64 * 16) * 2 ^ 2) by (change (2 ^ 2) with 4; lia).
      by rewrite Z.mul_pow2_bits_low by lia.
    - change 2 with (2 ^ 1). by rewrite Z.pow2_bits_false, andb_false_r by lia. }
  unfold KB_INPUT_SG_END. rewrite lor_disjoint by done. split; [|done].
  change 3 with (Z.ones 2). rewrite ldiff_low by lia. change (2 ^ 2) with 4.
  replace (p + 2) with (2 + (p / 64 * 16) * 4) by lia. rewrite Z.div_add by done. change (2 / 4) with 0. lia.
Qed.

(** ** Encoded pages *)

(** Where a buffer outside the arena is put, and that it is found again. *)
Lemma encoded_page_spec buf buflen :
  is_u64 buf -> buf <> 0 -> buflen <> 0 ->
  exists page, encoded_page_for_buffer buf buflen = Some (page, buf mod 4096) /\
    page = 2 ^ 63 + buf / 4096 * 64 /\ page mod 64 = 0 /\ is_u64 (page + 2) /\
    linux_page_to_cpu_addr page (buf mod 4096) = Some buf.
Proof.
  intros Hb Hb0 Hl0. unfold is_u64 in *. pose proof (Z.mod_pos_bound buf 4096 ltac:(lia)) as Hm.
  pose proof (Z.div_mod buf 4096 ltac:(lia)) as Hdm.
  assert (0 <= buf / 4096 < 2 ^ 52) as Hq by (change (2 ^ 52) with 4503599627370496; lia).
  change (2 ^ 52) with 4503599627370496 in Hq.
  assert (0 <= buf / 4096 * 64 < 2 ^ 63) as Hlow by (change (2 ^ 63) with 9223372036854775808; lia).
  exists (2 ^ 63 + buf / 4096 * 64). split; [|split; [done|split; [|split; [change (2 ^ 63) with 9223372036854775808; lia|]]]].
  - unfold encoded_page_for_buffer. rewrite (proj2 (Z.eqb_neq _ _) Hb0), (proj2 (Z.eqb_neq _ _) Hl0). cbn [orb].
    unfold KB_INPUT_PAGE_MASK, KB_INPUT_PAGE_SHIFT, KB_INPUT_STRUCT_PAGE_SIZE, KB_INPUT_ENCODED_PAGE_TAG.
    change 0xfff with (Z.ones 12). rewrite Z.land_ones, ldiff_low by lia. change (2 ^ 12) with 4096.
    rewrite Z.shiftr_div_pow2 by lia. change (2 ^ 12) with 4096. rewrite Z.div_mul by done.
    rewrite (u64_small (buf / 4096 * 64)), (u32_small (buf mod 4096)) by (unfold is_u64, is_u32; lia).
    by rewrite lor_disjoint by (apply land_high; lia).
  - change (2 ^ 63) with (144115188075855872 * 64). by rewrite <- Z.mul_add_distr_r, Z.mod_mul.
  - unfold linux_page_to_cpu_addr, KB_LINUX_DMA_ENCODED_PAGE_TAG.
    rewrite (proj2 (Z.eqb_neq _ _)), (proj2 (Z.ltb_ge _ _)) by (change (2 ^ 63) with 9223372036854775808; lia).
    rewrite <- (lor_disjoint (2 ^ 63)) by (apply land_high; lia).
    assert (Z.land (Z.lor (2 ^ 63) (buf / 4096 * 64)) (2 ^ 63) = 2 ^ 63) as ->.
    { rewrite Z.land_comm, Z.land_lor_distr_r, Z.land_diag, land_high by lia. done. }
    assert (Z.ldiff (Z.lor (2 ^ 63) (buf / 4096 * 64)) (2 ^ 63) = buf / 4096 * 64) as ->.
    { apply ldiff_lor_disjoint, land_high; lia. }
    cbn [Z.eqb].
    change 0x3f with (Z.ones 6). rewrite Z.land_ones by lia. change (2 ^ 6) with 64. rewrite Z.mod_mul by done.
    cbn [Z.eqb negb]. rewrite Z.shiftr_div_pow2, Z.shiftl_mul_pow2 by lia. change (2 ^ 6) with 64.
    rewrite Z.div_mul by done. change (2 ^ 12) with 4096.
    rewrite (u64_small (buf / 4096 * 4096)) by (unfold is_u64; lia). rewrite u64_small by (unfold is_u64; lia).
    f_equal. lia.
Qed.

(** ** The page model at rest *)

(** The bases are those of the arena, so that synchronising changes nothing. *)
Definition synced (s : page_state) : Prop :=
  arena_ready s /\ kb_kvm_page_payload_base s = kb_kvm_page_payloads s /\
  kb_kvm_vmemmap_record_base s = kb_kvm_page_records s /\
  kb_kvm_page_offset_base s = u64 (kb_kvm_page_payloads s - kb_kvm_phys_base s) /\
  kb_kvm_vmemmap_base s = u64 (kb_kvm_page_records s - kb_kvm_phys_base s / 4096 * 64).

Lemma sync_synced al s : arena_ready s -> synced (kb_kvm_sync_page_model al s).
Proof.
  intros Hr. destruct (sync_ready al s Hr) as (A1 & A2 & A3 & _ & _ & _ & _ & _ & _ & A10 & A11 & A12 & A13).
  unfold synced, arena_ready. rewrite A1, A2, A3, A10, A11, A12, A13. by split.
Qed.

Lemma sync_fix al s : synced s -> kb_kvm_sync_page_model al s = s.
Proof.
  intros (Hr & H1 & H2 & H3 & H4). unfold kb_kvm_sync_page_model.
  pose proof (ensure_arena_spec al s) as H. destruct (kb_kvm_ensure_page_arena al s) as [t r].
  destruct H as (_ & _ & _ & _ & H & _). destruct (H Hr) as [-> ->]. cbn [Z.eqb negb].
  unfold KB_KVM_PAGE_SHIFT, KB_KVM_STRUCT_PAGE_SIZE. rewrite Z.shiftr_div_pow2 by lia. change (2 ^ 12) with 4096.
  rewrite u64_sub_r. destruct s. cbn in *. by subst.
Qed.

(** The arena and the records lie in the lower half of the address space. *)
Record arena_low (s : page_state) : Prop := mk_arena_low {
  al_payloads : 0 < kb_kvm_page_payloads s /\ kb_kvm_page_payloads s + 16777216 <= 2 ^ 63;
  al_records : 0 < kb_kvm_page_records s /\ kb_kvm_page_records s + 262144 <= 2 ^ 63;
  al_record_aligned : kb_kvm_page_records s mod 64 = 0;
  al_phys : 0 <= kb_kvm_phys_base s /\ kb_kvm_phys_base s + 16777216 < 2 ^ 64;
}.

Lemma low_ready s : arena_low s -> arena_ready s.
Proof. intros [[? _] [? _] _ _]. split; lia. Qed.

(** Whether a buffer lies in the arena. *)
Definition in_arena (s : page_state) (buf buflen : Z) : Prop :=
  kb_kvm_page_payloads s <= buf /\ buf + buflen <= kb_kvm_page_payloads s + 16777216.

Ltac arena_consts :=
  unfold is_u64, KB_KVM_PAGE_PAYLOAD_BYTES, KB_KVM_PAGE_RECORD_BYTES, KB_KVM_PAGE_RECORD_MAX, KB_KVM_PAGE_SIZE,
    KB_KVM_STRUCT_PAGE_SIZE, KB_INPUT_PAGE_RECORD_MAX, KB_INPUT_PAGE_SIZE, KB_INPUT_PAGE_SHIFT, KB_INPUT_PAGE_MASK,
    KB_INPUT_STRUCT_PAGE_SIZE in *;
  change (2 ^ 63) with 9223372036854775808 in *; change (2 ^ 64) with 18446744073709551616 in *;
  change (4096 * 4096) with 16777216 in *; change (4096 * 64) with 262144 in *.

Lemma page_for_buffer_spec al buf buflen s :
  synced s -> arena_low s -> 0 < buf -> 0 < buflen < 2 ^ 32 ->
  let off := buf - kb_kvm_page_payloads s in
  (in_arena s buf buflen -> page_for_buffer al buf buflen s =
     (s, Some (kb_kvm_page_records s + off / 4096 * 64, off mod 4096))) /\
  (~ in_arena s buf buflen -> page_for_buffer al buf buflen s = (s, None)).
Proof.
  intros Hsync Hlow Hb Hlen. pose proof Hsync as (_ & Hpb & Hrb & _). destruct Hlow as [P R _ _].
  cbn zeta. unfold page_for_buffer, kb_linux_kvm_page_offset_base, kb_linux_kvm_vmemmap_base, in_arena.
  rewrite sync_fix by done. rewrite Hpb. arena_consts. change (2 ^ 32) with 4294967296 in *.
  rewrite (proj2 (Z.eqb_neq _ _)) by lia. rewrite (u64_small (kb_kvm_page_payloads s + _)) by (unfold is_u64; lia).
  cbn [orb]. destruct (Z.ltb_spec buf (kb_kvm_page_payloads s)) as [H1|H1]; [split; [lia|done]|].
  destruct (Z.leb_spec (kb_kvm_page_payloads s + 16777216) buf) as [H2|H2]; [split; [lia|done]|]. cbn [orb].
  rewrite u64_small by (unfold is_u64; lia).
  destruct (Z.ltb_spec (16777216 - (buf - kb_kvm_page_payloads s)) buflen) as [H3|H3]; [split; [lia|done]|].
  split; [|lia]. intros _. rewrite sync_fix, Hrb, Z.shiftr_div_pow2 by (done || lia). change (2 ^ 12) with 4096.
  pose proof (Z.div_mod (buf - kb_kvm_page_payloads s) 4096 ltac:(lia)).
  pose proof (Z.mod_pos_bound (buf - kb_kvm_page_payloads s) 4096 ltac:(lia)).
  change 4095 with (Z.ones 12). rewrite Z.land_ones by lia. change (2 ^ 12) with 4096.
  rewrite u32_small by (unfold is_u32; lia). rewrite u64_small by (unfold is_u64; lia). done.
Qed.

Lemma payload_dma_addr_spec al buf size s :
  synced s -> arena_low s -> 0 < buf -> 0 < size ->
  (in_arena s buf size -> kb_kvm_phys_base_valid s = true -> kb_linux_kvm_payload_dma_addr al buf size s =
     (s, Some (kb_kvm_phys_base s + (buf - kb_kvm_page_payloads s)))) /\
  (~ in_arena s buf size -> kb_linux_kvm_payload_dma_addr al buf size s = (s, None)).
Proof.
  intros Hsync [P R _ Q] Hb Hsz. unfold kb_linux_kvm_payload_dma_addr, in_arena. rewrite sync_fix by done.
  rewrite (proj2 (Z.eqb_neq buf 0)), (proj2 (Z.eqb_neq size 0)) by lia. cbn [orb]. arena_consts.
  destruct (Z.ltb_spec buf (kb_kvm_page_payloads s)) as [H1|H1]; [split; [lia|done]|].
  destruct (Z.leb_spec 16777216 (buf - kb_kvm_page_payloads s)) as [H2|H2]; [split; [lia|done]|]. cbn [orb].
  destruct (Z.ltb_spec (16777216 - (buf - kb_kvm_page_payloads s)) size) as [H3|H3]; [split; [lia|done]|].
  split; [|lia]. intros _ ->. cbn [negb]. rewrite u64_small by (unfold is_u64; lia). done.
Qed.

(** The pages a buffer in the arena touches are allocated. *)
Definition pages_in_use (s : page_state) (buf buflen : Z) : Prop :=
  let off := buf - kb_kvm_page_payloads s in
  forall k, off / 4096 <= k <= (off + buflen - 1) / 4096 -> page_in_use s k = true.

Lemma page_payload_arena al buf size s :
  synced s -> arena_low s -> 0 < size -> in_arena s buf size -> pages_in_use s buf size ->
  let off := buf - kb_kvm_page_payloads s in
  kb_linux_kvm_page_payload al (kb_kvm_page_records s + off / 4096 * 64) (off mod 4096) size s = (s, buf).
Proof.
  intros Hsync [P R _ _] Hsz [H1 H2] Huse. cbn zeta. set (off := buf - kb_kvm_page_payloads s) in *.
  assert (0 <= off /\ off + size <= 16777216) as [Ho1 Ho2] by lia.
  pose proof (Z.div_mod off 4096 ltac:(lia)) as Hdm. pose proof (Z.mod_pos_bound off 4096 ltac:(lia)) as Hm.
  set (q := off / 4096) in *. set (r := off mod 4096) in *.
  unfold kb_linux_kvm_page_payload. arena_consts.
  rewrite (proj2 (Z.eqb_neq _ _)), (proj2 (Z.eqb_neq size 0)), (proj2 (Z.leb_gt _ _)) by lia. cbn [orb].
  rewrite sync_fix by done. rewrite (proj2 (Z.ltb_ge _ _)), (proj2 (Z.leb_gt _ _)) by lia. cbn [orb].
  replace (kb_kvm_page_records s + q * 64 - kb_kvm_page_records s) with (q * 64) by lia.
  rewrite Z.mod_mul, Z.div_mul by done. cbn [Z.eqb negb]. rewrite (proj2 (Z.leb_gt 4096 q)) by lia.
  rewrite (u64_small (r + size)) by (unfold is_u64; lia). rewrite (proj2 (Z.ltb_ge _ _)) by lia.
  rewrite u64_small by (unfold is_u64; lia).
  set (n := (r + size + 4096 - 1) / 4096).
  assert (1 <= n /\ q + n - 1 = (off + size - 1) / 4096) as [Hn1 Hn2].
  { subst n. replace (off + size - 1) with (r + size - 1 + q * 4096) by lia. rewrite Z.div_add by done.
    replace (r + size + 4096 - 1) with (r + size - 1 + 1 * 4096) by lia. rewrite Z.div_add by done.
    pose proof (Z.div_pos (r + size - 1) 4096 ltac:(lia) ltac:(lia)). lia. }
  assert (q + n <= 4096) as Hn3.
  { pose proof (Z.div_le_mono (off + size - 1) 16777215 4096 ltac:(lia) ltac:(lia)) as Hle.
    change (16777215 / 4096) with 4095 in Hle. lia. }
  rewrite (proj2 (Z.eqb_neq n 0)), (proj2 (Z.ltb_ge _ _)) by lia. cbn [orb].
  assert (forallb (fun k => page_in_use s (q + Z.of_nat k)) (seq 0 (Z.to_nat n)) = true) as ->.
  { apply forallb_forall. intros k Hk. apply in_seq in Hk. apply Huse. fold off q. lia. }
  rewrite u64_small by (unfold is_u64; lia). f_equal. lia.
Qed.

Lemma page_payload_tagged al page offset size s :
  synced s -> arena_low s -> 2 ^ 63 <= page -> kb_linux_kvm_page_payload al page offset size s = (s, 0).
Proof.
  intros Hsync [P R _ _] Hp. unfold kb_linux_kvm_page_payload. destruct (_ || _); [done|].
  destruct (KB_KVM_PAGE_SIZE <=? offset); [done|]. rewrite sync_fix by done. arena_consts.
  rewrite (proj2 (Z.leb_le 262144 _)) by lia. by rewrite orb_true_r.
Qed.

(** What is read back from a scatterlist entry. *)
Definition sg_page (m : mem) (sg : Z) : Z := Z.ldiff (mload64 m (sg + KB_INPUT_SG_PAGE_LINK_OFFSET)) 3.
Definition sg_offset (m : mem) (sg : Z) : Z := mload32 m (sg + KB_INPUT_SG_OFFSET_OFFSET).
Definition sg_length (m : mem) (sg : Z) : Z := mload32 m (sg + KB_INPUT_SG_LENGTH_OFFSET).

Lemma mload32_mstore32_other m a v b :
  b + 4 <= a \/ a + 4 <= b -> mload32 (mstore32 m a v) b = mload32 m b.
Proof.
  intros H. unfold mload32, mstore32. rewrite mload_mstore_other; [done|]. rewrite length_le_bytes. lia.
Qed.

Lemma sg_read_back m sg page offset len :
  page mod 64 = 0 -> is_u64 (page + 2) -> is_u32 offset -> is_u32 len ->
  let m' := write_u32_at sg KB_INPUT_SG_LENGTH_OFFSET len
              (write_u32_at sg KB_INPUT_SG_OFFSET_OFFSET offset
                 (write_ptr_at sg KB_INPUT_SG_PAGE_LINK_OFFSET (Z.lor page KB_INPUT_SG_END) m)) in
  sg_page m' sg = page /\ sg_offset m' sg = offset /\ sg_length m' sg = len.
Proof.
  intros Hp Hu Ho Hl. cbn zeta. destruct (sg_link_page page Hp) as [Hd Hor].
  unfold sg_page, sg_offset, sg_length, write_u32_at, write_ptr_at, KB_INPUT_SG_LENGTH_OFFSET,
    KB_INPUT_SG_OFFSET_OFFSET, KB_INPUT_SG_PAGE_LINK_OFFSET. split_and!.
  - unfold mstore32 at 1 2. rewrite !mload64_mstore_other by (rewrite ?length_le_bytes; lia).
    rewrite mload64_mstore64_same by (by rewrite Hor). done.
  - rewrite mload32_mstore32_other by lia. by apply mload32_mstore32_same.
  - by apply mload32_mstore32_same.
Qed.

Lemma page_for_buffer_sync al buf buflen s :
  arena_ready s -> page_for_buffer al buf buflen s = page_for_buffer al buf buflen (kb_kvm_sync_page_model al s).
Proof.
  intros Hr. unfold page_for_buffer, kb_linux_kvm_page_offset_base.
  by rewrite (sync_fix al (kb_kvm_sync_page_model al s)) by (by apply sync_synced).
Qed.

Lemma sync_low al s : arena_low s -> arena_low (kb_kvm_sync_page_model al s).
Proof.
  intros Hl. destruct (sync_ready al s (low_ready s Hl)) as (A1 & A2 & A3 & _). destruct Hl. split; by rewrite ?A1, ?A2, ?A3.
Qed.

(** The entry kb_sg_init_one writes, and the state it leaves. *)
Lemma sg_init_one_spec al sg buf len s :
  arena_low s -> sg <> 0 -> is_u64 buf -> buf <> 0 -> 0 < len < 2 ^ 32 ->
  let s1 := kb_sg_init_one al sg buf len s in
  let off := buf - kb_kvm_page_payloads s in
  synced s1 /\ arena_low s1 /\ kb_kvm_page_payloads s1 = kb_kvm_page_payloads s /\
  kb_kvm_page_records s1 = kb_kvm_page_records s /\ kb_kvm_phys_base s1 = kb_kvm_phys_base s /\
  kb_kvm_phys_base_valid s1 = kb_kvm_phys_base_valid s /\
  kb_kvm_page_alloc_state s1 = kb_kvm_page_alloc_state s /\ pa_dma s1 = pa_dma s /\
  sg_length (pa_mem s1) sg = len /\
  (in_arena s buf len -> sg_page (pa_mem s1) sg = kb_kvm_page_records s + off / 4096 * 64 /\
     sg_offset (pa_mem s1) sg = off mod 4096) /\
  (~ in_arena s buf len -> sg_page (pa_mem s1) sg = 2 ^ 63 + buf / 4096 * 64 /\
     sg_offset (pa_mem s1) sg = buf mod 4096 /\
     linux_page_to_cpu_addr (sg_page (pa_mem s1) sg) (sg_offset (pa_mem s1) sg) = Some buf).
Proof.
  intros Hlow Hsg Hbuf Hb0 Hlen. cbn zeta. unfold kb_sg_init_one. rewrite (proj2 (Z.eqb_neq _ _) Hsg).
  rewrite (proj2 (Z.eqb_neq _ _) Hb0), (proj2 (Z.eqb_neq len 0)) by lia. cbn [orb].
  set (s0 := s <| pa_mem ::= _ |>).
  assert (arena_low s0) as Hlow0 by (destruct Hlow; by split).
  destruct (sync_ready al s0 (low_ready s0 Hlow0)) as (A1 & A2 & A3 & A4 & A5 & A6 & A7 & A8 & A9 & _).
  pose proof (sync_synced al s0 (low_ready s0 Hlow0)) as Hsync. pose proof (sync_low al s0 Hlow0) as Hlow1.
  rewrite page_for_buffer_sync by (by apply low_ready).
  set (t := kb_kvm_sync_page_model al s0) in *. clearbody t.
  assert (0 < buf) as Hbpos by (unfold is_u64 in Hbuf; lia).
  destruct (page_for_buffer_spec al buf len t Hsync Hlow1 Hbpos Hlen) as [Hin Hout].
  assert (is_u32 len) as Hl32 by (unfold is_u32; change (2 ^ 32) with 4294967296 in Hlen; lia).
  assert (forall x, synced (t <| pa_mem := x |>)) as Hsx by done.
  assert (forall x, arena_low (t <| pa_mem := x |>)) as Hlx by (intros; destruct Hlow1; by split).
  cbn in A1, A2, A3, A4, A7, A8. unfold in_arena in *. rewrite A1 in Hin, Hout.
  destruct (decide (kb_kvm_page_payloads s <= buf /\ buf + len <= kb_kvm_page_payloads s + 16777216)) as [Hi|Hi].
  - rewrite (Hin Hi), A2. set (off := buf - kb_kvm_page_payloads s).
    pose proof (Z.mod_pos_bound off 4096 ltac:(lia)) as Hm. pose proof (Z.div_mod off 4096 ltac:(lia)) as Hdm.
    destruct Hlow as [P R RA Q]. arena_consts.
    destruct (sg_read_back (pa_mem t) sg (kb_kvm_page_records s + off / 4096 * 64) (off mod 4096) len)
      as (E1 & E2 & E3).
    { rewrite Z.mod_add by done. done. }
    { unfold is_u64. lia. }
    { unfold is_u32. lia. }
    { done. }
    split_and!; try done; try apply Hlx.
  - rewrite (Hout Hi). destruct (encoded_page_spec buf len Hbuf Hb0 ltac:(lia)) as (page & He & Hpage & Hmod & Hu & Hcpu).
    rewrite He. pose proof (Z.mod_pos_bound buf 4096 ltac:(lia)) as Hm.
    destruct (sg_read_back (pa_mem t) sg page (buf mod 4096) len) as (E1 & E2 & E3); [done|done|unfold is_u32; lia|done|].
    split_and!; try done; try apply Hlx. intros _. cbn [pa_mem] in *. split_and!; [exact (eq_trans E1 Hpage)|done|].
    rewrite <- Hcpu. f_equal; [exact E1|exact E2].
Qed.

(** Mapping a scatterlist entry for DMA is mapping the buffer it was made for:
    after sg_init_one, mapping the page and offset read back from the entry gives
    the same device address and the same state as mapping the buffer by its address,
    whether it lies in the page arena (in allocated pages) or anywhere else in the
    64-bit address space; in the arena that address is the base plus the offset of
    the buffer, without a new mapping. *)
Theorem sg_entry_maps_like_buffer get_ops al device_for backend sg buf len dev dir z s :
  arena_low s -> sg <> 0 -> is_u64 buf -> buf <> 0 -> 0 < len < 2 ^ 32 ->
  (in_arena s buf len -> kb_kvm_phys_base_valid s = true /\ pages_in_use s buf len) ->
  let s1 := kb_sg_init_one al sg buf len s in
  let r := kb_dma_map_page_attrs get_ops al device_for backend dev (sg_page (pa_mem s1) sg)
             (sg_offset (pa_mem s1) sg) (sg_length (pa_mem s1) sg) dir z s1 in
  sg_length (pa_mem s1) sg = len /\
  r = kb_dma_map_single_attrs get_ops al device_for backend dev buf len dir z s1 /\
  (in_arena s buf len -> r = (s1, kb_kvm_phys_base s + (buf - kb_kvm_page_payloads s))).
Proof.
  intros Hlow Hsg Hbuf Hb0 Hlen Harena. cbn zeta.
  destruct (sg_init_one_spec al sg buf len s Hlow Hsg Hbuf Hb0 Hlen)
    as (Hsync & Hlow1 & A1 & A2 & A3 & A4 & A5 & A6 & Hl & Hin & Hout).
  set (s1 := kb_sg_init_one al sg buf len s) in *. clearbody s1. rewrite Hl. split; [done|].
  assert (0 < buf) as Hbpos by (unfold is_u64 in Hbuf; lia).
  destruct (payload_dma_addr_spec al buf len s1 Hsync Hlow1 Hbpos ltac:(lia)) as [Din Dout].
  unfold in_arena in *. rewrite A1 in Din, Dout.
  unfold kb_dma_map_page_attrs, kb_dma_map_single_attrs.
  rewrite (proj2 (Z.eqb_neq buf 0)), (proj2 (Z.eqb_neq len 0)) by lia. rewrite orb_false_r.
  destruct (decide (kb_kvm_page_payloads s <= buf /\ buf + len <= kb_kvm_page_payloads s + 16777216)) as [Hi|Hi].
  - destruct (Harena Hi) as [Hv Huse]. destruct (Hin Hi) as [-> ->]. rewrite <- A4 in Hv.
    assert (pages_in_use s1 buf len) as Huse1.
    { unfold pages_in_use, page_in_use in *. by rewrite A1, A5. }
    assert (in_arena s1 buf len) as Hi1 by (unfold in_arena; by rewrite A1).
    pose proof (page_payload_arena al buf len s1 Hsync Hlow1 ltac:(lia) Hi1 Huse1) as Hpay. cbn zeta in Hpay.
    rewrite A1, A2 in Hpay. destruct Hlow as [P R RA Q].
    rewrite (proj2 (Z.eqb_neq (kb_kvm_page_records s + _) 0)).
    2: { pose proof (Z.div_pos (buf - kb_kvm_page_payloads s) 4096 ltac:(lia) ltac:(lia)). lia. }
    unfold kb_linux_kvm_page_payload_dma_addr. rewrite Hpay, (proj2 (Z.eqb_neq buf 0)) by lia.
    rewrite (Din Hi Hv), A3. done.
  - destruct (Hout Hi) as (Hp & Ho & Hcpu). split; [|done].
    pose proof (Z.div_pos buf 4096 ltac:(lia) ltac:(lia)) as Hq.
    rewrite (proj2 (Z.eqb_neq (sg_page (pa_mem s1) sg) 0)) by (rewrite Hp; arena_consts; lia).
    unfold kb_linux_kvm_page_payload_dma_addr. rewrite page_payload_tagged; [|done|done|rewrite Hp; lia].
    rewrite Z.eqb_refl, (Dout Hi), Hcpu. done.
Qed.

(** ** Pools *)

(** The buffers and mappings the DMA subsystem knows, by their two addresses. *)
Definition pairs (s : page_state) : list (Z * Z) :=
  map (fun e => (m_cpu_addr e, m_dma_addr e)) (dma_mappings (pa_dma s)).

Lemma take_first_None p l : take_first p l = None -> Forall (fun e => p e = false) l.
Proof.
  induction l as [|e l IH]; cbn; [constructor|]. destruct (p e) eqn:He; [done|].
  destruct (take_first p l) as [[]|]; [done|]. constructor; auto.
Qed.

Lemma free_attrs_pairs get_ops backend size v a s :
  (v, a) ∈ pairs s -> pairs s ≡ₚ (v, a) :: pairs (kb_dma_free_attrs get_ops backend size v a s).
Proof.
  intros Hin. unfold pairs, kb_dma_free_attrs, kb_subsystem_dma_free. cbn.
  destruct (take_first _ _) as [[e l]|] eqn:Ht.
  - apply take_first_spec in Ht as [He Hp]. apply andb_true_iff in He as [H1 H2]. boolify.
    rewrite Hp. cbn [map]. subst. f_equiv. by repeat case_match.
  - apply take_first_None in Ht. apply list_elem_of_fmap in Hin as (e & [= -> ->] & He).
    rewrite Forall_forall in Ht. specialize (Ht e He). cbn in Ht. by rewrite !Z.eqb_refl in Ht.
Qed.

Lemma alloc_attrs_pairs get_ops device_for backend dev size z s :
  let '(s', v, h) := kb_dma_alloc_attrs get_ops device_for backend dev size true z s in
  if v =? 0 then pairs s' = pairs s else exists a, h = Some a /\ pairs s' = (v, a) :: pairs s.
Proof.
  unfold kb_dma_alloc_attrs, kb_subsystem_dma_alloc, remember_dma_mapping_full, pairs.
  repeat (case_match; simplify_eq/=; try done); eauto.
Qed.

Section pools.
Context (get_ops : Z -> option kb_device_backend_ops) (device_for : Z -> Z) (backend : Z).

(** A pool owns a part of what the DMA subsystem knows; [rest] is the other part. *)
Definition pool_owns (pool : shim_dma_pool) (s : page_state) (rest : list (Z * Z)) : Prop :=
  pairs s ≡ₚ pool_allocs pool ++ rest.

Lemma pool_alloc_owns pool z1 z2 s rest :
  pool_owns pool s rest ->
  let '(s', pool', v, h) := kb_dma_pool_alloc get_ops device_for backend pool true z1 z2 s in
  pool_owns pool' s' rest /\ (if v =? 0 then pool' = pool else exists a, h = Some a /\ (v, a) ∈ pool_allocs pool').
Proof.
  intros Ho. unfold kb_dma_pool_alloc. cbn [negb].
  pose proof (alloc_attrs_pairs get_ops device_for backend 0 (pool_size pool) z1 s) as Ha.
  destruct (kb_dma_alloc_attrs get_ops device_for backend 0 (pool_size pool) true z1 s) as [[s1 v] h].
  destruct (Z.eqb_spec v 0) as [->|Hv]; [split; [|done]; unfold pool_owns; by rewrite Ha|].
  destruct Ha as (a & -> & Hp). cbn [default].
  assert (pairs s1 ≡ₚ (v, a) :: pairs (kb_dma_free_attrs get_ops backend (pool_size pool) v a s1)) as Hf.
  { apply free_attrs_pairs. rewrite Hp. by left. }
  assert (pool_owns pool (kb_dma_free_attrs get_ops backend (pool_size pool) v a s1) rest) as Hfree.
  { unfold pool_owns. rewrite Hp in Hf. apply (Permutation.Permutation_cons_inv (a := (v, a))) in Hf.
    by rewrite <- Hf. }
  cbn. destruct (low_or_error_pointer v); [by split|]. destruct z2; cbn [negb]; [|by split].
  rewrite (proj2 (Z.eqb_neq v 0) Hv). split.
  - unfold pool_owns in *. rewrite Hp, Ho. done.
  - exists a. split; [done|]. by left.
Qed.

Lemma pool_unlink_perm v a l : (v, a) ∈ l -> l ≡ₚ (v, a) :: pool_unlink v a l.
Proof.
  induction l as [|[w b] l IH]; intros Hin; [by apply not_elem_of_nil in Hin|]. cbn [pool_unlink].
  destruct (_ && _) eqn:He.
  - apply andb_true_iff in He as [H1 H2]. boolify. by subst.
  - apply elem_of_cons in Hin as [[= -> ->]|Hin]; [by rewrite !Z.eqb_refl in He|].
    rewrite (IH Hin) at 1. constructor.
Qed.

Lemma pool_free_owns pool v a s rest :
  pool_owns pool s rest -> (v, a) ∈ pool_allocs pool -> v <> 0 ->
  let '(s', pool') := kb_dma_pool_free get_ops backend pool v a s in
  pool_owns pool' s' rest /\ pool_allocs pool ≡ₚ (v, a) :: pool_allocs pool'.
Proof.
  intros Ho Hin Hv. unfold kb_dma_pool_free. rewrite (proj2 (Z.eqb_neq v 0) Hv). cbn.
  pose proof (pool_unlink_perm v a _ Hin) as Hu. split; [|done]. unfold pool_owns in *. cbn.
  assert ((v, a) ∈ pairs s) as Hs by (rewrite Ho; apply elem_of_app; by left).
  pose proof (free_attrs_pairs get_ops backend (pool_size pool) v a s Hs) as Hf.
  apply (Permutation.Permutation_cons_inv (a := (v, a))). rewrite <- Hf, Ho.
  exact (Permutation.Permutation_app_tail rest Hu).
Qed.

Lemma pool_destroy_owns pool s rest :
  pool_owns pool s rest -> pairs (kb_dma_pool_destroy get_ops backend pool s) ≡ₚ rest.
Proof.
  unfold pool_owns, kb_dma_pool_destroy. revert s. induction (pool_allocs pool) as [|[v a] l IH]; intros s Ho; [done|].
  cbn [foldl]. apply IH. assert ((v, a) ∈ pairs s) as Hs by (rewrite Ho; by left).
  pose proof (free_attrs_pairs get_ops backend (pool_size pool) v a s Hs) as Hf.
  apply (Permutation.Permutation_cons_inv (a := (v, a))). by rewrite <- Hf, Ho.
Qed.

(** A client of one pool: it allocates, with whatever the allocators answer, and
    frees the [k]-th of its blocks. *)
Inductive pool_op :=
  | PoolAlloc (zalloc_mapping zalloc_node : bool)
  | PoolFree (k : nat).

Definition pool_run (c : page_state * shim_dma_pool) (op : pool_op) : page_state * shim_dma_pool :=
  let '(s, pool) := c in
  match op with
  | PoolAlloc z1 z2 => (kb_dma_pool_alloc get_ops device_for backend pool true z1 z2 s).1.1
  | PoolFree k => match pool_allocs pool !! k with
                  | Some (v, a) => kb_dma_pool_free get_ops backend pool v a s
                  | None => (s, pool)
                  end
  end.

Lemma pool_run_owns op c rest : pool_owns c.2 c.1 rest -> pool_owns (pool_run c op).2 (pool_run c op).1 rest.
Proof.
  destruct c as [s pool]. cbn [fst snd]. intros Ho. destruct op as [z1 z2|k]; cbn [pool_run].
  - pose proof (pool_alloc_owns pool z1 z2 s rest Ho) as H.
    destruct (kb_dma_pool_alloc get_ops device_for backend pool true z1 z2 s) as [[[s' p'] v] h]. apply H.
  - destruct (pool_allocs pool !! k) as [[v a]|] eqn:Hk; [|done].
    destruct (decide (v = 0)) as [->|Hv]; [done|].
    pose proof (pool_free_owns pool v a s rest Ho ltac:(by eapply list_elem_of_lookup_2) Hv) as H.
    destruct (kb_dma_pool_free get_ops backend pool v a s) as [s' p']. apply H.
Qed.

(** A pool gives back everything it took and nothing else: whatever sequence of
    allocations (any of which may fail half way) and frees a client makes, after
    destroying the pool the DMA subsystem holds exactly the buffers and mappings it
    held when the pool was created. *)
Theorem dma_pool_leaves_nothing size align s (ops : list pool_op) pool :
  kb_dma_pool_create size align true = Some pool ->
  let '(s1, pool1) := foldl pool_run (s, pool) ops in
  pairs (kb_dma_pool_destroy get_ops backend pool1 s1) ≡ₚ pairs s.
Proof using All.
  intros Hc. assert (pool_owns pool s (pairs s)) as Ho.
  { unfold kb_dma_pool_create in Hc. destruct (size =? 0); [done|]. cbn in Hc. injection Hc as <-.
    unfold pool_owns. done. }
  pose proof (foldl_keeps (fun c => pool_owns c.2 c.1 (pairs s)) pool_run ops (s, pool)) as H.
  destruct (foldl pool_run (s, pool) ops) as [s1 pool1]. apply pool_destroy_owns. apply H; [|done].
  intros c op _ Hown. by apply pool_run_owns.
Qed.
End pools.

(** ** Examples *)

(** A device whose buffers lie at 0x70000000, 0x80000000 higher for the device. *)
Definition pool_backend (b : Z) : option kb_device_backend_ops :=
  if b =? 0x5000
  then Some (mk_backend_ops (Some (fun _ _ => (KB_OK, 7)))
               (Some (fun log _ size _ _ =>
                  let v := 0x70000000 + 4096 * Z.of_nat (length log) in
                  (KB_OK, mk_dma_buffer v (v + 0x80000000) size 0))) true
               (Some (fun _ _ cpu _ _ => (KB_OK, cpu + 0x80000000))) None None true)
  else None.

Definition pool_ops : list pool_op := [PoolAlloc true true; PoolAlloc true false; PoolAlloc true true; PoolFree 1].

Lemma dma_pool_leaves_nothing_witness :
  let '(s1, pool1) := foldl (pool_run pool_backend (fun _ => 0) 0x5000)
                        (page_state_init dma_state_init ∅, mk_pool 64 4096 []) pool_ops in
  length (pool_allocs pool1) = 1%nat /\ pairs (kb_dma_pool_destroy pool_backend 0x5000 pool1 s1) ≡ₚ [].
Proof.
  pose proof (dma_pool_leaves_nothing pool_backend (fun _ => 0) 0x5000 64 0 (page_state_init dma_state_init ∅) pool_ops
    (mk_pool 64 4096 []) eq_refl) as H.
  assert (length (pool_allocs (foldl (pool_run pool_backend (fun _ => 0) 0x5000)
    (page_state_init dma_state_init ∅, mk_pool 64 4096 []) pool_ops).2) = 1%nat) as Hl by (vm_compute; reflexivity).
  destruct (foldl _ _ _) as [s1 pool1]. split; [exact Hl|exact H].
Defined.

(** The arena of the sample, with the first three pages allocated, and a buffer of
    6000 bytes from byte 100 on; another buffer outside. *)
Definition sg_sample : page_state :=
  (kb_kvm_alloc_pages_stub shifted_backend [] arena_sample 0 true 1 mapped_sample).1.

Lemma sg_sample_low : arena_low sg_sample.
Proof.
  assert (kb_kvm_page_records sg_sample = 0x10040 /\ kb_kvm_page_payloads sg_sample = 0x201000 /\
          kb_kvm_phys_base sg_sample = 0x100201000) as (E1 & E2 & E3) by (vm_compute; split_and!; reflexivity).
  split; rewrite ?E1, ?E2, ?E3; vm_compute; split_and?; try reflexivity; try discriminate.
Qed.

Lemma sg_entry_maps_like_buffer_witness :
  let s1 := kb_sg_init_one arena_sample 0x900000 (0x201000 + 100) 6000 sg_sample in
  kb_dma_map_page_attrs shifted_backend arena_sample (fun _ => 0) 0x5000 1 (sg_page (pa_mem s1) 0x900000)
    (sg_offset (pa_mem s1) 0x900000) (sg_length (pa_mem s1) 0x900000) 1 true s1 = (s1, 0x100201000 + 100).
Proof.
  assert (kb_kvm_page_payloads sg_sample = 0x201000 /\ kb_kvm_phys_base sg_sample = 0x100201000) as (E2 & E3)
    by (vm_compute; split_and!; reflexivity).
  destruct (sg_entry_maps_like_buffer shifted_backend arena_sample (fun _ => 0) 0x5000 0x900000 (0x201000 + 100) 6000 1 1
    true sg_sample sg_sample_low) as (_ & _ & H); try lia.
  - unfold is_u64. lia.
  - intros _. split; [vm_compute; reflexivity|]. unfold pages_in_use. rewrite E2.
    intros k Hk. change (0 <= k <= 1) in Hk. assert (k = 0 \/ k = 1) as [-> | ->] by lia; vm_compute; reflexivity.
  - rewrite E2, E3 in H. apply H. unfold in_arena. rewrite E2. lia.
Defined.
