(* ===== verification/MockDevice.v ===== *)
(** * The mock device backend (src/src/device/linux_mock/device_linux_mock.c)

    A PCI device in ordinary memory, for running modules without hardware: up to
    six BARs from [calloc], registers preset for two kinds of device, DMA addresses
    equal to CPU addresses.  It is an instance of the operations the DMA subsystem
    (DmaMapping.v) is written against.

    [sscanf] of KOBOX_MOCK_PCI_ID is an argument: how many fields it read and their
    values.  [calloc] of a DMA buffer is a function of the calls made so far; the
    interrupt handler is a callback on its context.  mock_monotonic_ns reads the
    host's clock and mock_log does nothing: both are left out. *)

From S2P Require Import Prelude Memory DmaMapping DmaTheorems.

Definition KB_MOCK_PCI_BAR_COUNT : Z := 6.
Definition KB_MOCK_IORESOURCE_MEM : Z := 0x200.

Record kb_pci_id := mk_pci_id {
  vendor_id : Z;
  device_id : Z;
  subsystem_vendor_id : Z;
  subsystem_device_id : Z;
  class_code : Z;
  subclass : Z;
  prog_if : Z;
  revision : Z;
}.
#[export] Instance pci_id_eta : Settable kb_pci_id := fun r =>
  mk_pci_id (vendor_id r) (device_id r) (subsystem_vendor_id r) (subsystem_device_id r) (class_code r)
    (subclass r) (prog_if r) (revision r).

Record kb_pci_location := mk_location {
  loc_segment : Z;
  loc_bus : Z;
  loc_device : Z;
  loc_function : Z;
}.

Record kb_device := mk_device {
  dev_pci_id : kb_pci_id;
  dev_location : kb_pci_location;
  dev_bars : list Z;
  dev_bar_sizes : list Z;
  dev_bar_starts : list Z;
  dev_bar_flags : list Z;
}.
#[export] Instance device_eta : Settable kb_device := fun r =>
  mk_device (dev_pci_id r) (dev_location r) (dev_bars r) (dev_bar_sizes r) (dev_bar_starts r) (dev_bar_flags r).

Record kb_pci_bar_info := mk_bar_info {
  bar_start : Z;
  bar_end : Z;
  bar_size : Z;
  bar_info_flags : Z;
  bar_present : bool;
}.

Record kb_mmio_region := mk_mmio_region {
  mmio_addr : Z;
  mmio_size : Z;
  mmio_host_phys : Z;
  mmio_backend_offset : Z;
  mmio_flags : Z;
}.
#[export] Instance mmio_region_eta : Settable kb_mmio_region := fun r =>
  mk_mmio_region (mmio_addr r) (mmio_size r) (mmio_host_phys r) (mmio_backend_offset r) (mmio_flags r).

(** ** Registers *)

Definition mock_mmio_write32 (bar bar_size offset value : Z) (m : mem) : mem :=
  if (bar =? 0) || (bar_size <? offset + 4) then m else mstore32 m (bar + offset) value.

Definition bar_of (d : kb_device) (i : nat) : Z := nth i (dev_bars d) 0.
Definition size_of (d : kb_device) (i : nat) : Z := nth i (dev_bar_sizes d) 0.

Definition initialize_mock_gpu_mmio (d : kb_device) (m : mem) : mem :=
  if negb (vendor_id (dev_pci_id d) =? 0x10de) || (bar_of d 0 =? 0) then m
  else mock_mmio_write32 (bar_of d 0) (size_of d 0) 0xa00 0x17700000
         (mock_mmio_write32 (bar_of d 0) (size_of d 0) 0 0xb77000a1 m).

Definition KB_AHCI_REG_CAP : Z := 0x00.
Definition KB_AHCI_REG_PI : Z := 0x0c.
Definition KB_AHCI_REG_VS : Z := 0x10.
Definition KB_AHCI_PORT_TFD : Z := 0x120.
Definition KB_AHCI_PORT_SIG : Z := 0x124.
Definition KB_AHCI_PORT_SSTS : Z := 0x128.

Definition is_ahci (id : kb_pci_id) : bool := (class_code id =? 1) && (subclass id =? 6) && (prog_if id =? 1).

(** The registers in the order they are written. *)
Definition ahci_registers : list (Z * Z) :=
  [(KB_AHCI_REG_CAP, 0x200000); (KB_AHCI_REG_PI, 1); (KB_AHCI_REG_VS, 0x10300); (KB_AHCI_PORT_TFD, 0x40);
   (KB_AHCI_PORT_SIG, 0x101); (KB_AHCI_PORT_SSTS, 0x123)].

Definition initialize_mock_ahci_mmio (d : kb_device) (m : mem) : mem :=
  if negb (is_ahci (dev_pci_id d)) || (bar_of d 5 =? 0) then m
  else foldl (fun m '(offset, value) => mock_mmio_write32 (bar_of d 5) (size_of d 5) offset value m) m ahci_registers.

(** ** Operations of the device *)

(** A [bool] named after an out-parameter tells whether the caller passed one; a
    device is an [option], [None] for the null pointer. *)
Definition mock_device_count (out_count : bool) : outcome Z :=
  if negb out_count then Fail KB_ERR_INVALID else Done 1.

Definition mock_device_at (backend index device : Z) (out_device : bool) : kb_status * Z :=
  if (backend =? 0) || negb out_device then (KB_ERR_INVALID, 0)
  else if negb (index =? 0) then (KB_ERR_NOT_FOUND, 0) else (KB_OK, device).

Definition mock_device_pci_id (device : option kb_device) (out_id : bool) : outcome kb_pci_id :=
  match device with
  | Some d => if out_id then Done (dev_pci_id d) else Fail KB_ERR_INVALID
  | None => Fail KB_ERR_INVALID
  end.
Definition mock_device_pci_location (device : option kb_device) (out_location : bool) : outcome kb_pci_location :=
  match device with
  | Some d => if out_location then Done (dev_location d) else Fail KB_ERR_INVALID
  | None => Fail KB_ERR_INVALID
  end.

(** What is stored to [dst]. *)
Definition mock_pci_config_read (offset len : Z) (dst : bool) : outcome (list Z) :=
  if negb dst || (len =? 0) || (4096 <? offset) || (4096 <? len) || (4096 <? offset + len) then Fail KB_ERR_INVALID
  else Done (replicate (Z.to_nat len) 0).

Definition mock_pci_config_write (offset len : Z) : kb_status :=
  if negb (len =? 0) && ((4096 <? offset) || (4096 <? len) || (4096 <? offset + len)) then KB_ERR_INVALID else KB_OK.

Definition mock_pci_bar_info (device : option kb_device) (bar_index : Z) (out_info : bool) : outcome kb_pci_bar_info :=
  match device with
  | None => Fail KB_ERR_INVALID
  | Some d =>
      let i := Z.to_nat bar_index in
      if negb out_info then Fail KB_ERR_INVALID
      else if (KB_MOCK_PCI_BAR_COUNT <=? bar_index) || (bar_of d i =? 0) then Fail KB_ERR_NOT_FOUND
      else Done (mk_bar_info (nth i (dev_bar_starts d) 0) (u64 (nth i (dev_bar_starts d) 0 + size_of d i - 1))
                   (size_of d i) (nth i (dev_bar_flags d) 0) true)
  end.

(** [out_region] is the caller's region, of which one field is not written. *)
Definition mock_map_bar (device : option kb_device) (bar_index : Z) (out_region : option kb_mmio_region)
    : outcome kb_mmio_region :=
  match device, out_region with
  | Some d, Some region =>
      let i := Z.to_nat bar_index in
      if (KB_MOCK_PCI_BAR_COUNT <=? bar_index) || (bar_of d i =? 0) then Fail KB_ERR_NOT_FOUND
      else Done (region <| mmio_addr := bar_of d i |> <| mmio_size := size_of d i |>
                        <| mmio_host_phys := nth i (dev_bar_starts d) 0 |>
                        <| mmio_flags := u32 (nth i (dev_bar_flags d) 0) |>)
  | _, _ => Fail KB_ERR_INVALID
  end.

Definition mock_unmap_bar (region : option kb_mmio_region) : option kb_mmio_region :=
  match region with Some _ => Some (mk_mmio_region 0 0 0 0 0) | None => None end.

(** ** DMA *)

Definition mock_dma_alloc (calloc : list dma_event -> Z -> Z) (log : list dma_event) (device size alignment direction : Z)
    : kb_status * kb_dma_buffer :=
  if size =? 0 then (KB_ERR_INVALID, mk_dma_buffer 0 0 0 0)
  else
    let ptr := calloc log size in
    if ptr =? 0 then (KB_ERR_NOMEM, mk_dma_buffer 0 0 0 0) else (KB_OK, mk_dma_buffer ptr ptr size 0).

Definition mock_dma_map (log : list dma_event) (device cpu_addr size direction : Z) : kb_status * Z :=
  if (cpu_addr =? 0) || (size =? 0) then (KB_ERR_INVALID, 0) else (KB_OK, cpu_addr).

(** The buffer left behind and the block freed. *)
Definition mock_dma_free (buffer : option kb_dma_buffer) : option kb_dma_buffer * list Z :=
  match buffer with
  | Some b => (Some (mk_dma_buffer 0 0 0 0), [buf_cpu_addr b])
  | None => (None, [])
  end.

(** [mock_ops], as far as the DMA subsystem calls it; [device] is the address of
    the one device. *)
Definition mock_ops (calloc : list dma_event -> Z -> Z) (backend device : Z) : kb_device_backend_ops :=
  mk_backend_ops (Some (fun _ index => mock_device_at backend index device true)) (Some (mock_dma_alloc calloc)) true
    (Some mock_dma_map) None None true.

(** ** Interrupts *)

Definition mock_irq_register {C} (handler : option (C -> C)) (ctx : C) (out_irq calloc : bool)
    : outcome (option (C -> C) * C) :=
  match handler with
  | None => Fail KB_ERR_INVALID
  | Some _ => if negb out_irq then Fail KB_ERR_INVALID else if calloc then Done (handler, ctx) else Fail KB_ERR_NOMEM
  end.

Definition mock_irq_wait {C} (irq : option (option (C -> C) * C)) : outcome C :=
  match irq with
  | Some (Some handler, ctx) => Done (handler ctx)
  | _ => Fail KB_ERR_INVALID
  end.

(** ** Creating and destroying *)

Definition set_bar (i : nat) (start size : Z) (d : kb_device) : kb_device :=
  d <| dev_bar_starts ::= <[ i := start ]> |> <| dev_bar_sizes ::= <[ i := size ]> |>
    <| dev_bar_flags ::= <[ i := KB_MOCK_IORESOURCE_MEM ]> |>.

(** [env]: the number of fields [sscanf] read and the five values. *)
Definition configure_mock_pci_id_from_env (env : option (Z * (Z * Z * Z * Z * Z))) (d : kb_device) : kb_device :=
  match env with
  | None => d
  | Some (fields, (vendor, device, class, sub, prog)) =>
      if fields <? 2 then d
      else
        let d := d <| dev_pci_id ::= fun id =>
                   let id := id <| vendor_id := u16 vendor |> <| device_id := u16 device |> in
                   if 5 <=? fields
                   then id <| class_code := u8 class |> <| subclass := u8 sub |> <| prog_if := u8 prog |> else id |> in
        let d :=
          if vendor_id (dev_pci_id d) =? 0x10de then
            let d := d <| dev_pci_id ::= fun id =>
                       let id := if subsystem_vendor_id id =? 0 then id <| subsystem_vendor_id := vendor_id id |> else id in
                       let id := if subsystem_device_id id =? 0
                                 then id <| subsystem_device_id :=
                                              if (device_id id =? 0x25b5) || (device_id id =? 0x25b6) then 0x14a9
                                              else device_id id |> else id in
                       if revision id =? 0 then id <| revision := 0xa1 |> else id |> in
            set_bar 3 0xa0000000 0x2000000 (set_bar 2 0xb0000000 0x10000000
              (set_bar 1 0x90000000 0x10000000 (set_bar 0 0x80000000 0x1000000 d)))
          else d in
        if is_ahci (dev_pci_id d) then set_bar 5 0x80100000 4096 d else d
  end.

Definition default_mock_device : kb_device :=
  mk_device (mk_pci_id 0x1d6b 1 0 0 0 0 0 0) (mk_location 0 0 1 0) (replicate 6 0) [4096; 0; 0; 0; 0; 0]
    (replicate 6 0) (replicate 6 0).

(** The allocation loop, from BAR [i] on, with [n] BARs to go; [callocs] gives the
    address [calloc] returns for a BAR.  [false]: some allocation failed. *)
Fixpoint allocate_bars (n : nat) (i : nat) (callocs : nat -> Z) (d : kb_device) : kb_device * bool :=
  match n with
  | O => (d, true)
  | S n =>
      if size_of d i =? 0 then allocate_bars n (S i) callocs d
      else
        let d := d <| dev_bars ::= <[ i := callocs i ]> |> in
        if callocs i =? 0 then (d, false) else allocate_bars n (S i) callocs d
  end.

(** What mock_destroy passes to [free]. *)
Definition mock_destroy (backend : Z) (d : kb_device) : list Z := dev_bars d ++ [backend].

(** [backend] is the address of the backend's block; the result is the status, the
    device and memory, or the blocks freed. *)
Definition kb_linux_mock_device_create (out_backend : bool) (backend : Z) (env : option (Z * (Z * Z * Z * Z * Z)))
    (callocs : nat -> Z) (m : mem) : kb_status * option kb_device * mem * list Z :=
  if negb out_backend then (KB_ERR_INVALID, None, m, [])
  else if backend =? 0 then (KB_ERR_NOMEM, None, m, [])
  else
    let d := configure_mock_pci_id_from_env env default_mock_device in
    match allocate_bars 6 0 callocs d with
    | (d, false) => (KB_ERR_NOMEM, None, m, mock_destroy backend d)
    | (d, true) => (KB_OK, Some d, initialize_mock_ahci_mmio d (initialize_mock_gpu_mmio d m), [])
    end.

(** ** The DMA subsystem over the mock *)

Definition identity_mapped (st : dma_state) : Prop :=
  Forall (fun e => m_dma_addr e = m_cpu_addr e /\ m_borrowed_window e = false) (dma_mappings st).

Section mock_dma.
Context (calloc : list dma_event -> Z -> Z) (backend device : Z).
Definition mock_get_ops (b : Z) : option kb_device_backend_ops := if b =? backend then Some (mock_ops calloc backend device) else None.

Lemma get_mock_ops b : kb_device_backend_get_ops mock_get_ops b = None \/
  kb_device_backend_get_ops mock_get_ops b = Some (mock_ops calloc backend device).
Proof. unfold kb_device_backend_get_ops, mock_get_ops. repeat case_match; auto. Qed.

(** The mock has no page-wise mapping, so the window is never used. *)
Definition mock_inv (st : dma_state) : Prop :=
  identity_mapped st /\ w_active (dma_window st) = false /\ w_mapped (dma_window st) = false.

Lemma identity_sublist l e l' p :
  take_first p l = Some (e, l') -> Forall (fun e => m_dma_addr e = m_cpu_addr e /\ m_borrowed_window e = false) l ->
  Forall (fun e => m_dma_addr e = m_cpu_addr e /\ m_borrowed_window e = false) l' /\ m_borrowed_window e = false.
Proof.
  intros [_ Hp]%take_first_spec Hl. rewrite Hp in Hl. apply Forall_cons in Hl as [[_ ?] ?]. done.
Qed.

Lemma mock_window_idle st :
  mock_inv st -> dma_window_release_mapping mock_get_ops st = st.
Proof. intros (_ & _ & Hm). unfold dma_window_release_mapping. by rewrite Hm. Qed.

Lemma mock_begin_refused st b d c s dir :
  (dma_window_begin_common mock_get_ops st b d c s dir) = (st, KB_ERR_INVALID).
Proof.
  unfold dma_window_begin_common. destruct (_ || _); [done|]. destruct (get_mock_ops b) as [->| ->]; [done|].
  cbn [op_dma_map_pages mock_ops]. by rewrite bool_decide_true, orb_true_r by done.
Qed.

Lemma mock_inv_log st e : mock_inv st -> mock_inv (log_event st e).
Proof. done. Qed.

Lemma mock_inv_unmap_call st b d a s dir : mock_inv st -> mock_inv (backend_unmap mock_get_ops st b d a s dir).
Proof. intros H. unfold backend_unmap. by repeat case_match. Qed.

Lemma mock_inv_cons st c s d per :
  mock_inv st -> mock_inv (st <| dma_mappings ::= cons (mk_mapping c c s d false per) |>).
Proof. intros (Hid & Ha & Hm). split; [|done]. by constructor. Qed.

Lemma mock_inv_alloc st b d s h z : mock_inv st -> mock_inv (kb_subsystem_dma_alloc mock_get_ops st b d s h z).1.1.
Proof.
  intros H. unfold kb_subsystem_dma_alloc. destruct (_ || _); [done|]. destruct (_ =? 0); [done|].
  destruct (get_mock_ops b) as [->| ->]; [done|]. cbn [op_dma_alloc mock_ops]. unfold mock_dma_alloc.
  destruct (s =? 0); [done|]. destruct (_ =? 0); [done|]. cbn [buf_cpu_addr buf_dma_addr buf_size].
  rewrite bool_decide_true by done. cbn [negb]. unfold remember_dma_mapping_full.
  destruct (_ || _); [done|]. destruct z; [|done]. apply mock_inv_cons, H.
Qed.

Lemma mock_inv_map st b d c s dir per z :
  mock_inv st -> mock_inv (dma_map_with_lifetime mock_get_ops st b d c s dir per z).1.1.
Proof.
  intros H. unfold dma_map_with_lifetime. destruct (_ || _); [done|]. destruct (_ =? 0); [done|].
  destruct (get_mock_ops b) as [->| ->]; [done|]. cbn [op_dma_map op_dma_unmap mock_ops].
  destruct (per && _); [done|]. unfold mock_dma_map. destruct (_ || _); [done|].
  destruct (bool_decide _ && _); [done|]. rewrite bool_decide_true by done. unfold remember_dma_mapping_full.
  destruct (_ || _); [done|]. destruct z; [|done]. apply mock_inv_cons, H.
Qed.

Lemma mock_inv_removed st e l p :
  mock_inv st -> take_first p (dma_mappings st) = Some (e, l) -> mock_inv (st <| dma_mappings := l |>).
Proof. intros (Hid & Ha & Hm) Ht. split; [|done]. by apply (identity_sublist _ _ _ _ Ht) in Hid as [? _]. Qed.

Lemma mock_inv_exec st o : mock_inv st -> mock_inv (dma_exec mock_get_ops st o).
Proof.
  intros H. pose proof H as (Hid & Ha & Hm). destruct o; cbn [dma_exec].
  - unfold kb_subsystem_dma_window_begin. rewrite Hm. cbn [andb]. by rewrite mock_begin_refused.
  - unfold kb_subsystem_dma_cached_window_begin. by rewrite mock_begin_refused.
  - unfold kb_subsystem_dma_window_end. by rewrite Ha.
  - unfold kb_subsystem_dma_cached_window_end. by rewrite Ha.
  - unfold kb_subsystem_dma_cached_window_discard. destruct (_ || _); [done|]. by rewrite mock_window_idle.
  - by apply mock_inv_alloc.
  - unfold kb_subsystem_dma_free. destruct (take_first _ _) as [[e l]|] eqn:Ht; [|done].
    pose proof (mock_inv_removed st e l _ H Ht) as Hr. by repeat case_match.
  - by apply mock_inv_map.
  - by apply mock_inv_map.
  - unfold kb_subsystem_dma_map_pages. destruct out; [|done]. destruct (_ || _); [done|]. destruct (_ =? 0); [done|].
    by destruct (get_mock_ops backend0) as [->| ->].
  - unfold kb_subsystem_dma_map_fixed. repeat (destruct (_ || _); [done|]). destruct (_ =? 0); [done|].
    by destruct (get_mock_ops backend0) as [->| ->].
  - unfold kb_subsystem_dma_unmap, take_dma_mapping. destruct (_ || _); [done|].
    destruct (take_first _ _) as [[e l]|] eqn:Ht.
    + pose proof (mock_inv_removed st e l _ H Ht) as Hr. destruct (identity_sublist _ _ _ _ Ht Hid) as [_ ->].
      destruct (negb _); [by apply mock_inv_unmap_call|done].
    + destruct (negb _); [by apply mock_inv_unmap_call|done].
Qed.

(** Over the mock, in every state the DMA subsystem reaches, the device sees memory
    at the addresses the processor uses: every buffer and mapping has its CPU
    address as device address, and looking a device address up gives that address
    back. *)
Theorem mock_dma_is_identity st :
  rtc (dma_step mock_get_ops) dma_state_init st ->
  identity_mapped st /\
  forall a, 0 <= a < 2 ^ 64 ->
    kb_subsystem_dma_cpu_addr st a = (0, 0) \/ (kb_subsystem_dma_cpu_addr st a).1 = a.
Proof.
  intros H. assert (mock_inv st) as (Hid & _ & _).
  { revert st H. apply rtc_ind_r; [split; [constructor|done]|].
    intros st st' _ [st1 o _] IH. by apply mock_inv_exec. }
  split; [done|]. intros a Ha. unfold kb_subsystem_dma_cpu_addr.
  destruct (list_find _ _) as [[i e]|] eqn:Hf; [right|by left]. cbn [fst].
  apply list_find_Some in Hf as (He & _ & _). apply (Forall_lookup_1 _ _ _ _ Hid) in He as [-> _].
  replace (m_cpu_addr e + (a - m_cpu_addr e)) with a by lia. by apply u64_small.
Qed.
End mock_dma.

(** ** The device *)

(** The allocation loop keeps sizes and fills in the addresses of the BARs that have
    a size; it fails at the first [calloc] that does. *)
Lemma allocate_bars_spec n i callocs d :
  length (dev_bars d) = 6%nat -> (i + n <= 6)%nat ->
  let '(d', ok) := allocate_bars n i callocs d in
  dev_pci_id d' = dev_pci_id d /\ dev_bar_sizes d' = dev_bar_sizes d /\ dev_bar_starts d' = dev_bar_starts d /\
  dev_bar_flags d' = dev_bar_flags d /\ length (dev_bars d') = 6%nat /\
  (ok = true -> forall k, (k < 6)%nat ->
     bar_of d' k = if decide ((i <= k < i + n)%nat /\ size_of d k <> 0) then callocs k else bar_of d k) /\
  (ok = true -> forall k, (i <= k < i + n)%nat -> size_of d k <> 0 -> callocs k <> 0).
Proof.
  revert i d. induction n as [|n IH]; intros i d Hlen Hin; cbn [allocate_bars].
  - split_and!; try done; [|intros; lia]. intros _ k Hk. rewrite decide_False; [done|lia].
  - destruct (Z.eqb_spec (size_of d i) 0) as [Hz|Hz].
    + specialize (IH (S i) d Hlen ltac:(lia)). destruct (allocate_bars n (S i) callocs d) as [d' ok].
      destruct IH as (H1 & H2 & H3 & H4 & H5 & H6 & H7). split_and!; try done.
      * intros Hok k Hk. rewrite (H6 Hok k Hk). destruct (decide (k = i)) as [->|Hne].
        -- rewrite !decide_False; [done| |]; tauto || lia.
        -- case_decide as Hc; case_decide as Hc'; try done; exfalso; [apply Hc'|apply Hc]; split; try tauto; lia.
      * intros Hok k Hk Hs. destruct (decide (k = i)) as [->|]; [done|]. apply H7; [done|lia|done].
    + destruct (Z.eqb_spec (callocs i) 0) as [Hc|Hc].
      { split_and!; try done. cbn. by rewrite length_insert. }
      set (d1 := d <| dev_bars ::= <[ i := callocs i ]> |>).
      assert (length (dev_bars d1) = 6%nat) as Hlen1 by (cbn; by rewrite length_insert).
      specialize (IH (S i) d1 Hlen1 ltac:(lia)). destruct (allocate_bars n (S i) callocs d1) as [d' ok].
      destruct IH as (H1 & H2 & H3 & H4 & H5 & H6 & H7). split_and!; try done.
      * intros Hok k Hk. rewrite (H6 Hok k Hk). unfold size_of, bar_of in *. cbn [dev_bar_sizes d1]. cbn.
        destruct (decide (k = i)) as [->|Hne].
        -- rewrite decide_False by lia. rewrite decide_True by (split; [lia|done]).
           apply nth_lookup_Some, list_lookup_insert_eq. lia.
        -- rewrite !nth_lookup, list_lookup_insert_ne by done.
           case_decide as Hd; case_decide as Hd'; try done; exfalso; [apply Hd'|apply Hd]; split; try tauto; lia.
      * intros Hok k Hk Hs. destruct (decide (k = i)) as [->|]; [done|]. apply H7; [done|lia|done].
Qed.

(** A created device shows exactly the BARs that have a size, each with the range
    it was configured with. *)
Theorem mock_device_bars backend env callocs m region0 :
  match kb_linux_mock_device_create true backend env callocs m with
  | (KB_OK, Some d, _, _) =>
      dev_bar_sizes d = dev_bar_sizes (configure_mock_pci_id_from_env env default_mock_device) /\
      forall i, 0 <= i < 6 ->
        if size_of d (Z.to_nat i) =? 0
        then mock_pci_bar_info (Some d) i true = Fail KB_ERR_NOT_FOUND /\ mock_map_bar (Some d) i (Some region0) = Fail KB_ERR_NOT_FOUND
        else exists info region,
          mock_pci_bar_info (Some d) i true = Done info /\ mock_map_bar (Some d) i (Some region0) = Done region /\
          bar_size info = size_of d (Z.to_nat i) /\ mmio_size region = bar_size info /\
          mmio_addr region = callocs (Z.to_nat i) /\ mmio_addr region <> 0 /\ mmio_host_phys region = bar_start info /\
          bar_present info = true /\ bar_end info = u64 (bar_start info + bar_size info - 1)
  | (s, o, m', freed) => s = KB_ERR_NOMEM /\ o = None /\ m' = m /\ (backend <> 0 -> backend ∈ freed)
  end.
Proof.
  unfold kb_linux_mock_device_create. destruct (Z.eqb_spec backend 0) as [->|Hb]; [done|].
  set (d0 := configure_mock_pci_id_from_env env default_mock_device).
  assert (length (dev_bars d0) = 6%nat /\ forall k, bar_of d0 k = 0) as [Hlen Hbars].
  { assert (dev_bars d0 = replicate 6 0) as E.
    { unfold d0, configure_mock_pci_id_from_env. repeat (case_match; try done). }
    unfold bar_of. rewrite E. split; [done|]. intros k. by do 7 (destruct k as [|k]; [done|]). }
  pose proof (allocate_bars_spec 6 0 callocs d0 Hlen ltac:(lia)) as H.
  destruct (allocate_bars 6 0 callocs d0) as [d ok]. destruct H as (_ & Hs & _ & _ & _ & Hbar & Hnz).
  destruct ok.
  2: { split_and!; try done. intros _. unfold mock_destroy. apply elem_of_app. right. by left. }
  split; [done|]. intros i Hi. specialize (Hbar eq_refl (Z.to_nat i) ltac:(lia)). rewrite Hbars in Hbar.
  unfold mock_pci_bar_info, mock_map_bar, KB_MOCK_PCI_BAR_COUNT. rewrite (proj2 (Z.leb_gt 6 i)) by lia. cbn [orb].
  assert (size_of d (Z.to_nat i) = size_of d0 (Z.to_nat i)) as Hsz by (unfold size_of; by rewrite Hs).
  destruct (Z.eqb_spec (size_of d (Z.to_nat i)) 0) as [Hz|Hz].
  - rewrite Hbar, decide_False by (rewrite Hsz in Hz; tauto). done.
  - rewrite Hsz in Hz. rewrite decide_True in Hbar by (split; [lia|done]).
    pose proof (Hnz eq_refl (Z.to_nat i) ltac:(lia) Hz) as Hc. rewrite Hbar, (proj2 (Z.eqb_neq _ _) Hc).
    eexists _, _. split_and!; done.
Qed.
