(* ===== verification/KvmGuest.v ===== *)
(** * KVM descriptors and the guest emulator (src/src/linux_subsystem/kvm/kvm_symbols.c)

    What the kvm modules see of files and descriptors: 16 records of misc devices,
    32 records of files (VMs and virtual CPUs), the ioctl bridges that shadow the
    guest's memory slots and registers, and the emulator that runs a guest without
    hardware support, up to 1024 instructions per call, until it halts or touches
    an I/O port or device memory.

    Records are indices into [fd_records]; a name is [None] for NULL or the bytes
    of the record's own copy.  The objects of the modules, the guest's memory and
    the [kvm_run] pages live in the byte memory of Memory.v.  The host's /dev/kvm is
    [host_kvm]: its answers depend on the calls made before ([kv_host_log]) and an
    ioctl may write memory.  A module's own ioctl is a parameter that may change the
    whole state.  [kb_kzalloc] answers the addresses given as arguments, what
    [kb_kfree] gets is logged; tracing and the switch of the GS base are left out. *)

From S2P Require Import Prelude Memory.

(** ** Layout and limits *)

Definition KB_KVM_MISC_NAME_OFFSET : Z := 0x8.
Definition KB_KVM_MISC_FOPS_OFFSET : Z := 0x10.
Definition KB_KVM_FOPS_UNLOCKED_IOCTL_OFFSET : Z := 0x50.
Definition KB_KVM_FILE_PRIVATE_DATA_OFFSET : Z := 0x18.
Definition KB_KVM_FAKE_FILE_BYTES : Z := 512.
Definition KB_KVM_X86_OPS_VM_SIZE_OFFSET : Z := 0x3c.
Definition KB_KVM_VM_STORAGE_BYTES : Z := 8192.
Definition KB_KVM_VCPU_RUN_OFFSET : Z := 0x68.
Definition KB_KVM_VCPU_LAPIC_OFFSET : Z := 0x228.
Definition KB_KVM_VCPU_ARCH_APIC_OFFSET : Z := 0x810.
Definition KB_KVM_APIC_REGS_OFFSET : Z := 0xa8.
Definition KB_KVM_VM_APICV_STATE_OFFSET : Z := 0x1851.
Definition KB_KVM_FAKE_APIC_BYTES : Z := 512.
Definition KB_KVM_RUN_STORAGE_BYTES : Z := 16384.
Definition KB_KVM_RUN_EXIT_REASON_OFFSET : Z := 0x8.
Definition KB_KVM_RUN_READY_FOR_INTERRUPT_OFFSET : Z := 0xc.
Definition KB_KVM_RUN_IF_FLAG_OFFSET : Z := 0xd.
Definition KB_KVM_RUN_FLAGS_OFFSET : Z := 0xe.
Definition KB_KVM_RUN_CR8_OFFSET : Z := 0x10.
Definition KB_KVM_RUN_APIC_BASE_OFFSET : Z := 0x18.
Definition KB_KVM_RUN_IO_DIRECTION_OFFSET : Z := 0x20.
Definition KB_KVM_RUN_IO_SIZE_OFFSET : Z := 0x21.
Definition KB_KVM_RUN_IO_PORT_OFFSET : Z := 0x22.
Definition KB_KVM_RUN_IO_COUNT_OFFSET : Z := 0x24.
Definition KB_KVM_RUN_IO_DATA_OFFSET_OFFSET : Z := 0x28.
Definition KB_KVM_RUN_MMIO_PHYS_ADDR_OFFSET : Z := 0x20.
Definition KB_KVM_RUN_MMIO_DATA_OFFSET : Z := 0x28.
Definition KB_KVM_RUN_MMIO_LEN_OFFSET : Z := 0x30.
Definition KB_KVM_RUN_MMIO_IS_WRITE_OFFSET : Z := 0x34.
Definition KB_KVM_RUN_EXIT_IO_DATA_OFFSET : Z := 0x100.
Definition KB_KVM_EXIT_IO : Z := 2.
Definition KB_KVM_EXIT_HLT : Z := 5.
Definition KB_KVM_EXIT_MMIO : Z := 6.
Definition KB_KVM_MISC_RECORD_MAX : Z := 16.
Definition KB_KVM_FD_RECORD_MAX : Z := 32.
Definition KB_KVM_MEMORY_SLOT_MAX : Z := 16.
Definition KB_KVM_FD_BASE : Z := 100.

Definition KB_KVM_GET_REGS_IOCTL : Z := 0x8090ae81.
Definition KB_KVM_SET_REGS_IOCTL : Z := 0x4090ae82.
Definition KB_KVM_GET_SREGS_IOCTL : Z := 0x8138ae83.
Definition KB_KVM_SET_SREGS_IOCTL : Z := 0x4138ae84.
Definition KB_KVM_SET_CPUID2_IOCTL : Z := 0x4008ae90.
Definition KB_KVM_SET_USER_MEMORY_REGION_IOCTL : Z := 0x4020ae46.
Definition KB_KVM_CREATE_VM_IOCTL : Z := 0xae01.
Definition KB_KVM_GET_VCPU_MMAP_SIZE_IOCTL : Z := 0xae04.
Definition KB_KVM_CREATE_VCPU_IOCTL : Z := 0xae41.
Definition KB_KVM_SET_TSS_ADDR_IOCTL : Z := 0xae47.
Definition KB_KVM_CREATE_IRQCHIP_IOCTL : Z := 0xae60.
Definition KB_KVM_IRQ_LINE_IOCTL : Z := 0x4008ae61.
Definition KB_KVM_RUN_IOCTL : Z := 0xae80.

Definition KB_KVM_PENDING_NONE : Z := 0.
Definition KB_KVM_PENDING_IO_IN : Z := 1.
Definition KB_KVM_PENDING_MMIO_READ : Z := 2.

(** ** Data *)

Record kb_kvm_userspace_memory_region := mk_region {
  rg_slot : Z;
  rg_flags : Z;
  rg_guest_phys_addr : Z;
  rg_memory_size : Z;
  rg_userspace_addr : Z;
}.
Definition zero_region : kb_kvm_userspace_memory_region := mk_region 0 0 0 0 0.

(** [r8_to_r15]: eight registers nothing here looks at one by one. *)
Record kb_kvm_regs_shadow := mk_regs {
  rax : Z;
  rbx : Z;
  rcx : Z;
  rdx : Z;
  rsi : Z;
  rdi : Z;
  rsp : Z;
  rbp : Z;
  r8_to_r15 : list Z;
  rip : Z;
  rflags : Z;
}.
#[export] Instance regs_eta : Settable kb_kvm_regs_shadow := fun r =>
  mk_regs (rax r) (rbx r) (rcx r) (rdx r) (rsi r) (rdi r) (rsp r) (rbp r) (r8_to_r15 r) (rip r) (rflags r).
Definition zero_regs : kb_kvm_regs_shadow := mk_regs 0 0 0 0 0 0 0 0 (replicate 8 0) 0 0.

Record kb_kvm_misc_record := mk_misc {
  mi_registered : bool;
  mi_misc_device : Z;
  mi_name : Z;
  mi_fops : Z;
  mi_unlocked_ioctl : Z;
}.
#[export] Instance misc_eta : Settable kb_kvm_misc_record := fun r =>
  mk_misc (mi_registered r) (mi_misc_device r) (mi_name r) (mi_fops r) (mi_unlocked_ioctl r).

Record kb_kvm_fd_record := mk_kvm_fd {
  kf_active : bool;
  kf_installed : bool;
  kf_fd : Z;
  kf_name : option (list Z);
  kf_file : Z;
  kf_private_data : Z;
  kf_fops : Z;
  kf_unlocked_ioctl : Z;
  kf_original_unlocked_ioctl : Z;
  kf_has_memory_region : bool;
  kf_memory_region : kb_kvm_userspace_memory_region;
  kf_memory_regions : list kb_kvm_userspace_memory_region;
  kf_memory_region_active : list bool;
  kf_has_regs : bool;
  kf_regs : kb_kvm_regs_shadow;
  kf_pending_exit : Z;
  kf_host_fd : Z;
  kf_host_run : Z;
  kf_host_run_size : Z;
}.
#[export] Instance kvm_fd_eta : Settable kb_kvm_fd_record := fun r =>
  mk_kvm_fd (kf_active r) (kf_installed r) (kf_fd r) (kf_name r) (kf_file r) (kf_private_data r) (kf_fops r)
    (kf_unlocked_ioctl r) (kf_original_unlocked_ioctl r) (kf_has_memory_region r) (kf_memory_region r)
    (kf_memory_regions r) (kf_memory_region_active r) (kf_has_regs r) (kf_regs r) (kf_pending_exit r)
    (kf_host_fd r) (kf_host_run r) (kf_host_run_size r).

(** A record after [memset]. *)
Definition zero_kvm_fd : kb_kvm_fd_record :=
  mk_kvm_fd false false 0 None 0 0 0 0 0 false zero_region (replicate 16 zero_region) (replicate 16 false) false
    zero_regs KB_KVM_PENDING_NONE 0 0 0.

Inductive host_event :=
| HostOpen (fd : Z)
| HostClose (fd : Z)
| HostIoctl (fd cmd arg result : Z)
| HostMmap (addr size : Z)
| HostMunmap (addr size : Z).

(** /dev/kvm and the memory calls around it.  [hk_ioctl] gives memory, the result
    and [errno]; [hk_get_regs] what KVM_GET_REGS leaves in the register block it is
    passed; [hk_mmap] [None] for MAP_FAILED. *)
Record host_kvm := mk_host_kvm {
  hk_enabled : bool;
  hk_open : list host_event -> Z * Z;
  hk_ioctl : list host_event -> Z -> Z -> Z -> mem -> mem * (Z * Z);
  hk_get_regs : list host_event -> Z -> kb_kvm_regs_shadow -> kb_kvm_regs_shadow;
  hk_mmap : list host_event -> Z -> Z -> option Z * Z;
}.

Record kvm_state := mk_kvm_state {
  misc_records : list kb_kvm_misc_record;
  fd_records : list kb_kvm_fd_record;
  kb_kvm_next_fd : Z;
  kb_kvm_host_fd : Z;
  kb_kvm_host_vcpu_mmap_size : Z;
  kv_mem : mem;
  kv_freed : list Z;
  kv_host_log : list host_event;
}.
#[export] Instance kvm_state_eta : Settable kvm_state := fun s =>
  mk_kvm_state (misc_records s) (fd_records s) (kb_kvm_next_fd s) (kb_kvm_host_fd s)
    (kb_kvm_host_vcpu_mmap_size s) (kv_mem s) (kv_freed s) (kv_host_log s).

Definition kvm_state_init (m : mem) : kvm_state :=
  mk_kvm_state (replicate 16 (mk_misc false 0 0 0 0)) (replicate 32 zero_kvm_fd) KB_KVM_FD_BASE (-1) 0 m [] [].

(** ** Fields of the modules' objects *)

Definition read_ptr_field (m : mem) (base offset : Z) : Z := if base =? 0 then 0 else mload64 m (base + offset).
Definition read_u32_field (m : mem) (base offset : Z) : Z := if base =? 0 then 0 else mload32 m (base + offset).
Definition read_u16_field (m : mem) (base offset : Z) : Z := if base =? 0 then 0 else mload16 m (base + offset).
Definition read_u8_field (m : mem) (base offset : Z) : Z := if base =? 0 then 0 else mem_byte m (base + offset).
Definition read_u64_field (m : mem) (base offset : Z) : Z := if base =? 0 then 0 else mload64 m (base + offset).
Definition write_u8_field (base offset value : Z) (m : mem) : mem :=
  if base =? 0 then m else mstore m (base + offset) [value].
Definition write_u16_field (base offset value : Z) (m : mem) : mem :=
  if base =? 0 then m else mstore16 m (base + offset) value.
Definition write_u32_field (base offset value : Z) (m : mem) : mem :=
  if base =? 0 then m else mstore32 m (base + offset) value.
Definition write_u64_field (base offset value : Z) (m : mem) : mem :=
  if base =? 0 then m else mstore64 m (base + offset) value.

(** Memory after [kb_kzalloc] of [size] bytes answered [addr]. *)
Definition zalloc_block (addr size : Z) (m : mem) : mem := if addr =? 0 then m else mclear m addr size.

(** ** Records *)

Definition kfd_at (s : kvm_state) (i : nat) : kb_kvm_fd_record := nth i (fd_records s) zero_kvm_fd.
Definition with_kfd (f : kb_kvm_fd_record -> kb_kvm_fd_record) (i : nat) (s : kvm_state) : kvm_state :=
  s <| fd_records ::= alter f i |>.

Definition find_fd_record (fd : Z) (s : kvm_state) : option nat :=
  first_index (fun r => kf_active r && (kf_fd r =? fd)) (fd_records s).
Definition find_fd_record_by_file (file : Z) (s : kvm_state) : option nat :=
  first_index (fun r => kf_active r && (kf_file r =? file)) (fd_records s).
Definition find_fd_record_by_private_data (private_data : Z) (s : kvm_state) : option nat :=
  first_index (fun r => kf_active r && (kf_private_data r =? private_data)) (fd_records s).

Definition alloc_fd_record (s : kvm_state) : kvm_state * option nat :=
  match first_index (fun r => negb (kf_active r)) (fd_records s) with
  | Some i => (with_kfd (fun _ => zero_kvm_fd <| kf_active := true |> <| kf_host_fd := -1 |>) i s, Some i)
  | None => (s, None)
  end.

Definition vcpu_prefix : list Z := cstr "kvm-vcpu:".
(** [strncmp(name, "kvm-vcpu:", 9) == 0] *)
Definition is_vcpu_name (name : option (list Z)) : bool :=
  match name with Some n => bool_decide (take 9 n = vcpu_prefix) | None => false end.

(** At most 63 bytes are kept. *)
Definition copy_fd_name (name : option (list Z)) : option (list Z) := take 63 <$> name.

Definition find_vm_record_for_vcpu (vcpu : Z) (s : kvm_state) : option nat :=
  let vm := read_ptr_field (kv_mem s) vcpu 0 in
  if vm =? 0 then None else find_fd_record_by_private_data vm s.

(** ** Guest memory *)

(** The loop over the slots, given what is left of the two arrays. *)
Fixpoint translate_slots (regions : list kb_kvm_userspace_memory_region) (active : list bool) (guest_phys_addr : Z) : Z :=
  match regions, active with
  | region :: regions, a :: active =>
      let start := rg_guest_phys_addr region in
      let end_ := u64 (start + rg_memory_size region) in
      if negb a then translate_slots regions active guest_phys_addr
      else if (end_ <? start) || (guest_phys_addr <? start) || (end_ <=? guest_phys_addr)
      then translate_slots regions active guest_phys_addr
      else u64 (rg_userspace_addr region + (guest_phys_addr - start))
  | _, _ => 0
  end.

(** 0 is NULL. *)
Definition translate_guest_physical (vm_record : option nat) (guest_phys_addr : Z) (s : kvm_state) : Z :=
  match vm_record with
  | None => 0
  | Some i =>
      let r := kfd_at s i in
      if negb (kf_has_memory_region r) then 0
      else translate_slots (kf_memory_regions r) (kf_memory_region_active r) guest_phys_addr
  end.

Definition translate_guest_instruction (vcpu_record : option nat) (vcpu : Z) (s : kvm_state) : Z :=
  match vcpu_record with
  | None => 0
  | Some i =>
      if negb (kf_has_regs (kfd_at s i)) then 0
      else translate_guest_physical (find_vm_record_for_vcpu vcpu s) (rip (kf_regs (kfd_at s i))) s
  end.

(** ** Exits *)

Definition clear_kvm_run_exit_area (run : Z) (m : mem) : mem :=
  if run =? 0 then m
  else mclear m (run + KB_KVM_RUN_EXIT_REASON_OFFSET) (KB_KVM_RUN_STORAGE_BYTES - KB_KVM_RUN_EXIT_REASON_OFFSET).

Definition write_kvm_io_exit (run direction port value : Z) (m : mem) : mem :=
  let m := write_u32_field run KB_KVM_RUN_EXIT_REASON_OFFSET KB_KVM_EXIT_IO m in
  let m := write_u8_field run KB_KVM_RUN_IO_DIRECTION_OFFSET direction m in
  let m := write_u8_field run KB_KVM_RUN_IO_SIZE_OFFSET 1 m in
  let m := write_u16_field run KB_KVM_RUN_IO_PORT_OFFSET port m in
  let m := write_u32_field run KB_KVM_RUN_IO_COUNT_OFFSET 1 m in
  let m := write_u64_field run KB_KVM_RUN_IO_DATA_OFFSET_OFFSET KB_KVM_RUN_EXIT_IO_DATA_OFFSET m in
  write_u8_field run KB_KVM_RUN_EXIT_IO_DATA_OFFSET value m.

Definition write_kvm_mmio_exit (run phys_addr is_write value : Z) (m : mem) : mem :=
  let m := write_u32_field run KB_KVM_RUN_EXIT_REASON_OFFSET KB_KVM_EXIT_MMIO m in
  let m := write_u64_field run KB_KVM_RUN_MMIO_PHYS_ADDR_OFFSET phys_addr m in
  let m := write_u8_field run KB_KVM_RUN_MMIO_DATA_OFFSET value m in
  let m := write_u32_field run KB_KVM_RUN_MMIO_LEN_OFFSET 1 m in
  write_u8_field run KB_KVM_RUN_MMIO_IS_WRITE_OFFSET is_write m.

Definition with_regs (f : kb_kvm_regs_shadow -> kb_kvm_regs_shadow) (i : nat) (s : kvm_state) : kvm_state :=
  with_kfd (fun r => r <| kf_regs ::= f |>) i s.

(** [(reg & ~mask) | value] *)
Definition set_low (mask reg value : Z) : Z := Z.lor (Z.ldiff reg mask) value.

Definition complete_pending_read_exit (vcpu_record : option nat) (run : Z) (s : kvm_state) : kvm_state * Z :=
  match vcpu_record with
  | None => (s, 0)
  | Some i =>
      let pending := kf_pending_exit (kfd_at s i) in
      let finish value :=
        (with_kfd (fun r => r <| kf_regs ::= fun g => g <| rax ::= fun v => set_low 0xff v value |> |>
                              <| kf_pending_exit := KB_KVM_PENDING_NONE |>) i s, 0) in
      if (run =? 0) || (pending =? KB_KVM_PENDING_NONE) then (s, 0)
      else if pending =? KB_KVM_PENDING_IO_IN then
        let offset := read_u64_field (kv_mem s) run KB_KVM_RUN_IO_DATA_OFFSET_OFFSET in
        if KB_KVM_RUN_STORAGE_BYTES <=? offset then (s, -22) else finish (read_u8_field (kv_mem s) run offset)
      else if pending =? KB_KVM_PENDING_MMIO_READ then finish (read_u8_field (kv_mem s) run KB_KVM_RUN_MMIO_DATA_OFFSET)
      else (s, -22)
  end.

(** ** The emulator *)

Definition s8 (z : Z) : Z := (z + 0x80) mod 0x100 - 0x80.

Definition advance (n : Z) (g : kb_kvm_regs_shadow) : kb_kvm_regs_shadow := g <| rip ::= fun v => u64 (v + n) |>.
Definition set_al (v : Z) (g : kb_kvm_regs_shadow) : kb_kvm_regs_shadow := g <| rax ::= fun o => set_low 0xff o v |>.
Definition set_dx (v : Z) (g : kb_kvm_regs_shadow) : kb_kvm_regs_shadow := g <| rdx ::= fun o => set_low 0xffff o v |>.
Definition set_si (v : Z) (g : kb_kvm_regs_shadow) : kb_kvm_regs_shadow := g <| rsi ::= fun o => set_low 0xffff o v |>.

(** The exits of the switch: [pending] for a read the next call completes. *)
Definition leave (i : nat) (m : mem) (n : Z) (pending : option Z) (s : kvm_state) : kvm_state * option Z :=
  let s := with_regs (advance n) i (s <| kv_mem := m |>) in
  (match pending with Some p => with_kfd (fun r => r <| kf_pending_exit := p |>) i s | None => s end, Some 0).

(** One round of the loop; [None]: go on with the next one. *)
Definition vcpu_step (vcpu run : Z) (i : nat) (s : kvm_state) : kvm_state * option Z :=
  let insn := translate_guest_instruction (Some i) vcpu s in
  let m := kv_mem s in
  let regs := kf_regs (kfd_at s i) in
  let b k := mem_byte m (insn + k) in
  let next f := (with_regs f i s, None) in
  let al := u8 (rax regs) in
  if insn =? 0 then (s, Some (-22))
  else if b 0 =? 0xb0 then next (fun g => advance 2 (set_al (b 1) g))
  else if b 0 =? 0xba then next (fun g => advance 3 (set_dx (mload16 m (insn + 1)) g))
  else if b 0 =? 0x66 then
    if b 1 =? 0xba then next (fun g => advance 4 (set_dx (mload16 m (insn + 2)) g)) else (s, Some (-95))
  else if b 0 =? 0xbe then next (fun g => advance 3 (set_si (mload16 m (insn + 1)) g))
  else if b 0 =? 0xac then
    let value := translate_guest_physical (find_vm_record_for_vcpu vcpu s) (u16 (rsi regs)) s in
    if value =? 0 then (s, Some (-22))
    else next (fun g => advance 1 (set_si (u16 (rsi g + 1)) (set_al (mem_byte m value) g)))
  else if b 0 =? 0x84 then
    if negb (b 1 =? 0xc0) then (s, Some (-95))
    else next (fun g => advance 2 (g <| rflags ::= fun v => if Z.land (rax g) 0xff =? 0 then Z.lor v 0x40
                                                           else Z.ldiff v 0x40 |>))
  else if b 0 =? 0x74 then
    next (fun g => if negb (Z.land (rflags g) 0x40 =? 0) then advance (2 + s8 (b 1)) g else advance 2 g)
  else if b 0 =? 0xeb then next (advance (2 + s8 (b 1)))
  else if b 0 =? 0xf4 then leave i (write_u32_field run KB_KVM_RUN_EXIT_REASON_OFFSET KB_KVM_EXIT_HLT m) 1 None s
  else if b 0 =? 0xe4 then leave i (write_kvm_io_exit run 0 (b 1) 0 m) 2 (Some KB_KVM_PENDING_IO_IN) s
  else if b 0 =? 0xe6 then leave i (write_kvm_io_exit run 1 (b 1) al m) 2 None s
  else if b 0 =? 0xec then leave i (write_kvm_io_exit run 0 (u16 (rdx regs)) 0 m) 1 (Some KB_KVM_PENDING_IO_IN) s
  else if b 0 =? 0xee then leave i (write_kvm_io_exit run 1 (u16 (rdx regs)) al m) 1 None s
  else if b 0 =? 0x67 then
    if b 1 =? 0xa0 then
      leave i (write_kvm_mmio_exit run (mload32 m (insn + 2)) 0 0 m) 6 (Some KB_KVM_PENDING_MMIO_READ) s
    else if b 1 =? 0xa2 then leave i (write_kvm_mmio_exit run (mload32 m (insn + 2)) 1 al m) 6 None s
    else (s, Some (-95))
  else if b 0 =? 0xa0 then
    leave i (write_kvm_mmio_exit run (mload64 m (insn + 1)) 0 0 m) 9 (Some KB_KVM_PENDING_MMIO_READ) s
  else if b 0 =? 0xa2 then leave i (write_kvm_mmio_exit run (mload64 m (insn + 1)) 1 al m) 9 None s
  else (s, Some (-95)).

(** [steps]: what is left of the 1024 rounds. *)
Fixpoint vcpu_loop (steps : nat) (vcpu run : Z) (i : nat) (s : kvm_state) : kvm_state * Z :=
  match steps with
  | O => (s, -95)
  | S steps =>
      match vcpu_step vcpu run i s with
      | (s, Some r) => (s, r)
      | (s, None) => vcpu_loop steps vcpu run i s
      end
  end.

Definition KB_VCPU_STEPS : Z := 1024.

Definition kb_kvm_vcpu_run_exit (vcpu : Z) (vcpu_record : option nat) (s : kvm_state) : kvm_state * Z :=
  if vcpu =? 0 then (s, -22)
  else
    let vcpu_record :=
      match vcpu_record with Some i => Some i | None => find_fd_record_by_private_data vcpu s end in
    let run := read_ptr_field (kv_mem s) vcpu KB_KVM_VCPU_RUN_OFFSET in
    if run =? 0 then (s, -22)
    else
      let '(s, completion_result) := complete_pending_read_exit vcpu_record run s in
      if negb (completion_result =? 0) then (s, completion_result)
      else
        let s := s <| kv_mem ::= clear_kvm_run_exit_area run |> in
        match vcpu_record with
        | None => (s, -22)
        | Some i => vcpu_loop (Z.to_nat KB_VCPU_STEPS) vcpu run i s
        end.

Definition kb_kvm_vcpu_run_static_call (vcpu : Z) (s : kvm_state) : kvm_state * Z := kb_kvm_vcpu_run_exit vcpu None s.

(** ** Processor signatures *)

Definition kb_kvm_x86_family (sig : Z) : Z :=
  let family := Z.land (Z.shiftr sig 8) 0xf in
  if family =? 0xf then family + Z.land (Z.shiftr sig 20) 0xff else family.

Definition kb_kvm_x86_model (sig : Z) : Z :=
  let family := Z.land (Z.shiftr sig 8) 0xf in
  let model := Z.land (Z.shiftr sig 4) 0xf in
  if (family =? 0x6) || (family =? 0xf) then model + Z.shiftl (Z.land (Z.shiftr sig 16) 0xf) 4 else model.

(** ** The host's KVM *)

(** [strtol(text, NULL, 10)]: digits after blanks and a sign, clamped to [long]. *)
Fixpoint decimal (acc : Z) (text : list Z) : Z :=
  match text with
  | c :: text => if (48 <=? c) && (c <=? 57) then decimal (acc * 10 + (c - 48)) text else acc
  | [] => acc
  end.
Fixpoint skip_blanks (text : list Z) : list Z :=
  match text with
  | c :: rest => if (c =? 32) || ((9 <=? c) && (c <=? 13)) then skip_blanks rest else text
  | [] => []
  end.
Definition strtol10 (text : list Z) : Z :=
  match skip_blanks text with
  | 45 :: text => Z.max (- (2 ^ 63)) (- decimal 0 text)
  | 43 :: text => Z.min (2 ^ 63 - 1) (decimal 0 text)
  | text => Z.min (2 ^ 63 - 1) (decimal 0 text)
  end.

Definition vcpu_id_from_name (name : option (list Z)) : Z :=
  match name with
  | Some n => if is_vcpu_name name then s32 (strtol10 (drop 9 n)) else 0
  | None => 0
  end.

Section host.
Context (hk : host_kvm).

Definition log_host (e : host_event) (s : kvm_state) : kvm_state := s <| kv_host_log ::= cons e |>.

(** The result and [errno]. *)
Definition host_kvm_ioctl (fd cmd arg : Z) (s : kvm_state) : kvm_state * Z * Z :=
  let '(m, (result, errno)) := hk_ioctl hk (kv_host_log s) fd cmd arg (kv_mem s) in
  (log_host (HostIoctl fd cmd arg result) (s <| kv_mem := m |>), result, errno).

(** [errno == 0 ? result : -errno] *)
Definition host_error (result errno : Z) : Z := if errno =? 0 then result else - errno.

Definition ensure_host_kvm_open (s : kvm_state) : kvm_state * Z :=
  if 0 <=? kb_kvm_host_fd s then (s, 0)
  else
    let '(fd, errno) := hk_open hk (kv_host_log s) in
    let s := log_host (HostOpen fd) s in
    if fd <? 0 then (s, - errno)
    else
      let '(s, mmap_size, errno) := host_kvm_ioctl fd KB_KVM_GET_VCPU_MMAP_SIZE_IOCTL 0 s in
      if mmap_size <=? 0 then (log_host (HostClose fd) s, if errno =? 0 then -22 else - errno)
      else (s <| kb_kvm_host_fd := fd |> <| kb_kvm_host_vcpu_mmap_size := mmap_size |>, 0).

Definition close_host_fd_record (r : kb_kvm_fd_record) (s : kvm_state) : kvm_state :=
  let s := if negb (kf_host_run r =? 0) && negb (kf_host_run_size r =? 0)
           then log_host (HostMunmap (kf_host_run r) (kf_host_run_size r)) s else s in
  if 0 <=? kf_host_fd r then log_host (HostClose (kf_host_fd r)) s else s.

Definition init_host_vm_record (i : nat) (s : kvm_state) : kvm_state * Z :=
  if negb (hk_enabled hk) then (s, 0)
  else
    let '(s, open_result) := ensure_host_kvm_open s in
    if negb (open_result =? 0) then (s, open_result)
    else
      let '(s, host_vm_fd, errno) := host_kvm_ioctl (kb_kvm_host_fd s) KB_KVM_CREATE_VM_IOCTL 0 s in
      if host_vm_fd <? 0 then (s, host_error (s32 host_vm_fd) errno)
      else
        let s := with_kfd (fun r => r <| kf_host_fd := s32 host_vm_fd |>) i s in
        let '(s, _, _) := host_kvm_ioctl (kf_host_fd (kfd_at s i)) KB_KVM_SET_TSS_ADDR_IOCTL 0xfffbd000 s in
        (s, 0).

Definition init_host_vcpu_record (i : nat) (name : option (list Z)) (private_data : Z) (s : kvm_state)
    : kvm_state * Z :=
  if negb (hk_enabled hk) || (private_data =? 0) then (s, 0)
  else match find_vm_record_for_vcpu private_data s with
       | None => (s, -2)
       | Some v =>
           if kf_host_fd (kfd_at s v) <? 0 then (s, -2)
           else
             let '(s, host_vcpu_fd, errno) :=
               host_kvm_ioctl (kf_host_fd (kfd_at s v)) KB_KVM_CREATE_VCPU_IOCTL (u64 (vcpu_id_from_name name)) s in
             if host_vcpu_fd <? 0 then (s, host_error (s32 host_vcpu_fd) errno)
             else
               let fd := s32 host_vcpu_fd in
               let size := kb_kvm_host_vcpu_mmap_size s in
               match hk_mmap hk (kv_host_log s) size fd with
               | (None, errno) =>
                   (with_kfd (fun r => r <| kf_host_fd := -1 |> <| kf_host_run := 0 |> <| kf_host_run_size := 0 |>) i
                      (log_host (HostClose fd) s), - errno)
               | (Some addr, _) =>
                   (with_kfd (fun r => r <| kf_host_fd := fd |> <| kf_host_run := addr |> <| kf_host_run_size := size |>) i
                      (log_host (HostMmap addr size) s), 0)
               end
       end.

Definition host_run_copy_size (r : kb_kvm_fd_record) : Z :=
  if (kf_host_run_size r =? 0) || (KB_KVM_RUN_STORAGE_BYTES <? kf_host_run_size r) then KB_KVM_RUN_STORAGE_BYTES
  else kf_host_run_size r.

(** [memcpy(dst, src, n)] *)
Definition mcopy (dst src n : Z) (m : mem) : mem := mstore m dst (mload m src (Z.to_nat n)).

Definition host_kvm_run_vcpu (i : nat) (s : kvm_state) : kvm_state * Z :=
  let r := kfd_at s i in
  if (kf_host_fd r <? 0) || (kf_host_run r =? 0) || (kf_private_data r =? 0) then (s, -22)
  else
    let run := read_ptr_field (kv_mem s) (kf_private_data r) KB_KVM_VCPU_RUN_OFFSET in
    if run =? 0 then (s, -22)
    else
      let n := host_run_copy_size r in
      let s := s <| kv_mem ::= mcopy (kf_host_run r) run n |> in
      let '(s, result, _) := host_kvm_ioctl (kf_host_fd r) KB_KVM_RUN_IOCTL 0 s in
      let s := s <| kv_mem ::= mcopy run (kf_host_run r) n |> in
      if result =? 0 then
        (with_kfd (fun r => r <| kf_regs ::= hk_get_regs hk (kv_host_log s) (kf_host_fd r) |> <| kf_has_regs := true |>) i
           (log_host (HostIoctl (kf_host_fd r) KB_KVM_GET_REGS_IOCTL 0 0) s), result)
      else (s, result).

(** ** ioctl bridges *)

(** [original fn file cmd arg] is a module's ioctl function at address [fn]. *)
Context (original : Z -> Z -> Z -> Z -> kvm_state -> kvm_state * Z).

Definition call_original_ioctl (i : nat) (file cmd arg : Z) (s : kvm_state) : kvm_state * Z :=
  let fn := kf_original_unlocked_ioctl (kfd_at s i) in
  if fn =? 0 then (s, -25) else original fn file cmd arg s.

Definition load_region (m : mem) (a : Z) : kb_kvm_userspace_memory_region :=
  mk_region (mload32 m a) (mload32 m (a + 4)) (mload64 m (a + 8)) (mload64 m (a + 16)) (mload64 m (a + 24)).

(** What SET_USER_MEMORY_REGION leaves in the record. *)
Definition note_region (region : kb_kvm_userspace_memory_region) (r : kb_kvm_fd_record) : kb_kvm_fd_record :=
  let present := negb (rg_memory_size region =? 0) in
  let r := r <| kf_memory_region := region |> <| kf_has_memory_region := present |> in
  if rg_slot region <? KB_KVM_MEMORY_SLOT_MAX
  then r <| kf_memory_regions ::= <[ Z.to_nat (rg_slot region) := region ]> |>
         <| kf_memory_region_active ::= <[ Z.to_nat (rg_slot region) := present ]> |>
  else r.

Definition kb_linux_kvm_vm_ioctl_bridge (file cmd arg : Z) (s : kvm_state) : kvm_state * Z :=
  match find_fd_record_by_file file s with
  | None => (s, -22)
  | Some i =>
      if kf_private_data (kfd_at s i) =? 0 then (s, -22)
      else if hk_enabled hk && (0 <=? kf_host_fd (kfd_at s i)) &&
              ((cmd =? KB_KVM_CREATE_IRQCHIP_IOCTL) || (cmd =? KB_KVM_IRQ_LINE_IOCTL)) then
        let '(s, host_result, errno) := host_kvm_ioctl (kf_host_fd (kfd_at s i)) cmd arg s in
        (s, if host_result <? 0 then host_error host_result errno else host_result)
      else
        let '(s, result) := call_original_ioctl i file cmd arg s in
        if (0 <=? result) && (cmd =? KB_KVM_SET_USER_MEMORY_REGION_IOCTL) && negb (arg =? 0) then
          let s := with_kfd (note_region (load_region (kv_mem s) arg)) i s in
          if 0 <=? kf_host_fd (kfd_at s i) then
            let '(s, host_result, errno) := host_kvm_ioctl (kf_host_fd (kfd_at s i)) cmd arg s in
            (s, if host_result <? 0 then host_error host_result errno else result)
          else (s, result)
        else (s, result)
  end.

Definition load_regs (m : mem) (a : Z) : kb_kvm_regs_shadow :=
  mk_regs (mload64 m a) (mload64 m (a + 8)) (mload64 m (a + 16)) (mload64 m (a + 24)) (mload64 m (a + 32))
    (mload64 m (a + 40)) (mload64 m (a + 48)) (mload64 m (a + 56)) (mload64s m (a + 64) 8) (mload64 m (a + 128))
    (mload64 m (a + 136)).

Definition regs_words (g : kb_kvm_regs_shadow) : list Z :=
  [rax g; rbx g; rcx g; rdx g; rsi g; rdi g; rsp g; rbp g] ++ r8_to_r15 g ++ [rip g; rflags g].
Definition store_regs (m : mem) (a : Z) (g : kb_kvm_regs_shadow) : mem :=
  mstore m a (flat_map (le_bytes 8) (regs_words g)).

Definition kb_linux_kvm_vcpu_ioctl_bridge (file cmd arg : Z) (s : kvm_state) : kvm_state * Z :=
  match find_fd_record_by_file file s with
  | None => (s, -22)
  | Some i =>
      let r := kfd_at s i in
      let host := hk_enabled hk && (0 <=? kf_host_fd r) in
      if kf_private_data r =? 0 then (s, -22)
      else if cmd =? KB_KVM_RUN_IOCTL then
        if host then host_kvm_run_vcpu i s else kb_kvm_vcpu_run_exit (kf_private_data r) (Some i) s
      else if (cmd =? KB_KVM_SET_CPUID2_IOCTL) && host && negb (arg =? 0) then
        let '(s, host_result, errno) := host_kvm_ioctl (kf_host_fd r) cmd arg s in
        (s, if host_result <? 0 then host_error host_result errno else host_result)
      else if ((cmd =? KB_KVM_GET_REGS_IOCTL) || (cmd =? KB_KVM_GET_SREGS_IOCTL)) && host && negb (arg =? 0) then
        let '(s, host_result, errno) := host_kvm_ioctl (kf_host_fd r) cmd arg s in
        if host_result <? 0 then (s, host_error host_result errno)
        else
          (if cmd =? KB_KVM_GET_REGS_IOCTL
           then with_kfd (fun r => r <| kf_regs := load_regs (kv_mem s) arg |> <| kf_has_regs := true |>) i s else s,
           host_result)
      else if (cmd =? KB_KVM_GET_REGS_IOCTL) && kf_has_regs r && negb (arg =? 0) then
        (s <| kv_mem ::= fun m => store_regs m arg (kf_regs r) |>, 0)
      else
        let '(s, result) := call_original_ioctl i file cmd arg s in
        let s := if (0 <=? result) && (cmd =? KB_KVM_SET_REGS_IOCTL) && negb (arg =? 0)
                 then with_kfd (fun r => r <| kf_regs := load_regs (kv_mem s) arg |> <| kf_has_regs := true |>
                                           <| kf_pending_exit := KB_KVM_PENDING_NONE |>) i s else s in
        if (0 <=? result) && hk_enabled hk && (0 <=? kf_host_fd (kfd_at s i)) &&
           ((cmd =? KB_KVM_SET_REGS_IOCTL) || (cmd =? KB_KVM_SET_SREGS_IOCTL)) && negb (arg =? 0) then
          let '(s, host_result, errno) := host_kvm_ioctl (kf_host_fd (kfd_at s i)) cmd arg s in
          (s, if host_result <? 0 then host_error host_result errno else result)
        else (s, result)
  end.

(** ** Misc devices *)

(** The address of the exported kvm_x86_ops, 0 when no module exports it. *)
Context (kvm_x86_ops : Z).

Definition fixup_kvm_x86_ops_vm_size (m : mem) : mem :=
  if kvm_x86_ops =? 0 then m
  else if KB_KVM_VM_STORAGE_BYTES <=? mload32 m (kvm_x86_ops + KB_KVM_X86_OPS_VM_SIZE_OFFSET) then m
  else mstore32 m (kvm_x86_ops + KB_KVM_X86_OPS_VM_SIZE_OFFSET) KB_KVM_VM_STORAGE_BYTES.

Definition kb_linux_kvm_misc_register (misc : Z) (s : kvm_state) : kvm_state * Z :=
  if misc =? 0 then (s, -22)
  else
    let name := read_ptr_field (kv_mem s) misc KB_KVM_MISC_NAME_OFFSET in
    let fops := read_ptr_field (kv_mem s) misc KB_KVM_MISC_FOPS_OFFSET in
    let unlocked_ioctl := read_ptr_field (kv_mem s) fops KB_KVM_FOPS_UNLOCKED_IOCTL_OFFSET in
    match first_index (fun r => (mi_misc_device r =? 0) || (mi_misc_device r =? misc)) (misc_records s) with
    | Some i => (s <| misc_records ::= <[ i := mk_misc true misc name fops unlocked_ioctl ]> |>
                   <| kv_mem ::= fixup_kvm_x86_ops_vm_size |>, 0)
    | None => (s, -12)
    end.

Definition kb_linux_kvm_misc_deregister (misc : Z) (s : kvm_state) : kvm_state :=
  match first_index (fun r => mi_misc_device r =? misc) (misc_records s) with
  | Some i => s <| misc_records ::= alter (fun r => r <| mi_registered := false |>) i |>
  | None => s
  end.

(** The snapshot has the record's fields; [None] is -2 (-ENOENT). *)
Definition kb_linux_kvm_misc_snapshot (name : option (list Z)) (s : kvm_state) : option kb_kvm_misc_record :=
  i ← first_index (fun r => negb (mi_misc_device r =? 0) &&
        match name with
        | None => true
        | Some n => negb (mi_name r =? 0) && bool_decide (mem_string (kv_mem s) (mi_name r) = n)
        end) (misc_records s);
  misc_records s !! i.

(** ** Files and descriptors *)

(** The addresses of the two bridges, and what [kb_kzalloc] answers. *)
Context (vm_bridge vcpu_bridge : Z).
Record kvm_allocs := mk_kvm_allocs {
  ka_file : Z;
  ka_run : Z;
  ka_apic : Z;
}.

(** [None]: a store through the null pointer. *)
Definition prepare_vcpu_private_data (name : option (list Z)) (vcpu : Z) (al : kvm_allocs) (m : mem) : option mem :=
  if negb (is_vcpu_name name) || (vcpu =? 0) then Some m
  else
    let run := read_ptr_field m vcpu KB_KVM_VCPU_RUN_OFFSET in
    let m := if run =? 0
             then mstore64 (zalloc_block (ka_run al) KB_KVM_RUN_STORAGE_BYTES m) (vcpu + KB_KVM_VCPU_RUN_OFFSET) (ka_run al)
             else m in
    let apic := read_ptr_field m vcpu KB_KVM_VCPU_LAPIC_OFFSET in
    let apic := if apic =? 0 then read_ptr_field m vcpu KB_KVM_VCPU_ARCH_APIC_OFFSET else apic in
    let '(m, apic) := if apic =? 0 then (zalloc_block (ka_apic al) KB_KVM_FAKE_APIC_BYTES m, ka_apic al) else (m, apic) in
    let m := mstore64 m (vcpu + KB_KVM_VCPU_LAPIC_OFFSET) apic in
    let m := mstore64 m (vcpu + KB_KVM_VCPU_ARCH_APIC_OFFSET) apic in
    let apic_regs := read_ptr_field m apic KB_KVM_APIC_REGS_OFFSET in
    if (apic_regs =? 0) && (apic =? 0) then None
    else
      let m := if apic_regs =? 0 then mstore64 m (apic + KB_KVM_APIC_REGS_OFFSET) apic else m in
      let vm := read_ptr_field m vcpu 0 in
      Some (if vm =? 0 then m else mstore m (vm + KB_KVM_VM_APICV_STATE_OFFSET) [1]).

(** The counter of descriptors is an int that only grows: after 2^31 of them the code's
    increment overflows, which is undefined; here it goes on. *)
Definition kb_linux_kvm_get_unused_fd_flags (s : kvm_state) : kvm_state * Z :=
  match alloc_fd_record s with
  | (s, None) => (s, -24)
  | (s, Some i) =>
      let fd := kb_kvm_next_fd s in
      (with_kfd (fun r => r <| kf_fd := fd |>) i (s <| kb_kvm_next_fd := fd + 1 |>), fd)
  end.

(** [memset] of a record. *)
Definition clear_kfd (i : nat) (s : kvm_state) : kvm_state := with_kfd (fun _ => zero_kvm_fd) i s.

Definition kb_linux_kvm_anon_inode_getfile (name : option (list Z)) (fops private_data : Z) (al : kvm_allocs)
    (s : kvm_state) : option (kvm_state * Z) :=
  match alloc_fd_record s with
  | (s, None) => Some (s, 0)
  | (s, Some i) =>
      let file := ka_file al in
      if file =? 0 then Some (clear_kfd i s, 0)
      else
        let m := zalloc_block file KB_KVM_FAKE_FILE_BYTES (kv_mem s) in
        let unlocked_ioctl := read_ptr_field m fops KB_KVM_FOPS_UNLOCKED_IOCTL_OFFSET in
        m ← prepare_vcpu_private_data name private_data al m;
        let m := mstore64 m (file + KB_KVM_FILE_PRIVATE_DATA_OFFSET) private_data in
        let s := with_kfd (fun r => r <| kf_host_fd := -1 |> <| kf_fd := -1 |> <| kf_name := copy_fd_name name |>
                                      <| kf_file := file |> <| kf_private_data := private_data |> <| kf_fops := fops |>
                                      <| kf_original_unlocked_ioctl := unlocked_ioctl |>) i (s <| kv_mem := m |>) in
        let set_ioctl fn := with_kfd (fun r => r <| kf_unlocked_ioctl := fn |>) i s in
        let finish '(s, host_result) :=
          if negb (host_result =? 0) then (clear_kfd i (s <| kv_freed ::= cons file |>), 0) else (s, file) in
        Some (if is_vcpu_name name then finish (init_host_vcpu_record i name private_data (set_ioctl vcpu_bridge))
              else if bool_decide (name = Some (cstr "kvm-vm")) then finish (init_host_vm_record i (set_ioctl vm_bridge))
              else (set_ioctl unlocked_ioctl, file))
  end.

Definition kb_linux_kvm_anon_inode_getfile_fmode := kb_linux_kvm_anon_inode_getfile.

(** [reserved] takes over what the record of the file says. *)
Definition take_over (f : kb_kvm_fd_record) (r : kb_kvm_fd_record) : kb_kvm_fd_record :=
  r <| kf_name := copy_fd_name (kf_name f) |> <| kf_file := kf_file f |> <| kf_private_data := kf_private_data f |>
    <| kf_fops := kf_fops f |> <| kf_unlocked_ioctl := kf_unlocked_ioctl f |>
    <| kf_original_unlocked_ioctl := kf_original_unlocked_ioctl f |>
    <| kf_has_memory_region := kf_has_memory_region f |> <| kf_memory_region := kf_memory_region f |>
    <| kf_memory_regions := kf_memory_regions f |> <| kf_memory_region_active := kf_memory_region_active f |>
    <| kf_has_regs := kf_has_regs f |> <| kf_regs := kf_regs f |> <| kf_pending_exit := kf_pending_exit f |>
    <| kf_host_fd := kf_host_fd f |> <| kf_host_run := kf_host_run f |> <| kf_host_run_size := kf_host_run_size f |>.

Definition kb_linux_kvm_fd_install (fd file : Z) (s : kvm_state) : kvm_state :=
  let file_record := find_fd_record_by_file file s in
  let '(s, reserved) :=
    match find_fd_record fd s with
    | Some i => (s, Some i)
    | None => match alloc_fd_record s with
              | (s, Some i) => (with_kfd (fun r => r <| kf_fd := fd |>) i s, Some i)
              | (s, None) => (s, None)
              end
    end in
  match reserved with
  | None => s
  | Some i =>
      let s :=
        match file_record with
        | Some j => if bool_decide (i = j) then with_kfd (fun r => if kf_file r =? 0 then r <| kf_file := file |> else r) i s
                    else clear_kfd j (with_kfd (take_over (kfd_at s j)) i s)
        | None => with_kfd (fun r => if kf_file r =? 0 then r <| kf_file := file |> else r) i s
        end in
      with_kfd (fun r => r <| kf_installed := true |>) i s
  end.

Definition kb_linux_kvm_put_unused_fd (fd : Z) (s : kvm_state) : kvm_state :=
  match find_fd_record fd s with
  | None => s
  | Some i =>
      let s := close_host_fd_record (kfd_at s i) s in
      clear_kfd i (s <| kv_freed ::= cons (kf_file (kfd_at s i)) |>)
  end.

Definition kb_linux_kvm_anon_inode_getfd (name : option (list Z)) (fops private_data : Z) (al : kvm_allocs)
    (s : kvm_state) : option (kvm_state * Z) :=
  let '(s, fd) := kb_linux_kvm_get_unused_fd_flags s in
  if fd <? 0 then Some (s, fd)
  else
    '(s, file) ← kb_linux_kvm_anon_inode_getfile name fops private_data al s;
    Some (if file =? 0 then (kb_linux_kvm_put_unused_fd fd s, -12) else (kb_linux_kvm_fd_install fd file s, fd)).

(** ** Snapshots *)

(** [None] is -2 (-ENOENT); the snapshot has fields of the record found. *)
Definition kb_linux_kvm_fd_snapshot (fd : Z) (s : kvm_state) : option kb_kvm_fd_record :=
  i ← first_index (fun r => kf_active r && kf_installed r && (kf_fd r =? fd)) (fd_records s);
  fd_records s !! i.

Record kb_kvm_run_snapshot := mk_run_snapshot {
  rs_run : Z;
  rs_exit_reason : Z;
  rs_ready_for_interrupt_injection : Z;
  rs_if_flag : Z;
  rs_flags : Z;
  rs_cr8 : Z;
  rs_apic_base : Z;
  rs_io_direction : Z;
  rs_io_size : Z;
  rs_io_port : Z;
  rs_io_count : Z;
  rs_io_data_offset : Z;
  rs_io_data : list Z;
  rs_mmio_phys_addr : Z;
  rs_mmio_data : list Z;
  rs_mmio_len : Z;
  rs_mmio_is_write : Z;
}.

Definition read_run (m : mem) (run : Z) : kb_kvm_run_snapshot :=
  let io_data_offset := read_u64_field m run KB_KVM_RUN_IO_DATA_OFFSET_OFFSET in
  mk_run_snapshot run (read_u32_field m run KB_KVM_RUN_EXIT_REASON_OFFSET)
    (read_u8_field m run KB_KVM_RUN_READY_FOR_INTERRUPT_OFFSET) (read_u8_field m run KB_KVM_RUN_IF_FLAG_OFFSET)
    (read_u16_field m run KB_KVM_RUN_FLAGS_OFFSET) (read_u64_field m run KB_KVM_RUN_CR8_OFFSET)
    (read_u64_field m run KB_KVM_RUN_APIC_BASE_OFFSET) (read_u8_field m run KB_KVM_RUN_IO_DIRECTION_OFFSET)
    (read_u8_field m run KB_KVM_RUN_IO_SIZE_OFFSET) (read_u16_field m run KB_KVM_RUN_IO_PORT_OFFSET)
    (read_u32_field m run KB_KVM_RUN_IO_COUNT_OFFSET) io_data_offset
    (if u64 (io_data_offset + 8) <=? KB_KVM_RUN_STORAGE_BYTES then mload m (u64 (run + io_data_offset)) 8
     else replicate 8 0)
    (read_u64_field m run KB_KVM_RUN_MMIO_PHYS_ADDR_OFFSET) (mload m (run + KB_KVM_RUN_MMIO_DATA_OFFSET) 8)
    (read_u32_field m run KB_KVM_RUN_MMIO_LEN_OFFSET) (read_u8_field m run KB_KVM_RUN_MMIO_IS_WRITE_OFFSET).

Definition kb_linux_kvm_run_snapshot (vcpu_fd : Z) (s : kvm_state) : Z + kb_kvm_run_snapshot :=
  match find_fd_record vcpu_fd s with
  | None => inl (-2)
  | Some i =>
      let r := kfd_at s i in
      if negb (kf_installed r) || (kf_private_data r =? 0) then inl (-2)
      else if negb (is_vcpu_name (kf_name r)) then inl (-22)
      else
        let run := read_ptr_field (kv_mem s) (kf_private_data r) KB_KVM_VCPU_RUN_OFFSET in
        if run =? 0 then inl (-2) else inr (read_run (kv_mem s) run)
  end.
End host.
