(* ===== verification/KvmTheorems.v ===== *)
(** * Theorems about KVM descriptors and the guest emulator (KvmGuest.v)

    The emulator is an implementation of a small instruction set: a reference
    semantics of its seventeen instructions, by encoding and effect, is refined by
    every run, errors and the bound of 1024 instructions included, and the exits it
    reports are read back from the [kvm_run] page.  Guest memory is what the slots
    say; descriptors are handed out and taken back whole. *)

From S2P Require Import Prelude Bytes Bitmap Memory KvmGuest.

(** ** The instruction set *)

Inductive insn :=
| MovAl (v : Z) | MovDx (v : Z) | MovDx66 (v : Z) | MovSi (v : Z) | Lodsb | TestAl | Jz (d : Z) | Jmp (d : Z) | Hlt
| InImm (port : Z) | OutImm (port : Z) | InDx | OutDx
| LoadA32 (a : Z) | StoreA32 (a : Z) | LoadA64 (a : Z) | StoreA64 (a : Z).

Definition encode (i : insn) : list Z :=
  match i with
  | MovAl v => [0xb0; v]
  | MovDx v => 0xba :: le_bytes 2 v
  | MovDx66 v => 0x66 :: 0xba :: le_bytes 2 v
  | MovSi v => 0xbe :: le_bytes 2 v
  | Lodsb => [0xac]
  | TestAl => [0x84; 0xc0]
  | Jz d => [0x74; d mod 256]
  | Jmp d => [0xeb; d mod 256]
  | Hlt => [0xf4]
  | InImm port => [0xe4; port]
  | OutImm port => [0xe6; port]
  | InDx => [0xec]
  | OutDx => [0xee]
  | LoadA32 a => 0x67 :: 0xa0 :: le_bytes 4 a
  | StoreA32 a => 0x67 :: 0xa2 :: le_bytes 4 a
  | LoadA64 a => 0xa0 :: le_bytes 8 a
  | StoreA64 a => 0xa2 :: le_bytes 8 a
  end.

(** Operands that fit their field. *)
Definition operands_ok (i : insn) : Prop :=
  match i with
  | MovAl v | InImm v | OutImm v => is_u8 v
  | MovDx v | MovDx66 v | MovSi v => is_u16 v
  | Jz d | Jmp d => -128 <= d < 128
  | LoadA32 a | StoreA32 a => is_u32 a
  | LoadA64 a | StoreA64 a => is_u64 a
  | _ => True
  end.

(** What the outside world is asked to do. *)
Inductive guest_exit :=
| ExitHlt
| ExitIo (write : bool) (port value : Z)
| ExitMmio (write : bool) (addr value : Z).

(** The effect of an instruction of length [n] at [rip]: new registers, and the exit
    if there is one; [None] when it reads unmapped memory. *)
Definition exec (byte : Z -> option Z) (i : insn) (g : kb_kvm_regs_shadow)
    : option (kb_kvm_regs_shadow * option guest_exit) :=
  let next := advance (blen (encode i)) in
  let al := u8 (rax g) in
  match i with
  | MovAl v => Some (next (set_al v g), None)
  | MovDx v | MovDx66 v => Some (next (set_dx v g), None)
  | MovSi v => Some (next (set_si v g), None)
  | Lodsb => (fun b => (next (set_si (u16 (rsi g + 1)) (set_al b g)), None)) <$> byte (u16 (rsi g))
  | TestAl => Some (next (g <| rflags := if al =? 0 then Z.lor (rflags g) 0x40 else Z.ldiff (rflags g) 0x40 |>), None)
  | Jz d => Some (if Z.testbit (rflags g) 6 then advance d (next g) else next g, None)
  | Jmp d => Some (advance d (next g), None)
  | Hlt => Some (next g, Some ExitHlt)
  | InImm p => Some (next g, Some (ExitIo false p 0))
  | OutImm p => Some (next g, Some (ExitIo true p al))
  | InDx => Some (next g, Some (ExitIo false (u16 (rdx g)) 0))
  | OutDx => Some (next g, Some (ExitIo true (u16 (rdx g)) al))
  | LoadA32 a | LoadA64 a => Some (next g, Some (ExitMmio false a 0))
  | StoreA32 a | StoreA64 a => Some (next g, Some (ExitMmio true a al))
  end.

(** ** The reference machine *)

Section machine.
Context (addr : Z -> Z) (m : mem).

(** The byte at a guest address, by the host address that backs it (0 for none). *)
Definition guest_byte (a : Z) : option Z := if addr a =? 0 then None else Some (mem_byte m (addr a)).

Definition insn_at (g : kb_kvm_regs_shadow) (i : insn) : Prop :=
  addr (rip g) <> 0 /\ operands_ok i /\ mload m (addr (rip g)) (length (encode i)) = encode i.

Inductive guest_result := GuestExit (e : guest_exit) | GuestError (code : Z).

(** [guest_run n g g' r]: with at most [n] instructions from [g] on, the machine
    stops in [g'] with [r]. *)
Inductive guest_run : nat -> kb_kvm_regs_shadow -> kb_kvm_regs_shadow -> guest_result -> Prop :=
| run_out_of_steps g : guest_run 0 g g (GuestError (-95))
| run_unmapped n g : addr (rip g) = 0 -> guest_run (S n) g g (GuestError (-22))
| run_illegal n g : addr (rip g) <> 0 -> (forall i, ~ insn_at g i) -> guest_run (S n) g g (GuestError (-95))
| run_fault n g i : insn_at g i -> exec guest_byte i g = None -> guest_run (S n) g g (GuestError (-22))
| run_exit n g i g' e : insn_at g i -> exec guest_byte i g = Some (g', Some e) -> guest_run (S n) g g' (GuestExit e)
| run_next n g i g1 g' r :
    insn_at g i -> exec guest_byte i g = Some (g1, None) -> guest_run n g1 g' r -> guest_run (S n) g g' r.
End machine.

(** ** Decoding *)

Lemma mload_cons m a n b q : mload m a n = b :: q -> mem_byte m a = b /\ mload m (a + 1) (length q) = q.
Proof.
  destruct n as [|n]; cbn [mload]; [done|]. intros [= Hb Hq]. split; [done|].
  rewrite <- Hq at 1. rewrite length_mload. done.
Qed.

Lemma mload16_of m a v : is_u16 v -> mload m a 2 = le_bytes 2 v -> mload16 m a = v.
Proof. intros Hv H. unfold mload16. rewrite H, le_value_bytes. by apply Z.mod_small. Qed.
Lemma mload32_of m a v : is_u32 v -> mload m a 4 = le_bytes 4 v -> mload32 m a = v.
Proof. intros Hv H. unfold mload32. rewrite H, le_value_bytes. by apply Z.mod_small. Qed.
Lemma mload64_of m a v : is_u64 v -> mload m a 8 = le_bytes 8 v -> mload64 m a = v.
Proof. intros Hv H. unfold mload64. rewrite H, le_value_bytes. by apply Z.mod_small. Qed.

Lemma s8_mod d : -128 <= d < 128 -> s8 (d mod 256) = d.
Proof.
  intros H. unfold s8. rewrite Zplus_mod_idemp_l. rewrite Z.mod_small; lia.
Qed.

Lemma le_bytes_mload m a n : mem_ok m -> le_bytes n (le_value (mload m a n)) = mload m a n.
Proof.
  intros Hm. revert a. induction n as [|n IH]; intros a; [done|]. cbn [mload le_bytes le_value].
  pose proof (mem_byte_ok m a Hm) as Hb. unfold is_u8 in Hb.
  rewrite (Z.mul_comm 256), Z_mod_plus_full, Z.mod_small by lia.
  rewrite Z.div_add, Z.div_small, Z.add_0_l, IH by lia. done.
Qed.

(** ** One instruction *)

Definition guest_addr (vcpu : Z) (s : kvm_state) (a : Z) : Z :=
  translate_guest_physical (find_vm_record_for_vcpu vcpu s) a s.

Definition write_exit (run : Z) (e : guest_exit) (m : mem) : mem :=
  match e with
  | ExitHlt => write_u32_field run KB_KVM_RUN_EXIT_REASON_OFFSET KB_KVM_EXIT_HLT m
  | ExitIo w port v => write_kvm_io_exit run (Z.b2z w) port v m
  | ExitMmio w a v => write_kvm_mmio_exit run a (Z.b2z w) v m
  end.

(** Reads are completed by the next run. *)
Definition exit_pending (e : guest_exit) (old : Z) : Z :=
  match e with
  | ExitIo false _ _ => KB_KVM_PENDING_IO_IN
  | ExitMmio false _ _ => KB_KVM_PENDING_MMIO_READ
  | _ => old
  end.

Definition leave_with (run : Z) (g : kb_kvm_regs_shadow) (e : guest_exit) (j : nat) (s : kvm_state) : kvm_state :=
  with_kfd (fun r => r <| kf_regs := g |> <| kf_pending_exit ::= exit_pending e |>) j
    (s <| kv_mem ::= write_exit run e |>).

Lemma with_kfd_ext f g j s : f (kfd_at s j) = g (kfd_at s j) -> with_kfd f j s = with_kfd g j s.
Proof.
  intros H. unfold with_kfd. assert (alter f j (fd_records s) = alter g j (fd_records s)) as E.
  { apply list_alter_ext; [|done]. intros x Hx. unfold kfd_at in H. by rewrite (nth_lookup_Some _ _ _ _ Hx) in H. }
  cbn. by rewrite E.
Qed.

Lemma with_kfd_compose f g j s : with_kfd f j (with_kfd g j s) = with_kfd (fun r => f (g r)) j s.
Proof. unfold with_kfd. cbn. by rewrite list_alter_alter_eq. Qed.

Lemma advance_advance a b g : advance a (advance b g) = advance (b + a) g.
Proof.
  unfold advance. destruct g. cbn. f_equal. unfold u64. rewrite Zplus_mod_idemp_l. f_equal. lia.
Qed.

Lemma land_0x40 v : (Z.land v 0x40 =? 0) = negb (Z.testbit v 6).
Proof. by apply (land_bit v 6). Qed.

Lemma with_regs_at f g j s :
  f (kf_regs (kfd_at s j)) = g -> with_regs f j s = with_regs (fun _ => g) j s.
Proof. intros H. unfold with_regs. apply with_kfd_ext. cbn. by rewrite H. Qed.

(** The exits of the loop. *)
Lemma leave_spec run e j n pending s :
  (pending = match e with ExitIo false _ _ => Some KB_KVM_PENDING_IO_IN
             | ExitMmio false _ _ => Some KB_KVM_PENDING_MMIO_READ | _ => None end) ->
  leave j (write_exit run e (kv_mem s)) n pending s =
  (leave_with run (advance n (kf_regs (kfd_at s j))) e j s, Some 0).
Proof.
  intros ->. unfold leave, leave_with, with_regs. f_equal.
  destruct e as [|[] p v|[] a v]; rewrite ?with_kfd_compose;
    match goal with |- _ = with_kfd _ _ ?t => change (kfd_at s j) with (kfd_at t j); apply (with_kfd_ext _ _ j t) end;
    done.
Qed.

Lemma insn_addr vcpu s j :
  kf_has_regs (kfd_at s j) = true ->
  translate_guest_instruction (Some j) vcpu s = guest_addr vcpu s (rip (kf_regs (kfd_at s j))).
Proof. intros H. unfold translate_guest_instruction. by rewrite H. Qed.

(** Splits the equation for the bytes of an instruction into one per byte. *)
Ltac bytes_of H :=
  repeat match type of H with
  | mload _ _ _ = _ :: _ =>
      let Hb := fresh "Hb" in apply mload_cons in H as [Hb H]; rewrite <- ?Z.add_assoc in H; change (1 + 1) with 2 in H
  end.

Lemma step_executes addr vcpu run j i s :
  (forall a, guest_addr vcpu s a = addr a) ->
  kf_has_regs (kfd_at s j) = true -> insn_at addr (kv_mem s) (kf_regs (kfd_at s j)) i ->
  vcpu_step vcpu run j s =
  match exec (guest_byte addr (kv_mem s)) i (kf_regs (kfd_at s j)) with
  | None => (s, Some (-22))
  | Some (g, None) => (with_regs (fun _ => g) j s, None)
  | Some (g, Some e) => (leave_with run g e j s, Some 0)
  end.
Proof.
  intros Haddr Hr (Ha & Hok & Hm). unfold vcpu_step. rewrite (insn_addr _ _ _ Hr), Haddr.
  set (g := kf_regs (kfd_at s j)) in *. set (a := addr (rip g)) in *.
  rewrite (proj2 (Z.eqb_neq a 0) Ha). rewrite Z.add_0_r.
  destruct i; cbn [encode operands_ok length] in Hok, Hm; bytes_of Hm; rewrite ?length_le_bytes in Hm;
    repeat match goal with Hb : mem_byte _ _ = _ |- _ => rewrite Hb; clear Hb end;
    cbn [Z.eqb Pos.eqb negb exec fmap option_fmap option_map].
  all: try (rewrite ?(mload16_of _ _ _ Hok Hm), ?(mload32_of _ _ _ Hok Hm), ?(mload64_of _ _ _ Hok Hm)).
  all: try (by rewrite (with_regs_at _ _ _ _ eq_refl)).
  all: try match goal with
    |- leave _ _ ?n ?p _ = (leave_with _ _ ?e _ _, _) => exact (leave_spec run e j n p s eq_refl) end.
  - change (translate_guest_physical _ ?x s) with (guest_addr vcpu s x). unfold guest_byte.
    rewrite Haddr. destruct (addr (u16 (rsi g)) =? 0); [done|]. by rewrite (with_regs_at _ _ _ _ eq_refl).
  - rewrite (with_regs_at _ _ _ _ eq_refl). by rewrite land_ff.
  - rewrite (with_regs_at _ _ _ _ eq_refl), land_0x40, negb_involutive, s8_mod, advance_advance by done. done.
  - rewrite (with_regs_at _ _ _ _ eq_refl), s8_mod, advance_advance by done. done.
Qed.

(** Every byte sequence that starts like one of the instructions is one. *)
Lemma mload_le m a n : mem_ok m -> mload m a n = le_bytes n (le_value (mload m a n)).
Proof. intros H. by rewrite le_bytes_mload. Qed.

Lemma s8_range b : is_u8 b -> -128 <= s8 b < 128 /\ s8 b mod 256 = b.
Proof.
  unfold is_u8, s8. intros H. pose proof (Z.mod_pos_bound (b + 128) 256 ltac:(lia)). split; [lia|].
  rewrite Zminus_mod_idemp_l. replace (b + 128 - 128) with b by lia. apply Z.mod_small. lia.
Qed.

Lemma mload_S m a n : mload m a (S n) = mem_byte m a :: mload m (a + 1) n.
Proof. done. Qed.

Definition decode (m : mem) (a : Z) : option insn :=
  let b k := mem_byte m (a + k) in
  if b 0 =? 0xb0 then Some (MovAl (b 1))
  else if b 0 =? 0xba then Some (MovDx (mload16 m (a + 1)))
  else if b 0 =? 0x66 then if b 1 =? 0xba then Some (MovDx66 (mload16 m (a + 2))) else None
  else if b 0 =? 0xbe then Some (MovSi (mload16 m (a + 1)))
  else if b 0 =? 0xac then Some Lodsb
  else if b 0 =? 0x84 then if b 1 =? 0xc0 then Some TestAl else None
  else if b 0 =? 0x74 then Some (Jz (s8 (b 1)))
  else if b 0 =? 0xeb then Some (Jmp (s8 (b 1)))
  else if b 0 =? 0xf4 then Some Hlt
  else if b 0 =? 0xe4 then Some (InImm (b 1))
  else if b 0 =? 0xe6 then Some (OutImm (b 1))
  else if b 0 =? 0xec then Some InDx
  else if b 0 =? 0xee then Some OutDx
  else if b 0 =? 0x67 then
    if b 1 =? 0xa0 then Some (LoadA32 (mload32 m (a + 2)))
    else if b 1 =? 0xa2 then Some (StoreA32 (mload32 m (a + 2))) else None
  else if b 0 =? 0xa0 then Some (LoadA64 (mload64 m (a + 1)))
  else if b 0 =? 0xa2 then Some (StoreA64 (mload64 m (a + 1)))
  else None.

Lemma decode_encode m a i :
  operands_ok i -> mload m a (length (encode i)) = encode i -> decode m a = Some i.
Proof.
  intros Hok Hm. unfold decode. rewrite Z.add_0_r.
  destruct i; cbn [encode operands_ok length] in Hok, Hm; bytes_of Hm; rewrite ?length_le_bytes in Hm;
    repeat match goal with Hb : mem_byte _ _ = _ |- _ => rewrite Hb; clear Hb end; cbn [Z.eqb Pos.eqb];
    rewrite ?(mload16_of _ _ _ Hok Hm), ?(mload32_of _ _ _ Hok Hm), ?(mload64_of _ _ _ Hok Hm), ?s8_mod by done; done.
Qed.

Lemma encode_decode m a i :
  mem_ok m -> decode m a = Some i -> operands_ok i /\ mload m a (length (encode i)) = encode i.
Proof.
  intros Hm. pose proof (fun o => mem_byte_ok m (a + o) Hm) as B.
  pose proof (fun o => proj1 (s8_range _ (B o))) as S1. pose proof (fun o => proj2 (s8_range _ (B o))) as S2.
  pose proof (fun o n => le_value_range m (a + o) n Hm) as R. pose proof (fun o n => mload_le m (a + o) n Hm) as L.
  unfold decode. rewrite Z.add_0_r. repeat case_match; try done; intros [= <-];
    repeat match goal with H : (_ =? _) = true |- _ => apply Z.eqb_eq in H end;
    (split;
     [ first [exact I | apply B | apply S1 | apply (R _ 2%nat) | apply (R _ 4%nat) | apply (R _ 8%nat)]
     | cbn [encode length]; rewrite ?length_le_bytes;
       repeat match goal with |- mload _ _ (S _) = _ :: _ => rewrite mload_S; f_equal end;
       rewrite <- ?Z.add_assoc; change (1 + 1) with 2; first [ done | assumption | symmetry; apply S2 | apply L ] ]).
Qed.

Lemma step_illegal addr vcpu run j s :
  (forall a, guest_addr vcpu s a = addr a) ->
  mem_ok (kv_mem s) -> kf_has_regs (kfd_at s j) = true -> addr (rip (kf_regs (kfd_at s j))) <> 0 ->
  (forall i, ~ insn_at addr (kv_mem s) (kf_regs (kfd_at s j)) i) ->
  vcpu_step vcpu run j s = (s, Some (-95)).
Proof.
  intros Haddr Hm Hr Ha Hno. unfold vcpu_step. rewrite (insn_addr _ _ _ Hr), Haddr.
  set (a := addr (rip (kf_regs (kfd_at s j)))) in *. rewrite (proj2 (Z.eqb_neq a 0) Ha).
  destruct (decode (kv_mem s) a) as [i|] eqn:Hd.
  - exfalso. apply (Hno i). split; [done|]. by apply encode_decode.
  - revert Hd. unfold decode. repeat case_match; try done;
      repeat match goal with H : negb _ = _ |- _ => apply negb_false_iff in H || apply negb_true_iff in H end; congruence.
Qed.

(** ** Runs *)

Lemma kfd_at_with f j s i :
  (j < length (fd_records s))%nat ->
  kfd_at (with_kfd f j s) i = if decide (i = j) then f (kfd_at s j) else kfd_at s i.
Proof.
  intros Hj. unfold kfd_at, with_kfd. cbn. rewrite !nth_lookup. case_decide as Hi.
  - subst i. apply lookup_lt_is_Some in Hj as [r Hr]. by rewrite list_lookup_alter_eq, Hr.
  - by rewrite list_lookup_alter_ne.
Qed.

Lemma with_kfd_records f j s : fd_records (with_kfd f j s) = alter f j (fd_records s).
Proof. done. Qed.
Lemma with_kfd_mem f j s : kv_mem (with_kfd f j s) = kv_mem s.
Proof. done. Qed.

Lemma length_with_kfd f j s : length (fd_records (with_kfd f j s)) = length (fd_records s).
Proof. apply length_alter. Qed.

(** What a record says about the guest's memory. *)
Definition memory_view (r : kb_kvm_fd_record) :=
  (kf_active r, kf_private_data r, kf_has_memory_region r, kf_memory_regions r, kf_memory_region_active r).

Lemma guest_addr_with f j vcpu s a :
  (forall r, memory_view (f r) = memory_view r) -> guest_addr vcpu (with_kfd f j s) a = guest_addr vcpu s a.
Proof.
  intros Hf. unfold guest_addr, translate_guest_physical, find_vm_record_for_vcpu, find_fd_record_by_private_data.
  rewrite with_kfd_records, with_kfd_mem, first_index_alter.
  2: { intros r. specialize (Hf r). injection Hf as E1 E2 _ _ _. by rewrite E1, E2. }
  destruct (read_ptr_field _ _ _ =? 0); [done|]. destruct (first_index _ _) as [i|]; [|done].
  unfold kfd_at. rewrite with_kfd_records, !nth_lookup. destruct (decide (i = j)) as [->|Hij].
  - rewrite list_lookup_alter_eq. destruct (fd_records s !! j) as [r|]; cbn; [|done].
    specialize (Hf r). injection Hf as _ _ E3 E4 E5. by rewrite E3, E4, E5.
  - by rewrite list_lookup_alter_ne.
Qed.

Definition stopped (run : Z) (g : kb_kvm_regs_shadow) (r : guest_result) (j : nat) (s : kvm_state) : kvm_state * Z :=
  match r with
  | GuestExit e => (leave_with run g e j s, 0)
  | GuestError code => (with_regs (fun _ => g) j s, code)
  end.

Lemma stopped_with run g g1 r j s : stopped run g r j (with_regs (fun _ => g1) j s) = stopped run g r j s.
Proof.
  unfold stopped, leave_with, with_regs. destruct r as [e|code]; f_equal; [|by rewrite with_kfd_compose].
  exact (with_kfd_compose _ (fun r => r <| kf_regs := g1 |>) j (s <| kv_mem ::= write_exit run e |>)).
Qed.

Lemma with_regs_id j s : with_regs (fun _ => kf_regs (kfd_at s j)) j s = s.
Proof.
  unfold with_regs. rewrite (with_kfd_ext _ (fun r => r)) by (by destruct (kfd_at s j)).
  unfold with_kfd. cbn. rewrite list_alter_id by done. by destruct s.
Qed.

Lemma loop_refines addr vcpu run j n s g' r :
  (forall a, guest_addr vcpu s a = addr a) -> mem_ok (kv_mem s) ->
  (j < length (fd_records s))%nat -> kf_has_regs (kfd_at s j) = true ->
  guest_run addr (kv_mem s) n (kf_regs (kfd_at s j)) g' r -> vcpu_loop n vcpu run j s = stopped run g' r j s.
Proof.
  intros Haddr Hm Hj Hr H. remember (kf_regs (kfd_at s j)) as g eqn:Hg. revert s Haddr Hm Hj Hr Hg H.
  intros s Haddr Hm Hj Hr Hg H. remember (kv_mem s) as m eqn:Em. revert s Haddr Hm Hj Hr Hg Em.
  induction H as [g|n g Ha|n g Ha Hno|n g i Hi He|n g i g' e Hi He|n g i g1 g' r Hi He H IH];
    intros s Haddr Hm Hj Hr -> ->; cbn [vcpu_loop stopped].
  - by rewrite with_regs_id.
  - unfold vcpu_step. rewrite (insn_addr _ _ _ Hr), Haddr, Ha. by rewrite with_regs_id.
  - rewrite (step_illegal addr) by done. by rewrite with_regs_id.
  - rewrite (step_executes addr _ _ _ i) by done. rewrite He. by rewrite with_regs_id.
  - rewrite (step_executes addr _ _ _ i) by done. by rewrite He.
  - rewrite (step_executes addr _ _ _ i) by done. rewrite He.
    rewrite (IH (with_regs (fun _ => g1) j s)); [apply stopped_with|..]; try done.
    + intros a. rewrite <- Haddr. by apply guest_addr_with.
    + unfold with_regs. by rewrite length_with_kfd.
    + unfold with_regs. by rewrite kfd_at_with, decide_True.
    + unfold with_regs. by rewrite kfd_at_with, decide_True.
Qed.

Lemma guest_run_total addr m n g : mem_ok m -> exists g' r, guest_run addr m n g g' r.
Proof.
  intros Hm. revert g. induction n as [|n IH]; intros g; [eexists _, _; constructor|].
  destruct (Z.eqb_spec (addr (rip g)) 0) as [Ha|Ha]; [eexists _, _; by apply run_unmapped|].
  destruct (decode m (addr (rip g))) as [i|] eqn:Hd.
  - assert (insn_at addr m g i) as Hi by (split; [done|]; by apply encode_decode).
    destruct (exec (guest_byte addr m) i g) as [[g1 [e|]]|] eqn:He.
    + eexists _, _. by eapply run_exit.
    + destruct (IH g1) as (g' & r & H). eexists _, _. by eapply run_next.
    + eexists _, _. by eapply run_fault.
  - eexists _, _. apply run_illegal; [done|]. intros i (_ & H1 & H2). by rewrite (decode_encode m _ i) in Hd.
Qed.

(** ** Reading exits back *)

(** What a caller of KVM_RUN makes of the page. *)
Definition exit_of (v : kb_kvm_run_snapshot) : option guest_exit :=
  if rs_exit_reason v =? KB_KVM_EXIT_HLT then Some ExitHlt
  else if rs_exit_reason v =? KB_KVM_EXIT_IO then
    if (rs_io_size v =? 1) && (rs_io_count v =? 1)
    then Some (ExitIo (rs_io_direction v =? 1) (rs_io_port v) (hd 0 (rs_io_data v))) else None
  else if rs_exit_reason v =? KB_KVM_EXIT_MMIO then
    if rs_mmio_len v =? 1 then Some (ExitMmio (rs_mmio_is_write v =? 1) (rs_mmio_phys_addr v) (hd 0 (rs_mmio_data v)))
    else None
  else None.

Definition exit_ok (e : guest_exit) : Prop :=
  match e with
  | ExitHlt => True
  | ExitIo _ port v => is_u16 port /\ is_u8 v
  | ExitMmio _ a v => is_u64 a /\ is_u8 v
  end.

Lemma exec_exit_ok byte i g g' e : operands_ok i -> exec byte i g = Some (g', Some e) -> exit_ok e.
Proof.
  pose proof (u8_range (rax g)). pose proof (u16_range (rdx g)).
  destruct i; cbn; intros Hok H1; simplify_eq/=; try done; unfold is_u8, is_u16, is_u32, is_u64 in *; try lia.
  destruct (byte _); simplify_eq/=.
Qed.

Lemma guest_run_exit_ok addr m n g g' e : guest_run addr m n g g' (GuestExit e) -> exit_ok e.
Proof.
  intros H. remember (GuestExit e) as r eqn:Hr. induction H as [| | | |n g i g' e' (_ & Hok & _) He|]; try done; eauto.
  injection Hr as <-. by eapply exec_exit_ok.
Qed.

Lemma mload_mstore_eq m a q n : length q = n -> mload (mstore m a q) a n = q.
Proof. intros <-. apply mload_mstore_same. Qed.

Lemma mem_byte_le m a : mem_byte m a = le_value (mload m a 1).
Proof. cbn. lia. Qed.

Lemma le_value_byte v : le_value [v] = v.
Proof. cbn. lia. Qed.

Lemma hd_mload m a : hd 0 (mload m a 8) = mem_byte m a.
Proof. done. Qed.

Lemma b2z_eqb w : (Z.b2z w =? 1) = w.
Proof. by destruct w. Qed.

Ltac page_offsets :=
  unfold KB_KVM_RUN_EXIT_REASON_OFFSET, KB_KVM_RUN_IO_DIRECTION_OFFSET, KB_KVM_RUN_IO_SIZE_OFFSET,
    KB_KVM_RUN_IO_PORT_OFFSET, KB_KVM_RUN_IO_COUNT_OFFSET, KB_KVM_RUN_IO_DATA_OFFSET_OFFSET,
    KB_KVM_RUN_EXIT_IO_DATA_OFFSET, KB_KVM_RUN_MMIO_PHYS_ADDR_OFFSET, KB_KVM_RUN_MMIO_DATA_OFFSET,
    KB_KVM_RUN_MMIO_LEN_OFFSET, KB_KVM_RUN_MMIO_IS_WRITE_OFFSET, KB_KVM_RUN_STORAGE_BYTES in *.

(** Loads from a page with known stores. *)
Ltac page_load :=
  repeat first [rewrite mload_mstore_eq by (rewrite ?length_le_bytes; done)
               | rewrite mload_mstore_other by (rewrite ?length_le_bytes; cbn [length]; lia)].

Lemma exit_read_back run e m :
  0 < run -> run + KB_KVM_RUN_STORAGE_BYTES <= 2 ^ 64 -> exit_ok e -> exit_of (read_run (write_exit run e m) run) = Some e.
Proof.
  intros H0 H1 He. unfold KB_KVM_RUN_STORAGE_BYTES in H1. change (2 ^ 64) with 18446744073709551616 in H1.
  unfold exit_of, read_run, write_exit, write_kvm_io_exit, write_kvm_mmio_exit, read_u32_field, read_u8_field,
    read_u16_field, read_u64_field, write_u32_field, write_u8_field, write_u16_field, write_u64_field.
  cbn [rs_exit_reason rs_io_size rs_io_count rs_io_direction rs_io_port rs_io_data rs_mmio_len rs_mmio_is_write
       rs_mmio_phys_addr rs_mmio_data].
  rewrite (proj2 (Z.eqb_neq run 0)) by lia.
  page_offsets.
  unfold mload32, mload16, mload64, mstore32, mstore16, mstore64. rewrite !mem_byte_le.
  destruct e as [|w port v|w a v]; cbn [exit_ok] in He; page_load; rewrite !le_value_bytes; [done|..].
  - change (KB_KVM_EXIT_IO mod _) with 2. change (256 mod _) with 256. rewrite !le_value_byte.
    change (u64 (256 + 8) <=? 16384) with true. rewrite (u64_small (run + 256)) by (unfold is_u64; lia).
    cbn [Z.eqb Pos.eqb KB_KVM_EXIT_HLT KB_KVM_EXIT_IO andb]. rewrite hd_mload, mem_byte_le. page_load.
    change (1 mod _) with 1. rewrite le_value_byte, b2z_eqb, Z.mod_small by (apply He). done.
  - change (KB_KVM_EXIT_MMIO mod _) with 6. cbn [Z.eqb Pos.eqb KB_KVM_EXIT_HLT KB_KVM_EXIT_IO KB_KVM_EXIT_MMIO].
    rewrite hd_mload, mem_byte_le. page_load. rewrite !le_value_bytes. change (1 mod _) with 1. rewrite !le_value_byte, b2z_eqb, Z.mod_small by (apply He). done.
Qed.

(** ** The theorems *)

Lemma mem_ok_mclear m a n : mem_ok m -> mem_ok (mclear m a n).
Proof. intros H k b Hb. apply map_lookup_filter_Some in Hb as [Hb _]. by apply (H k). Qed.

(** C10: A run of the emulator is a run of the reference machine: from any state in
    which the virtual CPU has registers and no read is outstanding, there is a run of
    at most 1024 instructions of the reference semantics (over the guest's memory as
    the slots map it, after the exit area of the page is cleared) that stops, and the
    emulator ends with exactly its registers and result: an exit, which a reader of
    the page decodes to the same exit, or the error -22 for unmapped memory and -95
    for an illegal instruction or no stop within 1024 instructions.  Nothing but the
    page and the CPU's record changes. *)
Theorem guest_run_refines vcpu j s :
  let run := mload64 (kv_mem s) (vcpu + KB_KVM_VCPU_RUN_OFFSET) in
  let s1 := s <| kv_mem ::= clear_kvm_run_exit_area run |> in
  mem_ok (kv_mem s) -> (j < length (fd_records s))%nat -> vcpu <> 0 -> 0 < run ->
  run + KB_KVM_RUN_STORAGE_BYTES <= 2 ^ 64 ->
  kf_has_regs (kfd_at s j) = true -> kf_pending_exit (kfd_at s j) = KB_KVM_PENDING_NONE ->
  exists g r, guest_run (guest_addr vcpu s1) (kv_mem s1) 1024 (kf_regs (kfd_at s j)) g r /\
    kb_kvm_vcpu_run_exit vcpu (Some j) s = stopped run g r j s1 /\
    forall e, r = GuestExit e -> exit_of (read_run (write_exit run e (kv_mem s1)) run) = Some e.
Proof.
  intros run s1 Hm Hj Hv Hrun Hend Hr Hp.
  assert (mem_ok (kv_mem s1)) as Hm1.
  { change (mem_ok (clear_kvm_run_exit_area run (kv_mem s))). unfold clear_kvm_run_exit_area.
    destruct (run =? 0); [exact Hm|]. by apply mem_ok_mclear. }
  destruct (guest_run_total (guest_addr vcpu s1) (kv_mem s1) 1024 (kf_regs (kfd_at s j)) Hm1) as (g & r & H).
  exists g, r. split_and!; [done| |intros e ->; apply exit_read_back; [done..|by eapply guest_run_exit_ok]].
  unfold kb_kvm_vcpu_run_exit, read_ptr_field. rewrite (proj2 (Z.eqb_neq vcpu 0) Hv). fold run.
  rewrite (proj2 (Z.eqb_neq run 0)) by lia. unfold complete_pending_read_exit. rewrite Hp, orb_true_r.
  cbn [negb Z.eqb]. by apply (loop_refines (guest_addr vcpu s1)).
Qed.

(** Where the answer to a read goes, relative to the page. *)
Definition reply_offset (e : guest_exit) : option Z :=
  match e with
  | ExitIo false _ _ => Some KB_KVM_RUN_EXIT_IO_DATA_OFFSET
  | ExitMmio false _ _ => Some KB_KVM_RUN_MMIO_DATA_OFFSET
  | _ => None
  end.

Lemma mload64_write_exit run e m a o v :
  reply_offset e = Some o -> 0 < run -> a + 8 <= run + 8 \/ run + KB_KVM_RUN_STORAGE_BYTES <= a ->
  mload64 (mstore (write_exit run e m) (run + o) [v]) a = mload64 m a.
Proof.
  intros Ho H0 Ha. unfold KB_KVM_RUN_STORAGE_BYTES in Ha.
  destruct e as [|[] p w|[] b w]; cbn in Ho; simplify_eq;
    unfold write_exit, write_kvm_io_exit, write_kvm_mmio_exit, write_u32_field, write_u8_field, write_u16_field, write_u64_field;
    rewrite (proj2 (Z.eqb_neq run 0)) by lia; unfold mload64, mstore32, mstore16, mstore64; page_offsets;
    repeat (rewrite mload_mstore_other by (rewrite ?length_le_bytes; cbn; lia)); done.
Qed.

(** What complete_pending_read_exit finds in the page after a reply. *)
Lemma reply_value run e m o v :
  reply_offset e = Some o -> 0 < run ->
  let m' := mstore (write_exit run e m) (run + o) [v] in
  mem_byte m' (run + o) = v /\ (exit_pending e 0 = KB_KVM_PENDING_IO_IN -> mload64 m' (run + KB_KVM_RUN_IO_DATA_OFFSET_OFFSET) = o).
Proof.
  intros Ho H0 m'. split.
  { unfold m'. rewrite mem_byte_le, mload_mstore_eq by done. apply le_value_byte. }
  destruct e as [|[] p w|[] b w]; cbn in Ho; simplify_eq; [|done]. intros _. unfold m'.
  unfold write_exit, write_kvm_io_exit, write_u64_field, write_u8_field.
  rewrite (proj2 (Z.eqb_neq run 0)) by lia. unfold mload64, mstore64. page_offsets.
  rewrite !mload_mstore_other by (cbn; lia). by rewrite mload_mstore_eq, le_value_bytes.
Qed.

Lemma complete_reply run e o v g j s :
  reply_offset e = Some o -> 0 < run -> (j < length (fd_records s))%nat ->
  let s2 := leave_with run g e j s <| kv_mem ::= fun m => mstore m (run + o) [v] |> in
  complete_pending_read_exit (Some j) run s2 =
  (with_kfd (fun r => r <| kf_regs := set_al v g |> <| kf_pending_exit := KB_KVM_PENDING_NONE |>) j s2, 0).
Proof.
  intros Ho H0 Hj s2. destruct (reply_value run e (kv_mem s) o v Ho H0) as [Hv Hoff].
  assert (kfd_at s2 j = (kfd_at s j) <| kf_regs := g |> <| kf_pending_exit ::= exit_pending e |>) as Hr.
  { change (kfd_at s2 j) with (kfd_at (leave_with run g e j s) j). unfold leave_with.
    rewrite (kfd_at_with _ j (s <| kv_mem ::= write_exit run e |>)) by done. by rewrite decide_True. }
  assert (forall value, value = v ->
    with_kfd (fun r => r <| kf_regs ::= fun g => g <| rax ::= fun w => set_low 0xff w value |> |>
                         <| kf_pending_exit := KB_KVM_PENDING_NONE |>) j s2 =
    with_kfd (fun r => r <| kf_regs := set_al v g |> <| kf_pending_exit := KB_KVM_PENDING_NONE |>) j s2) as Hfin.
  { intros value ->. apply with_kfd_ext. rewrite Hr. done. }
  unfold complete_pending_read_exit, read_u64_field, read_u8_field. rewrite (proj2 (Z.eqb_neq run 0)) by lia.
  change (kv_mem s2) with (mstore (write_exit run e (kv_mem s)) (run + o) [v]).
  replace (kf_pending_exit (kfd_at s2 j)) with (exit_pending e 0) by (rewrite Hr; by destruct e as [|[]|[]]).
  destruct e as [|[] p w|[] b w]; cbn in Ho; simplify_eq; cbn [exit_pending orb].
  - rewrite Hoff by done. f_equal. by apply Hfin.
  - f_equal. by apply Hfin.
Qed.

(** A read the guest asked for is completed by the next run: after the emulator
    stopped for an IN or a load from device memory, and the caller has put the byte
    [v] where the page says, running on is the same as running with [v] in AL and
    nothing outstanding.  (The object of the CPU must not lie in its page.) *)
Theorem guest_read_completes vcpu j s g e o v :
  let run := mload64 (kv_mem s) (vcpu + KB_KVM_VCPU_RUN_OFFSET) in
  let s2 := leave_with run g e j s <| kv_mem ::= fun m => mstore m (run + o) [v] |> in
  reply_offset e = Some o -> (j < length (fd_records s))%nat -> 0 < run -> vcpu <> 0 ->
  vcpu + KB_KVM_VCPU_RUN_OFFSET <= run \/ run + KB_KVM_RUN_STORAGE_BYTES <= vcpu + KB_KVM_VCPU_RUN_OFFSET ->
  kb_kvm_vcpu_run_exit vcpu (Some j) s2 =
  kb_kvm_vcpu_run_exit vcpu (Some j)
    (with_kfd (fun r => r <| kf_regs := set_al v g |> <| kf_pending_exit := KB_KVM_PENDING_NONE |>) j s2).
Proof.
  intros run s2 Ho Hj H0 Hv Ha. unfold kb_kvm_vcpu_run_exit, read_ptr_field. rewrite with_kfd_mem.
  rewrite (proj2 (Z.eqb_neq vcpu 0) Hv).
  replace (mload64 (kv_mem s2) (vcpu + KB_KVM_VCPU_RUN_OFFSET)) with run.
  2: { symmetry. apply (mload64_write_exit run e (kv_mem s) _ o v); [done|done|]. lia. }
  rewrite (proj2 (Z.eqb_neq run 0)) by lia. unfold s2 at 1. rewrite complete_reply by done. fold s2.
  set (s3 := with_kfd _ j s2). unfold complete_pending_read_exit at 1.
  assert (kf_pending_exit (kfd_at s3 j) = KB_KVM_PENDING_NONE) as ->.
  { unfold s3. rewrite kfd_at_with, decide_True; [done..|]. unfold s2, leave_with.
    exact (eq_ind_r (fun n => (j < n)%nat) Hj (length_alter _ _ _)). }
  by rewrite orb_true_r.
Qed.

(** ** Guest memory *)

Definition covers_guest (region : kb_kvm_userspace_memory_region) (a : Z) : Prop :=
  rg_guest_phys_addr region + rg_memory_size region < 2 ^ 64 /\
  rg_guest_phys_addr region <= a < rg_guest_phys_addr region + rg_memory_size region.

Definition region_ok (region : kb_kvm_userspace_memory_region) : Prop :=
  is_u64 (rg_guest_phys_addr region) /\ is_u64 (rg_memory_size region) /\ is_u64 (rg_userspace_addr region).

Lemma slot_covers region a :
  region_ok region -> is_u64 a ->
  let start := rg_guest_phys_addr region in
  let end_ := u64 (start + rg_memory_size region) in
  ((end_ <? start) || (a <? start) || (end_ <=? a) = false <-> covers_guest region a).
Proof.
  intros (H1 & H2 & _) Ha start end_. unfold is_u64, covers_guest in *.
  change (2 ^ 64) with 18446744073709551616 in *. unfold end_, u64.
  rewrite !orb_false_iff, !Z.ltb_ge, Z.leb_gt. fold start in H1 |- *.
  destruct (decide (start + rg_memory_size region < 18446744073709551616)) as [Hs|Hs].
  - rewrite Z.mod_small by lia. lia.
  - rewrite <- (Z.mod_unique (start + rg_memory_size region) 18446744073709551616 1
      (start + rg_memory_size region - 18446744073709551616)); lia.
Qed.

(** [pick slots a t]: [t] is the host address that backs [a], by the lowest slot that
    covers it, or 0 when none does. *)
Definition backed_by (slot : nat -> option kb_kvm_userspace_memory_region) (n : nat) (a t : Z) : Prop :=
  (exists k region, (k < n)%nat /\ slot k = Some region /\ covers_guest region a /\
     (forall k' region', (k' < k)%nat -> slot k' = Some region' -> ~ covers_guest region' a) /\
     t = u64 (rg_userspace_addr region + (a - rg_guest_phys_addr region))) \/
  ((forall k region, (k < n)%nat -> slot k = Some region -> ~ covers_guest region a) /\ t = 0).

(** The two arrays as one table. *)
Definition slot_table (regions : list kb_kvm_userspace_memory_region) (active : list bool) (k : nat)
    : option kb_kvm_userspace_memory_region :=
  match active !! k with Some true => regions !! k | _ => None end.

Lemma translate_slots_backed regions active a :
  Forall region_ok regions -> length active = length regions -> is_u64 a ->
  backed_by (slot_table regions active) (length regions) a (translate_slots regions active a).
Proof.
  intros Hok Hlen Ha. revert active Hlen. induction Hok as [|region regions Hr Hok IH]; intros [|b active] Hlen;
    try done; [right; split; [by intros k r Hk%Nat.nlt_0_r|done]|].
  specialize (IH active ltac:(cbn in Hlen; lia)). cbn [translate_slots length].
  assert (forall t, (b = true -> ~ covers_guest region a) -> backed_by (slot_table regions active) (length regions) a t ->
    backed_by (slot_table (region :: regions) (b :: active)) (S (length regions)) a t) as Hskip.
  { intros t Hb [(k & r & Hk & Hs & Hc & Hlow & ->)|[Hno ->]].
    - left. exists (S k), r. split_and!; [lia|done|done| |done].
      intros [|k'] r' Hk' Hs'; [|by apply (Hlow k'); [lia|]].
      unfold slot_table in Hs'. cbn in Hs'. destruct b; simplify_eq. by apply Hb.
    - right. split; [|done]. intros [|k] r Hk Hs; [|by apply (Hno k); [lia|]].
      unfold slot_table in Hs. cbn in Hs. destruct b; simplify_eq. by apply Hb. }
  destruct b; cbn [negb]; [|by apply Hskip].
  pose proof (slot_covers region a Hr Ha) as Hc. cbn in Hc. destruct (_ || _ || _) eqn:E.
  - apply Hskip; [|done]. intros _ Hcov. by apply Hc in Hcov.
  - left. exists 0%nat, region. split_and!; [lia|done|by apply Hc|intros; lia|done].
Qed.

(** What the calls so far left in slot [k]. *)
Definition slot_now (rs : list kb_kvm_userspace_memory_region) (k : nat) : option kb_kvm_userspace_memory_region :=
  foldl (fun o r => if rg_slot r =? Z.of_nat k then if rg_memory_size r =? 0 then None else Some r else o) None rs.

(** A record of a VM no memory was given to yet. *)
Definition no_memory (r : kb_kvm_fd_record) : Prop :=
  kf_has_memory_region r = false /\ kf_memory_regions r = replicate 16 zero_region /\
  kf_memory_region_active r = replicate 16 false.

Lemma noted_regions r0 rs :
  no_memory r0 -> Forall (fun r => region_ok r /\ 0 <= rg_slot r) rs ->
  let r := foldl (fun r region => note_region region r) r0 rs in
  length (kf_memory_regions r) = 16%nat /\ length (kf_memory_region_active r) = 16%nat /\
  Forall region_ok (kf_memory_regions r) /\
  (forall k, (k < 16)%nat -> slot_table (kf_memory_regions r) (kf_memory_region_active r) k = slot_now rs k) /\
  kf_has_memory_region r = match last rs with Some region => negb (rg_memory_size region =? 0) | None => false end.
Proof.
  intros (N1 & N2 & N3). induction rs as [|region rs IH] using rev_ind; intros Hok.
  - cbn [foldl last]. rewrite N1, N2, N3. split_and!; try done; [by repeat constructor|].
    intros k Hk. by do 16 (destruct k as [|k]; [done|]).
  - apply Forall_app in Hok as [Hok Hreg]. apply Forall_cons in Hreg as [[Hreg Hslot] _].
    specialize (IH Hok). cbn zeta in IH |- *. rewrite foldl_app, last_snoc. cbn [foldl].
    set (r := foldl _ r0 rs) in *. destruct IH as (H1 & H2 & H3 & H4 & _).
    unfold note_region. unfold KB_KVM_MEMORY_SLOT_MAX. destruct (Z.ltb_spec (rg_slot region) 16) as [Hlt|Hge].
    + cbn [kf_memory_regions kf_memory_region_active kf_has_memory_region]. cbn.
      rewrite !length_insert. split_and!; [done|done|by apply Forall_insert| |done].
      intros k Hk. unfold slot_now. rewrite foldl_app. cbn [foldl]. fold (slot_now rs k). rewrite <- (H4 k Hk).
      unfold slot_table. destruct (Z.eqb_spec (rg_slot region) (Z.of_nat k)) as [E|E].
      * rewrite E, Nat2Z.id, !list_lookup_insert_eq by lia. by destruct (rg_memory_size region =? 0).
      * rewrite !list_lookup_insert_ne by lia. done.
    + cbn. split_and!; [done|done|done| |done].
      intros k Hk. unfold slot_now. rewrite foldl_app. cbn [foldl]. fold (slot_now rs k). rewrite <- (H4 k Hk).
      by rewrite (proj2 (Z.eqb_neq _ _)) by lia.
Qed.

Lemma load_region_ok m a : mem_ok m -> region_ok (load_region m a) /\ 0 <= rg_slot (load_region m a).
Proof.
  intros Hm. split; [split_and!; by apply mload64_range|]. apply (le_value_range m a 4 Hm).
Qed.

Section memory_calls.
Context (hk : host_kvm) (original : Z -> Z -> Z -> Z -> kvm_state -> kvm_state * Z) (file : Z).
(** The module's own ioctl accepts the call and leaves kobox alone. *)
Context (accepts : forall fn cmd arg s, original fn file cmd arg s = (s, 0)).

Definition set_memory (s : kvm_state) (arg : Z) : kvm_state :=
  (kb_linux_kvm_vm_ioctl_bridge hk original file KB_KVM_SET_USER_MEMORY_REGION_IOCTL arg s).1.

(** The record of a VM without a mirror on the host. *)
Definition vm_record (i : nat) (s : kvm_state) : Prop :=
  find_fd_record_by_file file s = Some i /\ (i < length (fd_records s))%nat /\
  kf_private_data (kfd_at s i) <> 0 /\ kf_host_fd (kfd_at s i) < 0.

Lemma set_memory_notes i arg s :
  vm_record i s -> kf_original_unlocked_ioctl (kfd_at s i) <> 0 -> arg <> 0 ->
  set_memory s arg = with_kfd (note_region (load_region (kv_mem s) arg)) i s.
Proof using accepts.
  intros (Hf & Hi & Hp & Hh) Ho Harg. unfold set_memory, kb_linux_kvm_vm_ioctl_bridge. rewrite Hf.
  rewrite (proj2 (Z.eqb_neq _ _) Hp). cbn [Z.eqb Pos.eqb KB_KVM_SET_USER_MEMORY_REGION_IOCTL
    KB_KVM_CREATE_IRQCHIP_IOCTL KB_KVM_IRQ_LINE_IOCTL orb]. rewrite andb_false_r.
  unfold call_original_ioctl. rewrite (proj2 (Z.eqb_neq _ _) Ho), accepts.
  rewrite (proj2 (Z.eqb_neq _ _) Harg). cbn [negb andb Z.leb Z.compare].
  rewrite kfd_at_with, decide_True by done.
  replace (0 <=? _) with false; [done|]. symmetry. apply Z.leb_gt.
  by replace (kf_host_fd _) with (kf_host_fd (kfd_at s i)) by (unfold note_region; by destruct (_ <? _)).
Qed.

Lemma note_region_keeps region r :
  kf_active (note_region region r) = kf_active r /\ kf_file (note_region region r) = kf_file r /\
  kf_private_data (note_region region r) = kf_private_data r /\ kf_host_fd (note_region region r) = kf_host_fd r /\
  kf_original_unlocked_ioctl (note_region region r) = kf_original_unlocked_ioctl r.
Proof. unfold note_region. by destruct (_ <? _). Qed.

Lemma set_memories_note i args s :
  vm_record i s -> kf_original_unlocked_ioctl (kfd_at s i) <> 0 -> Forall (fun a => a <> 0) args ->
  foldl set_memory s args =
  with_kfd (fun r => foldl (fun r region => note_region region r) r (load_region (kv_mem s) <$> args)) i s.
Proof using accepts.
  intros Hv Ho Hargs. revert s Hv Ho. induction Hargs as [|arg args Ha Hargs IH]; intros s Hv Ho; cbn [foldl].
  - unfold with_kfd. cbn. rewrite list_alter_id by done. by destruct s.
  - rewrite (set_memory_notes i) by done. destruct Hv as (Hf & Hi & Hp & Hh).
    destruct (note_region_keeps (load_region (kv_mem s) arg) (kfd_at s i)) as (K1 & K2 & K3 & K4 & K5).
    rewrite IH; [by rewrite with_kfd_compose| |].
    + split_and!.
      * rewrite <- Hf. unfold find_fd_record_by_file. apply first_index_alter. intros r.
        destruct (note_region_keeps (load_region (kv_mem s) arg) r) as (-> & -> & _). done.
      * by rewrite length_with_kfd.
      * by rewrite kfd_at_with, decide_True, K3.
      * by rewrite kfd_at_with, decide_True, K4.
    + by rewrite kfd_at_with, decide_True, K5.
Qed.

(** Guest memory is what the slots say: after any sequence of memory-region calls
    through the ioctl bridge, the last of which sets a slot, a guest address is backed
    by the lowest-numbered slot that now covers it (the last region given for the
    slot, none if that had size 0), at the same offset in the caller's memory, and by
    nothing when no slot covers it.  Slots of 16 and above are never used. *)
Theorem guest_memory_follows_slots s i args arg a :
  mem_ok (kv_mem s) -> vm_record i s -> kf_original_unlocked_ioctl (kfd_at s i) <> 0 -> no_memory (kfd_at s i) ->
  Forall (fun x => x <> 0) (args ++ [arg]) -> rg_memory_size (load_region (kv_mem s) arg) <> 0 -> is_u64 a ->
  backed_by (slot_now (load_region (kv_mem s) <$> args ++ [arg])) 16 a
    (translate_guest_physical (Some i) a (foldl set_memory s (args ++ [arg]))).
Proof using accepts.
  intros Hm Hv Ho Hn Hargs Hsize Ha. rewrite (set_memories_note i) by done.
  set (rs := load_region (kv_mem s) <$> args ++ [arg]).
  assert (Forall (fun r => region_ok r /\ 0 <= rg_slot r) rs) as Hok.
  { apply Forall_fmap, Forall_true. intros x. by apply load_region_ok. }
  destruct (noted_regions (kfd_at s i) rs Hn Hok) as (H1 & H2 & H3 & H4 & H5).
  assert (last rs = Some (load_region (kv_mem s) arg)) as Hlast by (unfold rs; rewrite fmap_app; apply last_snoc).
  rewrite Hlast, (proj2 (Z.eqb_neq _ _) Hsize) in H5.
  unfold translate_guest_physical. rewrite kfd_at_with, decide_True by (done || apply Hv).
  set (r := foldl _ (kfd_at s i) rs) in *.
  rewrite H5. cbn [negb].
  pose proof (translate_slots_backed _ (kf_memory_region_active r) a H3 ltac:(lia) Ha) as H. rewrite H1 in H.
  destruct H as [(k & g & Hk & Hs & Hc & Hlow & Ht)|[Hno Ht]].
  - left. exists k, g. rewrite <- H4 by done. split_and!; try done.
    intros k' g' Hk' Hs'. apply (Hlow k'); [done|]. by rewrite H4 by lia.
  - right. split; [|done]. intros k g Hk Hs. apply (Hno k); [done|]. by rewrite H4.
Qed.
End memory_calls.

(** Removing a slot makes the other slots unreachable too: has_memory_region only
    remembers whether the last call gave a size. *)
Definition region_a : kb_kvm_userspace_memory_region := mk_region 0 0 0 0x1000 0x10000.
Definition region_b : kb_kvm_userspace_memory_region := mk_region 1 0 0x2000 0x1000 0x20000.
Lemma removed_slot_hides_others :
  let r := foldl (fun r g => note_region g r) zero_kvm_fd [region_a; region_b; mk_region 1 0 0x2000 0 0] in
  let s := kvm_state_init ∅ <| fd_records := [r] |> in
  slot_now [region_a; region_b; mk_region 1 0 0x2000 0 0] 0 = Some region_a /\
  translate_guest_physical (Some 0%nat) 0x10 s = 0.
Proof. done. Qed.

(** ** Descriptors *)

Definition visible (r : kb_kvm_fd_record) :=
  (kf_active r, kf_installed r, kf_fd r, kf_name r, kf_file r, kf_private_data r, kf_fops r, kf_unlocked_ioctl r).

(** Calls to the host only touch the host fields of the record. *)
Definition host_only (i : nat) (s s' : kvm_state) : Prop :=
  kb_kvm_next_fd s' = kb_kvm_next_fd s /\
  exists h, (forall r, visible (h r) = visible r) /\ fd_records s' = alter h i (fd_records s).

Lemma host_only_same i s s' :
  kb_kvm_next_fd s' = kb_kvm_next_fd s -> fd_records s' = fd_records s -> host_only i s s'.
Proof. intros H1 H2. split; [done|]. exists (fun r => r). by rewrite list_alter_id, H2. Qed.

Lemma host_only_trans i s1 s2 s3 : host_only i s1 s2 -> host_only i s2 s3 -> host_only i s1 s3.
Proof.
  intros (H1 & h & H2 & H3) (G1 & k & G2 & G3). split; [congruence|]. exists (k ∘ h).
  split; [intros r; cbn; by rewrite G2, H2|]. by rewrite G3, H3, list_alter_alter_eq.
Qed.

Lemma host_only_with i h s : (forall r, visible (h r) = visible r) -> host_only i s (with_kfd h i s).
Proof. intros H. split; [done|]. by exists h. Qed.

Section descriptors.
Context (hk : host_kvm) (vm_bridge vcpu_bridge : Z).

Lemma host_ioctl_only i fd cmd arg s : host_only i s (host_kvm_ioctl hk fd cmd arg s).1.1.
Proof. unfold host_kvm_ioctl. destruct (hk_ioctl _ _ _ _ _ _) as [m [r e]]. by apply host_only_same. Qed.

Lemma ensure_open_only i s : host_only i s (ensure_host_kvm_open hk s).1.
Proof.
  unfold ensure_host_kvm_open. destruct (0 <=? _); [by apply host_only_same|].
  destruct (hk_open _ _) as [fd e]. destruct (fd <? 0); [by apply host_only_same|].
  pose proof (host_ioctl_only i fd KB_KVM_GET_VCPU_MMAP_SIZE_IOCTL 0 (log_host (HostOpen fd) s)) as H.
  destruct (host_kvm_ioctl _ _ _ _ _) as [[s1 r] e1]. cbn in H.
  destruct (r <=? 0); (eapply host_only_trans; [apply host_only_same; done|]; eapply host_only_trans; [exact H|];
    by apply host_only_same).
Qed.

Lemma init_vm_only i s : host_only i s (init_host_vm_record hk i s).1.
Proof.
  unfold init_host_vm_record. destruct (negb _); [by apply host_only_same|].
  pose proof (ensure_open_only i s) as H1. destruct (ensure_host_kvm_open hk s) as [s1 r1].
  destruct (negb _); [done|].
  pose proof (host_ioctl_only i (kb_kvm_host_fd s1) KB_KVM_CREATE_VM_IOCTL 0 s1) as H2.
  destruct (host_kvm_ioctl _ _ _ _ s1) as [[s2 fd] e]. destruct (fd <? 0); [by eapply host_only_trans|].
  set (s3 := with_kfd _ i s2).
  pose proof (host_ioctl_only i (kf_host_fd (kfd_at s3 i)) KB_KVM_SET_TSS_ADDR_IOCTL 0xfffbd000 s3) as H3.
  destruct (host_kvm_ioctl _ _ _ _ s3) as [[s4 ?] ?].
  eapply host_only_trans; [exact H1|]. eapply host_only_trans; [exact H2|]. eapply host_only_trans; [|exact H3].
  by apply host_only_with.
Qed.

Lemma init_vcpu_only i name pd s : host_only i s (init_host_vcpu_record hk i name pd s).1.
Proof.
  unfold init_host_vcpu_record. destruct (_ || _); [by apply host_only_same|].
  destruct (find_vm_record_for_vcpu pd s) as [v|]; [|by apply host_only_same].
  destruct (_ <? 0); [by apply host_only_same|].
  pose proof (host_ioctl_only i (kf_host_fd (kfd_at s v)) KB_KVM_CREATE_VCPU_IOCTL (u64 (vcpu_id_from_name name)) s) as H.
  destruct (host_kvm_ioctl _ _ _ _ s) as [[s1 fd] e]. destruct (fd <? 0); [done|].
  destruct (hk_mmap _ _ _ _) as [[a|] e2]; (eapply host_only_trans; [exact H|]);
    (split; [done|]; eexists; split; [|reflexivity]; done).
Qed.

(** What anon_inode_getfile records for a file. *)
Definition bridge_for (name : option (list Z)) (fops : Z) (m : mem) : Z :=
  if is_vcpu_name name then vcpu_bridge
  else if bool_decide (name = Some (cstr "kvm-vm")) then vm_bridge
  else read_ptr_field m fops KB_KVM_FOPS_UNLOCKED_IOCTL_OFFSET.

Definition free_slot (s : kvm_state) : option nat := first_index (fun r => negb (kf_active r)) (fd_records s).

Definition same_but_free (s s' : kvm_state) : Prop :=
  kb_kvm_next_fd s' = kb_kvm_next_fd s /\
  (fd_records s' = fd_records s \/ exists i, free_slot s = Some i /\ fd_records s' = <[i := zero_kvm_fd]> (fd_records s)).

Lemma free_slot_lookup s i : free_slot s = Some i -> exists r, fd_records s !! i = Some r /\ kf_active r = false.
Proof. intros (r & Hr & Ha & _)%first_index_Some. exists r. by apply negb_true_iff in Ha. Qed.

Lemma alter_known {A} (f : A -> A) i x (l : list A) : l !! i = Some x -> alter f i l = <[i := f x]> l.
Proof.
  revert i. induction l as [|y l IH]; intros [|i] H; cbn in *; simplify_eq; [done|]. by rewrite IH.
Qed.

Lemma alloc_fd_record_spec s :
  alloc_fd_record s =
  match free_slot s with
  | Some i => (s <| fd_records ::= <[i := zero_kvm_fd <| kf_active := true |> <| kf_host_fd := -1 |>]> |>, Some i)
  | None => (s, None)
  end.
Proof.
  unfold alloc_fd_record. fold (free_slot s). destruct (free_slot s) as [i|] eqn:H; [|done].
  destruct (free_slot_lookup s i H) as (r & Hr & _). do 2 f_equal. unfold with_kfd. cbn. by rewrite (alter_known _ _ _ _ Hr).
Qed.

(** The new file's record. *)
Definition file_record (name : option (list Z)) (fops pd file ioctl : Z) (r : kb_kvm_fd_record) : Prop :=
  visible r = (true, false, -1, copy_fd_name name, file, pd, fops, ioctl).

Lemma host_only_file i s1 s2 r :
  host_only i s1 s2 -> fd_records s1 !! i = Some r ->
  exists r', fd_records s2 = <[i := r']> (fd_records s1) /\ visible r' = visible r.
Proof. intros (_ & h & Hh & ->) Hr. exists (h r). by rewrite (alter_known _ _ _ _ Hr). Qed.

(** [got s name fops pd file fn s']: the file's record is in place. *)
Definition got (s : kvm_state) (name : option (list Z)) (fops pd file fn : Z) (s' : kvm_state) : Prop :=
  kb_kvm_next_fd s' = kb_kvm_next_fd s /\
  exists i r, free_slot s = Some i /\ fd_records s' = <[i := r]> (fd_records s) /\ file_record name fops pd file fn r.

(** The end of getfile, after the host was told. *)
Lemma got_finish s name fops pd file fn i t t' code :
  got s name fops pd file fn t -> free_slot s = Some i -> host_only i t t' ->
  let '(u, f) := if negb (code =? 0) then (clear_kfd i (t' <| kv_freed ::= cons file |>), 0) else (t', file) in
  f = 0 /\ same_but_free s u \/ f = file /\ got s name fops pd file fn u.
Proof.
  intros (Hn & k & r & Hk & Hr & Hv) Hi Hh. rewrite Hi in Hk. injection Hk as <-.
  destruct (free_slot_lookup s i Hi) as (r0 & Hr0 & _). pose proof (lookup_lt_Some _ _ _ Hr0) as Hlt.
  assert (fd_records t !! i = Some r) as Ht by (rewrite Hr; by apply list_lookup_insert_eq).
  destruct (host_only_file i t t' r Hh Ht) as (r' & Ht' & Hvis). rewrite Hr, list_insert_insert_eq in Ht'.
  destruct Hh as [Hn' _]. destruct (negb _).
  - left. split; [done|]. split; [cbn; congruence|]. right. exists i. split; [done|]. unfold clear_kfd, with_kfd. cbn.
    rewrite Ht', (alter_known _ _ r') by (by apply list_lookup_insert_eq). by rewrite list_insert_insert_eq.
  - right. split; [done|]. split; [congruence|]. exists i, r'. split_and!; [done|done|]. unfold file_record. by rewrite Hvis.
Qed.

Lemma getfile_spec name fops pd al s :
  match kb_linux_kvm_anon_inode_getfile hk vm_bridge vcpu_bridge name fops pd al s with
  | None => is_vcpu_name name = true /\ ka_apic al = 0
  | Some (s', file) =>
      file = 0 /\ same_but_free s s' \/
      file = ka_file al /\ file <> 0 /\
      got s name fops pd file (bridge_for name fops (zalloc_block file KB_KVM_FAKE_FILE_BYTES (kv_mem s))) s'
  end.
Proof.
  unfold kb_linux_kvm_anon_inode_getfile. rewrite alloc_fd_record_spec.
  destruct (free_slot s) as [i|] eqn:Hi; [|left; split; [done|]; by split; [|left]].
  destruct (free_slot_lookup s i Hi) as (r0 & Hr0 & _). pose proof (lookup_lt_Some _ _ _ Hr0) as Hlt.
  destruct (Z.eqb_spec (ka_file al) 0) as [Hf|Hf].
  { left. split; [done|]. split; [done|]. right. exists i. split; [done|]. unfold clear_kfd, with_kfd. cbn.
    rewrite (alter_known _ _ (zero_kvm_fd <| kf_active := true |> <| kf_host_fd := -1 |>))
      by (by apply list_lookup_insert_eq). by rewrite list_insert_insert_eq. }
  cbn [kv_mem]. change (kv_mem (s <| fd_records ::= _ |>)) with (kv_mem s).
  set (m0 := zalloc_block _ _ (kv_mem s)).
  destruct (prepare_vcpu_private_data name pd al m0) as [m|] eqn:Hprep; cbn [mbind option_bind].
  2: { unfold prepare_vcpu_private_data in Hprep. destruct (_ || _) eqn:E; [done|].
       apply orb_false_iff in E as [E _]. apply negb_false_iff in E. split; [done|].
       repeat case_match; simplify_eq; lia. }
  match goal with |- context [with_kfd (fun r => r <| kf_unlocked_ioctl := vcpu_bridge |>) i ?t] => set (t0 := t) end.
  set (ready fn := with_kfd (fun r => r <| kf_unlocked_ioctl := fn |>) i t0).
  assert (forall fn, got s name fops pd (ka_file al) fn (ready fn)) as Hready.
  { intros fn. split; [done|]. eexists i, _. split; [done|]. split; [|shelve].
    unfold ready, t0. rewrite with_kfd_compose. unfold with_kfd. cbn.
    rewrite (alter_known _ _ (zero_kvm_fd <| kf_active := true |> <| kf_host_fd := -1 |>))
      by (by apply list_lookup_insert_eq). rewrite list_insert_insert_eq. reflexivity. Unshelve. reflexivity. }
  fold (ready vcpu_bridge) (ready vm_bridge) (ready (read_ptr_field m0 fops KB_KVM_FOPS_UNLOCKED_IOCTL_OFFSET)).
  unfold bridge_for. destruct (is_vcpu_name name).
  - pose proof (init_vcpu_only i name pd (ready vcpu_bridge)) as Hh.
    destruct (init_host_vcpu_record _ _ _ _ _) as [t' code].
    pose proof (got_finish _ _ _ _ _ _ i _ t' code (Hready vcpu_bridge) Hi Hh) as H.
    destruct (negb _); (destruct H as [H|[Hz H]]; [by left|first [by right | by destruct Hf]]).
  - destruct (bool_decide _).
    + pose proof (init_vm_only i (ready vm_bridge)) as Hh. destruct (init_host_vm_record _ _ _) as [t' code].
      pose proof (got_finish _ _ _ _ _ _ i _ t' code (Hready vm_bridge) Hi Hh) as H.
      destruct (negb _); (destruct H as [H|[Hz H]]; [by left|first [by right | by destruct Hf]]).
    + right. split_and!; [done|done|apply Hready].
Qed.

(** ** Look-ups in the table *)

Definition found (p : kb_kvm_fd_record -> bool) (l : list kb_kvm_fd_record) : option kb_kvm_fd_record :=
  i ← first_index p l; l !! i.

Lemma first_index_unique {A} (p : A -> bool) (l : list A) i x :
  l !! i = Some x -> p x = true -> (forall j y, l !! j = Some y -> j <> i -> p y = false) -> first_index p l = Some i.
Proof. intros H1 H2 H3. apply first_index_Some. exists x. split_and!; [done|done|]. intros j y Hj Hlt. apply (H3 j); [done|lia]. Qed.

(** Entries that fail a test before and after do not matter to it. *)
Lemma found_frame p l l' :
  (forall k, l' !! k = l !! k \/ exists x y, l !! k = Some x /\ l' !! k = Some y /\ p x = false /\ p y = false) ->
  found p l' = found p l.
Proof.
  intros H. unfold found. destruct (first_index p l) as [i|] eqn:E.
  - apply first_index_Some in E as (x & Hx & Hp & Hlow).
    assert (l' !! i = Some x) as Hx' by (destruct (H i) as [->|(y & z & Hy & _ & Hf & _)]; congruence).
    replace (first_index p l') with (Some i); [cbn; congruence|]. symmetry. apply first_index_Some. exists x.
    split_and!; [done|done|]. intros j y Hj Hlt. destruct (H j) as [Hs|(a & b & _ & Hb & _ & Hf)]; [|congruence].
    rewrite Hs in Hj. by apply (Hlow j).
  - replace (first_index p l') with (@None nat); [done|]. symmetry. apply first_index_None.
    apply first_index_None in E. apply Forall_lookup. intros k y Hk.
    destruct (H k) as [Hs|(a & b & _ & Hb & _ & Hf)]; [|congruence].
    rewrite Hs in Hk. by apply (Forall_lookup_1 _ _ _ _ E) in Hk.
Qed.

Definition in_use (l : list kb_kvm_fd_record) : nat := length (List.filter kf_active l).

Lemma in_use_insert l i x y :
  l !! i = Some x ->
  (in_use (<[i := y]> l) + (if kf_active x then 1 else 0) = in_use l + (if kf_active y then 1 else 0))%nat.
Proof.
  intros H. rewrite <- (alter_known (fun _ => y) i x l H). by apply (filter_length_alter kf_active (fun _ => y)).
Qed.

(** ** Descriptors end to end *)

Definition reserved_record (fd : Z) : kb_kvm_fd_record :=
  zero_kvm_fd <| kf_active := true |> <| kf_host_fd := -1 |> <| kf_fd := fd |>.

Lemma get_unused_spec s :
  kb_linux_kvm_get_unused_fd_flags s =
  match free_slot s with
  | Some i => (s <| fd_records ::= <[i := reserved_record (kb_kvm_next_fd s)]> |>
                 <| kb_kvm_next_fd := kb_kvm_next_fd s + 1 |>, kb_kvm_next_fd s)
  | None => (s, -24)
  end.
Proof.
  unfold kb_linux_kvm_get_unused_fd_flags. rewrite alloc_fd_record_spec.
  destruct (free_slot s) as [i|] eqn:Hi; [|done]. destruct (free_slot_lookup s i Hi) as (r & Hr & _).
  pose proof (lookup_lt_Some _ _ _ Hr). f_equal. unfold with_kfd. cbn.
  rewrite (alter_known _ _ (zero_kvm_fd <| kf_active := true |> <| kf_host_fd := -1 |>))
    by (by apply list_lookup_insert_eq). by rewrite list_insert_insert_eq.
Qed.

Lemma kfd_at_lookup s i r : fd_records s !! i = Some r -> kfd_at s i = r.
Proof. apply nth_lookup_Some. Qed.

Lemma install_records fd file s i j ri rj :
  find_fd_record fd s = Some i -> find_fd_record_by_file file s = Some j -> i <> j ->
  fd_records s !! i = Some ri -> fd_records s !! j = Some rj ->
  fd_records (kb_linux_kvm_fd_install fd file s) =
  <[j := zero_kvm_fd]> (<[i := take_over rj ri <| kf_installed := true |>]> (fd_records s)).
Proof.
  intros Hi Hj Hne Hri Hrj. unfold kb_linux_kvm_fd_install. rewrite Hi, Hj. rewrite bool_decide_false by done.
  unfold clear_kfd. rewrite !with_kfd_records, (kfd_at_lookup _ _ _ Hrj).
  rewrite list_alter_alter_ne, list_alter_alter_eq by done.
  rewrite (alter_known _ _ _ _ Hri). apply alter_known with (x := rj). by rewrite list_lookup_insert_ne.
Qed.

Lemma put_records fd s i r :
  find_fd_record fd s = Some i -> fd_records s !! i = Some r ->
  fd_records (kb_linux_kvm_put_unused_fd fd s) = <[i := zero_kvm_fd]> (fd_records s) /\
  kv_freed (kb_linux_kvm_put_unused_fd fd s) = kf_file r :: kv_freed s.
Proof.
  intros Hi Hr. unfold kb_linux_kvm_put_unused_fd. rewrite Hi. rewrite (kfd_at_lookup _ _ _ Hr).
  set (t := close_host_fd_record r s).
  assert (fd_records t = fd_records s /\ kv_freed t = kv_freed s) as [Ht Hf].
  { unfold t, close_host_fd_record, log_host. by destruct (_ && _), (0 <=? _). }
  rewrite (kfd_at_lookup t i r) by congruence. unfold clear_kfd. rewrite with_kfd_records.
  split; [|cbn; congruence]. change (alter (fun _ => zero_kvm_fd) i (fd_records t) = <[i := zero_kvm_fd]> (fd_records s)).
  rewrite Ht. by apply alter_known with (x := r).
Qed.

Definition fds_below (s : kvm_state) : Prop :=
  0 <= kb_kvm_next_fd s /\ forall i r, fd_records s !! i = Some r -> kf_active r = true -> kf_fd r < kb_kvm_next_fd s.

(** Two free slots filled, or filled and freed again. *)
Lemma lookup_two {A} (l : list A) i j x y k :
  (i < length l)%nat -> (j < length l)%nat -> i <> j ->
  (<[j := y]> (<[i := x]> l) : list A) !! k = if decide (k = j) then Some y else if decide (k = i) then Some x else l !! k.
Proof.
  intros Hi Hj Hne. repeat case_decide; subst.
  - apply list_lookup_insert_eq. by rewrite length_insert.
  - rewrite list_lookup_insert_ne by done. by apply list_lookup_insert_eq.
  - by rewrite !list_lookup_insert_ne by done.
Qed.

(** The snapshots of a table that differs in free slots only. *)
Definition snapshot_test (n : Z) (r : kb_kvm_fd_record) : bool := kf_active r && kf_installed r && (kf_fd r =? n).

Lemma snapshot_found n s : kb_linux_kvm_fd_snapshot n s = found (snapshot_test n) (fd_records s).
Proof. done. Qed.

Lemma snapshot_test_inactive n r : kf_active r = false -> snapshot_test n r = false.
Proof. intros H. unfold snapshot_test. by rewrite H. Qed.

(** Tables that differ in free slots only. *)
Definition quiet (l l' : list kb_kvm_fd_record) : Prop :=
  Forall2 (fun x y => y = x \/ kf_active x = false /\ kf_active y = false) l l'.

Lemma quiet_refl l : quiet l l.
Proof. apply Forall_Forall2_diag, Forall_true. by left. Qed.

Lemma quiet_insert l l' i x :
  quiet l l' -> l !! i = Some x -> kf_active x = false -> quiet l (<[i := zero_kvm_fd]> l').
Proof.
  intros Hq Hx Ha. rewrite <- (list_insert_id l i x Hx). apply Forall2_insert; [done|]. by right.
Qed.

Lemma quiet_in_use l l' : quiet l l' -> in_use l' = in_use l.
Proof.
  unfold in_use. induction 1 as [|x y l l' [->|[Hx Hy]] _ IH]; [done|..]; cbn.
  - destruct (kf_active x); cbn; lia.
  - by rewrite Hx, Hy.
Qed.

Lemma quiet_snapshots l l' n : quiet l l' -> found (snapshot_test n) l' = found (snapshot_test n) l.
Proof.
  intros H. apply found_frame. intros k. destruct (l !! k) as [x|] eqn:Hx.
  - destruct (Forall2_lookup_l _ _ _ _ _ H Hx) as (y & Hy & [->|[Ha Hb]]); [by left|right].
    exists x, y. by rewrite !snapshot_test_inactive.
  - left. apply lookup_ge_None in Hx. apply lookup_ge_None. by rewrite <- (Forall2_length _ _ _ H).
Qed.

(** The slots two reservations in a row get. *)
Lemma next_free_slot s i0 r i1 :
  free_slot s = Some i0 -> kf_active r = true -> forall t, fd_records t = <[i0 := r]> (fd_records s) ->
  free_slot t = Some i1 -> i1 <> i0 /\ exists r1, fd_records s !! i1 = Some r1 /\ kf_active r1 = false.
Proof.
  intros Hi0 Hr t Ht Hi1. destruct (free_slot_lookup s i0 Hi0) as (r0 & Hr0 & _).
  apply lookup_lt_Some in Hr0. destruct (free_slot_lookup t i1 Hi1) as (r1 & Hr1 & Ha1). rewrite Ht in Hr1.
  assert (i1 <> i0) as Hne by (intros ->; rewrite list_lookup_insert_eq in Hr1 by done; injection Hr1 as ->; congruence).
  split; [done|]. exists r1. by rewrite list_lookup_insert_ne in Hr1 by done.
Qed.

(** The record of a reserved or installed number is the one that is found. *)
Lemma fd_found s fd i r l :
  fds_below s -> kb_kvm_next_fd s <= fd -> fd_records l !! i = Some r -> kf_active r = true -> kf_fd r = fd ->
  (forall k y, fd_records l !! k = Some y -> k <> i ->
     fd_records s !! k = Some y \/ kf_active y = false \/ kf_fd y < 0) -> find_fd_record fd l = Some i.
Proof.
  intros [Hpos Hfds] Hfd Hi Ha Hf Hother. apply (first_index_unique _ _ _ _ Hi); [by rewrite Ha, Hf, Z.eqb_refl|].
  intros k y Hk Hne. destruct (kf_active y) eqn:Hy; [|done]. apply Z.eqb_neq. intros E.
  destruct (Hother k y Hk Hne) as [Hs|[?|?]]; [|congruence|lia]. pose proof (Hfds k y Hs Hy). lia.
Qed.

(** A call that reserves a number, gets no file and gives the number back. *)
Lemma getfd_failed s s1 s2 i0 :
  fds_below s -> free_slot s = Some i0 -> fd_records s1 = <[i0 := reserved_record (kb_kvm_next_fd s)]> (fd_records s) ->
  same_but_free s1 s2 -> quiet (fd_records s) (fd_records (kb_linux_kvm_put_unused_fd (kb_kvm_next_fd s) s2)).
Proof.
  intros Hb Hi0 Hs1 [_ Hrec]. destruct (free_slot_lookup s i0 Hi0) as (r0 & Hr0 & Ha0).
  pose proof (lookup_lt_Some _ _ _ Hr0) as Hlt. set (fd := kb_kvm_next_fd s) in *.
  destruct Hrec as [Hrec|(i1 & Hi1 & Hrec)].
  - assert (fd_records s2 !! i0 = Some (reserved_record fd)) as Hres
      by (rewrite Hrec, Hs1; by apply list_lookup_insert_eq).
    assert (find_fd_record fd s2 = Some i0) as Hfind.
    { apply (fd_found s fd i0 (reserved_record fd) s2); [done|unfold fd; lia|done..|].
      intros k y Hk Hne. left. by rewrite Hrec, Hs1, list_lookup_insert_ne in Hk by done. }
    rewrite (proj1 (put_records fd s2 i0 _ Hfind Hres)).
    rewrite Hrec, Hs1, list_insert_insert_eq. by eapply quiet_insert; [apply quiet_refl|..].
  - destruct (next_free_slot s i0 (reserved_record fd) i1 Hi0 eq_refl s1 Hs1 Hi1) as (Hne1 & r1 & Hr1 & Ha1).
    pose proof (lookup_lt_Some _ _ _ Hr1) as Hlt1. rewrite Hs1 in Hrec.
    assert (fd_records s2 !! i0 = Some (reserved_record fd)) as Hres.
    { rewrite Hrec, lookup_two by done. by rewrite decide_False, decide_True by done. }
    assert (find_fd_record fd s2 = Some i0) as Hfind.
    { apply (fd_found s fd i0 (reserved_record fd) s2); [done|unfold fd; lia|done..|].
      intros k y Hk Hne. rewrite Hrec, lookup_two in Hk by done. repeat case_decide; simplify_eq; auto. }
    rewrite (proj1 (put_records fd s2 i0 _ Hfind Hres)).
    rewrite Hrec, list_insert_insert_ne, list_insert_insert_eq by done.
    by repeat (eapply quiet_insert; [|done..]); apply quiet_refl.
Qed.

Lemma copy_fd_name_twice name : copy_fd_name (copy_fd_name name) = copy_fd_name name.
Proof. unfold copy_fd_name. destruct name as [n|]; [|done]. cbn. by rewrite take_take, Nat.min_id. Qed.

(** A call that reserves a number, gets a file and installs it: the table has one
    more record, and giving the number back undoes it. *)
Lemma getfd_done s s1 s2 i0 name fops pd file fn :
  let fd := kb_kvm_next_fd s in
  fds_below s -> (forall k r, fd_records s !! k = Some r -> kf_active r = true -> kf_file r <> file) -> file <> 0 ->
  free_slot s = Some i0 -> fd_records s1 = <[i0 := reserved_record fd]> (fd_records s) ->
  got s1 name fops pd file fn s2 ->
  let s' := kb_linux_kvm_fd_install fd file s2 in
  exists r base, fd_records s' = <[i0 := r]> base /\ quiet (fd_records s) base /\
    visible r = (true, true, fd, copy_fd_name name, file, pd, fops, fn) /\
    quiet (fd_records s) (fd_records (kb_linux_kvm_put_unused_fd fd s')) /\
    kv_freed (kb_linux_kvm_put_unused_fd fd s') = file :: kv_freed s'.
Proof.
  intros fd Hb Hnew Hf0 Hi0 Hs1 (_ & i1 & R1 & Hi1 & Hs2 & HR1) s'.
  destruct (free_slot_lookup s i0 Hi0) as (r0 & Hr0 & Ha0). pose proof (lookup_lt_Some _ _ _ Hr0) as Hlt.
  destruct (next_free_slot s i0 (reserved_record fd) i1 Hi0 eq_refl s1 Hs1 Hi1) as (Hne1 & r1 & Hr1 & Ha1).
  pose proof (lookup_lt_Some _ _ _ Hr1) as Hlt1. rewrite Hs1 in Hs2. injection HR1 as V1 V2 V3 V4 V5 V6 V7 V8.
  assert (fd_records s2 !! i0 = Some (reserved_record fd)) as H0.
  { rewrite Hs2, lookup_two by done. by rewrite decide_False, decide_True by done. }
  assert (fd_records s2 !! i1 = Some R1) as H1.
  { rewrite Hs2, lookup_two by done. by rewrite decide_True by done. }
  assert (find_fd_record fd s2 = Some i0) as Hfd.
  { apply (fd_found s fd i0 (reserved_record fd) s2); [done|unfold fd; lia|done..|].
    intros k y Hk Hne. rewrite Hs2, lookup_two in Hk by done. repeat case_decide; simplify_eq; auto. right. right. lia. }
  assert (find_fd_record_by_file file s2 = Some i1) as Hfile.
  { apply (first_index_unique _ _ _ _ H1); [by rewrite V1, V5, Z.eqb_refl|]. intros k y Hk Hne.
    rewrite Hs2, lookup_two in Hk by done. repeat case_decide; simplify_eq.
    - by apply Z.eqb_neq.
    - destruct (kf_active y) eqn:Hy; [|done]. apply Z.eqb_neq. by apply (Hnew k). }
  set (RF := take_over R1 (reserved_record fd) <| kf_installed := true |>).
  assert (fd_records s' = <[i0 := RF]> (<[i1 := zero_kvm_fd]> (fd_records s))) as Hs'.
  { unfold s'. rewrite (install_records fd file s2 i0 i1 _ _ Hfd Hfile (not_eq_sym Hne1) H0 H1). fold RF.
    rewrite Hs2, (list_insert_insert_ne _ i0 i1), list_insert_insert_eq, list_insert_insert_eq by done.
    by rewrite list_insert_insert_ne by done. }
  assert (visible RF = (true, true, fd, copy_fd_name name, file, pd, fops, fn)) as HRF.
  { unfold RF, take_over, visible. cbn. by rewrite V4, V5, V6, V7, V8, copy_fd_name_twice. }
  assert (fd_records s' !! i0 = Some RF) as HF0.
  { rewrite Hs'. apply list_lookup_insert_eq. by rewrite length_insert. }
  assert (find_fd_record fd s' = Some i0) as Hfd'.
  { apply (fd_found s fd i0 RF s'); [done|unfold fd; lia|done..|]. intros k y Hk Hne.
    rewrite Hs', list_lookup_insert_ne in Hk by done. destruct (decide (k = i1)) as [->|Hk1].
    - rewrite list_lookup_insert_eq in Hk by done. simplify_eq. auto.
    - rewrite list_lookup_insert_ne in Hk by done. auto. }
  destruct (put_records fd s' i0 RF Hfd' HF0) as [Hput Hfreed].
  exists RF, (<[i1 := zero_kvm_fd]> (fd_records s)). split_and!.
  - exact Hs'.
  - by eapply quiet_insert; [apply quiet_refl|..].
  - exact HRF.
  - rewrite Hput, Hs', list_insert_insert_eq. by repeat (eapply quiet_insert; [|done..]); apply quiet_refl.
  - rewrite Hfreed. f_equal. exact V5.
Qed.

Lemma found_installed base i r n x :
  base !! i = Some x -> kf_active r = true -> kf_installed r = true ->
  (forall k y, base !! k = Some y -> k <> i -> kf_active y = true -> kf_fd y <> kf_fd r) -> kf_active x = false ->
  found (snapshot_test n) (<[i := r]> base) = if n =? kf_fd r then Some r else found (snapshot_test n) base.
Proof.
  intros Hx Ha Hin Hfd Hxa. pose proof (lookup_lt_Some _ _ _ Hx) as Hlt. destruct (Z.eqb_spec n (kf_fd r)) as [->|Hn].
  - unfold found. rewrite (first_index_unique _ _ i r).
    + cbn. by rewrite list_lookup_insert_eq.
    + by apply list_lookup_insert_eq.
    + unfold snapshot_test. by rewrite Ha, Hin, Z.eqb_refl.
    + intros k y Hk Hne. rewrite list_lookup_insert_ne in Hk by done. unfold snapshot_test.
      destruct (kf_active y) eqn:Hy; [|done]. rewrite (proj2 (Z.eqb_neq (kf_fd y) (kf_fd r))) by (by apply (Hfd k)).
      apply andb_false_r.
  - apply found_frame. intros k. destruct (decide (k = i)) as [->|Hne]; [right|left; by apply list_lookup_insert_ne].
    exists x, r. rewrite list_lookup_insert_eq by done. split_and!; [done|done|by apply snapshot_test_inactive|].
    unfold snapshot_test. rewrite (proj2 (Z.eqb_neq (kf_fd r) n)) by done. apply andb_false_r.
Qed.

(** C36: anon_inode_getfd is all or nothing.  With a new address for the file it
    either returns the next descriptor number, under which exactly the given name (63
    bytes of it), file, object, operations and ioctl bridge are found from then on,
    every other descriptor being as before, and giving the number back frees the file
    and leaves the table as it was; or it returns -24 or -12 and leaves no record
    behind, whichever step failed, on the host or here.  (It writes through a null
    pointer only when the allocation for a CPU's APIC fails.) *)
Theorem kvm_getfd_all_or_nothing name fops pd al s :
  fds_below s -> (forall k r, fd_records s !! k = Some r -> kf_active r = true -> kf_file r <> ka_file al) ->
  match kb_linux_kvm_anon_inode_getfd hk vm_bridge vcpu_bridge name fops pd al s with
  | None => is_vcpu_name name = true /\ ka_apic al = 0
  | Some (s', fd) =>
      if fd <? 0 then
        (fd = -24 \/ fd = -12) /\ in_use (fd_records s') = in_use (fd_records s) /\
        forall n, kb_linux_kvm_fd_snapshot n s' = kb_linux_kvm_fd_snapshot n s
      else
        fd = kb_kvm_next_fd s /\
        (exists r, kb_linux_kvm_fd_snapshot fd s' = Some r /\
           visible r = (true, true, fd, copy_fd_name name, ka_file al, pd, fops,
                        bridge_for name fops (zalloc_block (ka_file al) KB_KVM_FAKE_FILE_BYTES (kv_mem s)))) /\
        (forall n, n <> fd -> kb_linux_kvm_fd_snapshot n s' = kb_linux_kvm_fd_snapshot n s) /\
        let t := kb_linux_kvm_put_unused_fd fd s' in
        in_use (fd_records t) = in_use (fd_records s) /\ kv_freed t = ka_file al :: kv_freed s' /\
        forall n, kb_linux_kvm_fd_snapshot n t = kb_linux_kvm_fd_snapshot n s
  end.
Proof.
  intros Hb Hnew. unfold kb_linux_kvm_anon_inode_getfd. rewrite get_unused_spec.
  destruct (free_slot s) as [i0|] eqn:Hi0; [|by split; [left|]].
  pose proof Hb as [Hpos Hfds]. rewrite (proj2 (Z.ltb_ge (kb_kvm_next_fd s) 0)) by lia.
  set (s1 := s <| fd_records ::= _ |> <| kb_kvm_next_fd := _ |>).
  pose proof (getfile_spec name fops pd al s1) as Hfile.
  destruct (kb_linux_kvm_anon_inode_getfile _ _ _ name fops pd al s1) as [[s2 file]|]; cbn [mbind option_bind]; [|done].
  destruct Hfile as [[-> Hsame]|(-> & Hf0 & Hgot)]; cbn [Z.eqb].
  - pose proof (getfd_failed s s1 s2 i0 Hb Hi0 eq_refl Hsame) as Hq. cbn [Z.ltb Z.compare].
    split_and!; [by right|by apply quiet_in_use|]. intros n. rewrite !snapshot_found. by apply quiet_snapshots.
  - rewrite (proj2 (Z.eqb_neq _ _) Hf0), (proj2 (Z.ltb_ge (kb_kvm_next_fd s) 0)) by lia.
    destruct (getfd_done s s1 s2 i0 _ _ _ _ _ Hb Hnew Hf0 Hi0 eq_refl Hgot) as (r & base & Hrec & Hq & Hvis & Hput & Hfreed).
    destruct (free_slot_lookup s i0 Hi0) as (r0 & Hr0 & Ha0).
    destruct (Forall2_lookup_l _ _ _ _ _ Hq Hr0) as (x & Hx & Hxr).
    assert (kf_active x = false) as Hxa by (destruct Hxr as [->|[_ ?]]; done).
    assert (kf_active r = true /\ kf_installed r = true /\ kf_fd r = kb_kvm_next_fd s) as (R1 & R2 & R3).
    { unfold visible in Hvis. by repeat apply pair_equal_spec in Hvis as [Hvis ?]. }
    pose proof (fun n => found_installed base i0 r n x Hx R1 R2) as Hfound.
    setoid_rewrite R3 in Hfound. assert (forall n, found (snapshot_test n) (<[i0 := r]> base) =
      if n =? kb_kvm_next_fd s then Some r else found (snapshot_test n) base) as Hsnap.
    { intros n. apply Hfound; [|done]. intros k y Hk Hne Hy E. destruct (Forall2_lookup_r _ _ _ _ _ Hq Hk) as (z & Hz & [->|[_ ?]]);
        [|congruence]. pose proof (Hfds k z Hz Hy). lia. }
    split_and!; [done|exists r; split; [|done]| | | |].
    + by rewrite snapshot_found, Hrec, Hsnap, Z.eqb_refl.
    + intros n Hn. rewrite !snapshot_found, Hrec, Hsnap, (proj2 (Z.eqb_neq _ _) Hn). by apply quiet_snapshots.
    + by apply quiet_in_use.
    + done.
    + intros n. rewrite !snapshot_found. by apply quiet_snapshots.
Qed.
End descriptors.

(** ** Examples *)

(** A VM object at 0x6000, a CPU at 0x5000 with its page at 0x10000, and guest memory
    at 0x20000 holding: mov al,'A'; mov dx,0x3f8; out dx,al; in al,0x60; hlt. *)
Definition guest_code : list Z := flat_map encode [MovAl 0x41; MovDx 0x3f8; OutDx; InImm 0x60; Hlt].
Definition guest_memory : mem :=
  mstore (mstore64 (mstore64 (mstore64 ∅ 0x5000 0x6000) 0x5068 0x10000) 0x7008 0x1000) 0x20000 guest_code.
Definition code_region : kb_kvm_userspace_memory_region := mk_region 0 0 0 0x1000 0x20000.
Definition vm_file : kb_kvm_fd_record :=
  note_region code_region (zero_kvm_fd <| kf_active := true |> <| kf_fd := 100 |> <| kf_file := 0x8000 |>
    <| kf_private_data := 0x6000 |> <| kf_host_fd := -1 |>).
Definition vcpu_file : kb_kvm_fd_record :=
  zero_kvm_fd <| kf_active := true |> <| kf_fd := 101 |> <| kf_file := 0x9000 |> <| kf_private_data := 0x5000 |>
    <| kf_host_fd := -1 |> <| kf_has_regs := true |>.
Definition guest_sample : kvm_state :=
  kvm_state_init guest_memory <| fd_records := vm_file :: vcpu_file :: replicate 30 zero_kvm_fd |> <| kb_kvm_next_fd := 102 |>.

Lemma guest_memory_ok : mem_ok guest_memory.
Proof.
  unfold guest_memory. apply mem_ok_mstore; [|by repeat constructor]. unfold mstore64.
  do 3 (apply mem_ok_mstore; [|apply bytes_ok_le_bytes]). apply map_Forall_empty.
Qed.

Example guest_writes_A :
  let '(s, r) := kb_kvm_vcpu_run_exit 0x5000 (Some 1%nat) guest_sample in
  r = 0 /\ exit_of (read_run (kv_mem s) 0x10000) = Some (ExitIo true 0x3f8 0x41) /\ rip (kf_regs (kfd_at s 1)) = 6.
Proof. vm_compute. done. Qed.

Lemma guest_run_refines_witness :
  exists g r, guest_run (guest_addr 0x5000 (guest_sample <| kv_mem ::= clear_kvm_run_exit_area 0x10000 |>))
    (clear_kvm_run_exit_area 0x10000 guest_memory) 1024 zero_regs g r /\
    kb_kvm_vcpu_run_exit 0x5000 (Some 1%nat) guest_sample =
      stopped 0x10000 g r 1 (guest_sample <| kv_mem ::= clear_kvm_run_exit_area 0x10000 |>).
Proof.
  assert (mload64 (kv_mem guest_sample) (0x5000 + KB_KVM_VCPU_RUN_OFFSET) = 0x10000) as E by (vm_compute; done).
  pose proof (guest_run_refines 0x5000 1 guest_sample) as H. cbn zeta in H. rewrite E in H.
  destruct H as (g & r & H1 & H2 & _).
  - exact guest_memory_ok.
  - vm_compute. lia.
  - done.
  - lia.
  - vm_compute. done.
  - done.
  - done.
  - exists g, r. split; [exact H1|exact H2].
Defined.

Lemma guest_read_completes_witness :
  let s2 := leave_with 0x10000 zero_regs (ExitIo false 0x60 0) 1 guest_sample
              <| kv_mem ::= fun m => mstore m (0x10000 + 0x100) [0x1c] |> in
  kb_kvm_vcpu_run_exit 0x5000 (Some 1%nat) s2 =
  kb_kvm_vcpu_run_exit 0x5000 (Some 1%nat)
    (with_kfd (fun r => r <| kf_regs := set_al 0x1c zero_regs |> <| kf_pending_exit := KB_KVM_PENDING_NONE |>) 1 s2).
Proof.
  assert (mload64 (kv_mem guest_sample) (0x5000 + KB_KVM_VCPU_RUN_OFFSET) = 0x10000) as E by (vm_compute; done).
  pose proof (guest_read_completes 0x5000 1 guest_sample zero_regs (ExitIo false 0x60 0) 0x100 0x1c) as H.
  cbn zeta in H. rewrite E in H. apply H.
  - done.
  - vm_compute. lia.
  - lia.
  - done.
  - left. vm_compute. done.
Defined.

(** An instruction's first byte is checked against the guest's memory, its operand is
    not: with a slot of one byte, the guest reads the byte of the host's memory behind
    it. *)
Lemma operand_fetch_leaves_slot :
  let m := mstore guest_memory 0x30000 [0xb0; 0x77] in
  let tiny := vm_file <| kf_memory_regions ::= <[0%nat := mk_region 0 0 0 1 0x30000]> |> in
  let s := guest_sample <| kv_mem := m |> <| fd_records ::= <[0%nat := tiny]> |> in
  guest_addr 0x5000 s 1 = 0 /\
  let '(s', r) := kb_kvm_vcpu_run_exit 0x5000 (Some 1%nat) s in
  r = -22 /\ rax (kf_regs (kfd_at s' 1)) = 0x77.
Proof. vm_compute. done. Qed.

(** A host without KVM, and a module that accepts every ioctl. *)
Definition no_host_kvm : host_kvm :=
  mk_host_kvm false (fun _ => (-1, 2)) (fun _ _ _ _ m => (m, (-1, 25))) (fun _ _ g => g) (fun _ _ _ => (None, 12)).
Definition accept_all (_ _ _ _ : Z) (s : kvm_state) : kvm_state * Z := (s, 0).

Definition memory_sample : kvm_state :=
  kvm_state_init (mstore guest_memory 0x7000 (le_bytes 4 0 ++ le_bytes 4 0 ++ le_bytes 8 0 ++ le_bytes 8 0x1000 ++ le_bytes 8 0x20000))
    <| fd_records := [zero_kvm_fd <| kf_active := true |> <| kf_file := 0x8000 |> <| kf_private_data := 0x6000 |>
                        <| kf_host_fd := -1 |> <| kf_original_unlocked_ioctl := 0x400 |>] |>.

Lemma guest_memory_follows_slots_witness :
  backed_by (slot_now (load_region (kv_mem memory_sample) <$> [] ++ [0x7000])) 16 0x123
    (translate_guest_physical (Some 0%nat) 0x123 (foldl (set_memory no_host_kvm accept_all 0x8000) memory_sample ([] ++ [0x7000]))).
Proof.
  apply (guest_memory_follows_slots no_host_kvm accept_all 0x8000).
  - done.
  - unfold memory_sample. cbn [kv_mem]. apply mem_ok_mstore; [exact guest_memory_ok|].
    repeat apply Forall_app_2; apply bytes_ok_le_bytes.
  - by vm_compute.
  - done.
  - done.
  - by repeat constructor.
  - by vm_compute.
  - done.
Defined.

Lemma guest_sample_fds :
  fds_below guest_sample /\ forall k r, fd_records guest_sample !! k = Some r -> kf_active r = true -> kf_file r <> 0xa000.
Proof.
  assert (Forall (fun r => kf_active r = true -> kf_fd r < 102 /\ kf_file r <> 0xa000) (fd_records guest_sample)) as H.
  { repeat (constructor; [done|]). constructor. }
  split; [split; [done|]|]; intros k r Hk Ha; by apply (Forall_lookup_1 _ _ _ _ H Hk).
Qed.

Lemma kvm_getfd_all_or_nothing_witness :
  exists s', kb_linux_kvm_anon_inode_getfd no_host_kvm 0x111 0x222 (Some (cstr "kvm-vcpu:1")) 0x7000 0x5000
    (mk_kvm_allocs 0xa000 0xb000 0xc000) guest_sample = Some (s', 102) /\
    exists r, kb_linux_kvm_fd_snapshot 102 s' = Some r /\ kf_unlocked_ioctl r = 0x222 /\ kf_file r = 0xa000.
Proof.
  set (al := mk_kvm_allocs 0xa000 0xb000 0xc000).
  pose proof (kvm_getfd_all_or_nothing no_host_kvm 0x111 0x222 (Some (cstr "kvm-vcpu:1")) 0x7000 0x5000 al guest_sample
    (proj1 guest_sample_fds) (proj2 guest_sample_fds)) as H.
  assert (snd <$> kb_linux_kvm_anon_inode_getfd no_host_kvm 0x111 0x222 (Some (cstr "kvm-vcpu:1")) 0x7000 0x5000 al
    guest_sample = Some 102) as E by (vm_compute; done).
  destruct (kb_linux_kvm_anon_inode_getfd _ _ _ _ _ _ _ _) as [[s' fd]|]; [|done].
  injection E as ->. exists s'. split; [done|]. destruct H as (_ & (r & Hr & Hv) & _). exists r. split; [done|].
  unfold visible in Hv. repeat apply pair_equal_spec in Hv as [Hv ?]. done.
Defined.

(** The allocation of a CPU's APIC may fail; its block is then written all the same. *)
Lemma failed_apic_is_written :
  kb_linux_kvm_anon_inode_getfd no_host_kvm 0x111 0x222 (Some (cstr "kvm-vcpu:1")) 0x7000 0x5000
    (mk_kvm_allocs 0xa000 0xb000 0) guest_sample = None.
Proof. vm_compute. done. Qed.
