(* ===== verification/UsbSynthetic.v ===== *)
(** * Configuration switches and synthetic USB devices
    (src/src/linux_subsystem/usb/config.c and synthetic.c)

    The switches come from environment variables; each is looked up once and
    remembered in a static variable ([-1] until then).  With event injection on and
    no real device configured, control messages are answered from built-in
    descriptors: a mass-storage disk, or a HID mouse.

    [env] is [getenv]; it is an argument of every call, so that the environment may
    change between calls.  [data] is an address in the byte memory of Memory.v. *)

From Stdlib Require Import String.
From S2P Require Import Prelude Memory.

Local Open Scope string_scope.
Local Open Scope Z_scope.

(** ** Switches *)

(** The static [cached] of each function, and [usb_event_injection_runtime_allowed]. *)
Record usb_config := mk_usb_config {
  c_trace_usb : Z;
  c_trace_hub : Z;
  c_trace_control : Z;
  c_trace_direct_hub : Z;
  c_trace_descriptor : Z;
  c_mouse_live : Z;
  c_xhci_only : Z;
  c_real_device : Z;
  c_real_root_hub_shim : Z;
  c_pachaos_active : Z;
  c_fake_root_hub : Z;
  c_injection : Z;
  c_hid_mouse : Z;
  c_storage : Z;
  c_injection_allowed : bool;
}.
#[export] Instance usb_config_eta : Settable usb_config := fun c =>
  mk_usb_config (c_trace_usb c) (c_trace_hub c) (c_trace_control c) (c_trace_direct_hub c) (c_trace_descriptor c)
    (c_mouse_live c) (c_xhci_only c) (c_real_device c) (c_real_root_hub_shim c) (c_pachaos_active c)
    (c_fake_root_hub c) (c_injection c) (c_hid_mouse c) (c_storage c) (c_injection_allowed c).

Definition usb_config_init : usb_config := mk_usb_config (-1) (-1) (-1) (-1) (-1) (-1) (-1) (-1) (-1) (-1) (-1) (-1) (-1) (-1) false.

Section config.
Context (env : string -> option string).

(** [value != NULL && value[0] != '\0' && strcmp(value, "0") != 0] *)
Definition flag_set (value : option string) : bool :=
  match value with
  | Some v => negb (v =? "")%string && negb (v =? "0")%string
  | None => false
  end.

Definition env_flag_enabled (name : string) : bool := flag_set (env name).

(** [strstr(text, needle) != NULL] *)
Definition has (needle : string) (text : option string) : bool :=
  match text with
  | Some t => match String.index 0 needle t with Some _ => true | None => false end
  | None => false
  end.

Definition trace_usb_enabled (c : usb_config) : usb_config * bool :=
  if 0 <=? c_trace_usb c then (c, negb (c_trace_usb c =? 0))
  else let v := env_flag_enabled "KOBOX_TRACE_USB" in (c <| c_trace_usb := Z.b2z v |>, v).
Definition trace_usb_hub_enabled (c : usb_config) : usb_config * bool :=
  if 0 <=? c_trace_hub c then (c, negb (c_trace_hub c =? 0))
  else let v := env_flag_enabled "KOBOX_TRACE_USB_HUB" in (c <| c_trace_hub := Z.b2z v |>, v).
Definition trace_usb_control_enabled (c : usb_config) : usb_config * bool :=
  if 0 <=? c_trace_control c then (c, negb (c_trace_control c =? 0))
  else let v := env_flag_enabled "KOBOX_TRACE_USB_CONTROL" in (c <| c_trace_control := Z.b2z v |>, v).
Definition trace_usb_direct_hub_enabled (c : usb_config) : usb_config * bool :=
  if 0 <=? c_trace_direct_hub c then (c, negb (c_trace_direct_hub c =? 0))
  else let v := env_flag_enabled "KOBOX_TRACE_USB_DIRECT_HUB" in (c <| c_trace_direct_hub := Z.b2z v |>, v).
Definition trace_usb_descriptor_enabled (c : usb_config) : usb_config * bool :=
  if 0 <=? c_trace_descriptor c then (c, negb (c_trace_descriptor c =? 0))
  else let v := env_flag_enabled "KOBOX_TRACE_USB_DESCRIPTOR" in (c <| c_trace_descriptor := Z.b2z v |>, v).
Definition usb_hid_mouse_live_enabled (c : usb_config) : usb_config * bool :=
  if 0 <=? c_mouse_live c then (c, negb (c_mouse_live c =? 0))
  else let v := env_flag_enabled "KOBOX_USB_HID_MOUSE_LIVE" in (c <| c_mouse_live := Z.b2z v |>, v).
Definition usb_real_device_enabled (c : usb_config) : usb_config * bool :=
  if 0 <=? c_real_device c then (c, negb (c_real_device c =? 0))
  else let v := env_flag_enabled "KOBOX_USB_REAL_DEVICE" in (c <| c_real_device := Z.b2z v |>, v).
Definition usb_real_root_hub_shim_enabled (c : usb_config) : usb_config * bool :=
  if 0 <=? c_real_root_hub_shim c then (c, negb (c_real_root_hub_shim c =? 0))
  else let v := env_flag_enabled "KOBOX_USB_REAL_ROOT_HUB_SHIM" in (c <| c_real_root_hub_shim := Z.b2z v |>, v).
Definition usb_pachaos_backend_active (c : usb_config) : usb_config * bool :=
  if 0 <=? c_pachaos_active c then (c, negb (c_pachaos_active c =? 0))
  else
    let v := match env "KOBOX_DEVICE_BACKEND" with
             | Some b => (b =? "pachaos")%string || (b =? "pachaos_capsule")%string
             | None => false
             end in (c <| c_pachaos_active := Z.b2z v |>, v).
Definition usb_pachaos_fake_root_hub_enabled (c : usb_config) : usb_config * bool :=
  if 0 <=? c_fake_root_hub c then (c, negb (c_fake_root_hub c =? 0))
  else let v := env_flag_enabled "KOBOX_USB_PACHAOS_FAKE_ROOT_HUB" in (c <| c_fake_root_hub := Z.b2z v |>, v).

(** [usb_hid_mouse_live_enabled() && usb_real_device_enabled() &&
    usb_pachaos_backend_active()], each only asked when the ones before hold. *)
Definition live_on_pachaos (c : usb_config) : usb_config * bool :=
  let '(c, live) := usb_hid_mouse_live_enabled c in
  if negb live then (c, false)
  else
    let '(c, real) := usb_real_device_enabled c in
    if negb real then (c, false) else usb_pachaos_backend_active c.

Definition usb_hid_mouse_xhci_only_enabled (c : usb_config) : usb_config * bool :=
  if 0 <=? c_xhci_only c then (c, negb (c_xhci_only c =? 0))
  else
    let '(c, v) :=
      match env "KOBOX_USB_HID_MOUSE_XHCI_ONLY" with
      | Some v => if (v =? "")%string then live_on_pachaos c else (c, negb (v =? "0")%string)
      | None => live_on_pachaos c
      end in
    (c <| c_xhci_only := Z.b2z v |>, v).

Definition usb_event_injection_enabled (c : usb_config) : usb_config * bool :=
  let c :=
    if 0 <=? c_injection c then c
    else
      let v := env_flag_enabled "KOBOX_ENABLE_USB_EVENT_INJECT" in
      let '(c, v) := if v then (c, true) else live_on_pachaos c in
      c <| c_injection := Z.b2z v |> in
  (c, c_injection_allowed c && negb (c_injection c =? 0)).

Definition usb_synthetic_hid_mouse_enabled (c : usb_config) : usb_config * bool :=
  if 0 <=? c_hid_mouse c then (c, negb (c_hid_mouse c =? 0))
  else
    let device := env "KOBOX_USB_SYNTHETIC_DEVICE" in
    let explicit_hid_mouse := has "hid" device && has "mouse" device in
    let '(c, xhci_only) := usb_hid_mouse_xhci_only_enabled c in
    let v := if xhci_only then false
             else if flag_set (env "KOBOX_USB_HID_MOUSE_SMOKE") then true
             else if flag_set (env "KOBOX_USB_HID_MOUSE_LIVE") then explicit_hid_mouse
             else explicit_hid_mouse in
    (c <| c_hid_mouse := Z.b2z v |>, v).

Definition usb_synthetic_storage_enabled (c : usb_config) : usb_config * bool :=
  if 0 <=? c_storage c then (c, negb (c_storage c =? 0))
  else
    let device := env "KOBOX_USB_SYNTHETIC_DEVICE" in
    let v := flag_set (env "KOBOX_USB_STORAGE_IO_SMOKE") || flag_set (env "KOBOX_USB_STORAGE_SUMMARY") ||
             (has "storage" device || has "mass" device || has "scsi" device) in
    (c <| c_storage := Z.b2z v |>, v).
End config.

Definition kb_usb_set_event_injection_runtime_allowed (allowed : Z) (c : usb_config) : usb_config :=
  c <| c_injection_allowed := negb (allowed =? 0) |>.

(** ** Descriptors *)

Definition USB_DIR_IN : Z := 0x80.
Definition USB_TYPE_STANDARD : Z := 0x00.
Definition USB_RECIP_DEVICE : Z := 0x00.
Definition USB_RECIP_INTERFACE : Z := 0x01.
Definition USB_REQ_GET_DESCRIPTOR : Z := 0x06.
Definition USB_REQ_SET_ADDRESS : Z := 0x05.
Definition USB_REQ_SET_CONFIGURATION : Z := 0x09.
Definition USB_DT_DEVICE : Z := 0x01.
Definition USB_DT_CONFIG : Z := 0x02.
Definition USB_DT_STRING : Z := 0x03.
Definition USB_DT_DEVICE_QUALIFIER : Z := 0x06.
Definition USB_DT_HID : Z := 0x21.
Definition USB_DT_REPORT : Z := 0x22.

(** A character and a zero byte, for each of a text. *)
Definition utf16 (text : string) : list Z := flat_map (fun b => [b; 0]) (cstr text).

Definition hid_device_descriptor : list Z :=
  [18; USB_DT_DEVICE; 0; 2; 0; 0; 0; 64; 0x6b; 0x1d; 2; 0x10; 0; 1; 1; 2; 3; 1].
Definition hid_config_descriptor : list Z :=
  [9; USB_DT_CONFIG; 34; 0; 1; 1; 0; 0x80; 50;
   9; 4; 0; 0; 1; 3; 1; 2; 0;
   9; USB_DT_HID; 0x11; 1; 0; 1; USB_DT_REPORT; 50; 0;
   7; 5; 0x81; 3; 8; 0; 10].
Definition hid_report_descriptor : list Z :=
  [0x05; 0x01; 0x09; 0x02; 0xa1; 0x01; 0x09; 0x01; 0xa1; 0x00; 0x05; 0x09; 0x19; 0x01; 0x29; 0x03; 0x15; 0x00;
   0x25; 0x01; 0x95; 0x03; 0x75; 0x01; 0x81; 0x02; 0x95; 0x01; 0x75; 0x05; 0x81; 0x03; 0x05; 0x01; 0x09; 0x30;
   0x09; 0x31; 0x15; 0x81; 0x25; 0x7f; 0x75; 0x08; 0x95; 0x02; 0x81; 0x06; 0xc0; 0xc0].
Definition device_descriptor : list Z :=
  [18; USB_DT_DEVICE; 0; 2; 0; 0; 0; 64; 0x6b; 0x1d; 1; 0x10; 0; 1; 1; 2; 3; 1].
Definition config_descriptor : list Z :=
  [9; USB_DT_CONFIG; 33; 0; 1; 1; 0; 0x80; 50;
   9; 4; 0; 0; 2; 8; 6; 0x50; 0;
   7; 5; 0x81; 2; 0; 2; 0;
   7; 5; 2; 2; 0; 2; 0].
Definition qualifier_descriptor : list Z := [10; USB_DT_DEVICE_QUALIFIER; 0; 2; 0; 0; 0; 64; 1; 0].
Definition langid_descriptor : list Z := [4; USB_DT_STRING; 9; 4].
Definition manufacturer_descriptor : list Z := [12; USB_DT_STRING] ++ utf16 "Kobox".
Definition product_descriptor : list Z := [24; USB_DT_STRING] ++ utf16 "USB Storage".
Definition hid_product_descriptor : list Z := [30; USB_DT_STRING] ++ utf16 "USB HID Mouse".
Definition serial_descriptor : list Z := [10; USB_DT_STRING] ++ utf16 "0001".

Definition synthetic_pointer_is_error_or_low (value : Z) : bool := (value <? 4096) || (UINT64_MAX - 4095 <=? value).

(** Memory and the number of bytes copied. *)
Definition copy_descriptor (data size : Z) (descriptor : list Z) (m : mem) : mem * Z :=
  if synthetic_pointer_is_error_or_low data || (size =? 0) || (blen descriptor =? 0) then (m, 0)
  else
    let copied := Z.min (blen descriptor) size in
    (mstore m data (take (Z.to_nat copied) descriptor), copied).

(** The switch: the descriptor, or the error. *)
Definition select_descriptor (hid_mouse : bool) (recipient descriptor_type descriptor_index : Z) : Z + list Z :=
  let for_device d := if negb (recipient =? USB_RECIP_DEVICE) then inl (-95) else inr d in
  let for_interface d := if negb hid_mouse || negb (recipient =? USB_RECIP_INTERFACE) then inl (-95) else inr d in
  if descriptor_type =? USB_DT_DEVICE then for_device (if hid_mouse then hid_device_descriptor else device_descriptor)
  else if descriptor_type =? USB_DT_CONFIG then for_device (if hid_mouse then hid_config_descriptor else config_descriptor)
  else if descriptor_type =? USB_DT_DEVICE_QUALIFIER then for_device qualifier_descriptor
  else if descriptor_type =? USB_DT_HID then for_interface (take 9 (drop 18 hid_config_descriptor))
  else if descriptor_type =? USB_DT_REPORT then for_interface hid_report_descriptor
  else if descriptor_type =? USB_DT_STRING then
    if negb (recipient =? USB_RECIP_DEVICE) then inl (-95)
    else if descriptor_index =? 0 then inr langid_descriptor
    else if descriptor_index =? 1 then inr manufacturer_descriptor
    else if descriptor_index =? 2 then inr (if hid_mouse then hid_product_descriptor else product_descriptor)
    else if descriptor_index =? 3 then inr serial_descriptor
    else inl (-32)
  else inl (-95).

Definition kb_usb_synthetic_control_msg (env : string -> option string) (request requesttype value data size : Z)
    (c : usb_config) (m : mem) : usb_config * mem * Z :=
  let '(c, injection) := usb_event_injection_enabled env c in
  if negb injection then (c, m, -95)
  else
    let '(c, real) := usb_real_device_enabled env c in
    if real then (c, m, -95)
    else if (Z.land requesttype (Z.lor USB_DIR_IN (Z.lor 0x60 0x1f)) =? Z.lor USB_TYPE_STANDARD USB_RECIP_DEVICE) &&
            ((request =? USB_REQ_SET_ADDRESS) || (request =? USB_REQ_SET_CONFIGURATION)) then (c, m, 0)
    else if negb (request =? USB_REQ_GET_DESCRIPTOR) then (c, m, -95)
    else
      let '(c, hid_mouse) := usb_synthetic_hid_mouse_enabled env c in
      if negb (Z.land requesttype (Z.lor USB_DIR_IN 0x60) =? Z.lor USB_DIR_IN USB_TYPE_STANDARD) then (c, m, -95)
      else
        match select_descriptor hid_mouse (Z.land requesttype 0x1f) (u8 (Z.shiftr value 8)) (u8 (Z.land value 0xff)) with
        | inl error => (c, m, error)
        | inr descriptor => let '(m, n) := copy_descriptor data size descriptor m in (c, m, n)
        end.

(** ** Theorems *)

Lemma mload_take m a n q : length q = n -> mload (mstore m a q) a n = q.
Proof. intros <-. apply mload_mstore_same. Qed.

Lemma copy_descriptor_spec data size d m :
  0 <= size ->
  let '(m', n) := copy_descriptor data size d m in
  0 <= n <= size /\ n <= blen d /\ mload m' data (Z.to_nat n) = take (Z.to_nat n) d /\
  (forall a, a < data \/ data + n <= a -> mem_byte m' a = mem_byte m a) /\
  (synthetic_pointer_is_error_or_low data = false -> n = Z.min (blen d) size).
Proof.
  intros Hs. unfold copy_descriptor. destruct (_ || _ || _) eqn:E.
  - split_and!; try done; [unfold blen; lia|]. intros Hd. rewrite Hd in E. cbn in E.
    apply orb_true_iff in E as [E%Z.eqb_eq|E%Z.eqb_eq]; unfold blen in *; lia.
  - apply orb_false_iff in E as [[E1 E2]%orb_false_iff E3]. apply Z.eqb_neq in E2, E3.
    assert (length (take (Z.to_nat (Z.min (blen d) size)) d) = Z.to_nat (Z.min (blen d) size)) as Hl
      by (rewrite length_take; unfold blen; lia).
    split_and!; [unfold blen; lia|lia|lia|by apply mload_take| |done].
    intros a Ha. apply mem_byte_mstore_out. rewrite Hl. unfold blen in *. lia.
Qed.

(** C40: A synthetic device answers every control message within the caller's buffer:
    the result is 0 or an error and memory is untouched, or the message asked for a
    descriptor and the answer is its first [min size length] bytes, at [data], with
    every byte of memory outside them as before. *)
Theorem synthetic_reply_in_bounds env request requesttype value data size c m :
  is_u16 size ->
  let '(c', m', r) := kb_usb_synthetic_control_msg env request requesttype value data size c m in
  (r = -95 \/ r = -32 \/ r = 0) /\ (forall a, mem_byte m' a = mem_byte m a) \/
  request = USB_REQ_GET_DESCRIPTOR /\ 0 < r <= size /\
  exists hid d, select_descriptor hid (Z.land requesttype 0x1f) (u8 (Z.shiftr value 8)) (u8 (Z.land value 0xff)) = inr d /\
    r = Z.min (blen d) size /\ mload m' data (Z.to_nat r) = take (Z.to_nat r) d /\
    forall a, a < data \/ data + r <= a -> mem_byte m' a = mem_byte m a.
Proof.
  intros Hsize. unfold kb_usb_synthetic_control_msg.
  destruct (usb_event_injection_enabled env c) as [c1 inj]. destruct (negb inj); [left; by auto|].
  destruct (usb_real_device_enabled env c1) as [c2 real]. destruct real; [left; by auto|].
  destruct (_ && _); [left; by auto|]. destruct (Z.eqb_spec request USB_REQ_GET_DESCRIPTOR) as [->|]; cbn [negb]; [|left; by auto].
  destruct (usb_synthetic_hid_mouse_enabled env c2) as [c3 hid]. destruct (negb _); [left; by auto|].
  destruct (select_descriptor hid _ _ _) as [err|d] eqn:Hd.
  - left. split; [|done]. unfold select_descriptor in Hd. repeat case_match; simplify_eq; auto.
  - pose proof (copy_descriptor_spec data size d m ltac:(unfold is_u16 in Hsize; lia)) as H.
    destruct (copy_descriptor data size d m) as [m' n] eqn:Hc. destruct H as (H1 & H2 & H3 & H4 & H5).
    destruct (decide (n = 0)) as [->|Hn].
    + left. split; [by auto|]. intros a. apply H4. lia.
    + right. split; [done|]. split; [lia|]. exists hid, d. split_and!; [done| |done|done].
      apply H5. unfold copy_descriptor in Hc. destruct (synthetic_pointer_is_error_or_low data); [|done].
      cbn in Hc. by simplify_eq.
Qed.

(** A switch answers for good what it answered first, whatever happens to the
    environment. *)
Definition sticky (switch : (string -> option string) -> usb_config -> usb_config * bool) : Prop :=
  forall env env' c, let '(c1, v) := switch env c in switch env' c1 = (c1, v).

Lemma b2z_negb_eqb v : negb (Z.b2z v =? 0) = v.
Proof. by destruct v. Qed.

(** The shape all of them share. *)
Lemma cached_sticky (get : usb_config -> Z) (put : Z -> usb_config -> usb_config)
    (compute : (string -> option string) -> usb_config -> usb_config * bool) switch :
  (forall z c, get (put z c) = z) ->
  (forall env c, switch env c = if 0 <=? get c then (c, negb (get c =? 0))
     else let '(c1, v) := compute env c in (put (Z.b2z v) c1, v)) -> sticky switch.
Proof.
  intros Hget Hs env env' c. rewrite Hs. destruct (0 <=? get c) eqn:E.
  - by rewrite Hs, E.
  - destruct (compute env c) as [c1 v]. rewrite Hs, Hget.
    replace (0 <=? Z.b2z v) with true by (by destruct v). by rewrite b2z_negb_eqb.
Qed.

Theorem switches_are_sticky :
  sticky trace_usb_enabled /\ sticky trace_usb_hub_enabled /\ sticky trace_usb_control_enabled /\
  sticky trace_usb_direct_hub_enabled /\ sticky trace_usb_descriptor_enabled /\ sticky usb_hid_mouse_live_enabled /\
  sticky usb_real_device_enabled /\ sticky usb_real_root_hub_shim_enabled /\ sticky usb_pachaos_backend_active /\
  sticky usb_pachaos_fake_root_hub_enabled /\ sticky usb_hid_mouse_xhci_only_enabled /\
  sticky usb_synthetic_hid_mouse_enabled /\ sticky usb_synthetic_storage_enabled /\ sticky usb_event_injection_enabled.
Proof.
  assert (forall (get : usb_config -> Z) (put : Z -> usb_config -> usb_config) (v : (string -> option string) -> bool) switch,
    (forall z c, get (put z c) = z) ->
    (forall env c, switch env c = if 0 <=? get c then (c, negb (get c =? 0)) else (put (Z.b2z (v env)) c, v env)) ->
    sticky switch) as Simple.
  { intros get put v switch Hget Hs. by apply (cached_sticky get put (fun env c => (c, v env))). }
  split_and!.
  - by apply (Simple c_trace_usb (fun z c => c <| c_trace_usb := z |>) (fun env => env_flag_enabled env "KOBOX_TRACE_USB")).
  - by apply (Simple c_trace_hub (fun z c => c <| c_trace_hub := z |>) (fun env => env_flag_enabled env "KOBOX_TRACE_USB_HUB")).
  - by apply (Simple c_trace_control (fun z c => c <| c_trace_control := z |>) (fun env => env_flag_enabled env "KOBOX_TRACE_USB_CONTROL")).
  - by apply (Simple c_trace_direct_hub (fun z c => c <| c_trace_direct_hub := z |>) (fun env => env_flag_enabled env "KOBOX_TRACE_USB_DIRECT_HUB")).
  - by apply (Simple c_trace_descriptor (fun z c => c <| c_trace_descriptor := z |>) (fun env => env_flag_enabled env "KOBOX_TRACE_USB_DESCRIPTOR")).
  - by apply (Simple c_mouse_live (fun z c => c <| c_mouse_live := z |>) (fun env => env_flag_enabled env "KOBOX_USB_HID_MOUSE_LIVE")).
  - by apply (Simple c_real_device (fun z c => c <| c_real_device := z |>) (fun env => env_flag_enabled env "KOBOX_USB_REAL_DEVICE")).
  - by apply (Simple c_real_root_hub_shim (fun z c => c <| c_real_root_hub_shim := z |>) (fun env => env_flag_enabled env "KOBOX_USB_REAL_ROOT_HUB_SHIM")).
  - by apply (Simple c_pachaos_active (fun z c => c <| c_pachaos_active := z |>) (fun env => match env "KOBOX_DEVICE_BACKEND" with
      | Some b => (b =? "pachaos")%string || (b =? "pachaos_capsule")%string | None => false end)).
  - by apply (Simple c_fake_root_hub (fun z c => c <| c_fake_root_hub := z |>) (fun env => env_flag_enabled env "KOBOX_USB_PACHAOS_FAKE_ROOT_HUB")).
  - by apply (cached_sticky c_xhci_only (fun z c => c <| c_xhci_only := z |>) (fun env c =>
      match env "KOBOX_USB_HID_MOUSE_XHCI_ONLY" with
      | Some v => if (v =? "")%string then live_on_pachaos env c else (c, negb (v =? "0")%string)
      | None => live_on_pachaos env c end)).
  - apply (cached_sticky c_hid_mouse (fun z c => c <| c_hid_mouse := z |>) (fun env c =>
      let device := env "KOBOX_USB_SYNTHETIC_DEVICE" in
      let '(c, xhci_only) := usb_hid_mouse_xhci_only_enabled env c in
      (c, if xhci_only then false else if flag_set (env "KOBOX_USB_HID_MOUSE_SMOKE") then true
          else if flag_set (env "KOBOX_USB_HID_MOUSE_LIVE") then has "hid" device && has "mouse" device
          else has "hid" device && has "mouse" device))); [done|].
    intros env c. unfold usb_synthetic_hid_mouse_enabled. destruct (0 <=? _); [done|].
    by destruct (usb_hid_mouse_xhci_only_enabled env c) as [c1 x].
  - by apply (Simple c_storage (fun z c => c <| c_storage := z |>) (fun env =>
      flag_set (env "KOBOX_USB_STORAGE_IO_SMOKE") || flag_set (env "KOBOX_USB_STORAGE_SUMMARY") ||
      (has "storage" (env "KOBOX_USB_SYNTHETIC_DEVICE") || has "mass" (env "KOBOX_USB_SYNTHETIC_DEVICE") ||
       has "scsi" (env "KOBOX_USB_SYNTHETIC_DEVICE")))).
  - intros env env' c. unfold usb_event_injection_enabled. destruct (0 <=? c_injection c) eqn:E; [by rewrite E|].
    destruct (if env_flag_enabled _ _ then _ else _) as [c1 v]. cbn. by destruct v.
Qed.

(** ** The descriptors *)

(** Splits a configuration by the length each descriptor starts with. *)
Fixpoint split_descriptors (fuel : nat) (q : list Z) : option (list (list Z)) :=
  match fuel, q with
  | _, [] => Some []
  | O, _ => None
  | S fuel, len :: _ =>
      if (2 <=? len) && (len <=? blen q)
      then cons (take (Z.to_nat len) q) <$> split_descriptors fuel (drop (Z.to_nat len) q) else None
  end.

(** Both configurations are a configuration descriptor, one interface and as many
    endpoints as the interface announces (byte 4); the device and string
    descriptors start with their length and type, with two exceptions below. *)
Lemma configurations_well_formed :
  (exists c i e1 e2, split_descriptors 32 config_descriptor = Some [c; i; e1; e2] /\
     nth 1 c 0 = USB_DT_CONFIG /\ nth 1 i 0 = 4 /\ nth 4 i 0 = 2 /\ nth 1 e1 0 = 5 /\ nth 1 e2 0 = 5) /\
  (exists c i h e, split_descriptors 34 hid_config_descriptor = Some [c; i; h; e] /\
     nth 1 c 0 = USB_DT_CONFIG /\ nth 1 i 0 = 4 /\ nth 4 i 0 = 1 /\ nth 1 h 0 = USB_DT_HID /\ nth 1 e 0 = 5 /\
     nth 2 c 0 + 256 * nth 3 c 0 = blen hid_config_descriptor /\ nth 7 h 0 = blen hid_report_descriptor) /\
  Forall (fun d => nth 0 d 0 = blen d)
    [hid_device_descriptor; device_descriptor; qualifier_descriptor; langid_descriptor; manufacturer_descriptor;
     product_descriptor; serial_descriptor].
Proof. split_and!; [by repeat eexists|by repeat eexists|by repeat constructor]. Qed.

(** The configuration of the disk announces 33 bytes and has 32; the product string
    of the mouse announces 30 and has 28. *)
Lemma announced_lengths_wrong :
  nth 2 config_descriptor 0 + 256 * nth 3 config_descriptor 0 = 33 /\ blen config_descriptor = 32 /\
  nth 0 hid_product_descriptor 0 = 30 /\ blen hid_product_descriptor = 28.
Proof. done. Qed.

Lemma synthetic_reply_in_bounds_witness :
  let env (n : string) := if (n =? "KOBOX_ENABLE_USB_EVENT_INJECT")%string then Some "1" else None in
  let c := kb_usb_set_event_injection_runtime_allowed 1 usb_config_init in
  let '(_, m', r) := kb_usb_synthetic_control_msg env 6 0x80 0x100 0x10000 8 c ∅ in
  r = 8 /\ mload m' 0x10000 8 = take 8 device_descriptor.
Proof.
  intros env c. pose proof (synthetic_reply_in_bounds env 6 0x80 0x100 0x10000 8 c ∅ ltac:(unfold is_u16; lia)) as H.
  destruct (kb_usb_synthetic_control_msg env 6 0x80 0x100 0x10000 8 c ∅) as [[c' m'] r] eqn:E.
  assert (r = 8) as -> by (vm_compute in E; by simplify_eq).
  destruct H as [[[?|[?|?]] _]|(_ & _ & hid & d & Hd & _ & Hm & _)]; [lia..|]. split; [done|].
  change (Z.to_nat 8) with 8%nat in Hm. rewrite Hm. destruct hid; vm_compute in Hd; by simplify_eq.
Defined.
