(* ===== verification/DeferredWork.v ===== *)
(** * Deferred work (src/src/linux_personality/linux_work.c)

    kobox runs a driver on one thread: work items, tasklets and timers that the driver
    defers go to one queue, which kobox drains at the points where a kernel would have
    switched threads.  The callbacks are module code and call back into this component,
    the drain included; two counters bound the nesting (8 drains, 16 work items).

    The queue is the list from [deferred_head] along [next], with its items at the
    addresses of the item pool and [deferred_tail] kept as the code keeps it, so that
    the walk limit of 65536 items truncates the list where the code does.  Objects of
    the module (work items, tasklets, timers, jiffies variables, tasks) are memory.
    Module code is the argument [call]; what the rest of kobox and the host answer is
    [work_env].  The last section closes the recursion: a callback is a finite program
    that computes on memory and calls the functions of this file.

    Left out: tracing, the sleeping functions (they wait for interrupts), the kernel
    threads' own stacks (their scheduler is the three fields [we_kthread_*]): when
    kb_kthread_yield_current gives way to other threads, the state the caller finds when
    it runs again is not modelled, so kb_run_deferred_work is exact only for callers that
    are not kernel threads, where that function answers 0. *)

From S2P Require Import Prelude Memory ShimTable ModuleLayout.

(** ** Constants *)

Definition KB_LINUX_HZ : Z := 1000.
Definition KB_NSEC_PER_USEC : Z := 1000.
Definition KB_NSEC_PER_MSEC : Z := 1000000.
Definition KB_NSEC_PER_SEC : Z := 1000000000.
Definition KB_LINUX_WORK_DATA_OFFSET : Z := 0.
Definition KB_LINUX_WORK_FUNC_OFFSET : Z := 24.
Definition KB_LINUX_TASKLET_STATE_OFFSET : Z := 8.
Definition KB_LINUX_TASKLET_USE_CALLBACK_OFFSET : Z := 20.
Definition KB_LINUX_TASKLET_CALLBACK_OFFSET : Z := 24.
Definition KB_LINUX_TASKLET_DATA_OFFSET : Z := 32.
Definition KB_LINUX_TIMER_ENTRY_PPREV_OFFSET : Z := 8.
Definition KB_LINUX_TIMER_EXPIRES_OFFSET : Z := 16.
Definition KB_LINUX_TIMER_FUNCTION_OFFSET : Z := 24.
Definition KB_DEFERRED_DRAIN_LIMIT : nat := 1024.
Definition KB_DEFERRED_MAX_DRAIN_DEPTH : nat := 8.
Definition KB_DEFERRED_LIST_WALK_LIMIT : Z := 65536.
Definition KB_WORK_CONTEXT_MAX_DEPTH : nat := 16.
Definition KB_JIFFIES_STORAGE_MAX : nat := 64.
Definition KB_WORK_STRUCT_PENDING_BIT : Z := 0.
Definition KB_TASKLET_STATE_SCHED : Z := 0.
Definition KB_WORKQUEUE_MAGIC : Z := 0x4b42575155455545.
Definition KB_DEFERRED_BLOCK_BYTES : Z := 4096.
(** [sizeof] of the block header and of an item. *)
Definition deferred_block_header : Z := 24.
Definition deferred_item_size : Z := 64.
Definition KB_LOCAL_GS_PCPU_HOT_OFFSET : Z := 0x100.
Definition KB_LOCAL_LINUX_6_12_CURRENT_TASK_JOURNAL_INFO_OFFSET : Z := 0x930.
Definition KB_SYNTHETIC_TASK_BYTES : nat := 4096.

(** ** Data *)

Inductive kb_deferred_kind := KB_DEFERRED_WORK | KB_DEFERRED_TASKLET | KB_DEFERRED_TIMER.
#[export] Instance kb_deferred_kind_eq_dec : EqDecision kb_deferred_kind.
Proof. solve_decision. Defined.

Definition KB_WORK_RUN_RETRY : Z := -1.
Definition KB_WORK_RUN_SKIPPED : Z := 0.
Definition KB_WORK_RUN_EXECUTED : Z := 1.

(** An item of the queue with its address; [next] is the list it is in. *)
Record kb_deferred_item := mk_item {
  di_addr : Z;
  di_kind : kb_deferred_kind;
  di_object : Z;
  di_workqueue : Z;
  di_sequence : Z;
  di_due_ns : Z;
  di_backend : Z;
  di_kernel_gs : Z;
}.
#[export] Instance kb_deferred_item_eta : Settable kb_deferred_item := fun r =>
  mk_item (di_addr r) (di_kind r) (di_object r) (di_workqueue r) (di_sequence r) (di_due_ns r)
    (di_backend r) (di_kernel_gs r).

Record kb_workqueue := mk_workqueue {
  wq_addr : Z;
  wq_magic : Z;
  wq_flags : Z;
  wq_max_active : Z;
  wq_destroying : bool;
}.
#[export] Instance kb_workqueue_eta : Settable kb_workqueue := fun r =>
  mk_workqueue (wq_addr r) (wq_magic r) (wq_flags r) (wq_max_active r) (wq_destroying r).

(** A block of items: its address, capacity and how many items were handed out. *)
Record kb_deferred_item_block := mk_block { bk_addr : Z; bk_capacity : Z; bk_used : Z }.

Record work_state := mk_work_state {
  deferred : list kb_deferred_item;         (* from deferred_head *)
  deferred_tail : Z;                        (* 0 is NULL *)
  deferred_free_list : list Z;
  deferred_blocks : list kb_deferred_item_block;
  workqueues : list kb_workqueue;
  deferred_sequence : Z;
  draining_deferred_depth : nat;
  time_base_ns : Z;
  linux_jiffies : Z;
  jiffies_storages : list Z;
  worker_tasks : list Z;
  active_work_stack : list Z;
  worker_task_poisoned : list bool;
  active_work_depth : nat;
  (* linux_context.c and module_loader.c: what the running code belongs to *)
  wk_backend : Z;
  wk_gs : Z;
  wk_current_task : Z;                      (* kb_published_current_task *)
  wk_active_module : Z;
  (* the address space, the readings of the clock, blocks and tasks asked for so far *)
  wk_mem : mem;
  wk_clock_reads : nat;
  wk_blocks_asked : nat;
  wk_tasks_asked : nat;
  (* the callbacks run so far: what for, the function and its argument, oldest first *)
  wk_calls : list (kb_deferred_kind * Z * Z);
  (* the items queued so far; unlike the sequence number it does not wrap *)
  wk_queued : Z;
}.
#[export] Instance work_state_eta : Settable work_state := fun r =>
  mk_work_state (deferred r) (deferred_tail r) (deferred_free_list r) (deferred_blocks r) (workqueues r)
    (deferred_sequence r) (draining_deferred_depth r) (time_base_ns r) (linux_jiffies r) (jiffies_storages r)
    (worker_tasks r) (active_work_stack r) (worker_task_poisoned r) (active_work_depth r)
    (wk_backend r) (wk_gs r) (wk_current_task r) (wk_active_module r)
    (wk_mem r) (wk_clock_reads r) (wk_blocks_asked r) (wk_tasks_asked r) (wk_calls r) (wk_queued r).

(** The static variables at program start, with memory [m]. *)
Definition work_state_init (m : mem) : work_state :=
  mk_work_state [] 0 [] [] [] 0 0 0 0 (replicate KB_JIFFIES_STORAGE_MAX 0)
    (replicate KB_WORK_CONTEXT_MAX_DEPTH 0) (replicate KB_WORK_CONTEXT_MAX_DEPTH 0)
    (replicate KB_WORK_CONTEXT_MAX_DEPTH false) 0 0 0 0 0 m 0 0 0 [] 0.

(** The outcome of code that runs module code: [Broken] uses freed memory, [Endless]
    is a nesting of callbacks deeper than the fuel given to it. *)
Inductive run (A : Type) := Returns (a : A) | Broken | Endless.
Arguments Returns {A} _.
Arguments Broken {A}.
Arguments Endless {A}.
#[export] Instance run_ret : MRet run := fun A a => Returns a.
#[export] Instance run_bind : MBind run := fun A B k m =>
  match m with Returns a => k a | Broken => Broken | Endless => Endless end.

Record work_env := mk_work_env {
  we_loaded : loaded_modules;               (* kb_loaded_modules *)
  we_monotonic_ns : nat -> Z;               (* monotonic_ns(), one reading after the other *)
  we_mmap : nat -> Z;                       (* the blocks mmap returns, 0 for MAP_FAILED *)
  we_calloc_task : nat -> Z;                (* the tasks calloc returns, 0 for NULL *)
  we_template_task : Z;                     (* the task new ones are copied from *)
  we_shared_task : Z;                       (* shared_current_task() *)
  we_set_gs : Z -> bool;                    (* arch_prctl(ARCH_SET_GS, gs) succeeds *)
  we_poll_rh_status : Z;                    (* the export usb_hcd_poll_rh_status *)
  we_root_hub_poll_needed : work_state -> bool;
  we_kthread_yield : work_state -> bool;    (* kb_kthread_yield_current() *)
  we_kthread_runnable : work_state -> bool; (* kb_kthread_has_runnable() *)
  we_kthread_run_ready : work_state -> run work_state;
}.

(** ** Time *)

Definition jiffies_to_ns (jiffies : Z) : Z := u64 (jiffies * KB_NSEC_PER_SEC) / KB_LINUX_HZ.

(** [ULONG_MAX] is [UINT64_MAX]: the last comparison never holds. *)
Definition ns_to_jiffies_ceil (ns : Z) : Z :=
  if ns =? 0 then 0
  else
    let jiffies := u64 (u64 (ns * KB_LINUX_HZ) + KB_NSEC_PER_SEC - 1) / KB_NSEC_PER_SEC in
    if jiffies =? 0 then 1 else jiffies.

Definition kb_msecs_to_jiffies (msecs : Z) : Z := ns_to_jiffies_ceil (u64 (msecs * KB_NSEC_PER_MSEC)).
Definition kb_usecs_to_jiffies (usecs : Z) : Z := ns_to_jiffies_ceil (u64 (usecs * KB_NSEC_PER_USEC)).
Definition kb_round_jiffies_up (jiffies : Z) : Z := jiffies.
Definition kb_jiffies_to_msecs (jiffies : Z) : Z :=
  let msecs := u64 (jiffies_to_ns jiffies + KB_NSEC_PER_MSEC - 1) / KB_NSEC_PER_MSEC in
  if UINT32_MAX <? msecs then UINT32_MAX else msecs.
Definition kb_jiffies_to_usecs (jiffies : Z) : Z :=
  let usecs := u64 (jiffies_to_ns jiffies + KB_NSEC_PER_USEC - 1) / KB_NSEC_PER_USEC in
  if UINT32_MAX <? usecs then UINT32_MAX else usecs.

Definition write_timespec64 (out ns : Z) (m : mem) : mem :=
  if out =? 0 then m
  else mstore64 (mstore64 m out (ns / KB_NSEC_PER_SEC)) (out + 8) (ns mod KB_NSEC_PER_SEC).
Definition kb_jiffies_to_timespec64 (jiffies timespec64 : Z) (m : mem) : mem :=
  write_timespec64 timespec64 (jiffies_to_ns jiffies) m.

(** ** Memory of the module *)

Definition read_pointer (m : mem) (base offset : Z) : Z := if base =? 0 then 0 else mload64 m (base + offset).
Definition write_pointer (base offset value : Z) (m : mem) : mem :=
  if base =? 0 then m else mstore64 m (base + offset) value.
Definition read_ulong (m : mem) (base offset : Z) : Z := if base =? 0 then 0 else mload64 m (base + offset).
Definition write_ulong (base offset value : Z) (m : mem) : mem :=
  if base =? 0 then m else mstore64 m (base + offset) value.

Definition read_work_data (m : mem) (work : Z) : Z := read_ulong m work KB_LINUX_WORK_DATA_OFFSET.
Definition write_work_data (work data : Z) (m : mem) : mem := write_ulong work KB_LINUX_WORK_DATA_OFFSET data m.
Definition work_pending (work : Z) (s : work_state) : bool :=
  negb (Z.land (read_work_data (wk_mem s) work) (Z.shiftl 1 KB_WORK_STRUCT_PENDING_BIT) =? 0).
Definition set_work_pending (work : Z) (s : work_state) : work_state :=
  s <| wk_mem ::= fun m =>
         write_work_data work (Z.lor (read_work_data m work) (Z.shiftl 1 KB_WORK_STRUCT_PENDING_BIT)) m |>.
Definition clear_work_pending (work : Z) (s : work_state) : work_state :=
  s <| wk_mem ::= fun m =>
         write_work_data work (Z.ldiff (read_work_data m work) (Z.shiftl 1 KB_WORK_STRUCT_PENDING_BIT)) m |>.

(** ** Code of the module that is not work *)

(** [n] single-byte nops at most. *)
Fixpoint skip_nops (n : nat) (m : mem) (code : Z) : Z :=
  match n with
  | O => code
  | S n => if mem_byte m code =? 0x90 then skip_nops n m (code + 1) else code
  end.
Definition at_endbr64 (m : mem) (code : Z) : bool := bool_decide (mload m code 4 = [0xf3; 0x0f; 0x1e; 0xfa]).

Definition is_usb_lpm_work_function (m : mem) (func : Z) : bool :=
  if func =? 0 then false
  else
    let code := if at_endbr64 m func then func + 4 else func in
    let code := if mem_byte m code =? 0xe8 then code + 5 else code in
    let code := skip_nops 8 m code in
    let code := if mem_byte m code =? 0x55 then code + 1 else code in
    if negb (bool_decide (mload m code 7 = [0x48; 0x81; 0xef; 0x68; 0x01; 0x00; 0x00])) then false
    else
      let code := code + 7 in
      if negb (mem_byte m code =? 0xbe) || negb (mem_byte m (code + 2) =? 0) ||
         negb (mem_byte m (code + 3) =? 0) || negb (mem_byte m (code + 4) =? 0)
      then false
      else (1 <=? mem_byte m (code + 1)) && (mem_byte m (code + 1) <=? 4).

Fixpoint skip_prefix_passes (passes : nat) (m : mem) (code : Z) : Z :=
  match passes with
  | O => code
  | S passes =>
      let code := skip_nops 16 m code in
      if at_endbr64 m code then skip_prefix_passes passes m (code + 4)
      else if mem_byte m code =? 0xe8 then skip_prefix_passes passes m (code + 5)
      else code
  end.
Definition skip_linux_function_entry_prefix (m : mem) (code : Z) : Z :=
  if code =? 0 then 0 else skip_prefix_passes 3 m code.

Definition test_rsi_rsi : list Z := [0x48; 0x85; 0xf6].
Definition is_obviously_not_work_function (m : mem) (func : Z) : bool :=
  if func =? 0 then true
  else if bool_decide (mload m (func + 16 + 4 + 5) 3 = test_rsi_rsi) then true
  else
    let code := skip_linux_function_entry_prefix m func in
    if code =? 0 then true else bool_decide (mload m code 3 = test_rsi_rsi).

(** ** The queue *)

Definition walk_limit : nat := Z.to_nat KB_DEFERRED_LIST_WALK_LIMIT.

(** The list up to the walk limit; the rest is cut off. *)
Definition refresh_deferred_tail (s : work_state) : work_state :=
  let l := take walk_limit (deferred s) in
  s <| deferred := l |> <| deferred_tail := default 0 (di_addr <$> last l) |>.
Definition repair_deferred_tail (s : work_state) : work_state := refresh_deferred_tail s.

Definition item_is (kind : kb_deferred_kind) (object : Z) (item : kb_deferred_item) : bool :=
  bool_decide (di_kind item = kind) && (di_object item =? object).

(** The walk that [deferred_contains] and [find_deferred] make. *)
Definition find_deferred (kind : kb_deferred_kind) (object : Z) (s : work_state) : work_state * option nat :=
  match first_index (item_is kind object) (take walk_limit (deferred s)) with
  | Some i => (s, Some i)
  | None =>
      if KB_DEFERRED_LIST_WALK_LIMIT <? Z.of_nat (length (deferred s)) then (repair_deferred_tail s, None)
      else (s, None)
  end.
Definition deferred_contains (kind : kb_deferred_kind) (object : Z) (s : work_state) : work_state * bool :=
  let '(s, found) := find_deferred kind object s in (s, bool_decide (is_Some found)).

Definition work_is_active (work : Z) (s : work_state) : bool :=
  existsb (Z.eqb work) (take (active_work_depth s) (active_work_stack s)).

(** ** The item pool *)

Section pool.
Context (env : work_env).

(** Whether there is a new block, at the head of the list. *)
Definition allocate_deferred_block (s : work_state) : work_state * bool :=
  let addr := we_mmap env (wk_blocks_asked s) in
  let s := s <| wk_blocks_asked ::= S |> in
  if addr =? 0 then (s, false)
  else (s <| deferred_blocks ::= cons (mk_block addr ((KB_DEFERRED_BLOCK_BYTES - deferred_block_header) / deferred_item_size) 0) |>, true).

Definition block_has_room (s : work_state) : bool :=
  match deferred_blocks s with
  | b :: _ => bk_used b <? bk_capacity b
  | [] => false
  end.

(** Hands out the next item of the first block. *)
Definition take_block_item (s : work_state) : work_state * option Z :=
  match deferred_blocks s with
  | b :: bs =>
      if bk_used b <? bk_capacity b
      then (s <| deferred_blocks := mk_block (bk_addr b) (bk_capacity b) (bk_used b + 1) :: bs |>,
            Some (bk_addr b + deferred_block_header + deferred_item_size * bk_used b))
      else (s, None)
  | [] => (s, None)
  end.

Definition allocate_deferred_item (s : work_state) : work_state * option Z :=
  match deferred_free_list s with
  | item :: free => (s <| deferred_free_list := free |>, Some item)
  | [] =>
      if block_has_room s then take_block_item s
      else
        let '(s, ok) := allocate_deferred_block s in
        if ok then take_block_item s else (s, None)
  end.

Definition release_deferred_item (item : kb_deferred_item) (s : work_state) : work_state :=
  s <| deferred_free_list ::= cons (di_addr item) |>.

Definition prepend_deferred_item (item : kb_deferred_item) (s : work_state) : work_state :=
  let s := s <| deferred ::= cons item |> in
  if deferred_tail s =? 0 then s <| deferred_tail := di_addr item |> else s.

Definition remove_deferred (kind : kb_deferred_kind) (object : Z) (s : work_state) : work_state * bool :=
  let removed := filter (fun i => item_is kind object i = true) (deferred s) in
  let s := s <| deferred ::= filter (fun i => item_is kind object i = false) |> in
  let s := foldl (fun s i => release_deferred_item i s) s removed in
  (refresh_deferred_tail s, negb (bool_decide (removed = []))).

(** Unlinks the first item [test] accepts. *)
Definition unlink_item (test : kb_deferred_item -> bool) (s : work_state) : work_state * option kb_deferred_item :=
  match first_index test (deferred s) with
  | None => (s, None)
  | Some i =>
      match deferred s !! i with
      | None => (s, None)
      | Some item =>
          let s := s <| deferred ::= delete i |> in
          (if deferred_tail s =? di_addr item then refresh_deferred_tail s else s, Some item)
      end
  end.

(** ** The clock *)

Definition monotonic_ns (s : work_state) : work_state * Z :=
  (s <| wk_clock_reads ::= S |>, we_monotonic_ns env (wk_clock_reads s)).

Definition elapsed_ns (s : work_state) : work_state * Z :=
  let '(s, now) := monotonic_ns s in
  if (time_base_ns s =? 0) || (now <? time_base_ns s) then (s <| time_base_ns := now |>, 0)
  else (s, now - time_base_ns s).

(** [jiffies > ULONG_MAX] never holds. *)
Definition elapsed_jiffies (s : work_state) : work_state * Z :=
  let '(s, ns) := elapsed_ns s in (s, u64 (ns * KB_LINUX_HZ) / KB_NSEC_PER_SEC).

Definition store_jiffies (jiffies : Z) (m : mem) (storage : Z) : mem :=
  if storage =? 0 then m else mstore64 m storage jiffies.
Definition refresh_linux_jiffies (s : work_state) : work_state :=
  let '(s, jiffies) := elapsed_jiffies s in
  s <| linux_jiffies := jiffies |> <| wk_mem ::= fun m => foldl (store_jiffies jiffies) m (jiffies_storages s) |>.

Definition kb_register_jiffies_storage (storage : Z) (s : work_state) : work_state :=
  if storage =? 0 then s
  else if existsb (Z.eqb storage) (jiffies_storages s) then refresh_linux_jiffies s
  else
    refresh_linux_jiffies
      match first_index (Z.eqb 0) (jiffies_storages s) with
      | Some i => s <| jiffies_storages ::= insert i storage |>
      | None => s
      end.

(** ** Taking items from the queue *)

Definition is_due (now_ns : Z) (item : kb_deferred_item) : bool := (di_due_ns item =? 0) || (di_due_ns item <=? now_ns).
Definition is_work (item : kb_deferred_item) : bool := bool_decide (di_kind item = KB_DEFERRED_WORK).

Definition take_deferred_work (object : Z) (require_due : bool) (s : work_state) : work_state * option kb_deferred_item :=
  if (object =? 0) || work_is_active object s then (s, None)
  else
    let '(s, now_ns) := elapsed_ns s in
    unlink_item (fun item => item_is KB_DEFERRED_WORK object item && (negb require_due || is_due now_ns item)) s.

Definition pop_due_deferred_at (include_work : bool) (now_ns : Z) (s : work_state) : work_state * option kb_deferred_item :=
  unlink_item (fun item =>
    (include_work || negb (is_work item)) &&
    (negb (is_work item) || negb (work_is_active (di_object item) s)) && is_due now_ns item) s.

Definition pop_due_deferred (include_work : bool) (s : work_state) : work_state * option kb_deferred_item :=
  let '(s, now_ns) := elapsed_ns s in pop_due_deferred_at include_work now_ns s.

Definition pop_workqueue_deferred (workqueue through_sequence : Z) (s : work_state) : work_state * option kb_deferred_item :=
  unlink_item (fun item =>
    is_work item && (di_workqueue item =? workqueue) && negb (work_is_active (di_object item) s) &&
    (di_sequence item <=? through_sequence)) s.

Definition queue_deferred (kind : kb_deferred_kind) (object workqueue due_ns : Z) (s : work_state) : work_state * bool :=
  if object =? 0 then (s, false)
  else
    let '(s, found) := deferred_contains kind object s in
    if found then (s, false)
    else
      match allocate_deferred_item s with
      | (s, None) => (s, false)
      | (s, Some addr) =>
          let sequence := u64 (deferred_sequence s + 1) in
          let sequence := if sequence =? 0 then 1 else sequence in
          let item := mk_item addr kind object workqueue sequence due_ns (wk_backend s) (wk_gs s) in
          let s := refresh_deferred_tail (s <| deferred_sequence := sequence |> <| wk_queued ::= Z.succ |>) in
          (s <| deferred ::= fun l => l ++ [item] |> <| deferred_tail := addr |>, true)
      end.
End pool.

(** ** Running callbacks *)

Section engine.
Context (env : work_env).
(** Module code: the function at an address, called with one argument. *)
Context (call : Z -> Z -> work_state -> run work_state).

Definition call_callback (kind : kb_deferred_kind) (func arg : Z) (s : work_state) : run work_state :=
  call func arg (s <| wk_calls ::= fun l => l ++ [(kind, func, arg)] |>).

Definition callback_kernel_gs (callback fallback_gs : Z) : Z :=
  let kernel_gs := kb_module_kernel_gs_for_address (we_loaded env) callback in
  if kernel_gs =? 0 then fallback_gs else kernel_gs.

(** The new state and whether the base was switched. *)
Definition enter_callback_gs (kernel_gs : Z) (s : work_state) : work_state * bool :=
  if kernel_gs =? 0 then (s, false)
  else if we_set_gs env kernel_gs then (s <| wk_gs := kernel_gs |>, true) else (s, false).
Definition leave_callback_gs (has_gs : bool) (old_gs : Z) (s : work_state) : work_state :=
  if has_gs then s <| wk_gs := old_gs |> else s.

Definition is_usb_root_hub_poll_function (func : Z) : bool :=
  negb (we_poll_rh_status env =? 0) && (func =? we_poll_rh_status env).

Definition work_function_usable (func : Z) (s : work_state) : bool :=
  if func =? 0 then false
  else if negb (kb_module_is_executable_address (we_loaded env) func) then false
  else negb (is_obviously_not_work_function (wk_mem s) func).

(** *** Tasks (module_loader.c) *)

Definition kb_loader_task_journal_info (task : Z) (s : work_state) : Z :=
  if task =? 0 then 0
  else mload64 (wk_mem s) (task + KB_LOCAL_LINUX_6_12_CURRENT_TASK_JOURNAL_INFO_OFFSET).

Definition kb_loader_current_task (s : work_state) : work_state * Z :=
  let s := if wk_current_task s =? 0 then s <| wk_current_task := we_shared_task env |> else s in
  (s, wk_current_task s).

Definition publish_task (task : Z) (m : mem) (p : Z * kb_module) : mem :=
  mstore64 m (ms_kernel_gs (m_stubs p.2) + KB_LOCAL_GS_PCPU_HOT_OFFSET) task.
Definition kb_loader_set_current_task_for_all_modules (task : Z) (s : work_state) : work_state :=
  let task := if task =? 0 then we_shared_task env else task in
  s <| wk_current_task := task |> <| wk_mem ::= fun m => foldl (publish_task task) m (we_loaded env) |>.

Definition kb_loader_clone_execution_task (s : work_state) : work_state * Z :=
  let task := we_calloc_task env (wk_tasks_asked s) in
  let s := s <| wk_tasks_asked ::= S |> in
  if (task =? 0) || (we_template_task env =? 0) then (s, 0)
  else
    (s <| wk_mem ::= fun m =>
       let m := mstore m task (mload m (we_template_task env) KB_SYNTHETIC_TASK_BYTES) in
       let m := mzero m (task + KB_LOCAL_LINUX_6_12_CURRENT_TASK_JOURNAL_INFO_OFFSET) 8 in
       mstore64 m (task + 0x950) (task + 0x9b8) |>, task).

(** *** One callback of each kind *)

(** The task of the context at [depth], made on first use. *)
Definition worker_task_at (depth : nat) (s : work_state) : work_state * Z :=
  let task := nth depth (worker_tasks s) 0 in
  if task =? 0 then
    let '(s, task) := kb_loader_clone_execution_task s in (s <| worker_tasks ::= insert depth task |>, task)
  else (s, task).

(** From the switch to the worker's task to the switch back. *)
Definition run_in_worker (depth : nat) (worker_task work func kernel_gs : Z) (s : work_state) : run (work_state * Z) :=
  let '(s, previous_task) := kb_loader_current_task s in
  let previous_journal := kb_loader_task_journal_info previous_task s in
  let previous_module := wk_active_module s in
  let callback_module :=
    match kb_module_find_owner_for_address (we_loaded env) func with Some (p, _) => p | None => 0 end in
  let s := s <| active_work_stack ::= insert depth work |> <| active_work_depth ::= S |> in
  let s := kb_loader_set_current_task_for_all_modules worker_task s <| wk_active_module := callback_module |> in
  let old_gs := wk_gs s in
  let '(s, has_gs) := enter_callback_gs kernel_gs s in
  let back (s : work_state) :=
    kb_loader_set_current_task_for_all_modules previous_task (s <| wk_active_module := previous_module |>)
      <| active_work_depth ::= Nat.pred |> <| active_work_stack ::= insert depth 0 |> in
  if negb (kernel_gs =? 0) && negb has_gs then Returns (set_work_pending work (back s), KB_WORK_RUN_RETRY)
  else
    s ← call_callback KB_DEFERRED_WORK func work s;
    let s := leave_callback_gs has_gs old_gs s in
    let worker_journal_after := kb_loader_task_journal_info worker_task s in
    let s := back s in
    if negb (worker_journal_after =? 0) || negb (kb_loader_task_journal_info previous_task s =? previous_journal)
    then Returns (s <| worker_task_poisoned ::= insert depth true |>, KB_WORK_RUN_EXECUTED)
    else Returns (s, KB_WORK_RUN_EXECUTED).

Definition run_work (work fallback_gs : Z) (s : work_state) : run (work_state * Z) :=
  if work =? 0 then Returns (s, 0)
  else
    let func := read_pointer (wk_mem s) work KB_LINUX_WORK_FUNC_OFFSET in
    let depth := active_work_depth s in
    if negb (work_function_usable func s) then Returns (clear_work_pending work s, 0)
    else if work_is_active work s then Returns (s, KB_WORK_RUN_RETRY)
    else if (KB_WORK_CONTEXT_MAX_DEPTH <=? depth)%nat then Returns (s, KB_WORK_RUN_RETRY)
    else if nth depth (worker_task_poisoned s) false then Returns (s, KB_WORK_RUN_RETRY)
    else
      let '(s, worker_task) := worker_task_at depth s in
      if worker_task =? 0 then Returns (s, KB_WORK_RUN_RETRY)
      else if negb (kb_loader_task_journal_info worker_task s =? 0)
      then Returns (s <| worker_task_poisoned ::= insert depth true |>, KB_WORK_RUN_RETRY)
      else
        let s := clear_work_pending work s in
        if is_usb_lpm_work_function (wk_mem s) func then Returns (s, 1)
        else if negb (we_root_hub_poll_needed env s) && is_usb_root_hub_poll_function func then Returns (s, 1)
        else run_in_worker depth worker_task work func (callback_kernel_gs func fallback_gs) s.

(** A callback that is not work: only the GS base is switched. *)
Definition run_switched (kind : kb_deferred_kind) (callback arg fallback_gs : Z) (s : work_state) : run work_state :=
  let old_gs := wk_gs s in
  let '(s, has_gs) := enter_callback_gs (callback_kernel_gs callback fallback_gs) s in
  s ← call_callback kind callback arg s;
  Returns (leave_callback_gs has_gs old_gs s).

Definition run_timer (timer fallback_gs : Z) (s : work_state) : run (work_state * Z) :=
  if timer =? 0 then Returns (s, 0)
  else
    let callback := read_pointer (wk_mem s) timer KB_LINUX_TIMER_FUNCTION_OFFSET in
    if callback =? 0 then Returns (s, 0)
    else if negb (kb_module_is_executable_address (we_loaded env) callback) then Returns (s, 0)
    else s ← run_switched KB_DEFERRED_TIMER callback timer fallback_gs s; Returns (s, 1).

Definition run_tasklet (tasklet fallback_gs : Z) (s : work_state) : run (work_state * Z) :=
  if tasklet =? 0 then Returns (s, 0)
  else
    let state := Z.ldiff (read_ulong (wk_mem s) tasklet KB_LINUX_TASKLET_STATE_OFFSET) (Z.shiftl 1 KB_TASKLET_STATE_SCHED) in
    let s := s <| wk_mem ::= write_ulong tasklet KB_LINUX_TASKLET_STATE_OFFSET state |> in
    let use_callback := mem_byte (wk_mem s) (tasklet + KB_LINUX_TASKLET_USE_CALLBACK_OFFSET) in
    let callback := read_pointer (wk_mem s) tasklet KB_LINUX_TASKLET_CALLBACK_OFFSET in
    if negb (use_callback =? 0) && negb (callback =? 0) then
      if negb (kb_module_is_executable_address (we_loaded env) callback) then Returns (s, 0)
      else s ← run_switched KB_DEFERRED_TASKLET callback tasklet fallback_gs s; Returns (s, 1)
    else
      let data := mload64 (wk_mem s) (tasklet + KB_LINUX_TASKLET_DATA_OFFSET) in
      if callback =? 0 then Returns (s, 0)
      else if negb (kb_module_is_executable_address (we_loaded env) callback) then Returns (s, 0)
      else s ← run_switched KB_DEFERRED_TASKLET callback data fallback_gs s; Returns (s, 1).

(** *** Draining *)

(** An item taken from the queue is run in the context it was queued in, and given back
    to the pool unless it must be tried again; the result says whether it was. *)
Definition run_item (item : kb_deferred_item) (s : work_state) : run (work_state * bool) :=
  let old_backend := wk_backend s in
  let s := refresh_linux_jiffies env (s <| wk_backend := di_backend item |>) in
  '(s, run_result) ←
    match di_kind item with
    | KB_DEFERRED_WORK => run_work (di_object item) (di_kernel_gs item) s
    | KB_DEFERRED_TASKLET => '(s, _) ← run_tasklet (di_object item) (di_kernel_gs item) s; Returns (s, KB_WORK_RUN_EXECUTED)
    | KB_DEFERRED_TIMER => '(s, _) ← run_timer (di_object item) (di_kernel_gs item) s; Returns (s, KB_WORK_RUN_EXECUTED)
    end;
  let s := refresh_linux_jiffies env s <| wk_backend := old_backend |> in
  if run_result =? KB_WORK_RUN_RETRY then Returns (prepend_deferred_item item s, false)
  else Returns (release_deferred_item item s, true).

Fixpoint drain (limit : nat) (pop : work_state -> work_state * option kb_deferred_item) (s : work_state) : run work_state :=
  match limit with
  | O => Returns s
  | S limit =>
      match pop s with
      | (s, None) => Returns s
      | (s, Some item) => '(s, again) ← run_item item s; if (again : bool) then drain limit pop s else Returns s
      end
  end.

(** The first item is chosen at the time [initial_now], if there is one. *)
Definition run_deferred_items_body (include_work : bool) (initial_now : option Z) (s : work_state) : run work_state :=
  match initial_now with
  | None => drain KB_DEFERRED_DRAIN_LIMIT (pop_due_deferred env include_work) s
  | Some now_ns =>
      match pop_due_deferred_at include_work now_ns s with
      | (s, None) => Returns s
      | (s, Some item) =>
          '(s, again) ← run_item item s;
          if (again : bool) then drain (Nat.pred KB_DEFERRED_DRAIN_LIMIT) (pop_due_deferred env include_work) s
          else Returns s
      end
  end.

Definition run_deferred_items (include_work : bool) (s : work_state) : run work_state :=
  if (KB_DEFERRED_MAX_DRAIN_DEPTH <=? draining_deferred_depth s)%nat then Returns s
  else
    s ← run_deferred_items_body include_work None (s <| draining_deferred_depth ::= S |>);
    Returns (s <| draining_deferred_depth ::= Nat.pred |>).

Definition queue_empty (s : work_state) : bool := bool_decide (deferred s = []).

Definition kb_run_deferred_work (s : work_state) : run work_state :=
  if we_kthread_yield env s then Returns s
  else
    let no_deferred := queue_empty s in
    let has_runnable := no_deferred && we_kthread_runnable env s in
    if no_deferred && negb has_runnable then
      if (draining_deferred_depth s <? KB_DEFERRED_MAX_DRAIN_DEPTH)%nat then
        let s := s <| draining_deferred_depth ::= S |> in
        let '(s, now_ns) := elapsed_ns env s in
        let recheck_deferred := negb (queue_empty s) in
        let recheck_runnable := negb recheck_deferred && we_kthread_runnable env s in
        if recheck_deferred || recheck_runnable then
          s ← run_deferred_items_body true (Some now_ns) s;
          we_kthread_run_ready env (s <| draining_deferred_depth ::= Nat.pred |>)
        else Returns (s <| draining_deferred_depth ::= Nat.pred |>)
      else Returns s
    else
      s ← we_kthread_run_ready env s;
      s ← run_deferred_items true s;
      we_kthread_run_ready env s.

Definition kb_run_deferred_bottom_halves (s : work_state) : run work_state := run_deferred_items false s.
Definition kb_deferred_work_is_draining (s : work_state) : bool := negb (draining_deferred_depth s =? 0)%nat.

(** *** Work queues *)

Definition find_workqueue (workqueue : Z) (s : work_state) : option kb_workqueue :=
  snd <$> list_find (fun r => wq_addr r = workqueue /\ wq_magic r = KB_WORKQUEUE_MAGIC) (workqueues s).

(** [record] is what kb_kzalloc returned. *)
Definition kb_alloc_workqueue (record flags max_active : Z) (s : work_state) : work_state * Z :=
  if record =? 0 then (s, 0)
  else (s <| workqueues ::= cons (mk_workqueue record KB_WORKQUEUE_MAGIC flags max_active false) |>, record).

Definition kb_flush_workqueue (workqueue : Z) (s : work_state) : run work_state :=
  let through_sequence := deferred_sequence s in
  if (8 <=? draining_deferred_depth s)%nat then Returns s
  else
    s ← drain KB_DEFERRED_DRAIN_LIMIT (pop_workqueue_deferred workqueue through_sequence)
          (s <| draining_deferred_depth ::= S |>);
    Returns (s <| draining_deferred_depth ::= Nat.pred |>).

(** The records before and after the one at [workqueue]. *)
Definition split_workqueue (workqueue : Z) (s : work_state) : option (list kb_workqueue * kb_workqueue * list kb_workqueue) :=
  match first_index (fun r => wq_addr r =? workqueue) (workqueues s) with
  | Some i => match workqueues s !! i with
              | Some r => Some (take i (workqueues s), r, drop (S i) (workqueues s))
              | None => None
              end
  | None => None
  end.

Definition set_destroying (workqueue : Z) (flag : bool) (s : work_state) : work_state :=
  s <| workqueues ::= fmap (fun r => if wq_addr r =? workqueue then r <| wq_destroying := flag |> else r) |>.

(** [*cursor = record->next]: the cursor is the [next] of the record that was before it
    when the flush began, or the head of the list, and is not looked up again. *)
Definition unlink_at_cursor (before : option kb_workqueue) (workqueue : Z) (s : work_state) : run work_state :=
  match split_workqueue workqueue s with
  | None => Broken
  | Some (_, _, rest) =>
      match before with
      | None => Returns (s <| workqueues := rest |>)
      | Some p =>
          match split_workqueue (wq_addr p) s with
          | None => Broken
          | Some (above, p, _) => Returns (s <| workqueues := above ++ p :: rest |>)
          end
      end
  end.

Definition work_queued_on (workqueue : Z) (s : work_state) : bool :=
  existsb (fun item => is_work item && (di_workqueue item =? workqueue)) (deferred s).

Definition kb_destroy_workqueue (workqueue : Z) (s : work_state) : run work_state :=
  match split_workqueue workqueue s with
  | None => Returns s
  | Some (before, record, _) =>
      if negb (wq_magic record =? KB_WORKQUEUE_MAGIC) then Returns s
      else
        s ← kb_flush_workqueue workqueue (set_destroying workqueue true s);
        if work_queued_on workqueue s then Returns (set_destroying workqueue false s)
        else unlink_at_cursor (last before) workqueue s
  end.

Definition workqueue_destroying (wq : Z) (s : work_state) : bool :=
  match find_workqueue wq s with Some record => wq_destroying record | None => false end.

(** *** Work *)

(** A pending bit that is set although the work is not queued is stale. *)
Definition pending_and_queued (work : Z) (s : work_state) : work_state * bool :=
  if work_pending work s then
    let '(s, found) := deferred_contains KB_DEFERRED_WORK work s in
    if found then (s, true) else (clear_work_pending work s, false)
  else (s, false).

Definition kb_queue_work_on (wq work : Z) (s : work_state) : work_state * Z :=
  if workqueue_destroying wq s then (s, 0)
  else if work =? 0 then (s, 0)
  else
    let func := read_pointer (wk_mem s) work KB_LINUX_WORK_FUNC_OFFSET in
    if negb (work_function_usable func s) then (clear_work_pending work s, 0)
    else
      let '(s, queued) := pending_and_queued work s in
      if queued then (s, 0)
      else
        let s := set_work_pending work s in
        let '(s, ok) := queue_deferred env KB_DEFERRED_WORK work wq 0 s in
        if (ok : bool) then (s, 1) else (clear_work_pending work s, 0).

Definition kb_kblockd_schedule_work (work : Z) (s : work_state) : work_state * Z := kb_queue_work_on 0 work s.

Definition kb_queue_delayed_work_on (wq dwork delay : Z) (s : work_state) : work_state * Z :=
  if workqueue_destroying wq s then (s, 0)
  else if dwork =? 0 then (s, 0)
  else
    let func := read_pointer (wk_mem s) dwork KB_LINUX_WORK_FUNC_OFFSET in
    if negb (work_function_usable func s) then (clear_work_pending dwork s, 0)
    else
      let '(s, queued) := pending_and_queued dwork s in
      if queued then (s, 0)
      else
        let s := set_work_pending dwork s in
        let '(s, due_ns) :=
          if delay =? 0 then (s, 0)
          else let '(s, now) := elapsed_ns env s in (s, u64 (now + jiffies_to_ns delay)) in
        let '(s, ok) := queue_deferred env KB_DEFERRED_WORK dwork wq due_ns s in
        if (ok : bool) then (s, 1) else (clear_work_pending dwork s, 0).

Definition kb_mod_delayed_work_on (wq dwork delay : Z) (s : work_state) : work_state * Z :=
  let '(s, _) := remove_deferred KB_DEFERRED_WORK dwork s in
  kb_queue_delayed_work_on wq dwork delay (clear_work_pending dwork s).

(** Both flushes: run the work now if it is queued (and due, for [kb_flush_work]).  No
    jiffies are refreshed here. *)
Definition flush_one (work : Z) (require_due : bool) (s : work_state) : run (work_state * Z) :=
  match take_deferred_work env work require_due s with
  | (s, None) => Returns (s, 0)
  | (s, Some item) =>
      let old_backend := wk_backend s in
      '(s, run_result) ← run_work work (di_kernel_gs item) (s <| wk_backend := di_backend item |>);
      let s := s <| wk_backend := old_backend |> in
      if run_result =? KB_WORK_RUN_RETRY then Returns (prepend_deferred_item item s, 0)
      else Returns (release_deferred_item item s, Z.b2z (run_result =? KB_WORK_RUN_EXECUTED))
  end.
Definition kb_flush_work (work : Z) (s : work_state) : run (work_state * Z) := flush_one work true s.
Definition kb_flush_delayed_work (dwork : Z) (s : work_state) : run (work_state * Z) := flush_one dwork false s.

Definition kb_cancel_work_sync (work : Z) (s : work_state) : work_state * Z :=
  let was_pending := negb (work =? 0) && work_pending work s in
  let '(s, was_queued) := remove_deferred KB_DEFERRED_WORK work s in
  (clear_work_pending work s, Z.b2z (was_pending || was_queued)).
Definition kb_cancel_delayed_work (dwork : Z) (s : work_state) : work_state * Z := kb_cancel_work_sync dwork s.
Definition kb_cancel_delayed_work_sync (dwork : Z) (s : work_state) : work_state * Z := kb_cancel_work_sync dwork s.

(** *** Tasklets and timers *)

Definition kb_tasklet_setup (tasklet callback : Z) (s : work_state) : work_state :=
  let s := if tasklet =? 0 then s
           else s <| wk_mem ::= fun m => mstore m (tasklet + KB_LINUX_TASKLET_USE_CALLBACK_OFFSET) [1] |> in
  s <| wk_mem ::= write_pointer tasklet KB_LINUX_TASKLET_CALLBACK_OFFSET callback |>.

Definition kb_tasklet_schedule (tasklet : Z) (s : work_state) : work_state :=
  let state := Z.lor (read_ulong (wk_mem s) tasklet KB_LINUX_TASKLET_STATE_OFFSET) (Z.shiftl 1 KB_TASKLET_STATE_SCHED) in
  let s := s <| wk_mem ::= write_ulong tasklet KB_LINUX_TASKLET_STATE_OFFSET state |> in
  fst (queue_deferred env KB_DEFERRED_TASKLET tasklet 0 0 s).

Definition kb_init_timer_key (timer callback : Z) (s : work_state) : work_state :=
  s <| wk_mem ::= write_pointer timer KB_LINUX_TIMER_FUNCTION_OFFSET callback |>.

Definition kb_mod_timer (timer expires : Z) (s : work_state) : work_state * Z :=
  let s := if timer =? 0 then s
           else s <| wk_mem ::= fun m =>
                  write_pointer timer KB_LINUX_TIMER_ENTRY_PPREV_OFFSET timer
                    (mstore64 m (timer + KB_LINUX_TIMER_EXPIRES_OFFSET) expires) |> in
  let due_ns := jiffies_to_ns expires in
  match find_deferred KB_DEFERRED_TIMER timer s with
  | (s, Some i) =>
      (s <| deferred ::= alter (fun item =>
         item <| di_due_ns := due_ns |> <| di_backend := wk_backend s |> <| di_kernel_gs := wk_gs s |>) i |>, 1)
  | (s, None) => let '(s, ok) := queue_deferred env KB_DEFERRED_TIMER timer 0 due_ns s in (s, Z.b2z ok)
  end.

Definition kb_add_timer (timer : Z) (s : work_state) : work_state :=
  let s := s <| wk_mem ::= write_pointer timer KB_LINUX_TIMER_ENTRY_PPREV_OFFSET timer |> in
  let expires := read_ulong (wk_mem s) timer KB_LINUX_TIMER_EXPIRES_OFFSET in
  fst (queue_deferred env KB_DEFERRED_TIMER timer 0 (jiffies_to_ns expires) s).

Definition kb_timer_delete (timer : Z) (s : work_state) : work_state * Z :=
  let removed := filter (fun i => item_is KB_DEFERRED_TIMER timer i = true) (deferred s) in
  let s := s <| deferred ::= filter (fun i => item_is KB_DEFERRED_TIMER timer i = false) |> in
  let s := foldl (fun s i => release_deferred_item i s) s removed in
  let s := s <| wk_mem ::= write_pointer timer KB_LINUX_TIMER_ENTRY_PPREV_OFFSET 0 |> in
  (refresh_deferred_tail s, Z.b2z (negb (bool_decide (removed = [])))).
End engine.

(** ** Module code *)

(** The calls module code can make. *)
Inductive work_call :=
  | AllocWorkqueue (record flags max_active : Z)
  | FlushWorkqueue (workqueue : Z)
  | DestroyWorkqueue (workqueue : Z)
  | QueueWork (wq work : Z)
  | QueueDelayedWork (wq dwork delay : Z)
  | ModDelayedWork (wq dwork delay : Z)
  | FlushWork (work : Z)
  | FlushDelayedWork (dwork : Z)
  | CancelWork (work : Z)
  | TaskletSetup (tasklet callback : Z)
  | TaskletSchedule (tasklet : Z)
  | InitTimer (timer callback : Z)
  | ModTimer (timer expires : Z)
  | AddTimer (timer : Z)
  | TimerDelete (timer : Z)
  | RegisterJiffies (storage : Z)
  | RunDeferredWork
  | RunBottomHalves.

(** A function of a module: it computes on memory, calls kobox and goes on with the
    result, and returns after finitely many steps. *)
Inductive script :=
  | Return
  | Compute (f : mem -> mem) (k : mem -> script)
  | Call (c : work_call) (k : Z -> script).

Definition with_result (r : run work_state) : run (work_state * Z) := s ← r; Returns (s, 0).

Definition perform (env : work_env) (call : Z -> Z -> work_state -> run work_state) (c : work_call) (s : work_state)
    : run (work_state * Z) :=
  match c with
  | AllocWorkqueue record flags max_active => Returns (kb_alloc_workqueue record flags max_active s)
  | FlushWorkqueue workqueue => with_result (kb_flush_workqueue env call workqueue s)
  | DestroyWorkqueue workqueue => with_result (kb_destroy_workqueue env call workqueue s)
  | QueueWork wq work => Returns (kb_queue_work_on env wq work s)
  | QueueDelayedWork wq dwork delay => Returns (kb_queue_delayed_work_on env wq dwork delay s)
  | ModDelayedWork wq dwork delay => Returns (kb_mod_delayed_work_on env wq dwork delay s)
  | FlushWork work => kb_flush_work env call work s
  | FlushDelayedWork dwork => kb_flush_delayed_work env call dwork s
  | CancelWork work => Returns (kb_cancel_work_sync work s)
  | TaskletSetup tasklet callback => Returns (kb_tasklet_setup tasklet callback s, 0)
  | TaskletSchedule tasklet => Returns (kb_tasklet_schedule env tasklet s, 0)
  | InitTimer timer callback => Returns (kb_init_timer_key timer callback s, 0)
  | ModTimer timer expires => Returns (kb_mod_timer env timer expires s)
  | AddTimer timer => Returns (kb_add_timer env timer s, 0)
  | TimerDelete timer => Returns (kb_timer_delete timer s)
  | RegisterJiffies storage => Returns (kb_register_jiffies_storage env storage s, 0)
  | RunDeferredWork => with_result (kb_run_deferred_work env call s)
  | RunBottomHalves => with_result (kb_run_deferred_bottom_halves env call s)
  end.

Fixpoint exec (env : work_env) (call : Z -> Z -> work_state -> run work_state) (p : script) (s : work_state)
    : run work_state :=
  match p with
  | Return => Returns s
  | Compute f k => exec env call (k (wk_mem s)) (s <| wk_mem ::= f |>)
  | Call c k => '(s, r) ← perform env call c s; exec env call (k r) s
  end.

(** The function at [func], where callbacks may nest [fuel] deep. *)
Fixpoint call_within (env : work_env) (code : Z -> Z -> script) (fuel : nat) (func arg : Z) (s : work_state)
    : run work_state :=
  match fuel with
  | O => Endless
  | S fuel => exec env (call_within env code fuel) (code func arg) s
  end.

(** 8 nested drains and 16 nested work items. *)
Definition nesting_limit : nat := KB_DEFERRED_MAX_DRAIN_DEPTH + KB_WORK_CONTEXT_MAX_DEPTH.
