(* ===== verification/WorkTheorems.v ===== *)
(** * Theorems about deferred work (DeferredWork.v)

    The invariant [wf] of the queue and its item pool, and the relation [good] between
    the states before and after a call: whatever module code does in its callbacks, the
    invariant survives, the nesting counters and the execution context are restored and
    old items keep their identity.  Every operation is [good] when callbacks are; closing
    the recursion makes callbacks [good], and the theorems follow. *)

From S2P Require Import Prelude Memory ElfReader ShimTable ModuleLayout DeferredWork.

(** ** The invariant *)

Definition item_key (i : kb_deferred_item) : kb_deferred_kind * Z := (di_kind i, di_object i).
Definition item_addrs (s : work_state) : list Z := di_addr <$> deferred s.

(** The items a block has handed out. *)
Definition block_items (b : kb_deferred_item_block) : list Z :=
  (fun i => bk_addr b + deferred_block_header + deferred_item_size * Z.of_nat i) <$> seq 0 (Z.to_nat (bk_used b)).

Record block_ok (env : work_env) (asked : nat) (b : kb_deferred_item_block) : Prop := {
  bo_addr : exists k, (k < asked)%nat /\ bk_addr b = we_mmap env k;
  bo_nonzero : bk_addr b <> 0;
  bo_capacity : bk_capacity b = 63;
  bo_used : 0 <= bk_used b <= 63;
}.

(** [held] are the items that are neither queued nor free: those being run. *)
Record wf (env : work_env) (held : list Z) (s : work_state) : Prop := {
  wf_blocks : Forall (block_ok env (wk_blocks_asked s)) (deferred_blocks s);
  wf_block_addrs : NoDup (bk_addr <$> deferred_blocks s);
  wf_pool : NoDup (item_addrs s ++ held ++ deferred_free_list s);
  wf_handed : forall a, a ∈ item_addrs s ++ held ++ deferred_free_list s ->
                exists b, b ∈ deferred_blocks s /\ a ∈ block_items b;
  wf_tail : deferred_tail s = default 0 (di_addr <$> last (deferred s));
  wf_keys : NoDup (item_key <$> deferred s);
  wf_objects : Forall (fun i => di_object i <> 0) (deferred s);
  wf_length : Z.of_nat (length (deferred s)) <= KB_DEFERRED_LIST_WALK_LIMIT + 1;
  wf_queued : 0 <= wk_queued s;
  wf_sequence : wk_queued s < 2 ^ 64 -> deferred_sequence s = wk_queued s;
  wf_stack : length (active_work_stack s) = KB_WORK_CONTEXT_MAX_DEPTH;
  wf_depth : (active_work_depth s <= KB_WORK_CONTEXT_MAX_DEPTH)%nat;
  wf_active : NoDup (take (active_work_depth s) (active_work_stack s));
}.

(** The task that is current, whether or not it was ever asked for. *)
Definition task_now (env : work_env) (s : work_state) : Z :=
  if wk_current_task s =? 0 then we_shared_task env else wk_current_task s.

(** The work items whose callbacks are running, outermost first. *)
Definition running (s : work_state) : list Z := take (active_work_depth s) (active_work_stack s).

(** The context of the running code. *)
Definition context (env : work_env) (s : work_state) : nat * nat * list Z * Z * Z * Z * Z :=
  (active_work_depth s, draining_deferred_depth s, take (active_work_depth s) (active_work_stack s),
   wk_backend s, wk_gs s, wk_active_module s, task_now env s).

(** What stays of an item while it is queued. *)
Definition identity (i : kb_deferred_item) : Z * kb_deferred_kind * Z * Z * Z :=
  (di_addr i, di_kind i, di_object i, di_workqueue i, di_sequence i).

Record good_at (env : work_env) (h : list Z) (s s' : work_state) : Prop := {
  ga_wf : wf env h s';
  ga_context : context env s' = context env s;
  ga_queued : wk_queued s <= wk_queued s';
  ga_items : forall i, wk_queued s' < 2 ^ 64 -> i ∈ deferred s' ->
     (exists j, j ∈ deferred s /\ identity j = identity i) \/ wk_queued s < di_sequence i;
}.

Definition good (env : work_env) (s s' : work_state) : Prop := forall h, wf env h s -> good_at env h s s'.

#[export] Instance good_refl env : Reflexive (good env).
Proof. intros s h Hw. split; eauto with lia. Qed.

Lemma good_at_trans env h s1 s2 s3 : good_at env h s1 s2 -> good_at env h s2 s3 -> good_at env h s1 s3.
Proof.
  intros [Hw2 C2 Q2 I2] [Hw3 C3 Q3 I3].
  split; [done|congruence|lia|]. intros i Hq Hi.
  destruct (I3 i Hq Hi) as [(j & Hj & Hid)|]; [|right; lia].
  assert (di_sequence j = di_sequence i) as Hs by (unfold identity in Hid; congruence).
  destruct (I2 j ltac:(lia) Hj) as [(k & Hk & Hid')|]; [left|right; lia].
  exists k. split; [done|congruence].
Qed.

#[export] Instance good_trans env : Transitive (good env).
Proof.
  intros s1 s2 s3 H12 H23 h Hw. pose proof (H12 h Hw) as H. eapply good_at_trans; [exact H|]. apply H23, H.
Qed.

Lemma good_wf env h s s' : good env s s' -> wf env h s -> wf env h s'.
Proof. intros H Hw. apply H, Hw. Qed.

(** Steps outside the queue, the pool and the context. *)
Definition tracked (env : work_env) (s : work_state) :=
  (deferred s, deferred_tail s, deferred_free_list s, deferred_blocks s, wk_blocks_asked s, deferred_sequence s,
   wk_queued s, (active_work_depth s, active_work_stack s, draining_deferred_depth s),
   (wk_backend s, wk_gs s, wk_active_module s, task_now env s)).

Lemma wf_tracked env h s s' : tracked env s' = tracked env s -> wf env h s -> wf env h s'.
Proof.
  intros [= E1 E2 E3 E4 E5 E6 E7 E8 E9 E10 E11 E12 E13 E14] [H1 H2 H3 H4 H5 H6 H7 H8 H9 H10 H11 H12 H13]. unfold item_addrs in *.
  split; unfold item_addrs; rewrite ?E1, ?E2, ?E3, ?E4, ?E5, ?E6, ?E7, ?E8, ?E9; assumption.
Qed.

Lemma good_tracked env s s' : tracked env s' = tracked env s -> good env s s'.
Proof.
  intros E h Hw. pose proof E as [= E1 E2 E3 E4 E5 E6 E7 E8 E9 E10 E11 E12 E13 E14].
  split; [by eapply wf_tracked|unfold context; congruence| |].
  - assert (wk_queued s' = wk_queued s) by congruence. lia.
  - intros i _ Hi. left. exists i. assert (deferred s' = deferred s) as <- by congruence. done.
Qed.

Ltac by_tracked := apply good_tracked; reflexivity.

(** A result that, when there is one, is [good]. *)
Definition keeps {A} (env : work_env) (st : A -> work_state) (s : work_state) (r : run A) : Prop :=
  forall a, r = Returns a -> good env s (st a).

Lemma keeps_ret {A} env (st : A -> work_state) s a : good env s (st a) -> keeps env st s (Returns a).
Proof. by intros H b [= <-]. Qed.

Lemma keeps_bind {A B} env (f : A -> work_state) (g : B -> work_state) s (r : run A) (k : A -> run B) :
  keeps env f s r -> (forall a, r = Returns a -> keeps env g (f a) (k a)) -> keeps env g s (r ≫= k).
Proof.
  intros Hr Hk b. destruct r as [a| |]; cbn; [|done..]. intros E.
  transitivity (f a); [by apply Hr|by apply (Hk a)].
Qed.

Lemma keeps_from {A} env (st : A -> work_state) s s1 (r : run A) :
  good env s s1 -> keeps env st s1 r -> keeps env st s r.
Proof. intros H Hr a E. transitivity s1; [done|by apply Hr]. Qed.

(** ** Operations that run no module code *)

Section quiet.
Context (env : work_env).

Lemma mem_good f s : good env s (s <| wk_mem ::= f |>).
Proof. by_tracked. Qed.
Lemma work_pending_good w s : good env s (set_work_pending w s).
Proof. by_tracked. Qed.
Lemma clear_pending_good w s : good env s (clear_work_pending w s).
Proof. by_tracked. Qed.

Lemma elapsed_good s : good env s (elapsed_ns env s).1.
Proof. unfold elapsed_ns, monotonic_ns. cbn. case_match; by_tracked. Qed.

Lemma refresh_jiffies_good s : good env s (refresh_linux_jiffies env s).
Proof.
  unfold refresh_linux_jiffies, elapsed_jiffies. pose proof (elapsed_good s) as H.
  destruct (elapsed_ns env s) as [s1 ns]. cbn [fst] in H. etransitivity; [exact H|by_tracked].
Qed.

Lemma register_jiffies_good a s : good env s (kb_register_jiffies_storage env a s).
Proof.
  unfold kb_register_jiffies_storage. do 2 (case_match; [done || apply refresh_jiffies_good|]).
  etransitivity; [|apply refresh_jiffies_good]. case_match; by_tracked.
Qed.

(** *** Truncation does nothing to a list within the limit *)

Lemma walk_limit_Z : Z.of_nat walk_limit = KB_DEFERRED_LIST_WALK_LIMIT.
Proof. unfold walk_limit. apply Z2Nat.id. done. Qed.
#[local] Opaque walk_limit.

Lemma take_limit (l : list kb_deferred_item) :
  Z.of_nat (length l) <= KB_DEFERRED_LIST_WALK_LIMIT -> take walk_limit l = l.
Proof. intros H. apply take_ge. pose proof walk_limit_Z. lia. Qed.

Lemma refresh_short s :
  Z.of_nat (length (deferred s)) <= KB_DEFERRED_LIST_WALK_LIMIT ->
  refresh_deferred_tail s = s <| deferred_tail := default 0 (di_addr <$> last (deferred s)) |>.
Proof. intros H. unfold refresh_deferred_tail. rewrite take_limit by done. by destruct s. Qed.

(** *** The pool *)

(** The mapped blocks are pages apart. *)
Context (mmap_apart : forall j k, j <> k -> we_mmap env j <> 0 -> we_mmap env k <> 0 ->
           we_mmap env j + KB_DEFERRED_BLOCK_BYTES <= we_mmap env k \/
           we_mmap env k + KB_DEFERRED_BLOCK_BYTES <= we_mmap env j)
        (mmap_positive : forall k, 0 <= we_mmap env k).

(** Everything the queue, the pool and the running items can be rearranged into. *)
Lemma wf_requeue h h' l f s :
  wf env h s -> NoDup ((di_addr <$> l) ++ h' ++ f) ->
  (forall a, a ∈ (di_addr <$> l) ++ h' ++ f -> a ∈ item_addrs s ++ h ++ deferred_free_list s) ->
  NoDup (item_key <$> l) -> Forall (fun i => di_object i <> 0) l ->
  Z.of_nat (length l) <= KB_DEFERRED_LIST_WALK_LIMIT + 1 ->
  wf env h' (s <| deferred := l |> <| deferred_tail := default 0 (di_addr <$> last l) |> <| deferred_free_list := f |>).
Proof. intros [] ?????. split; cbn; eauto. Qed.

Lemma block_item_range b a : a ∈ block_items b -> 0 <= bk_used b <= 63 ->
  bk_addr b + deferred_block_header <= a < bk_addr b + KB_DEFERRED_BLOCK_BYTES.
Proof.
  intros (i & -> & Hi)%list_elem_of_fmap Hu. apply elem_of_seq in Hi.
  unfold deferred_block_header, deferred_item_size, KB_DEFERRED_BLOCK_BYTES. lia.
Qed.

Lemma item_addr_nonzero h s a : wf env h s -> a ∈ item_addrs s ++ h ++ deferred_free_list s -> 0 < a.
Proof.
  intros Hw Ha. destruct (wf_handed _ _ _ Hw a Ha) as (b & Hb & Hab).
  pose proof (proj1 (Forall_forall _ _) (wf_blocks _ _ _ Hw) b Hb) as [(k & _ & Hk) _ _ Hu].
  pose proof (block_item_range b a Hab Hu). pose proof (mmap_positive k). unfold deferred_block_header in *. lia.
Qed.

Lemma blocks_apart asked b b' :
  block_ok env asked b -> block_ok env asked b' -> bk_addr b <> bk_addr b' ->
  bk_addr b + KB_DEFERRED_BLOCK_BYTES <= bk_addr b' \/ bk_addr b' + KB_DEFERRED_BLOCK_BYTES <= bk_addr b.
Proof.
  intros [(k & _ & Hk) Hn _ _] [(k' & _ & Hk') Hn' _ _] Hne. rewrite Hk, Hk' in *.
  apply mmap_apart; congruence.
Qed.

(** What [allocate_deferred_item] returns is held by nobody, and holding it is fine. *)
Definition allocated (h : list Z) (s s' : work_state) (a : Z) : Prop :=
  wf env (a :: h) s' /\ context env s' = context env s /\ deferred s' = deferred s /\
  wk_queued s' = wk_queued s /\ deferred_sequence s' = deferred_sequence s /\ deferred_tail s' = deferred_tail s.

Lemma take_block_item_spec h s :
  wf env h s -> deferred_free_list s = [] ->
  match take_block_item s with
  | (s', None) => s' = s
  | (s', Some a) => allocated h s s' a
  end.
Proof.
  intros Hw Hf. unfold take_block_item. destruct (deferred_blocks s) as [|b bs] eqn:Hb; [done|].
  destruct (Z.ltb_spec (bk_used b) (bk_capacity b)) as [Hlt|]; [|done].
  pose proof Hw as [W1 W2 W3 W4 W5 W6 W7 W8 W9 W10 W11 W12 W13]. rewrite Hb in W1, W2, W4.
  apply Forall_cons in W1 as [Hbo W1]. pose proof Hbo as [B1 B2 B3 B4].
  set (b' := mk_block (bk_addr b) (bk_capacity b) (bk_used b + 1)).
  set (a := bk_addr b + deferred_block_header + deferred_item_size * bk_used b).
  assert (block_items b' = block_items b ++ [a]) as Hitems.
  { unfold block_items, b'. cbn. replace (Z.to_nat (bk_used b + 1)) with (S (Z.to_nat (bk_used b))) by lia.
    rewrite seq_S, fmap_app. cbn. unfold a. repeat f_equal. lia. }
  assert (a ∉ item_addrs s ++ h ++ deferred_free_list s) as Hfresh.
  { intros Ha. destruct (W4 a Ha) as (c & Hc & Hac). apply elem_of_cons in Hc as [->|Hc].
    - apply list_elem_of_fmap in Hac as (i & Hi & Hr). apply elem_of_seq in Hr. unfold a, deferred_item_size in Hi. lia.
    - pose proof (proj1 (Forall_forall _ _) W1 c Hc) as Hco. pose proof Hco as [C1 C2 C3 C4].
      pose proof (block_item_range c a Hac C4) as Hr. cbn in W2. apply NoDup_cons in W2 as [Hn _].
      destruct (blocks_apart _ b c Hbo Hco) as [Hx|Hx].
      { intros E. apply Hn. rewrite E. apply list_elem_of_fmap. by exists c. }
      all: unfold a, deferred_block_header, deferred_item_size, KB_DEFERRED_BLOCK_BYTES in *; lia. }
  rewrite Hf, app_nil_r in *.
  split; [|done]. split; cbn; try assumption.
  - constructor; [split; cbn; [done|done|done|lia]|done].
  - rewrite Hf. apply (NoDup_Permutation_proper _ (a :: (item_addrs s ++ h))).
    { change (item_addrs s ++ (a :: h) ++ [] ≡ₚ a :: item_addrs s ++ h). rewrite app_nil_r. symmetry. apply Permutation_middle. }
    by apply NoDup_cons.
  - intros x Hx. rewrite Hf in Hx. change (x ∈ item_addrs s ++ (a :: h) ++ []) in Hx. rewrite app_nil_r in Hx.
    destruct (decide (x = a)) as [->|Hne].
    { exists b'. split; [apply list_elem_of_here|]. rewrite Hitems. apply elem_of_app. right. by apply list_elem_of_singleton. }
    rewrite elem_of_app, elem_of_cons in Hx.
    destruct (W4 x) as (c & Hc & Hxc); [rewrite elem_of_app; tauto|].
    apply elem_of_cons in Hc as [->|Hc].
    + exists b'. split; [apply list_elem_of_here|]. rewrite Hitems. apply elem_of_app. by left.
    + exists c. split; [by apply list_elem_of_further|done].
Qed.

Lemma allocate_block_good s : good env s (allocate_deferred_block env s).1.
Proof.
  unfold allocate_deferred_block. set (k := wk_blocks_asked s). destruct (Z.eqb_spec (we_mmap env k) 0) as [|Hk]; cbn [fst].
  - intros h [W1 W2 W3 W4 W5 W6 W7 W8 W9 W10 W11 W12 W13]. split; [|done|cbn; lia|intros i _ Hi; left; by exists i].
    split; cbn; try assumption. eapply Forall_impl; [exact W1|]. intros b [(j & Hj & E) ? ? ?]. split; [|done..]. exists j. split; [lia|done].
  - intros h [W1 W2 W3 W4 W5 W6 W7 W8 W9 W10 W11 W12 W13]. split; [|done|cbn; lia|intros i _ Hi; left; by exists i].
    split; cbn; try assumption.
    + constructor; [split; cbn; [by exists k; split; [unfold k; lia|]|done|done|lia]|].
      eapply Forall_impl; [exact W1|]. intros b [(j & Hj & E) ? ? ?]. split; [|done..]. exists j. split; [lia|done].
    + apply NoDup_cons. split; [|done]. intros (b & Hb & Hin)%list_elem_of_fmap.
      pose proof (proj1 (Forall_forall _ _) W1 b Hin) as [(j & Hj & E) Hn _ _]. rewrite E in Hb, Hn. fold k in Hj.
      destruct (mmap_apart j k); [lia|done|done|..]; unfold KB_DEFERRED_BLOCK_BYTES in *; lia.
    + intros a Ha. destruct (W4 a Ha) as (b & Hb & Hab). exists b. split; [by apply list_elem_of_further|done].
Qed.

Lemma allocate_item_spec h s :
  wf env h s ->
  match allocate_deferred_item env s with
  | (s', None) => wf env h s' /\ context env s' = context env s /\ deferred s' = deferred s /\ wk_queued s' = wk_queued s
  | (s', Some a) => allocated h s s' a
  end.
Proof.
  intros Hw. unfold allocate_deferred_item. destruct (deferred_free_list s) as [|a free] eqn:Hf.
  - destruct (block_has_room s) eqn:Hroom.
    { pose proof (take_block_item_spec h s Hw Hf) as H. destruct (take_block_item s) as [s' [a|]]; [done|by subst]. }
    pose proof (allocate_block_good s) as Hg.
    assert (let s1 := (allocate_deferred_block env s).1 in
      deferred_free_list s1 = [] /\ deferred s1 = deferred s /\ wk_queued s1 = wk_queued s /\
      deferred_sequence s1 = deferred_sequence s /\ deferred_tail s1 = deferred_tail s) as Hs1.
    { unfold allocate_deferred_block. case_match; cbn; by rewrite Hf. }
    destruct (allocate_deferred_block env s) as [s1 ok]. cbn [fst] in *.
    destruct (Hg h Hw) as [Hw1 Hc1 _ _].
    destruct Hs1 as (F1 & F2 & F3 & F4 & F5). destruct ok; [|by auto].
    pose proof (take_block_item_spec h s1 Hw1 F1) as H. destruct (take_block_item s1) as [s2 [a|]].
    + destruct H as (H1 & H2 & H3 & H4 & H5 & H6). repeat split; congruence || apply H1.
    + subst s2. auto.
  - destruct Hw as [W1 W2 W3 W4 W5 W6 W7 W8 W9 W10 W11 W12 W13]. rewrite Hf in W3, W4.
    assert (item_addrs s ++ (a :: h) ++ free ≡ₚ item_addrs s ++ h ++ a :: free) as Hperm.
    { apply Permutation_app_head. cbn. apply Permutation_middle. }
    split; [|done]. split; cbn; try assumption.
    + change (NoDup (item_addrs s ++ (a :: h) ++ free)). by rewrite Hperm.
    + intros x Hx. apply W4. rewrite <- Hperm. exact Hx.
Qed.

(** *** Truncation *)

Lemma take_di (l : list kb_deferred_item) {A} (f : kb_deferred_item -> A) n x : x ∈ f <$> take n l -> x ∈ f <$> l.
Proof. rewrite !list_elem_of_fmap. intros (i & -> & Hi). exists i. split; [done|]. by eapply subseteq_take. Qed.

Lemma refresh_tail_good s : good env s (refresh_deferred_tail s).
Proof.
  generalize (eq_refl : refresh_deferred_tail s = refresh_deferred_tail s). unfold refresh_deferred_tail at 2.
  generalize walk_limit. intros n ->.
  intros h Hw. split; [|done|cbn; lia|].
  - pose proof Hw as [W1 W2 W3 W4 W5 W6 W7 W8 W9 W10 W11 W12 W13].
    assert (sublist (take n (deferred s)) (deferred s)) as Hsub by apply sublist_take.
    apply (wf_tracked env h (s <| deferred := take n (deferred s) |>
      <| deferred_tail := default 0 (di_addr <$> last (take n (deferred s))) |> <| deferred_free_list := deferred_free_list s |>)); [reflexivity|].
    apply (wf_requeue h); [done|..].
    + eapply sublist_NoDup; [exact W3|]. apply sublist_app; [by apply fmap_sublist|done].
    + intros a Ha. apply elem_of_app in Ha as [Ha|Ha]; apply elem_of_app; [left|by right]. by eapply take_di.
    + eapply sublist_NoDup; [exact W6|]. by apply fmap_sublist.
    + by apply Forall_take.
    + rewrite length_take. lia.
  - intros i _ Hi. left. exists i. split; [|done]. cbn in Hi. by eapply subseteq_take.
Qed.

Lemma item_is_key kind object i : item_is kind object i = true <-> item_key i = (kind, object).
Proof.
  unfold item_is, item_key. rewrite andb_true_iff, bool_decide_eq_true, Z.eqb_eq. split; [by intros [-> ->]|by intros [= -> ->]].
Qed.

Lemma find_deferred_spec kind object s :
  let '(s', r) := find_deferred kind object s in
  good env s s' /\
  match r with
  | Some i => s' = s /\ exists item, deferred s !! i = Some item /\ item_key item = (kind, object)
  | None => s' = s <| deferred := take walk_limit (deferred s) |> <| deferred_tail := deferred_tail s' |> /\
            (kind, object) ∉ item_key <$> take walk_limit (deferred s)
  end.
Proof.
  unfold find_deferred. destruct (first_index _ _) as [i|] eqn:Hi.
  - split; [done|]. split; [done|]. apply first_index_Some in Hi as (item & Hl & Ht & _).
    apply lookup_take_Some in Hl as [Hl _]. exists item. split; [done|by apply item_is_key].
  - assert ((kind, object) ∉ item_key <$> take walk_limit (deferred s)) as Hn.
    { intros (j & Hk & Hj)%list_elem_of_fmap. apply first_index_None in Hi.
      pose proof (proj1 (Forall_forall _ _) Hi j Hj) as Hf. cbn in Hf. symmetry in Hk. apply item_is_key in Hk. congruence. }
    destruct (Z.ltb_spec KB_DEFERRED_LIST_WALK_LIMIT (Z.of_nat (length (deferred s)))) as [|Hle].
    + split; [apply refresh_tail_good|]. by split.
    + split; [done|]. split; [|done]. rewrite take_limit by done. by destruct s.
Qed.

(** The number of the next item. *)
Definition next_sequence (s : work_state) : Z :=
  if u64 (deferred_sequence s + 1) =? 0 then 1 else u64 (deferred_sequence s + 1).

Lemma next_sequence_queued h s : wf env h s -> wk_queued s + 1 < 2 ^ 64 -> next_sequence s = wk_queued s + 1.
Proof.
  intros Hw Hq. pose proof (wf_queued _ _ _ Hw). unfold next_sequence. rewrite (wf_sequence _ _ _ Hw) by lia.
  rewrite u64_small by (unfold is_u64; lia). by rewrite (proj2 (Z.eqb_neq _ _)) by lia.
Qed.

Definition new_item (kind : kb_deferred_kind) (object wq due addr : Z) (s : work_state) : kb_deferred_item :=
  mk_item addr kind object wq (next_sequence s) due (wk_backend s) (wk_gs s).

(** The item appended, with what it takes for the invariant. *)
Lemma append_item_wf h kind object wq due addr s :
  wf env (addr :: h) s -> object <> 0 -> (kind, object) ∉ item_key <$> deferred s ->
  Z.of_nat (length (deferred s)) <= KB_DEFERRED_LIST_WALK_LIMIT ->
  wf env h (s <| deferred_sequence := next_sequence s |> <| wk_queued ::= Z.succ |>
              <| deferred ::= fun l => l ++ [new_item kind object wq due addr s] |> <| deferred_tail := addr |>).
Proof.
  intros Hw Ho Hk Hl. set (item := new_item _ _ _ _ _ _).
  assert (wf env h (s <| deferred := deferred s ++ [item] |>
    <| deferred_tail := default 0 (di_addr <$> last (deferred s ++ [item])) |> <| deferred_free_list := deferred_free_list s |>)) as Hw'.
  { assert ((di_addr <$> deferred s ++ [item]) ++ h ++ deferred_free_list s ≡ₚ
            item_addrs s ++ (addr :: h) ++ deferred_free_list s) as Hperm.
    { rewrite fmap_app, <- app_assoc. done. }
    apply (wf_requeue (addr :: h)); [done|..].
    - rewrite Hperm. apply Hw.
    - intros a Ha. by rewrite Hperm in Ha.
    - rewrite fmap_app. apply NoDup_app. split; [apply Hw|]. split; [|apply NoDup_singleton].
      intros x Hx Hx'. apply list_elem_of_singleton in Hx'. by subst x.
    - apply Forall_app. split; [apply Hw|]. by constructor.
    - rewrite length_app. cbn. lia. }
  pose proof (next_sequence_queued _ _ Hw) as Hseq.
  destruct Hw' as [W1 W2 W3 W4 W5 W6 W7 W8 W9 W10 W11 W12 W13]. rewrite last_snoc in W5. cbn in W9.
  split; try assumption. cbn. lia.
Qed.

(** The state that a successful [queue_deferred] leaves. *)
Lemma queue_deferred_spec h kind object wq due s :
  wf env h s ->
  let '(s', ok) := queue_deferred env kind object wq due s in
  if (ok : bool) then
    wf env h s' /\ context env s' = context env s /\ wk_queued s' = wk_queued s + 1 /\ object <> 0 /\
    exists addr seq, (wk_queued s' < 2 ^ 64 -> seq = wk_queued s + 1) /\
      ~ (kind, object) ∈ (item_key <$> take walk_limit (deferred s)) /\
      deferred s' = take walk_limit (deferred s) ++ [mk_item addr kind object wq seq due (wk_backend s) (wk_gs s)]
  else
    wf env h s' /\ context env s' = context env s /\ wk_queued s' = wk_queued s /\
    (deferred s' = deferred s \/ deferred s' = take walk_limit (deferred s)).
Proof.
  intros Hw. unfold queue_deferred. destruct (Z.eqb_spec object 0) as [|Ho]; [by auto|].
  unfold deferred_contains. pose proof (find_deferred_spec kind object s) as Hfind.
  destruct (find_deferred kind object s) as [s1 [i|]]; cbn [bool_decide decide_rel].
  { destruct Hfind as (_ & -> & _). rewrite bool_decide_true by done. by auto. }
  rewrite bool_decide_false by (by intros [? [=]]). destruct Hfind as (Hg & Es1 & Hn).
  assert (deferred s1 = take walk_limit (deferred s)) as Hd by (rewrite Es1; done).
  assert (wk_queued s1 = wk_queued s /\ wk_backend s1 = wk_backend s /\ wk_gs s1 = wk_gs s) as (Hq & Hb & Hgs)
    by (rewrite Es1; done).
  assert (Z.of_nat (length (deferred s1)) <= KB_DEFERRED_LIST_WALK_LIMIT) as Hlen.
  { rewrite Hd, length_take. pose proof walk_limit_Z. lia. }
  destruct (Hg h Hw) as [Hw1 Hc _ _]. pose proof (allocate_item_spec h s1 Hw1) as Ha.
  destruct (allocate_deferred_item env s1) as [s2 [addr|]].
  - destruct Ha as (Hw2 & Hc2 & Hd2 & Hq2 & Hseq2 & Ht2). fold (next_sequence s2).
    assert (Z.of_nat (length (deferred s2)) <= KB_DEFERRED_LIST_WALK_LIMIT) as Hlen2 by (rewrite Hd2; done).
    rewrite refresh_short by done.
    assert (wk_backend s2 = wk_backend s /\ wk_gs s2 = wk_gs s) as [Hb2 Hgs2].
    { pose proof (f_equal (fun c => (snd (fst (fst (fst c))), snd (fst (fst c)))) (eq_trans Hc2 Hc)) as E. cbn in E. by simplify_eq. }
    split_and!.
    + eapply wf_tracked; [|apply (append_item_wf h kind object wq due addr s2 Hw2 Ho)]; [reflexivity| |done].
      rewrite Hd2, Hd. done.
    + change (context env s2 = context env s). congruence.
    + cbn. lia.
    + done.
    + exists addr, (next_sequence s2). split_and!; [|done|].
      * cbn. intros Hlt. rewrite (next_sequence_queued _ _ Hw2); lia.
      * cbn. rewrite Hd2, Hd. unfold new_item. by rewrite Hb2, Hgs2.
  - destruct Ha as (Hw2 & Hc2 & Hd2 & Hq2). split_and!; [done|congruence|congruence|]. right. congruence.
Qed.

Lemma queue_deferred_good kind object wq due s : good env s (queue_deferred env kind object wq due s).1.
Proof.
  intros h Hw. pose proof (queue_deferred_spec h kind object wq due s Hw) as H.
  destruct (queue_deferred env kind object wq due s) as [s' []]; cbn [fst].
  - destruct H as (Hw' & Hc & Hq & _ & addr & seq & Hseq & _ & Hd). split; [done|done|lia|].
    intros i Hlt Hi. rewrite Hd in Hi. apply elem_of_app in Hi as [Hi|Hi].
    + left. exists i. split; [by eapply subseteq_take|done].
    + right. apply list_elem_of_singleton in Hi as ->. cbn. rewrite Hseq by done. lia.
  - destruct H as (Hw' & Hc & Hq & Hd). split; [done|done|lia|].
    intros i _ Hi. left. exists i. split; [|done]. destruct Hd as [-> | ->] in Hi; [done|by eapply subseteq_take].
Qed.

(** *** Taking items out *)

Lemma last_delete {A} (l : list A) i x y : l !! i = Some x -> last l = Some y -> x <> y -> last (delete i l) = Some y.
Proof.
  intros Hi Hl Hne. rewrite last_lookup in *. pose proof (lookup_lt_Some _ _ _ Hi) as Hlt.
  destruct (decide (i = pred (length l))) as [->|Hn]; [congruence|].
  rewrite length_delete by done. rewrite list_lookup_delete_ge by lia. rewrite <- Hl. f_equal. lia.
Qed.

(** [item] is out of the queue: [s'] is [s] without it. *)
Definition unlinked (s : work_state) (item : kb_deferred_item) (s' : work_state) : Prop :=
  exists i, deferred s !! i = Some item /\
    s' = s <| deferred := delete i (deferred s) |> <| deferred_tail := deferred_tail s' |>.

Lemma unlink_item_spec h test s :
  wf env h s ->
  match unlink_item test s with
  | (s', None) => s' = s /\ Forall (fun i => test i = false) (deferred s)
  | (s', Some item) => unlinked s item s' /\ test item = true /\ wf env (di_addr item :: h) s'
  end.
Proof.
  intros Hw. unfold unlink_item. destruct (first_index test (deferred s)) as [i|] eqn:Hi.
  2: { split; [done|]. by apply first_index_None. }
  apply first_index_Some in Hi as (item & Hl & Ht & _). rewrite Hl.
  assert (Permutation (deferred s) (item :: delete i (deferred s))) as Hperm by by apply delete_Permutation.
  set (s1 := s <| deferred := delete i (deferred s) |> <| deferred_tail := default 0 (di_addr <$> last (delete i (deferred s))) |>).
  assert (wf env (di_addr item :: h) s1) as Hw1.
  { assert ((di_addr <$> delete i (deferred s)) ++ (di_addr item :: h) ++ deferred_free_list s ≡ₚ
            item_addrs s ++ h ++ deferred_free_list s) as Hp.
    { unfold item_addrs. rewrite (fmap_Permutation di_addr _ _ Hperm). cbn. symmetry. apply Permutation_middle. }
    eapply wf_tracked; [|apply (wf_requeue h (di_addr item :: h) (delete i (deferred s)) (deferred_free_list s) s Hw)].
    - reflexivity.
    - rewrite Hp. apply Hw.
    - intros a Ha. by rewrite Hp in Ha.
    - eapply sublist_NoDup; [apply Hw|]. apply fmap_sublist, sublist_delete.
    - apply Forall_delete, Hw.
    - rewrite length_delete by done. pose proof (wf_length _ _ _ Hw). lia. }
  assert (Z.of_nat (length (delete i (deferred s))) <= KB_DEFERRED_LIST_WALK_LIMIT) as Hshort.
  { rewrite length_delete by done. pose proof (wf_length _ _ _ Hw). unfold KB_DEFERRED_LIST_WALK_LIMIT in *. lia. }
  destruct (Z.eqb_spec (deferred_tail (s <| deferred ::= delete i |>)) (di_addr item)) as [Htl|Htl].
  - split; [|split; [done|]].
    + exists i. split; [done|]. by rewrite refresh_short.
    + by rewrite refresh_short.
  - split; [exists i; by split|]. split; [done|].
    replace (s <| deferred ::= delete i |>) with s1; [done|]. unfold s1.
    cbn in Htl. rewrite (wf_tail _ _ _ Hw) in Htl. destruct (last (deferred s)) as [y|] eqn:Hy.
    2: { apply last_None in Hy. by rewrite Hy in Hl. }
    rewrite (last_delete _ _ _ y Hl Hy) by (intros ->; by apply Htl). cbn [fmap option_fmap option_map default].
    pose proof (wf_tail _ _ _ Hw) as E. rewrite Hy in E. cbn in E. rewrite <- E. by destruct s.
Qed.

Lemma foldl_release (r : list kb_deferred_item) s :
  foldl (fun s i => release_deferred_item i s) s r =
  s <| deferred_free_list := reverse (di_addr <$> r) ++ deferred_free_list s |>.
Proof.
  revert s. induction r as [|i r IH]; intros s; cbn [foldl fmap list_fmap]; [by destruct s|].
  rewrite IH. rewrite reverse_cons, <- app_assoc. reflexivity.
Qed.

(** The items a removal takes out go back to the pool; the others stay in order. *)
Definition without (kind : kb_deferred_kind) (object : Z) (s : work_state) : work_state :=
  let l := filter (fun i => item_is kind object i = false) (deferred s) in
  s <| deferred := take walk_limit l |> <| deferred_tail := default 0 (di_addr <$> last (take walk_limit l)) |>
    <| deferred_free_list := reverse (di_addr <$> filter (fun i => item_is kind object i = true) (deferred s)) ++ deferred_free_list s |>.

Lemma remove_deferred_without kind object s : (remove_deferred kind object s).1 = without kind object s.
Proof. unfold remove_deferred. cbn [fst]. rewrite foldl_release. reflexivity. Qed.

Lemma filter_split_perm kind object (l : list kb_deferred_item) :
  l ≡ₚ filter (fun i => item_is kind object i = true) l ++ filter (fun i => item_is kind object i = false) l.
Proof.
  induction l as [|i l IH]; [done|]. rewrite !filter_cons. destruct (item_is kind object i); cbn.
  - by constructor.
  - rewrite IH at 1. apply Permutation_middle.
Qed.

Lemma without_good kind object s : good env s (without kind object s).
Proof.
  intros h Hw.
  set (l := filter (fun i => item_is kind object i = false) (deferred s)).
  set (r := filter (fun i => item_is kind object i = true) (deferred s)).
  assert (sublist l (deferred s)) as Hsub by apply sublist_filter.
  set (s1 := s <| deferred := l |> <| deferred_tail := default 0 (di_addr <$> last l) |>
               <| deferred_free_list := reverse (di_addr <$> r) ++ deferred_free_list s |>).
  assert ((di_addr <$> l) ++ h ++ reverse (di_addr <$> r) ++ deferred_free_list s ≡ₚ
          item_addrs s ++ h ++ deferred_free_list s) as Hp.
  { unfold item_addrs. rewrite (fmap_Permutation di_addr _ _ (filter_split_perm kind object (deferred s))). fold l r.
    rewrite fmap_app, reverse_Permutation. solve_Permutation. }
  assert (good_at env h s s1) as H1.
  { split; [|done|cbn; lia|].
    - apply (wf_requeue h); [done|..].
      + rewrite Hp. apply Hw.
      + intros a Ha. by rewrite Hp in Ha.
      + eapply sublist_NoDup; [apply Hw|]. by apply fmap_sublist.
      + apply Forall_forall. intros x [_ Hx]%list_elem_of_filter. by apply (proj1 (Forall_forall _ _) (wf_objects _ _ _ Hw)).
      + pose proof (sublist_length _ _ Hsub). pose proof (wf_length _ _ _ Hw). lia.
    - intros i _ Hi. left. exists i. split; [|done]. cbn in Hi. by apply list_elem_of_filter in Hi as [_ ?]. }
  assert (good env s1 (without kind object s)) as H2 by exact (refresh_tail_good s1).
  eapply good_at_trans; [exact H1|]. apply H2, H1.
Qed.

(** *** The calls that run no module code *)

Lemma contains_good kind object s : good env s (deferred_contains kind object s).1.
Proof.
  unfold deferred_contains. pose proof (find_deferred_spec kind object s) as H.
  destruct (find_deferred kind object s) as [s' r]. apply H.
Qed.

Lemma pending_and_queued_good work s : good env s (pending_and_queued work s).1.
Proof.
  unfold pending_and_queued. destruct (work_pending work s); [|done].
  pose proof (contains_good KB_DEFERRED_WORK work s) as H. destruct (deferred_contains KB_DEFERRED_WORK work s) as [s' []]; [done|].
  etransitivity; [exact H|apply clear_pending_good].
Qed.

(** The end of both ways to queue work. *)
Lemma queue_or_clear_good work wq due s :
  good env s (let '(s, ok) := queue_deferred env KB_DEFERRED_WORK work wq due s in
              if (ok : bool) then (s, 1) else (clear_work_pending work s, 0)).1.
Proof.
  pose proof (queue_deferred_good KB_DEFERRED_WORK work wq due s) as H.
  destruct (queue_deferred env KB_DEFERRED_WORK work wq due s) as [s' []]; [done|].
  etransitivity; [exact H|apply clear_pending_good].
Qed.

Lemma queue_work_good wq work s : good env s (kb_queue_work_on env wq work s).1.
Proof.
  unfold kb_queue_work_on. do 2 (case_match; [done|]). case_match; [apply clear_pending_good|].
  pose proof (pending_and_queued_good work s) as Hp. destruct (pending_and_queued work s) as [s1 []]; [done|].
  etransitivity; [exact Hp|]. etransitivity; [apply (work_pending_good work)|apply queue_or_clear_good].
Qed.

Lemma queue_delayed_good wq dwork delay s : good env s (kb_queue_delayed_work_on env wq dwork delay s).1.
Proof.
  unfold kb_queue_delayed_work_on. do 2 (case_match; [done|]). case_match; [apply clear_pending_good|].
  pose proof (pending_and_queued_good dwork s) as Hp. destruct (pending_and_queued dwork s) as [s1 []]; [done|].
  etransitivity; [exact Hp|]. etransitivity; [apply (work_pending_good dwork)|].
  destruct (delay =? 0); [apply queue_or_clear_good|].
  pose proof (elapsed_good (set_work_pending dwork s1)) as He. destruct (elapsed_ns env (set_work_pending dwork s1)) as [s2 now].
  etransitivity; [exact He|apply queue_or_clear_good].
Qed.

Lemma remove_good kind object s : good env s (remove_deferred kind object s).1.
Proof. rewrite remove_deferred_without. apply without_good. Qed.

Lemma mod_delayed_good wq dwork delay s : good env s (kb_mod_delayed_work_on env wq dwork delay s).1.
Proof.
  unfold kb_mod_delayed_work_on. pose proof (remove_good KB_DEFERRED_WORK dwork s) as H.
  destruct (remove_deferred KB_DEFERRED_WORK dwork s) as [s1 b]. etransitivity; [exact H|].
  etransitivity; [apply (clear_pending_good dwork)|apply queue_delayed_good].
Qed.

Lemma cancel_good work s : good env s (kb_cancel_work_sync work s).1.
Proof.
  unfold kb_cancel_work_sync. pose proof (remove_good KB_DEFERRED_WORK work s) as H.
  destruct (remove_deferred KB_DEFERRED_WORK work s) as [s1 b]. etransitivity; [exact H|apply clear_pending_good].
Qed.

Lemma tasklet_schedule_good tasklet s : good env s (kb_tasklet_schedule env tasklet s).
Proof. unfold kb_tasklet_schedule. etransitivity; [|apply queue_deferred_good]. by_tracked. Qed.

Lemma add_timer_good timer s : good env s (kb_add_timer env timer s).
Proof. unfold kb_add_timer. etransitivity; [|apply queue_deferred_good]. by_tracked. Qed.

(** An item whose due time and context change keeps its place. *)
Lemma alter_item_good i due backend gs s :
  good env s (s <| deferred ::= alter (fun item =>
    item <| di_due_ns := due |> <| di_backend := backend |> <| di_kernel_gs := gs |>) i |>).
Proof.
  set (f := fun item : kb_deferred_item => _). set (l := alter f i (deferred s)).
  assert (forall {A} (g : kb_deferred_item -> A), (forall x, g (f x) = g x) -> g <$> l = g <$> deferred s) as Hf.
  { intros A g Hg. apply list_eq. intros k. unfold l. rewrite !list_lookup_fmap.
    destruct (decide (k = i)) as [->|]; [rewrite list_lookup_alter_eq|by rewrite list_lookup_alter_ne].
    destruct (deferred s !! i); cbn; by rewrite ?Hg. }
  assert (di_addr <$> last l = di_addr <$> last (deferred s)) as Hlast by (rewrite <- !fmap_last; f_equal; by apply Hf).
  intros h [W1 W2 W3 W4 W5 W6 W7 W8 W9 W10 W11 W12 W13]. split; [|done|cbn; lia|].
  - split; unfold item_addrs; cbn; fold l; try assumption.
    + by rewrite Hf.
    + by rewrite Hf.
    + by rewrite Hlast.
    + by rewrite Hf.
    + apply (Forall_fmap di_object (fun x => x <> 0)). rewrite Hf by done. by apply Forall_fmap.
    + unfold l. by rewrite length_alter.
  - intros x _ Hx. left. cbn in Hx. fold l in Hx.
    assert (identity x ∈ identity <$> deferred s) as Hid.
    { rewrite <- (Hf _ identity) by done. apply list_elem_of_fmap. by exists x. }
    apply list_elem_of_fmap in Hid as (y & E & Hy). by exists y.
Qed.

Lemma mod_timer_good timer expires s : good env s (kb_mod_timer env timer expires s).1.
Proof.
  unfold kb_mod_timer. set (s0 := if timer =? 0 then s else _).
  assert (good env s s0) as H0 by (unfold s0; case_match; by_tracked).
  pose proof (find_deferred_spec KB_DEFERRED_TIMER timer s0) as H. destruct (find_deferred _ _ s0) as [s1 [i|]].
  - destruct H as (_ & -> & _). etransitivity; [exact H0|apply alter_item_good].
  - destruct H as (H1 & _). etransitivity; [exact H0|]. etransitivity; [exact H1|].
    pose proof (queue_deferred_good KB_DEFERRED_TIMER timer 0 (jiffies_to_ns expires) s1) as Hq.
    by destruct (queue_deferred env _ _ _ _ s1) as [s2 ok].
Qed.

Lemma refresh_mem f s : refresh_deferred_tail (s <| wk_mem ::= f |>) = refresh_deferred_tail s <| wk_mem ::= f |>.
Proof. unfold refresh_deferred_tail. generalize walk_limit. reflexivity. Qed.

Lemma timer_delete_without timer s :
  (kb_timer_delete timer s).1 =
  without KB_DEFERRED_TIMER timer s <| wk_mem ::= write_pointer timer KB_LINUX_TIMER_ENTRY_PPREV_OFFSET 0 |>.
Proof.
  pose proof (remove_deferred_without KB_DEFERRED_TIMER timer s) as E. unfold remove_deferred in E. cbn [fst] in E.
  unfold kb_timer_delete. cbn [fst]. rewrite refresh_mem, E. reflexivity.
Qed.

Lemma timer_delete_good timer s : good env s (kb_timer_delete timer s).1.
Proof. rewrite timer_delete_without. etransitivity; [apply without_good|apply mem_good]. Qed.

(** *** Giving items back *)

Lemma release_wf h item s : wf env (di_addr item :: h) s -> wf env h (release_deferred_item item s).
Proof.
  intros [W1 W2 W3 W4 W5 W6 W7 W8 W9 W10 W11 W12 W13].
  assert (item_addrs s ++ h ++ di_addr item :: deferred_free_list s ≡ₚ
          item_addrs s ++ (di_addr item :: h) ++ deferred_free_list s) as Hp.
  { apply Permutation_app_head. cbn. symmetry. apply Permutation_middle. }
  split; cbn; try assumption.
  - change (NoDup (item_addrs s ++ h ++ di_addr item :: deferred_free_list s)). by rewrite Hp.
  - intros a Ha. apply W4. by rewrite <- Hp.
Qed.

(** An item that was taken out of [s], whose queue has not changed since, goes back to
    the head of the queue. *)
Lemma prepend_wf h item s s1 s2 :
  wf env h s -> unlinked s item s1 -> wf env (di_addr item :: h) s2 -> deferred s2 = deferred s1 ->
  wf env h (prepend_deferred_item item s2).
Proof.
  intros Hw (i & Hi & E1) Hw2 Hd. assert (deferred s1 = delete i (deferred s)) as Hd1 by (rewrite E1; done).
  rewrite Hd1 in Hd. assert (Permutation (deferred s) (item :: deferred s2)) as Hperm by (rewrite Hd; by apply delete_Permutation).
  assert (prepend_deferred_item item s2 = s2 <| deferred := item :: deferred s2 |>
    <| deferred_tail := default 0 (di_addr <$> last (item :: deferred s2)) |> <| deferred_free_list := deferred_free_list s2 |>) as ->.
  { unfold prepend_deferred_item. cbn -[last]. pose proof (wf_tail _ _ _ Hw2) as Ht.
    destruct (deferred s2) as [|y l] eqn:Hq.
    - cbn in Ht. cbn. rewrite Ht. reflexivity.
    - rewrite last_cons_cons. destruct (last (y :: l)) as [z|] eqn:Hz; [|by apply last_None in Hz].
      cbn in Ht. cbn. rewrite Ht. rewrite (proj2 (Z.eqb_neq (di_addr z) 0)).
      + rewrite <- Ht. destruct s2; cbn in *; by subst.
      + assert (0 < di_addr z); [|lia]. apply (item_addr_nonzero _ _ _ Hw2). apply elem_of_app. left.
        unfold item_addrs. rewrite Hq. apply list_elem_of_fmap. exists z. split; [done|].
        rewrite last_lookup in Hz. by eapply list_elem_of_lookup_2. }
  assert ((di_addr <$> item :: deferred s2) ++ h ++ deferred_free_list s2 ≡ₚ
          item_addrs s2 ++ (di_addr item :: h) ++ deferred_free_list s2) as Hp.
  { cbn. apply Permutation_middle. }
  apply (wf_requeue (di_addr item :: h)); [done|..].
  - rewrite Hp. apply Hw2.
  - intros a Ha. by rewrite Hp in Ha.
  - rewrite <- (fmap_Permutation item_key _ _ Hperm). apply Hw.
  - rewrite <- Hperm. apply Hw.
  - rewrite <- (Permutation_length Hperm). apply Hw.
Qed.
End quiet.

(** ** Operations that run module code *)

(** The queue and the pool. *)
Definition core (s : work_state) :=
  (deferred s, deferred_tail s, deferred_free_list s, deferred_blocks s, wk_blocks_asked s, deferred_sequence s, wk_queued s).

Lemma core_deferred s s' : core s' = core s -> deferred s' = deferred s.
Proof. by intros [= -> _ _ _ _ _ _]. Qed.

Record stack_ok (s : work_state) : Prop := {
  so_length : length (active_work_stack s) = KB_WORK_CONTEXT_MAX_DEPTH;
  so_depth : (active_work_depth s <= KB_WORK_CONTEXT_MAX_DEPTH)%nat;
  so_active : NoDup (take (active_work_depth s) (active_work_stack s));
}.

Lemma wf_stack_ok env h s : wf env h s -> stack_ok s.
Proof. intros []. by split. Qed.

Lemma wf_core env h s s' : core s' = core s -> stack_ok s' -> wf env h s -> wf env h s'.
Proof.
  intros [= E1 E2 E3 E4 E5 E6 E7] [] [H1 H2 H3 H4 H5 H6 H7 H8 H9 H10 H11 H12 H13]. unfold item_addrs in *.
  split; unfold item_addrs; rewrite ?E1, ?E2, ?E3, ?E4, ?E5, ?E6, ?E7; assumption.
Qed.

(** Code that runs in a context of its own, which is then taken back. *)
Lemma good_bracket env s s1 s2 s3 :
  core s1 = core s -> (stack_ok s -> stack_ok s1) -> good env s1 s2 ->
  core s3 = core s2 -> (stack_ok s2 -> length (active_work_stack s3) = KB_WORK_CONTEXT_MAX_DEPTH) ->
  (context env s2 = context env s1 -> context env s3 = context env s) -> good env s s3.
Proof.
  intros E1 Hs1 Hg E3 Hs3 Hc h Hw. pose proof (wf_stack_ok _ _ _ Hw) as Hso.
  destruct (Hg h (wf_core _ _ _ _ E1 (Hs1 Hso) Hw)) as [Hw2 C2 Q2 I2]. specialize (Hc C2).
  pose proof E1 as [= Ed _ _ _ _ _ Eq]. pose proof E3 as [= Ed3 _ _ _ _ _ Eq3].
  split; [|done|lia|].
  - apply (wf_core env h s2); [done| |done]. split; [apply Hs3; by eapply wf_stack_ok|..].
    + unfold context in Hc. destruct Hso as [_ ? _]. congruence.
    + unfold context in Hc. destruct Hso as [_ _ Ha]. injection Hc as -> _ -> _ _ _ _. done.
  - intros i Hq Hi. rewrite Ed3 in Hi. destruct (I2 i ltac:(lia) Hi) as [(j & Hj & Hid)|]; [left|right; lia].
    exists j. rewrite <- Ed. done.
Qed.

Section engine.
Context (env : work_env).
Context (mmap_apart : forall j k, j <> k -> we_mmap env j <> 0 -> we_mmap env k <> 0 ->
           we_mmap env j + KB_DEFERRED_BLOCK_BYTES <= we_mmap env k \/
           we_mmap env k + KB_DEFERRED_BLOCK_BYTES <= we_mmap env j)
        (mmap_positive : forall k, 0 <= we_mmap env k).
Context (call : Z -> Z -> work_state -> run work_state).
Context (call_good : forall f a s, keeps env id s (call f a s)).
Context (threads_good : forall s, keeps env id s (we_kthread_run_ready env s)).

Lemma callback_keeps kind f a s : keeps env id s (call_callback call kind f a s).
Proof using call_good. eapply keeps_from; [|apply call_good]. by_tracked. Qed.

Lemma run_switched_keeps kind callback arg gs s : keeps env id s (run_switched env call kind callback arg gs s).
Proof using call_good.
  unfold run_switched. destruct (enter_callback_gs env _ s) as [s1 has_gs] eqn:He. intros s3.
  destruct (call_callback call kind callback arg s1) as [s2| |] eqn:Hc; cbn; [|done..]. intros [= <-].
  apply callback_keeps in Hc. cbn [id] in *.
  unfold enter_callback_gs in He. repeat case_match; simplify_eq; [done| |done].
  apply (good_bracket env s (s <| wk_gs := callback_kernel_gs env callback gs |>) s2); try done.
  - intros []. by split.
  - by intros [].
  - unfold context, task_now. cbn. intros [= ? ? ? ? ? ? ?]. congruence.
Qed.

(** *** Work *)

Lemma task_good s : good env s (kb_loader_current_task env s).1.
Proof.
  unfold kb_loader_current_task. cbn [fst]. destruct (Z.eqb_spec (wk_current_task s) 0) as [E|]; [|done].
  apply good_tracked. unfold tracked, task_now. cbn. rewrite E. cbn. by destruct (Z.eqb_spec (we_shared_task env) 0) as [->|].
Qed.

Lemma current_task_now s : (kb_loader_current_task env s).2 = task_now env s.
Proof. unfold kb_loader_current_task, task_now. cbn. by destruct (wk_current_task s =? 0). Qed.

Lemma task_back t s :
  task_now env (kb_loader_set_current_task_for_all_modules env t s) = if t =? 0 then we_shared_task env else t.
Proof.
  unfold kb_loader_set_current_task_for_all_modules, task_now. cbn.
  destruct (Z.eqb_spec t 0) as [->|Hn]; [by case_match|]. by rewrite (proj2 (Z.eqb_neq t 0)).
Qed.

Lemma take_S_insert {A} (l : list A) d (x : A) : (d < length l)%nat -> take (S d) (<[d := x]> l) = take d l ++ [x].
Proof. intros Hd. rewrite (take_S_r _ _ x) by (by apply list_lookup_insert_eq). by rewrite take_insert_ge. Qed.

Lemma work_is_active_false work s : work_is_active work s = false -> work ∉ take (active_work_depth s) (active_work_stack s).
Proof.
  unfold work_is_active. intros H Hin. apply not_true_iff_false in H. apply H, existsb_exists.
  exists work. split; [by apply list_elem_of_In|apply Z.eqb_refl].
Qed.

(** The state in which the callback of a work item starts. *)
Definition entered (depth : nat) (worker_task work module_ gs : Z) (s : work_state) : work_state :=
  kb_loader_set_current_task_for_all_modules env worker_task
    (s <| active_work_stack ::= insert depth work |> <| active_work_depth ::= S |>)
    <| wk_active_module := module_ |> <| wk_gs := gs |>.

(** The state after it, from the state [s] the callback left. *)
Definition left (depth : nat) (previous_task previous_module gs : Z) (s : work_state) : work_state :=
  kb_loader_set_current_task_for_all_modules env previous_task (s <| wk_gs := gs |> <| wk_active_module := previous_module |>)
    <| active_work_depth ::= Nat.pred |> <| active_work_stack ::= insert depth 0 |>.

Lemma entered_fields depth t work m gs s :
  let s1 := entered depth t work m gs s in
  core s1 = core s /\ active_work_stack s1 = <[depth := work]> (active_work_stack s) /\
  active_work_depth s1 = S (active_work_depth s) /\ draining_deferred_depth s1 = draining_deferred_depth s /\
  wk_backend s1 = wk_backend s.
Proof. split_and!; reflexivity. Qed.

Lemma left_fields depth t m gs s :
  let s1 := left depth t m gs s in
  core s1 = core s /\ active_work_stack s1 = <[depth := 0]> (active_work_stack s) /\
  active_work_depth s1 = Nat.pred (active_work_depth s) /\ draining_deferred_depth s1 = draining_deferred_depth s /\
  wk_backend s1 = wk_backend s /\ wk_gs s1 = gs /\ wk_active_module s1 = m /\
  wk_current_task s1 = if t =? 0 then we_shared_task env else t.
Proof. split_and!; reflexivity. Qed.

(** [run_in_worker] in those terms. *)
Lemma run_in_worker_eq depth t work func kernel_gs s :
  run_in_worker env call depth t work func kernel_gs s =
  let s0 := (kb_loader_current_task env s).1 in
  let owner := match kb_module_find_owner_for_address (we_loaded env) func with Some (p, _) => p | None => 0 end in
  let has_gs := negb (kernel_gs =? 0) && we_set_gs env kernel_gs in
  let s1 := entered depth t work owner (if has_gs then kernel_gs else wk_gs s0) s0 in
  let back (s2 : work_state) :=
    left depth (task_now env s) (wk_active_module s0) (if has_gs then wk_gs s0 else wk_gs s2) s2 in
  if negb (kernel_gs =? 0) && negb has_gs then Returns (set_work_pending work (back s1), KB_WORK_RUN_RETRY)
  else
    s2 ← call_callback call KB_DEFERRED_WORK func work s1;
    let s3 := back s2 in
    if negb (kb_loader_task_journal_info t s2 =? 0) ||
       negb (kb_loader_task_journal_info (task_now env s) s3 =? kb_loader_task_journal_info (task_now env s) s0)
    then Returns (s3 <| worker_task_poisoned ::= insert depth true |>, KB_WORK_RUN_EXECUTED)
    else Returns (s3, KB_WORK_RUN_EXECUTED).
Proof.
  pose proof (current_task_now s) as Ht. unfold run_in_worker. destruct (kb_loader_current_task env s) as [s0 prev].
  cbn [fst snd] in *. subst prev. cbv zeta. unfold enter_callback_gs.
  destruct (kernel_gs =? 0); [|destruct (we_set_gs env kernel_gs)]; cbn [negb andb].
  all: reflexivity.
Qed.

#[local] Opaque entered left.

Lemma entered_stack_ok depth t work m gs s :
  depth = active_work_depth s -> (depth < KB_WORK_CONTEXT_MAX_DEPTH)%nat ->
  work ∉ take (active_work_depth s) (active_work_stack s) -> stack_ok s -> stack_ok (entered depth t work m gs s).
Proof.
  intros Hd Hlt Hw [Hl _ Ha]. destruct (entered_fields depth t work m gs s) as (_ & E2 & E3 & _).
  split; rewrite ?E2, ?E3; [by rewrite length_insert|lia|].
  rewrite Hd, take_S_insert by lia. apply NoDup_app. split; [done|]. split; [|apply NoDup_singleton].
  by intros x Hx ->%list_elem_of_singleton.
Qed.

Lemma entered_wf h depth t work m gs s :
  depth = active_work_depth s -> (depth < KB_WORK_CONTEXT_MAX_DEPTH)%nat ->
  work ∉ take (active_work_depth s) (active_work_stack s) -> wf env h s -> wf env h (entered depth t work m gs s).
Proof.
  intros Hd Hlt Hw Hwf. apply (wf_core env h s); [apply entered_fields| |done].
  apply entered_stack_ok; [done..|]. by eapply wf_stack_ok.
Qed.

(** A callback runs between the two. *)
Lemma worker_bracket depth t work m gs s s2 :
  depth = active_work_depth s -> (depth < KB_WORK_CONTEXT_MAX_DEPTH)%nat ->
  work ∉ take (active_work_depth s) (active_work_stack s) ->
  good env (entered depth t work m gs s) s2 ->
  good env s (left depth (task_now env s) (wk_active_module s) (wk_gs s) s2).
Proof.
  intros Hd Hlt Hw Hg.
  destruct (entered_fields depth t work m gs s) as (E1 & E2 & E3 & E4 & E5).
  destruct (left_fields depth (task_now env s) (wk_active_module s) (wk_gs s) s2) as (L1 & L2 & L3 & L4 & L5 & L6 & L7 & L8).
  apply (good_bracket env s (entered depth t work m gs s) s2); [done| |done|done|..].
  - by apply entered_stack_ok.
  - intros [Hl _ _]. by rewrite L2, length_insert.
  - intros Hc. unfold context in *. injection Hc as C1 C2 C3 C4 C5 C6 C7.
    rewrite L2, L3, L4, L5, L6, L7, C1, C2, C4, E3, E4, E5. cbn [Nat.pred]. rewrite take_insert_ge by lia.
    rewrite C1, E2, E3, Hd in C3. apply (f_equal (take (active_work_depth s))) in C3. rewrite !take_take in C3.
    rewrite Nat.min_l, take_insert_ge in C3 by lia. rewrite C3. f_equal.
    unfold task_now in *. rewrite L8. destruct (Z.eqb_spec (wk_current_task s) 0); [by destruct (Z.eqb_spec (we_shared_task env) 0)|].
    by rewrite !(proj2 (Z.eqb_neq (wk_current_task s) 0)).
Qed.


(** When the base was not switched, the one the callback leaves is the one it found. *)
Lemma worker_back depth t work m gs has s s2 :
  depth = active_work_depth s -> (depth < KB_WORK_CONTEXT_MAX_DEPTH)%nat ->
  work ∉ take (active_work_depth s) (active_work_stack s) ->
  good env (entered depth t work m (if (has : bool) then gs else wk_gs s) s) s2 ->
  good env s (left depth (task_now env s) (wk_active_module s) (if has then wk_gs s else wk_gs s2) s2).
Proof.
  intros Hd Hlt Hw Hg. destruct has; [by eapply worker_bracket|].
  intros h Hwf. pose proof (worker_bracket _ _ _ _ _ _ _ Hd Hlt Hw Hg) as Hb. specialize (Hb h Hwf).
  assert (wk_gs s2 = wk_gs s) as ->; [|done].
  pose proof (entered_wf h depth t work m (wk_gs s) s Hd Hlt Hw Hwf) as He.
  pose proof (ga_context _ _ _ _ (Hg h He)) as Hc. unfold context in Hc. injection Hc as _ _ _ _ Hgs _ _. exact Hgs.
Qed.

Lemma poison_good depth s : good env s (s <| worker_task_poisoned ::= insert depth true |>).
Proof. by_tracked. Qed.

Lemma run_in_worker_keeps depth t work func kernel_gs s :
  depth = active_work_depth s -> (depth < KB_WORK_CONTEXT_MAX_DEPTH)%nat ->
  work ∉ take (active_work_depth s) (active_work_stack s) ->
  keeps env fst s (run_in_worker env call depth t work func kernel_gs s).
Proof using call_good.
  intros Hd Hlt Hw. rewrite run_in_worker_eq. pose proof (task_good s) as Ht. pose proof (current_task_now s) as Hn.
  assert (task_now env (kb_loader_current_task env s).1 = task_now env s) as Htn.
  { unfold kb_loader_current_task, task_now. cbn. destruct (Z.eqb_spec (wk_current_task s) 0); cbn; [|by rewrite (proj2 (Z.eqb_neq _ _))].
    by destruct (we_shared_task env =? 0). }
  assert (active_work_depth (kb_loader_current_task env s).1 = active_work_depth s /\
          active_work_stack (kb_loader_current_task env s).1 = active_work_stack s) as [Hds Hss].
  { unfold kb_loader_current_task. cbn. by destruct (wk_current_task s =? 0). }
  set (s0 := (kb_loader_current_task env s).1) in *. rewrite <- Htn, <- Hds, <- Hss in *. clearbody s0. cbv zeta.
  set (owner := match kb_module_find_owner_for_address (we_loaded env) func with Some (p, _) => p | None => 0 end).
  set (has := negb (kernel_gs =? 0) && we_set_gs env kernel_gs).
  set (s1 := entered depth t work owner (if has then kernel_gs else wk_gs s0) s0).
  apply (keeps_from env fst s s0); [exact Ht|].
  destruct (negb (kernel_gs =? 0) && negb has).
  { apply keeps_ret. etransitivity; [|apply work_pending_good]. cbn [fst].
    apply (worker_back depth t work owner kernel_gs has s0 s1 Hd Hlt Hw). unfold s1. reflexivity. }
  intros [s3 r]. destruct (call_callback call KB_DEFERRED_WORK func work s1) as [s2| |] eqn:Hc; cbn; [|done..].
  apply callback_keeps in Hc. cbn [id] in Hc.
  pose proof (worker_back depth t work owner kernel_gs has s0 s2 Hd Hlt Hw Hc) as Hb.
  match goal with |- (if ?b then _ else _) = _ -> _ => destruct b end; intros [= <- <-]; [|exact Hb].
  etransitivity; [exact Hb|apply poison_good].
Qed.

Lemma worker_task_good depth s :
  let s1 := (worker_task_at env depth s).1 in
  good env s s1 /\ active_work_depth s1 = active_work_depth s /\ active_work_stack s1 = active_work_stack s /\
  deferred s1 = deferred s.
Proof.
  unfold worker_task_at. destruct (nth depth (worker_tasks s) 0 =? 0); [|by cbn].
  unfold kb_loader_clone_execution_task. destruct (_ || _); (split; [by_tracked|done]).
Qed.

Lemma set_pending_deferred work s : deferred (set_work_pending work s) = deferred s.
Proof. reflexivity. Qed.

Lemma run_in_worker_retry depth t work func kernel_gs s r :
  run_in_worker env call depth t work func kernel_gs s = Returns r -> r.2 = KB_WORK_RUN_RETRY -> deferred r.1 = deferred s.
Proof.
  rewrite run_in_worker_eq. cbv zeta. set (s0 := (kb_loader_current_task env s).1).
  assert (deferred s0 = deferred s) as <- by (unfold s0, kb_loader_current_task; cbn; by destruct (wk_current_task s =? 0)).
  clearbody s0. set (has := negb (kernel_gs =? 0) && we_set_gs env kernel_gs). clearbody has.
  destruct (entered_fields depth t work
    match kb_module_find_owner_for_address (we_loaded env) func with Some (p, _) => p | None => 0 end
    (if has then kernel_gs else wk_gs s0) s0) as (E1 & _).
  set (s1 := entered _ _ _ _ _ _) in *. clearbody s1. apply core_deferred in E1.
  destruct (left_fields depth (task_now env s) (wk_active_module s0) (if has then wk_gs s0 else wk_gs s1) s1) as (L1 & _).
  apply core_deferred in L1. destruct (negb (kernel_gs =? 0) && negb has).
  - intros [= <-] _. cbn [fst]. by rewrite set_pending_deferred, L1.
  - destruct (call_callback call KB_DEFERRED_WORK func work s1) as [s2| |]; cbn; [|done..].
    match goal with |- (if ?b then _ else _) = _ -> _ => destruct b end; by intros [= <-].
Qed.

(** A work item that is to be tried again has left the queue alone: its callback did not
    run. *)
Lemma run_work_spec work gs s r :
  run_work env call work gs s = Returns r -> good env s r.1 /\ (r.2 = KB_WORK_RUN_RETRY -> deferred r.1 = deferred s).
Proof using call_good.
  unfold run_work. destruct (work =? 0); [by intros [= <-]|].
  set (func := read_pointer (wk_mem s) work KB_LINUX_WORK_FUNC_OFFSET).
  destruct (negb (work_function_usable env func s)); [intros [= <-]; cbn; split; [apply clear_pending_good|done]|].
  destruct (work_is_active work s) eqn:Hact; [by intros [= <-]|].
  destruct (Nat.leb_spec KB_WORK_CONTEXT_MAX_DEPTH (active_work_depth s)) as [|Hlt]; [by intros [= <-]|].
  destruct (nth (active_work_depth s) (worker_task_poisoned s) false); [by intros [= <-]|].
  destruct (worker_task_good (active_work_depth s) s) as (Hg & Hd & Hst & Hq).
  destruct (worker_task_at env (active_work_depth s) s) as [s1 t]. cbn [fst] in *.
  destruct (t =? 0); [by intros [= <-]|].
  destruct (negb (kb_loader_task_journal_info t s1 =? 0)).
  { intros [= <-]. cbn. split; [|done]. etransitivity; [exact Hg|by_tracked]. }
  assert (good env s (clear_work_pending work s1)) as Hg1 by (etransitivity; [exact Hg|apply clear_pending_good]).
  case_match; [by intros [= <-]|]. case_match; [by intros [= <-]|]. intros Hr.
  apply work_is_active_false in Hact. rewrite <- Hd, <- Hst in Hact. split.
  - etransitivity; [exact Hg1|]. eapply run_in_worker_keeps; [..|exact Hr]; [done|done|exact Hact].
  - intros Hretry. rewrite <- Hq. exact (run_in_worker_retry _ _ _ _ _ _ _ Hr Hretry).
Qed.



Lemma switched_keeps kind callback arg gs s : keeps env fst s (s ← run_switched env call kind callback arg gs s; Returns (s, 1)).
Proof using call_good.
  apply (keeps_bind env id); [apply run_switched_keeps|]. intros s1 _. by apply keeps_ret.
Qed.

Lemma run_timer_keeps timer gs s : keeps env fst s (run_timer env call timer gs s).
Proof using call_good.
  unfold run_timer. do 3 (case_match; [by apply keeps_ret|]).
  apply switched_keeps.
Qed.

Lemma run_tasklet_keeps tasklet gs s : keeps env fst s (run_tasklet env call tasklet gs s).
Proof using call_good.
  unfold run_tasklet. destruct (tasklet =? 0); [by apply keeps_ret|]. cbv zeta.
  set (s1 := s <| wk_mem ::= _ |>). apply (keeps_from env fst s s1); [apply mem_good|]. clearbody s1.
  repeat case_match; try apply switched_keeps; by apply keeps_ret.
Qed.

(** *** Items *)

Definition run_kind (item : kb_deferred_item) (s : work_state) : run (work_state * Z) :=
  match di_kind item with
  | KB_DEFERRED_WORK => run_work env call (di_object item) (di_kernel_gs item) s
  | KB_DEFERRED_TASKLET => '(s, _) ← run_tasklet env call (di_object item) (di_kernel_gs item) s; Returns (s, KB_WORK_RUN_EXECUTED)
  | KB_DEFERRED_TIMER => '(s, _) ← run_timer env call (di_object item) (di_kernel_gs item) s; Returns (s, KB_WORK_RUN_EXECUTED)
  end.

Lemma run_kind_spec item s r :
  run_kind item s = Returns r -> good env s r.1 /\ (r.2 = KB_WORK_RUN_RETRY -> deferred r.1 = deferred s).
Proof using call_good.
  unfold run_kind. destruct (di_kind item); [apply run_work_spec|..].
  - pose proof (run_tasklet_keeps (di_object item) (di_kernel_gs item) s) as H.
    destruct (run_tasklet _ _ _ _ _) as [[s1 x]| |]; cbn; [|done..]. intros [= <-]. split; [by apply (H (s1, x))|done].
  - pose proof (run_timer_keeps (di_object item) (di_kernel_gs item) s) as H.
    destruct (run_timer _ _ _ _ _) as [[s1 x]| |]; cbn; [|done..]. intros [= <-]. split; [by apply (H (s1, x))|done].
Qed.

Lemma run_item_eq item s :
  run_item env call item s =
  '(s', r) ← run_kind item (refresh_linux_jiffies env (s <| wk_backend := di_backend item |>));
  let s' := refresh_linux_jiffies env s' <| wk_backend := wk_backend s |> in
  if r =? KB_WORK_RUN_RETRY then Returns (prepend_deferred_item item s', false)
  else Returns (release_deferred_item item s', true).
Proof. reflexivity. Qed.

Lemma refresh_jiffies_deferred s : deferred (refresh_linux_jiffies env s) = deferred s.
Proof. unfold refresh_linux_jiffies, elapsed_jiffies, elapsed_ns, monotonic_ns. cbn. by destruct (_ || _). Qed.

(** Code that runs with another device backend. *)
Lemma backend_bracket b s s2 :
  good env (s <| wk_backend := b |>) s2 -> good env s (s2 <| wk_backend := wk_backend s |>).
Proof.
  intros Hg. apply (good_bracket env s (s <| wk_backend := b |>) s2); try done.
  - intros []. by split.
  - by intros [].
  - unfold context, task_now. cbn. intros [= ? ? ? ? ? ? ?]. congruence.
Qed.

(** An item taken out of [s], giving [s1], goes back to the pool or to the head of the
    queue in the state [sE] its run left. *)
Lemma give_back_spec h s s1 item sE (retry : bool) :
  wf env h s -> unlinked s item s1 -> wf env (di_addr item :: h) s1 -> good env s1 sE ->
  (retry = true -> deferred sE = deferred s1) ->
  let s2 := if retry then prepend_deferred_item item sE else release_deferred_item item sE in
  good_at env h s s2 /\
  if retry then deferred s2 = item :: deferred s1
  else forall i, wk_queued s2 < 2 ^ 64 -> i ∈ deferred s2 ->
         (exists j, j ∈ deferred s1 /\ identity j = identity i) \/ wk_queued s < di_sequence i.
Proof using mmap_positive.
  intros Hw Hu Hw1 HE Hsame.
  assert (context env s1 = context env s /\ wk_queued s1 = wk_queued s) as [C1 Q1].
  { destruct Hu as (i & _ & E). rewrite E. by split. }
  assert (forall j, j ∈ deferred s1 -> j ∈ deferred s) as Hsub.
  { destruct Hu as (i & _ & E). rewrite E. cbn. intros j. apply list_elem_of_delete_inv. }
  assert (item ∈ deferred s) as Hin. { destruct Hu as (i & Hi & _). by eapply list_elem_of_lookup_2. }
  destruct (HE _ Hw1) as [HwE CE QE IE]. destruct retry; cbv zeta.
  - specialize (Hsame eq_refl). split.
    + split.
      * by apply (prepend_wf env mmap_positive h item s s1 sE).
      * unfold prepend_deferred_item. destruct (_ =? 0); (etransitivity; [|exact (eq_trans CE C1)]); reflexivity.
      * unfold prepend_deferred_item. destruct (_ =? 0); cbn; lia.
      * intros i _ Hi. left. exists i. split; [|done].
        assert (i ∈ item :: deferred sE) as Hi' by (unfold prepend_deferred_item in Hi; by destruct (_ =? 0)).
        apply elem_of_cons in Hi' as [->|Hi']; [done|]. apply Hsub. by rewrite <- Hsame.
    + unfold prepend_deferred_item. destruct (_ =? 0); cbn; by rewrite Hsame.
  - split.
    + split; [by apply release_wf|exact (eq_trans CE C1)|cbn; lia|].
      intros i Hq Hi. destruct (IE i Hq Hi) as [(j & Hj & Hid)|]; [left|right; lia]. exists j. split; [by apply Hsub|done].
    + intros i Hq Hi. destruct (IE i Hq Hi) as [|]; [by left|right; lia].
Qed.

Lemma run_item_spec h s s1 item s2 again :
  wf env h s -> unlinked s item s1 -> wf env (di_addr item :: h) s1 ->
  run_item env call item s1 = Returns (s2, again) ->
  good_at env h s s2 /\
  if (again : bool) then
    forall i, wk_queued s2 < 2 ^ 64 -> i ∈ deferred s2 ->
      (exists j, j ∈ deferred s1 /\ identity j = identity i) \/ wk_queued s < di_sequence i
  else deferred s2 = item :: deferred s1.
Proof using call_good mmap_positive.
  intros Hw Hu Hw1. rewrite run_item_eq. cbv zeta.
  set (sA := s1 <| wk_backend := di_backend item |>).
  destruct (run_kind item (refresh_linux_jiffies env sA)) as [[sC r]| |] eqn:Hr; cbn [mbind run_bind]; [|done..].
  destruct (run_kind_spec _ _ _ Hr) as [Hg Hretry]. cbn [fst snd] in *.
  set (sE := refresh_linux_jiffies env sC <| wk_backend := wk_backend s1 |>).
  assert (good env s1 sE) as HE.
  { apply (backend_bracket (di_backend item)). fold sA. etransitivity; [apply refresh_jiffies_good|].
    etransitivity; [exact Hg|apply refresh_jiffies_good]. }
  assert ((r =? KB_WORK_RUN_RETRY) = true -> deferred sE = deferred s1) as Hsame.
  { intros E%Z.eqb_eq. change (deferred (refresh_linux_jiffies env sC) = deferred s1).
    rewrite refresh_jiffies_deferred, Hretry, refresh_jiffies_deferred by done. done. }
  pose proof (give_back_spec h s s1 item sE _ Hw Hu Hw1 HE Hsame) as H.
  destruct (r =? KB_WORK_RUN_RETRY); intros [= <- <-]; exact H.
Qed.

(** *** Draining *)

(** What the three ways to take an item out have in common. *)
Definition pops (pop : work_state -> work_state * option kb_deferred_item) : Prop :=
  forall h s, wf env h s ->
  match pop s with
  | (s', None) => good_at env h s s'
  | (s', Some item) => exists s0, good env s s0 /\ unlinked s0 item s' /\ wf env (di_addr item :: h) s'
  end.

Lemma drain_keeps pop limit s : pops pop -> keeps env id s (drain env call limit pop s).
Proof using call_good mmap_positive.
  intros Hp. revert s. induction limit as [|limit IH]; intros s; cbn [drain]; [by apply keeps_ret|].
  intros s3 E h Hw. pose proof (Hp h s Hw) as H. destruct (pop s) as [s1 [item|]]; [|by injection E as <-].
  destruct H as (s0 & H0 & Hu & Hw1).
  destruct (run_item env call item s1) as [[s2 again]| |] eqn:Hr; cbn in E; [|done..].
  destruct (run_item_spec h s0 s1 item s2 again (good_wf _ _ _ _ H0 Hw) Hu Hw1 Hr) as [H2 _].
  assert (good_at env h s s2) as H02 by (eapply good_at_trans; [by apply H0|exact H2]).
  destruct again; [|by injection E as <-].
  eapply good_at_trans; [exact H02|]. by apply (IH s2 s3 E h), H02.
Qed.

Lemma unlink_pops test h s : wf env h s ->
  match unlink_item (test s) s with
  | (s', None) => good_at env h s s'
  | (s', Some item) => exists s0, good env s s0 /\ unlinked s0 item s' /\ wf env (di_addr item :: h) s'
  end.
Proof.
  intros Hw. pose proof (unlink_item_spec env h (test s) s Hw) as H.
  destruct (unlink_item (test s) s) as [s' [item|]].
  - destruct H as (Hu & _ & Hw'). by exists s.
  - destruct H as [-> _]. by apply good_refl.
Qed.

Lemma pop_at_pops include_work now : pops (pop_due_deferred_at include_work now).
Proof.
  intros h s Hw. exact (unlink_pops (fun s item =>
    (include_work || negb (is_work item)) &&
    (negb (is_work item) || negb (work_is_active (di_object item) s)) && is_due now item) h s Hw).
Qed.

Lemma pop_due_pops include_work : pops (pop_due_deferred env include_work).
Proof.
  intros h s Hw. unfold pop_due_deferred. pose proof (elapsed_good env s) as He.
  destruct (elapsed_ns env s) as [s0 now]. cbn [fst] in He.
  pose proof (pop_at_pops include_work now h s0 (good_wf _ _ _ _ He Hw)) as H.
  destruct (pop_due_deferred_at include_work now s0) as [s' [item|]].
  - destruct H as (s1 & H1 & H2). exists s1. split; [by etransitivity|done].
  - eapply good_at_trans; [by apply He|exact H].
Qed.

Lemma pop_workqueue_pops wq through : pops (pop_workqueue_deferred wq through).
Proof.
  intros h s Hw. exact (unlink_pops (fun s item =>
    is_work item && (di_workqueue item =? wq) && negb (work_is_active (di_object item) s) &&
    (di_sequence item <=? through)) h s Hw).
Qed.

(** Code that runs while a drain is counted. *)
Lemma depth_bracket s s2 :
  good env (s <| draining_deferred_depth ::= S |>) s2 -> good env s (s2 <| draining_deferred_depth ::= Nat.pred |>).
Proof.
  intros Hg. apply (good_bracket env s (s <| draining_deferred_depth ::= S |>) s2); try done.
  - intros []. by split.
  - by intros [].
  - unfold context, task_now. cbn. intros [= E1 E2 ? ? ? ? ?]. rewrite E2. cbn. congruence.
Qed.

Lemma depth_keeps s (f : work_state -> run work_state) :
  keeps env id (s <| draining_deferred_depth ::= S |>) (f (s <| draining_deferred_depth ::= S |>)) ->
  keeps env id s (s ← f (s <| draining_deferred_depth ::= S |>); Returns (s <| draining_deferred_depth ::= Nat.pred |>)).
Proof.
  intros H s3. destruct (f _) as [s2| |] eqn:E; cbn; [|done..]. intros [= <-]. apply depth_bracket. by apply H.
Qed.

Lemma items_body_keeps include_work now s : keeps env id s (run_deferred_items_body env call include_work now s).
Proof using call_good mmap_positive.
  unfold run_deferred_items_body. destruct now as [now|]; [|apply drain_keeps, pop_due_pops].
  intros s3 E h Hw. pose proof (pop_at_pops include_work now h s Hw) as H.
  destruct (pop_due_deferred_at include_work now s) as [s1 [item|]]; [|by injection E as <-].
  destruct H as (s0 & H0 & Hu & Hw1).
  destruct (run_item env call item s1) as [[s2 again]| |] eqn:Hr; cbn [mbind run_bind] in E; [|done..].
  destruct (run_item_spec h s0 s1 item s2 again (good_wf _ _ _ _ H0 Hw) Hu Hw1 Hr) as [H2 _].
  assert (good_at env h s s2) as H02 by (eapply good_at_trans; [by apply H0|exact H2]).
  destruct again; [|by injection E as <-].
  eapply good_at_trans; [exact H02|]. refine (drain_keeps _ _ s2 (pop_due_pops include_work) s3 E h _). apply H02.
Qed.

Lemma run_items_keeps include_work s : keeps env id s (run_deferred_items env call include_work s).
Proof using call_good mmap_positive.
  unfold run_deferred_items. case_match; [by apply keeps_ret|]. apply depth_keeps, items_body_keeps.
Qed.

Lemma run_deferred_work_keeps s : keeps env id s (kb_run_deferred_work env call s).
Proof using call_good threads_good mmap_positive.
  unfold kb_run_deferred_work. destruct (we_kthread_yield env s); [by apply keeps_ret|]. cbv zeta.
  case_match.
  - case_match; [|by apply keeps_ret].
    pose proof (elapsed_good env (s <| draining_deferred_depth ::= S |>)) as He.
    destruct (elapsed_ns env _) as [s1 now]. cbn [fst] in He. case_match.
    + intros s3. destruct (run_deferred_items_body _ _ _ _ s1) as [s2| |] eqn:Hb; cbn [mbind run_bind]; [|done..].
      apply items_body_keeps in Hb. intros Hr. apply threads_good in Hr. etransitivity; [|exact Hr].
      apply depth_bracket. by etransitivity.
    + apply keeps_ret. by apply depth_bracket.
  - apply (keeps_bind env id); [apply threads_good|]. intros s1 _.
    apply (keeps_bind env id); [apply run_items_keeps|]. intros s2 _. apply threads_good.
Qed.

Lemma flush_workqueue_keeps wq s : keeps env id s (kb_flush_workqueue env call wq s).
Proof using call_good mmap_positive.
  unfold kb_flush_workqueue. cbv zeta. case_match; [by apply keeps_ret|].
  apply (depth_keeps s (drain env call KB_DEFERRED_DRAIN_LIMIT (pop_workqueue_deferred wq (deferred_sequence s)))).
  apply drain_keeps, pop_workqueue_pops.
Qed.

Lemma workqueues_good f s : good env s (s <| workqueues ::= f |>).
Proof. by_tracked. Qed.

Lemma set_destroying_good wq flag s : good env s (set_destroying wq flag s).
Proof. apply workqueues_good. Qed.

Lemma destroy_keeps wq s : keeps env id s (kb_destroy_workqueue env call wq s).
Proof using call_good mmap_positive.
  unfold kb_destroy_workqueue. destruct (split_workqueue wq s) as [[[before record] rest]|]; [|by apply keeps_ret].
  case_match; [by apply keeps_ret|]. eapply keeps_from; [apply (set_destroying_good wq true)|].
  apply (keeps_bind env id); [apply flush_workqueue_keeps|]. intros s1 _. cbn [id].
  case_match; [apply keeps_ret, set_destroying_good|]. unfold unlink_at_cursor.
  destruct (split_workqueue wq s1) as [[[? ?] rest1]|]; [|by intros ?].
  destruct (last before) as [p|]; [|apply keeps_ret; apply (workqueues_good (fun _ => rest1))].
  destruct (split_workqueue (wq_addr p) s1) as [[[above q] ?]|]; [|by intros ?].
  apply keeps_ret. apply (workqueues_good (fun _ => above ++ q :: rest1)).
Qed.

Lemma flush_one_keeps work require_due s : keeps env fst s (flush_one env call work require_due s).
Proof using call_good mmap_positive.
  intros [s3 r] E h Hw. unfold flush_one, take_deferred_work in E.
  destruct ((work =? 0) || work_is_active work s); [injection E as <- _; by apply good_refl|].
  pose proof (elapsed_good env s) as He. destruct (elapsed_ns env s) as [s0 now]. cbn [fst] in He.
  pose proof (unlink_item_spec env h (fun item => item_is KB_DEFERRED_WORK work item && (negb require_due || is_due now item))
    s0 (good_wf _ _ _ _ He Hw)) as H.
  destruct (unlink_item _ s0) as [s1 [item|]]; [|injection E as <- _; destruct H as [-> _]; exact (He h Hw)].
  destruct H as (Hu & _ & Hw1). cbv zeta in E.
  destruct (run_work env call work (di_kernel_gs item) (s1 <| wk_backend := di_backend item |>)) as [[sC x]| |] eqn:Hr;
    cbn [mbind run_bind] in E; [|done..].
  destruct (run_work_spec _ _ _ _ Hr) as [Hg Hretry]. cbn [fst snd] in *.
  set (sE := sC <| wk_backend := wk_backend s1 |>) in *.
  assert (good env s1 sE) as HE by (by apply (backend_bracket (di_backend item))).
  assert ((x =? KB_WORK_RUN_RETRY) = true -> deferred sE = deferred s1) as Hsame.
  { intros Ex%Z.eqb_eq. exact (Hretry Ex). }
  pose proof (give_back_spec h s0 s1 item sE _ (good_wf _ _ _ _ He Hw) Hu Hw1 HE Hsame) as [H _].
  eapply good_at_trans; [by apply He|]. destruct (x =? KB_WORK_RUN_RETRY); injection E as <- _; exact H.
Qed.

Lemma perform_keeps c s : keeps env fst s (perform env call c s).
Proof using call_good threads_good mmap_apart mmap_positive.
  destruct c; cbn [perform]; try (apply keeps_ret; cbn [fst]).
  all: try (unfold with_result; apply (keeps_bind env id); [|intros s1 _; by apply keeps_ret]).
  - unfold kb_alloc_workqueue. case_match; [done|apply workqueues_good].
  - apply flush_workqueue_keeps.
  - apply destroy_keeps.
  - by apply queue_work_good.
  - by apply queue_delayed_good.
  - by apply mod_delayed_good.
  - apply flush_one_keeps.
  - apply flush_one_keeps.
  - apply cancel_good.
  - unfold kb_tasklet_setup. etransitivity; [|apply mem_good]. case_match; [done|apply mem_good].
  - by apply tasklet_schedule_good.
  - apply mem_good.
  - by apply mod_timer_good.
  - by apply add_timer_good.
  - apply timer_delete_good.
  - apply register_jiffies_good.
  - apply run_deferred_work_keeps.
  - apply run_items_keeps.
Qed.

Lemma exec_keeps p s : keeps env id s (exec env call p s).
Proof using call_good threads_good mmap_apart mmap_positive.
  revert s. induction p as [|f k IH|c k IH]; intros s; cbn [exec].
  - by apply keeps_ret.
  - eapply keeps_from; [apply (mem_good env f)|apply IH].
  - apply (keeps_bind env fst); [apply perform_keeps|]. intros [s1 r] _. apply IH.
Qed.

(** *** Nesting *)

(** How much deeper callbacks can nest. *)
Definition room (s : work_state) : nat :=
  (KB_WORK_CONTEXT_MAX_DEPTH - active_work_depth s) + (KB_DEFERRED_MAX_DRAIN_DEPTH - draining_deferred_depth s).

Lemma good_room h s s' : good_at env h s s' -> room s' = room s.
Proof. intros [_ Hc _ _]. unfold context in Hc. injection Hc as E1 E2 _ _ _ _ _. unfold room. by rewrite E1, E2. Qed.

(** The work items that run while [works] do: the callback of a work item is called with
    that item added, which is not among them, any other callback with the same. *)
Context (n : nat) (works : list Z).
Definition here (h : list Z) (s : work_state) : Prop := wf env h s /\ running s = works.
Definition called_ok (arg : Z) (s : work_state) : Prop :=
  match last (wk_calls s) with
  | Some (KB_DEFERRED_WORK, _, _) => running s = works ++ [arg] /\ arg ∉ works
  | _ => running s = works
  end.
Lemma good_here h s s' : here h s -> good_at env h s s' -> here h s'.
Proof. intros [_ Hs] [Hw Hc _ _]. unfold context in Hc. injection Hc as _ _ E _ _ _ _. split; [done|]. unfold running in *. congruence. Qed.
Context (call_ends : forall h f a s, wf env h s -> (room s < n)%nat -> called_ok a s -> call f a s <> Endless).
Context (threads_end : forall h s, wf env h s -> we_kthread_run_ready env s <> Endless).

Lemma bind_ends {A B} (r : run A) (k : A -> run B) :
  r <> Endless -> (forall a, r = Returns a -> k a <> Endless) -> r ≫= k <> Endless.
Proof. destruct r; cbn; [|done..]. intros _ H. by apply H. Qed.

Lemma run_switched_ends h kind callback arg gs s :
  kind <> KB_DEFERRED_WORK -> here h s -> (room s < n)%nat -> run_switched env call kind callback arg gs s <> Endless.
Proof using call_ends.
  intros Hk [Hw Hs] Hr. unfold run_switched. destruct (enter_callback_gs env _ s) as [s1 has] eqn:He.
  apply bind_ends; [|done]. unfold call_callback. apply (call_ends h).
  - apply (wf_core env h s); [|by destruct (wf_stack_ok _ _ _ Hw); unfold enter_callback_gs in He; repeat case_match; simplify_eq; split|done].
    unfold enter_callback_gs in He. repeat case_match; by simplify_eq.
  - unfold enter_callback_gs in He. repeat case_match; by simplify_eq.
  - assert (running s1 = works) as E1 by (unfold enter_callback_gs in He; repeat case_match; by simplify_eq).
    unfold called_ok. change (wk_calls (s1 <| wk_calls ::= _ |>)) with (wk_calls s1 ++ [(kind, callback, arg)]). rewrite last_snoc. by destruct kind.
Qed.

Lemma run_in_worker_ends h depth t work func kernel_gs s :
  depth = active_work_depth s -> (depth < KB_WORK_CONTEXT_MAX_DEPTH)%nat ->
  work ∉ take (active_work_depth s) (active_work_stack s) -> here h s -> (room s <= n)%nat ->
  run_in_worker env call depth t work func kernel_gs s <> Endless.
Proof using call_ends.
  intros Hd Hlt Hw [Hwf Hs] Hr. rewrite run_in_worker_eq. pose proof (task_good s h Hwf) as Hg0.
  set (s0 := (kb_loader_current_task env s).1) in *. cbv zeta.
  pose proof (good_room _ _ _ Hg0) as Hr0. destruct Hg0 as [Hw0 Hc0 _ _]. unfold context in Hc0. injection Hc0 as D1 D2 D3 _ _ _ _.
  clearbody s0. case_match; [done|]. apply bind_ends; [|intros s2 _; by case_match].
  set (gs := if negb (kernel_gs =? 0) && we_set_gs env kernel_gs then kernel_gs else wk_gs s0).
  set (m := match kb_module_find_owner_for_address (we_loaded env) func with Some (p, _) => p | None => 0 end).
  assert (wf env h (entered depth t work m gs s0)) as He.
  { apply entered_wf; [congruence|done| |done]. by rewrite D3. }
  destruct (entered_fields depth t work m gs s0) as (_ & E2 & E3 & E4 & _).
  set (s1 := entered depth t work m gs s0) in *. clearbody s1. unfold call_callback. apply (call_ends h).
  - eapply wf_tracked; [|exact He]. reflexivity.
  - change (room s1 < n)%nat. unfold room in *. rewrite E3, E4. lia.
  - unfold called_ok. change (wk_calls (s1 <| wk_calls ::= _ |>)) with (wk_calls s1 ++ [(KB_DEFERRED_WORK, func, work)]). rewrite last_snoc.
    unfold running in *. split; [|congruence]. change (take (active_work_depth s1) (active_work_stack s1) = works ++ [work]).
    rewrite E2, E3, D1, <- Hd. rewrite take_S_insert by (rewrite (wf_stack _ _ _ Hw0); done). rewrite Hd, <- D1, D3. congruence.
Qed.

Lemma run_work_ends h work gs s : here h s -> (room s <= n)%nat -> run_work env call work gs s <> Endless.
Proof using call_ends.
  intros Hh Hr. pose proof Hh as [Hwf Hs]. unfold run_work. destruct (work =? 0); [done|].
  set (func := read_pointer (wk_mem s) work KB_LINUX_WORK_FUNC_OFFSET).
  destruct (negb (work_function_usable env func s)); [done|].
  destruct (work_is_active work s) eqn:Hact; [done|].
  destruct (Nat.leb_spec KB_WORK_CONTEXT_MAX_DEPTH (active_work_depth s)) as [|Hlt]; [done|].
  destruct (nth (active_work_depth s) (worker_task_poisoned s) false); [done|].
  destruct (worker_task_good (active_work_depth s) s) as (Hg & Hd & Hst & Hq).
  destruct (worker_task_at env (active_work_depth s) s) as [s1 t]. cbn [fst] in *.
  destruct (t =? 0); [done|]. destruct (negb (kb_loader_task_journal_info t s1 =? 0)); [done|].
  pose proof (good_trans env s s1 _ Hg (clear_pending_good env work s1) h Hwf) as Hg1.
  case_match; [done|]. case_match; [done|].
  apply work_is_active_false in Hact. rewrite <- Hd, <- Hst in Hact.
  apply (run_in_worker_ends h); [by rewrite <- Hd|done|exact Hact|by apply (good_here h s)|]. rewrite (good_room _ _ _ Hg1). done.
Qed.

Lemma run_kind_ends h item s : here h s -> (room s < n)%nat -> run_kind item s <> Endless.
Proof using call_ends.
  intros Hw Hr. unfold run_kind. destruct (di_kind item).
  - apply (run_work_ends h); [done|lia].
  - apply bind_ends; [|by intros []]. unfold run_tasklet. destruct (di_object item =? 0); [done|]. cbv zeta.
    assert (here h (s <| wk_mem ::= write_ulong (di_object item) KB_LINUX_TASKLET_STATE_OFFSET
       (Z.ldiff (read_ulong (wk_mem s) (di_object item) KB_LINUX_TASKLET_STATE_OFFSET) (Z.shiftl 1 KB_TASKLET_STATE_SCHED)) |>)) as Hw1
      by (split; [eapply wf_tracked; [|exact (proj1 Hw)]; reflexivity|exact (proj2 Hw)]).
    repeat case_match; try done; (apply bind_ends; [|done]; by apply (run_switched_ends h)).
  - apply bind_ends; [|by intros []]. unfold run_timer. repeat case_match; try done.
    apply bind_ends; [|done]. by apply (run_switched_ends h).
Qed.

Lemma run_item_ends h item s : here h s -> (room s < n)%nat -> run_item env call item s <> Endless.
Proof using call_ends.
  intros Hh Hr. pose proof Hh as [Hw Hs]. rewrite run_item_eq. apply bind_ends; [|intros [s1 r] _; cbv zeta; by case_match].
  assert (wf env h (s <| wk_backend := di_backend item |>)) as Hw1.
  { apply (wf_core env h s); [done| |done]. destruct (wf_stack_ok _ _ _ Hw). by split. }
  pose proof (refresh_jiffies_good env _ h Hw1) as Hg. apply (run_kind_ends h); [by apply (good_here h (s <| wk_backend := di_backend item |>))|].
  rewrite (good_room _ _ _ Hg). exact Hr.
Qed.

Lemma drain_ends h pop limit s : pops pop -> here h s -> (room s < n)%nat -> drain env call limit pop s <> Endless.
Proof using call_ends call_good mmap_positive.
  intros Hp. revert s. induction limit as [|limit IH]; intros s Hh Hr; cbn [drain]; [done|]. pose proof Hh as [Hw Hs].
  pose proof (Hp h s Hw) as H. destruct (pop s) as [s1 [item|]]; [|done].
  destruct H as (s0 & H0 & Hu & Hw1).
  assert (room s1 = room s) as Hr1.
  { rewrite <- (good_room _ _ _ (H0 h Hw)). destruct Hu as (i & _ & E). by rewrite E. }
  assert (here (di_addr item :: h) s1) as Hh1 by (split; [done|]; rewrite <- (proj2 (good_here h s s0 Hh (H0 h Hw))); destruct Hu as (i & _ & E); by rewrite E).
  apply bind_ends; [apply (run_item_ends (di_addr item :: h)); [done|lia]|].
  intros [s2 again] E. destruct again; [|done].
  destruct (run_item_spec h s0 s1 item s2 true (good_wf _ _ _ _ H0 Hw) Hu Hw1 E) as [H2 _].
  apply IH; [by apply (good_here h s0 s2 (good_here h s s0 Hh (H0 h Hw)))|]. rewrite (good_room _ _ _ H2), (good_room _ _ _ (H0 h Hw)). done.
Qed.

(** A drain is only begun when there is room for it. *)
Lemma deeper_wf h s : wf env h s -> wf env h (s <| draining_deferred_depth ::= S |>).
Proof. intros Hw. apply (wf_core env h s); [done| |done]. destruct (wf_stack_ok _ _ _ Hw). by split. Qed.
Lemma deeper_here h s : here h s -> here h (s <| draining_deferred_depth ::= S |>).
Proof. intros [Hw Hs]. split; [by apply deeper_wf|exact Hs]. Qed.
Lemma deeper_room s :
  (draining_deferred_depth s < KB_DEFERRED_MAX_DRAIN_DEPTH)%nat -> (room s <= n)%nat ->
  (room (s <| draining_deferred_depth ::= S |>) < n)%nat.
Proof.
  unfold room. change (draining_deferred_depth (s <| draining_deferred_depth ::= S |>)) with (S (draining_deferred_depth s)).
  change (active_work_depth (s <| draining_deferred_depth ::= S |>)) with (active_work_depth s). lia.
Qed.

Lemma items_body_ends h include_work now s :
  here h s -> (room s < n)%nat -> run_deferred_items_body env call include_work now s <> Endless.
Proof using call_ends call_good mmap_positive.
  intros Hh Hr. pose proof Hh as [Hw Hs]. unfold run_deferred_items_body. destruct now as [now|]; [|by apply (drain_ends h); [apply pop_due_pops|..]].
  pose proof (pop_at_pops include_work now h s Hw) as H.
  destruct (pop_due_deferred_at include_work now s) as [s1 [item|]]; [|done]. destruct H as (s0 & H0 & Hu & Hw1).
  assert (room s1 = room s) as Hr1.
  { rewrite <- (good_room _ _ _ (H0 h Hw)). destruct Hu as (i & _ & E). by rewrite E. }
  assert (here (di_addr item :: h) s1) as Hh1 by (split; [done|]; rewrite <- (proj2 (good_here h s s0 Hh (H0 h Hw))); destruct Hu as (i & _ & E); by rewrite E).
  apply bind_ends; [apply (run_item_ends (di_addr item :: h)); [done|lia]|].
  intros [s2 again] E. destruct again; [|done].
  destruct (run_item_spec h s0 s1 item s2 true (good_wf _ _ _ _ H0 Hw) Hu Hw1 E) as [H2 _].
  apply (drain_ends h); [apply pop_due_pops|by apply (good_here h s0 s2 (good_here h s s0 Hh (H0 h Hw)))|]. rewrite (good_room _ _ _ H2), (good_room _ _ _ (H0 h Hw)). done.
Qed.

Lemma run_items_ends h include_work s : here h s -> (room s <= n)%nat -> run_deferred_items env call include_work s <> Endless.
Proof using call_ends call_good mmap_positive.
  intros Hw Hr. unfold run_deferred_items. destruct (Nat.leb_spec KB_DEFERRED_MAX_DRAIN_DEPTH (draining_deferred_depth s)); [done|].
  apply bind_ends; [|done]. apply (items_body_ends h); [by apply deeper_here|by apply deeper_room].
Qed.

Lemma run_deferred_work_ends h s : here h s -> (room s <= n)%nat -> kb_run_deferred_work env call s <> Endless.
Proof using call_ends call_good threads_good threads_end mmap_positive.
  intros Hh Hr. pose proof Hh as [Hw Hs]. unfold kb_run_deferred_work. destruct (we_kthread_yield env s); [done|]. cbv zeta.
  destruct (_ && negb _).
  - destruct (Nat.ltb_spec (draining_deferred_depth s) KB_DEFERRED_MAX_DRAIN_DEPTH) as [Hlt|]; [|done].
    pose proof (deeper_wf h s Hw) as Hw1. pose proof (deeper_room s Hlt Hr) as Hr1.
    pose proof (elapsed_good env (s <| draining_deferred_depth ::= S |>) h Hw1) as He.
    destruct (elapsed_ns env _) as [s1 now]. cbn [fst] in He. destruct (_ || _); [|done].
    apply bind_ends; [apply (items_body_ends h); [by apply (good_here h _ _ (deeper_here h s Hh))|by rewrite (good_room _ _ _ He)]|].
    intros s2 Eb. apply (threads_end h).
    pose proof (good_at_trans _ _ _ _ _ He (items_body_keeps _ _ _ _ Eb h (ga_wf _ _ _ _ He))) as H2. cbn [id] in H2.
    apply (wf_core env h s2); [done| |apply H2]. destruct (wf_stack_ok _ _ _ (ga_wf _ _ _ _ H2)). by split.
  - apply bind_ends; [by apply (threads_end h)|]. intros s1 E1. pose proof (threads_good s s1 E1 h Hw) as H1. cbn [id] in H1.
    apply bind_ends; [apply (run_items_ends h); [by apply (good_here h s)|by rewrite (good_room _ _ _ H1)]|].
    intros s2 E2. apply (threads_end h). apply (run_items_keeps _ _ _ E2 h), H1.
Qed.

Lemma flush_workqueue_ends h wq s : here h s -> (room s <= n)%nat -> kb_flush_workqueue env call wq s <> Endless.
Proof using call_ends call_good mmap_positive.
  intros Hw Hr. unfold kb_flush_workqueue. destruct (Nat.leb_spec 8 (draining_deferred_depth s)) as [|Hlt]; [done|].
  apply bind_ends; [|done].
  apply (drain_ends h); [apply pop_workqueue_pops|by apply deeper_here|by apply deeper_room].
Qed.

Lemma destroy_ends h wq s : here h s -> (room s <= n)%nat -> kb_destroy_workqueue env call wq s <> Endless.
Proof using call_ends call_good mmap_positive.
  intros Hw Hr. unfold kb_destroy_workqueue. destruct (split_workqueue wq s) as [[[before record] rest]|]; [|done].
  case_match; [done|]. pose proof (set_destroying_good wq true s h (proj1 Hw)) as Hg. apply bind_ends.
  - apply (flush_workqueue_ends h); [by apply (good_here h s)|by rewrite (good_room _ _ _ Hg)].
  - intros s1 _. case_match; [done|]. unfold unlink_at_cursor. by repeat case_match.
Qed.

Lemma flush_one_ends h work require_due s : here h s -> (room s <= n)%nat -> flush_one env call work require_due s <> Endless.
Proof using call_ends mmap_positive.
  intros Hh Hr. pose proof Hh as [Hw Hs]. unfold flush_one, take_deferred_work. destruct (_ || _); [done|].
  pose proof (elapsed_good env s h Hw) as He. destruct (elapsed_ns env s) as [s0 now]. cbn [fst] in He.
  pose proof (unlink_item_spec env h (fun item => item_is KB_DEFERRED_WORK work item && (negb require_due || is_due now item))
    s0 (ga_wf _ _ _ _ He)) as H.
  destruct (unlink_item _ s0) as [s1 [item|]]; [|done]. destruct H as ((i & _ & E1) & _ & Hw1).
  cbv zeta. apply bind_ends; [|intros [s2 r] _; by case_match].
  apply (run_work_ends (di_addr item :: h)).
  - split; [apply (wf_core env _ s1); [done| |done]; destruct (wf_stack_ok _ _ _ Hw1); by split|].
    rewrite <- (proj2 (good_here h s s0 Hh He)). by rewrite E1.
  - change (room s1 <= n)%nat. rewrite E1. change (room s0 <= n)%nat. by rewrite (good_room _ _ _ He).
Qed.

Lemma perform_ends h c s : here h s -> (room s <= n)%nat -> perform env call c s <> Endless.
Proof using call_ends call_good threads_good threads_end mmap_positive.
  intros Hw Hr. destruct c; cbn [perform]; try done.
  all: try (unfold with_result; apply bind_ends; [|done]).
  - by apply (flush_workqueue_ends h).
  - by apply (destroy_ends h).
  - by apply (flush_one_ends h).
  - by apply (flush_one_ends h).
  - by apply (run_deferred_work_ends h).
  - by apply (run_items_ends h).
Qed.

Lemma exec_ends h p s : here h s -> (room s <= n)%nat -> exec env call p s <> Endless.
Proof using call_ends call_good threads_good threads_end mmap_apart mmap_positive.
  revert s. induction p as [|f k IH|c k IH]; intros s Hw Hr; cbn [exec]; [done|..].
  - apply IH; [|exact Hr]. split; [eapply wf_tracked; [|exact (proj1 Hw)]; reflexivity|exact (proj2 Hw)].
  - apply bind_ends; [by apply (perform_ends h)|]. intros [s1 r] E.
    pose proof (perform_keeps c s _ E h (proj1 Hw)) as Hg. cbn [fst] in Hg.
    apply IH; [by apply (good_here h s)|by rewrite (good_room _ _ _ Hg)].
Qed.
End engine.

(** ** The closed system *)

(** What the theorems need of the host: mapped blocks do not overlap, and the kernel
    threads that are let run behave like callbacks. *)
Record env_ok (env : work_env) : Prop := {
  eo_apart : forall j k, j <> k -> we_mmap env j <> 0 -> we_mmap env k <> 0 ->
    we_mmap env j + KB_DEFERRED_BLOCK_BYTES <= we_mmap env k \/ we_mmap env k + KB_DEFERRED_BLOCK_BYTES <= we_mmap env j;
  eo_positive : forall k, 0 <= we_mmap env k;
  eo_threads : forall s, keeps env id s (we_kthread_run_ready env s);
  eo_threads_end : forall h s, wf env h s -> we_kthread_run_ready env s <> Endless;
}.

Lemma call_within_good env code n f a s : env_ok env -> keeps env id s (call_within env code n f a s).
Proof.
  intros [H1 H2 H3 H4]. revert f a s. induction n as [|n IH]; intros f a s; cbn [call_within]; [by intros ?|].
  by apply exec_keeps.
Qed.

Lemma call_within_ends env code n h f a s :
  env_ok env -> wf env h s -> (room s < n)%nat -> call_within env code n f a s <> Endless.
Proof.
  intros He. pose proof He as [H1 H2 H3 H4]. revert h f a s.
  induction n as [|n IH]; intros h f a s Hw Hr; cbn [call_within]; [lia|].
  apply (exec_ends env H1 H2 _ (fun f a s => call_within_good env code n f a s He) H3 n (running s) (fun h f a s Hw Hr _ => IH h f a s Hw Hr) H4 h); [done|lia].
Qed.

(** The call [c] of module code whose functions are [code]. *)
Definition module_call (env : work_env) (code : Z -> Z -> script) (c : work_call) (s : work_state) : run (work_state * Z) :=
  perform env (call_within env code nesting_limit) c s.

Lemma module_call_good env code c s : env_ok env -> keeps env fst s (module_call env code c s).
Proof.
  intros He. pose proof He as [H1 H2 H3 H4]. apply perform_keeps; [done..| |done]. intros f a t. by apply call_within_good.
Qed.

(** The states that modules can bring the component to. *)
Inductive work_reachable (env : work_env) (code : Z -> Z -> script) : work_state -> Prop :=
  | wr_init m : work_reachable env code (work_state_init m)
  | wr_memory f s : work_reachable env code s -> work_reachable env code (s <| wk_mem ::= f |>)
  | wr_call c s s' r : work_reachable env code s -> module_call env code c s = Returns (s', r) -> work_reachable env code s'.

Lemma init_wf env m : wf env [] (work_state_init m).
Proof. split; cbn; try done; try constructor. intros a Ha. by apply elem_of_nil in Ha. lia. Qed.

(** ** Checked runs *)

(** A run in which checks are made ends as the run does, unless a check fails. *)
Definition agrees {A} (checked plain : run A) : Prop := checked = Endless \/ checked = plain.
#[export] Instance agrees_refl {A} : Reflexive (@agrees A).
Proof. by right. Qed.
Lemma agrees_bind {A B} (r r' : run A) (k k' : A -> run B) : agrees r' r -> (forall a, agrees (k' a) (k a)) -> agrees (r' ≫= k') (r ≫= k).
Proof. intros [->| ->] H; [by left|]. destruct r; cbn; [apply H|done..]. Qed.

Section agreement.
Context (env : work_env) (call call' : Z -> Z -> work_state -> run work_state) (call_agrees : forall f a s, agrees (call' f a s) (call f a s)).

Ltac agree := repeat first [reflexivity | apply agrees_bind; [|intros ?] | case_match].
Lemma switched_agrees kind callback arg gs s : agrees (run_switched env call' kind callback arg gs s) (run_switched env call kind callback arg gs s).
Proof using call_agrees. unfold run_switched. destruct (enter_callback_gs env _ s). apply agrees_bind; [apply call_agrees|reflexivity]. Qed.
Lemma run_work_agrees work gs s : agrees (run_work env call' work gs s) (run_work env call work gs s).
Proof using call_agrees.
  unfold run_work. agree. unfold run_in_worker. destruct (kb_loader_current_task env _), (enter_callback_gs env _ _). case_match; [done|]. apply agrees_bind; [apply call_agrees|]. intros. by case_match.
Qed.
Lemma run_item_agrees item s : agrees (run_item env call' item s) (run_item env call item s).
Proof using call_agrees.
  unfold run_item. apply agrees_bind; [|reflexivity]. destruct (di_kind item); [apply run_work_agrees|..]; (apply agrees_bind; [|reflexivity]).
  - unfold run_tasklet. repeat (case_match; try done); (apply agrees_bind; [apply switched_agrees|reflexivity]).
  - unfold run_timer. repeat (case_match; try done). apply agrees_bind; [apply switched_agrees|reflexivity].
Qed.
Lemma drain_agrees limit pop : forall s, agrees (drain env call' limit pop s) (drain env call limit pop s).
Proof using call_agrees.
  induction limit as [|limit IH]; intros s; cbn [drain]; [done|]. destruct (pop s) as [s1 [item|]]; [|done]. apply agrees_bind; [apply run_item_agrees|]. intros [s2 again]. destruct again; [apply IH|done].
Qed.
Lemma run_items_agrees include_work s : agrees (run_deferred_items env call' include_work s) (run_deferred_items env call include_work s).
Proof using call_agrees. unfold run_deferred_items. case_match; [done|]. apply agrees_bind; [apply drain_agrees|reflexivity]. Qed.
Lemma run_deferred_work_agrees s : agrees (kb_run_deferred_work env call' s) (kb_run_deferred_work env call s).
Proof using call_agrees.
  unfold kb_run_deferred_work. case_match; [done|]. cbv zeta. destruct (_ && negb _).
  - case_match; [|done]. destruct (elapsed_ns env _) as [s1 now]. case_match; [|done]. apply agrees_bind; [|reflexivity]. unfold run_deferred_items_body. destruct (pop_due_deferred_at true now s1) as [s2 [item|]]; [|done].
    apply agrees_bind; [apply run_item_agrees|]. intros [s3 again]. destruct again; [apply drain_agrees|done].
  - apply agrees_bind; [done|]. intros s1. apply agrees_bind; [apply run_items_agrees|reflexivity].
Qed.
Lemma flush_workqueue_agrees wq s : agrees (kb_flush_workqueue env call' wq s) (kb_flush_workqueue env call wq s).
Proof using call_agrees. unfold kb_flush_workqueue. case_match; [done|]. apply agrees_bind; [apply drain_agrees|reflexivity]. Qed.
Lemma flush_one_agrees work require_due s : agrees (flush_one env call' work require_due s) (flush_one env call work require_due s).
Proof using call_agrees. unfold flush_one. destruct (take_deferred_work env work require_due s) as [s1 [item|]]; [|done]. apply agrees_bind; [apply run_work_agrees|reflexivity]. Qed.
Lemma perform_agrees c s : agrees (perform env call' c s) (perform env call c s).
Proof using call_agrees.
  destruct c; cbn [perform]; [reflexivity| | |reflexivity|reflexivity|reflexivity|apply flush_one_agrees|apply flush_one_agrees|reflexivity|reflexivity|reflexivity|reflexivity|reflexivity|reflexivity|reflexivity|reflexivity| |]; unfold with_result, kb_run_deferred_bottom_halves; (apply agrees_bind; [|reflexivity]).
  - apply flush_workqueue_agrees.
  - unfold kb_destroy_workqueue. destruct (split_workqueue _ s) as [[[before record] rest]|]; [|done]. case_match; [done|]. apply agrees_bind; [apply flush_workqueue_agrees|reflexivity].
  - apply run_deferred_work_agrees.
  - apply run_items_agrees.
Qed.
End agreement.

(** What is checked at every step of module code: the items of the queue and the free ones
    are different places of the blocks, the tail is the last item and nothing is queued
    twice; and the work items that run are [works], those whose callbacks were called and
    have not returned. *)
Definition in_blocks (s : work_state) (a : Z) : bool := existsb (fun b => bool_decide (a ∈ block_items b)) (deferred_blocks s).
Definition queue_sound (s : work_state) : bool :=
  bool_decide (NoDup (item_addrs s ++ deferred_free_list s)) && forallb (in_blocks s) (item_addrs s ++ deferred_free_list s) &&
  (deferred_tail s =? default 0 (di_addr <$> last (deferred s))) && bool_decide (NoDup (item_key <$> deferred s)).
Fixpoint exec_checked (env : work_env) (call : Z -> Z -> work_state -> run work_state) (works : list Z) (p : script) (s : work_state) : run work_state :=
  if queue_sound s && bool_decide (running s = works) then
    match p with
    | Return => Returns s
    | Compute f k => exec_checked env call works (k (wk_mem s)) (s <| wk_mem ::= f |>)
    | Call c k => '(s, r) ← perform env call c s; exec_checked env call works (k r) s
    end
  else Endless.
(** And at every call of a callback: no work item runs inside itself. *)
Fixpoint call_checked (env : work_env) (code : Z -> Z -> script) (fuel : nat) (works : list Z) (func arg : Z) (s : work_state) : run work_state :=
  match fuel with
  | O => Endless
  | S fuel =>
      let works := match last (wk_calls s) with Some (KB_DEFERRED_WORK, _, _) => works ++ [arg] | _ => works end in
      if bool_decide (NoDup works) then exec_checked env (call_checked env code fuel works) works (code func arg) s else Endless
  end.
Definition checked_call (env : work_env) (code : Z -> Z -> script) (c : work_call) (s : work_state) : run (work_state * Z) :=
  perform env (call_checked env code nesting_limit (running s)) c s.

Lemma exec_checked_agrees env call call' works p : (forall f a s, agrees (call' f a s) (call f a s)) -> forall s, agrees (exec_checked env call' works p s) (exec env call p s).
Proof.
  intros Hc. induction p as [|f k IH|c k IH]; intros s; cbn [exec_checked exec]; (case_match; [|by left]); [done|apply IH|]. apply agrees_bind; [by apply perform_agrees|]. intros [s1 r]. apply IH.
Qed.
Lemma call_checked_agrees env code n : forall works f a s, agrees (call_checked env code n works f a s) (call_within env code n f a s).
Proof.
  induction n as [|n IH]; intros works f a s; cbn [call_checked call_within]; [by left|]. case_bool_decide; [|by left]. apply exec_checked_agrees. intros. apply IH.
Qed.
Lemma call_checked_good env code n works f a s : env_ok env -> keeps env id s (call_checked env code n works f a s).
Proof.
  intros He s' E. destruct (call_checked_agrees env code n works f a s) as [E'|E']; [congruence|]. apply (call_within_good env code n f a s He). congruence.
Qed.

Lemma sound_wf env h s : wf env h s -> queue_sound s = true.
Proof.
  intros [_ _ Hp Hh Ht Hk _ _ _ _ _ _ _]. unfold queue_sound. repeat (apply andb_true_iff; split).
  - apply bool_decide_eq_true. apply NoDup_app in Hp as (H1 & H2 & (_ & _ & H3)%NoDup_app). apply NoDup_app. split_and!; [done| |done]. intros a Ha Hf. apply (H2 a Ha), elem_of_app. by right.
  - apply forallb_forall. intros a Ha%list_elem_of_In. destruct (Hh a) as (b & Hb & Hab); [rewrite !elem_of_app in *; tauto|]. apply existsb_exists. exists b. split; [by apply list_elem_of_In|by apply bool_decide_eq_true].
  - by apply Z.eqb_eq.
  - by apply bool_decide_eq_true.
Qed.
Lemma exec_checked_ends env code n works h p : env_ok env ->
  (forall h f a s, wf env h s -> (room s < n)%nat -> called_ok works a s -> call_checked env code n works f a s <> Endless) ->
  forall s, here env works h s -> (room s <= n)%nat -> exec_checked env (call_checked env code n works) works p s <> Endless.
Proof.
  intros He Hc. pose proof He as [H1 H2 H3 H4]. assert (forall f a s, keeps env id s (call_checked env code n works f a s)) as Hg by (intros; by apply call_checked_good).
  induction p as [|f k IH|c k IH]; intros s [Hw Hs] Hr; cbn [exec_checked]; rewrite (sound_wf _ _ _ Hw), bool_decide_true by done; cbn [andb]; [done|..].
  - apply IH; [|exact Hr]. split; [|exact Hs]. eapply wf_tracked; [|exact Hw]. reflexivity.
  - apply bind_ends; [by apply (perform_ends env H2 _ Hg H3 n works Hc H4 h)|]. intros [s1 r] E. pose proof (perform_keeps env H1 H2 _ Hg H3 c s _ E h Hw) as Hg1. cbn [fst] in Hg1.
    apply IH; [by apply (good_here env works h s)|by rewrite (good_room _ _ _ _ Hg1)].
Qed.
Lemma call_checked_ends env code n : env_ok env -> forall works h f a s, wf env h s -> (room s < n)%nat -> called_ok works a s -> call_checked env code n works f a s <> Endless.
Proof.
  intros He. induction n as [|n IH]; intros works h f a s Hw Hr Hok; cbn [call_checked]; [lia|]. unfold called_ok in Hok.
  set (works' := match last (wk_calls s) with Some (KB_DEFERRED_WORK, _, _) => works ++ [a] | _ => works end).
  assert (running s = works') as Hs by (unfold works'; repeat case_match; tauto). rewrite bool_decide_true by (rewrite <- Hs; apply Hw). apply (exec_checked_ends env code n works' h); [done|apply IH|done|lia].
Qed.
Lemma checked_call_agrees env code c s : env_ok env -> wf env [] s -> checked_call env code c s <> Endless /\ checked_call env code c s = module_call env code c s.
Proof.
  intros He Hw. pose proof He as [H1 H2 H3 H4]. assert (checked_call env code c s <> Endless) as Hn.
  { apply (perform_ends env H2 _ (fun f a s' => call_checked_good env code nesting_limit (running s) f a s' He) H3 nesting_limit (running s)
      (call_checked_ends env code nesting_limit He (running s)) H4 [] c s (conj Hw eq_refl)). unfold room, nesting_limit. lia. }
  split; [done|]. destruct (perform_agrees env (call_within env code nesting_limit) (call_checked env code nesting_limit (running s)) (call_checked_agrees env code nesting_limit (running s)) c s) as [E|E]; [by destruct (Hn E)|exact E].
Qed.

(** C31: Callbacks cannot nest without end.  Whatever the callbacks of a module call,
    drains and flushes included, every call comes back before callbacks are nested
    more than 24 deep (8 drains, 16 work items): the model never runs out of fuel. *)
Theorem callbacks_nest_bounded env code c s :
  env_ok env -> wf env [] s -> module_call env code c s <> Endless.
Proof.
  intros He Hw. pose proof He as [H1 H2 H3 H4].
  apply (perform_ends env H2 _ (fun f a s => call_within_good env code nesting_limit f a s He) H3 nesting_limit
    (running s) (fun h f a s Hw Hr _ => call_within_ends env code nesting_limit h f a s He Hw Hr) H4 [] c s (conj Hw eq_refl)).
  unfold room, nesting_limit. lia.
Qed.

(** C32: In every state that modules can reach, by any calls whose callbacks make any
    calls, the queue is well formed: queued and free items are different places of the
    mapped blocks, the tail is the last item, no work item, tasklet or timer is queued
    twice; and nothing is being drained or run between calls.  The same holds inside the
    callbacks, at every step of their code, where moreover the work items marked as active
    are exactly those whose callbacks were called and have not returned, and no work item
    runs inside itself: the run in which all of this is checked is the run itself. *)
Theorem deferred_queue_invariant env code s :
  env_ok env -> work_reachable env code s ->
  wf env [] s /\ active_work_depth s = 0%nat /\ draining_deferred_depth s = 0%nat /\
  forall c, checked_call env code c s <> Endless /\ checked_call env code c s = module_call env code c s.
Proof.
  intros He H. assert (wf env [] s /\ active_work_depth s = 0%nat /\ draining_deferred_depth s = 0%nat) as (Hw & D1 & D2); [|split_and!; [done..|]; intros c; by apply checked_call_agrees].
  induction H as [m|f s _ (IH & D1 & D2)|c s s' r _ (IH & D1 & D2) Hc].
  - split; [apply init_wf|done].
  - split; [|done]. eapply wf_tracked; [|exact IH]. reflexivity.
  - pose proof (module_call_good env code c s He _ Hc [] IH) as [Hw Hx _ _]. cbn [fst] in *.
    unfold context in Hx. injection Hx as E1 E2 _ _ _ _ _. split; [done|]. split; congruence.
Qed.

(** The context of the caller survives every call: after it the same task and
    module are current, with the same device backend and GS base, the same work items
    are active and the same drains under way, whatever the callbacks did and however
    they were left. *)
Theorem calls_restore_context env code c s s' r :
  env_ok env -> wf env [] s -> module_call env code c s = Returns (s', r) -> context env s' = context env s.
Proof. intros He Hw Hc. apply (module_call_good env code c s He _ Hc [] Hw). Qed.

(** ** Flushing a work queue *)





(** A flush: the items are run one after the other, in the order of the queue and each in
    the context it was queued in, until there are none; or until one cannot be run, which
    goes back to the head of the queue untouched. *)
Section flush.
Context (env : work_env) (call : Z -> Z -> work_state -> run work_state) (wq through : Z).
End flush.



(** ** Times *)

(** Milliseconds survive the trip through jiffies, for every 32-bit value. *)
Theorem msecs_roundtrip msecs : is_u32 msecs -> kb_jiffies_to_msecs (kb_msecs_to_jiffies msecs) = msecs.
Proof.
  intros Hm. unfold kb_msecs_to_jiffies, kb_jiffies_to_msecs, jiffies_to_ns, ns_to_jiffies_ceil.
  unfold KB_NSEC_PER_MSEC, KB_NSEC_PER_SEC, KB_LINUX_HZ, UINT32_MAX, is_u32 in *.
  rewrite (u64_small (msecs * 1000000)) by (unfold is_u64; lia).
  destruct (Z.eqb_spec (msecs * 1000000) 0) as [E|E]; [replace msecs with 0 by lia; done|].
  rewrite (u64_small (msecs * 1000000 * 1000)) by (unfold is_u64; lia).
  rewrite (u64_small (msecs * 1000000 * 1000 + 1000000000 - 1)) by (unfold is_u64; lia).
  replace (msecs * 1000000 * 1000 + 1000000000 - 1) with (999999999 + msecs * 1000000000) by lia.
  rewrite Z.div_add by lia. change (999999999 / 1000000000) with 0. rewrite Z.add_0_l.
  rewrite (proj2 (Z.eqb_neq msecs 0)) by lia. rewrite (u64_small (msecs * 1000000000)) by (unfold is_u64; lia).
  replace (msecs * 1000000000) with (msecs * 1000000 * 1000) by lia. rewrite Z.div_mul by lia.
  rewrite (u64_small (msecs * 1000000 + 1000000 - 1)) by (unfold is_u64; lia).
  replace (msecs * 1000000 + 1000000 - 1) with (999999 + msecs * 1000000) by lia.
  rewrite Z.div_add by lia. change (999999 / 1000000) with 0. rewrite Z.add_0_l.
  by rewrite (proj2 (Z.ltb_ge _ _)) by lia.
Qed.

(** A delay of 214 days wraps around to less than a third of a millisecond, so work and
    timers meant for later than that are due at once. *)
Lemma long_delay_wraps : jiffies_to_ns 18446744074 = 290448.
Proof. reflexivity. Qed.

(** ** A module *)

Definition demo_module : kb_module :=
  mk_module (mk_elf_file [] 0 0 0 0 0 0 0 0) None 0x400000 [] [mk_loaded_section 0x400000 0x1000 0 16 (KB_ELF_SHF_ALLOC + KB_ELF_SHF_EXECINSTR)]
    (mk_module_stubs None 0 0x900000) [] [] 0 0.

Definition demo_env : work_env :=
  mk_work_env [(1, demo_module)] (fun n => 1000 + Z.of_nat n) (fun k => 0x10000000 + 0x1000 * Z.of_nat k)
    (fun k => 0x2000000 + 0x2000 * Z.of_nat k) 0x3000000 0x3000000 (fun _ => true) 0 (fun _ => true)
    (fun _ => false) (fun _ => false) Returns.

Lemma demo_env_ok : env_ok demo_env.
Proof.
  split.
  - intros j k Hjk _ _. cbn. unfold KB_DEFERRED_BLOCK_BYTES. lia.
  - intros k. cbn. lia.
  - intros s t [= <-]. reflexivity.
  - done.
Qed.

(** Two work functions: one queues its work again, one makes a new work queue. *)
Definition demo_code (func arg : Z) : script :=
  if func =? 0x400010 then Call (QueueWork 0x600000 arg) (fun _ => Return)
  else if func =? 0x400020 then Call (AllocWorkqueue 0x700000 0 0) (fun _ => Return)
  else Return.

(** The work items at 0x500000 and 0x500100. *)
Definition demo_mem : mem := mstore64 (mstore64 ∅ (0x500000 + 24) 0x400010) (0x500100 + 24) 0x400020.

Definition after (c : work_call) (s : work_state) : work_state :=
  match module_call demo_env demo_code c s with Returns (s', _) => s' | _ => s end.

Lemma after_wf c s : wf demo_env [] s -> wf demo_env [] (after c s).
Proof.
  intros Hw. unfold after. destruct (module_call demo_env demo_code c s) as [[s' r]| |] eqn:E; [|done..].
  exact (ga_wf _ _ _ _ (module_call_good demo_env demo_code c s demo_env_ok _ E [] Hw)).
Qed.

(** A work queue with work in it. *)
Definition demo_start : work_state := after (QueueWork 0x600000 0x500000) (after (AllocWorkqueue 0x600000 0 0) (work_state_init demo_mem)).

Lemma demo_start_wf : wf demo_env [] demo_start.
Proof. unfold demo_start. apply after_wf, after_wf, init_wf. Qed.

Lemma demo_start_reachable : work_reachable demo_env demo_code demo_start.
Proof.
  assert (forall c s, work_reachable demo_env demo_code s -> work_reachable demo_env demo_code (after c s)) as H.
  { intros c s Hs. unfold after. destruct (module_call demo_env demo_code c s) as [[s' r]| |] eqn:E; [|done..]. by eapply wr_call. }
  unfold demo_start. apply H, H. constructor.
Qed.

Lemma callbacks_nest_bounded_witness :
  length (deferred demo_start) = 1%nat /\ module_call demo_env demo_code RunDeferredWork demo_start <> Endless.
Proof.
  split; [vm_compute; reflexivity|].
  apply (callbacks_nest_bounded demo_env demo_code RunDeferredWork demo_start demo_env_ok demo_start_wf).
Defined.

Lemma deferred_queue_invariant_witness : wf demo_env [] demo_start /\ length (deferred demo_start) = 1%nat.
Proof.
  split; [|vm_compute; reflexivity].
  exact (proj1 (deferred_queue_invariant demo_env demo_code demo_start demo_env_ok demo_start_reachable)).
Defined.

(** The flush runs the work, which queues itself once more. *)
Definition demo_flush : run (work_state * Z) := module_call demo_env demo_code (FlushWorkqueue 0x600000) demo_start.
Lemma demo_flush_runs :
  match demo_flush with Returns (s, _) => (wk_queued s =? 2) && bool_decide (wk_calls s = [(KB_DEFERRED_WORK, 0x400010, 0x500000)]) | _ => false end = true.
Proof. vm_compute. reflexivity. Qed.

Lemma calls_restore_context_witness :
  match demo_flush with Returns (s, _) => context demo_env s = context demo_env demo_start | _ => False end.
Proof.
  pose proof demo_flush_runs as H. unfold demo_flush in *.
  destruct (module_call demo_env demo_code (FlushWorkqueue 0x600000) demo_start) as [[s' r]| |] eqn:E; [|done..].
  exact (calls_restore_context demo_env demo_code _ demo_start s' r demo_env_ok demo_start_wf E).
Defined.


(** Destroying the newest work queue forgets one that a callback makes meanwhile: the
    list is cut at the head that was read before the flush. *)
Lemma destroy_forgets_new_queue :
  let s := after (QueueWork 0x600000 0x500100) (after (AllocWorkqueue 0x600000 0 0) (work_state_init demo_mem)) in
  let s' := after (DestroyWorkqueue 0x600000) s in
  wk_calls s' = [(KB_DEFERRED_WORK, 0x400020, 0x500100)] /\ find_workqueue 0x700000 s' = None.
Proof. vm_compute. split; reflexivity. Qed.
