(* ===== verification/Irq.v ===== *)
(** * Interrupts (src/src/linux_personality/linux_irq.c)

    The table from Linux interrupt numbers to vectors of the device backend, the list of
    requested interrupts, and the functions that wait for an interrupt and run the
    handlers a driver registered.  Waiting can itself call the trampoline, so the
    handlers are taken out of the entry while it waits.  The device backend and the GS base
    of the caller are switched around handlers and polls, and put back.

    Entries are known by their address, as the code's pointers are: an entry that a
    handler freed while it is in use makes the result [Broken].  Handlers,
    the poll of a root hub and the deferred work are module code and act on the whole state;
    the device backends and the PCI and USB parts act on the rest of the world [W]; all of
    them are parameters ([irq_env]).
    Left out: tracing and the forwarding aliases at the end of the file. *)

From S2P Require Import Prelude ShimTable ModuleLayout DeferredWork.

(** ** Vectors *)

Definition KB_IRQ_BACKEND_KIND_SHIFT : Z := 30.
Definition KB_IRQ_BACKEND_VECTOR_MASK : Z := 0x3fffffff.
Definition KB_IRQ_BACKEND_KIND_LEGACY : Z := 0.
Definition KB_IRQ_BACKEND_KIND_MSI : Z := 1.
Definition KB_IRQ_BACKEND_KIND_MSIX : Z := 2.
Definition KB_IRQ_LINUX_BASE : Z := 32.
Definition KB_IRQ_MAPPING_MAX : nat := 256.

Record shim_irq_mapping := mk_irq_mapping { im_linux_irq : Z; im_backend_vector : Z }.
Definition free_mapping : shim_irq_mapping := mk_irq_mapping 0 0.

Record vector_table := mk_vectors { irq_mappings : list shim_irq_mapping; next_linux_irq : Z }.
#[export] Instance vector_table_eta : Settable vector_table := fun r => mk_vectors (irq_mappings r) (next_linux_irq r).
Definition vectors_init : vector_table := mk_vectors (replicate KB_IRQ_MAPPING_MAX free_mapping) KB_IRQ_LINUX_BASE.

Definition encode_vector (backend_kind backend_vector : Z) : Z :=
  Z.lor (u32 (Z.shiftl backend_kind KB_IRQ_BACKEND_KIND_SHIFT)) (Z.land backend_vector KB_IRQ_BACKEND_VECTOR_MASK).

(** The error code, or the new interrupt number.  The out-pointer is given. *)
Definition kb_irq_allocate_mapping (backend_kind backend_vector : Z) (t : vector_table) : vector_table * (Z + Z) :=
  if KB_IRQ_BACKEND_KIND_MSIX <? backend_kind then (t, inl (-22))
  else
    match first_index (fun m => im_linux_irq m =? 0) (irq_mappings t) with
    | None => (t, inl (-12))
    | Some i =>
        let linux_irq := next_linux_irq t in
        let next := u32 (next_linux_irq t + 1) in
        let next := if (next =? 0) || (KB_IRQ_BACKEND_VECTOR_MASK <=? next) then KB_IRQ_LINUX_BASE else next in
        (t <| irq_mappings ::= insert i (mk_irq_mapping linux_irq (encode_vector backend_kind backend_vector)) |>
           <| next_linux_irq := next |>, inr linux_irq)
    end.

Definition kb_irq_backend_vector (linux_irq : Z) (t : vector_table) : Z :=
  match list_find (fun m => im_linux_irq m = linux_irq) (irq_mappings t) with
  | Some (_, m) => im_backend_vector m
  | None => linux_irq
  end.

Definition kb_irq_clear_mappings (t : vector_table) : vector_table := vectors_init.

(** ** Entries *)

Record shim_irq := mk_shim_irq {
  si_addr : Z;
  si_irq : Z;
  si_dev_id : Z;
  si_handler : Z;
  si_thread_fn : Z;
  si_backend : Z;
  si_device : Z;
  si_backend_irq : Z;
  si_kernel_gs : Z;
}.
#[export] Instance shim_irq_eta : Settable shim_irq := fun r =>
  mk_shim_irq (si_addr r) (si_irq r) (si_dev_id r) (si_handler r) (si_thread_fn r) (si_backend r) (si_device r)
    (si_backend_irq r) (si_kernel_gs r).

(** What is done, oldest first: calls of handlers with their arguments, and the calls
    to the backend that end a registration. *)
Inductive irq_event :=
  | HandlerRuns (func irq dev_id : Z)
  | Unregisters (ops_of device backend_irq : Z).
#[export] Instance irq_event_eq_dec : EqDecision irq_event.
Proof. solve_decision. Defined.

Section irq.
Context {W : Type}.

Record irq_state := mk_irq_state {
  irq_list : list shim_irq;
  iq_vectors : vector_table;
  iq_backend : Z;                           (* kb_shim_current_device_backend() *)
  iq_gs : Z;                                (* the GS base *)
  iq_log : list irq_event;
  iq_world : W;
}.
#[local] Instance irq_state_eta : Settable irq_state := fun r =>
  mk_irq_state (irq_list r) (iq_vectors r) (iq_backend r) (iq_gs r) (iq_log r) (iq_world r).

(** [ops != NULL && ops->f != NULL] are the [ie_has_*] fields.  [ie_irq_wait] says which
    contexts the backend calls the trampoline with while it waits. *)
Record irq_env := mk_irq_env {
  ie_loaded : loaded_modules;
  ie_set_gs : Z -> bool;
  ie_handler : Z -> Z -> Z -> irq_state -> run irq_state;
  ie_has_wait : Z -> bool;
  ie_irq_wait : Z -> Z -> Z -> Z -> W -> W * list Z * kb_status;
  ie_has_register : Z -> bool;
  ie_irq_register : Z -> Z -> Z -> Z -> W -> W * outcome Z;
  ie_has_unregister : Z -> bool;
  ie_irq_unregister : Z -> Z -> Z -> W -> W;
  ie_has_device_at : Z -> bool;
  ie_device_at : Z -> Z -> W -> outcome Z;
  ie_active_device : W -> Z;                (* kb_pci_active_backend_device() *)
  ie_xhci_pending : W -> bool;
  ie_xhci_ack : W -> W;
  ie_is_usb_hcd : Z -> W -> bool;           (* kb_usb_subsystem_hcd_snapshot() == 0 *)
  ie_root_hub_poll_needed : W -> bool;
  ie_poll_root_hub : Z -> irq_state -> run irq_state;  (* kb_usb_poll_root_hub(), which runs the hub's code *)
  ie_synthesize_connected : W -> W;
  ie_run_deferred_work : irq_state -> run irq_state;
  ie_run_bottom_halves : irq_state -> run irq_state;
}.
Context (env : irq_env).

Definition entry_at (addr : Z) (s : irq_state) : option shim_irq :=
  snd <$> list_find (fun e => si_addr e = addr) (irq_list s).
Definition set_entry (addr : Z) (f : shim_irq -> shim_irq) (s : irq_state) : irq_state :=
  s <| irq_list ::= fmap (fun e => if si_addr e =? addr then f e else e) |>.

(** [entry->next]: the address of the entry after the one at [addr], [None] if that is
    not in the list any more. *)
Fixpoint next_in (addr : Z) (l : list shim_irq) : option (option Z) :=
  match l with
  | [] => None
  | e :: l => if si_addr e =? addr then Some (si_addr <$> head l) else next_in addr l
  end.

Definition irq_entry_is_usb_hcd (e : shim_irq) (s : irq_state) : bool :=
  negb (si_dev_id e =? 0) && ie_is_usb_hcd env (si_dev_id e) (iq_world s).

(** ** Running handlers *)

Definition enter_gs (kernel_gs : Z) (s : irq_state) : irq_state * bool :=
  if kernel_gs =? 0 then (s, false)
  else if ie_set_gs env kernel_gs then (s <| iq_gs := kernel_gs |>, true) else (s, false).
Definition leave_gs (has_gs : bool) (old_gs : Z) (s : irq_state) : irq_state :=
  if has_gs then s <| iq_gs := old_gs |> else s.

Definition call_handler (func : Z) (e : shim_irq) (s : irq_state) : run irq_state :=
  if func =? 0 then Returns s
  else ie_handler env func (si_irq e) (si_dev_id e) (s <| iq_log ::= fun l => l ++ [HandlerRuns func (si_irq e) (si_dev_id e)] |>).

Definition function_gs (func : Z) : Z := if func =? 0 then 0 else kb_module_kernel_gs_for_address (ie_loaded env) func.

(** [ctx] is the address of an entry. *)
Definition irq_trampoline (ctx : Z) (s : irq_state) : run irq_state :=
  match entry_at ctx s with
  | None => Broken
  | Some e =>
      let old_backend := iq_backend s in
      let s := s <| iq_backend := si_backend e |> in
      let handler_gs := function_gs (si_handler e) in
      let thread_gs := function_gs (si_thread_fn e) in
      let kernel_gs := if negb (handler_gs =? 0) then handler_gs else thread_gs in
      let kernel_gs := if kernel_gs =? 0 then si_kernel_gs e else kernel_gs in
      let old_gs := iq_gs s in
      let '(s, has_gs) := enter_gs kernel_gs s in
      s ← call_handler (si_handler e) e s;
      match entry_at ctx s with
      | None => Broken
      | Some e =>
          let '(s, has_gs, old_gs) :=
            if has_gs && negb (handler_gs =? 0) && negb (thread_gs =? 0) && negb (handler_gs =? thread_gs) then
              let s := leave_gs true old_gs s in
              let old_gs := iq_gs s in
              let '(s, has_gs) := enter_gs thread_gs s in (s, has_gs, old_gs)
            else (s, has_gs, old_gs) in
          s ← call_handler (si_thread_fn e) e s;
          Returns (leave_gs has_gs old_gs s <| iq_backend := old_backend |>)
      end
  end.

Definition poll_root_hub_for_irq (addr : Z) (s : irq_state) : run irq_state :=
  if negb (ie_root_hub_poll_needed env (iq_world s)) then Returns s
  else
    match entry_at addr s with
    | None => Broken
    | Some e =>
        let old_backend := iq_backend s in
        let s := s <| iq_backend := si_backend e |> in
        let old_gs := iq_gs s in
        let '(s, has_gs) := enter_gs (si_kernel_gs e) s in
        s ← ie_poll_root_hub env (si_dev_id e) s;
        Returns (leave_gs has_gs old_gs s <| iq_backend := old_backend |>)
    end.

Fixpoint trampolines (ctxs : list Z) (s : irq_state) : run irq_state :=
  match ctxs with
  | [] => Returns s
  | ctx :: ctxs => s ← irq_trampoline ctx s; trampolines ctxs s
  end.

(** Waits with the handlers out of the entry, and puts them back. *)
Definition wait_entry (e : shim_irq) (timeout_ns : Z) (s : irq_state) : run (irq_state * kb_status) :=
  let s := set_entry (si_addr e) (fun e => e <| si_handler := 0 |> <| si_thread_fn := 0 |>) s in
  let '(w, ctxs, status) := ie_irq_wait env (si_backend e) (si_device e) (si_backend_irq e) timeout_ns (iq_world s) in
  s ← trampolines ctxs (s <| iq_world := w |>);
  match entry_at (si_addr e) s with
  | None => Broken
  | Some _ =>
      Returns (set_entry (si_addr e) (fun x => x <| si_handler := si_handler e |> <| si_thread_fn := si_thread_fn e |>) s, status)
  end.

Definition is_ok (status : kb_status) : bool := bool_decide (status = KB_OK).

Definition entry_for_dev_id (dev_id : Z) (s : irq_state) : option shim_irq :=
  snd <$> list_find (fun e => si_dev_id e = dev_id) (irq_list s).

(** The body that [kb_wait_irq_for_dev_id] and [kb_handle_irq_for_dev_id] share.  The
    pending flag and the kind of entry are read while the handlers are still out. *)
Definition wait_and_handle (dev_id timeout_ns : Z) (s : irq_state) : run (irq_state * Z) :=
  match entry_for_dev_id dev_id s with
  | None => Returns (s, -19)
  | Some e =>
      if negb (ie_has_wait env (si_backend e)) then Returns (s, -95)
      else
        '(s, status) ← wait_entry e timeout_ns s;
        let xhci_pending := ie_xhci_pending env (iq_world s) in
        let usb_hcd_irq := irq_entry_is_usb_hcd e s in
        s ← (if is_ok status then irq_trampoline (si_addr e) s else Returns s);
        s ← (if xhci_pending && negb (is_ok status) then irq_trampoline (si_addr e) s else Returns s);
        s ← (if xhci_pending || (is_ok status && usb_hcd_irq) then poll_root_hub_for_irq (si_addr e) s else Returns s);
        let s := if xhci_pending then s <| iq_world ::= ie_xhci_ack env |> else s in
        s ← ie_run_deferred_work env s;
        Returns (s, if is_ok status then 0 else -110)
  end.
Definition kb_wait_irq_for_dev_id (dev_id timeout_ns : Z) (s : irq_state) : run (irq_state * Z) :=
  wait_and_handle dev_id timeout_ns s.
Definition kb_handle_irq_for_dev_id (dev_id timeout_ns : Z) (s : irq_state) : run (irq_state * Z) :=
  wait_and_handle dev_id timeout_ns s.

Definition kb_wait_irq_signal_for_dev_id (dev_id timeout_ns : Z) (s : irq_state) : run (irq_state * Z) :=
  match entry_for_dev_id dev_id s with
  | None => Returns (s, -19)
  | Some e =>
      if negb (ie_has_wait env (si_backend e)) then Returns (s, -95)
      else '(s, status) ← wait_entry e timeout_ns s; Returns (s, if is_ok status then 0 else -110)
  end.

Definition kb_trigger_irq_for_dev_id (dev_id : Z) (s : irq_state) : run (irq_state * Z) :=
  match entry_for_dev_id dev_id s with
  | None => Returns (s, -19)
  | Some e =>
      s ← irq_trampoline (si_addr e) s;
      s ← ie_run_deferred_work env s;
      Returns (s, 0)
  end.

(** *** All entries *)

(** [entry = entry->next]. *)
Definition advance_cursor (addr : Z) (s : irq_state) : run (option Z) :=
  match next_in addr (irq_list s) with Some next => Returns next | None => Broken end.

Fixpoint device_loop (fuel : nat) (backend device timeout_ns : Z) (cursor : option Z) (handled : bool) (s : irq_state)
    : run (irq_state * bool) :=
  match fuel, cursor with
  | _, None => Returns (s, handled)
  | O, Some _ => Endless
  | S fuel, Some addr =>
      match entry_at addr s with
      | None => Broken
      | Some e =>
          '(s, handled) ←
            (if negb (si_backend e =? backend) || negb (si_device e =? device) || negb (ie_has_wait env (si_backend e))
             then Returns (s, handled)
             else
               '(s, status) ← wait_entry e (if (handled : bool) then 0 else timeout_ns) s;
               if is_ok status then s ← irq_trampoline addr s; Returns (s, true) else Returns (s, handled));
          next ← advance_cursor addr s;
          device_loop fuel backend device timeout_ns next handled s
      end
  end.

Definition kb_handle_device_irqs (backend device_index timeout_ns : Z) (s : irq_state) : run (irq_state * Z) :=
  if backend =? 0 then Returns (s, -22)
  else if negb (ie_has_device_at env backend) then Returns (s, -95)
  else
    match ie_device_at env backend device_index (iq_world s) with
    | Done device =>
        if device =? 0 then Returns (s, -19)
        else
          '(s, handled) ←
            device_loop (S (length (irq_list s))) backend device timeout_ns (si_addr <$> head (irq_list s)) false s;
          if (handled : bool) then s ← ie_run_deferred_work env s; Returns (s, 0) else Returns (s, -110)
    | _ => Returns (s, -19)
    end.

(** One round of [handle_any_irq]: what is handled and whether a pending xHCI was seen. *)
Definition any_entry (e : shim_irq) (timeout_ns : Z) (handled saw : bool) (s : irq_state) : run (irq_state * bool * bool) :=
  if negb (ie_has_wait env (si_backend e)) then Returns (s, handled, saw)
  else
    '(s, status) ← wait_entry e (if handled then 0 else timeout_ns) s;
    let xhci_pending := negb saw && ie_xhci_pending env (iq_world s) in
    let usb_hcd_irq := irq_entry_is_usb_hcd e s in
    s ← (if is_ok status then irq_trampoline (si_addr e) s else Returns s);
    s ← (if xhci_pending && negb (is_ok status) then irq_trampoline (si_addr e) s else Returns s);
    let seen := xhci_pending || (is_ok status && usb_hcd_irq) in
    Returns (s, handled || is_ok status || seen, saw || seen).

Fixpoint any_loop (fuel : nat) (timeout_ns : Z) (cursor : option Z) (handled saw : bool) (s : irq_state)
    : run (irq_state * bool * bool) :=
  match fuel, cursor with
  | _, None => Returns (s, handled, saw)
  | O, Some _ => Endless
  | S fuel, Some addr =>
      match entry_at addr s with
      | None => Broken
      | Some e =>
          '(s, handled, saw) ← any_entry e timeout_ns handled saw s;
          next ← advance_cursor addr s;
          any_loop fuel timeout_ns next handled saw s
      end
  end.

Definition handle_any_irq (timeout_ns : Z) (run_work : bool) (s : irq_state) : run (irq_state * Z) :=
  '(s, handled, saw) ← any_loop (S (length (irq_list s))) timeout_ns (si_addr <$> head (irq_list s)) false false s;
  let s := if (saw : bool) then s <| iq_world ::= fun w => ie_xhci_ack env (ie_synthesize_connected env w) |> else s in
  s ← (if run_work then ie_run_deferred_work env s else ie_run_bottom_halves env s);
  Returns (s, if (handled : bool) then 0 else -110).
Definition kb_handle_any_irq (timeout_ns : Z) (s : irq_state) : run (irq_state * Z) := handle_any_irq timeout_ns true s.
Definition kb_handle_any_irq_no_work (timeout_ns : Z) (s : irq_state) : run (irq_state * Z) := handle_any_irq timeout_ns false s.

(** ** Requesting and freeing *)

Definition first_device (backend : Z) (s : irq_state) : outcome Z :=
  if negb (ie_has_device_at env backend) then Fail KB_ERR_INVALID else ie_device_at env backend 0 (iq_world s).

(** [entry] is what kb_kzalloc returned. *)
Definition kb_request_threaded_irq (irq handler thread_fn dev_id entry : Z) (s : irq_state) : irq_state * Z :=
  if (handler =? 0) && (thread_fn =? 0) then (s, -22)
  else
    let backend := iq_backend s in
    let device := ie_active_device env (iq_world s) in
    match (if device =? 0 then first_device backend s else Done device) with
    | Done device =>
        if device =? 0 then (s, -19)
        else if entry =? 0 then (s, -12)
        else if negb (ie_has_register env backend) then (s, -19)
        else
          let backend_vector := kb_irq_backend_vector irq (iq_vectors s) in
          match ie_irq_register env backend device backend_vector entry (iq_world s) with
          | (w, Done backend_irq) =>
              (s <| iq_world := w |>
                 <| irq_list ::= cons (mk_shim_irq entry irq dev_id handler thread_fn backend device backend_irq (iq_gs s)) |>, 0)
          | (w, _) => (s <| iq_world := w |>, -5)
          end
    | _ => (s, -19)
    end.
Definition kb_request_irq (irq handler dev_id entry : Z) (s : irq_state) : irq_state * Z :=
  kb_request_threaded_irq irq handler 0 dev_id entry s.
Definition kb_devm_request_threaded_irq (irq handler thread_fn dev_id entry : Z) (s : irq_state) : irq_state * Z :=
  kb_request_threaded_irq irq handler thread_fn dev_id entry s.

(** [ops_of]: the backend whose operations are used. *)
Definition unregister (ops_of : Z) (e : shim_irq) (s : irq_state) : irq_state :=
  if ie_has_unregister env ops_of
  then s <| iq_world ::= ie_irq_unregister env ops_of (si_device e) (si_backend_irq e) |>
         <| iq_log ::= fun l => l ++ [Unregisters ops_of (si_device e) (si_backend_irq e)] |>
  else s.

Definition kb_free_irq (irq dev_id : Z) (s : irq_state) : irq_state :=
  match first_index (fun e => (si_irq e =? irq) && (si_dev_id e =? dev_id)) (irq_list s) with
  | None => s
  | Some i =>
      match irq_list s !! i with
      | None => s
      | Some e => unregister (si_backend e) e (s <| irq_list ::= delete i |>)
      end
  end.

Definition kb_free_all_irqs (s : irq_state) : irq_state :=
  let backend := iq_backend s in
  foldl (fun s e => unregister backend e (s <| irq_list ::= tail |>)) s (irq_list s).
End irq.
Arguments irq_state : clear implicits.
Arguments irq_env : clear implicits.
#[export] Instance irq_state_eta' W : Settable (irq_state W) := fun r =>
  mk_irq_state (irq_list r) (iq_vectors r) (iq_backend r) (iq_gs r) (iq_log r) (iq_world r).
