(* ===== verification/IrqTheorems.v ===== *)
(** * Theorems about interrupts (Irq.v)

    Vectors: what was allocated is found again.  Handlers: one interrupt runs the handler
    and the thread function of its entry once each, although the backend may call the
    trampoline while it waits; polling all entries runs them in order, each at most
    once; in both cases the entries and the context are as before. *)

From S2P Require Import Prelude ElfReader ShimTable ModuleLayout DeferredWork Irq.

(** ** Vectors *)

Definition requests (reqs : list (Z * Z)) (t : vector_table) : vector_table * list (Z + Z) :=
  foldl (fun '(t, rs) r => let '(t, x) := kb_irq_allocate_mapping r.1 r.2 t in (t, rs ++ [x])) (t, []) reqs.

Definition vector_entry (i : nat) (r : Z * Z) : shim_irq_mapping :=
  mk_irq_mapping (KB_IRQ_LINUX_BASE + Z.of_nat i) (encode_vector r.1 r.2).

Lemma requests_table reqs :
  (length reqs <= KB_IRQ_MAPPING_MAX)%nat -> Forall (fun r => 0 <= r.1 <= KB_IRQ_BACKEND_KIND_MSIX) reqs ->
  requests reqs vectors_init =
  (mk_vectors (imap vector_entry reqs ++ replicate (KB_IRQ_MAPPING_MAX - length reqs) free_mapping)
     (KB_IRQ_LINUX_BASE + Z.of_nat (length reqs)),
   imap (fun i _ => inr (KB_IRQ_LINUX_BASE + Z.of_nat i)) reqs).
Proof.
  induction reqs as [|r reqs IH] using rev_ind; intros Hl Hk; [done|].
  rewrite length_app in Hl. cbn in Hl. apply Forall_app in Hk as [Hk Hr]. apply Forall_cons in Hr as [Hr _].
  unfold requests in *. rewrite foldl_app, IH by (done || lia). cbn [foldl].
  unfold kb_irq_allocate_mapping at 1. rewrite (proj2 (Z.ltb_ge _ _)) by lia.
  cbn [irq_mappings next_linux_irq].
  assert (KB_IRQ_MAPPING_MAX - length reqs = S (KB_IRQ_MAPPING_MAX - S (length reqs)))%nat as E
    by (unfold KB_IRQ_MAPPING_MAX in *; lia).
  assert (first_index (fun m => im_linux_irq m =? 0)
    (imap vector_entry reqs ++ replicate (KB_IRQ_MAPPING_MAX - length reqs) free_mapping) = Some (length reqs)) as ->.
  { apply first_index_Some. exists free_mapping. rewrite E. cbn [replicate]. split_and!.
    - rewrite lookup_app_r, length_imap, Nat.sub_diag by (rewrite length_imap; lia). done.
    - done.
    - intros j y Hy Hj. rewrite lookup_app_l in Hy by (rewrite length_imap; lia).
      rewrite list_lookup_imap in Hy. destruct (reqs !! j); [|done]. cbn in Hy. injection Hy as <-.
      apply Z.eqb_neq. cbn. unfold KB_IRQ_LINUX_BASE. lia. }
  f_equal.
  - apply (f_equal2 mk_vectors).
    + transitivity (<[length reqs := vector_entry (length reqs) r]>
        (imap vector_entry reqs ++ replicate (KB_IRQ_MAPPING_MAX - length reqs) free_mapping)); [reflexivity|].
      rewrite E. cbn [replicate]. rewrite insert_app_r_alt, length_imap, Nat.sub_diag by (rewrite length_imap; lia).
      cbn [insert list_insert]. rewrite imap_app, <- app_assoc. cbn [imap compose app]. rewrite Nat.add_0_r.
      replace (KB_IRQ_MAPPING_MAX - length (reqs ++ [r]))%nat with (KB_IRQ_MAPPING_MAX - S (length reqs))%nat
        by (rewrite length_app; cbn [length]; lia). done.
    + rewrite length_app. cbn [length]. unfold KB_IRQ_LINUX_BASE, KB_IRQ_BACKEND_VECTOR_MASK, KB_IRQ_MAPPING_MAX in *.
      rewrite u32_small by (unfold is_u32; lia). rewrite (proj2 (Z.eqb_neq _ _)), (proj2 (Z.leb_gt _ _)) by lia. cbn [orb]. lia.
  - rewrite imap_app. cbn. by rewrite Nat.add_0_r.
Qed.

(** C35: Interrupt numbers and vectors: up to 256 allocations succeed with the numbers
    32, 33, ... in order; each number then leads to the kind and the vector it was
    allocated for (below 2^30) and no other; one more is refused with -12 and changes
    nothing. *)
Theorem irq_vectors_roundtrip reqs :
  (length reqs <= KB_IRQ_MAPPING_MAX)%nat ->
  Forall (fun r => 0 <= r.1 <= KB_IRQ_BACKEND_KIND_MSIX /\ 0 <= r.2 <= KB_IRQ_BACKEND_VECTOR_MASK) reqs ->
  let '(t, results) := requests reqs vectors_init in
  (forall i kind vector, reqs !! i = Some (kind, vector) ->
     exists n, results !! i = Some (inr n) /\ n = KB_IRQ_LINUX_BASE + Z.of_nat i /\
       Z.shiftr (kb_irq_backend_vector n t) KB_IRQ_BACKEND_KIND_SHIFT = kind /\
       Z.land (kb_irq_backend_vector n t) KB_IRQ_BACKEND_VECTOR_MASK = vector) /\
  (length reqs = KB_IRQ_MAPPING_MAX -> forall kind vector, 0 <= kind <= KB_IRQ_BACKEND_KIND_MSIX ->
     kb_irq_allocate_mapping kind vector t = (t, inl (-12))).
Proof.
  intros Hl Hr. rewrite requests_table; [|done|eapply Forall_impl; [exact Hr|by intros r []]]. split.
  - intros i kind vector Hi. exists (KB_IRQ_LINUX_BASE + Z.of_nat i). rewrite list_lookup_imap, Hi. split; [done|]. split; [done|].
    pose proof (proj1 (Forall_lookup _ _) Hr i _ Hi) as [Hk Hv]. cbn in Hk, Hv.
    assert (kb_irq_backend_vector (KB_IRQ_LINUX_BASE + Z.of_nat i)
      (mk_vectors (imap vector_entry reqs ++ replicate (KB_IRQ_MAPPING_MAX - length reqs) free_mapping)
         (KB_IRQ_LINUX_BASE + Z.of_nat (length reqs))) = encode_vector kind vector) as ->.
    { unfold kb_irq_backend_vector. cbn [irq_mappings].
      assert (list_find (fun m => im_linux_irq m = KB_IRQ_LINUX_BASE + Z.of_nat i)
        (imap vector_entry reqs ++ replicate (KB_IRQ_MAPPING_MAX - length reqs) free_mapping) =
        Some (i, vector_entry i (kind, vector))) as ->; [|done].
      apply list_find_Some. pose proof (lookup_lt_Some _ _ _ Hi) as Hlt. split_and!.
      - rewrite lookup_app_l by (by rewrite length_imap). by rewrite list_lookup_imap, Hi.
      - done.
      - intros j y Hy Hj. rewrite lookup_app_l in Hy by (rewrite length_imap; lia).
        rewrite list_lookup_imap in Hy. destruct (reqs !! j); [|done]. cbn in Hy. injection Hy as <-.
        cbn. unfold KB_IRQ_LINUX_BASE. lia. }
    unfold encode_vector, KB_IRQ_BACKEND_KIND_SHIFT, KB_IRQ_BACKEND_VECTOR_MASK, KB_IRQ_BACKEND_KIND_MSIX in *.
    change 0x3fffffff with (Z.ones 30). rewrite Z.land_ones by lia. rewrite (Z.mod_small vector) by lia.
    rewrite Z.shiftl_mul_pow2, u32_small by (unfold is_u32; lia).
    rewrite <- Z.shiftl_mul_pow2, Z.lor_comm, lor_shiftl_add by lia. rewrite Z.land_ones, Z.shiftr_div_pow2 by lia.
    split; [rewrite Z.div_add, Z.div_small by lia; lia|rewrite Z.mod_add by lia; apply Z.mod_small; lia].
  - intros Hfull kind vector Hk. unfold kb_irq_allocate_mapping. rewrite (proj2 (Z.ltb_ge _ _)) by lia.
    cbn [irq_mappings]. rewrite Hfull, Nat.sub_diag, app_nil_r.
    assert (first_index (fun m => im_linux_irq m =? 0) (imap vector_entry reqs) = None) as ->; [|done].
    apply first_index_None, Forall_lookup. intros i m Hm. rewrite list_lookup_imap in Hm. destruct (reqs !! i); [|done].
    cbn in Hm. injection Hm as <-. apply Z.eqb_neq. cbn. unfold KB_IRQ_LINUX_BASE. lia.
Qed.

(** ** Handlers *)

(** The calls one interrupt of the entry makes. *)
Definition call_of (func : Z) (e : shim_irq) : list irq_event :=
  if func =? 0 then [] else [HandlerRuns func (si_irq e) (si_dev_id e)].
Definition calls_of (e : shim_irq) : list irq_event := call_of (si_handler e) e ++ call_of (si_thread_fn e) e.

Section waiting.
Context {W : Type} (env : irq_env W).

Lemma enter_gs_spec gs (s : irq_state W) :
  let '(s', has) := enter_gs env gs s in s' = s <| iq_gs := if (has : bool) then gs else iq_gs s |>.
Proof. unfold enter_gs. destruct (gs =? 0); [by destruct s|]. by destruct (ie_set_gs env gs), s. Qed.

(** *** Waiting *)

Definition silent (e : shim_irq) : shim_irq := e <| si_handler := 0 |> <| si_thread_fn := 0 |>.

Lemma entry_at_lookup (s : irq_state W) i e : NoDup (si_addr <$> irq_list s) -> irq_list s !! i = Some e -> entry_at (si_addr e) s = Some e.
Proof.
  intros Hn Hi. unfold entry_at. assert (list_find (fun x => si_addr x = si_addr e) (irq_list s) = Some (i, e)) as ->; [|done].
  apply list_find_Some. split_and!; [done|done|]. intros j y Hj Hlt E.
  assert (i = j) as ->; [|lia]. eapply NoDup_lookup; [exact Hn| |]; rewrite list_lookup_fmap; [by rewrite Hi|by rewrite Hj; cbn; f_equal].
Qed.

Lemma silence_restore (s : irq_state W) e :
  NoDup (si_addr <$> irq_list s) -> e ∈ irq_list s ->
  set_entry (si_addr e) (fun x => x <| si_handler := si_handler e |> <| si_thread_fn := si_thread_fn e |>)
    (set_entry (si_addr e) silent s) = s.
Proof.
  intros Hn [i Hi]%list_elem_of_lookup. unfold set_entry. destruct s as [l v b g lg w]. cbn in *. f_equal.
  rewrite <- list_fmap_compose. apply list_eq. intros j. rewrite list_lookup_fmap. destruct (l !! j) as [x|] eqn:Hj; [|done].
  cbn. f_equal. destruct (Z.eqb_spec (si_addr x) (si_addr e)) as [E|E]; cbn; [|by rewrite (proj2 (Z.eqb_neq _ _))].
  assert (i = j) as ->.
  { eapply NoDup_lookup; [exact Hn| |]; rewrite list_lookup_fmap; [by rewrite Hi|by rewrite Hj; cbn; f_equal]. }
  rewrite Hi in Hj. injection Hj as <-. rewrite Z.eqb_refl. by destruct e.
Qed.

Lemma silent_entry (s : irq_state W) e :
  NoDup (si_addr <$> irq_list s) -> e ∈ irq_list s -> entry_at (si_addr e) (set_entry (si_addr e) silent s) = Some (silent e).
Proof.
  intros Hn [i Hi]%list_elem_of_lookup. change (si_addr e) with (si_addr (silent e)) at 1. apply (entry_at_lookup _ i).
  - unfold set_entry. cbn. rewrite <- list_fmap_compose.
    assert (si_addr ∘ (fun x => if si_addr x =? si_addr e then silent x else x) <$> irq_list s = si_addr <$> irq_list s) as ->; [|done].
    apply list_fmap_ext. intros j x _. cbn. by case_match.
  - unfold set_entry. cbn. rewrite list_lookup_fmap, Hi. cbn. by rewrite Z.eqb_refl.
Qed.

(** The backend calls the trampoline, if at all, for the entry that waits. *)
Definition calls_own (l : list shim_irq) : Prop :=
  forall e timeout w, e ∈ l ->
  Forall (eq (si_addr e)) (ie_irq_wait env (si_backend e) (si_device e) (si_backend_irq e) timeout w).1.2.

Lemma no_handler e (s : irq_state W) : call_handler env 0 e s = Returns s.
Proof. done. Qed.
Lemma trampoline_silent addr e (s : irq_state W) : entry_at addr s = Some (silent e) -> irq_trampoline env addr s = Returns s.
Proof.
  intros He. unfold irq_trampoline. rewrite He. cbv zeta. change (si_handler (silent e)) with 0. change (si_thread_fn (silent e)) with 0. change (function_gs env 0) with 0. cbn [Z.eqb negb].
  pose proof (enter_gs_spec (si_kernel_gs (silent e)) (s <| iq_backend := si_backend (silent e) |>)) as H1. destruct (enter_gs env _ _) as [s1 has]. subst s1. rewrite no_handler. cbn [mbind run_bind].
  match goal with |- context [entry_at addr ?x] => change (entry_at addr x) with (entry_at addr s) end. rewrite He, andb_false_r. cbn [andb negb]. change (si_thread_fn (silent e)) with 0. rewrite no_handler. cbn [mbind run_bind]. unfold leave_gs. by destruct s, has.
Qed.
Lemma trampolines_silent addr e ctxs (s : irq_state W) :
  entry_at addr s = Some (silent e) -> Forall (eq addr) ctxs -> trampolines env ctxs s = Returns s.
Proof.
  intros He. induction ctxs as [|c ctxs IH]; intros Hc; cbn [trampolines]; [done|].
  apply Forall_cons in Hc as [<- Hc]. rewrite (trampoline_silent _ _ _ He). by apply IH.
Qed.

(** What waiting for the entry comes to. *)
Definition waits (e : shim_irq) (timeout : Z) (w : W) : W * list Z * kb_status :=
  ie_irq_wait env (si_backend e) (si_device e) (si_backend_irq e) timeout w.

(** Waiting runs no handler, whatever the backend does, and restores the entry. *)
Lemma wait_entry_silent e timeout s :
  NoDup (si_addr <$> irq_list s) -> e ∈ irq_list s -> calls_own (irq_list s) ->
  wait_entry env e timeout s = Returns (s <| iq_world := (waits e timeout (iq_world s)).1.1 |>, (waits e timeout (iq_world s)).2).
Proof.
  intros Hn He Hown. unfold wait_entry, waits. fold silent.
  pose proof (silent_entry s e Hn He) as Hs. pose proof (silence_restore s e Hn He) as Hre.
  set (s0 := set_entry (si_addr e) silent s) in *. 
  change (set_entry (si_addr e) (fun e : shim_irq => e <| si_handler := 0 |> <| si_thread_fn := 0 |>) s) with s0.
  change (iq_world s0) with (iq_world s). pose proof (Hown e timeout (iq_world s) He) as Hc.
  destruct (ie_irq_wait env _ _ _ _ (iq_world s)) as [[w ctxs] status]. cbn [fst snd] in *.
  rewrite (trampolines_silent (si_addr e) e) by done. cbn [mbind run_bind].
  change (entry_at (si_addr e) (s0 <| iq_world := w |>)) with (entry_at (si_addr e) s0). rewrite Hs. do 2 f_equal.
  apply (f_equal irq_list) in Hre. unfold set_entry in *. cbn in *. rewrite Hre. reflexivity.
Qed.

End waiting.

(** ** One interrupt *)

Section once.
Context {W : Type} (env : irq_env W).

(** What the theorem asks of module code: handlers, the poll of a root hub and deferred work
    return, with the GS base they were called with, run no handlers themselves and neither
    change nor free a requested interrupt; they may request others, and do what they like to
    the rest of the world.  Handlers and polls may leave another device backend behind;
    deferred work does not (calls_restore_context of WorkTheorems.v). *)
Definition keeps_entries (s s' : irq_state W) : Prop := forall addr e, entry_at addr s = Some e -> entry_at addr s' = Some e.
Definition ran (l : list irq_event) (s s' : irq_state W) : Prop := iq_log s' = iq_log s ++ l /\ iq_gs s' = iq_gs s /\ keeps_entries s s'.
Context (handlers_return : forall func irq dev_id s, exists s', ie_handler env func irq dev_id s = Returns s' /\ ran [] s s').
Context (polls_return : forall dev_id s, exists s', ie_poll_root_hub env dev_id s = Returns s' /\ ran [] s s').
Context (work_returns : forall s, exists s', ie_run_deferred_work env s = Returns s' /\ ran [] s s' /\ iq_backend s' = iq_backend s).

Lemma ran_refl s : ran [] s s.
Proof. split_and!; [by rewrite app_nil_r|done|by intros a x]. Qed.
Lemma ran_trans l1 l2 s1 s2 s3 : ran l1 s1 s2 -> ran l2 s2 s3 -> ran (l1 ++ l2) s1 s3.
Proof. intros (L1 & G1 & E1) (L2 & G2 & E2). split_and!; [by rewrite L2, L1, app_assoc|congruence|]. intros a e H. auto. Qed.
Lemma call_handler_ran func e s : exists s', call_handler env func e s = Returns s' /\ ran (call_of func e) s s'.
Proof using handlers_return.
  unfold call_handler, call_of. destruct (func =? 0); [exists s; split; [done|]; apply ran_refl|].
  destruct (handlers_return func (si_irq e) (si_dev_id e) (s <| iq_log ::= fun l => l ++ [HandlerRuns func (si_irq e) (si_dev_id e)] |>)) as (s' & E & L & G & K). exists s'. split; [done|]. rewrite app_nil_r in L. by split_and!.
Qed.
(** Module code between a switch of the backend and the GS base and the switch back. *)
Lemma switched_ran (f : irq_state W -> run (irq_state W)) l backend gs s : (forall s1, keeps_entries s s1 -> exists s', f s1 = Returns s' /\ ran l s1 s') ->
  let '(s1, has) := enter_gs env gs (s <| iq_backend := backend |>) in
  exists s2, f s1 = Returns s2 /\ ran l s (leave_gs has (iq_gs s) s2) /\ iq_gs s2 = iq_gs s1 /\ keeps_entries s s2.
Proof.
  intros Hf. pose proof (enter_gs_spec env gs (s <| iq_backend := backend |>)) as H1. destruct (enter_gs env gs _) as [s1 has]. destruct (Hf s1) as (s2 & E & L & G & K); [subst s1; by intros a x|].
  exists s2. subst s1. split; [done|]. split; [|by split]. split_and!; [by destruct has|destruct has; [done|exact G]|by destruct has].
Qed.
Lemma trampoline_ran addr e s : entry_at addr s = Some e ->
  exists s', irq_trampoline env addr s = Returns s' /\ ran (calls_of e) s s' /\ iq_backend s' = iq_backend s.
Proof using handlers_return.
  intros He. unfold irq_trampoline. rewrite He. cbv zeta.
  set (hg := function_gs env (si_handler e)). set (tg := function_gs env (si_thread_fn e)). set (kg := if (if negb (hg =? 0) then hg else tg) =? 0 then _ else _). clearbody kg hg tg.
  pose proof (enter_gs_spec env kg (s <| iq_backend := si_backend e |>)) as H1. destruct (enter_gs env kg _) as [s1 has]. destruct (call_handler_ran (si_handler e) e s1) as (s2 & -> & L2 & G2 & K2). cbn [mbind run_bind].
  rewrite (K2 addr e) by (by subst s1). change (iq_gs (s <| iq_backend := si_backend e |>)) with (iq_gs s). subst s1.
  destruct (has && negb (hg =? 0) && negb (tg =? 0) && negb (hg =? tg)) eqn:Hsw.
  - pose proof (enter_gs_spec env tg (leave_gs true (iq_gs s) s2)) as H3. destruct (enter_gs env tg _) as [s3 has']. destruct (call_handler_ran (si_thread_fn e) e s3) as (s4 & -> & L4 & G4 & K4). cbn [mbind run_bind]. subst s3.
    eexists. split; [reflexivity|]. split; [|done]. change (iq_log s4 = iq_log s2 ++ call_of (si_thread_fn e) e) in L4. split_and!.
    + transitivity (iq_log s4); [by destruct has'|]. unfold calls_of. rewrite app_assoc. by rewrite L4, L2.
    + destruct has'; [done|exact G4].
    + intros a x Ha. apply (K2 a x) in Ha. apply (K4 a x) in Ha. by destruct has'.
  - destruct (call_handler_ran (si_thread_fn e) e s2) as (s4 & -> & L4 & G4 & K4). cbn [mbind run_bind]. eexists. split; [reflexivity|]. split; [|done]. split_and!.
    + transitivity (iq_log s4); [by destruct has|]. unfold calls_of. rewrite app_assoc. by rewrite L4, L2.
    + destruct has; [done|]. change (iq_gs s4 = iq_gs s). by rewrite G4, G2.
    + intros a x Ha. apply (K2 a x) in Ha. apply (K4 a x) in Ha. by destruct has.
Qed.
Lemma poll_ran addr e s : entry_at addr s = Some e -> exists s', poll_root_hub_for_irq env addr s = Returns s' /\ ran [] s s' /\ iq_backend s' = iq_backend s.
Proof using polls_return.
  intros He. unfold poll_root_hub_for_irq. destruct (negb _); [exists s; split_and!; [done|apply ran_refl|done]|]. rewrite He. cbv zeta.
  pose proof (switched_ran (ie_poll_root_hub env (si_dev_id e)) [] (si_backend e) (si_kernel_gs e) s ltac:(intros s1 _; apply polls_return)) as H. destruct (enter_gs env _ _) as [s1 has]. destruct H as (s2 & -> & H & _). cbn [mbind run_bind]. eexists. split; [reflexivity|]. split; [|done]. exact H.
Qed.

(** C34: An interrupt runs the handler and then the thread function of its entry exactly
    once each, although the backend may call the trampoline any number of times while it
    waits: if the wait succeeds, or the xHCI controller has something pending; not at
    all otherwise.  The requested interrupts, the device backend and the GS base are
    afterwards as before, whatever backend the handlers and the poll of the root hub leave.
    Assumed of the module's handlers, poll and deferred work: they return with the GS base
    they were called with, run no handlers themselves and leave the requested interrupts
    alone; deferred work restores the backend. *)
Theorem interrupt_runs_handlers_once dev_id timeout s e :
  NoDup (si_addr <$> irq_list s) -> calls_own env (irq_list s) -> entry_for_dev_id dev_id s = Some e ->
  ie_has_wait env (si_backend e) = true ->
  let '(w1, _, status) := waits env e timeout (iq_world s) in
  let calls := if is_ok status || ie_xhci_pending env w1 then calls_of e else [] in
  exists s', kb_handle_irq_for_dev_id env dev_id timeout s = Returns (s', if is_ok status then 0 else -110) /\
    iq_log s' = iq_log s ++ calls /\ iq_backend s' = iq_backend s /\ iq_gs s' = iq_gs s /\
    forall addr x, entry_at addr s = Some x -> entry_at addr s' = Some x.
Proof using handlers_return polls_return work_returns.
  intros Hn Hown Hf Hwait. unfold kb_handle_irq_for_dev_id, wait_and_handle. rewrite Hf, Hwait. cbn [negb].
  unfold entry_for_dev_id in Hf. apply fmap_Some in Hf as ([i e'] & Hf & ->). apply list_find_Some in Hf as (Hi & _).
  cbn [snd] in *. assert (e' ∈ irq_list s) as He by by eapply list_elem_of_lookup_2.
  rewrite wait_entry_silent by done. destruct (waits env e' timeout (iq_world s)) as [[w1 ctxs] status].
  cbn [fst snd mbind run_bind]. pose proof (entry_at_lookup s i e' Hn Hi) as Hat.
  change (iq_world (s <| iq_world := w1 |>)) with w1. set (usb := irq_entry_is_usb_hcd env e' _). clearbody usb.
  assert (forall l s1, ran l s s1 -> iq_backend s1 = iq_backend s -> exists s',
      (s0 ← (if ie_xhci_pending env w1 || (is_ok status && usb) then poll_root_hub_for_irq env (si_addr e') s1 else Returns s1);
       s1 ← ie_run_deferred_work env (if ie_xhci_pending env w1 then s0 <| iq_world ::= ie_xhci_ack env |> else s0);
       Returns (s1, if is_ok status then 0 else -110)) = Returns (s', if is_ok status then 0 else -110) /\
      iq_log s' = iq_log s ++ l /\ iq_backend s' = iq_backend s /\ iq_gs s' = iq_gs s /\ keeps_entries s s') as Hrest.
  { intros l s1 Hr1 Hb1. assert (exists s2, (if ie_xhci_pending env w1 || (is_ok status && usb) then poll_root_hub_for_irq env (si_addr e') s1 else Returns s1) = Returns s2 /\ ran (l ++ []) s s2 /\ iq_backend s2 = iq_backend s) as (s2 & -> & Hr2 & Hb2).
    { destruct (_ || _); [|exists s1; by rewrite app_nil_r]. destruct (poll_ran (si_addr e') e' s1) as (s2 & -> & H2 & B2); [by apply Hr1|]. exists s2. split; [done|]. split; [by apply (ran_trans _ _ _ s1)|congruence]. }
    cbn [mbind run_bind]. set (s3 := if ie_xhci_pending env w1 then s2 <| iq_world ::= ie_xhci_ack env |> else s2). assert (ran (l ++ []) s s3 /\ iq_backend s3 = iq_backend s) as [Hr3 Hb3] by (unfold s3; case_match; (split; [exact Hr2|exact Hb2])).
    destruct (work_returns s3) as (s4 & -> & H4 & B4). cbn [mbind run_bind]. exists s4. split; [done|]. destruct (ran_trans _ _ _ _ _ Hr3 H4) as (L & G & K). rewrite !app_nil_r in L. split_and!; [done|congruence|done|exact K]. }
  assert (ran [] s (s <| iq_world := w1 |>)) as H0 by (exact (ran_refl s)).
  assert (exists s1, irq_trampoline env (si_addr e') (s <| iq_world := w1 |>) = Returns s1 /\ ran (calls_of e') s s1 /\ iq_backend s1 = iq_backend s) as (s1 & Etr & Hr1 & Hb1).
  { set (s0 := s <| iq_world := w1 |>) in *. destruct (trampoline_ran (si_addr e') e' s0 Hat) as (s1 & E & H1 & B1). exists s1. split; [exact E|]. split; [exact (ran_trans [] _ _ _ _ H0 H1)|exact B1]. }
  destruct (is_ok status) eqn:Hok; cbn [orb].
  - rewrite Etr. cbn [mbind run_bind]. rewrite andb_false_r. cbn [mbind run_bind]. by apply (Hrest (calls_of e') s1).
  - cbn [mbind run_bind negb]. rewrite andb_true_r. destruct (ie_xhci_pending env w1) eqn:Ex.
    + rewrite Etr. cbn [mbind run_bind]. by apply (Hrest (calls_of e') s1).
    + cbn [mbind run_bind]. by apply (Hrest [] (s <| iq_world := w1 |>)).
Qed.
End once.

Section handlers.
Context {W : Type} (env : irq_env W).

(** Handlers, deferred work and bottom halves act on the world and leave the interrupts
    alone: they neither request nor free nor poll any. *)
Context (hw : Z -> Z -> Z -> W -> W) (dw bw : W -> W).
Context (handlers_act : forall func irq dev_id s,
  ie_handler env func irq dev_id s = Returns (s <| iq_world ::= hw func irq dev_id |>)).
Context (work_acts : forall s, ie_run_deferred_work env s = Returns (s <| iq_world ::= dw |>)).
Context (halves_act : forall s, ie_run_bottom_halves env s = Returns (s <| iq_world ::= bw |>)).

Definition call_effect (w : W) (ev : irq_event) : W :=
  match ev with HandlerRuns func irq dev_id => hw func irq dev_id w | _ => w end.

(** [s] after the calls [l]. *)
Definition called (l : list irq_event) (s : irq_state W) : irq_state W :=
  s <| iq_world ::= fun w => foldl call_effect w l |> <| iq_log ::= fun log => log ++ l |>.

Lemma called_app l1 l2 s : called (l1 ++ l2) s = called l2 (called l1 s).
Proof. unfold called. cbn. by rewrite foldl_app, app_assoc. Qed.
Lemma called_nil s : called [] s = s.
Proof. unfold called. destruct s. cbn. by rewrite app_nil_r. Qed.

Lemma call_handler_called func e s : call_handler env func e s = Returns (called (call_of func e) s).
Proof using handlers_act.
  unfold call_handler, call_of. destruct (func =? 0); [by rewrite called_nil|]. by rewrite handlers_act.
Qed.

Lemma trampoline_called addr e s :
  entry_at addr s = Some e -> irq_trampoline env addr s = Returns (called (calls_of e) s).
Proof using handlers_act.
  intros He. unfold irq_trampoline. rewrite He. cbv zeta.
  set (hg := function_gs env (si_handler e)). set (tg := function_gs env (si_thread_fn e)).
  set (kg := if (if negb (hg =? 0) then hg else tg) =? 0 then _ else _). clearbody kg hg tg.
  pose proof (enter_gs_spec env kg (s <| iq_backend := si_backend e |>)) as H1.
  destruct (enter_gs env kg _) as [s1 has]. subst s1. rewrite call_handler_called. cbn [mbind run_bind].
  match goal with |- context [entry_at addr ?x] => change (entry_at addr x) with (entry_at addr s) end. rewrite He.
  destruct (has && negb (hg =? 0) && negb (tg =? 0) && negb (hg =? tg)) eqn:Hsw.
  - match goal with |- context [enter_gs env tg ?x] => pose proof (enter_gs_spec env tg x) as H3; destruct (enter_gs env tg x) as [s3 has'] end.
    subst s3. rewrite call_handler_called. cbn [mbind run_bind]. f_equal. unfold calls_of. rewrite called_app.
    unfold called, leave_gs. destruct s, has'; reflexivity.
  - rewrite call_handler_called. cbn [mbind run_bind]. f_equal. unfold calls_of. rewrite called_app.
    unfold called, leave_gs. destruct s, has; reflexivity.
Qed.

(** *** All entries *)

(** The poll of all entries, on the world alone: which entries run their handlers. *)
Record poll := mk_poll { po_world : W; po_ran : list shim_irq; po_saw : bool }.

Definition poll_one (timeout : Z) (p : poll) (e : shim_irq) : poll :=
  if negb (ie_has_wait env (si_backend e)) then p
  else
    let '(w, _, status) := waits env e (if bool_decide (po_ran p = []) then timeout else 0) (po_world p) in
    let pending := negb (po_saw p) && ie_xhci_pending env w in
    let usb := negb (si_dev_id e =? 0) && ie_is_usb_hcd env (si_dev_id e) w in
    if is_ok status || pending
    then mk_poll (foldl call_effect w (calls_of e)) (po_ran p ++ [e]) (po_saw p || pending || (is_ok status && usb))
    else mk_poll w (po_ran p) (po_saw p).

Definition ran_calls (p : poll) : list irq_event := concat (calls_of <$> po_ran p).
Definition polled (p : poll) (s : irq_state W) : irq_state W :=
  s <| iq_world := po_world p |> <| iq_log := iq_log s ++ ran_calls p |>.
Definition has_run (p : poll) : bool := negb (bool_decide (po_ran p = [])).

Lemma any_entry_polls e timeout p s :
  NoDup (si_addr <$> irq_list s) -> e ∈ irq_list s -> calls_own env (irq_list s) ->
  any_entry env e timeout (has_run p) (po_saw p) (polled p s) =
  Returns (polled (poll_one timeout p e) s, has_run (poll_one timeout p e), po_saw (poll_one timeout p e)).
Proof using handlers_act.
  intros Hn He Hown. unfold any_entry, poll_one. destruct (negb (ie_has_wait _ _)); [done|].
  assert ((if has_run p then 0 else timeout) = if bool_decide (po_ran p = []) then timeout else 0) as ->
    by (unfold has_run; by case_bool_decide).
  rewrite wait_entry_silent by done. change (iq_world (polled p s)) with (po_world p).
  destruct (waits env e _ (po_world p)) as [[w ctxs] status]. cbn [fst snd mbind run_bind].
  unfold irq_entry_is_usb_hcd. change (iq_world (polled p s <| iq_world := w |>)) with w.
  set (usb := negb (si_dev_id e =? 0) && _). set (pending := negb (po_saw p) && _).
  assert (irq_trampoline env (si_addr e) (polled p s <| iq_world := w |>) =
    Returns (polled (mk_poll (foldl call_effect w (calls_of e)) (po_ran p ++ [e]) (po_saw p)) s)) as Htr.
  { rewrite (trampoline_called _ e).
    - f_equal. unfold called, polled, ran_calls. cbn. rewrite fmap_app, concat_app, <- app_assoc. cbn. by rewrite app_nil_r.
    - apply list_elem_of_lookup in He as [i Hi]. exact (entry_at_lookup s i e Hn Hi). }
  destruct (is_ok status), pending; cbn [andb orb negb mbind run_bind]; rewrite ?Htr; cbn [mbind run_bind];
    unfold has_run, polled, ran_calls; cbn [po_world po_ran po_saw];
    rewrite ?(bool_decide_eq_false_2 (po_ran p ++ [e] = [])) by (by destruct (po_ran p));
    rewrite ?orb_true_r, ?orb_false_r; reflexivity.
Qed.

Lemma next_in_middle pre e l : NoDup (si_addr <$> pre ++ e :: l) -> next_in (si_addr e) (pre ++ e :: l) = Some (si_addr <$> head l).
Proof.
  induction pre as [|d pre IH]; cbn; intros Hn; [by rewrite Z.eqb_refl|]. apply NoDup_cons in Hn as [Hd Hn].
  rewrite (proj2 (Z.eqb_neq _ _)); [by apply IH|]. intros E. apply Hd. rewrite E, fmap_app. apply elem_of_app. right. left.
Qed.

Lemma any_loop_polls timeout s : NoDup (si_addr <$> irq_list s) -> calls_own env (irq_list s) ->
  forall todo pre p fuel, irq_list s = pre ++ todo -> (length todo < fuel)%nat ->
  any_loop env fuel timeout (si_addr <$> head todo) (has_run p) (po_saw p) (polled p s) =
  let q := foldl (poll_one timeout) p todo in Returns (polled q s, has_run q, po_saw q).
Proof using handlers_act.
  intros Hn Hown todo. induction todo as [|e todo IH]; intros pre p fuel Hl Hf; (destruct fuel as [|fuel]; [cbn in Hf; lia|]); [done|].
  assert (e ∈ irq_list s) as He by (rewrite Hl; apply elem_of_app; right; left).
  cbn [head fmap option_fmap option_map any_loop foldl]. change (entry_at (si_addr e) (polled p s)) with (entry_at (si_addr e) s).
  pose proof He as He'. apply list_elem_of_lookup in He' as [i Hi]. rewrite (entry_at_lookup s i e Hn Hi).
  rewrite any_entry_polls by done. cbn [mbind run_bind]. unfold advance_cursor. change (irq_list (polled ?q s)) with (irq_list s).
  rewrite Hl, next_in_middle by (by rewrite <- Hl). cbn [mbind run_bind].
  apply (IH (pre ++ [e])); [by rewrite <- app_assoc|cbn in Hf; lia].
Qed.

Lemma poll_ran_sublist timeout l p : po_ran (foldl (poll_one timeout) p l) `sublist_of` po_ran p ++ l.
Proof.
  revert p. induction l as [|e l IH]; intros p; cbn [foldl]; [by rewrite app_nil_r|]. etrans; [apply IH|].
  unfold poll_one. destruct (negb _); [apply sublist_app; [done|by constructor]|]. destruct (waits env e _ _) as [[w c] st].
  cbv zeta. destruct (_ || _); cbn [po_ran]; [by rewrite <- app_assoc|apply sublist_app; [done|by constructor]].
Qed.

(** Handling any interrupt is one poll of the requested ones in list order: the loop
    over the entries returns (no more than length-plus-one rounds), only the entries up
    to the first that runs are waited for with the timeout, those that run are a
    sublist, each with its handler and thread function once; the result is 0 just if
    one ran and -110 otherwise; then xHCI is acknowledged if it was seen and the
    deferred work runs; nothing else is changed. *)
Theorem any_irq_polls_each_once timeout run_work s :
  NoDup (si_addr <$> irq_list s) -> calls_own env (irq_list s) ->
  let p := foldl (poll_one timeout) (mk_poll (iq_world s) [] false) (irq_list s) in
  let acked := if po_saw p then ie_xhci_ack env (ie_synthesize_connected env (po_world p)) else po_world p in
  handle_any_irq env timeout run_work s =
    Returns (s <| iq_world := if (run_work : bool) then dw acked else bw acked |> <| iq_log := iq_log s ++ ran_calls p |>,
             if bool_decide (po_ran p = []) then -110 else 0) /\
  po_ran p `sublist_of` irq_list s.
Proof using handlers_act work_acts halves_act.
  intros Hn Hown p acked. split; [|exact (poll_ran_sublist timeout (irq_list s) _)].
  unfold handle_any_irq.
  pose proof (any_loop_polls timeout s Hn Hown (irq_list s) [] (mk_poll (iq_world s) [] false) (S (length (irq_list s))) eq_refl
    ltac:(lia)) as Hloop.
  assert (polled (mk_poll (iq_world s) [] false) s = s) as Hs by (unfold polled, ran_calls; destruct s; cbn; by rewrite app_nil_r).
  rewrite Hs in Hloop. cbn [po_saw] in Hloop. change (has_run (mk_poll (iq_world s) [] false)) with false in Hloop.
  rewrite Hloop. cbv zeta. fold p. cbn [mbind run_bind]. unfold acked. clearbody p. clear acked Hloop Hs.
  unfold has_run. destruct run_work, (po_saw p); rewrite ?work_acts, ?halves_act; cbn [mbind run_bind];
    case_bool_decide; reflexivity.
Qed.
End handlers.

(** ** Instances *)

(** Two interrupts on backend 7; while it waits, the backend calls the trampoline twice,
    and it signals the second one.  A handler adds its address to the world, the poll of the
    root hub one, and leaves another backend behind. *)
Definition demo_entry (addr : Z) : shim_irq := mk_shim_irq addr 33 (addr + 8) (addr + 1) (addr + 2) 7 9 addr 0.
Definition demo_irqs : list shim_irq := [demo_entry 100; demo_entry 200].
Definition demo_env : irq_env Z :=
  mk_irq_env [] (fun _ => true) (fun func _ _ s => Returns (s <| iq_world ::= Z.add func |>))
    (fun _ => true) (fun _ _ backend_irq _ w => (w, [backend_irq; backend_irq], if backend_irq =? 200 then KB_OK else KB_ERR_IO))
    (fun _ => true) (fun _ _ _ _ w => (w, Done 1)) (fun _ => true) (fun _ _ _ w => w)
    (fun _ => true) (fun _ _ _ => Done 9) (fun _ => 9) (fun _ => false) (fun w => w) (fun _ _ => true) (fun _ => true)
    (fun _ s => Returns (s <| iq_backend := 99 |> <| iq_world ::= Z.succ |>)) (fun w => w) (fun s => Returns s) (fun s => Returns s).
Definition demo_state : irq_state Z := mk_irq_state demo_irqs vectors_init 3 5 [] 0.

Lemma demo_calls_own : calls_own demo_env demo_irqs.
Proof. intros e timeout w He. repeat (apply elem_of_cons in He as [->|He]; [repeat constructor|]). by apply elem_of_nil in He. Qed.
Lemma demo_same (s : irq_state Z) : Returns s = Returns (s <| iq_world ::= fun w => w |>).
Proof. by destruct s. Qed.

Lemma irq_vectors_roundtrip_witness :
  kb_irq_backend_vector 33 (requests [(0, 5); (2, 7)] vectors_init).1 = encode_vector 2 7 /\
  exists n, n = 33 /\ Z.shiftr (kb_irq_backend_vector n (requests [(0, 5); (2, 7)] vectors_init).1) 30 = 2.
Proof.
  split; [vm_compute; reflexivity|].
  destruct (irq_vectors_roundtrip [(0, 5); (2, 7)] ltac:(vm_compute; lia)
    ltac:(repeat constructor; vm_compute; discriminate)) as [H _].
  destruct (H 1%nat 2 7 eq_refl) as (n & _ & -> & Hk & _). exists 33. split; [reflexivity|exact Hk].
Defined.

Lemma demo_returns (s : irq_state Z) f : exists s', Returns (s <| iq_world ::= f |>) = Returns s' /\ ran [] s s'.
Proof. eexists. split; [reflexivity|]. exact (ran_refl s). Qed.
Lemma interrupt_runs_handlers_once_witness :
  exists s', kb_handle_irq_for_dev_id demo_env 208 10 demo_state = Returns (s', 0) /\
    iq_log s' = [HandlerRuns 201 33 208; HandlerRuns 202 33 208] /\ iq_backend s' = 3 /\ iq_gs s' = 5.
Proof.
  destruct (interrupt_runs_handlers_once demo_env (fun func _ _ s => demo_returns s (Z.add func))
    (fun _ s => ex_intro _ (s <| iq_backend := 99 |> <| iq_world ::= Z.succ |>) (conj eq_refl (ran_refl s))) (fun s => ex_intro _ s (conj eq_refl (conj (ran_refl s) eq_refl)))
    208 10 demo_state (demo_entry 200)
    ltac:(apply (bool_decide_unpack (NoDup [100; 200])); vm_compute; exact I) demo_calls_own eq_refl eq_refl) as (s' & E & L & B & G & _).
  exists s'. split; [exact E|]. split; [exact L|]. split; [exact B|exact G].
Defined.

Lemma any_irq_polls_each_once_witness :
  handle_any_irq demo_env 10 true demo_state =
    Returns (demo_state <| iq_world := 403 |> <| iq_log := [HandlerRuns 201 33 208; HandlerRuns 202 33 208] |>, 0).
Proof.
  exact (proj1 (any_irq_polls_each_once demo_env (fun func _ _ => Z.add func) (fun w => w) (fun w => w)
    (fun _ _ _ _ => eq_refl) demo_same demo_same 10 true demo_state
    ltac:(apply (bool_decide_unpack (NoDup [100; 200])); vm_compute; exact I) demo_calls_own)).
Defined.

(** ** Ends of registrations *)

(** Clearing the vectors for one device takes those of every other: the number that a
    second device was given leads to itself afterwards, and is given out again. *)
Lemma clearing_takes_other_devices_vectors :
  let t := (requests [(2, 7)] vectors_init).1 in
  kb_irq_backend_vector 32 t = encode_vector 2 7 /\
  kb_irq_backend_vector 32 (kb_irq_clear_mappings t) = 32 /\
  (kb_irq_allocate_mapping 1 0 (kb_irq_clear_mappings t)).2 = inr 32.
Proof. vm_compute. split_and!; reflexivity. Qed.

(** Freeing all interrupts uses the operations of the current backend, here 3, for
    entries of another, here 7; freeing one uses those of its own. *)
Lemma free_all_uses_current_backend :
  iq_log (kb_free_all_irqs demo_env demo_state) = [Unregisters 3 9 100; Unregisters 3 9 200] /\
  iq_log (kb_free_irq demo_env 33 108 demo_state) = [Unregisters 7 9 100].
Proof. vm_compute. split; reflexivity. Qed.
