(* ===== verification/FsLocal.v ===== *)
(** * File-system subsystem: xarrays, types, mounts and local files
    (src/src/linux_subsystem/fs/fs.c)

    The xarrays that module code keeps by address, each an ordered list of entries whose
    first one is also written into the module's structure; the table of file-system
    types; mounts and the files kept in memory for mounts that no interface serves.

    Strings and buffers of descriptors are values ([None] is NULL); whether an allocation
    succeeds is an argument.  Left out: tracing, profiling, the spin lock around the
    xarrays, and the binding of the interface. *)

From S2P Require Import Prelude Memory.

Definition KB_FS_IPC_REQUEST_VERSION : Z := 1.
Definition KB_FS_TYPE_MAX : nat := 64.
Definition KB_FS_MOUNT_MAX : nat := 64.
Definition KB_FS_FILE_MAX : nat := 256.
Definition KB_FS_FILEMAP_FOLIO_CACHE_MAX : nat := 2048.

Definition low_or_err_pointer (value : Z) : bool :=
  (value =? 0) || (value <? 4096) || (UINT64_MAX - 4095 <=? value) ||
  ((0x00007fffffffffff <? value) && (value <? 0xffff800000000000)).

(** A status as a pointer. *)
Definition fs_err_ptr (status : Z) : Z := u64 (if status <? 0 then status else - status).

(** ** Xarrays *)

Record kb_fs_filemap_folio_record := mk_folio_record {
  ff_active : bool;
  ff_towrite : bool;
  ff_mapping : Z;
  ff_index : Z;
  ff_folio : Z;
}.
#[export] Instance folio_record_eta : Settable kb_fs_filemap_folio_record := fun r =>
  mk_folio_record (ff_active r) (ff_towrite r) (ff_mapping r) (ff_index r) (ff_folio r).

(** [kb_fs_xarray_record_t] with its [kb_fs_xarray_entry_t] list: indices and entries. *)
Record kb_fs_xarray_record := mk_xarray_record { xr_xarray : Z; xr_entries : list (Z * Z) }.
#[export] Instance xarray_record_eta : Settable kb_fs_xarray_record := fun r => mk_xarray_record (xr_xarray r) (xr_entries r).

Record xarray_state := mk_xarray_state {
  xarray_records : list kb_fs_xarray_record;
  filemap_folio_cache : list kb_fs_filemap_folio_record;
  xa_mem : mem;
}.
#[export] Instance xarray_state_eta : Settable xarray_state := fun r =>
  mk_xarray_state (xarray_records r) (filemap_folio_cache r) (xa_mem r).

Definition xarray_record_find_locked (xarray : Z) (s : xarray_state) : option kb_fs_xarray_record :=
  snd <$> list_find (fun r => xr_xarray r = xarray) (xarray_records s).

Definition xarray_write_head (xarray head : Z) (s : xarray_state) : xarray_state :=
  if xarray =? 0 then s else s <| xa_mem ::= fun m => mstore64 m (u64 (xarray + 8)) head |>.

(** The entry of the first pair, NULL of the empty list. *)
Definition head_entry (entries : list (Z * Z)) : Z := default 0 (snd <$> head entries).

Definition filemap_refresh_xarray_head (mapping : Z) (s : xarray_state) : xarray_state :=
  if mapping =? 0 then s
  else
    let '(head, _) :=
      foldl (fun '(head, first_index) r =>
        if ff_active r && (ff_mapping r =? mapping) && negb (ff_folio r =? 0) && (ff_index r <? first_index)
        then (ff_folio r, ff_index r) else (head, first_index)) (0, UINT64_MAX) (filemap_folio_cache s) in
    xarray_write_head (u64 (mapping + 8)) head s.

Definition filemap_xarray_load (xarray index : Z) (s : xarray_state) : Z :=
  if xarray =? 0 then 0
  else
    let mapping := u64 (xarray - 8) in
    match list_find (fun r => ff_active r && (ff_mapping r =? mapping) && (ff_index r =? index) = true) (filemap_folio_cache s) with
    | Some (_, r) => ff_folio r
    | None => 0
    end.

(** The walk of the cursor to the first entry that is not below [index]. *)
Fixpoint insert_entry (index entry : Z) (l : list (Z * Z)) : option (list (Z * Z)) :=
  match l with
  | [] => Some [(index, entry)]
  | (i, e) :: l' =>
      if i <? index then cons (i, e) <$> insert_entry index entry l'
      else if i =? index then None
      else Some ((index, entry) :: l)
  end.

Fixpoint remove_entry (index : Z) (l : list (Z * Z)) : option (Z * list (Z * Z)) :=
  match l with
  | [] => None
  | (i, e) :: l =>
      if i <? index then '(old, l) ← remove_entry index l; Some (old, (i, e) :: l)
      else if i =? index then Some (e, l)
      else None
  end.

Definition set_entries (xarray : Z) (entries : list (Z * Z)) (s : xarray_state) : xarray_state :=
  s <| xarray_records ::= fmap (fun r => if xr_xarray r =? xarray then r <| xr_entries := entries |> else r) |>.

(** [record_ok] and [entry_ok]: the record and the entry can be allocated. *)
Definition kb_fs_subsystem_xa_insert (xarray index entry : Z) (record_ok entry_ok : bool) (s : xarray_state)
    : xarray_state * Z :=
  if (xarray =? 0) || (entry =? 0) then (s, -22)
  else
    match (match xarray_record_find_locked xarray s with
           | Some record => Some (s, xr_entries record)
           | None => if negb record_ok then None else Some (s <| xarray_records ::= cons (mk_xarray_record xarray []) |>, [])
           end) with
    | None => (s, -12)
    | Some (s, entries) =>
        match insert_entry index entry entries with
        | None => (s, -16)
        | Some entries =>
            if negb entry_ok then (s, -12)
            else (xarray_write_head xarray (head_entry entries) (set_entries xarray entries s), 0)
        end
    end.

Definition kb_fs_subsystem_xa_erase (xarray index : Z) (s : xarray_state) : xarray_state * Z :=
  if xarray =? 0 then (s, 0)
  else
    match xarray_record_find_locked xarray s with
    | None => (s, 0)
    | Some record =>
        match remove_entry index (xr_entries record) with
        | None => (s, 0)
        | Some (entry, entries) => (xarray_write_head xarray (head_entry entries) (set_entries xarray entries s), entry)
        end
    end.

(** [item->entry = entry] at the first entry of that index. *)
Fixpoint replace_entry (index entry : Z) (l : list (Z * Z)) : option (Z * list (Z * Z)) :=
  match l with
  | [] => None
  | (i, e) :: l =>
      if i =? index then Some (e, (i, entry) :: l)
      else '(old, l) ← replace_entry index entry l; Some (old, (i, e) :: l)
  end.

(** The result is a pointer: the old entry, NULL, or a negative status. *)
Definition kb_fs_subsystem_xa_store (xarray index entry : Z) (record_ok entry_ok : bool) (s : xarray_state)
    : xarray_state * Z :=
  if xarray =? 0 then (s, u64 (-22))
  else if entry =? 0 then kb_fs_subsystem_xa_erase xarray index s
  else
    match xarray_record_find_locked xarray s ≫= (fun record => replace_entry index entry (xr_entries record)) with
    | Some (old, entries) => (xarray_write_head xarray (head_entry entries) (set_entries xarray entries s), old)
    | None =>
        let '(s, status) := kb_fs_subsystem_xa_insert xarray index entry record_ok entry_ok s in
        (s, if status =? 0 then 0 else u64 status)
    end.

(** The walk stops at the first entry above [index]. *)
Fixpoint load_entry (index : Z) (l : list (Z * Z)) : option Z :=
  match l with
  | [] => None
  | (i, e) :: l => if negb (i <=? index) then None else if i =? index then Some e else load_entry index l
  end.

Definition kb_fs_subsystem_xa_load (xarray index : Z) (s : xarray_state) : Z :=
  if xarray =? 0 then 0
  else
    match xarray_record_find_locked xarray s ≫= (fun record => load_entry index (xr_entries record)) with
    | Some entry => entry
    | None => filemap_xarray_load xarray index s
    end.

(** The entry found with its index. *)
Definition xarray_find_from (xarray index max : Z) (after : bool) (s : xarray_state) : option (Z * Z) :=
  if xarray =? 0 then None
  else if after && (index =? UINT64_MAX) then None
  else
    let minimum := if after then index + 1 else index in
    record ← xarray_record_find_locked xarray s;
    snd <$> list_find (fun item => (minimum <=? item.1) && (item.1 <=? max) = true) (xr_entries record).
Definition kb_fs_subsystem_xa_find (xarray index max : Z) (s : xarray_state) : option (Z * Z) :=
  xarray_find_from xarray index max false s.
Definition kb_fs_subsystem_xa_find_after (xarray index max : Z) (s : xarray_state) : option (Z * Z) :=
  xarray_find_from xarray index max true s.

Fixpoint drop_record (xarray : Z) (l : list kb_fs_xarray_record) : list kb_fs_xarray_record :=
  match l with
  | [] => []
  | r :: l => if xr_xarray r =? xarray then l else r :: drop_record xarray l
  end.
Definition kb_fs_subsystem_xa_destroy (xarray : Z) (s : xarray_state) : xarray_state :=
  if xarray =? 0 then s
  else xarray_write_head xarray 0 (s <| xarray_records ::= drop_record xarray |>).

(** ** File-system types *)

Record kb_fs_type_record := mk_type_record {
  ft_active : bool;
  ft_fs_type : Z;
  ft_name : option (list Z);
  ft_owner_module : Z;
  ft_register_count : Z;
}.
#[export] Instance type_record_eta : Settable kb_fs_type_record := fun r =>
  mk_type_record (ft_active r) (ft_fs_type r) (ft_name r) (ft_owner_module r) (ft_register_count r).
Definition free_type : kb_fs_type_record := mk_type_record false 0 None 0 0.

(** A mount's type is the slot of the type table it points to. *)
Record kb_fs_mount_record := mk_mount_record {
  fm_active : bool;
  fm_handle : Z;
  fm_type : nat;
  fm_source : list Z;
  fm_target : list Z;
  fm_block_disk : Z;
}.
#[export] Instance mount_record_eta : Settable kb_fs_mount_record := fun r =>
  mk_mount_record (fm_active r) (fm_handle r) (fm_type r) (fm_source r) (fm_target r) (fm_block_disk r).
Definition free_mount : kb_fs_mount_record := mk_mount_record false 0 0 [] [] 0.

Record kb_fs_file_record := mk_file_record {
  fi_active : bool;
  fi_mount_handle : Z;
  fi_path : list Z;
  fi_data : list Z;                         (* [size] bytes *)
}.
#[export] Instance file_record_eta : Settable kb_fs_file_record := fun r =>
  mk_file_record (fi_active r) (fi_mount_handle r) (fi_path r) (fi_data r).
Definition free_file : kb_fs_file_record := mk_file_record false 0 [] [].

Record local_state := mk_local_state {
  fs_types : list kb_fs_type_record;
  fs_mounts : list kb_fs_mount_record;
  fs_files : list kb_fs_file_record;
  next_mount_handle : Z;
}.
#[export] Instance local_state_eta : Settable local_state := fun r =>
  mk_local_state (fs_types r) (fs_mounts r) (fs_files r) (next_mount_handle r).
Definition local_init : local_state :=
  mk_local_state (replicate KB_FS_TYPE_MAX free_type) (replicate KB_FS_MOUNT_MAX free_mount)
    (replicate KB_FS_FILE_MAX free_file) 1.

Definition find_fs_type_by_ptr (fs_type : Z) (s : local_state) : option nat :=
  first_index (fun r => ft_active r && (ft_fs_type r =? fs_type)) (fs_types s).
Definition find_fs_type_by_name (name : option (list Z)) (s : local_state) : option nat :=
  match name with
  | None => None
  | Some name => first_index (fun r => ft_active r && bool_decide (ft_name r = Some name)) (fs_types s)
  end.
Definition find_mount (handle : Z) (s : local_state) : option nat :=
  if handle =? 0 then None else first_index (fun r => fm_active r && (fm_handle r =? handle)) (fs_mounts s).
Definition find_file (mount_handle : Z) (path : option (list Z)) (s : local_state) : option nat :=
  match path with
  | None => None
  | Some path =>
      first_index (fun r => fi_active r && (fi_mount_handle r =? mount_handle) && bool_decide (fi_path r = path)) (fs_files s)
  end.

(** [name] is the string the type's first word points to, [None] if that word or the type
    itself is no valid pointer. *)
Definition fs_type_name_from_kernel_type (m : mem) (fs_type : Z) : option (list Z) :=
  if low_or_err_pointer fs_type then None
  else let name := mload64 m fs_type in if low_or_err_pointer name then None else Some (mem_string m name).

Definition kb_fs_subsystem_register_filesystem (m : mem) (active_module fs_type : Z) (copy_ok : bool) (s : local_state)
    : local_state * Z :=
  match fs_type_name_from_kernel_type m fs_type with
  | None => (s, -22)
  | Some name =>
      let record := find_fs_type_by_ptr fs_type s in
      let record := match record with Some i => Some i | None => find_fs_type_by_name (Some name) s end in
      let record := match record with Some i => Some i | None => first_index (fun r => negb (ft_active r)) (fs_types s) end in
      match record with
      | None => (s, -12)
      | Some i =>
          let active := default false (ft_active <$> fs_types s !! i) in
          if negb active && negb copy_ok then (s, -12)
          else
            (s <| fs_types ::= alter (fun r =>
                 (if active then r else r <| ft_name := Some name |>) <| ft_active := true |> <| ft_fs_type := fs_type |>
                   <| ft_owner_module := active_module |> <| ft_register_count ::= fun n => u32 (n + 1) |>) i |>, 0)
      end
  end.

Definition kb_fs_subsystem_unregister_filesystem (fs_type : Z) (s : local_state) : local_state * Z :=
  match find_fs_type_by_ptr fs_type s with
  | None => (s, -2)
  | Some i => (s <| fs_types ::= insert i free_type |>, 0)
  end.

Definition kb_fs_subsystem_registered_type_count (s : local_state) : nat :=
  length (filter (fun r => ft_active r = true) (fs_types s)).
Definition kb_fs_subsystem_type_snapshot (name : option (list Z)) (s : local_state) : option kb_fs_type_record * Z :=
  match find_fs_type_by_name name s with
  | None => (None, -2)
  | Some i => (fs_types s !! i, 0)
  end.

(** What [kb_fs_subsystem_mount_registered] calls: the mount function of the type with
    the type, or the error pointer. *)
Definition kb_fs_subsystem_mount_registered (m : mem) (name : option (list Z)) (s : local_state) : Z + (Z * Z * Z) :=
  match find_fs_type_by_name name s ≫= (fun i => fs_types s !! i) with
  | None => inl (fs_err_ptr (-19))
  | Some r =>
      if ft_fs_type r =? 0 then inl (fs_err_ptr (-19))
      else
        let mount_fn := if low_or_err_pointer (ft_fs_type r) then 0
                        else let v := mload64 m (ft_fs_type r + 0x20) in if low_or_err_pointer v then 0 else v in
        if mount_fn =? 0 then inl (fs_err_ptr (-95)) else inr (mount_fn, ft_fs_type r, ft_owner_module r)
  end.

(** ** Mounts and local files *)

Record kb_fs_mount_desc := mk_mount_desc {
  md_source : option (list Z);
  md_target : option (list Z);
  md_fs_type : option (list Z);
  md_flags : Z;
  md_data : list Z;
  md_block_disk : Z;
}.

Definition fs_local_mount (desc : kb_fs_mount_desc) (copies_ok : bool) (s : local_state) : local_state * outcome Z :=
  match find_fs_type_by_name (md_fs_type desc) s with
  | None => (s, Fail KB_ERR_NOT_FOUND)
  | Some type =>
      match first_index (fun r => negb (fm_active r)) (fs_mounts s) with
      | None => (s, Fail KB_ERR_NOMEM)
      | Some i =>
          if negb copies_ok then (s, Fail KB_ERR_NOMEM)
          else
            let handle := next_mount_handle s in
            let next := u64 (next_mount_handle s + 1) in
            let next := if next =? 0 then 1 else next in
            (s <| fs_mounts ::= insert i (mk_mount_record true handle type (default [] (md_source desc))
                                           (default [] (md_target desc)) (md_block_disk desc)) |>
               <| next_mount_handle := next |>, Done handle)
      end
  end.

Definition file_data (i : nat) (s : local_state) : list Z := default [] (fi_data <$> fs_files s !! i).

(** The bytes stored in the buffer. *)
Definition fs_local_read (handle : Z) (path : option (list Z)) (offset byte_count : Z) (s : local_state) : outcome (list Z) :=
  match find_mount handle s with
  | None => Fail KB_ERR_NOT_FOUND
  | Some _ =>
      match find_file handle path s with
      | None => Fail KB_ERR_NOT_FOUND
      | Some i =>
          let data := file_data i s in
          if blen data <=? offset then Done []
          else
            let available := blen data - offset in
            let copy_len := if available <? byte_count then available else byte_count in
            Done (slice data offset copy_len)
      end
  end.

Definition file_for_write (mount_handle : Z) (path : option (list Z)) (copy_ok : bool) (s : local_state)
    : local_state * option nat :=
  match find_file mount_handle path s, path with
  | Some i, _ => (s, Some i)
  | None, None => (s, None)
  | None, Some path =>
      match first_index (fun r => negb (fi_active r)) (fs_files s) with
      | None => (s, None)
      | Some i =>
          if negb copy_ok then (s, None)
          else (s <| fs_files ::= alter (fun r => r <| fi_active := true |> <| fi_mount_handle := mount_handle |>
                                                    <| fi_path := path |>) i |>, Some i)
      end
  end.

(** The number of bytes written. *)
Definition fs_local_write (handle : Z) (path : option (list Z)) (offset : Z) (buffer : list Z) (copy_ok realloc_ok : bool)
    (s : local_state) : local_state * outcome Z :=
  match find_mount handle s with
  | None => (s, Fail KB_ERR_NOT_FOUND)
  | Some _ =>
      match file_for_write handle path copy_ok s with
      | (s, None) => (s, Fail KB_ERR_NOMEM)
      | (s, Some i) =>
          let byte_count := blen buffer in
          let end_ := u64 (offset + byte_count) in
          if end_ <? byte_count then (s, Fail KB_ERR_INVALID)
          else
            let data := file_data i s in
            if (blen data <? end_) && negb realloc_ok then (s, Fail KB_ERR_NOMEM)
            else
              let data := if blen data <? end_ then data ++ replicate (Z.to_nat (end_ - blen data)) 0 else data in
              (s <| fs_files ::= alter (fun r => r <| fi_data := splice data offset buffer |>) i |>, Done byte_count)
      end
  end.

(** The loop over the files, which stops at the first path that does not fit. *)
Fixpoint readdir_from (handle byte_count : Z) (files : list kb_fs_file_record) (written : list Z) : list Z :=
  match files with
  | [] => written
  | f :: files =>
      if negb (fi_active f) || negb (fi_mount_handle f =? handle) then readdir_from handle byte_count files written
      else if byte_count <? blen written + blen (fi_path f) + 1 then written
      else readdir_from handle byte_count files (written ++ fi_path f ++ [10])
  end.
Definition fs_local_readdir (handle byte_count : Z) (s : local_state) : outcome (list Z) :=
  match find_mount handle s with
  | None => Fail KB_ERR_NOT_FOUND
  | Some i =>
      let handle := default 0 (fm_handle <$> fs_mounts s !! i) in
      Done (readdir_from handle byte_count (fs_files s) [])
  end.

(** *** Requests through the interface *)

Inductive kb_fs_operation := KB_FS_OPERATION_NONE | KB_FS_OPERATION_MOUNT | KB_FS_OPERATION_READ
  | KB_FS_OPERATION_WRITE | KB_FS_OPERATION_READDIR.
#[export] Instance operation_eq_dec : EqDecision kb_fs_operation.
Proof. solve_decision. Defined.

Record kb_fs_ipc_request := mk_ipc_request {
  iq_version : Z;
  iq_operation : kb_fs_operation;
  iq_handle : Z;
  iq_path : option (list Z);
  iq_offset : Z;
  iq_flags : Z;
  iq_source : option (list Z);
  iq_fs_type : option (list Z);
  iq_input : list Z;
  iq_output_capacity : Z;
}.
#[export] Instance ipc_request_eta : Settable kb_fs_ipc_request := fun r =>
  mk_ipc_request (iq_version r) (iq_operation r) (iq_handle r) (iq_path r) (iq_offset r) (iq_flags r) (iq_source r)
    (iq_fs_type r) (iq_input r) (iq_output_capacity r).

(** What the interface makes of a request. *)
Record kb_fs_ipc_reply := mk_ipc_reply {
  ir_handle : Z;
  ir_handled : bool;
  ir_result_code : Z;
  ir_output_size : Z;
  ir_output : list Z;                       (* what it stored in the buffer *)
}.

Section ipc.
(** [interface_is_ipc]: the interface is given and is an IPC interface of the file
    system; [dispatch] is what it does. *)
Context (interface_is_ipc : bool) (dispatch : kb_fs_ipc_request -> outcome kb_fs_ipc_reply).

Definition kb_fs_subsystem_dispatch (request : kb_fs_ipc_request) : outcome kb_fs_ipc_reply :=
  if negb interface_is_ipc then Fail KB_ERR_INVALID
  else
    let request := if iq_version request =? 0 then request <| iq_version := KB_FS_IPC_REQUEST_VERSION |> else request in
    if negb (iq_version request =? KB_FS_IPC_REQUEST_VERSION) || bool_decide (iq_operation request = KB_FS_OPERATION_NONE)
    then Fail KB_ERR_INVALID
    else dispatch request.

Definition reply_status {A} (reply : kb_fs_ipc_reply) (a : A) : outcome A :=
  if ir_result_code reply =? 0 then Done a else Fail KB_ERR_IO.

Definition kb_fs_subsystem_mount (desc : kb_fs_mount_desc) (copies_ok : bool) (s : local_state) : local_state * outcome Z :=
  match md_target desc, md_fs_type desc with
  | Some target, Some _ =>
      match kb_fs_subsystem_dispatch (mk_ipc_request 0 KB_FS_OPERATION_MOUNT 0 (Some target) 0 (md_flags desc) (md_source desc)
                (md_fs_type desc) (md_data desc) 0) with
      | Done reply =>
          if negb (ir_handled reply) then fs_local_mount desc copies_ok s
          else (s, reply_status reply (ir_handle reply))
      | Fail e => (s, Fail e)
      | Fault => (s, Fault)
      end
  | _, _ => (s, Fail KB_ERR_INVALID)
  end.

Definition kb_fs_subsystem_read (handle : Z) (path : option (list Z)) (offset byte_count : Z) (s : local_state)
    : outcome (list Z) :=
  if byte_count =? 0 then Fail KB_ERR_INVALID
  else
    reply ← kb_fs_subsystem_dispatch (mk_ipc_request 0 KB_FS_OPERATION_READ handle path offset 0 None None [] byte_count);
    if negb (ir_handled reply) then fs_local_read handle path offset byte_count s
    else reply_status reply (ir_output reply).

Definition kb_fs_subsystem_write (handle : Z) (path : option (list Z)) (offset : Z) (buffer : list Z) (copy_ok realloc_ok : bool)
    (s : local_state) : local_state * outcome Z :=
  if blen buffer =? 0 then (s, Fail KB_ERR_INVALID)
  else
    match kb_fs_subsystem_dispatch (mk_ipc_request 0 KB_FS_OPERATION_WRITE handle path offset 0 None None buffer 0) with
    | Done reply =>
        if negb (ir_handled reply) then fs_local_write handle path offset buffer copy_ok realloc_ok s
        else (s, reply_status reply (ir_output_size reply))
    | Fail e => (s, Fail e)
    | Fault => (s, Fault)
    end.

Definition kb_fs_subsystem_readdir (handle byte_count : Z) (path : option (list Z)) (s : local_state) : outcome (list Z) :=
  if byte_count =? 0 then Fail KB_ERR_INVALID
  else
    reply ← kb_fs_subsystem_dispatch (mk_ipc_request 0 KB_FS_OPERATION_READDIR handle path 0 0 None None [] byte_count);
    if negb (ir_handled reply) then fs_local_readdir handle byte_count s
    else reply_status reply (ir_output reply).
End ipc.
