(* ===== verification/FsLocalTheorems.v ===== *)
(** * Theorems about xarrays and local files (FsLocal.v)

    An xarray is an ordered finite map whose first entry is also what module code reads
    from the structure itself; the local files are a finite map from mount and path to
    bytes. *)

From Stdlib Require Import Sorted.
From S2P Require Import Prelude Memory FsLocal.

(** ** Ordered entry lists *)

Definition ascending (l : list (Z * Z)) : Prop := StronglySorted (fun a b => a.1 < b.1) l.

Lemma ascending_cons i e l : ascending ((i, e) :: l) <-> ascending l /\ Forall (fun a => i < a.1) l.
Proof. unfold ascending. split; [by intros [? ?]%StronglySorted_inv|]. intros []. by constructor. Qed.

Lemma load_entry_elem l i e : ascending l -> load_entry i l = Some e <-> (i, e) ∈ l.
Proof.
  induction l as [|[j f] l IH]; cbn [load_entry]; intros Hs; [split; [done|by intros ?%elem_of_nil]|].
  apply ascending_cons in Hs as [Hs Hj]. rewrite elem_of_cons.
  destruct (Z.leb_spec j i); cbn [negb].
  - destruct (Z.eqb_spec j i) as [->|].
    + split; [intros [= ->]; by left|]. intros [[= ->]|Hin]; [done|].
      pose proof (proj1 (Forall_forall _ _) Hj _ Hin). cbn in *. lia.
    + rewrite IH by done. split; [by right|]. intros [[= -> _]|Hin]; [lia|done].
  - split; [done|]. intros [[= -> _]|Hin]; [lia|]. pose proof (proj1 (Forall_forall _ _) Hj _ Hin). cbn in *. lia.
Qed.

Lemma load_entry_above l i : Forall (fun a => i < a.1) l -> load_entry i l = None.
Proof. destruct l as [|[j f] l]; [done|]. intros [? _]%Forall_cons. cbn in *. by rewrite (proj2 (Z.leb_gt _ _)). Qed.

Lemma insert_entry_spec i e l : ascending l ->
  match insert_entry i e l with
  | None => is_Some (load_entry i l)
  | Some l' => load_entry i l = None /\ ascending l' /\ (forall j, load_entry j l' = if decide (j = i) then Some e else load_entry j l) /\
      forall k, k < i -> Forall (fun a => k < a.1) l -> Forall (fun a => k < a.1) l'
  end.
Proof.
  induction l as [|[j f] l IH]; cbn [insert_entry load_entry]; intros Hs.
  - split_and!; [done|repeat constructor| |by repeat constructor]. intros k. cbn. case_decide as E; [subst|].
    + by rewrite Z.leb_refl, Z.eqb_refl.
    + destruct (Z.leb_spec i k); [|done]. cbn. by rewrite (proj2 (Z.eqb_neq _ _)) by lia.
  - apply ascending_cons in Hs as [Hs Hj]. specialize (IH Hs). destruct (Z.ltb_spec j i).
    + rewrite (proj2 (Z.leb_le _ _)), (proj2 (Z.eqb_neq _ _)) by lia. cbn [negb].
      destruct (insert_entry i e l) as [l'|]; cbn; [|done]. destruct IH as (Hn & Ha & Hl & Hk). split_and!; [done| | |].
      * apply ascending_cons. split; [done|]. by apply Hk.
      * intros k. rewrite Hl. case_decide as E; [|done]. subst. rewrite (proj2 (Z.leb_le _ _)), (proj2 (Z.eqb_neq _ _)) by lia. done.
      * intros k Hk1 [Hk2 Hk3]%Forall_cons. constructor; [done|]. by apply Hk.
    + destruct (Z.eqb_spec j i) as [->|]; [by rewrite Z.leb_refl|]. rewrite (proj2 (Z.leb_gt _ _)) by lia. split_and!; [done| | |].
      * apply ascending_cons. split; [by apply ascending_cons|]. constructor; [cbn; lia|]. eapply Forall_impl; [exact Hj|]. cbn. lia.
      * intros k. cbn. case_decide as E; [subst; by rewrite Z.leb_refl, Z.eqb_refl|].
        destruct (Z.leb_spec i k); cbn; [by rewrite (proj2 (Z.eqb_neq _ _)) by lia|]. by rewrite (proj2 (Z.leb_gt j k)) by lia.
      * intros k Hk Hf. constructor; [done|exact Hf].
Qed.

Lemma remove_entry_spec i l : ascending l ->
  match remove_entry i l with
  | None => load_entry i l = None
  | Some (e, l') => load_entry i l = Some e /\ ascending l' /\ (forall j, load_entry j l' = if decide (j = i) then None else load_entry j l) /\
      forall k, Forall (fun a => k < a.1) l -> Forall (fun a => k < a.1) l'
  end.
Proof.
  induction l as [|[j f] l IH]; cbn [remove_entry load_entry]; intros Hs; [done|].
  apply ascending_cons in Hs as [Hs Hj]. specialize (IH Hs). destruct (Z.ltb_spec j i).
  - rewrite (proj2 (Z.leb_le _ _)), (proj2 (Z.eqb_neq _ _)) by lia. cbn [negb].
    destruct (remove_entry i l) as [[e l']|]; cbn; [|done]. destruct IH as (Hn & Ha & Hl & Hk). split_and!; [done| | |].
    + apply ascending_cons. split; [done|]. by apply Hk.
    + intros k. rewrite Hl. case_decide as E; [|done]. subst. rewrite (proj2 (Z.leb_le _ _)), (proj2 (Z.eqb_neq _ _)) by lia. done.
    + intros k [Hk2 Hk3]%Forall_cons. constructor; [done|]. by apply Hk.
  - destruct (Z.eqb_spec j i) as [->|]; [|by rewrite (proj2 (Z.leb_gt _ _)) by lia]. rewrite Z.leb_refl. split_and!; [done|done| |].
    + intros k. case_decide as E; [subst; by apply load_entry_above|].
      destruct (Z.leb_spec i k); cbn; [by rewrite (proj2 (Z.eqb_neq _ _)) by lia|].
      apply load_entry_above. eapply Forall_impl; [exact Hj|]. cbn. lia.
    + by intros k [_ Hk]%Forall_cons.
Qed.

Lemma replace_entry_spec i e l : ascending l ->
  match replace_entry i e l with
  | None => load_entry i l = None
  | Some (old, l') => load_entry i l = Some old /\ ascending l' /\ (forall j, load_entry j l' = if decide (j = i) then Some e else load_entry j l) /\
      fst <$> l' = fst <$> l
  end.
Proof.
  induction l as [|[j f] l IH]; cbn [replace_entry load_entry]; intros Hs; [done|].
  apply ascending_cons in Hs as [Hs Hj]. specialize (IH Hs). destruct (Z.eqb_spec j i) as [->|].
  - rewrite Z.leb_refl. split_and!; [done|by apply ascending_cons| |done]. intros k. cbn. case_decide as E; [subst; by rewrite Z.leb_refl, Z.eqb_refl|].
    destruct (Z.leb_spec i k); cbn; [by rewrite (proj2 (Z.eqb_neq _ _)) by lia|done].
  - destruct (replace_entry i e l) as [[old l']|]; cbn.
    + destruct IH as (Hn & Ha & Hl & Hk).
      assert (j < i).
      { assert (ascending ((j, f) :: l)) as Hs' by by apply ascending_cons. apply load_entry_elem in Hn; [|done].
        by pose proof (proj1 (Forall_forall _ _) Hj _ Hn). }
      rewrite (proj2 (Z.leb_le _ _)) by lia. cbn. split_and!; [done| | |by rewrite Hk].
      * apply ascending_cons. split; [done|]. change (Forall ((fun k => j < k) ∘ fst) l'). apply Forall_fmap. rewrite Hk. by apply Forall_fmap.
      * intros k. rewrite Hl. case_decide as E; [|done]. subst. rewrite (proj2 (Z.leb_le _ _)), (proj2 (Z.eqb_neq _ _)) by lia. done.
    + rewrite IH. by destruct (_ <=? _).
Qed.

(** The first entry of a range is the one of the least index in it. *)
Lemma find_least lo hi l : ascending l ->
  match snd <$> list_find (fun item : Z * Z => (lo <=? item.1) && (item.1 <=? hi) = true) l with
  | Some (i, e) => load_entry i l = Some e /\ lo <= i <= hi /\ forall j, lo <= j < i -> load_entry j l = None
  | None => forall j, lo <= j <= hi -> load_entry j l = None
  end.
Proof.
  induction l as [|[k f] l IH]; intros Hs; [done|]. pose proof Hs as [Hs' Hk]%ascending_cons. specialize (IH Hs').
  cbn [list_find]. case_decide as Hin; cbn in Hin; cbn.
  - rewrite Z.leb_refl, Z.eqb_refl. split_and!; [done|lia|lia|]. intros j Hj. by rewrite (proj2 (Z.leb_gt _ _)) by lia.
  - destruct (list_find _ l) as [[m [i e]]|] eqn:Hf; cbn in *.
    + destruct IH as (Hl & Hr & Hless). pose proof Hl as Hl'. apply load_entry_elem in Hl'; [|done].
      pose proof (proj1 (Forall_forall _ _) Hk _ Hl') as Hki. cbn in Hki. split_and!; [|lia|lia|].
      * rewrite (proj2 (Z.leb_le _ _)), (proj2 (Z.eqb_neq _ _)) by lia. done.
      * intros j Hj. destruct (Z.leb_spec k j); [|done]. cbn. destruct (Z.eqb_spec k j); [lia|]. by apply Hless.
    + intros j Hj. destruct (Z.leb_spec k j); [|done]. cbn. destruct (Z.eqb_spec k j); [lia|]. by apply IH.
Qed.

(** ** Xarrays as ordered maps *)

Inductive xa_op :=
  | XaInsert (xarray index entry : Z) (record_ok entry_ok : bool)
  | XaStore (xarray index entry : Z) (record_ok entry_ok : bool)
  | XaLoad (xarray index : Z)
  | XaErase (xarray index : Z)
  | XaFind (xarray index max : Z) (after : bool)
  | XaDestroy (xarray : Z).

Inductive xa_result := RStatus (r : Z) | RPointer (p : Z) | RFound (item : option (Z * Z)) | RNothing.

Definition xa_step (op : xa_op) (s : xarray_state) : xarray_state * xa_result :=
  match op with
  | XaInsert x i e rok eok => let '(s, r) := kb_fs_subsystem_xa_insert x i e rok eok s in (s, RStatus r)
  | XaStore x i e rok eok => let '(s, p) := kb_fs_subsystem_xa_store x i e rok eok s in (s, RPointer p)
  | XaLoad x i => (s, RPointer (kb_fs_subsystem_xa_load x i s))
  | XaErase x i => let '(s, p) := kb_fs_subsystem_xa_erase x i s in (s, RPointer p)
  | XaFind x i hi after =>
      (s, RFound (if after then kb_fs_subsystem_xa_find_after x i hi s else kb_fs_subsystem_xa_find x i hi s))
  | XaDestroy x => (kb_fs_subsystem_xa_destroy x s, RNothing)
  end.

Fixpoint xa_run (ops : list xa_op) (s : xarray_state) : xarray_state * list xa_result :=
  match ops with
  | [] => (s, [])
  | op :: ops => let '(s, r) := xa_step op s in let '(s, rs) := xa_run ops s in (s, r :: rs)
  end.

Notation xmap := (gmap (Z * Z) Z).

(** [e] has the least index of xarray [x] in [lo] to [hi]. *)
Definition least_in (m : xmap) (x lo hi i e : Z) : Prop :=
  m !! (x, i) = Some e /\ lo <= i <= hi /\ forall j, lo <= j < i -> m !! (x, j) = None.

(** What the operations may answer, and what becomes of the map; [fallback] is what an
    xarray that is the page cache of a mapping holds. *)
Definition xa_allows (fallback : Z -> Z -> Z) (op : xa_op) (m : xmap) (r : xa_result) (m' : xmap) : Prop :=
  match op with
  | XaInsert x i e rok eok =>
      if (x =? 0) || (e =? 0) then r = RStatus (-22) /\ m' = m
      else match m !! (x, i) with
           | Some _ => r = RStatus (-16) /\ m' = m
           | None => (r = RStatus 0 /\ m' = <[(x, i) := e]> m) \/ (r = RStatus (-12) /\ rok && eok = false /\ m' = m)
           end
  | XaStore x i e rok eok =>
      if x =? 0 then r = RPointer (u64 (-22)) /\ m' = m
      else if e =? 0 then r = RPointer (default 0 (m !! (x, i))) /\ m' = delete (x, i) m
      else match m !! (x, i) with
           | Some old => r = RPointer old /\ m' = <[(x, i) := e]> m
           | None => (r = RPointer 0 /\ m' = <[(x, i) := e]> m) \/ (r = RPointer (u64 (-12)) /\ rok && eok = false /\ m' = m)
           end
  | XaLoad x i => r = RPointer (if x =? 0 then 0 else default (fallback x i) (m !! (x, i))) /\ m' = m
  | XaErase x i => r = RPointer (if x =? 0 then 0 else default 0 (m !! (x, i))) /\ m' = if x =? 0 then m else delete (x, i) m
  | XaFind x i hi after =>
      m' = m /\
      match r with
      | RFound (Some (j, e)) => x <> 0 /\ least_in m x (if after then i + 1 else i) hi j e
      | RFound None => x = 0 \/ forall j, (if after then i + 1 else i) <= j <= hi -> m !! (x, j) = None
      | _ => False
      end
  | XaDestroy x => r = RNothing /\ m' = if x =? 0 then m else filter (fun p => p.1.1 <> x) m
  end.

Fixpoint xa_allows_all (fallback : Z -> Z -> Z) (ops : list xa_op) (m : xmap) (rs : list xa_result) (m' : xmap) : Prop :=
  match ops, rs with
  | [], [] => m' = m
  | op :: ops, r :: rs => exists m1, xa_allows fallback op m r m1 /\ xa_allows_all fallback ops m1 rs m'
  | _, _ => False
  end.

(** *** The records *)

Definition entries_of (x : Z) (s : xarray_state) : list (Z * Z) :=
  default [] (xr_entries <$> xarray_record_find_locked x s).

Section xarrays.
(** The xarrays in use: structures of their own in module memory. *)
Context (xs : list Z).
Context (xs_apart : forall x y, x ∈ xs -> y ∈ xs -> x <> y -> x + 8 <= y \/ y + 8 <= x).
Context (xs_range : forall x, x ∈ xs -> 0 < x < UINT64_MAX - 16).

Definition xa_op_ok (op : xa_op) : Prop :=
  let ok x := x = 0 \/ x ∈ xs in
  match op with
  | XaInsert x i e _ _ | XaStore x i e _ _ => ok x /\ is_u64 i /\ is_u64 e
  | XaLoad x i | XaErase x i => ok x
  | XaFind x i hi _ => ok x /\ is_u64 i /\ is_u64 hi
  | XaDestroy x => ok x
  end.

Record xa_inv (s : xarray_state) (m : xmap) : Prop := {
  xi_nodup : NoDup (xr_xarray <$> xarray_records s);
  xi_known : Forall (fun r => xr_xarray r ∈ xs) (xarray_records s);
  xi_sorted : forall x, ascending (entries_of x s);
  xi_view : forall x i, load_entry i (entries_of x s) = m !! (x, i);
  xi_head : forall x, x ∈ xs -> mload64 (xa_mem s) (x + 8) = head_entry (entries_of x s);
  xi_range : map_Forall (fun p e => is_u64 p.2 /\ is_u64 e) m;
}.

Lemma find_record x s : NoDup (xr_xarray <$> xarray_records s) ->
  forall r, xarray_record_find_locked x s = Some r <-> r ∈ xarray_records s /\ xr_xarray r = x.
Proof.
  intros Hn r. unfold xarray_record_find_locked. rewrite fmap_Some. split.
  - intros ([i r'] & Hf & ->). apply list_find_Some in Hf as (Hi & Hx & _). split; [by eapply list_elem_of_lookup_2|done].
  - intros [[i Hi]%list_elem_of_lookup Hx]. exists (i, r). split; [|done]. apply list_find_Some. split_and!; [done|done|].
    intros j y Hj Hlt Hy. assert (i = j) as ->; [|lia].
    eapply NoDup_lookup; [exact Hn| |]; rewrite list_lookup_fmap; [by rewrite Hi|rewrite Hj; cbn; congruence].
Qed.

(** The effect of storing the entries of one xarray and its head. *)
Lemma store_entries x l s r :
  NoDup (xr_xarray <$> xarray_records s) -> xarray_record_find_locked x s = Some r ->
  let s' := xarray_write_head x (head_entry l) (set_entries x l s) in
  xr_xarray <$> xarray_records s' = xr_xarray <$> xarray_records s /\
  (forall y, entries_of y s' = if decide (y = x) then l else entries_of y s) /\
  filemap_folio_cache s' = filemap_folio_cache s.
Proof.
  intros Hn Hr s'. assert (xarray_records s' = (fun r => if xr_xarray r =? x then r <| xr_entries := l |> else r) <$> xarray_records s) as Hs'.
  { unfold s', xarray_write_head, set_entries. by destruct (x =? 0). }
  assert (xr_xarray <$> xarray_records s' = xr_xarray <$> xarray_records s) as Hk.
  { rewrite Hs', <- list_fmap_compose. apply list_fmap_ext. intros i y _. cbn. by destruct (xr_xarray y =? x). }
  split_and!; [done| |unfold s', xarray_write_head, set_entries; by destruct (x =? 0)].
  intros y. unfold entries_of. assert (NoDup (xr_xarray <$> xarray_records s')) as Hn' by by rewrite Hk.
  case_decide as E.
  - subst. apply find_record in Hr as [Hin Hx]; [|done].
    assert (xarray_record_find_locked x s' = Some (r <| xr_entries := l |>)) as ->; [|done].
    apply find_record; [done|]. split; [|done]. rewrite Hs'. apply list_elem_of_fmap. exists r. by rewrite (proj2 (Z.eqb_eq _ _)).
  - destruct (xarray_record_find_locked y s) as [q|] eqn:Hq.
    + apply find_record in Hq as [Hin Hx]; [|done]. assert (xarray_record_find_locked y s' = Some q) as ->; [|done].
      apply find_record; [done|]. split; [|done]. rewrite Hs'. apply list_elem_of_fmap. exists q.
      by rewrite (proj2 (Z.eqb_neq _ _)) by congruence.
    + destruct (xarray_record_find_locked y s') as [q|] eqn:Hq'; [|done]. exfalso.
      apply find_record in Hq' as [Hin Hx]; [|done]. rewrite Hs' in Hin. apply list_elem_of_fmap in Hin as (q0 & -> & Hin).
      assert (xr_xarray q0 = y) as Hx0 by (by destruct (xr_xarray q0 =? x)).
      assert (xarray_record_find_locked y s = Some q0) by (by apply find_record). congruence.
Qed.

Lemma head_entry_u64 s m x : xa_inv s m -> is_u64 (head_entry (entries_of x s)).
Proof.
  intros Hi. destruct (entries_of x s) as [|[i e] l] eqn:E; [by compute|]. unfold head_entry. cbn.
  assert (m !! (x, i) = Some e) as Hm. { rewrite <- (xi_view _ _ Hi), E. cbn. by rewrite Z.leb_refl, Z.eqb_refl. }
  by destruct (xi_range _ _ Hi _ _ Hm).
Qed.

(** Storing entries that stand for [m'] keeps the invariant. *)
Lemma store_entries_inv x l s m m' r :
  xa_inv s m -> x ∈ xs -> xarray_record_find_locked x s = Some r -> ascending l ->
  (forall y i, m' !! (y, i) = if decide (y = x) then load_entry i l else m !! (y, i)) ->
  map_Forall (fun p e => is_u64 p.2 /\ is_u64 e) m' ->
  xa_inv (xarray_write_head x (head_entry l) (set_entries x l s)) m'.
Proof using xs_apart xs_range.
  intros Hi Hx Hr Hl Hm' Hok. destruct (store_entries x l s r (xi_nodup _ _ Hi) Hr) as (Hk & He & _). cbv zeta in *.
  pose proof (xs_range x Hx) as Hxr.
  assert (xa_mem (xarray_write_head x (head_entry l) (set_entries x l s)) = mstore64 (xa_mem s) (x + 8) (head_entry l)) as Hmem.
  { unfold xarray_write_head, set_entries. rewrite (proj2 (Z.eqb_neq _ _)) by lia. cbn. rewrite u64_small; [done|].
    unfold is_u64, UINT64_MAX in *. lia. }
  constructor.
  - rewrite Hk. apply Hi.
  - apply (Forall_fmap xr_xarray (fun y => y ∈ xs)). rewrite Hk. apply Forall_fmap. apply Hi.
  - intros y. rewrite He. case_decide; [done|]. apply Hi.
  - intros y i. rewrite He, Hm'. case_decide; [done|]. apply Hi.
  - intros y Hy. rewrite Hmem, He. case_decide as E.
    + subst. apply mload64_mstore64_same. destruct l as [|[i e] l]; [by compute|].
      assert (m' !! (x, i) = Some e) as H. { rewrite Hm', decide_True by done. cbn. by rewrite Z.leb_refl, Z.eqb_refl. }
      by destruct (Hok _ _ H).
    + rewrite mload64_mstore64_other; [by apply Hi|]. pose proof (xs_apart x y Hx Hy). lia.
  - done.
Qed.

Lemma entries_absent x s : xarray_record_find_locked x s = None -> entries_of x s = [].
Proof. unfold entries_of. by intros ->. Qed.
Lemma entries_present x s r : xarray_record_find_locked x s = Some r -> xr_entries r = entries_of x s.
Proof. unfold entries_of. by intros ->. Qed.

(** A new record without entries changes nothing. *)
Lemma new_record_inv x s m : xa_inv s m -> x ∈ xs -> xarray_record_find_locked x s = None ->
  let s' := s <| xarray_records ::= cons (mk_xarray_record x []) |> in
  xa_inv s' m /\ xarray_record_find_locked x s' = Some (mk_xarray_record x []).
Proof using Type.
  intros Hi Hx Hr s'.
  assert (forall y, xarray_record_find_locked y s' = if decide (x = y) then Some (mk_xarray_record x []) else xarray_record_find_locked y s) as Hf.
  { intros y. unfold xarray_record_find_locked. cbn. case_decide; [done|]. by destruct (list_find _ _) as [[]|]. }
  assert (forall y, entries_of y s' = entries_of y s) as He.
  { intros y. unfold entries_of. rewrite Hf. case_decide; [subst; by rewrite Hr|done]. }
  split; [|rewrite Hf; by rewrite decide_True]. constructor.
  - cbn. constructor; [|apply Hi]. intros (r & Hrx & Hin)%list_elem_of_fmap.
    assert (xarray_record_find_locked x s = Some r) by (apply find_record; [apply Hi|done]). congruence.
  - cbn. constructor; [done|apply Hi].
  - intros y. rewrite He. apply Hi.
  - intros y i. rewrite He. apply Hi.
  - intros y Hy. rewrite He. by apply Hi.
  - apply Hi.
Qed.

Lemma insert_range (m : xmap) x i e : map_Forall (fun p e => is_u64 p.2 /\ is_u64 e) m -> is_u64 i -> is_u64 e ->
  map_Forall (fun p e => is_u64 p.2 /\ is_u64 e) (<[(x, i) := e]> m).
Proof. intros H Hi He. by apply map_Forall_insert_2. Qed.

Lemma xa_insert_refines fallback x i e rok eok s m :
  xa_inv s m -> xa_op_ok (XaInsert x i e rok eok) ->
  let '(s', r) := kb_fs_subsystem_xa_insert x i e rok eok s in
  exists m', xa_inv s' m' /\ xa_allows fallback (XaInsert x i e rok eok) m (RStatus r) m' /\
    filemap_folio_cache s' = filemap_folio_cache s.
Proof using xs_apart xs_range.
  intros Hi ([->|Hx] & Hii & Hie); unfold kb_fs_subsystem_xa_insert, xa_allows; [exists m; done|].
  destruct (_ || _) eqn:H0; [by exists m|].
  assert (forall s0 r0, xa_inv s0 m -> xarray_record_find_locked x s0 = Some r0 -> filemap_folio_cache s0 = filemap_folio_cache s ->
    rok && eok = false \/ eok = true ->
    let '(s', r) := match insert_entry i e (xr_entries r0) with
      | None => (s0, -16)
      | Some entries => if negb eok then (s0, -12) else (xarray_write_head x (head_entry entries) (set_entries x entries s0), 0)
      end in
    exists m', xa_inv s' m' /\ match m !! (x, i) with
           | Some _ => RStatus r = RStatus (-16) /\ m' = m
           | None => (RStatus r = RStatus 0 /\ m' = <[(x, i) := e]> m) \/ (RStatus r = RStatus (-12) /\ rok && eok = false /\ m' = m)
           end /\ filemap_folio_cache s' = filemap_folio_cache s) as Hgo.
  { intros s0 r0 Hi0 Hr0 Hc Hfl. rewrite (entries_present _ _ _ Hr0).
    pose proof (insert_entry_spec i e (entries_of x s0) (xi_sorted _ _ Hi0 x)) as Hspec. rewrite (xi_view _ _ Hi0) in Hspec.
    destruct (insert_entry i e (entries_of x s0)) as [l|].
    - destruct Hspec as (Hn & Ha & Hl & _). rewrite Hn. destruct eok; cbn [negb].
      + exists (<[(x, i) := e]> m). split_and!; [|by left|].
        * apply (store_entries_inv _ _ _ m _ r0); [done|done|done|done| |by apply insert_range; [apply Hi0| |]].
          intros y j. destruct (decide (y = x)) as [->|]; [|by rewrite lookup_insert_ne by congruence].
          rewrite Hl. destruct (decide (j = i)) as [->|]; [by rewrite lookup_insert_eq|].
          rewrite lookup_insert_ne by congruence. symmetry. apply Hi0.
        * rewrite (proj2 (proj2 (store_entries x l s0 r0 (xi_nodup _ _ Hi0) Hr0))). done.
      + exists m. split_and!; [done| |done]. right. by rewrite andb_false_r.
    - destruct Hspec as [old ->]. by exists m. }
  destruct (xarray_record_find_locked x s) as [r|] eqn:Hr.
  - apply Hgo; [done|done|done|]. destruct eok; [by right|left; by rewrite andb_false_r].
  - destruct rok; cbn [negb].
    + destruct (new_record_inv x s m Hi Hx Hr) as [Hi' Hr']. apply (Hgo _ _ Hi' Hr'); [done|]. destruct eok; [by right|by left].
    + exists m. split_and!; [done| |done].
      assert (m !! (x, i) = None) as ->; [|by right]. rewrite <- (xi_view _ _ Hi), (entries_absent _ _ Hr). done.
Qed.

Lemma xa_erase_refines fallback x i s m :
  xa_inv s m -> xa_op_ok (XaErase x i) ->
  let '(s', p) := kb_fs_subsystem_xa_erase x i s in
  exists m', xa_inv s' m' /\ xa_allows fallback (XaErase x i) m (RPointer p) m' /\ filemap_folio_cache s' = filemap_folio_cache s.
Proof using xs_apart xs_range.
  intros Hi [->|Hx]; unfold kb_fs_subsystem_xa_erase, xa_allows; [exists m; done|].
  rewrite (proj2 (Z.eqb_neq _ _)) by (specialize (xs_range x Hx); lia).
  assert (load_entry i (entries_of x s) = None -> delete (x, i) m = m) as Hd
    by (intros H; apply delete_id; by rewrite <- (xi_view _ _ Hi)).
  destruct (xarray_record_find_locked x s) as [r|] eqn:Hr.
  - rewrite (entries_present _ _ _ Hr). pose proof (remove_entry_spec i (entries_of x s) (xi_sorted _ _ Hi x)) as Hspec.
    destruct (remove_entry i (entries_of x s)) as [[old l]|].
    + destruct Hspec as (Hn & Ha & Hl & _). rewrite (xi_view _ _ Hi) in Hn. exists (delete (x, i) m). split_and!; [|by rewrite Hn|done|].
      * apply (store_entries_inv _ _ _ m _ r); [done|done|done|done| |by apply map_Forall_delete, Hi].
        intros y j. destruct (decide (y = x)) as [->|]; [|by rewrite lookup_delete_ne by congruence].
        rewrite Hl. destruct (decide (j = i)) as [->|]; [by rewrite lookup_delete_eq|].
        rewrite lookup_delete_ne by congruence. symmetry. apply Hi.
      * by rewrite (proj2 (proj2 (store_entries x l s r (xi_nodup _ _ Hi) Hr))).
    + exists m. split_and!; [done| |by rewrite Hd|done]. by rewrite <- (xi_view _ _ Hi), Hspec.
  - exists m. pose proof (entries_absent _ _ Hr) as He. split_and!; [done| |rewrite Hd; [done|by rewrite He]|done].
    by rewrite <- (xi_view _ _ Hi), He.
Qed.

Lemma drop_record_spec x l : NoDup (xr_xarray <$> l) ->
  NoDup (xr_xarray <$> drop_record x l) /\ forall r, r ∈ drop_record x l <-> r ∈ l /\ xr_xarray r <> x.
Proof.
  induction l as [|q l IH]; cbn [drop_record fmap list_fmap]; intros Hn.
  - split; [constructor|]. intros r. split; [by intros ?%elem_of_nil|by intros [?%elem_of_nil _]].
  - apply NoDup_cons in Hn as [Hq Hn]. destruct (IH Hn) as [IHn IHr]. destruct (Z.eqb_spec (xr_xarray q) x) as [E|E].
    + split; [done|]. intros r. rewrite elem_of_cons. split; [|by intros [[->|] ?]].
      intros Hr. split; [by right|]. intros E'. apply Hq. apply list_elem_of_fmap. exists r. split; [congruence|done].
    + split.
      * cbn. constructor; [|done]. intros (r & Hr & [Hin _]%IHr)%list_elem_of_fmap. apply Hq, list_elem_of_fmap. by exists r.
      * intros r. rewrite !elem_of_cons, IHr. split; [intros [->|[]]; tauto|]. intros [[->|] ?]; tauto.
Qed.

Lemma xa_destroy_inv x s m : xa_inv s m -> x ∈ xs ->
  xa_inv (kb_fs_subsystem_xa_destroy x s) (filter (fun p => p.1.1 <> x) m) /\
  filemap_folio_cache (kb_fs_subsystem_xa_destroy x s) = filemap_folio_cache s.
Proof using xs_apart xs_range.
  intros Hi Hx. pose proof (xs_range x Hx) as Hxr. unfold kb_fs_subsystem_xa_destroy, xarray_write_head.
  rewrite (proj2 (Z.eqb_neq _ _)) by lia. set (s' := _ <| xa_mem ::= _ |>). split; [|done].
  destruct (drop_record_spec x (xarray_records s) (xi_nodup _ _ Hi)) as [Hn Hr].
  assert (xarray_records s' = drop_record x (xarray_records s)) as Hs' by done.
  assert (forall y, xarray_record_find_locked y s' = if decide (y = x) then None else xarray_record_find_locked y s) as Hf.
  { intros y. destruct (xarray_record_find_locked y s') as [q|] eqn:Hq.
    - apply find_record in Hq as [[Hq Hne]%Hr <-]; [|by rewrite Hs']. rewrite decide_False by done. symmetry.
      by apply find_record; [apply Hi|].
    - case_decide; [done|]. destruct (xarray_record_find_locked y s) as [q|] eqn:Hq'; [|done].
      apply find_record in Hq' as [Hin <-]; [|apply Hi].
      assert (xarray_record_find_locked (xr_xarray q) s' = Some q); [|congruence]. apply find_record; [by rewrite Hs'|].
      split; [|done]. rewrite Hs'. by apply Hr. }
  assert (forall y, entries_of y s' = if decide (y = x) then [] else entries_of y s) as He
    by (intros y; unfold entries_of; rewrite Hf; by case_decide).
  assert (xa_mem s' = mstore64 (xa_mem s) (x + 8) 0) as Hmem.
  { unfold s'. cbn. rewrite u64_small; [done|]. unfold is_u64, UINT64_MAX in *. lia. }
  constructor.
  - by rewrite Hs'.
  - rewrite Hs'. apply Forall_forall. intros r [Hin _]%Hr. apply (proj1 (Forall_forall _ _) (xi_known _ _ Hi) _ Hin).
  - intros y. rewrite He. case_decide; [constructor|apply Hi].
  - intros y i. rewrite He, map_lookup_filter. destruct (decide (y = x)) as [->|E].
    + destruct (m !! (x, i)); [|done]. cbn. by rewrite option_guard_False by (cbn; tauto).
    + rewrite (xi_view _ _ Hi). destruct (m !! (y, i)); [|done]. cbn. by rewrite option_guard_True.
  - intros y Hy. rewrite Hmem, He. case_decide as E; [subst; by apply mload64_mstore64_same|].
    rewrite mload64_mstore64_other; [by apply Hi|]. pose proof (xs_apart x y Hx Hy). lia.
  - apply map_Forall_lookup. intros p e [Hp _]%map_lookup_filter_Some. by apply (xi_range _ _ Hi).
Qed.

Lemma xa_store_refines fallback x i e rok eok s m :
  xa_inv s m -> xa_op_ok (XaStore x i e rok eok) ->
  let '(s', p) := kb_fs_subsystem_xa_store x i e rok eok s in
  exists m', xa_inv s' m' /\ xa_allows fallback (XaStore x i e rok eok) m (RPointer p) m' /\
    filemap_folio_cache s' = filemap_folio_cache s.
Proof using xs_apart xs_range.
  intros Hi ([->|Hx] & Hii & Hie); unfold kb_fs_subsystem_xa_store; [by exists m|].
  assert (x =? 0 = false) as Hx0 by (apply Z.eqb_neq; specialize (xs_range x Hx); lia). unfold xa_allows. rewrite Hx0.
  destruct (e =? 0) eqn:He0.
  { pose proof (xa_erase_refines fallback x i s m Hi (or_intror Hx)) as H. unfold xa_allows in H. rewrite Hx0 in H.
    destruct (kb_fs_subsystem_xa_erase x i s). done. }
  assert (match xarray_record_find_locked x s ≫= (fun record => replace_entry i e (xr_entries record)) with
    | Some (old, l) => exists r, xarray_record_find_locked x s = Some r /\ replace_entry i e (entries_of x s) = Some (old, l)
    | None => replace_entry i e (entries_of x s) = None end) as Hfind.
  { destruct (xarray_record_find_locked x s) as [r|] eqn:Hr; cbn; [|by rewrite (entries_absent _ _ Hr)].
    rewrite (entries_present _ _ _ Hr). destruct (replace_entry _ _ _) as [[old l]|]; [|done]. by exists r. }
  pose proof (replace_entry_spec i e (entries_of x s) (xi_sorted _ _ Hi x)) as Hspec. rewrite (xi_view _ _ Hi) in Hspec.
  destruct (xarray_record_find_locked x s ≫= _) as [[old l]|].
  - destruct Hfind as (r & Hr & Hre). rewrite Hre in Hspec. destruct Hspec as (Hn & Ha & Hl & _). rewrite Hn.
    exists (<[(x, i) := e]> m). split_and!; [|done|done|by rewrite (proj2 (proj2 (store_entries x l s r (xi_nodup _ _ Hi) Hr)))].
    apply (store_entries_inv _ _ _ m _ r); [done|done|done|done| |by apply insert_range; [apply Hi| |]].
    intros y j. destruct (decide (y = x)) as [->|]; [|by rewrite lookup_insert_ne by congruence].
    rewrite Hl. destruct (decide (j = i)) as [->|]; [by rewrite lookup_insert_eq|].
    rewrite lookup_insert_ne by congruence. symmetry. apply Hi.
  - rewrite Hfind in Hspec. pose proof (xa_insert_refines fallback x i e rok eok s m Hi (conj (or_intror Hx) (conj Hii Hie))) as H.
    destruct (kb_fs_subsystem_xa_insert x i e rok eok s) as [s' st]. destruct H as (m' & Hi' & Hal & Hc). exists m'.
    unfold xa_allows in Hal. rewrite Hx0, He0, Hspec in Hal. cbn [orb] in Hal. rewrite Hspec. split_and!; [done| |done].
    destruct Hal as [([= ->] & ->)|([= ->] & Hf & ->)]; [by left|by right].
Qed.

Lemma xa_step_refines op s m : xa_inv s m -> xa_op_ok op ->
  let '(s', r) := xa_step op s in
  exists m', xa_inv s' m' /\ xa_allows (fun x i => filemap_xarray_load x i s) op m r m' /\
    filemap_folio_cache s' = filemap_folio_cache s.
Proof using xs_apart xs_range.
  intros Hi Hok. destruct op as [x i e rok eok|x i e rok eok|x i|x i|x i hi after|x]; cbn [xa_step].
  - pose proof (xa_insert_refines (fun x i => filemap_xarray_load x i s) x i e rok eok s m Hi Hok) as H.
    by destruct (kb_fs_subsystem_xa_insert _ _ _ _ _ _).
  - pose proof (xa_store_refines (fun x i => filemap_xarray_load x i s) x i e rok eok s m Hi Hok) as H.
    by destruct (kb_fs_subsystem_xa_store _ _ _ _ _ _).
  - exists m. split; [done|]. split; [|done]. split; [|done]. unfold kb_fs_subsystem_xa_load. destruct (x =? 0); [done|]. do 2 f_equal.
    rewrite <- (xi_view _ _ Hi). unfold entries_of. destruct (xarray_record_find_locked x s) as [r|]; cbn; [|done].
    by destruct (load_entry _ _).
  - pose proof (xa_erase_refines (fun x i => filemap_xarray_load x i s) x i s m Hi Hok) as H.
    by destruct (kb_fs_subsystem_xa_erase _ _ _).
  - exists m. destruct Hok as (Hx & Hii & Hhi). split; [done|]. split; [|done]. split; [done|].
    assert ((if after then kb_fs_subsystem_xa_find_after x i hi s else kb_fs_subsystem_xa_find x i hi s) = xarray_find_from x i hi after s) as ->
      by (by destruct after).
    unfold xarray_find_from. destruct (Z.eqb_spec x 0); [by left|]. set (lo := if after then i + 1 else i).
    destruct (after && (i =? UINT64_MAX)) eqn:Hend.
    { right. intros j Hj. apply andb_true_iff in Hend as [-> Hend]. unfold is_u64, UINT64_MAX in *. lia. }
    assert ((record ← xarray_record_find_locked x s;
      snd <$> list_find (fun item => (lo <=? item.1) && (item.1 <=? hi) = true) (xr_entries record)) =
      (snd <$> list_find (fun item => (lo <=? item.1) && (item.1 <=? hi) = true) (entries_of x s))) as ->.
    { unfold entries_of. by destruct (xarray_record_find_locked x s). }
    pose proof (find_least lo hi (entries_of x s) (xi_sorted _ _ Hi x)) as Hl.
    destruct (_ <$> _) as [[j e]|].
    + destruct Hl as (H1 & H2 & H3). split; [done|]. unfold least_in. rewrite <- (xi_view _ _ Hi). split_and!; [done|lia|lia|].
      intros k Hk. rewrite <- (xi_view _ _ Hi). by apply H3.
    + right. intros j Hj. rewrite <- (xi_view _ _ Hi). by apply Hl.
  - destruct Hok as [->|Hx]; [by exists m|]. destruct (xa_destroy_inv x s m Hi Hx) as [Hi' Hc]. eexists. split; [exact Hi'|]. split; [|done]. split; [done|].
    specialize (xs_range x Hx). by rewrite (proj2 (Z.eqb_neq _ _)) by lia.
Qed.

Lemma xa_run_refines ops s m : xa_inv s m -> Forall xa_op_ok ops ->
  let '(s', rs) := xa_run ops s in
  exists m', xa_inv s' m' /\ xa_allows_all (fun x i => filemap_xarray_load x i s) ops m rs m'.
Proof using xs_apart xs_range.
  revert s m. induction ops as [|op ops IH]; intros s m Hi Hok; cbn [xa_run]; [by exists m|].
  apply Forall_cons in Hok as [Hop Hok]. pose proof (xa_step_refines op s m Hi Hop) as Hstep.
  destruct (xa_step op s) as [s1 r]. destruct Hstep as (m1 & Hi1 & Hal & Hc). pose proof (IH s1 m1 Hi1 Hok) as Hrest.
  destruct (xa_run ops s1) as [s' rs]. destruct Hrest as (m' & Hi' & Hals). exists m'. split; [done|]. exists m1. split; [done|].
  assert (forall x i, filemap_xarray_load x i s1 = filemap_xarray_load x i s) as Hfb
    by (intros x i; unfold filemap_xarray_load; by rewrite Hc).
  clear -Hals Hfb. revert m1 rs Hals. induction ops as [|o ops IH]; intros m1 [|q rs] H; try done.
  destruct H as (m2 & Ha & H). exists m2. split; [|by apply IH].
  destruct o; try done. unfold xa_allows in *. by rewrite <- Hfb.
Qed.
End xarrays.

(** C27: Xarrays are ordered maps: any sequence of insertions, stores, loads, erasures,
    searches and destructions, on any xarrays, answers as a finite map from xarray and
    index does; only an allocation that fails can make an insertion fail without a
    reason in the map, and then nothing changes.  After each sequence the word that
    module code reads as the head of an xarray is the entry of the least index, or NULL
    if there is none. *)
Theorem xarray_refines_ordered_map xs folios m0 ops :
  (forall x y, x ∈ xs -> y ∈ xs -> x <> y -> x + 8 <= y \/ y + 8 <= x) ->
  (forall x, x ∈ xs -> 0 < x < UINT64_MAX - 16) ->
  (forall x, x ∈ xs -> mload64 m0 (x + 8) = 0) ->
  Forall (xa_op_ok xs) ops ->
  let s0 := mk_xarray_state [] folios m0 in
  let '(s, rs) := xa_run ops s0 in
  exists m, xa_allows_all (fun x i => filemap_xarray_load x i s0) ops ∅ rs m /\
    forall x, x ∈ xs ->
      (exists i e, least_in m x 0 UINT64_MAX i e /\ mload64 (xa_mem s) (x + 8) = e) \/
      (forall i, m !! (x, i) = None) /\ mload64 (xa_mem s) (x + 8) = 0.
Proof.
  intros Hap Hr H0 Hok s0.
  assert (xa_inv xs s0 ∅) as Hi.
  { constructor; cbn; [constructor|constructor|constructor|done|done|apply map_Forall_empty]. }
  pose proof (xa_run_refines xs Hap Hr ops s0 ∅ Hi Hok) as H. destruct (xa_run ops s0) as [s rs].
  destruct H as (m & Hm & Hal). exists m. split; [done|]. intros x Hx. rewrite (xi_head _ _ _ Hm) by done.
  pose proof (xi_view _ _ _ Hm x) as Hv. pose proof (xi_sorted _ _ _ Hm x) as Hs.
  destruct (entries_of x s) as [|[i e] l]; [right; split; [intros i; by rewrite <- Hv|done]|]. left. exists i, e.
  assert (m !! (x, i) = Some e) as Hie by (rewrite <- Hv; cbn; by rewrite Z.leb_refl, Z.eqb_refl).
  destruct (xi_range _ _ _ Hm _ _ Hie) as [Hu _]. split; [|done]. split_and!; [done|apply Hu|unfold is_u64, UINT64_MAX in *; cbn in *; lia|].
  intros j Hj. rewrite <- Hv. cbn. by rewrite (proj2 (Z.leb_gt _ _)) by lia.
Qed.

(** ** Local files *)

(** A file after a write: a buffer at an offset over the old bytes, with zeros between. *)
Definition is_write_of (data : list Z) (offset : Z) (buffer data' : list Z) : Prop :=
  blen data' = Z.max (blen data) (offset + blen buffer) /\
  forall i, 0 <= i -> nth (Z.to_nat i) data' 0 =
    if decide (offset <= i < offset + blen buffer) then nth (Z.to_nat (i - offset)) buffer 0 else nth (Z.to_nat i) data 0.

Inductive local_op :=
  | LMount (desc : kb_fs_mount_desc) (copies_ok : bool)
  | LRead (handle : Z) (path : list Z) (offset byte_count : Z)
  | LWrite (handle : Z) (path : list Z) (offset : Z) (buffer : list Z) (copy_ok realloc_ok : bool).

Inductive local_result := LHandle (r : outcome Z) | LBytes (r : outcome (list Z)) | LCount (r : outcome Z).

Definition local_step (op : local_op) (s : local_state) : local_state * local_result :=
  match op with
  | LMount desc ok => let '(s, r) := fs_local_mount desc ok s in (s, LHandle r)
  | LRead h p o n => (s, LBytes (fs_local_read h (Some p) o n s))
  | LWrite h p o b c r => let '(s, r) := fs_local_write h (Some p) o b c r s in (s, LCount r)
  end.

Fixpoint local_run (ops : list local_op) (s : local_state) : local_state * list local_result :=
  match ops with
  | [] => (s, [])
  | op :: ops => let '(s, r) := local_step op s in let '(s, rs) := local_run ops s in (s, r :: rs)
  end.

(** The handles that are mounted and the files. *)
Record store := mk_store { st_handles : gset Z; st_files : gmap (Z * list Z) (list Z) }.

Definition local_allows (op : local_op) (a : store) (r : local_result) (a' : store) : Prop :=
  match op with
  | LMount _ _ =>
      match r with
      | LHandle (Done h) => h ∉ st_handles a /\ h <> 0 /\ a' = mk_store ({[h]} ∪ st_handles a) (st_files a)
      | LHandle (Fail _) => a' = a
      | _ => False
      end
  | LRead h p o n =>
      a' = a /\ r = LBytes (if decide (h ∈ st_handles a)
                            then match st_files a !! (h, p) with
                                 | Some data => Done (slice data o (Z.max 0 (Z.min n (blen data - o))))
                                 | None => Fail KB_ERR_NOT_FOUND
                                 end
                            else Fail KB_ERR_NOT_FOUND)
  | LWrite h p o b cok rok =>
      let old := default [] (st_files a !! (h, p)) in
      match r with
      | LCount (Done n) =>
          h ∈ st_handles a /\ n = blen b /\ exists data, is_write_of old o b data /\
            a' = mk_store (st_handles a) (<[(h, p) := data]> (st_files a))
      | LCount (Fail e) =>
          (h ∉ st_handles a /\ e = KB_ERR_NOT_FOUND /\ a' = a) \/
          (h ∈ st_handles a /\ (a' = a \/ a' = mk_store (st_handles a) (<[(h, p) := old]> (st_files a))) /\
            (e = KB_ERR_INVALID /\ UINT64_MAX < o + blen b \/ e = KB_ERR_NOMEM))
      | _ => False
      end
  end.

Fixpoint local_allows_all (ops : list local_op) (a : store) (rs : list local_result) (a' : store) : Prop :=
  match ops, rs with
  | [], [] => a' = a
  | op :: ops, r :: rs => exists a1, local_allows op a r a1 /\ local_allows_all ops a1 rs a'
  | _, _ => False
  end.

Definition local_op_ok (op : local_op) : Prop :=
  match op with
  | LMount _ _ => True
  | LRead _ _ o n => is_u64 o /\ is_u64 n
  | LWrite _ _ o b _ _ => is_u64 o /\ is_u64 (blen b)
  end.

(** *** The invariant *)

Definition file_key (r : kb_fs_file_record) : Z * list Z := (fi_mount_handle r, fi_path r).

Record files_inv (s : local_state) (a : store) : Prop := {
  fv_files : forall k data, st_files a !! k = Some data <->
    exists i r, fs_files s !! i = Some r /\ fi_active r = true /\ file_key r = k /\ fi_data r = data;
  fv_unique : forall i j r q, fs_files s !! i = Some r -> fs_files s !! j = Some q ->
    fi_active r = true -> fi_active q = true -> file_key r = file_key q -> i = j;
  fv_free : Forall (fun r => fi_active r = false -> fi_data r = []) (fs_files s);
  fv_handles : forall h, h ∈ st_handles a <-> exists r, r ∈ fs_mounts s /\ fm_active r = true /\ fm_handle r = h;
  fv_next : Forall (fun r => fm_active r = true -> 0 < fm_handle r < next_mount_handle s) (fs_mounts s);
  fv_count : 0 < next_mount_handle s <= 1 + Z.of_nat (length (List.filter fm_active (fs_mounts s)));
  fv_room : length (fs_mounts s) = KB_FS_MOUNT_MAX;
}.

Lemma find_mount_iff s a h : files_inv s a -> is_Some (find_mount h s) <-> h ∈ st_handles a.
Proof.
  intros Hi. unfold find_mount. rewrite (fv_handles _ _ Hi). destruct (Z.eqb_spec h 0) as [->|].
  - split; [by intros []|]. intros (r & Hr & Ha & Hh).
    pose proof (proj1 (Forall_forall _ _) (fv_next _ _ Hi) _ Hr Ha). lia.
  - split.
    + intros [i Hf]. apply first_index_Some in Hf as (r & Hl & Hp & _). exists r. split; [by eapply list_elem_of_lookup_2|].
      apply andb_true_iff in Hp as [? ?%Z.eqb_eq]. done.
    + intros (r & Hr & Ha & Hh). destruct (first_index _ _) eqn:Hf; [done|]. exfalso. apply first_index_None in Hf.
      pose proof (proj1 (Forall_forall _ _) Hf _ Hr) as H. cbn in H. rewrite Ha, Hh, Z.eqb_refl in H. done.
Qed.

Lemma find_file_spec s a h p : files_inv s a ->
  match find_file h (Some p) s with
  | Some i => exists r, fs_files s !! i = Some r /\ fi_active r = true /\ file_key r = (h, p) /\ st_files a !! (h, p) = Some (fi_data r)
  | None => st_files a !! (h, p) = None
  end.
Proof.
  intros Hi. unfold find_file. destruct (first_index _ _) as [i|] eqn:Hf.
  - apply first_index_Some in Hf as (r & Hl & Hp & _). exists r.
    apply andb_true_iff in Hp as [[Ha Hh%Z.eqb_eq]%andb_true_iff Hpath%bool_decide_eq_true].
    assert (file_key r = (h, p)) as Hk by (unfold file_key; congruence). split_and!; [done|done|done|].
    apply (fv_files _ _ Hi). by exists i, r.
  - apply first_index_None in Hf. destruct (st_files a !! (h, p)) as [d|] eqn:Hd; [|done]. exfalso.
    apply (fv_files _ _ Hi) in Hd as (i & r & Hl & Ha & Hk & _). apply list_elem_of_lookup_2 in Hl.
    pose proof (proj1 (Forall_forall _ _) Hf _ Hl) as H. cbn in H. unfold file_key in Hk. injection Hk as <- <-.
    rewrite Ha, Z.eqb_refl, bool_decide_eq_true_2 in H by done. done.
Qed.

(** Setting slot [i] to the file [data] of key [k], which no other slot has. *)
Lemma set_file_inv s a i r k data (f : kb_fs_file_record -> kb_fs_file_record) :
  files_inv s a -> fs_files s !! i = Some r -> (fi_active r = true -> file_key r = k) ->
  (fi_active r = false -> st_files a !! k = None) ->
  fi_active (f r) = true -> file_key (f r) = k -> fi_data (f r) = data ->
  files_inv (s <| fs_files ::= alter f i |>) (mk_store (st_handles a) (<[k := data]> (st_files a))).
Proof.
  intros Hi Hl Hk Hnew Ha Hk' Hd.
  assert (forall j q, fs_files s !! j = Some q -> fi_active q = true -> file_key q = k -> j = i) as Huniq.
  { intros j q Hj Hq Hkq. destruct (fi_active r) eqn:Har.
    - apply (fv_unique _ _ Hi j i q r); [done|done|done|done|]. rewrite Hkq. symmetry. by apply Hk.
    - specialize (Hnew eq_refl). assert (st_files a !! k = Some (fi_data q)); [|congruence].
      apply (fv_files _ _ Hi). by exists j, q. }
  constructor; cbn.
  - intros k' d. destruct (decide (k' = k)) as [->|Hne].
    + rewrite lookup_insert_eq. split.
      * intros [= <-]. exists i, (f r). rewrite list_lookup_alter, decide_True, Hl by done. done.
      * intros (j & q & Hj & Hq & Hkq & Hdq). apply list_lookup_alter_Some in Hj as [(-> & x & Hx & ->)|[Hij Hj]].
        -- rewrite Hl in Hx. injection Hx as <-. congruence.
        -- destruct Hij. symmetry. by eapply Huniq.
    + rewrite lookup_insert_ne by done. rewrite (fv_files _ _ Hi). split; intros (j & q & Hj & Hq & Hkq & Hdq).
      * exists j, q. split_and!; [|done..]. rewrite list_lookup_alter. case_decide as E; [|done]. subst j.
        rewrite Hl in Hj. injection Hj as <-. destruct Hne. rewrite <- Hkq. by apply Hk.
      * apply list_lookup_alter_Some in Hj as [(-> & x & Hx & ->)|[Hij Hj]]; [|by exists j, q].
        rewrite Hl in Hx. injection Hx as <-. congruence.
  - intros j1 j2 q1 q2 H1 H2 A1 A2 K.
    apply list_lookup_alter_Some in H1 as [(<- & x1 & Hx1 & ->)|[Hn1 H1]];
      apply list_lookup_alter_Some in H2 as [(<- & x2 & Hx2 & ->)|[Hn2 H2]]; [done| | |by eapply (fv_unique _ _ Hi)].
    + rewrite Hl in Hx1. injection Hx1 as <-. symmetry. eapply Huniq; [done|done|congruence].
    + rewrite Hl in Hx2. injection Hx2 as <-. eapply Huniq; [done|done|congruence].
  - apply Forall_lookup. intros j q Hj. apply list_lookup_alter_Some in Hj as [(-> & x & Hx & ->)|[Hij Hj]].
    + rewrite Hl in Hx. injection Hx as <-. congruence.
    + by apply (proj1 (Forall_lookup _ _) (fv_free _ _ Hi) j).
  - apply Hi.
  - apply Hi.
  - apply Hi.
  - apply Hi.
Qed.

Lemma write_is_write_of data offset buffer :
  0 <= offset -> let end_ := offset + blen buffer in
  let padded := if blen data <? end_ then data ++ replicate (Z.to_nat (end_ - blen data)) 0 else data in
  is_write_of data offset buffer (splice padded offset buffer).
Proof.
  intros Ho end_ padded.
  assert (blen padded = Z.max (blen data) end_) as Hl.
  { unfold padded. destruct (Z.ltb_spec (blen data) end_); [|lia]. unfold blen in *. rewrite length_app, length_replicate. lia. }
  assert (forall i, nth i padded 0 = nth i data 0) as Hn.
  { intros i. unfold padded. destruct (_ <? _); [|done]. rewrite !nth_lookup. destruct (decide (i < length data)%nat) as [Hi|Hi].
    - by rewrite lookup_app_l.
    - rewrite lookup_app_r by lia. rewrite (lookup_ge_None_2 data) by lia.
      destruct (replicate _ _ !! _) as [z|] eqn:E; [|done]. by apply lookup_replicate in E as [-> _]. }
  unfold is_write_of. rewrite blen_splice by lia. split; [done|]. intros i Hi. case_decide as Hin.
  - rewrite nth_splice_in by lia. f_equal. lia.
  - rewrite nth_splice_other by lia. apply Hn.
Qed.

Lemma file_for_write_spec s a h p cok : files_inv s a ->
  match file_for_write h (Some p) cok s with
  | (s', None) => s' = s
  | (s', Some i) => let old := default [] (st_files a !! (h, p)) in
      files_inv s' (mk_store (st_handles a) (<[(h, p) := old]> (st_files a))) /\
      exists r, fs_files s' !! i = Some r /\ fi_active r = true /\ file_key r = (h, p) /\ fi_data r = old
  end.
Proof.
  intros Hi. unfold file_for_write. pose proof (find_file_spec s a h p Hi) as Hf.
  destruct (find_file h (Some p) s) as [i|].
  - destruct Hf as (r & Hl & Ha & Hk & Hd). rewrite Hd. cbn. rewrite insert_id by done. split; [by destruct a|by exists r].
  - destruct (first_index _ _) as [i|] eqn:Hfree; [|done]. destruct cok; cbn [negb]; [|done]. cbv zeta. rewrite Hf. cbn [default].
    apply first_index_Some in Hfree as (r & Hl & Ha%negb_true_iff & _).
    pose proof (proj1 (Forall_lookup _ _) (fv_free _ _ Hi) i r Hl Ha) as Hd. split.
    + eapply (set_file_inv s a i r); try done. by rewrite Ha.
    + eexists. cbn. rewrite list_lookup_alter, decide_True, Hl by done. done.
Qed.

Lemma local_write_refines s a h p o b cok rok : files_inv s a -> local_op_ok (LWrite h p o b cok rok) ->
  let '(s', r) := fs_local_write h (Some p) o b cok rok s in
  exists a', files_inv s' a' /\ local_allows (LWrite h p o b cok rok) a (LCount r) a'.
Proof.
  intros Hi [Ho Hb]. unfold fs_local_write. pose proof (find_mount_iff s a h Hi) as Hm.
  destruct (find_mount h s) as [k|].
  2: { exists a. split; [done|]. left. split_and!; [|done|done]. rewrite <- Hm. by intros []. }
  assert (h ∈ st_handles a) as Hh by (apply Hm; done). cbn [local_allows].
  pose proof (file_for_write_spec s a h p cok Hi) as Hf. destruct (file_for_write h (Some p) cok s) as [s1 [i|]].
  2: { subst s1. exists a. split; [done|]. right. split_and!; [done|by left|by right]. }
  cbv zeta in Hf. set (old := default [] _) in *. destruct Hf as (Hi1 & r & Hl & Ha & Hk & Hd).
  assert (file_data i s1 = old) as -> by (unfold file_data; rewrite Hl; cbn; done).
  destruct (Z.ltb_spec (u64 (o + blen b)) (blen b)) as [Hov|Hov].
  { eexists. split; [exact Hi1|]. right. split_and!; [done|by right|]. left. split; [done|]. unfold UINT64_MAX. ilia. }
  assert (u64 (o + blen b) = o + blen b) as -> by ilia.
  destruct ((blen old <? o + blen b) && negb rok) eqn:Hre.
  { eexists. split; [exact Hi1|]. right. split_and!; [done|by right|by right]. }
  pose proof (write_is_write_of old o b (proj1 Ho)) as Hw. cbv zeta in Hw.
  set (padded := if blen old <? o + blen b then old ++ replicate (Z.to_nat (o + blen b - blen old)) 0 else old) in *.
  exists (mk_store (st_handles a) (<[(h, p) := splice padded o b]> (st_files a))). split.
  - pose proof (set_file_inv s1 (mk_store (st_handles a) (<[(h, p) := old]> (st_files a))) i r (h, p) (splice padded o b)
      (fun r => r <| fi_data := splice padded o b |>) Hi1 Hl (fun _ => Hk) ltac:(by rewrite Ha) Ha Hk eq_refl) as H.
    cbn [st_handles st_files] in H. by rewrite insert_insert_eq in H.
  - split_and!; [done|done|]. eexists. split; [exact Hw|done].
Qed.

Lemma local_mount_refines s a desc ok : files_inv s a ->
  let '(s', r) := fs_local_mount desc ok s in exists a', files_inv s' a' /\ local_allows (LMount desc ok) a (LHandle r) a'.
Proof.
  intros Hi. unfold fs_local_mount. destruct (find_fs_type_by_name _ s) as [t|]; [|by exists a].
  destruct (first_index _ (fs_mounts s)) as [i|] eqn:Hf; [|by exists a]. destruct ok; cbn [negb]; [|by exists a].
  apply first_index_Some in Hf as (q & Hq & Hqa%negb_true_iff & _). pose proof (lookup_lt_Some _ _ _ Hq) as Hlt.
  set (h := next_mount_handle s). set (r := mk_mount_record true h t _ _ _).
  pose proof (fv_count _ _ Hi) as Hc. pose proof (fv_room _ _ Hi) as Hroom.
  assert (length (List.filter fm_active (<[i := r]> (fs_mounts s))) = S (length (List.filter fm_active (fs_mounts s)))) as Hcount.
  { pose proof (filter_length_alter fm_active (fun _ => r) (fs_mounts s) i q Hq) as H. rewrite Hqa in H. cbn [fm_active r] in H.
    assert (alter (fun _ => r) i (fs_mounts s) = <[i := r]> (fs_mounts s)) as E; [|rewrite E in H; lia].
    apply list_eq. intros j. rewrite list_lookup_alter, list_lookup_insert. case_decide as E; [subst j|].
    - rewrite Hq. cbn. by rewrite decide_True.
    - by rewrite decide_False by tauto. }
  pose proof (filter_length_le fm_active (<[i := r]> (fs_mounts s))) as Hle. rewrite length_insert in Hle.
  assert (0 < h <= 64) as Hh by (unfold h, KB_FS_MOUNT_MAX in *; lia).
  assert (u64 (h + 1) = h + 1) as -> by (apply u64_small; unfold is_u64; lia).
  rewrite (proj2 (Z.eqb_neq _ _)) by lia.
  exists (mk_store ({[h]} ∪ st_handles a) (st_files a)). split.
  - constructor; cbn.
    + apply Hi.
    + apply Hi.
    + apply Hi.
    + intros h'. rewrite elem_of_union, elem_of_singleton, (fv_handles _ _ Hi). split.
      * intros [->|(m & Hm & Ha & Hh')].
        -- exists r. split; [by apply list_elem_of_lookup; exists i; apply list_lookup_insert_eq|done].
        -- exists m. split; [|done]. apply list_elem_of_lookup in Hm as [j Hj]. apply list_elem_of_lookup. exists j.
           rewrite list_lookup_insert_ne; [done|]. intros ->. congruence.
      * intros (m & Hm & Ha & Hh'). apply list_elem_of_lookup in Hm as [j Hj].
        destruct (decide (j = i)) as [->|]; [rewrite list_lookup_insert_eq in Hj by done; injection Hj as <-; by left|].
        rewrite list_lookup_insert_ne in Hj by done. right. exists m. split; [by eapply list_elem_of_lookup_2|done].
    + apply Forall_insert; [|cbn; lia]. eapply Forall_impl; [apply (fv_next _ _ Hi)|]. cbn. intros m Hm Ha. specialize (Hm Ha). unfold h. lia.
    + rewrite Hcount. unfold h in *. lia.
    + by rewrite length_insert.
  - split_and!; [|lia|done]. rewrite (fv_handles _ _ Hi). intros (m & Hm & Ha & Hh').
    pose proof (proj1 (Forall_forall _ _) (fv_next _ _ Hi) _ Hm Ha). unfold h in *. lia.
Qed.

Lemma local_read_refines s a h p o n : files_inv s a -> local_op_ok (LRead h p o n) ->
  local_allows (LRead h p o n) a (LBytes (fs_local_read h (Some p) o n s)) a.
Proof.
  intros Hi [Ho Hn]. split; [done|]. unfold fs_local_read. pose proof (find_mount_iff s a h Hi) as Hm.
  pose proof (find_file_spec s a h p Hi) as Hf. case_decide as Hh.
  - apply Hm in Hh as [k ->]. destruct (find_file h (Some p) s) as [i|]; [|by rewrite Hf].
    destruct Hf as (r & Hl & _ & _ & ->). assert (file_data i s = fi_data r) as -> by (unfold file_data; by rewrite Hl).
    do 2 f_equal. destruct (Z.leb_spec (blen (fi_data r)) o).
    + replace (Z.max 0 _) with 0 by lia. done.
    + do 2 f_equal. destruct (Z.ltb_spec (blen (fi_data r) - o) n); unfold is_u64 in *; lia.
  - destruct (find_mount h s); [|done]. destruct Hh. by apply Hm.
Qed.

(** The files that are kept locally form a finite map from mount and path to bytes:
    in any sequence of mounts, reads and writes every read returns the bytes of its
    range that the writes before left there, zeros where a write left a gap; a mount
    gets a handle that no other has; a write that fails changes no byte of any file. *)
Theorem local_files_refine_map types ops :
  Forall local_op_ok ops ->
  let '(s, rs) := local_run ops (local_init <| fs_types := types |>) in
  exists a, local_allows_all ops (mk_store ∅ ∅) rs a /\ files_inv s a.
Proof.
  intros Hok.
  assert (files_inv (local_init <| fs_types := types |>) (mk_store ∅ ∅)) as Hinit.
  { change (files_inv (mk_local_state types (replicate KB_FS_MOUNT_MAX free_mount) (replicate KB_FS_FILE_MAX free_file) 1) (mk_store ∅ ∅)).
    constructor; cbn [fs_files fs_mounts next_mount_handle st_files st_handles].
    - intros k d. rewrite lookup_empty. split; [done|]. intros (i & r & Hr & Ha & _). by apply lookup_replicate in Hr as [-> _].
    - intros i j r q Hr _ Ha. by apply lookup_replicate in Hr as [-> _].
    - by apply Forall_replicate.
    - intros h. split; [set_solver|]. intros (r & Hr & Ha & _). by apply elem_of_replicate in Hr as [-> _].
    - by apply Forall_replicate.
    - lia.
    - done. }
  revert Hinit. generalize (local_init <| fs_types := types |>) (mk_store ∅ ∅). clear types.
  induction ops as [|op ops IH]; intros s a Hi; cbn [local_run]; [by exists a|]. apply Forall_cons in Hok as [Hop Hok].
  assert (exists a1, files_inv (local_step op s).1 a1 /\ local_allows op a (local_step op s).2 a1) as (a1 & Hi1 & Hal).
  { destruct op as [desc ok|h p o n|h p o b cok rok]; cbn [local_step].
    - pose proof (local_mount_refines s a desc ok Hi). by destruct (fs_local_mount desc ok s).
    - exists a. split; [done|]. by apply local_read_refines.
    - pose proof (local_write_refines s a h p o b cok rok Hi Hop). by destruct (fs_local_write _ _ _ _ _ _ _). }
  destruct (local_step op s) as [s1 r]. specialize (IH Hok s1 a1 Hi1). destruct (local_run ops s1) as [s' rs].
  destruct IH as (a' & Ha' & Hi'). exists a'. split; [by exists a1|done].
Qed.

(** ** Instances *)

Lemma xarray_refines_ordered_map_witness :
  let '(s, rs) := xa_run [XaInsert 4096 7 70 true true; XaStore 4096 3 30 true true; XaFind 4096 0 9 false; XaErase 4096 3]
                    (mk_xarray_state [] [] ∅) in
  rs = [RStatus 0; RPointer 0; RFound (Some (3, 30)); RPointer 30] /\ mload64 (xa_mem s) 4104 = 70 /\
  exists m, xa_allows_all (fun x i => filemap_xarray_load x i (mk_xarray_state [] [] ∅))
    [XaInsert 4096 7 70 true true; XaStore 4096 3 30 true true; XaFind 4096 0 9 false; XaErase 4096 3] ∅ rs m.
Proof.
  assert (forall x y, x ∈ [4096] -> y ∈ [4096] -> x <> y -> x + 8 <= y \/ y + 8 <= x) as H1
    by (intros x y ->%list_elem_of_singleton ->%list_elem_of_singleton; done).
  assert (forall x, x ∈ [4096] -> 0 < x < UINT64_MAX - 16) as H2 by (by intros x ->%list_elem_of_singleton).
  assert (forall x, x ∈ [4096] -> mload64 ∅ (x + 8) = 0) as H3 by (by intros x ->%list_elem_of_singleton).
  assert (Forall (xa_op_ok [4096]) [XaInsert 4096 7 70 true true; XaStore 4096 3 30 true true; XaFind 4096 0 9 false; XaErase 4096 3]) as H4
    by (repeat constructor; cbn; try (right; constructor); unfold is_u64; lia).
  pose proof (xarray_refines_ordered_map [4096] [] ∅ _ H1 H2 H3 H4) as H.
  destruct (xa_run _ _) as [s rs] eqn:E. vm_compute in E. injection E as <- <-.
  split; [reflexivity|]. split; [vm_compute; reflexivity|]. destruct H as (m & Hm & _). exists m. exact Hm.
Defined.

Definition demo_ops : list local_op :=
  [LMount (mk_mount_desc None (Some [47]) (Some [101]) 0 [] 0) true; LWrite 1 [97] 2 [5; 6] true true; LRead 1 [97] 0 10;
   LRead 1 [98] 0 1; LWrite 2 [97] 0 [1] true true].
Definition demo_types : list kb_fs_type_record := [mk_type_record true 8192 (Some [101]) 0 1].

Lemma local_files_refine_map_witness :
  let '(s, rs) := local_run demo_ops (local_init <| fs_types := demo_types |>) in
  rs = [LHandle (Done 1); LCount (Done 2); LBytes (Done [0; 0; 5; 6]); LBytes (Fail KB_ERR_NOT_FOUND);
        LCount (Fail KB_ERR_NOT_FOUND)] /\
  exists a, local_allows_all demo_ops (mk_store ∅ ∅) rs a.
Proof.
  assert (Forall local_op_ok demo_ops) as Hok
    by (unfold demo_ops; repeat (apply Forall_cons; split; [cbn; unfold is_u64, blen; cbn; lia|]); apply Forall_nil; exact I).
  pose proof (local_files_refine_map demo_types demo_ops Hok) as H.
  destruct (local_run _ _) as [s rs] eqn:E. vm_compute in E. injection E as <- <-. split; [reflexivity|].
  destruct H as (a & Ha & _). exists a. exact Ha.
Defined.

(** A write that is refused because its end does not fit leaves an empty file behind. *)
Lemma refused_write_leaves_file :
  let '(s, rs) := local_run [LMount (mk_mount_desc None (Some [47]) (Some [101]) 0 [] 0) true;
                             LWrite 1 [97] UINT64_MAX [5; 6] true true; LRead 1 [97] 0 10]
                    (local_init <| fs_types := demo_types |>) in
  rs = [LHandle (Done 1); LCount (Fail KB_ERR_INVALID); LBytes (Done [])] /\
  fs_local_readdir 1 100 s = Done [97; 10].
Proof. vm_compute. split; reflexivity. Qed.

(** Registering a second type of the same name succeeds and takes the place of the first,
    which can then not be unregistered. *)
Lemma second_type_replaces_first :
  let m := mstore64 (mstore64 (mstore ∅ 0x9000 [101; 0]) 0x5000 0x9000) 0x6000 0x9000 in
  let s := (kb_fs_subsystem_register_filesystem m 0 0x5000 true local_init).1 in
  let '(s', status) := kb_fs_subsystem_register_filesystem m 0 0x6000 true s in
  status = 0 /\ kb_fs_subsystem_registered_type_count s' = 1%nat /\ (kb_fs_subsystem_unregister_filesystem 0x5000 s').2 = -2.
Proof. vm_compute. split_and!; reflexivity. Qed.
