(* ===== verification/FsBlock.v ===== *)
(** * File-system subsystem: block devices and the buffer cache
    (src/src/linux_subsystem/fs/fs.c)

    The block devices file systems are mounted from: a disk or a range of one, with
    bounce buffers for requests that are not whole sectors; partitions of a GPT; range
    checks, batches, and the cache of dirty blocks that reads are overlaid with and
    writes go through to.

    The callbacks of a device act on a world [W] with a context [C]; those of a disk are
    defined here, over the block subsystem.  Buffers are addresses in a memory.  Whether
    an allocation of a size succeeds is the parameter [calloc_ok].  Left out: devices
    over image files of the host, tracing and profiling. *)

From S2P Require Import Prelude Bytes Memory BlockDevice.

Definition KB_FS_BUFFER_CACHE_MAX : nat := 512.
Definition KB_FS_BIO_READ_BATCH_MAX : nat := 128.
Definition KB_FS_BIO_WRITE_BATCH_MAX : nat := 128.
Definition KB_FS_BLOCK_WRITE_FUA : Z := 1.
Definition BLKDEV_ZERO_NOFALLBACK : Z := 2.
Definition ZERO_CHUNK_BYTES : Z := 65536.

(** ** Disks as devices *)

Record kb_fs_block_disk_ctx := mk_disk_ctx { dc_disk : Z; dc_start_sector : Z; dc_sector_count : Z }.

Section disk.
Context {D : Type} (calloc_ok : Z -> bool).
Implicit Types st : block_state D.

(** The sectors that cover a range that is not whole sectors: the first one on the disk
    and the size of the bounce buffer, or the error. *)
Definition bounce_range (ctx : kb_fs_block_disk_ctx) (offset size : Z) : Z + Z * Z :=
  let end_ := offset + size in
  if UINT64_MAX <? end_ then inl (-34)
  else
    let start_sector := offset / 512 in
    let end_sector := u64 (end_ + 511) / 512 in
    let sector_count := u64 (end_sector - start_sector) in
    let disk_sector := dc_start_sector ctx + start_sector in
    if UINT64_MAX <? disk_sector then inl (-34)
    else
      let bounce_size := sector_count * 512 in
      if UINT64_MAX <? bounce_size then inl (-34)
      else if negb (calloc_ok bounce_size) then inl (-12)
      else inr (disk_sector, bounce_size).

Definition whole_sectors (offset size : Z) : bool := (offset mod 512 =? 0) && (size mod 512 =? 0).

(** The bytes stored in the buffer come with the status. *)
Definition block_disk_read (ctx : kb_fs_block_disk_ctx) st (offset size : Z) : block_state D * Z * list Z :=
  if dc_disk ctx =? 0 then (st, -22, [])
  else if whole_sectors offset size then
    let sector := dc_start_sector ctx + offset / 512 in
    if UINT64_MAX <? sector then (st, -34, [])
    else kb_block_subsystem_disk_read st (dc_disk ctx) sector true size
  else
    match bounce_range ctx offset size with
    | inl error => (st, error, [])
    | inr (disk_sector, bounce_size) =>
        let '(st, status, bounce) := kb_block_subsystem_disk_read st (dc_disk ctx) disk_sector true bounce_size in
        (st, status, if status =? 0 then slice bounce (offset mod 512) size else [])
    end.

Definition block_disk_write (ctx : kb_fs_block_disk_ctx) st (offset : Z) (buffer : list Z) : block_state D * Z :=
  let size := blen buffer in
  if dc_disk ctx =? 0 then (st, -22)
  else if whole_sectors offset size then
    let sector := dc_start_sector ctx + offset / 512 in
    if UINT64_MAX <? sector then (st, -34)
    else kb_block_subsystem_disk_write st (dc_disk ctx) sector (Some buffer)
  else
    match bounce_range ctx offset size with
    | inl error => (st, error)
    | inr (disk_sector, bounce_size) =>
        let '(st, status, bounce) := kb_block_subsystem_disk_read st (dc_disk ctx) disk_sector true bounce_size in
        if status =? 0
        then kb_block_subsystem_disk_write st (dc_disk ctx) disk_sector (Some (splice bounce (offset mod 512) buffer))
        else (st, status)
    end.

(** The sector of one request of a batch. *)
Definition batch_sector (ctx : kb_fs_block_disk_ctx) (offset size : Z) : Z + Z :=
  if (size =? 0) || negb (offset mod 512 =? 0) || negb (size mod 512 =? 0) then inl (-22)
  else let sector := dc_start_sector ctx + offset / 512 in if UINT64_MAX <? sector then inl (-34) else inr sector.

Fixpoint read_batch_requests (ctx : kb_fs_block_disk_ctx) (requests : list (Z * Z)) : Z + list read_request :=
  match requests with
  | [] => inr []
  | (offset, size) :: requests =>
      match batch_sector ctx offset size with
      | inl e => inl e
      | inr sector =>
          match read_batch_requests ctx requests with
          | inl e => inl e
          | inr rs => inr (mk_read_request sector true size :: rs)
          end
      end
  end.
Fixpoint write_batch_requests (ctx : kb_fs_block_disk_ctx) (requests : list (Z * list Z)) : Z + list write_request :=
  match requests with
  | [] => inr []
  | (offset, data) :: requests =>
      match batch_sector ctx offset (blen data) with
      | inl e => inl e
      | inr sector =>
          match write_batch_requests ctx requests with
          | inl e => inl e
          | inr rs => inr (mk_write_request sector (Some data) :: rs)
          end
      end
  end.

Definition batch_count_bad (n max : nat) : bool := (n <? 2)%nat || (max <? n)%nat.

Definition block_disk_read_batch (ctx : kb_fs_block_disk_ctx) st (requests : list (Z * Z)) : block_state D * Z * list (list Z) :=
  if (dc_disk ctx =? 0) || batch_count_bad (length requests) KB_FS_BIO_READ_BATCH_MAX then (st, -22, [])
  else
    match read_batch_requests ctx requests with
    | inl e => (st, e, [])
    | inr batch => kb_block_subsystem_disk_read_batch st (dc_disk ctx) (Some batch)
    end.

Definition block_disk_write_batch (ctx : kb_fs_block_disk_ctx) st (requests : list (Z * list Z)) : block_state D * Z :=
  if (dc_disk ctx =? 0) || batch_count_bad (length requests) KB_FS_BIO_WRITE_BATCH_MAX then (st, -22)
  else
    match write_batch_requests ctx requests with
    | inl e => (st, e)
    | inr batch => kb_block_subsystem_disk_write_batch st (dc_disk ctx) (Some batch)
    end.

Definition block_disk_write_flags (ctx : kb_fs_block_disk_ctx) st (offset : Z) (buffer : list Z) (flags : Z) : block_state D * Z :=
  if (dc_disk ctx =? 0) || negb (Z.ldiff flags KB_FS_BLOCK_WRITE_FUA =? 0) || negb (offset mod 512 =? 0) ||
     negb (blen buffer mod 512 =? 0) then (st, -22)
  else
    let sector := dc_start_sector ctx + offset / 512 in
    if UINT64_MAX <? sector then (st, -34)
    else
      let block_flags := if negb (Z.land flags KB_FS_BLOCK_WRITE_FUA =? 0) then KB_BLOCK_DISK_WRITE_FUA else 0 in
      kb_block_subsystem_disk_write_flags st (dc_disk ctx) sector (Some buffer) block_flags.

Definition block_disk_flush (ctx : kb_fs_block_disk_ctx) st : block_state D * Z :=
  if dc_disk ctx =? 0 then (st, -22) else kb_block_subsystem_disk_flush st (dc_disk ctx).

(** *** Partitions *)

Definition read_le32_local (p : list Z) (o : Z) : outcome Z := read_u32le p o.
Definition read_le64_local (p : list Z) (o : Z) : outcome Z := read_u64le p o.

Definition efi_part : list Z := [69; 70; 73; 32; 80; 65; 82; 84].

(** The place of the entry of a partition that a GPT header gives: its sector and the
    offset in it. *)
Definition gpt_entry_place (header : list Z) (partition_index : Z) : outcome (Z + Z * Z) :=
  if negb (bool_decide (slice header 0 8 = efi_part)) then Done (inl (-22))
  else
    entry_lba ← read_le64_local header 72;
    entry_count ← read_le32_local header 80;
    entry_size ← read_le32_local header 84;
    if (entry_count <? partition_index) || (entry_size <? 48) || (512 <? entry_size) then Done (inl (-22))
    else
      let entry_offset := (partition_index - 1) * entry_size in
      Done (inr (u64 (entry_lba + entry_offset / 512), entry_offset mod 512)).

(** The range an entry describes: its first sector and their number. *)
Definition gpt_entry_range (storage : list Z) (within_sector : Z) : outcome (Z + Z * Z) :=
  unused ← for_from 16 0 (fun i (unused : bool) => b ← load8 storage (within_sector + i); Done (unused && (b =? 0))) true;
  if (unused : bool) then Done (inl (-2))
  else
    first_lba ← read_le64_local storage (within_sector + 32);
    last_lba ← read_le64_local storage (within_sector + 40);
    if last_lba <? first_lba then Done (inl (-22)) else Done (inr (first_lba, u64 (last_lba - first_lba + 1))).

Definition disk_gpt_partition_range st (disk partition_index : Z) : block_state D * outcome (Z + Z * Z) :=
  if (disk =? 0) || (partition_index =? 0) then (st, Done (inl (-22)))
  else
    let '(st, status, header) := kb_block_subsystem_disk_read st disk 1 true 512 in
    if negb (status =? 0) then (st, Done (inl status))
    else
      match gpt_entry_place header partition_index with
      | Done (inr (entry_sector, within_sector)) =>
          let '(st, status, storage) := kb_block_subsystem_disk_read st disk entry_sector true 1024 in
          if negb (status =? 0) then (st, Done (inl status)) else (st, gpt_entry_range storage within_sector)
      | r => (st, r)
      end.
End disk.

(** ** Devices *)

Record kb_fs_block_device (W C : Type) := mk_fs_device {
  fd_name : list Z;
  fd_size_bytes : Z;
  fd_logical_block_size : Z;
  fd_ctx : C;
  fd_read : option (C -> W -> Z -> Z -> W * Z * list Z);
  fd_read_batch : option (C -> W -> list (Z * Z) -> W * Z * list (list Z));
  fd_write : option (C -> W -> Z -> list Z -> W * Z);
  fd_write_batch : option (C -> W -> list (Z * list Z) -> W * Z);
  fd_write_flags : option (C -> W -> Z -> list Z -> Z -> W * Z);
  fd_flush : option (C -> W -> W * Z);
  fd_destroy : option (C -> W -> W);
}.
Arguments mk_fs_device {W C}. Arguments fd_name {W C}. Arguments fd_size_bytes {W C}. Arguments fd_logical_block_size {W C}.
Arguments fd_ctx {W C}. Arguments fd_read {W C}. Arguments fd_read_batch {W C}. Arguments fd_write {W C}.
Arguments fd_write_batch {W C}. Arguments fd_write_flags {W C}. Arguments fd_flush {W C}. Arguments fd_destroy {W C}.

Record kb_fs_buffer_cache_record := mk_cache_record {
  bc_active : bool;
  bc_bdev : Z;
  bc_block_number : Z;
  bc_block_size : Z;
  bc_buffer_head : Z;
  bc_folio : Z;
  bc_data : Z;
  bc_folio_order : Z;
  bc_dirty : bool;
}.
#[export] Instance cache_record_eta : Settable kb_fs_buffer_cache_record := fun r =>
  mk_cache_record (bc_active r) (bc_bdev r) (bc_block_number r) (bc_block_size r) (bc_buffer_head r) (bc_folio r) (bc_data r)
    (bc_folio_order r) (bc_dirty r).
Definition free_cache_record : kb_fs_buffer_cache_record := mk_cache_record false 0 0 0 0 0 0 0 false.

Record fs_block_state (W C : Type) := mk_fs_block_state {
  fb_world : W;
  fb_mem : mem;
  fb_devices : gmap Z (kb_fs_block_device W C);
  fb_binding_bdev : Z;                      (* active_bdev_binding *)
  fb_binding_device : Z;
  fb_probe_device : Z;                      (* mount_probe_block_device *)
  buffer_cache : list kb_fs_buffer_cache_record;
  buffer_cache_dirty_count : Z;
  buffer_cache_evict_cursor : Z;
}.
Arguments mk_fs_block_state {W C}. Arguments fb_world {W C}. Arguments fb_mem {W C}. Arguments fb_devices {W C}.
Arguments fb_binding_bdev {W C}. Arguments fb_binding_device {W C}. Arguments fb_probe_device {W C}.
Arguments buffer_cache {W C}. Arguments buffer_cache_dirty_count {W C}. Arguments buffer_cache_evict_cursor {W C}.
#[export] Instance fs_block_state_eta W C : Settable (fs_block_state W C) := fun r =>
  mk_fs_block_state (fb_world r) (fb_mem r) (fb_devices r) (fb_binding_bdev r) (fb_binding_device r) (fb_probe_device r)
    (buffer_cache r) (buffer_cache_dirty_count r) (buffer_cache_evict_cursor r).

Section devices.
Context {W C : Type}.
Implicit Types s : fs_block_state W C.

(** *** The cache of blocks *)

Definition set_cache_record (i : nat) (f : kb_fs_buffer_cache_record -> kb_fs_buffer_cache_record) s : fs_block_state W C :=
  s <| buffer_cache ::= alter f i |>.

Definition buffer_cache_set_dirty (i : nat) (dirty : bool) s : fs_block_state W C :=
  match buffer_cache s !! i with
  | None => s
  | Some record =>
      if negb (bc_active record) || Bool.eqb (bc_dirty record) dirty then s
      else
        let s := set_cache_record i (fun r => r <| bc_dirty := dirty |>) s in
        if dirty then s <| buffer_cache_dirty_count ::= fun n => u64 (n + 1) |>
        else if 0 <? buffer_cache_dirty_count s then s <| buffer_cache_dirty_count ::= fun n => n - 1 |> else s
  end.

Definition buffer_cache_record_for_head (buffer_head : Z) s : option nat :=
  if buffer_head =? 0 then None
  else first_index (fun r => bc_active r && (bc_buffer_head r =? buffer_head)) (buffer_cache s).

(** The range of bytes a block covers, unless it overflows. *)
Definition block_range (r : kb_fs_buffer_cache_record) : option (Z * Z) :=
  let start := bc_block_number r * bc_block_size r in
  if UINT64_MAX <? start then None
  else let end_ := start + bc_block_size r in if UINT64_MAX <? end_ then None else Some (start, end_).

(** The part of [offset, end_) that a block of the cache covers: where it starts in the
    block and in the range, and its size. *)
Definition cache_overlap (offset end_ : Z) (r : kb_fs_buffer_cache_record) : option (Z * Z * Z) :=
  match block_range r with
  | None => None
  | Some (block_start, block_end) =>
      if (end_ <=? block_start) || (block_end <=? offset) then None
      else
        let copy_start := Z.max offset block_start in
        let copy_end := Z.min end_ block_end in
        Some (copy_start - block_start, copy_start - offset, copy_end - copy_start)
  end.

Definition memcpy (m : mem) (dst src n : Z) : mem := mstore m dst (mload m src (Z.to_nat n)).

Definition overlay_record (offset end_ buffer : Z) (m : mem) (r : kb_fs_buffer_cache_record) : mem :=
  if negb (bc_active r) || negb (bc_dirty r) || (bc_data r =? 0) || (bc_block_size r =? 0) then m
  else
    match cache_overlap offset end_ r with
    | Some (in_block, in_range, n) => memcpy m (buffer + in_range) (bc_data r + in_block) n
    | None => m
    end.

Definition overlay_dirty_buffer_cache_on_read (offset buffer size : Z) s : fs_block_state W C :=
  if (buffer =? 0) || (size =? 0) || (buffer_cache_dirty_count s =? 0) then s
  else
    let read_end := offset + size in
    if UINT64_MAX <? read_end then s
    else s <| fb_mem ::= fun m => foldl (overlay_record offset read_end buffer) m (buffer_cache s) |>.

Definition update_record (offset end_ buffer : Z) (m : mem) (r : kb_fs_buffer_cache_record) : mem :=
  if negb (bc_active r) || (bc_data r =? 0) || (bc_block_size r =? 0) then m
  else
    match cache_overlap offset end_ r with
    | Some (in_block, in_range, n) => memcpy m (bc_data r + in_block) (buffer + in_range) n
    | None => m
    end.

Definition update_buffer_cache_from_write (offset buffer size : Z) s : fs_block_state W C :=
  if (buffer =? 0) || (size =? 0) then s
  else
    let write_end := offset + size in
    if UINT64_MAX <? write_end then s
    else s <| fb_mem ::= fun m => foldl (update_record offset write_end buffer) m (buffer_cache s) |>.

(** *** Reads and writes *)

Definition block_device_for_bdev (bdev : Z) s : Z :=
  if (fb_binding_bdev s =? bdev) && negb (fb_binding_device s =? 0) then fb_binding_device s else fb_probe_device s.

Definition block_device_range_valid (dev : kb_fs_block_device W C) (offset size : Z) : Z :=
  if size =? 0 then -22
  else
    let end_ := offset + size in
    if UINT64_MAX <? end_ then -34 else if fd_size_bytes dev <? end_ then -34 else 0.

(** A device is known by its address; an address that stands for none is like NULL. *)
Definition kb_fs_block_device_read (device offset buffer size : Z) s : fs_block_state W C * Z :=
  match fb_devices s !! device with
  | None => (s, -22)
  | Some dev =>
      match fd_read dev with
      | None => (s, -22)
      | Some read =>
          if buffer =? 0 then (s, -22)
          else
            let status := block_device_range_valid dev offset size in
            if negb (status =? 0) then (s, status)
            else
              let '(w, status, data) := read (fd_ctx dev) (fb_world s) offset size in
              let s := s <| fb_world := w |> <| fb_mem ::= fun m => mstore m buffer data |> in
              (if (status =? 0) && (device =? fb_binding_device s)
               then overlay_dirty_buffer_cache_on_read offset buffer size s else s, status)
      end
  end.

(** A request: offset, buffer, size. *)
Definition fs_request : Type := Z * Z * Z.
Definition rq_offset (r : fs_request) : Z := r.1.1.
Definition rq_buffer (r : fs_request) : Z := r.1.2.
Definition rq_size (r : fs_request) : Z := r.2.

Definition request_valid (dev : kb_fs_block_device W C) (r : fs_request) : bool :=
  negb (rq_buffer r =? 0) && (block_device_range_valid dev (rq_offset r) (rq_size r) =? 0).

(** The loop over the read callback.  A device always has one, since
    kb_fs_block_device_create refuses a description without it: the code calls it without
    asking, and the branch [None] stands for no device there is. *)
Fixpoint read_requests (dev : kb_fs_block_device W C) (requests : list fs_request) s : fs_block_state W C * Z :=
  match requests with
  | [] => (s, 0)
  | r :: requests =>
      match fd_read dev with
      | None => (s, -22)
      | Some read =>
          let '(w, status, data) := read (fd_ctx dev) (fb_world s) (rq_offset r) (rq_size r) in
          let s := s <| fb_world := w |> <| fb_mem ::= fun m => mstore m (rq_buffer r) data |> in
          if negb (status =? 0) then (s, status) else read_requests dev requests s
      end
  end.

(** What a batch stored, request by request. *)
Definition store_batch (requests : list fs_request) (datas : list (list Z)) (m : mem) : mem :=
  foldl (fun m '(r, data) => mstore m (rq_buffer r) data) m (zip requests datas).

Definition kb_fs_block_device_read_batch (device : Z) (requests : list fs_request) s : fs_block_state W C * Z :=
  match fb_devices s !! device, requests with
  | None, _ | _, [] => (s, -22)
  | Some dev, [r] => kb_fs_block_device_read device (rq_offset r) (rq_buffer r) (rq_size r) s
  | Some dev, _ =>
      if negb (forallb (request_valid dev) requests) then (s, -22)
      else
        let '(s, status) :=
          match fd_read_batch dev with
          | Some read_batch =>
              let '(w, status, datas) := read_batch (fd_ctx dev) (fb_world s) (map (fun r => (rq_offset r, rq_size r)) requests) in
              (s <| fb_world := w |> <| fb_mem ::= store_batch requests datas |>, status)
          | None => read_requests dev requests s
          end in
        (if (status =? 0) && (device =? fb_binding_device s)
         then foldl (fun s r => overlay_dirty_buffer_cache_on_read (rq_offset r) (rq_buffer r) (rq_size r) s) s requests
         else s, status)
  end.

Definition kb_fs_block_device_write (device offset buffer size : Z) s : fs_block_state W C * Z :=
  match fb_devices s !! device with
  | None => (s, -22)
  | Some dev =>
      if buffer =? 0 then (s, -22)
      else
        match fd_write dev with
        | None => (s, -95)
        | Some write =>
            let status := block_device_range_valid dev offset size in
            if negb (status =? 0) then (s, status)
            else
              let '(w, status) := write (fd_ctx dev) (fb_world s) offset (mload (fb_mem s) buffer (Z.to_nat size)) in
              let s := s <| fb_world := w |> in
              (if (status =? 0) && (device =? fb_binding_device s)
               then update_buffer_cache_from_write offset buffer size s else s, status)
        end
  end.

Definition request_data (m : mem) (r : fs_request) : Z * list Z := (rq_offset r, mload m (rq_buffer r) (Z.to_nat (rq_size r))).

Fixpoint write_requests (dev : kb_fs_block_device W C) (requests : list fs_request) s : fs_block_state W C * Z :=
  match requests with
  | [] => (s, 0)
  | r :: requests =>
      match fd_write dev with
      | None => (s, -95)
      | Some write =>
          let '(offset, data) := request_data (fb_mem s) r in
          let '(w, status) := write (fd_ctx dev) (fb_world s) offset data in
          let s := s <| fb_world := w |> in
          if negb (status =? 0) then (s, status) else write_requests dev requests s
      end
  end.

Definition kb_fs_block_device_write_batch (device : Z) (requests : list fs_request) s : fs_block_state W C * Z :=
  match fb_devices s !! device, requests with
  | None, _ | _, [] => (s, -22)
  | Some dev, [r] => kb_fs_block_device_write device (rq_offset r) (rq_buffer r) (rq_size r) s
  | Some dev, _ =>
      if negb (forallb (request_valid dev) requests) then (s, -22)
      else
        let '(s, status) :=
          match fd_write_batch dev with
          | Some write_batch =>
              let '(w, status) := write_batch (fd_ctx dev) (fb_world s) (map (request_data (fb_mem s)) requests) in
              (s <| fb_world := w |>, status)
          | None => write_requests dev requests s
          end in
        (if (status =? 0) && (device =? fb_binding_device s)
         then foldl (fun s r => update_buffer_cache_from_write (rq_offset r) (rq_buffer r) (rq_size r) s) s requests
         else s, status)
  end.

(** *** Requests by block device *)

Definition kb_fs_subsystem_issue_flush (bdev : Z) s : fs_block_state W C * Z :=
  match fb_devices s !! block_device_for_bdev bdev s with
  | None => (s, -19)
  | Some dev =>
      match fd_flush dev with
      | None => (s, 0)
      | Some flush => let '(w, status) := flush (fd_ctx dev) (fb_world s) in (s <| fb_world := w |>, status)
      end
  end.

(** The bytes of a range of sectors, or None if it is not inside the device. *)
Definition sector_range (dev : kb_fs_block_device W C) (sector sector_count : Z) : option (Z * Z) :=
  let offset := sector * 512 in
  let byte_count := sector_count * 512 in
  if (UINT64_MAX <? offset) || (UINT64_MAX <? byte_count) || (fd_size_bytes dev <? offset) ||
     (u64 (fd_size_bytes dev - offset) <? byte_count) then None
  else Some (offset, byte_count).

Definition kb_fs_subsystem_issue_discard (bdev sector sector_count : Z) s : Z :=
  match fb_devices s !! block_device_for_bdev bdev s with
  | None => -19
  | Some dev => match sector_range dev sector sector_count with None => -34 | Some _ => -95 end
  end.

Fixpoint zero_chunks (fuel : nat) (device zeros offset byte_count : Z) s : option (fs_block_state W C * Z) :=
  if byte_count =? 0 then Some (s, 0)
  else
    match fuel with
    | O => None
    | S fuel =>
        let chunk := if ZERO_CHUNK_BYTES <? byte_count then ZERO_CHUNK_BYTES else byte_count in
        let '(s, status) := kb_fs_block_device_write device offset zeros chunk s in
        if negb (status =? 0) then Some (s, status)
        else zero_chunks fuel device zeros (u64 (offset + chunk)) (u64 (byte_count - chunk)) s
    end.

(** [zeros] is what calloc returned: 64 KiB of zeros. *)
Definition kb_fs_subsystem_issue_zeroout (bdev sector sector_count flags zeros : Z) s : option (fs_block_state W C * Z) :=
  let device := block_device_for_bdev bdev s in
  match fb_devices s !! device with
  | None => Some (s, -19)
  | Some dev =>
      if negb (Z.land flags BLKDEV_ZERO_NOFALLBACK =? 0) then Some (s, -95)
      else
        match sector_range dev sector sector_count with
        | None => Some (s, -34)
        | Some (offset, byte_count) =>
            if byte_count =? 0 then Some (s, 0)
            else if zeros =? 0 then Some (s, -12)
            else
              let s := s <| fb_mem ::= fun m => mzero m zeros ZERO_CHUNK_BYTES |> in
              zero_chunks (S (Z.to_nat (byte_count / ZERO_CHUNK_BYTES))) device zeros offset byte_count s
        end
  end.

Definition kb_fs_block_device_destroy (device : Z) s : fs_block_state W C :=
  match fb_devices s !! device with
  | None => s
  | Some dev =>
      let s := if fb_probe_device s =? device then s <| fb_probe_device := 0 |> else s in
      let s := if fb_binding_device s =? device then s <| fb_binding_bdev := 0 |> <| fb_binding_device := 0 |> else s in
      let s := match fd_destroy dev with None => s | Some destroy => s <| fb_world ::= destroy (fd_ctx dev) |> end in
      s <| fb_devices ::= delete device |>
  end.

(** *** Creation *)

(** [device] and [name_ok]: what the allocations of the device and of its name return;
    the descriptor is a device with the fields it gives. *)
Definition kb_fs_block_device_create (desc : kb_fs_block_device W C) (device : Z) (name_ok : bool) s : fs_block_state W C * Z :=
  match fd_read desc with
  | None => (s, -22)
  | Some _ =>
      if (device =? 0) || negb name_ok then (s, -12)
      else
        let logical := if fd_logical_block_size desc =? 0 then 512 else fd_logical_block_size desc in
        (s <| fb_devices ::= <[device := mk_fs_device (fd_name desc) (fd_size_bytes desc) logical (fd_ctx desc) (fd_read desc)
            (fd_read_batch desc) (fd_write desc) (fd_write_batch desc) (fd_write_flags desc) (fd_flush desc) (fd_destroy desc)]> |>, 0)
  end.
End devices.

Section disk_devices.
Context {D : Type} (calloc_ok : Z -> bool).
Implicit Types s : fs_block_state (block_state D) kb_fs_block_disk_ctx.

Definition disk_device (name : list Z) (size_bytes logical_block_size : Z) (ctx : kb_fs_block_disk_ctx)
    : kb_fs_block_device (block_state D) kb_fs_block_disk_ctx :=
  mk_fs_device name size_bytes logical_block_size ctx (Some (block_disk_read calloc_ok)) (Some block_disk_read_batch)
    (Some (block_disk_write calloc_ok)) (Some block_disk_write_batch) (Some block_disk_write_flags) (Some block_disk_flush)
    (Some (fun _ w => w)).

(** [ctx_ok], [device], [name_ok]: the results of the allocations. *)
Definition kb_fs_block_device_create_from_disk_range (name : list Z) (disk start_sector sector_count : Z)
    (ctx_ok : bool) (device : Z) (name_ok : bool) s : fs_block_state (block_state D) kb_fs_block_disk_ctx * Z :=
  if disk =? 0 then (s, -22)
  else
    match kb_block_subsystem_disk_snapshot (fb_world s) disk true with
    | (Some snapshot, 0) =>
        if (sector_count =? 0) || (d_capacity_sectors snapshot <? start_sector) ||
           (u64 (d_capacity_sectors snapshot - start_sector) <? sector_count) then (s, -34)
        else
          let size_bytes := sector_count * 512 in
          if UINT64_MAX <? size_bytes then (s, -34)
          else
            let logical_block_size :=
              if d_queue snapshot =? 0 then 512
              else match kb_block_subsystem_queue_limits (fb_world s) (d_queue snapshot) true with
                   | (Some limits, 0) => if logical_block_size limits =? 0 then 512 else logical_block_size limits
                   | _ => 512
                   end in
            if negb ctx_ok then (s, -12)
            else kb_fs_block_device_create (disk_device name size_bytes logical_block_size
                   (mk_disk_ctx disk start_sector sector_count)) device name_ok s
    | (_, status) => (s, status)
    end.

Definition kb_fs_block_device_create_from_disk (name : list Z) (disk : Z) (ctx_ok : bool) (device : Z) (name_ok : bool) s
    : fs_block_state (block_state D) kb_fs_block_disk_ctx * Z :=
  match kb_block_subsystem_disk_snapshot (fb_world s) disk true with
  | (Some snapshot, 0) =>
      kb_fs_block_device_create_from_disk_range name disk 0 (d_capacity_sectors snapshot) ctx_ok device name_ok s
  | (_, status) => (s, status)
  end.

Definition kb_fs_block_device_create_from_disk_gpt_partition (name : list Z) (disk partition_index : Z) (ctx_ok : bool)
    (device : Z) (name_ok : bool) s : outcome (fs_block_state (block_state D) kb_fs_block_disk_ctx * Z) :=
  let '(w, r) := disk_gpt_partition_range (fb_world s) disk partition_index in
  let s := s <| fb_world := w |> in
  r ← r;
  match r with
  | inl status => Done (s, status)
  | inr (start_sector, sector_count) =>
      Done (kb_fs_block_device_create_from_disk_range name disk start_sector sector_count ctx_ok device name_ok s)
  end.
End disk_devices.
