(* ===== verification/FsBlockTheorems.v ===== *)
(** * Theorems about block devices and the buffer cache (FsBlock.v)

    A range of a disk is an array of bytes under reads and writes of any alignment, and
    nothing outside it changes; with the dirty blocks of the cache laid over it a device
    is still one array of bytes. *)

From S2P Require Import Prelude Bytes Memory BlockDevice BlockTheorems FsBlock.

(** ** Byte lists *)

Lemma lookup_map_seqZ (f : Z -> Z) n (i : nat) :
  map f (seqZ 0 n) !! i = if decide (Z.of_nat i < n) then Some (f (Z.of_nat i)) else None.
Proof.
  change (map f (seqZ 0 n)) with (f <$> seqZ 0 n). rewrite list_lookup_fmap. case_decide.
  - rewrite lookup_seqZ_lt by lia. cbn. by rewrite Z.add_0_l.
  - by rewrite lookup_seqZ_ge by lia.
Qed.

Lemma blen_map_seqZ (f : Z -> Z) n : 0 <= n -> blen (map f (seqZ 0 n)) = n.
Proof. intros. unfold blen. rewrite length_map, length_seqZ. lia. Qed.

Lemma nth_map_seqZ (f : Z -> Z) n i : 0 <= i < n -> nth (Z.to_nat i) (map f (seqZ 0 n)) 0 = f i.
Proof. intros H. rewrite nth_lookup, lookup_map_seqZ, decide_True by lia. cbn. f_equal. lia. Qed.

Lemma slice_map_seqZ (f : Z -> Z) m k n : 0 <= k -> 0 <= n -> k + n <= m ->
  slice (map f (seqZ 0 m)) k n = map (fun i => f (k + i)) (seqZ 0 n).
Proof.
  intros Hk Hn Hm. apply list_eq. intros i. rewrite lookup_slice, !lookup_map_seqZ by lia.
  case_decide; [|done]. rewrite decide_True by lia. do 2 f_equal. lia.
Qed.

(** ** A range of a disk *)

Section partition.
Context {D : Type} (io_ctx : Z) (rd : kb_block_disk_read_fn D) (wr : kb_block_disk_write_fn D) `{!ByteDisk io_ctx rd wr}.
Context (calloc_ok : Z -> bool) (pc : kb_fs_block_disk_ctx).
Implicit Types st : block_state D.

(** The disk takes sectors of 512 bytes and holds the range. *)
Definition partition_ok st : Prop :=
  exists s, disk_state_for st (dc_disk pc) = Some s /\ wired io_ctx rd wr s /\ block_sizes_ok st /\ bd_ok (io_world st) /\
    disk_logical_block_size st (Some s) = 512 /\ 0 <= dc_start_sector pc /\ 0 <= dc_sector_count pc /\
    dc_start_sector pc + dc_sector_count pc <= d_capacity_sectors s /\ d_capacity_sectors s * 512 <= UINT64_MAX.

(** The byte at an offset of the range, or of the disk around it. *)
Definition part_byte st (o : Z) : Z := bd_byte (io_world st) (dc_start_sector pc * 512 + o).

Lemma partition_disk st : partition_ok st -> dc_disk pc =? 0 = false.
Proof.
  intros (s & Hs & _). unfold disk_state_for in Hs. apply Z.eqb_neq. intros E. rewrite E in Hs. done.
Qed.

Lemma partition_request st s sector n :
  disk_logical_block_size st (Some s) = 512 -> dc_start_sector pc + dc_sector_count pc <= d_capacity_sectors s ->
  d_capacity_sectors s * 512 <= UINT64_MAX -> 0 < n -> n mod 512 = 0 ->
  sector * 512 + n <= (dc_start_sector pc + dc_sector_count pc) * 512 -> request_in_range st s sector n.
Proof.
  intros Hl Hc Hm Hn Hd Hr. unfold request_in_range. rewrite Hl. split_and!; [lia|lia|lia| |].
  - exists sector. lia.
  - by apply Z.mod_divide.
Qed.

Lemma sectors_read st sector n :
  partition_ok st -> 0 <= sector -> 0 < n -> n mod 512 = 0 ->
  sector * 512 + n <= (dc_start_sector pc + dc_sector_count pc) * 512 ->
  exists st', kb_block_subsystem_disk_read st (dc_disk pc) sector true n =
    (st', 0, map (fun i => bd_byte (io_world st) (sector * 512 + i)) (seqZ 0 n)) /\
    partition_ok st' /\ forall o, bd_byte (io_world st') o = bd_byte (io_world st) o.
Proof.
  intros (s & Hs & Hw & Hq & Hok & Hl & H0 & H1 & Hc & Hm) Hsec Hn Hd Hr.
  pose proof (partition_request st s sector n Hl Hc Hm Hn Hd Hr) as Hin. pose proof Hw as (Hlive & Hro & Hctx & Hrd & Hwr & Hf).
  rewrite (disk_read_accepted st (dc_disk pc) s sector n rd); [|done|done|done|lia|done|done|done]. rewrite Hctx.
  destruct (bd_read (io_world st) sector n) as (w' & -> & Hok' & Hb); [done|done|done|lia|]. cbn [fst snd Z.eqb].
  eexists. split; [reflexivity|]. rewrite io_world_with. split; [|done]. exists (count_read n s). rewrite io_world_with. split_and!; try done.
  - rewrite disk_state_for_with by done. exact (f_equal (fmap (count_read n)) Hs).
  - unfold block_sizes_ok. by rewrite with_disk_queues.
  - rewrite <- Hl. unfold disk_logical_block_size, queue_state_for. by rewrite with_disk_queues.
Qed.

Lemma sectors_write st st' sector data :
  partition_ok st -> 0 <= sector -> 0 < blen data -> blen data mod 512 = 0 ->
  sector * 512 + blen data <= (dc_start_sector pc + dc_sector_count pc) * 512 ->
  kb_block_subsystem_disk_write st (dc_disk pc) sector (Some data) = (st', 0) ->
  partition_ok st' /\ forall o, 0 <= o -> bd_byte (io_world st') o =
    if decide (sector * 512 <= o < sector * 512 + blen data) then nth (Z.to_nat (o - sector * 512)) data 0 else bd_byte (io_world st) o.
Proof.
  intros (s & Hs & Hw & Hq & Hok & Hl & H0 & H1 & Hc & Hm) Hsec Hn Hd Hr Hwrite.
  pose proof (partition_request st s sector (blen data) Hl Hc Hm Hn Hd Hr) as Hin. pose proof Hw as (Hlive & Hro & Hctx & Hrd & Hwr & Hf).
  rewrite (disk_write_accepted st (dc_disk pc) s sector data wr) in Hwrite by done. rewrite Hctx in Hwrite.
  destruct (wr io_ctx (io_world st) sector data) as [w result] eqn:E. cbn [fst snd] in Hwrite. injection Hwrite as Hst ->.
  cbn in Hst. subst st'. destruct (bd_write (io_world st) sector data w) as [Hok' Hb]; [done|done|done|lia|done|].
  rewrite io_world_with. split; [|done]. exists (count_writes 1 (blen data) s). rewrite io_world_with. split_and!; try done.
  - rewrite disk_state_for_with by done. exact (f_equal (fmap (count_writes 1 (blen data))) Hs).
  - unfold block_sizes_ok. by rewrite with_disk_queues.
  - rewrite <- Hl. unfold disk_logical_block_size, queue_state_for. by rewrite with_disk_queues.
Qed.

(** The bounce buffer covers the request and stays inside the range. *)
Lemma bounce_range_covers st offset size :
  partition_ok st -> 0 <= offset -> 0 < size -> offset + size <= dc_sector_count pc * 512 ->
  (forall n, calloc_ok n = true) ->
  exists k n, bounce_range calloc_ok pc offset size = inr (dc_start_sector pc + k, n) /\
    0 <= k /\ k * 512 + offset mod 512 = offset /\ 0 < n /\ n mod 512 = 0 /\ offset mod 512 + size <= n /\
    (dc_start_sector pc + k) * 512 + n <= (dc_start_sector pc + dc_sector_count pc) * 512.
Proof.
  intros (s & _ & _ & _ & _ & _ & H0 & H1 & Hc & Hm) Ho Hs Hr Hal. unfold bounce_range.
  unfold UINT64_MAX in *.
  assert (u64 (offset + size + 511) = offset + size + 511) as -> by (apply u64_small; unfold is_u64; lia).
  assert (u64 ((offset + size + 511) / 512 - offset / 512) = (offset + size + 511) / 512 - offset / 512) as ->.
  { apply u64_small. unfold is_u64. Z.to_euclidean_division_equations. lia. }
  rewrite (proj2 (Z.ltb_ge _ _)) by lia. rewrite (proj2 (Z.ltb_ge _ _)) by (Z.to_euclidean_division_equations; lia).
  rewrite (proj2 (Z.ltb_ge _ _)) by (Z.to_euclidean_division_equations; lia). rewrite Hal. cbn [negb].
  eexists _, _. split; [reflexivity|]. rewrite Z.mod_mul by done.
  split_and!; try done; Z.to_euclidean_division_equations; lia.
Qed.

(** A read of any alignment inside the range returns its bytes. *)
Lemma partition_read st offset size :
  partition_ok st -> 0 <= offset -> 0 < size -> offset + size <= dc_sector_count pc * 512 -> (forall n, calloc_ok n = true) ->
  exists st', block_disk_read calloc_ok pc st offset size = (st', 0, map (fun i => part_byte st (offset + i)) (seqZ 0 size)) /\
    partition_ok st' /\ forall o, part_byte st' o = part_byte st o.
Proof.
  intros Hok Ho Hs Hr Hal. unfold block_disk_read. rewrite (partition_disk st Hok).
  pose proof Hok as (s & _ & _ & _ & _ & _ & H0 & H1 & Hc & Hm). unfold UINT64_MAX in *.
  destruct (whole_sectors offset size) eqn:Hw.
  - apply andb_true_iff in Hw as [Ho5%Z.eqb_eq Hs5%Z.eqb_eq]. rewrite (proj2 (Z.ltb_ge _ _)) by (Z.to_euclidean_division_equations; lia).
    destruct (sectors_read st (dc_start_sector pc + offset / 512) size) as (st' & -> & Hok' & Hb);
      [done|Z.to_euclidean_division_equations; lia|done|done|Z.to_euclidean_division_equations; lia|].
    exists st'. split; [|split; [done|by intros; apply Hb]]. f_equal. apply map_seqZ_ext. intros i Hi. unfold part_byte. f_equal.
    Z.to_euclidean_division_equations. lia.
  - destruct (bounce_range_covers st offset size Hok Ho Hs Hr Hal) as (k & n & -> & Hk & Hko & Hn & Hn5 & Hcov & Hin).
    destruct (sectors_read st (dc_start_sector pc + k) n) as (st' & -> & Hok' & Hb); [done|lia|done|done|lia|].
    cbn [Z.eqb]. exists st'. split; [|split; [done|intros; apply Hb]]. f_equal.
    rewrite slice_map_seqZ by (Z.to_euclidean_division_equations; lia). apply map_seqZ_ext. intros i Hi. unfold part_byte. f_equal. lia.
Qed.

(** A write of any alignment that succeeds changes exactly its bytes, of the whole disk. *)
Lemma partition_write st st' offset data :
  partition_ok st -> 0 <= offset -> 0 < blen data -> offset + blen data <= dc_sector_count pc * 512 ->
  (forall n, calloc_ok n = true) -> block_disk_write calloc_ok pc st offset data = (st', 0) ->
  partition_ok st' /\ forall o, - (dc_start_sector pc * 512) <= o -> part_byte st' o =
    if decide (offset <= o < offset + blen data) then nth (Z.to_nat (o - offset)) data 0 else part_byte st o.
Proof.
  intros Hok Ho Hs Hr Hal. unfold block_disk_write. rewrite (partition_disk st Hok).
  pose proof Hok as (s & _ & _ & _ & _ & _ & H0 & H1 & Hc & Hm). unfold UINT64_MAX in *.
  destruct (whole_sectors offset (blen data)) eqn:Hw.
  - apply andb_true_iff in Hw as [Ho5%Z.eqb_eq Hs5%Z.eqb_eq]. rewrite (proj2 (Z.ltb_ge _ _)) by (Z.to_euclidean_division_equations; lia).
    intros Hwr. apply sectors_write in Hwr as [Hok' Hb];
      [|done|Z.to_euclidean_division_equations; lia|done|done|Z.to_euclidean_division_equations; lia].
    split; [done|]. intros o Hlow. unfold part_byte. rewrite Hb by lia.
    replace ((dc_start_sector pc + offset / 512) * 512) with (dc_start_sector pc * 512 + offset) by (Z.to_euclidean_division_equations; lia).
    case_decide; case_decide; try lia. do 2 f_equal. lia.
  - destruct (bounce_range_covers st offset (blen data) Hok Ho Hs Hr Hal) as (k & n & -> & Hk & Hko & Hn & Hn5 & Hcov & Hin).
    destruct (sectors_read st (dc_start_sector pc + k) n) as (st1 & -> & Hok1 & Hb1); [done|lia|done|done|lia|]. cbn [Z.eqb].
    set (f := fun i => bd_byte (io_world st) ((dc_start_sector pc + k) * 512 + i)).
    assert (0 <= offset mod 512) as Hm0 by (Z.to_euclidean_division_equations; lia).
    pose proof (blen_map_seqZ f n ltac:(lia)) as Hbl.
    assert (blen (splice (map f (seqZ 0 n)) (offset mod 512) data) = n) as Hlen by (rewrite blen_splice; lia).
    intros Hwr. apply sectors_write in Hwr as [Hok' Hb]; [|done|lia|rewrite Hlen; lia|by rewrite Hlen|rewrite Hlen; lia]. rewrite Hlen in Hb.
    split; [done|]. intros o Hlow. unfold part_byte. rewrite Hb by lia. rewrite Hb1. case_decide as Hsec.
    + set (j := dc_start_sector pc * 512 + o - (dc_start_sector pc + k) * 512). case_decide as Hin'.
      * rewrite nth_splice_in by (unfold j in *; lia). f_equal. unfold j. lia.
      * rewrite nth_splice_other by (unfold j in *; lia). rewrite nth_map_seqZ by (unfold j; lia). unfold f, j. f_equal. lia.
    + rewrite decide_False by lia. done.
Qed.
End partition.

(** ** Devices that keep bytes

    What the callbacks of a device promise: bytes from [by_low] on, of which those from 0
    to its size can be read and written. *)

Class ByteDevice {W C : Type} (dev : kb_fs_block_device W C) := {
  by_ok : W -> Prop;
  by_byte : W -> Z -> Z;
  by_low : Z;
  by_reader : C -> W -> Z -> Z -> W * Z * list Z;
  by_writer : C -> W -> Z -> list Z -> W * Z;
  by_has_read : fd_read dev = Some by_reader;
  by_has_write : fd_write dev = Some by_writer;
  by_reads : forall w offset n, by_ok w -> 0 <= offset -> 0 < n -> offset + n <= fd_size_bytes dev ->
    exists w', by_reader (fd_ctx dev) w offset n = (w', 0, map (fun i => by_byte w (offset + i)) (seqZ 0 n)) /\
      by_ok w' /\ forall o, by_byte w' o = by_byte w o;
  by_writes : forall w offset data w', by_ok w -> 0 <= offset -> 0 < blen data -> offset + blen data <= fd_size_bytes dev ->
    by_writer (fd_ctx dev) w offset data = (w', 0) ->
    by_ok w' /\ forall o, by_low <= o -> by_byte w' o =
      if decide (offset <= o < offset + blen data) then nth (Z.to_nat (o - offset)) data 0 else by_byte w o;
}.

Lemma range_valid_0 {W C} (dev : kb_fs_block_device W C) offset size :
  0 <= offset -> 0 <= size -> block_device_range_valid dev offset size = 0 <->
  0 < size /\ offset + size <= UINT64_MAX /\ offset + size <= fd_size_bytes dev.
Proof.
  intros Ho Hs. unfold block_device_range_valid. destruct (Z.eqb_spec size 0); [split; [done|lia]|].
  destruct (Z.ltb_spec UINT64_MAX (offset + size)); [split; [done|lia]|].
  destruct (Z.ltb_spec (fd_size_bytes dev) (offset + size)); (split; [done || lia|lia]).
Qed.

(** A disk range is such a device, if bounce buffers can be allocated. *)
#[export] Instance disk_range_bytes {D} io_ctx rd wr `{!ByteDisk (D := D) io_ctx rd wr} calloc_ok name logical pc
    (Hal : forall n : Z, calloc_ok n = true) :
  ByteDevice (disk_device (D := D) calloc_ok name (dc_sector_count pc * 512) logical pc).
Proof.
  refine (@Build_ByteDevice _ _ (disk_device calloc_ok name (dc_sector_count pc * 512) logical pc)
    (partition_ok io_ctx rd wr pc) (part_byte io_ctx rd wr pc) (- (dc_start_sector pc * 512))
    (block_disk_read calloc_ok) (block_disk_write calloc_ok) eq_refl eq_refl _ _).
  - intros w offset n Hok Ho Hn Hr. by apply partition_read.
  - intros w offset data w' Hok Ho Hn Hr Hw. by eapply partition_write.
Defined.

(** A partition is an array of bytes: a read of any offset and size inside it, whole
    sectors or not, succeeds and returns its bytes; a write of any offset and size that
    succeeds changes exactly those bytes, although it may read and write back the
    sectors around them, and every other byte of the disk, before and after the
    partition, keeps its value. *)
Theorem partition_is_byte_array {D} io_ctx rd wr `{!ByteDisk (D := D) io_ctx rd wr} calloc_ok pc st offset :
  (forall n : Z, calloc_ok n = true) -> partition_ok io_ctx rd wr pc st -> 0 <= offset ->
  (forall n, 0 < n -> offset + n <= dc_sector_count pc * 512 ->
     exists st', block_disk_read calloc_ok pc st offset n = (st', 0, map (fun i => part_byte io_ctx rd wr pc st (offset + i)) (seqZ 0 n)) /\
       partition_ok io_ctx rd wr pc st' /\ forall o, part_byte io_ctx rd wr pc st' o = part_byte io_ctx rd wr pc st o) /\
  (forall data st', 0 < blen data -> offset + blen data <= dc_sector_count pc * 512 ->
     block_disk_write calloc_ok pc st offset data = (st', 0) ->
     partition_ok io_ctx rd wr pc st' /\ forall o, - (dc_start_sector pc * 512) <= o -> part_byte io_ctx rd wr pc st' o =
       if decide (offset <= o < offset + blen data) then nth (Z.to_nat (o - offset)) data 0 else part_byte io_ctx rd wr pc st o).
Proof.
  intros Hal Hok Ho. split; [intros n Hn Hr; by apply partition_read|]. intros data st' Hd Hr Hw. by eapply partition_write.
Qed.

(** ** The view through the cache *)

Lemma mem_byte_memcpy m dst src n b : 0 <= n ->
  mem_byte (memcpy m dst src n) b = if decide (dst <= b < dst + n) then mem_byte m (src + (b - dst)) else mem_byte m b.
Proof.
  intros Hn. unfold memcpy. rewrite mem_byte_mstore, blen_mload by done. case_decide; [|done]. by rewrite nth_mload by lia.
Qed.

(** A block whose bytes count, and the address of its byte for the device offset [o]. *)
Definition in_use (r : kb_fs_buffer_cache_record) : bool :=
  bc_active r && negb (bc_data r =? 0) && negb (bc_block_size r =? 0) && bool_decide (is_Some (block_range r)).
Definition block_start (r : kb_fs_buffer_cache_record) : Z := bc_block_number r * bc_block_size r.
Definition covers (r : kb_fs_buffer_cache_record) (o : Z) : bool := (block_start r <=? o) && (o <? block_start r + bc_block_size r).
Definition cached_at (r : kb_fs_buffer_cache_record) (o : Z) : Z := bc_data r + (o - block_start r).

(** The byte of the device as the cache shows it: that of the last dirty block over it. *)
Definition laid_over (m : mem) (cache : list kb_fs_buffer_cache_record) (o : Z) (b : Z) : Z :=
  foldl (fun b r => if in_use r && bc_dirty r && covers r o then mem_byte m (cached_at r o) else b) b cache.

Definition nonneg_block (r : kb_fs_buffer_cache_record) : Prop := 0 <= bc_block_number r /\ 0 <= bc_block_size r.

Lemma cache_overlap_spec offset end_ r : nonneg_block r -> offset <= end_ ->
  match cache_overlap offset end_ r with
  | Some (in_block, in_range, n) => is_Some (block_range r) /\ 0 <= n /\
      bc_data r + in_block - in_range = cached_at r offset /\ 0 <= in_range /\ in_range + n <= end_ - offset /\
      0 <= in_block /\ in_block + n <= bc_block_size r /\
      forall o, offset <= o < end_ -> covers r o = true <-> offset + in_range <= o < offset + in_range + n
  | None => in_use r = true -> forall o, offset <= o < end_ -> covers r o = false
  end.
Proof.
  intros [Hn Hs] Hoe. unfold cache_overlap, covers, cached_at, in_use. unfold block_range.
  fold (block_start r). destruct (Z.ltb_spec UINT64_MAX (block_start r)).
  { intros Hu. rewrite bool_decide_eq_false_2 in Hu by (by intros []). by rewrite !andb_false_r in Hu. }
  destruct (Z.ltb_spec UINT64_MAX (block_start r + bc_block_size r)).
  { intros Hu. rewrite bool_decide_eq_false_2 in Hu by (by intros []). by rewrite !andb_false_r in Hu. }
  destruct ((end_ <=? block_start r) || (block_start r + bc_block_size r <=? offset)) eqn:Ho.
  - intros _ o Hr. lia.
  - split; [done|]. split_and!; try lia; intros o Hr; lia.
Qed.

Lemma in_use_range r : in_use r = true -> is_Some (block_range r).
Proof. unfold in_use. rewrite !andb_true_iff. intros [_ H]. by apply bool_decide_eq_true in H. Qed.

Definition apart (a n b k : Z) : Prop := a + n <= b \/ b + k <= a.

Lemma laid_over_ext m m' cache o b :
  (forall r, r ∈ cache -> in_use r && bc_dirty r && covers r o = true -> mem_byte m' (cached_at r o) = mem_byte m (cached_at r o)) ->
  laid_over m' cache o b = laid_over m cache o b.
Proof.
  revert b. induction cache as [|r cache IH]; intros b H; [done|]. unfold laid_over. cbn [foldl].
  destruct (in_use r && bc_dirty r && covers r o) eqn:E; [rewrite H by (done || by left)|];
    apply IH; intros q Hq; apply H; by right.
Qed.

(** Reads: the bytes of dirty blocks are laid over the buffer, and nothing else changes. *)
Lemma overlay_bytes cache offset n buf m :
  Forall nonneg_block cache -> 0 <= n ->
  Forall (fun r => in_use r = true -> bc_dirty r = true -> apart (bc_data r) (bc_block_size r) buf n) cache ->
  let m' := foldl (overlay_record offset (offset + n) buf) m cache in
  (forall b, ~ (buf <= b < buf + n) -> mem_byte m' b = mem_byte m b) /\
  forall i, 0 <= i < n -> mem_byte m' (buf + i) = laid_over m cache (offset + i) (mem_byte m (buf + i)).
Proof.
  intros Hnn Hn. revert m. induction cache as [|r cache IH]; intros m Hap; [done|]. cbn [foldl].
  apply Forall_cons in Hnn as [Hr Hnn]. apply Forall_cons in Hap as [Har Hap].
  set (m1 := overlay_record offset (offset + n) buf m r).
  assert ((forall b, ~ (buf <= b < buf + n) -> mem_byte m1 b = mem_byte m b) /\
    forall i, 0 <= i < n -> mem_byte m1 (buf + i) =
      if in_use r && bc_dirty r && covers r (offset + i) then mem_byte m (cached_at r (offset + i)) else mem_byte m (buf + i)) as [Hout Hin].
  { pose proof (cache_overlap_spec offset (offset + n) r Hr ltac:(lia)) as Hov. unfold m1, overlay_record.
    assert (in_use r && bc_dirty r = true <->
      negb (bc_active r) || negb (bc_dirty r) || (bc_data r =? 0) || (bc_block_size r =? 0) = false /\ is_Some (block_range r)) as Hiu.
    { unfold in_use. rewrite !andb_true_iff, !negb_true_iff, bool_decide_eq_true, !orb_false_iff, !negb_false_iff. tauto. }
    destruct (negb (bc_active r) || _ || _ || _) eqn:Hskip.
    { split; [done|]. intros i Hi. destruct (in_use r && bc_dirty r); [|done]. by destruct (proj1 Hiu eq_refl). }
    destruct (cache_overlap offset (offset + n) r) as [[[ib ir] k]|].
    - destruct Hov as (Hbr & Hk & Hat & Hir & Hirk & _ & _ & Hcov). rewrite (proj2 Hiu) by done.
      split; [intros b Hb; rewrite mem_byte_memcpy by done; by rewrite decide_False by lia|].
      intros i Hi. rewrite mem_byte_memcpy by done. specialize (Hcov (offset + i) ltac:(lia)). cbn [andb].
      destruct (covers r (offset + i)); case_decide; try lia. f_equal. unfold cached_at in *. lia.
    - split; [done|]. intros i Hi. destruct (in_use r && bc_dirty r) eqn:E; [|done]. apply andb_true_iff in E as [E _].
      by rewrite (Hov E) by lia. }
  destruct (IH Hnn m1 Hap) as [IHout IHin]. split.
  - intros b Hb. rewrite IHout by done. by apply Hout.
  - intros i Hi. rewrite IHin, Hin by done. unfold laid_over at 2. cbn [foldl]. apply laid_over_ext.
    intros q Hq Hs. apply Hout. apply andb_true_iff in Hs as [[Hu Hd]%andb_true_iff Hc].
    pose proof (proj1 (Forall_forall _ _) Hap q Hq Hu Hd) as Ha. unfold apart, covers, cached_at in *. lia.
Qed.

(** Writes: all blocks that overlap are brought up to date. *)
Fixpoint pairwise_apart (l : list kb_fs_buffer_cache_record) : Prop :=
  match l with
  | [] => True
  | r :: l => Forall (fun q => in_use r = true -> in_use q = true -> apart (bc_data r) (bc_block_size r) (bc_data q) (bc_block_size q)) l /\
      pairwise_apart l
  end.

(** The buffer of a write is not in a block of the cache, or is the block itself. *)
Definition source_ok (offset n buf : Z) (r : kb_fs_buffer_cache_record) : Prop :=
  in_use r = true -> apart (bc_data r) (bc_block_size r) buf n \/ cached_at r offset = buf.

Lemma update_one offset n buf m r :
  nonneg_block r -> 0 <= n -> source_ok offset n buf r ->
  let m1 := update_record offset (offset + n) buf m r in
  (forall i, 0 <= i < n -> mem_byte m1 (buf + i) = mem_byte m (buf + i)) /\
  (in_use r = true -> forall o, covers r o = true -> mem_byte m1 (cached_at r o) =
     if decide (offset <= o < offset + n) then mem_byte m (buf + (o - offset)) else mem_byte m (cached_at r o)) /\
  (forall b, (in_use r = true -> ~ (bc_data r <= b < bc_data r + bc_block_size r)) -> mem_byte m1 b = mem_byte m b).
Proof.
  intros Hr Hn Hsrc. pose proof (cache_overlap_spec offset (offset + n) r Hr ltac:(lia)) as Hov. unfold update_record.
  assert (in_use r = true <-> negb (bc_active r) || (bc_data r =? 0) || (bc_block_size r =? 0) = false /\ is_Some (block_range r)) as Hiu.
  { unfold in_use. rewrite !andb_true_iff, !negb_true_iff, bool_decide_eq_true, !orb_false_iff, !negb_false_iff. tauto. }
  destruct (negb (bc_active r) || _ || _) eqn:Hskip.
  { split_and!; [done| |done]. intros Hu. by apply Hiu in Hu as [? _]. }
  destruct (cache_overlap offset (offset + n) r) as [[[ib ir] k]|].
  - destruct Hov as (Hbr & Hk & Hat & Hir & Hirk & Hib & Hibk & Hcov). assert (in_use r = true) as Hu by (by apply Hiu).
    specialize (Hsrc Hu). unfold cached_at, covers, apart in *. split_and!.
    + intros i Hi. rewrite mem_byte_memcpy by done. case_decide; [|done]. f_equal. lia.
    + intros _ o Ho. rewrite mem_byte_memcpy by done. specialize (Hcov o).
      case_decide as Hd; case_decide as Hd'; try lia. f_equal. lia.
    + intros b Hb. rewrite mem_byte_memcpy by done. rewrite decide_False; [done|]. specialize (Hb Hu). lia.
  - split_and!; [done| |done]. intros Hu o Ho. case_decide as Hd; [|done]. by rewrite (Hov Hu o Hd) in Ho.
Qed.

Lemma update_bytes cache offset n buf m :
  Forall nonneg_block cache -> 0 <= n -> pairwise_apart cache -> Forall (source_ok offset n buf) cache ->
  let m' := foldl (update_record offset (offset + n) buf) m cache in
  (forall i, 0 <= i < n -> mem_byte m' (buf + i) = mem_byte m (buf + i)) /\
  (forall r, r ∈ cache -> in_use r = true -> forall o, covers r o = true -> mem_byte m' (cached_at r o) =
     if decide (offset <= o < offset + n) then mem_byte m (buf + (o - offset)) else mem_byte m (cached_at r o)) /\
  (forall b, (forall r, r ∈ cache -> in_use r = true -> ~ (bc_data r <= b < bc_data r + bc_block_size r)) -> mem_byte m' b = mem_byte m b).
Proof.
  intros Hnn Hn. revert m. induction cache as [|r cache IH]; intros m Hap Hsrc.
  { split_and!; [done| |done]. by intros r ?%elem_of_nil. }
  cbn [foldl]. apply Forall_cons in Hnn as [Hr Hnn]. apply Forall_cons in Hsrc as [Hsr Hsrc]. destruct Hap as [Hra Hap].
  destruct (update_one offset n buf m r Hr Hn Hsr) as (Hb1 & Hr1 & Ho1). cbv zeta in *.
  set (m1 := update_record offset (offset + n) buf m r) in *. destruct (IH Hnn m1 Hap Hsrc) as (IHb & IHr & IHo). split_and!.
  - intros i Hi. rewrite IHb by done. by apply Hb1.
  - intros q [->|Hq]%elem_of_cons Hu o Ho.
    + rewrite IHo; [by apply Hr1|]. intros q Hq Hqu. pose proof (proj1 (Forall_forall _ _) Hra q Hq Hu Hqu) as Ha.
      unfold apart, covers, cached_at in *. lia.
    + rewrite (IHr q Hq Hu o Ho). case_decide; [apply Hb1; lia|]. apply Ho1. intros Hru.
      pose proof (proj1 (Forall_forall _ _) Hra q Hq Hru Hu) as Ha. unfold apart, covers, cached_at in *. lia.
  - intros b Hb. rewrite IHo; [apply Ho1; intros; apply Hb; [by left|done]|]. intros q Hq. apply Hb. by right.
Qed.

Section coherence.
Context {W C : Type} (dev : kb_fs_block_device W C) `{!ByteDevice dev}.
Implicit Types s : fs_block_state W C.

(** The byte of the device at [o] with the dirty blocks over it. *)
Definition device_view s (o : Z) : Z := laid_over (fb_mem s) (buffer_cache s) o (by_byte (fb_world s) o).

Record cache_sane s : Prop := {
  cs_blocks : Forall nonneg_block (buffer_cache s);
  cs_apart : pairwise_apart (buffer_cache s);
  cs_count : buffer_cache_dirty_count s = 0 -> Forall (fun r => bc_active r && bc_dirty r = false) (buffer_cache s);
}.

(** The buffer of a read is not part of a dirty block. *)
Definition target_ok s (buf n : Z) : Prop :=
  Forall (fun r => in_use r = true -> bc_dirty r = true -> apart (bc_data r) (bc_block_size r) buf n) (buffer_cache s).

Lemma laid_over_clean m cache o b : Forall (fun r => bc_active r && bc_dirty r = false) cache -> laid_over m cache o b = b.
Proof.
  revert b. induction cache as [|r cache IH]; intros b H; [done|]. apply Forall_cons in H as [Hr H]. unfold laid_over. cbn [foldl].
  etransitivity; [exact (IH _ H)|]. unfold in_use. destruct (bc_active r), (bc_dirty r); cbn in *; try done. by rewrite andb_false_r.
Qed.

Lemma device_read_view s device offset buf n :
  fb_devices s !! device = Some dev -> device = fb_binding_device s -> by_ok (fb_world s) -> cache_sane s ->
  0 <= offset -> 0 < n -> offset + n <= fd_size_bytes dev -> offset + n <= UINT64_MAX -> buf <> 0 -> target_ok s buf n ->
  exists s', kb_fs_block_device_read device offset buf n s = (s', 0) /\ by_ok (fb_world s') /\
    (forall i, 0 <= i < n -> mem_byte (fb_mem s') (buf + i) = device_view s (offset + i)) /\
    (forall b, ~ (buf <= b < buf + n) -> mem_byte (fb_mem s') b = mem_byte (fb_mem s) b) /\
    (forall o, device_view s' o = device_view s o) /\ buffer_cache s' = buffer_cache s.
Proof.
  intros Hdev Hb Hok Hs Ho Hn Hr Hmax Hbuf Htgt. unfold kb_fs_block_device_read. rewrite Hdev, by_has_read.
  rewrite (proj2 (Z.eqb_neq buf 0)) by done. rewrite (proj2 (range_valid_0 dev offset n Ho ltac:(lia))) by done. cbn [negb Z.eqb].
  destruct (by_reads (fb_world s) offset n) as (w' & -> & Hok' & Hbyte); [done|done|done|done|].
  set (data := map _ _). set (s1 := s <| fb_world := w' |> <| fb_mem ::= _ |>). cbn [andb].
  assert (device =? fb_binding_device s1 = true) as -> by (subst device; apply Z.eqb_refl).
  assert (forall b, mem_byte (mstore (fb_mem s) buf data) b =
    if decide (buf <= b < buf + n) then by_byte (fb_world s) (offset + (b - buf)) else mem_byte (fb_mem s) b) as Hst.
  { intros b. rewrite mem_byte_mstore. unfold data. rewrite blen_map_seqZ by lia. case_decide; [|done]. by rewrite nth_map_seqZ by lia. }
  assert (exists m', overlay_dirty_buffer_cache_on_read offset buf n s1 = s1 <| fb_mem := m' |> /\
    (forall b, ~ (buf <= b < buf + n) -> mem_byte m' b = mem_byte (fb_mem s) b) /\
    forall i, 0 <= i < n -> mem_byte m' (buf + i) = device_view s (offset + i)) as (m' & -> & Hout & Hin).
  { unfold overlay_dirty_buffer_cache_on_read. rewrite (proj2 (Z.eqb_neq buf 0)), (proj2 (Z.eqb_neq n 0)) by lia. cbn [orb].
    change (buffer_cache_dirty_count s1) with (buffer_cache_dirty_count s). destruct (Z.eqb_spec (buffer_cache_dirty_count s) 0) as [E|].
    - exists (mstore (fb_mem s) buf data). split; [done|]. split; intros; rewrite Hst; [by rewrite decide_False by lia|].
      rewrite decide_True by lia. unfold device_view. rewrite laid_over_clean by (by apply Hs). f_equal. lia.
    - rewrite (proj2 (Z.ltb_ge _ _)) by lia. eexists. split; [reflexivity|].
      destruct (overlay_bytes (buffer_cache s) offset n buf (mstore (fb_mem s) buf data)) as [Hout Hin]; [apply Hs|lia|done|]. cbv zeta in *. split.
      + intros b Hbb. change (buffer_cache s1) with (buffer_cache s). rewrite Hout, Hst by done. by rewrite decide_False by lia.
      + intros i Hi. change (buffer_cache s1) with (buffer_cache s). rewrite Hin by done. rewrite Hst, decide_True by lia.
        unfold device_view. replace (offset + (buf + i - buf)) with (offset + i) by lia. apply laid_over_ext.
        intros q Hq Hsh. rewrite Hst, decide_False; [done|]. apply andb_true_iff in Hsh as [[Hu Hd]%andb_true_iff Hc].
        pose proof (proj1 (Forall_forall _ _) Htgt q Hq Hu Hd). unfold apart, covers, cached_at in *. lia. }
  eexists. split; [reflexivity|]. split_and!; try done.
  intros o. unfold device_view. cbn. rewrite Hbyte. apply laid_over_ext. intros q Hq Hsh. apply Hout.
  apply andb_true_iff in Hsh as [[Hu Hd]%andb_true_iff Hc]. pose proof (proj1 (Forall_forall _ _) Htgt q Hq Hu Hd).
  unfold apart, covers, cached_at in *. lia.
Qed.

(** What a successful write leaves: the view with the bytes of the buffer in it. *)
Lemma device_write_view s s' device offset buf n :
  fb_devices s !! device = Some dev -> device = fb_binding_device s -> by_ok (fb_world s) -> cache_sane s ->
  0 <= offset -> 0 <= n -> Forall (source_ok offset n buf) (buffer_cache s) ->
  kb_fs_block_device_write device offset buf n s = (s', 0) ->
  by_ok (fb_world s') /\
  (forall o, by_low (dev := dev) <= o -> device_view s' o =
     if decide (offset <= o < offset + n) then mem_byte (fb_mem s) (buf + (o - offset)) else device_view s o) /\
  (forall i, 0 <= i < n -> mem_byte (fb_mem s') (buf + i) = mem_byte (fb_mem s) (buf + i)) /\ buffer_cache s' = buffer_cache s.
Proof.
  intros Hdev Hb Hok Hs Ho Hn Hsrc. unfold kb_fs_block_device_write. rewrite Hdev, by_has_write.
  destruct (Z.eqb_spec buf 0) as [|Hbuf]; [by intros [= _ ?]|].
  destruct (Z.eqb_spec (block_device_range_valid dev offset n) 0) as [Hv|]; cbn [negb]; [|by intros [= _ ?]].
  apply range_valid_0 in Hv as (Hn0 & Hmax & Hr); [|done|done].
  set (data := mload _ _ _). destruct (by_writer (fd_ctx dev) (fb_world s) offset data) as [w status] eqn:Hw.
  destruct (Z.eqb_spec status 0) as [->|]; [|by intros [= _ ?]]. cbn [andb].
  set (s1 := s <| fb_world := w |>). assert (device =? fb_binding_device s1 = true) as -> by (subst device; apply Z.eqb_refl).
  assert (blen data = n) as Hlen by (by apply blen_mload).
  destruct (by_writes (fb_world s) offset data w) as [Hok' Hbyte]; [done|done|lia|lia|done|]. rewrite Hlen in Hbyte.
  unfold update_buffer_cache_from_write. rewrite (proj2 (Z.eqb_neq buf 0)), (proj2 (Z.eqb_neq n 0)), (proj2 (Z.ltb_ge _ _)) by lia. cbn [orb].
  intros [= <-]. destruct (update_bytes (buffer_cache s) offset n buf (fb_mem s)) as (Hsame & Hblk & _); [apply Hs|lia|apply Hs|done|].
  cbv zeta in *. split_and!; [done| |exact Hsame|done].
  intros o Hlow. unfold device_view. cbn [fb_mem fb_world buffer_cache]. change (fb_mem s1) with (fb_mem s).
  set (m' := foldl _ (fb_mem s) (buffer_cache s)) in *. rewrite Hbyte by done.
  assert (forall b b', (if decide (offset <= o < offset + n) then b' = mem_byte (fb_mem s) (buf + (o - offset)) else b' = b) ->
    forall l, (forall r, r ∈ l -> r ∈ buffer_cache s) ->
    laid_over m' l o b' = if decide (offset <= o < offset + n) then mem_byte (fb_mem s) (buf + (o - offset)) else laid_over (fb_mem s) l o b) as Hlay.
  { intros b b' Hbb l. revert b b' Hbb. induction l as [|r l IH]; intros b b' Hbb Hl; unfold laid_over; cbn [foldl]; [by case_decide|].
    apply IH; [|intros q Hq; apply Hl; by right].
    destruct (in_use r && bc_dirty r && covers r o) eqn:E; [|done]. apply andb_true_iff in E as [[Hu Hd]%andb_true_iff Hc].
    rewrite (Hblk r (Hl r ltac:(by left)) Hu o Hc). by case_decide. }
  apply Hlay; [|done]. case_decide; [|done]. unfold data. rewrite nth_mload by lia. done.
Qed.
End coherence.

(** C24: A device with its buffer cache is one array of bytes: a read inside it succeeds
    and returns, for every byte, what the dirty block over it holds, or else what is on
    the device; a write that succeeds changes in this view exactly its bytes, whatever
    blocks of the cache, dirty or clean, overlap it; requests that leave the device are
    refused and change nothing. *)
Theorem block_device_is_coherent {W C} (dev : kb_fs_block_device W C) `{!ByteDevice dev} s device offset buf n :
  fb_devices s !! device = Some dev -> device = fb_binding_device s -> by_ok (fb_world s) -> cache_sane s ->
  is_u64 offset -> is_u64 n -> buf <> 0 ->
  (0 < n /\ offset + n <= fd_size_bytes dev /\ offset + n <= UINT64_MAX ->
   (target_ok s buf n ->
    exists s', kb_fs_block_device_read device offset buf n s = (s', 0) /\ by_ok (fb_world s') /\
      (forall i, 0 <= i < n -> mem_byte (fb_mem s') (buf + i) = device_view dev s (offset + i)) /\
      (forall b, ~ (buf <= b < buf + n) -> mem_byte (fb_mem s') b = mem_byte (fb_mem s) b) /\
      (forall o, device_view dev s' o = device_view dev s o) /\ buffer_cache s' = buffer_cache s) /\
   (forall s', Forall (source_ok offset n buf) (buffer_cache s) -> kb_fs_block_device_write device offset buf n s = (s', 0) ->
      by_ok (fb_world s') /\
      (forall o, by_low (dev := dev) <= o -> device_view dev s' o =
         if decide (offset <= o < offset + n) then mem_byte (fb_mem s) (buf + (o - offset)) else device_view dev s o) /\
      (forall i, 0 <= i < n -> mem_byte (fb_mem s') (buf + i) = mem_byte (fb_mem s) (buf + i)) /\ buffer_cache s' = buffer_cache s)) /\
  (~ (0 < n /\ offset + n <= fd_size_bytes dev /\ offset + n <= UINT64_MAX) ->
   exists e, e < 0 /\ kb_fs_block_device_read device offset buf n s = (s, e) /\ kb_fs_block_device_write device offset buf n s = (s, e)).
Proof.
  intros Hdev Hb Hok Hs Ho Hn Hbuf. unfold is_u64 in *. split.
  - intros (H1 & H2 & H3). split; [intros; apply device_read_view; done || lia|]. intros s' Hsrc Hw. eapply device_write_view; done || lia.
  - intros Hbad. exists (block_device_range_valid dev offset n).
    assert (block_device_range_valid dev offset n <> 0) as Hne.
    { intros E. apply Hbad. apply range_valid_0 in E; [tauto|lia|lia]. }
    split_and!.
    + unfold block_device_range_valid in *. destruct (n =? 0); [lia|]. destruct (_ <? _); [lia|]. destruct (_ <? _); [lia|]. done.
    + unfold kb_fs_block_device_read. rewrite Hdev, by_has_read, (proj2 (Z.eqb_neq buf 0)) by done. by rewrite (proj2 (Z.eqb_neq _ 0)).
    + unfold kb_fs_block_device_write. rewrite Hdev, by_has_write, (proj2 (Z.eqb_neq buf 0)) by done. by rewrite (proj2 (Z.eqb_neq _ 0)).
Qed.

(** ** Partition tables *)

(** Whatever the disk holds, finding a partition reads inside the header and the two
    sectors of its entry. *)
Theorem gpt_reads_stay_inside header storage partition_index :
  bytes_ok header -> bytes_ok storage -> blen header = 512 -> blen storage = 1024 -> 0 < partition_index ->
  safe (gpt_entry_place header partition_index) /\
  forall sector within, gpt_entry_place header partition_index = Done (inr (sector, within)) ->
    0 <= within < 512 /\ safe (gpt_entry_range storage within).
Proof.
  intros Hh Hs Hlh Hls Hp.
  assert (forall within, 0 <= within < 512 -> safe (gpt_entry_range storage within)) as Hrange.
  { intros within Hw. unfold gpt_entry_range. apply safe_bind.
    - destruct (for_from_inv (fun i (_ : bool) => True) (fun i (unused : bool) => b ← load8 storage (within + i); Done (unused && (b =? 0)))
        16 0 true) as (b & -> & _); [done| |done].
      intros i b Hi _. rewrite load8_in by lia. mred. by eexists.
    - intros [] _; [apply safe_done|]. unfold read_le64_local. safe_steps; apply read_u64le_safe; lia. }
  split.
  - unfold gpt_entry_place, read_le64_local, read_le32_local. safe_steps; (apply read_u64le_safe || apply read_u32le_safe); lia.
  - intros sector within. unfold gpt_entry_place. destruct (negb _); [done|].
    destruct (read_le64_local header 72); [|done|done]. mred. destruct (read_le32_local header 80); [|done|done]. mred.
    destruct (read_le32_local header 84); [|done|done]. mred. destruct (_ || _); [done|]. intros [= _ <-].
    assert (0 <= ((partition_index - 1) * a1) mod 512 < 512) as H by (apply Z.mod_pos_bound; lia). split; [done|by apply Hrange].
Qed.

(** ** Instances *)

(** A disk in memory. *)
Definition ram_read : kb_block_disk_read_fn mem := fun _ w sector n => (w, 0, mload w (sector * 512) (Z.to_nat n)).
Definition ram_write : kb_block_disk_write_fn mem := fun _ w sector data => (mstore w (sector * 512) data, 0).

Lemma mload_map m a n : 0 <= n -> mload m a (Z.to_nat n) = map (fun i => mem_byte m (a + i)) (seqZ 0 n).
Proof.
  intros Hn. apply list_eq. intros i. rewrite lookup_map_seqZ. case_decide as Hi.
  - destruct (lookup_lt_is_Some_2 (mload m a (Z.to_nat n)) i) as [x Hx]; [rewrite length_mload; lia|]. rewrite Hx. f_equal.
    rewrite <- (nth_mload m a n (Z.of_nat i)) by lia. rewrite Nat2Z.id, nth_lookup, Hx. done.
  - apply lookup_ge_None_2. rewrite length_mload. lia.
Qed.

#[export] Instance ram_disk : ByteDisk 0 ram_read ram_write.
Proof.
  refine (@Build_ByteDisk mem 0 ram_read ram_write (fun _ => True) mem_byte _ _).
  - intros w sector n _ Hs Hn _. exists w. unfold ram_read. rewrite mload_map by lia. done.
  - intros w sector data w' _ Hs Hd _ [= <-]. split; [done|]. intros o Ho. by rewrite mem_byte_mstore.
Defined.

Definition demo_disk : kb_block_disk_state mem :=
  mk_disk_state 77 0 0 0 0 8 0 true false 0 0 false 0 0 0 0 (Some ram_read) None (Some ram_write) None None None 0 0 0 0.
Definition demo_blocks : block_state mem := mk_block_state [] [] [demo_disk] 1 (mstore ∅ 1124 [5; 6; 7]).
Definition demo_part : kb_fs_block_disk_ctx := mk_disk_ctx 77 2 4.

Lemma demo_partition_ok : partition_ok 0 ram_read ram_write demo_part demo_blocks.
Proof. exists demo_disk. split_and!; try done. by intros q ?%elem_of_nil. Qed.

Lemma partition_is_byte_array_witness :
  exists st', block_disk_read (fun _ => true) demo_part demo_blocks 101 2 = (st', 0, [6; 7]).
Proof.
  destruct (partition_is_byte_array 0 ram_read ram_write (fun _ => true) demo_part demo_blocks 101
    (fun _ => eq_refl) demo_partition_ok ltac:(lia)) as [Hr _].
  destruct (Hr 2 ltac:(lia) ltac:(cbn; lia)) as (st' & H & _). exists st'. rewrite H. vm_compute. reflexivity.
Defined.

Definition demo_device : kb_fs_block_device (block_state mem) kb_fs_block_disk_ctx :=
  disk_device (fun _ => true) [] (dc_sector_count demo_part * 512) 512 demo_part.
Definition demo_cache : list kb_fs_buffer_cache_record :=
  [mk_cache_record true 9 0 1024 300 0 8192 0 true; mk_cache_record true 9 1 1024 301 0 16384 0 false].
Definition demo_fs : fs_block_state (block_state mem) kb_fs_block_disk_ctx :=
  mk_fs_block_state demo_blocks (mstore ∅ 8292 [50; 60; 70]) {[ 40 := demo_device ]} 9 40 40 demo_cache 1 0.

Lemma demo_cache_sane : cache_sane demo_fs.
Proof.
  constructor; [| |done].
  - repeat (apply Forall_cons; split; [by split|]). by apply Forall_nil.
  - split; [apply Forall_cons; split; [intros _ _; left; by vm_compute|by apply Forall_nil]|by split; [apply Forall_nil|]].
Qed.

Lemma block_device_is_coherent_witness :
  (exists s', kb_fs_block_device_read 40 100 90000 4 demo_fs = (s', 0) /\ mload (fb_mem s') 90000 4 = [50; 60; 70; 0]) /\
  exists e, e < 0 /\ kb_fs_block_device_read 40 2040 90000 9 demo_fs = (demo_fs, e).
Proof.
  pose (inst := disk_range_bytes 0 ram_read ram_write (fun _ => true) [] 512 demo_part (fun _ => eq_refl)).
  split.
  - destruct (@block_device_is_coherent _ _ demo_device inst demo_fs 40 100 90000 4 eq_refl eq_refl demo_partition_ok demo_cache_sane
      ltac:(unfold is_u64; lia) ltac:(unfold is_u64; lia) ltac:(lia)) as [H _].
    destruct (H ltac:(vm_compute; repeat split; discriminate)) as [Hr _].
    destruct Hr as (s' & Hr & _ & Hb & _); [repeat (apply Forall_cons; split; [intros _ _; left; by vm_compute|]); by apply Forall_nil|].
    exists s'. split; [exact Hr|]. cbn [mload]. repeat f_equal.
    + exact (Hb 0 ltac:(lia)).
    + exact (Hb 1 ltac:(lia)).
    + exact (Hb 2 ltac:(lia)).
    + exact (Hb 3 ltac:(lia)).
  - destruct (@block_device_is_coherent _ _ demo_device inst demo_fs 40 2040 90000 9 eq_refl eq_refl demo_partition_ok demo_cache_sane
      ltac:(unfold is_u64; lia) ltac:(unfold is_u64; lia) ltac:(lia)) as [_ H].
    destruct (H ltac:(cbn; lia)) as (e & He & Hr & _). exists e. split; [exact He|exact Hr].
Defined.

(** On a disk with larger logical blocks every request that needs a bounce buffer fails:
    the buffer is made of sectors of 512 bytes. *)
Lemma bounce_ignores_logical_blocks :
  let limits := default_limits <| logical_block_size := 4096 |> in
  let st := mk_block_state [] [mk_queue_state 55 0 limits 0 0] [demo_disk <| d_queue := 55 |>] 1 ∅ in
  (block_disk_read (fun _ => true) (mk_disk_ctx 77 0 8) st 100 8).1.2 = -22 /\
  (block_disk_read (fun _ => true) (mk_disk_ctx 77 0 8) st 0 4096).1.2 = 0.
Proof. vm_compute. split; reflexivity. Qed.
