(* ===== verification/FsBio.v ===== *)
(** * File-system subsystem: bios and buffer heads (src/src/linux_subsystem/fs/fs.c)

    Bios with their vectors, the queue they wait in while a plug is held, the drain that
    groups neighbouring reads or writes into batches, and the buffer heads of the block
    cache: reading, locking, dirtying and writing them back.

    Bios and buffer heads are known by address; one that is freed is no longer in its
    table, and using it then makes the result [Broken].  Completion functions of modules,
    the page arena, the allocator and the deferred work are parameters ([bio_env]).
    Loops that wait take [fuel] and are [Endless] without it.  Left out: tracing,
    profiling, the record of the mount probe, and the list of buffers a mapping
    associates. *)

From S2P Require Import Prelude Memory DeferredWork FsLocal FsBlock.

Definition KB_FS_BIO_OP_MASK : Z := 0xff.
Definition KB_FS_BIO_OP_READ : Z := 0.
Definition KB_FS_BIO_OP_WRITE : Z := 1.
Definition KB_FS_BIO_OP_FLUSH : Z := 2.
Definition KB_FS_BIO_REQ_FUA : Z := 0x20000.
Definition KB_FS_BIO_REQ_PREFLUSH : Z := 0x40000.
Definition KB_FS_BIO_MAX_VECS : Z := 256.
Definition KB_FS_PAGE_SIZE : Z := 4096.
Definition KB_FS_BH_UPTODATE : Z := 0x1.
Definition KB_FS_BH_DIRTY : Z := 0x2.
Definition KB_FS_BH_LOCK : Z := 0x4.
Definition KB_FS_BH_REQ : Z := 0x8.
Definition KB_FS_BH_MAPPED : Z := 0x10.
Definition KB_FS_BH_WRITE_EIO : Z := 0x400.
Definition KB_FS_FOLIO_MAPPING_OFFSET : Z := 0x18.
Definition KB_FS_ADDRESS_SPACE_HOST_OFFSET : Z := 0.
Definition KB_FS_INODE_SB_OFFSET : Z := 0x28.

Record kb_fs_linux_bio_vec := mk_bio_vec { bv_page : Z; bv_length : Z; bv_offset : Z }.

Record kb_fs_bio_record := mk_bio {
  bio_bdev : Z;
  bio_opf : Z;
  bio_status : Z;
  bio_sector : Z;
  bio_size : Z;
  bio_end_io : Z;
  bio_private : Z;
  bio_vectors : list kb_fs_linux_bio_vec;
  bio_max_vectors : Z;
  bio_buffer : Z;
  bio_len : Z;
  bio_page_offset : Z;
  bio_result : Z;
  bio_submitted : Z;
  bio_queued : bool;
  bio_completed : bool;
}.
#[export] Instance bio_eta : Settable kb_fs_bio_record := fun r =>
  mk_bio (bio_bdev r) (bio_opf r) (bio_status r) (bio_sector r) (bio_size r) (bio_end_io r) (bio_private r) (bio_vectors r)
    (bio_max_vectors r) (bio_buffer r) (bio_len r) (bio_page_offset r) (bio_result r) (bio_submitted r) (bio_queued r)
    (bio_completed r).

(** The fields of [struct buffer_head] that the code reads and writes at fixed offsets. *)
Record buffer_head := mk_buffer_head {
  bh_state : Z;
  bh_folio : Z;
  bh_blocknr : Z;
  bh_size : Z;
  bh_data : Z;
  bh_bdev : Z;
  bh_end_io : Z;
  bh_assoc_map : Z;
  bh_refcount : Z;
}.
#[export] Instance buffer_head_eta : Settable buffer_head := fun r =>
  mk_buffer_head (bh_state r) (bh_folio r) (bh_blocknr r) (bh_size r) (bh_data r) (bh_bdev r) (bh_end_io r) (bh_assoc_map r)
    (bh_refcount r).
Definition zero_buffer_head : buffer_head := mk_buffer_head 0 0 0 0 0 0 0 0 0.

Definition has_bit (state mask : Z) : bool := negb (Z.land state mask =? 0).
Definition clear_bits (state mask : Z) : Z := Z.ldiff state mask.

Section bios.
Context {W C : Type}.

Record bio_state := mk_bio_state {
  bs_block : fs_block_state W C;
  bs_heads : gmap Z buffer_head;
  bs_bios : gmap Z kb_fs_bio_record;
  bio_queue : list Z;                       (* bio_queue_head and the links after it *)
  bio_queue_depth : Z;
  bio_auto_drain : bool;
  bio_last_drain_status : Z;
  block_plug_depth : Z;
  mount_probe_bdev_mapping : Z;
  bs_log : list (Z * Z);                    (* bios completed, with their results *)
}.
#[local] Instance bio_state_eta : Settable bio_state := fun r =>
  mk_bio_state (bs_block r) (bs_heads r) (bs_bios r) (bio_queue r) (bio_queue_depth r) (bio_auto_drain r)
    (bio_last_drain_status r) (block_plug_depth r) (mount_probe_bdev_mapping r) (bs_log r).

(** [be_bio_end_io] and [be_bh_end_io] are functions of modules; the addresses of the
    functions of the file that are passed as pointers are given.  [be_payload] is the
    memory of a page of the arena (0 if it is none). *)
Record bio_env := mk_bio_env {
  be_bio_end_io : Z -> Z -> bio_state -> run bio_state;
  be_bh_end_io : Z -> Z -> bool -> bio_state -> run bio_state;
  be_buffer_head_bio_end_io : Z;
  be_end_buffer_read_sync : Z;
  be_end_buffer_write_sync : Z;
  be_payload : Z -> Z;
  be_run_deferred_work : bio_state -> run bio_state;
  be_new_bio : bio_state -> Z;              (* calloc of a bio *)
  be_new_block : Z -> bio_state -> Z * Z * Z; (* kzalloc of a head, the pages of a block, their payload *)
  be_free_block : kb_fs_buffer_cache_record -> bio_state -> bio_state;
  be_is_file_folio : Z -> bio_state -> bool;  (* the folio is in the page cache of a file *)
  be_dirty_folio : Z -> bio_state -> bio_state;
  be_blockdev_superblock : Z;
}.
Context (env : bio_env) (fuel : nat).
Implicit Types s : bio_state.

Definition with_bio (bio : Z) (f : kb_fs_bio_record -> kb_fs_bio_record) s : bio_state := s <| bs_bios ::= alter f bio |>.
Definition with_head (head : Z) (f : buffer_head -> buffer_head) s : bio_state := s <| bs_heads ::= alter f head |>.
Definition set_head_state (head state : Z) s : bio_state := with_head head (fun h => h <| bh_state := state |>) s.
Definition bio_record_from_handle (bio : Z) s : option kb_fs_bio_record := bs_bios s !! bio.
Definition head_at (head : Z) s : run buffer_head := match bs_heads s !! head with Some h => Returns h | None => Broken end.

(** ** Building bios *)

(** [bio] is what calloc returned. *)
Definition kb_fs_subsystem_bio_alloc_bioset (bdev nr_vecs opf bio : Z) s : bio_state * Z :=
  if KB_FS_BIO_MAX_VECS <? nr_vecs then (s, 0)
  else if bio =? 0 then (s, 0)
  else (s <| bs_bios ::= <[bio := mk_bio bdev opf 0 0 0 0 0 [] nr_vecs 0 0 0 (-115) 0 false false]> |>, bio).

Definition bio_add_vector (bio page buffer len page_offset : Z) s : bio_state * Z :=
  match bio_record_from_handle bio s with
  | None => (s, 0)
  | Some record =>
      let vector_count := Z.of_nat (length (bio_vectors record)) in
      if (page =? 0) || (buffer =? 0) || (len =? 0) || (UINT32_MAX <? len) || (UINT32_MAX <? page_offset) ||
         (bio_max_vectors record <=? vector_count) || (KB_FS_BIO_MAX_VECS <=? vector_count) ||
         (UINT32_MAX - u32 len <? bio_size record) then (s, 0)
      else
        (with_bio bio (fun r =>
           (if bio_buffer r =? 0 then r <| bio_buffer := buffer |> <| bio_page_offset := page_offset |> else r)
             <| bio_vectors := bio_vectors r ++ [mk_bio_vec page len page_offset] |>
             <| bio_size := u32 (bio_size r + len) |> <| bio_len := u64 (bio_len r + len) |>) s, s32 len)
  end.

(** The memory of a page; a page outside the arena is its own memory. *)
Definition page_memory (page : Z) : Z := let payload := be_payload env page in if payload =? 0 then page else payload.

Definition kb_fs_subsystem_bio_add_folio (bio folio len offset : Z) s : bio_state * bool :=
  if folio =? 0 then (s, false)
  else let '(s, r) := bio_add_vector bio folio (u64 (page_memory folio + offset)) len offset s in (s, negb (r =? 0)).
Definition kb_fs_subsystem_bio_add_page (bio page len offset : Z) s : bio_state * Z :=
  if page =? 0 then (s, 0) else bio_add_vector bio page (u64 (page_memory page + offset)) len offset s.

Definition kb_fs_subsystem_bio_set_sector (bio sector : Z) s : bio_state := with_bio bio (fun r => r <| bio_sector := sector |>) s.
Definition kb_fs_subsystem_bio_set_end_io (bio end_io : Z) s : bio_state := with_bio bio (fun r => r <| bio_end_io := end_io |>) s.

(** ** The queue *)

Definition bio_queue_push (bio : Z) s : bio_state :=
  match bio_record_from_handle bio s with
  | None => s
  | Some record =>
      if bio_queued record then s
      else
        with_bio bio (fun r => r <| bio_queued := true |> <| bio_completed := false |>) s
          <| bio_queue ::= fun q => q ++ [bio] |> <| bio_queue_depth ::= fun n => u64 (n + 1) |>
  end.

Definition shrink_depth s : bio_state := if 0 <? bio_queue_depth s then s <| bio_queue_depth ::= fun n => n - 1 |> else s.

Definition bio_queue_remove (bio : Z) s : bio_state :=
  match bio_record_from_handle bio s with
  | None => s
  | Some record =>
      if negb (bio_queued record) then s
      else
        let s := with_bio bio (fun r => r <| bio_queued := false |>) s in
        match list_find (fun b => b = bio) (bio_queue s) with
        | Some (i, _) => shrink_depth (s <| bio_queue ::= delete i |>)
        | None => s
        end
  end.

Definition bio_queue_pop s : bio_state * option Z :=
  match bio_queue s with
  | [] => (s, None)
  | bio :: queue => (shrink_depth (with_bio bio (fun r => r <| bio_queued := false |>) (s <| bio_queue := queue |>)), Some bio)
  end.

Definition kb_fs_subsystem_bio_put (bio : Z) s : bio_state :=
  match bio_record_from_handle bio s with
  | None => s
  | Some _ => bio_queue_remove bio s <| bs_bios ::= delete bio |>
  end.

Definition kb_fs_subsystem_bio_result (bio : Z) s : Z :=
  match bio_record_from_handle bio s with None => -22 | Some record => bio_result record end.

(** ** Completion of buffer heads *)

Definition drop_reference (h : buffer_head) : buffer_head :=
  if bh_refcount h =? 0 then h else h <| bh_refcount ::= fun n => n - 1 |>.

Definition kb_fs_subsystem_end_buffer_read_sync (head : Z) (uptodate : bool) s : run bio_state :=
  if head =? 0 then Returns s
  else
    h ← head_at head s;
    let state := bh_state h in
    let state := if uptodate then Z.lor state KB_FS_BH_UPTODATE else clear_bits state KB_FS_BH_UPTODATE in
    let state := clear_bits state (Z.lor KB_FS_BH_LOCK KB_FS_BH_REQ) in
    Returns (with_head head (fun h => drop_reference (h <| bh_state := state |>)) s).

Definition kb_fs_subsystem_end_buffer_write_sync (head : Z) (uptodate : bool) s : run bio_state :=
  if head =? 0 then Returns s
  else
    h ← head_at head s;
    let state := bh_state h in
    let state := if uptodate then clear_bits (Z.lor state KB_FS_BH_UPTODATE) (Z.lor KB_FS_BH_DIRTY KB_FS_BH_WRITE_EIO)
                 else Z.lor (clear_bits state KB_FS_BH_UPTODATE) KB_FS_BH_WRITE_EIO in
    let state := clear_bits state (Z.lor KB_FS_BH_LOCK KB_FS_BH_REQ) in
    let s := set_head_state head state s in
    let s := if uptodate
             then match buffer_cache_record_for_head head (bs_block s) with
                  | Some i => s <| bs_block ::= buffer_cache_set_dirty i false |>
                  | None => s
                  end
             else s in
    Returns (with_head head drop_reference s).

Definition buffer_head_complete (head : Z) (success : bool) s : run bio_state :=
  h ← head_at head s;
  let end_io := bh_end_io h in
  if end_io =? 0 then kb_fs_subsystem_end_buffer_read_sync head success s
  else if end_io =? be_end_buffer_read_sync env then kb_fs_subsystem_end_buffer_read_sync head success s
  else if end_io =? be_end_buffer_write_sync env then kb_fs_subsystem_end_buffer_write_sync head success s
  else be_bh_end_io env end_io head success s.

Definition buffer_head_bio_end_io (bio : Z) s : run bio_state :=
  match bio_record_from_handle bio s with
  | None => Returns s
  | Some record =>
      let success := (bio_result record =? 0) && (bio_status record =? 0) in
      s ← buffer_head_complete (bio_private record) success s;
      Returns (kb_fs_subsystem_bio_put bio s)
  end.

Definition bio_call_end_io (bio : Z) s : run bio_state :=
  match bio_record_from_handle bio s with
  | None => Broken
  | Some record =>
      if bio_completed record then Returns s
      else
        let s := with_bio bio (fun r => r <| bio_completed := true |>) s <| bs_log ::= fun l => l ++ [(bio, bio_result record)] |> in
        let end_io := bio_end_io record in
        if end_io =? 0 then Returns s
        else if end_io =? be_buffer_head_bio_end_io env then buffer_head_bio_end_io bio s
        else be_bio_end_io env end_io bio s
  end.

Definition kb_fs_subsystem_bio_endio (bio : Z) s : run bio_state :=
  match bio_record_from_handle bio s with None => Returns s | Some _ => bio_call_end_io bio s end.

(** ** Submission *)

Definition lift_block (r : fs_block_state W C * Z) s : bio_state * Z := (s <| bs_block := r.1 |>, r.2).

Definition device_of (bdev : Z) s : option (kb_fs_block_device W C) :=
  fb_devices (bs_block s) !! block_device_for_bdev bdev (bs_block s).

Definition bio_flush_device (dev : kb_fs_block_device W C) s : bio_state * Z :=
  match fd_flush dev with
  | None => (s, -95)
  | Some flush =>
      let '(w, status) := flush (fd_ctx dev) (fb_world (bs_block s)) in (s <| bs_block ::= fun b => b <| fb_world := w |> |>, status)
  end.

(** At most [limit] requests for the vectors from [offset] on: the requests, the offset
    after them and the vectors that are left, or an error. *)
Fixpoint collect_requests (limit : nat) (offset : Z) (vectors : list kb_fs_linux_bio_vec)
    : Z + list fs_request * Z * list kb_fs_linux_bio_vec :=
  match limit, vectors with
  | O, _ | _, [] => inr ([], offset, vectors)
  | S limit, v :: vectors =>
      let payload := page_memory (bv_page v) in
      if (payload =? 0) || (bv_length v =? 0) then inl (-22)
      else if UINT64_MAX <? offset + bv_length v then inl (-34)
      else
        match collect_requests limit (offset + bv_length v) vectors with
        | inl e => inl e
        | inr (requests, next, rest) => inr ((offset, u64 (payload + bv_offset v), bv_length v) :: requests, next, rest)
        end
  end.

(** The loop over batches; every round takes at least one vector, so [rounds] that are as
    many as the vectors are enough. *)
Fixpoint submit_batches (rounds limit : nat) (batch : list fs_request -> fs_block_state W C -> fs_block_state W C * Z)
    (offset : Z) (vectors : list kb_fs_linux_bio_vec) s : bio_state * Z :=
  match rounds, vectors with
  | _, [] | O, _ => (s, 0)
  | S rounds, _ =>
      match collect_requests limit offset vectors with
      | inl status => (s, status)
      | inr (requests, next, rest) =>
          let '(s, status) := lift_block (batch requests (bs_block s)) s in
          if negb (status =? 0) then (s, status) else submit_batches rounds limit batch next rest s
      end
  end.

(** The loop over single vectors: the status and whether FUA was done by the device. *)
Fixpoint submit_vectors (device op : Z) (native_fua : bool) (dev : kb_fs_block_device W C) (offset : Z)
    (vectors : list kb_fs_linux_bio_vec) s : bio_state * Z * bool :=
  match vectors with
  | [] => (s, 0, false)
  | v :: vectors =>
      let buffer := u64 (page_memory (bv_page v) + bv_offset v) in
      let '(s, status, fua) :=
        if op =? KB_FS_BIO_OP_READ then
          let '(s, status) := lift_block (kb_fs_block_device_read device offset buffer (bv_length v) (bs_block s)) s in (s, status, false)
        else if op =? KB_FS_BIO_OP_WRITE then
          match (if native_fua then fd_write_flags dev else None) with
          | Some write_flags =>
              let '(w, status) := write_flags (fd_ctx dev) (fb_world (bs_block s)) offset
                (mload (fb_mem (bs_block s)) buffer (Z.to_nat (bv_length v))) KB_FS_BLOCK_WRITE_FUA in
              (s <| bs_block ::= fun b => b <| fb_world := w |> |>, status, status =? 0)
          | None =>
              let '(s, status) := lift_block (kb_fs_block_device_write device offset buffer (bv_length v) (bs_block s)) s in
              (s, status, false)
          end
        else (s, -95, false) in
      if negb (status =? 0) then (s, status, fua)
      else if UINT64_MAX <? offset + bv_length v then (s, -34, fua)
      else let '(s, status, fua') := submit_vectors device op native_fua dev (offset + bv_length v) vectors s in (s, status, fua || fua')
  end.

Definition set_bio_status (bio status : Z) s : bio_state := with_bio bio (fun r => r <| bio_status := if status =? 0 then 0 else 1 |>) s.
Definition finish_status (bio : Z) (r : bio_state * Z) : bio_state * Z := (set_bio_status bio r.2 r.1, r.2).

Definition bio_submit_now (bio : Z) s : bio_state * Z :=
  match bio_record_from_handle bio s with
  | None => (s, -22)
  | Some record =>
      let device := block_device_for_bdev (bio_bdev record) (bs_block s) in
      match device_of (bio_bdev record) s with
      | None => (s, -19)
      | Some dev =>
          let op := Z.land (bio_opf record) KB_FS_BIO_OP_MASK in
          if op =? KB_FS_BIO_OP_FLUSH then finish_status bio (bio_flush_device dev s)
          else
            let needs_preflush := (op =? KB_FS_BIO_OP_WRITE) && has_bit (bio_opf record) KB_FS_BIO_REQ_PREFLUSH in
            let needs_fua := (op =? KB_FS_BIO_OP_WRITE) && has_bit (bio_opf record) KB_FS_BIO_REQ_FUA in
            let vectors := bio_vectors record in
            let vector_count := length vectors in
            let '(s, preflush) := if needs_preflush then bio_flush_device dev s else (s, 0) in
            if negb (preflush =? 0) then finish_status bio (s, preflush)
            else if needs_preflush && (vector_count =? 0)%nat && (bio_size record =? 0) then finish_status bio (s, 0)
            else if (vector_count =? 0)%nat || (bio_size record =? 0) then (s, -22)
            else
              let offset := bio_sector record * 512 in
              if UINT64_MAX <? offset then (s, -34)
              else if (op =? KB_FS_BIO_OP_READ) && (2 <=? vector_count)%nat then
                finish_status bio (submit_batches vector_count KB_FS_BIO_READ_BATCH_MAX (kb_fs_block_device_read_batch device) offset vectors s)
              else if (op =? KB_FS_BIO_OP_WRITE) && (2 <=? vector_count)%nat then
                let '(s, status) :=
                  submit_batches vector_count KB_FS_BIO_WRITE_BATCH_MAX (kb_fs_block_device_write_batch device) offset vectors s in
                finish_status bio (if (status =? 0) && needs_fua then bio_flush_device dev s else (s, status))
              else
                let '(s, status, fua_satisfied) :=
                  submit_vectors device op (needs_fua && (vector_count =? 1)%nat) dev offset vectors s in
                finish_status bio (if (status =? 0) && needs_fua && negb fua_satisfied then bio_flush_device dev s else (s, status))
      end
  end.

(** ** Draining *)

(** The requests of a plain write, if they fit: the device they go to and the requests. *)
Definition bio_append_write_requests (bio : Z) (capacity : nat) s : option (Z * list fs_request) :=
  record ← bio_record_from_handle bio s;
  let vectors := bio_vectors record in
  if negb (Z.land (bio_opf record) KB_FS_BIO_OP_MASK =? KB_FS_BIO_OP_WRITE) ||
     has_bit (bio_opf record) (Z.lor KB_FS_BIO_REQ_PREFLUSH KB_FS_BIO_REQ_FUA) ||
     (length vectors =? 0)%nat || (bio_size record =? 0) || (capacity <? length vectors)%nat then None
  else
    _ ← device_of (bio_bdev record) s;
    let offset := bio_sector record * 512 in
    if UINT64_MAX <? offset then None
    else
      match collect_requests (length vectors) offset vectors with
      | inl _ => None
      | inr (requests, _, _) =>
          if negb (foldr (fun r n => rq_size r + n) 0 requests =? bio_size record) then None
          else Some (block_device_for_bdev (bio_bdev record) (bs_block s), requests)
      end.

(** The request of a read of one vector. *)
Definition bio_prepare_read_request (bio : Z) s : option (Z * fs_request) :=
  record ← bio_record_from_handle bio s;
  match bio_vectors record with
  | [v] =>
      if negb (Z.land (bio_opf record) KB_FS_BIO_OP_MASK =? KB_FS_BIO_OP_READ) || (bio_size record =? 0) then None
      else
        _ ← device_of (bio_bdev record) s;
        let payload := page_memory (bv_page v) in
        let offset := bio_sector record * 512 in
        if (payload =? 0) || negb (bv_length v =? bio_size record) || (UINT64_MAX <? offset) then None
        else Some (block_device_for_bdev (bio_bdev record) (bs_block s), (offset, u64 (payload + bv_offset v), bv_length v))
  | _ => None
  end.

(** The reads at the head of the queue that go to one device: bios with their requests. *)
Fixpoint read_run (limit : nat) (device : Z) (queue : list Z) s : list (Z * fs_request) :=
  match limit, queue with
  | O, _ | _, [] => []
  | S limit, bio :: queue =>
      match bio_prepare_read_request bio s with
      | None => []
      | Some (d, request) => if negb (device =? 0) && negb (d =? device) then [] else (bio, request) :: read_run limit d queue s
      end
  end.

(** The writes, as long as their requests fit. *)
Fixpoint write_run (capacity : nat) (device : Z) (queue : list Z) s : list (Z * list fs_request) :=
  match queue with
  | [] => []
  | bio :: queue =>
      if (capacity =? 0)%nat then []
      else
        match bio_append_write_requests bio capacity s with
        | None => []
        | Some (d, requests) =>
            if negb (device =? 0) && negb (d =? device) then []
            else (bio, requests) :: write_run (capacity - length requests) d queue s
        end
  end.

Definition device_at_head s : Z :=
  match bio_queue s with
  | [] => 0
  | bio :: _ => match bio_record_from_handle bio s with Some r => block_device_for_bdev (bio_bdev r) (bs_block s) | None => 0 end
  end.

Definition bio_finish_record (bio status : Z) s : run bio_state :=
  match bio_record_from_handle bio s with
  | None => Broken
  | Some _ =>
      bio_call_end_io bio (with_bio bio (fun r => r <| bio_result := status |> <| bio_status := if status =? 0 then 0 else 1 |>) s)
  end.

Fixpoint finish_all (bios : list Z) (status : Z) s : run bio_state :=
  match bios with
  | [] => Returns s
  | bio :: bios => s ← bio_finish_record bio status s; finish_all bios status s
  end.

Definition note_status (status : Z) s : bio_state :=
  if negb (status =? 0) && (bio_last_drain_status s =? 0) then s <| bio_last_drain_status := status |> else s.

(** [bio_queue_pop] as often as there are bios. *)
Definition pop_all (bios : list Z) s : bio_state := foldl (fun s _ => (bio_queue_pop s).1) s bios.

(** One round of the drain: the number of bios it took. *)
Definition drain_round s : run (bio_state * nat) :=
  let reads := read_run KB_FS_BIO_READ_BATCH_MAX 0 (bio_queue s) s in
  let device := device_at_head s in
  if (2 <=? length reads)%nat then
    let s := pop_all (fst <$> reads) s in
    let '(s, status) := lift_block (kb_fs_block_device_read_batch device (snd <$> reads) (bs_block s)) s in
    s ← finish_all (fst <$> reads) status (note_status status s);
    Returns (s, length reads)
  else
    let writes := write_run KB_FS_BIO_WRITE_BATCH_MAX 0 (bio_queue s) s in
    let requests := concat (snd <$> writes) in
    if (2 <=? length requests)%nat then
      let s := pop_all (fst <$> writes) s in
      let '(s, status) := lift_block (kb_fs_block_device_write_batch device requests (bs_block s)) s in
      s ← finish_all (fst <$> writes) status (note_status status s);
      Returns (s, length writes)
    else
      match bio_queue_pop s with
      | (s, None) => Returns (s, 0%nat)
      | (s, Some bio) =>
          let '(s, status) := bio_submit_now bio s in
          s ← bio_finish_record bio status (note_status status s);
          Returns (s, 1%nat)
      end.

Fixpoint drain_rounds (rounds : nat) (drained : nat) s : run (bio_state * nat) :=
  match bio_queue s with
  | [] => Returns (s, drained)
  | _ =>
      match rounds with
      | O => Endless
      | S rounds => '(s, n) ← drain_round s; drain_rounds rounds (drained + n) s
      end
  end.
Definition kb_fs_subsystem_bio_drain s : run (bio_state * nat) := drain_rounds fuel 0 (s <| bio_last_drain_status := 0 |>).

Definition kb_fs_subsystem_submit_bio (bio : Z) s : run bio_state :=
  match bio_record_from_handle bio s with
  | None => Returns s
  | Some _ =>
      let s := with_bio bio (fun r => r <| bio_submitted ::= fun n => u32 (n + 1) |> <| bio_result := -115 |>) s in
      let s := bio_queue_push bio s in
      if bio_auto_drain s && (block_plug_depth s =? 0) then '(s, _) ← kb_fs_subsystem_bio_drain s; Returns s else Returns s
  end.

Definition kb_fs_subsystem_bio_set_auto_drain (enabled : bool) s : bio_state := s <| bio_auto_drain := enabled |>.

Definition kb_fs_subsystem_blk_start_plug s : bio_state :=
  if block_plug_depth s =? UINT32_MAX then s else s <| block_plug_depth ::= fun n => n + 1 |>.
Definition kb_fs_subsystem_blk_finish_plug s : run bio_state :=
  if block_plug_depth s =? 0 then Returns s
  else
    let s := s <| block_plug_depth ::= fun n => n - 1 |> in
    if block_plug_depth s =? 0 then '(s, _) ← kb_fs_subsystem_bio_drain s; Returns s else Returns s.

(** ** Buffer heads *)

(** The page and the offset in it of the data of a head, unless it leaves its folio. *)
Definition head_page (h : buffer_head) : option (Z * Z) :=
  if bh_folio h =? 0 then Some (bh_data h, 0)
  else
    let payload := be_payload env (bh_folio h) in
    if (payload =? 0) || (bh_data h <? payload) || (KB_FS_PAGE_SIZE <=? bh_data h - payload) ||
       (KB_FS_PAGE_SIZE - (bh_data h - payload) <? bh_size h) then None
    else Some (bh_folio h, bh_data h - payload).

Definition kb_fs_subsystem_submit_bh (opf head : Z) s : run bio_state :=
  if head =? 0 then Returns s
  else
    h ← head_at head s;
    let op := Z.land opf KB_FS_BIO_OP_MASK in
    let state := Z.lor (bh_state h) KB_FS_BH_REQ in
    let state := if op =? KB_FS_BIO_OP_WRITE then clear_bits state KB_FS_BH_WRITE_EIO else state in
    let s := set_head_state head state s in
    let offset := bh_blocknr h * bh_size h in
    if bool_decide (is_Some (device_of (bh_bdev h) s)) && negb (bh_data h =? 0) && negb (bh_size h =? 0) &&
       negb (UINT64_MAX <? offset) && ((op =? KB_FS_BIO_OP_READ) || (op =? KB_FS_BIO_OP_WRITE)) then
      let '(s, bio) := kb_fs_subsystem_bio_alloc_bioset (bh_bdev h) 1 opf (be_new_bio env s) s in
      match (if negb (bio =? 0) && (offset mod 512 =? 0) && (bh_size h <=? UINT32_MAX) then head_page h else None) with
      | Some (page, page_offset) =>
          let '(s, added) := kb_fs_subsystem_bio_add_page bio page (bh_size h) page_offset s in
          if added =? s32 (bh_size h) then
            let s := with_bio bio (fun r => r <| bio_sector := offset / 512 |> <| bio_private := head |>
                                               <| bio_end_io := be_buffer_head_bio_end_io env |>) s in
            kb_fs_subsystem_submit_bio bio s
          else buffer_head_complete head false (if bio =? 0 then s else kb_fs_subsystem_bio_put bio s)
      | None => buffer_head_complete head false (if bio =? 0 then s else kb_fs_subsystem_bio_put bio s)
      end
    else buffer_head_complete head false s.

(** Drains and runs deferred work until the head is not locked; the state of the head then. *)
Fixpoint wait_unlocked (rounds : nat) (head : Z) s : run (bio_state * Z) :=
  h ← head_at head s;
  if negb (has_bit (bh_state h) KB_FS_BH_LOCK) then Returns (s, bh_state h)
  else
    match rounds with
    | O => Endless
    | S rounds => '(s, _) ← kb_fs_subsystem_bio_drain s; s ← be_run_deferred_work env s; wait_unlocked rounds head s
    end.

Definition kb_fs_subsystem_lock_buffer (head : Z) s : run bio_state :=
  if head =? 0 then Returns s
  else '(s, state) ← wait_unlocked fuel head s; Returns (set_head_state head (Z.lor state KB_FS_BH_LOCK) s).

Definition kb_fs_subsystem_unlock_buffer (head : Z) s : run bio_state :=
  if head =? 0 then Returns s
  else h ← head_at head s; Returns (set_head_state head (clear_bits (bh_state h) KB_FS_BH_LOCK) s).

Definition kb_fs_subsystem_wait_on_buffer (head : Z) s : run bio_state :=
  if head =? 0 then Returns s else '(s, _) ← wait_unlocked fuel head s; Returns s.

Definition kb_fs_subsystem_bh_read (head op_flags : Z) (wait : bool) s : run (bio_state * Z) :=
  if head =? 0 then Returns (s, -22)
  else
    h ← head_at head s;
    if negb (has_bit (bh_state h) KB_FS_BH_LOCK) then Returns (s, -22)
    else if bh_refcount h =? UINT32_MAX then Returns (s, -75)
    else
      let s := with_head head (fun h => h <| bh_refcount ::= fun n => n + 1 |> <| bh_end_io := be_end_buffer_read_sync env |>) s in
      s ← kb_fs_subsystem_submit_bh (Z.lor KB_FS_BIO_OP_READ op_flags) head s;
      if negb wait then Returns (s, 0)
      else
        s ← kb_fs_subsystem_wait_on_buffer head s;
        h ← head_at head s;
        Returns (s, if has_bit (bh_state h) KB_FS_BH_UPTODATE then 0 else -5).

Definition read_unless_uptodate (op_flags : Z) (force_lock : bool) (head : Z) s : run bio_state :=
  if head =? 0 then Returns s
  else
    h ← head_at head s;
    if has_bit (bh_state h) KB_FS_BH_UPTODATE then Returns s
    else if negb force_lock && has_bit (bh_state h) KB_FS_BH_LOCK then Returns s
    else
      s ← (if force_lock then kb_fs_subsystem_lock_buffer head s
           else Returns (set_head_state head (Z.lor (bh_state h) KB_FS_BH_LOCK) s));
      h ← head_at head s;
      if has_bit (bh_state h) KB_FS_BH_UPTODATE then kb_fs_subsystem_unlock_buffer head s
      else '(s, _) ← kb_fs_subsystem_bh_read head op_flags false s; Returns s.
Fixpoint kb_fs_subsystem_bh_read_batch (heads : list Z) (op_flags : Z) (force_lock : bool) s : run bio_state :=
  match heads with
  | [] => Returns s
  | head :: heads => s ← read_unless_uptodate op_flags force_lock head s; kb_fs_subsystem_bh_read_batch heads op_flags force_lock s
  end.

(** Writing a locked dirty head: takes a reference and submits it. *)
Definition submit_dirty (head opf state : Z) s : run bio_state :=
  let s := set_head_state head (clear_bits state KB_FS_BH_DIRTY) s in
  let s := with_head head (fun h => h <| bh_refcount ::= fun n => n + 1 |> <| bh_end_io := be_end_buffer_write_sync env |>) s in
  kb_fs_subsystem_submit_bh opf head s.

Definition kb_fs_subsystem_write_dirty_buffer (head op_flags : Z) s : run bio_state :=
  if head =? 0 then Returns s
  else
    s ← kb_fs_subsystem_lock_buffer head s;
    h ← head_at head s;
    if negb (has_bit (bh_state h) KB_FS_BH_DIRTY) then kb_fs_subsystem_unlock_buffer head s
    else if bh_refcount h =? UINT32_MAX then kb_fs_subsystem_unlock_buffer head s
    else submit_dirty head (Z.lor KB_FS_BIO_OP_WRITE op_flags) (bh_state h) s.

Definition written (state : Z) : bool := Z.land state (Z.lor KB_FS_BH_WRITE_EIO KB_FS_BH_UPTODATE) =? KB_FS_BH_UPTODATE.

Definition kb_fs_subsystem_sync_dirty_buffer (head : Z) s : run (bio_state * Z) :=
  if head =? 0 then Returns (s, -22)
  else
    s ← kb_fs_subsystem_lock_buffer head s;
    h ← head_at head s;
    if negb (has_bit (bh_state h) KB_FS_BH_DIRTY) then s ← kb_fs_subsystem_unlock_buffer head s; Returns (s, 0)
    else if negb (has_bit (bh_state h) KB_FS_BH_MAPPED) then s ← kb_fs_subsystem_unlock_buffer head s; Returns (s, -5)
    else if bh_refcount h =? UINT32_MAX then s ← kb_fs_subsystem_unlock_buffer head s; Returns (s, -75)
    else
      s ← submit_dirty head KB_FS_BIO_OP_WRITE (bh_state h) s;
      s ← kb_fs_subsystem_wait_on_buffer head s;
      h ← head_at head s;
      Returns (s, if written (bh_state h) then 0 else -5).

(** *** Flushing the cache *)

(** The submission loop from slot [i] on: the heads that are under way and the error. *)
Fixpoint submit_dirty_blocks (count i : nat) (submitted : list Z) (first_error : Z) s : run (bio_state * list Z * Z) :=
  match count with
  | O => Returns (s, submitted, first_error)
  | S count =>
      match buffer_cache (bs_block s) !! i with
      | Some record =>
          if negb (bc_active record) || negb (bc_dirty record) then submit_dirty_blocks count (S i) submitted first_error s
          else
            let head := bc_buffer_head record in
            s ← kb_fs_subsystem_write_dirty_buffer head 0 s;
            h ← head_at head s;
            if has_bit (bh_state h) KB_FS_BH_LOCK then submit_dirty_blocks count (S i) (submitted ++ [head]) first_error s
            else
              let first_error := if has_bit (bh_state h) KB_FS_BH_DIRTY && (first_error =? 0) then -75 else first_error in
              submit_dirty_blocks count (S i) submitted first_error s
      | None => submit_dirty_blocks count (S i) submitted first_error s
      end
  end.

Fixpoint wait_submitted (heads : list Z) (first_error : Z) s : run (bio_state * Z) :=
  match heads with
  | [] => Returns (s, first_error)
  | head :: heads =>
      s ← kb_fs_subsystem_wait_on_buffer head s;
      h ← head_at head s;
      wait_submitted heads (if negb (written (bh_state h)) && (first_error =? 0) then -5 else first_error) s
  end.

Definition kb_fs_subsystem_flush_dirty_buffers s : run (bio_state * Z) :=
  let previous_auto_drain := bio_auto_drain s in
  '(s, submitted, first_error) ← submit_dirty_blocks KB_FS_BUFFER_CACHE_MAX 0 [] 0 (s <| bio_auto_drain := false |>);
  '(s, _) ← kb_fs_subsystem_bio_drain s;
  let first_error := if negb (bio_last_drain_status s =? 0) && (first_error =? 0) then bio_last_drain_status s else first_error in
  wait_submitted submitted first_error (s <| bio_auto_drain := previous_auto_drain |>).

Definition kb_fs_subsystem_sync_blockdev (bdev : Z) s : run (bio_state * Z) :=
  '(s, write_status) ← kb_fs_subsystem_flush_dirty_buffers s;
  let '(b, flush_status) := kb_fs_subsystem_issue_flush bdev (bs_block s) in
  Returns (s <| bs_block := b |>, if negb (write_status =? 0) then write_status else flush_status).

(** *** The cache *)

Definition kb_fs_subsystem_mark_buffer_dirty (head : Z) s : run bio_state :=
  if head =? 0 then Returns s
  else
    h ← head_at head s;
    let s := set_head_state head (Z.lor (bh_state h) KB_FS_BH_DIRTY) s in
    let folio := if low_or_err_pointer (bh_folio h) then 0 else bh_folio h in
    if be_is_file_folio env folio s then Returns (be_dirty_folio env folio s)
    else
      Returns (match buffer_cache_record_for_head head (bs_block s) with
               | Some i => s <| bs_block ::= buffer_cache_set_dirty i true |>
               | None => s
               end).

Definition kb_fs_subsystem_mark_buffer_dirty_inode (head mapping : Z) s : run bio_state :=
  if head =? 0 then Returns s
  else
    s ← kb_fs_subsystem_mark_buffer_dirty head s;
    Returns (if mapping =? 0 then s else with_head head (fun h => h <| bh_assoc_map := mapping |>) s).

(** A head outside the cache loses a reference; one in the cache stays, with none left at
    the least. *)
Definition kb_fs_subsystem_buffer_head_put (head : Z) s : run bio_state :=
  if head =? 0 then Returns s
  else
    _ ← head_at head s;
    match first_index (fun r => bc_active r && (bc_buffer_head r =? head)) (buffer_cache (bs_block s)) with
    | Some _ => Returns (with_head head (fun h => h <| bh_refcount ::= fun n => if 1 <? n then n - 1 else 0 |>) s)
    | None => Returns (with_head head drop_reference s)
    end.

Definition kb_fs_subsystem_bforget (head : Z) s : run bio_state :=
  if head =? 0 then Returns s
  else
    h ← head_at head s;
    let s := set_head_state head (clear_bits (bh_state h) KB_FS_BH_DIRTY) s in
    let s := match buffer_cache_record_for_head head (bs_block s) with
             | Some i => s <| bs_block ::= buffer_cache_set_dirty i false |>
             | None => s
             end in
    kb_fs_subsystem_buffer_head_put head s.

Definition kb_fs_subsystem_bh_uptodate_or_lock (head : Z) s : run (bio_state * bool) :=
  if head =? 0 then Returns (s, false)
  else
    h ← head_at head s;
    if has_bit (bh_state h) KB_FS_BH_UPTODATE then Returns (s, true)
    else
      s ← kb_fs_subsystem_lock_buffer head s;
      h ← head_at head s;
      if negb (has_bit (bh_state h) KB_FS_BH_UPTODATE) then Returns (s, false)
      else s ← kb_fs_subsystem_unlock_buffer head s; Returns (s, true).

Definition is_block (bdev block_number block_size : Z) (r : kb_fs_buffer_cache_record) : bool :=
  bc_active r && (bc_bdev r =? bdev) && (bc_block_number r =? block_number) && (bc_block_size r =? block_size).

(** The order of the pages for a block and whether they are enough. *)
Fixpoint folio_order_from (steps : nat) (order bytes block_size : Z) : Z * Z :=
  match steps with
  | O => (order, bytes)
  | S steps => if bytes <? block_size then folio_order_from steps (order + 1) (bytes * 2) block_size else (order, bytes)
  end.
Definition folio_order (block_size : Z) : Z * Z := folio_order_from 7 0 KB_FS_PAGE_SIZE block_size.

Definition evictable (s : bio_state) (r : kb_fs_buffer_cache_record) : bool :=
  negb (bc_dirty r) && negb (bc_buffer_head r =? 0) &&
  match bs_heads s !! bc_buffer_head r with Some h => bh_refcount h =? 0 | None => false end.

(** A free slot, or the next one from the cursor on whose block is clean and unused,
    which is then given up. *)
Definition claim_cache_slot s : bio_state * option nat :=
  let cache := buffer_cache (bs_block s) in
  match first_index (fun r => negb (bc_active r)) cache with
  | Some i => (s, Some i)
  | None =>
      let cursor := Z.to_nat (buffer_cache_evict_cursor (bs_block s)) in
      let order := map (fun distance => (cursor + distance) mod KB_FS_BUFFER_CACHE_MAX)%nat (seq 0 KB_FS_BUFFER_CACHE_MAX) in
      match list_find (fun i => default false (evictable s <$> cache !! i) = true) order with
      | Some (_, i) =>
          let record := default free_cache_record (cache !! i) in
          let s := be_free_block env record s in
          (s <| bs_heads ::= delete (bc_buffer_head record) |>
             <| bs_block ::= fun b => b <| buffer_cache ::= insert i free_cache_record |>
                  <| buffer_cache_evict_cursor := (Z.of_nat i + 1) mod Z.of_nat KB_FS_BUFFER_CACHE_MAX |> |>, Some i)
      | None => (s, None)
      end
  end.

Definition kb_fs_subsystem_bdev_getblk (bdev block_number block_size : Z) s : run (bio_state * Z) :=
  if (block_size =? 0) || (65536 <? block_size) then Returns (s, 0)
  else
    match device_of bdev s with
    | None => Returns (s, 0)
    | Some _ =>
        let hit := snd <$> list_find (fun r => is_block bdev block_number block_size r = true) (buffer_cache (bs_block s)) in
        match (r ← hit; if negb (bc_buffer_head r =? 0) && negb (bc_data r =? 0) then Some r else None) with
        | Some r =>
            _ ← head_at (bc_buffer_head r) s;
            Returns (with_head (bc_buffer_head r) (fun h => h <| bh_refcount ::= fun n => u32 (n + 1) |>) s, bc_buffer_head r)
        | None =>
            let '(s, slot) := claim_cache_slot s in
            let '(order, bytes) := folio_order block_size in
            if bytes <? block_size then Returns (s, 0)
            else
              let '(head, folio, data) := be_new_block env order s in
              if (head =? 0) || (folio =? 0) || (data =? 0) then Returns (s, 0)
              else
                let s := s <| bs_heads ::= <[head := mk_buffer_head KB_FS_BH_MAPPED folio block_number block_size data bdev 0 0 1]> |> in
                let s := s <| bs_block ::= fun b => b <| fb_mem ::= fun m =>
                                 mstore64 m (folio + KB_FS_FOLIO_MAPPING_OFFSET) (mount_probe_bdev_mapping s) |> |> in
                let record := mk_cache_record true bdev block_number block_size head folio data order false in
                Returns (match slot with
                         | Some i => s <| bs_block ::= fun b => b <| buffer_cache ::= insert i record |> |>
                         | None => s
                         end, head)
        end
    end.

Definition kb_fs_subsystem_bread_gfp (bdev block_number block_size : Z) s : run (bio_state * Z) :=
  '(s, head) ← kb_fs_subsystem_bdev_getblk bdev block_number block_size s;
  if head =? 0 then Returns (s, 0)
  else
    h ← head_at head s;
    if has_bit (bh_state h) KB_FS_BH_UPTODATE then Returns (s, head)
    else
      s ← kb_fs_subsystem_lock_buffer head s;
      h ← head_at head s;
      if has_bit (bh_state h) KB_FS_BH_UPTODATE then s ← kb_fs_subsystem_unlock_buffer head s; Returns (s, head)
      else
        '(s, status) ← kb_fs_subsystem_bh_read head 0 true s;
        if negb (status =? 0) then s ← kb_fs_subsystem_buffer_head_put head s; Returns (s, 0)
        else Returns (s, head).

(** A pointer field; pointers that cannot be valid are NULL. *)
Definition read_pointer_field (m : mem) (base offset : Z) : Z :=
  if low_or_err_pointer base then 0
  else let value := mload64 m (base + offset) in if low_or_err_pointer value then 0 else value.

Definition in_bdev_mapping (m : mem) (folio : Z) : bool :=
  let mapping := read_pointer_field m folio KB_FS_FOLIO_MAPPING_OFFSET in
  let host := read_pointer_field m mapping KB_FS_ADDRESS_SPACE_HOST_OFFSET in
  read_pointer_field m host KB_FS_INODE_SB_OFFSET =? be_blockdev_superblock env.

Definition kb_fs_subsystem_find_get_block (bdev block_number block_size : Z) s : run (bio_state * Z) :=
  if block_size =? 0 then Returns (s, 0)
  else
    match list_find (fun r => is_block bdev block_number block_size r && negb (bc_buffer_head r =? 0) &&
            match bs_heads s !! bc_buffer_head r with
            | Some h => in_bdev_mapping (fb_mem (bs_block s)) (if low_or_err_pointer (bh_folio h) then 0 else bh_folio h)
            | None => true
            end = true) (buffer_cache (bs_block s)) with
    | None => Returns (s, 0)
    | Some (_, r) =>
        h ← head_at (bc_buffer_head r) s;
        Returns (if bh_refcount h =? UINT32_MAX then s
                 else with_head (bc_buffer_head r) (fun h => h <| bh_refcount ::= fun n => n + 1 |>) s, bc_buffer_head r)
    end.

(** [head] is what kzalloc returned. *)
Definition kb_fs_subsystem_alloc_buffer_head (head : Z) s : bio_state * Z :=
  if head =? 0 then (s, 0) else (s <| bs_heads ::= <[head := zero_buffer_head <| bh_refcount := 1 |>]> |>, head).

Definition kb_fs_subsystem_free_buffer_head (head : Z) s : bio_state :=
  if head =? 0 then s
  else
    match first_index (fun r => bc_active r && (bc_buffer_head r =? head)) (buffer_cache (bs_block s)) with
    | Some _ => s
    | None => s <| bs_heads ::= delete head |>
    end.

(** [payload] is what the page arena gives for the offset of the folio. *)
Definition kb_fs_subsystem_folio_set_bh (head folio offset payload : Z) s : bio_state :=
  if (head =? 0) || (folio =? 0) || (KB_FS_PAGE_SIZE <=? offset) || (payload =? 0) then s
  else with_head head (fun h => h <| bh_folio := folio |> <| bh_data := payload |>) s.
End bios.
Arguments bio_state : clear implicits.
Arguments bio_env : clear implicits.
#[export] Instance bio_state_eta' W C : Settable (bio_state W C) := fun r =>
  mk_bio_state (bs_block r) (bs_heads r) (bs_bios r) (bio_queue r) (bio_queue_depth r) (bio_auto_drain r)
    (bio_last_drain_status r) (block_plug_depth r) (mount_probe_bdev_mapping r) (bs_log r).
