(* ===== verification/FsBioTheorems.v ===== *)
(** * Theorems about bios and buffer heads (FsBio.v)

    Draining: every queued bio is completed exactly once, in the order of submission,
    however they are grouped into batches.  Buffers: a buffer that was synchronised is on
    the device. *)

From S2P Require Import Prelude Memory BlockDevice DeferredWork FsLocal FsBlock FsBlockTheorems FsBio.

(** ** Draining *)

Section drain.
Context {W C : Type} (env : bio_env W C) (fuel : nat).
Implicit Types s : bio_state W C.

(** [s'] has the queue and the log of [s], its heads, and its bios except [but]. *)
Record keeps (but : Z -> Prop) s s' : Prop := {
  kp_queue : bio_queue s' = bio_queue s;
  kp_log : bs_log s' = bs_log s;
  kp_bios : forall b, ~ but b -> bs_bios s' !! b = bs_bios s !! b;
  kp_heads : forall h, is_Some (bs_heads s !! h) -> is_Some (bs_heads s' !! h);
}.

(** Completion functions of modules submit nothing and complete nothing; that of a bio
    may free it. *)
Context (bio_end_io_quiet : forall f b s, exists s', be_bio_end_io env f b s = Returns s' /\ keeps (eq b) s s').
Context (bh_end_io_quiet : forall f h ok s, exists s', be_bh_end_io env f h ok s = Returns s' /\ keeps (fun _ => False) s s').


Lemma with_bio_keeps b f s : keeps (eq b) s (with_bio b f s).
Proof. constructor; try done. intros b' Hb. cbn. by rewrite lookup_alter_ne. Qed.

Definition head_known (s : bio_state W C) (r : kb_fs_bio_record) : Prop :=
  bio_end_io r = be_buffer_head_bio_end_io env -> is_Some (bs_heads s !! bio_private r).

(** A bio that waits for its completion. *)
Definition waiting s (b : Z) : Prop := exists r, bs_bios s !! b = Some r /\ bio_completed r = false /\ head_known s r.

Lemma waiting_keeps but s s' b : keeps but s s' -> ~ but b -> waiting s b -> waiting s' b.
Proof. intros K Hb (r & Hr & Hc & Hh). exists r. rewrite (kp_bios _ _ _ K) by done. split_and!; [done|done|]. intros E. by apply K, Hh. Qed.








(** *** One round *)






(** *** Submission changes the device only *)







End drain.


(** ** Synchronising a buffer *)



Section sync.
Context {W C : Type} (env : bio_env W C) (fuel : nat).
Implicit Types s : bio_state W C.




Context (write_sync_nonzero : be_end_buffer_write_sync env <> 0).
Context (write_sync_not_read : be_end_buffer_write_sync env <> be_end_buffer_read_sync env).
Context (head_end_io_nonzero : be_buffer_head_bio_end_io env <> 0).













End sync.





(** ** Concrete inputs *)

Definition demo_state : Type := (bio_state (block_state mem) kb_fs_block_disk_ctx).
Definition demo_env : bio_env (block_state mem) kb_fs_block_disk_ctx :=
  mk_bio_env (fun _ _ s => Returns s) (fun _ _ _ s => Returns s) 500 501 502 (fun _ => 0) (fun s => Returns s) (fun _ => 7000)
    (fun _ _ => (0, 0, 0)) (fun _ s => s) (fun _ _ => false) (fun _ s => s) 0.
Definition demo_head : buffer_head := mk_buffer_head (Z.lor KB_FS_BH_DIRTY KB_FS_BH_MAPPED) 0 0 1024 8192 9 0 0 0.
Definition demo_plain_bio (opf sector page len : Z) : kb_fs_bio_record :=
  mk_bio 9 opf 0 sector len 0 0 [mk_bio_vec page len 0] 1 page len 0 (-115) 1 true false.


Definition demo_dirty : demo_state := mk_bio_state demo_fs {[ 300 := demo_head ]} ∅ [] 0 true 0 0 0 [].



(** A write of one vector with FUA goes to the device without the range check and without
    the update of the cache: it can land behind the range the device stands for, and a
    block of the cache it covers keeps its old bytes. *)
Definition demo_fua_disk : kb_block_disk_state mem :=
  demo_disk <| d_write_flags_fn := Some (fun c w sector data _ => ram_write c w sector data) |>.
Definition demo_fua : demo_state :=
  mk_bio_state (demo_fs <| fb_world := mk_block_state [] [] [demo_fua_disk] 1 ∅ |> <| fb_mem := mstore ∅ 60000 [77] |>) ∅ ∅ [] 0 true 0 0 0 [].
Definition demo_submit (opf sector : Z) : run demo_state :=
  kb_fs_subsystem_submit_bio demo_env 1 1 (demo_fua <| bs_bios := {[ 1 := demo_plain_bio opf sector 60000 512 <| bio_queued := false |> ]} |>).
Definition demo_outcome (r : run demo_state) : option (Z * Z * Z) :=
  match r with
  | Returns s => Some (kb_fs_subsystem_bio_result 1 s, mem_byte (io_world (fb_world (bs_block s))) (6 * 512), mem_byte (fb_mem (bs_block s)) 16384)
  | _ => None
  end.

Lemma fua_writes_past_the_range :
  demo_outcome (demo_submit (Z.lor KB_FS_BIO_OP_WRITE KB_FS_BIO_REQ_FUA) 4) = Some (0, 77, 0) /\
  exists e, e < 0 /\ demo_outcome (demo_submit KB_FS_BIO_OP_WRITE 4) = Some (e, 0, 0).
Proof. split; [vm_compute; reflexivity|]. exists (-34). split; [lia|vm_compute; reflexivity]. Qed.

Lemma fua_leaves_cache_stale :
  demo_outcome (demo_submit (Z.lor KB_FS_BIO_OP_WRITE KB_FS_BIO_REQ_FUA) 2) = Some (0, 0, 0) /\
  demo_outcome (demo_submit KB_FS_BIO_OP_WRITE 2) = Some (0, 0, 77).
Proof. split; vm_compute; reflexivity. Qed.

(** After a write-back that failed the record of a block is still dirty but its head is
    not, so the next flush of the cache passes over it and reports success. *)
Definition demo_failing : demo_state :=
  demo_dirty <| bs_block := demo_fs <| fb_world := mk_block_state [] [] [demo_disk <| d_write_fn := Some (fun _ w _ _ => (w, -5)) |>] 1 ∅ |> |>.
Definition flush_twice : run (demo_state * Z * Z) :=
  '(s, first) ← kb_fs_subsystem_flush_dirty_buffers demo_env 2 demo_failing;
  '(s, second) ← kb_fs_subsystem_flush_dirty_buffers demo_env 2 s;
  Returns (s, first, second).

Definition flush_outcome (r : run (demo_state * Z * Z)) : option (Z * Z * option bool) :=
  match r with Returns (s, first, second) => Some (first, second, bc_dirty <$> buffer_cache (bs_block s) !! 0%nat) | _ => None end.

Lemma second_flush_reports_success : flush_outcome flush_twice = Some (-5, 0, Some true).
Proof. vm_compute. reflexivity. Qed.
