(* ===== verification/Heap.v ===== *)
(** * The kernel heap (src/src/linux_personality/linux_memory.c)

    [kmalloc] and its relatives, object caches, memory pools and shrinkers.  Blocks come
    from the host, from chunks of an arena with a list of blocks given back, or, when
    they are large, from the page arena; they stand between two guard zones that are
    checked when they are freed.

    The records of blocks, chunks and free blocks are lists in the order of the code; the
    bytes in which the code keeps them, in front of each block, are not part of the memory
    here.  The free slots of a cache are a list too, with the links the code stores in
    them written to memory.  What the host allocators answer is an argument ([heap_allocs]), with 0 for
    failure.  The page arena is reached through [page_source]; [arena_source] is that of
    the program.  Constructors and the functions of pools and shrinkers are parameters;
    left out are the context switches around them, tracing and profiling. *)

From S2P Require Import Prelude Memory DmaMapping PageArena.
Local Open Scope string_scope.
Local Open Scope Z_scope.

Definition KB_LINUX___GFP_ZERO : Z := 0x100.
Definition KB_KMEM_CACHE_ARGS_CTOR_OFFSET : Z := 24.
Definition KB_KMALLOC_GUARD_SIZE : Z := 256.
Definition KB_KMALLOC_RECORD_ALIGN : Z := 16.
Definition KB_KMALLOC_MMAP_ALIGN : Z := 4096.
Definition KB_KMALLOC_ARENA_CHUNK_MIN : Z := 1024 * 1024.
Definition KB_SHRINKER_BYTES : Z := 256.
Definition KB_SHRINKER_COUNT_OBJECTS_OFFSET : Z := 0.
Definition KB_SHRINKER_SCAN_OBJECTS_OFFSET : Z := 8.
Definition KB_SHRINKER_SNAPSHOT_MAX : nat := 64.
Definition sizeof_heap_allocation : Z := 64.
Definition sizeof_heap_arena_chunk : Z := 24.
Definition sizeof_heap_arena_free_block : Z := 16.
Definition sizeof_kmem_cache : Z := 48.
Definition sizeof_pointer : Z := 8.

(** ** Whole pages (linux_stubs.c) *)

(** What the heap uses of the page arena: allocation and release of whole pages, and the
    memory they lie in. *)
Record page_source (P : Type) := mk_page_source {
  po_alloc : Z -> P -> P * Z;
  po_free : Z -> Z -> P -> P;
  po_mem : P -> mem;
  po_with_mem : (mem -> mem) -> P -> P;
}.
Arguments mk_page_source {P}. Arguments po_alloc {P}. Arguments po_free {P}. Arguments po_mem {P}. Arguments po_with_mem {P}.

(** The loop that doubles until the pages are enough; 2^52 pages are 53 steps. *)
Fixpoint order_from (steps : nat) (order order_pages page_count : Z) : Z :=
  match steps with
  | O => order
  | S steps => if order_pages <? page_count then order_from steps (order + 1) (u64 (order_pages * 2)) page_count else order
  end.

Section exact.
Context (get_ops : Z -> option kb_device_backend_ops) (regions : list Z) (al : arena_allocs) (backend : Z) (zalloc : bool).

Definition page_payload_from_struct_page (page : Z) (s : page_state) : page_state * Z :=
  if page =? 0 then (s, 0)
  else
    let '(s, vmemmap) := kb_linux_kvm_vmemmap_base al s in
    let '(s, page_offset) := kb_linux_kvm_page_offset_base al s in
    if (vmemmap =? 0) || (page_offset =? 0) || (page <? vmemmap) then (s, 0)
    else (s, u64 (page_offset + (page - vmemmap) / KB_KVM_STRUCT_PAGE_SIZE * KB_KVM_PAGE_SIZE)).

Definition kb_alloc_pages_exact (size : Z) (s : page_state) : page_state * Z :=
  let size := if size =? 0 then 1 else size in
  let page_count := u64 (size + KB_KVM_PAGE_SIZE - 1) / KB_KVM_PAGE_SIZE in
  let order := order_from 53 0 1 page_count in
  let '(s, page) := kb_kvm_alloc_pages_stub get_ops regions al backend zalloc order s in
  let '(s, payload) := page_payload_from_struct_page page s in
  if (page =? 0) || (payload =? 0) then (s, 0) else (s, payload).

Definition kb_free_pages_exact (virt size : Z) (s : page_state) : page_state := kb_kvm_free_pages_exact al virt size s.

Definition arena_source : page_source page_state :=
  mk_page_source kb_alloc_pages_exact kb_free_pages_exact pa_mem (fun f s => s <| pa_mem ::= f |>).
End exact.

(** ** The heap *)

Record kb_heap_allocation := mk_allocation {
  ha_ptr : Z;
  ha_raw : Z;
  ha_size : Z;
  ha_raw_size : Z;
  ha_guard_offset : Z;
  ha_mmap_backed : bool;
  ha_arena_backed : bool;
  ha_page_backed : bool;
}.

Record kb_heap_arena_chunk := mk_chunk { hc_addr : Z; hc_capacity : Z; hc_used : Z }.
#[export] Instance chunk_eta : Settable kb_heap_arena_chunk := fun c => mk_chunk (hc_addr c) (hc_capacity c) (hc_used c).

Record kb_kmem_cache := mk_cache {
  kc_size : Z;
  kc_align : Z;
  kc_slot_size : Z;
  kc_ctor : Z;
  kc_pages : list Z;
  kc_free_slots : list Z;
}.
#[export] Instance cache_eta : Settable kb_kmem_cache := fun c =>
  mk_cache (kc_size c) (kc_align c) (kc_slot_size c) (kc_ctor c) (kc_pages c) (kc_free_slots c).

Definition align_up_size (value align : Z) : Z := let mask := u64 (align - 1) in Z.ldiff (u64 (value + mask)) mask.

Definition mset (m : mem) (a n v : Z) : mem := mstore m a (replicate (Z.to_nat n) v).
Definition fill_guard (guard size value : Z) (m : mem) : mem := mset m guard size value.
Definition guard_matches (m : mem) (guard size value : Z) : bool := forallb (fun i => mem_byte m (guard + i) =? value) (seqZ 0 size).

Definition is_kernel_non_heap_pointer (ptr : Z) : bool := (ptr =? 0) || (ptr <? 4096) || (2 ^ 64 - 4095 <=? ptr).

(** The answers of the host to one call: the chunk and the block of mmap or malloc, the
    record of a page-backed block and of a page of a cache. *)
Record heap_allocs := mk_heap_allocs { hl_chunk : Z; hl_raw : Z; hl_record : bool }.

Section heap.
Context {P : Type} (pages : page_source P).

Record heap_state := mk_heap_state {
  heap_allocations : list kb_heap_allocation;
  heap_arena_chunks : list kb_heap_arena_chunk;
  heap_arena_free_blocks : list (Z * Z);    (* address and size *)
  hp_caches : gmap Z kb_kmem_cache;
  shrinker_records : list (Z * bool);       (* shrinker and whether it is registered *)
  hp_corrupted : list Z;                    (* blocks reported to have a broken guard *)
  hp_pages : P;
}.
#[local] Instance heap_eta : Settable heap_state := fun s =>
  mk_heap_state (heap_allocations s) (heap_arena_chunks s) (heap_arena_free_blocks s) (hp_caches s) (shrinker_records s)
    (hp_corrupted s) (hp_pages s).
Implicit Types s : heap_state.

Definition heap_init (p : P) : heap_state := mk_heap_state [] [] [] ∅ [] [] p.
Definition hp_mem s : mem := po_mem pages (hp_pages s).
Definition with_mem (f : mem -> mem) s : heap_state := s <| hp_pages ::= po_with_mem pages f |>.

(** *** Switches *)

Context (pachaos : bool) (getenv : string -> option string).

Definition kmalloc_mmap_enabled : bool :=
  if pachaos then false
  else match getenv "KOBOX_KMALLOC_MMAP" with
       | Some v => if (v =? "")%string then false else negb (v =? "0")%string
       | None => false
       end.

Definition kmalloc_arena_enabled : bool :=
  if pachaos then true
  else
    match (v ← getenv "KOBOX_KMALLOC_ARENA"; if (v =? "")%string then None else Some v) with
    | Some v => negb (v =? "0")%string
    | None =>
        match getenv "KOBOX_DEVICE_BACKEND" with
        | Some b => (b =? "pachaos")%string || (b =? "pachaos_capsule")%string
        | None => false
        end
    end.

(** *** Blocks from the arena or the host *)

Definition chunk_header : Z := align_up_size sizeof_heap_arena_chunk KB_KMALLOC_RECORD_ALIGN.
Definition chunk_fits (size : Z) (c : kb_heap_arena_chunk) : bool := size <=? u64 (hc_capacity c - hc_used c).

(** The address and the size that was taken. *)
Definition kernel_heap_arena_alloc (size chunk : Z) s : heap_state * Z * Z :=
  let aligned_size := align_up_size size KB_KMALLOC_RECORD_ALIGN in
  match list_find (fun c => chunk_fits aligned_size c = true) (heap_arena_chunks s) with
  | Some (i, c) =>
      (s <| heap_arena_chunks ::= alter (fun c => c <| hc_used ::= fun n => u64 (n + aligned_size) |>) i |>,
       u64 (hc_addr c + chunk_header + hc_used c), aligned_size)
  | None =>
      let capacity := if KB_KMALLOC_ARENA_CHUNK_MIN <? aligned_size then aligned_size else KB_KMALLOC_ARENA_CHUNK_MIN in
      if UINT64_MAX - chunk_header <? capacity then (s, 0, size)
      else if chunk =? 0 then (s, 0, size)
      else (s <| heap_arena_chunks ::= cons (mk_chunk chunk capacity aligned_size) |>, u64 (chunk + chunk_header), aligned_size)
  end.

(** The address, the size, and whether it is mmap or arena memory. *)
Definition kernel_heap_os_alloc (size : Z) (h : heap_allocs) s : heap_state * Z * Z * bool * bool :=
  if kmalloc_arena_enabled then
    match list_find (fun b => size <= b.2) (heap_arena_free_blocks s) with
    | Some (i, block) => (s <| heap_arena_free_blocks ::= delete i |>, block.1, block.2, false, true)
    | None => let '(s, ptr, allocated) := kernel_heap_arena_alloc size (hl_chunk h) s in (s, ptr, allocated, false, negb (ptr =? 0))
    end
  else if kmalloc_mmap_enabled then
    if hl_raw h =? 0 then (s, 0, size, false, false) else (s, hl_raw h, align_up_size size KB_KMALLOC_MMAP_ALIGN, true, false)
  else (s, hl_raw h, size, false, false).

Definition record_size : Z := align_up_size sizeof_heap_allocation KB_KMALLOC_RECORD_ALIGN.

(** The part kmalloc and kzalloc share: a block with its guards; [init] sets up the
    memory from the first guard on. *)
Definition guarded_block (actual_size : Z) (init : Z -> mem -> mem) (h : heap_allocs) s : heap_state * Z :=
  if (UINT64_MAX - 2 * KB_KMALLOC_GUARD_SIZE <? record_size) ||
     (UINT64_MAX - record_size - 2 * KB_KMALLOC_GUARD_SIZE <? actual_size) then (s, 0)
  else
    let raw_size := record_size + actual_size + 2 * KB_KMALLOC_GUARD_SIZE in
    let '(s, raw, allocated_size, mmap_backed, arena_backed) := kernel_heap_os_alloc raw_size h s in
    if raw =? 0 then (s, 0)
    else
      let guard := u64 (raw + record_size) in
      let ptr := u64 (guard + KB_KMALLOC_GUARD_SIZE) in
      (with_mem (init guard) s <| heap_allocations ::=
         cons (mk_allocation ptr raw actual_size allocated_size record_size mmap_backed arena_backed false) |>, ptr).

Definition after_block (guard actual_size : Z) : Z := u64 (guard + KB_KMALLOC_GUARD_SIZE + actual_size).

Definition kb_kmalloc (size flags : Z) (h : heap_allocs) s : heap_state * Z :=
  let actual_size := if size =? 0 then 1 else size in
  let zero := negb (Z.land flags KB_LINUX___GFP_ZERO =? 0) in
  let block s :=
    guarded_block actual_size (fun guard m =>
      let m := fill_guard guard KB_KMALLOC_GUARD_SIZE 0xa5 m in
      let m := fill_guard (after_block guard actual_size) KB_KMALLOC_GUARD_SIZE 0x5a m in
      if zero then mclear m (guard + KB_KMALLOC_GUARD_SIZE) actual_size else m) h s in
  if (KB_KMALLOC_MMAP_ALIGN <=? actual_size) && kmalloc_arena_enabled then
    let '(p, page) := po_alloc pages actual_size (hp_pages s) in
    let s := s <| hp_pages := p |> in
    if page =? 0 then block s
    else
      let s := if hl_record h
               then s <| heap_allocations ::= cons (mk_allocation page page actual_size actual_size 0 false false true) |> else s in
      (if zero then with_mem (fun m => mclear m page actual_size) s else s, page)
  else block s.

Definition kb_kzalloc (size : Z) (h : heap_allocs) s : heap_state * Z :=
  let actual_size := if size =? 0 then 1 else size in
  guarded_block actual_size (fun guard m =>
    let m := fill_guard guard KB_KMALLOC_GUARD_SIZE 0xa5 m in
    let m := mclear m (guard + KB_KMALLOC_GUARD_SIZE) actual_size in
    fill_guard (after_block guard actual_size) KB_KMALLOC_GUARD_SIZE 0x5a m) h s.

Definition allocation_guards_ok (r : kb_heap_allocation) (m : mem) : bool :=
  if (ha_raw r =? 0) || (ha_ptr r =? 0) then false
  else if ha_page_backed r then true
  else guard_matches m (ha_raw r + ha_guard_offset r) KB_KMALLOC_GUARD_SIZE 0xa5 &&
       guard_matches m (ha_ptr r + ha_size r) KB_KMALLOC_GUARD_SIZE 0x5a.

Definition find_heap_allocation (ptr : Z) s : option (nat * kb_heap_allocation) :=
  list_find (fun r => ha_ptr r = ptr) (heap_allocations s).
Definition take_heap_allocation (ptr : Z) s : heap_state * option kb_heap_allocation :=
  match find_heap_allocation ptr s with
  | Some (i, r) => (s <| heap_allocations ::= delete i |>, Some r)
  | None => (s, None)
  end.

Definition kb_kmalloc_usable_size (ptr : Z) s : Z := match find_heap_allocation ptr s with Some (_, r) => ha_size r | None => 0 end.

(** Blocks of malloc and mmap go back to the host. *)
Definition kb_kfree (ptr : Z) s : heap_state :=
  if is_kernel_non_heap_pointer ptr then s
  else
    match take_heap_allocation ptr s with
    | (s, None) => s
    | (s, Some r) =>
        let s := if allocation_guards_ok r (hp_mem s) then s else s <| hp_corrupted ::= fun l => (l ++ [ptr])%list |> in
        if ha_page_backed r then s <| hp_pages ::= po_free pages ptr (ha_raw_size r) |>
        else if ha_arena_backed r then
          if sizeof_heap_arena_free_block <=? ha_raw_size r
          then s <| heap_arena_free_blocks ::= cons (ha_raw r, ha_raw_size r) |> else s
        else s
    end.

Definition memcpy_bytes (dst src n : Z) (m : mem) : mem := mstore m dst (mload m src (Z.to_nat n)).

Definition kb_krealloc_managed (ptr size flags : Z) (h : heap_allocs) s : heap_state * Z :=
  if ptr =? 0 then kb_kmalloc size flags h s
  else if size =? 0 then (kb_kfree ptr s, 0)
  else
    let old_size := kb_kmalloc_usable_size ptr s in
    if old_size =? 0 then kb_kmalloc size flags h s
    else
      let '(s, next) := kb_kmalloc size flags h s in
      if next =? 0 then (s, 0)
      else
        let copied := if old_size <? size then old_size else size in
        (kb_kfree ptr (with_mem (memcpy_bytes next ptr copied) s), next).

Definition kb_kmemdup (src len flags : Z) (h : heap_allocs) s : heap_state * Z :=
  if src =? 0 then (s, 0)
  else
    let '(s, dst) := kb_kmalloc len flags h s in
    (if dst =? 0 then s else with_mem (memcpy_bytes dst src len) s, dst).

(** The entry points with an unused cache or node, and the one for secrets, which are not
    cleared. *)
Definition kb_kmalloc_trace (cache flags size : Z) (h : heap_allocs) s : heap_state * Z := kb_kmalloc size flags h s.
Definition kb_kmalloc_cache_noprof (cache flags size : Z) (h : heap_allocs) s : heap_state * Z := kb_kmalloc size flags h s.
Definition kb_kmalloc_node (size flags node : Z) (h : heap_allocs) s : heap_state * Z := kb_kmalloc size flags h s.
Definition kb_kmalloc_node_trace (cache flags node size : Z) (h : heap_allocs) s : heap_state * Z := kb_kmalloc_trace cache flags size h s.
Definition kb_kfree_sensitive (ptr : Z) s : heap_state := kb_kfree ptr s.

(** ** Object caches *)

(** A constructor of a module. *)
Context (call_ctor : Z -> Z -> heap_state -> heap_state).

Definition slot_size_for (size align : Z) : Z :=
  align_up_size (if size <? sizeof_pointer then sizeof_pointer else size) align.
Definition cache_align (align : Z) : Z :=
  let align := if align <? sizeof_pointer then sizeof_pointer else align in
  if Z.land align (align - 1) =? 0 then align else sizeof_pointer.

Definition kb_kmem_cache_create (size align ctor : Z) (h : heap_allocs) s : heap_state * Z :=
  let '(s, cache) := kb_kzalloc sizeof_kmem_cache h s in
  if cache =? 0 then (s, 0)
  else
    let size := if size =? 0 then 1 else size in
    let align := cache_align align in
    let slot_size := slot_size_for size align in
    if KB_KMALLOC_MMAP_ALIGN <? slot_size then (kb_kfree cache s, 0)
    else (s <| hp_caches ::= <[cache := mk_cache size align slot_size ctor [] []]> |>, cache).

Definition kb_kmem_cache_create_args (object_size args : Z) (h : heap_allocs) s : heap_state * Z :=
  let align := if args =? 0 then 0 else mload64 (hp_mem s) args in
  let ctor := if args =? 0 then 0 else mload64 (hp_mem s) (args + KB_KMEM_CACHE_ARGS_CTOR_OFFSET) in
  kb_kmem_cache_create object_size align ctor h s.

Definition kb_kmem_cache_destroy (cache : Z) s : heap_state :=
  match hp_caches s !! cache with
  | None => s
  | Some c =>
      let s := foldl (fun s page => s <| hp_pages ::= po_free pages page KB_KMALLOC_MMAP_ALIGN |>) s (kc_pages c) in
      kb_kfree cache (s <| hp_caches ::= delete cache |>)
  end.

(** The slots of a new page, the first one on top; each free slot holds the address of
    the next one. *)
Definition page_slots (page slot_size : Z) : list Z :=
  map (fun i => page + i * slot_size) (seqZ 0 (KB_KMALLOC_MMAP_ALIGN / slot_size)).
Fixpoint link_slots (slots : list Z) (m : mem) : mem :=
  match slots with
  | [] => m
  | slot :: slots => mstore64 (link_slots slots m) slot (default 0 (head slots))
  end.

Definition with_cache (cache : Z) (f : kb_kmem_cache -> kb_kmem_cache) s : heap_state := s <| hp_caches ::= alter f cache |>.

(** A page for a cache without free slots. *)
Definition cache_grow (cache : Z) (c : kb_kmem_cache) (h : heap_allocs) s : heap_state * bool :=
  let '(p, page) := po_alloc pages KB_KMALLOC_MMAP_ALIGN (hp_pages s) in
  let s := s <| hp_pages := p |> in
  if page =? 0 then (s, false)
  else if negb (hl_record h) then (s <| hp_pages ::= po_free pages page KB_KMALLOC_MMAP_ALIGN |>, false)
  else
    let slots := page_slots page (kc_slot_size c) in
    (with_mem (link_slots slots) (with_cache cache (fun c => c <| kc_pages ::= cons page |> <| kc_free_slots := slots |>) s), true).

Definition kb_kmem_cache_alloc (cache flags : Z) (h : heap_allocs) s : heap_state * Z :=
  match hp_caches s !! cache with
  | None => (s, 0)
  | Some c =>
      if (kc_slot_size c =? 0) || (KB_KMALLOC_MMAP_ALIGN <? kc_slot_size c) then (s, 0)
      else
        let '(s, grown) := match kc_free_slots c with [] => cache_grow cache c h s | _ => (s, true) end in
        if negb grown then (s, 0)
        else
          match kc_free_slots <$> hp_caches s !! cache with
          | Some (slot :: rest) =>
              let s := with_cache cache (fun c => c <| kc_free_slots := rest |>) s in
              let s := if negb (Z.land flags KB_LINUX___GFP_ZERO =? 0) || negb (kc_ctor c =? 0)
                       then with_mem (fun m => mclear m slot (kc_size c)) s else s in
              (if kc_ctor c =? 0 then s else call_ctor (kc_ctor c) slot s, slot)
          | _ => (s, 0)
          end
  end.

Definition kb_kmem_cache_free (cache ptr : Z) s : heap_state :=
  if ptr =? 0 then s
  else
    match hp_caches s !! cache with
    | None => s
    | Some c =>
        with_mem (fun m => mstore64 m ptr (default 0 (head (kc_free_slots c))))
          (with_cache cache (fun c => c <| kc_free_slots ::= cons ptr |>) s)
    end.

(** ** Memory pools *)

(** [alloc_fn] and [free_fn] are functions of modules, applied to the pool's data. *)
Record kb_mempool := mk_mempool {
  mp_minimum : Z;
  mp_alloc_fn : heap_state -> heap_state * Z;
  mp_free_fn : Z -> heap_state -> heap_state;
  mp_elements : list Z;                     (* the reserve, the last element first *)
}.
#[local] Instance mempool_eta : Settable kb_mempool := fun p =>
  mk_mempool (mp_minimum p) (mp_alloc_fn p) (mp_free_fn p) (mp_elements p).

Definition mempool_call_free (pool : kb_mempool) (element : Z) s : heap_state := if element =? 0 then s else mp_free_fn pool element s.

Definition kb_mempool_destroy (pool : kb_mempool) s : heap_state :=
  foldl (fun s element => mempool_call_free pool element s) s (mp_elements pool).

Fixpoint mempool_fill (missing : nat) (pool : kb_mempool) s : heap_state * option kb_mempool :=
  match missing with
  | O => (s, Some pool)
  | S missing =>
      let '(s, element) := mp_alloc_fn pool s in
      if element =? 0 then (kb_mempool_destroy pool s, None)
      else mempool_fill missing (pool <| mp_elements ::= cons element |>) s
  end.

(** [pool_ok], [elements_ok]: the allocations of the pool and of its table. *)
Definition kb_mempool_create_node (minimum : Z) (alloc_fn : option (heap_state -> heap_state * Z))
    (free_fn : option (Z -> heap_state -> heap_state)) (pool_ok elements_ok : bool) s : heap_state * option kb_mempool :=
  match alloc_fn, free_fn with
  | Some alloc_fn, Some free_fn =>
      if minimum <? 0 then (s, None)
      else if negb pool_ok then (s, None)
      else if negb (minimum =? 0) && negb elements_ok then (s, None)
      else mempool_fill (Z.to_nat minimum) (mk_mempool minimum alloc_fn free_fn []) s
  | _, _ => (s, None)
  end.

Definition kb_mempool_alloc (pool : kb_mempool) s : heap_state * kb_mempool * Z :=
  let '(s, element) := mp_alloc_fn pool s in
  if negb (element =? 0) then (s, pool, element)
  else
    match mp_elements pool with
    | [] => (s, pool, 0)
    | element :: rest => (s, pool <| mp_elements := rest |>, element)
    end.

Definition kb_mempool_free (element : Z) (pool : kb_mempool) s : heap_state * kb_mempool :=
  if element =? 0 then (s, pool)
  else if Z.of_nat (length (mp_elements pool)) <? mp_minimum pool then (s, pool <| mp_elements ::= cons element |>)
  else (mempool_call_free pool element s, pool).

(** The functions of pools of objects of a cache, and of blocks of one size. *)
Definition kb_mempool_alloc_slab (gfp cache : Z) (h : heap_allocs) s : heap_state * Z := kb_kmem_cache_alloc cache gfp h s.
Definition kb_mempool_free_slab (element cache : Z) s : heap_state := kb_kmem_cache_free cache element s.
Definition kb_mempool_kmalloc (gfp size : Z) (h : heap_allocs) s : heap_state * Z := kb_kmalloc size gfp h s.
Definition kb_mempool_kfree (element : Z) s : heap_state := kb_kfree element s.

(** ** Shrinkers *)

(** The functions of a shrinker, by address: the number of objects, and how many were
    freed of the number asked for. *)
Context (count_objects scan_objects : Z -> Z -> Z -> heap_state -> heap_state * Z).

(** [record_ok]: the allocation of the record. *)
Definition kb_shrinker_alloc (record_ok : bool) (h : heap_allocs) s : heap_state * Z :=
  let '(s, shrinker) := kb_kzalloc KB_SHRINKER_BYTES h s in
  if shrinker =? 0 then (s, 0)
  else if negb record_ok then (kb_kfree shrinker s, 0)
  else (s <| shrinker_records ::= cons (shrinker, false) |>, shrinker).

Definition kb_shrinker_register (shrinker : Z) s : heap_state :=
  if shrinker =? 0 then s
  else
    match list_find (fun r => r.1 = shrinker) (shrinker_records s) with
    | Some (i, _) => s <| shrinker_records ::= alter (fun r => (r.1, true)) i |>
    | None => s
    end.

Definition kb_shrinker_free (shrinker : Z) s : heap_state :=
  if shrinker =? 0 then s
  else
    match list_find (fun r => r.1 = shrinker) (shrinker_records s) with
    | Some (i, _) => kb_kfree shrinker (s <| shrinker_records ::= delete i |>)
    | None => s
    end.

(** One shrinker of the snapshot; the amount reclaimed so far with it. *)
Definition reclaim_from (shrinker nr_to_scan reclaimed : Z) s : heap_state * Z :=
  let count := mload64 (hp_mem s) (shrinker + KB_SHRINKER_COUNT_OBJECTS_OFFSET) in
  let scan := mload64 (hp_mem s) (shrinker + KB_SHRINKER_SCAN_OBJECTS_OFFSET) in
  if scan =? 0 then (s, reclaimed)
  else
    let wanted := nr_to_scan - reclaimed in
    let '(s, available) := if count =? 0 then (s, wanted) else count_objects count shrinker wanted s in
    let '(s, scanned) := if available =? 0 then (s, 0) else scan_objects scan shrinker wanted s in
    (s, if negb (scanned =? UINT64_MAX) && (scanned <=? wanted) then reclaimed + scanned else reclaimed).

Fixpoint reclaim_loop (shrinkers : list Z) (nr_to_scan reclaimed : Z) s : heap_state * Z :=
  match shrinkers with
  | [] => (s, reclaimed)
  | shrinker :: shrinkers =>
      if reclaimed <? nr_to_scan then
        let '(s, reclaimed) := reclaim_from shrinker nr_to_scan reclaimed s in reclaim_loop shrinkers nr_to_scan reclaimed s
      else (s, reclaimed)
  end.

Definition kb_shrinker_reclaim (nr_to_scan : Z) s : heap_state * Z :=
  if nr_to_scan =? 0 then (s, 0)
  else reclaim_loop (take KB_SHRINKER_SNAPSHOT_MAX (fst <$> filter (fun r => r.2 = true) (shrinker_records s))) nr_to_scan 0 s.
End heap.
Arguments heap_state : clear implicits.
Arguments kb_mempool : clear implicits.
#[export] Instance heap_eta' P : Settable (heap_state P) := fun s =>
  mk_heap_state (heap_allocations s) (heap_arena_chunks s) (heap_arena_free_blocks s) (hp_caches s) (shrinker_records s)
    (hp_corrupted s) (hp_pages s).
