(* ===== verification/HeapTheorems.v ===== *)
(** * Theorems about the kernel heap (Heap.v)

    Blocks in use never overlap, with their guards; the heap is a map from addresses to
    strings of bytes under allocation, release, reallocation and writes that stay in
    their block; a memory pool fails only when its allocator and its reserve both do; the
    shrinkers never report more than was asked for. *)

From S2P Require Import Prelude Memory DmaMapping PageArena Heap.

(** ** Extents *)

(** An extent is an address and a number of bytes. *)
Definition extents_apart (e f : Z * Z) : Prop := e.1 + e.2 <= f.1 \/ f.1 + f.2 <= e.1.
Definition within (a n : Z) (e : Z * Z) : Prop := e.1 <= a /\ a + n <= e.1 + e.2.

Fixpoint separate (l : list (Z * Z)) : Prop :=
  match l with [] => True | e :: l => Forall (extents_apart e) l /\ separate l end.

Lemma apart_sym e f : extents_apart e f -> extents_apart f e.
Proof. unfold extents_apart. tauto. Qed.
Lemma apart_within a n e f : within a n e -> extents_apart e f -> extents_apart (a, n) f.
Proof. unfold within, extents_apart. cbn. lia. Qed.

Lemma separate_perm l k : l ≡ₚ k -> separate l -> separate k.
Proof.
  induction 1 as [|e l k Hp IH|e f l|l k j _ IH1 _ IH2]; cbn; [done| | |auto].
  - intros [He Hl]. split; [by rewrite <- Hp|auto].
  - intros [He [Hf Hl]]. apply Forall_cons in He as [Hef He]. split_and!; [|done|done]. constructor; [by apply apart_sym|done].
Qed.

Lemma separate_split a n k l : 0 <= k <= n -> separate ((a, n) :: l) -> separate ((a, k) :: (a + k, n - k) :: l).
Proof.
  intros Hk [Ha Hl]. cbn. split_and!; [|eapply Forall_impl; [done|]; intros f; apply apart_within; unfold within; cbn; lia|done].
  constructor; [unfold extents_apart; cbn; lia|]. eapply Forall_impl; [done|]. intros f. apply apart_within. unfold within. cbn. lia.
Qed.

Lemma separate_tail e l : separate (e :: l) -> separate l.
Proof. by intros [_ H]. Qed.

Lemma separate_elem e f l : separate (e :: l) -> f ∈ l -> extents_apart e f.
Proof. intros [H _] Hf. by apply (proj1 (Forall_forall _ _) H). Qed.

Ltac heap_lia :=
  unfold is_u64, UINT64_MAX in *; change (2 ^ 64) with 18446744073709551616 in *; cbn [fst snd] in *; lia.

(** ** Sizes *)

Lemma align_up_pow2 v n : 0 <= n <= 12 -> 0 <= v <= UINT64_MAX - 4096 ->
  align_up_size v (2 ^ n) = v + (- v) mod 2 ^ n.
Proof.
  intros Hn Hv. unfold UINT64_MAX in Hv. assert (0 < 2 ^ n <= 2 ^ 12) as Hp by (split; [apply Z.pow_pos_nonneg; lia|apply Z.pow_le_mono_r; lia]).
  change (2 ^ 12) with 4096 in Hp. unfold align_up_size. rewrite (u64_small (2 ^ n - 1)) by (unfold is_u64; lia).
  rewrite u64_small by (unfold is_u64; lia). rewrite <- (Z.ones_equiv n : Z.ones n = 2 ^ n - 1).
  rewrite Z.ldiff_ones_r, Z.shiftl_mul_pow2, Z.shiftr_div_pow2 by lia. rewrite Z.ones_equiv, <- Z.sub_1_r.
  pose proof (Z.mod_pos_bound (- v) (2 ^ n) ltac:(lia)). rewrite Zmod_eq_full by lia.
  assert (- (- v / 2 ^ n) = (v + (2 ^ n - 1)) / 2 ^ n) as E.
  { pose proof (Z.div_mod v (2 ^ n) ltac:(lia)) as D. pose proof (Z.mod_pos_bound v (2 ^ n) ltac:(lia)).
    destruct (decide (v mod 2 ^ n = 0)) as [Z0|Z0].
    - rewrite Z.div_opp_l_z by lia. apply (Z.div_unique _ _ _ (2 ^ n - 1)); lia.
    - rewrite Z.div_opp_l_nz by lia. apply (Z.div_unique _ _ _ (v mod 2 ^ n - 1)); lia. }
  rewrite <- E. lia.
Qed.

Lemma align_up_bounds16 v : 0 <= v <= UINT64_MAX - 4096 -> v <= align_up_size v 16 < v + 16.
Proof. intros H. change 16 with (2 ^ 4) at 1 2. rewrite align_up_pow2 by lia. pose proof (Z.mod_pos_bound (- v) (2 ^ 4) ltac:(lia)). lia. Qed.
Lemma align_up_bounds4096 v : 0 <= v <= UINT64_MAX - 4096 -> v <= align_up_size v 4096 < v + 4096.
Proof. intros H. change 4096 with (2 ^ 12) at 1 2. rewrite align_up_pow2 by lia. pose proof (Z.mod_pos_bound (- v) (2 ^ 12) ltac:(lia)). lia. Qed.

Lemma chunk_header_eq : chunk_header = 32. Proof. reflexivity. Qed.
Lemma record_size_eq : record_size = 64. Proof. reflexivity. Qed.

(** ** What the heap needs of the page arena *)

Class PageSource {P : Type} (ops : page_source P) := {
  ps_ok : P -> Prop;
  ps_block : P -> Z -> Z -> Prop;           (* a block in use: its address and its bytes *)
  ps_region : P -> Z -> Prop;               (* the addresses of the arena *)
  ps_blocks_range : forall p a n, ps_ok p -> ps_block p a n -> 4096 <= a /\ 0 < n /\ a + n <= 2 ^ 64 - 4096;
  ps_blocks_region : forall p a n b, ps_ok p -> ps_block p a n -> a <= b < a + n -> ps_region p b;
  ps_blocks_apart : forall p a n b k, ps_ok p -> ps_block p a n -> ps_block p b k -> a = b /\ n = k \/ extents_apart (a, n) (b, k);
  ps_alloc : forall p n p' a, ps_ok p -> 0 < n <= UINT64_MAX - 4096 -> po_alloc ops n p = (p', a) ->
    ps_ok p' /\ (forall b, ps_region p' b <-> ps_region p b) /\
    (forall b, ~ ps_region p b \/ (exists c k, ps_block p c k /\ c <= b < c + k) -> mem_byte (po_mem ops p') b = mem_byte (po_mem ops p) b) /\
    (a = 0 /\ (forall b k, ps_block p' b k <-> ps_block p b k) \/
     exists k, a <> 0 /\ n <= k /\ (forall c m, ps_block p c m -> extents_apart (a, k) (c, m)) /\
       (forall b m, ps_block p' b m <-> ps_block p b m \/ b = a /\ m = k) /\
       (forall b, a <= b < a + k -> mem_byte (po_mem ops p') b = 0));
  ps_free : forall p a k n, ps_ok p -> ps_block p a k -> 0 < n <= k ->
    let p' := po_free ops a n p in
    ps_ok p' /\ (forall b, ps_region p' b <-> ps_region p b) /\ po_mem ops p' = po_mem ops p /\
    (forall b m, ps_block p' b m <-> ps_block p b m /\ b <> a);
  ps_with_mem : forall p f, ps_ok p -> let p' := po_with_mem ops f p in
    ps_ok p' /\ po_mem ops p' = f (po_mem ops p) /\ (forall b, ps_region p' b <-> ps_region p b) /\
    (forall b m, ps_block p' b m <-> ps_block p b m);
}.

Lemma mem_byte_mset m a n v b : mem_byte (mset m a n v) b = if decide (a <= b < a + Z.of_nat (Z.to_nat n)) then v else mem_byte m b.
Proof.
  unfold mset. generalize (Z.to_nat n). clear n. intros n. revert m a. induction n as [|n IH]; intros m a; cbn [replicate mstore]; [by rewrite decide_False by lia|].
  rewrite IH. assert (mem_byte (<[a := v]> m) b = if decide (b = a) then v else mem_byte m b) as ->; [|repeat case_decide; try lia; done].
  unfold mem_byte. case_decide as E; [by rewrite E, lookup_insert_eq|by rewrite lookup_insert_ne].
Qed.

Section heap.
Context {P : Type} (ops : page_source P) `{!PageSource ops} (pachaos : bool) (getenv : string -> option string).
Implicit Types s : heap_state P.

(** ** The invariant *)

Definition block_extents (l : list kb_heap_allocation) : list (Z * Z) :=
  flat_map (fun r => if ha_page_backed r then [] else [(ha_raw r, ha_raw_size r)]) l.
(** The header of a chunk and what is left of it. *)
Definition chunk_extents (l : list kb_heap_arena_chunk) : list (Z * Z) :=
  flat_map (fun c => [(hc_addr c, 32); (hc_addr c + 32 + hc_used c, hc_capacity c - hc_used c)]) l.
(** The storage the heap accounts for, outside the page arena. *)
Definition heap_extents s : list (Z * Z) :=
  block_extents (heap_allocations s) ++ heap_arena_free_blocks s ++ chunk_extents (heap_arena_chunks s).

Definition extent_ok (p : P) (e : Z * Z) : Prop :=
  4096 <= e.1 /\ 0 <= e.2 /\ e.1 + e.2 <= 2 ^ 64 - 4096 /\ forall b, e.1 <= b < e.1 + e.2 -> ~ ps_region p b.

Definition guards_intact (m : mem) (r : kb_heap_allocation) : Prop :=
  forall i, 0 <= i < 256 -> mem_byte m (ha_raw r + 64 + i) = 0xa5 /\ mem_byte m (ha_ptr r + ha_size r + i) = 0x5a.

Definition block_ok (p : P) (m : mem) (r : kb_heap_allocation) : Prop :=
  0 < ha_size r /\
  if ha_page_backed r then exists k, ps_block p (ha_ptr r) k /\ ha_size r <= k /\ ha_raw r = ha_ptr r /\ ha_raw_size r = ha_size r
  else ha_ptr r = ha_raw r + 320 /\ ha_size r + 576 <= ha_raw_size r /\ ha_guard_offset r = 64 /\ guards_intact m r.

Definition cache_pages (caches : gmap Z kb_kmem_cache) : list Z := map_to_list caches ≫= fun c => kc_pages c.2.
(** The pages that blocks and caches own. *)
Definition page_owners s : list Z :=
  (ha_ptr <$> filter (fun r => ha_page_backed r = true) (heap_allocations s)) ++ cache_pages (hp_caches s).

Record heap_ok s : Prop := {
  ho_pages : ps_ok (hp_pages s);
  ho_separate : separate (heap_extents s);
  ho_extents : Forall (extent_ok (hp_pages s)) (heap_extents s);
  ho_chunks : Forall (fun c => 0 <= hc_used c <= hc_capacity c) (heap_arena_chunks s);
  ho_blocks : Forall (block_ok (hp_pages s) (hp_mem ops s)) (heap_allocations s);
  ho_owners : NoDup (page_owners s);
  ho_cache_pages : Forall (fun page => ps_block (hp_pages s) page 4096) (cache_pages (hp_caches s));
  ho_reports : hp_corrupted s = [];
}.

(** *** Storage *)

(** Memory the host can answer with: new to the heap and outside the page arena. *)
Definition fresh_extent s (a n : Z) : Prop :=
  4096 <= a /\ a + n <= 2 ^ 64 - 4096 /\ Forall (extents_apart (a, n)) (heap_extents s) /\ forall b, a <= b < a + n -> ~ ps_region (hp_pages s) b.
Definition answers_fresh (size : Z) (h : heap_allocs) s : Prop :=
  (hl_chunk h <> 0 -> fresh_extent s (hl_chunk h) (32 + Z.max (align_up_size (size + 576) 16) KB_KMALLOC_ARENA_CHUNK_MIN)) /\
  (hl_raw h <> 0 -> fresh_extent s (hl_raw h) (align_up_size (size + 576) 4096)).

Lemma extent_ok_within p a n e : within a n e -> 0 <= n -> extent_ok p e -> extent_ok p (a, n).
Proof. intros [H1 H2] Hn (H3 & H4 & H5 & H6). unfold extent_ok. cbn. split_and!; [lia|lia|lia|]. intros b Hb. apply H6. lia. Qed.

(** What [kernel_heap_os_alloc] does to the storage: the block it returns and the rest. *)
Definition took s s1 (raw n : Z) : Prop :=
  heap_allocations s1 = heap_allocations s /\ hp_pages s1 = hp_pages s /\ hp_caches s1 = hp_caches s /\ hp_corrupted s1 = hp_corrupted s /\
  separate ((raw, n) :: heap_extents s1) /\ Forall (extent_ok (hp_pages s)) ((raw, n) :: heap_extents s1) /\
  Forall (fun c => 0 <= hc_used c <= hc_capacity c) (heap_arena_chunks s1).

Lemma took_fresh s a n : heap_ok s -> 0 <= n -> fresh_extent s a n -> took s s a n.
Proof.
  intros [Hp Hs He Hc _ _ _ _] Hn (H1 & H2 & H3 & H4). unfold took. split_and!; try done. constructor; [|done]. unfold extent_ok. cbn. done.
Qed.

Lemma took_free s i b : heap_ok s -> heap_arena_free_blocks s !! i = Some b ->
  took s (s <| heap_arena_free_blocks ::= delete i |>) b.1 b.2.
Proof.
  intros [Hp Hs He Hc _ _ _ _] Hi. unfold took. destruct b as [a n]. cbn [fst snd].
  assert (heap_extents s ≡ₚ (a, n) :: heap_extents (s <| heap_arena_free_blocks ::= delete i |>)) as Hperm.
  { unfold heap_extents. cbn. rewrite (delete_Permutation _ _ _ Hi) at 1. cbn. by rewrite <- Permutation_middle. }
  split_and!; try done; [by eapply separate_perm|by rewrite <- Hperm].
Qed.

Lemma alter_middle {A} (f : A -> A) l1 x l2 : alter f (length l1) (l1 ++ x :: l2) = l1 ++ f x :: l2.
Proof. induction l1 as [|y l1 IH]; cbn; [done|]. by rewrite <- IH. Qed.

Lemma chunk_extents_app l k : chunk_extents (l ++ k) = chunk_extents l ++ chunk_extents k.
Proof. apply flat_map_app. Qed.

Lemma took_chunk s i c n : heap_ok s -> heap_arena_chunks s !! i = Some c -> 0 <= n <= hc_capacity c - hc_used c ->
  took s (s <| heap_arena_chunks ::= alter (fun c => c <| hc_used ::= fun u => u64 (u + n) |>) i |>) (hc_addr c + 32 + hc_used c) n.
Proof.
  intros [Hp Hs He Hc _ _ _ _] Hi Hn. apply list_elem_of_split_length in Hi as (l1 & l2 & Hl & ->).
  set (rest := block_extents (heap_allocations s) ++ heap_arena_free_blocks s ++ chunk_extents l1 ++ (hc_addr c, 32) :: chunk_extents l2).
  assert (heap_extents s ≡ₚ (hc_addr c + 32 + hc_used c, hc_capacity c - hc_used c) :: rest) as P0.
  { unfold heap_extents, rest. rewrite Hl, chunk_extents_app. cbn. rewrite !Permutation_middle. by rewrite <- Permutation_swap. }
  rewrite Hl in Hc. rewrite P0 in He. apply (separate_perm _ _ P0), (separate_split _ _ n) in Hs; [|done].
  apply Forall_app in Hc as [Hc1 [Hcc Hc2]%Forall_cons]. apply Forall_cons in He as [He0 He].
  assert (extent_ok (hp_pages s) (hc_addr c, 32)) as Hh.
  { apply (proj1 (Forall_forall _ _) He). unfold rest. rewrite !elem_of_app, elem_of_cons. tauto. }
  assert (u64 (hc_used c + n) = hc_used c + n) as Eu.
  { apply u64_small. unfold is_u64. destruct He0 as (_ & _ & G3 & _), Hh as (G1 & _). change (2 ^ 64) with 18446744073709551616 in *. cbn in *. lia. }
  set (s1 := s <| heap_arena_chunks ::= _ |>).
  assert ((hc_addr c + 32 + hc_used c, n) :: (hc_addr c + 32 + hc_used c + n, hc_capacity c - hc_used c - n) :: rest ≡ₚ
          (hc_addr c + 32 + hc_used c, n) :: heap_extents s1) as P1.
  { apply perm_skip. unfold heap_extents, rest, s1. cbn. rewrite Hl, alter_middle, chunk_extents_app. cbn. rewrite Eu.
    replace (hc_addr c + 32 + (hc_used c + n)) with (hc_addr c + 32 + hc_used c + n) by lia.
    replace (hc_capacity c - (hc_used c + n)) with (hc_capacity c - hc_used c - n) by lia.
    rewrite !Permutation_middle. by rewrite <- Permutation_swap. }
  unfold took. split_and!; try done.
  - by eapply separate_perm.
  - rewrite <- P1. constructor; [|constructor; [|done]]; (eapply extent_ok_within; [|cbn; lia|exact He0]); unfold within; cbn; lia.
  - cbn. rewrite Hl, alter_middle. apply Forall_app. split; [done|]. constructor; [|done]. cbn. rewrite Eu. lia.
Qed.

Lemma took_new_chunk s a capacity n : heap_ok s -> 0 <= n <= capacity -> fresh_extent s a (32 + capacity) ->
  took s (s <| heap_arena_chunks ::= cons (mk_chunk a capacity n) |>) (a + 32) n.
Proof.
  intros [Hp Hs He Hc _ _ _ _] Hn (H1 & H2 & H3 & H4). set (s1 := s <| heap_arena_chunks ::= _ |>).
  assert (separate ((a, 32 + capacity) :: heap_extents s)) as Hs1 by done.
  apply (separate_split _ _ 32) in Hs1; [|lia]. replace (32 + capacity - 32) with capacity in Hs1 by lia.
  assert (separate ((a + 32, capacity) :: (a, 32) :: heap_extents s)) as Hs2 by (eapply separate_perm; [apply Permutation_swap|exact Hs1]).
  apply (separate_split _ _ n) in Hs2; [|done].
  assert ((a + 32, n) :: (a + 32 + n, capacity - n) :: (a, 32) :: heap_extents s ≡ₚ (a + 32, n) :: heap_extents s1) as P1.
  { apply perm_skip. unfold heap_extents, s1. cbn. rewrite !Permutation_middle. by rewrite <- Permutation_swap. }
  assert (extent_ok (hp_pages s) (a, 32 + capacity)) as Hall by (unfold extent_ok; cbn; split_and!; [lia|lia|lia|done]).
  unfold took. split_and!; try done.
  - by eapply separate_perm.
  - rewrite <- P1. repeat (constructor; [eapply extent_ok_within; [|cbn; lia|exact Hall]; unfold within; cbn; lia|]). done.
  - constructor; [cbn; lia|done].
Qed.

Lemma chunk_room s i c : heap_ok s -> heap_arena_chunks s !! i = Some c -> 0 <= hc_capacity c - hc_used c <= UINT64_MAX /\ 0 <= hc_used c.
Proof.
  intros [_ _ He Hc _ _ _ _] Hi. apply list_elem_of_lookup_2 in Hi as Hin. pose proof (proj1 (Forall_forall _ _) Hc c Hin) as Hu.
  assert ((hc_addr c + 32 + hc_used c, hc_capacity c - hc_used c) ∈ heap_extents s) as Hx.
  { unfold heap_extents. rewrite !elem_of_app. do 2 right. apply list_elem_of_In, in_flat_map. exists c. split; [by apply list_elem_of_In|]. cbn. tauto. }
  destruct (proj1 (Forall_forall _ _) He _ Hx) as (G1 & _ & G3 & _). cbn in *. unfold UINT64_MAX. change (2 ^ 64) with 18446744073709551616 in *. lia.
Qed.

Lemma fresh_sub s a n k : 0 <= k <= n -> fresh_extent s a n -> fresh_extent s a k.
Proof.
  intros Hk (H1 & H2 & H3 & H4). split_and!; [done|lia| |intros b Hb; apply H4; lia].
  eapply Forall_impl; [done|]. intros f. apply apart_within. unfold within. cbn. lia.
Qed.

(** Whatever the source, the block is new and large enough. *)
Lemma os_alloc_spec size h s :
  heap_ok s -> 0 <= size <= UINT64_MAX - 8192 -> answers_fresh size h s ->
  let '(s1, raw, n, _, _) := kernel_heap_os_alloc pachaos getenv (size + 576) h s in
  raw = 0 /\ s1 = s \/ size + 576 <= n /\ took s s1 raw n.
Proof.
  intros Hok Hsz [Hchunk Hraw]. unfold UINT64_MAX in *. unfold kernel_heap_os_alloc.
  pose proof (align_up_bounds16 (size + 576) ltac:(unfold UINT64_MAX; lia)) as A16.
  pose proof (align_up_bounds4096 (size + 576) ltac:(unfold UINT64_MAX; lia)) as A4k.
  destruct (kmalloc_arena_enabled pachaos getenv).
  - destruct (list_find _ (heap_arena_free_blocks s)) as [[i b]|] eqn:Hf.
    + apply list_find_Some in Hf as (Hi & Hb & _). right. split; [done|]. by apply took_free.
    + unfold kernel_heap_arena_alloc. unfold KB_KMALLOC_RECORD_ALIGN. set (al := align_up_size (size + 576) 16) in *.
      destruct (list_find _ (heap_arena_chunks s)) as [[i c]|] eqn:Hc.
      * apply list_find_Some in Hc as (Hi & Hfit & _). unfold chunk_fits in Hfit. apply Z.leb_le in Hfit.
        pose proof (chunk_room s i c Hok Hi) as Hu. rewrite u64_small in Hfit by heap_lia.
        pose proof (took_chunk s i c al Hok Hi ltac:(lia)) as Ht. right. split; [lia|]. rewrite chunk_header_eq.
        rewrite u64_small; [exact Ht|]. destruct Ht as (_ & _ & _ & _ & _ & [(G1 & _ & G3 & _) _]%Forall_cons & _). heap_lia.
      * rewrite chunk_header_eq. unfold KB_KMALLOC_ARENA_CHUNK_MIN in *. set (capacity := if 1024 * 1024 <? al then al else 1024 * 1024).
        assert (capacity = Z.max al (1024 * 1024)) as Ec by (unfold capacity; destruct (Z.ltb_spec (1024 * 1024) al); lia).
        destruct (_ <? capacity); [left; done|]. destruct (Z.eqb_spec (hl_chunk h) 0) as [|Hnz]; [left; done|].
        right. split; [lia|]. rewrite <- Ec in Hchunk. specialize (Hchunk Hnz). pose proof (took_new_chunk s (hl_chunk h) capacity al Hok ltac:(lia) Hchunk) as Ht.
        rewrite u64_small; [exact Ht|]. destruct Hchunk as (G1 & G2 & _). heap_lia.
  - unfold KB_KMALLOC_MMAP_ALIGN. destruct (kmalloc_mmap_enabled pachaos getenv).
    + destruct (Z.eqb_spec (hl_raw h) 0) as [|Hnz]; [left; done|]. right. split; [lia|]. apply took_fresh; [done|lia|by apply Hraw].
    + destruct (Z.eq_dec (hl_raw h) 0) as [|Hnz]; [left; done|]. right. split; [lia|]. specialize (Hraw Hnz). apply took_fresh; [done|lia|].
      by eapply fresh_sub; [|exact Hraw]; lia.
Qed.

(** *** Blocks in use *)

Definition footprint (r : kb_heap_allocation) : Z * Z := if ha_page_backed r then (ha_ptr r, ha_size r) else (ha_raw r, ha_raw_size r).

Lemma footprint_user p m r : block_ok p m r -> within (ha_ptr r) (ha_size r) (footprint r) /\ 0 < (footprint r).2.
Proof. intros [H0 H]. unfold within, footprint. destruct (ha_page_backed r); cbn; lia. Qed.

Lemma block_extents_elem r l : r ∈ l -> ha_page_backed r = false -> (ha_raw r, ha_raw_size r) ∈ block_extents l.
Proof. intros Hr Hp. apply list_elem_of_In, in_flat_map. exists r. rewrite <- list_elem_of_In, Hp. split; [done|by left]. Qed.

Lemma classes_apart (Q : Z -> Prop) e f :
  0 < e.2 -> 0 < f.2 -> (forall b, e.1 <= b < e.1 + e.2 -> Q b) -> (forall b, f.1 <= b < f.1 + f.2 -> ~ Q b) -> extents_apart e f.
Proof.
  intros He Hf H1 H2. unfold extents_apart. destruct (decide (e.1 + e.2 <= f.1)); [by left|]. destruct (decide (f.1 + f.2 <= e.1)); [by right|].
  exfalso. apply (H2 (Z.max e.1 f.1)); [lia|]. apply H1. lia.
Qed.

Lemma blocks_separate_list p m l :
  ps_ok p -> separate (block_extents l) -> Forall (extent_ok p) (block_extents l) -> Forall (block_ok p m) l ->
  NoDup (ha_ptr <$> filter (fun r => ha_page_backed r = true) l) -> separate (footprint <$> l).
Proof.
  intros Hp. induction l as [|r l IH]; [done|]. intros Hs He Hb Hn. apply Forall_cons in Hb as [Hr Hb].
  assert (separate (footprint <$> l)) as Hl.
  { apply IH; [|by apply Forall_app in He as [_ He]|done|].
    - revert Hs. cbn. destruct (ha_page_backed r); [done|]. by intros [_ ?].
    - revert Hn. rewrite filter_cons. case_decide; [|done]. cbn. by intros [_ ?]%NoDup_cons. }
  cbn [fmap list_fmap separate]. split; [|done]. apply Forall_fmap, Forall_forall. intros q Hq. cbn.
  pose proof (proj1 (Forall_forall _ _) Hb q Hq) as Hqok. destruct Hr as [Hr0 Hr], Hqok as [Hq0 Hqok].
  assert (forall x k, ha_page_backed x = true -> ps_block p (ha_ptr x) k -> ha_size x <= k -> within (ha_ptr x) (ha_size x) (ha_ptr x, k)) as Hin
    by (intros; unfold within; cbn; lia).
  unfold footprint. destruct (ha_page_backed r) eqn:Er, (ha_page_backed q) eqn:Eq.
  - destruct Hr as (k & Hk & Hkr & _), Hqok as (j & Hj & Hjq & _).
    assert (ha_ptr r <> ha_ptr q) as Hne.
    { revert Hn. rewrite filter_cons. case_decide; [|done]. cbn. intros [Hni _]%NoDup_cons E. apply Hni. rewrite E.
      apply list_elem_of_fmap. exists q. split; [done|]. by apply list_elem_of_filter. }
    destruct (ps_blocks_apart p _ _ _ _ Hp Hk Hj) as [[? _]|Ha]; [done|].
    eapply apart_within; [by apply (Hin r k)|]. apply apart_sym. eapply apart_within; [by apply (Hin q j)|]. by apply apart_sym.
  - destruct Hr as (k & Hk & Hkr & _). apply (classes_apart (ps_region p)); cbn; [lia|lia| |].
    + intros b Hb'. eapply ps_blocks_region; [done|done|]. lia.
    + intros b Hb'. assert ((ha_raw q, ha_raw_size q) ∈ block_extents (r :: l)) as Hx by (apply block_extents_elem; [by right|done]).
      apply (proj1 (Forall_forall _ _) He) in Hx as (_ & _ & _ & Hx). by apply Hx.
  - destruct Hqok as (k & Hk & Hkr & _). apply apart_sym, (classes_apart (ps_region p)); cbn; [lia|lia| |].
    + intros b Hb'. eapply ps_blocks_region; [done|done|]. lia.
    + intros b Hb'. assert ((ha_raw r, ha_raw_size r) ∈ block_extents (r :: l)) as Hx by (apply block_extents_elem; [by left|done]).
      apply (proj1 (Forall_forall _ _) He) in Hx as (_ & _ & _ & Hx). by apply Hx.
  - revert Hs. cbn. rewrite Er. cbn. intros [Hs _]. apply (proj1 (Forall_forall _ _) Hs). by apply block_extents_elem.
Qed.

Lemma separate_app_l l k : separate (l ++ k) -> separate l.
Proof. induction l as [|e l IH]; cbn; [done|]. intros [H1 H2]. apply Forall_app in H1 as [H1 _]. auto. Qed.

Lemma blocks_separate s : heap_ok s -> separate (footprint <$> heap_allocations s).
Proof.
  intros [Hp Hs He _ Hb Ho _ _]. eapply blocks_separate_list; [done|by eapply separate_app_l|by apply Forall_app in He as [He _]|done|].
  by apply NoDup_app in Ho as [Ho _].
Qed.

Lemma separate_nodup (f : kb_heap_allocation -> Z) l :
  separate (footprint <$> l) -> Forall (fun r => (footprint r).1 <= f r < (footprint r).1 + (footprint r).2) l -> NoDup (f <$> l).
Proof.
  induction l as [|r l IH]; [by constructor|]. cbn. intros [Ha Hs] [Hr Hl]%Forall_cons. apply NoDup_cons. split; [|auto].
  intros (q & E & Hq)%list_elem_of_fmap. pose proof (proj1 (Forall_forall _ _) Hl q Hq) as Hq'.
  assert (extents_apart (footprint r) (footprint q)) as Hx by (apply (proj1 (Forall_forall _ _) Ha); by apply list_elem_of_fmap_2).
  unfold extents_apart in Hx. cbn in Hq'. lia.
Qed.

Lemma ptrs_nodup s : heap_ok s -> NoDup (ha_ptr <$> heap_allocations s).
Proof.
  intros Hok. apply separate_nodup; [by apply blocks_separate|]. eapply Forall_impl; [apply Hok|]. intros r Hr. cbn.
  pose proof Hr as [H0 _]. apply footprint_user in Hr as [[H1 H2] _]. lia.
Qed.

(** The heap as a map from addresses to bytes. *)
Definition block_bytes (m : mem) (r : kb_heap_allocation) : Z * list Z := (ha_ptr r, mload m (ha_ptr r) (Z.to_nat (ha_size r))).
Definition contents s : gmap Z (list Z) := list_to_map (block_bytes (hp_mem ops s) <$> heap_allocations s).

Lemma mload_same m m' a n : (forall b, a <= b < a + Z.of_nat n -> mem_byte m' b = mem_byte m b) -> mload m' a n = mload m a n.
Proof.
  revert a. induction n as [|n IH]; intros a H; cbn; [done|]. f_equal; [apply H; lia|]. apply IH. intros b Hb. apply H. lia.
Qed.

Lemma bytes_frame m m' l :
  Forall (fun r => forall b, ha_ptr r <= b < ha_ptr r + ha_size r -> mem_byte m' b = mem_byte m b) l -> Forall (fun r => 0 < ha_size r) l ->
  block_bytes m' <$> l = block_bytes m <$> l.
Proof.
  intros H1 H2. apply list_fmap_ext. intros i r Hi. apply list_elem_of_lookup_2 in Hi. unfold block_bytes. f_equal. apply mload_same.
  intros b Hb. apply (proj1 (Forall_forall _ _) H1 r Hi). pose proof (proj1 (Forall_forall _ _) H2 r Hi). cbn in *. lia.
Qed.

Lemma block_ok_frame p p' m m' r :
  block_ok p m r -> (forall k, ps_block p (ha_ptr r) k -> ps_block p' (ha_ptr r) k) ->
  (forall b, (footprint r).1 <= b < (footprint r).1 + (footprint r).2 -> mem_byte m' b = mem_byte m b) -> block_ok p' m' r.
Proof.
  intros [H0 H] Hb Hm. split; [done|]. unfold footprint in Hm. destruct (ha_page_backed r).
  - destruct H as (k & Hk & H). exists k. auto.
  - destruct H as (H1 & H2 & H3 & H4). split_and!; try done. intros i Hi. cbn in Hm. rewrite !Hm by lia. by apply H4.
Qed.

(** *** Adding a block *)

Lemma hp_mem_with f s : ps_ok (hp_pages s) -> hp_mem ops (with_mem ops f s) = f (hp_mem ops s).
Proof. intros H. apply (ps_with_mem (hp_pages s) f) in H as (_ & H & _). exact H. Qed.

Lemma extent_ok_iff p p' e : (forall b, ps_region p' b <-> ps_region p b) -> extent_ok p e -> extent_ok p' e.
Proof. intros Hr (H1 & H2 & H3 & H4). split_and!; try done. intros b Hb. rewrite Hr. by apply H4. Qed.

Lemma contents_add s s' r :
  heap_ok s -> heap_ok s' -> heap_allocations s' = r :: heap_allocations s ->
  Forall (fun q => forall b, ha_ptr q <= b < ha_ptr q + ha_size q -> mem_byte (hp_mem ops s') b = mem_byte (hp_mem ops s) b) (heap_allocations s) ->
  contents s !! ha_ptr r = None /\ contents s' = <[ha_ptr r := mload (hp_mem ops s') (ha_ptr r) (Z.to_nat (ha_size r))]> (contents s).
Proof.
  intros Hok Hok' Ha Hm. split.
  - apply not_elem_of_list_to_map. rewrite <- list_fmap_compose. pose proof (ptrs_nodup s' Hok') as Hn. rewrite Ha in Hn. cbn in Hn.
    by apply NoDup_cons in Hn as [Hn _].
  - unfold contents at 1. rewrite Ha. cbn [fmap list_fmap list_to_map foldr]. unfold block_bytes at 1. cbn. f_equal.
    apply (f_equal list_to_map), bytes_frame; [done|]. eapply Forall_impl; [apply Hok|]. by intros q [? _].
Qed.

(** What the code writes into a new block: the guards, and nothing outside it. *)
Definition fills (actual : Z) (init : Z -> mem -> mem) : Prop :=
  forall guard m, 4096 <= guard -> guard + 512 + actual <= 2 ^ 64 - 4096 ->
    (forall b, ~ (guard <= b < guard + 512 + actual) -> mem_byte (init guard m) b = mem_byte m b) /\
    (forall i, 0 <= i < 256 -> mem_byte (init guard m) (guard + i) = 0xa5 /\ mem_byte (init guard m) (guard + 256 + actual + i) = 0x5a).

Lemma add_block s s1 raw n actual init mm ar :
  heap_ok s -> took s s1 raw n -> 0 < actual -> actual + 576 <= n -> fills actual init ->
  let r := mk_allocation (raw + 320) raw actual n 64 mm ar false in
  let s' := with_mem ops (init (raw + 64)) s1 <| heap_allocations ::= cons r |> in
  heap_ok s' /\ contents s !! (raw + 320) = None /\
  contents s' = <[raw + 320 := mload (hp_mem ops s') (raw + 320) (Z.to_nat actual)]> (contents s) /\
  hp_mem ops s' = init (raw + 64) (hp_mem ops s).
Proof.
  intros Hok (A1 & P1 & C1 & R1 & S1 & E1 & K1) Hac Hn Hfill r s'. pose proof Hok as [Hp Hs He Hc Hb Ho Hcp Hrep].
  pose proof E1 as [(G1 & G2 & G3 & G4) _]%Forall_cons. cbn [fst snd] in *.
  destruct (ps_with_mem (hp_pages s) (init (raw + 64)) Hp) as (Wp & Wm & Wr & Wb).
  assert (hp_pages s' = po_with_mem ops (init (raw + 64)) (hp_pages s)) as Ep by (unfold s'; cbn; by rewrite P1).
  assert (hp_mem ops s' = init (raw + 64) (hp_mem ops s)) as Em by (unfold hp_mem; rewrite Ep; exact Wm).
  assert (heap_allocations s' = r :: heap_allocations s) as Ea by (unfold s'; cbn; by rewrite A1).
  assert (heap_extents s' = (raw, n) :: heap_extents s1) as Ee by done.
  destruct (Hfill (raw + 64) (hp_mem ops s)) as [Hout Hg]; [lia|lia|].
  assert (Forall (fun q => forall b, (footprint q).1 <= b < (footprint q).1 + (footprint q).2 -> mem_byte (hp_mem ops s') b = mem_byte (hp_mem ops s) b)
    (heap_allocations s)) as Hframe.
  { apply Forall_forall. intros q Hq b Hbq. rewrite Em. apply Hout. intros Hin. pose proof (proj1 (Forall_forall _ _) Hb q Hq) as [_ Hqok].
    unfold footprint in Hbq. destruct (ha_page_backed q) eqn:Eq; cbn in Hbq.
    - destruct Hqok as (k & Hk & Hkq & _). apply (G4 b); [lia|]. eapply ps_blocks_region; [done|done|]. lia.
    - assert (extents_apart (raw, n) (ha_raw q, ha_raw_size q)) as Hx; [|unfold extents_apart in Hx; cbn in Hx; lia].
      eapply separate_elem; [exact S1|]. unfold heap_extents. rewrite A1. apply elem_of_app. left. by apply block_extents_elem. }
  assert (heap_ok s') as Hok'.
  { constructor.
    - by rewrite Ep.
    - by rewrite Ee.
    - rewrite Ee. eapply Forall_impl; [exact E1|]. intros e. apply extent_ok_iff. by rewrite Ep.
    - exact K1.
    - rewrite Ea. constructor.
      + split; [done|]. cbn. split_and!; [lia|lia|done|]. intros i Hi. cbn. rewrite Em. replace (raw + 320 + actual + i) with (raw + 64 + 256 + actual + i) by lia.
        by apply Hg.
      + apply Forall_forall. intros q Hq. eapply block_ok_frame; [by apply (proj1 (Forall_forall _ _) Hb)| |by apply (proj1 (Forall_forall _ _) Hframe)].
        intros k. rewrite Ep. apply Wb.
    - unfold page_owners. rewrite Ea, filter_cons_False by done. unfold s'. cbn. rewrite C1. exact Ho.
    - unfold s'. cbn. rewrite C1, P1. eapply Forall_impl; [exact Hcp|]. intros page. apply Wb.
    - unfold s'. cbn. by rewrite R1. }
  split; [done|]. destruct (contents_add s s' r Hok Hok' Ea) as [Hnone Hadd]; [|by split_and!].
  apply Forall_forall. intros q Hq b Hbq. apply (proj1 (Forall_forall _ _) Hframe q Hq).
  pose proof (proj1 (Forall_forall _ _) Hb q Hq) as [[H1 H2] _]%footprint_user. lia.
Qed.

(** *** kmalloc and kzalloc *)

Lemma guarded_block_spec actual init h s :
  heap_ok s -> 0 < actual <= UINT64_MAX - 8192 -> answers_fresh actual h s -> fills actual init ->
  let '(s', ptr) := guarded_block ops pachaos getenv actual init h s in
  ptr = 0 /\ s' = s \/
  ptr <> 0 /\ heap_ok s' /\ contents s !! ptr = None /\ contents s' = <[ptr := mload (hp_mem ops s') ptr (Z.to_nat actual)]> (contents s) /\
  4096 <= ptr - 256 /\ ptr + 256 + actual <= 2 ^ 64 - 4096 /\ hp_mem ops s' = init (ptr - 256) (hp_mem ops s).
Proof.
  intros Hok Hac Hfr Hfill. unfold guarded_block. rewrite record_size_eq. unfold KB_KMALLOC_GUARD_SIZE.
  rewrite !(proj2 (Z.ltb_ge _ _)) by heap_lia. cbn [orb]. replace (64 + actual + 2 * 256) with (actual + 576) by lia.
  pose proof (os_alloc_spec actual h s Hok ltac:(lia) Hfr) as Ht. destruct (kernel_heap_os_alloc _ _ _ _ _) as [[[[s1 raw] n] mm] ar].
  destruct (Z.eqb_spec raw 0) as [->|Hraw].
  - left. destruct Ht as [[_ ->]|[Hn Ht]]; [done|]. exfalso. destruct Ht as (_ & _ & _ & _ & _ & [(G1 & _) _]%Forall_cons & _). cbn in G1. lia.
  - right. destruct Ht as [[? _]|[Hn Ht]]; [done|].
    pose proof Ht as (_ & _ & _ & _ & _ & [(G1 & G2 & G3 & _) _]%Forall_cons & _). cbn [fst snd] in *.
    rewrite (u64_small (raw + 64)) by heap_lia. rewrite u64_small by heap_lia. replace (raw + 64 + 256) with (raw + 320) by lia.
    destruct (add_block s s1 raw n actual init mm ar Hok Ht ltac:(lia) Hn Hfill) as (H1 & H2 & H3 & H4). cbv zeta in *.
    split_and!; [lia|exact H1|exact H2|exact H3|lia|lia|]. rewrite H4. f_equal. lia.
Qed.

Lemma kmalloc_fills actual (zero : bool) : 0 < actual -> fills actual (fun guard m =>
  let m := fill_guard guard KB_KMALLOC_GUARD_SIZE 0xa5 m in
  let m := fill_guard (after_block guard actual) KB_KMALLOC_GUARD_SIZE 0x5a m in
  if zero then mclear m (guard + KB_KMALLOC_GUARD_SIZE) actual else m).
Proof.
  intros Ha guard m H1 H2. unfold after_block, fill_guard, KB_KMALLOC_GUARD_SIZE. rewrite (u64_small (guard + 256 + actual)) by heap_lia.
  split; intros; destruct zero; rewrite ?mem_byte_mclear, !mem_byte_mset; [| |split|split]; repeat case_decide; try lia; done.
Qed.

Lemma kzalloc_fills actual : 0 < actual -> fills actual (fun guard m =>
  let m := fill_guard guard KB_KMALLOC_GUARD_SIZE 0xa5 m in
  let m := mclear m (guard + KB_KMALLOC_GUARD_SIZE) actual in
  fill_guard (after_block guard actual) KB_KMALLOC_GUARD_SIZE 0x5a m).
Proof.
  intros Ha guard m H1 H2. unfold after_block, fill_guard, KB_KMALLOC_GUARD_SIZE. rewrite (u64_small (guard + 256 + actual)) by heap_lia.
  split; intros; [|split]; rewrite !mem_byte_mset, ?mem_byte_mclear, ?mem_byte_mset; repeat case_decide; try lia; done.
Qed.

Lemma mload_zeros m a n : (forall b, a <= b < a + Z.of_nat n -> mem_byte m b = 0) -> mload m a n = replicate n 0.
Proof. revert a. induction n as [|n IH]; intros a H; cbn; [done|]. f_equal; [apply H; lia|]. apply IH. intros b Hb. apply H. lia. Qed.

(** What an allocation does to the map: nothing, or one more string of bytes. *)
Definition allocates (size : Z) (zero : bool) (M : gmap Z (list Z)) (ptr : Z) (M' : gmap Z (list Z)) : Prop :=
  ptr = 0 /\ M' = M \/
  ptr <> 0 /\ M !! ptr = None /\ exists q, length q = Z.to_nat size /\ (zero = true -> q = replicate (Z.to_nat size) 0) /\ M' = <[ptr := q]> M.

Definition actual_of (size : Z) : Z := if size =? 0 then 1 else size.

Lemma kzalloc_spec size h s :
  heap_ok s -> 0 <= size <= UINT64_MAX - 8192 -> answers_fresh (actual_of size) h s ->
  let '(s', ptr) := kb_kzalloc ops pachaos getenv size h s in heap_ok s' /\ allocates (actual_of size) true (contents s) ptr (contents s').
Proof.
  intros Hok Hsz Hfr. unfold kb_kzalloc. fold (actual_of size). assert (0 < actual_of size <= UINT64_MAX - 8192) as Hac.
  { unfold actual_of. destruct (Z.eqb_spec size 0); heap_lia. }
  pose proof (guarded_block_spec (actual_of size) _ h s Hok Hac Hfr (kzalloc_fills _ (proj1 Hac))) as H.
  destruct (guarded_block _ _ _ _ _ _ _) as [s' ptr]. destruct H as [[-> ->]|(H1 & H2 & H3 & H4 & H5 & H6 & H7)]; [split; [done|by left]|].
  split; [done|]. right. split_and!; [done|done|]. eexists. split_and!; [apply length_mload| |exact H4]. intros _. apply mload_zeros.
  intros b Hb. rewrite H7. unfold fill_guard, after_block, KB_KMALLOC_GUARD_SIZE. rewrite mem_byte_mset, mem_byte_mclear.
  rewrite u64_small by heap_lia. rewrite decide_False, decide_True by lia. done.
Qed.

(** *** Page-backed blocks *)

Lemma owner_block s a : heap_ok s -> a ∈ page_owners s -> exists k, ps_block (hp_pages s) a k.
Proof.
  intros Hok [(r & -> & [Hr Hin]%list_elem_of_filter)%list_elem_of_fmap|Ha]%elem_of_app.
  - destruct (proj1 (Forall_forall _ _) (ho_blocks _ Hok) r Hin) as [_ H]. rewrite Hr in H. destruct H as (k & Hk & _). eauto.
  - exists 4096. by apply (proj1 (Forall_forall _ _) (ho_cache_pages _ Hok)).
Qed.

(** The bytes of blocks in use survive an allocation of pages. *)
Lemma pages_frame s n p' a b r :
  heap_ok s -> 0 < n <= UINT64_MAX - 4096 -> po_alloc ops n (hp_pages s) = (p', a) -> r ∈ heap_allocations s ->
  (footprint r).1 <= b < (footprint r).1 + (footprint r).2 -> mem_byte (po_mem ops p') b = mem_byte (hp_mem ops s) b.
Proof.
  intros Hok Hn Ha Hr Hb. destruct (ps_alloc _ _ _ _ (ho_pages _ Hok) Hn Ha) as (_ & _ & Hm & _). apply Hm.
  destruct (proj1 (Forall_forall _ _) (ho_blocks _ Hok) r Hr) as [_ H]. unfold footprint in Hb. destruct (ha_page_backed r) eqn:E; cbn in Hb.
  - right. destruct H as (k & Hk & Hs & _). exists (ha_ptr r), k. split; [done|lia].
  - left. assert ((ha_raw r, ha_raw_size r) ∈ heap_extents s) as Hx by (apply elem_of_app; left; by apply block_extents_elem).
    destruct (proj1 (Forall_forall _ _) (ho_extents _ Hok) _ Hx) as (_ & _ & _ & Hx'). by apply Hx'.
Qed.

(** A heap whose pages were allocated from. *)
Lemma pages_moved s n p' a :
  heap_ok s -> 0 < n <= UINT64_MAX - 4096 -> po_alloc ops n (hp_pages s) = (p', a) ->
  heap_ok (s <| hp_pages := p' |>) /\ contents (s <| hp_pages := p' |>) = contents s /\
  (a <> 0 -> a ∉ page_owners s).
Proof.
  intros Hok Hn Ha. pose proof Hok as [Hp Hs He Hc Hb Ho Hcp Hrep]. destruct (ps_alloc _ _ _ _ Hp Hn Ha) as (Hp' & Hr & Hm & Hcase).
  assert (forall b k, ps_block (hp_pages s) b k -> ps_block p' b k) as Hkeep.
  { destruct Hcase as [[_ H]|(k & _ & _ & _ & H & _)]; intros b j; rewrite H; auto. }
  split_and!.
  - constructor; try done.
    + eapply Forall_impl; [exact He|]. intros e. by apply extent_ok_iff.
    + apply Forall_forall. intros r Hin. eapply block_ok_frame; [by apply (proj1 (Forall_forall _ _) Hb)|auto|].
      intros b Hbr. by eapply pages_frame.
    + eapply Forall_impl; [exact Hcp|]. auto.
  - unfold contents. apply (f_equal list_to_map), bytes_frame; [|eapply Forall_impl; [exact Hb|]; by intros q [? _]].
    apply Forall_forall. intros r Hin b Hbr. eapply pages_frame; [done|done|done|done|].
    pose proof (proj1 (Forall_forall _ _) Hb r Hin) as [[H1 H2] _]%footprint_user. lia.
  - intros Hnz Hin. destruct (owner_block s a Hok Hin) as [j Hj]. destruct Hcase as [[? _]|(k & _ & Hk & Hap & _)]; [done|].
    pose proof (Hap _ _ Hj) as Hx. destruct (ps_blocks_range _ _ _ Hp Hj) as (_ & Hj0 & _). unfold extents_apart in Hx. cbn in Hx. lia.
Qed.

(** Recording a page-backed block. *)
Lemma add_pages s n p' a :
  heap_ok s -> 0 < n <= UINT64_MAX - 4096 -> po_alloc ops n (hp_pages s) = (p', a) -> a <> 0 ->
  let s' := s <| hp_pages := p' |> <| heap_allocations ::= cons (mk_allocation a a n n 0 false false true) |> in
  heap_ok s' /\ contents s !! a = None /\ contents s' = <[a := replicate (Z.to_nat n) 0]> (contents s).
Proof.
  intros Hok Hn Ha Hnz s'. destruct (pages_moved s n p' a Hok Hn Ha) as (Hok1 & Hc1 & Hnew). specialize (Hnew Hnz).
  destruct (ps_alloc _ _ _ _ (ho_pages _ Hok) Hn Ha) as (_ & _ & _ & [[? _]|(k & _ & Hk & _ & Hblk & Hz)]); [done|].
  set (s1 := s <| hp_pages := p' |>) in *. set (r := mk_allocation a a n n 0 false false true) in *. pose proof Hok1 as [Hp Hs He Hc Hb Ho Hcp Hrep].
  assert (heap_ok s') as Hok'.
  { constructor; try done.
    - constructor; [|exact Hb]. split; [cbn; lia|]. cbn. exists k. split_and!; [apply Hblk; by right|done|done|done].
    - change (page_owners s') with (a :: page_owners s1). apply NoDup_cons. split; [exact Hnew|exact Ho]. }
  destruct (contents_add s1 s' r Hok1 Hok' eq_refl) as [Hnone Hadd]; [by apply Forall_forall|].
  rewrite Hc1 in *. split_and!; [done|exact Hnone|]. rewrite Hadd. f_equal. apply mload_zeros. intros b Hb'. apply Hz. cbn in Hb'. lia.
Qed.

(** *** Looking up, writing and freeing *)

Lemma contents_lookup s r :
  heap_ok s -> r ∈ heap_allocations s -> contents s !! ha_ptr r = Some (mload (hp_mem ops s) (ha_ptr r) (Z.to_nat (ha_size r))).
Proof.
  intros Hok Hr. apply elem_of_list_to_map_1; [rewrite <- list_fmap_compose; by apply ptrs_nodup|].
  apply list_elem_of_fmap. by exists r.
Qed.

Lemma contents_absent s k : (forall r, r ∈ heap_allocations s -> ha_ptr r <> k) -> contents s !! k = None.
Proof.
  intros H. apply not_elem_of_list_to_map. rewrite <- list_fmap_compose. intros (r & -> & Hr)%list_elem_of_fmap. by apply (H r).
Qed.

Lemma contents_inv s k q : contents s !! k = Some q -> exists r, r ∈ heap_allocations s /\ ha_ptr r = k.
Proof.
  intros Hk. destruct (decide (Exists (fun r => ha_ptr r = k) (heap_allocations s))) as [H|H]; [by apply Exists_exists in H|].
  rewrite contents_absent in Hk; [done|]. intros r Hr E. apply H, Exists_exists. eauto.
Qed.

Lemma footprints_apart s r q : heap_ok s -> r ∈ heap_allocations s -> q ∈ heap_allocations s -> ha_ptr r <> ha_ptr q ->
  extents_apart (footprint r) (footprint q).
Proof.
  intros Hok Hr Hq Hne. apply blocks_separate in Hok. revert Hok. induction (heap_allocations s) as [|x l IH]; [by apply not_elem_of_nil in Hr|].
  cbn. intros [Hx Hl]. apply elem_of_cons in Hr as [->|Hr], Hq as [->|Hq]; [done| | |auto].
  - apply (proj1 (Forall_forall _ _) Hx). by apply list_elem_of_fmap_2.
  - apply apart_sym, (proj1 (Forall_forall _ _) Hx). by apply list_elem_of_fmap_2.
Qed.

(** A change of memory inside one block. *)
Lemma touch_block s r f :
  heap_ok s -> r ∈ heap_allocations s ->
  (forall b, ~ (ha_ptr r <= b < ha_ptr r + ha_size r) -> mem_byte (f (hp_mem ops s)) b = mem_byte (hp_mem ops s) b) ->
  heap_ok (with_mem ops f s) /\
  contents (with_mem ops f s) = <[ha_ptr r := mload (f (hp_mem ops s)) (ha_ptr r) (Z.to_nat (ha_size r))]> (contents s).
Proof.
  intros Hok Hr Hf. pose proof Hok as [Hp Hs He Hc Hb Ho Hcp Hrep]. destruct (ps_with_mem (hp_pages s) f Hp) as (Wp & Wm & Wr & Wb).
  set (s' := with_mem ops f s). assert (hp_mem ops s' = f (hp_mem ops s)) as Em by exact Wm.
  pose proof (proj1 (Forall_forall _ _) Hb r Hr) as Hrok. pose proof (footprint_user _ _ _ Hrok) as [[U1 U2] _].
  assert (heap_ok s') as Hok'.
  { constructor; try done.
    - eapply Forall_impl; [exact He|]. intros e. by apply extent_ok_iff.
    - apply Forall_forall. intros q Hq. change (q ∈ heap_allocations s) in Hq. destruct (decide (ha_ptr r = ha_ptr q)) as [E|Hne].
      + assert (q = r) as ->.
        { pose proof (ptrs_nodup s Hok) as Hn. apply list_elem_of_lookup_1 in Hr as [i Hi], Hq as [j Hj].
          assert (i = j) as -> by (eapply NoDup_lookup; [exact Hn|by rewrite list_lookup_fmap, Hi|by rewrite list_lookup_fmap, Hj; cbn; rewrite E]).
          congruence. }
        destruct Hrok as [H0 H]. split; [done|]. destruct (ha_page_backed r).
        * destruct H as (k & Hk & H). exists k. split; [by apply Wb|done].
        * destruct H as (H1 & H2 & H3 & H4). split_and!; try done. intros i Hi. rewrite Em, !Hf by lia. by apply H4.
      + eapply block_ok_frame; [by apply (proj1 (Forall_forall _ _) Hb)|intros k; apply Wb|]. intros b Hbq. rewrite Em. apply Hf.
        pose proof (footprints_apart s r q Hok Hr Hq Hne) as Hx. unfold extents_apart in Hx. lia.
    - eapply Forall_impl; [exact Hcp|]. intros page. apply Wb. }
  split; [done|]. apply map_eq. intros k. destruct (decide (k = ha_ptr r)) as [->|Hk].
  - rewrite lookup_insert_eq. rewrite (contents_lookup s' r Hok' Hr). by rewrite Em.
  - rewrite lookup_insert_ne by done. destruct (contents s !! k) as [q|] eqn:E.
    + apply contents_inv in E as Hx. destruct Hx as (x & Hx & <-). rewrite (contents_lookup s x Hok Hx) in E. injection E as <-.
      rewrite (contents_lookup s' x Hok' Hx). f_equal. apply mload_same. intros b Hb'. rewrite Em. apply Hf.
      pose proof (footprints_apart s r x Hok Hr Hx ltac:(done)) as Hap. pose proof (proj1 (Forall_forall _ _) Hb x Hx) as Hxok.
      pose proof Hxok as [Hx0 _]. apply footprint_user in Hxok as [[V1 V2] _]. unfold extents_apart in Hap. lia.
    + apply contents_absent. intros x Hx <-. by rewrite (contents_lookup s x Hok Hx) in E.
Qed.

Lemma guards_checked s r : heap_ok s -> r ∈ heap_allocations s -> allocation_guards_ok r (hp_mem ops s) = true /\ is_kernel_non_heap_pointer (ha_ptr r) = false.
Proof.
  intros Hok Hr. destruct (proj1 (Forall_forall _ _) (ho_blocks _ Hok) r Hr) as [H0 H].
  assert (4096 <= ha_ptr r /\ 4096 <= ha_raw r /\ ha_ptr r <= 2 ^ 64 - 4096) as (R1 & R2 & R3).
  { destruct (ha_page_backed r) eqn:E.
    - destruct H as (k & Hk & Hks & -> & _). destruct (ps_blocks_range _ _ _ (ho_pages _ Hok) Hk). lia.
    - assert ((ha_raw r, ha_raw_size r) ∈ heap_extents s) as Hx by (apply elem_of_app; left; by apply block_extents_elem).
      destruct (proj1 (Forall_forall _ _) (ho_extents _ Hok) _ Hx) as (G1 & G2 & G3 & _). cbn in *. lia. }
  split.
  - unfold allocation_guards_ok. rewrite !(proj2 (Z.eqb_neq _ _)) by lia. cbn [orb]. destruct (ha_page_backed r); [done|].
    destruct H as (_ & _ & -> & Hg). unfold guard_matches, KB_KMALLOC_GUARD_SIZE. apply andb_true_iff.
    split; apply forallb_forall; intros i Hi; apply list_elem_of_In, elem_of_seqZ in Hi; apply Z.eqb_eq; apply Hg; lia.
  - unfold is_kernel_non_heap_pointer. rewrite (proj2 (Z.eqb_neq _ _)), (proj2 (Z.ltb_ge _ _)), (proj2 (Z.leb_gt _ _)) by lia. done.
Qed.

Lemma delete_middle {A} (l1 : list A) x l2 : delete (length l1) (l1 ++ x :: l2) = l1 ++ l2.
Proof. induction l1 as [|y l1 IH]; cbn; [done|]. f_equal. exact IH. Qed.
Lemma block_extents_app l k : block_extents (l ++ k) = block_extents l ++ block_extents k.
Proof. apply flat_map_app. Qed.

(** Removing the record of a block, with its storage [e] going to [free] or to the host. *)
Lemma drop_block s l1 r l2 free p' :
  heap_ok s -> heap_allocations s = l1 ++ r :: l2 ->
  (free = [] \/ ha_page_backed r = false /\ free = [(ha_raw r, ha_raw_size r)]) ->
  (if ha_page_backed r then p' = po_free ops (ha_ptr r) (ha_raw_size r) (hp_pages s) else p' = hp_pages s) ->
  let s' := s <| heap_allocations := l1 ++ l2 |> <| heap_arena_free_blocks ::= app free |> <| hp_pages := p' |> in
  heap_ok s' /\ contents s' = delete (ha_ptr r) (contents s).
Proof.
  intros Hok Hl Hfree Hp' s'. pose proof Hok as [Hp Hs He Hc Hb Ho Hcp Hrep].
  assert (r ∈ heap_allocations s) as Hr by (rewrite Hl; apply elem_of_app; right; by left).
  pose proof (proj1 (Forall_forall _ _) Hb r Hr) as [Hr0 Hrok].
  assert (ps_ok p' /\ (forall b, ps_region p' b <-> ps_region (hp_pages s) b) /\ po_mem ops p' = hp_mem ops s /\
    (forall b m, ps_block p' b m <-> ps_block (hp_pages s) b m /\ (ha_page_backed r = true -> b <> ha_ptr r))) as (Wp & Wr & Wm & Wb).
  { destruct (ha_page_backed r).
    - destruct Hrok as (k & Hk & Hks & _ & E). rewrite E in Hp'. subst p'. destruct (ps_free _ _ _ (ha_size r) Hp Hk ltac:(lia)) as (F1 & F2 & F3 & F4).
      split_and!; try done. intros b m. rewrite F4. split; intros [? ?]; split; auto.
    - subst p'. split_and!; try done. intros b m. split; [by split|by intros [? _]]. }
  set (gone := if ha_page_backed r then [] else [(ha_raw r, ha_raw_size r)]).
  assert (heap_extents s ≡ₚ gone ++ block_extents (l1 ++ l2) ++ heap_arena_free_blocks s ++ chunk_extents (heap_arena_chunks s)) as P0.
  { unfold heap_extents. rewrite Hl, !block_extents_app. cbn. fold gone. by rewrite !(assoc_L (++)), (comm (++) gone). }
  assert (exists rest, heap_extents s ≡ₚ rest ++ heap_extents s') as [rest P1].
  { unfold heap_extents at 2. unfold s'. cbn. destruct Hfree as [->|[E ->]].
    - exists gone. exact P0.
    - exists []. rewrite P0. unfold gone. rewrite E. cbn. by rewrite <- !Permutation_middle. }
  assert (Forall (fun q => q ∈ heap_allocations s /\ ha_ptr q <> ha_ptr r) (l1 ++ l2)) as Hothers.
  { pose proof (ptrs_nodup s Hok) as Hn. rewrite Hl in *. rewrite fmap_app, fmap_cons in Hn. apply Forall_forall. intros q Hq.
    split; [apply elem_of_app in Hq as [?|?]; apply elem_of_app; [by left|right; by right]|]. intros E. apply NoDup_app in Hn as (_ & N1 & [N2 _]%NoDup_cons). apply elem_of_app in Hq as [Hq|Hq].
    - apply (N1 (ha_ptr q)); [by apply list_elem_of_fmap_2|]. rewrite E. by left.
    - apply N2. rewrite <- E. by apply list_elem_of_fmap_2. }
  assert (Forall (block_ok p' (po_mem ops p')) (l1 ++ l2)) as Hb'.
  { apply Forall_forall. intros q Hq. destruct (proj1 (Forall_forall _ _) Hothers q Hq) as [Hq1 Hq2].
    eapply block_ok_frame; [by apply (proj1 (Forall_forall _ _) Hb)| |by rewrite Wm]. intros k Hk. apply Wb. auto. }
  assert (page_owners s ≡ₚ (if ha_page_backed r then [ha_ptr r] else []) ++ page_owners s') as Po.
  { unfold page_owners. rewrite Hl. unfold s'. cbn. rewrite !filter_app, filter_cons, !fmap_app.
    destruct (ha_page_backed r); case_decide; try done. rewrite fmap_cons, <- !(assoc_L (++)). cbn [app]. by rewrite <- Permutation_middle. }
  assert (heap_ok s') as Hok'.
  { constructor; try done.
    - eapply separate_perm in Hs; [|exact P1]. clear -Hs. induction rest; [done|]. apply IHrest. by destruct Hs.
    - rewrite P1 in He. apply Forall_app in He as [_ He]. eapply Forall_impl; [exact He|]. intros e. by apply extent_ok_iff.
    - rewrite Po in Ho. by apply NoDup_app in Ho as (_ & _ & ?).
    - apply Forall_forall. intros page Hpg. apply Wb. split; [by apply (proj1 (Forall_forall _ _) Hcp)|]. intros E ->.
      rewrite Po, E in Ho. apply NoDup_cons in Ho as [Ho _]. apply Ho. apply elem_of_app. by right. }
  split; [done|]. apply map_eq. intros k. destruct (decide (k = ha_ptr r)) as [->|Hk].
  - rewrite lookup_delete_eq. apply contents_absent. intros q Hq. by apply (proj1 (Forall_forall _ _) Hothers q Hq).
  - rewrite lookup_delete_ne by done. destruct (contents s !! k) as [q|] eqn:E.
    + apply contents_inv in E as Hx. destruct Hx as (x & Hx & <-). rewrite (contents_lookup s x Hok Hx) in E. injection E as <-.
      rewrite (contents_lookup s' x Hok'); [by unfold hp_mem at 1; cbn; rewrite Wm|]. unfold s'. cbn. rewrite Hl in Hx.
      apply elem_of_app in Hx as [Hx|[->|Hx]%elem_of_cons]; [|done|]; apply elem_of_app; auto.
    + apply contents_absent. intros x Hx <-. destruct (proj1 (Forall_forall _ _) Hothers x Hx) as [Hx' _].
      by rewrite (contents_lookup s x Hok Hx') in E.
Qed.

Lemma find_allocation_Some ptr s i r : find_heap_allocation ptr s = Some (i, r) ->
  exists l1 l2, heap_allocations s = l1 ++ r :: l2 /\ i = length l1 /\ ha_ptr r = ptr.
Proof.
  intros (Hi & Hp & _)%list_find_Some. apply list_elem_of_split_length in Hi as (l1 & l2 & Hl & ->). by exists l1, l2.
Qed.

Lemma kfree_spec ptr s : heap_ok s -> heap_ok (kb_kfree ops ptr s) /\ contents (kb_kfree ops ptr s) = delete ptr (contents s).
Proof.
  intros Hok. unfold kb_kfree, take_heap_allocation. destruct (find_heap_allocation ptr s) as [[i r]|] eqn:Hf.
  - apply find_allocation_Some in Hf as (l1 & l2 & Hl & -> & <-). assert (r ∈ heap_allocations s) as Hr by (rewrite Hl; apply elem_of_app; right; by left).
    destruct (guards_checked s r Hok Hr) as [Hg ->]. change (hp_mem ops (s <| heap_allocations ::= delete (length l1) |>)) with (hp_mem ops s). rewrite Hg.
    assert (delete (length l1) (heap_allocations s) = l1 ++ l2) as Hd by (rewrite Hl; apply delete_middle).
    destruct (ha_page_backed r) eqn:Ep; [|destruct (ha_arena_backed r), (sizeof_heap_arena_free_block <=? ha_raw_size r);
      [|pose proof (drop_block s l1 r l2 [] (hp_pages s) Hok Hl ltac:(by left) ltac:(by rewrite Ep)) as H;
        destruct s; cbn in *; rewrite Hd; exact H ..]].
    + pose proof (drop_block s l1 r l2 [] _ Hok Hl ltac:(by left) ltac:(rewrite Ep; reflexivity)) as H. destruct s. cbn in *. rewrite Hd.
      exact H.
    + pose proof (drop_block s l1 r l2 [(ha_raw r, ha_raw_size r)] (hp_pages s) Hok Hl ltac:(by right) ltac:(by rewrite Ep)) as H.
      destruct s. cbn in *. rewrite Hd. exact H.
  - assert (delete ptr (contents s) = contents s) as ->.
    { apply delete_id, contents_absent. intros r Hr E. apply (list_find_None _ _) in Hf. by apply (proj1 (Forall_forall _ _) Hf r Hr). }
    by destruct (is_kernel_non_heap_pointer ptr).
Qed.

Lemma fresh_moved s n p' a size h :
  heap_ok s -> 0 < n <= UINT64_MAX - 4096 -> po_alloc ops n (hp_pages s) = (p', a) -> answers_fresh size h s -> answers_fresh size h (s <| hp_pages := p' |>).
Proof.
  intros Hok Hn Ha [H1 H2]. destruct (ps_alloc _ _ _ _ (ho_pages _ Hok) Hn Ha) as (_ & Hr & _).
  assert (forall b k, fresh_extent s b k -> fresh_extent (s <| hp_pages := p' |>) b k) as H.
  { intros b k (F1 & F2 & F3 & F4). split_and!; try done. intros x Hx. cbn. rewrite Hr. by apply F4. }
  split; auto.
Qed.

Definition wants_zero (flags : Z) : bool := negb (Z.land flags KB_LINUX___GFP_ZERO =? 0).

Lemma kmalloc_spec size flags h s :
  heap_ok s -> 0 <= size <= UINT64_MAX - 8192 -> answers_fresh (actual_of size) h s -> hl_record h = true ->
  let '(s', ptr) := kb_kmalloc ops pachaos getenv size flags h s in
  heap_ok s' /\ allocates (actual_of size) (wants_zero flags) (contents s) ptr (contents s').
Proof.
  intros Hok Hsz Hfr Hrec. unfold kb_kmalloc. fold (actual_of size) (wants_zero flags). cbv zeta. set (actual := actual_of size) in *. set (zero := wants_zero flags).
  assert (0 < actual <= UINT64_MAX - 8192) as Hac by (unfold actual, actual_of; destruct (Z.eqb_spec size 0); heap_lia).
  assert (forall s0, heap_ok s0 -> contents s0 = contents s -> answers_fresh actual h s0 ->
    let '(s', ptr) := guarded_block ops pachaos getenv actual (fun guard m => if zero
      then mclear (fill_guard (after_block guard actual) KB_KMALLOC_GUARD_SIZE 0x5a (fill_guard guard KB_KMALLOC_GUARD_SIZE 0xa5 m))
             (guard + KB_KMALLOC_GUARD_SIZE) actual
      else fill_guard (after_block guard actual) KB_KMALLOC_GUARD_SIZE 0x5a (fill_guard guard KB_KMALLOC_GUARD_SIZE 0xa5 m)) h s0 in
    heap_ok s' /\ allocates actual zero (contents s) ptr (contents s')) as Hblock.
  { intros s0 Hok0 Hc0 Hfr0. pose proof (guarded_block_spec actual _ h s0 Hok0 Hac Hfr0 (kmalloc_fills actual zero (proj1 Hac))) as H. cbv zeta in H.
    destruct (guarded_block _ _ _ _ _ _ _) as [s' ptr]. rewrite Hc0 in H. destruct H as [[-> ->]|(H1 & H2 & H3 & H4 & H5 & H6 & H7)]; [split; [done|by left]|].
    split; [done|]. right. split_and!; [done|done|]. eexists. split_and!; [apply length_mload| |exact H4]. intros ->. apply mload_zeros.
    intros b Hb. rewrite H7. unfold KB_KMALLOC_GUARD_SIZE. rewrite mem_byte_mclear, decide_True by lia. done. }
  destruct (_ && _); [|by apply Hblock].
  destruct (po_alloc ops actual (hp_pages s)) as [p' page] eqn:Ha. assert (0 < actual <= UINT64_MAX - 4096) as Hac' by heap_lia.
  destruct (Z.eqb_spec page 0) as [->|Hnz].
  - destruct (pages_moved s actual p' 0 Hok Hac' Ha) as (Hok1 & Hc1 & _). apply Hblock; [done|done|by eapply fresh_moved].
  - rewrite Hrec. destruct (add_pages s actual p' page Hok Hac' Ha Hnz) as (Hok1 & Hnone & Hc1). cbv zeta in *.
    set (s1 := s <| hp_pages := p' |> <| heap_allocations ::= _ |>) in *.
    assert (heap_ok s1 /\ allocates actual zero (contents s) page (contents s1)) as Hplain.
    { split; [done|]. right. split_and!; [done|done|]. exists (replicate (Z.to_nat actual) 0). split_and!; [apply length_replicate|done|done]. }
    destruct zero; [|done]. set (r := mk_allocation page page actual actual 0 false false true).
    destruct (touch_block s1 r (fun m => mclear m page actual) Hok1 ltac:(by left)) as [Hok2 Hc2].
    { intros b Hb. cbn in Hb. rewrite mem_byte_mclear, decide_False by lia. done. }
    split; [done|]. right. split_and!; [done|done|]. exists (replicate (Z.to_nat actual) 0). split_and!; [apply length_replicate|done|].
    rewrite Hc2, Hc1. cbn [ha_ptr ha_size r]. rewrite insert_insert_eq. f_equal. apply mload_zeros. intros b Hb. rewrite mem_byte_mclear, decide_True by lia. done.
Qed.

(** *** Reallocation *)

Lemma usable_size ptr s : heap_ok s ->
  kb_kmalloc_usable_size ptr s = match contents s !! ptr with Some q => blen q | None => 0 end.
Proof.
  intros Hok. unfold kb_kmalloc_usable_size. destruct (find_heap_allocation ptr s) as [[i r]|] eqn:Hf.
  - apply find_allocation_Some in Hf as (l1 & l2 & Hl & _ & <-). assert (r ∈ heap_allocations s) as Hr by (rewrite Hl; apply elem_of_app; right; by left).
    rewrite (contents_lookup s r Hok Hr). destruct (proj1 (Forall_forall _ _) (ho_blocks _ Hok) r Hr) as [H0 _]. rewrite blen_mload; lia.
  - rewrite contents_absent; [done|]. intros r Hr E. apply (list_find_None _ _) in Hf. by apply (proj1 (Forall_forall _ _) Hf r Hr).
Qed.

(** The bytes of a new block after the first ones of an old one were copied to it. *)
Lemma copy_block s ptr next old q n :
  heap_ok s -> contents s !! ptr = Some old -> contents s !! next = Some q -> 0 <= n -> n <= blen old -> n <= blen q ->
  let s' := with_mem ops (memcpy_bytes next ptr n) s in
  heap_ok s' /\ contents s' = <[next := splice q 0 (take (Z.to_nat n) old)]> (contents s).
Proof.
  intros Hok Ho Hq Hn Hno Hnq s'. destruct (contents_inv s ptr old Ho) as (r & Hr & <-), (contents_inv s next q Hq) as (x & Hx & <-).
  rewrite (contents_lookup s r Hok Hr) in Ho. rewrite (contents_lookup s x Hok Hx) in Hq. injection Ho as <-. injection Hq as <-.
  unfold blen in Hno, Hnq. rewrite length_mload in Hno, Hnq.
  destruct (touch_block s x (memcpy_bytes (ha_ptr x) (ha_ptr r) n) Hok Hx) as [Hok' Hc'].
  { intros b Hb. unfold memcpy_bytes. apply mem_byte_mstore_out. rewrite length_mload. lia. }
  split; [done|]. etransitivity; [exact Hc'|]. f_equal. unfold memcpy_bytes. rewrite take_mload by lia.
  rewrite <- (Z.add_0_r (ha_ptr x)) at 1. rewrite mload_mstore_inside; [done|done|]. rewrite blen_mload; lia.
Qed.

(** Reallocation keeps the bytes that fit and gives up the old block. *)
Definition reallocates (ptr size : Z) (zero : bool) (M : gmap Z (list Z)) (next : Z) (M' : gmap Z (list Z)) : Prop :=
  match (if ptr =? 0 then None else M !! ptr) with
  | None => if (size =? 0) && negb (ptr =? 0) then next = 0 /\ M' = M else allocates (actual_of size) zero M next M'
  | Some old =>
      if size =? 0 then next = 0 /\ M' = delete ptr M
      else next = 0 /\ M' = M \/
           next <> 0 /\ M !! next = None /\ exists q, blen q = size /\ take (length old) q = take (Z.to_nat size) old /\ M' = <[next := q]> (delete ptr M)
  end.

Lemma krealloc_spec ptr size flags h s :
  heap_ok s -> 0 <= size <= UINT64_MAX - 8192 -> answers_fresh (actual_of size) h s -> hl_record h = true ->
  let '(s', next) := kb_krealloc_managed ops pachaos getenv ptr size flags h s in
  heap_ok s' /\ reallocates ptr size (wants_zero flags) (contents s) next (contents s').
Proof.
  intros Hok Hsz Hfr Hrec. pose proof (kmalloc_spec size flags h s Hok Hsz Hfr Hrec) as Hk. unfold kb_krealloc_managed, reallocates.
  destruct (Z.eqb_spec ptr 0) as [->|Hptr]; [by rewrite andb_false_r|]. rewrite andb_true_r.
  destruct (kfree_spec ptr s Hok) as [Hf1 Hf2]. rewrite (usable_size ptr s Hok).
  destruct (Z.eqb_spec size 0) as [->|Hnz].
  { split; [done|]. destruct (contents s !! ptr) eqn:E; [done|]. split; [done|]. rewrite Hf2. by apply delete_id. }
  destruct (contents s !! ptr) as [old|] eqn:E; [|exact Hk].
  destruct (contents_inv s ptr old E) as (r & Hr & Er). rewrite <- Er, (contents_lookup s r Hok Hr) in E. injection E as E.
  destruct (proj1 (Forall_forall _ _) (ho_blocks _ Hok) r Hr) as [Hr0 _].
  assert (0 < blen old) as Hold by (rewrite <- E, blen_mload; lia). rewrite (proj2 (Z.eqb_neq _ _)) by lia.
  assert (actual_of size = size) as Eac by (unfold actual_of; by rewrite (proj2 (Z.eqb_neq _ _) Hnz)). rewrite Eac in Hk.
  destruct (kb_kmalloc ops pachaos getenv size flags h s) as [s1 next]. destruct Hk as [Hok1 Hal].
  destruct Hal as [[-> Hc1]|(Hn & Hnone & q & Hq & _ & Hc1)]; [split; [done|left; done]|]. rewrite (proj2 (Z.eqb_neq _ _) Hn).
  set (copied := if blen old <? size then blen old else size).
  assert (copied = Z.min (blen old) size) as Hcp by (unfold copied; destruct (Z.ltb_spec (blen old) size); lia).
  assert (contents s !! ptr = Some old) as Hlook by (rewrite <- Er, (contents_lookup s r Hok Hr); by rewrite E).
  assert (ptr <> next) as Hne by (intros ->; congruence).
  destruct (copy_block s1 ptr next old q copied Hok1) as [Hok2 Hc2]; [by rewrite Hc1, lookup_insert_ne|by rewrite Hc1, lookup_insert_eq|lia|lia|unfold blen; lia|].
  cbv zeta in *. destruct (kfree_spec ptr _ Hok2) as [Hok3 Hc3]. split; [done|]. right. split_and!; [done|done|].
  exists (splice q 0 (take (Z.to_nat copied) old)). rewrite Hc3, Hc2, Hc1, insert_insert_eq, delete_insert_ne by done.
  unfold blen in *. assert (length (take (Z.to_nat copied) old) = Z.to_nat copied) as Hl by (rewrite length_take; lia).
  split_and!; [|change (splice q 0 ?w) with (w ++ drop (length w) q); rewrite Hl|done].
  - rewrite length_splice; unfold blen; rewrite ?Hl; lia.
  - destruct (decide (Z.of_nat (length old) <= size)) as [Hle|Hgt].
    + rewrite take_app_le by (rewrite Hl; lia). rewrite take_take. rewrite !firstn_all2 by lia. done.
    + rewrite firstn_all2 by (rewrite length_app, length_drop, Hl; lia). rewrite drop_ge by (unfold blen in *; lia). rewrite app_nil_r. f_equal. lia.
Qed.

(** ** Sequences of operations *)

(** What a program does with the heap; a store writes bytes into a block. *)
Inductive heap_op :=
  | OpKmalloc (size flags : Z) (h : heap_allocs)
  | OpKzalloc (size : Z) (h : heap_allocs)
  | OpKfree (ptr : Z)
  | OpKrealloc (ptr size flags : Z) (h : heap_allocs)
  | OpStore (ptr offset : Z) (q : list Z).

Definition heap_exec (op : heap_op) s : heap_state P * Z :=
  match op with
  | OpKmalloc size flags h => kb_kmalloc ops pachaos getenv size flags h s
  | OpKzalloc size h => kb_kzalloc ops pachaos getenv size h s
  | OpKfree ptr => (kb_kfree ops ptr s, 0)
  | OpKrealloc ptr size flags h => kb_krealloc_managed ops pachaos getenv ptr size flags h s
  | OpStore ptr offset q => (with_mem ops (fun m => mstore m (ptr + offset) q) s, 0)
  end.

(** The host answers with new memory, sizes are not within 8 KiB of the largest one, and
    stores stay in a block that is in use. *)
Definition admissible (op : heap_op) s : Prop :=
  let asks size h := 0 <= size <= UINT64_MAX - 8192 /\ answers_fresh (actual_of size) h s /\ hl_record h = true in
  match op with
  | OpKmalloc size _ h | OpKzalloc size h | OpKrealloc _ size _ h => asks size h
  | OpKfree _ => True
  | OpStore ptr offset q => exists old, contents s !! ptr = Some old /\ 0 <= offset /\ offset + blen q <= blen old
  end.

(** The same on a map from addresses to strings of bytes. *)
Definition map_step (op : heap_op) (M : gmap Z (list Z)) (result : Z) (M' : gmap Z (list Z)) : Prop :=
  match op with
  | OpKmalloc size flags _ => allocates (actual_of size) (wants_zero flags) M result M'
  | OpKzalloc size _ => allocates (actual_of size) true M result M'
  | OpKfree ptr => M' = delete ptr M
  | OpKrealloc ptr size flags _ => reallocates ptr size (wants_zero flags) M result M'
  | OpStore ptr offset q => M' = alter (fun old => splice old offset q) ptr M
  end.

Inductive heap_reachable (p : P) : heap_state P -> Prop :=
  | heap_start : heap_reachable p (heap_init p)
  | heap_next op s s' r : heap_reachable p s -> admissible op s -> heap_exec op s = (s', r) -> heap_reachable p s'.

Lemma heap_init_ok p : ps_ok p -> heap_ok (heap_init p).
Proof. intros Hp. constructor; try done; constructor. Qed.


Lemma heap_exec_ok op s s' r : heap_ok s -> admissible op s -> heap_exec op s = (s', r) -> heap_ok s' /\ map_step op (contents s) r (contents s').
Proof.
  intros Hok Hadm He. destruct op as [n f h|n h|ptr|ptr n f h|ptr o q]; cbn in *.
  - destruct Hadm as (H1 & H2 & H3). pose proof (kmalloc_spec n f h s Hok H1 H2 H3) as H. by rewrite He in H.
  - destruct Hadm as (H1 & H2 & _). pose proof (kzalloc_spec n h s Hok H1 H2) as H. by rewrite He in H.
  - injection He as <- _. by apply kfree_spec.
  - destruct Hadm as (H1 & H2 & H3). pose proof (krealloc_spec ptr n f h s Hok H1 H2 H3) as H. by rewrite He in H.
  - injection He as <- _. destruct Hadm as (old & Hold & Ho & Hq). destruct (contents_inv s ptr old Hold) as (x & Hx & <-).
    rewrite (contents_lookup s x Hok Hx) in Hold. injection Hold as <-. unfold blen in Hq. rewrite length_mload in Hq.
    destruct (touch_block s x (fun m => mstore m (ha_ptr x + o) q) Hok Hx) as [Hok' Hc].
    { intros b Hb. apply mem_byte_mstore_out. lia. }
    split; [done|]. rewrite Hc, mload_mstore_inside by (unfold blen; lia). apply map_eq. intros k. destruct (decide (k = ha_ptr x)) as [->|Hk].
    + by rewrite lookup_insert_eq, lookup_alter_eq, (contents_lookup s x Hok Hx).
    + by rewrite lookup_insert_ne, lookup_alter_ne.
Qed.

Lemma heap_reachable_ok p s : ps_ok p -> heap_reachable p s -> heap_ok s.
Proof. intros Hp. induction 1 as [|op s s' r _ IH Hadm He]; [by apply heap_init_ok|]. by apply (heap_exec_ok op s s' r). Qed.

(** A block with its guards. *)
Definition guarded_extent (r : kb_heap_allocation) : Z * Z :=
  if ha_page_backed r then (ha_ptr r, ha_size r) else (ha_ptr r - 256, ha_size r + 512).

Lemma guarded_within m p r : block_ok p m r -> within (guarded_extent r).1 (guarded_extent r).2 (footprint r).
Proof. intros [H0 H]. unfold within, guarded_extent, footprint. destruct (ha_page_backed r); cbn; lia. Qed.
End heap.

(** C12: The blocks in use never overlap, wherever they come from: in every state that
    allocations, releases, reallocations and stores inside blocks lead to, blocks with
    their guard zones are apart, a small block lies with its guards inside the storage
    taken for it, a large one inside a block of the page arena, and no guard is found
    broken, now or before. *)
Theorem heap_blocks_never_overlap {P} (ops : page_source P) `{!PageSource ops} pachaos getenv p s :
  ps_ok p -> heap_reachable ops pachaos getenv p s ->
  (forall i j r q, heap_allocations s !! i = Some r -> heap_allocations s !! j = Some q -> i <> j ->
     extents_apart (guarded_extent r) (guarded_extent q)) /\
  (forall r, r ∈ heap_allocations s -> 0 < ha_size r /\ allocation_guards_ok r (hp_mem ops s) = true /\
     if ha_page_backed r then exists k, ps_block (hp_pages s) (ha_ptr r) k /\ ha_size r <= k
     else within (guarded_extent r).1 (guarded_extent r).2 (ha_raw r, ha_raw_size r) /\
       forall b, ha_raw r <= b < ha_raw r + ha_raw_size r -> ~ ps_region (hp_pages s) b) /\
  hp_corrupted s = [].
Proof.
  intros Hp Hr. pose proof (heap_reachable_ok ops pachaos getenv p s Hp Hr) as Hok. split_and!; [| |apply Hok].
  - intros i j r q Hi Hj Hne. apply list_elem_of_lookup_2 in Hi as Hir. apply list_elem_of_lookup_2 in Hj as Hjq.
    assert (ha_ptr r <> ha_ptr q) as Hpp.
    { intros E. apply Hne. pose proof (ptrs_nodup ops s Hok) as Hn. eapply NoDup_lookup; [exact Hn|by rewrite list_lookup_fmap, Hi|].
      rewrite list_lookup_fmap, Hj. cbn. by rewrite E. }
    pose proof (footprints_apart ops s r q Hok Hir Hjq Hpp) as Hx.
    pose proof (guarded_within ops _ _ _ (proj1 (Forall_forall _ _) (ho_blocks _ _ Hok) r Hir)) as H1.
    pose proof (guarded_within ops _ _ _ (proj1 (Forall_forall _ _) (ho_blocks _ _ Hok) q Hjq)) as H2.
    unfold within, extents_apart in *. lia.
  - intros r Hin. pose proof (proj1 (Forall_forall _ _) (ho_blocks _ _ Hok) r Hin) as Hb. pose proof (guarded_within ops _ _ _ Hb) as Hw.
    destruct (guards_checked ops s r Hok Hin) as [Hg _]. destruct Hb as [H0 H]. split_and!; [done|done|]. unfold footprint in Hw.
    destruct (ha_page_backed r) eqn:E.
    + destruct H as (k & Hk & Hs & _). eauto.
    + split; [done|]. assert ((ha_raw r, ha_raw_size r) ∈ heap_extents s) as Hx by (apply elem_of_app; left; by apply block_extents_elem).
      by destruct (proj1 (Forall_forall _ _) (ho_extents _ _ Hok) _ Hx) as (_ & _ & _ & Hx').
Qed.

(** C11: The heap is a map from addresses to strings of bytes: from the empty map, every
    allocation either fails and changes nothing or adds a string of the size asked for at
    an address not in the map, all zeros if that was asked for; releasing removes exactly
    one; reallocation moves one, keeping the bytes that fit; a store changes exactly its
    bytes of its string.  No operation changes the bytes of any other block. *)
Theorem heap_refines_map {P} (ops : page_source P) `{!PageSource ops} pachaos getenv p s :
  ps_ok p -> heap_reachable ops pachaos getenv p s ->
  contents ops (heap_init p) = ∅ /\
  forall op s' r, admissible ops op s -> heap_exec ops pachaos getenv op s = (s', r) -> map_step op (contents ops s) r (contents ops s').
Proof.
  intros Hp Hr. split; [done|]. intros op s' r Hadm He. by apply (heap_exec_ok ops pachaos getenv op s s' r (heap_reachable_ok _ _ _ p s Hp Hr)).
Qed.

(** ** Memory pools and shrinkers *)

Section reserves.
Context {P : Type} (ops : page_source P).
Implicit Types s : heap_state P.

(** The reserve holds at most the minimum, and no null elements. *)
Definition mempool_ok (pool : kb_mempool P) : Prop :=
  Z.of_nat (length (mp_elements pool)) <= mp_minimum pool /\ Forall (fun e => e <> 0) (mp_elements pool).

Lemma mempool_fill_ok missing pool s s' pool' :
  mempool_ok pool -> Z.of_nat (length (mp_elements pool)) + Z.of_nat missing <= mp_minimum pool ->
  mempool_fill missing pool s = (s', Some pool') ->
  mempool_ok pool' /\ mp_minimum pool' = mp_minimum pool /\ length (mp_elements pool') = (length (mp_elements pool) + missing)%nat.
Proof.
  revert pool s. induction missing as [|n IH]; intros pool s [Hl Hz] Hm; cbn [mempool_fill]; [intros [= <- <-]; split_and!; [by split|done|lia]|].
  destruct (mp_alloc_fn pool s) as [s1 e]. destruct (Z.eqb_spec e 0) as [|He]; [done|]. intros H.
  apply IH in H as (H1 & H2 & H3); [|split; [cbn; lia|by constructor]|cbn; lia]. cbn in H3. split_and!; [done|done|lia].
Qed.

(** A new pool has its whole minimum in reserve. *)
Lemma mempool_create_full minimum alloc_fn free_fn pool_ok elements_ok s s' pool :
  kb_mempool_create_node minimum alloc_fn free_fn pool_ok elements_ok s = (s', Some pool) ->
  mempool_ok pool /\ mp_minimum pool = minimum /\ Z.of_nat (length (mp_elements pool)) = minimum.
Proof.
  unfold kb_mempool_create_node. destruct alloc_fn as [a|], free_fn as [f|]; try done. destruct (Z.ltb_spec minimum 0); [done|].
  destruct pool_ok; [|done]. cbn. destruct (_ && _); [done|]. intros H1.
  apply mempool_fill_ok in H1 as (H2 & H3 & H4); [|split; [cbn; lia|constructor]|cbn; lia]. cbn in *. split_and!; [done|done|lia].
Qed.

(** Allocation fails exactly when the allocator does and the reserve is empty; the reserve
    stays within the minimum under allocation and release. *)
Lemma mempool_alloc_spec pool s s' pool' element : mempool_ok pool -> kb_mempool_alloc pool s = (s', pool', element) ->
  mempool_ok pool' /\ (element = 0 <-> (mp_alloc_fn pool s).2 = 0 /\ mp_elements pool = []).
Proof.
  intros [Hl Hz]. unfold kb_mempool_alloc. destruct (mp_alloc_fn pool s) as [s1 e]. cbn. destruct (Z.eqb_spec e 0) as [->|He]; cbn.
  - destruct (mp_elements pool) as [|x rest] eqn:E; intros [= <- <- <-].
    + unfold mempool_ok. rewrite E. done.
    + apply Forall_cons in Hz as [Hx Hz]. unfold mempool_ok. cbn in *. split_and!; [lia|done|]. split; [done|by intros [_ ?]].
  - intros [= <- <- <-]. split; [by split|]. tauto.
Qed.

Lemma mempool_free_ok element pool s : mempool_ok pool -> mempool_ok (kb_mempool_free element pool s).2.
Proof.
  intros [Hl Hz]. unfold kb_mempool_free. destruct (Z.eqb_spec element 0) as [|He]; [by split|].
  destruct (Z.ltb_spec (Z.of_nat (length (mp_elements pool))) (mp_minimum pool)); [|by split]. split; cbn; [lia|by constructor].
Qed.

Context (count_objects scan_objects : Z -> Z -> Z -> heap_state P -> heap_state P * Z).
Hypothesis scan_nonneg : forall scan shrinker wanted s, 0 <= (scan_objects scan shrinker wanted s).2.

Lemma reclaim_loop_bounded shrinkers n r s : 0 <= r <= n -> r <= (reclaim_loop ops count_objects scan_objects shrinkers n r s).2 <= n.
Proof.
  revert r s. induction shrinkers as [|x l IH]; intros r s Hr; cbn [reclaim_loop]; [cbn; lia|].
  destruct (Z.ltb_spec r n); [|cbn; lia]. unfold reclaim_from. destruct (mload64 _ (x + KB_SHRINKER_SCAN_OBJECTS_OFFSET) =? 0); [by apply IH|].
  destruct (if _ =? 0 then _ else _) as [s1 available].
  assert (0 <= (if available =? 0 then (s1, 0) else scan_objects (mload64 (hp_mem ops s) (x + KB_SHRINKER_SCAN_OBJECTS_OFFSET)) x (n - r) s1).2) as Hs
    by (destruct (available =? 0); [done|apply scan_nonneg]).
  destruct (if available =? 0 then _ else _) as [s2 scanned]. cbn in Hs.
  destruct (_ && (scanned <=? n - r)) eqn:E; [|by apply IH]. apply andb_prop in E as [_ E%Z.leb_le].
  destruct (IH (r + scanned) s2 ltac:(lia)). lia.
Qed.

(** Whatever the shrinkers answer, no more is reported than was asked for. *)
Lemma shrinker_reclaim_bounded n s : 0 <= n -> 0 <= (kb_shrinker_reclaim ops count_objects scan_objects n s).2 <= n.
Proof. intros Hn. unfold kb_shrinker_reclaim. destruct (Z.eqb_spec n 0); [cbn; lia|]. apply reclaim_loop_bounded. lia. Qed.
End reserves.
