(* ===== verification/HeapArena.v ===== *)
(** * The kernel heap over the page arena (Heap.v, PageArena.v)

    The page arena keeps what the heap relies on ([PageSource]), so the theorems of
    HeapTheorems.v hold for the program; examples, and what sizes near the largest one
    do. *)

From S2P Require Import Prelude Memory DmaMapping PageArena PageTheorems Heap HeapTheorems.

Section arena.
Context (get_ops : Z -> option kb_device_backend_ops) (regions : list Z) (al : arena_allocs) (backend : Z) (zalloc : bool).
Implicit Types s : page_state.

(** The arena is in place, mapped for the current backend, and apart from its records. *)
Record arena_ok s : Prop := {
  ao_pages : pages_ok s;
  ao_placed : arena_placed s;
  ao_mapped : mapped_for backend s;
  ao_range : 4096 <= kb_kvm_page_payloads s /\ kb_kvm_page_payloads s + KB_KVM_PAGE_PAYLOAD_BYTES <= 2 ^ 64 - 4096;
  ao_apart : extents_apart (kb_kvm_page_payloads s, KB_KVM_PAGE_PAYLOAD_BYTES) (kb_kvm_page_records s, KB_KVM_PAGE_RECORD_BYTES);
}.
Definition arena_block s (a n : Z) : Prop :=
  exists i o, live (kb_kvm_page_alloc_state s) i o /\ a = kb_kvm_page_payloads s + 4096 * Z.of_nat i /\ n = 4096 * Z.of_nat (block_pages o).
Definition arena_region s (b : Z) : Prop :=
  kb_kvm_page_payloads s <= b < kb_kvm_page_payloads s + KB_KVM_PAGE_PAYLOAD_BYTES \/
  kb_kvm_page_records s <= b < kb_kvm_page_records s + KB_KVM_PAGE_RECORD_BYTES.

Ltac bytes_lia :=
  unfold extents_apart, is_u64, UINT64_MAX, KB_KVM_PAGE_PAYLOAD_BYTES, KB_KVM_PAGE_RECORD_BYTES, KB_KVM_PAGE_RECORD_MAX, KB_KVM_PAGE_SIZE,
    KB_KVM_STRUCT_PAGE_SIZE in *; change (2 ^ 64) with 0x10000000000000000 in *; cbn [fst snd] in *; lia.

Lemma live_range s i o : pages_ok s -> live (kb_kvm_page_alloc_state s) i o -> (0 < block_pages o)%nat /\ (i + block_pages o <= 4096)%nat.
Proof.
  intros [Hl Hlen] Hi. destruct (tiled_disjoint _ _ _ _ _ Hl Hi Hi) as [H _]. destruct Hi as [Ho _].
  pose proof (block_pages_range o Ho). lia.
Qed.

Lemma order_from_spec steps o pc : 0 <= o -> o + Z.of_nat steps <= 60 -> pc <= 2 ^ (o + Z.of_nat steps) ->
  let r := order_from steps o (2 ^ o) pc in o <= r /\ pc <= 2 ^ r.
Proof.
  revert o. induction steps as [|steps IH]; intros o Ho Hs Hpc; cbn [order_from].
  - rewrite Z.add_0_r in Hpc. cbn. split; [lia|done].
  - destruct (Z.ltb_spec (2 ^ o) pc) as [Hlt|Hge]; [|cbn; split; [lia|done]].
    assert (u64 (2 ^ o * 2) = 2 ^ (o + 1)) as ->.
    { rewrite Z.pow_add_r by lia. apply u64_small. assert (2 ^ o <= 2 ^ 60) by (apply Z.pow_le_mono_r; lia). assert (0 < 2 ^ o) by (apply Z.pow_pos_nonneg; lia).
      unfold is_u64. lia. }
    destruct (IH (o + 1)) as [H1 H2]; [lia|lia|by replace (o + 1 + Z.of_nat steps) with (o + Z.of_nat (S steps)) by lia|].
    cbn zeta in *. split; [lia|done].
Qed.

Lemma placed_sync s : arena_ok s -> arena_ok (kb_kvm_sync_page_model al s) /\
  kb_kvm_page_payloads (kb_kvm_sync_page_model al s) = kb_kvm_page_payloads s /\
  kb_kvm_page_records (kb_kvm_sync_page_model al s) = kb_kvm_page_records s /\
  kb_kvm_page_alloc_state (kb_kvm_sync_page_model al s) = kb_kvm_page_alloc_state s /\
  pa_mem (kb_kvm_sync_page_model al s) = pa_mem s /\
  kb_kvm_page_payload_base (kb_kvm_sync_page_model al s) = kb_kvm_page_payloads s /\
  kb_kvm_vmemmap_record_base (kb_kvm_sync_page_model al s) = kb_kvm_page_records s.
Proof.
  intros [Hp Hpl Hm Hr Ha]. destruct (sync_ready al s (placed_ready s Hpl)) as (E1 & E2 & E3 & E4 & E5 & E6 & E7 & E8 & E9 & E10 & E11 & _ & _).
  set (t := kb_kvm_sync_page_model al s) in *. split_and!; try done. constructor.
  - unfold pages_ok in *. by rewrite E7.
  - destruct Hpl as [P1 P2 P3 P4]. constructor; rewrite ?E1, ?E2, ?E3; done.
  - unfold mapped_for in *. by rewrite E4, E5, E6.
  - by rewrite E1.
  - by rewrite E1, E2.
Qed.

(** The payload of a page of the arena. *)
Lemma payload_of_page s (i : nat) : arena_ok s -> (i < 4096)%nat ->
  exists s', page_payload_from_struct_page al (kb_kvm_page_records s + 64 * Z.of_nat i) s = (s', kb_kvm_page_payloads s + 4096 * Z.of_nat i) /\
    arena_ok s' /\ kb_kvm_page_payloads s' = kb_kvm_page_payloads s /\ kb_kvm_page_records s' = kb_kvm_page_records s /\
    kb_kvm_page_alloc_state s' = kb_kvm_page_alloc_state s /\ pa_mem s' = pa_mem s.
Proof.
  intros Hok Hi. unfold page_payload_from_struct_page, kb_linux_kvm_vmemmap_base, kb_linux_kvm_page_offset_base.
  destruct (placed_sync s Hok) as (Hok1 & E1 & E2 & E3 & E4 & E5 & E6). set (s1 := kb_kvm_sync_page_model al s) in *.
  destruct (placed_sync s1 Hok1) as (Hok2 & F1 & F2 & F3 & F4 & F5 & F6). set (s2 := kb_kvm_sync_page_model al s1) in *.
  pose proof (ao_placed _ Hok) as [[P1 P1'] [P2 P2'] _ _]. rewrite E6, F5, E1.
  rewrite !(proj2 (Z.eqb_neq _ _)), (proj2 (Z.ltb_ge _ _)) by lia. cbn [orb]. exists s2. split; [|split_and!; congruence].
  f_equal. unfold KB_KVM_STRUCT_PAGE_SIZE, KB_KVM_PAGE_SIZE. replace (kb_kvm_page_records s + 64 * Z.of_nat i - kb_kvm_page_records s) with (Z.of_nat i * 64) by lia.
  rewrite Z.div_mul by done. rewrite u64_small by bytes_lia. lia.
Qed.

Lemma arena_blocks_apart s a n b k : arena_ok s -> arena_block s a n -> arena_block s b k -> a = b /\ n = k \/ extents_apart (a, n) (b, k).
Proof.
  intros [[Hl _] _ _ _ _] (i & o & Hi & -> & ->) (j & q & Hj & -> & ->). destruct (tiled_disjoint _ _ _ _ _ Hl Hi Hj) as [_ [[-> ->]|H]]; [by left|].
  right. unfold extents_apart. cbn. lia.
Qed.

(** Pages taken by order: the record of the first one, at most 7 orders. *)
Lemma arena_stub s order s' page :
  arena_ok s -> 0 <= order -> kb_kvm_alloc_pages_stub get_ops regions al backend zalloc order s = (s', page) ->
  arena_ok s' /\ kb_kvm_page_payloads s' = kb_kvm_page_payloads s /\ kb_kvm_page_records s' = kb_kvm_page_records s /\
  (forall b, ~ arena_region s b \/ (exists c k, arena_block s c k /\ c <= b < c + k) -> mem_byte (pa_mem s') b = mem_byte (pa_mem s) b) /\
  (page = 0 /\ s' = s \/
   exists i, order < 8 /\ page = kb_kvm_page_records s + 64 * Z.of_nat i /\ page <> 0 /\ (i + block_pages order <= 4096)%nat /\
     (forall c m, arena_block s c m -> extents_apart (kb_kvm_page_payloads s + 4096 * Z.of_nat i, 4096 * Z.of_nat (block_pages order)) (c, m)) /\
     (forall j q, live (kb_kvm_page_alloc_state s') j q <-> live (kb_kvm_page_alloc_state s) j q \/ j = i /\ q = order) /\
     (forall b, kb_kvm_page_payloads s + 4096 * Z.of_nat i <= b < kb_kvm_page_payloads s + 4096 * Z.of_nat i + 4096 * Z.of_nat (block_pages order) ->
        mem_byte (pa_mem s') b = 0)).
Proof.
  intros Hok Ho0. pose proof Hok as [Hp Hpl Hm Hr Ha]. destruct (decide (order < 8)) as [Ho8|Ho8].
  2: { unfold kb_kvm_alloc_pages_stub. rewrite (proj2 (Z.leb_le 8 order)) by lia. intros [= <- <-]. split_and!; try done. by left. }
  rewrite alloc_pages_claims by (done || by apply placed_ready). pose proof (ap_records _ Hpl) as Hrec.
  pose proof (claim_pages_spec order s Hp ltac:(lia) (placed_ready s Hpl) ltac:(lia)) as H. cbn zeta in H. intros E. rewrite E in H.
  destruct H as [Hp1 [(i & -> & Hnz & Hi & Hno & _ & _ & Hlive & Heq)|(-> & -> & _)]]; [|split_and!; try done; by left].
  pose proof (block_pages_range order ltac:(lia)) as Hbp. rewrite Heq.
  assert (forall j q, live (kb_kvm_page_alloc_state s) j q -> (j + block_pages q <= i)%nat \/ (i + block_pages order <= j)%nat) as Hfar.
  { intros j q Hj. assert (live (kb_kvm_page_alloc_state s') i order) as Hli by (apply Hlive; by right).
    assert (live (kb_kvm_page_alloc_state s') j q) as Hlj by (apply Hlive; by left).
    destruct (tiled_disjoint _ _ _ _ _ (proj1 Hp1) Hli Hlj) as [_ [[<- <-]|H]]; [|lia]. exfalso. apply Hno. exists i, order. split; [done|]. lia. }
  assert (forall b, mem_byte (pa_mem s') b = if decide (kb_kvm_page_payloads s + 4096 * Z.of_nat i <= b < kb_kvm_page_payloads s + 4096 * Z.of_nat i + 4096 * Z.of_nat (block_pages order))
    then 0 else if decide (kb_kvm_page_records s + 64 * Z.of_nat i <= b < kb_kvm_page_records s + 64 * Z.of_nat i + 64 * Z.of_nat (block_pages order)) then 0 else mem_byte (pa_mem s) b) as Hmem.
  { intros b. rewrite Heq. cbn. by rewrite !mem_byte_mclear. }
  rewrite <- Heq. assert (kb_kvm_page_payloads s' = kb_kvm_page_payloads s /\ kb_kvm_page_records s' = kb_kvm_page_records s) as [E1 E2] by (by rewrite Heq).
  split_and!; [|done|done| |].
  - rewrite Heq in Hp1 |- *. constructor; [exact Hp1|by destruct Hpl|exact Hm|exact Hr|exact Ha].
  - intros b Hb. rewrite Hmem. rewrite !decide_False; [done| |].
    + intros Hin. destruct Hb as [Hb|(c & k & (j & q & Hj & -> & ->) & Hc)]; [apply Hb; right; bytes_lia|].
      pose proof (live_range s j q Hp Hj). destruct Hok. bytes_lia.
    + intros Hin. destruct Hb as [Hb|(c & k & (j & q & Hj & -> & ->) & Hc)]; [apply Hb; left; bytes_lia|].
      destruct (Hfar j q Hj); lia.
  - right. exists i. split_and!; try done.
    + intros c m (j & q & Hj & -> & ->). unfold extents_apart. cbn. destruct (Hfar j q Hj); lia.
    + intros b Hb. by rewrite Hmem, decide_True.
Qed.

Lemma arena_alloc s n s' a :
  arena_ok s -> 0 < n <= UINT64_MAX - 4096 -> kb_alloc_pages_exact get_ops regions al backend zalloc n s = (s', a) ->
  arena_ok s' /\ (forall b, arena_region s' b <-> arena_region s b) /\
  (forall b, ~ arena_region s b \/ (exists c k, arena_block s c k /\ c <= b < c + k) -> mem_byte (pa_mem s') b = mem_byte (pa_mem s) b) /\
  (a = 0 /\ (forall b k, arena_block s' b k <-> arena_block s b k) \/
   exists k, a <> 0 /\ n <= k /\ (forall c m, arena_block s c m -> extents_apart (a, k) (c, m)) /\
     (forall b m, arena_block s' b m <-> arena_block s b m \/ b = a /\ m = k) /\ (forall b, a <= b < a + k -> mem_byte (pa_mem s') b = 0)).
Proof.
  intros Hok Hn. unfold kb_alloc_pages_exact. rewrite (proj2 (Z.eqb_neq n 0)) by lia.
  unfold KB_KVM_PAGE_SIZE. rewrite (u64_small (n + 4096 - 1)) by bytes_lia. set (pc := (n + 4096 - 1) / 4096).
  assert (n <= 4096 * pc /\ pc <= 2 ^ 52) as [Hpc1 Hpc2].
  { unfold pc. split; [Z.to_euclidean_division_equations; lia|]. apply Z.div_le_upper_bound; [lia|]. change (2 ^ 52) with 4503599627370496. bytes_lia. }
  destruct (order_from_spec 53 0 pc ltac:(lia) ltac:(lia) ltac:(transitivity (2 ^ 52); [done|apply Z.pow_le_mono_r; lia])) as [Ho0 Ho]. cbn zeta in *.
  change (2 ^ 0) with 1 in *. set (order := order_from 53 0 1 pc) in *. clearbody order.
  destruct (kb_kvm_alloc_pages_stub get_ops regions al backend zalloc order s) as [s1 page] eqn:E1.
  destruct (arena_stub s order s1 page Hok Ho0 E1) as (Hok1 & P1 & R1 & Hframe & [[-> ->]|(i & Ho8 & -> & Hnz & Hi & Hfar & Hlive & Hzero)]).
  { change (page_payload_from_struct_page al 0 s) with (s, 0). cbn [Z.eqb orb]. intros [= <- <-]. split_and!; try done. by left. }
  pose proof (block_pages_range order ltac:(lia)) as Hbp. pose proof (ap_payloads _ (ao_placed _ Hok)) as Hpl.
  rewrite <- R1. destruct (payload_of_page s1 i Hok1 ltac:(lia)) as (s2 & -> & Hok2 & F1 & F2 & F3 & F4). rewrite R1.
  rewrite (proj2 (Z.eqb_neq _ _) Hnz), (proj2 (Z.eqb_neq (kb_kvm_page_payloads s1 + _) 0)) by lia. cbn [orb]. intros [= <- <-]. rewrite P1.
  assert (Z.of_nat (block_pages order) = 2 ^ order) as Epow by (rewrite <- shiftl_block_pages, Z.shiftl_1_l by lia; done).
  split_and!; [done|unfold arena_region; by rewrite F1, F2, P1, R1|intros b Hb; rewrite F4; auto|].
  right. exists (4096 * Z.of_nat (block_pages order)). split_and!; [lia|nia|done| |intros b Hb; rewrite F4; auto].
  intros b m. unfold arena_block. rewrite F3, F1, P1. split.
  - intros (j & q & Hj & -> & ->). apply Hlive in Hj as [Hj|[-> ->]]; [left; eauto|by right].
  - intros [(j & q & Hj & -> & ->)|[-> ->]]; [exists j, q|exists i, order]; (split; [apply Hlive; auto|done]).
Qed.

(** A block given back by the record of its first page. *)
Lemma arena_release s i o :
  arena_ok s -> live (kb_kvm_page_alloc_state s) i o ->
  let s' := (kb_kvm_release_pages al (kb_kvm_page_records s + 64 * Z.of_nat i) o s).1 in
  arena_ok s' /\ kb_kvm_page_payloads s' = kb_kvm_page_payloads s /\ kb_kvm_page_records s' = kb_kvm_page_records s /\ pa_mem s' = pa_mem s /\
  (forall j q, live (kb_kvm_page_alloc_state s') j q <-> live (kb_kvm_page_alloc_state s) j q /\ j <> i).
Proof.
  intros Hok Hi. pose proof Hok as [Hp Hpl Hm Hr Ha]. pose proof (live_range s i o Hp Hi) as [Hb0 Hb]. pose proof (ap_records _ Hpl) as Hrec. cbn zeta.
  rewrite release_pages_at by (by apply placed_ready || lia). rewrite release_index_live; [|done|lia|by rewrite Nat2Z.id].
  destruct Hp as [Hl Hlen]. destruct (release_tiled _ i o Hl Hi) as (Ht & Hlen' & Hlive). set (s' := (_, true).1).
  split_and!; try done. constructor; [split; [exact Ht|exact (eq_trans Hlen' Hlen)]|by destruct Hpl|exact Hm|exact Hr|exact Ha].
Qed.

Lemma free_exact_releases s i o n :
  arena_ok s -> live (kb_kvm_page_alloc_state s) i o -> 0 < n <= 4096 * Z.of_nat (block_pages o) ->
  kb_kvm_free_pages_exact al (kb_kvm_page_payloads s + 4096 * Z.of_nat i) n s =
  (kb_kvm_release_pages al (kb_kvm_page_records s + 64 * Z.of_nat i) o s).1.
Proof.
  intros Hok Hi Hn. pose proof Hok as [Hp Hpl Hm Hr Ha]. pose proof (live_range s i o Hp Hi) as [Hb0 Hb]. pose proof (ap_records _ Hpl) as Hrec.
  pose proof (proj1 Hi) as Ho. destruct (head_bits o Ho) as [Hh Hmask].
  rewrite release_pages_at by (by apply placed_ready || lia). unfold kb_kvm_free_pages_exact. rewrite (proj2 (Z.eqb_neq _ _)) by lia.
  pose proof (ensure_arena_spec al s) as H. destruct (kb_kvm_ensure_page_arena al s) as [s0 r].
  destruct H as (_ & _ & _ & _ & H & _). destruct (H (placed_ready s Hpl)) as [-> ->]. cbn [Z.eqb negb].
  unfold KB_KVM_PAGE_PAYLOAD_BYTES, KB_KVM_PAGE_RECORD_MAX, KB_KVM_PAGE_SIZE.
  rewrite (proj2 (Z.ltb_ge _ _)), (proj2 (Z.leb_gt _ _)) by lia. cbn [orb].
  replace (kb_kvm_page_payloads s + 4096 * Z.of_nat i - kb_kvm_page_payloads s) with (Z.of_nat i * 4096) by lia.
  rewrite Z.mod_mul, Z.div_mul by done. cbn [Z.eqb negb]. rewrite Nat2Z.id, (nth_lookup_Some _ _ _ _ (proj2 Hi)).
  unfold KB_KVM_PAGE_ALLOC_HEAD, KB_KVM_PAGE_ALLOC_ORDER_MASK. rewrite Hmask. apply Z.eqb_neq in Hh. rewrite Hh.
  rewrite shiftl_block_pages by done. rewrite (proj2 (Z.eqb_neq n 0)), (proj2 (Z.ltb_ge _ _)) by lia. done.
Qed.

Lemma arena_free s a k n :
  arena_ok s -> arena_block s a k -> 0 < n <= k ->
  let s' := kb_free_pages_exact al a n s in
  arena_ok s' /\ (forall b, arena_region s' b <-> arena_region s b) /\ pa_mem s' = pa_mem s /\
  (forall b m, arena_block s' b m <-> arena_block s b m /\ b <> a).
Proof.
  intros Hok (i & o & Hi & -> & ->) Hn. cbn zeta. unfold kb_free_pages_exact. rewrite (free_exact_releases s i o n Hok Hi Hn).
  destruct (arena_release s i o Hok Hi) as (Hok' & E1 & E2 & E3 & Hlive). set (s' := (kb_kvm_release_pages _ _ _ _).1) in *.
  split_and!; [done|unfold arena_region; by rewrite E1, E2|done|]. intros b m. unfold arena_block. rewrite E1. split.
  - intros (j & q & Hj & -> & ->). apply Hlive in Hj as [Hj Hne]. split; [by exists j, q|lia].
  - intros [(j & q & Hj & -> & ->) Hne]. exists j, q. split; [|done]. apply Hlive. split; [done|]. intros ->. by apply Hne.
Qed.

#[export] Instance arena_page_source : PageSource (arena_source get_ops regions al backend zalloc).
Proof.
  refine (@Build_PageSource _ _ arena_ok arena_block arena_region _ _ _ _ _ _).
  - intros s a n Hok (i & o & Hi & -> & ->). pose proof (live_range s i o (ao_pages _ Hok) Hi). destruct Hok as [_ _ _ Hr _]. bytes_lia.
  - intros s a n b Hok (i & o & Hi & -> & ->) Hb. pose proof (live_range s i o (ao_pages _ Hok) Hi). left. bytes_lia.
  - intros s a n b k. exact (arena_blocks_apart s a n b k).
  - intros s n s' a. exact (arena_alloc s n s' a).
  - intros s a k n. exact (arena_free s a k n).
  - intros s f [H1 [P1 P2 P3 P4] H3 H4 H5]. cbn. split_and!; try done.
Defined.
End arena.

(** ** Examples *)

(** The arena with three pages in use. *)
Lemma pages_sample_arena : arena_ok 0 pages_sample.
Proof.
  assert (kb_kvm_page_records pages_sample = 0x10040 /\ kb_kvm_page_payloads pages_sample = 0x201000) as [E1 E2] by (vm_compute; split; reflexivity).
  constructor.
  - apply pages_sample_ok.
  - assert (kb_kvm_phys_base pages_sample = 0) as E3 by (vm_compute; reflexivity).
    split; rewrite ?E1, ?E2, ?E3; vm_compute; split_and?; try reflexivity; discriminate.
  - by left.
  - rewrite E2. vm_compute. split; discriminate.
  - rewrite E1, E2. right. vm_compute. discriminate.
Qed.

Definition heap_sample_source : page_source page_state := arena_source shifted_backend [] arena_sample 0 true.
#[local] Instance heap_sample_pages : PageSource heap_sample_source := arena_page_source shifted_backend [] arena_sample 0 true.
Definition heap_sample_answers : heap_allocs := mk_heap_allocs 0x70000000 0 true.
Definition heap_sample_op1 : heap_op := OpKmalloc 100 0 heap_sample_answers.
Definition heap_sample_op2 : heap_op := OpKmalloc 8192 0x100 (mk_heap_allocs 0 0 true).
Definition heap_sample1 : heap_state page_state := (heap_exec heap_sample_source true (fun _ => None) heap_sample_op1 (heap_init pages_sample)).1.
Definition heap_sample2 : heap_state page_state := (heap_exec heap_sample_source true (fun _ => None) heap_sample_op2 heap_sample1).1.

Lemma heap_sample_values :
  (heap_exec heap_sample_source true (fun _ => None) heap_sample_op1 (heap_init pages_sample)).2 = 0x70000160 /\
  (heap_exec heap_sample_source true (fun _ => None) heap_sample_op2 heap_sample1).2 = 0x204000.
Proof. vm_compute. split; reflexivity. Qed.

Lemma sample_outside b : 0x70000000 <= b -> ~ arena_region pages_sample b.
Proof.
  assert (kb_kvm_page_records pages_sample = 0x10040 /\ kb_kvm_page_payloads pages_sample = 0x201000) as [E1 E2] by (vm_compute; split; reflexivity).
  unfold arena_region. rewrite E1, E2. unfold KB_KVM_PAGE_PAYLOAD_BYTES, KB_KVM_PAGE_RECORD_BYTES, KB_KVM_PAGE_RECORD_MAX, KB_KVM_PAGE_SIZE, KB_KVM_STRUCT_PAGE_SIZE. lia.
Qed.

Definition sample_reachable := heap_reachable heap_sample_source true (fun _ => None) pages_sample.
Lemma heap_sample1_reachable : sample_reachable heap_sample1.
Proof.
  eapply (heap_next _ _ _ _ heap_sample_op1 _ _ _ (heap_start _ _ _ _)); [|apply surjective_pairing].
  split_and!; [lia|vm_compute; discriminate| |done]. split; [|done]. intros _.
  change (32 + _) with 1048608. change (hl_chunk _) with 0x70000000. split_and!; [lia|vm_compute; discriminate|constructor|]. intros b Hb. apply sample_outside. cbn in Hb. lia.
Qed.
Lemma heap_sample2_reachable : sample_reachable heap_sample2.
Proof.
  eapply (heap_next _ _ _ _ heap_sample_op2 _ _ _ heap_sample1_reachable); [|apply surjective_pairing].
  split_and!; [lia|vm_compute; discriminate|by split|done].
Qed.

(** The blocks of the example, one from the arena of the heap and one of two pages. *)
Lemma heap_blocks_never_overlap_witness :
  map ha_ptr (heap_allocations heap_sample2) = [0x204000; 0x70000160] /\
  (forall i j r q, heap_allocations heap_sample2 !! i = Some r -> heap_allocations heap_sample2 !! j = Some q -> i <> j ->
     extents_apart (guarded_extent r) (guarded_extent q)).
Proof.
  split; [vm_compute; reflexivity|].
  exact (proj1 (heap_blocks_never_overlap heap_sample_source true (fun _ => None) pages_sample heap_sample2 pages_sample_arena heap_sample2_reachable)).
Defined.

(** Releasing the block of two pages, by the map. *)
Lemma heap_refines_map_witness :
  let s' := (heap_exec heap_sample_source true (fun _ => None) (OpKfree 0x204000) heap_sample2).1 in
  contents heap_sample_source s' = delete 0x204000 (contents heap_sample_source heap_sample2) /\
  (contents heap_sample_source heap_sample2 !! 0x204000) = Some (replicate (Z.to_nat 8192) 0).
Proof.
  pose proof (heap_refines_map heap_sample_source true (fun _ => None) pages_sample heap_sample2 pages_sample_arena heap_sample2_reachable) as [_ H].
  split; [exact (H (OpKfree 0x204000) _ _ I (surjective_pairing _))|vm_compute; reflexivity].
Defined.

(** ** Sizes near the largest one, and lost blocks *)

(** The number of pages of a size within a page of the largest one wraps: [kmalloc] of
    2^64 - 1 bytes answers with one page. *)
Lemma kmalloc_size_wraps :
  let '(s, ptr) := kb_kmalloc heap_sample_source true (fun _ => None) UINT64_MAX 0 heap_sample_answers (heap_init pages_sample) in
  ptr = 0x204000 /\ kb_kmalloc_usable_size ptr s = UINT64_MAX /\ live (kb_kvm_page_alloc_state (hp_pages s)) 3 0.
Proof. vm_compute. split_and!; (reflexivity || discriminate || split_and?; try reflexivity; try discriminate). Qed.

(** The rounding of a size within 15 bytes of the largest one wraps as well: the block
    has no bytes at all. *)
Lemma arena_size_wraps :
  let '(s, raw, allocated) := kernel_heap_arena_alloc (UINT64_MAX - 3) 0x70000000 (heap_init pages_sample) in
  raw = 0x70000020 /\ allocated = 0.
Proof. vm_compute. split; reflexivity. Qed.

(** When the record of a block of pages cannot be allocated the block is handed out
    without one, and releasing it does nothing. *)
Lemma kmalloc_without_record_leaks :
  let '(s, ptr) := kb_kmalloc heap_sample_source true (fun _ => None) 4096 0 (mk_heap_allocs 0 0 false) (heap_init pages_sample) in
  ptr = 0x204000 /\ heap_allocations s = [] /\ kb_kfree heap_sample_source ptr s = s.
Proof. vm_compute. split_and!; reflexivity. Qed.
