(* ===== verification/Net.v ===== *)
(** * Network devices (src/src/linux_subsystem/net/net_device.c)

    The table of network devices, socket buffers in two pages of the arena each (the
    kernel structure and the data), transmission of frames through the driver, reception
    through NAPI with the detection of the frame in the buffer, and the ARP and DNS frames
    of the self-test.

    Functions of modules and other parts of the program are fields of [net_env], applied
    to the whole state, which they may change; the frame callback of the host is the list
    of its calls.  Left out are tracing, metrics and the switch of the GS base. *)

From S2P Require Import Prelude Memory DmaMapping PageArena Heap.
Local Open Scope string_scope.
Local Open Scope Z_scope.

Definition KB_NETDEV_TRACKED_MAX : nat := 32.
Definition KB_NETDEV_ADDR_MAX : Z := 32.
Definition KB_RHEL_3_10_NETDEV_OPS_OFFSET : Z := 0x198.
Definition KB_LEGACY_NETDEV_OPS_OFFSET : Z := 0x8.
Definition KB_LINUX_6_8_NETDEV_TX_QUEUE_OFFSET : Z := 0x18.
Definition KB_RHEL_3_10_NETDEV_TX_QUEUE_OFFSET : Z := 0x880.
Definition KB_NETDEV_QUEUE_SIZE : Z := 0x200.
Definition KB_LINUX_6_8_NETDEV_DEV_ADDR_OFFSET : Z := 0x430.
Definition KB_RHEL_3_10_NAPI_STATE_OFFSET : Z := 0x10.
Definition KB_RHEL_3_10_NAPI_POLL_OFFSET : Z := 0x18.
Definition KB_RHEL_3_10_NAPI_WEIGHT_OFFSET : Z := 0x20.
Definition KB_NAPI_STATE_SCHED : Z := 0.
Definition KB_RHEL_3_10_SKB_HEADROOM : Z := 256.
Definition KB_RHEL_3_10_SKB_SIZE : Z := 512.
Definition KB_RHEL_3_10_SKB_HEAD_OFFSET : Z := 0xe0.
Definition KB_RHEL_3_10_SKB_DATA_OFFSET : Z := 0xe8.
Definition KB_RHEL_3_10_SKB_TAIL_OFFSET : Z := 0xf0.
Definition KB_RHEL_3_10_SKB_END_OFFSET : Z := 0xf4.
Definition KB_RHEL_3_10_SKB_LEN_OFFSET : Z := 0x68.
Definition KB_RHEL_3_10_SKB_DATA_LEN_OFFSET : Z := 0x6c.
Definition KB_RHEL_3_10_SKB_QUEUE_MAPPING_OFFSET : Z := 0xa8.
Definition KB_RHEL_3_10_SKB_IP_SUMMED_OFFSET : Z := 0xab.
Definition KB_RHEL_3_10_SKB_END_POINTER_OFFSET : Z := 0xdc.
Definition KB_RHEL_3_10_SG_PAGE_LINK_OFFSET : Z := 0x0.
Definition KB_RHEL_3_10_SG_OFFSET_OFFSET : Z := 0x8.
Definition KB_RHEL_3_10_SG_LENGTH_OFFSET : Z := 0xc.
Definition KB_RHEL_3_10_SKB_SHARED_INFO_NR_FRAGS_OFFSET : Z := 0x0.
Definition KB_RHEL_3_10_SKB_SHARED_INFO_FRAGS_OFFSET : Z := 0x30.
Definition KB_RHEL_3_10_SKB_FRAG_SIZE : Z := 0x10.
Definition KB_RHEL_3_10_SKB_FRAG_PAGE_OFFSET : Z := 0x0.
Definition KB_RHEL_3_10_SKB_FRAG_PAGE_OFFSET_OFFSET : Z := 0x8.
Definition KB_RHEL_3_10_SKB_FRAG_SIZE_OFFSET : Z := 0xc.
Definition KB_LINUX_6_8_SKB_DEV_OFFSET : Z := 0x10.
Definition KB_LINUX_6_8_SKB_LEN_OFFSET : Z := 0x70.
Definition KB_LINUX_6_8_SKB_DATA_LEN_OFFSET : Z := 0x74.
Definition KB_LINUX_6_8_SKB_QUEUE_MAPPING_OFFSET : Z := 0x7c.
Definition KB_LINUX_6_8_SKB_MAC_HEADER_OFFSET : Z := 0xba.
Definition KB_LINUX_6_8_SKB_TAIL_OFFSET : Z := 0xbc.
Definition KB_LINUX_6_8_SKB_END_OFFSET : Z := 0xc0.
Definition KB_LINUX_6_8_SKB_HEAD_OFFSET : Z := 0xc8.
Definition KB_LINUX_6_8_SKB_DATA_OFFSET : Z := 0xd0.

(** ** State *)

Record kb_netdev_record := mk_netdev {
  nd_dev : Z;
  nd_backend : Z;
  nd_size : Z;
  nd_tx_queues : Z;
  nd_txq_count : Z;
  nd_rxq_count : Z;
  nd_dev_addr : list Z;
  nd_registered : bool;
  nd_opened : bool;
  nd_carrier_on : bool;
  nd_smoke_done : bool;
  nd_internet_arp_reply_pending : bool;
  nd_internet_arp_reply_sent : bool;
  nd_internet_arp_request_seen : bool;
  nd_internet_arp_peer_mac : list Z;
  nd_internet_arp_peer_ip : list Z;
}.
#[export] Instance netdev_eta : Settable kb_netdev_record := fun r =>
  mk_netdev (nd_dev r) (nd_backend r) (nd_size r) (nd_tx_queues r) (nd_txq_count r) (nd_rxq_count r) (nd_dev_addr r) (nd_registered r)
    (nd_opened r) (nd_carrier_on r) (nd_smoke_done r) (nd_internet_arp_reply_pending r) (nd_internet_arp_reply_sent r)
    (nd_internet_arp_request_seen r) (nd_internet_arp_peer_mac r) (nd_internet_arp_peer_ip r).
Definition free_netdev : kb_netdev_record :=
  mk_netdev 0 0 0 0 0 0 (replicate 32 0) false false false false false false false (replicate 6 0) (replicate 4 0).

Record kb_skb_record := mk_skb {
  sk_skb : Z;
  sk_page : Z;
  sk_payload : Z;
  sk_dma_handle : Z;
  sk_dma_size : Z;
  sk_capacity : Z;
}.

Record kb_napi_record := mk_napi {
  np_dev : Z;
  np_napi : Z;
  np_poll : Z;
  np_weight : Z;
  np_poll_count : Z;
  np_rx_count : Z;
}.
#[export] Instance napi_eta : Settable kb_napi_record := fun r =>
  mk_napi (np_dev r) (np_napi r) (np_poll r) (np_weight r) (np_poll_count r) (np_rx_count r).

Record net_state := mk_net_state {
  netdev_records : list kb_netdev_record;
  skb_records : list kb_skb_record;
  napi_records : list kb_napi_record;
  rx_frame_callback : Z;
  rx_frame_callback_ctx : Z;
  nt_received : list (Z * Z * list Z);      (* calls of the callback: context, device, frame *)
  nt_backend : Z;                           (* the current device backend *)
  nt_pages : page_state;
}.
#[export] Instance net_eta : Settable net_state := fun s =>
  mk_net_state (netdev_records s) (skb_records s) (napi_records s) (rx_frame_callback s) (rx_frame_callback_ctx s) (nt_received s)
    (nt_backend s) (nt_pages s).
Definition net_state_init (p : page_state) : net_state := mk_net_state (replicate KB_NETDEV_TRACKED_MAX free_netdev) [] [] 0 0 [] 0 p.

(** What the subsystem calls; [ne_record] says whether a record can be allocated. *)
Record net_env := mk_net_env {
  ne_get_ops : Z -> option kb_device_backend_ops;
  ne_regions : list Z;
  ne_arena : arena_allocs;
  ne_zalloc : bool;
  ne_getenv : string -> option string;
  ne_record : net_state -> bool;
  ne_dev_addr_at : nat -> Z;                (* the address of a dev_addr array *)
  ne_call : Z -> Z -> net_state -> net_state * Z;        (* a function of a module with one argument *)
  ne_call2 : Z -> Z -> Z -> net_state -> net_state * Z;  (* and with two *)
  ne_msleep : Z -> net_state -> net_state;
  ne_run_deferred_work : net_state -> net_state;
  ne_handle_any_irq : net_state -> net_state;
  ne_bar0 : net_state -> option (Z * Z);    (* address and size of the first BAR *)
  ne_bar_write32 : Z -> Z -> net_state -> net_state;
}.

Definition nt_mem (s : net_state) : mem := pa_mem (nt_pages s).
Definition with_mem (f : mem -> mem) (s : net_state) : net_state := s <| nt_pages ::= fun p => p <| pa_mem ::= f |> |>.
Definition with_netdev (i : nat) (f : kb_netdev_record -> kb_netdev_record) (s : net_state) : net_state := s <| netdev_records ::= alter f i |>.
Definition with_napi (napi : Z) (f : kb_napi_record -> kb_napi_record) (s : net_state) : net_state :=
  s <| napi_records ::= map (fun r => if np_napi r =? napi then f r else r) |>.
Definition set_backend (b : Z) (s : net_state) : net_state := s <| nt_backend := b |>.
Definition netdev_at (i : nat) (s : net_state) : kb_netdev_record := default free_netdev (netdev_records s !! i).

(** ** Memory *)

Definition read_ptr_at (m : mem) (base size offset : Z) : Z :=
  if negb (base =? 0) && (offset + 8 <=? size) then mload64 m (base + offset) else 0.
Definition read_be16 (m : mem) (a : Z) : Z := Z.lor (Z.shiftl (mem_byte m a) 8) (mem_byte m (a + 1)).

(** ** The table of devices *)

Definition find_netdev_record (dev : Z) (s : net_state) : option nat :=
  if dev =? 0 then None else fst <$> list_find (fun r => nd_dev r = dev) (netdev_records s).

Definition track_netdev (dev size txqs rxqs : Z) (s : net_state) : net_state :=
  if dev =? 0 then s
  else
    match list_find (fun r => nd_dev r = 0) (netdev_records s) with
    | Some (i, _) =>
        with_netdev i (fun r => r <| nd_dev := dev |> <| nd_backend := nt_backend s |> <| nd_size := size |> <| nd_txq_count := txqs |>
                                  <| nd_rxq_count := rxqs |>) s
    | None => s
    end.

Definition untrack_netdev (dev : Z) (s : net_state) : net_state :=
  match find_netdev_record dev s with Some i => with_netdev i (fun _ => free_netdev) s | None => s end.

Definition record_netdev_ops (r : kb_netdev_record) (m : mem) : Z :=
  let ops := read_ptr_at m (nd_dev r) (nd_size r) KB_RHEL_3_10_NETDEV_OPS_OFFSET in
  if negb (ops =? 0) then ops else read_ptr_at m (nd_dev r) (nd_size r) KB_LEGACY_NETDEV_OPS_OFFSET.

(** A function of the operations of a device. *)
Definition netdev_op (r : kb_netdev_record) (m : mem) (offset : Z) : Z :=
  let ops := record_netdev_ops r m in read_ptr_at m ops (if ops =? 0 then 0 else 4096) offset.
Definition record_ndo_start_xmit (r : option kb_netdev_record) (m : mem) : Z :=
  match r with Some r => netdev_op r m (8 * 4) | None => 0 end.

Definition first_opened_netdev_record (s : net_state) : option nat :=
  fst <$> list_find (fun r => nd_dev r <> 0 /\ nd_registered r = true /\ nd_opened r = true) (netdev_records s).

Definition default_mac : list Z := [0x52; 0x54; 0x00; 0x12; 0x34; 0x56].

Definition kb_net_device_set_carrier (dev : Z) (carrier_on : bool) (s : net_state) : net_state :=
  match find_netdev_record dev s with Some i => with_netdev i (fun r => r <| nd_carrier_on := carrier_on |>) s | None => s end.

(** [addr]: the bytes at the address that was passed. *)
Definition kb_net_device_addr_mod (dev offset : Z) (addr : option (list Z)) (s : net_state) : net_state :=
  match find_netdev_record dev s, addr with
  | Some i, Some q =>
      if (offset <? KB_NETDEV_ADDR_MAX) && (blen q <=? KB_NETDEV_ADDR_MAX - offset)
      then with_netdev i (fun r => r <| nd_dev_addr ::= fun l => splice l offset q |>) s else s
  | _, _ => s
  end.

Definition kb_net_device_set_rx_frame_callback (callback ctx : Z) (s : net_state) : net_state :=
  s <| rx_frame_callback := callback |> <| rx_frame_callback_ctx := ctx |>.

(** ** Pages of the arena *)

Section net.
Context (e : net_env).
Implicit Types s : net_state.

Definition payload_for_kvm_page (page : Z) (p : page_state) : page_state * Z :=
  let '(p, vmemmap) := kb_linux_kvm_vmemmap_base (ne_arena e) p in
  let '(p, page_offset_base) := kb_linux_kvm_page_offset_base (ne_arena e) p in
  if (page =? 0) || (vmemmap =? 0) || (page_offset_base =? 0) || (page <? vmemmap) then (p, 0)
  else (p, u64 (page_offset_base + (page - vmemmap) / KB_KVM_STRUCT_PAGE_SIZE * KB_KVM_PAGE_SIZE)).

Definition dma_addr_for_kvm_page (page : Z) (p : page_state) : page_state * Z :=
  let '(p, vmemmap) := kb_linux_kvm_vmemmap_base (ne_arena e) p in
  if (page =? 0) || (vmemmap =? 0) || (page <? vmemmap) then (p, 0)
  else (p, (page - vmemmap) / KB_KVM_STRUCT_PAGE_SIZE * KB_KVM_PAGE_SIZE).

(** ** Switches *)

Definition env_on (name : string) : bool := match ne_getenv e name with Some v => negb (v =? "")%string && negb (v =? "0")%string | None => false end.
Definition auto_open_enabled : bool := env_on "KOBOX_NET_AUTO_OPEN".
Definition tx_smoke_enabled : bool := env_on "KOBOX_NET_TX_SMOKE".
Definition tx_smoke_wants_udp : bool :=
  match ne_getenv e "KOBOX_NET_TX_SMOKE" with Some v => (v =? "udp")%string || (v =? "both")%string || (v =? "internet")%string | None => false end.
Definition tx_smoke_wants_arp : bool :=
  match ne_getenv e "KOBOX_NET_TX_SMOKE" with
  | Some v => (v =? "")%string || (v =? "1")%string || (v =? "arp")%string || (v =? "both")%string
  | None => true
  end.
Definition rx_poll_smoke_enabled : bool :=
  match ne_getenv e "KOBOX_NET_RX_POLL_SMOKE" with Some v => (v =? "")%string || negb (v =? "0")%string | None => true end.

(** ** Allocation, registration and opening of devices *)

(** [dev], [tx_queues]: the two answers of calloc. *)
Definition kb_net_device_alloc (sizeof_priv setup txqs rxqs dev tx_queues : Z) s : net_state * Z :=
  let size := if sizeof_priv <? 0 then 65536 else sizeof_priv + 65536 in
  let queue_count := if txqs =? 0 then 1 else txqs in
  let s := if dev =? 0 then s else with_mem (fun m => mclear m dev size) s in
  let s := if tx_queues =? 0 then s else with_mem (fun m => mclear m tx_queues (queue_count * KB_NETDEV_QUEUE_SIZE)) s in
  let s := track_netdev dev size txqs rxqs s in
  let s :=
    match find_netdev_record dev s with
    | Some i =>
        let s := with_netdev i (fun r => r <| nd_tx_queues := tx_queues |> <| nd_dev_addr ::= fun l => splice l 0 default_mac |>) s in
        if KB_LINUX_6_8_NETDEV_DEV_ADDR_OFFSET + 8 <=? size
        then with_mem (fun m => mstore64 m (dev + KB_LINUX_6_8_NETDEV_DEV_ADDR_OFFSET) (ne_dev_addr_at e i)) s else s
    | None => s
    end in
  let queue_pointer offset s :=
    if negb (dev =? 0) && negb (tx_queues =? 0) && (offset + 8 <=? size) then with_mem (fun m => mstore64 m (dev + offset) tx_queues) s else s in
  let s := queue_pointer KB_RHEL_3_10_NETDEV_TX_QUEUE_OFFSET s in
  let s := queue_pointer KB_LINUX_6_8_NETDEV_TX_QUEUE_OFFSET s in
  (if negb (dev =? 0) && negb (setup =? 0) then (ne_call e setup dev s).1 else s, dev).

Definition kb_net_device_free (dev : Z) s : net_state := untrack_netdev dev s.

Definition kb_net_device_ops (dev : Z) s : Z :=
  match find_netdev_record dev s with Some i => record_netdev_ops (netdev_at i s) (nt_mem s) | None => 0 end.

Definition kb_net_device_open (dev : Z) s : net_state * Z :=
  match find_netdev_record dev s with
  | None => (s, 0)
  | Some i =>
      let ndo_open := netdev_op (netdev_at i s) (nt_mem s) (8 * 2) in
      if ndo_open =? 0 then (with_netdev i (fun r => r <| nd_opened := true |>) s, 0)
      else
        let '(s, result) := ne_call e ndo_open dev s in
        (if result =? 0 then with_netdev i (fun r => r <| nd_opened := true |>) s else s, result)
  end.

Definition kb_net_device_register (dev : Z) s : net_state * Z :=
  match find_netdev_record dev s with
  | None => (s, 0)
  | Some i =>
      let ndo_init := netdev_op (netdev_at i s) (nt_mem s) 0 in
      let '(s, result) := if ndo_init =? 0 then (s, 0) else ne_call e ndo_init dev s in
      if result <? 0 then (s, result)
      else
        let s := with_netdev i (fun r => r <| nd_registered := true |>) s in
        if auto_open_enabled then kb_net_device_open dev s else (s, 0)
  end.

(** ** Socket buffers *)

Definition find_skb_record (skb : Z) s : option kb_skb_record := snd <$> list_find (fun r => sk_skb r = skb) (skb_records s).

Definition kb_net_device_consume_skb (skb : Z) s : net_state :=
  match list_find (fun r => sk_skb r = skb) (skb_records s) with
  | Some (i, r) =>
      s <| skb_records ::= delete i |>
        <| nt_pages ::= fun p => (kb_kvm_release_pages (ne_arena e) (sk_page r) 0 (kb_kvm_free_pages_exact (ne_arena e) (sk_skb r) KB_KVM_PAGE_SIZE p)).1 |>
  | None => s
  end.

(** The fields of a new buffer, in the order of the code. *)
Definition init_skb (skb payload dev capacity : Z) (m : mem) : mem :=
  let m := mclear m skb KB_RHEL_3_10_SKB_SIZE in
  let m := mclear m payload KB_KVM_PAGE_SIZE in
  let data := u64 (payload + KB_RHEL_3_10_SKB_HEADROOM) in
  let m := mstore64 m (skb + KB_RHEL_3_10_SKB_HEAD_OFFSET) payload in
  let m := mstore64 m (skb + KB_RHEL_3_10_SKB_DATA_OFFSET) data in
  let m := mstore32 m (skb + KB_RHEL_3_10_SKB_END_POINTER_OFFSET) capacity in
  let m := mstore32 m (skb + KB_RHEL_3_10_SKB_TAIL_OFFSET) KB_RHEL_3_10_SKB_HEADROOM in
  let m := mstore32 m (skb + KB_RHEL_3_10_SKB_END_OFFSET) capacity in
  let m := mstore32 m (skb + KB_RHEL_3_10_SKB_LEN_OFFSET) 0 in
  let m := mstore32 m (skb + KB_RHEL_3_10_SKB_DATA_LEN_OFFSET) 0 in
  let m := mstore16 m (skb + KB_RHEL_3_10_SKB_QUEUE_MAPPING_OFFSET) 0 in
  let m := mstore m (skb + KB_RHEL_3_10_SKB_IP_SUMMED_OFFSET) [0] in
  let m := mstore64 m (skb + KB_LINUX_6_8_SKB_DEV_OFFSET) dev in
  let m := mstore32 m (skb + KB_LINUX_6_8_SKB_LEN_OFFSET) 0 in
  let m := mstore32 m (skb + KB_LINUX_6_8_SKB_DATA_LEN_OFFSET) 0 in
  let m := mstore16 m (skb + KB_LINUX_6_8_SKB_QUEUE_MAPPING_OFFSET) 0 in
  let m := mstore16 m (skb + KB_LINUX_6_8_SKB_MAC_HEADER_OFFSET) 0 in
  let m := mstore32 m (skb + KB_LINUX_6_8_SKB_TAIL_OFFSET) KB_RHEL_3_10_SKB_HEADROOM in
  let m := mstore32 m (skb + KB_LINUX_6_8_SKB_END_OFFSET) capacity in
  let m := mstore64 m (skb + KB_LINUX_6_8_SKB_HEAD_OFFSET) payload in
  mstore64 m (skb + KB_LINUX_6_8_SKB_DATA_OFFSET) data.

Definition kb_netdev_alloc_skb (dev length : Z) s : net_state * Z :=
  let capacity := u32 (length + KB_RHEL_3_10_SKB_HEADROOM) in
  if KB_KVM_PAGE_SIZE <? capacity then (s, 0)
  else
    let '(p, skb) := kb_alloc_pages_exact (ne_get_ops e) (ne_regions e) (ne_arena e) (nt_backend s) (ne_zalloc e) KB_KVM_PAGE_SIZE (nt_pages s) in
    let '(p, page) := kb_kvm_alloc_pages_stub (ne_get_ops e) (ne_regions e) (ne_arena e) (nt_backend s) (ne_zalloc e) 0 p in
    let '(p, payload) := payload_for_kvm_page page p in
    let '(p, dma_handle) := dma_addr_for_kvm_page page p in
    let give_back p :=
      let p := if skb =? 0 then p else kb_kvm_free_pages_exact (ne_arena e) skb KB_KVM_PAGE_SIZE p in
      if page =? 0 then p else (kb_kvm_release_pages (ne_arena e) page 0 p).1 in
    if (skb =? 0) || (page =? 0) || (payload =? 0) then (s <| nt_pages := give_back p |>, 0)
    else
      let p := p <| pa_mem ::= init_skb skb payload dev capacity |> in
      if ne_record e (s <| nt_pages := p |>)
      then (s <| nt_pages := p |> <| skb_records ::= cons (mk_skb skb page payload dma_handle KB_KVM_PAGE_SIZE capacity) |>, skb)
      else (s <| nt_pages := give_back p |>, 0).

Definition kb_alloc_skb (length : Z) s : net_state * Z := kb_netdev_alloc_skb 0 length s.

Definition kb_skb_put (skb len : Z) s : net_state * Z :=
  match find_skb_record skb s with
  | None => (s, skb)
  | Some r =>
      let m := nt_mem s in
      let data := read_ptr_at m skb KB_RHEL_3_10_SKB_SIZE KB_RHEL_3_10_SKB_DATA_OFFSET in
      let tail := mload32 m (skb + KB_RHEL_3_10_SKB_TAIL_OFFSET) in
      let old_len := mload32 m (skb + KB_RHEL_3_10_SKB_LEN_OFFSET) in
      if (data =? 0) || (sk_capacity r <? u32 (tail + len)) then (s, 0)
      else
        (with_mem (fun m =>
           let m := mstore32 m (skb + KB_RHEL_3_10_SKB_TAIL_OFFSET) (u32 (tail + len)) in
           let m := mstore32 m (skb + KB_RHEL_3_10_SKB_LEN_OFFSET) (u32 (old_len + len)) in
           let m := mstore32 m (skb + KB_LINUX_6_8_SKB_TAIL_OFFSET) (u32 (tail + len)) in
           mstore32 m (skb + KB_LINUX_6_8_SKB_LEN_OFFSET) (u32 (old_len + len))) s,
         u64 (sk_payload r + tail))
  end.

Definition kb_pskb_pull_tail (skb : Z) s : Z :=
  match find_skb_record skb s with
  | Some _ => read_ptr_at (nt_mem s) skb KB_RHEL_3_10_SKB_SIZE KB_RHEL_3_10_SKB_DATA_OFFSET
  | None => 0
  end.

Definition kb_skb_copy_bits (skb offset to len : Z) s : net_state * Z :=
  match find_skb_record skb s with
  | None => (s, -22)
  | Some r =>
      if (to =? 0) || (offset <? 0) || (len <? 0) then (s, -22)
      else
        let data := read_ptr_at (nt_mem s) skb KB_RHEL_3_10_SKB_SIZE KB_RHEL_3_10_SKB_DATA_OFFSET in
        let skb_len := mload32 (nt_mem s) (skb + KB_RHEL_3_10_SKB_LEN_OFFSET) in
        if (data =? 0) || (data <? sk_payload r) || (skb_len <? offset) then (s, -22)
        else
          let data_offset := data - sk_payload r in
          if (skb_len - offset <? len) || (sk_capacity r <? u64 (data_offset + offset + len)) then (s, -22)
          else (with_mem (fun m => mstore m to (mload m (sk_payload r + data_offset + offset) (Z.to_nat len))) s, 0)
  end.

Definition kb_skb_to_sgvec (skb sg offset len : Z) s : net_state * Z :=
  match find_skb_record skb s with
  | None => (s, 0)
  | Some r =>
      if (sg =? 0) || (len <? 0) || (offset <? 0) then (s, 0)
      else
        let data := read_ptr_at (nt_mem s) skb KB_RHEL_3_10_SKB_SIZE KB_RHEL_3_10_SKB_DATA_OFFSET in
        if data =? 0 then (s, 0)
        else
          let data_offset := u64 (data - sk_payload r + offset) in
          if sk_capacity r <=? data_offset then (s, 0)
          else
            let available := u32 (sk_capacity r - data_offset) in
            let length := if len <? available then len else available in
            let page := u64 (sk_page r + data_offset / KB_KVM_PAGE_SIZE * KB_KVM_STRUCT_PAGE_SIZE) in
            (with_mem (fun m =>
               let m := mclear m sg 32 in
               let m := mstore64 m (sg + KB_RHEL_3_10_SG_PAGE_LINK_OFFSET) (Z.lor page 2) in
               let m := mstore32 m (sg + KB_RHEL_3_10_SG_OFFSET_OFFSET) (data_offset mod KB_KVM_PAGE_SIZE) in
               mstore32 m (sg + KB_RHEL_3_10_SG_LENGTH_OFFSET) length) s,
             if length =? 0 then 0 else 1)
  end.

(** ** Frames *)

Definition write_be16 (frame : list Z) (at_ value : Z) : list Z := splice frame at_ [u8 (Z.shiftr value 8); u8 value].

(** The words of the data, the last one padded, summed in 32 bits; then the carries. *)
Fixpoint sum_words (data : list Z) (sum : Z) : Z :=
  match data with
  | a :: b :: data => sum_words data (u32 (sum + Z.lor (Z.shiftl a 8) b))
  | [a] => u32 (sum + Z.shiftl a 8)
  | [] => sum
  end.
(** Two rounds leave no carry of a sum of 32 bits. *)
Fixpoint fold_carries (rounds : nat) (sum : Z) : Z :=
  match rounds with
  | O => sum
  | S rounds => if Z.shiftr sum 16 =? 0 then sum else fold_carries rounds (Z.land sum 0xffff + Z.shiftr sum 16)
  end.
Definition internet_checksum (data : list Z) : Z := u16 (Z.lnot (fold_carries 3 (sum_words data 0))).

Definition source_ip : list Z := [10; 0; 2; 15].

(** The frame and its length, 0 if the buffer is too small. *)
Definition build_arp_reply_frame (frame_capacity : Z) (target_mac target_ip : list Z) : list Z * Z :=
  let frame_len := 60 in
  if frame_capacity <? frame_len then ([], 0)
  else
    let frame := replicate (Z.to_nat frame_capacity) 0 in
    let frame := splice frame 0 target_mac in
    let frame := splice frame 6 default_mac in
    let frame := write_be16 frame 12 0x0806 in
    let frame := write_be16 frame 14 0x0001 in
    let frame := write_be16 frame 16 0x0800 in
    let frame := splice frame 18 [6] in
    let frame := splice frame 19 [4] in
    let frame := write_be16 frame 20 0x0002 in
    let frame := splice frame 22 default_mac in
    let frame := splice frame 28 source_ip in
    let frame := splice frame 32 target_mac in
    let frame := splice frame 38 target_ip in
    (frame, frame_len).

Definition gateway_mac : list Z := [0x52; 0x55; 0x0a; 0x00; 0x02; 0x02].
Definition dest_ip : list Z := [10; 0; 2; 3].
Definition dns_query : list Z :=
  [0x4b; 0x42; 0x01; 0x00; 0x00; 0x01; 0x00; 0x00; 0x00; 0x00; 0x00; 0x00;
   0x07; 0x65; 0x78; 0x61; 0x6d; 0x70; 0x6c; 0x65; 0x03; 0x63; 0x6f; 0x6d; 0x00; 0x00; 0x01; 0x00; 0x01].

Definition build_udp_internet_smoke_frame (frame_capacity : Z) : list Z * Z :=
  let ip_header_len := 20 in
  let udp_len := 8 + blen dns_query in
  let ip_total_len := ip_header_len + udp_len in
  let frame_len := 14 + ip_total_len in
  if frame_capacity <? frame_len then ([], 0)
  else
    let frame := replicate (Z.to_nat frame_capacity) 0 in
    let frame := splice frame 0 gateway_mac in
    let frame := splice frame 6 default_mac in
    let frame := write_be16 frame 12 0x0800 in
    let ip := 14 in
    let frame := splice frame ip [0x45; 0x00] in
    let frame := write_be16 frame (ip + 2) ip_total_len in
    let frame := write_be16 frame (ip + 4) 0x4242 in
    let frame := write_be16 frame (ip + 6) 0x4000 in
    let frame := splice frame (ip + 8) [64; 17] in
    let frame := splice frame (ip + 12) source_ip in
    let frame := splice frame (ip + 16) dest_ip in
    let frame := write_be16 frame (ip + 10) (internet_checksum (slice frame ip ip_header_len)) in
    let udp := ip + ip_header_len in
    let frame := write_be16 frame (udp + 0) 49152 in
    let frame := write_be16 frame (udp + 2) 53 in
    let frame := write_be16 frame (udp + 4) udp_len in
    let frame := write_be16 frame (udp + 6) 0 in
    (splice frame (udp + 8) dns_query, frame_len).

(** ** Transmission *)

Definition read_bar_u32 (bar bar_size offset : Z) (m : mem) : Z := if bar_size <? offset + 4 then 0 else mload32 m (bar + offset).

(** Registers of the e1000e, and the bits that are set in the value written back. *)
Definition KB_E1000_TCTL_EN : Z := 0x00000002.
Definition KB_E1000_TXDCTL_QUEUE_ENABLE : Z := 0x02000000.
Definition e1000e_registers : list (Z * Z) :=
  [(0x0000, 0); (0x0400, KB_E1000_TCTL_EN); (0x0410, 0);
   (0x3800, 0); (0x3804, 0); (0x3808, 0); (0x3810, 0); (0x3828, KB_E1000_TXDCTL_QUEUE_ENABLE); (0x3840, 0); (0x3818, 0);
   (0xe000, 0); (0xe004, 0); (0xe008, 0); (0xe010, 0); (0xe028, KB_E1000_TXDCTL_QUEUE_ENABLE); (0xe040, 0); (0xe018, 0)].

Definition sync_bar_u32_value (bar_size offset value : Z) s : net_state :=
  if bar_size <? offset + 4 then s else ne_bar_write32 e offset value s.
Definition sync_bar_u32_shadow (bar bar_size offset : Z) s : net_state :=
  if bar_size <? offset + 4 then s else ne_bar_write32 e offset (read_bar_u32 bar bar_size offset (nt_mem s)) s.

Definition sync_e1000e_tx_shadow s : net_state :=
  match ne_getenv e "KOBOX_NET_DRIVER" with
  | Some driver =>
      if negb (driver =? "e1000e")%string then s
      else
        match ne_bar0 e s with
        | None => s
        | Some (bar, bar_size) =>
            if bar =? 0 then s
            else
              foldl (fun s r =>
                if r.2 =? 0 then sync_bar_u32_shadow bar bar_size r.1 s
                else sync_bar_u32_value bar_size r.1 (Z.lor (read_bar_u32 bar bar_size r.1 (nt_mem s)) r.2) s) s e1000e_registers
        end
  | None => s
  end.

(** [frame]: the bytes at the address and of the length that were passed. *)
Definition xmit_raw_frame (dev xmit_ptr : Z) (frame : option (list Z)) s : net_state * Z :=
  match frame with
  | None => (s, -22)
  | Some frame =>
      let frame_len := blen frame in
      if (dev =? 0) || (xmit_ptr =? 0) || (frame_len =? 0) || (UINT32_MAX <? frame_len) then (s, -22)
      else
        match (i ← find_netdev_record dev s; netdev_records s !! i) with
        | None => (s, -19)
        | Some record =>
            if nd_backend record =? 0 then (s, -19)
            else
              let old_backend := nt_backend s in
              let s := set_backend (nd_backend record) s in
              let '(s, skb) := kb_netdev_alloc_skb dev frame_len s in
              let '(s, payload) := kb_skb_put skb frame_len s in
              if payload =? 0 then (set_backend old_backend (kb_net_device_consume_skb skb s), -12)
              else
                let s := with_mem (fun m => mstore m payload frame) s in
                let '(s, result) := ne_call2 e xmit_ptr skb dev s in
                let s := sync_e1000e_tx_shadow s in
                let s := if result =? 0 then s else kb_net_device_consume_skb skb s in
                (set_backend old_backend s, result)
        end
  end.

Definition kb_net_device_tx_frame (frame : option (list Z)) s : net_state * Z :=
  match first_opened_netdev_record s with
  | None => (s, -19)
  | Some i =>
      let record := netdev_at i s in
      let xmit_ptr := record_ndo_start_xmit (Some record) (nt_mem s) in
      if xmit_ptr =? 0 then (s, -19) else xmit_raw_frame (nd_dev record) xmit_ptr frame s
  end.

(** ** Reception *)

(** Address and length of the packet, if there is one. *)
Definition skb_packet_bytes (skb : Z) s : option (Z * Z) :=
  match find_skb_record skb s with
  | None => None
  | Some r =>
      let data := read_ptr_at (nt_mem s) skb KB_RHEL_3_10_SKB_SIZE KB_RHEL_3_10_SKB_DATA_OFFSET in
      let len := mload32 (nt_mem s) (skb + KB_RHEL_3_10_SKB_LEN_OFFSET) in
      if (data =? 0) || (data <? sk_payload r) then None
      else
        let offset := data - sk_payload r in
        if sk_capacity r <=? offset then None
        else Some (data, Z.min len (sk_capacity r - offset))
  end.

(** The first fragment of a buffer: its descriptor, if it has one. *)
Definition first_frag (skb : Z) s : option Z :=
  if skb =? 0 then None
  else
    let head := read_ptr_at (nt_mem s) skb KB_RHEL_3_10_SKB_SIZE KB_RHEL_3_10_SKB_HEAD_OFFSET in
    let end_ := mload32 (nt_mem s) (skb + KB_RHEL_3_10_SKB_END_POINTER_OFFSET) in
    if (head =? 0) || (KB_KVM_PAGE_SIZE - KB_RHEL_3_10_SKB_SHARED_INFO_FRAGS_OFFSET <? end_) then None
    else
      let shinfo := head + end_ in
      if mem_byte (nt_mem s) (shinfo + KB_RHEL_3_10_SKB_SHARED_INFO_NR_FRAGS_OFFSET) =? 0 then None
      else Some (shinfo + KB_RHEL_3_10_SKB_SHARED_INFO_FRAGS_OFFSET).

(** The memory of the page of a fragment. *)
Definition frag_payload (frag : Z) s : net_state * Z :=
  let page := read_ptr_at (nt_mem s) frag KB_RHEL_3_10_SKB_FRAG_SIZE KB_RHEL_3_10_SKB_FRAG_PAGE_OFFSET in
  let '(p, payload) := payload_for_kvm_page (Z.ldiff page 0x3f) (nt_pages s) in
  (s <| nt_pages := p |>, payload).

Definition skb_first_frag_bytes (skb : Z) s : net_state * option (Z * Z) :=
  match first_frag skb s with
  | None => (s, None)
  | Some frag =>
      let page_offset := mload32 (nt_mem s) (frag + KB_RHEL_3_10_SKB_FRAG_PAGE_OFFSET_OFFSET) in
      let size := mload32 (nt_mem s) (frag + KB_RHEL_3_10_SKB_FRAG_SIZE_OFFSET) in
      let '(s, payload) := frag_payload frag s in
      (s, if (payload =? 0) || (KB_KVM_PAGE_SIZE <=? page_offset) then None
          else Some (payload + page_offset, Z.min size (KB_KVM_PAGE_SIZE - page_offset)))
  end.

(** The first offset of the [len] bytes at which a frame with a known type could start. *)
Definition l2_offset_from (m : mem) (base len : Z) : option Z :=
  snd <$> list_find (fun offset => read_be16 m (base + offset + 12) = 0x0800 \/ read_be16 m (base + offset + 12) = 0x0806) (seqZ 0 (len - 13)).

Definition frag_frame_len (m : mem) (payload offset : Z) : Z :=
  let ethertype := read_be16 m (payload + offset + 12) in
  let frame_len := KB_KVM_PAGE_SIZE - offset in
  if (ethertype =? 0x0806) && (42 <? frame_len) then 42
  else if (ethertype =? 0x0800) && (34 <=? frame_len) then
    let ip_total := read_be16 m (payload + offset + 16) in
    if (20 <=? ip_total) && (14 + ip_total <? frame_len) then 14 + ip_total else frame_len
  else frame_len.

Definition find_l2_frame_in_first_frag_page (skb : Z) s : net_state * option (Z * Z) :=
  match first_frag skb s with
  | None => (s, None)
  | Some frag =>
      let '(s, payload) := frag_payload frag s in
      (s, if payload =? 0 then None
          else (fun offset => (payload + offset, frag_frame_len (nt_mem s) payload offset)) <$> l2_offset_from (nt_mem s) payload KB_KVM_PAGE_SIZE)
  end.

Definition find_l2_frame_in_skb (skb : Z) s : net_state * option (Z * Z) :=
  match find_skb_record skb s with
  | None => (s, None)
  | Some r =>
      if (sk_payload r =? 0) || (sk_capacity r <? 14) then (s, None)
      else
        match l2_offset_from (nt_mem s) (sk_payload r) (sk_capacity r) with
        | Some offset => (s, Some (sk_payload r + offset, sk_capacity r - offset))
        | None =>
            let '(s, frag) := skb_first_frag_bytes skb s in
            match frag with
            | Some (a, len) =>
                if 14 <=? len then
                  match l2_offset_from (nt_mem s) a len with
                  | Some offset => (s, Some (a + offset, len - offset))
                  | None => find_l2_frame_in_first_frag_page skb s
                  end
                else find_l2_frame_in_first_frag_page skb s
            | None => find_l2_frame_in_first_frag_page skb s
            end
        end
  end.

Definition observe_arp_request (record : option nat) (packet len : Z) s : net_state :=
  let m := nt_mem s in
  match record with
  | None => s
  | Some i =>
      if (len <? 42) || negb (read_be16 m (packet + 12) =? 0x0806) then s
      else if negb (read_be16 m (packet + 14) =? 0x0001) || negb (read_be16 m (packet + 16) =? 0x0800) ||
              negb (mem_byte m (packet + 18) =? 6) || negb (mem_byte m (packet + 19) =? 4) ||
              negb (read_be16 m (packet + 20) =? 0x0001) || negb (bool_decide (mload m (packet + 38) 4 = source_ip)) then s
      else with_netdev i (fun r => r <| nd_internet_arp_peer_mac := mload m (packet + 22) 6 |> <| nd_internet_arp_peer_ip := mload m (packet + 28) 4 |>
                                     <| nd_internet_arp_request_seen := true |>) s
  end.

(** Where the frame of a received buffer starts, and its length. *)
Definition received_frame (skb : Z) s : net_state * option (Z * Z) :=
  let packet := skb_packet_bytes skb s in
  let weak := match packet with Some (a, len) => (len <? 14) || (read_be16 (nt_mem s) (a + 12) =? 0) | None => true end in
  let '(s, scanned) := if weak then find_l2_frame_in_skb skb s else (s, None) in
  match (match scanned with Some f => Some f | None => packet end) with
  | None => (s, None)
  | Some (a, len) =>
      if len <? 14 then (s, None)
      else
        let ethertype := read_be16 (nt_mem s) (a + 12) in
        let shifted := read_be16 (nt_mem s) (a + 24) in
        if ((ethertype =? 0) || (0x05ff <? ethertype)) && (26 <=? len) && ((shifted =? 0x0800) || (shifted =? 0x0806))
        then (s, Some (a + 12, len - 12)) else (s, Some (a, len))
  end.

(** [dev]: the device of the NAPI record, 0 without one. *)
Definition log_received_packet (dev skb : Z) s : net_state :=
  let '(s, frame) := received_frame skb s in
  match frame with
  | None => s
  | Some (packet, len) =>
      let s := observe_arp_request (find_netdev_record dev s) packet len s in
      if rx_frame_callback s =? 0 then s
      else s <| nt_received ::= fun l => (l ++ [(rx_frame_callback_ctx s, dev, mload (nt_mem s) packet (Z.to_nat len))])%list |>
  end.

(** ** NAPI *)

Definition find_napi_record (napi : Z) s : option kb_napi_record := snd <$> list_find (fun r => np_napi r = napi) (napi_records s).

Definition kb_napi_alloc_skb (napi length : Z) s : net_state * Z :=
  kb_netdev_alloc_skb (match find_napi_record napi s with Some r => np_dev r | None => 0 end) length s.

Definition napi_set_scheduled (napi : Z) s : net_state :=
  if napi =? 0 then s
  else with_mem (fun m => mstore64 m (napi + KB_RHEL_3_10_NAPI_STATE_OFFSET)
                            (Z.lor (mload64 m (napi + KB_RHEL_3_10_NAPI_STATE_OFFSET)) (Z.shiftl 1 KB_NAPI_STATE_SCHED))) s.

Definition kb_netif_napi_add (dev napi poll weight : Z) s : net_state :=
  if napi =? 0 then s
  else
    let s :=
      match find_napi_record napi s with
      | Some _ => with_napi napi (fun r => r <| np_dev := dev |> <| np_poll := poll |> <| np_weight := weight |>) s
      | None => if ne_record e s then s <| napi_records ::= cons (mk_napi dev napi poll weight 0 0) |> else s
      end in
    with_mem (fun m => mstore32 (mstore64 m (napi + KB_RHEL_3_10_NAPI_POLL_OFFSET) poll) (napi + KB_RHEL_3_10_NAPI_WEIGHT_OFFSET) weight)
      (napi_set_scheduled napi s).

Definition kb_napi_disable (napi : Z) s : net_state := napi_set_scheduled napi s.
Definition kb_napi_schedule_prep (napi : Z) s : net_state * Z := if napi =? 0 then (s, 0) else (napi_set_scheduled napi s, 1).

Definition kb_napi_gro_receive (napi skb : Z) s : net_state * Z :=
  let dev := match find_napi_record napi s with Some r => np_dev r | None => 0 end in
  let s := with_napi napi (fun r => r <| np_rx_count ::= fun n => u32 (n + 1) |>) s in
  (kb_net_device_consume_skb skb (log_received_packet dev skb s), 0).

Definition kb_net_device_maybe_reply_gateway_arp (record : option nat) (rx_before : Z) s : net_state * Z :=
  match record with
  | None => (s, 0)
  | Some i =>
      let r := netdev_at i s in
      if negb (nd_internet_arp_reply_pending r) || nd_internet_arp_reply_sent r || negb (nd_internet_arp_request_seen r) then (s, 0)
      else
        let rx_after := foldl (fun n napi => if np_dev napi =? nd_dev r then u32 (n + np_rx_count napi) else n) 0 (napi_records s) in
        if rx_after <=? rx_before then (s, 0)
        else
          let xmit_ptr := record_ndo_start_xmit (Some r) (nt_mem s) in
          let '(arp_frame, arp_len) := build_arp_reply_frame 60 (nd_internet_arp_peer_mac r) (nd_internet_arp_peer_ip r) in
          let '(s, result) := xmit_raw_frame (nd_dev r) xmit_ptr (Some (take (Z.to_nat arp_len) arp_frame)) s in
          (if result =? 0 then with_netdev i (fun r => r <| nd_internet_arp_reply_pending := false |> <| nd_internet_arp_reply_sent := true |>) s
           else s, result)
  end.

(** One record of the loop, found again by its key: records are never removed. *)
Definition poll_one (napi : Z) s : net_state :=
  match find_napi_record napi s with
  | None => s
  | Some r =>
      if (np_napi r =? 0) || (np_poll r =? 0) then s
      else
        let netdev := find_netdev_record (np_dev r) s in
        let old_backend := nt_backend s in
        let s := match netdev with Some i => set_backend (nd_backend (netdev_at i s)) s | None => s end in
        let budget := if 0 <? np_weight r then np_weight r else 64 in
        let s := (ne_call2 e (np_poll r) (np_napi r) budget s).1 in
        let s := with_napi napi (fun r => r <| np_poll_count ::= fun n => u32 (n + 1) |>) s in
        let s := (kb_net_device_maybe_reply_gateway_arp netdev (np_rx_count r) s).1 in
        set_backend old_backend s
  end.
Definition poll_rx_devices s : net_state := foldl (fun s napi => poll_one napi s) s (np_napi <$> napi_records s).
Definition kb_net_device_poll_rx_smoke s : net_state := poll_rx_devices s.
Definition kb_net_device_poll s : net_state := poll_rx_devices (ne_handle_any_irq e (ne_run_deferred_work e s)).

(** ** The self-test *)

Definition arp_smoke_frame : list Z :=
  [0xff; 0xff; 0xff; 0xff; 0xff; 0xff] ++ default_mac ++ [0x08; 0x06; 0x00; 0x01; 0x08; 0x00; 0x06; 0x04; 0x00; 0x01] ++
  default_mac ++ source_ip ++ replicate 6 0 ++ [10; 0; 2; 2] ++ replicate 18 0.

Definition kb_net_device_xmit_smoke (dev : Z) s : net_state * Z :=
  match find_netdev_record dev s with
  | None => (s, 0)
  | Some i =>
      let xmit_ptr := record_ndo_start_xmit (Some (netdev_at i s)) (nt_mem s) in
      if xmit_ptr =? 0 then (s, 0)
      else
        let '(s, result) := xmit_raw_frame dev xmit_ptr (Some arp_smoke_frame) s in
        if result =? 0 then
          let s := ne_msleep e 1000 s in
          (if rx_poll_smoke_enabled then kb_net_device_poll_rx_smoke s else s, result)
        else (s, result)
  end.

Definition kb_net_device_xmit_internet_smoke (dev : Z) s : net_state * Z :=
  match find_netdev_record dev s with
  | None => (s, 0)
  | Some i =>
      let xmit_ptr := record_ndo_start_xmit (Some (netdev_at i s)) (nt_mem s) in
      if xmit_ptr =? 0 then (s, 0)
      else
        let '(frame, frame_len) := build_udp_internet_smoke_frame 96 in
        if frame_len =? 0 then (s, -22)
        else
          let '(s, result) := xmit_raw_frame dev xmit_ptr (Some (take (Z.to_nat frame_len) frame)) s in
          if negb (result =? 0) then (s, result)
          else
            let s := with_netdev i (fun r => r <| nd_internet_arp_reply_pending := true |> <| nd_internet_arp_reply_sent := false |>
              <| nd_internet_arp_request_seen := false |> <| nd_internet_arp_peer_mac := replicate 6 0 |> <| nd_internet_arp_peer_ip := replicate 4 0 |>) s in
            let s := ne_msleep e 500 s in
            let s := if rx_poll_smoke_enabled then kb_net_device_poll_rx_smoke s else s in
            if nd_internet_arp_reply_pending (netdev_at i s) then (s, -11)
            else (kb_net_device_poll_rx_smoke (ne_msleep e 500 s), 0)
  end.

Definition pending_smoke (i : nat) s : net_state :=
  let r := netdev_at i s in
  if (nd_dev r =? 0) || negb (nd_registered r) || negb (nd_opened r) || nd_smoke_done r then s
  else
    let s := with_netdev i (fun r => r <| nd_smoke_done := true |>) s in
    let '(s, result) := if tx_smoke_wants_arp then kb_net_device_xmit_smoke (nd_dev (netdev_at i s)) s else (s, 0) in
    if (result =? 0) && tx_smoke_wants_udp then (kb_net_device_xmit_internet_smoke (nd_dev (netdev_at i s)) s).1 else s.
Definition kb_net_device_run_pending_smokes s : net_state :=
  if tx_smoke_enabled then foldl (fun s i => pending_smoke i s) s (seq 0 KB_NETDEV_TRACKED_MAX) else s.
End net.
