(* ===== verification/NetFrames.v ===== *)
(** * Theorems about frames (Net.v)

    The Internet checksum: data with its checksum filled in verifies, and every change of
    one word is noticed; the frames that are built, and how they are read again. *)

From S2P Require Import Prelude Memory DmaMapping PageArena Heap Net.

(** ** The sum of the words *)

Definition word (a b : Z) : Z := 256 * a + b.
Fixpoint total (data : list Z) : Z :=
  match data with
  | a :: b :: data => word a b + total data
  | [a] => word a 0
  | [] => 0
  end.

Lemma pair_ind (Q : list Z -> Prop) : Q [] -> (forall a, Q [a]) -> (forall a b l, Q l -> Q (a :: b :: l)) -> forall l, Q l.
Proof.
  intros H0 H1 H2. assert (forall l, Q l /\ forall a, Q (a :: l)) as H; [|intros l; apply H].
  induction l as [|b l [IH1 IH2]]; [by split|]. split; [apply IH2|]. intros a. by apply H2.
Qed.

Lemma lor_word a b : is_u8 a -> is_u8 b -> Z.lor (Z.shiftl a 8) b = word a b.
Proof. unfold is_u8, word. intros Ha Hb. rewrite Z.lor_comm, lor_shiftl_add by (change (2 ^ 8) with 256; lia). rewrite ?Z.shiftl_mul_pow2 by lia. lia. Qed.

Lemma total_bounds data : bytes_ok data -> 0 <= total data /\ 2 * total data <= 65535 * (blen data + 1).
Proof.
  unfold bytes_ok, blen. induction data as [|a|a b l IH] using pair_ind; intros Hb; cbn [total length] in *; [lia| |].
  - apply Forall_cons in Hb as [Ha _]. unfold is_u8, word in *. lia.
  - apply Forall_cons in Hb as [Ha [Hb Hl]%Forall_cons]. specialize (IH Hl). unfold is_u8, word in *. lia.
Qed.

Lemma sum_words_total data acc : bytes_ok data -> 0 <= acc -> acc + total data < 2 ^ 32 -> sum_words data acc = acc + total data.
Proof.
  revert acc. induction data as [|a|a b l IH] using pair_ind; intros acc Hb Ha Hs; cbn [sum_words total] in *; [lia| |].
  - apply Forall_cons in Hb as [Hx _]. unfold is_u8, word in *. rewrite Z.shiftl_mul_pow2 by lia. change (2 ^ 8) with 256. rewrite u32_small by (unfold is_u32; lia). lia.
  - apply Forall_cons in Hb as [Hx [Hy Hl]%Forall_cons]. rewrite lor_word by done. pose proof (total_bounds l Hl) as [Ht _].
    unfold is_u8, word in *. rewrite u32_small by (unfold is_u32; lia). rewrite IH; [lia|done|lia|lia].
Qed.

(** Folding the carries keeps the sum modulo 65535, and only 0 gives 0. *)
Lemma fold_step x : 0 <= x < 2 ^ 32 -> Z.land x 0xffff + Z.shiftr x 16 = x - 65535 * (x / 65536) /\ 0 <= x / 65536 < 65536.
Proof.
  intros Hx. change (Z.land x 0xffff) with (Z.land x (Z.ones 16)). rewrite Z.land_ones, Z.shiftr_div_pow2 by lia. change (2 ^ 16) with 65536. change (2 ^ 32) with 4294967296 in *.
  Z.to_euclidean_division_equations; lia.
Qed.

Lemma fold_carries_spec x : 0 <= x < 2 ^ 32 ->
  let r := fold_carries 3 x in 0 <= r < 65536 /\ r mod 65535 = x mod 65535 /\ (r = 0 <-> x = 0).
Proof.
  assert (forall n y, 0 <= y < 65536 -> fold_carries n y = y) as Hdone.
  { intros [|n] y Hy; [done|]. cbn [fold_carries]. rewrite Z.shiftr_div_pow2 by lia. by rewrite Z.div_small by (change (2 ^ 16) with 65536; lia). }
  assert (forall n y, 65536 <= y < 2 ^ 32 -> fold_carries (S n) y = fold_carries n (y - 65535 * (y / 65536))) as Hstep.
  { intros n y Hy. cbn [fold_carries]. destruct (fold_step y ltac:(lia)) as [E1 E2]. rewrite E1.
    rewrite Z.shiftr_div_pow2 by lia. change (2 ^ 16) with 65536. assert (1 <= y / 65536) by (apply Z.div_le_lower_bound; lia).
    by rewrite (proj2 (Z.eqb_neq _ _)) by lia. }
  assert (forall y, 0 <= y -> (y - 65535 * (y / 65536)) mod 65535 = y mod 65535) as Hmod.
  { intros y _. replace (y - 65535 * (y / 65536)) with (y + - (y / 65536) * 65535) by lia. by rewrite Z.mod_add. }
  intros Hx. destruct (decide (x < 65536)) as [Hs|Hs]; [cbn zeta; rewrite Hdone by lia; split; [lia|done]|].
  cbn zeta. rewrite Hstep by lia. set (y := x - 65535 * (x / 65536)).
  assert (1 <= y <= 131070) as Hy by (unfold y; change (2 ^ 32) with 4294967296 in *; Z.to_euclidean_division_equations; lia).
  assert (y mod 65535 = x mod 65535) as Ey by (apply Hmod; lia). destruct (decide (y < 65536)) as [Hys|Hys]; [rewrite Hdone by lia; split; [lia|split; [done|lia]]|].
  rewrite Hstep by (change (2 ^ 32) with 4294967296; lia). set (z := y - 65535 * (y / 65536)).
  assert (1 <= z <= 65535) as Hz by (unfold z; Z.to_euclidean_division_equations; lia).
  rewrite Hdone by lia. split; [lia|split; [rewrite <- Ey; apply Hmod; lia|lia]].
Qed.

Definition checkable (data : list Z) : Prop := bytes_ok data /\ blen data <= 131070.

Lemma checksum_spec data : checkable data ->
  exists r, internet_checksum data = 65535 - r /\ 0 <= r <= 65535 /\ r mod 65535 = total data mod 65535 /\ (r = 0 <-> total data = 0).
Proof.
  intros [Hb Hl]. pose proof (total_bounds data Hb) as Ht. unfold internet_checksum. rewrite sum_words_total, Z.add_0_l by (done || lia).
  destruct (fold_carries_spec (total data) ltac:(lia)) as (Hr & Hm & Hz). cbn zeta in *. exists (fold_carries 3 (total data)).
  set (r := fold_carries 3 (total data)) in *. split; [|split; [lia|by split]].
  unfold Z.lnot. replace (Z.pred (- r)) with ((65535 - r) + (-1) * 65536) by lia. unfold u16. rewrite Z.mod_add by done. apply Z.mod_small. lia.
Qed.

(** A sum that is 0 is what a valid checksum looks like. *)
Lemma checksum_zero data : checkable data -> internet_checksum data = 0 <-> total data mod 65535 = 0 /\ total data <> 0.
Proof.
  intros Hc. destruct (checksum_spec data Hc) as (r & -> & Hr & Hm & Hz). split.
  - intros H. assert (r = 65535) as -> by lia. rewrite <- Hm. split; [done|]. intros E. apply Hz in E. lia.
  - intros [H1 H2]. rewrite H1 in Hm. assert (r <> 0) by tauto. assert (r = 65535); [|lia].
    apply Z.mod_divide in Hm as [k ->]; [|done]. lia.
Qed.

(** ** One word *)

Lemma total_app l k : Nat.even (length l) = true -> total (l ++ k) = total l + total k.
Proof. induction l as [|a|a b l IH] using pair_ind; intros H; [done|done|]. cbn [app total] in *. rewrite IH by exact H. lia. Qed.

(** The words of data with one of them replaced. *)
Lemma total_put data o a b : 0 <= o -> Z.even o = true -> o + 2 <= blen data ->
  total (splice data o [a; b]) = total data - word (nth (Z.to_nat o) data 0) (nth (Z.to_nat o + 1) data 0) + word a b.
Proof.
  intros Ho He Hl. unfold blen in Hl. set (n := Z.to_nat o). assert (Nat.even n = true) as Hn.
  { apply Z.even_spec in He as [k ->]. unfold n. rewrite Z2Nat.inj_mul by lia. apply Nat.even_spec. exists (Z.to_nat k). lia. }
  unfold splice. cbn [length]. fold n. rewrite total_app by (rewrite length_take, Nat.min_l by (unfold n; lia); done).
  assert (data = take n data ++ nth n data 0 :: nth (n + 1) data 0 :: drop (n + 2) data) as E.
  { rewrite <- (take_drop n data) at 1. f_equal. destruct (drop n data) as [|x [|y l]] eqn:Ed.
    1, 2: apply (f_equal length) in Ed; rewrite length_drop in Ed; cbn in Ed; unfold n in Ed; lia.
    assert (data !! n = Some x) as Hx by (by rewrite <- (Nat.add_0_r n), <- lookup_drop, Ed).
    assert (data !! (n + 1)%nat = Some y) as Hy by (by rewrite <- lookup_drop, Ed).
    rewrite (nth_lookup_Some _ _ _ _ Hx), (nth_lookup_Some _ _ _ _ Hy). f_equal. f_equal. by rewrite <- drop_drop, Ed. }
  assert (total data = total (take n data) + (word (nth n data 0) (nth (n + 1) data 0) + total (drop (n + 2) data))) as ->.
  { rewrite E at 1. by rewrite total_app by (rewrite length_take, Nat.min_l by (unfold n; lia); done). }
  cbn [app total]. lia.
Qed.

Lemma nth_byte_ok data i : bytes_ok data -> is_u8 (nth i data 0).
Proof. intros H. destruct (data !! i) as [x|] eqn:E; [rewrite (nth_lookup_Some _ _ _ _ E); by apply (Forall_lookup_1 _ _ _ _ H E)|].
  rewrite nth_overflow by (by apply lookup_ge_None in E). done. Qed.

(** Data verifies once its checksum is filled in at an even place that held zeros, and a
    change of any one 16-bit word afterwards is noticed, unless it only exchanges 0x0000
    and 0xffff, which the sum cannot tell apart: the check of the sum then fails. *)
Theorem checksum_verifies_and_detects data o :
  checkable data -> 0 <= o -> Z.even o = true -> o + 2 <= blen data -> slice data o 2 = [0; 0] ->
  let sealed := write_be16 data o (internet_checksum data) in
  internet_checksum sealed = 0 /\
  forall p a b, 0 <= p -> Z.even p = true -> p + 2 <= blen data -> is_u8 a -> is_u8 b ->
    let old := word (nth (Z.to_nat p) sealed 0) (nth (Z.to_nat p + 1) sealed 0) in
    word a b <> old -> ~ (word a b = 0 /\ old = 65535) -> ~ (word a b = 65535 /\ old = 0) ->
    internet_checksum (splice sealed p [a; b]) <> 0.
Proof.
  intros Hc Ho He Hl Hz sealed. pose proof Hc as [Hb Hlen]. destruct (checksum_spec data Hc) as (r & Er & Hr & Hm & Hz0).
  assert (bytes_ok sealed /\ blen sealed = blen data) as [Hsb Hsl].
  { unfold sealed, write_be16. rewrite blen_splice by (unfold blen in *; cbn; lia). split; [|done]. apply bytes_ok_splice; [done|].
    repeat constructor; apply u8_range. }
  assert (checkable sealed) as Hsc by (split; [done|lia]).
  assert (total sealed = total data + 65535 - r) as Et.
  { unfold sealed, write_be16. rewrite total_put by done. rewrite Er.
    assert (nth (Z.to_nat o) data 0 = 0 /\ nth (Z.to_nat o + 1) data 0 = 0) as [-> ->].
    { unfold slice in Hz. change (Z.to_nat 2) with 2%nat in Hz. pose proof (f_equal (fun l => l !! 0%nat) Hz) as H0. pose proof (f_equal (fun l => l !! 1%nat) Hz) as H1.
      cbn beta in *. rewrite lookup_take_lt, lookup_drop in H0, H1 by lia. cbn in H0, H1. rewrite Nat.add_0_r in H0.
      by rewrite (nth_lookup_Some _ _ _ _ H0), (nth_lookup_Some _ _ _ _ H1). }
    assert (word (u8 (Z.shiftr (65535 - r) 8)) (u8 (65535 - r)) = 65535 - r) as ->; [|unfold word; lia].
    unfold word, u8. rewrite Z.shiftr_div_pow2 by lia. change (2 ^ 8) with 256. Z.to_euclidean_division_equations; lia. }
  pose proof (total_bounds data Hb) as [Ht0 _]. assert (internet_checksum sealed = 0) as Hv.
  { apply checksum_zero; [done|]. rewrite Et. split; [|lia]. replace (total data + 65535 - r) with (total data - r + 1 * 65535) by lia.
    rewrite Z.mod_add, Zminus_mod, Hm, Z.sub_diag by done. done. }
  split; [done|]. intros p a b Hp Hpe Hpl Ha Hb' old Hne H1 H2 Hbad.
  apply checksum_zero in Hv as [Hv _]; [|done]. apply checksum_zero in Hbad as [Hbad _].
  2: { split; [apply bytes_ok_splice; [done|by apply Forall_cons; split; [|apply Forall_cons; split; [|constructor]]]|rewrite blen_splice by (unfold blen in *; cbn; lia); lia]. }
  rewrite total_put in Hbad by (done || lia). fold old in Hbad.
  assert ((word a b - old) mod 65535 = 0) as Hd.
  { replace (word a b - old) with (total sealed - old + word a b - total sealed) by lia. by rewrite Zminus_mod, Hbad, Hv. }
  assert (0 <= old <= 65535) as Hold.
  { pose proof (nth_byte_ok sealed (Z.to_nat p) Hsb). pose proof (nth_byte_ok sealed (Z.to_nat p + 1) Hsb). unfold old, word, is_u8 in *. lia. }
  assert (0 <= word a b <= 65535) as Hw by (unfold word, is_u8 in *; lia).
  apply Z.mod_divide in Hd as [k Hk]; [|done]. lia.
Qed.

(** The header of the DNS query that is sent verifies. *)
Lemma checksum_verifies_and_detects_witness :
  let header := [0x45; 0; 0; 57; 0x42; 0x42; 0x40; 0; 64; 17; 0; 0; 10; 0; 2; 15; 10; 0; 2; 3] in
  internet_checksum (write_be16 header 10 (internet_checksum header)) = 0 /\
  write_be16 header 10 (internet_checksum header) = slice (build_udp_internet_smoke_frame 96).1 14 20.
Proof.
  intros header. assert (checkable header) as Hc by (split; [unfold header; repeat constructor; done|done]).
  split; [|vm_compute; reflexivity]. apply (checksum_verifies_and_detects header 10 Hc); [lia|reflexivity|vm_compute; discriminate|reflexivity].
Defined.

(** ** Types of frames *)

(** Two bytes of a frame, the first one high. *)
Definition frame_be16 (frame : list Z) (i : Z) : Z := Z.lor (Z.shiftl (nth (Z.to_nat i) frame 0) 8) (nth (Z.to_nat (i + 1)) frame 0).

(** A frame with a type that looks like it has another type 12 bytes on. *)
Definition looks_shifted (frame : list Z) : Prop :=
  0x05ff < frame_be16 frame 12 /\ 26 <= blen frame /\ (frame_be16 frame 24 = 0x0800 \/ frame_be16 frame 24 = 0x0806).
#[export] Instance looks_shifted_dec frame : Decision (looks_shifted frame).
Proof. unfold looks_shifted. apply _. Defined.
