(* ===== verification/NetTheorems.v ===== *)
(** * Theorems about socket buffers and the path of a frame (Net.v)

    Socket buffers are byte strings with a limit: allocation, appending, copying out and
    release, with no page of the arena lost; the driver gets exactly the frame that was
    sent, and the host exactly the frame that was received. *)

From S2P Require Import Prelude Memory DmaMapping PageArena PageTheorems Heap HeapTheorems HeapArena Net NetFrames.

Ltac net_lia :=
  unfold extents_apart, is_u64, is_u32, UINT64_MAX, KB_KVM_PAGE_PAYLOAD_BYTES, KB_KVM_PAGE_RECORD_BYTES, KB_KVM_PAGE_RECORD_MAX, KB_KVM_PAGE_SIZE,
    KB_KVM_STRUCT_PAGE_SIZE, KB_RHEL_3_10_SKB_HEADROOM, KB_RHEL_3_10_SKB_SIZE in *;
  change (2 ^ 64) with 0x10000000000000000 in *; cbn [fst snd] in *; lia.

Section net.
Context (e : net_env) (b : Z).
Implicit Types (s : net_state) (p : page_state).

#[warnings="-notation-for-abbreviation"]
Notation stub := (kb_kvm_alloc_pages_stub (ne_get_ops e) (ne_regions e) (ne_arena e) b (ne_zalloc e)).
#[warnings="-notation-for-abbreviation"]
Notation exact_pages := (kb_alloc_pages_exact (ne_get_ops e) (ne_regions e) (ne_arena e) b (ne_zalloc e)).

(** ** Pages *)

(** The arena stays where it is, with the same pages in use and the same memory. *)
Definition same_arena p q : Prop :=
  kb_kvm_page_payloads q = kb_kvm_page_payloads p /\ kb_kvm_page_records q = kb_kvm_page_records p /\
  kb_kvm_page_alloc_state q = kb_kvm_page_alloc_state p /\ pa_mem q = pa_mem p.

Definition page_live p (i : nat) (o : Z) : Prop := live (kb_kvm_page_alloc_state p) i o.
Definition page_addr p (i : nat) : Z := kb_kvm_page_payloads p + 4096 * Z.of_nat i.
Definition in_live p (a : Z) : Prop := exists i o, page_live p i o /\ page_addr p i <= a < page_addr p i + 4096 * Z.of_nat (block_pages o).

Lemma sync_same p : arena_ok b p -> arena_ok b (kb_kvm_sync_page_model (ne_arena e) p) /\ same_arena p (kb_kvm_sync_page_model (ne_arena e) p) /\
  kb_kvm_page_payload_base (kb_kvm_sync_page_model (ne_arena e) p) = kb_kvm_page_payloads p /\
  kb_kvm_vmemmap_record_base (kb_kvm_sync_page_model (ne_arena e) p) = kb_kvm_page_records p.
Proof. intros H. destruct (placed_sync (ne_arena e) b p H) as (H1 & H2 & H3 & H4 & H5 & H6 & H7). by split_and!. Qed.

Lemma same_arena_trans p q r : same_arena p q -> same_arena q r -> same_arena p r.
Proof. unfold same_arena. intros (-> & -> & -> & ->) (-> & -> & -> & ->). done. Qed.

Lemma payload_null p : arena_ok b p -> exists q, payload_for_kvm_page e 0 p = (q, 0) /\ arena_ok b q /\ same_arena p q.
Proof.
  intros H. unfold payload_for_kvm_page, kb_linux_kvm_vmemmap_base, kb_linux_kvm_page_offset_base. cbn [Z.eqb orb].
  destruct (sync_same p H) as (H1 & S1 & _). destruct (sync_same _ H1) as (H2 & S2 & _).
  eexists. split; [done|]. split; [done|]. by eapply same_arena_trans.
Qed.

Lemma payload_page p (j : nat) : arena_ok b p -> (j < 4096)%nat ->
  exists q, payload_for_kvm_page e (kb_kvm_page_records p + 64 * Z.of_nat j) p = (q, page_addr p j) /\ arena_ok b q /\ same_arena p q.
Proof.
  intros H Hj. unfold payload_for_kvm_page, kb_linux_kvm_vmemmap_base, kb_linux_kvm_page_offset_base.
  destruct (sync_same p H) as (H1 & S1 & E1 & E2). destruct (sync_same _ H1) as (H2 & S2 & E3 & E4).
  pose proof (ao_placed _ _ H) as [[P1 P1'] [P2 P2'] _ _]. rewrite E2, E3. destruct S1 as (A1 & A2 & A3 & A4). rewrite A1.
  rewrite !(proj2 (Z.eqb_neq _ _)), (proj2 (Z.ltb_ge _ _)) by lia. cbn [orb]. eexists. split; [|split; [exact H2|by eapply same_arena_trans; [|exact S2]]].
  f_equal. unfold page_addr, KB_KVM_STRUCT_PAGE_SIZE, KB_KVM_PAGE_SIZE. replace (kb_kvm_page_records p + 64 * Z.of_nat j - kb_kvm_page_records p) with (Z.of_nat j * 64) by lia.
  rewrite Z.div_mul by done. rewrite u64_small by net_lia. lia.
Qed.

Lemma dma_addr_same page p : arena_ok b p -> arena_ok b (dma_addr_for_kvm_page e page p).1 /\ same_arena p (dma_addr_for_kvm_page e page p).1.
Proof.
  intros H. unfold dma_addr_for_kvm_page, kb_linux_kvm_vmemmap_base. destruct (sync_same p H) as (H1 & S1 & _).
  by destruct (_ || _).
Qed.

(** What taking a page does: failure, or a page that was in no block, now in use and cleared. *)
Definition took_page p q (got : option nat) : Prop :=
  arena_ok b q /\ kb_kvm_page_payloads q = kb_kvm_page_payloads p /\ kb_kvm_page_records q = kb_kvm_page_records p /\
  (forall a, ~ arena_region p a \/ in_live p a -> mem_byte (pa_mem q) a = mem_byte (pa_mem p) a) /\
  match got with
  | None => kb_kvm_page_alloc_state q = kb_kvm_page_alloc_state p
  | Some i =>
      (i < 4096)%nat /\ (forall a, page_addr p i <= a < page_addr p i + 4096 -> ~ in_live p a /\ mem_byte (pa_mem q) a = 0) /\
      (forall j o, page_live q j o <-> page_live p j o \/ j = i /\ o = 0)
  end.

Lemma in_live_block p a : in_live p a <-> exists c k, arena_block p c k /\ c <= a < c + k.
Proof.
  split.
  - intros (i & o & Hi & Ha). exists (page_addr p i), (4096 * Z.of_nat (block_pages o)). split; [by exists i, o|done].
  - intros (c & k & (i & o & Hi & -> & ->) & Ha). by exists i, o.
Qed.

Lemma take_page p q page : arena_ok b p -> stub 0 p = (q, page) ->
  exists got, took_page p q got /\ page = match got with Some i => kb_kvm_page_records p + 64 * Z.of_nat i | None => 0 end /\ (page = 0 <-> got = None).
Proof.
  intros Hok E. destruct (arena_stub _ _ _ _ _ p 0 q page Hok ltac:(lia) E) as (H1 & H2 & H3 & H4 & [[-> ->]|(i & _ & -> & Hnz & Hi & Hfar & Hlive & Hzero)]).
  - exists None. split_and!; [|done|done]. unfold took_page. done.
  - change (block_pages 0) with 1%nat in *. exists (Some i). split_and!; [|done|split; [done|done]]. unfold took_page. split_and!; try done.
    + intros a Ha. apply H4. by rewrite <- in_live_block.
    + lia.
    + intros a Ha. split; [|apply Hzero; unfold page_addr in Ha; lia]. rewrite in_live_block. intros (c & k & Hb & Hc).
      specialize (Hfar c k Hb). unfold page_addr in Ha. net_lia.
Qed.

Lemma take_exact_page p q a : arena_ok b p -> exact_pages KB_KVM_PAGE_SIZE p = (q, a) ->
  exists got, took_page p q got /\ a = match got with Some i => page_addr p i | None => 0 end /\ (a = 0 <-> got = None).
Proof.
  intros Hok. unfold kb_alloc_pages_exact. change (order_from 53 0 1 _) with 0. destruct (stub 0 p) as [q1 page] eqn:E.
  destruct (take_page p q1 page Hok E) as (got & (H1 & H2 & H3 & H4 & H5) & -> & Hz). destruct got as [i|].
  - destruct H5 as (Hi & Hfree & Hlive). rewrite <- H3. destruct (payload_of_page (ne_arena e) b q1 i H1 Hi) as (q2 & -> & F0 & F1 & F2 & F3 & F4).
    pose proof (ap_payloads _ (ao_placed _ _ Hok)) as Hp. pose proof (ap_records _ (ao_placed _ _ Hok)) as Hr. rewrite H3, !(proj2 (Z.eqb_neq _ _)) by lia.
    cbn [orb]. intros [= <- <-]. exists (Some i). unfold page_addr. rewrite H2. split_and!; [|done|split; [lia|done]].
    unfold took_page. split_and!; [done|congruence|congruence|intros x Hx; rewrite F4; auto|done| |].
    + intros x Hx. rewrite F4. auto.
    + intros j o. unfold page_live. rewrite F3. apply Hlive.
  - change (page_payload_from_struct_page (ne_arena e) 0 q1) with (q1, 0). cbn [Z.eqb orb]. intros [= <- <-]. exists None. done.
Qed.

(** Giving a page back, by its record or by its address. *)
Definition dropped_page p q (i : nat) : Prop :=
  arena_ok b q /\ kb_kvm_page_payloads q = kb_kvm_page_payloads p /\ kb_kvm_page_records q = kb_kvm_page_records p /\ pa_mem q = pa_mem p /\
  forall j o, page_live q j o <-> page_live p j o /\ j <> i.

Lemma drop_record p i : arena_ok b p -> page_live p i 0 -> dropped_page p (kb_kvm_release_pages (ne_arena e) (kb_kvm_page_records p + 64 * Z.of_nat i) 0 p).1 i.
Proof. intros Hok Hi. exact (arena_release (ne_arena e) b p i 0 Hok Hi). Qed.
Lemma drop_exact p i : arena_ok b p -> page_live p i 0 -> dropped_page p (kb_kvm_free_pages_exact (ne_arena e) (page_addr p i) KB_KVM_PAGE_SIZE p) i.
Proof.
  intros Hok Hi. unfold page_addr. rewrite (free_exact_releases (ne_arena e) b p i 0 KB_KVM_PAGE_SIZE Hok Hi) by (change (block_pages 0) with 1%nat; net_lia).
  by apply drop_record.
Qed.

(** ** Buffers *)

Lemma arena_ok_mem p f : arena_ok b p -> arena_ok b (p <| pa_mem ::= f |>).
Proof. intros [H1 [P1 P2 P3 P4] H3 H4 H5]. constructor; [exact H1|by constructor|exact H3|exact H4|exact H5]. Qed.

(** A buffer: its two pages, its limit, and fields that agree with each other. *)
Definition skb_fields (m : mem) (r : kb_skb_record) (len : Z) : Prop :=
  mload64 m (sk_skb r + 0xe8) = sk_payload r + 256 /\ mload32 m (sk_skb r + 0xf0) = 256 + len /\ mload32 m (sk_skb r + 0x68) = len /\
  0 <= len /\ 256 + len <= sk_capacity r.
Definition skb_pages p (r : kb_skb_record) (i j : nat) : Prop :=
  page_live p i 0 /\ page_live p j 0 /\ sk_skb r = page_addr p i /\ sk_payload r = page_addr p j /\
  sk_page r = kb_kvm_page_records p + 64 * Z.of_nat j /\ 256 <= sk_capacity r <= 4096.
Definition skb_ok p (r : kb_skb_record) : Prop := exists i j len, skb_pages p r i j /\ skb_fields (pa_mem p) r len.

Definition skb_blocks (l : list kb_skb_record) : list Z := flat_map (fun r => [sk_skb r; sk_payload r]) l.

(** The bytes of a buffer, with the number it can hold. *)
Definition skb_string (m : mem) (r : kb_skb_record) : Z * list Z :=
  (sk_capacity r - 256, mload m (sk_payload r + 256) (Z.to_nat (mload32 m (sk_skb r + 0x68)))).
Definition buffers s : gmap Z (Z * list Z) := list_to_map ((fun r => (sk_skb r, skb_string (nt_mem s) r)) <$> skb_records s).

(** The invariant, for an arena that had the pages of [p0] in use: no page is lost. *)
Record net_ok (p0 : page_state) s : Prop := {
  no_arena : arena_ok b (nt_pages s);
  no_backend : nt_backend s = b;
  no_place : kb_kvm_page_payloads (nt_pages s) = kb_kvm_page_payloads p0 /\ kb_kvm_page_records (nt_pages s) = kb_kvm_page_records p0;
  no_skbs : Forall (skb_ok (nt_pages s)) (skb_records s);
  no_nodup : NoDup (skb_blocks (skb_records s));
  no_live : forall i o, page_live (nt_pages s) i o <-> page_live p0 i o \/ o = 0 /\ page_addr p0 i ∈ skb_blocks (skb_records s);
  no_others : forall i o, page_live p0 i o -> page_addr p0 i ∉ skb_blocks (skb_records s);
}.

Lemma init_skb_fields skb payload dev capacity m :
  skb + 4096 <= payload \/ payload + 4096 <= skb -> 0 <= payload < 2 ^ 64 - 4096 ->
  let m' := init_skb skb payload dev capacity m in
  mload64 m' (skb + 0xe8) = payload + 256 /\ mload32 m' (skb + 0xf0) = 256 /\ mload32 m' (skb + 0x68) = 0 /\
  forall a, ~ (skb <= a < skb + 4096) -> ~ (payload <= a < payload + 4096) -> mem_byte m' a = mem_byte m a.
Proof.
  intros Hd Hp m'. unfold m', init_skb. cbn zeta. rewrite (u64_small (payload + KB_RHEL_3_10_SKB_HEADROOM)) by net_lia.
  unfold KB_RHEL_3_10_SKB_HEAD_OFFSET, KB_RHEL_3_10_SKB_DATA_OFFSET, KB_RHEL_3_10_SKB_TAIL_OFFSET, KB_RHEL_3_10_SKB_END_OFFSET, KB_RHEL_3_10_SKB_LEN_OFFSET,
    KB_RHEL_3_10_SKB_DATA_LEN_OFFSET, KB_RHEL_3_10_SKB_QUEUE_MAPPING_OFFSET, KB_RHEL_3_10_SKB_IP_SUMMED_OFFSET, KB_RHEL_3_10_SKB_END_POINTER_OFFSET,
    KB_LINUX_6_8_SKB_DEV_OFFSET, KB_LINUX_6_8_SKB_LEN_OFFSET, KB_LINUX_6_8_SKB_DATA_LEN_OFFSET, KB_LINUX_6_8_SKB_QUEUE_MAPPING_OFFSET,
    KB_LINUX_6_8_SKB_MAC_HEADER_OFFSET, KB_LINUX_6_8_SKB_TAIL_OFFSET, KB_LINUX_6_8_SKB_END_OFFSET, KB_LINUX_6_8_SKB_HEAD_OFFSET, KB_LINUX_6_8_SKB_DATA_OFFSET.
  split_and!.
  - unfold mload64. unfold mstore16, mstore32, mstore64. repeat rewrite mload_mstore_other by (rewrite ?length_le_bytes; cbn [length]; lia).
    pose proof (mload64_mstore64_same (mstore (mclear (mclear m skb 512) payload 4096) (skb + 224) (le_bytes 8 payload)) (skb + 232) (payload + 256) ltac:(net_lia)) as H. exact H.
  - unfold mload32, mstore16, mstore32, mstore64. repeat rewrite mload_mstore_other by (rewrite ?length_le_bytes; cbn [length]; lia).
    apply (mload32_mstore32_same _ (skb + 240) 256). net_lia.
  - unfold mload32, mstore16, mstore32, mstore64. repeat rewrite mload_mstore_other by (rewrite ?length_le_bytes; cbn [length]; lia).
    apply (mload32_mstore32_same _ (skb + 104) 0). net_lia.
  - intros a H1 H2. unfold mstore16, mstore32, mstore64. rewrite !mem_byte_mstore_out by (rewrite ?length_le_bytes; cbn [length]; lia).
    rewrite !mem_byte_mclear, !decide_False by net_lia. done.
Qed.

Definition same_place p q : Prop := kb_kvm_page_payloads q = kb_kvm_page_payloads p /\ kb_kvm_page_records q = kb_kvm_page_records p.
Lemma page_addr_place p q i : same_place p q -> page_addr q i = page_addr p i.
Proof. unfold page_addr. by intros [-> _]. Qed.
Lemma page_addr_inj p i j : page_addr p i = page_addr p j -> i = j.
Proof. unfold page_addr. lia. Qed.

Lemma page_in_live p i a : page_live p i 0 -> page_addr p i <= a < page_addr p i + 4096 -> in_live p a.
Proof. intros Hi Ha. exists i, 0. split; [done|]. change (block_pages 0) with 1%nat. lia. Qed.

Lemma skb_frame_pages p q r i j len :
  skb_pages p r i j -> skb_fields (pa_mem p) r len -> same_place p q -> page_live q i 0 -> page_live q j 0 ->
  (forall a k, k = i \/ k = j -> page_addr p k <= a < page_addr p k + 4096 -> mem_byte (pa_mem q) a = mem_byte (pa_mem p) a) ->
  skb_pages q r i j /\ skb_fields (pa_mem q) r len /\ skb_string (pa_mem q) r = skb_string (pa_mem p) r.
Proof.
  intros (Hi & Hj & Es & Ep & Epg & Hcap) (F1 & F2 & F3 & F4 & F5) Hpl Hqi Hqj Hm.
  assert (forall o n, 0 <= o -> o + Z.of_nat n <= 4096 -> mload (pa_mem q) (sk_skb r + o) n = mload (pa_mem p) (sk_skb r + o) n) as Hs.
  { intros o n Ho Hn. apply mload_same. intros a Ha. apply (Hm a i); [auto|]. lia. }
  split_and!.
  - unfold skb_pages. rewrite !(page_addr_place p q) by done. destruct Hpl as [_ ->]. done.
  - unfold skb_fields, mload64, mload32. rewrite !Hs by lia. done.
  - unfold skb_string. assert (mload32 (pa_mem q) (sk_skb r + 104) = mload32 (pa_mem p) (sk_skb r + 104)) as -> by (unfold mload32; by rewrite Hs by lia).
    f_equal. apply mload_same. intros a Ha. apply (Hm a j); [auto|]. lia.
Qed.

Lemma skb_frame p q r i j len :
  skb_pages p r i j -> skb_fields (pa_mem p) r len -> same_place p q -> page_live q i 0 -> page_live q j 0 ->
  (forall a, in_live p a -> mem_byte (pa_mem q) a = mem_byte (pa_mem p) a) ->
  skb_pages q r i j /\ skb_fields (pa_mem q) r len /\ skb_string (pa_mem q) r = skb_string (pa_mem p) r.
Proof.
  intros Hp Hf Hpl Hi Hj Hm. apply skb_frame_pages; try done. intros a k Hk Ha. apply Hm, (page_in_live p k); [|done]. destruct Hp as (H1 & H2 & _). by destruct Hk as [->| ->].
Qed.

Lemma elem_blocks a l : a ∈ skb_blocks l <-> exists r, r ∈ l /\ (a = sk_skb r \/ a = sk_payload r).
Proof.
  unfold skb_blocks. rewrite list_elem_of_In, in_flat_map. split; intros (r & Hr & Ha); exists r; rewrite ?list_elem_of_In in *; (split; [done|]); cbn in *; intuition.
Qed.

Lemma block_live p0 s a : net_ok p0 s -> a ∈ skb_blocks (skb_records s) -> exists i, a = page_addr (nt_pages s) i /\ page_live (nt_pages s) i 0.
Proof.
  intros Hok (r & Hr & Ha)%elem_blocks. destruct (proj1 (Forall_forall _ _) (no_skbs _ _ Hok) r Hr) as (i & j & len & (Hi & Hj & Es & Ep & _) & _).
  destruct Ha as [->| ->]; [by exists i|by exists j].
Qed.

Lemma buffers_frame s s' : skb_records s' = skb_records s ->
  (forall r, r ∈ skb_records s -> skb_string (nt_mem s') r = skb_string (nt_mem s) r) -> buffers s' = buffers s.
Proof.
  intros E H. unfold buffers. rewrite E. f_equal. apply list_fmap_ext. intros i r Hr. apply list_elem_of_lookup_2 in Hr. by rewrite H.
Qed.

(** Pages changed, but none in use. *)
Lemma net_ok_pages p0 s q :
  net_ok p0 s -> arena_ok b q -> same_place (nt_pages s) q -> (forall i o, page_live q i o <-> page_live (nt_pages s) i o) ->
  (forall a, in_live (nt_pages s) a -> mem_byte (pa_mem q) a = mem_byte (nt_mem s) a) ->
  net_ok p0 (s <| nt_pages := q |>) /\ buffers (s <| nt_pages := q |>) = buffers s.
Proof.
  intros Hok Hq Hpl Hl Hm. pose proof Hok as [H1 H2 [H3 H3'] H4 H5 H6 H7].
  assert (forall r, r ∈ skb_records s -> skb_ok q r /\ skb_string (pa_mem q) r = skb_string (nt_mem s) r) as Hr.
  { intros r Hr. destruct (proj1 (Forall_forall _ _) H4 r Hr) as (i & j & len & Hp & Hf). pose proof Hp as (Hi & Hj & _).
    destruct (skb_frame (nt_pages s) q r i j len Hp Hf Hpl) as (F1 & F2 & F3); [by apply Hl|by apply Hl|done|]. split; [by exists i, j, len|done]. }
  split; [|apply buffers_frame; [done|intros r Hin; by apply Hr]]. destruct Hpl as [P1 P2]. constructor; try done.
  - split; [by rewrite <- H3|by rewrite <- H3'].
  - apply Forall_forall. intros r Hin. by apply Hr.
  - intros i o. rewrite <- H6. apply Hl.
Qed.

(** A new buffer on two pages that were not in use. *)
Lemma net_ok_add p0 s q r i j :
  net_ok p0 s -> arena_ok b q -> same_place (nt_pages s) q -> i <> j ->
  ~ in_live (nt_pages s) (page_addr (nt_pages s) i) -> ~ in_live (nt_pages s) (page_addr (nt_pages s) j) ->
  (forall k o, page_live q k o <-> page_live (nt_pages s) k o \/ o = 0 /\ (k = i \/ k = j)) ->
  (forall a, in_live (nt_pages s) a -> mem_byte (pa_mem q) a = mem_byte (nt_mem s) a) ->
  skb_pages q r i j -> skb_fields (pa_mem q) r 0 ->
  let s' := s <| nt_pages := q |> <| skb_records ::= cons r |> in
  net_ok p0 s' /\ buffers s !! sk_skb r = None /\ buffers s' = <[sk_skb r := (sk_capacity r - 256, [])]> (buffers s).
Proof.
  intros Hok Hq Hpl Hij Hi Hj Hl Hm Hp Hf s'. pose proof Hok as [H1 H2 [H3 H3'] H4 H5 H6 H7].
  pose proof Hp as (_ & _ & Es & Epl & _). rewrite (page_addr_place _ _ i Hpl) in Es. rewrite (page_addr_place _ _ j Hpl) in Epl.
  assert (forall k, page_addr (nt_pages s) k ∈ skb_blocks (skb_records s) -> k <> i /\ k <> j) as Hnew.
  { intros k Hk. destruct (block_live p0 s _ Hok Hk) as (k' & ->%page_addr_inj & Hlk).
    split; intros ->; [apply Hi|apply Hj]; (eapply page_in_live; [done|]; lia). }
  assert ((sk_skb r ∉ skb_blocks (skb_records s)) /\ (sk_payload r ∉ skb_blocks (skb_records s))) as [Hn1 Hn2].
  { rewrite Es, Epl. split; intros H; apply Hnew in H; tauto. }
  assert (forall x, x ∈ skb_records s -> skb_ok q x /\ skb_string (pa_mem q) x = skb_string (nt_mem s) x) as Hr.
  { intros x Hx. destruct (proj1 (Forall_forall _ _) H4 x Hx) as (k & l & len & Hxp & Hxf). pose proof Hxp as (Hk & Hl' & _).
    destruct (skb_frame (nt_pages s) q x k l len Hxp Hxf Hpl) as (F1 & F2 & F3); [apply Hl; auto|apply Hl; auto|done|]. split; [by exists k, l, len|done]. }
  assert (same_place p0 (nt_pages s)) as Hp0 by done. split_and!.
  - destruct Hpl as [P1 P2]. constructor; try done.
    + split; [by rewrite <- H3|by rewrite <- H3'].
    + constructor; [by exists i, j, 0|]. apply Forall_forall. intros x Hx. by apply Hr.
    + cbn. rewrite !NoDup_cons, not_elem_of_cons. split_and!; [|done|done|done]. rewrite Es, Epl. by intros E%page_addr_inj.
    + intros k o. change (nt_pages s') with q. rewrite Hl, H6. cbn. rewrite !elem_of_cons, Es, Epl, !(page_addr_place p0 (nt_pages s)) by done. split.
      * intros [[Ha|[-> Ha]]|[-> [->| ->]]]; [by left|right; tauto|right; tauto|right; tauto].
      * intros [Ha|[-> [Ha%page_addr_inj|[Ha%page_addr_inj|Ha]]]]; tauto.
    + intros k o Hk. cbn. rewrite !not_elem_of_cons, Es, Epl, !(page_addr_place p0 (nt_pages s)) by done.
      assert (page_live (nt_pages s) k o) as Hk' by (apply H6; by left).
      assert (in_live (nt_pages s) (page_addr (nt_pages s) k)) as Hin.
      { exists k, o. split; [done|]. pose proof (block_pages_range o (proj1 Hk')). lia. }
      rewrite (page_addr_place p0 (nt_pages s)) in Hin by done.
      split_and!; [intros ->%page_addr_inj|intros ->%page_addr_inj|by apply (H7 k o)]; rewrite (page_addr_place p0 (nt_pages s)) in Hi, Hj by done; tauto.
  - apply not_elem_of_list_to_map_1. rewrite <- list_fmap_compose. intros (x & E & Hx)%list_elem_of_fmap. apply Hn1. apply elem_blocks. exists x. cbn in E. auto.
  - unfold buffers, s'. cbn [skb_records fmap list_fmap list_to_map]. change (nt_mem (s <| nt_pages := q |> <| skb_records ::= cons r |>)) with (pa_mem q).
    cbn. destruct Hf as (_ & _ & E0 & _). unfold skb_string at 1. rewrite E0. cbn. f_equal. f_equal. apply list_fmap_ext. intros k x Hx. apply list_elem_of_lookup_2 in Hx.
    by rewrite (proj2 (Hr x Hx)).
Qed.

(** What an operation leaves alone: devices, NAPI, the host's frames, memory outside the arena. *)
Definition rest_same s s' : Prop :=
  netdev_records s' = netdev_records s /\ napi_records s' = napi_records s /\ rx_frame_callback s' = rx_frame_callback s /\
  rx_frame_callback_ctx s' = rx_frame_callback_ctx s /\ nt_received s' = nt_received s /\ nt_backend s' = nt_backend s /\
  same_place (nt_pages s) (nt_pages s') /\ forall a, ~ arena_region (nt_pages s) a -> mem_byte (nt_mem s') a = mem_byte (nt_mem s) a.

Lemma took_frame p q got a : took_page p q got -> (~ arena_region p a \/ in_live p a) -> mem_byte (pa_mem q) a = mem_byte (pa_mem p) a.
Proof. intros (_ & _ & _ & H & _). auto. Qed.
Lemma took_place p q got : took_page p q got -> same_place p q.
Proof. intros (_ & H1 & H2 & _). done. Qed.
Lemma region_place p q a : same_place p q -> arena_region q a <-> arena_region p a.
Proof. unfold arena_region. by intros [-> ->]. Qed.
Lemma took_in_live p q got a : took_page p q got -> in_live p a -> in_live q a.
Proof.
  intros Ht (i & o & Hi & Ha). pose proof (took_place _ _ _ Ht) as Hpl. exists i, o. rewrite (page_addr_place p q) by done. split; [|done].
  destruct Ht as (_ & _ & _ & _ & H). destruct got as [k|]; [apply H; by left|]. unfold page_live. by rewrite H.
Qed.
Lemma page_region p i a : (i < 4096)%nat -> page_addr p i <= a < page_addr p i + 4096 -> arena_region p a.
Proof. unfold page_addr. intros Hi Ha. left. net_lia. Qed.

(** The two pages a buffer asks for, and giving back those that were got. *)
Definition has_pages p q (got1 got2 : option nat) : Prop :=
  arena_ok b q /\ same_place p q /\
  (forall k o, page_live q k o <-> page_live p k o \/ o = 0 /\ (got1 = Some k \/ got2 = Some k)) /\
  (forall i, got1 = Some i \/ got2 = Some i -> (i < 4096)%nat /\ ~ in_live p (page_addr p i)) /\ (forall i, got1 = Some i -> got2 <> Some i).

Lemma not_in_live p i o : ~ in_live p (page_addr p i) -> ~ page_live p i o.
Proof. intros H Hi. apply H. exists i, o. split; [done|]. pose proof (block_pages_range o (proj1 Hi)). lia. Qed.

Lemma give_back_both p q got1 got2 skb page :
  has_pages p q got1 got2 ->
  skb = match got1 with Some i => page_addr p i | None => 0 end -> (skb = 0 <-> got1 = None) ->
  page = match got2 with Some j => kb_kvm_page_records p + 64 * Z.of_nat j | None => 0 end -> (page = 0 <-> got2 = None) ->
  let q' := (let q := if skb =? 0 then q else kb_kvm_free_pages_exact (ne_arena e) skb KB_KVM_PAGE_SIZE q in
             if page =? 0 then q else (kb_kvm_release_pages (ne_arena e) page 0 q).1) in
  arena_ok b q' /\ same_place p q' /\ pa_mem q' = pa_mem q /\ forall k o, page_live q' k o <-> page_live p k o.
Proof.
  intros (Har & Hpl & Hlive & Hfree & Hne) Es Zs Ep Zp. cbn zeta.
  assert (exists q1, (if skb =? 0 then q else kb_kvm_free_pages_exact (ne_arena e) skb KB_KVM_PAGE_SIZE q) = q1 /\ has_pages p q1 None got2 /\ pa_mem q1 = pa_mem q)
    as (q1 & -> & (Har1 & Hpl1 & Hlive1 & _) & Hm1).
  { destruct got1 as [i|].
    - rewrite (proj2 (Z.eqb_neq skb 0)) by (rewrite Zs; done). eexists. split; [done|]. rewrite Es, <- (page_addr_place p q i Hpl).
      destruct (drop_exact q i Har) as (H1 & H2 & H3 & H4 & H5); [apply Hlive; auto|]. split; [|done]. destruct Hpl as [P1 P2]. split_and!; [done|split; congruence| | |done].
      + intros k o. rewrite H5, Hlive. split; [intros [[Hk|[-> [[= ->]|Hk]]] Hn]; auto; done|].
        intros [Hk|[-> [Hk|Hk]]]; [|done|]; (split; [auto|]); intros ->.
        * apply (not_in_live p i o); [|done]. apply Hfree. auto.
        * by apply (Hne i).
      + intros k [Hk|Hk]; [done|]. apply Hfree. auto.
    - rewrite (proj2 (Z.eqb_eq skb 0)) by (rewrite Zs; done). exists q. by split_and!. }
  destruct got2 as [j|].
  - rewrite (proj2 (Z.eqb_neq page 0)) by (rewrite Zp; done). rewrite Ep, <- (proj2 Hpl1).
    destruct (drop_record q1 j Har1) as (H1 & H2 & H3 & H4 & H5); [apply Hlive1; auto|]. destruct Hpl1 as [P1 P2]. split_and!; [done|split; congruence|congruence|].
    intros k o. rewrite H5, Hlive1. split; [intros [[Hk|[-> [Hk|[= ->]]]] Hn]; auto; done|].
    intros Hk. split; [auto|]. intros ->. apply (not_in_live p j o); [|done]. apply Hfree. auto.
  - rewrite (proj2 (Z.eqb_eq page 0)) by (rewrite Zp; done). split_and!; [done|done|done|]. intros k o. rewrite Hlive1. intuition (try done).
Qed.

Lemma ask_pages p p1 p2 p3 p4 skb page payload dma :
  arena_ok b p -> exact_pages KB_KVM_PAGE_SIZE p = (p1, skb) -> stub 0 p1 = (p2, page) ->
  payload_for_kvm_page e page p2 = (p3, payload) -> dma_addr_for_kvm_page e page p3 = (p4, dma) ->
  exists got1 got2, has_pages p p4 got1 got2 /\
    (forall a, ~ arena_region p a \/ in_live p a -> mem_byte (pa_mem p4) a = mem_byte (pa_mem p) a) /\
    skb = match got1 with Some i => page_addr p i | None => 0 end /\ (skb = 0 <-> got1 = None) /\
    page = match got2 with Some j => kb_kvm_page_records p + 64 * Z.of_nat j | None => 0 end /\ (page = 0 <-> got2 = None) /\
    payload = match got2 with Some j => page_addr p j | None => 0 end.
Proof.
  intros Har E1 E2 E3 E4. destruct (take_exact_page p p1 skb Har E1) as (got1 & T1 & Eskb & Zskb). pose proof (proj1 T1) as Har1. pose proof (took_place _ _ _ T1) as Pl1.
  destruct (take_page p1 p2 page Har1 E2) as (got2 & T2 & Epage & Zpage). pose proof (proj1 T2) as Har2. pose proof (took_place _ _ _ T2) as Pl2.
  assert (arena_ok b p3 /\ same_arena p2 p3 /\ payload = match got2 with Some j => page_addr p2 j | None => 0 end) as (Har3 & Sa3 & Epay).
  { destruct got2 as [j|].
    - rewrite Epage, <- (proj2 Pl2) in E3. destruct T2 as (_ & _ & _ & _ & Hj & _). destruct (payload_page p2 j Har2 Hj) as (q & Eq & Hq & Sq).
      rewrite Eq in E3. by injection E3 as <- <-.
    - rewrite Epage in E3. destruct (payload_null p2 Har2) as (q & Eq & Hq & Sq). rewrite Eq in E3. by injection E3 as <- <-. }
  destruct (dma_addr_same page p3 Har3) as [Har4 Sa4]. rewrite E4 in Har4, Sa4. cbn [fst] in *. clear E1 E2 E3 E4.
  pose proof (same_arena_trans _ _ _ Sa3 Sa4) as (S1 & S2 & S3 & S4).
  assert (has_pages p p4 got1 got2) as Hhas.
  { assert (same_place p p4) as Hpl by (destruct Pl1, Pl2; split; congruence). destruct T1 as (_ & _ & _ & _ & G1), T2 as (_ & _ & _ & _ & G2).
    assert (forall k o, page_live p1 k o <-> page_live p k o \/ o = 0 /\ got1 = Some k) as L1.
    { intros k o. destruct got1 as [i|]; [destruct G1 as (_ & _ & ->); intuition congruence|]. unfold page_live. rewrite G1. intuition congruence. }
    assert (forall i a, got2 = Some i -> in_live p a -> ~ page_addr p i <= a < page_addr p i + 4096) as Hfree2.
    { intros i a -> Ha Hx. destruct G2 as (_ & G2 & _). rewrite <- (page_addr_place p p1 i Pl1) in Hx. destruct (G2 a Hx) as [Hn _]. apply Hn.
      destruct Ha as (k & o & Hk & Ha). exists k, o. rewrite (page_addr_place p p1) by done. split; [|done]. apply L1. by left. }
    split_and!; [done|done| | |].
    - intros k o. assert (page_live p4 k o <-> page_live p1 k o \/ o = 0 /\ got2 = Some k) as ->; [|rewrite L1; tauto].
      unfold page_live at 1. rewrite S3. fold (page_live p2 k o). destruct got2 as [j|]; [destruct G2 as (_ & _ & ->); intuition congruence|].
      unfold page_live. rewrite G2. intuition congruence.
    - intros i [->| ->]; [split; [apply G1|]; destruct G1 as (_ & G1 & _); apply G1; lia|].
      split; [apply G2|]. intros Ha. apply (Hfree2 i _ eq_refl Ha). lia.
    - intros i -> ->. destruct G2 as (_ & G2 & _). destruct (G2 (page_addr p1 i) ltac:(lia)) as [Hn _]. apply Hn.
      eapply page_in_live; [apply L1; by right|]. lia. }
  assert (forall a, ~ arena_region p a \/ in_live p a -> mem_byte (pa_mem p4) a = mem_byte (pa_mem p) a) as Hframe.
  { intros a Ha. rewrite S4, (took_frame _ _ _ a T2), (took_frame _ _ _ a T1); [done|done|].
    destruct Ha as [Ha|Ha]; [left; by rewrite (region_place p p1)|right; by eapply took_in_live]. }
  exists got1, got2. split_and!; try done; destruct got2 as [j|]; try done.
  - by rewrite Epage, (proj2 Pl1).
  - rewrite Epay. destruct Pl1, Pl2. apply page_addr_place. split; congruence.
Qed.

Lemma alloc_spec p0 dev length s :
  net_ok p0 s -> 0 <= length < 2 ^ 32 - 256 ->
  let '(s', skb) := kb_netdev_alloc_skb e dev length s in
  net_ok p0 s' /\ rest_same s s' /\
  (skb = 0 /\ skb_records s' = skb_records s /\ buffers s' = buffers s \/ skb <> 0 /\ length <= 3840 /\ buffers s !! skb = None /\ buffers s' = <[skb := (length, [])]> (buffers s)).
Proof.
  intros Hok Hlen. pose proof (no_arena _ _ Hok) as Har. unfold kb_netdev_alloc_skb. change KB_RHEL_3_10_SKB_HEADROOM with 256.
  rewrite (u32_small (length + 256)) by (unfold is_u32; change (2 ^ 32) with 4294967296 in *; lia). rewrite (no_backend _ _ Hok).
  destruct (Z.ltb_spec KB_KVM_PAGE_SIZE (length + 256)) as [Hbig|Hfit]; [split_and!; [done|by unfold rest_same|by left]|].
  set (p := nt_pages s) in *. destruct (exact_pages KB_KVM_PAGE_SIZE p) as [p1 skb] eqn:E1. destruct (stub 0 p1) as [p2 page] eqn:E2.
  destruct (payload_for_kvm_page e page p2) as [p3 payload] eqn:E3. destruct (dma_addr_for_kvm_page e page p3) as [p4 dma] eqn:E4.
  destruct (ask_pages _ _ _ _ _ _ _ _ _ Har E1 E2 E3 E4) as (got1 & got2 & Hhas & Hframe & Es & Zs & Ep & Zp & Epay). clear E1 E2 E3 E4 p1 p2 p3.
  assert (forall q, has_pages p q got1 got2 -> (forall a, ~ arena_region p a \/ in_live p a -> mem_byte (pa_mem q) a = mem_byte (pa_mem p) a) ->
    let q' := (let q := if skb =? 0 then q else kb_kvm_free_pages_exact (ne_arena e) skb KB_KVM_PAGE_SIZE q in
               if page =? 0 then q else (kb_kvm_release_pages (ne_arena e) page 0 q).1) in
    net_ok p0 (s <| nt_pages := q' |>) /\ rest_same s (s <| nt_pages := q' |>) /\ buffers (s <| nt_pages := q' |>) = buffers s) as Hback.
  { intros q Hq Hf q'. destruct (give_back_both p q got1 got2 skb page Hq Es Zs Ep Zp) as (B1 & B2 & B3 & B4). fold q' in B1, B2, B3, B4.
    destruct (net_ok_pages p0 s q' Hok B1 B2 B4) as [N1 N2]; [intros a Ha; rewrite B3; auto|]. split_and!; [done| |done].
    unfold rest_same. split_and!; try done. intros a Ha. change (mem_byte (pa_mem q') a = mem_byte (pa_mem p) a). rewrite B3. auto. }
  destruct ((skb =? 0) || (page =? 0) || (payload =? 0)) eqn:Hnone.
  { destruct (Hback p4 Hhas Hframe) as (N1 & N2 & N3). split_and!; [done|done|by left]. }
  apply orb_false_iff in Hnone as [[Hs Hp]%orb_false_iff _]. apply Z.eqb_neq in Hs, Hp.
  destruct got1 as [i|]; [|tauto]. destruct got2 as [j|]; [|tauto]. pose proof Hhas as (Har4 & Hpl & Hlive & Hfree & Hne).
  destruct (Hfree i) as [Hi Hfi]; [auto|]. destruct (Hfree j) as [Hj Hfj]; [auto|]. assert (i <> j) as Hij by (intros ->; by apply (Hne j)).
  pose proof (ao_range _ _ Har) as Hrange.
  destruct (init_skb_fields skb payload dev (length + 256) (pa_mem p4)) as (F1 & F2 & F3 & F4); [subst skb payload; unfold page_addr; lia|subst payload; unfold page_addr; net_lia|].
  set (p5 := p4 <| pa_mem ::= init_skb skb payload dev (length + 256) |>). change (pa_mem p5) with (init_skb skb payload dev (length + 256) (pa_mem p4)) in *.
  assert (has_pages p p5 (Some i) (Some j)) as Hhas5 by (split; [by apply arena_ok_mem|done]).
  assert (forall a, ~ arena_region p a \/ in_live p a -> mem_byte (pa_mem p5) a = mem_byte (pa_mem p) a) as Hframe5.
  { intros a Ha. assert (forall k, (k < 4096)%nat -> ~ in_live p (page_addr p k) -> ~ page_addr p k <= a < page_addr p k + 4096) as Hout.
    { intros k Hk Hfk Hin. destruct Ha as [Ha|Ha]; [by apply Ha, (page_region p k)|]. destruct Ha as (l & o & Hl & Ha). apply Hfk. exists l, o. split; [done|]. unfold page_addr in *. lia. }
    change (pa_mem p5) with (init_skb skb payload dev (length + 256) (pa_mem p4)). rewrite F4, (Hframe a Ha); [done|subst skb; by apply Hout|subst payload; by apply Hout]. }
  destruct (ne_record e (s <| nt_pages := p5 |>)).
  2: { destruct (Hback p5 Hhas5 Hframe5) as (N1 & N2 & N3). split_and!; [done|done|by left]. }
  destruct (net_ok_add p0 s p5 (mk_skb skb page payload dma KB_KVM_PAGE_SIZE (length + 256)) i j Hok (proj1 Hhas5) Hpl Hij Hfi Hfj) as (N1 & N2 & N3).
  - intros k o. change (page_live p5 k o) with (page_live p4 k o). rewrite Hlive. intuition (try congruence).
  - intros a Ha. apply Hframe5. by right.
  - unfold skb_pages. rewrite !(page_addr_place p p5) by done. cbn. split_and!; [apply Hlive; auto|apply Hlive; auto|done|done| |lia|net_lia].
    change (kb_kvm_page_records p5) with (kb_kvm_page_records p4). by rewrite (proj2 Hpl).
  - unfold skb_fields. cbn. split_and!; [exact F1|exact F2|exact F3|lia|lia].
  - split_and!; [exact N1| |].
    + unfold rest_same. split_and!; try done. intros a Ha. change (mem_byte (pa_mem p5) a = mem_byte (pa_mem p) a). auto.
    + right. cbn in N2, N3. split_and!; [done|net_lia|done|]. replace (length + 256 - 256) with length in N3 by lia. exact N3.
Qed.

(** *** Release *)

Lemma keys_nodup l : NoDup (skb_blocks l) -> NoDup (sk_skb <$> l).
Proof.
  induction l as [|r l IH]; cbn; [by constructor|]. intros [H1 [_ H2]%NoDup_cons]%NoDup_cons. apply NoDup_cons. split; [|auto].
  intros (x & E & Hx)%list_elem_of_fmap. apply H1. right. apply elem_blocks. exists x. auto.
Qed.

Lemma find_skb_Some skb s r : find_skb_record skb s = Some r -> r ∈ skb_records s /\ sk_skb r = skb.
Proof. unfold find_skb_record. intros ([i x] & (Hi & Hx & _)%list_find_Some & [= ->])%fmap_Some. split; [by eapply list_elem_of_lookup_2|done]. Qed.

Lemma buffers_lookup p0 s r : net_ok p0 s -> r ∈ skb_records s -> buffers s !! sk_skb r = Some (skb_string (nt_mem s) r).
Proof.
  intros Hok Hr. apply elem_of_list_to_map_1; [rewrite <- list_fmap_compose; exact (keys_nodup _ (no_nodup _ _ Hok))|]. apply list_elem_of_fmap. by exists r.
Qed.
Lemma buffers_absent s skb : find_skb_record skb s = None -> buffers s !! skb = None.
Proof.
  intros H%fmap_None. apply list_find_None in H. apply not_elem_of_list_to_map_1. rewrite <- list_fmap_compose. intros (x & E & Hx)%list_elem_of_fmap.
  by apply (proj1 (Forall_forall _ _) H x Hx).
Qed.

Lemma blocks_perm l1 r l2 : skb_blocks (l1 ++ r :: l2) ≡ₚ sk_skb r :: sk_payload r :: skb_blocks (l1 ++ l2).
Proof. unfold skb_blocks. rewrite !flat_map_app. cbn. by rewrite <- !Permutation_middle. Qed.

Lemma net_ok_drop p0 s l1 r l2 q i j :
  net_ok p0 s -> skb_records s = l1 ++ r :: l2 -> skb_pages (nt_pages s) r i j -> arena_ok b q -> same_place (nt_pages s) q -> pa_mem q = nt_mem s ->
  (forall k o, page_live q k o <-> page_live (nt_pages s) k o /\ k <> i /\ k <> j) ->
  let s' := s <| skb_records := l1 ++ l2 |> <| nt_pages := q |> in net_ok p0 s' /\ buffers s' = delete (sk_skb r) (buffers s).
Proof.
  intros Hok El (Hi & Hj & Es & Ep & _) Hq Hpl Hm Hl s'. pose proof Hok as [H1 H2 H3 H4 H5 H6 H7]. rewrite El in H4, H5, H6, H7.
  pose proof H5 as Hn. rewrite blocks_perm, !NoDup_cons, not_elem_of_cons in Hn. destruct Hn as ([Hne Hn1] & Hn2 & Hn).
  assert (same_place p0 (nt_pages s)) as Hp0 by done.
  assert (forall k, page_addr p0 k ∈ skb_blocks (l1 ++ r :: l2) <-> k = i \/ k = j \/ page_addr p0 k ∈ skb_blocks (l1 ++ l2)) as Hb.
  { intros k. rewrite blocks_perm, !elem_of_cons, Es, Ep, !(page_addr_place p0 (nt_pages s)) by done. split.
    - intros [->%page_addr_inj|[->%page_addr_inj|H]]; auto.
    - intros [->|[->|H]]; auto. }
  assert (forall k, page_addr p0 k ∈ skb_blocks (l1 ++ l2) -> k <> i /\ k <> j) as Hrest.
  { intros k Hk. split; intros ->; [apply Hn1; rewrite Es|apply Hn2; rewrite Ep]; by rewrite (page_addr_place p0 (nt_pages s)). }
  assert (forall x, x ∈ l1 ++ l2 -> skb_ok q x) as Hx.
  { intros x Hx. assert (x ∈ l1 ++ r :: l2) as Hx' by (rewrite elem_of_app, elem_of_cons in *; tauto).
    destruct (proj1 (Forall_forall _ _) H4 x Hx') as (k & l & len & Hxp & Hxf). pose proof Hxp as (Hk & Hl' & Exs & Exp & _).
    assert (forall c, page_addr (nt_pages s) c ∈ skb_blocks (l1 ++ l2) -> page_live (nt_pages s) c 0 -> page_live q c 0) as Hkeep.
    { intros c Hc Hlc. apply Hl. split; [done|]. apply Hrest. by rewrite <- (page_addr_place p0 (nt_pages s)). }
    destruct (skb_frame (nt_pages s) q x k l len Hxp Hxf Hpl) as (F1 & F2 & _); [| |intros a _; by rewrite Hm|by exists k, l, len].
    all: apply Hkeep; [apply elem_blocks; exists x; auto|done]. }
  split.
  - destruct Hpl as [P1 P2], Hp0 as [Q1 Q2]. constructor; [exact Hq|exact H2|split; [exact (eq_trans P1 Q1)|exact (eq_trans P2 Q2)]|apply Forall_forall; exact Hx|exact Hn| |].
    + intros k o. change (nt_pages s') with q. change (skb_records s') with (l1 ++ l2). rewrite Hl, H6, Hb. split.
      * intros [[Ha|[-> [->|[->|Ha]]]] [N1 N2]]; [by left|done|done|by right].
      * intros [Ha|[-> Ha]]; [|split; [tauto|by apply Hrest]]. pose proof (H7 k o Ha) as Hno. rewrite Hb in Hno. tauto.
    + intros k o Ha. pose proof (H7 k o Ha) as Hno. rewrite Hb in Hno. change (skb_records s') with (l1 ++ l2). tauto.
  - unfold buffers. change (skb_records s') with (l1 ++ l2). change (nt_mem s') with (pa_mem q). rewrite Hm, El.
    set (f := fun x => (sk_skb x, skb_string (nt_mem s) x)).
    assert (f <$> l1 ++ r :: l2 ≡ₚ f r :: (f <$> l1 ++ l2)) as Hperm by (by rewrite <- Permutation_middle).
    rewrite (list_to_map_proper _ _ (eq_ind_r (fun l => NoDup l) (keys_nodup _ H5) (eq_sym (list_fmap_compose f fst _))) Hperm).
    change (list_to_map (f r :: (f <$> l1 ++ l2))) with (<[sk_skb r := skb_string (nt_mem s) r]> (list_to_map (f <$> l1 ++ l2) : gmap Z (Z * list Z))). rewrite delete_insert_id; [done|].
    apply not_elem_of_list_to_map_1. rewrite <- list_fmap_compose. intros (x & E & Hx')%list_elem_of_fmap. apply Hn1, elem_blocks. exists x. auto.
Qed.

Lemma consume_spec p0 skb s : net_ok p0 s ->
  let s' := kb_net_device_consume_skb e skb s in net_ok p0 s' /\ rest_same s s' /\ buffers s' = delete skb (buffers s).
Proof.
  intros Hok. unfold kb_net_device_consume_skb. destruct (list_find _ (skb_records s)) as [[n r]|] eqn:Hf; cbn zeta.
  2: { split_and!; [done|by unfold rest_same|]. symmetry. apply delete_id, buffers_absent. unfold find_skb_record. by rewrite Hf. }
  apply list_find_Some in Hf as (Hn & <- & _). apply list_elem_of_split_length in Hn as (l1 & l2 & El & ->).
  destruct (proj1 (Forall_forall _ _) (no_skbs _ _ Hok) r) as (i & j & len & Hp & _); [rewrite El; apply elem_of_app; right; by left|].
  pose proof Hp as (Hi & Hj & Es & Epl & Epg & _). set (p := nt_pages s) in *.
  assert (i <> j) as Hij.
  { intros ->. pose proof (no_nodup _ _ Hok) as Hnd. rewrite El, blocks_perm, NoDup_cons, not_elem_of_cons in Hnd. destruct Hnd as [[Hnd _] _]. congruence. }
  destruct (drop_exact p i (no_arena _ _ Hok) Hi) as (A1 & A2 & A3 & A4 & A5). rewrite <- Es in *.
  set (q1 := kb_kvm_free_pages_exact (ne_arena e) (sk_skb r) KB_KVM_PAGE_SIZE p) in *.
  destruct (drop_record q1 j A1) as (B1 & B2 & B3 & B4 & B5); [apply A5; auto|]. rewrite A3, <- Epg in B1, B2, B3, B4, B5.
  set (q := (kb_kvm_release_pages (ne_arena e) (sk_page r) 0 q1).1) in *.
  assert (s <| skb_records ::= delete (length l1) |> <| nt_pages ::= (fun p => (kb_kvm_release_pages (ne_arena e) (sk_page r) 0
            (kb_kvm_free_pages_exact (ne_arena e) (sk_skb r) KB_KVM_PAGE_SIZE p)).1) |> = s <| skb_records := l1 ++ l2 |> <| nt_pages := q |>) as ->.
  { cbn. by rewrite El, delete_middle. }
  destruct (net_ok_drop p0 s l1 r l2 q i j Hok El Hp B1) as [N1 N2]; [exact (conj (eq_trans B2 A2) B3)|exact (eq_trans B4 A4)|intros k o; rewrite B5, A5; tauto|].
  split_and!; [exact N1| |exact N2]. unfold rest_same. split_and!; try done; [exact (conj (eq_trans B2 A2) B3)|].
  intros a _. change (mem_byte (pa_mem q) a = mem_byte (pa_mem p) a). by rewrite B4, A4.
Qed.

(** *** Writes into one buffer *)

Lemma touch_skb p0 s r i j len f :
  net_ok p0 s -> r ∈ skb_records s -> skb_pages (nt_pages s) r i j ->
  (forall a, ~ page_addr (nt_pages s) i <= a < page_addr (nt_pages s) i + 4096 -> ~ page_addr (nt_pages s) j <= a < page_addr (nt_pages s) j + 4096 ->
     mem_byte (f (nt_mem s)) a = mem_byte (nt_mem s) a) ->
  skb_fields (f (nt_mem s)) r len ->
  let s' := with_mem f s in net_ok p0 s' /\ rest_same s s' /\ buffers s' = <[sk_skb r := skb_string (f (nt_mem s)) r]> (buffers s).
Proof.
  intros Hok Hr Hp Hf Hfd s'. pose proof Hok as [H1 H2 H3 H4 H5 H6 H7]. set (p := nt_pages s) in *. pose proof Hp as (Hi & Hj & Es & Epl & _).
  set (q := p <| pa_mem ::= f |>). assert (nt_pages s' = q) as Eq by done.
  assert (forall x, x ∈ skb_records s -> sk_skb x <> sk_skb r -> skb_ok q x /\ skb_string (f (nt_mem s)) x = skb_string (nt_mem s) x) as Hx.
  { intros x Hx Hne. destruct (proj1 (Forall_forall _ _) H4 x Hx) as (k & l & len' & Hxp & Hxf). pose proof Hxp as (Hk & Hl & Exs & Exp & _).
    assert (forall c d, (c = k \/ c = l) -> (d = i \/ d = j) -> c <> d) as Hcd.
    { intros c d Hc Hd ->. apply list_elem_of_split in Hr as (l1 & l2 & El). rewrite El in Hx. rewrite El, blocks_perm, !NoDup_cons, not_elem_of_cons in H5.
      destruct H5 as ([_ N1] & N2 & _). assert (page_addr p d ∈ skb_blocks (l1 ++ l2)) as Hin.
      { apply elem_blocks. exists x. split; [|destruct Hc as [->| ->]; auto]. rewrite elem_of_app, elem_of_cons in Hx. rewrite elem_of_app. destruct Hx as [?|[->|?]]; tauto. }
      destruct Hd as [->| ->]; [apply N1|apply N2]; congruence. }
    destruct (skb_frame_pages p q x k l len' Hxp Hxf) as (F1 & F2 & F3); try done; [|split; [by exists k, l, len'|done]].
    intros a c Hc Ha. apply Hf; intros Ha'; [pose proof (Hcd c i Hc ltac:(auto))|pose proof (Hcd c j Hc ltac:(auto))]; unfold page_addr in *; lia. }
  assert (forall x, x ∈ skb_records s -> sk_skb x = sk_skb r -> x = r) as Hsame.
  { intros x Hx' E. apply list_elem_of_lookup in Hx' as [k Hk], Hr as [l Hl].
    assert (k = l) as ->; [|congruence]. eapply NoDup_lookup; [exact (keys_nodup _ H5)|by rewrite list_lookup_fmap, Hk|]. rewrite list_lookup_fmap, Hl. cbn. by rewrite E. }
  split_and!.
  - constructor; try done; [by apply arena_ok_mem|]. apply Forall_forall. intros x Hin. destruct (decide (sk_skb x = sk_skb r)) as [E|E]; [|by apply Hx].
    rewrite (Hsame x Hin E). by exists i, j, len.
  - unfold rest_same. split_and!; try done. intros a Ha. apply Hf; intros Hin; apply Ha.
    + apply (page_region p i); [|done]. pose proof (live_range p i 0 (ao_pages _ _ H1) Hi). change (block_pages 0) with 1%nat in *. lia.
    + apply (page_region p j); [|done]. pose proof (live_range p j 0 (ao_pages _ _ H1) Hj). change (block_pages 0) with 1%nat in *. lia.
  - apply map_eq. intros k. assert (NoDup (((fun x => (sk_skb x, skb_string (nt_mem s') x)) <$> skb_records s).*1)) as Hnd by (rewrite <- list_fmap_compose; exact (keys_nodup _ H5)).
    destruct (decide (k = sk_skb r)) as [->|Hk].
    + rewrite lookup_insert_eq. apply elem_of_list_to_map_1; [done|]. apply list_elem_of_fmap. by exists r.
    + rewrite lookup_insert_ne by done. apply option_eq. intros v. unfold buffers. change (skb_records s') with (skb_records s).
      rewrite <- !elem_of_list_to_map; [|rewrite <- list_fmap_compose; exact (keys_nodup _ H5)|done]. rewrite !list_elem_of_fmap.
      split; intros (x & [= -> ->] & Hin); exists x; (split; [|done]); f_equal; [|symmetry]; by apply Hx.
Qed.

Lemma find_skb p0 s r : net_ok p0 s -> r ∈ skb_records s -> find_skb_record (sk_skb r) s = Some r.
Proof.
  intros Hok Hr. destruct (find_skb_record (sk_skb r) s) as [x|] eqn:E.
  - apply find_skb_Some in E as [Hx E]. apply list_elem_of_lookup in Hx as [k Hk], Hr as [l Hl]. f_equal.
    assert (k = l) as ->; [|congruence]. eapply NoDup_lookup; [exact (keys_nodup _ (no_nodup _ _ Hok))|by rewrite list_lookup_fmap, Hk|]. rewrite list_lookup_fmap, Hl. cbn. by rewrite E.
  - apply buffers_absent in E. by rewrite (buffers_lookup p0 s r Hok Hr) in E.
Qed.

Lemma skb_range p0 s r i j : net_ok p0 s -> r ∈ skb_records s -> skb_pages (nt_pages s) r i j ->
  i <> j /\ 4096 <= sk_skb r /\ sk_skb r + 4096 < 2 ^ 64 /\ 4096 <= sk_payload r /\ sk_payload r + 4096 < 2 ^ 64.
Proof.
  intros Hok Hr Hp. pose proof (no_arena _ _ Hok) as Har. pose proof (ao_range _ _ Har) as Hrange. pose proof Hp as (Hi & Hj & Es & Ep & _).
  pose proof (live_range _ i 0 (ao_pages _ _ Har) Hi) as [_ Li]. pose proof (live_range _ j 0 (ao_pages _ _ Har) Hj) as [_ Lj]. change (block_pages 0) with 1%nat in *.
  split; [|rewrite Es, Ep; unfold page_addr; net_lia].
  intros ->. apply list_elem_of_split in Hr as (l1 & l2 & El). pose proof (no_nodup _ _ Hok) as Hn. rewrite El, blocks_perm, NoDup_cons, not_elem_of_cons in Hn.
  destruct Hn as [[Hn _] _]. congruence.
Qed.

Lemma skb_parts p0 s r : net_ok p0 s -> r ∈ skb_records s ->
  exists i j len, skb_pages (nt_pages s) r i j /\ skb_fields (nt_mem s) r len /\ blen (skb_string (nt_mem s) r).2 = len /\
    skb_string (nt_mem s) r = (sk_capacity r - 256, mload (nt_mem s) (sk_payload r + 256) (Z.to_nat len)).
Proof.
  intros Hok Hr. destruct (proj1 (Forall_forall _ _) (no_skbs _ _ Hok) r Hr) as (i & j & len & Hp & Hf). exists i, j, len. change (pa_mem (nt_pages s)) with (nt_mem s) in Hf.
  unfold skb_string. destruct (Hf) as (_ & _ & -> & Hl & _). split_and!; [done|done|cbn; by rewrite blen_mload|done].
Qed.

Lemma data_pointer m r len : skb_fields m r len -> sk_skb r <> 0 -> read_ptr_at m (sk_skb r) KB_RHEL_3_10_SKB_SIZE KB_RHEL_3_10_SKB_DATA_OFFSET = sk_payload r + 256.
Proof. intros (H & _) Hs. unfold read_ptr_at. rewrite (proj2 (Z.eqb_neq _ _) Hs). cbn. exact H. Qed.

(** Reserving room at the end. *)
Lemma put_spec p0 s r i j len n :
  net_ok p0 s -> r ∈ skb_records s -> skb_pages (nt_pages s) r i j -> skb_fields (nt_mem s) r len -> 0 <= n < 2 ^ 32 - 4096 ->
  let '(s', a) := kb_skb_put (sk_skb r) n s in
  if decide (len + n <= sk_capacity r - 256) then
    a = sk_payload r + 256 + len /\ net_ok p0 s' /\ rest_same s s' /\ skb_records s' = skb_records s /\ skb_pages (nt_pages s') r i j /\
    skb_fields (nt_mem s') r (len + n) /\ buffers s' = <[sk_skb r := (sk_capacity r - 256, mload (nt_mem s) (sk_payload r + 256) (Z.to_nat (len + n)))]> (buffers s)
  else s' = s /\ a = 0.
Proof.
  intros Hok Hr Hp Hf Hn. destruct (skb_range p0 s r i j Hok Hr Hp) as (Hij & R1 & R2 & R3 & R4). pose proof Hp as (Hi & Hj & Es & Epl & _ & Hcap).
  unfold kb_skb_put. rewrite (find_skb p0 s r Hok Hr). rewrite (data_pointer _ _ _ Hf) by lia. pose proof Hf as (F1 & F2 & F3 & F4 & F5).
  change KB_RHEL_3_10_SKB_TAIL_OFFSET with 0xf0. change KB_RHEL_3_10_SKB_LEN_OFFSET with 0x68. change KB_LINUX_6_8_SKB_TAIL_OFFSET with 0xbc. change KB_LINUX_6_8_SKB_LEN_OFFSET with 0x70.
  rewrite F2, F3. assert (is_u32 (256 + len + n) /\ is_u32 (len + n)) as [U1 U2] by (unfold is_u32; change (2 ^ 32) with 4294967296 in *; lia).
  rewrite !u32_small by done. rewrite (proj2 (Z.eqb_neq (sk_payload r + 256) 0)) by lia. cbn [orb].
  destruct (Z.ltb_spec (sk_capacity r) (256 + len + n)) as [Hbig|Hfit]; [by rewrite decide_False by lia|]. rewrite decide_True by lia.
  set (f := fun m : mem => _). assert (forall a k, (forall c, c = 0xf0 \/ c = 0x68 \/ c = 0xbc \/ c = 0x70 -> a + Z.of_nat k <= sk_skb r + c \/ sk_skb r + c + 4 <= a) ->
      mload (f (nt_mem s)) a k = mload (nt_mem s) a k) as Hsame.
  { intros a k Ha. unfold f, mstore32. rewrite !mload_mstore_other by (rewrite length_le_bytes; apply Ha; auto). done. }
  assert (skb_fields (f (nt_mem s)) r (len + n)) as Hf'.
  { unfold skb_fields. split_and!; [unfold mload64; rewrite Hsame by lia; exact F1| | |lia|lia]; unfold f, mload32, mstore32.
    - repeat rewrite mload_mstore_other by (rewrite length_le_bytes; lia). rewrite Z.add_assoc. by apply (mload32_mstore32_same _ (sk_skb r + 240)).
    - repeat rewrite mload_mstore_other by (rewrite length_le_bytes; lia). by apply (mload32_mstore32_same _ (sk_skb r + 104)). }
  assert (forall c k, 0 <= c -> c + Z.of_nat k <= 4096 -> mload (f (nt_mem s)) (sk_payload r + c) k = mload (nt_mem s) (sk_payload r + c) k) as Hpay.
  { intros c k Hc Hk. apply Hsame. intros d Hd. rewrite Es, Epl. unfold page_addr. lia. }
  destruct (touch_skb p0 s r i j (len + n) f Hok Hr Hp) as (N1 & N2 & N3); [|done|].
  { intros a Ha _. unfold f, mstore32. rewrite !mem_byte_mstore_out by (rewrite length_le_bytes; lia). done. }
  split_and!; try done; [rewrite u64_small by net_lia; lia|]. rewrite N3. f_equal. unfold skb_string. destruct Hf' as (_ & _ & -> & _). f_equal. apply Hpay; lia.
Qed.

(** Storing bytes inside the string. *)
Lemma store_spec p0 s r i j len o q :
  net_ok p0 s -> r ∈ skb_records s -> skb_pages (nt_pages s) r i j -> skb_fields (nt_mem s) r len -> 0 <= o -> o + blen q <= len ->
  let s' := with_mem (fun m => mstore m (sk_payload r + 256 + o) q) s in
  net_ok p0 s' /\ rest_same s s' /\ buffers s' = <[sk_skb r := (sk_capacity r - 256, splice (mload (nt_mem s) (sk_payload r + 256) (Z.to_nat len)) o q)]> (buffers s).
Proof.
  intros Hok Hr Hp Hf Ho Hq s'. destruct (skb_range p0 s r i j Hok Hr Hp) as (Hij & _). pose proof Hp as (Hi & Hj & Es & Epl & _ & Hcap).
  pose proof Hf as (F1 & F2 & F3 & F4 & F5). unfold blen in Hq. set (f := fun m => mstore m (sk_payload r + 256 + o) q).
  assert (forall c k, 0 <= c -> c + Z.of_nat k <= 4096 -> mload (f (nt_mem s)) (sk_skb r + c) k = mload (nt_mem s) (sk_skb r + c) k) as Hs.
  { intros c k Hc Hk. apply mload_mstore_other. rewrite Es, Epl. unfold page_addr. lia. }
  assert (skb_fields (f (nt_mem s)) r len) as Hf' by (unfold skb_fields, mload64, mload32; rewrite !Hs by lia; done).
  destruct (touch_skb p0 s r i j len f Hok Hr Hp) as (N1 & N2 & N3); [|done|].
  { intros a _ Ha. apply mem_byte_mstore_out. lia. }
  split_and!; [done|done|]. etrans; [exact N3|]. f_equal. unfold skb_string. destruct Hf' as (_ & _ & -> & _). f_equal. unfold f. rewrite mload_mstore_inside; [done|done|unfold blen; lia].
Qed.

(** Memory outside the arena. *)
Lemma outside_spec p0 s a q : net_ok p0 s -> (forall c, a <= c < a + blen q -> ~ arena_region (nt_pages s) c) ->
  let s' := with_mem (fun m => mstore m a q) s in net_ok p0 s' /\ buffers s' = buffers s.
Proof.
  intros Hok Hout. apply net_ok_pages; try done; [apply arena_ok_mem; by apply (no_arena p0)|].
  intros c Hc. apply mem_byte_mstore_out. unfold blen in Hout.
  destruct (decide (a <= c < a + Z.of_nat (length q))) as [Hin|]; [|lia]. exfalso. apply (Hout c Hin).
  destruct Hc as (i & o & Hi & Hc). pose proof (live_range _ i o (ao_pages _ _ (no_arena _ _ Hok)) Hi). unfold page_addr in Hc. left. net_lia.
Qed.

Lemma copy_eq p0 s r i j len offset to n :
  net_ok p0 s -> r ∈ skb_records s -> skb_pages (nt_pages s) r i j -> skb_fields (nt_mem s) r len -> offset < 2 ^ 31 -> n < 2 ^ 31 ->
  kb_skb_copy_bits (sk_skb r) offset to n s =
  if decide (to <> 0 /\ 0 <= offset /\ 0 <= n /\ offset + n <= len)
  then (with_mem (fun m => mstore m to (mload m (sk_payload r + 256 + offset) (Z.to_nat n))) s, 0) else (s, -22).
Proof.
  intros Hok Hr Hp Hf Ho Hn. change (2 ^ 31) with 2147483648 in *. destruct (skb_range p0 s r i j Hok Hr Hp) as (Hij & R1 & R2 & R3 & R4). pose proof Hp as (_ & _ & _ & _ & _ & Hcap).
  unfold kb_skb_copy_bits. rewrite (find_skb p0 s r Hok Hr). destruct ((to =? 0) || (offset <? 0) || (n <? 0)) eqn:E0.
  { rewrite decide_False; [done|]. intros (H1 & H2 & H3 & _). rewrite (proj2 (Z.eqb_neq _ _)), !(proj2 (Z.ltb_ge _ _)) in E0 by done. done. }
  apply orb_false_iff in E0 as [[E1%Z.eqb_neq E2%Z.ltb_ge]%orb_false_iff E3%Z.ltb_ge]. rewrite (data_pointer _ _ _ Hf) by lia.
  destruct Hf as (_ & _ & F3 & F4 & F5). change KB_RHEL_3_10_SKB_LEN_OFFSET with 0x68. rewrite F3.
  rewrite (proj2 (Z.eqb_neq (sk_payload r + 256) 0)), (proj2 (Z.ltb_ge (sk_payload r + 256) _)) by lia. cbn [orb].
  destruct (Z.ltb_spec len offset) as [|H1]; [by rewrite decide_False by lia|].
  replace (sk_payload r + 256 - sk_payload r) with 256 by lia. rewrite u64_small by net_lia.
  destruct (Z.ltb_spec (len - offset) n) as [|H2]; [by rewrite decide_False by lia|]. cbn [orb].
  rewrite (proj2 (Z.ltb_ge _ _)), decide_True by lia. done.
Qed.

(** ** Sequences of operations *)

(** What drivers do with buffers; appending reserves room and copies. *)
Inductive skb_op :=
  | OpAlloc (dev length : Z)
  | OpAppend (skb : Z) (q : list Z)
  | OpCopy (skb offset to n : Z)
  | OpConsume (skb : Z).

Definition skb_exec (op : skb_op) s : net_state * Z :=
  match op with
  | OpAlloc dev length => kb_netdev_alloc_skb e dev length s
  | OpAppend skb q =>
      let '(s, a) := kb_skb_put skb (blen q) s in
      (if a =? 0 then s else with_mem (fun m => mstore m a q) s, a)
  | OpCopy skb offset to n => kb_skb_copy_bits skb offset to n s
  | OpConsume skb => (kb_net_device_consume_skb e skb s, 0)
  end.

(** Lengths do not wrap around in 32 bits, buffers are known, and copies leave the arena. *)
Definition skb_admissible (op : skb_op) s : Prop :=
  match op with
  | OpAlloc _ length => 0 <= length < 2 ^ 32 - 256
  | OpAppend skb q => is_Some (buffers s !! skb) /\ blen q < 2 ^ 32 - 4096
  | OpCopy skb offset to n =>
      is_Some (buffers s !! skb) /\ offset < 2 ^ 31 /\ n < 2 ^ 31 /\ forall c, to <= c < to + n -> ~ arena_region (nt_pages s) c
  | OpConsume _ => True
  end.

(** The same on strings of bytes with a limit; [m]: the memory afterwards. *)
Definition string_step (op : skb_op) (M : gmap Z (Z * list Z)) (m : mem) (result : Z) (M' : gmap Z (Z * list Z)) : Prop :=
  match op with
  | OpAlloc _ length =>
      result = 0 /\ M' = M \/ result <> 0 /\ length <= 3840 /\ M !! result = None /\ M' = <[result := (length, [])]> M
  | OpAppend skb q =>
      forall limit old, M !! skb = Some (limit, old) ->
      if decide (blen old + blen q <= limit) then result <> 0 /\ M' = <[skb := (limit, old ++ q)]> M else result = 0 /\ M' = M
  | OpCopy skb offset to n =>
      M' = M /\ forall limit old, M !! skb = Some (limit, old) ->
      if decide (to <> 0 /\ 0 <= offset /\ 0 <= n /\ offset + n <= blen old)
      then result = 0 /\ mload m to (Z.to_nat n) = slice old offset n else result = -22
  | OpConsume skb => M' = delete skb M
  end.

Lemma buffers_inv p0 s skb v : net_ok p0 s -> buffers s !! skb = Some v -> exists r, r ∈ skb_records s /\ sk_skb r = skb /\ v = skb_string (nt_mem s) r.
Proof.
  intros Hok H. apply elem_of_list_to_map_2, list_elem_of_fmap in H as (r & [= -> ->] & Hr). by exists r.
Qed.

Lemma slice_mload m a (n k : nat) o : 0 <= o -> (Z.to_nat o + k <= n)%nat -> slice (mload m a n) o (Z.of_nat k) = mload m (a + o) k.
Proof.
  intros Ho Hk. unfold slice. rewrite Nat2Z.id. apply list_eq. intros i. rewrite lookup_mload. destruct (decide (i < k)%nat) as [Hi|Hi].
  - rewrite lookup_take_lt, lookup_drop, lookup_mload, decide_True by lia. do 2 f_equal. lia.
  - rewrite lookup_take_ge by lia. done.
Qed.

Lemma append_spec p0 s skb q limit old : net_ok p0 s -> buffers s !! skb = Some (limit, old) -> blen q < 2 ^ 32 - 4096 ->
  let '(s', a) := skb_exec (OpAppend skb q) s in
  net_ok p0 s' /\ rest_same s s' /\
  if decide (blen old + blen q <= limit) then a <> 0 /\ buffers s' = <[skb := (limit, old ++ q)]> (buffers s) else a = 0 /\ buffers s' = buffers s.
Proof.
  intros Hok (r & Hr & <- & Ev)%(buffers_inv p0) Hq; [|done]. destruct (skb_parts p0 s r Hok Hr) as (i & j & len & Hp & Hf & Hlen & Estr).
  rewrite Estr in Ev, Hlen. injection Ev as -> ->. cbn [snd] in Hlen. rewrite Hlen. destruct (skb_range p0 s r i j Hok Hr Hp) as (Hij & R1 & R2 & R3 & R4).
  cbn [skb_exec]. pose proof (put_spec p0 s r i j len (blen q) Hok Hr Hp Hf ltac:(unfold blen in *; lia)) as H. destruct (kb_skb_put (sk_skb r) (blen q) s) as [s1 a].
  destruct (decide (len + blen q <= sk_capacity r - 256)) as [Hfit|Hbig]; [|destruct H as [-> ->]; split_and!; done].
  destruct H as (-> & N1 & N2 & N3 & Hp1 & Hf1 & N4). pose proof Hf as (_ & _ & _ & F4 & _). rewrite (proj2 (Z.eqb_neq _ _)) by lia.
  rewrite <- N3 in Hr. destruct (store_spec p0 s1 r i j (len + blen q) len q N1 Hr Hp1 Hf1 F4 ltac:(lia)) as (M1 & M2 & M3).
  pose proof N2 as (G1 & G2 & G3 & G4 & G5 & G6 & [G7 G7'] & G8).
  split_and!; [exact M1| |lia|].
  - destruct M2 as (K1 & K2 & K3 & K4 & K5 & K6 & [K7 K7'] & K8). unfold rest_same. split_and!; try congruence; [split; congruence|].
    intros c Hc. rewrite K8, G8; [done|done|]. by rewrite (region_place (nt_pages s) (nt_pages s1)).
  - rewrite M3, N4, insert_insert_eq. f_equal. f_equal. assert (mload (nt_mem s1) (sk_payload r + 256) (Z.to_nat (len + blen q)) = mload (nt_mem s) (sk_payload r + 256) (Z.to_nat (len + blen q))) as ->.
    { pose proof (buffers_lookup p0 s1 r N1 Hr) as Hb. rewrite N4, lookup_insert_eq in Hb. unfold skb_string in Hb. destruct Hf1 as (_ & _ & E & _). rewrite E in Hb. by injection Hb. }
    unfold splice. rewrite take_mload by (unfold blen; lia). f_equal. rewrite drop_ge by (rewrite length_mload; unfold blen; lia). apply app_nil_r.
Qed.

Lemma exec_ok p0 op s s' r : net_ok p0 s -> skb_admissible op s -> skb_exec op s = (s', r) -> net_ok p0 s' /\ string_step op (buffers s) (nt_mem s') r (buffers s').
Proof.
  intros Hok Hadm He. destruct op as [dev n|skb q|skb o to n|skb].
  - pose proof (alloc_spec p0 dev n s Hok Hadm) as H. cbn [skb_exec] in He. rewrite He in H. destruct H as (H1 & _ & H2). split; [done|]. cbn. tauto.
  - destruct Hadm as [[[limit old] Hb] Hq]. pose proof (append_spec p0 s skb q limit old Hok Hb Hq) as H. rewrite He in H. destruct H as (H1 & _ & H2).
    split; [done|]. intros l o E. rewrite Hb in E. by injection E as <- <-.
  - destruct Hadm as ([[limit old] Hb] & Ho & Hn & Hout). destruct (buffers_inv p0 s skb _ Hok Hb) as (x & Hx & <- & Ev).
    destruct (skb_parts p0 s x Hok Hx) as (i & j & len & Hp & Hf & Hlen & Estr). cbn [skb_exec] in He. rewrite (copy_eq p0 s x i j len o to n Hok Hx Hp Hf Ho Hn) in He.
    rewrite Estr in Ev, Hlen. injection Ev as -> ->. cbn [snd] in Hlen. cbn [string_step].
    destruct (decide _) as [Hv|Hv] in He; injection He as <- <-.
    + set (q := mload (nt_mem s) (sk_payload x + 256 + o) (Z.to_nat n)). assert (blen q = n) as Eq by (apply blen_mload; lia).
      destruct (outside_spec p0 s to q Hok) as [N1 N2]; [by rewrite Eq|]. split; [exact N1|]. split; [exact N2|]. intros l old' E. rewrite Hb in E. injection E as <- <-.
      rewrite Hlen, decide_True by done. split; [done|]. change (nt_mem (with_mem _ s)) with (mstore (nt_mem s) to q).
      replace (Z.to_nat n) with (length q) at 1 by (unfold q; apply length_mload). rewrite mload_mstore_same. unfold q.
      rewrite <- (Z2Nat.id n) at 2 by lia. rewrite slice_mload by lia. done.
    + split; [done|]. split; [done|]. intros l old' E. rewrite Hb in E. injection E as <- <-. by rewrite Hlen, decide_False.
  - injection He as <- _. destruct (consume_spec p0 skb s Hok) as (H1 & _ & H2). done.
Qed.

Inductive skb_reachable (s0 : net_state) : net_state -> Prop :=
  | skb_start : skb_reachable s0 s0
  | skb_next op s s' r : skb_reachable s0 s -> skb_admissible op s -> skb_exec op s = (s', r) -> skb_reachable s0 s'.

Lemma start_ok s0 : arena_ok b (nt_pages s0) -> nt_backend s0 = b -> skb_records s0 = [] -> net_ok (nt_pages s0) s0.
Proof.
  intros Ha Hb Hn. constructor; try done; rewrite ?Hn; [constructor|constructor| |].
  - intros i o. split; [auto|]. intros [H|[_ H]]; [done|]. by apply elem_of_nil in H.
  - intros i o _ H. by apply elem_of_nil in H.
Qed.

Lemma skb_reachable_ok s0 s : net_ok (nt_pages s0) s0 -> skb_reachable s0 s -> net_ok (nt_pages s0) s.
Proof. intros H0. induction 1 as [|op s s' r _ IH Hadm He]; [done|]. by apply (exec_ok _ op s s' r IH Hadm He). Qed.
(** ** The path of a frame *)

(** The invariant looks only at the arena, the backend and the buffers. *)
Lemma net_ok_other p0 s s' : nt_pages s' = nt_pages s -> nt_backend s' = nt_backend s -> skb_records s' = skb_records s ->
  net_ok p0 s -> net_ok p0 s' /\ buffers s' = buffers s.
Proof.
  intros E1 E2 E3 [H1 H2 H3 H4 H5 H6 H7]. split; [constructor; rewrite ?E1, ?E2, ?E3; done|]. unfold buffers, nt_mem. by rewrite E1, E3.
Qed.

Lemma net_ok_backend p0 s : net_ok p0 s -> net_ok p0 (set_backend b s).
Proof. intros Hok. apply (net_ok_other p0 s); [done| |done|done]. by rewrite (no_backend _ _ Hok). Qed.

Lemma put_null p0 n s : net_ok p0 s -> kb_skb_put 0 n s = (s, 0) /\ kb_net_device_consume_skb e 0 s = s.
Proof.
  intros Hok. assert (list_find (fun r => sk_skb r = 0) (skb_records s) = None) as E.
  { apply list_find_None, Forall_forall. intros r Hr E. destruct (skb_parts p0 s r Hok Hr) as (i & j & len & Hp & _). pose proof (skb_range p0 s r i j Hok Hr Hp). lia. }
  unfold kb_skb_put, kb_net_device_consume_skb, find_skb_record. by rewrite E.
Qed.

Lemma read_frame m a n i : 0 <= i -> i + 1 < n -> read_be16 m (a + i) = frame_be16 (mload m a (Z.to_nat n)) i.
Proof. intros Hi Hn. unfold read_be16, frame_be16. rewrite !nth_mload by lia. by rewrite Z.add_assoc. Qed.

Lemma received_frame_eq p0 s r i j len :
  net_ok p0 s -> r ∈ skb_records s -> skb_pages (nt_pages s) r i j -> skb_fields (nt_mem s) r len ->
  let frame := mload (nt_mem s) (sk_payload r + 256) (Z.to_nat len) in
  14 <= len -> frame_be16 frame 12 <> 0 ->
  received_frame e (sk_skb r) s =
  (s, Some (if decide (looks_shifted frame) then (sk_payload r + 256 + 12, len - 12) else (sk_payload r + 256, len))).
Proof.
  intros Hok Hr Hp Hf frame Hlen Hty. destruct (skb_range p0 s r i j Hok Hr Hp) as (Hij & R1 & R2 & R3 & R4). pose proof Hf as (F1 & F2 & F3 & F4 & F5).
  assert (skb_packet_bytes (sk_skb r) s = Some (sk_payload r + 256, len)) as Epkt.
  { unfold skb_packet_bytes. rewrite (find_skb p0 s r Hok Hr), (data_pointer _ _ _ Hf) by lia. change KB_RHEL_3_10_SKB_LEN_OFFSET with 0x68. rewrite F3.
    rewrite (proj2 (Z.eqb_neq (sk_payload r + 256) 0)), (proj2 (Z.ltb_ge (sk_payload r + 256) _)) by lia. cbn [orb].
    replace (sk_payload r + 256 - sk_payload r) with 256 by lia. rewrite (proj2 (Z.leb_gt _ _)) by lia. rewrite Z.min_l by lia. done. }
  assert (read_be16 (nt_mem s) (sk_payload r + 256 + 12) = frame_be16 frame 12) as E12 by (apply read_frame; lia).
  assert (blen frame = len) as El by (apply blen_mload; lia). apply Z.eqb_neq in Hty as Hty'. pose proof (proj2 (Z.ltb_ge len 14) Hlen) as E14.
  unfold received_frame. rewrite Epkt, E12, E14, Hty'. cbn [orb]. cbn beta iota zeta. rewrite E12, E14, Hty'. cbn [orb].
  destruct (Z.ltb_spec 0x05ff (frame_be16 frame 12)) as [H1|H1], (Z.leb_spec 26 len) as [H2|H2]; cbn [andb].
  2-4: by rewrite decide_False by (unfold looks_shifted; lia).
  rewrite (read_frame _ _ len 24) by lia. fold frame.
  destruct (Z.eqb_spec (frame_be16 frame 24) 0x0800) as [H3|H3], (Z.eqb_spec (frame_be16 frame 24) 0x0806) as [H4|H4]; cbn [orb].
  1-3: by rewrite decide_True by (unfold looks_shifted; rewrite El; auto).
  rewrite decide_False by (unfold looks_shifted; tauto). done.
Qed.

Lemma observe_same i a n s : let s' := observe_arp_request i a n s in
  nt_pages s' = nt_pages s /\ nt_backend s' = nt_backend s /\ skb_records s' = skb_records s /\ rx_frame_callback s' = rx_frame_callback s /\
  rx_frame_callback_ctx s' = rx_frame_callback_ctx s /\ nt_received s' = nt_received s.
Proof. unfold observe_arp_request. destruct i as [i|]; [|done]. destruct (_ || _); [done|]. by destruct (_ || _). Qed.
End net.

(** C13: Socket buffers are byte strings with a limit: in every state that allocation,
    appending, copying and release lead to, allocation adds an empty string under a new
    address or fails and changes nothing, appending adds the bytes at the end exactly if
    they fit, copying yields exactly the asked-for part or -22, release removes one
    string, and no operation changes another buffer.  The pages in use are those from
    before and two of its own for each buffer, so none is lost. *)
Theorem skbs_refine_strings e b s0 s :
  arena_ok b (nt_pages s0) -> nt_backend s0 = b -> skb_records s0 = [] -> skb_reachable e s0 s ->
  buffers s0 = ∅ /\
  (forall op s' r, skb_admissible op s -> skb_exec e op s = (s', r) -> string_step op (buffers s) (nt_mem s') r (buffers s')) /\
  NoDup (skb_blocks (skb_records s)) /\
  (forall i o, page_live (nt_pages s) i o <-> page_live (nt_pages s0) i o \/ o = 0 /\ page_addr (nt_pages s0) i ∈ skb_blocks (skb_records s)) /\
  (forall i o, page_live (nt_pages s0) i o -> page_addr (nt_pages s0) i ∉ skb_blocks (skb_records s)).
Proof.
  intros Ha Hb Hn Hr. pose proof (skb_reachable_ok e b s0 s (start_ok b s0 Ha Hb Hn) Hr) as Hok. split_and!.
  - unfold buffers. by rewrite Hn.
  - intros op s' r Hadm He. by apply (exec_ok e b _ op s s' r Hok Hadm He).
  - apply Hok.
  - apply Hok.
  - apply Hok.
Qed.

(** C14: Transmission hands the driver exactly the frame: either there is no room and -12 is
    returned with everything as it was, or the driver is called once, under the backend of
    its device, with a new buffer that holds the frame and nothing else; afterwards the
    backend is the caller's again and a buffer the driver refused is released. *)
Theorem xmit_hands_frame_over e b p0 s dev xmit frame i record :
  find_netdev_record dev s = Some i -> netdev_records s !! i = Some record -> nd_backend record = b -> b <> 0 -> xmit <> 0 ->
  0 < blen frame < 2 ^ 32 - 4096 -> net_ok b p0 (set_backend b s) ->
  let '(s', r) := xmit_raw_frame e dev xmit (Some frame) s in
  (r = -12 /\ buffers s' = buffers s /\ skb_records s' = skb_records s /\ rest_same s s') \/
  exists s1 skb,
    net_ok b p0 s1 /\ nt_backend s1 = b /\ buffers s !! skb = None /\ buffers s1 = <[skb := (blen frame, frame)]> (buffers s) /\
    netdev_records s1 = netdev_records s /\ napi_records s1 = napi_records s /\
    r = (ne_call2 e xmit skb dev s1).2 /\
    s' = set_backend (nt_backend s) (let s2 := sync_e1000e_tx_shadow e (ne_call2 e xmit skb dev s1).1 in
                                     if r =? 0 then s2 else kb_net_device_consume_skb e skb s2).
Proof.
  intros Hfind Hrec Hb Hnz Hx Hlen Hok. unfold xmit_raw_frame.
  assert (dev <> 0) as Hdev by (intros ->; done). rewrite (proj2 (Z.eqb_neq dev 0)), (proj2 (Z.eqb_neq xmit 0)), (proj2 (Z.eqb_neq (blen frame) 0)) by (done || lia).
  rewrite (proj2 (Z.ltb_ge UINT32_MAX _)) by (unfold UINT32_MAX; change (2 ^ 32) with 4294967296 in *; lia). cbn [orb].
  rewrite Hfind. cbn [mbind option_bind]. rewrite Hrec, Hb, (proj2 (Z.eqb_neq b 0)) by done.
  pose proof (alloc_spec e b p0 dev (blen frame) (set_backend b s) Hok ltac:(lia)) as Ha. destruct (kb_netdev_alloc_skb e dev (blen frame) (set_backend b s)) as [s1 skb].
  destruct Ha as (Hok1 & (G1 & G2 & G3 & G4 & G5 & G6 & G7 & G8) & [(-> & E1 & E2)|(Hs & Hfit & Hnew & E2)]).
  - destruct (put_null e b p0 (blen frame) s1 Hok1) as [-> Hcons]. cbn [Z.eqb]. rewrite Hcons. left. split_and!; [done|exact E2|exact E1|].
    unfold rest_same. by split_and!.
  - assert (buffers s1 !! skb = Some (blen frame, [])) as Hl by (by rewrite E2, lookup_insert_eq).
    pose proof (append_spec e b p0 s1 skb frame (blen frame) [] Hok1 Hl ltac:(lia)) as Happ. cbn [skb_exec] in Happ.
    destruct (kb_skb_put skb (blen frame) s1) as [s2 a]. cbn [blen length Z.of_nat] in Happ. rewrite decide_True in Happ by (unfold blen; cbn; lia).
    destruct Happ as (Hok2 & (K1 & K2 & _ & _ & _ & K6 & _) & Hane & E3). apply Z.eqb_neq in Hane. rewrite Hane in *.
    destruct (ne_call2 e xmit skb dev (with_mem (fun m => mstore m a frame) s2)) as [s3 r] eqn:Ec.
    right. exists (with_mem (fun m => mstore m a frame) s2), skb. rewrite Ec.
    split_and!; [done|by rewrite (no_backend _ _ _ Hok2)|exact Hnew|rewrite E3, E2, insert_insert_eq; done|by rewrite K1, G1|by rewrite K2, G2|done|done].
Qed.

(** Reception hands the host exactly the frame in the buffer, with the device of the NAPI
    structure, and releases the buffer; except that a frame whose bytes 24 and 25 happen
    to read as a type of IPv4 or ARP loses its first 12 bytes. *)
Theorem gro_receive_delivers e b p0 s napi skb limit frame :
  net_ok b p0 s -> buffers s !! skb = Some (limit, frame) -> 14 <= blen frame -> frame_be16 frame 12 <> 0 -> rx_frame_callback s <> 0 ->
  let dev := match find_napi_record napi s with Some r => np_dev r | None => 0 end in
  let '(s', r) := kb_napi_gro_receive e napi skb s in
  r = 0 /\ net_ok b p0 s' /\ buffers s' = delete skb (buffers s) /\
  nt_received s' = nt_received s ++ [(rx_frame_callback_ctx s, dev, if decide (looks_shifted frame) then drop 12 frame else frame)].
Proof.
  intros Hok Hb Hlen Hty Hcb dev. unfold kb_napi_gro_receive. fold dev. set (s1 := with_napi napi _ s).
  destruct (net_ok_other b p0 s s1 eq_refl eq_refl eq_refl Hok) as [Hok1 Eb1]. rewrite <- Eb1 in Hb. destruct (buffers_inv b p0 s1 skb _ Hok1 Hb) as (r & Hr & <- & Ev).
  destruct (skb_parts b p0 s1 r Hok1 Hr) as (i & j & len & Hp & Hf & Hl & Estr). rewrite Estr in Ev, Hl. injection Ev as -> Ef. cbn [snd] in Hl. rewrite <- Ef in Hl.
  unfold log_received_packet. rewrite (received_frame_eq e b p0 s1 r i j len Hok1 Hr Hp Hf) by (rewrite <- ?Ef; done || lia). rewrite <- Ef.
  set (place := if decide (looks_shifted frame) then _ else _). destruct place as [a n] eqn:Eplace.
  set (s2 := observe_arp_request (find_netdev_record dev s1) a n s1). destruct (observe_same (find_netdev_record dev s1) a n s1) as (O1 & O2 & O3 & O4 & O5 & O6). fold s2 in O1, O2, O3, O4, O5, O6.
  rewrite O4. change (rx_frame_callback s1) with (rx_frame_callback s). rewrite (proj2 (Z.eqb_neq _ _) Hcb).
  set (s3 := s2 <| nt_received ::= _ |>). destruct (net_ok_other b p0 s1 s3 O1 O2 O3 Hok1) as [Hok3 Eb3].
  destruct (consume_spec e b p0 (sk_skb r) s3 Hok3) as (Hok4 & (_ & _ & _ & _ & Hrec & _) & Eb4). split_and!; [done|exact Hok4|by rewrite Eb4, Eb3, Eb1|].
  rewrite Hrec. change (nt_received s3) with (nt_received s2 ++ [(rx_frame_callback_ctx s2, dev, mload (nt_mem s2) a (Z.to_nat n))]). rewrite O5, O6. unfold nt_mem. rewrite O1.
  f_equal. f_equal. f_equal. change (pa_mem (nt_pages s1)) with (nt_mem s1). unfold place in Eplace.
  destruct (decide (looks_shifted frame)) as [Hsh|Hsh]; injection Eplace as <- <-; [|done]. rewrite Ef.
  destruct Hsh as (_ & H26 & _). apply list_eq. intros k. rewrite lookup_drop, !lookup_mload. repeat case_decide; try lia; [|done]. do 2 f_equal. lia.
Qed.

(** ** Examples *)

Definition net_sample_env : net_env :=
  mk_net_env shifted_backend [0x40000000; 0x50000000] arena_sample true (fun _ => None) (fun _ => true) (fun _ => 0) (fun _ _ s => (s, 0))
    (fun _ _ _ s => (s, 0)) (fun _ s => s) (fun s => s) (fun s => s) (fun _ => None) (fun _ _ s => s).
Definition net_sample_start : net_state :=
  set_backend 0x5000 (kb_net_device_set_rx_frame_callback 7 9 (track_netdev 0x600000 4096 1 1 (set_backend 0x5000 (net_state_init mapped_sample)))).

Lemma mapped_sample_arena : arena_ok 0x5000 (nt_pages net_sample_start).
Proof.
  change (nt_pages net_sample_start) with mapped_sample.
  assert (kb_kvm_page_records mapped_sample = 0x10040 /\ kb_kvm_page_payloads mapped_sample = 0x201000 /\ kb_kvm_phys_base mapped_sample = 0x100201000)
    as (E1 & E2 & E3) by (vm_compute; split_and!; reflexivity).
  constructor.
  - split; [|vm_compute; reflexivity]. change (kb_kvm_page_alloc_state mapped_sample) with free_pages. apply free_pages_ok.
  - split; rewrite ?E1, ?E2, ?E3; vm_compute; split_and?; try reflexivity; discriminate.
  - right. vm_compute. done.
  - rewrite E2. vm_compute. split; discriminate.
  - rewrite E1, E2. right. vm_compute. discriminate.
Qed.

Definition net_sample_frame : list Z := (build_arp_reply_frame 60 [1; 2; 3; 4; 5; 6] [10; 0; 2; 2]).1.
Definition net_sample1 : net_state := (skb_exec net_sample_env (OpAlloc 0x600000 100) net_sample_start).1.
Definition net_sample2 : net_state := (skb_exec net_sample_env (OpAppend 0x201000 net_sample_frame) net_sample1).1.

Lemma net_sample_values :
  (skb_exec net_sample_env (OpAlloc 0x600000 100) net_sample_start).2 = 0x201000 /\
  (skb_exec net_sample_env (OpAppend 0x201000 net_sample_frame) net_sample1).2 = 0x202100 /\
  buffers net_sample2 !! 0x201000 = Some (100, net_sample_frame).
Proof. vm_compute. split_and!; reflexivity. Qed.

Lemma net_sample2_reachable : skb_reachable net_sample_env net_sample_start net_sample2.
Proof.
  assert (skb_reachable net_sample_env net_sample_start net_sample1) as H1.
  { eapply (skb_next _ _ (OpAlloc 0x600000 100) _ _ _ (skb_start _ _)); [|apply surjective_pairing]. cbn. lia. }
  eapply (skb_next _ _ (OpAppend 0x201000 net_sample_frame) _ _ _ H1); [|apply surjective_pairing].
  split; [exists (100, []); vm_compute; reflexivity|vm_compute; reflexivity].
Qed.

(** Copying the sender's address out of the buffer. *)
Lemma skbs_refine_strings_witness :
  let '(s', r) := skb_exec net_sample_env (OpCopy 0x201000 6 0x7000000 6) net_sample2 in
  r = 0 /\ mload (nt_mem s') 0x7000000 6 = [0x52; 0x54; 0x00; 0x12; 0x34; 0x56] /\ buffers s' = buffers net_sample2.
Proof.
  destruct (skbs_refine_strings net_sample_env 0x5000 net_sample_start net_sample2 mapped_sample_arena eq_refl eq_refl net_sample2_reachable) as (_ & H & _).
  pose proof (proj2 (proj2 net_sample_values)) as Hb. destruct (skb_exec net_sample_env (OpCopy 0x201000 6 0x7000000 6) net_sample2) as [s' r] eqn:E.
  assert (skb_admissible (OpCopy 0x201000 6 0x7000000 6) net_sample2) as Hadm.
  { split_and!; [by eexists|lia|lia|]. assert (kb_kvm_page_payloads (nt_pages net_sample2) = 0x201000 /\ kb_kvm_page_records (nt_pages net_sample2) = 0x10040) as [E1 E2]
      by (vm_compute; split; reflexivity). intros c Hc. unfold arena_region. rewrite E1, E2. net_lia. }
  destruct (H (OpCopy 0x201000 6 0x7000000 6) s' r Hadm E) as [H1 H2]. specialize (H2 _ _ Hb). rewrite decide_True in H2 by (vm_compute; split_and?; discriminate).
  destruct H2 as [H2 H3]. split_and!; [exact H2|exact H3|exact H1].
Defined.

Lemma net_sample_ok : net_ok 0x5000 (nt_pages net_sample_start) net_sample2.
Proof.
  apply (skb_reachable_ok net_sample_env 0x5000 net_sample_start); [|exact net_sample2_reachable].
  by apply start_ok; [apply mapped_sample_arena| |].
Qed.

(** A frame that is sent while another buffer is in use. *)
Lemma xmit_hands_frame_over_witness :
  exists s1 skb, buffers s1 = <[skb := (60, net_sample_frame)]> (buffers net_sample2) /\ nt_backend s1 = 0x5000 /\
    xmit_raw_frame net_sample_env 0x600000 0x900000 (Some net_sample_frame) net_sample2 = (set_backend 0x5000 s1, 0).
Proof.
  pose proof (xmit_hands_frame_over net_sample_env 0x5000 (nt_pages net_sample_start) net_sample2 0x600000 0x900000 net_sample_frame 0 (netdev_at 0 net_sample2)
    ltac:(vm_compute; reflexivity) ltac:(vm_compute; reflexivity) ltac:(vm_compute; reflexivity) ltac:(lia) ltac:(lia) ltac:(vm_compute; split; reflexivity)
    (net_ok_backend _ _ _ net_sample_ok)) as H.
  assert ((xmit_raw_frame net_sample_env 0x600000 0x900000 (Some net_sample_frame) net_sample2).2 = 0) as E by (vm_compute; reflexivity).
  destruct (xmit_raw_frame net_sample_env 0x600000 0x900000 (Some net_sample_frame) net_sample2) as [s' r]. cbn in E. subst r.
  destruct H as [[H _]|(s1 & skb & _ & Hb & _ & Hbuf & _ & _ & _ & Hs)]; [done|]. exists s1, skb. split_and!; [exact Hbuf|exact Hb|].
  assert (nt_backend net_sample2 = 0x5000) as Eb by (vm_compute; reflexivity). rewrite Eb in Hs.
  rewrite Hs. reflexivity.
Defined.

(** The frame of the buffer reaches the host. *)
Lemma gro_receive_delivers_witness :
  nt_received (kb_napi_gro_receive net_sample_env 0x800000 0x201000 net_sample2).1 = [(9, 0, net_sample_frame)].
Proof.
  pose proof (gro_receive_delivers net_sample_env 0x5000 (nt_pages net_sample_start) net_sample2 0x800000 0x201000 100 net_sample_frame net_sample_ok
    (proj2 (proj2 net_sample_values)) ltac:(vm_compute; discriminate) ltac:(vm_compute; discriminate) ltac:(vm_compute; discriminate)) as H. cbn zeta in H.
  destruct (kb_napi_gro_receive net_sample_env 0x800000 0x201000 net_sample2) as [s' r]. destruct H as (_ & _ & _ & H). cbn. rewrite H. vm_compute. reflexivity.
Defined.

(** ** Lengths that wrap around, and frames that are cut *)

(** A buffer for 2^32 - 1 bytes is granted with a limit below its headroom, and room for
    as many bytes is reserved in it: the address is 256 bytes into the one page of data. *)
Lemma skb_length_wraps :
  let '(s1, skb) := kb_netdev_alloc_skb net_sample_env 0 0xffffffff net_sample_start in
  skb = 0x201000 /\ (sk_capacity <$> find_skb_record skb s1) = Some 255 /\ (kb_skb_put skb 0xffffffff s1).2 = 0x202100.
Proof. vm_compute. split_and!; reflexivity. Qed.

(** A DNS query with an identification that makes the checksum of its header 0x0800. *)
Definition unlucky_frame : list Z :=
  let frame := write_be16 (write_be16 (build_udp_internet_smoke_frame 71).1 18 0x1aa3) 24 0 in
  write_be16 frame 24 (internet_checksum (slice frame 14 20)).

(** It is valid, and the host gets it without its first 12 bytes. *)
Lemma valid_frame_is_cut :
  internet_checksum (slice unlucky_frame 14 20) = 0 /\ looks_shifted unlucky_frame /\
  let '(s, _) := skb_exec net_sample_env (OpAppend 0x201000 unlucky_frame) net_sample1 in
  nt_received (kb_napi_gro_receive net_sample_env 0x800000 0x201000 s).1 = [(9, 0, drop 12 unlucky_frame)].
Proof.
  split; [vm_compute; reflexivity|]. split; [|vm_compute; reflexivity]. unfold looks_shifted. vm_compute. split; [reflexivity|]. split; [discriminate|by left].
Qed.

(** *** Answering ARP *)

(** The reply to a request for the address of the self-test goes to its sender. *)
Lemma arp_reply_answers mac ip : length mac = 6%nat -> length ip = 4%nat ->
  let frame := (build_arp_reply_frame 60 mac ip).1 in
  blen frame = 60 /\ slice frame 0 6 = mac /\ slice frame 6 6 = default_mac /\ frame_be16 frame 12 = 0x0806 /\ frame_be16 frame 20 = 2 /\
  slice frame 22 6 = default_mac /\ slice frame 28 4 = source_ip /\ slice frame 32 6 = mac /\ slice frame 38 4 = ip.
Proof.
  intros Hm Hi. destruct mac as [|a [|b [|c [|d [|f [|g [|]]]]]]]; try done. destruct ip as [|h [|i [|j [|k [|]]]]]; done.
Qed.
