(* ===== verification/Crc.v ===== *)
(** * Cyclic redundancy checks (src/src/linux_personality/linux_stubs.c)

    CRC-32 in both bit orders, CRC-32C in software and with the instructions of the
    processor, and the hash stubs built on it.  The two instructions are defined as the
    processor's manual does, by division of polynomials over the bits; the last part shows
    that both ways of computing CRC-32C agree, that the two bit orders mirror each other,
    and that changes within four consecutive bytes never go unnoticed. *)

From S2P Require Import Prelude Memory.

(** ** The code *)

Fixpoint iterate {A} (n : nat) (f : A -> A) (x : A) : A := match n with O => x | S n => iterate n f (f x) end.

(** One bit, least significant first and most significant first. *)
Definition crc_bit_le (poly crc : Z) : Z := let mask := u32 (0 - Z.land crc 1) in Z.lxor (Z.shiftr crc 1) (Z.land poly mask).
Definition crc_bit_be (poly crc : Z) : Z := let mask := u32 (0 - Z.shiftr crc 31) in Z.lxor (u32 (Z.shiftl crc 1)) (Z.land poly mask).
Definition crc_byte_le (poly crc byte : Z) : Z := iterate 8 (crc_bit_le poly) (Z.lxor crc byte).
Definition crc_byte_be (poly crc byte : Z) : Z := iterate 8 (crc_bit_be poly) (Z.lxor crc (u32 (Z.shiftl byte 24))).

Definition CRC32C_POLY : Z := 0x82f63b78.
Definition crc32c_update_software (crc : Z) (data : list Z) : Z := foldl (crc_byte_le CRC32C_POLY) crc data.

(** [None] is a null pointer; with a length of 0 it is never read. *)
Definition kb_crc32_le (crc : Z) (data : option (list Z)) : Z := foldl (crc_byte_le 0xedb88320) crc (default [] data).
Definition kb_crc32_be (crc : Z) (data : option (list Z)) : Z := foldl (crc_byte_be 0x04c11db7) crc (default [] data).

(** *** The instructions *)

(** The low [n] bits in reverse. *)
Fixpoint bit_reflect (n : nat) (x : Z) : Z :=
  match n with O => 0 | S n => Z.lor (Z.shiftl (Z.land x 1) (Z.of_nat n)) (bit_reflect n (Z.shiftr x 1)) end.

(** Long division of the [n] bits of [x]: bring down a bit, subtract the divisor if its
    leading bit is met. *)
Fixpoint mod2_from (divisor : Z) (n : nat) (x r : Z) : Z :=
  match n with
  | O => r
  | S n =>
      let r := Z.lor (Z.shiftl r 1) (Z.b2z (Z.testbit x (Z.of_nat n))) in
      mod2_from divisor n x (if Z.testbit r 32 then Z.lxor r divisor else r)
  end.
Definition mod2 (divisor : Z) (n : nat) (x : Z) : Z := mod2_from divisor n x 0.

(** crc32 with a source of [w] bits. *)
Definition crc32_instruction (w : nat) (dest src : Z) : Z :=
  let temp3 := Z.shiftl (bit_reflect w src) 32 in
  let temp4 := Z.shiftl (bit_reflect 32 (u32 dest)) (Z.of_nat w) in
  bit_reflect 32 (mod2 0x11edc6f41 (w + 32) (Z.lxor temp3 temp4)).
Definition crc32b : Z -> Z -> Z := crc32_instruction 8.
Definition crc32q : Z -> Z -> Z := crc32_instruction 64.

(** Words while there are eight bytes left, then bytes. *)
Fixpoint crc32c_words (n : nat) (accumulator : Z) (data : list Z) : Z * list Z :=
  match n with
  | O => (accumulator, data)
  | S n => crc32c_words n (crc32q accumulator (le_value (take 8 data))) (drop 8 data)
  end.
Definition crc32c_update_hardware (crc : Z) (data : list Z) : Z :=
  let '(accumulator, data) := crc32c_words (length data / 8) crc data in
  foldl crc32b (u32 accumulator) data.

Definition crc32c_update (available : bool) (crc : Z) (data : list Z) : Z :=
  if available then crc32c_update_hardware crc data else crc32c_update_software crc data.

(** *** Hash stubs; [desc] holds the state after a pointer *)

Definition kb_crypto_shash_update_stub (available : bool) (desc data len : Z) (m : mem) : mem * Z :=
  if (desc =? 0) || ((data =? 0) && negb (len =? 0)) then (m, -22)
  else (mstore32 m (desc + 8) (crc32c_update available (mload32 m (desc + 8)) (mload m data (Z.to_nat len))), 0).
Definition kb_crypto_shash_final_stub (desc out : Z) (m : mem) : mem * Z :=
  if (desc =? 0) || (out =? 0) then (m, -22) else (mstore32 m out (mload32 m (desc + 8)), 0).
Definition kb_crypto_shash_tfm_digest_stub (available : bool) (data len out : Z) (m : mem) : mem * Z :=
  if ((data =? 0) && negb (len =? 0)) || (out =? 0) then (m, -22)
  else (mstore32 m out (crc32c_update available 0xffffffff (mload m data (Z.to_nat len))), 0).

(** ** The shift registers are linear *)

Lemma u32_bits x : is_u32 x <-> 0 <= x /\ forall i, 32 <= i -> Z.testbit x i = false.
Proof.
  unfold is_u32. change 0x100000000 with (2 ^ 32). split.
  - intros Hx. split; [lia|]. intros i Hi. apply (testbit_above x 32); lia.
  - intros [H0 H]. split; [done|]. destruct (Z.lt_ge_cases x (2 ^ 32)) as [|Hge]; [done|]. exfalso.
    assert (Z.testbit x (Z.log2 x) = true) as Hb by (apply Z.bit_log2; lia). rewrite H in Hb; [done|]. apply Z.log2_le_pow2; lia.
Qed.
Lemma u32_lxor a b : is_u32 a -> is_u32 b -> is_u32 (Z.lxor a b).
Proof.
  rewrite !u32_bits. intros [A0 A] [B0 B]. split; [by apply Z.lxor_nonneg|]. intros i Hi. by rewrite Z.lxor_spec, A, B.
Qed.
Lemma u32_testbit x i : 0 <= i -> Z.testbit (u32 x) i = (i <? 32) && Z.testbit x i.
Proof.
  intros Hi. unfold u32. change 0x100000000 with (2 ^ 32). destruct (Z.ltb_spec i 32); [by rewrite Z.mod_pow2_bits_low by lia|by rewrite Z.mod_pow2_bits_high by lia].
Qed.

(** The mask made from one bit. *)
Lemma mask_spec poly (b : bool) : is_u32 poly -> Z.land poly (u32 (0 - Z.b2z b)) = if b then poly else 0.
Proof.
  intros Hp. destruct b; cbn [Z.b2z]; [|by rewrite Z.land_0_r]. change (u32 (0 - 1)) with (Z.ones 32). rewrite Z.land_ones by lia.
  apply Z.mod_small. unfold is_u32 in Hp. change (2 ^ 32) with 0x100000000. done.
Qed.

Lemma land_1 x : Z.land x 1 = Z.b2z (Z.testbit x 0).
Proof. change 1 with (Z.ones 1) at 1. rewrite Z.land_ones by lia. symmetry. apply Z.bit0_mod. Qed.

Lemma bit_le_eq poly s : is_u32 poly -> crc_bit_le poly s = Z.lxor (Z.shiftr s 1) (if Z.testbit s 0 then poly else 0).
Proof. intros Hp. unfold crc_bit_le. by rewrite land_1, mask_spec. Qed.
Lemma bit_be_eq poly s : is_u32 poly -> is_u32 s -> crc_bit_be poly s = Z.lxor (u32 (Z.shiftl s 1)) (if Z.testbit s 31 then poly else 0).
Proof.
  intros Hp Hs. unfold crc_bit_be. assert (Z.shiftr s 31 = Z.b2z (Z.testbit s 31)) as ->; [|by rewrite mask_spec].
  change 31 with (0 + 31) at 2. rewrite <- (Z.shiftr_spec s 31 0) by lia. rewrite Z.bit0_mod. symmetry. apply Z.mod_small. rewrite Z.shiftr_div_pow2 by lia. unfold is_u32 in Hs.
  change (2 ^ 31) with 0x80000000. Z.to_euclidean_division_equations; lia.
Qed.

Section le.
Context (poly : Z) (Hpoly : is_u32 poly).
Implicit Types s : Z.

Lemma shiftr_u32 s k : is_u32 s -> 0 <= k -> is_u32 (Z.shiftr s k).
Proof. rewrite !u32_bits. intros [H0 H] Hk. split; [by apply Z.shiftr_nonneg|]. intros i Hi. rewrite Z.shiftr_spec by lia. apply H. lia. Qed.

Lemma bit_le_u32 s : is_u32 s -> is_u32 (crc_bit_le poly s).
Proof. intros Hs. rewrite bit_le_eq by done. apply u32_lxor; [by apply shiftr_u32|]. by destruct (Z.testbit s 0). Qed.

Lemma bit_le_lxor a b : crc_bit_le poly (Z.lxor a b) = Z.lxor (crc_bit_le poly a) (crc_bit_le poly b).
Proof.
  rewrite !bit_le_eq by done. rewrite Z.lxor_spec, Z.shiftr_lxor. apply Z.bits_inj'. intros i Hi. rewrite !Z.lxor_spec.
  destruct (Z.testbit a 0), (Z.testbit b 0); cbn [xorb]; rewrite ?Z.bits_0; destruct (Z.testbit (Z.shiftr a 1) i), (Z.testbit (Z.shiftr b 1) i), (Z.testbit poly i); done.
Qed.

Lemma iterate_le_u32 n s : is_u32 s -> is_u32 (iterate n (crc_bit_le poly) s).
Proof. revert s. induction n as [|n IH]; intros s Hs; cbn; [done|]. by apply IH, bit_le_u32. Qed.
Lemma iterate_le_lxor n a b :
  iterate n (crc_bit_le poly) (Z.lxor a b) = Z.lxor (iterate n (crc_bit_le poly) a) (iterate n (crc_bit_le poly) b).
Proof. revert a b. induction n as [|n IH]; intros a b; cbn; [done|]. by rewrite bit_le_lxor, IH. Qed.
Lemma iterate_add {A} n k (f : A -> A) x : iterate (n + k) f x = iterate k f (iterate n f x).
Proof. revert x. induction n as [|n IH]; intros x; cbn; [done|]. apply IH. Qed.

(** Bits that are not yet at the end just move on. *)
Lemma iterate_le_shift n x : iterate n (crc_bit_le poly) (Z.shiftl x (Z.of_nat n)) = x.
Proof.
  induction n as [|n IH]; cbn [iterate]; [apply Z.shiftl_0_r|]. rewrite bit_le_eq by done.
  rewrite Z.shiftl_spec_low by lia. rewrite Z.lxor_0_r, Z.shiftr_shiftl_l by lia. replace (Z.of_nat (S n) - 1) with (Z.of_nat n) by lia. done.
Qed.

(** Up to four bytes at once. *)
Lemma lor_lxor_disjoint b x : is_u8 b -> 0 <= x -> Z.lxor b (Z.shiftl x 8) = b + 256 * x.
Proof.
  intros Hb Hx. rewrite <- Z.add_nocarry_lxor; [rewrite Z.shiftl_mul_pow2 by lia; lia|]. apply Z.bits_inj'. intros i Hi. rewrite Z.land_spec, Z.bits_0.
  destruct (Z.lt_ge_cases i 8); [rewrite Z.shiftl_spec_low by lia; apply andb_false_r|]. rewrite (testbit_above b 8) by (unfold is_u8 in Hb; lia). done.
Qed.

Lemma le_value_bound d : bytes_ok d -> 0 <= le_value d < 256 ^ Z.of_nat (length d).
Proof.
  induction d as [|b d IH]; cbn [le_value length]; [lia|]. intros [Hb Hd]%Forall_cons. specialize (IH Hd). unfold is_u8 in Hb.
  rewrite Nat2Z.inj_succ, Z.pow_succ_r by lia. lia.
Qed.

Lemma fold_bytes_le d s : bytes_ok d ->
  foldl (crc_byte_le poly) s d = iterate (8 * length d) (crc_bit_le poly) (Z.lxor s (le_value d)).
Proof.
  revert s. induction d as [|b d IH]; intros s Hd; [cbn; by rewrite Z.lxor_0_r|]. apply Forall_cons in Hd as [Hb Hd]. cbn [foldl length]. rewrite IH by done.
  pose proof (le_value_bound d Hd) as Hl. unfold crc_byte_le. rewrite <- (iterate_le_shift 8 (le_value d)) at 1. rewrite <- iterate_le_lxor, <- iterate_add.
  replace (8 + 8 * length d)%nat with (8 * S (length d))%nat by lia. f_equal. rewrite Z.lxor_assoc. f_equal. cbn [le_value]. change (Z.of_nat 8) with 8.
  apply lor_lxor_disjoint; [done|lia].
Qed.
End le.

(** ** Reflection *)

Lemma reflect_spec n x i : 0 <= i -> Z.testbit (bit_reflect n x) i = (i <? Z.of_nat n) && Z.testbit x (Z.of_nat n - 1 - i).
Proof.
  revert x. induction n as [|n IH]; intros x Hi; cbn [bit_reflect]; [rewrite Z.bits_0; by destruct (Z.ltb_spec i (Z.of_nat 0)); [lia|]|].
  rewrite Z.lor_spec, IH by done. rewrite land_1. destruct (Z.lt_trichotomy i (Z.of_nat n)) as [H|[->|H]].
  - rewrite Z.shiftl_spec_low by lia. rewrite !(proj2 (Z.ltb_lt _ _)) by lia. cbn [orb andb]. rewrite Z.shiftr_spec by lia. f_equal. lia.
  - rewrite Z.shiftl_spec by lia. rewrite Z.sub_diag, Z.ltb_irrefl, (proj2 (Z.ltb_lt _ _)) by lia. cbn [andb]. rewrite orb_false_r.
    rewrite Z.b2z_bit0. f_equal. lia.
  - rewrite !(proj2 (Z.ltb_ge _ _)) by lia. rewrite Z.shiftl_spec by lia. cbn [andb]. rewrite orb_false_r.
    apply (testbit_above _ 1); [|lia]. destruct (Z.testbit x 0); cbn; lia.
Qed.

Lemma bit_le_spec poly s i : is_u32 poly -> 0 <= i -> Z.testbit (crc_bit_le poly s) i = xorb (Z.testbit s (i + 1)) (Z.testbit s 0 && Z.testbit poly i).
Proof. intros Hp Hi. rewrite bit_le_eq by done. rewrite Z.lxor_spec, Z.shiftr_spec by done. destruct (Z.testbit s 0); cbn [andb]; by rewrite ?Z.bits_0. Qed.
Lemma bit_be_spec poly s i : is_u32 poly -> is_u32 s -> 0 <= i ->
  Z.testbit (crc_bit_be poly s) i = xorb ((0 <? i) && (i <? 32) && Z.testbit s (i - 1)) (Z.testbit s 31 && Z.testbit poly i).
Proof.
  intros Hp Hs Hi. rewrite bit_be_eq by done. rewrite Z.lxor_spec, u32_testbit by done. f_equal; [|destruct (Z.testbit s 31); cbn [andb]; by rewrite ?Z.bits_0].
  rewrite Z.shiftl_spec by done. destruct (Z.ltb_spec 0 i); [by destruct (i <? 32)|]. replace i with 0 by lia. cbn. by destruct s.
Qed.

Lemma reflect_u32 x : is_u32 (bit_reflect 32 x).
Proof.
  apply u32_bits. split; [|intros i Hi; rewrite reflect_spec by lia; by rewrite (proj2 (Z.ltb_ge _ _)) by lia].
  generalize 32%nat. intros n. revert x. induction n as [|n IH]; intros x; cbn [bit_reflect]; [lia|]. apply Z.lor_nonneg. split; [|apply IH].
  apply Z.shiftl_nonneg. rewrite land_1. by destruct (Z.testbit x 0).
Qed.

(** ** The instructions and the software agree *)

Lemma CRC32C_POLY_u32 : is_u32 CRC32C_POLY.
Proof. by vm_compute. Qed.
Lemma castagnoli_reflects i : 0 <= i < 32 -> Z.testbit 0x11edc6f41 (31 - i) = Z.testbit CRC32C_POLY i.
Proof.
  intros Hi. assert (bit_reflect 32 0x11edc6f41 = CRC32C_POLY) as <- by by vm_compute. rewrite reflect_spec by lia.
  rewrite (proj2 (Z.ltb_lt _ _)) by lia. done.
Qed.

(** Long division seen from the other end. *)
Lemma division_step n x r :
  let r' := Z.lor (Z.shiftl r 1) (Z.b2z (Z.testbit x (Z.of_nat n))) in
  crc_bit_le CRC32C_POLY (Z.lxor (bit_reflect 32 r) (Z.shiftl (bit_reflect (S n) x) 32)) =
  Z.lxor (bit_reflect 32 (if Z.testbit r' 32 then Z.lxor r' 0x11edc6f41 else r')) (Z.shiftl (bit_reflect n x) 32).
Proof.
  cbv zeta. set (r' := Z.lor _ _). assert (forall j, 0 < j -> Z.testbit r' j = Z.testbit r (j - 1)) as Hr.
  { intros j Hj. unfold r'. rewrite Z.lor_spec, Z.shiftl_spec by lia. rewrite (testbit_above (Z.b2z _) 1); [apply orb_false_r| |lia].
    by destruct (Z.testbit x _). }
  assert (Z.testbit r' 0 = Z.testbit x (Z.of_nat n)) as Hr0.
  { unfold r'. rewrite Z.lor_spec, Z.shiftl_spec_low by lia. apply Z.b2z_bit0. }
  apply Z.bits_inj'. intros i Hi. rewrite bit_le_spec by (done || apply CRC32C_POLY_u32). rewrite !Z.lxor_spec, (Z.shiftl_spec_low _ 32 0) by lia. rewrite xorb_false_r.
  rewrite (reflect_spec 32 r 0) by lia. change (Z.of_nat 32) with 32. change ((0 <? 32) && ?b) with b. change (32 - 1 - 0) with 31.
  rewrite (Hr 32) by lia. change (32 - 1) with 31.
  destruct (Z.lt_ge_cases i 32) as [Hlo|Hhi].
  - rewrite (Z.shiftl_spec_low _ _ i), xorb_false_r by lia. rewrite (reflect_spec 32 _ i) by lia. change (Z.of_nat 32) with 32. change (32 - 1) with 31. rewrite (proj2 (Z.ltb_lt i 32)) by lia.
    cbn [andb]. rewrite <- (castagnoli_reflects i) by lia.
    assert (Z.testbit (if Z.testbit r 31 then Z.lxor r' 0x11edc6f41 else r') (31 - i) = xorb (Z.testbit r' (31 - i)) (Z.testbit r 31 && Z.testbit 0x11edc6f41 (31 - i))) as ->.
    { destruct (Z.testbit r 31); cbn [andb]; [apply Z.lxor_spec|by rewrite xorb_false_r]. }
    f_equal. rewrite (reflect_spec 32 r) by lia. change (Z.of_nat 32) with 32. destruct (Z.ltb_spec (i + 1) 32).
    + rewrite Z.shiftl_spec_low, xorb_false_r, Hr by lia. cbn [andb]. f_equal. lia.
    + cbn [andb xorb]. rewrite Z.shiftl_spec by lia. replace (31 - i) with 0 by lia. rewrite Hr0, reflect_spec by lia. rewrite (proj2 (Z.ltb_lt _ _)) by lia. cbn [andb]. f_equal. lia.
  - rewrite (testbit_above CRC32C_POLY 32) by (by vm_compute || lia). rewrite andb_false_r, xorb_false_r. rewrite !(reflect_spec 32) by lia. change (Z.of_nat 32) with 32.
    rewrite !(proj2 (Z.ltb_ge _ 32)) by lia. cbn [andb]. rewrite !xorb_false_l, !Z.shiftl_spec, !reflect_spec by lia. f_equal; [|f_equal; lia].
    destruct (Z.ltb_spec (i + 1 - 32) (Z.of_nat (S n))), (Z.ltb_spec (i - 32) (Z.of_nat n)); lia.
Qed.

Lemma division_is_shifting n x r :
  bit_reflect 32 (mod2_from 0x11edc6f41 n x r) =
  iterate n (crc_bit_le CRC32C_POLY) (Z.lxor (bit_reflect 32 r) (Z.shiftl (bit_reflect n x) 32)).
Proof.
  revert r. induction n as [|n IH]; intros r; cbn [mod2_from iterate].
  - cbn [bit_reflect]. by rewrite Z.shiftl_0_l, Z.lxor_0_r.
  - rewrite division_step. apply IH.
Qed.

Lemma instruction_is_shifting (w : nat) dest src : is_u32 dest -> 0 <= src < 2 ^ Z.of_nat w ->
  crc32_instruction w dest src = iterate w (crc_bit_le CRC32C_POLY) (Z.lxor dest src).
Proof.
  intros Hd Hs. unfold crc32_instruction. unfold mod2. rewrite division_is_shifting. assert (bit_reflect 32 0 = 0) as -> by by vm_compute.
  rewrite Z.lxor_0_l, Nat.add_comm, iterate_add. pose proof (fun x => iterate_le_shift CRC32C_POLY CRC32C_POLY_u32 32 x) as Hshift. change (Z.of_nat 32) with 32 in Hshift. rewrite Hshift. f_equal.
  assert (u32 dest = dest) as -> by (unfold u32, is_u32 in *; by apply Z.mod_small). apply Z.bits_inj'. intros i Hi. rewrite reflect_spec by done.
  apply u32_bits in Hd as [Hd0 Hd]. rewrite !Z.lxor_spec. destruct (Z.ltb_spec i (Z.of_nat (32 + w))) as [H|H]; cbn [andb].
  - rewrite !Z.shiftl_spec by lia. rewrite xorb_comm. f_equal.
    + destruct (Z.lt_ge_cases i 32); [|rewrite Z.testbit_neg_r by lia; symmetry; by apply Hd]. rewrite reflect_spec by lia. rewrite (proj2 (Z.ltb_lt _ _)) by lia. cbn [andb]. f_equal. lia.
    + destruct (Z.lt_ge_cases i (Z.of_nat w)); [|rewrite Z.testbit_neg_r by lia; symmetry; by apply (testbit_above src (Z.of_nat w))].
      rewrite reflect_spec by lia. rewrite (proj2 (Z.ltb_lt _ _)) by lia. cbn [andb]. f_equal. lia.
  - rewrite Hd by lia. by rewrite (testbit_above src (Z.of_nat w)) by lia.
Qed.

Lemma byte_u32 b : is_u8 b -> is_u32 b.
Proof. unfold is_u8, is_u32. lia. Qed.
Lemma bytes_le_u32 poly d s : is_u32 poly -> is_u32 s -> bytes_ok d -> is_u32 (foldl (crc_byte_le poly) s d).
Proof.
  intros Hp. revert s. induction d as [|b d IH]; intros s Hs Hd; cbn [foldl]; [done|]. apply Forall_cons in Hd as [Hb Hd].
  apply IH; [|done]. apply iterate_le_u32; [done|]. by apply u32_lxor, byte_u32.
Qed.

Lemma words_software n data acc : is_u32 acc -> bytes_ok data -> (8 * n <= length data)%nat ->
  crc32c_words n acc data = (foldl (crc_byte_le CRC32C_POLY) acc (take (8 * n) data), drop (8 * n) data).
Proof.
  revert acc data. induction n as [|n IH]; intros acc data Ha Hd Hl; cbn [crc32c_words]; [done|].
  assert (bytes_ok (take 8 data)) as Ht by by apply Forall_take. assert (length (take 8 data) = 8%nat) as Hlen by (rewrite length_take; lia).
  pose proof (le_value_bound _ Ht) as Hv. rewrite Hlen in Hv.
  assert (crc32q acc (le_value (take 8 data)) = foldl (crc_byte_le CRC32C_POLY) acc (take 8 data)) as ->.
  { unfold crc32q. rewrite instruction_is_shifting; [|done|change (2 ^ Z.of_nat 64) with (256 ^ Z.of_nat 8); done]. rewrite fold_bytes_le by (apply CRC32C_POLY_u32 || done). by rewrite Hlen. }
  replace (8 * S n)%nat with (8 + 8 * n)%nat by lia. rewrite IH.
  - by rewrite <- foldl_app, take_take_drop, drop_drop.
  - by apply bytes_le_u32; [apply CRC32C_POLY_u32|..].
  - by apply Forall_drop.
  - rewrite length_drop. lia.
Qed.

Lemma crc32b_software data acc : is_u32 acc -> bytes_ok data -> foldl crc32b acc data = foldl (crc_byte_le CRC32C_POLY) acc data.
Proof.
  revert acc. induction data as [|b d IH]; intros acc Ha Hd; cbn [foldl]; [done|]. apply Forall_cons in Hd as [Hb Hd].
  assert (crc32b acc b = crc_byte_le CRC32C_POLY acc b) as -> by by apply instruction_is_shifting.
  apply IH; [|done]. apply iterate_le_u32; [apply CRC32C_POLY_u32|]. by apply u32_lxor, byte_u32.
Qed.

Lemma hardware_is_software crc data : is_u32 crc -> bytes_ok data -> crc32c_update_hardware crc data = crc32c_update_software crc data.
Proof.
  intros Hc Hd. unfold crc32c_update_hardware, crc32c_update_software. pose proof (Nat.Div0.mul_div_le (length data) 8) as Hl.
  rewrite words_software by done. set (n := (8 * (length data / 8))%nat). rewrite u32_small by (apply bytes_le_u32; [apply CRC32C_POLY_u32|done|by apply Forall_take]).
  rewrite crc32b_software; [|apply bytes_le_u32; [apply CRC32C_POLY_u32|done|by apply Forall_take]|by apply Forall_drop].
  by rewrite <- foldl_app, take_drop.
Qed.
Lemma update_is_software available crc data : is_u32 crc -> bytes_ok data -> crc32c_update available crc data = crc32c_update_software crc data.
Proof. destruct available; [apply hardware_is_software|done]. Qed.

(** C19: CRC-32C is the same with and without the processor's instructions, for every
    checksum to continue from and every data, and over data in two pieces it is that of the
    whole: taking eight bytes at once with crc32q and the rest with crc32b, by polynomial
    division as the processor's manual has it, gives what the bit by bit loop gives, wherever
    the pieces end. *)
Theorem crc32c_hardware_agrees crc data1 data2 : is_u32 crc -> bytes_ok data1 -> bytes_ok data2 ->
  crc32c_update true (crc32c_update true crc data1) data2 = crc32c_update false crc (data1 ++ data2).
Proof.
  intros Hc H1 H2. rewrite (update_is_software true crc) by done. rewrite !update_is_software; [|done|by apply Forall_app|by apply bytes_le_u32; [apply CRC32C_POLY_u32|..]|done].
  unfold crc32c_update_software. by rewrite foldl_app.
Qed.
Lemma crc32c_hardware_agrees_witness :
  let data1 := [0x31;0x32;0x33] in let data2 := [0x34;0x35;0x36;0x37;0x38;0x39;0x31;0x32;0x33] in
  crc32c_update true (crc32c_update true 0xffffffff data1) data2 = crc32c_update false 0xffffffff (data1 ++ data2).
Proof. cbv zeta. apply (crc32c_hardware_agrees 0xffffffff); [by vm_compute|repeat constructor; by vm_compute..]. Defined.
(** The published check value of CRC-32C. *)
Example crc32c_check_value :
  Z.lxor (crc32c_update true 0xffffffff [0x31;0x32;0x33;0x34;0x35;0x36;0x37;0x38;0x39]) 0xffffffff = 0xe3069283.
Proof. by vm_compute. Qed.

(** ** What a checksum detects *)

Section detect.
Context (poly : Z) (Hpoly : is_u32 poly) (Htop : Z.testbit poly 31 = true).

Lemma bit_le_inj a b : is_u32 a -> is_u32 b -> crc_bit_le poly a = crc_bit_le poly b -> a = b.
Proof.
  intros Ha Hb E. assert (forall i, 0 <= i -> Z.testbit (crc_bit_le poly a) i = Z.testbit (crc_bit_le poly b) i) as Hi by by rewrite E.
  apply u32_bits in Ha as [_ Ha]. apply u32_bits in Hb as [_ Hb].
  assert (Z.testbit a 0 = Z.testbit b 0) as H0.
  { specialize (Hi 31). rewrite !bit_le_spec, Htop, Ha, Hb in Hi by (done || lia). specialize (Hi ltac:(lia)). by destruct (Z.testbit a 0), (Z.testbit b 0). }
  apply Z.bits_inj'. intros i Hi0. destruct (decide (i = 0)) as [->|]; [done|]. specialize (Hi (i - 1)). rewrite !bit_le_spec, H0 in Hi by (done || lia).
  replace (i - 1 + 1) with i in Hi by lia. specialize (Hi ltac:(lia)). destruct (Z.testbit a i), (Z.testbit b i), (Z.testbit b 0), (Z.testbit poly (i - 1)); done.
Qed.
Lemma iterate_le_inj n a b : is_u32 a -> is_u32 b -> iterate n (crc_bit_le poly) a = iterate n (crc_bit_le poly) b -> a = b.
Proof.
  revert a b. induction n as [|n IH]; intros a b Ha Hb; cbn; [done|]. intros E. apply bit_le_inj; [done..|]. apply IH; [by apply bit_le_u32..|done].
Qed.
Lemma lxor_inj_r c a b : Z.lxor a c = Z.lxor b c -> a = b.
Proof. intros E. rewrite <- (Z.lxor_0_r a), <- (Z.lxor_0_r b), <- (Z.lxor_nilpotent c), <- !Z.lxor_assoc. by rewrite E. Qed.
Lemma bytes_le_inj d a b : bytes_ok d -> is_u32 a -> is_u32 b -> foldl (crc_byte_le poly) a d = foldl (crc_byte_le poly) b d -> a = b.
Proof.
  revert a b. induction d as [|x d IH]; intros a b Hd Ha Hb; cbn [foldl]; [done|]. apply Forall_cons in Hd as [Hx Hd]. intros E.
  apply (lxor_inj_r x), (iterate_le_inj 8); [by apply u32_lxor, byte_u32..|]. apply IH; [done| | |exact E]; by apply iterate_le_u32; [|apply u32_lxor, byte_u32].
Qed.

Lemma le_value_inj a b : bytes_ok a -> bytes_ok b -> length a = length b -> le_value a = le_value b -> a = b.
Proof.
  revert b. induction a as [|x a IH]; intros [|y b]; cbn; try done. intros [Hx Ha]%Forall_cons [Hy Hb]%Forall_cons [= Hl] E. unfold is_u8 in *.
  assert (x = y) as -> by lia. f_equal. apply IH; [done..|lia].
Qed.

Lemma burst_le crc p a b q : is_u32 crc -> bytes_ok p -> bytes_ok a -> bytes_ok b -> bytes_ok q -> length a = length b -> (length a <= 4)%nat ->
  foldl (crc_byte_le poly) crc (p ++ a ++ q) = foldl (crc_byte_le poly) crc (p ++ b ++ q) -> a = b.
Proof.
  intros Hc Hp Ha Hb Hq Hl H4. rewrite !foldl_app. set (s := foldl _ crc p). assert (is_u32 s) as Hs by by apply bytes_le_u32. intros E%bytes_le_inj; [|done|by apply bytes_le_u32..].
  rewrite !fold_bytes_le, <- Hl in E by done. 
  assert (forall d, bytes_ok d -> (length d <= 4)%nat -> is_u32 (le_value d)) as Hu.
  { intros d Hd H. pose proof (le_value_bound d Hd). unfold is_u32. change 0x100000000 with (256 ^ 4). assert (256 ^ Z.of_nat (length d) <= 256 ^ 4) by (apply Z.pow_le_mono_r; lia). lia. }
  apply iterate_le_inj in E; [|apply u32_lxor; [done|apply Hu; by rewrite <- ?Hl]..]. rewrite !(Z.lxor_comm s) in E. apply lxor_inj_r in E. by apply le_value_inj.
Qed.
End detect.

(** The other bit order is the mirror image. *)
Lemma bit_be_reflects poly s : is_u32 poly -> is_u32 s -> bit_reflect 32 (crc_bit_le poly s) = crc_bit_be (bit_reflect 32 poly) (bit_reflect 32 s).
Proof.
  intros Hp Hs. apply Z.bits_inj'. intros i Hi. rewrite bit_be_spec by (apply reflect_u32 || done). rewrite (reflect_spec 32 (crc_bit_le poly s)), (reflect_spec 32 poly), (reflect_spec 32 s 31) by lia. change (Z.of_nat 32) with 32.
  destruct (Z.ltb_spec i 32); cbn [andb]; [|by rewrite ?andb_false_r]. rewrite bit_le_spec by (done || lia). change (31 <? 32) with true. cbn [andb].
  f_equal. apply u32_bits in Hs as [_ Hs]. destruct (Z.ltb_spec 0 i); cbn [andb]; [|apply Hs; lia]. rewrite reflect_spec by lia. change (Z.of_nat 32) with 32. rewrite (proj2 (Z.ltb_lt _ _)) by lia. cbn [andb]. f_equal. lia.
Qed.

Lemma reflect_lxor n a b : bit_reflect n (Z.lxor a b) = Z.lxor (bit_reflect n a) (bit_reflect n b).
Proof. apply Z.bits_inj'. intros i Hi. rewrite Z.lxor_spec, !reflect_spec, Z.lxor_spec by done. by destruct (i <? Z.of_nat n). Qed.
Lemma reflect_byte b : is_u8 b -> bit_reflect 32 b = u32 (Z.shiftl (bit_reflect 8 b) 24).
Proof.
  intros Hb. apply Z.bits_inj'. intros i Hi. rewrite u32_testbit, Z.shiftl_spec by lia. rewrite (reflect_spec 32) by done. change (Z.of_nat 32) with 32. f_equal.
  destruct (Z.lt_ge_cases i 24); [rewrite (Z.testbit_neg_r (bit_reflect 8 b)) by lia; apply (testbit_above b 8); unfold is_u8 in Hb; lia|]. rewrite reflect_spec by lia.
  change (Z.of_nat 8) with 8. destruct (Z.ltb_spec (i - 24) 8); cbn [andb]; [f_equal; lia|]. apply Z.testbit_neg_r. lia.
Qed.
Lemma iterate_be_reflects n poly s : is_u32 poly -> is_u32 s ->
  bit_reflect 32 (iterate n (crc_bit_le poly) s) = iterate n (crc_bit_be (bit_reflect 32 poly)) (bit_reflect 32 s).
Proof. intros Hp. revert s. induction n as [|n IH]; intros s Hs; cbn [iterate]; [done|]. rewrite IH by by apply bit_le_u32. by rewrite bit_be_reflects. Qed.

(** Reading every byte and the checksum backwards, kb_crc32_be is kb_crc32_le. *)
Theorem crc32_be_mirrors_le crc data : is_u32 crc -> bytes_ok data ->
  bit_reflect 32 (kb_crc32_le crc (Some data)) = kb_crc32_be (bit_reflect 32 crc) (Some (bit_reflect 8 <$> data)).
Proof.
  unfold kb_crc32_le, kb_crc32_be. change (default [] (Some ?l)) with l. revert crc. induction data as [|b d IH]; intros s Hs Hd; cbn [foldl fmap list_fmap]; [done|].
  apply Forall_cons in Hd as [Hb Hd]. assert (is_u32 (Z.lxor s b)) as Hx by by apply u32_lxor, byte_u32.
  rewrite IH by (done || by apply iterate_le_u32). f_equal. unfold crc_byte_le, crc_byte_be. rewrite iterate_be_reflects by done.
  rewrite reflect_lxor, (reflect_byte b) by done. by assert (bit_reflect 32 0xedb88320 = 0x04c11db7) as -> by by vm_compute.
Qed.

(** C20: A change within four consecutive bytes is always noticed, in CRC-32 and in CRC-32C
    with or without the instructions, whatever comes before and after: from equal checksums,
    two messages that differ at most there are the same. *)
Theorem crc_detects_bursts available crc p a b q :
  is_u32 crc -> bytes_ok (p ++ a ++ q) -> bytes_ok b -> length a = length b -> (length a <= 4)%nat -> a <> b ->
  kb_crc32_le crc (Some (p ++ a ++ q)) <> kb_crc32_le crc (Some (p ++ b ++ q)) /\
  crc32c_update available crc (p ++ a ++ q) <> crc32c_update available crc (p ++ b ++ q).
Proof.
  intros Hc [Hp [Ha Hq]%Forall_app]%Forall_app Hb Hl H4 Hne. assert (forall poly, is_u32 poly -> Z.testbit poly 31 = true ->
    foldl (crc_byte_le poly) crc (p ++ a ++ q) <> foldl (crc_byte_le poly) crc (p ++ b ++ q)) as H.
  { intros poly Hpoly Htop E. by apply (burst_le poly Hpoly Htop) in E. }
  split; [apply H; by vm_compute|]. rewrite !update_is_software by (done || by (unfold bytes_ok; rewrite !Forall_app)). apply H; by vm_compute.
Qed.
Lemma crc_detects_bursts_witness :
  crc32c_update true 0xffffffff ([1;2;3] ++ [4;5;6;7] ++ [8;9]) <> crc32c_update true 0xffffffff ([1;2;3] ++ [0;0;0xff;7] ++ [8;9]).
Proof.
  apply (crc_detects_bursts true 0xffffffff [1;2;3] [4;5;6;7] [0;0;0xff;7] [8;9]); try done; try (repeat constructor; by vm_compute).
Defined.

(** ** The hash over several updates *)

(** The state of a hash after two updates is that of one update with both pieces, unless the
    second piece holds the state itself. *)
Lemma shash_updates available desc m d1 l1 d2 l2 : mem_ok m -> desc <> 0 -> d1 <> 0 -> d2 <> 0 -> 0 <= l1 -> 0 <= l2 ->
  (d2 + l2 <= desc + 8 \/ desc + 12 <= d2) ->
  mload32 (kb_crypto_shash_update_stub available desc d2 l2 (kb_crypto_shash_update_stub available desc d1 l1 m).1).1 (desc + 8) =
  crc32c_update available (mload32 m (desc + 8)) (mload m d1 (Z.to_nat l1) ++ mload m d2 (Z.to_nat l2)).
Proof.
  intros Hm H0 H1 H2 Hl1 Hl2 Hov. unfold kb_crypto_shash_update_stub. rewrite (proj2 (Z.eqb_neq desc 0)), (proj2 (Z.eqb_neq d1 0)), (proj2 (Z.eqb_neq d2 0)) by done. cbn [orb andb fst].
  assert (is_u32 (mload32 m (desc + 8))) as Hu by exact (le_value_range m (desc + 8) 4 Hm).
  assert (forall a n, bytes_ok (mload m a n)) as Hb by (intros; apply Forall_lookup; intros i x; rewrite lookup_mload; case_decide; [intros [= <-]; by apply mem_byte_ok|done]).
  assert (forall d s, is_u32 s -> bytes_ok d -> is_u32 (crc32c_update available s d)) as Hup.
  { intros d s Hs Hd. rewrite update_is_software by done. by apply bytes_le_u32; [apply CRC32C_POLY_u32|..]. }
  assert (mload (mstore32 m (desc + 8) (crc32c_update available (mload32 m (desc + 8)) (mload m d1 (Z.to_nat l1)))) d2 (Z.to_nat l2) = mload m d2 (Z.to_nat l2)) as ->.
  { unfold mstore32. apply mload_mstore_other. rewrite length_le_bytes. lia. }
  rewrite (mload32_mstore32_same m) by auto. rewrite mload32_mstore32_same by auto. rewrite (update_is_software available _ (mload m d1 _)) by auto.
  rewrite !update_is_software by (auto || by (unfold bytes_ok; rewrite ?Forall_app; split; apply Hb) || by apply bytes_le_u32; [apply CRC32C_POLY_u32|..]).
  unfold crc32c_update_software. by rewrite foldl_app.
Qed.
