(* ===== verification/Kfifo.v ===== *)
(** * Element queues (kfifo; src/src/linux_personality/linux_stubs.c)

    A ring over a buffer the module provides: a header with two running 32-bit counters, a
    mask, the size of an element and the address of the buffer.  The second part shows that
    such a ring is a bounded queue of elements, the counters wrapping around or not. *)

From S2P Require Import Prelude Memory Heap.

Definition KB_KFIFO_IN_OFFSET : Z := 0.
Definition KB_KFIFO_OUT_OFFSET : Z := 4.
Definition KB_KFIFO_MASK_OFFSET : Z := 8.
Definition KB_KFIFO_ESIZE_OFFSET : Z := 12.
Definition KB_KFIFO_DATA_OFFSET : Z := 16.

(** ** The code *)

(** [while (power <= value / 2) power <<= 1], doubling at most 31 times. *)
Fixpoint pow2_from (steps : nat) (power value : Z) : Z :=
  match steps with
  | O => power
  | S steps => if power <=? value / 2 then pow2_from steps (u32 (Z.shiftl power 1)) value else power
  end.
Definition kb_pow2_floor_u32 (value : Z) : Z := if value =? 0 then 0 else pow2_from 32 1 value.

Record kfifo_fields := mk_kfifo { kf_in : Z; kf_out : Z; kf_mask : Z; kf_esize : Z; kf_data : Z }.
Definition kb_kfifo_load (fifo : Z) (m : mem) : kfifo_fields :=
  mk_kfifo (mload32 m (fifo + KB_KFIFO_IN_OFFSET)) (mload32 m (fifo + KB_KFIFO_OUT_OFFSET)) (mload32 m (fifo + KB_KFIFO_MASK_OFFSET))
    (mload32 m (fifo + KB_KFIFO_ESIZE_OFFSET)) (mload64 m (fifo + KB_KFIFO_DATA_OFFSET)).

Definition kb_kfifo_init (fifo buffer size esize : Z) (m : mem) : mem * Z :=
  if (fifo =? 0) || (buffer =? 0) || (esize =? 0) || (UINT32_MAX <? esize) then (m, -22)
  else
    let elements := kb_pow2_floor_u32 (size / esize) in
    let mask := if elements <? 2 then 0 else elements - 1 in
    let m := mstore32 m (fifo + KB_KFIFO_IN_OFFSET) 0 in
    let m := mstore32 m (fifo + KB_KFIFO_OUT_OFFSET) 0 in
    let m := mstore32 m (fifo + KB_KFIFO_MASK_OFFSET) mask in
    let m := mstore32 m (fifo + KB_KFIFO_ESIZE_OFFSET) esize in
    let m := mstore64 m (fifo + KB_KFIFO_DATA_OFFSET) buffer in
    (m, if elements <? 2 then -22 else 0).

(** Products with a [size_t] do not wrap; [off * esize] is a product of two ints and may. *)
Definition kb_kfifo_in (fifo buffer len : Z) (m : mem) : mem * Z :=
  if (fifo =? 0) || (buffer =? 0) then (m, 0)
  else
    let f := kb_kfifo_load fifo m in
    if (kf_data f =? 0) || (kf_esize f =? 0) || (kf_mask f =? 0) then (m, 0)
    else
      let size := u32 (kf_mask f + 1) in
      let unused := u32 (size - u32 (kf_in f - kf_out f)) in
      let len := if unused <? len then unused else len in
      let off := Z.land (kf_in f) (kf_mask f) in
      let first := u32 (size - off) in
      let first := if len <? first then len else first in
      let m := memcpy_bytes (kf_data f + u32 (off * kf_esize f)) buffer (first * kf_esize f) m in
      let m := memcpy_bytes (kf_data f) (buffer + first * kf_esize f) (u32 (len - first) * kf_esize f) m in
      (mstore32 m (fifo + KB_KFIFO_IN_OFFSET) (u32 (kf_in f + len)), len).

Definition kb_kfifo_out (fifo buffer len : Z) (m : mem) : mem * Z :=
  if (fifo =? 0) || (buffer =? 0) then (m, 0)
  else
    let f := kb_kfifo_load fifo m in
    if (kf_data f =? 0) || (kf_esize f =? 0) || (kf_mask f =? 0) then (m, 0)
    else
      let available := u32 (kf_in f - kf_out f) in
      let len := if available <? len then available else len in
      let size := u32 (kf_mask f + 1) in
      let off := Z.land (kf_out f) (kf_mask f) in
      let first := u32 (size - off) in
      let first := if len <? first then len else first in
      let m := memcpy_bytes buffer (kf_data f + u32 (off * kf_esize f)) (first * kf_esize f) m in
      let m := memcpy_bytes (buffer + first * kf_esize f) (kf_data f) (u32 (len - first) * kf_esize f) m in
      (mstore32 m (fifo + KB_KFIFO_OUT_OFFSET) (u32 (kf_out f + len)), len).

Definition kb_kfifo_to_user (fifo to len copied : Z) (m : mem) : mem * Z :=
  let '(m, done) := kb_kfifo_out fifo to len m in
  let m := if copied =? 0 then m else mstore32 m copied done in
  (m, if done =? len then 0 else -14).

Section free.
Context {P : Type} (pages : page_source P).
Definition kb_kfifo_free (fifo : Z) (s : @heap_state P) : @heap_state P :=
  if fifo =? 0 then s
  else
    let s := kb_kfree pages (mload64 (hp_mem pages s) (fifo + KB_KFIFO_DATA_OFFSET)) s in
    with_mem pages (fun m =>
      let m := mstore32 m (fifo + KB_KFIFO_IN_OFFSET) 0 in
      let m := mstore32 m (fifo + KB_KFIFO_OUT_OFFSET) 0 in
      let m := mstore32 m (fifo + KB_KFIFO_MASK_OFFSET) 0 in
      let m := mstore32 m (fifo + KB_KFIFO_ESIZE_OFFSET) 0 in
      mstore64 m (fifo + KB_KFIFO_DATA_OFFSET) 0) s.
End free.

(** ** A queue of elements *)

(** Element [j] of an array at [data]. *)
Definition elem (m : mem) (data esize j : Z) : list Z := mload m (data + j * esize) (Z.to_nat esize).
Definition elems (m : mem) (data esize : Z) (n : nat) : list (list Z) := elem m data esize <$> seqZ 0 (Z.of_nat n).

Definition kfifo_size (f : kfifo_fields) : Z := kf_mask f + 1.
Definition queue_length (f : kfifo_fields) : Z := u32 (kf_in f - kf_out f).
(** What the ring holds, the oldest element first. *)
Definition queue (fifo : Z) (m : mem) : list (list Z) :=
  let f := kb_kfifo_load fifo m in
  (fun i => elem m (kf_data f) (kf_esize f) ((kf_out f + i) mod kfifo_size f)) <$> seqZ 0 (queue_length f).

(** The header of a ring, and that it and the buffer do not overlap. *)
Record fields_ok (fifo : Z) (f : kfifo_fields) : Prop := {
  fo_in : is_u32 (kf_in f);
  fo_out : is_u32 (kf_out f);
  fo_power : exists k, 1 <= k < 32 /\ kfifo_size f = 2 ^ k;
  fo_esize : 0 < kf_esize f;
  fo_bytes : kfifo_size f * kf_esize f <= UINT32_MAX;
  fo_data : 0 < kf_data f;
  fo_fifo : 0 < fifo;
  fo_apart : fifo + 24 <= kf_data f \/ kf_data f + kfifo_size f * kf_esize f <= fifo;
  fo_length : queue_length f <= kfifo_size f;
}.
Definition kfifo_ok (fifo : Z) (m : mem) : Prop := fields_ok fifo (kb_kfifo_load fifo m).

(** A buffer of [n] elements apart from the ring. *)
Definition apart_from (fifo : Z) (f : kfifo_fields) (buffer n : Z) : Prop :=
  0 < buffer /\
  (buffer + n * kf_esize f <= fifo \/ fifo + 24 <= buffer) /\
  (buffer + n * kf_esize f <= kf_data f \/ kf_data f + kfifo_size f * kf_esize f <= buffer).

Lemma elem_copy m dst src e o n j : 0 < e -> 0 <= o -> 0 <= n -> 0 <= j ->
  elem (memcpy_bytes (dst + o * e) src (n * e) m) dst e j = if decide (o <= j < o + n) then elem m src e (j - o) else elem m dst e j.
Proof.
  intros He Ho Hn Hj. unfold elem, memcpy_bytes. apply list_eq. intros i. rewrite lookup_mload. destruct (decide (i < Z.to_nat e)%nat) as [Hi|Hi].
  - rewrite mem_byte_mstore, blen_mload by nia. case_decide as H1; case_decide as H2.
    + rewrite nth_mload by nia. rewrite lookup_mload, decide_True by done. f_equal. f_equal. lia.
    + exfalso. apply H2. nia.
    + exfalso. apply H1. nia.
    + by rewrite lookup_mload, decide_True.
  - case_decide; by rewrite lookup_mload, decide_False.
Qed.

Lemma memcpy_other dst src n m a k : 0 <= n -> a + Z.of_nat k <= dst \/ dst + n <= a -> mload (memcpy_bytes dst src n m) a k = mload m a k.
Proof. intros Hn H. unfold memcpy_bytes. apply mload_mstore_other. rewrite length_mload. lia. Qed.
Lemma elem_other dst src n m a e j : 0 <= n -> 0 < e -> a + j * e + e <= dst \/ dst + n <= a + j * e -> elem (memcpy_bytes dst src n m) a e j = elem m a e j.
Proof. intros Hn He H. unfold elem. apply memcpy_other; lia. Qed.
Lemma elem_shift m a e i j : elem m (a + i * e) e j = elem m a e (i + j).
Proof. unfold elem. f_equal. lia. Qed.

Lemma wrap_mod off i size : 0 <= off < size -> 0 <= i <= size -> (off + i) mod size = if decide (off + i < size) then off + i else off + i - size.
Proof. intros Ho Hi. case_decide; [apply Z.mod_small; lia|]. symmetry. apply (Z.mod_unique_pos _ _ 1); lia. Qed.

Section ring.
Context (m : mem) (data e size off len first : Z).
Hypotheses (He : 0 < e) (Hoff : 0 <= off < size) (Hlen : 0 <= len <= size) (Hfirst : first = Z.min len (size - off)).

Definition ring_put (src : Z) : mem := memcpy_bytes data (src + first * e) ((len - first) * e) (memcpy_bytes (data + off * e) src (first * e) m).
Definition ring_get (dst : Z) : mem := memcpy_bytes (dst + first * e) data ((len - first) * e) (memcpy_bytes dst (data + off * e) (first * e) m).

Lemma ring_put_elem src i : src + len * e <= data \/ data + size * e <= src -> 0 <= i < size ->
  elem (ring_put src) data e ((off + i) mod size) = if decide (i < len) then elem m src e i else elem m data e ((off + i) mod size).
Proof.
  intros Hs Hi. unfold ring_put. rewrite wrap_mod by lia. rewrite <- (Z.add_0_r data) at 1. change 0 with (0 * e) at 1.
  rewrite elem_copy; [|lia|lia|lia|case_decide; lia]. destruct (decide (off + i < size)) as [Hw|Hw].
  - rewrite decide_False by lia. rewrite elem_copy by lia. case_decide as H1; case_decide as H2; try lia; [f_equal; lia|done].
  - destruct (decide (i < len)) as [H|H].
    + rewrite decide_True by lia. rewrite elem_shift. replace (first + (off + i - size - 0)) with i by lia. apply elem_other; nia.
    + rewrite decide_False by lia. rewrite elem_copy by lia. by rewrite decide_False by lia.
Qed.
Lemma ring_put_other src a k : a + Z.of_nat k <= data \/ data + size * e <= a -> mload (ring_put src) a k = mload m a k.
Proof. intros H. unfold ring_put. rewrite !memcpy_other by nia. done. Qed.

Lemma ring_get_elem dst i : dst + len * e <= data \/ data + size * e <= dst -> 0 <= i < len ->
  elem (ring_get dst) dst e i = elem m data e ((off + i) mod size).
Proof.
  intros Hs Hi. unfold ring_get. rewrite wrap_mod, elem_copy by lia. case_decide as H1; case_decide as H2; try lia.
  - unfold elem at 1. rewrite memcpy_other by nia. unfold elem. f_equal. nia.
  - rewrite <- (Z.add_0_r dst) at 1. change 0 with (0 * e) at 1. rewrite elem_copy, decide_True, elem_shift by lia. f_equal. lia.
Qed.
Lemma ring_get_other dst a k : a + Z.of_nat k <= dst \/ dst + len * e <= a -> mload (ring_get dst) a k = mload m a k.
Proof. intros H. unfold ring_get. rewrite !memcpy_other by nia. done. Qed.
End ring.

Lemma slot_bytes i n e : 0 <= i < n -> 0 < e -> 0 <= i * e /\ i * e + e <= n * e.
Proof. nia. Qed.

Section fields.
Context (fifo : Z) (f : kfifo_fields) (Hf : fields_ok fifo f).

Lemma size_bounds : 2 <= kfifo_size f < 0x100000000.
Proof.
  destruct (fo_power _ _ Hf) as (k & Hk & ->). assert (2 ^ 1 <= 2 ^ k) by (apply Z.pow_le_mono_r; lia).
  assert (2 ^ k < 2 ^ 32) by (apply Z.pow_lt_mono_r; lia). change (2 ^ 32) with 0x100000000 in *. lia.
Qed.
Lemma size_wraps : u32 (kf_mask f + 1) = kfifo_size f.
Proof. pose proof size_bounds. apply u32_small. unfold is_u32, kfifo_size in *. lia. Qed.
Lemma mask_is_mod x : Z.land x (kf_mask f) = x mod kfifo_size f.
Proof.
  destruct (fo_power _ _ Hf) as (k & Hk & E). rewrite E. replace (kf_mask f) with (Z.ones k); [apply Z.land_ones; lia|].
  rewrite Z.ones_equiv. unfold kfifo_size in E. lia.
Qed.
Lemma size_divides : exists q, 0x100000000 = q * kfifo_size f.
Proof.
  destruct (fo_power _ _ Hf) as (k & Hk & ->). exists (2 ^ (32 - k)). rewrite <- Z.pow_add_r by lia. by replace (32 - k + k) with 32 by lia.
Qed.

(** The place of element [i], counted from either end. *)
Lemma from_in i : (kf_out f + i) mod kfifo_size f = (kf_in f mod kfifo_size f + (i - queue_length f)) mod kfifo_size f.
Proof.
  pose proof size_bounds. destruct size_divides as [q E]. unfold queue_length, u32. rewrite Z.add_mod_idemp_l by lia. rewrite (Z.mod_eq _ 0x100000000) by lia.
  set (t := (kf_in f - kf_out f) / 0x100000000). rewrite E. replace (kf_in f + (i - (kf_in f - kf_out f - q * kfifo_size f * t))) with (kf_out f + i + (q * t) * kfifo_size f) by lia.
  by rewrite Z.mod_add by lia.
Qed.

Lemma not_null : (kf_data f =? 0) || (kf_esize f =? 0) || (kf_mask f =? 0) = false.
Proof.
  pose proof size_bounds. pose proof (fo_data _ _ Hf). pose proof (fo_esize _ _ Hf). unfold kfifo_size in *. by rewrite !(proj2 (Z.eqb_neq _ _)) by lia.
Qed.
(** Elements lie outside the header. *)
Lemma slot_apart i : let a := kf_data f + i mod kfifo_size f * kf_esize f in a + kf_esize f <= fifo \/ fifo + 24 <= a.
Proof.
  cbv zeta. pose proof size_bounds. pose proof (Z.mod_pos_bound i (kfifo_size f) ltac:(lia)) as Hi. pose proof (fo_esize _ _ Hf). pose proof (fo_apart _ _ Hf).
  set (j := i mod kfifo_size f) in *. clearbody j. destruct (slot_bytes j (kfifo_size f) (kf_esize f)); lia.
Qed.
Lemma length_bounds : 0 <= queue_length f <= kfifo_size f.
Proof. split; [unfold queue_length, u32; by apply Z.mod_pos_bound|apply (fo_length _ _ Hf)]. Qed.
End fields.

(** Header words. *)
Lemma mload32_other m a q b : b + 4 <= a \/ a + Z.of_nat (length q) <= b -> mload32 (mstore m a q) b = mload32 m b.
Proof. intros H. unfold mload32. by rewrite mload_mstore_other by lia. Qed.

Lemma load_same fifo m m' : mload m' fifo 24 = mload m fifo 24 -> kb_kfifo_load fifo m' = kb_kfifo_load fifo m.
Proof.
  intros H. assert (forall o n, 0 <= o -> o + Z.of_nat n <= 24 -> mload m' (fifo + o) n = mload m (fifo + o) n) as Hs.
  { intros o n Ho Hn. apply list_eq. intros i. rewrite !lookup_mload. case_decide; [|done]. f_equal.
    assert (mload m' fifo 24 !! (Z.to_nat o + i)%nat = mload m fifo 24 !! (Z.to_nat o + i)%nat) as Hi by by rewrite H. rewrite !lookup_mload, !decide_True in Hi by lia.
    injection Hi as Hi. rewrite Nat2Z.inj_add, Z2Nat.id, Z.add_assoc in Hi by done. done. }
  unfold kb_kfifo_load, mload32, mload64, KB_KFIFO_IN_OFFSET, KB_KFIFO_OUT_OFFSET, KB_KFIFO_MASK_OFFSET, KB_KFIFO_ESIZE_OFFSET, KB_KFIFO_DATA_OFFSET.
  by rewrite !Hs by lia.
Qed.
Lemma load_store_in fifo m v : is_u32 v ->
  kb_kfifo_load fifo (mstore32 m (fifo + KB_KFIFO_IN_OFFSET) v) = mk_kfifo v (kf_out (kb_kfifo_load fifo m)) (kf_mask (kb_kfifo_load fifo m)) (kf_esize (kb_kfifo_load fifo m)) (kf_data (kb_kfifo_load fifo m)).
Proof.
  intros Hv. unfold kb_kfifo_load. cbn [kf_out kf_mask kf_esize kf_data]. rewrite mload32_mstore32_same by done. unfold mstore32, KB_KFIFO_IN_OFFSET, KB_KFIFO_OUT_OFFSET, KB_KFIFO_MASK_OFFSET, KB_KFIFO_ESIZE_OFFSET, KB_KFIFO_DATA_OFFSET.
  rewrite !mload32_other by (rewrite length_le_bytes; lia). by rewrite mload64_mstore_other by (rewrite length_le_bytes; lia).
Qed.
Lemma load_store_out fifo m v : is_u32 v ->
  kb_kfifo_load fifo (mstore32 m (fifo + KB_KFIFO_OUT_OFFSET) v) = mk_kfifo (kf_in (kb_kfifo_load fifo m)) v (kf_mask (kb_kfifo_load fifo m)) (kf_esize (kb_kfifo_load fifo m)) (kf_data (kb_kfifo_load fifo m)).
Proof.
  intros Hv. unfold kb_kfifo_load. cbn [kf_in kf_mask kf_esize kf_data]. rewrite mload32_mstore32_same by done. unfold mstore32, KB_KFIFO_IN_OFFSET, KB_KFIFO_OUT_OFFSET, KB_KFIFO_MASK_OFFSET, KB_KFIFO_ESIZE_OFFSET, KB_KFIFO_DATA_OFFSET.
  rewrite !mload32_other by (rewrite length_le_bytes; lia). by rewrite mload64_mstore_other by (rewrite length_le_bytes; lia).
Qed.
Lemma elem_store32 m a v b e j : 0 < e -> b + j * e + e <= a \/ a + 4 <= b + j * e -> elem (mstore32 m a v) b e j = elem m b e j.
Proof. intros He H. unfold elem, mstore32. apply mload_mstore_other. rewrite length_le_bytes. lia. Qed.

Lemma length_of_queue fifo m : kfifo_ok fifo m -> Z.of_nat (length (queue fifo m)) = queue_length (kb_kfifo_load fifo m).
Proof. intros Hok. pose proof (length_bounds _ _ Hok). unfold queue. rewrite length_fmap, length_seqZ. lia. Qed.

Lemma fmap_seqZ_ext {A} (g h : Z -> A) a n : (forall i, a <= i < a + n -> g i = h i) -> g <$> seqZ a n = h <$> seqZ a n.
Proof. intros H. apply list_fmap_ext. intros i x Hx. apply lookup_seqZ in Hx as [-> Hi]. apply H. lia. Qed.

(** With other counters, the ring is as good when it holds no more than fits. *)
Lemma fields_ok_counters fifo f i o : fields_ok fifo f -> is_u32 i -> is_u32 o -> u32 (i - o) <= kfifo_size f ->
  fields_ok fifo (mk_kfifo i o (kf_mask f) (kf_esize f) (kf_data f)).
Proof. intros [? ? ? ? ? ? ? ? ?] Hi Ho Hl. by constructor. Qed.

Section operations.
Context (fifo : Z) (m : mem) (Hok : kfifo_ok fifo m).
#[local] Abbreviation f := (kb_kfifo_load fifo m).

Lemma put_lemma buffer len : is_u32 len -> apart_from fifo f buffer len ->
  exists n m', kb_kfifo_in fifo buffer len m = (m', n) /\ n = Z.min len (kfifo_size f - queue_length f) /\
  kb_kfifo_load fifo m' = mk_kfifo (u32 (kf_in f + n)) (kf_out f) (kf_mask f) (kf_esize f) (kf_data f) /\
  kfifo_ok fifo m' /\ queue fifo m' = queue fifo m ++ elems m buffer (kf_esize f) (Z.to_nat n).
Proof.
  intros Hlen (Hb0 & Hbf & Hbd). pose proof (size_bounds _ _ Hok) as Hsz. pose proof (length_bounds _ _ Hok) as Hql. pose proof (fo_bytes _ _ Hok) as Hby. pose proof (fo_esize _ _ Hok) as He.
  pose proof (fo_apart _ _ Hok) as Hap. unfold UINT32_MAX in Hby. unfold kb_kfifo_in. rewrite (proj2 (Z.eqb_neq fifo 0)) by (pose proof (fo_fifo _ _ Hok); lia). rewrite (proj2 (Z.eqb_neq buffer 0)) by lia.
  cbn [orb]. cbv zeta. rewrite (not_null _ _ Hok), (size_wraps _ _ Hok), (mask_is_mod _ _ Hok).
  change (u32 (kf_in f - kf_out f)) with (queue_length f). rewrite (u32_small (kfifo_size f - _)) by (unfold is_u32 in *; lia).
  set (n := if _ <? len then _ else len). assert (n = Z.min len (kfifo_size f - queue_length f)) as En by (unfold n; destruct (Z.ltb_spec (kfifo_size f - queue_length f) len); lia).
  clearbody n. assert (n * kf_esize f <= len * kf_esize f) as Hne by (apply Z.mul_le_mono_nonneg_r; lia). set (off := kf_in f mod kfifo_size f). assert (0 <= off < kfifo_size f) as Hoff by (apply Z.mod_pos_bound; lia).
  rewrite (u32_small (kfifo_size f - off)) by (unfold is_u32; lia). set (first := if n <? _ then _ else _).
  assert (first = Z.min n (kfifo_size f - off)) as Ef by (unfold first; destruct (Z.ltb_spec n (kfifo_size f - off)); lia). clearbody first.
  unfold is_u32 in Hlen. rewrite (u32_small (off * kf_esize f)) by (unfold is_u32; destruct (slot_bytes off (kfifo_size f) (kf_esize f)); lia). rewrite (u32_small (n - first)) by (unfold is_u32; lia).
  fold (ring_put m (kf_data f) (kf_esize f) off n first buffer). set (m1 := ring_put _ _ _ _ _ _ _).
  assert (kb_kfifo_load fifo m1 = f) as E1 by (apply load_same, (ring_put_other m (kf_data f) (kf_esize f) (kfifo_size f) off n first); lia).
  assert (is_u32 (u32 (kf_in f + n))) as Hin by (apply Z.mod_pos_bound; lia).
  pose proof (load_store_in fifo m1 _ Hin) as E2. rewrite E1 in E2. set (m2 := mstore32 m1 _ _) in E2. exists n, m2.
  assert (u32 (u32 (kf_in f + n) - kf_out f) = queue_length f + n) as El.
  { unfold queue_length, u32. rewrite Zminus_mod_idemp_l. replace (kf_in f + n - kf_out f) with (kf_in f - kf_out f + n) by lia. rewrite <- Z.add_mod_idemp_l by lia.
    apply Z.mod_small. fold (u32 (kf_in f - kf_out f)). fold (queue_length f). lia. }
  split_and!; [done|done|exact E2| |].
  - unfold kfifo_ok. rewrite E2. apply fields_ok_counters; [exact Hok|exact Hin|apply (fo_out _ _ Hok)|]. rewrite El. lia.
  - unfold queue. rewrite E2. cbn [kf_in kf_out kf_mask kf_esize kf_data]. unfold kfifo_size, queue_length at 1. cbn [kf_in kf_out kf_mask]. fold (kfifo_size f). rewrite El, seqZ_app by lia. rewrite fmap_app. f_equal.
    + apply fmap_seqZ_ext. intros i Hi. unfold m2. rewrite elem_store32; [|lia|]. 2: { pose proof (slot_apart _ _ Hok (kf_out f + i)) as Hs. cbv zeta in Hs. unfold KB_KFIFO_IN_OFFSET. lia. }
      rewrite (from_in _ _ Hok). fold off. replace (off + (i - queue_length f)) with (off + (i - queue_length f + kfifo_size f) + (-1) * kfifo_size f) by lia.
      rewrite Z.mod_add by lia. unfold m1. rewrite ring_put_elem by lia. by rewrite decide_False by lia.
    + unfold elems. rewrite Z2Nat.id by lia. rewrite Z.add_0_l. apply list_eq. intros k. rewrite !list_lookup_fmap.
      destruct (decide (k < Z.to_nat n)%nat) as [Hk|Hk]; [|rewrite !lookup_seqZ_ge by lia; done].
      rewrite !(lookup_seqZ_lt) by lia. change (?g <$> Some ?x) with (Some (g x)). cbv beta. f_equal. unfold m2. rewrite elem_store32; [|lia|]. 2: { pose proof (slot_apart _ _ Hok (kf_out f + (queue_length f + Z.of_nat k))) as Hs. cbv zeta in Hs. unfold KB_KFIFO_IN_OFFSET. lia. }
      rewrite (from_in _ _ Hok). fold off. replace (queue_length f + Z.of_nat k - queue_length f) with (Z.of_nat k) by lia. unfold m1. rewrite ring_put_elem by lia. by rewrite decide_True by lia.
Qed.

Lemma take_lemma buffer len : is_u32 len -> apart_from fifo f buffer len ->
  exists n m', kb_kfifo_out fifo buffer len m = (m', n) /\ n = Z.min len (queue_length f) /\
  kb_kfifo_load fifo m' = mk_kfifo (kf_in f) (u32 (kf_out f + n)) (kf_mask f) (kf_esize f) (kf_data f) /\
  kfifo_ok fifo m' /\ elems m' buffer (kf_esize f) (Z.to_nat n) = take (Z.to_nat n) (queue fifo m) /\ queue fifo m' = drop (Z.to_nat n) (queue fifo m).
Proof.
  intros Hlen (Hb0 & Hbf & Hbd). pose proof (size_bounds _ _ Hok) as Hsz. pose proof (length_bounds _ _ Hok) as Hql. pose proof (fo_bytes _ _ Hok) as Hby. pose proof (fo_esize _ _ Hok) as He.
  pose proof (fo_apart _ _ Hok) as Hap. unfold UINT32_MAX in Hby. unfold kb_kfifo_out. rewrite (proj2 (Z.eqb_neq fifo 0)) by (pose proof (fo_fifo _ _ Hok); lia). rewrite (proj2 (Z.eqb_neq buffer 0)) by lia.
  cbn [orb]. cbv zeta. rewrite (not_null _ _ Hok), (size_wraps _ _ Hok), (mask_is_mod _ _ Hok).
  change (u32 (kf_in f - kf_out f)) with (queue_length f). set (n := if _ <? len then _ else len).
  assert (n = Z.min len (queue_length f)) as En by (unfold n; destruct (Z.ltb_spec (queue_length f) len); lia).
  clearbody n. unfold is_u32 in Hlen. assert (n * kf_esize f <= len * kf_esize f) as Hne by (apply Z.mul_le_mono_nonneg_r; lia).
  set (off := kf_out f mod kfifo_size f). assert (0 <= off < kfifo_size f) as Hoff by (apply Z.mod_pos_bound; lia).
  rewrite (u32_small (kfifo_size f - off)) by (unfold is_u32; lia). set (first := if n <? _ then _ else _).
  assert (first = Z.min n (kfifo_size f - off)) as Ef by (unfold first; destruct (Z.ltb_spec n (kfifo_size f - off)); lia). clearbody first.
  rewrite (u32_small (off * kf_esize f)) by (unfold is_u32; destruct (slot_bytes off (kfifo_size f) (kf_esize f)); lia). rewrite (u32_small (n - first)) by (unfold is_u32; lia).
  fold (ring_get m (kf_data f) (kf_esize f) off n first buffer). set (m1 := ring_get _ _ _ _ _ _ _).
  assert (forall a k, a + Z.of_nat k <= buffer \/ buffer + n * kf_esize f <= a -> mload m1 a k = mload m a k) as Ho
    by (intros a k Ha; apply (ring_get_other m (kf_data f) (kf_esize f) (kfifo_size f) off n first); done || lia).
  assert (kb_kfifo_load fifo m1 = f) as E1 by (apply load_same, Ho; lia).
  assert (is_u32 (u32 (kf_out f + n))) as Hout by (apply Z.mod_pos_bound; lia).
  pose proof (load_store_out fifo m1 _ Hout) as E2. rewrite E1 in E2. set (m2 := mstore32 m1 _ _) in E2. exists n, m2.
  assert (u32 (kf_in f - u32 (kf_out f + n)) = queue_length f - n) as El.
  { unfold queue_length, u32. rewrite Zminus_mod_idemp_r. replace (kf_in f - (kf_out f + n)) with (kf_in f - kf_out f - n) by lia. rewrite <- Zminus_mod_idemp_l.
    apply Z.mod_small. fold (u32 (kf_in f - kf_out f)). fold (queue_length f). lia. }
  split_and!; [done|done|exact E2| | |].
  - unfold kfifo_ok. rewrite E2. apply fields_ok_counters; [exact Hok|apply (fo_in _ _ Hok)|exact Hout|]. rewrite El. lia.
  - unfold elems, queue. rewrite Z2Nat.id by lia. replace (queue_length f) with (n + (queue_length f - n)) at 1 by lia. rewrite seqZ_app, fmap_app by lia.
    rewrite take_app_length' by (rewrite length_fmap, length_seqZ; lia). apply fmap_seqZ_ext. intros i Hi. unfold m2. destruct (slot_bytes i n (kf_esize f)) as [? ?]; [lia|done|]. rewrite elem_store32 by (unfold KB_KFIFO_OUT_OFFSET; lia).
    unfold m1. rewrite (ring_get_elem m (kf_data f) (kf_esize f) (kfifo_size f)) by lia. f_equal. unfold off. by rewrite Z.add_mod_idemp_l by lia.
  - unfold queue. rewrite E2. cbn [kf_in kf_out kf_mask kf_esize kf_data]. unfold kfifo_size, queue_length at 1. cbn [kf_in kf_out kf_mask]. fold (kfifo_size f). rewrite El.
    replace (queue_length f) with (n + (queue_length f - n)) at 2 by lia. rewrite seqZ_app, fmap_app by lia. rewrite drop_app_length' by (rewrite length_fmap, length_seqZ; lia).
    apply list_eq. intros k. rewrite !list_lookup_fmap. destruct (decide (Z.of_nat k < queue_length f - n)) as [Hk|Hk]; [|rewrite !lookup_seqZ_ge by lia; done].
    rewrite !(lookup_seqZ_lt) by lia. change (?g <$> Some ?x) with (Some (g x)). cbv beta. f_equal.
    assert ((u32 (kf_out f + n) + (0 + Z.of_nat k)) mod kfifo_size f = (kf_out f + (0 + n + Z.of_nat k)) mod kfifo_size f) as ->.
    { destruct (size_divides _ _ Hok) as [q Eq]. unfold u32. rewrite (Z.mod_eq _ 0x100000000) by lia. set (t := (_ + n) / _). rewrite Eq.
      replace (kf_out f + n - q * kfifo_size f * t + (0 + Z.of_nat k)) with (kf_out f + (0 + n + Z.of_nat k) + - (q * t) * kfifo_size f) by lia. by rewrite Z.mod_add by lia. }
    set (j := kf_out f + _). pose proof (slot_apart _ _ Hok j) as Hs. cbv zeta in Hs. unfold m2. rewrite elem_store32 by (unfold KB_KFIFO_OUT_OFFSET; lia).
    unfold elem. apply Ho. pose proof (Z.mod_pos_bound j (kfifo_size f) ltac:(lia)) as Hj. set (jm := j mod kfifo_size f) in *. clearbody jm.
    destruct (slot_bytes jm (kfifo_size f) (kf_esize f)); lia.
Qed.
End operations.

Lemma pow2_from_spec steps k value : 0 <= k -> 2 ^ k <= value -> value < 2 ^ 32 -> value < 2 ^ (k + Z.of_nat steps) ->
  exists j, k <= j /\ pow2_from steps (2 ^ k) value = 2 ^ j /\ 2 ^ j <= value < 2 ^ (j + 1).
Proof.
  revert k. induction steps as [|n IH]; intros k Hk Hle Hv Hs; cbn [pow2_from]; [exfalso; rewrite Z.add_0_r in Hs; lia|].
  assert (2 ^ (k + 1) = 2 * 2 ^ k) as E by (rewrite Z.add_1_r, Z.pow_succ_r by lia; done).
  destruct (Z.leb_spec (2 ^ k) (value / 2)) as [H|H].
  - assert (2 * (value / 2) <= value) by (apply Z.mul_div_le; lia). assert (u32 (Z.shiftl (2 ^ k) 1) = 2 ^ (k + 1)) as ->.
    { rewrite Z.shiftl_mul_pow2 by lia. change (2 ^ 1) with 2. rewrite E, Z.mul_comm. apply u32_small. unfold is_u32. change (2 ^ 32) with 0x100000000 in Hv. lia. }
    destruct (IH (k + 1)) as (j & Hj & Ej & Hb); [lia..|by replace (k + 1 + Z.of_nat n) with (k + Z.of_nat (S n)) by lia|]. exists j. split_and!; [lia|done|lia|lia].
  - exists k. split_and!; [done..|]. rewrite E. assert (value < 2 * 2 ^ k); [|lia]. apply Z.nle_gt. intros Hge. apply Z.nle_gt in H. apply H. apply Z.div_le_lower_bound; lia.
Qed.
Lemma pow2_floor_spec value : 0 < value -> is_u32 value -> exists k, 0 <= k < 32 /\ kb_pow2_floor_u32 value = 2 ^ k /\ 2 ^ k <= value < 2 ^ (k + 1).
Proof.
  intros H0 Hv. unfold is_u32 in Hv. change 0x100000000 with (2 ^ 32) in Hv. unfold kb_pow2_floor_u32. rewrite (proj2 (Z.eqb_neq _ _)) by lia.
  destruct (pow2_from_spec 32 0 value) as (j & Hj & E & Hb); [done|cbn; lia|lia|apply Hv|]. change (2 ^ 0) with 1 in E. exists j. split_and!; [done| |done|lia|lia].
  apply (Z.pow_lt_mono_r_iff 2); lia.
Qed.

(** A ring is granted when the buffer holds two elements, empty and for the greatest power of
    two of them; otherwise the header is cleared of a size and -22 returned. *)
Lemma init_lemma fifo buffer size esize m : is_u32 size -> 0 < esize <= UINT32_MAX -> 0 < fifo -> is_u64 buffer -> buffer <> 0 ->
  fifo + 24 <= buffer \/ buffer + size <= fifo ->
  let '(m', r) := kb_kfifo_init fifo buffer size esize m in
  let f := kb_kfifo_load fifo m' in
  kf_data f = buffer /\ kf_esize f = esize /\
  if decide (2 <= size / esize)
  then r = 0 /\ kfifo_ok fifo m' /\ queue fifo m' = [] /\ kfifo_size f <= size / esize < 2 * kfifo_size f
  else r = -22 /\ kf_mask f = 0.
Proof.
  intros Hsz He Hfifo Hb Hb0 Hap. unfold kb_kfifo_init. rewrite (proj2 (Z.eqb_neq fifo 0)), (proj2 (Z.eqb_neq buffer 0)), (proj2 (Z.eqb_neq esize 0)), (proj2 (Z.ltb_ge _ _)) by lia.
  cbn [orb]. set (elements := kb_pow2_floor_u32 _). set (mask := if elements <? 2 then 0 else elements - 1).
  assert (0 <= size / esize <= size) as Hq by (unfold is_u32 in Hsz; Z.to_euclidean_division_equations; nia). unfold UINT32_MAX in He.
  assert (is_u32 mask /\ if decide (2 <= size / esize) then exists k, 1 <= k < 32 /\ mask + 1 = 2 ^ k /\ elements = 2 ^ k /\ 2 ^ k <= size / esize < 2 ^ (k + 1) else mask = 0 /\ elements < 2) as [Hm Hel].
  { destruct (decide (size / esize = 0)) as [E0|E0].
    - unfold mask, elements. rewrite E0. rewrite decide_False by lia. cbn. done.
    - destruct (pow2_floor_spec (size / esize)) as (k & Hk & E & Hlo & Hhi); [lia|unfold is_u32 in *; lia|]. fold elements in E. unfold mask. rewrite E.
      assert (2 ^ k < 2 ^ 32) by (apply Z.pow_lt_mono_r; lia). change (2 ^ 32) with 0x100000000 in *. assert (2 ^ (k + 1) = 2 * 2 ^ k) by (rewrite Z.add_1_r, Z.pow_succ_r by lia; done).
      assert (0 < 2 ^ k) by (apply Z.pow_pos_nonneg; lia). unfold is_u32. destruct (Z.ltb_spec (2 ^ k) 2); (split; [lia|]).
      + rewrite decide_False by lia. lia.
      + rewrite decide_True by lia. exists k. split_and!; try lia. destruct (decide (k = 0)) as [->|]; [cbn in *; lia|lia]. }
  set (m' := mstore64 _ _ _).
  assert (kb_kfifo_load fifo m' = mk_kfifo 0 0 mask esize buffer) as EL.
  { unfold m', kb_kfifo_load. unfold KB_KFIFO_IN_OFFSET, KB_KFIFO_OUT_OFFSET, KB_KFIFO_MASK_OFFSET, KB_KFIFO_ESIZE_OFFSET, KB_KFIFO_DATA_OFFSET. rewrite mload64_mstore64_same by done. unfold mstore64.
    rewrite !mload32_other by (rewrite length_le_bytes; lia). rewrite mload32_mstore32_same by (unfold is_u32; lia). unfold mstore32 at 1 5 8. rewrite !mload32_other by (rewrite length_le_bytes; lia).
    f_equal; unfold mstore32; repeat (rewrite mload32_other by (rewrite length_le_bytes; lia)); by apply (mload32_mstore32_same). }
  rewrite EL. cbn [kf_data kf_esize kf_mask]. split_and!; [done..|]. case_decide as Hd.
  - destruct Hel as (k & Hk & Em & Ee & Hlo & Hhi). rewrite (proj2 (Z.ltb_ge _ _)) by (rewrite Ee; assert (2 ^ 1 <= 2 ^ k) by (apply Z.pow_le_mono_r; lia); lia). split_and!; [done| | | |].
    + unfold kfifo_ok. rewrite EL. assert (kfifo_size (mk_kfifo 0 0 mask esize buffer) = 2 ^ k) as Es by done. assert (queue_length (mk_kfifo 0 0 mask esize buffer) = 0) as El by done. assert (2 ^ k * esize <= size).
      { apply Z.le_trans with (size / esize * esize); [apply Z.mul_le_mono_nonneg_r; lia|]. rewrite Z.mul_comm. apply Z.mul_div_le. lia. }
      constructor; rewrite ?Es, ?El; cbn [kf_in kf_out kf_esize kf_data]; try done; try (unfold is_u32, UINT32_MAX, is_u64 in *; lia). by exists k.
    + unfold queue. rewrite EL. done.
    + unfold kfifo_size. cbn. lia.
    + unfold kfifo_size. cbn. rewrite Em. replace (2 * 2 ^ k) with (2 ^ (k + 1)) by (rewrite Z.add_1_r, Z.pow_succ_r by lia; done). done.
  - destruct Hel as [Em Hlt]. rewrite (proj2 (Z.ltb_lt _ _)) by done. done.
Qed.

(** C16: A ring set up over a buffer is a bounded queue.  In any state it is in, the counters
    wrapped around or not, putting elements in appends as many of them as there is room for
    and says how many, and taking elements out delivers the oldest ones in order and leaves
    the rest; neither touches anything of the ring but what it says, and it stays in order. *)
Theorem kfifo_refines_queue fifo m buffer len :
  kfifo_ok fifo m -> is_u32 len -> apart_from fifo (kb_kfifo_load fifo m) buffer len ->
  let f := kb_kfifo_load fifo m in
  (let '(m', n) := kb_kfifo_in fifo buffer len m in
   n = Z.min len (kfifo_size f - Z.of_nat (length (queue fifo m))) /\ kfifo_ok fifo m' /\
   queue fifo m' = queue fifo m ++ elems m buffer (kf_esize f) (Z.to_nat n)) /\
  (let '(m', n) := kb_kfifo_out fifo buffer len m in
   n = Z.min len (Z.of_nat (length (queue fifo m))) /\ kfifo_ok fifo m' /\
   elems m' buffer (kf_esize f) (Z.to_nat n) ++ queue fifo m' = queue fifo m).
Proof.
  intros Hok Hlen Hap f. rewrite length_of_queue by done. split.
  - by destruct (put_lemma fifo m Hok buffer len Hlen Hap) as (n & m' & -> & ? & _ & ? & ?).
  - destruct (take_lemma fifo m Hok buffer len Hlen Hap) as (n & m' & -> & ? & _ & ? & Hq & Hd). split_and!; [done..|]. unfold f. rewrite Hq, Hd. apply take_drop.
Qed.

(** A ring of four elements of two bytes whose counters are about to wrap around, one
    element in it. *)
Definition kfifo_sample : mem :=
  let m := (kb_kfifo_init 0x1000 0x2000 9 2 ∅).1 in
  let m := mstore32 (mstore32 m 0x1000 0xffffffff) 0x1004 0xfffffffe in
  mstore (mstore m 0x2004 [7; 8]) 0x3000 [1;2;3;4;5;6;7;8].
Lemma kfifo_sample_fields : kb_kfifo_load 0x1000 kfifo_sample = mk_kfifo 0xffffffff 0xfffffffe 3 2 0x2000.
Proof. by vm_compute. Qed.
Lemma kfifo_sample_ok : kfifo_ok 0x1000 kfifo_sample.
Proof.
  unfold kfifo_ok. rewrite kfifo_sample_fields.
  constructor; cbn; unfold is_u32, UINT32_MAX, kfifo_size, queue_length; cbn; try lia; try by vm_compute. exists 2. split; [lia|done].
Qed.
Lemma kfifo_refines_queue_witness :
  queue 0x1000 (kb_kfifo_in 0x1000 0x3000 4 kfifo_sample).1 = [[7; 8]; [1; 2]; [3; 4]; [5; 6]].
Proof.
  pose proof (kfifo_refines_queue 0x1000 kfifo_sample 0x3000 4 kfifo_sample_ok ltac:(by vm_compute) ltac:(rewrite kfifo_sample_fields; unfold apart_from, kfifo_size; cbn; lia)) as [H _].
  destruct (kb_kfifo_in 0x1000 0x3000 4 kfifo_sample) as [m' n]. destruct H as (-> & _ & H). cbn [fst]. rewrite H. vm_compute. reflexivity.
Defined.

(** *** Over time *)

(** Anybody may write outside the ring between the operations. *)
Inductive kfifo_step (fifo : Z) : mem -> list (list Z) -> list (list Z) -> mem -> Prop :=
  | step_put m buffer len m' n : is_u32 len -> apart_from fifo (kb_kfifo_load fifo m) buffer len ->
      kb_kfifo_in fifo buffer len m = (m', n) ->
      kfifo_step fifo m (elems m buffer (kf_esize (kb_kfifo_load fifo m)) (Z.to_nat n)) [] m'
  | step_take m buffer len m' n : is_u32 len -> apart_from fifo (kb_kfifo_load fifo m) buffer len ->
      kb_kfifo_out fifo buffer len m = (m', n) ->
      kfifo_step fifo m [] (elems m' buffer (kf_esize (kb_kfifo_load fifo m)) (Z.to_nat n)) m'
  | step_else m m' : mload m' fifo 24 = mload m fifo 24 ->
      (forall j, elem m' (kf_data (kb_kfifo_load fifo m)) (kf_esize (kb_kfifo_load fifo m)) j = elem m (kf_data (kb_kfifo_load fifo m)) (kf_esize (kb_kfifo_load fifo m)) j) ->
      kfifo_step fifo m [] [] m'.
Inductive kfifo_run (fifo : Z) : mem -> list (list Z) -> list (list Z) -> mem -> Prop :=
  | run_done m : kfifo_run fifo m [] [] m
  | run_step m a d m1 a' d' m2 : kfifo_step fifo m a d m1 -> kfifo_run fifo m1 a' d' m2 -> kfifo_run fifo m (a ++ a') (d ++ d') m2.

(** What was delivered, followed by what is left, is what there was followed by what was
    accepted: nothing is lost, doubled or reordered. *)
Theorem kfifo_first_in_first_out fifo m accepted delivered m' : kfifo_ok fifo m -> kfifo_run fifo m accepted delivered m' ->
  kfifo_ok fifo m' /\ delivered ++ queue fifo m' = queue fifo m ++ accepted.
Proof.
  intros Hok Hr. revert Hok. induction Hr as [m|m a d m1 a' d' m2 Hs Hr IH]; intros Hok; [by rewrite app_nil_r|].
  assert (kfifo_ok fifo m1 /\ d ++ queue fifo m1 = queue fifo m ++ a) as [Hok1 E].
  { destruct Hs as [m buffer len m' n Hl Ha E|m buffer len m' n Hl Ha E|m m' Hh He].
    - destruct (put_lemma fifo m Hok buffer len Hl Ha) as (n' & m'' & E' & _ & _ & ? & Hq). rewrite E in E'. by injection E' as <- <-.
    - destruct (take_lemma fifo m Hok buffer len Hl Ha) as (n' & m'' & E' & _ & _ & ? & Hq & Hd). rewrite E in E'. injection E' as <- <-. split; [done|]. by rewrite Hq, Hd, take_drop, app_nil_r.
    - unfold kfifo_ok, queue. rewrite (load_same _ _ _ Hh). split; [done|]. rewrite app_nil_r. apply fmap_seqZ_ext. intros i _. apply He. }
  destruct (IH Hok1) as [Hok2 E2]. split; [done|]. by rewrite <- app_assoc, E2, app_assoc, E, <- app_assoc.
Qed.

(** Fewer elements than asked for are copied all the same, and the count is stored, but the
    caller is told -14, as if the copy had failed. *)
Theorem short_copy_is_reported_as_fault :
  let '(m, r) := kb_kfifo_to_user 0x1000 0x4000 4 0x5000 kfifo_sample in
  r = -14 /\ mload m 0x4000 2 = [7; 8] /\ mload32 m 0x5000 = 1 /\ queue 0x1000 m = [].
Proof. by vm_compute. Qed.
