(* ===== verification/RbTree.v ===== *)
(** * Red-black trees (src/src/linux_personality/linux_stubs.c)

    kobox's replacements of the kernel's tree functions: nodes are linked into the tree by
    the module itself, rebalancing does nothing, and first, next, previous and erase work on
    whatever shape the tree has.  The second part shows that they walk a tree in its order
    and take exactly one node out of it. *)

From S2P Require Import Prelude Memory.

(** ** The code *)

Definition KB_RB_PARENT_MASK : Z := 0xfffffffffffffffc.
Definition KB_RB_PARENT_COLOR_OFFSET : Z := 0x0.
Definition KB_RB_RIGHT_OFFSET : Z := 0x8.
Definition KB_RB_LEFT_OFFSET : Z := 0x10.

Definition low_or_error_ptr (value : Z) : bool := (value <? 4096) || (UINT64_MAX - 4095 <=? value).

Definition rb_parent (node : Z) (m : mem) : Z := if low_or_error_ptr node then 0 else Z.land (mload64 m node) KB_RB_PARENT_MASK.
Definition rb_set_parent_keep_color (node parent : Z) (m : mem) : mem :=
  if low_or_error_ptr node then m
  else mstore64 m node (Z.lor (Z.land parent KB_RB_PARENT_MASK) (Z.land (mload64 m node) 3)).
Definition rb_child (node offset : Z) (m : mem) : Z :=
  if low_or_error_ptr node then 0
  else let child := mload64 m (node + offset) in if low_or_error_ptr child then 0 else child.
Definition rb_set_child (node offset child : Z) (m : mem) : mem :=
  if low_or_error_ptr node then m else mstore64 m (node + offset) child.

Definition kb_rb_insert_color (node root : Z) (m : mem) : mem := m.

(** Down one side as far as it goes.  [None] here and below: the loop has not ended after
    [fuel] steps. *)
Fixpoint rb_descend (fuel : nat) (offset node : Z) (m : mem) : option Z :=
  match fuel with
  | O => None
  | S fuel => let child := rb_child node offset m in if child =? 0 then Some node else rb_descend fuel offset child m
  end.
(** Up while the node is its parent's child on that side. *)
Fixpoint rb_ascend (fuel : nat) (offset node parent : Z) (m : mem) : option Z :=
  match fuel with
  | O => None
  | S fuel =>
      if negb (parent =? 0) && (node =? rb_child parent offset m) then rb_ascend fuel offset parent (rb_parent parent m) m
      else Some parent
  end.

Definition kb_rb_first (fuel : nat) (root : Z) (m : mem) : option Z :=
  if low_or_error_ptr root then Some 0
  else let node := mload64 m root in if low_or_error_ptr node then Some 0 else rb_descend fuel KB_RB_LEFT_OFFSET node m.

Definition kb_rb_next (fuel : nat) (node : Z) (m : mem) : option Z :=
  if low_or_error_ptr node then Some 0
  else
    let right := rb_child node KB_RB_RIGHT_OFFSET m in
    if negb (right =? 0) then rb_descend fuel KB_RB_LEFT_OFFSET right m
    else rb_ascend fuel KB_RB_RIGHT_OFFSET node (rb_parent node m) m.

Definition kb_rb_prev (fuel : nat) (node : Z) (m : mem) : option Z :=
  if low_or_error_ptr node then Some 0
  else
    let left := rb_child node KB_RB_LEFT_OFFSET m in
    if negb (left =? 0) then rb_descend fuel KB_RB_RIGHT_OFFSET left m
    else rb_ascend fuel KB_RB_LEFT_OFFSET node (rb_parent node m) m.

(** The end of kb_rb_erase: the replacement takes the node's place. *)
Definition rb_replace (node replacement root : Z) (m : mem) : mem :=
  let parent := rb_parent node m in
  let m :=
    if parent =? 0 then mstore64 m root replacement
    else if node =? rb_child parent KB_RB_LEFT_OFFSET m then rb_set_child parent KB_RB_LEFT_OFFSET replacement m
    else rb_set_child parent KB_RB_RIGHT_OFFSET replacement m in
  let m := if negb (replacement =? 0) then rb_set_parent_keep_color replacement parent m else m in
  let m := rb_set_child node KB_RB_LEFT_OFFSET 0 m in
  let m := rb_set_child node KB_RB_RIGHT_OFFSET 0 m in
  rb_set_parent_keep_color node 0 m.

(** The successor takes over the children. *)
Definition rb_adopt (node replacement : Z) (m : mem) : mem :=
  let left := rb_child node KB_RB_LEFT_OFFSET m in
  let right := rb_child node KB_RB_RIGHT_OFFSET m in
  let m := rb_set_child replacement KB_RB_LEFT_OFFSET left m in
  let m := rb_set_child replacement KB_RB_RIGHT_OFFSET right m in
  let m := if negb (left =? 0) then rb_set_parent_keep_color left replacement m else m in
  if negb (right =? 0) then rb_set_parent_keep_color right replacement m else m.

(** The body, given the function it calls for the successor. *)
Definition rb_erase_body (erase : Z -> mem -> option mem) (fuel : nat) (node root : Z) (m : mem) : option mem :=
  if low_or_error_ptr node || low_or_error_ptr root then Some m
  else
    let left := rb_child node KB_RB_LEFT_OFFSET m in
    let right := rb_child node KB_RB_RIGHT_OFFSET m in
    if left =? 0 then Some (rb_replace node right root m)
    else if right =? 0 then Some (rb_replace node left root m)
    else
      replacement ← rb_descend fuel KB_RB_LEFT_OFFSET right m;
      m ← erase replacement m;
      Some (rb_replace node replacement root (rb_adopt node replacement m)).
(** [depth] counts the calls within calls. *)
Fixpoint kb_rb_erase (depth fuel : nat) (node root : Z) (m : mem) : option mem :=
  match depth with
  | O => None
  | S depth => rb_erase_body (fun replacement => kb_rb_erase depth fuel replacement root) fuel node root m
  end.

(** ** Trees in memory *)

Inductive tree := Leaf | Node (l : tree) (a : Z) (r : tree).

Fixpoint nodes (t : tree) : list Z := match t with Leaf => [] | Node l a r => nodes l ++ a :: nodes r end.
Definition ptr (t : tree) : Z := match t with Leaf => 0 | Node _ a _ => a end.

(** A place in a tree: the nodes above, the nearest first, with what hangs on their other
    side. *)
Inductive frame := InLeft (a : Z) (r : tree) | InRight (l : tree) (a : Z).
Definition frame_node (f : frame) : Z := match f with InLeft a _ => a | InRight _ a => a end.
Definition above (c : list frame) : Z := match c with [] => 0 | f :: _ => frame_node f end.
Fixpoint plug (c : list frame) (t : tree) : tree :=
  match c with
  | [] => t
  | InLeft a r :: c => plug c (Node t a r)
  | InRight l a :: c => plug c (Node l a t)
  end.
Fixpoint before (c : list frame) : list Z := match c with [] => [] | InLeft _ _ :: c => before c | InRight l a :: c => before c ++ nodes l ++ [a] end.
Fixpoint after (c : list frame) : list Z := match c with [] => [] | InLeft a r :: c => a :: nodes r ++ after c | InRight _ _ :: c => after c end.

Lemma nodes_plug c t : nodes (plug c t) = before c ++ nodes t ++ after c.
Proof.
  revert t. induction c as [|[a r|l a] c IH]; intros t; cbn [plug before after]; [by rewrite app_nil_r|..]; rewrite IH; cbn [nodes]; by rewrite <- ?app_assoc.
Qed.

(** The words of a node. *)
Record cell := mk_cell { c_parent : Z; c_right : Z; c_left : Z }.
Definition get (m : mem) (a : Z) : cell :=
  mk_cell (Z.land (mload64 m a) KB_RB_PARENT_MASK) (mload64 m (a + KB_RB_RIGHT_OFFSET)) (mload64 m (a + KB_RB_LEFT_OFFSET)).

Fixpoint tree_at (m : mem) (t : tree) (parent : Z) : Prop :=
  match t with
  | Leaf => True
  | Node l a r => get m a = mk_cell parent (ptr r) (ptr l) /\ tree_at m l a /\ tree_at m r a
  end.
Fixpoint place_at (m : mem) (root : Z) (c : list frame) (p : Z) : Prop :=
  match c with
  | [] => mload64 m root = p
  | InLeft a r :: c => get m a = mk_cell (above c) (ptr r) p /\ tree_at m r a /\ place_at m root c a
  | InRight l a :: c => get m a = mk_cell (above c) p (ptr l) /\ tree_at m l a /\ place_at m root c a
  end.

(** Addresses of nodes: real, aligned pointers whose 24 bytes overlap neither each other nor
    the root. *)
Definition node_ptr (a : Z) : Prop := low_or_error_ptr a = false /\ a mod 4 = 0 /\ a + 24 <= UINT64_MAX.
Record apart (root : Z) (U : list Z) : Prop := {
  ap_root : low_or_error_ptr root = false;
  ap_nodup : NoDup U;
  ap_node a : a ∈ U -> node_ptr a /\ (a + 24 <= root \/ root + 8 <= a);
  ap_apart a b : a ∈ U -> b ∈ U -> a <> b -> a + 24 <= b \/ b + 24 <= a;
}.
Record rb_ok (m : mem) (root : Z) (t : tree) : Prop := {
  ok_apart : apart root (nodes t);
  ok_root : mload64 m root = ptr t;
  ok_tree : tree_at m t 0;
}.

Lemma place_app m root c' c t :
  (place_at m root c (ptr (plug c' t)) /\ tree_at m (plug c' t) (above c)) <-> (place_at m root (c' ++ c) (ptr t) /\ tree_at m t (above (c' ++ c))).
Proof.
  revert t. induction c' as [|[a r|l a] c' IH]; intros t; cbn [plug app place_at above]; [done|..]; rewrite IH; cbn [ptr tree_at frame_node]; tauto.
Qed.
Lemma tree_at_plug m root c t : (mload64 m root = ptr (plug c t) /\ tree_at m (plug c t) 0) <-> (place_at m root c (ptr t) /\ tree_at m t (above c)).
Proof. pose proof (place_app m root c [] t) as H. rewrite app_nil_r in H. exact H. Qed.

Lemma find_place t a : a ∈ nodes t -> exists c l r, t = plug c (Node l a r).
Proof.
  assert (forall c, a ∈ nodes t -> exists c' l r, plug c t = plug c' (Node l a r)) as H; [|exact (H [])].
  induction t as [|l IHl b r IHr]; intros c; cbn [nodes]; [by intros H%elem_of_nil|]. rewrite elem_of_app, elem_of_cons. intros [H|[->|H]].
  - exact (IHl (InLeft b r :: c) H).
  - by exists c, l, r.
  - exact (IHr (InRight l b :: c) H).
Qed.

(** ** Walking *)

Definition real (t : tree) : Prop := Forall node_ptr (nodes t).

Lemma node_ptr_pos a : node_ptr a -> 4096 <= a.
Proof. intros (H & _). unfold low_or_error_ptr in H. apply orb_false_iff in H as [H _]. by apply Z.ltb_ge in H. Qed.
Lemma real_node l a r : real (Node l a r) <-> real l /\ node_ptr a /\ real r.
Proof. unfold real. cbn [nodes]. by rewrite Forall_app, Forall_cons. Qed.
Lemma real_child t : real t -> (if low_or_error_ptr (ptr t) then 0 else ptr t) = ptr t.
Proof. destruct t as [|l a r]; [done|]. intros (_ & [H _] & _)%real_node. cbn [ptr]. by rewrite H. Qed.
Lemma real_ptr t : real t -> (ptr t =? 0) = match t with Leaf => true | _ => false end.
Proof. destruct t as [|l a r]; [done|]. intros (_ & H%node_ptr_pos & _)%real_node. cbn. apply Z.eqb_neq. lia. Qed.

Lemma child_right m a p l r : node_ptr a -> real r -> get m a = mk_cell p (ptr r) l -> rb_child a KB_RB_RIGHT_OFFSET m = ptr r.
Proof. intros [Ha _] Hr E. unfold rb_child. rewrite Ha. injection E as _ -> _. by apply real_child. Qed.
Lemma child_left m a p l r : node_ptr a -> real l -> get m a = mk_cell p r (ptr l) -> rb_child a KB_RB_LEFT_OFFSET m = ptr l.
Proof. intros [Ha _] Hl E. unfold rb_child. rewrite Ha. injection E as _ _ ->. by apply real_child. Qed.
Lemma parent_is m a p l r : node_ptr a -> get m a = mk_cell p r l -> rb_parent a m = p.
Proof. intros [Ha _] E. unfold rb_parent. rewrite Ha. by injection E as -> _ _. Qed.

Lemma descend_left fuel m l a r p : real (Node l a r) -> tree_at m (Node l a r) p -> (length (nodes l) < fuel)%nat ->
  rb_descend fuel KB_RB_LEFT_OFFSET a m = Some (default 0 (head (nodes (Node l a r)))).
Proof.
  revert l a r p. induction fuel as [|n IH]; intros l a r p Hr (Hc & Hl & _) Hf; [lia|]. apply real_node in Hr as (Hrl & Ha & _). cbn [rb_descend].
  rewrite (child_left _ _ _ _ _ Ha Hrl Hc), real_ptr by done. destruct l as [|ll b lr]; [done|]. cbn [ptr].
  rewrite (IH ll b lr a Hrl Hl) by (cbn [nodes length] in Hf; rewrite length_app in Hf; cbn in Hf; lia). cbn [nodes]. by destruct (nodes ll).
Qed.
Lemma descend_right fuel m l a r p : real (Node l a r) -> tree_at m (Node l a r) p -> (length (nodes r) < fuel)%nat ->
  rb_descend fuel KB_RB_RIGHT_OFFSET a m = Some (default 0 (last (nodes (Node l a r)))).
Proof.
  revert l a r p. induction fuel as [|n IH]; intros l a r p Hr (Hc & _ & Ht) Hf; [lia|]. apply real_node in Hr as (_ & Ha & Hrr). cbn [rb_descend].
  rewrite (child_right _ _ _ _ _ Ha Hrr Hc), real_ptr by done. cbn [nodes]. destruct r as [|rl b rr]; [by rewrite last_app_cons|]. cbn [ptr].
  rewrite (IH rl b rr a Hrr Ht) by (cbn [nodes length] in Hf; rewrite length_app in Hf; cbn in Hf; lia). f_equal.
  cbn [nodes]. rewrite (last_app_cons (nodes l)), app_comm_cons, !last_app_cons. done.
Qed.

(** Up from a node that is on the left of nobody, or of the nearest node that has it there. *)
Lemma ascend_right fuel m root c t : (length c < fuel)%nat -> t <> Leaf -> real (plug c t) -> NoDup (nodes (plug c t)) -> place_at m root c (ptr t) ->
  rb_ascend fuel KB_RB_RIGHT_OFFSET (ptr t) (above c) m = Some (default 0 (head (after c))).
Proof.
  revert c t. induction fuel as [|n IH]; intros c t Hf Ht Hr Hnd Hp; [lia|]. cbn [rb_ascend]. destruct c as [|f c]; [done|].
  assert (real (plug c (match f with InLeft a r => Node t a r | InRight l a => Node l a t end))) as Hrc by by destruct f.
  unfold real in Hrc. rewrite nodes_plug, !Forall_app in Hrc. destruct Hrc as (_ & Hrc & _).
  destruct f as [a r|l a]; cbn [above frame_node place_at after plug] in *; destruct Hp as (Hc & Hs & Hp).
  - apply (real_node t a r) in Hrc as (Hrt & Ha & Hrr). rewrite (child_right _ _ _ _ _ Ha Hrr Hc). pose proof (node_ptr_pos a Ha). rewrite (proj2 (Z.eqb_neq a 0)) by lia. cbn [negb andb].
    rewrite (proj2 (Z.eqb_neq (ptr t) (ptr r))); [done|]. destruct t as [|tl b tr]; [done|]. cbn [ptr]. apply real_node in Hrt as (_ & Hb%node_ptr_pos & _).
    destruct r as [|rl b' rr]; cbn [ptr]; [lia|]. intros <-. rewrite nodes_plug in Hnd. cbn [nodes] in Hnd. apply NoDup_app in Hnd as (_ & _ & Hnd).
    apply NoDup_app in Hnd as (Hnd & _ & _). apply NoDup_app in Hnd as (_ & Hnd & _). apply (Hnd b); [rewrite elem_of_app, elem_of_cons; auto|].
    rewrite elem_of_cons, elem_of_app, elem_of_cons. auto.
  - apply (real_node l a t) in Hrc as (Hrl & Ha & Hrt). rewrite (child_right _ _ _ _ _ Ha Hrt Hc). pose proof (node_ptr_pos a Ha). rewrite (proj2 (Z.eqb_neq a 0)), Z.eqb_refl by lia. cbn [negb andb].
    rewrite (parent_is _ _ _ _ _ Ha Hc). apply (IH c (Node l a t)); [cbn in Hf; lia|done..].
Qed.
Lemma ascend_left fuel m root c t : (length c < fuel)%nat -> t <> Leaf -> real (plug c t) -> NoDup (nodes (plug c t)) -> place_at m root c (ptr t) ->
  rb_ascend fuel KB_RB_LEFT_OFFSET (ptr t) (above c) m = Some (default 0 (last (before c))).
Proof.
  revert c t. induction fuel as [|n IH]; intros c t Hf Ht Hr Hnd Hp; [lia|]. cbn [rb_ascend]. destruct c as [|f c]; [done|].
  assert (real (plug c (match f with InLeft a r => Node t a r | InRight l a => Node l a t end))) as Hrc by by destruct f.
  unfold real in Hrc. rewrite nodes_plug, !Forall_app in Hrc. destruct Hrc as (_ & Hrc & _).
  destruct f as [a r|l a]; cbn [above frame_node place_at before plug] in *; destruct Hp as (Hc & Hs & Hp).
  - apply (real_node t a r) in Hrc as (Hrt & Ha & Hrr). rewrite (child_left _ _ _ _ _ Ha Hrt Hc). pose proof (node_ptr_pos a Ha). rewrite (proj2 (Z.eqb_neq a 0)), Z.eqb_refl by lia. cbn [negb andb].
    rewrite (parent_is _ _ _ _ _ Ha Hc). apply (IH c (Node t a r)); [cbn in Hf; lia|done..].
  - apply (real_node l a t) in Hrc as (Hrl & Ha & Hrt). rewrite (child_left _ _ _ _ _ Ha Hrl Hc). pose proof (node_ptr_pos a Ha). rewrite (proj2 (Z.eqb_neq a 0)) by lia. cbn [negb andb].
    rewrite (proj2 (Z.eqb_neq (ptr t) (ptr l))); [by rewrite app_assoc, last_snoc|]. destruct t as [|tl b tr]; [done|]. cbn [ptr]. apply real_node in Hrt as (_ & Hb%node_ptr_pos & _).
    destruct l as [|ll b' lr]; cbn [ptr]; [lia|]. intros <-. rewrite nodes_plug in Hnd. cbn [nodes] in Hnd. apply NoDup_app in Hnd as (_ & _ & Hnd).
    apply NoDup_app in Hnd as (Hnd & _ & _). apply NoDup_app in Hnd as (_ & Hnd & _). apply (Hnd b); [rewrite elem_of_app, elem_of_cons; auto|].
    rewrite elem_of_cons, elem_of_app, elem_of_cons. auto.
Qed.

(** ** Taking a node out *)

Lemma set_parent_bits p w : p mod 4 = 0 -> is_u64 p -> Z.land (Z.lor (Z.land p KB_RB_PARENT_MASK) (Z.land w 3)) KB_RB_PARENT_MASK = p.
Proof.
  intros Hp Hu. rewrite Z.land_lor_distr_l, <- !Z.land_assoc, Z.land_diag. change (Z.land 3 KB_RB_PARENT_MASK) with 0. rewrite Z.land_0_r, Z.lor_0_r.
  change KB_RB_PARENT_MASK with (Z.ldiff (Z.ones 64) (Z.ones 2)). rewrite Z.ldiff_land, Z.land_assoc, Z.land_ones by lia.
  rewrite Z.mod_small by (unfold is_u64 in Hu; change (2 ^ 64) with 0x10000000000000000; lia). rewrite <- Z.ldiff_land, Z.ldiff_ones_r by lia.
  rewrite Z.shiftl_mul_pow2, Z.shiftr_div_pow2 by lia. change (2 ^ 2) with 4. Z.to_euclidean_division_equations; lia.
Qed.
Lemma parent_word_u64 p w : is_u64 p -> is_u64 w -> is_u64 (Z.lor (Z.land p KB_RB_PARENT_MASK) (Z.land w 3)).
Proof.
  unfold is_u64. change 0x10000000000000000 with (2 ^ 64). intros Hp Hw.
  assert (0 <= Z.lor (Z.land p KB_RB_PARENT_MASK) (Z.land w 3)) as H0 by (apply Z.lor_nonneg; split; apply Z.land_nonneg; [lia|right; done]). split; [done|].
  destruct (Z.lt_ge_cases (Z.lor (Z.land p KB_RB_PARENT_MASK) (Z.land w 3)) (2 ^ 64)) as [|Hge]; [done|]. exfalso. set (x := Z.lor _ _) in *.
  assert (Z.testbit x (Z.log2 x) = true) as Hb by (apply Z.bit_log2; lia). assert (64 <= Z.log2 x) as Hl by (apply Z.log2_le_pow2; lia).
  unfold x in Hb. fold x in Hb. revert Hb. generalize (Z.log2 x) as i, Hl. intros i Hi. unfold x. rewrite Z.lor_spec, !Z.land_spec, (testbit_above p 64), (testbit_above w 64) by lia. done.
Qed.

Lemma get_other m x v b : b + 24 <= x \/ x + 8 <= b -> get (mstore64 m x v) b = get m b.
Proof. intros H. unfold get, KB_RB_RIGHT_OFFSET, KB_RB_LEFT_OFFSET. by rewrite !mload64_mstore64_other by lia. Qed.

Section store.
Context (root : Z) (U : list Z) (Hap : apart root U).

Lemma node_of a : a ∈ U -> node_ptr a.
Proof. intros H. by apply (ap_node _ _ Hap). Qed.

Lemma get_set_left m a b v : a ∈ U -> b ∈ U -> is_u64 v ->
  get (rb_set_child a KB_RB_LEFT_OFFSET v m) b = if decide (b = a) then mk_cell (c_parent (get m a)) (c_right (get m a)) v else get m b.
Proof.
  intros Ha Hb Hv. unfold rb_set_child. rewrite (proj1 (node_of a Ha)). case_decide as E.
  - subst b. unfold get, KB_RB_RIGHT_OFFSET, KB_RB_LEFT_OFFSET. cbn [c_parent c_right]. rewrite mload64_mstore64_same by done. by rewrite !mload64_mstore64_other by lia.
  - apply get_other. destruct (ap_apart _ _ Hap a b Ha Hb) as [H|H]; [done| |]; unfold KB_RB_LEFT_OFFSET; lia.
Qed.
Lemma get_set_right m a b v : a ∈ U -> b ∈ U -> is_u64 v ->
  get (rb_set_child a KB_RB_RIGHT_OFFSET v m) b = if decide (b = a) then mk_cell (c_parent (get m a)) v (c_left (get m a)) else get m b.
Proof.
  intros Ha Hb Hv. unfold rb_set_child. rewrite (proj1 (node_of a Ha)). case_decide as E.
  - subst b. unfold get, KB_RB_RIGHT_OFFSET, KB_RB_LEFT_OFFSET. cbn [c_parent c_left]. rewrite mload64_mstore64_same by done. by rewrite !mload64_mstore64_other by lia.
  - apply get_other. destruct (ap_apart _ _ Hap a b Ha Hb) as [H|H]; [done| |]; unfold KB_RB_RIGHT_OFFSET; lia.
Qed.
Lemma get_set_parent m a b p : mem_ok m -> a ∈ U -> b ∈ U -> p mod 4 = 0 -> is_u64 p ->
  get (rb_set_parent_keep_color a p m) b = if decide (b = a) then mk_cell p (c_right (get m a)) (c_left (get m a)) else get m b.
Proof.
  intros Hm Ha Hb Hp Hv. unfold rb_set_parent_keep_color. rewrite (proj1 (node_of a Ha)). case_decide as E.
  - subst b. unfold get, KB_RB_RIGHT_OFFSET, KB_RB_LEFT_OFFSET. cbn [c_right c_left]. rewrite mload64_mstore64_same by (apply parent_word_u64; [done|by apply mload64_range]).
    rewrite !mload64_mstore64_other by lia. by rewrite set_parent_bits.
  - apply get_other. destruct (ap_apart _ _ Hap a b Ha Hb) as [H|H]; [done| |]; lia.
Qed.
Lemma get_set_root m b v : b ∈ U -> get (mstore64 m root v) b = get m b.
Proof. intros Hb. apply get_other. destruct (ap_node _ _ Hap b Hb) as [_ H]. lia. Qed.

(** The words outside the nodes. *)
Lemma root_set_child m a o v : a ∈ U -> 0 <= o <= 16 -> mload64 (rb_set_child a o v m) root = mload64 m root.
Proof.
  intros Ha Ho. unfold rb_set_child. destruct (ap_node _ _ Hap a Ha) as [[-> _] H]. apply mload64_mstore64_other. lia.
Qed.
Lemma root_set_parent m a p : a ∈ U -> mload64 (rb_set_parent_keep_color a p m) root = mload64 m root.
Proof.
  intros Ha. unfold rb_set_parent_keep_color. destruct (ap_node _ _ Hap a Ha) as [[-> _] H]. apply mload64_mstore64_other. lia.
Qed.
End store.

Lemma mem_ok_store64 m a v : mem_ok m -> mem_ok (mstore64 m a v).
Proof. intros H. apply mem_ok_mstore; [done|apply bytes_ok_le_bytes]. Qed.
Lemma mem_ok_set_child m a o v : mem_ok m -> mem_ok (rb_set_child a o v m).
Proof. intros H. unfold rb_set_child. case_match; [done|by apply mem_ok_store64]. Qed.
Lemma mem_ok_set_parent m a p : mem_ok m -> mem_ok (rb_set_parent_keep_color a p m).
Proof. intros H. unfold rb_set_parent_keep_color. case_match; [done|by apply mem_ok_store64]. Qed.

(** The nodes of a place. *)
Fixpoint place_nodes (c : list frame) : list Z :=
  match c with [] => [] | InLeft a r :: c => a :: nodes r ++ place_nodes c | InRight l a :: c => a :: nodes l ++ place_nodes c end.

Lemma tree_at_ext m m' t p : (forall b, b ∈ nodes t -> get m' b = get m b) -> tree_at m t p -> tree_at m' t p.
Proof.
  revert p. induction t as [|l IHl a r IHr]; intros p H; cbn [tree_at nodes] in *; [done|]. intros (Hc & Hl & Hr).
  rewrite H by (rewrite elem_of_app, elem_of_cons; auto). split_and!; [done|..]; [apply IHl|apply IHr]; try done; intros b Hb; apply H; rewrite elem_of_app, elem_of_cons; auto.
Qed.
Lemma place_at_ext m m' root c p : (forall b, b ∈ place_nodes c -> get m' b = get m b) -> mload64 m' root = mload64 m root -> place_at m root c p -> place_at m' root c p.
Proof.
  revert p. induction c as [|[a t|t a] c IH]; intros p H Hroot; cbn [place_at place_nodes] in *; [by rewrite Hroot|..]; intros (Hc & Ht & Hp);
    (rewrite H by (rewrite elem_of_cons; auto); split_and!; [done| |]; [apply (tree_at_ext m); [|done]|apply IH; [|done..]]; intros b Hb; apply H; rewrite elem_of_cons, elem_of_app; auto).
Qed.
Lemma place_nodes_plug c t : nodes (plug c t) ≡ₚ place_nodes c ++ nodes t.
Proof.
  revert t. induction c as [|[a r|l a] c IH]; intros t; cbn [plug place_nodes]; [done|..]; rewrite IH; cbn [nodes]; solve_Permutation.
Qed.

(** Nothing but the nodes and the root changes. *)
Definition untouched (root : Z) (U : list Z) (m m' : mem) : Prop :=
  forall x, (forall a, a ∈ U -> x < a \/ a + 24 <= x) -> x < root \/ root + 8 <= x -> mem_byte m' x = mem_byte m x.

Section erase.
Context (root : Z) (U : list Z) (Hap : apart root U).

Lemma byte_store64 m a v x : x < a \/ a + 8 <= x -> mem_byte (mstore64 m a v) x = mem_byte m x.
Proof. intros H. apply mem_byte_mstore_out. rewrite length_le_bytes. lia. Qed.
Lemma untouched_child m m' a o v : a ∈ U -> 0 <= o <= 16 -> untouched root U m m' -> untouched root U m (rb_set_child a o v m').
Proof. intros Ha Ho H x Hx Hr. rewrite <- (H x Hx Hr). unfold rb_set_child. case_match; [done|]. apply byte_store64. specialize (Hx a Ha). lia. Qed.
Lemma untouched_parent m m' a p : a ∈ U -> untouched root U m m' -> untouched root U m (rb_set_parent_keep_color a p m').
Proof. intros Ha H x Hx Hr. rewrite <- (H x Hx Hr). unfold rb_set_parent_keep_color. case_match; [done|]. apply byte_store64. specialize (Hx a Ha). lia. Qed.
Lemma untouched_root m m' v : untouched root U m m' -> untouched root U m (mstore64 m' root v).
Proof. intros H x Hx Hr. rewrite <- (H x Hx Hr). by apply byte_store64. Qed.

Lemma node_word a : a ∈ U -> a mod 4 = 0 /\ is_u64 a /\ a <> 0.
Proof.
  intros Ha. destruct (node_of root U Hap a Ha) as (H & Hm & Hu) eqn:E. clear E. pose proof (node_ptr_pos a (node_of root U Hap a Ha)). unfold is_u64, UINT64_MAX in *. lia.
Qed.
Lemma ptr_word t : (forall b, b ∈ nodes t -> b ∈ U) -> is_u64 (ptr t).
Proof. intros H. destruct t as [|l a r]; [done|]. apply node_word, H. cbn. rewrite elem_of_app, elem_of_cons. auto. Qed.
Lemma ptr_in t : t <> Leaf -> ptr t ∈ nodes t.
Proof. destruct t as [|l a r]; [done|]. cbn. rewrite elem_of_app, elem_of_cons. auto. Qed.
Lemma above_word c : (forall b, b ∈ place_nodes c -> b ∈ U) -> above c mod 4 = 0 /\ is_u64 (above c).
Proof. intros H. destruct c as [|[a r|l a] c]; cbn; [done|..]; (destruct (node_word a) as (? & ? & ?); [apply H; cbn; rewrite elem_of_cons; auto|done]). Qed.
Lemma real_of t : (forall b, b ∈ nodes t -> b ∈ U) -> real t.
Proof. intros H. apply Forall_forall. intros b Hb. by apply (node_of root U Hap), H. Qed.

(** A subtree gets another parent. *)
Definition reparent (t : tree) (p : Z) (m : mem) : mem := if negb (ptr t =? 0) then rb_set_parent_keep_color (ptr t) p m else m.
Lemma reparent_spec m t q p : mem_ok m -> (forall b, b ∈ nodes t -> b ∈ U) -> NoDup (nodes t) -> tree_at m t q -> p mod 4 = 0 -> is_u64 p ->
  tree_at (reparent t p m) t p /\ mem_ok (reparent t p m) /\ mload64 (reparent t p m) root = mload64 m root /\
  (forall b, b ∈ U -> b ∉ nodes t -> get (reparent t p m) b = get m b) /\ (forall m0, untouched root U m0 m -> untouched root U m0 (reparent t p m)).
Proof.
  intros Hm Hin Hnd Ht Hp Hu. unfold reparent. rewrite (real_ptr t (real_of t Hin)). destruct t as [|l a r]; [done|]. cbn [negb ptr].
  assert (a ∈ U) as Ha by (apply Hin; cbn; rewrite elem_of_app, elem_of_cons; auto). destruct Ht as (Hc & Hl & Hr). cbn [nodes] in Hnd. apply NoDup_app in Hnd as (_ & Hnl & Hnr). apply NoDup_cons in Hnr as [Hnr _].
  assert (forall b, b ∈ nodes l -> b ∈ U /\ b <> a) as HL by (intros b Hb; split; [apply Hin; cbn; rewrite elem_of_app; auto|intros ->; apply (Hnl a Hb); rewrite elem_of_cons; auto]).
  assert (forall b, b ∈ nodes r -> b ∈ U /\ b <> a) as HR by (intros b Hb; split; [apply Hin; cbn; rewrite elem_of_app, elem_of_cons; auto|by intros ->]).
  split_and!.
  - cbn [tree_at]. rewrite (get_set_parent root U Hap) by done. rewrite decide_True, Hc by done. split; [done|].
    split; (eapply tree_at_ext; [|done]); intros b Hb; [destruct (HL b Hb)|destruct (HR b Hb)]; rewrite (get_set_parent root U Hap) by done; by rewrite decide_False.
  - by apply mem_ok_set_parent.
  - by apply (root_set_parent root U Hap).
  - intros b Hb Hnb. rewrite (get_set_parent root U Hap) by done. rewrite decide_False; [done|]. intros ->. apply Hnb. cbn. rewrite elem_of_app, elem_of_cons. auto.
  - intros m0 H. by apply untouched_parent.
Qed.

(** The link above is moved to another subtree. *)
Definition relink (node replacement parent : Z) (m : mem) : mem :=
  if parent =? 0 then mstore64 m root replacement
  else if node =? rb_child parent KB_RB_LEFT_OFFSET m then rb_set_child parent KB_RB_LEFT_OFFSET replacement m
  else rb_set_child parent KB_RB_RIGHT_OFFSET replacement m.
Lemma relink_spec m c a v : mem_ok m -> (forall b, b ∈ place_nodes c -> b ∈ U) -> NoDup (a :: place_nodes c) -> a ∈ U -> is_u64 v -> place_at m root c a ->
  let m' := relink a v (above c) m in
  place_at m' root c v /\ mem_ok m' /\ (forall b, b ∈ U -> b ∉ place_nodes c -> get m' b = get m b) /\ (forall m0, untouched root U m0 m -> untouched root U m0 m').
Proof.
  intros Hm Hin Hnd Ha Hv Hp. unfold relink. destruct c as [|f c]; cbn [above].
  - rewrite Z.eqb_refl. cbn [place_at]. split_and!; [by apply mload64_mstore64_same|by apply mem_ok_store64|intros b Hb _; by apply (get_set_root root U Hap)|].
    intros m0 H. by apply untouched_root.
  - assert (frame_node f ∈ U) as Hf by (apply Hin; destruct f; cbn; rewrite elem_of_cons; auto). destruct (node_word _ Hf) as (_ & _ & H0). rewrite (proj2 (Z.eqb_neq _ 0)) by done.
    destruct f as [x r|l x]; cbn [frame_node place_at place_nodes above] in *; destruct Hp as (Hc & Ht & Hp); apply NoDup_cons in Hnd as [Hna Hnd]; apply NoDup_cons in Hnd as [Hnx Hnd];
      rewrite elem_of_cons, elem_of_app in Hna; rewrite elem_of_app in Hnx.
    + assert (rb_child x KB_RB_LEFT_OFFSET m = a) as ->. { unfold rb_child. rewrite (proj1 (node_of root U Hap x Hf)). injection Hc as _ _ ->. by rewrite (proj1 (node_of root U Hap a Ha)). }
      rewrite Z.eqb_refl. split_and!.
      * rewrite (get_set_left root U Hap), decide_True, Hc by done. done.
      * apply (tree_at_ext m); [|done]. intros b Hb. rewrite (get_set_left root U Hap); [|done| |done]. { rewrite decide_False; [done|]. intros ->. apply Hnx. auto. } apply Hin. rewrite elem_of_cons, elem_of_app. auto.
      * apply (place_at_ext m); [|by apply (root_set_child root U Hap)|done]. intros b Hb. rewrite (get_set_left root U Hap); [|done| |done]. { rewrite decide_False; [done|]. intros ->. apply Hnx. auto. } apply Hin. rewrite elem_of_cons, elem_of_app. auto.
      * by apply mem_ok_set_child.
      * intros b Hb Hnb. rewrite (get_set_left root U Hap) by done. rewrite decide_False; [done|]. intros ->. apply Hnb. rewrite elem_of_cons. auto.
      * intros m0 H. by apply untouched_child.
    + assert (real l) as Hrl by (apply real_of; intros b Hb; apply Hin; rewrite elem_of_cons, elem_of_app; auto).
      rewrite (child_left _ _ _ _ _ (node_of root U Hap x Hf) Hrl Hc). rewrite (proj2 (Z.eqb_neq a (ptr l))). 2: { destruct l as [|ll b lr]; cbn [ptr]; [apply (node_word a Ha)|]. intros ->. apply Hna. right. left. cbn. rewrite elem_of_app, elem_of_cons. auto. }
      split_and!.
      * rewrite (get_set_right root U Hap), decide_True, Hc by done. done.
      * apply (tree_at_ext m); [|done]. intros b Hb. rewrite (get_set_right root U Hap); [|done| |done]. { rewrite decide_False; [done|]. intros ->. apply Hnx. auto. } apply Hin. rewrite elem_of_cons, elem_of_app. auto.
      * apply (place_at_ext m); [|by apply (root_set_child root U Hap)|done]. intros b Hb. rewrite (get_set_right root U Hap); [|done| |done]. { rewrite decide_False; [done|]. intros ->. apply Hnx. auto. } apply Hin. rewrite elem_of_cons, elem_of_app. auto.
      * by apply mem_ok_set_child.
      * intros b Hb Hnb. rewrite (get_set_right root U Hap) by done. rewrite decide_False; [done|]. intros ->. apply Hnb. rewrite elem_of_cons. auto.
      * intros m0 H. by apply untouched_child.
Qed.

(** The node forgets its links. *)
Definition detach (node : Z) (m : mem) : mem :=
  rb_set_parent_keep_color node 0 (rb_set_child node KB_RB_RIGHT_OFFSET 0 (rb_set_child node KB_RB_LEFT_OFFSET 0 m)).
Lemma detach_spec m a : mem_ok m -> a ∈ U ->
  get (detach a m) a = mk_cell 0 0 0 /\ mem_ok (detach a m) /\ mload64 (detach a m) root = mload64 m root /\
  (forall b, b ∈ U -> b <> a -> get (detach a m) b = get m b) /\ (forall m0, untouched root U m0 m -> untouched root U m0 (detach a m)).
Proof.
  intros Hm Ha. assert (is_u64 0) as H0 by done. assert (mem_ok (rb_set_child a KB_RB_RIGHT_OFFSET 0 (rb_set_child a KB_RB_LEFT_OFFSET 0 m))) as Hm2 by by do 2 apply mem_ok_set_child.
  unfold detach. split_and!.
  - rewrite (get_set_parent root U Hap), decide_True by done. rewrite (get_set_right root U Hap), decide_True by done. rewrite (get_set_left root U Hap), decide_True by done. done.
  - by apply mem_ok_set_parent.
  - rewrite (root_set_parent root U Hap), !(root_set_child root U Hap) by done. done.
  - intros b Hb Hne. rewrite (get_set_parent root U Hap), decide_False, (get_set_right root U Hap), decide_False, (get_set_left root U Hap), decide_False by done. done.
  - intros m1 H. by apply untouched_parent, untouched_child, untouched_child.
Qed.

Lemma replace_spec m c a t q : mem_ok m -> a ∈ U -> (forall b, b ∈ place_nodes c ++ nodes t -> b ∈ U) -> NoDup (a :: place_nodes c ++ nodes t) ->
  place_at m root c a -> c_parent (get m a) = above c -> tree_at m t q ->
  let m' := rb_replace a (ptr t) root m in
  place_at m' root c (ptr t) /\ tree_at m' t (above c) /\ get m' a = mk_cell 0 0 0 /\ mem_ok m' /\
  (forall b, b ∈ U -> b <> a -> b ∉ place_nodes c -> b ∉ nodes t -> get m' b = get m b) /\ (forall m0, untouched root U m0 m -> untouched root U m0 m').
Proof.
  intros Hm Ha Hin Hnd Hp Hpa Ht. cbv zeta. assert (forall b, b ∈ place_nodes c -> b ∈ U) as Hinc by (intros; apply Hin, elem_of_app; auto).
  assert (forall b, b ∈ nodes t -> b ∈ U) as Hint by (intros; apply Hin, elem_of_app; auto). apply NoDup_cons in Hnd as [Hna Hnd]. rewrite elem_of_app in Hna. apply NoDup_app in Hnd as (Hndc & Hdis & Hndt).
  assert (rb_replace a (ptr t) root m = detach a (reparent t (above c) (relink a (ptr t) (above c) m))) as ->.
  { unfold rb_replace, detach, reparent, relink. unfold rb_parent. rewrite (proj1 (node_of root U Hap a Ha)). unfold get in Hpa. cbn [c_parent] in Hpa. by rewrite Hpa. }
  assert (NoDup (a :: place_nodes c)) as Hnda by (apply NoDup_cons; auto). destruct (above_word c Hinc) as [Hab4 Habu].
  destruct (relink_spec m c a (ptr t) Hm Hinc Hnda Ha (ptr_word t Hint) Hp) as (P1 & M1 & G1 & F1). set (m1 := relink _ _ _ m) in *.
  assert (tree_at m1 t q) as T1 by (apply (tree_at_ext m); [|done]; intros b Hb; apply G1; [by apply Hint|intros Hc; by apply (Hdis b)]).
  destruct (reparent_spec m1 t q (above c) M1 Hint Hndt T1 Hab4 Habu) as (T2 & M2 & R2 & G2 & F2). set (m2 := reparent _ _ m1) in *.
  destruct (detach_spec m2 a M2 Ha) as (C3 & M3 & R3 & G3 & F3). set (m3 := detach a m2) in *. split_and!; [..|done| |].
  - apply (place_at_ext m1); [|by rewrite R3, R2|done]. intros b Hb. rewrite G3; [|by apply Hinc|intros ->; tauto]. apply G2; [by apply Hinc|by apply Hdis].
  - apply (tree_at_ext m2); [|done]. intros b Hb. apply G3; [by apply Hint|intros ->; tauto].
  - done.
  - intros b Hb Hne Hnc Hnt. rewrite G3, G2, G1 by done. done.
  - intros m0 H. auto.
Qed.

(** The successor with the children of the node. *)
Lemma adopt_spec m a y l r p q : mem_ok m -> y ∈ U -> (forall b, b ∈ nodes l ++ a :: nodes r -> b ∈ U) -> NoDup (y :: nodes l ++ a :: nodes r) ->
  get m a = mk_cell p (ptr r) (ptr l) -> c_parent (get m y) = q -> tree_at m l a -> tree_at m r a ->
  let m' := rb_adopt a y m in
  tree_at m' (Node l y r) q /\ mem_ok m' /\ mload64 m' root = mload64 m root /\ (forall b, b ∈ U -> b <> y -> b ∉ nodes l -> b ∉ nodes r -> get m' b = get m b) /\
  (forall m0, untouched root U m0 m -> untouched root U m0 m').
Proof.
  intros Hm Hy Hin Hnd Hc Hq Hl Hr. cbv zeta. assert (forall b, b ∈ nodes l -> b ∈ U) as Hinl by (intros; apply Hin, elem_of_app; auto).
  assert (forall b, b ∈ nodes r -> b ∈ U) as Hinr by (intros; apply Hin; rewrite elem_of_app, elem_of_cons; auto). assert (a ∈ U) as Ha by (apply Hin; rewrite elem_of_app, elem_of_cons; auto).
  apply NoDup_cons in Hnd as [Hny Hnd]. rewrite elem_of_app, elem_of_cons in Hny. apply NoDup_app in Hnd as (Hndl & Hdl & Hndr). apply NoDup_cons in Hndr as [Hnar Hndr].
  destruct (node_word y Hy) as (Hy4 & Hyu & _). pose proof (node_of root U Hap a Ha) as Hna.
  set (m1 := rb_set_child y KB_RB_RIGHT_OFFSET (ptr r) (rb_set_child y KB_RB_LEFT_OFFSET (ptr l) m)).
  assert (rb_adopt a y m = reparent r y (reparent l y m1)) as ->.
  { unfold rb_adopt. rewrite (child_left _ _ _ _ _ Hna (real_of l Hinl) Hc), (child_right _ _ _ _ _ Hna (real_of r Hinr) Hc). done. }
  assert (mem_ok m1) as M1 by by do 2 apply mem_ok_set_child.
  assert (forall b, b ∈ U -> b <> y -> get m1 b = get m b) as G1.
  { intros b Hb Hne. unfold m1. rewrite (get_set_right root U Hap), decide_False, (get_set_left root U Hap), decide_False; auto using ptr_word. }
  assert (get m1 y = mk_cell q (ptr r) (ptr l)) as C1.
  { unfold m1. rewrite (get_set_right root U Hap), decide_True, (get_set_left root U Hap), decide_True; auto using ptr_word. cbn [c_parent c_left]. by rewrite Hq. }
  assert (forall t, (t = l \/ t = r) -> tree_at m t a -> tree_at m1 t a) as Hsame.
  { intros t Hlr. apply tree_at_ext. intros b Hb. apply G1; [destruct Hlr as [-> | ->]; auto|]. intros ->. destruct Hlr as [-> | ->]; tauto. }
  destruct (reparent_spec m1 l a y M1 Hinl Hndl (Hsame l (or_introl eq_refl) Hl) Hy4 Hyu) as (T2 & M2 & R2 & G2 & F2). set (m2 := reparent l y m1) in *.
  assert (tree_at m2 r a) as Tr2.
  { apply (tree_at_ext m1); [|by apply Hsame; auto]. intros b Hb. apply G2; [auto|]. intros Hbl. apply (Hdl b Hbl). rewrite elem_of_cons. auto. }
  destruct (reparent_spec m2 r a y M2 Hinr Hndr Tr2 Hy4 Hyu) as (T3 & M3 & R3 & G3 & F3). set (m3 := reparent r y m2) in *. split_and!.
  - cbn [tree_at]. split_and!; [rewrite G3, G2 by tauto; done| |done]. apply (tree_at_ext m2); [|done]. intros b Hb. apply G3; [auto|]. intros Hbr. apply (Hdl b Hb). rewrite elem_of_cons. auto.
  - done.
  - rewrite R3, R2. unfold m1. by rewrite !(root_set_child root U Hap).
  - intros b Hb Hne Hbl Hbr. rewrite G3, G2 by done. by apply G1.
  - intros m0 H. apply F3, F2. unfold m1. by apply untouched_child; [| |apply untouched_child].
Qed.
End erase.

Lemma leftmost t : t <> Leaf -> exists c y r, t = plug c (Node Leaf y r) /\ before c = [].
Proof.
  assert (forall c, before c = [] -> t <> Leaf -> exists c' y r, plug c t = plug c' (Node Leaf y r) /\ before c' = []) as H; [|intros Ht; by apply (H [])].
  induction t as [|l IHl a r _]; intros c Hc Ht; [done|]. destruct l as [|ll b lr]; [by exists c, a, r|]. apply (IHl (InLeft a r :: c)); done.
Qed.
Lemma place_nodes_app c c' : place_nodes (c ++ c') = place_nodes c ++ place_nodes c'.
Proof. induction c as [|[a r|l a] c IH]; cbn [app place_nodes]; [done|..]; by rewrite IH, app_assoc. Qed.
Lemma plug_app c c' t : plug (c ++ c') t = plug c' (plug c t).
Proof. revert t. induction c as [|[a r|l a] c IH]; intros t; cbn; [done|..]; apply IH. Qed.

Section erasing.
Context (root : Z) (fuel : nat).

(** A node with at most one child. *)
Lemma erase_simple depth m c a l r : mem_ok m -> apart root (nodes (plug c (Node l a r))) -> place_at m root c a -> tree_at m (Node l a r) (above c) -> l = Leaf \/ r = Leaf ->
  let t := match l with Leaf => r | _ => l end in
  exists m', kb_rb_erase (S depth) fuel a root m = Some m' /\ place_at m' root c (ptr t) /\ tree_at m' t (above c) /\ get m' a = mk_cell 0 0 0 /\ mem_ok m' /\
  (forall m0, untouched root (nodes (plug c (Node l a r))) m0 m -> untouched root (nodes (plug c (Node l a r))) m0 m').
Proof.
  intros Hm Hap Hp (Hc & Hl & Hr) Hlr t. set (U := nodes _) in *. pose proof (ap_nodup _ _ Hap) as Hnd. unfold U in Hnd. rewrite place_nodes_plug in Hnd. cbn [nodes] in Hnd.
  assert (forall b, b ∈ place_nodes c ++ nodes l ++ a :: nodes r -> b ∈ U) as Hin by (intros b Hb; unfold U; by rewrite place_nodes_plug).
  assert (a ∈ U) as Ha by (apply Hin; rewrite !elem_of_app, elem_of_cons; auto). pose proof (node_of root U Hap a Ha) as Hna.
  assert (real l) as Hrl by (apply (real_of root U Hap); intros; apply Hin; rewrite !elem_of_app; auto).
  assert (real r) as Hrr by (apply (real_of root U Hap); intros; apply Hin; rewrite !elem_of_app, elem_of_cons; auto).
  assert (NoDup (a :: place_nodes c ++ nodes t)) as Hndt.
  { assert (a :: place_nodes c ++ nodes t ≡ₚ place_nodes c ++ nodes l ++ a :: nodes r) as ->; [|done]. unfold t. destruct l; cbn [nodes app]; [|destruct Hlr as [?| ->]; [done|]; cbn [nodes]]; solve_Permutation. }
  assert (kb_rb_erase (S depth) fuel a root m = Some (rb_replace a (ptr t) root m)) as ->.
  { change (kb_rb_erase (S depth) fuel a root m) with (rb_erase_body (fun replacement => kb_rb_erase depth fuel replacement root) fuel a root m). unfold rb_erase_body. rewrite (proj1 Hna), (ap_root _ _ Hap). cbn [orb]. rewrite (child_left _ _ _ _ _ Hna Hrl Hc), (child_right _ _ _ _ _ Hna Hrr Hc), !real_ptr by done.
    unfold t. destruct l as [|ll b lr]; [done|]. by destruct Hlr as [?| ->]. }
  destruct (replace_spec root U Hap m c a t a Hm Ha) as (P & T & C & M & _ & F); [|done|done|by rewrite Hc|unfold t; by destruct l|by exists (rb_replace a (ptr t) root m); split_and!].
  intros b Hb. apply Hin. rewrite elem_of_app in Hb |- *. rewrite elem_of_app, elem_of_cons. destruct Hb as [?|Hb]; [auto|]. unfold t in Hb. destruct l; cbn [nodes] in *; auto.
Qed.

(** A node with two children: its successor takes its place. *)
Lemma erase_double m c a l r : mem_ok m -> apart root (nodes (plug c (Node l a r))) -> place_at m root c a -> tree_at m (Node l a r) (above c) -> l <> Leaf -> r <> Leaf ->
  (length (nodes r) <= fuel)%nat ->
  exists m' t, kb_rb_erase 2 fuel a root m = Some m' /\ nodes t = nodes l ++ nodes r /\ place_at m' root c (ptr t) /\ tree_at m' t (above c) /\ get m' a = mk_cell 0 0 0 /\ mem_ok m' /\
  (forall m0, untouched root (nodes (plug c (Node l a r))) m0 m -> untouched root (nodes (plug c (Node l a r))) m0 m').
Proof.
  intros Hm Hap Hp Ht Hl0 Hr0 Hf. destruct (leftmost r Hr0) as (cr & y & yr & Er & Hbr). set (C := cr ++ InRight l a :: c).
  assert (plug C (Node Leaf y yr) = plug c (Node l a r)) as EC by (unfold C; rewrite plug_app; cbn [plug]; by rewrite Er).
  assert (nodes r = y :: nodes yr ++ after cr) as Enr by (rewrite Er, nodes_plug, Hbr; done). pose proof Ht as (Hc & Hl & Hr).
  assert (place_at m root C y /\ tree_at m (Node Leaf y yr) (above C)) as [Pm Tm].
  { apply (place_app m root cr (InRight l a :: c) (Node Leaf y yr)). cbn [place_at above frame_node]. rewrite <- Er. done. }
  destruct (erase_simple 0 m C y Leaf yr) as (m1 & E1 & P1 & T1 & C1 & M1 & F1); [done|by rewrite EC|done..|auto|]. cbv beta iota in P1, T1. rewrite EC in F1. set (U := nodes (plug c (Node l a r))) in *.
  set (r' := plug cr yr). assert (nodes r' = nodes yr ++ after cr) as Enr' by (unfold r'; rewrite nodes_plug, Hbr; done).
  assert (place_at m1 root (InRight l a :: c) (ptr r') /\ tree_at m1 r' a) as [(Hc1 & Hl1 & Pc1) Tr1] by (apply (place_app m1 root cr (InRight l a :: c) yr); done).
  pose proof (ap_nodup _ _ Hap) as Hnd. unfold U in Hnd. rewrite place_nodes_plug in Hnd. cbn [nodes] in Hnd. rewrite Enr, <- Enr' in Hnd.
  assert (forall b, b ∈ place_nodes c ++ nodes l ++ a :: y :: nodes r' -> b ∈ U) as Hin by (intros b Hb; unfold U; rewrite place_nodes_plug; cbn [nodes]; by rewrite Enr, <- Enr').
  assert (a ∈ U) as Ha by (apply Hin; rewrite !elem_of_app, !elem_of_cons; auto). assert (y ∈ U) as Hy by (apply Hin; rewrite !elem_of_app, !elem_of_cons; auto). pose proof (node_of root U Hap a Ha) as Hna.
  assert (NoDup (y :: nodes l ++ a :: nodes r') /\ NoDup (a :: place_nodes c ++ nodes l ++ y :: nodes r') /\ (forall b, b ∈ place_nodes c -> b <> y /\ (b ∉ nodes l) /\ (b ∉ nodes r'))) as (N1 & N2 & N3).
  { split_and!.
    - apply NoDup_app in Hnd as (_ & _ & Hnd). assert (y :: nodes l ++ a :: nodes r' ≡ₚ nodes l ++ a :: y :: nodes r') as -> by solve_Permutation. done.
    - assert (a :: place_nodes c ++ nodes l ++ y :: nodes r' ≡ₚ place_nodes c ++ nodes l ++ a :: y :: nodes r') as -> by solve_Permutation. done.
    - intros b Hb. apply NoDup_app in Hnd as (_ & Hnd & _). specialize (Hnd b Hb). rewrite elem_of_app, !elem_of_cons in Hnd. split_and!; [intros ->|..]; tauto. }
  destruct (adopt_spec root U Hap m1 a y l r' (above c) 0 M1 Hy) as (T2 & M2 & R2 & G2 & F2); [|done|done|by rewrite C1|done..|].
  { intros b. rewrite elem_of_app, elem_of_cons. intros Hb. apply Hin. rewrite !elem_of_app, !elem_of_cons. tauto. }
  set (m2 := rb_adopt a y m1) in *. destruct (replace_spec root U Hap m2 c a (Node l y r') 0 M2 Ha) as (P3 & T3 & C3 & M3 & _ & F3); [|done|..|done|].
  { intros b. cbn [nodes]. rewrite !elem_of_app, elem_of_cons. intros Hb. apply Hin. rewrite !elem_of_app, !elem_of_cons. tauto. }
  { apply (place_at_ext m1); [|done|done]. intros b Hb. destruct (N3 b Hb) as (? & ? & ?). apply G2; [|done..]. apply Hin. rewrite elem_of_app. auto. }
  { rewrite G2; [by rewrite Hc1|done|..]; apply NoDup_cons in N2 as [N2 _]; rewrite !elem_of_app, elem_of_cons in N2; [intros ->|..]; tauto. }
  exists (rb_replace a y root m2), (Node l y r'). split_and!; [|cbn [nodes]; by rewrite Enr, <- Enr'|done..|by auto].
  assert (real l) as Hrl by (apply (real_of root U Hap); intros; apply Hin; rewrite !elem_of_app; auto).
  assert (real r) as Hrr by (apply (real_of root U Hap); intros b; rewrite Enr, <- Enr'; intros; apply Hin; rewrite !elem_of_app, elem_of_cons; auto).
  change (kb_rb_erase 2 fuel a root m) with (rb_erase_body (fun replacement => kb_rb_erase 1 fuel replacement root) fuel a root m). unfold rb_erase_body. rewrite (proj1 Hna), (ap_root _ _ Hap). cbn [orb]. rewrite (child_left _ _ _ _ _ Hna Hrl Hc), (child_right _ _ _ _ _ Hna Hrr Hc), !real_ptr by done.
  destruct l as [|ll bl lr]; [done|]. destruct r as [|rl br rr] eqn:E; [done|]. cbn [ptr].
  rewrite (descend_left fuel m rl br rr a Hrr Hr) by (cbn [nodes length] in Hf; rewrite length_app in Hf; cbn in Hf; lia). rewrite Enr. change (default 0 (head (y :: ?l))) with y. change (Some y ≫= ?k) with (k y). cbv beta. rewrite E1. done.
Qed.
End erasing.

Lemma split_unique (l1 l2 k1 k2 : list Z) a : NoDup (l1 ++ a :: l2) -> l1 ++ a :: l2 = k1 ++ a :: k2 -> l1 = k1 /\ l2 = k2.
Proof.
  revert k1. induction l1 as [|x l1 IH]; intros [|y k1]; cbn [app]; intros Hnd E.
  - by injection E.
  - injection E as -> ->. apply NoDup_cons in Hnd as [H _]. exfalso. apply H. rewrite elem_of_app, elem_of_cons. auto.
  - injection E as -> <-. apply NoDup_cons in Hnd as [H _]. exfalso. apply H. rewrite elem_of_app, elem_of_cons. auto.
  - injection E as -> E. apply NoDup_cons in Hnd as [_ Hnd]. destruct (IH k1 Hnd E) as [-> ->]. done.
Qed.

Lemma place_length c : (length c <= length (place_nodes c))%nat.
Proof. induction c as [|[a r|l a] c IH]; cbn [place_nodes length]; [lia|..]; rewrite length_app; lia. Qed.

Lemma rb_ok_place m root t a pre post : rb_ok m root t -> nodes t = pre ++ a :: post ->
  exists c l r, t = plug c (Node l a r) /\ pre = before c ++ nodes l /\ post = nodes r ++ after c /\ place_at m root c a /\ tree_at m (Node l a r) (above c) /\
  (length c <= length (nodes t))%nat /\ (length (nodes r) <= length (nodes t))%nat /\ (length (nodes l) <= length (nodes t))%nat.
Proof.
  intros [Hap Hroot Ht] E. destruct (find_place t a) as (c & l & r & ->); [rewrite E, elem_of_app, elem_of_cons; auto|]. exists c, l, r.
  pose proof (ap_nodup _ _ Hap) as Hnd. pose proof (nodes_plug c (Node l a r)) as En. cbn [nodes] in En.
  assert (before c ++ (nodes l ++ a :: nodes r) ++ after c = (before c ++ nodes l) ++ a :: nodes r ++ after c) as Ea by by rewrite <- !app_assoc. rewrite Ea in En.
  destruct (split_unique (before c ++ nodes l) (nodes r ++ after c) pre post a) as [-> ->]; [by rewrite <- En|by rewrite <- En|].
  destruct (proj1 (tree_at_plug m root c (Node l a r)) (conj Hroot Ht)) as [Hp Hn]. pose proof (place_length c) as Hlc.
  pose proof (Permutation_length (place_nodes_plug c (Node l a r))) as Hlen. rewrite length_app in Hlen. cbn [nodes] in Hlen. rewrite length_app in Hlen. cbn [length] in Hlen. split_and!; try done; lia.
Qed.

(** C15: A tree is the list of its nodes in order.  First, next and previous walk along that
    list from its first node to its last and back, erasing a node leaves a tree whose list is
    the same without it and a node without links, and nothing else in memory changes; the
    loops end within as many steps as there are nodes, and the nested call is the last one. *)
Theorem rb_refines_list m root t pre a post fuel :
  mem_ok m -> rb_ok m root t -> nodes t = pre ++ a :: post -> (length (nodes t) < fuel)%nat ->
  kb_rb_first fuel root m = Some (default 0 (head (pre ++ a :: post))) /\
  kb_rb_next fuel a m = Some (default 0 (head post)) /\ kb_rb_prev fuel a m = Some (default 0 (last pre)) /\
  exists m' t', kb_rb_erase 2 fuel a root m = Some m' /\ rb_ok m' root t' /\ nodes t' = pre ++ post /\
  get m' a = mk_cell 0 0 0 /\ mem_ok m' /\ untouched root (nodes t) m m'.
Proof.
  intros Hm Hok E Hf. pose proof Hok as [Hap Hroot Htr]. destruct (rb_ok_place m root t a pre post Hok E) as (c & l & r & -> & -> & -> & Hp & Hn & Lc & Lr & Ll).
  pose proof (real_of root _ Hap (plug c (Node l a r)) (fun b H => H)) as Hreal. pose proof (ap_nodup _ _ Hap) as Hnd.
  assert (real (Node l a r)) as Hrn by (unfold real in Hreal; rewrite nodes_plug, !Forall_app in Hreal; apply Hreal). pose proof Hrn as (Hrl & Ha & Hrr)%real_node. pose proof Hn as (Hc & Hl & Hr). split_and!.
  - unfold kb_rb_first. rewrite (ap_root _ _ Hap), Hroot, <- E. destruct (plug c (Node l a r)) as [|tl x tr]; [by destruct (before c ++ nodes l)|]. cbn [ptr].
    pose proof Hreal as (_ & [Hx _] & _)%real_node. rewrite Hx. apply (descend_left fuel m tl x tr 0 Hreal Htr). cbn [nodes] in Hf. rewrite length_app in Hf. lia.
  - unfold kb_rb_next. rewrite (proj1 Ha), (child_right _ _ _ _ _ Ha Hrr Hc), real_ptr by done. destruct r as [|rl x rr]; cbn [negb].
    + rewrite (parent_is _ _ _ _ _ Ha Hc). apply (ascend_right fuel m root c (Node l a Leaf)); [lia|done..].
    + cbn [ptr]. rewrite (descend_left fuel m rl x rr a Hrr Hr) by (cbn [nodes] in Lr; rewrite length_app in Lr; lia). cbn [nodes]. by destruct (nodes rl).
  - unfold kb_rb_prev. rewrite (proj1 Ha), (child_left _ _ _ _ _ Ha Hrl Hc), real_ptr by done. destruct l as [|ll x lr]; cbn [negb].
    + rewrite (parent_is _ _ _ _ _ Ha Hc), app_nil_r. apply (ascend_left fuel m root c (Node Leaf a r)); [lia|done..].
    + cbn [ptr]. rewrite (descend_right fuel m ll x lr a Hrl Hl) by (cbn [nodes] in Ll; rewrite length_app in Ll; cbn in Ll; lia). cbn [nodes]. by rewrite app_assoc, !last_app_cons.
  - assert (exists m' t', kb_rb_erase 2 fuel a root m = Some m' /\ nodes t' = nodes l ++ nodes r /\ place_at m' root c (ptr t') /\ tree_at m' t' (above c) /\ get m' a = mk_cell 0 0 0 /\ mem_ok m' /\
      (forall m0, untouched root (nodes (plug c (Node l a r))) m0 m -> untouched root (nodes (plug c (Node l a r))) m0 m')) as (m' & t' & E' & Et' & P' & T' & C' & M' & F').
    { assert ((l = Leaf \/ r = Leaf) \/ (l <> Leaf /\ r <> Leaf)) as [Hlr|[? ?]] by (destruct l, r; auto).
      - destruct (erase_simple root fuel 1 m c a l r Hm Hap Hp Hn Hlr) as (m' & ? & ? & ? & ? & ? & ?). exists m', (match l with Leaf => r | _ => l end). split_and!; try done.
        destruct l; [done|]. destruct Hlr as [?| ->]; [done|]. cbn [nodes]. by rewrite app_nil_r.
      - apply erase_double; try done. lia. }
    exists m', (plug c t'). assert (nodes (plug c t') = (before c ++ nodes l) ++ nodes r ++ after c) as En by (rewrite nodes_plug, Et', <- !app_assoc; done).
    split_and!; try done; [|by apply F']. destruct (proj2 (tree_at_plug m' root c t') (conj P' T')) as [R' Tr']. constructor; [|done..]. rewrite En. destruct Hap as [A1 A2 A3 A4].
    assert (forall b, b ∈ (before c ++ nodes l) ++ nodes r ++ after c -> b ∈ nodes (plug c (Node l a r))) as Hsub by (intros b; rewrite E, !elem_of_app, elem_of_cons, elem_of_app; tauto).
    constructor; [done| |by auto|by auto]. rewrite E in A2. apply NoDup_app in A2 as (N1 & N2 & N3). apply NoDup_cons in N3 as [N4 N3]. apply NoDup_app. split_and!; [done| |done]. intros b Hb Hb'. apply (N2 b Hb). rewrite elem_of_cons. auto.
Qed.

(** Five nodes: 0x2040, 0x2000, 0x20c0, 0x2080, 0x2100 in order, 0x2000 at the root. *)
Definition rb_sample_tree : tree := Node (Node Leaf 0x2040 Leaf) 0x2000 (Node (Node Leaf 0x20c0 Leaf) 0x2080 (Node Leaf 0x2100 Leaf)).
Definition rb_sample : mem :=
  let put a parent right left m := mstore64 (mstore64 (mstore64 m a parent) (a + 8) right) (a + 16) left in
  mstore64 (put 0x2100 0x2080 0 0 (put 0x20c0 0x2081 0 0 (put 0x2080 0x2000 0x2100 0x20c0 (put 0x2040 0x2001 0 0 (put 0x2000 1 0x2080 0x2040 ∅))))) 0x1000 0x2000.
Lemma rb_sample_ok : mem_ok rb_sample /\ rb_ok rb_sample 0x1000 rb_sample_tree.
Proof.
  split; [unfold rb_sample; repeat apply mem_ok_store64; apply map_Forall_empty|]. constructor; [|by vm_compute|by vm_compute].
  assert (forall a, a ∈ nodes rb_sample_tree -> a = 0x2040 \/ a = 0x2000 \/ a = 0x20c0 \/ a = 0x2080 \/ a = 0x2100) as H.
  { intros a. cbn. rewrite !elem_of_cons, elem_of_nil. tauto. }
  constructor; [done|by apply (bool_decide_unpack _); vm_compute| |].
  - intros a Ha. destruct (H a Ha) as [-> |[-> |[-> |[-> | ->]]]]; (split; [by vm_compute|lia]).
  - intros a b Ha Hb. destruct (H a Ha) as [-> |[-> |[-> |[-> | ->]]]]; destruct (H b Hb) as [-> |[-> |[-> |[-> | ->]]]]; intros; lia.
Qed.
Lemma rb_refines_list_witness :
  exists m' t', kb_rb_erase 2 6 0x2000 0x1000 rb_sample = Some m' /\ rb_ok m' 0x1000 t' /\ nodes t' = [0x2040; 0x20c0; 0x2080; 0x2100].
Proof.
  destruct rb_sample_ok as [Hm Hok].
  destruct (rb_refines_list rb_sample 0x1000 rb_sample_tree [0x2040] 0x2000 [0x20c0; 0x2080; 0x2100] 6 Hm Hok eq_refl ltac:(cbn; lia)) as (_ & _ & _ & m' & t' & H1 & H2 & H3 & _).
  exists m', t'. split; [exact H1|split; [exact H2|exact H3]].
Defined.
