(* ===== verification/LinkedLists.v ===== *)
(** * Linked lists (src/src/linux_personality/linux_stubs.c)

    The checks and the operations on the kernel's rings of links (next at 0, prev at 8), and
    the two operations on lists linked through next alone.  The second part shows that a ring
    stays one with the entry added or taken out, that the checks accept exactly the uses that
    leave one, and that a singly linked list is a stack. *)

From S2P Require Import Prelude Memory RbTree.

(** ** The code *)

Definition list_next (m : mem) (a : Z) : Z := mload64 m a.
Definition list_prev (m : mem) (a : Z) : Z := mload64 m (a + 8).

Definition kb_list_add_valid_or_report (new_entry prev next : Z) (m : mem) : Z :=
  if low_or_error_ptr new_entry || low_or_error_ptr prev || low_or_error_ptr next then 0
  else if negb (list_next m prev =? next) || negb (list_prev m next =? prev) then 0
  else if (new_entry =? prev) || (new_entry =? next) then 0
  else 1.

Definition kb_list_del_entry_valid_or_report (entry : Z) (m : mem) : Z :=
  if low_or_error_ptr entry then 0
  else
    let next := list_next m entry in
    let prev := list_prev m entry in
    if low_or_error_ptr next || low_or_error_ptr prev then 0
    else Z.b2z ((list_next m prev =? entry) && (list_prev m next =? entry)).

Definition kb_list_add (new_entry prev next : Z) (m : mem) : mem :=
  if low_or_error_ptr new_entry || low_or_error_ptr prev || low_or_error_ptr next then m
  else
    let m := mstore64 m new_entry next in
    let m := mstore64 m (new_entry + 8) prev in
    let m := mstore64 m prev new_entry in
    mstore64 m (next + 8) new_entry.

Definition kb_list_del (entry : Z) (m : mem) : mem :=
  if low_or_error_ptr entry then m
  else
    let next := list_next m entry in
    let prev := list_prev m entry in
    if low_or_error_ptr next || low_or_error_ptr prev then m
    else
      let m := mstore64 m prev next in
      let m := mstore64 m (next + 8) prev in
      let m := mstore64 m entry entry in
      mstore64 m (entry + 8) entry.

Definition kb_llist_add_batch (new_first new_last head : Z) (m : mem) : mem * Z :=
  if (new_first =? 0) || (new_last =? 0) || (head =? 0) then (m, 0)
  else
    let old_first := mload64 m head in
    let m := mstore64 m new_last old_first in
    let m := mstore64 m head new_first in
    (m, Z.b2z (old_first =? 0)).

Definition kb_llist_del_first (head : Z) (m : mem) : mem * Z :=
  if head =? 0 then (m, 0)
  else
    let entry := mload64 m head in
    if entry =? 0 then (m, 0)
    else (mstore64 m head (mload64 m entry), entry).

(** ** Rings *)

(** Neighbours are linked to each other. *)
Fixpoint walk (m : mem) (x : Z) (w : list Z) : Prop :=
  match w with [] => True | y :: w => list_next m x = y /\ list_prev m y = x /\ walk m y w end.

Definition link_ptr (a : Z) : Prop := low_or_error_ptr a = false /\ a + 16 <= UINT64_MAX.
Definition links_apart (U : list Z) : Prop :=
  (forall a, a ∈ U -> link_ptr a) /\ (forall a b, a ∈ U -> b ∈ U -> a <> b -> a + 16 <= b \/ b + 16 <= a).
(** The head, the entries in order, and back to the head. *)
Definition ring (m : mem) (h : Z) (l : list Z) : Prop := NoDup (h :: l) /\ links_apart (h :: l) /\ walk m h (l ++ [h]).

Lemma walk_app m x w y w' : walk m x (w ++ y :: w') <-> walk m x (w ++ [y]) /\ walk m y w'.
Proof. revert x. induction w as [|z w IH]; intros x; cbn [app walk]; [tauto|]. rewrite IH. tauto. Qed.
Lemma walk_ext m m' x w : (forall a, a ∈ removelast (x :: w) -> list_next m' a = list_next m a) -> (forall a, a ∈ w -> list_prev m' a = list_prev m a) -> walk m x w -> walk m' x w.
Proof.
  revert x. induction w as [|y w IH]; intros x Hn Hp; cbn [walk]; [done|]. intros (H1 & H2 & H3).
  rewrite (Hn x), (Hp y) by (cbn; rewrite elem_of_cons; auto). split_and!; [done..|]. apply IH; [|intros a Ha; apply Hp; rewrite elem_of_cons; auto|done].
  intros a Ha. apply Hn. change (removelast (x :: y :: w)) with (x :: removelast (y :: w)). rewrite elem_of_cons. auto.
Qed.

Section stores.
Context (U : list Z) (Hap : links_apart U).
Lemma link_u64 a : a ∈ U -> is_u64 a /\ low_or_error_ptr a = false.
Proof.
  intros Ha. destruct (proj1 Hap a Ha) as [H1 H2]. split; [|done]. apply orb_false_iff in H1 as [H1%Z.ltb_ge _]. unfold is_u64, UINT64_MAX in *. lia.
Qed.
Lemma set_next m a b v : a ∈ U -> b ∈ U -> is_u64 v ->
  list_next (mstore64 m a v) b = (if decide (b = a) then v else list_next m b) /\ list_prev (mstore64 m a v) b = list_prev m b.
Proof.
  intros Ha Hb Hv. unfold list_next, list_prev. case_decide as E.
  - subst b. split; [by apply mload64_mstore64_same|apply mload64_mstore64_other; lia].
  - destruct (proj2 Hap a b Ha Hb) as [H|H]; [done| |]; split; apply mload64_mstore64_other; lia.
Qed.
Lemma set_prev m a b v : a ∈ U -> b ∈ U -> is_u64 v ->
  list_prev (mstore64 m (a + 8) v) b = (if decide (b = a) then v else list_prev m b) /\ list_next (mstore64 m (a + 8) v) b = list_next m b.
Proof.
  intros Ha Hb Hv. unfold list_next, list_prev. case_decide as E.
  - subst b. split; [by apply mload64_mstore64_same|apply mload64_mstore64_other; lia].
  - destruct (proj2 Hap a b Ha Hb) as [H|H]; [done| |]; split; apply mload64_mstore64_other; lia.
Qed.

(** What adding does to the links. *)
Lemma add_links m new p n b : new ∈ U -> p ∈ U -> n ∈ U -> b ∈ U -> new <> p -> new <> n ->
  list_next (kb_list_add new p n m) b = (if decide (b = p) then new else if decide (b = new) then n else list_next m b) /\
  list_prev (kb_list_add new p n m) b = (if decide (b = n) then new else if decide (b = new) then p else list_prev m b).
Proof.
  intros H1 H2 H3 Hb Np Nn. destruct (link_u64 new H1) as [U1 L1], (link_u64 p H2) as [U2 L2], (link_u64 n H3) as [U3 L3]. unfold kb_list_add. rewrite L1, L2, L3. cbn [orb].
  match goal with |- context [mstore64 ?x (n + 8) new] => set (m3 := x) end. destruct (set_prev m3 n b new H3 Hb U1) as [-> ->]. unfold m3.
  match goal with |- context [mstore64 ?x p new] => set (m2 := x) end. destruct (set_next m2 p b new H2 Hb U1) as [-> ->]. unfold m2.
  destruct (set_prev (mstore64 m new n) new b p H1 Hb U2) as [-> ->]. destruct (set_next m new b n H1 Hb U3) as [-> ->]. done.
Qed.
Lemma del_links m e b : e ∈ U -> list_next m e ∈ U -> list_prev m e ∈ U -> b ∈ U -> 
  list_next (kb_list_del e m) b = (if decide (b = e) then e else if decide (b = list_prev m e) then list_next m e else list_next m b) /\
  list_prev (kb_list_del e m) b = (if decide (b = e) then e else if decide (b = list_next m e) then list_prev m e else list_prev m b).
Proof.
  intros H1 H2 H3 Hb. destruct (link_u64 e H1) as [U1 L1], (link_u64 _ H2) as [U2 L2], (link_u64 _ H3) as [U3 L3]. unfold kb_list_del. rewrite L1, L2, L3. cbn [orb].
  set (n := list_next m e) in *. set (p := list_prev m e) in *. match goal with |- context [mstore64 ?x (e + 8) e] => set (m3 := x) end. destruct (set_prev m3 e b e H1 Hb U1) as [-> ->]. unfold m3.
  match goal with |- context [mstore64 ?x e e] => set (m2 := x) end. destruct (set_next m2 e b e H1 Hb U1) as [-> ->]. unfold m2.
  destruct (set_prev (mstore64 m p n) n b p H2 Hb U3) as [-> ->]. destruct (set_next m p b n H3 Hb U2) as [-> ->]. done.
Qed.
End stores.

Lemma removelast_snoc' (x : Z) l y : removelast (x :: l ++ [y]) = x :: l.
Proof. rewrite app_comm_cons. apply removelast_last. Qed.

(** The entry before the rest, and the one after a beginning. *)
Definition last_of (h : Z) (l : list Z) : Z := default h (last l).
Definition first_of (h : Z) (l : list Z) : Z := default h (head l).

Lemma last_of_in h l : last_of h l ∈ h :: l.
Proof.
  unfold last_of. destruct l as [|x l] using rev_ind; cbn; [apply elem_of_cons; auto|]. rewrite last_snoc. cbn. rewrite elem_of_cons, elem_of_app, elem_of_cons. auto.
Qed.
Lemma first_of_in h l : first_of h l ∈ h :: l.
Proof. destruct l; cbn; rewrite !elem_of_cons; auto. Qed.

(** A ring in two parts around a gap. *)
Lemma walk_gap m h l1 l2 (x : Z) : walk m h (l1 ++ x :: l2 ++ [h]) <->
  walk m h (l1) /\ list_next m (last_of h l1) = x /\ list_prev m x = last_of h l1 /\ walk m x (l2 ++ [h]).
Proof.
  rewrite (walk_app m h l1 x). destruct l1 as [|p l1 _] using rev_ind; [cbn; tauto|]. unfold last_of. rewrite last_snoc. cbn [default].
  rewrite <- app_assoc. cbn [app]. rewrite (walk_app m h l1 p). cbn [walk]. change (default h (Some p)) with p. tauto.
Qed.
Lemma walk_rest m x l2 h : walk m x (l2 ++ [h]) <-> list_next m x = first_of h l2 /\ list_prev m (first_of h l2) = x /\ walk m (first_of h l2) (tail (l2 ++ [h])).
Proof. destruct l2 as [|y l2]; cbn; tauto. Qed.

Theorem list_add_keeps_ring m h l1 l2 new : ring m h (l1 ++ l2) -> NoDup (h :: l1 ++ new :: l2) -> links_apart (h :: l1 ++ new :: l2) ->
  kb_list_add_valid_or_report new (last_of h l1) (first_of h l2) m = 1 /\
  ring (kb_list_add new (last_of h l1) (first_of h l2) m) h (l1 ++ new :: l2).
Proof.
  intros (_ & _ & Hw) Hnd Hap. set (U := h :: l1 ++ new :: l2) in *. set (p := last_of h l1). set (n := first_of h l2).
  assert (forall a, a ∈ h :: l1 -> a ∈ U) as S1 by (intros a; unfold U; rewrite !elem_of_cons, elem_of_app; tauto). assert (forall a, a ∈ h :: l2 -> a ∈ U) as S2 by (intros a; unfold U; rewrite !elem_of_cons, elem_of_app, elem_of_cons; tauto).
  assert (new ∈ U) as Hnew by (unfold U; rewrite elem_of_cons, elem_of_app, elem_of_cons; auto). pose proof (S1 _ (last_of_in h l1)) as Hp. pose proof (S2 _ (first_of_in h l2)) as Hn. fold p in Hp. fold n in Hn.
  apply NoDup_cons in Hnd as [Hnh Hnd]. apply NoDup_app in Hnd as (N1 & N2 & N3). apply NoDup_cons in N3 as [N4 N3]. rewrite elem_of_app, elem_of_cons in Hnh.
  assert (new ∉ h :: l1) as Nn1 by (rewrite elem_of_cons; intros [->|H]; [tauto|]; apply (N2 new H), elem_of_cons; auto). assert (new ∉ h :: l2) as Nn2 by (rewrite elem_of_cons; intros [->|H]; tauto).
  assert (new <> p) as Np by (intros E; apply Nn1; rewrite E; apply last_of_in). assert (new <> n) as Nn by (intros E; apply Nn2; rewrite E; apply first_of_in).
  assert (walk m h l1 /\ list_next m p = n /\ list_prev m n = p /\ walk m n (tail (l2 ++ [h]))) as (W1 & Wn & Wp & W2).
  { destruct l2 as [|y l2']; cbn [app tail]; [rewrite app_nil_r in Hw|rewrite <- app_assoc in Hw; cbn [app] in Hw; by apply walk_gap].
    unfold n, first_of. cbn. unfold p. clear - Hw. destruct l1 as [|q l1 _] using rev_ind; [cbn in *; tauto|]. rewrite <- app_assoc in Hw. cbn [app] in Hw. rewrite (walk_app m h l1 q) in Hw. unfold last_of. rewrite last_snoc. cbn [walk] in Hw. cbn [default]. change (default h (Some q)) with q. tauto. }
  destruct (link_u64 U Hap new Hnew) as [_ L1], (link_u64 U Hap p Hp) as [_ L2], (link_u64 U Hap n Hn) as [_ L3]. split.
  - unfold kb_list_add_valid_or_report. rewrite L1, L2, L3, Wn, Wp, !Z.eqb_refl. cbn. by rewrite (proj2 (Z.eqb_neq new p)), (proj2 (Z.eqb_neq new n)).
  - pose proof (fun b Hb => add_links U Hap m new p n b Hnew Hp Hn Hb Np Nn) as HL. set (m' := kb_list_add new p n m) in *. split_and!; [|done|].
    + apply NoDup_cons. split; [by rewrite elem_of_app, elem_of_cons|]. apply NoDup_app. split_and!; [done|done|]. by apply NoDup_cons.
    + assert (p ∉ l2) as Np2. { unfold p. pose proof (last_of_in h l1) as H. rewrite elem_of_cons in H. intros Hin. destruct H as [H|H]; [rewrite H in Hin; tauto|]. apply (N2 _ H). rewrite elem_of_cons. auto. }
      assert (n ∉ l1) as Nn1'. { unfold n. pose proof (first_of_in h l2) as H. rewrite elem_of_cons in H. intros Hin. destruct H as [H|H]; [rewrite H in Hin; tauto|]. apply (N2 _ Hin). rewrite elem_of_cons. auto. }
      rewrite <- app_assoc. cbn [app]. apply walk_gap. fold p. split_and!.
      * apply (walk_ext m); [..|done]; intros a Ha.
        -- destruct l1 as [|q l1' _] using rev_ind; [by apply elem_of_nil in Ha|]. rewrite removelast_snoc' in Ha. rewrite (proj1 (HL a ltac:(apply S1; rewrite elem_of_cons, elem_of_app; rewrite elem_of_cons in Ha; tauto))).
           assert (p = q) as Epq by (unfold p, last_of; by rewrite last_snoc). rewrite Epq. apply NoDup_app in N1 as (_ & N1 & _). rewrite !decide_False; [done|..].
           ++ intros ->. apply Nn1. rewrite elem_of_cons, elem_of_app. rewrite elem_of_cons in Ha. tauto.
           ++ intros ->. rewrite elem_of_cons in Ha. destruct Ha as [->|Ha]; [apply Hnh; left; rewrite elem_of_app, elem_of_cons; auto|]. apply (N1 q Ha). apply elem_of_cons. auto.
        -- rewrite (proj2 (HL a ltac:(apply S1, elem_of_cons; auto))). rewrite !decide_False; [done|..]; intros ->; [apply Nn1, elem_of_cons; auto|done].
      * rewrite (proj1 (HL p Hp)). by rewrite decide_True.
      * rewrite (proj2 (HL new Hnew)). by rewrite decide_False, decide_True.
      * apply walk_rest. fold n. rewrite (proj1 (HL new Hnew)), (proj2 (HL n Hn)), decide_False, !decide_True by done. split_and!; [done..|].
        apply (walk_ext m); [..|done]; intros a Ha; destruct l2 as [|y l2']; cbn [app tail] in *; try (by apply elem_of_nil in Ha).
        -- change n with y in Ha. rewrite removelast_snoc' in Ha. rewrite (proj1 (HL a ltac:(apply S2, elem_of_cons; auto))). rewrite !decide_False; [done|..]; intros ->; [apply Nn2, elem_of_cons; auto|done].
        -- change n with y in *. rewrite (proj2 (HL a ltac:(apply S2; rewrite elem_of_app, !elem_of_cons, elem_of_nil in *; tauto))). apply NoDup_cons in N3 as [N3 _]. rewrite !decide_False; [done|..]; intros ->; rewrite elem_of_app, elem_of_cons, elem_of_nil in Ha.
           ++ apply Nn2. rewrite !elem_of_cons. tauto.
           ++ destruct Ha as [?|[->|?]]; [done|apply Hnh; rewrite !elem_of_cons; auto|done].
Qed.

Theorem list_del_keeps_ring m h l1 e l2 : ring m h (l1 ++ e :: l2) ->
  kb_list_del_entry_valid_or_report e m = 1 /\ ring (kb_list_del e m) h (l1 ++ l2) /\
  list_next (kb_list_del e m) e = e /\ list_prev (kb_list_del e m) e = e.
Proof.
  intros (Hnd & Hap & Hw). set (U := h :: l1 ++ e :: l2) in *. set (p := last_of h l1). set (n := first_of h l2).
  assert (forall a, a ∈ h :: l1 -> a ∈ U) as S1 by (intros a; unfold U; rewrite !elem_of_cons, elem_of_app; tauto). assert (forall a, a ∈ h :: l2 -> a ∈ U) as S2 by (intros a; unfold U; rewrite !elem_of_cons, elem_of_app, elem_of_cons; tauto).
  assert (e ∈ U) as He by (unfold U; rewrite elem_of_cons, elem_of_app, elem_of_cons; auto). pose proof (S1 _ (last_of_in h l1)) as Hp. pose proof (S2 _ (first_of_in h l2)) as Hn. fold p in Hp. fold n in Hn.
  apply NoDup_cons in Hnd as [Hnh Hnd]. apply NoDup_app in Hnd as (N1 & N2 & N3). apply NoDup_cons in N3 as [N4 N3]. rewrite elem_of_app, elem_of_cons in Hnh.
  rewrite <- app_assoc in Hw. cbn [app] in Hw. apply walk_gap in Hw as (W1 & Wpe & Wep & W2). fold p in Wpe, Wep. apply walk_rest in W2 as (Wen & Wne & W2). fold n in Wen, Wne, W2.
  destruct (link_u64 U Hap e He) as [_ L1], (link_u64 U Hap p Hp) as [_ L2], (link_u64 U Hap n Hn) as [_ L3].
  assert (e ∉ h :: l1) as Ne1 by (rewrite elem_of_cons; intros [->|H]; [tauto|]; apply (N2 e H), elem_of_cons; auto). assert (e ∉ h :: l2) as Ne2 by (rewrite elem_of_cons; intros [->|H]; tauto).
  assert (p ∉ l2) as Np2. { unfold p. pose proof (last_of_in h l1) as H. rewrite elem_of_cons in H. intros Hin. destruct H as [H|H]; [rewrite H in Hin; tauto|]. apply (N2 _ H). rewrite elem_of_cons. auto. }
  assert (n ∉ l1) as Nn1. { unfold n. pose proof (first_of_in h l2) as H. rewrite elem_of_cons in H. intros Hin. destruct H as [H|H]; [rewrite H in Hin; tauto|]. apply (N2 _ Hin). rewrite elem_of_cons. auto. }
  assert (list_next m e ∈ U) as He1 by (by rewrite Wen). assert (list_prev m e ∈ U) as He2 by (by rewrite Wep). pose proof (fun b Hb => del_links U Hap m e b He He1 He2 Hb) as HL. rewrite Wen, Wep in HL. set (m' := kb_list_del e m) in *. split_and!.
  - unfold kb_list_del_entry_valid_or_report. by rewrite L1, Wen, Wep, L2, L3, Wpe, Wne, !Z.eqb_refl.
  - split_and!.
    + apply NoDup_cons. rewrite elem_of_app. split; [tauto|]. apply NoDup_app. split_and!; [done| |done]. intros a Ha Ha2. apply (N2 a Ha). rewrite elem_of_cons. auto.
    + destruct Hap as [A1 A2]. assert (forall a, a ∈ h :: l1 ++ l2 -> a ∈ U) as S by (intros a; unfold U; rewrite !elem_of_cons, !elem_of_app, elem_of_cons; tauto). split; auto.
    + assert (walk m' h l1) as W1'.
      { apply (walk_ext m); [..|done]; intros a Ha.
        - destruct l1 as [|q l1' _] using rev_ind; [by apply elem_of_nil in Ha|]. rewrite removelast_snoc' in Ha. rewrite (proj1 (HL a ltac:(apply S1; rewrite elem_of_cons, elem_of_app; rewrite elem_of_cons in Ha; tauto))).
          assert (p = q) as Epq by (unfold p, last_of; by rewrite last_snoc). rewrite Epq. apply NoDup_app in N1 as (_ & N1 & _). rewrite !decide_False; [done|..].
          + intros ->. rewrite elem_of_cons in Ha. destruct Ha as [->|Ha]; [apply Hnh; left; rewrite elem_of_app, elem_of_cons; auto|]. apply (N1 q Ha). apply elem_of_cons. auto.
          + intros ->. apply Ne1. rewrite elem_of_cons, elem_of_app. rewrite elem_of_cons in Ha. tauto.
        - rewrite (proj2 (HL a ltac:(apply S1, elem_of_cons; auto))). rewrite !decide_False; [done|..]; intros ->; [done|apply Ne1, elem_of_cons; auto]. }
      assert (list_next m' p = n /\ list_prev m' n = p) as [Wn Wp].
      { rewrite (proj1 (HL p Hp)), (proj2 (HL n Hn)). rewrite !(decide_True _ _ eq_refl). rewrite !decide_False; [done|..]; intros E; [apply Ne2; rewrite <- E; apply first_of_in|apply Ne1; rewrite <- E; apply last_of_in]. }
      assert (walk m' n (tail (l2 ++ [h]))) as W2'.
      { apply (walk_ext m); [..|done]; intros a Ha; destruct l2 as [|y l2']; cbn [app tail] in *; try (by apply elem_of_nil in Ha); change n with y in *.
        - rewrite removelast_snoc' in Ha. rewrite (proj1 (HL a ltac:(apply S2, elem_of_cons; auto))). rewrite !decide_False; [done|..]; intros ->; [done|apply Ne2, elem_of_cons; auto].
        - rewrite (proj2 (HL a ltac:(apply S2; rewrite elem_of_app, !elem_of_cons, elem_of_nil in *; tauto))). apply NoDup_cons in N3 as [N3 _]. rewrite !decide_False; [done|..]; intros ->; rewrite elem_of_app, elem_of_cons, elem_of_nil in Ha.
          + destruct Ha as [?|[->|?]]; [done|apply Hnh; rewrite !elem_of_cons; auto|done].
          + apply Ne2. rewrite !elem_of_cons. tauto. }
      destruct l2 as [|y l2']; [|rewrite <- app_assoc; cbn [app]; apply walk_gap; fold p; done]. rewrite app_nil_r. change n with h in *.
      destruct l1 as [|q l1' _] using rev_ind; [done|]. rewrite <- app_assoc. cbn [app]. apply walk_app. split; [done|]. assert (p = q) as Epq by (unfold p, last_of; by rewrite last_snoc). rewrite <- Epq. done.
  - rewrite (proj1 (HL e He)). by rewrite decide_True.
  - rewrite (proj2 (HL e He)). by rewrite decide_True.
Qed.

(** *** Stacks *)

(** [first] is the first of the entries of a list, the last one linked to 0. *)
Fixpoint llist (m : mem) (first : Z) (l : list Z) : Prop :=
  match l with [] => first = 0 | x :: l => first = x /\ x <> 0 /\ llist m (mload64 m x) l end.
Definition words_apart (U : list Z) : Prop := NoDup U /\ (forall a, a ∈ U -> is_u64 a /\ a <> 0) /\ (forall a b, a ∈ U -> b ∈ U -> a <> b -> a + 8 <= b \/ b + 8 <= a).

Lemma llist_ext m m' f l : (forall a, a ∈ l -> mload64 m' a = mload64 m a) -> llist m f l -> llist m' f l.
Proof.
  revert f. induction l as [|x l IH]; intros f H; cbn [llist]; [done|]. intros (-> & ? & Hl). split_and!; [done..|]. rewrite H by (apply elem_of_cons; auto). apply IH; [|done]. intros a Ha. apply H, elem_of_cons. auto.
Qed.
(** The entries of a batch, each linked to the next. *)
Fixpoint batch (m : mem) (first : Z) (l : list Z) (last : Z) : Prop :=
  match l with [] => first = last | x :: l => first = x /\ batch m (mload64 m x) l last end.
Lemma batch_llist m m' f b y l : (forall a, a ∈ b -> mload64 m' a = mload64 m a) -> (forall a, a ∈ b -> a <> 0) -> y <> 0 ->
  batch m f b y -> llist m' (mload64 m' y) l -> llist m' f (b ++ y :: l).
Proof.
  revert f. induction b as [|x b IH]; intros f H H0 Hy; cbn [batch app llist]; [by intros ->|]. intros (-> & Hb) Hl. split_and!; [done|apply H0, elem_of_cons; auto|].
  rewrite H by (apply elem_of_cons; auto). apply IH; try done; intros a Ha; [apply H|apply H0]; apply elem_of_cons; auto.
Qed.

Theorem llist_is_a_stack m hp b y l : words_apart (hp :: b ++ y :: l) -> llist m (mload64 m hp) l ->
  (forall first, is_u64 first -> first <> 0 -> batch m first b y ->
    let '(m', r) := kb_llist_add_batch first y hp m in
    llist m' (mload64 m' hp) (b ++ y :: l) /\ r = Z.b2z (bool_decide (l = []))) /\
  (let '(m', r) := kb_llist_del_first hp m in r = default 0 (head l) /\ llist m' (mload64 m' hp) (tail l)).
Proof.
  intros (Hnd & Hu & Hap) Hl. apply NoDup_cons in Hnd as [Hnh Hnd]. apply NoDup_app in Hnd as (_ & Hby & Hnl). apply NoDup_cons in Hnl as [Hnl Hndl]. rewrite elem_of_app, elem_of_cons in Hnh.
  assert (hp ∈ hp :: b ++ y :: l) as Ih by (apply elem_of_cons; auto). assert (y ∈ hp :: b ++ y :: l) as Iy by (rewrite elem_of_cons, elem_of_app, elem_of_cons; auto).
  assert (forall a, a ∈ b -> a ∈ hp :: b ++ y :: l) as Ib by (intros; rewrite elem_of_cons, elem_of_app; auto). assert (forall a, a ∈ l -> a ∈ hp :: b ++ y :: l) as Il by (intros; rewrite elem_of_cons, elem_of_app, elem_of_cons; auto).
  assert (forall M x v a, x ∈ hp :: b ++ y :: l -> a ∈ hp :: b ++ y :: l -> a <> x -> mload64 (mstore64 M x v) a = mload64 M a) as Hs.
  { intros M x v a Hx Ha Hne. apply mload64_mstore64_other. destruct (Hap x a Hx Ha); [done|lia|lia]. }
  destruct (Hu hp Ih) as [Uh Zh]. destruct (Hu y Iy) as [Uy Zy]. split.
  - intros first Uf Zf Hb. unfold kb_llist_add_batch. rewrite (proj2 (Z.eqb_neq first 0)), (proj2 (Z.eqb_neq y 0)), (proj2 (Z.eqb_neq hp 0)) by done. cbn [orb].
    set (m' := mstore64 _ hp first). assert (mload64 m' hp = first) as -> by by apply mload64_mstore64_same. assert (is_u64 (mload64 m hp)) as Uo.
    { destruct l as [|x l]; cbn [llist] in Hl; [by rewrite Hl|]. destruct Hl as [-> _]. apply Hu, Il, elem_of_cons. auto. }
    split.
    + apply (batch_llist m); [|by intros a Ha; apply Hu, Ib|done|done|].
      * intros a Ha. unfold m'. rewrite !Hs; auto; intros ->; [apply (Hby y Ha); apply elem_of_cons; auto|tauto].
      * assert (mload64 m' y = mload64 m hp) as ->. { unfold m'. rewrite Hs by (done || intros ->; tauto). by apply mload64_mstore64_same. }
        apply (llist_ext m); [|done]. intros a Ha. unfold m'. rewrite !Hs; auto; intros ->; tauto.
    + destruct l as [|x l]; cbn [llist] in Hl; [by rewrite Hl|]. destruct Hl as (-> & ? & _). by rewrite (proj2 (Z.eqb_neq x 0)).
  - unfold kb_llist_del_first. rewrite (proj2 (Z.eqb_neq hp 0)) by done. destruct l as [|x l]; cbn [llist] in Hl; [rewrite Hl; by cbn|]. destruct Hl as (E & Hx & Hl). rewrite E, (proj2 (Z.eqb_neq x 0)) by done.
    split; [done|]. assert (is_u64 (mload64 m x)) as Ux. { destruct l as [|z l]; cbn [llist] in Hl; [by rewrite Hl|]. destruct Hl as [-> _]. apply Hu, Il. rewrite !elem_of_cons. auto. }
    rewrite mload64_mstore64_same by done. cbn [tail]. apply (llist_ext m); [|done]. intros a Ha. apply Hs; [done|apply Il, elem_of_cons; auto|]. intros ->. apply Hnh. rewrite elem_of_cons. auto.
Qed.
