(* ===== verification/Ida.v ===== *)
(** * Identifiers (IDA; src/src/linux_personality/linux_stubs.c)

    A record per allocator of the module with the identifiers given out, in an array that
    grows by doubling.  The second part shows that an allocator is a set of identifiers from
    which the least free one in a range is taken. *)

From S2P Require Import Prelude.

(** ** The code *)

(** [ids] is the part of the array in use, [count] its length. *)
Record kb_ida_record := mk_ida { ia_ida : Z; ia_ids : list Z; ia_capacity : Z }.
#[export] Instance ida_eta : Settable kb_ida_record := fun r => mk_ida (ia_ida r) (ia_ids r) (ia_capacity r).

(** What kb_kzalloc and kb_krealloc_managed answer in one call: whether there is memory. *)
Record ida_allocs := mk_ida_allocs { al_record : bool; al_ids : bool }.

Abbreviation ida_state := (list kb_ida_record).
Definition find_ida (ida : Z) (s : ida_state) : option (nat * kb_ida_record) := list_find (fun r => ia_ida r = ida) s.

Definition ida_record_for (ida : Z) (create : bool) (al : ida_allocs) (s : ida_state) : ida_state * option (nat * kb_ida_record) :=
  if ida =? 0 then (s, None)
  else
    match find_ida ida s with
    | Some r => (s, Some r)
    | None =>
        if negb create then (s, None)
        else if negb (al_record al) then (s, None)
        else let r := mk_ida ida [] 0 in (r :: s, Some (0%nat, r))
    end.

Definition ida_contains (r : kb_ida_record) (id : Z) : bool := bool_decide (id ∈ ia_ids r).

(** [while (next_capacity < required_capacity)], 64 doublings at most; [None] is an overflow. *)
Fixpoint ida_double (steps : nat) (next_capacity required : Z) : option Z :=
  match steps with
  | O => None
  | S steps =>
      if next_capacity <? required then
        if UINT64_MAX / 2 <? next_capacity then None else ida_double steps (next_capacity * 2) required
      else Some next_capacity
  end.
Definition ida_ensure_capacity (required : Z) (al : ida_allocs) (r : kb_ida_record) : option kb_ida_record :=
  if required <=? ia_capacity r then Some r
  else
    match ida_double 65 (if ia_capacity r =? 0 then 8 else u64 (ia_capacity r * 2)) required with
    | None => None
    | Some next_capacity =>
        if UINT64_MAX / 4 <? next_capacity then None
        else if negb (al_ids al) then None
        else Some (r <| ia_capacity := next_capacity |>)
    end.

(** The loop over the identifiers: [Some None] is the end of the range, the outer [None] that
    it has not ended after [fuel] steps. *)
Fixpoint ida_search (fuel : nat) (id max : Z) (r : kb_ida_record) : option (option Z) :=
  match fuel with
  | O => None
  | S fuel =>
      if id <=? max then
        if negb (ida_contains r id) then Some (Some id)
        else if id =? UINT32_MAX then Some None
        else ida_search fuel (u32 (id + 1)) max r
      else Some None
  end.

(** With [count] identifiers given out, the search takes [count + 1] steps at most. *)
Definition kb_ida_alloc_range (ida min max : Z) (al : ida_allocs) (s : ida_state) : option (ida_state * Z) :=
  if (ida =? 0) || (max <? min) then Some (s, -22)
  else
    match ida_record_for ida true al s with
    | (s, None) => Some (s, -12)
    | (s, Some (i, r)) =>
        match ida_search (S (length (ia_ids r))) min max r with
        | None => None
        | Some None => Some (s, -28)
        | Some (Some id) =>
            match ida_ensure_capacity (Z.of_nat (length (ia_ids r)) + 1) al r with
            | None => Some (s, -12)
            | Some r => Some (<[i := r <| ia_ids := ia_ids r ++ [id] |>]> s, s32 id)
            end
        end
    end.

(** The last identifier takes the place of the one given back. *)
Definition kb_ida_free (ida id : Z) (s : ida_state) : ida_state :=
  match ida_record_for ida false (mk_ida_allocs false false) s with
  | (s, None) => s
  | (s, Some (k, r)) =>
      match list_find (fun x => x = id) (ia_ids r) with
      | None => s
      | Some (i, _) =>
          let n := (length (ia_ids r) - 1)%nat in
          <[k := r <| ia_ids := take n (<[i := nth n (ia_ids r) 0]> (ia_ids r)) |>]> s
      end
  end.

Definition kb_ida_destroy (ida : Z) (s : ida_state) : ida_state :=
  match find_ida ida s with Some (i, _) => delete i s | None => s end.

Definition kb_ida_simple_get (ida start end_ : Z) (al : ida_allocs) (s : ida_state) : option (ida_state * Z) :=
  let max := if end_ =? 0 then UINT32_MAX else u32 (end_ - 1) in
  if negb (end_ =? 0) && (end_ <=? start) then Some (s, -28) else kb_ida_alloc_range ida start max al s.
Definition kb_ida_simple_remove (ida id : Z) (s : ida_state) : ida_state := kb_ida_free ida id s.

(** ** Sets of identifiers *)

Definition record_ok (r : kb_ida_record) : Prop :=
  NoDup (ia_ids r) /\ Forall is_u32 (ia_ids r) /\ Z.of_nat (length (ia_ids r)) <= ia_capacity r.
Definition ida_ok (s : ida_state) : Prop := NoDup (ia_ida <$> s) /\ Forall (fun r => ia_ida r <> 0 /\ record_ok r) s.
(** The identifiers an allocator has given out. *)
Definition given (s : ida_state) (ida : Z) : list Z := match find_ida ida s with Some (_, r) => ia_ids r | None => [] end.
Definition capacity (s : ida_state) (ida : Z) : Z := match find_ida ida s with Some (_, r) => ia_capacity r | None => 0 end.
Definition free_in (s : ida_state) (ida min max id : Z) : Prop := min <= id <= max /\ id ∉ given s ida.

Lemma find_ida_Some ida s i r : find_ida ida s = Some (i, r) -> s !! i = Some r /\ ia_ida r = ida.
Proof. unfold find_ida. rewrite list_find_Some. tauto. Qed.
Lemma find_ida_unique ida s i r : NoDup (ia_ida <$> s) -> s !! i = Some r -> ia_ida r = ida -> find_ida ida s = Some (i, r).
Proof.
  intros Hnd Hi He. unfold find_ida. apply list_find_Some. split_and!; [done..|]. intros j y Hj Hlt E.
  assert (i = j); [|lia]. apply (NoDup_lookup _ _ _ ida Hnd); rewrite list_lookup_fmap; [by rewrite Hi, <- He|by rewrite Hj, <- E].
Qed.
Lemma find_ida_None ida s : find_ida ida s = None <-> ida ∉ ia_ida <$> s.
Proof.
  unfold find_ida. rewrite list_find_None, Forall_forall. split.
  - intros H Hin. apply list_elem_of_fmap in Hin as (r & -> & Hr). by apply (H r).
  - intros H r Hr E. apply H. apply list_elem_of_fmap. by exists r.
Qed.

(** One record changes and the others do not. *)
Lemma update_ok s i r r' : ida_ok s -> s !! i = Some r -> ia_ida r' = ia_ida r -> record_ok r' -> ida_ok (<[i := r']> s).
Proof.
  intros [Hnd Hall] Hi He Hr. split.
  - rewrite list_fmap_insert, He. rewrite list_insert_id; [done|]. by rewrite list_lookup_fmap, Hi.
  - apply Forall_insert; [done|]. rewrite He. split; [|done]. apply (Forall_lookup_1 _ _ _ _ Hall Hi).
Qed.
Lemma given_update s i r r' ida : ida_ok s -> s !! i = Some r -> ia_ida r' = ia_ida r -> record_ok r' ->
  given (<[i := r']> s) ida = if decide (ida = ia_ida r) then ia_ids r' else given s ida.
Proof.
  intros Hok Hi He Hr. pose proof (update_ok s i r r' Hok Hi He Hr) as Hok'. pose proof (lookup_lt_Some _ _ _ Hi) as Hlt. unfold given. case_decide as E.
  - subst ida. rewrite (find_ida_unique (ia_ida r) _ i r'); [done|apply Hok'|by apply list_lookup_insert_eq|done].
  - destruct (find_ida ida s) as [[j q]|] eqn:F.
    + apply find_ida_Some in F as [Hj Hq]. rewrite (find_ida_unique ida _ j q); [done|apply Hok'| |done]. rewrite list_lookup_insert_ne; [done|]. intros ->. congruence.
    + apply find_ida_None in F. rewrite (proj2 (find_ida_None ida _)); [done|]. rewrite list_fmap_insert, He, list_insert_id; [done|]. by rewrite list_lookup_fmap, Hi.
Qed.

(** The search ends with the least free identifier of the range or with none. *)
Lemma search_spec r fuel : forall id max, is_u32 id -> is_u32 max -> (length (filter (fun x => (id <= x)%Z) (ia_ids r)) < fuel)%nat ->
  match ida_search fuel id max r with
  | None => False
  | Some None => forall x, id <= x <= max -> x ∈ ia_ids r
  | Some (Some y) => id <= y <= max /\ (y ∉ ia_ids r) /\ forall x, id <= x < y -> x ∈ ia_ids r
  end.
Proof.
  induction fuel as [|n IH]; intros id max Hid Hmax Hf; [lia|]. cbn [ida_search]. destruct (Z.leb_spec id max) as [Hle|Hgt]; [|intros x Hx; lia].
  unfold ida_contains. case_bool_decide as Hc; cbn [negb]; [|split_and!; [lia|lia|done|intros x Hx; lia]].
  unfold is_u32 in *. destruct (Z.eqb_spec id UINT32_MAX) as [->|Hne]; [unfold UINT32_MAX in *; intros x Hx; by replace x with 0xffffffff by lia|]. unfold UINT32_MAX in Hne.
  rewrite u32_small by (unfold is_u32; lia). assert (length (filter (fun x => (id + 1 <= x)%Z) (ia_ids r)) < length (filter (fun x => (id <= x)%Z) (ia_ids r)))%nat as Hlt.
  { clear - Hc. induction (ia_ids r) as [|y l IHl]; [by apply elem_of_nil in Hc|]. apply elem_of_cons in Hc as [->|Hc].
    - rewrite !filter_cons. rewrite (decide_True (P := (y <= y)%Z)) by lia. rewrite decide_False by lia. cbn [length]. clear. induction l as [|z l IHl]; [cbn; lia|]. rewrite !filter_cons. repeat case_decide; cbn [length] in *; lia.
    - specialize (IHl Hc). rewrite !filter_cons. repeat case_decide; cbn [length] in *; lia. }
  specialize (IH (id + 1) max). destruct (ida_search n (id + 1) max r) as [[y|]|]; [| |apply IH; lia].
  - destruct IH as (H1 & H2 & H3); [lia|lia|lia|]. split_and!; [lia|lia|done|]. intros x Hx. destruct (decide (x = id)) as [->|]; [done|]. apply H3. lia.
  - intros x Hx. destruct (decide (x = id)) as [->|]; [done|]. apply IH; lia.
Qed.

Lemma double_spec steps : forall c required c', ida_double steps c required = Some c' -> required <= c' .
Proof.
  induction steps as [|n IH]; intros c required c'; cbn [ida_double]; [done|]. destruct (Z.ltb_spec c required); [|intros [= <-]; lia]. case_match; [done|]. apply IH.
Qed.
Lemma ensure_spec required al r r' : ida_ensure_capacity required al r = Some r' -> ia_ida r' = ia_ida r /\ ia_ids r' = ia_ids r /\ required <= ia_capacity r'.
Proof.
  unfold ida_ensure_capacity. destruct (Z.leb_spec required (ia_capacity r)); [by intros [= <-]|]. destruct (ida_double _ _ _) as [c|] eqn:E; [|done]. destruct (_ <? c); [done|]. destruct (al_ids al); [|done]. cbn [negb]. intros [= <-]. cbn. by apply double_spec in E.
Qed.

Lemma given_cons r s ida : ida_ok (r :: s) -> given (r :: s) ida = if decide (ida = ia_ida r) then ia_ids r else given s ida.
Proof.
  intros [Hnd _]. unfold given, find_ida. cbn [list_find]. destruct (decide (ia_ida r = ida)) as [->|Hne]; [by rewrite decide_True|]. rewrite (decide_False (P := ida = ia_ida r)) by congruence. by destruct (list_find _ s) as [[j q]|].
Qed.

(** The record an operation works on: as it was, or a new empty one. *)
Lemma record_for_spec ida al s s' i r : ida_ok s -> ida_record_for ida true al s = (s', Some (i, r)) ->
  ida_ok s' /\ s' !! i = Some r /\ ia_ida r = ida /\ ia_ids r = given s ida /\ forall x, given s' x = given s x.
Proof.
  intros Hok. unfold ida_record_for. destruct (Z.eqb_spec ida 0) as [|H0]; [done|]. destruct (find_ida ida s) as [[j q]|] eqn:F.
  - intros [= <- <- <-]. pose proof (find_ida_Some _ _ _ _ F) as [? ?]. unfold given at 1. by rewrite F.
  - cbn [negb]. destruct (al_record al); [|done]. cbn [negb]. intros [= <- <- <-]. assert (ida_ok (mk_ida ida [] 0 :: s)) as Hok'.
    { destruct Hok as [Hnd Hall]. split; [cbn; apply NoDup_cons; split; [by apply find_ida_None|done]|]. constructor; [|done]. split; [done|]. split_and!; cbn; [apply NoDup_nil_2|constructor|lia]. }
    assert (given s ida = []) as Eg by (unfold given; by rewrite F). split_and!; [done..|by rewrite Eg|]. intros x. rewrite given_cons by done. cbn [ia_ida ia_ids]. case_decide as E; [by rewrite E, Eg|done].
Qed.

Lemma ensure_succeeds al r : al_ids al = true -> Z.of_nat (length (ia_ids r)) <= ia_capacity r <= 2 ^ 60 ->
  ida_ensure_capacity (Z.of_nat (length (ia_ids r)) + 1) al r <> None.
Proof.
  intros Hal Hc. unfold ida_ensure_capacity. destruct (Z.leb_spec (Z.of_nat (length (ia_ids r)) + 1) (ia_capacity r)); [done|]. rewrite Hal. set (c := if ia_capacity r =? 0 then 8 else _).
  change (2 ^ 60) with 0x1000000000000000 in Hc. assert (Z.of_nat (length (ia_ids r)) + 1 <= c <= 0x2000000000000000) as Hcc.
  { unfold c. destruct (Z.eqb_spec (ia_capacity r) 0); [lia|]. rewrite u64_small by (unfold is_u64; lia). lia. }
  cbn [ida_double]. rewrite (proj2 (Z.ltb_ge c _)) by lia. cbn [negb]. rewrite (proj2 (Z.ltb_ge _ _)); [done|]. change (UINT64_MAX / 4) with 0x3fffffffffffffff. lia.
Qed.

(** Taking one out by putting the last one in its place. *)
Lemma swap_out (l : list Z) i x : l !! i = Some x -> l ≡ₚ x :: take (length l - 1) (<[i := nth (length l - 1) l 0]> l).
Proof.
  destruct l as [|y l _] using rev_ind; [done|]. rewrite length_app. cbn [length]. replace (length l + 1 - 1)%nat with (length l) by lia. rewrite app_nth2, Nat.sub_diag by lia. cbn [nth].
  intros Hi. destruct (decide (i < length l)%nat) as [Hlt|Hge].
  - rewrite lookup_app_l in Hi by done. rewrite insert_app_l, take_app_length' by (rewrite ?length_insert; done).
    rewrite <- (take_drop_middle l i x Hi) at 1. rewrite (insert_take_drop l i y) by done. rewrite <- app_assoc. cbn [app]. solve_Permutation.
  - rewrite lookup_app_r in Hi by lia. destruct (i - length l)%nat as [|k] eqn:Ek; [|by destruct k]. injection Hi as <-.
    replace i with (length l + 0)%nat by lia. rewrite insert_app_r, take_app_length' by done. solve_Permutation.
Qed.

Lemma free_lemma ida id s : ida_ok s -> ida <> 0 ->
  let s' := kb_ida_free ida id s in
  ida_ok s' /\ (forall i, i <> ida -> given s' i = given s i) /\ forall x, x ∈ given s' ida <-> (x ∈ given s ida /\ x <> id).
Proof.
  intros Hok H0. unfold kb_ida_free, ida_record_for. rewrite (proj2 (Z.eqb_neq ida 0)) by done. destruct (find_ida ida s) as [[k r]|] eqn:F; cbn [negb].
  2: { assert (given s ida = []) as -> by (unfold given; by rewrite F). split_and!; [done..|]. intros x. rewrite elem_of_nil. tauto. }
  assert (given s ida = ia_ids r) as Eg by (unfold given; by rewrite F). apply find_ida_Some in F as [Hk He]. pose proof (proj2 (Forall_lookup_1 _ _ _ _ (proj2 Hok) Hk)) as (Rn & Ru & Rc).
  destruct (list_find _ (ia_ids r)) as [[i y]|] eqn:L.
  2: { apply list_find_None in L. split_and!; [done..|]. intros x. rewrite Eg. split; [|tauto]. intros Hx. split; [done|]. intros ->. rewrite Forall_forall in L. by apply (L id). }
  apply list_find_Some in L as (Hi & -> & _). cbv zeta. set (ids := take _ _). assert (ia_ids r ≡ₚ id :: ids) as Hperm by by apply swap_out.
  assert (NoDup (id :: ids)) as Rn' by by rewrite <- Hperm. apply NoDup_cons in Rn' as [Hnid Rn']. assert (Forall is_u32 (id :: ids)) as Ru' by by rewrite <- Hperm. apply Forall_cons in Ru' as [_ Ru'].
  pose proof (Permutation_length Hperm) as Hlen. cbn [length] in Hlen.
  assert (record_ok (r <| ia_ids := ids |>)) as Hr by (split_and!; cbn; [done..|lia]). split_and!.
  - by apply (update_ok _ _ r).
  - intros j Hj. rewrite (given_update _ _ r) by done. by rewrite decide_False by congruence.
  - intros x. rewrite (given_update _ _ r) by done. rewrite decide_True by done. cbn. rewrite Eg, Hperm, elem_of_cons. split; [intros H; split; [auto|]; intros ->; done|]. intros [[?|?] ?]; done.
Qed.

(** C17: An allocator of identifiers is a set: the search ends, whatever has been given out,
    and it gives out the least identifier of the range that is free and keeps it, or reports
    -28 when the range has none left, or -12 when there is no memory or the array would have
    more than 2^60 places, and then no set changes; giving one back takes exactly that one
    from the set.  No other allocator is touched, and no identifier is ever given out twice. *)
Theorem ida_refines_sets ida min max id al s : ida_ok s -> ida <> 0 -> is_u32 min -> is_u32 max -> min <= max ->
  (exists s' r, kb_ida_alloc_range ida min max al s = Some (s', r) /\ ida_ok s' /\
    ((exists x, r = s32 x /\ free_in s ida min max x /\ (forall y, free_in s ida min max y -> x <= y) /\
       forall i, given s' i = if decide (i = ida) then given s ida ++ [x] else given s i) \/
     (forall i, given s' i = given s i) /\
     ((r = -28 /\ forall y, ~ free_in s ida min max y) \/
      (r = -12 /\ (al_record al = false \/ al_ids al = false \/ 2 ^ 60 < capacity s ida))))) /\
  (let s' := kb_ida_free ida id s in
   ida_ok s' /\ (forall i, i <> ida -> given s' i = given s i) /\ forall x, x ∈ given s' ida <-> (x ∈ given s ida /\ x <> id)).
Proof.
  intros Hok H0 Hmin Hmax Hle. split; [|by apply free_lemma].
  unfold kb_ida_alloc_range. rewrite (proj2 (Z.eqb_neq ida 0)), (proj2 (Z.ltb_ge _ _)) by done. cbn [orb]. destruct (ida_record_for ida true al s) as [s1 [[i r]|]] eqn:E.
  2: { exists s1, (-12). unfold ida_record_for in E. rewrite (proj2 (Z.eqb_neq ida 0)) in E by done. destruct (find_ida ida s); [done|]. destruct (al_record al); [done|]. injection E as <-. split_and!; auto 6. }
  pose proof (record_for_spec _ _ _ _ _ _ Hok E) as (Hok1 & Hi & He & Hids & Hg). pose proof (proj2 (Forall_lookup_1 _ _ _ _ (proj2 Hok1) Hi)) as (Rn & Ru & Rc).
  assert (length (filter (fun x => (min <= x)%Z) (ia_ids r)) < S (length (ia_ids r)))%nat as Hf by (pose proof (length_filter (fun x => (min <= x)%Z) (ia_ids r)); lia).
  pose proof (search_spec r _ min max Hmin Hmax Hf) as Hs. destruct (ida_search _ _ _ _) as [[x|]|]; [| |done].
  - destruct Hs as (Hx & Hnx & Hleast). assert (free_in s ida min max x) as Hfree by (split; [done|by rewrite <- Hids]). destruct (ida_ensure_capacity _ al r) as [r'|] eqn:Ec.
    + apply ensure_spec in Ec as (E1 & E2 & E3). set (r'' := r' <| ia_ids := _ |>). assert (record_ok r'') as Hr''.
      { unfold r''. split_and!; cbn; rewrite E2; [|apply Forall_app; split; [done|constructor; [unfold is_u32 in *; lia|constructor]]|rewrite length_app; cbn; lia].
        apply NoDup_app. split_and!; [done| |apply NoDup_singleton]. intros y Hy ->%list_elem_of_singleton. done. }
      exists (<[i := r'']> s1), (s32 x). split_and!; [done|by apply (update_ok _ _ r)|]. left. exists x. split_and!; [done..| |].
      * intros y [Hy Hny]. apply Z.nlt_ge. intros Hlt. apply Hny. rewrite <- Hids. apply Hleast. lia.
      * intros j. rewrite (given_update _ _ r) by done. rewrite He, Hg. case_decide; [|done]. cbn. by rewrite E2, Hids.
    + exists s1, (-12). split_and!; [done..|]. right. split; [done|]. right. split; [done|]. destruct (al_ids al) eqn:Ea; [|auto]. right. right. apply Z.nle_gt. intros Hcap. apply (ensure_succeeds al r); [done| |done].
      split; [done|]. unfold capacity in Hcap. unfold ida_record_for in E. rewrite (proj2 (Z.eqb_neq ida 0)) in E by done. destruct (find_ida ida s) as [[j q]|]; [by injection E as _ _ <-|]. destruct (al_record al); [|done]. injection E as _ _ <-. done.
  - exists s1, (-28). split_and!; [done..|]. right. split; [done|]. left. split; [done|]. intros y [Hy Hny]. apply Hny. rewrite <- Hids. by apply Hs.
Qed.
Definition ida_sample : ida_state := [mk_ida 0x700 [3] 8; mk_ida 0x900 [5; 7; 6] 8].
Lemma ida_sample_ok : ida_ok ida_sample.
Proof.
  split; [apply (bool_decide_unpack _); by vm_compute|]. repeat (constructor; [split; [done|split_and!; [apply (bool_decide_unpack _); by vm_compute|repeat constructor; done|cbn; lia]]|]). constructor.
Qed.
Lemma ida_refines_sets_witness : exists s', kb_ida_alloc_range 0x900 5 20 (mk_ida_allocs true true) ida_sample = Some (s', 8) /\ given s' 0x900 = [5; 7; 6; 8] /\ given s' 0x700 = [3].
Proof.
  destruct (ida_refines_sets 0x900 5 20 7 (mk_ida_allocs true true) ida_sample ida_sample_ok ltac:(done) ltac:(by vm_compute) ltac:(by vm_compute) ltac:(lia)) as [(s' & r & E & _ & H) _].
  assert (r = 8) as -> by (vm_compute in E; by injection E). exists s'. split; [exact E|]. destruct H as [(x & Ex & Hx & _ & Hg)|[_ [[? _]|[? _]]]]; [|done|done].
  assert (x = 8) as ->. { destruct Hx as [Hx _]. unfold s32 in Ex. rewrite Z.mod_small in Ex by lia. lia. }
  by rewrite !Hg.
Defined.

(** A destroyed allocator starts from nothing; the others keep theirs. *)
Theorem ida_destroy_forgets ida s : ida_ok s -> ida_ok (kb_ida_destroy ida s) /\ forall i, given (kb_ida_destroy ida s) i = if decide (i = ida) then [] else given s i.
Proof.
  intros Hok. unfold kb_ida_destroy. destruct (find_ida ida s) as [[k r]|] eqn:F.
  2: { split; [done|]. intros i. case_decide as E; [|done]. subst i. unfold given. by rewrite F. }
  apply find_ida_Some in F as [Hk He]. pose proof Hok as [Hnd Hall]. pose proof (delete_Permutation s k r Hk) as Hp.
  assert (ida_ok (r :: delete k s)) as Hok'. { split; [rewrite <- Hp; done|by rewrite <- Hp]. }
  assert (ida_ok (delete k s)) as Hok1. { destruct Hok' as [N A]. cbn in N. apply NoDup_cons in N as [_ N]. by apply Forall_cons in A as [_ A]. } split; [done|]. intros i.
  assert (forall j q, s !! j = Some q -> ia_ida q <> ida -> find_ida (ia_ida q) (delete k s) <> None) as Hfound.
  { intros j q Hj Hq. rewrite find_ida_None. intros H. apply H. assert (q ∈ r :: delete k s) as Hin by (rewrite <- Hp; by apply list_elem_of_lookup_2 with j). apply elem_of_cons in Hin as [->|Hin]; [congruence|]. apply list_elem_of_fmap. by exists q. }
  case_decide as E.
  - subst i. unfold given. rewrite (proj2 (find_ida_None ida _)); [done|]. destruct Hok' as [N _]. cbn in N. apply NoDup_cons in N as [N _]. by rewrite He in N.
  - unfold given. destruct (find_ida i s) as [[j q]|] eqn:F.
    + apply find_ida_Some in F as [Hj <-]. destruct (find_ida (ia_ida q) (delete k s)) as [[j' q']|] eqn:F'; [|by destruct (Hfound j q Hj)]. apply find_ida_Some in F' as [Hj' Hq'].
      assert (q' ∈ s) as Hin by (rewrite Hp; apply elem_of_cons; right; by apply list_elem_of_lookup_2 with j'). apply list_elem_of_lookup in Hin as [j2 Hj2].
      assert (j2 = j) as ->; [|congruence]. apply (NoDup_lookup _ _ _ (ia_ida q) Hnd); rewrite list_lookup_fmap; [by rewrite Hj2, <- Hq'|by rewrite Hj].
    + apply find_ida_None in F. rewrite (proj2 (find_ida_None i _)); [done|]. intros H. apply F. rewrite Hp. cbn. apply elem_of_cons. auto.
Qed.

(** An identifier of 2^31 or more comes back as a negative number, which callers take for an
    error, though it is given out: asked twice from there on, the allocator gives out two. *)
Theorem high_ids_look_like_errors :
  match kb_ida_simple_get 0x900 0x80000000 0 (mk_ida_allocs true true) [] with
  | Some (s, r) => r = -0x80000000 /\ given s 0x900 = [0x80000000] /\
      match kb_ida_simple_get 0x900 0x80000000 0 (mk_ida_allocs true true) s with Some (s, r) => r = -0x7fffffff /\ given s 0x900 = [0x80000000; 0x80000001] | None => False end
  | None => False
  end.
Proof. by vm_compute. Qed.
