(* ===== verification/Pids.v ===== *)
(** * Process identifiers and signals (src/src/linux_personality/linux_stubs.c)

    A table of 64 synthetic pid objects, found by number and recycled when nobody can still
    hold them, and rings of the 64 latest signals to process groups and to tasks.  The second
    part shows that a pid in use is never recycled, so that a pending signal goes to the
    number it was sent to, and that signals are taken in the order they were sent. *)

From S2P Require Import Prelude Memory.

(** ** The code *)

Definition KB_STUB_TASK_FLAGS_OFFSET : Z := 0x0.
Definition KB_STUB_TASK_PID_LINKS_OFFSET : Z := 0x638.
Definition KB_STUB_TASK_PID_LINK_STRIDE : Z := 0x10.
Definition KB_STUB_PID_TYPE_COUNT : nat := 4.
Definition KB_STUB_TIF_SIGPENDING_BIT : Z := 2.
Definition STUB_PIDS : nat := 64.
Definition PENDING_SIGNALS : Z := 64.

(** A pid; [pi_tasks] are the four task links, 0 for none. *)
Record kb_stub_pid := mk_pid { pi_count : Z; pi_level : Z; pi_tasks : list Z; pi_nr : Z; pi_task : Z; pi_last_used : Z }.
#[export] Instance pid_eta : Settable kb_stub_pid := fun p => mk_pid (pi_count p) (pi_level p) (pi_tasks p) (pi_nr p) (pi_task p) (pi_last_used p).
Definition no_pid : kb_stub_pid := mk_pid 0 0 (replicate KB_STUB_PID_TYPE_COUNT 0) 0 0 0.

(** A pid is named by its place in the table, [None] being a null pointer. *)
Record kb_pending_pgrp_signal := mk_pgrp_signal { sg_pgrp : option nat; sg_sig : Z; sg_priv : Z; sg_sequence : Z }.
Definition no_pgrp_signal : kb_pending_pgrp_signal := mk_pgrp_signal None 0 0 0.
Record kb_pending_task_signal := mk_task_signal { st_task : Z; st_info : Z; st_sig : Z; st_type : Z; st_sequence : Z }.
Definition no_task_signal : kb_pending_task_signal := mk_task_signal 0 0 0 0 0.

Record pid_state := mk_pid_state {
  stub_pids : list kb_stub_pid;
  stub_pid_use_sequence : Z;
  pending_pgrp_signals : list kb_pending_pgrp_signal;
  pending_pgrp_signal_sequence : Z;
  pending_task_signals : list kb_pending_task_signal;
  pending_task_signal_sequence : Z;
  pd_mem : mem;                              (* the tasks *)
}.
#[export] Instance pid_state_eta : Settable pid_state := fun s => mk_pid_state (stub_pids s) (stub_pid_use_sequence s)
  (pending_pgrp_signals s) (pending_pgrp_signal_sequence s) (pending_task_signals s) (pending_task_signal_sequence s) (pd_mem s).
Definition pid_init (m : mem) : pid_state :=
  mk_pid_state (replicate STUB_PIDS no_pid) 0 (replicate 64 no_pgrp_signal) 0 (replicate 64 no_task_signal) 0 m.

Section pids.
(** The current task of the active module, and where the table of pids is. *)
Context (current_task : Z) (stub_pids_address : Z).
Implicit Types s : pid_state.

Definition task_flags (task : Z) (m : mem) : Z := mload64 m (task + KB_STUB_TASK_FLAGS_OFFSET).
Definition kb_mark_task_signal_pending (task : Z) s : pid_state :=
  let task := if task =? 0 then current_task else task in
  if task =? 0 then s
  else s <| pd_mem ::= fun m => mstore64 m (task + KB_STUB_TASK_FLAGS_OFFSET) (Z.lor (task_flags task m) (Z.shiftl 1 KB_STUB_TIF_SIGPENDING_BIT)) |>.
Definition kb_clear_task_signal_pending (task : Z) s : pid_state :=
  if task =? 0 then s
  else s <| pd_mem ::= fun m => mstore64 m (task + KB_STUB_TASK_FLAGS_OFFSET) (Z.ldiff (task_flags task m) (Z.shiftl 1 KB_STUB_TIF_SIGPENDING_BIT)) |>.
Definition kb_clear_current_signal_pending s : pid_state := kb_clear_task_signal_pending current_task s.

Definition new_pid (nr use : Z) : kb_stub_pid := mk_pid 1 0 (replicate KB_STUB_PID_TYPE_COUNT 0) nr current_task use.

(** *** Finding a pid *)

Definition pid_linked (p : kb_stub_pid) : bool := existsb (fun t => negb (t =? 0)) (pi_tasks p).
Definition pid_pending (i : nat) s : bool :=
  existsb (fun g => negb (sg_sequence g =? 0) && bool_decide (sg_pgrp g = Some i)) (pending_pgrp_signals s).
(** One candidate for being recycled against the best so far. *)
Definition consider s (reclaim : option (nat * kb_stub_pid)) (candidate : nat * kb_stub_pid) : option (nat * kb_stub_pid) :=
  let '(i, p) := candidate in
  if negb (pi_count p =? 1) then reclaim
  else if pid_linked p then reclaim
  else if pid_pending i s || match reclaim with Some (_, r) => pi_last_used r <=? pi_last_used p | None => false end then reclaim
  else Some candidate.

Definition kb_find_vpid (nr : Z) s : pid_state * option nat :=
  if nr <=? 0 then (s, None)
  else
    let use := u64 (stub_pid_use_sequence s + 1) in
    match list_find (fun p => pi_nr p = nr) (stub_pids s) with
    | Some (i, p) =>
        let p := p <| pi_last_used := use |> in
        let p := if pi_task p =? 0 then p <| pi_task := current_task |> else p in
        (s <| stub_pid_use_sequence := use |> <| stub_pids ::= <[i := p]> |>, Some i)
    | None =>
        match list_find (fun p => pi_nr p = 0) (stub_pids s) with
        | Some (i, _) => (s <| stub_pid_use_sequence := use |> <| stub_pids ::= <[i := new_pid nr use]> |>, Some i)
        | None =>
            match foldl (consider s) None (imap pair (stub_pids s)) with
            | Some (i, _) => (s <| stub_pid_use_sequence := use |> <| stub_pids ::= <[i := new_pid nr use]> |>, Some i)
            | None => (s, None)
            end
        end
    end.

(** The module's get_pid() is an inline function that counts up. *)
Definition kb_put_pid (pid : option nat) s : pid_state :=
  match pid with
  | None => s
  | Some i => s <| stub_pids ::= alter (fun p => if 1 <? pi_count p then p <| pi_count ::= fun c => c - 1 |> else p) i |>
  end.

(** The address of a task link within the table; a pid takes 72 bytes. *)
Definition tasks_address (i type : nat) : Z := stub_pids_address + 72 * Z.of_nat i + 16 + 8 * Z.of_nat type.
Definition kb_pid_task (pid : option nat) (type : Z) s : pid_state * Z :=
  match pid ≫= fun i => pair i <$> stub_pids s !! i with
  | None => (s, 0)
  | Some (i, p) =>
      let task := if pi_task p =? 0 then current_task else pi_task p in
      let s := s <| stub_pids ::= <[i := p <| pi_task := task |>]> |> in
      if negb (task =? 0) && (0 <=? type) && (type <? Z.of_nat KB_STUB_PID_TYPE_COUNT) then
        let t := Z.to_nat type in
        let node := task + KB_STUB_TASK_PID_LINKS_OFFSET + type * KB_STUB_TASK_PID_LINK_STRIDE in
        let unlink q := if nth t (pi_tasks q) 0 =? node then q <| pi_tasks ::= <[t := 0]> |> else q in
        let s := s <| stub_pids ::= fmap unlink |> in
        let s := s <| pd_mem ::= fun m => mstore64 (mstore64 m node 0) (node + 8) (tasks_address i t) |> in
        (s <| stub_pids ::= alter (fun q => q <| pi_tasks ::= <[t := node]> |>) i |>, task)
      else (s, task)
  end.
Definition kb_pid_vnr (pid : option nat) s : Z := match pid ≫= fun i => stub_pids s !! i with None => 0 | Some p => pi_nr p end.

(** *** Signals *)

Definition pid_task_of (pid : option nat) s : Z := match pid ≫= fun i => stub_pids s !! i with None => 0 | Some p => pi_task p end.
Definition kb_kill_pgrp (pgrp : option nat) (sig priv : Z) s : pid_state * Z :=
  if (sig <? 0) || (64 <? sig) then (s, -22)
  else
    let sequence := u64 (pending_pgrp_signal_sequence s + 1) in
    let s := s <| pending_pgrp_signal_sequence := sequence |>
               <| pending_pgrp_signals ::= <[Z.to_nat (sequence mod PENDING_SIGNALS) := mk_pgrp_signal pgrp sig priv sequence]> |> in
    (kb_mark_task_signal_pending (pid_task_of pgrp s) s, 0).

(** The oldest signal after [since]. *)
Definition select (since : Z) (selected : option (nat * kb_pending_pgrp_signal)) (candidate : nat * kb_pending_pgrp_signal) : option (nat * kb_pending_pgrp_signal) :=
  let '(i, g) := candidate in
  if (sg_sequence g =? 0) || (sg_sequence g <=? since) then selected
  else match selected with
       | None => Some candidate
       | Some (_, b) => if sg_sequence g <? sg_sequence b then Some candidate else selected
       end.
Record taken := mk_taken { tk_pgrp : Z; tk_sig : Z; tk_sequence : Z }.
(** The three results are not null. *)
Definition kb_take_pending_pgrp_signal (since : Z) s : pid_state * taken * Z :=
  match foldl (select since) None (imap pair (pending_pgrp_signals s)) with
  | None => (s, mk_taken 0 0 (pending_pgrp_signal_sequence s), 0)
  | Some (i, g) =>
      if bool_decide (sg_pgrp g = None) || (kb_pid_vnr (sg_pgrp g) s <=? 0) then (s, mk_taken 0 0 (sg_sequence g), 0)
      else
        let result := mk_taken (kb_pid_vnr (sg_pgrp g) s) (sg_sig g) (sg_sequence g) in
        let s := kb_clear_task_signal_pending (pid_task_of (sg_pgrp g) s) s in
        (s <| pending_pgrp_signals ::= <[i := no_pgrp_signal]> |>, result, 1)
  end.

Definition kb_record_task_signal (sig info task type : Z) s : pid_state * Z :=
  if (sig <? 0) || (64 <? sig) then (s, -22)
  else
    let sequence := u64 (pending_task_signal_sequence s + 1) in
    let s := s <| pending_task_signal_sequence := sequence |>
               <| pending_task_signals ::= <[Z.to_nat (sequence mod PENDING_SIGNALS) := mk_task_signal task info sig type sequence]> |> in
    (kb_mark_task_signal_pending task s, 0).
Definition kb_group_send_sig_info (sig info task type : Z) s : pid_state * Z := kb_record_task_signal sig info task type s.
Definition kb_send_signal_locked (sig info task type : Z) s : pid_state * Z := kb_record_task_signal sig info task type s.
End pids.

(** ** Pids in use *)

Lemma elem_of_imap_pair {A} (l : list A) i p : (i, p) ∈ imap pair l <-> l !! i = Some p.
Proof.
  rewrite list_elem_of_lookup. setoid_rewrite list_lookup_imap. split.
  - intros [j H]. destruct (l !! j) as [q|] eqn:E; [|done]. by injection H as -> ->.
  - intros H. exists i. by rewrite H.
Qed.

(** Nobody can hold it: only the table counts it, no task is linked, no signal is pending. *)
Definition recyclable (s : pid_state) (i : nat) (p : kb_stub_pid) : bool := (pi_count p =? 1) && negb (pid_linked p) && negb (pid_pending i s).
Lemma consider_spec s l :
  match foldl (consider s) None l with
  | Some (i, p) => (i, p) ∈ l /\ recyclable s i p = true /\ forall j q, (j, q) ∈ l -> recyclable s j q = true -> pi_last_used p <= pi_last_used q
  | None => forall j q, (j, q) ∈ l -> recyclable s j q = false
  end.
Proof.
  induction l as [|[j q] l IH] using rev_ind; [intros j q H; by apply elem_of_nil in H|]. rewrite foldl_app. cbn [foldl].
  assert (consider s (foldl (consider s) None l) (j, q) =
    if recyclable s j q && negb match foldl (consider s) None l with Some (_, r) => pi_last_used r <=? pi_last_used q | None => false end then Some (j, q) else foldl (consider s) None l) as ->.
  { unfold consider at 1, recyclable. destruct (pi_count q =? 1), (pid_linked q), (pid_pending j s); cbn; try done. destruct (foldl (consider s) None l) as [[i p]|]; [by destruct (_ <=? _)|done]. }
  destruct (foldl (consider s) None l) as [[i p]|]; destruct (recyclable s j q) eqn:Er; cbn [andb].
  - destruct IH as (H1 & H2 & H3). destruct (Z.leb_spec (pi_last_used p) (pi_last_used q)); cbn [negb].
    + split_and!; [apply elem_of_app; auto|done|]. intros k x [Hx|[= -> ->]%list_elem_of_singleton]%elem_of_app Hr; [by apply (H3 k)|lia].
    + split_and!; [apply elem_of_app; right; by apply list_elem_of_singleton|done|]. intros k x [Hx|[= -> ->]%list_elem_of_singleton]%elem_of_app Hr; [|lia]. specialize (H3 k x Hx Hr). lia.
  - destruct IH as (H1 & H2 & H3). split_and!; [apply elem_of_app; auto|done|]. intros k x [Hx|[= -> ->]%list_elem_of_singleton]%elem_of_app Hr; [by apply (H3 k)|congruence].
  - cbn [negb]. split_and!; [apply elem_of_app; right; by apply list_elem_of_singleton|done|]. intros k x [Hx|[= -> ->]%list_elem_of_singleton]%elem_of_app Hr; [|lia]. by rewrite (IH k x Hx) in Hr.
  - intros k x [Hx|[= -> ->]%list_elem_of_singleton]%elem_of_app; [by apply IH|done].
Qed.

(** Numbers in the table are those of different pids. *)
Definition pids_ok (s : pid_state) : Prop :=
  length (stub_pids s) = STUB_PIDS /\
  (forall i p, stub_pids s !! i = Some p -> 0 <= pi_nr p) /\
  (forall i j p q, stub_pids s !! i = Some p -> stub_pids s !! j = Some q -> pi_nr p <> 0 -> pi_nr p = pi_nr q -> i = j).

Lemma pids_ok_insert s s' i p nr : pids_ok s -> stub_pids s' = <[i := p]> (stub_pids s) -> pi_nr p = nr -> 0 < nr ->
  (forall j q, stub_pids s !! j = Some q -> pi_nr q = nr -> j = i) -> pids_ok s'.
Proof.
  intros (Hl & Hn & Hu) E Hp Hnr Hi. split_and!; [by rewrite E, length_insert|..]; rewrite E.
  - intros j q H. apply list_lookup_insert_Some in H as [(-> & <- & _)|[_ H]]; [lia|by apply (Hn j)].
  - intros j k q r H1 H2 H0 Hqr. apply list_lookup_insert_Some in H1 as [(-> & <- & _)|[N1 H1]], H2 as [(-> & <- & _)|[N2 H2]]; [done|..].
    + symmetry. apply (Hi k r H2). congruence.
    + apply (Hi j q H1). congruence.
    + by apply (Hu j k q r).
Qed.

Section theorems.
Context (current_task stub_pids_address : Z).

(** Finding a pid gives the object of that number, and no object that somebody may hold
    becomes another pid: what was found or made is the old object of the number, or takes the
    place of a free one, or of one that only the table counts, no task is linked to and no
    signal is pending for, the least recently used of those.  All others stay as they are,
    and nothing is found only when all 64 are other pids in use. *)
Lemma find_vpid_spec nr s : pids_ok s -> 0 < nr ->
  let '(s', r) := kb_find_vpid current_task nr s in
  pids_ok s' /\ pending_pgrp_signals s' = pending_pgrp_signals s /\
  match r with
  | Some i =>
      exists p p', stub_pids s !! i = Some p /\ stub_pids s' !! i = Some p' /\ pi_nr p' = nr /\ (forall j, j <> i -> stub_pids s' !! j = stub_pids s !! j) /\
      ((pi_nr p = nr /\ pi_count p' = pi_count p /\ pi_tasks p' = pi_tasks p) \/
       pi_nr p = 0 \/
       (recyclable s i p = true /\ (forall j q, stub_pids s !! j = Some q -> recyclable s j q = true -> pi_last_used p <= pi_last_used q)))
  | None => s' = s /\ forall i p, stub_pids s !! i = Some p -> pi_nr p <> 0 /\ pi_nr p <> nr /\ recyclable s i p = false
  end.
Proof.
  intros Hok Hnr. unfold kb_find_vpid. rewrite (proj2 (Z.leb_gt nr 0)) by done. set (use := u64 _).
  destruct (list_find (fun p => pi_nr p = nr) (stub_pids s)) as [[i p]|] eqn:E1.
  - apply list_find_Some in E1 as (Hi & Hp & _). set (p' := if _ =? 0 then _ else _). assert (pi_nr p' = nr /\ pi_count p' = pi_count p /\ pi_tasks p' = pi_tasks p) as (Hp' & Hc & Ht) by (unfold p'; by case_match).
    pose proof (lookup_lt_Some _ _ _ Hi) as Hlt. split_and!; [|done|].
    + eapply pids_ok_insert; [done|done|done|done|]. intros j q Hj Hq. destruct Hok as (_ & _ & Hu). apply (Hu j i q p); [done..|lia|congruence].
    + exists p, p'. split_and!; [done|by apply list_lookup_insert_eq|done|intros j Hj; by apply list_lookup_insert_ne|]. auto.
  - apply list_find_None in E1. rewrite Forall_lookup in E1. assert (forall i p, stub_pids s !! i = Some p -> pids_ok (s <| stub_pid_use_sequence := use |> <| stub_pids ::= <[i := new_pid current_task nr use]> |>)) as Hins.
    { intros i p Hi. eapply pids_ok_insert; [done|done|done|done|]. intros j q Hj Hq. by destruct (E1 j q Hj). }
    destruct (list_find (fun p => pi_nr p = 0) (stub_pids s)) as [[i p]|] eqn:E2.
    + apply list_find_Some in E2 as (Hi & Hp & _). pose proof (lookup_lt_Some _ _ _ Hi) as Hlt. split_and!; [by apply (Hins i p)|done|]. exists p, (new_pid current_task nr use).
      split_and!; [done|by apply list_lookup_insert_eq|done|intros j Hj; by apply list_lookup_insert_ne|]. auto.
    + apply list_find_None in E2. rewrite Forall_lookup in E2. pose proof (consider_spec s (imap pair (stub_pids s))) as Hc. destruct (foldl _ None _) as [[i p]|].
      * destruct Hc as (Hi%elem_of_imap_pair & Hr & Hmin). pose proof (lookup_lt_Some _ _ _ Hi) as Hlt. split_and!; [by apply (Hins i p)|done|]. exists p, (new_pid current_task nr use).
        split_and!; [done|by apply list_lookup_insert_eq|done|intros j Hj; by apply list_lookup_insert_ne|]. right. right. split; [done|]. intros j q Hj. by apply (Hmin j), elem_of_imap_pair.
      * split_and!; [done..|]. intros i p Hi. split_and!; [by apply (E2 i)|by apply (E1 i)|by apply (Hc i), elem_of_imap_pair].
Qed.
End theorems.

(** ** Signals reach the number they were sent to *)

Lemma select_spec since l :
  match foldl (select since) None l with
  | Some (i, g) => (i, g) ∈ l /\ sg_sequence g <> 0 /\ since < sg_sequence g /\ forall j h, (j, h) ∈ l -> sg_sequence h <> 0 -> since < sg_sequence h -> sg_sequence g <= sg_sequence h
  | None => forall j h, (j, h) ∈ l -> sg_sequence h = 0 \/ sg_sequence h <= since
  end.
Proof.
  induction l as [|[j h] l IH] using rev_ind; [intros j h H; by apply elem_of_nil in H|]. rewrite foldl_app. cbn [foldl]. unfold select at 1.
  destruct (Z.eqb_spec (sg_sequence h) 0) as [H0|H0]; cbn [orb]; [|destruct (Z.leb_spec (sg_sequence h) since) as [H1|H1]].
  1, 2: destruct (foldl (select since) None l) as [[i g]|]; [destruct IH as (I1 & I2 & I3 & I4); split_and!; [apply elem_of_app; auto|done..|]|];
    intros k x [Hx|[= -> ->]%list_elem_of_singleton]%elem_of_app; first [by apply (I4 k)|by apply (IH k)|intros; lia|auto].
  destruct (foldl (select since) None l) as [[i g]|].
  - destruct IH as (I1 & I2 & I3 & I4). destruct (Z.ltb_spec (sg_sequence h) (sg_sequence g)); (split_and!; [apply elem_of_app; auto; right; by apply list_elem_of_singleton|done..|]);
      intros k x [Hx|[= -> ->]%list_elem_of_singleton]%elem_of_app Hk1 Hk2; try lia; specialize (I4 k x Hx Hk1 Hk2); lia.
  - split_and!; [apply elem_of_app; right; by apply list_elem_of_singleton|done..|]. intros k x [Hx|[= -> ->]%list_elem_of_singleton]%elem_of_app Hk1 Hk2; [|lia]. destruct (IH k x Hx); [done|lia].
Qed.

(** The slot of a signal is given by its number, and the ring holds the latest 64. *)
Definition signals_ok (s : pid_state) : Prop :=
  length (pending_pgrp_signals s) = 64%nat /\ 0 <= pending_pgrp_signal_sequence s /\
  forall i g, pending_pgrp_signals s !! i = Some g -> sg_sequence g <> 0 ->
    0 < sg_sequence g <= pending_pgrp_signal_sequence s /\ pending_pgrp_signal_sequence s - sg_sequence g < 64 /\ Z.to_nat (sg_sequence g mod 64) = i.

(** Signal [q] is waiting for pid object [i], of number [n]. *)
Definition waiting (s : pid_state) (q : Z) (i : nat) (n sig : Z) : Prop :=
  q <> 0 /\ 0 < n /\ (exists priv, pending_pgrp_signals s !! Z.to_nat (q mod 64) = Some (mk_pgrp_signal (Some i) sig priv q)) /\ kb_pid_vnr (Some i) s = n.

(** What a module and its host do. *)
Inductive pid_op :=
  | OpFind (nr : Z) | OpGet (i : nat) | OpPut (pid : option nat) | OpTask (pid : option nat) (type : Z)
  | OpKill (pgrp : option nat) (sig priv : Z) | OpTake (since : Z) | OpTaskSignal (sig info task type : Z) | OpClear.

Section run.
Context (current_task stub_pids_address : Z).
Definition run_op (op : pid_op) (s : pid_state) : pid_state * list taken :=
  match op with
  | OpFind nr => ((kb_find_vpid current_task nr s).1, [])
  | OpGet i => (s <| stub_pids ::= alter (fun p => p <| pi_count ::= fun c => c + 1 |>) i |>, [])
  | OpPut pid => (kb_put_pid pid s, [])
  | OpTask pid type => ((kb_pid_task current_task stub_pids_address pid type s).1, [])
  | OpKill pgrp sig priv => ((kb_kill_pgrp current_task pgrp sig priv s).1, [])
  | OpTake since => let '(s, t, r) := kb_take_pending_pgrp_signal since s in (s, if r =? 1 then [t] else [])
  | OpTaskSignal sig info task type => ((kb_record_task_signal current_task sig info task type s).1, [])
  | OpClear => (kb_clear_current_signal_pending current_task s, [])
  end.
Fixpoint run_ops (ops : list pid_op) (s : pid_state) : pid_state * list taken :=
  match ops with [] => (s, []) | op :: ops => let '(s, t) := run_op op s in let '(s, t') := run_ops ops s in (s, t ++ t') end.

(** Numbers are kept by everything but finding. *)
Definition same_pids (s s' : pid_state) : Prop := pi_nr <$> stub_pids s' = pi_nr <$> stub_pids s.
Definition same_signals (s s' : pid_state) : Prop :=
  pending_pgrp_signals s' = pending_pgrp_signals s /\ pending_pgrp_signal_sequence s' = pending_pgrp_signal_sequence s.

Lemma nr_alter f (i : nat) (l : list kb_stub_pid) : (forall p : kb_stub_pid, pi_nr (f p) = pi_nr p) -> pi_nr <$> alter f i l = pi_nr <$> l.
Proof.
  intros H. apply list_eq. intros j. rewrite !list_lookup_fmap. destruct (decide (i = j)) as [->|Hne]; [|by rewrite list_lookup_alter_ne].
  rewrite list_lookup_alter_eq. destruct (l !! j); cbn; [by rewrite H|done].
Qed.
Lemma same_pids_ok s s' : same_pids s s' -> pids_ok s -> pids_ok s'.
Proof.
  unfold same_pids. intros E (Hl & Hn & Hu).
  assert (forall i p', stub_pids s' !! i = Some p' -> exists p, stub_pids s !! i = Some p /\ pi_nr p = pi_nr p') as Hb.
  { intros i p' H. assert ((pi_nr <$> stub_pids s) !! i = Some (pi_nr p')) as H2 by (rewrite <- E, list_lookup_fmap, H; done). rewrite list_lookup_fmap in H2. destruct (stub_pids s !! i) as [p|]; [|done]. injection H2 as H2. by exists p. }
  split_and!.
  - by rewrite <- Hl, <- (length_fmap pi_nr (stub_pids s')), E, length_fmap.
  - intros i p' H. destruct (Hb i p' H) as (p & Hp & <-). by apply (Hn i).
  - intros i j p' q' H1 H2 H0 He. destruct (Hb i p' H1) as (p & Hp & Ep), (Hb j q' H2) as (q & Hq & Eq). apply (Hu i j p q); [done|done|congruence|congruence].
Qed.
Lemma same_vnr s s' i : same_pids s s' -> kb_pid_vnr (Some i) s' = kb_pid_vnr (Some i) s.
Proof.
  unfold same_pids, kb_pid_vnr. cbn. intros E. assert ((pi_nr <$> stub_pids s') !! i = (pi_nr <$> stub_pids s) !! i) as H by by rewrite E. rewrite !list_lookup_fmap in H.
  destruct (stub_pids s' !! i), (stub_pids s !! i); cbn in H; congruence.
Qed.
Lemma same_signals_ok s s' : same_signals s s' -> signals_ok s -> signals_ok s'.
Proof. unfold signals_ok. intros [-> ->]. done. Qed.
Lemma same_waiting s s' q i n sig : same_pids s s' -> same_signals s s' -> waiting s q i n sig -> waiting s' q i n sig.
Proof. intros Hp [Hs _] (H1 & H2 & H3 & H4). unfold waiting. rewrite Hs, (same_vnr s s') by done. done. Qed.
Lemma mark_same task s : same_pids s (kb_mark_task_signal_pending current_task task s) /\ same_signals s (kb_mark_task_signal_pending current_task task s).
Proof. unfold kb_mark_task_signal_pending, same_pids, same_signals. by destruct ((if task =? 0 then current_task else task) =? 0). Qed.
Lemma clear_same task s : same_pids s (kb_clear_task_signal_pending task s) /\ same_signals s (kb_clear_task_signal_pending task s).
Proof. unfold kb_clear_task_signal_pending, same_pids, same_signals. by destruct (task =? 0). Qed.

Lemma pid_task_same pid type s : same_pids s (kb_pid_task current_task stub_pids_address pid type s).1 /\ same_signals s (kb_pid_task current_task stub_pids_address pid type s).1.
Proof.
  unfold kb_pid_task. destruct (pid ≫= _) as [[i p]|] eqn:E; [|done]. destruct pid as [i'|]; [|done]. cbn in E. destruct (stub_pids s !! i') as [p'|] eqn:Hi; [|done]. injection E as -> ->.
  assert (forall v, pi_nr <$> <[i := p <| pi_task := v |>]> (stub_pids s) = pi_nr <$> stub_pids s) as H1.
  { intros v. rewrite list_fmap_insert. cbn. apply list_insert_id. by rewrite list_lookup_fmap, Hi. }
  set (task := if _ =? 0 then _ else _). destruct (negb (task =? 0) && (0 <=? type) && (type <? _)); [|split; [apply H1|done]].
  split; [|done]. unfold same_pids. cbn. rewrite nr_alter by done. rewrite <- list_fmap_compose, <- (H1 task). apply list_fmap_ext. intros k q _. cbn. by case_match.
Qed.

Lemma find_waiting nr s : pids_ok s -> 0 < nr -> (forall q i n sig, waiting s q i n sig -> waiting (kb_find_vpid current_task nr s).1 q i n sig) /\ pids_ok (kb_find_vpid current_task nr s).1.
Proof.
  intros Hok Hnr. pose proof (find_vpid_spec current_task nr s Hok Hnr) as H. destruct (kb_find_vpid current_task nr s) as [s' r]. cbn [fst]. destruct H as (Hok' & Hsig & H). split; [|done]. intros q i n sig Hw.
  destruct r as [j|]; [|by destruct H as [-> _]]. destruct H as (p & p' & Hj & Hj' & Hnr' & Hother & Hcase). destruct Hw as (H0 & Hn & (priv & Hslot) & Hv). unfold waiting. rewrite Hsig. split_and!; [done..|by exists priv|].
  unfold kb_pid_vnr in *. cbn in *. destruct (decide (i = j)) as [->|Hne]; [|by rewrite Hother]. rewrite Hj in Hv. rewrite Hj'. destruct Hcase as [(E & _)|[E|[E _]]]; [lia|lia|]. exfalso.
  unfold recyclable in E. apply andb_true_iff in E as [_ E]. apply negb_true_iff in E. apply not_true_iff_false in E. apply E. unfold pid_pending. apply existsb_exists. exists (mk_pgrp_signal (Some j) sig priv q).
  split; [apply list_elem_of_In; by apply list_elem_of_lookup_2 with (Z.to_nat (q mod 64))|]. cbn [sg_sequence sg_pgrp]. by rewrite (proj2 (Z.eqb_neq q 0)), bool_decide_true.
Qed.

Lemma kill_waiting pgrp sg priv s : signals_ok s -> pending_pgrp_signal_sequence s + 1 < 2 ^ 64 ->
  let s' := (kb_kill_pgrp current_task pgrp sg priv s).1 in
  same_pids s s' /\ signals_ok s' /\ pending_pgrp_signal_sequence s <= pending_pgrp_signal_sequence s' <= pending_pgrp_signal_sequence s + 1 /\
  forall q i n sig, waiting s q i n sig -> waiting s' q i n sig \/ pending_pgrp_signal_sequence s' = q + 64.
Proof.
  intros Hok Hb. unfold kb_kill_pgrp. destruct ((sg <? 0) || (64 <? sg)); cbn [fst]; [split_and!; [done|done|lia|lia|by left]|]. destruct Hok as (Hl & H0 & Hslots).
  set (c := pending_pgrp_signal_sequence s) in *. rewrite u64_small by (unfold is_u64; change (2 ^ 64) with 0x10000000000000000 in Hb; lia). set (k := Z.to_nat ((c + 1) mod PENDING_SIGNALS)). set (g := mk_pgrp_signal pgrp sg priv (c + 1)).
  set (s1 := s <| _ := _ |> <| pending_pgrp_signals ::= _ |>). destruct (mark_same (pid_task_of pgrp s1) s1) as [Mp Ms]. set (s' := kb_mark_task_signal_pending _ _ s1) in *.
  assert (pending_pgrp_signals s' = <[k := g]> (pending_pgrp_signals s) /\ pending_pgrp_signal_sequence s' = c + 1) as [E1 E2] by (destruct Ms as [-> ->]; done).
  assert (same_pids s s') as Hp by exact Mp. unfold PENDING_SIGNALS in k. assert (k < 64)%nat as Hk by (unfold k; pose proof (Z.mod_pos_bound (c + 1) 64); lia).
  split_and!; [done| |lia|lia|].
  - split_and!; [by rewrite E1, length_insert|lia|]. rewrite E1, E2. intros j h Hj Hh. apply list_lookup_insert_Some in Hj as [(<- & <- & _)|[Hne Hj]]; [cbn; split_and!; [lia|lia|lia|done]|].
    destruct (Hslots j h Hj Hh) as (A1 & A2 & A3). split_and!; [lia|lia| |done]. destruct (decide (c + 1 - sg_sequence h = 64)) as [E|]; [|lia]. exfalso. apply Hne. rewrite <- A3. unfold k. f_equal.
    replace (c + 1) with (sg_sequence h + 1 * 64) by lia. by rewrite Z.mod_add.
  - intros q i n sig (Hq & Hn & (pr & Hs) & Hv). destruct (Hslots _ _ Hs Hq) as (A1 & A2 & A3). cbn [sg_sequence] in *. destruct (decide (k = Z.to_nat (q mod 64))) as [E|Hne].
    + right. rewrite E2. unfold k in E. assert ((c + 1) mod 64 = q mod 64) as Em by (pose proof (Z.mod_pos_bound (c + 1) 64); pose proof (Z.mod_pos_bound q 64); lia).
      pose proof (Z.div_mod (c + 1) 64). pose proof (Z.div_mod q 64). lia.
    + left. unfold waiting. rewrite E1, (same_vnr s s') by done. split_and!; [done|done| |done]. exists pr. by rewrite list_lookup_insert_ne.
Qed.

Lemma take_waiting since s : signals_ok s ->
  let '(s', t, r) := kb_take_pending_pgrp_signal since s in
  same_pids s s' /\ signals_ok s' /\ pending_pgrp_signal_sequence s' = pending_pgrp_signal_sequence s /\
  forall q i n sig, waiting s q i n sig -> waiting s' q i n sig \/ (r = 1 /\ t = mk_taken n sig q).
Proof.
  intros Hok. unfold kb_take_pending_pgrp_signal. pose proof (select_spec since (imap pair (pending_pgrp_signals s))) as H. destruct (foldl (select since) None _) as [[k g]|]; [|split_and!; auto; done].
  destruct H as (Hk%elem_of_imap_pair & Hg & _ & _). destruct (bool_decide _ || _); [split_and!; auto; done|]. destruct (clear_same (pid_task_of (sg_pgrp g) s) s) as [Cp Cs]. set (s1 := kb_clear_task_signal_pending _ s) in *.
  destruct Hok as (Hl & H0 & Hslots). destruct Cs as [C1 C2]. pose proof (lookup_lt_Some _ _ _ Hk) as Hlt. split_and!; [done| |done|].
  - split_and!; cbn; [by rewrite C1, length_insert|by rewrite C2|]. rewrite C1, C2. intros j h Hj Hh. apply list_lookup_insert_Some in Hj as [(_ & <- & _)|[_ Hj]]; [done|by apply Hslots].
  - intros q i n sig (Hq & Hn & (pr & Hs) & Hv). destruct (decide (k = Z.to_nat (q mod 64))) as [->|Hne].
    + right. split; [done|]. rewrite Hs in Hk. injection Hk as <-. cbn [sg_pgrp sg_sig sg_sequence]. by rewrite Hv.
    + left. unfold waiting. cbn [pending_pgrp_signals]. split_and!; [done..| |]; [exists pr; cbn; rewrite C1; by rewrite list_lookup_insert_ne|]. rewrite <- Hv. apply (same_vnr s); exact Cp.
Qed.

Lemma step_lemma op s : pids_ok s -> signals_ok s -> pending_pgrp_signal_sequence s + 1 < 2 ^ 64 ->
  let '(s', t) := run_op op s in
  pids_ok s' /\ signals_ok s' /\ pending_pgrp_signal_sequence s <= pending_pgrp_signal_sequence s' <= pending_pgrp_signal_sequence s + 1 /\
  forall q i n sig, waiting s q i n sig -> waiting s' q i n sig \/ mk_taken n sig q ∈ t \/ pending_pgrp_signal_sequence s' = q + 64.
Proof.
  intros Hp Hs Hb. assert (forall s', same_pids s s' -> same_signals s s' -> pids_ok s' /\ signals_ok s' /\ pending_pgrp_signal_sequence s <= pending_pgrp_signal_sequence s' <= pending_pgrp_signal_sequence s + 1 /\
    forall q i n sig, waiting s q i n sig -> waiting s' q i n sig \/ mk_taken n sig q ∈ [] \/ pending_pgrp_signal_sequence s' = q + 64) as Hsame.
  { intros s' H1 H2. split_and!; [by apply (same_pids_ok s)|by apply (same_signals_ok s)|destruct H2 as [_ ->]; lia|destruct H2 as [_ ->]; lia|intros; left; by apply (same_waiting s)]. }
  destruct op as [nr|j|pid|pid type|pgrp sg priv|since|sg info task type|]; cbn [run_op].
  - destruct (decide (0 < nr)) as [Hnr|Hnr]; [|unfold kb_find_vpid; rewrite (proj2 (Z.leb_le _ _)) by lia; by apply Hsame]. destruct (find_waiting nr s Hp Hnr) as [W O].
    assert (same_signals s (kb_find_vpid current_task nr s).1) as Hss by (unfold kb_find_vpid; rewrite (proj2 (Z.leb_gt _ _)) by lia; repeat (case_match; try done)).
    split_and!; [done|by apply (same_signals_ok s)|destruct Hss as [_ ->]; lia|destruct Hss as [_ ->]; lia|by left; apply W].
  - apply Hsame; [|done]. unfold same_pids. cbn. by apply nr_alter.
  - apply Hsame; destruct pid as [j|]; try done. unfold same_pids. cbn. apply nr_alter. intros p. by case_match.
  - destruct (pid_task_same pid type s) as [H1 H2]. by apply Hsame.
  - destruct (kill_waiting pgrp sg priv s Hs Hb) as (H1 & H2 & H3 & H4). split_and!; [by apply (same_pids_ok s)|done|lia|lia|]. intros q i n sig Hw. destruct (H4 q i n sig Hw); auto.
  - pose proof (take_waiting since s Hs) as H. destruct (kb_take_pending_pgrp_signal since s) as [[s' t] r]. destruct H as (H1 & H2 & H3 & H4). split_and!; [by apply (same_pids_ok s)|done|lia|lia|].
    intros q i n sig Hw. destruct (H4 q i n sig Hw) as [?|[-> ->]]; [by left|]. right. left. cbn. apply elem_of_cons. auto.
  - unfold kb_record_task_signal. destruct ((sg <? 0) || (64 <? sg)); cbn [fst]; [by apply Hsame|]. match goal with |- context [kb_mark_task_signal_pending _ _ ?x] => destruct (mark_same task x) as [[= M1] [M2 M3]] end. apply Hsame; [done|]. by split.
  - unfold kb_clear_current_signal_pending. destruct (clear_same current_task s) as [M1 M2]. by apply Hsame.
Qed.

Lemma run_lemma ops : forall s, pids_ok s -> signals_ok s -> pending_pgrp_signal_sequence s + Z.of_nat (length ops) < 2 ^ 64 ->
  let '(s', t) := run_ops ops s in
  pending_pgrp_signal_sequence s <= pending_pgrp_signal_sequence s' /\
  forall q i n sig, waiting s q i n sig \/ q + 64 <= pending_pgrp_signal_sequence s -> waiting s' q i n sig \/ mk_taken n sig q ∈ t \/ q + 64 <= pending_pgrp_signal_sequence s'.
Proof.
  induction ops as [|op ops IH]; intros s Hp Hs Hb; cbn [run_ops]; [split; [lia|tauto]|]. cbn [length] in Hb. pose proof (step_lemma op s Hp Hs ltac:(lia)) as Hstep.
  destruct (run_op op s) as [s1 t1]. destruct Hstep as (Hp1 & Hs1 & Hle & Hstep). specialize (IH s1 Hp1 Hs1 ltac:(lia)). destruct (run_ops ops s1) as [s2 t2]. destruct IH as [Hle2 IH]. split; [lia|]. intros q i n sig [Hw|Hq].
  - destruct (Hstep q i n sig Hw) as [H|[H|H]].
    + destruct (IH q i n sig (or_introl H)) as [?|[?|?]]; [auto| |auto]. right. left. apply elem_of_app. auto.
    + right. left. apply elem_of_app. auto.
    + right. right. lia.
  - right. right. lia.
Qed.

(** Somebody may hold the pid: it is counted by more than the table, a task is linked to it,
    or a signal for it is pending. *)
Definition in_use (s : pid_state) (j : nat) : Prop :=
  exists p, stub_pids s !! j = Some p /\ pi_nr p <> 0 /\
    (pi_count p <> 1 \/ (exists t, t ∈ pi_tasks p /\ t <> 0) \/ exists g, g ∈ pending_pgrp_signals s /\ sg_sequence g <> 0 /\ sg_pgrp g = Some j).
Lemma in_use_not_recyclable s j p : in_use s j -> stub_pids s !! j = Some p -> pi_nr p <> 0 /\ recyclable s j p = false.
Proof.
  intros (p' & Hp & Hn & H) Hj. rewrite Hp in Hj. injection Hj as ->. split; [done|]. unfold recyclable. destruct H as [H|[(t & Ht & H0)|(g & Hg & H0 & Hj)]].
  - by rewrite (proj2 (Z.eqb_neq _ _) H).
  - assert (pid_linked p = true) as ->; [|by rewrite andb_false_r]. unfold pid_linked. apply existsb_exists. exists t. split; [by apply list_elem_of_In|]. by rewrite (proj2 (Z.eqb_neq t 0)).
  - assert (pid_pending j s = true) as ->; [|by rewrite andb_false_r]. unfold pid_pending. apply existsb_exists. exists g. split; [by apply list_elem_of_In|]. by rewrite (proj2 (Z.eqb_neq _ 0)), bool_decide_true.
Qed.

Definition is_find (op : pid_op) : bool := match op with OpFind _ => true | _ => false end.
Lemma op_keeps_numbers op s : is_find op = false -> same_pids s (run_op op s).1.
Proof.
  destruct op as [nr|j|pid|pid type|pgrp sg priv|since|sg info task type|]; intros Hf; cbn [run_op fst]; [done|..].
  - unfold same_pids. cbn. by apply nr_alter.
  - destruct pid as [j|]; [|done]. unfold same_pids. cbn. apply nr_alter. intros p. by case_match.
  - apply pid_task_same.
  - unfold kb_kill_pgrp, kb_mark_task_signal_pending. destruct (_ || _); [done|]. cbn [fst]. by destruct (_ =? 0).
  - unfold kb_take_pending_pgrp_signal, kb_clear_task_signal_pending. destruct (foldl _ None _) as [[k g]|]; [|done]. destruct (_ || _); [done|]. by destruct (_ =? 0).
  - unfold kb_record_task_signal, kb_mark_task_signal_pending. destruct (_ || _); [done|]. cbn [fst]. by destruct (_ =? 0).
  - apply (clear_same _ s).
Qed.
(** Finding changes no pid in use, but its time of use and its task. *)
Lemma find_keeps_in_use nr s j p : pids_ok s -> in_use s j -> stub_pids s !! j = Some p ->
  exists p', stub_pids (kb_find_vpid current_task nr s).1 !! j = Some p' /\ pi_nr p' = pi_nr p /\ pi_count p' = pi_count p.
Proof.
  intros Hok Hu Hj. destruct (decide (0 < nr)) as [Hnr|Hnr]; [|unfold kb_find_vpid; rewrite (proj2 (Z.leb_le _ _)) by lia; by exists p].
  pose proof (find_vpid_spec current_task nr s Hok Hnr) as H. destruct (kb_find_vpid current_task nr s) as [s' [i|]]; cbn [fst]; [|destruct H as (_ & _ & -> & _); by exists p].
  destruct H as (_ & _ & q & q' & Hq & Hq' & Hn & Hother & Hcase). destruct (decide (j = i)) as [->|Hne]; [|rewrite Hother by done; by exists p]. rewrite Hj in Hq. injection Hq as <-.
  destruct (in_use_not_recyclable s i p Hu Hj) as [H0 Hr]. exists q'. destruct Hcase as [(E & Ec & _)|[E|[E _]]]; [|done|congruence]. split_and!; [done|congruence|done].
Qed.
Lemma in_use_keeps_number op s j : pids_ok s -> in_use s j -> kb_pid_vnr (Some j) (run_op op s).1 = kb_pid_vnr (Some j) s.
Proof.
  intros Hok Hu. destruct (is_find op) eqn:E; [|by apply same_vnr, op_keeps_numbers]. destruct op as [nr| | | | | | |]; try done. cbn [run_op fst]. pose proof Hu as (p & Hp & _).
  destruct (find_keeps_in_use nr s j p Hok Hu Hp) as (p' & Hp' & Hn & _). unfold kb_pid_vnr. cbn. by rewrite Hp, Hp'.
Qed.

(** How often a sequence gives pid [j] back. *)
Definition put_of (j : nat) (op : pid_op) : Z := match op with OpPut (Some i) => if decide (i = j) then 1 else 0 | _ => 0 end.
Fixpoint puts (j : nat) (ops : list pid_op) : Z := match ops with [] => 0 | op :: ops => put_of j op + puts j ops end.
Lemma puts_nonneg j ops : 0 <= puts j ops.
Proof. induction ops as [|op ops IH]; cbn; [done|]. unfold put_of. repeat case_match; lia. Qed.
Lemma alter_lookup (f : kb_stub_pid -> kb_stub_pid) (i j : nat) (l : list kb_stub_pid) p : l !! j = Some p -> alter f i l !! j = Some (if decide (i = j) then f p else p).
Proof. intros H. case_decide as E; [subst; by rewrite list_lookup_alter_eq, H|by rewrite list_lookup_alter_ne]. Qed.
(** A reference that is held is counted, and only giving it back counts down. *)
Lemma count_step op s j p : pids_ok s -> stub_pids s !! j = Some p -> pi_nr p <> 0 -> 1 < pi_count p ->
  exists p', stub_pids (run_op op s).1 !! j = Some p' /\ pi_nr p' = pi_nr p /\ pi_count p - put_of j op <= pi_count p'.
Proof.
  intros Hok Hj Hn Hc. assert (in_use s j) as Hu by (exists p; split_and!; [done|done|left; lia]).
  assert (forall s', stub_pids s' = stub_pids s -> exists p', stub_pids s' !! j = Some p' /\ pi_nr p' = pi_nr p /\ pi_count p - 0 <= pi_count p') as Hsame by (intros s' ->; exists p; split_and!; [done|done|lia]).
  destruct op as [nr|i|pid|pid type|pgrp sg priv|since|sg info task type|]; cbn [run_op fst put_of].
  - destruct (find_keeps_in_use nr s j p Hok Hu Hj) as (p' & Hp' & H1 & H2). exists p'. split_and!; [done|done|lia].
  - eexists. split; [apply (alter_lookup _ i j _ p Hj)|]. case_decide; cbn; split; try done; lia.
  - destruct pid as [i|]; [|by apply Hsame]. eexists. split; [apply (alter_lookup _ i j _ p Hj)|]. case_decide; [|split; [done|lia]]. rewrite (proj2 (Z.ltb_lt _ _)) by lia. cbn. split; [done|lia].
  - unfold kb_pid_task. destruct (pid ≫= _) as [[i q]|] eqn:E; [|by apply Hsame]. destruct pid as [i'|]; [|done]. cbn in E. destruct (stub_pids s !! i') as [q'|] eqn:Hi; [|done]. injection E as -> ->.
    set (task := if _ =? 0 then _ else _). assert (exists p1, <[i := q <| pi_task := task |>]> (stub_pids s) !! j = Some p1 /\ pi_nr p1 = pi_nr p /\ pi_count p1 = pi_count p) as (p1 & H1 & H2 & H3).
    { destruct (decide (i = j)) as [->|Hne]; [|rewrite list_lookup_insert_ne by done; by exists p]. rewrite Hj in Hi. injection Hi as <-. rewrite list_lookup_insert_eq by (by apply lookup_lt_Some in Hj). by exists (p <| pi_task := task |>). }
    destruct (_ && _); [|exists p1; split_and!; [done|done|lia]]. eexists. split; [apply alter_lookup; exact (eq_trans (list_lookup_fmap _ _ _) (f_equal (fmap _) H1))|]. split; repeat case_match; cbn; lia.
  - unfold kb_kill_pgrp, kb_mark_task_signal_pending. destruct (_ || _); [by apply Hsame|]. cbn [fst]. destruct (_ =? 0); by apply Hsame.
  - unfold kb_take_pending_pgrp_signal, kb_clear_task_signal_pending. destruct (foldl _ None _) as [[k g]|]; [|by apply Hsame]. destruct (_ || _); [by apply Hsame|]. destruct (_ =? 0); by apply Hsame.
  - unfold kb_record_task_signal, kb_mark_task_signal_pending. destruct (_ || _); [by apply Hsame|]. cbn [fst]. destruct (_ =? 0); by apply Hsame.
  - unfold kb_clear_current_signal_pending, kb_clear_task_signal_pending. destruct (_ =? 0); by apply Hsame.
Qed.

Lemma run_ops_app ops1 ops2 s : (run_ops (ops1 ++ ops2) s).1 = (run_ops ops2 (run_ops ops1 s).1).1.
Proof.
  revert s. induction ops1 as [|op ops1 IH]; intros s; cbn [app run_ops]; [done|]. destruct (run_op op s) as [s1 t1]. specialize (IH s1). destruct (run_ops (ops1 ++ ops2) s1), (run_ops ops1 s1). exact IH.
Qed.
Lemma run_pids_ok ops s : pids_ok s -> pids_ok (run_ops ops s).1.
Proof.
  revert s. induction ops as [|op ops IH]; intros s Hp; cbn [run_ops]; [done|]. assert (pids_ok (run_op op s).1) as H.
  { destruct (is_find op) eqn:E; [|by apply (same_pids_ok s); [apply op_keeps_numbers|]]. destruct op as [nr| | | | | | |]; try done. cbn [run_op fst].
    destruct (decide (0 < nr)); [by apply find_waiting|]. unfold kb_find_vpid. by rewrite (proj2 (Z.leb_le _ _)) by lia. }
  destruct (run_op op s) as [s1 t1]. specialize (IH s1 H). by destruct (run_ops ops s1).
Qed.
Lemma held_keeps_number ops : forall s j p, pids_ok s -> stub_pids s !! j = Some p -> pi_nr p <> 0 -> 1 + puts j ops < pi_count p -> kb_pid_vnr (Some j) (run_ops ops s).1 = pi_nr p.
Proof.
  induction ops as [|op ops IH]; intros s j p Hok Hj Hn Hc; cbn [run_ops puts] in *; [unfold kb_pid_vnr; cbn; by rewrite Hj|]. pose proof (puts_nonneg j ops). assert (0 <= put_of j op) by (unfold put_of; repeat case_match; lia).
  destruct (count_step op s j p Hok Hj Hn ltac:(lia)) as (p' & Hp' & Hn' & Hc'). pose proof (run_pids_ok [op] s Hok) as Hok'. cbn [run_ops] in Hok'. destruct (run_op op s) as [s1 t1]. cbn [fst] in *.
  specialize (IH s1 j p' Hok' Hp' ltac:(congruence) ltac:(lia)). destruct (run_ops ops s1). cbn [fst] in *. congruence.
Qed.

(** C18: Pids in use are not recycled, and signals to process groups reach the number they were
    sent to.  Whatever is done, pids found, held, released, linked, signals sent and taken:
    a signal that was waiting is still waiting for a pid object of the same number, or it has
    been taken, with that number and that signal, or 64 later ones have been sent; at every
    step a pid that is counted by more than the table, linked to a task or has a signal
    pending keeps its number; and a pid that is held keeps it until all references to it have
    been given back. *)
Theorem signals_reach_their_pid ops s : pids_ok s -> signals_ok s -> pending_pgrp_signal_sequence s + Z.of_nat (length ops) < 2 ^ 64 ->
  (forall q i n sig, waiting s q i n sig ->
     let '(s', t) := run_ops ops s in waiting s' q i n sig \/ mk_taken n sig q ∈ t \/ q + 64 <= pending_pgrp_signal_sequence s') /\
  (forall ops1 op ops2 j, ops = ops1 ++ op :: ops2 -> in_use (run_ops ops1 s).1 j ->
     kb_pid_vnr (Some j) (run_ops (ops1 ++ [op]) s).1 = kb_pid_vnr (Some j) (run_ops ops1 s).1) /\
  (forall j p, stub_pids s !! j = Some p -> pi_nr p <> 0 -> 1 + puts j ops < pi_count p -> kb_pid_vnr (Some j) (run_ops ops s).1 = pi_nr p).
Proof.
  intros Hp Hs Hb. split_and!.
  - intros q i n sig Hw. pose proof (run_lemma ops s Hp Hs Hb) as H. destruct (run_ops ops s) as [s' t]. destruct H as [_ H]. apply (H q i n sig). by left.
  - intros ops1 op ops2 j _ Hu. rewrite run_ops_app. pose proof (in_use_keeps_number op _ j (run_pids_ok ops1 s Hp) Hu) as H. cbn [run_ops]. by destruct (run_op op _).
  - intros j p Hj Hn Hc. by apply held_keeps_number.
Qed.
End run.

Lemma pid_init_ok m : pids_ok (pid_init m) /\ signals_ok (pid_init m).
Proof.
  split; split_and!; try done; cbn -[replicate].
  - by intros i p [-> _]%lookup_replicate.
  - by intros i j p q [-> _]%lookup_replicate.
  - by intros i g [-> _]%lookup_replicate.
Qed.

(** Two signals to the group of process 5, whose task is at 0x8000. *)
Definition pid_sample : pid_state := (run_ops 0x8000 0x100000 [OpFind 5; OpKill (Some 0%nat) 2 0; OpKill (Some 0%nat) 15 0] (pid_init ∅)).1.
Lemma pid_sample_ok : pids_ok pid_sample /\ signals_ok pid_sample.
Proof.
  destruct (pid_init_ok ∅) as [P0 S0]. unfold pid_sample. cbn [run_ops].
  pose proof (step_lemma 0x8000 0x100000 (OpFind 5) _ P0 S0 ltac:(done)) as H1. destruct (run_op _ _ (OpFind 5) _) as [s1 t1] eqn:E1. destruct H1 as (P1 & S1 & B1 & _).
  assert (pending_pgrp_signal_sequence s1 + 1 < 2 ^ 64) as L1 by (cbn in B1; change (2 ^ 64) with 0x10000000000000000; lia).
  pose proof (step_lemma 0x8000 0x100000 (OpKill (Some 0%nat) 2 0) _ P1 S1 L1) as H2. destruct (run_op _ _ (OpKill _ 2 0) _) as [s2 t2] eqn:E2. destruct H2 as (P2 & S2 & B2 & _).
  assert (pending_pgrp_signal_sequence s2 + 1 < 2 ^ 64) as L2 by (cbn in B1; change (2 ^ 64) with 0x10000000000000000; lia).
  pose proof (step_lemma 0x8000 0x100000 (OpKill (Some 0%nat) 15 0) _ P2 S2 L2) as H3. destruct (run_op _ _ (OpKill _ 15 0) _) as [s3 t3] eqn:E3. destruct H3 as (P3 & S3 & _). done.
Qed.
Lemma pid_sample_waiting : waiting pid_sample 1 0 5 2.
Proof. split_and!; [done|done|exists 0; by vm_compute|by vm_compute]. Qed.
Lemma signals_reach_their_pid_witness :
  let '(s', t) := run_ops 0x8000 0x100000 [OpPut (Some 0%nat); OpFind 9; OpTake 0] pid_sample in waiting s' 1 0 5 2 \/ mk_taken 5 2 1 ∈ t \/ 1 + 64 <= pending_pgrp_signal_sequence s'.
Proof.
  destruct pid_sample_ok as [P S]. pose proof (signals_reach_their_pid 0x8000 0x100000 [OpPut (Some 0%nat); OpFind 9; OpTake 0] pid_sample P S ltac:(by vm_compute)) as [H _]. exact (H 1 0%nat 5 2 pid_sample_waiting).
Defined.

(** Taking the first of two signals clears the task's flag that signals are pending, with the
    second still waiting. *)
Theorem flag_cleared_with_signal_waiting :
  let '(s, t, r) := kb_take_pending_pgrp_signal 0 pid_sample in
  r = 1 /\ t = mk_taken 5 2 1 /\ pending_pgrp_signals s !! 2%nat = Some (mk_pgrp_signal (Some 0%nat) 15 0 2) /\
  Z.testbit (task_flags 0x8000 (pd_mem pid_sample)) KB_STUB_TIF_SIGPENDING_BIT = true /\ Z.testbit (task_flags 0x8000 (pd_mem s)) KB_STUB_TIF_SIGPENDING_BIT = false.
Proof. by vm_compute. Qed.
