(* ===== verification/Drm.v ===== *)
(** * Graphics devices (DRM; src/src/linux_personality/linux_stubs.c)

    A table of the devices a driver allocates and publishes as character devices, and a table
    of the files opened on them; commands go to the driver's own handlers.  Built on the
    kernel-object registry.  The second part shows that opened files and their allocations
    correspond, that a handler is only reached by the commands and nodes it is meant for, and
    that calls into the driver leave the module context as it was. *)

From S2P Require Import Prelude Memory ModuleLayout KernelObjects.

(** ** The code *)

Definition KB_DRM_DEVICE_BYTES : Z := 0x610.
Definition KB_DRM_FILE_BYTES : Z := 0x170.
Definition KB_DRM_DEVICE_DEV_OFFSET : Z := 0x08.
Definition KB_DRM_DEVICE_DRIVER_OFFSET : Z := 0x30.
Definition KB_DRM_DEVICE_PRIVATE_OFFSET : Z := 0x38.
Definition KB_DRM_DEVICE_FEATURES_OFFSET : Z := 0x68.
Definition KB_DRM_DRIVER_OPEN_OFFSET : Z := 0x08.
Definition KB_DRM_DRIVER_POSTCLOSE_OFFSET : Z := 0x10.
Definition KB_DRM_DRIVER_DUMB_CREATE_OFFSET : Z := 0x70.
Definition KB_DRM_DRIVER_NAME_OFFSET : Z := 0x98.
Definition KB_DRM_DRIVER_DESC_OFFSET : Z := 0xa0.
Definition KB_DRM_DRIVER_DATE_OFFSET : Z := 0xa8.
Definition KB_DRM_DRIVER_FEATURES_OFFSET : Z := 0xb0.
Definition KB_DRM_DRIVER_MAJOR_OFFSET : Z := 0x88.
Definition KB_DRM_DRIVER_MINOR_OFFSET : Z := 0x8c.
Definition KB_DRM_DRIVER_PATCHLEVEL_OFFSET : Z := 0x90.
Definition KB_DRM_DRIVER_IOCTLS_OFFSET : Z := 0xb8.
Definition KB_DRM_DRIVER_NUM_IOCTLS_OFFSET : Z := 0xc0.
Definition KB_DRM_DRIVER_FOPS_OFFSET : Z := 0xc8.
Definition KB_DRM_LINUX_FILE_PRIVATE_DATA_OFFSET : Z := 0xc8.
Definition KB_DRM_IOCTL_DESC_BYTES : Z := 24.
Definition KB_DRM_IOCTL_DESC_CMD_OFFSET : Z := 0.
Definition KB_DRM_IOCTL_DESC_FLAGS_OFFSET : Z := 4.
Definition KB_DRM_IOCTL_DESC_FUNC_OFFSET : Z := 8.
Definition KB_DRM_COMMAND_BASE : Z := 0x40.
Definition KB_DRM_RENDER_ALLOW : Z := Z.shiftl 1 5.
Definition KB_DRM_MAJOR : Z := 226.
Definition KB_DRM_CARD0_MINOR : Z := 0.
Definition KB_DRM_RENDERD128_MINOR : Z := 128.
Definition KB_DRM_MINOR_COUNT : Z := 256.
Definition KB_DRM_DRIVER_RENDER : Z := Z.shiftl 1 3.
Definition KB_DRM_DEVICE_MAX : nat := 4.
Definition KB_DRM_FILE_MAX : nat := 64.

Record kb_drm_device_record := mk_drm_device {
  dr_device : Z; dr_driver : Z; dr_cdev : Z; dr_render_cdev : Z; dr_registered : bool; dr_unplugged : bool;
}.
#[export] Instance drm_device_eta : Settable kb_drm_device_record := fun r =>
  mk_drm_device (dr_device r) (dr_driver r) (dr_cdev r) (dr_render_cdev r) (dr_registered r) (dr_unplugged r).
Definition zero_drm_device : kb_drm_device_record := mk_drm_device 0 0 0 0 false false.
(** [df_device] is the place of the device in its table, [None] a null pointer. *)
Record kb_drm_file_record := mk_drm_file { df_linux_file : Z; df_drm_file : Z; df_device : option nat; df_render_node : bool }.
Definition zero_drm_file : kb_drm_file_record := mk_drm_file 0 0 None false.

(** With the registry and its memory, what was given to kb_kfree, the calls into drivers, and
    the module context: the active module and the GS base. *)
Record drm_state := mk_drm_state {
  drm_devices : list kb_drm_device_record;
  drm_files : list kb_drm_file_record;
  ds_objects : kobj_state;
  ds_freed : list Z;
  ds_calls : list (Z * list Z);
  ds_active : Z;
  ds_gs : Z;
}.
#[export] Instance drm_state_eta : Settable drm_state := fun s =>
  mk_drm_state (drm_devices s) (drm_files s) (ds_objects s) (ds_freed s) (ds_calls s) (ds_active s) (ds_gs s).
Definition drm_init (o : kobj_state) : drm_state :=
  mk_drm_state (replicate KB_DRM_DEVICE_MAX zero_drm_device) (replicate KB_DRM_FILE_MAX zero_drm_file) o [] [] 0 0.

Definition kb_read_ptr (base offset : Z) (m : mem) : Z := if base =? 0 then 0 else mload64 m (base + offset).
Definition kb_read_u64 (base offset : Z) (m : mem) : Z := if base =? 0 then 0 else mload64 m (base + offset).
Definition kb_read_int (base offset : Z) (m : mem) : Z := if base =? 0 then 0 else mload_int m (base + offset).
Definition kb_read_u32 (base offset : Z) (m : mem) : Z := if base =? 0 then 0 else mload32 m (base + offset).
Definition kb_write_ptr (base offset value : Z) (m : mem) : mem := mstore64 m (base + offset) value.
Definition kb_write_u64 (base offset value : Z) (m : mem) : mem := mstore64 m (base + offset) value.

(** The modules loaded, whether a module's context can be entered and its GS base, what a
    function of a driver does to memory and returns, and the address of the string drm. *)
Record drm_env := mk_drm_env {
  de_loaded : loaded_modules;
  de_enter : Z -> option Z;
  de_code : Z -> list Z -> mem -> mem * Z;
  de_name : Z;
}.

Section drm.
Context (e : drm_env).
Implicit Types s : drm_state.

Definition ds_mem s : mem := ko_mem (ds_objects s).
Definition with_drm_mem (f : mem -> mem) s : drm_state := s <| ds_objects ::= set_field ko_mem f |>.

(** *** Calls into the driver *)

Definition kb_drm_call (function : Z) (args : list Z) s : drm_state * Z :=
  let owner := owner_of (de_loaded e) function in
  let previous := ds_active s in
  let entered := if owner =? 0 then None else de_enter e owner in
  let old_gs := ds_gs s in
  let s := match entered with Some gs => s <| ds_gs := gs |> <| ds_active := owner |> | None => s end in
  let '(m, result) := de_code e function args (ds_mem s) in
  let s := with_drm_mem (fun _ => m) s <| ds_calls ::= fun l => l ++ [(function, args)] |> in
  let s := match entered with Some _ => s <| ds_gs := old_gs |> <| ds_active := previous |> | None => s end in
  (s, result).
Definition kb_drm_call_driver_open (function device file : Z) s : drm_state * Z :=
  if function =? 0 then (s, 0) else kb_drm_call function [device; file] s.
Definition kb_drm_call_driver_postclose (function device file : Z) s : drm_state :=
  if function =? 0 then s else (kb_drm_call function [device; file] s).1.
Definition kb_drm_call_driver_ioctl (function device data file : Z) s : drm_state * Z :=
  if function =? 0 then (s, -25) else kb_drm_call function [device; data; file] s.

(** *** Devices *)

Definition kb_drm_find_device (device : Z) s : option nat := first_index (fun r => dr_device r =? device) (drm_devices s).
Definition drm_device (i : nat) s : kb_drm_device_record := default zero_drm_device (drm_devices s !! i).
Definition with_device (i : nat) (f : kb_drm_device_record -> kb_drm_device_record) s : drm_state := s <| drm_devices ::= alter f i |>.
Definition kb_drm_primary_device s : Z :=
  match first_index (fun r => negb (dr_device r =? 0) && dr_registered r) (drm_devices s) with Some i => dr_device (drm_device i s) | None => 0 end.
Definition kb_drm_device_private (device : Z) s : Z :=
  match kb_drm_find_device device s with
  | None => 0
  | Some i => kb_read_ptr (dr_device (drm_device i s)) KB_DRM_DEVICE_PRIVATE_OFFSET (ds_mem s)
  end.
Definition kb_drm_find_file (linux_file : Z) s : option nat := first_index (fun r => df_linux_file r =? linux_file) (drm_files s).
Definition drm_file (i : nat) s : kb_drm_file_record := default zero_drm_file (drm_files s !! i).

(** [kzalloc] is what kb_kzalloc returns, memory cleared. *)
Definition kb_drm_dev_alloc (driver parent kzalloc : Z) s : drm_state * Z :=
  if driver =? 0 then (s, u64 (-22))
  else
    match first_index (fun r => dr_device r =? 0) (drm_devices s) with
    | None => (s, u64 (-12))
    | Some i =>
        if kzalloc =? 0 then (s, u64 (-12))
        else
          let s := with_drm_mem (fun m =>
            let m := mzero m kzalloc KB_DRM_DEVICE_BYTES in
            let m := kb_write_ptr kzalloc KB_DRM_DEVICE_DEV_OFFSET parent m in
            let m := kb_write_ptr kzalloc KB_DRM_DEVICE_DRIVER_OFFSET driver m in
            kb_write_u64 kzalloc KB_DRM_DEVICE_FEATURES_OFFSET (kb_read_u64 driver KB_DRM_DRIVER_FEATURES_OFFSET m) m) s in
          (with_device i (fun r => r <| dr_device := kzalloc |> <| dr_driver := driver |>) s, kzalloc)
    end.

Definition on_objects {A} (f : kobj_state -> kobj_state * A) s : drm_state * A := let '(o, a) := f (ds_objects s) in (s <| ds_objects := o |>, a).
Definition change_objects (f : kobj_state -> kobj_state) s : drm_state := s <| ds_objects ::= f |>.
Definition drm_unregister_chrdev s : drm_state := change_objects (kb_linux_kernel_unregister_chrdev KB_DRM_MAJOR KB_DRM_CARD0_MINOR) s.

(** A cdev made, initialised and added; [kzalloc] as above. *)
Definition drm_cdev (kzalloc fops minor : Z) s : drm_state * Z :=
  let s := change_objects (kb_linux_kernel_cdev_init (de_loaded e) (ds_active s) kzalloc fops) s in
  on_objects (kb_linux_kernel_cdev_add (de_loaded e) (ds_active s) kzalloc (kb_linux_kernel_encode_dev KB_DRM_MAJOR minor) 1) s.

(** [malloc]: whether the registry has memory for the name. *)
Definition kb_drm_dev_register (device : Z) (malloc : bool) (kzalloc1 kzalloc2 : Z) s : drm_state * Z :=
  match kb_drm_find_device device s with
  | None => (s, -22)
  | Some i =>
      if dr_registered (drm_device i s) then (s, 0)
      else
        let driver := dr_driver (drm_device i s) in
        let fops := kb_read_ptr driver KB_DRM_DRIVER_FOPS_OFFSET (ds_mem s) in
        if fops =? 0 then (s, -22)
        else
          let '(s, status) := on_objects (kb_linux_kernel_register_chrdev (ds_active s)
            KB_DRM_MAJOR KB_DRM_CARD0_MINOR KB_DRM_MINOR_COUNT (de_name e) fops malloc) s in
          if negb (status =? 0) then (s, status)
          else
            let '(s, cdev) := on_objects (kb_linux_kernel_cdev_alloc (de_loaded e) (ds_active s) kzalloc1) s in
            let s := with_device i (fun r => r <| dr_cdev := cdev |>) s in
            if cdev =? 0 then (drm_unregister_chrdev s, -12)
            else
              let '(s, status) := drm_cdev cdev fops KB_DRM_CARD0_MINOR s in
              if negb (status =? 0) then (drm_unregister_chrdev s, status)
              else if Z.land (kb_read_u64 driver KB_DRM_DRIVER_FEATURES_OFFSET (ds_mem s)) KB_DRM_DRIVER_RENDER =? 0
              then (with_device i (fun r => r <| dr_registered := true |>) s, 0)
              else
                let '(s, render_cdev) := on_objects (kb_linux_kernel_cdev_alloc (de_loaded e) (ds_active s) kzalloc2) s in
                let s := with_device i (fun r => r <| dr_render_cdev := render_cdev |>) s in
                if render_cdev =? 0 then (drm_unregister_chrdev (change_objects (kb_linux_kernel_cdev_del cdev) s), -12)
                else
                  let '(s, status) := drm_cdev render_cdev fops KB_DRM_RENDERD128_MINOR s in
                  if negb (status =? 0) then (drm_unregister_chrdev (change_objects (kb_linux_kernel_cdev_del cdev) s), status)
                  else (with_device i (fun r => r <| dr_registered := true |>) s, 0)
  end.

Definition kb_drm_dev_get (device : Z) s : Z := match kb_drm_find_device device s with Some _ => device | None => 0 end.
(** The index stored, if any, and the result. *)
Definition kb_drm_dev_enter (device : Z) (index : bool) s : option Z * Z :=
  match kb_drm_find_device device s with
  | None => (None, 0)
  | Some i => if dr_unplugged (drm_device i s) then (None, 0) else (if index then Some 0 else None, 1)
  end.
Definition kb_drm_dev_unplug (device : Z) s : drm_state :=
  match kb_drm_find_device device s with
  | None => s
  | Some i => with_device i (fun r => r <| dr_unplugged := true |> <| dr_registered := false |>) s
  end.

(** *** Files *)

Definition kb_drm_open (inode linux_file kzalloc : Z) s : drm_state * Z :=
  if (linux_file =? 0) || negb (is_none (kb_drm_find_file linux_file s)) then (s, -22)
  else
    let inode_cdev := kb_read_ptr inode 0x238 (ds_mem s) in
    match first_index (fun r => dr_registered r && ((dr_cdev r =? inode_cdev) || (dr_render_cdev r =? inode_cdev))) (drm_devices s) with
    | None => (s, -19)
    | Some d =>
        match first_index (fun r => df_linux_file r =? 0) (drm_files s) with
        | None => (s, -24)
        | Some i =>
            if kzalloc =? 0 then (s, -12)
            else
              let s := with_drm_mem (fun m => mzero m kzalloc KB_DRM_FILE_BYTES) s in
              let '(s, status) := kb_drm_call_driver_open (kb_read_ptr (dr_driver (drm_device d s)) KB_DRM_DRIVER_OPEN_OFFSET (ds_mem s)) (dr_device (drm_device d s)) kzalloc s in
              if negb (status =? 0) then (s <| ds_freed ::= fun l => l ++ [kzalloc] |>, status)
              else
                let r := mk_drm_file linux_file kzalloc (Some d) (dr_render_cdev (drm_device d s) =? inode_cdev) in
                (with_drm_mem (kb_write_ptr linux_file KB_DRM_LINUX_FILE_PRIVATE_DATA_OFFSET kzalloc) (s <| drm_files ::= <[i := r]> |>), 0)
        end
    end.

(** Here and below, [None]: a null pointer is followed. *)
Definition kb_drm_release (linux_file : Z) s : option (drm_state * Z) :=
  match kb_drm_find_file linux_file s with
  | None => Some (s, -9)
  | Some i =>
      let r := drm_file i s in
      d ← df_device r;
      let d := drm_device d s in
      let s := kb_drm_call_driver_postclose (kb_read_ptr (dr_driver d) KB_DRM_DRIVER_POSTCLOSE_OFFSET (ds_mem s)) (dr_device d) (df_drm_file r) s in
      let s := s <| ds_freed ::= fun l => l ++ [df_drm_file r] |> in
      let s := with_drm_mem (kb_write_ptr linux_file KB_DRM_LINUX_FILE_PRIVATE_DATA_OFFSET 0) s in
      Some (s <| drm_files ::= <[i := zero_drm_file]> |>, 0)
  end.

(** *** Commands *)

(** A string of the driver into a buffer of the length stored at [length]. *)
Definition kb_drm_copy_version_string (length destination source : Z) (m : mem) : mem :=
  let capacity := mload64 m length in
  let text := if source =? 0 then [] else mem_string m source in
  let m := if negb (destination =? 0) && negb (capacity =? 0) && negb (blen text =? 0)
           then mstore m destination (take (Z.to_nat capacity) text) else m in
  mstore64 m length (blen text).

(** Offsets in the version structure. *)
Definition drm_version (driver version : Z) (m : mem) : mem :=
  let m := mstore32 m version (u32 (kb_read_int driver KB_DRM_DRIVER_MAJOR_OFFSET m)) in
  let m := mstore32 m (version + 4) (u32 (kb_read_int driver KB_DRM_DRIVER_MINOR_OFFSET m)) in
  let m := mstore32 m (version + 8) (u32 (kb_read_int driver KB_DRM_DRIVER_PATCHLEVEL_OFFSET m)) in
  let m := kb_drm_copy_version_string (version + 16) (mload64 m (version + 24)) (kb_read_ptr driver KB_DRM_DRIVER_NAME_OFFSET m) m in
  let m := kb_drm_copy_version_string (version + 32) (mload64 m (version + 40)) (kb_read_ptr driver KB_DRM_DRIVER_DATE_OFFSET m) m in
  kb_drm_copy_version_string (version + 48) (mload64 m (version + 56)) (kb_read_ptr driver KB_DRM_DRIVER_DESC_OFFSET m) m.

Definition DRM_IOCTL_VERSION : Z := 0xc0406400.
Definition DRM_IOCTL_GET_CAP : Z := 0xc010640c.
Definition DRM_CAP_DUMB_BUFFER : Z := 1.
(** A command for the driver's table. *)
Definition drm_driver_ioctl (record : kb_drm_file_record) (device : kb_drm_device_record) (command argument : Z) s : drm_state * Z :=
  let m := ds_mem s in
  let driver := dr_driver device in
  let command_type := Z.land (Z.shiftr command 8) 0xff in
  let command_nr := Z.land command 0xff in
  let ioctl_count := kb_read_u32 driver KB_DRM_DRIVER_NUM_IOCTLS_OFFSET m in
  if negb (command_type =? 100) || (command_nr <? KB_DRM_COMMAND_BASE) || (ioctl_count <=? command_nr - KB_DRM_COMMAND_BASE) then (s, -25)
  else
    let table := kb_read_ptr driver KB_DRM_DRIVER_IOCTLS_OFFSET m in
    if table =? 0 then (s, -25)
    else
      let descriptor := table + (command_nr - KB_DRM_COMMAND_BASE) * KB_DRM_IOCTL_DESC_BYTES in
      let descriptor_command := kb_read_u32 descriptor KB_DRM_IOCTL_DESC_CMD_OFFSET m in
      let descriptor_flags := kb_read_u32 descriptor KB_DRM_IOCTL_DESC_FLAGS_OFFSET m in
      let function := kb_read_ptr descriptor KB_DRM_IOCTL_DESC_FUNC_OFFSET m in
      if negb (descriptor_command =? command) || (function =? 0) then (s, -25)
      else if df_render_node record && (Z.land descriptor_flags KB_DRM_RENDER_ALLOW =? 0) then (s, -13)
      else kb_drm_call_driver_ioctl function (dr_device device) argument (df_drm_file record) s.

Definition kb_drm_ioctl (linux_file command argument : Z) s : option (drm_state * Z) :=
  match kb_drm_find_file linux_file s with
  | None => Some (s, -9)
  | Some i =>
      if argument =? 0 then Some (s, -14)
      else
        let record := drm_file i s in
        d ← df_device record;
        let device := drm_device d s in
        let driver := dr_driver device in
        if command =? DRM_IOCTL_VERSION then Some (with_drm_mem (drm_version driver argument) s, 0)
        else if command =? DRM_IOCTL_GET_CAP then
          if mload64 (ds_mem s) argument =? DRM_CAP_DUMB_BUFFER
          then Some (with_drm_mem (fun m => mstore64 m (argument + 8) (Z.b2z (negb (kb_read_ptr driver KB_DRM_DRIVER_DUMB_CREATE_OFFSET m =? 0)))) s, 0)
          else Some (s, -22)
        else Some (drm_driver_ioctl record device command argument s)
  end.
Definition kb_drm_compat_ioctl (linux_file command argument : Z) s : option (drm_state * Z) := kb_drm_ioctl linux_file command argument s.
End drm.

(** ** Opened files and their memory *)

Definition is_open (r : kb_drm_file_record) : bool := negb (df_linux_file r =? 0).
Definition opened (s : drm_state) : list kb_drm_file_record := filter (fun r => is_open r = true) (drm_files s).
Record drm_ok (s : drm_state) : Prop := {
  do_unique : NoDup (df_linux_file <$> opened s);
  do_device r : r ∈ opened s -> exists d, df_device r = Some d;
}.

Inductive drm_op :=
  | DrmAlloc (driver parent kzalloc : Z) | DrmRegister (device : Z) (malloc : bool) (kzalloc1 kzalloc2 : Z) | DrmUnplug (device : Z)
  | DrmOpen (inode linux_file kzalloc : Z) | DrmRelease (linux_file : Z) | DrmIoctl (linux_file command argument : Z).

Section theorems.
Context (e : drm_env).

(** The state after an operation, with the file structures allocated in it. *)
Definition run_drm (op : drm_op) (s : drm_state) : option (drm_state * Z) :=
  match op with
  | DrmAlloc driver parent kzalloc => Some (kb_drm_dev_alloc driver parent kzalloc s)
  | DrmRegister device malloc kzalloc1 kzalloc2 => Some (kb_drm_dev_register e device malloc kzalloc1 kzalloc2 s)
  | DrmUnplug device => Some (kb_drm_dev_unplug device s, 0)
  | DrmOpen inode linux_file kzalloc => Some (kb_drm_open e inode linux_file kzalloc s)
  | DrmRelease linux_file => kb_drm_release e linux_file s
  | DrmIoctl linux_file command argument => kb_drm_ioctl e linux_file command argument s
  end.
(** Files are never null, and allocations are never given twice while in use. *)
Definition op_ok (op : drm_op) : Prop := match op with DrmRelease f | DrmIoctl f _ _ => f <> 0 | _ => True end.

(** What the tables of files, the freed memory and the context do in operations on devices. *)
Definition same_files (s s' : drm_state) : Prop := drm_files s' = drm_files s /\ ds_freed s' = ds_freed s /\ ds_active s' = ds_active s /\ ds_gs s' = ds_gs s.

Lemma same_refl s : same_files s s.
Proof. done. Qed.
Lemma same_trans s1 s2 s3 : same_files s1 s2 -> same_files s2 s3 -> same_files s1 s3.
Proof. unfold same_files. intros (-> & -> & -> & ->) (-> & -> & -> & ->). done. Qed.
Lemma same_call f args s : same_files s (kb_drm_call e f args s).1.
Proof.
  unfold kb_drm_call. destruct (if owner_of (de_loaded e) f =? 0 then None else de_enter e (owner_of (de_loaded e) f)) as [gs|].
  - by destruct (de_code e f args _) as [m r].
  - by destruct (de_code e f args _) as [m r].
Qed.
Lemma calls_call f args s : ds_calls (kb_drm_call e f args s).1 = ds_calls s ++ [(f, args)].
Proof.
  unfold kb_drm_call. destruct (if owner_of (de_loaded e) f =? 0 then None else de_enter e (owner_of (de_loaded e) f)) as [gs|]; by destruct (de_code e f args _) as [m r].
Qed.
Lemma same_objects {A} (f : kobj_state -> kobj_state * A) s : same_files s (on_objects f s).1.
Proof. unfold on_objects. by destruct (f (ds_objects s)). Qed.
Lemma same_device i f s : same_files s (with_device i f s).
Proof. done. Qed.
Lemma same_change f s : same_files s (change_objects f s).
Proof. done. Qed.

Lemma same_open f d k s : same_files s (kb_drm_call_driver_open e f d k s).1.
Proof. unfold kb_drm_call_driver_open. case_match; [done|apply same_call]. Qed.
Lemma same_postclose f d k s : same_files s (kb_drm_call_driver_postclose e f d k s).
Proof. unfold kb_drm_call_driver_postclose. case_match; [done|apply same_call]. Qed.
Lemma same_cdev kzalloc fops minor s : same_files s (drm_cdev e kzalloc fops minor s).1.
Proof. unfold drm_cdev. eapply same_trans; [apply same_change|]. apply same_objects. Qed.
Ltac same_step :=
  match goal with
  | |- context [on_objects ?f ?x] =>
      let H := fresh "Hs" in pose proof (same_objects f x) as H; destruct (on_objects f x) as [? ?]; cbn [fst] in H
  | |- context [drm_cdev e ?k ?f ?n ?x] =>
      let H := fresh "Hs" in pose proof (same_cdev k f n x) as H; destruct (drm_cdev e k f n x) as [? ?]; cbn [fst] in H
  | |- context [if ?b then _ else _] => destruct b
  end.
Lemma same_register device malloc k1 k2 s : same_files s (kb_drm_dev_register e device malloc k1 k2 s).1.
Proof.
  unfold kb_drm_dev_register. destruct (kb_drm_find_device device s) as [i|]; [|done]. cbv zeta. repeat same_step; cbn [fst];
    unfold same_files, with_device, drm_unregister_chrdev, change_objects in *; cbn in *; destruct_and?; split_and!; congruence.
Qed.

Lemma same_ok s s' : drm_files s' = drm_files s -> drm_ok s -> drm_ok s'.
Proof. intros E [H1 H2]. unfold opened in *. constructor; unfold opened; rewrite E; done. Qed.

Lemma find_file_None f s : kb_drm_find_file f s = None -> f <> 0 -> f ∉ df_linux_file <$> opened s.
Proof.
  intros H%first_index_None Hf Hin. apply list_elem_of_fmap in Hin as (r & -> & Hr). apply list_elem_of_filter in Hr as [_ Hr]. rewrite Forall_forall in H. specialize (H r Hr). cbn in H. by rewrite Z.eqb_refl in H.
Qed.
(** One record of the table of files changes. *)
Lemma opened_insert s i r r' : drm_files s !! i = Some r ->
  (if is_open r then [r] else []) ++ filter (fun r => is_open r = true) (<[i := r']> (drm_files s)) ≡ₚ (if is_open r' then [r'] else []) ++ opened s.
Proof.
  intros Hi. unfold opened. rewrite insert_take_drop by (by apply lookup_lt_Some in Hi). rewrite <- (take_drop_middle _ _ _ Hi) at 3. rewrite !filter_app, !filter_cons.
  destruct (is_open r); [rewrite (decide_True (P := true = true)) by done|rewrite (decide_False (P := false = true)) by done]; (destruct (is_open r'); [rewrite (decide_True (P := true = true)) by done|rewrite (decide_False (P := false = true)) by done]); cbn [app]; solve_Permutation.
Qed.

Lemma open_lemma inode f k s : drm_ok s ->
  exists s' r, Some (kb_drm_open e inode f k s) = Some (s', r) /\ drm_ok s' /\ ds_active s' = ds_active s /\ ds_gs s' = ds_gs s /\
  ((r = 0 /\ f <> 0 /\ k <> 0 /\ ds_freed s' = ds_freed s /\ exists x, opened s' ≡ₚ x :: opened s /\ df_linux_file x = f /\ df_drm_file x = k) \/
   (r <> 0 /\ opened s' = opened s /\ (ds_freed s' = ds_freed s \/ (k <> 0 /\ ds_freed s' = ds_freed s ++ [k])))).
Proof.
  intros Hok. unfold kb_drm_open. destruct (Z.eqb_spec f 0) as [|Hf]; cbn [orb]; [exists s, (-22); split_and!; auto; right; auto|].
  destruct (kb_drm_find_file f s) as [i0|] eqn:Ef; cbn [is_none negb]; [exists s, (-22); split_and!; auto; right; auto|]. apply find_file_None in Ef; [|done].
  destruct (first_index _ (drm_devices s)) as [d|]; [|exists s, (-19); split_and!; auto; right; auto].
  destruct (first_index _ (drm_files s)) as [i|] eqn:Ei; [|exists s, (-24); split_and!; auto; right; auto]. apply first_index_Some in Ei as (r0 & Hi & Hr0 & _).
  destruct (Z.eqb_spec k 0) as [|Hk]; [exists s, (-12); split_and!; auto; right; auto|]. cbv zeta. set (s1 := with_drm_mem _ s).
  set (fn := kb_read_ptr _ KB_DRM_DRIVER_OPEN_OFFSET _). set (dev := dr_device _). pose proof (same_open fn dev k s1) as (F1 & F2 & F3 & F4). destruct (kb_drm_call_driver_open e fn dev k s1) as [s2 status]. cbn [fst] in *.
  destruct (Z.eqb_spec status 0) as [->|Hs]; cbn [negb].
  - set (x := mk_drm_file f k _ _). eexists _, 0. split; [reflexivity|]. set (s' := with_drm_mem _ (s2 <| drm_files ::= _ |>)).
    assert (drm_files s' = <[i := x]> (drm_files s)) as E by (cbn; by rewrite F1). assert (opened s' ≡ₚ x :: opened s) as Hp.
    { pose proof (opened_insert s i r0 x Hi) as H. assert (is_open r0 = false) as O0 by (unfold is_open; by rewrite Hr0). assert (is_open x = true) as O1 by (unfold is_open; cbn; by rewrite (proj2 (Z.eqb_neq f 0))).
      rewrite O0, O1 in H. unfold opened at 1. by rewrite E. }
    split_and!; [|done|done|]. 2: { left. split_and!; try done. by exists x. }
    constructor; [rewrite Hp; cbn; apply NoDup_cons; split; [done|apply (do_unique _ Hok)]|]. intros r Hr. rewrite Hp in Hr. apply elem_of_cons in Hr as [->|Hr]; [by eexists|by apply (do_device _ Hok)].
  - eexists _, status. split; [reflexivity|]. split_and!; [by apply (same_ok s)|done|done|]. right. split_and!; [done|unfold opened; cbn; by rewrite F1|]. right. cbn. by rewrite F2.
Qed.

Lemma release_lemma f s : drm_ok s -> f <> 0 ->
  exists s' r, kb_drm_release e f s = Some (s', r) /\ drm_ok s' /\ ds_active s' = ds_active s /\ ds_gs s' = ds_gs s /\
  ((r = 0 /\ exists x, opened s ≡ₚ x :: opened s' /\ df_linux_file x = f /\ ds_freed s' = ds_freed s ++ [df_drm_file x]) \/ (r = -9 /\ s' = s /\ f ∉ df_linux_file <$> opened s)).
Proof.
  intros Hok Hf. unfold kb_drm_release. destruct (kb_drm_find_file f s) as [i|] eqn:Ef; [|exists s, (-9); split_and!; auto; right; split_and!; auto; by apply find_file_None].
  apply first_index_Some in Ef as (x & Hi & Hx%Z.eqb_eq & _). unfold drm_file. rewrite Hi. change (default zero_drm_file (Some x)) with x. cbv zeta.
  assert (is_open x = true) as Hox by (unfold is_open; rewrite Hx; by apply negb_true_iff, Z.eqb_neq). destruct (do_device _ Hok x) as [d Hd]; [apply list_elem_of_filter; split; [done|by apply list_elem_of_lookup_2 with i]|]. rewrite Hd.
  change (Some d ≫= ?g) with (g d). cbv beta. match goal with |- context [kb_drm_call_driver_postclose e ?fn ?dev ?k ?y] => pose proof (same_postclose fn dev k y) as (F1 & F2 & F3 & F4); set (s1 := kb_drm_call_driver_postclose e fn dev k y) in * end.
  eexists _, 0. split; [reflexivity|]. set (s' := _ <| drm_files ::= _ |>). assert (drm_files s' = <[i := zero_drm_file]> (drm_files s)) as E by (cbn; by rewrite F1).
  assert (opened s ≡ₚ x :: opened s') as Hp. { pose proof (opened_insert s i x zero_drm_file Hi) as H. rewrite Hox in H. cbn [app] in H. unfold opened at 2. rewrite E. symmetry. exact H. }
  split_and!; [|done|done|]. 2: { left. split; [done|]. exists x. split_and!; [done..|]. cbn. by rewrite F2. }
  destruct Hok as [U D]. constructor; [rewrite Hp in U; cbn in U; by apply NoDup_cons in U as [_ U]|]. intros r Hr. apply D. rewrite Hp. apply elem_of_cons. auto.
Qed.

Lemma same_driver_ioctl record device command argument s : same_files s (drm_driver_ioctl e record device command argument s).1.
Proof. unfold drm_driver_ioctl, kb_drm_call_driver_ioctl. repeat (case_match; [done|]). cbv zeta. repeat (case_match; try done). apply same_call. Qed.
Lemma ioctl_lemma f command argument s : drm_ok s -> f <> 0 ->
  exists s' r, kb_drm_ioctl e f command argument s = Some (s', r) /\ drm_ok s' /\ ds_active s' = ds_active s /\ ds_gs s' = ds_gs s /\ opened s' = opened s /\ ds_freed s' = ds_freed s.
Proof.
  intros Hok Hf. unfold kb_drm_ioctl. destruct (kb_drm_find_file f s) as [i|] eqn:Ef; [|by exists s, (-9)]. apply first_index_Some in Ef as (x & Hi & Hx%Z.eqb_eq & _). unfold drm_file. rewrite Hi. change (default zero_drm_file (Some x)) with x. cbv zeta.
  destruct (argument =? 0); [by exists s, (-14)|]. assert (is_open x = true) as Hox by (unfold is_open; rewrite Hx; by apply negb_true_iff, Z.eqb_neq).
  destruct (do_device _ Hok x) as [d Hd]; [apply list_elem_of_filter; split; [done|by apply list_elem_of_lookup_2 with i]|]. rewrite Hd. change (Some d ≫= ?g) with (g d). cbv beta.
  destruct (command =? DRM_IOCTL_VERSION); [eexists _, _; split; [reflexivity|]; split_and!; try done; by apply (same_ok s)|]. destruct (command =? DRM_IOCTL_GET_CAP).
  - destruct (_ =? DRM_CAP_DUMB_BUFFER); [eexists _, _; split; [reflexivity|]; split_and!; try done; by apply (same_ok s)|by exists s, (-22)].
  - pose proof (same_driver_ioctl x (drm_device d s) command argument s) as (F1 & F2 & F3 & F4). destruct (drm_driver_ioctl e x (drm_device d s) command argument s) as [s' r]. cbn [fst] in *. exists s', r. unfold opened. rewrite F1. split_and!; try done. by apply (same_ok s).
Qed.

(** A driver's handler is reached by exactly the commands of its table, and through a render
    node only when it is allowed there: a command that calls into the driver at all calls the
    function of the entry at its number, which is for that command. *)
Theorem ioctl_reaches_only_its_handler f command argument s s' r : kb_drm_ioctl e f command argument s = Some (s', r) -> ds_calls s' <> ds_calls s ->
  exists i record d function,
    drm_files s !! i = Some record /\ df_linux_file record = f /\ df_device record = Some d /\
    let device := drm_device d s in let m := ds_mem s in
    let nr := Z.land command 0xff - KB_DRM_COMMAND_BASE in
    let descriptor := kb_read_ptr (dr_driver device) KB_DRM_DRIVER_IOCTLS_OFFSET m + nr * KB_DRM_IOCTL_DESC_BYTES in
    0 <= nr < kb_read_u32 (dr_driver device) KB_DRM_DRIVER_NUM_IOCTLS_OFFSET m /\ Z.land (Z.shiftr command 8) 0xff = 100 /\
    kb_read_u32 descriptor KB_DRM_IOCTL_DESC_CMD_OFFSET m = command /\ kb_read_ptr descriptor KB_DRM_IOCTL_DESC_FUNC_OFFSET m = function /\ function <> 0 /\
    (df_render_node record = true -> Z.land (kb_read_u32 descriptor KB_DRM_IOCTL_DESC_FLAGS_OFFSET m) KB_DRM_RENDER_ALLOW <> 0) /\
    ds_calls s' = ds_calls s ++ [(function, [dr_device device; argument; df_drm_file record])].
Proof.
  unfold kb_drm_ioctl. destruct (kb_drm_find_file f s) as [i|] eqn:Ef; [|by intros [= <- _]]. apply first_index_Some in Ef as (x & Hi & Hx%Z.eqb_eq & _). unfold drm_file. rewrite Hi. change (default zero_drm_file (Some x)) with x. cbv zeta.
  destruct (argument =? 0); [by intros [= <- _]|]. destruct (df_device x) as [d|] eqn:Hd; [|done]. change (Some d ≫= ?g) with (g d). cbv beta. set (device := drm_device d s).
  destruct (command =? DRM_IOCTL_VERSION); [by intros [= <- _]|]. destruct (command =? DRM_IOCTL_GET_CAP); [case_match; by intros [= <- _]|]. intros [= E] Hc. exists i, x, d.
  unfold drm_driver_ioctl in E. set (nr := Z.land command 0xff) in *. set (m := ds_mem s) in *.
  destruct (Z.eqb_spec (Z.land (Z.shiftr command 8) 0xff) 100) as [H100|]; cbn [negb orb] in E; [|by injection E as <- _]. destruct (Z.ltb_spec nr KB_DRM_COMMAND_BASE) as [|Hlo]; cbn [orb] in E; [by injection E as <- _|].
  destruct (Z.leb_spec (kb_read_u32 (dr_driver device) KB_DRM_DRIVER_NUM_IOCTLS_OFFSET m) (nr - KB_DRM_COMMAND_BASE)) as [|Hhi]; [by injection E as <- _|]. destruct (kb_read_ptr (dr_driver device) KB_DRM_DRIVER_IOCTLS_OFFSET m =? 0); [by injection E as <- _|].
  set (descriptor := _ + _ * _) in *. destruct (Z.eqb_spec (kb_read_u32 descriptor KB_DRM_IOCTL_DESC_CMD_OFFSET m) command) as [Hcmd|]; cbn [negb orb] in E; [|by injection E as <- _].
  set (fn := kb_read_ptr descriptor KB_DRM_IOCTL_DESC_FUNC_OFFSET m) in *. destruct (Z.eqb_spec fn 0) as [|Hfn]; [by injection E as <- _|]. destruct (df_render_node x && _) eqn:Hr; [by injection E as <- _|].
  exists fn. split_and!; try done; [lia| |].
  - intros Hrn. rewrite Hrn in Hr. by apply Z.eqb_neq in Hr.
  - unfold kb_drm_call_driver_ioctl in E. rewrite (proj2 (Z.eqb_neq fn 0)) in E by done. pose proof (calls_call fn [dr_device device; argument; df_drm_file x] s) as H. rewrite E in H. exact H.
Qed.

(** Opened files own their memory.  Opening a file allocates its structure and keeps it
    in exactly one new record, or frees it again when the driver refuses, or does nothing;
    releasing a file takes exactly its record out and frees its structure once; no other
    operation on the devices does either.  No null pointer is followed, a file has at most
    one record, and the module context is what it was before, whatever the driver's functions
    do to memory. *)
Theorem drm_files_own_their_memory op s : drm_ok s -> op_ok op ->
  exists s' r, run_drm op s = Some (s', r) /\ drm_ok s' /\ ds_active s' = ds_active s /\ ds_gs s' = ds_gs s /\
  match op with
  | DrmOpen _ f kzalloc =>
      (r = 0 /\ f <> 0 /\ kzalloc <> 0 /\ ds_freed s' = ds_freed s /\ exists x, opened s' ≡ₚ x :: opened s /\ df_linux_file x = f /\ df_drm_file x = kzalloc) \/
      (r <> 0 /\ opened s' = opened s /\ (ds_freed s' = ds_freed s \/ (kzalloc <> 0 /\ ds_freed s' = ds_freed s ++ [kzalloc])))
  | DrmRelease f =>
      (r = 0 /\ exists x, opened s ≡ₚ x :: opened s' /\ df_linux_file x = f /\ ds_freed s' = ds_freed s ++ [df_drm_file x]) \/
      (r = -9 /\ s' = s /\ f ∉ df_linux_file <$> opened s)
  | _ => opened s' = opened s /\ ds_freed s' = ds_freed s
  end.
Proof.
  intros Hok Hop. destruct op as [driver parent k|device malloc k1 k2|device|inode f k|f|f command argument]; cbn [run_drm op_ok] in *.
  - destruct (kb_drm_dev_alloc driver parent k s) as [s' r] eqn:E. exists s', r. split; [done|]. assert (same_files s s') as (F1 & F2 & F3 & F4) by (unfold kb_drm_dev_alloc in E; repeat case_match; by injection E as <- <-).
    unfold opened. rewrite F1. split_and!; try done. by apply (same_ok s).
  - pose proof (same_register device malloc k1 k2 s) as (F1 & F2 & F3 & F4). destruct (kb_drm_dev_register e device malloc k1 k2 s) as [s' r]. cbn [fst] in *. exists s', r. unfold opened. rewrite F1. split_and!; try done. by apply (same_ok s).
  - exists (kb_drm_dev_unplug device s), 0. split; [done|]. assert (same_files s (kb_drm_dev_unplug device s)) as (F1 & F2 & F3 & F4) by (unfold kb_drm_dev_unplug; by case_match).
    unfold opened. rewrite F1. split_and!; try done. by apply (same_ok s).
  - by apply open_lemma.
  - by apply release_lemma.
  - by apply ioctl_lemma.
Qed.
End theorems.

(** *** A driver without functions of its own *)

Definition drm_sample_env : drm_env := mk_drm_env [] (fun _ => None) (fun _ _ m => (m, 0)) 0x5000.
Definition drm_sample : drm_state :=
  let s := drm_init (kobj_state_init (mstore64 (mstore64 ∅ (0x3000 + KB_DRM_DRIVER_FOPS_OFFSET) 0x4000) (0x6000 + 0x238) 0x20000)) in
  let s := (kb_drm_dev_alloc 0x3000 0 0x10000 s).1 in
  (kb_drm_dev_register drm_sample_env 0x10000 true 0x20000 0 s).1.
Lemma drm_init_ok o : drm_ok (drm_init o).
Proof. constructor; unfold opened; cbn -[replicate]; [by apply NoDup_nil_2|]. intros r Hr. by apply elem_of_nil in Hr. Qed.
(** One file open on it, and another on nothing. *)
Definition drm_opened_sample : drm_state :=
  mk_drm_state [mk_drm_device 0x10000 0x3000 0x20000 0 true false] [zero_drm_file; mk_drm_file 0x7000 0x30000 (Some 0%nat) false] (mk_kobj_state [] [] [] [] false 240 ∅) [] [] 0 0.
Lemma drm_opened_sample_ok : drm_ok drm_opened_sample.
Proof. constructor; [apply NoDup_singleton|]. intros r Hr%list_elem_of_singleton. subst r. by eexists. Qed.
Lemma drm_files_own_their_memory_witness :
  exists s' r, run_drm drm_sample_env (DrmRelease 0x7000) drm_opened_sample = Some (s', r) /\
  ((r = 0 /\ exists x, opened drm_opened_sample ≡ₚ x :: opened s' /\ df_linux_file x = 0x7000 /\ ds_freed s' = ds_freed drm_opened_sample ++ [df_drm_file x]) \/
   (r = -9 /\ s' = drm_opened_sample /\ 0x7000 ∉ df_linux_file <$> opened drm_opened_sample)).
Proof.
  destruct (drm_files_own_their_memory drm_sample_env (DrmRelease 0x7000) drm_opened_sample drm_opened_sample_ok ltac:(discriminate)) as (s' & r & E & _ & _ & _ & H).
  exists s', r. split; [exact E|exact H].
Defined.
Example drm_release_computed :
  match run_drm drm_sample_env (DrmRelease 0x7000) drm_opened_sample with Some (s, r) => r = 0 /\ opened s = [] /\ ds_freed s = [0x30000] | None => False end.
Proof. by vm_compute. Qed.

(** Unplugging a null device marks the first free place of the table, and the device made
    there later is never entered. *)
Theorem unplug_null_marks_next_device :
  let s := kb_drm_dev_unplug 0 (drm_init (kobj_state_init ∅)) in
  let '(s, device) := kb_drm_dev_alloc 0x3000 0 0x10000 s in
  device = 0x10000 /\ kb_drm_dev_enter device true s = (None, 0).
Proof. by vm_compute. Qed.

(** A second device is published under the number of the first, where the registry finds only
    the first. *)
Theorem second_device_is_shadowed :
  let s := (kb_drm_dev_alloc 0x3000 0 0x11000 drm_sample).1 in
  let '(s, r) := kb_drm_dev_register drm_sample_env 0x11000 true 0x21000 0 s in
  r = 0 /\ kb_linux_kernel_find_active_cdev (ds_objects s) (kb_linux_kernel_encode_dev KB_DRM_MAJOR KB_DRM_CARD0_MINOR) = kb_cdev_records (ds_objects s) !! 0%nat /\
  cv_cdev <$> kb_cdev_records (ds_objects s) !! 0%nat = Some 0x20000 /\
  (fun c => (cv_cdev c, cv_active c, cv_dev c)) <$> kb_cdev_records (ds_objects s) !! 1%nat = Some (0x21000, true, kb_linux_kernel_encode_dev KB_DRM_MAJOR KB_DRM_CARD0_MINOR).
Proof. by vm_compute. Qed.
