(* ===== verification/StubHelpers.v ===== *)
(** * String and memory helpers (src/src/linux_personality/linux_stubs.c)

    Bounded copies, searches, number parsing and the counters a module reaches through the
    kernel's names.  The second part shows that the copies never write past the size given and
    always terminate the string, and what the searches and the parser find. *)

From S2P Require Import Prelude Memory Heap.

(** ** The code *)

Definition kb_strlcpy (dst src size : Z) (m : mem) : mem * Z :=
  if src =? 0 then ((if negb (dst =? 0) && (0 <? size) then mstore m dst [0] else m), 0)
  else
    let text := mem_string m src in
    let len := blen text in
    let m := if negb (dst =? 0) && (0 <? size) then
               let copy := if size <=? len then size - 1 else len in
               mstore (mstore m dst (take (Z.to_nat copy) text)) (dst + copy) [0]
             else m in
    (m, len).

(** The loop of kb_sized_strscpy: copied bytes are seen by the reads that follow. *)
Fixpoint strscpy_loop (steps : nat) (i dst src : Z) (m : mem) : mem * Z :=
  match steps with
  | O => (m, i)
  | S steps =>
      let c := mem_byte m (src + i) in
      if c =? 0 then (m, i) else strscpy_loop steps (i + 1) dst src (mstore m (dst + i) [c])
  end.
Definition kb_sized_strscpy (dst src size : Z) (m : mem) : mem * Z :=
  if (dst =? 0) || (src =? 0) then (m, -22)
  else if size =? 0 then (m, -7)
  else
    let '(m, i) := strscpy_loop (Z.to_nat (size - 1)) 0 dst src m in
    let m := mstore m (dst + i) [0] in
    (m, if mem_byte m (src + i) =? 0 then i else -7).

(** isspace() of the C locale. *)
Definition isspace (c : Z) : bool := (c =? 32) || ((9 <=? c) && (c <=? 13)).
Definition kb_skip_spaces (str : Z) (m : mem) : Z :=
  if str =? 0 then 0
  else str + Z.of_nat (match list_find (fun c => isspace c = false) (mem_string m str) with Some (i, _) => i | None => length (mem_string m str) end).

Definition kb_memcpy_and_pad (dest dest_len src count pad : Z) (m : mem) : mem :=
  if (dest =? 0) || (dest_len =? 0) then m
  else
    let copy_len := if count <? dest_len then count else dest_len in
    let m := if (0 <? copy_len) && negb (src =? 0) then memcpy_bytes dest src copy_len m else m in
    if copy_len <? dest_len then mset m (dest + copy_len) (dest_len - copy_len) (u8 pad) else m.

Definition FILE_MODE_OFFSET : Z := 0x0c.
Definition FILE_VERSION_OFFSET : Z := 0x30.
Definition FILE_POSITION_OFFSET : Z := 0x70.
Definition FMODE_UNSIGNED_OFFSET : Z := 0x2000.
Definition kb_vfs_setpos (file offset maxsize : Z) (m : mem) : mem * Z :=
  if file =? 0 then (m, -22)
  else if ((offset <? 0) && (Z.land (mload32 m (file + FILE_MODE_OFFSET)) FMODE_UNSIGNED_OFFSET =? 0)) || (maxsize <? offset) then (m, -22)
  else if s64 (mload64 m (file + FILE_POSITION_OFFSET)) =? offset then (m, offset)
  else (mstore64 (mstore64 m (file + FILE_POSITION_OFFSET) (u64 offset)) (file + FILE_VERSION_OFFSET) 0, offset).

Definition kb_strreplace (s old_char new_char : Z) (m : mem) : mem :=
  if s =? 0 then m else mstore m s ((fun c => if c =? old_char then new_char else c) <$> mem_string m s).

(** [while (value != 0)], eight bits. *)
Fixpoint byte_weight (steps : nat) (value count : Z) : Z :=
  match steps with O => count | S steps => if value =? 0 then count else byte_weight steps (Z.shiftr value 1) (count + Z.land value 1) end.
Definition kb_memweight (ptr bytes : Z) (m : mem) : Z :=
  if ptr =? 0 then 0 else foldl (fun count b => byte_weight 8 b count) 0 (mload m ptr (Z.to_nat bytes)).

Definition kb_memchr_inv (start value bytes : Z) (m : mem) : Z :=
  if start =? 0 then 0
  else match list_find (fun b => b <> u8 value) (mload m start (Z.to_nat bytes)) with Some (i, _) => start + Z.of_nat i | None => 0 end.

(** *** Numbers *)

Definition digit_value (c : Z) : option Z :=
  if (48 <=? c) && (c <=? 57) then Some (c - 48)
  else if (97 <=? c) && (c <=? 122) then Some (c - 87)
  else if (65 <=? c) && (c <=? 90) then Some (c - 55)
  else None.
(** The digits of a base at the front of a string: their value and what follows. *)
Fixpoint digits (base value : Z) (text : list Z) : Z * list Z :=
  match text with
  | c :: rest => match digit_value c with Some d => if d <? base then digits base (value * base + d) rest else (value, text) | None => (value, text) end
  | [] => (value, [])
  end.
Definition LONG_MAX : Z := 0x7fffffffffffffff.
(** strtol() for a base other than 0 and 16, in the C locale: the value, and the rest when
    there was a number. *)
Definition strtol (base : Z) (text : list Z) : Z * option (list Z) :=
  let body := drop (match list_find (fun c => isspace c = false) text with Some (i, _) => i | None => length text end) text in
  let '(negative, body) := match body with 45 :: b => (true, b) | 43 :: b => (false, b) | b => (false, b) end in
  let '(value, rest) := digits base 0 body in
  if Nat.eqb (length rest) (length body) then (0, None)
  else (Z.max (- LONG_MAX - 1) (Z.min LONG_MAX (if negative then - value else value)), Some rest).

(** [from] and [to] at 0 and 8; the result is [None] when nothing is stored. *)
Definition kb_parse_substring_int (substring base : Z) (result : bool) (m : mem) : option Z * Z :=
  if (substring =? 0) || negb result then (None, -22)
  else
    let from := mload64 m substring in
    let to := mload64 m (substring + 8) in
    if (from =? 0) || (to =? 0) || (to <? from) then (None, -22)
    else if 64 <=? to - from then (None, -22)
    else
      (* the C string in the buffer ends at the first zero *)
      let buffer := bounded_string m from (Z.to_nat (to - from)) in
      match strtol base buffer with
      | (value, Some []) => (Some (s32 value), 0)
      | _ => (None, -22)
      end.
Definition kb_match_int (substring : Z) (result : bool) (m : mem) : option Z * Z := kb_parse_substring_int substring 10 result m.
Definition kb_match_octal (substring : Z) (result : bool) (m : mem) : option Z * Z := kb_parse_substring_int substring 8 result m.
Definition kb_match_token (string : Z) (m : mem) : Z := if (string =? 0) || (mem_byte m string =? 0) then 0 else -1.

Definition kb_get_random_u32_below (ceil : Z) : Z := if ceil =? 0 then 0 else 1 mod ceil.
Definition kb_generate_random_uuid (uuid : Z) (m : mem) : mem := if uuid =? 0 then m else mstore (mzero m uuid 16) (uuid + 15) [1].
Definition kb_d_path (buffer buffer_length : Z) (m : mem) : mem * Z :=
  if (buffer =? 0) || (buffer_length <=? 0) then (m, 0) else (mstore m buffer [0], buffer).

(** *** Counters and copies in the heap *)

Definition KB_PERCPU_COUNTER_STRIDE : Z := 0x28.
Definition KB_PERCPU_COUNTER_COUNT_OFFSET : Z := 0x8.
Definition KB_PERCPU_COUNTER_POINTER_OFFSET : Z := 0x20.

Section heap.
Context {P : Type} (pages : page_source P) (pachaos : bool) (getenv : string -> option string).
Implicit Types s : @heap_state P.

Definition kb_kmemdup_nul (src len flags : Z) (h : heap_allocs) s : @heap_state P * Z :=
  let '(s, dst) := kb_kmalloc pages pachaos getenv (u64 (len + 1)) flags h s in
  if dst =? 0 then (s, 0)
  else (with_mem pages (fun m =>
          let m := if negb (src =? 0) && (0 <? len) then memcpy_bytes dst src len m else m in
          mstore m (dst + len) [0]) s, dst).

Definition counter_init (counters local_counts amount : Z) (m : mem) (i : Z) : mem :=
  let counter := counters + i * KB_PERCPU_COUNTER_STRIDE in
  mstore64 (mstore64 m (counter + KB_PERCPU_COUNTER_COUNT_OFFSET) (u64 amount)) (counter + KB_PERCPU_COUNTER_POINTER_OFFSET) (local_counts + 4 * i).
Definition kb_percpu_counter_init_many_stub (counters amount count : Z) (h : heap_allocs) s : @heap_state P * Z :=
  if (counters =? 0) || (count =? 0) then (s, -22)
  else
    let '(s, local_counts) := kb_kzalloc pages pachaos getenv (count * 4) h s in
    if local_counts =? 0 then (with_mem pages (fun m => mstore64 m (counters + KB_PERCPU_COUNTER_POINTER_OFFSET) 0) s, -12)
    else (with_mem pages (fun m => foldl (counter_init counters local_counts amount) m (seqZ 0 count)) s, 0).
Definition kb_percpu_counter_destroy_many (counters count : Z) s : @heap_state P :=
  if (counters =? 0) || (count =? 0) then s
  else
    let local_counts := mload64 (hp_mem pages s) (counters + KB_PERCPU_COUNTER_POINTER_OFFSET) in
    let s := with_mem pages (fun m =>
      foldl (fun m i => mstore64 m (counters + i * KB_PERCPU_COUNTER_STRIDE + KB_PERCPU_COUNTER_POINTER_OFFSET) 0) m (seqZ 0 count)) s in
    kb_kfree pages local_counts s.
End heap.
Definition kb_percpu_counter_add_batch_stub (counter amount : Z) (m : mem) : mem :=
  if counter =? 0 then m
  else mstore64 m (counter + KB_PERCPU_COUNTER_COUNT_OFFSET) (u64 (s64 (mload64 m (counter + KB_PERCPU_COUNTER_COUNT_OFFSET)) + amount)).
Definition kb_percpu_counter_sum_stub (counter : Z) (m : mem) : Z := if counter =? 0 then 0 else s64 (mload64 m (counter + KB_PERCPU_COUNTER_COUNT_OFFSET)).

(** The name of a task: [current] is the active module's current task. *)
Definition KB_STUB_TASK_COMM_OFFSET : Z := 0xbd8.
Definition KB_STUB_TASK_COMM_LEN : Z := 16.
Definition kb_get_task_comm (buf buf_size task current : Z) (m : mem) : mem :=
  if (buf =? 0) || (buf_size =? 0) then m
  else
    let m := mzero m buf buf_size in
    let task := if task =? 0 then current else task in
    let limit := Z.min (buf_size - 1) KB_STUB_TASK_COMM_LEN in
    let comm := if task =? 0 then take (Z.to_nat limit) (cstr "kobox") else bounded_string m (task + KB_STUB_TASK_COMM_OFFSET) (Z.to_nat limit) in
    mstore m buf comm.

(** *** Tables of settings *)

(** A registration is named by its address, newest first; a path takes 95 bytes at most. *)
Record kb_sysctl_registration := mk_sysctl { sy_address : Z; sy_path : list Z; sy_table_name : Z; sy_table : Z; sy_table_size : Z; sy_sequence : Z }.
Record sysctl_state := mk_sysctl_state { sysctl_registrations : list kb_sysctl_registration; sysctl_registration_sequence : Z }.
(** [calloc]: the address of the new registration, 0 when there is no memory. *)
Definition register_sysctl_common (path : option (list Z)) (table table_name table_size calloc : Z) (s : sysctl_state) : sysctl_state * Z :=
  if calloc =? 0 then (s, 0)
  else
    let sequence := u64 (sysctl_registration_sequence s + 1) in
    (mk_sysctl_state (mk_sysctl calloc (take 95 (default [] path)) table_name table table_size sequence :: sysctl_registrations s) sequence, calloc).
Definition kb_register_sysctl_init (path : option (list Z)) (table table_name table_size calloc : Z) (s : sysctl_state) : sysctl_state * Z :=
  register_sysctl_common path table table_name table_size calloc s.
Definition kb_register_sysctl_sz (path : option (list Z)) (table table_size calloc : Z) (s : sysctl_state) : sysctl_state * Z :=
  register_sysctl_common path table 0 table_size calloc s.
Definition kb_unregister_sysctl_table (header : Z) (s : sysctl_state) : sysctl_state :=
  match first_index (fun r => sy_address r =? header) (sysctl_registrations s) with
  | Some i => mk_sysctl_state (delete i (sysctl_registrations s)) (sysctl_registration_sequence s)
  | None => s
  end.

(** ** Bounded copies *)

Lemma bounded_string_prefix m a n k : exists rest, bounded_string m a (n + k) = bounded_string m a n ++ rest /\ (length (bounded_string m a n) < n -> rest = [])%nat.
Proof.
  revert a. induction n as [|n IH]; intros a; cbn [bounded_string Nat.add]; [exists (bounded_string m a k); split; [done|cbn; lia]|].
  destruct (mem_byte m a =? 0); [by exists []|]. destruct (IH (a + 1)) as (rest & -> & H). exists rest. split; [done|]. cbn. intros. apply H. lia.
Qed.
Lemma length_bounded_string m a n : (length (bounded_string m a n) <= n)%nat.
Proof. revert a. induction n as [|n IH]; intros a; cbn [bounded_string]; [done|]. destruct (mem_byte m a =? 0); cbn; [lia|]. specialize (IH (a + 1)). lia. Qed.
Lemma bounded_string_ends m a n : (length (bounded_string m a n) < n)%nat -> mem_byte m (a + blen (bounded_string m a n)) = 0.
Proof.
  revert a. induction n as [|n IH]; intros a; cbn [bounded_string]; [lia|]. destruct (Z.eqb_spec (mem_byte m a) 0) as [H|H]; [intros _; unfold blen; cbn; by rewrite Z.add_0_r|]. cbn [length]. intros Hl.
  rewrite <- (IH (a + 1)) by lia. f_equal. unfold blen. cbn [length]. lia.
Qed.
Lemma bounded_string_ext m m' a n : (forall i, 0 <= i < Z.of_nat n -> mem_byte m' (a + i) = mem_byte m (a + i)) -> bounded_string m' a n = bounded_string m a n.
Proof.
  revert a. induction n as [|n IH]; intros a H; cbn [bounded_string]; [done|]. assert (mem_byte m' a = mem_byte m a) as -> by (specialize (H 0); rewrite Z.add_0_r in H; apply H; lia). destruct (mem_byte m a =? 0); [done|]. f_equal. apply IH. intros i Hi. rewrite <- !Z.add_assoc. apply H. lia.
Qed.

Lemma mem_byte_store1 m a c x : mem_byte (mstore m a [c]) x = if decide (x = a) then c else mem_byte m x.
Proof. rewrite mem_byte_mstore. unfold blen. cbn [length]. case_decide; case_decide; try lia. subst. by rewrite Z.sub_diag. Qed.

(** The loop copies the string up to its end or the room there is. *)
Lemma strscpy_loop_spec steps : forall i dst src m, 0 <= i ->
  (forall j k, 0 <= j < i + Z.of_nat steps -> 0 <= k <= i + Z.of_nat steps -> dst + j <> src + k) ->
  let text := bounded_string m (src + i) steps in
  let '(m', n) := strscpy_loop steps i dst src m in
  n = i + blen text /\ m' = mstore m (dst + i) text.
Proof.
  induction steps as [|k IH]; intros i dst src m Hi Hd; cbn [strscpy_loop bounded_string]; [unfold blen; cbn; split; [lia|done]|].
  destruct (Z.eqb_spec (mem_byte m (src + i)) 0) as [H0|H0]; [unfold blen; cbn; split; [lia|done]|]. set (c := mem_byte m (src + i)).
  specialize (IH (i + 1) dst src (mstore m (dst + i) [c]) ltac:(lia)). destruct (strscpy_loop k (i + 1) dst src (mstore m (dst + i) [c])) as [m' n]. destruct IH as [-> ->]; [intros j x Hj Hx; apply Hd; lia|].
  assert (bounded_string (mstore m (dst + i) [c]) (src + (i + 1)) k = bounded_string m (src + i + 1) k) as ->.
  { replace (src + (i + 1)) with (src + i + 1) by lia. apply bounded_string_ext. intros j Hj. rewrite mem_byte_store1. rewrite decide_False; [done|]. intros E. apply (Hd i (i + 1 + j)); lia. }
  unfold blen. cbn [length mstore]. split; [lia|]. by replace (dst + i + 1) with (dst + (i + 1)) by lia.
Qed.

(** kb_sized_strscpy into a buffer apart from the string: the string or as much of it as fits
    before a terminator, its length or -7 if it was cut, and nothing past the size given. *)
Theorem strscpy_bounded dst src size m : dst <> 0 -> src <> 0 -> 0 < size ->
  (forall j k, 0 <= j < size -> 0 <= k < size -> dst + j <> src + k) ->
  let text := bounded_string m src (Z.to_nat (size - 1)) in
  let '(m', r) := kb_sized_strscpy dst src size m in
  m' = mstore (mstore m dst text) (dst + blen text) [0] /\ blen text < size /\
  bounded_string m' dst (Z.to_nat size) = text /\
  r = (if mem_byte m (src + blen text) =? 0 then blen text else -7) /\
  forall x, x < dst \/ dst + size <= x -> mem_byte m' x = mem_byte m x.
Proof.
  intros Hd Hs Hsz Hap. unfold kb_sized_strscpy. rewrite (proj2 (Z.eqb_neq dst 0)), (proj2 (Z.eqb_neq src 0)), (proj2 (Z.eqb_neq size 0)) by lia. cbn [orb].
  pose proof (strscpy_loop_spec (Z.to_nat (size - 1)) 0 dst src m ltac:(lia)) as H. rewrite !Z.add_0_r in H. set (text := bounded_string m src (Z.to_nat (size - 1))) in *.
  destruct (strscpy_loop (Z.to_nat (size - 1)) 0 dst src m) as [m1 n]. destruct H as [-> ->]; [intros j k Hj Hk; apply Hap; lia|]. rewrite Z.add_0_l. set (m' := mstore _ (dst + blen text) [0]).
  assert (blen text < size) as Hlt by (pose proof (length_bounded_string m src (Z.to_nat (size - 1))); unfold blen, text; lia).
  assert (forall x, mem_byte m' x = if decide (x = dst + blen text) then 0 else if decide (dst <= x < dst + blen text) then nth (Z.to_nat (x - dst)) text 0 else mem_byte m x) as Hb.
  { intros x. unfold m'. rewrite mem_byte_store1. case_decide; [done|]. apply mem_byte_mstore. }
  assert (0 <= blen text) as H0 by (unfold blen; lia). split_and!; [done|done| | |].
  - assert (forall k d l, (forall i, (i < length l)%nat -> mem_byte m' (d + Z.of_nat i) = nth i l 0 /\ nth i l 0 <> 0) -> mem_byte m' (d + blen l) = 0 -> (length l < k)%nat -> bounded_string m' d k = l) as Hread.
    { clearbody m'. clear. induction k as [|k IH]; intros d l Hl He Hk; [lia|]. cbn [bounded_string]. destruct l as [|c l]; [change (blen []) with 0 in He; rewrite Z.add_0_r in He; by rewrite He|].
      destruct (Hl 0%nat) as [H1 H2]; [cbn; lia|]. cbn [nth] in *. rewrite Z.add_0_r in H1. rewrite H1, (proj2 (Z.eqb_neq _ _)) by done. f_equal. apply IH; [|unfold blen in *; cbn [length] in He; rewrite <- He; f_equal; lia|cbn in Hk; lia].
      intros i Hi. specialize (Hl (S i) ltac:(cbn; lia)). cbn [nth] in Hl. by replace (d + 1 + Z.of_nat i) with (d + Z.of_nat (S i)) by lia. }
    apply Hread; [|rewrite Hb; by rewrite decide_True|unfold blen in *; lia]. intros i Hi. rewrite Hb. rewrite decide_False, decide_True by (unfold blen; lia). replace (Z.to_nat (dst + Z.of_nat i - dst)) with i by lia. split; [done|].
    unfold text. clear - Hi. unfold text in Hi. revert Hi. generalize (Z.to_nat (size - 1)), src, i. clear. intros n. induction n as [|n IH]; intros src i Hi; cbn [bounded_string] in *; [cbn in Hi; lia|].
    destruct (Z.eqb_spec (mem_byte m src) 0); cbn [length] in Hi; [lia|]. destruct i as [|i]; [done|]. cbn [nth]. apply IH. lia.
  - rewrite Hb. rewrite !decide_False; [done|intros ?|intros E]; [|by apply (Hap (blen text) (blen text))]. apply (Hap (src + blen text - dst) (blen text)); lia.
  - intros x Hx. rewrite Hb. by rewrite !decide_False by lia.
Qed.

(** ** Searches *)

Theorem memchr_inv_spec start value bytes m : start <> 0 -> 0 <= bytes ->
  let r := kb_memchr_inv start value bytes m in
  (r = 0 /\ forall i, 0 <= i < bytes -> mem_byte m (start + i) = u8 value) \/
  (exists i, r = start + i /\ 0 <= i < bytes /\ mem_byte m (start + i) <> u8 value /\ forall j, 0 <= j < i -> mem_byte m (start + j) = u8 value).
Proof.
  intros Hs Hb. unfold kb_memchr_inv. rewrite (proj2 (Z.eqb_neq start 0)) by done. destruct (list_find _ _) as [[i b]|] eqn:E; cbv zeta.
  - right. apply list_find_Some in E as (Hi & Hne & Hall). rewrite lookup_mload in Hi. case_decide as Hlt; [|done]. injection Hi as <-. exists (Z.of_nat i). split_and!; [done|lia|lia|done|]. intros j Hj.
    destruct (decide (mem_byte m (start + j) = u8 value)) as [|Hn]; [done|]. destruct (Hall (Z.to_nat j) (mem_byte m (start + j))); [|lia|done]. rewrite lookup_mload, decide_True, Z2Nat.id by lia. done.
  - left. split; [done|]. apply list_find_None in E. rewrite Forall_lookup in E. intros i Hi. destruct (decide (mem_byte m (start + i) = u8 value)) as [|Hn]; [done|]. exfalso. apply (E (Z.to_nat i) (mem_byte m (start + i))); [|done].
    rewrite lookup_mload, decide_True, Z2Nat.id by lia. done.
Qed.

(** The number of bits set. *)
Definition popcount (b : Z) : Z := foldr Z.add 0 ((fun i => Z.b2z (Z.testbit b i)) <$> seqZ 0 8).
Lemma byte_weight_spec b c : is_u8 b -> byte_weight 8 b c = c + popcount b.
Proof.
  intros Hb. assert (forall x, x ∈ seqZ 0 256 -> byte_weight 8 x 0 = popcount x) as H.
  { apply Forall_forall. apply (bool_decide_unpack _). by vm_compute. }
  assert (forall n v k, byte_weight n v k = k + byte_weight n v 0) as Hlin. { clear. induction n as [|n IH]; intros v k; cbn [byte_weight]; [lia|]. destruct (v =? 0); [lia|]. rewrite IH, (IH _ (0 + _)). lia. }
  rewrite Hlin, H; [done|]. apply elem_of_seqZ. unfold is_u8 in Hb. lia.
Qed.
Theorem memweight_counts_bits ptr bytes m : mem_ok m -> ptr <> 0 -> kb_memweight ptr bytes m = foldr Z.add 0 (popcount <$> mload m ptr (Z.to_nat bytes)).
Proof.
  intros Hm Hp. unfold kb_memweight. rewrite (proj2 (Z.eqb_neq ptr 0)) by done. assert (forall n a c, foldl (fun count b => byte_weight 8 b count) c (mload m a n) = c + foldr Z.add 0 (popcount <$> mload m a n)) as H; [|by rewrite H, Z.add_0_l].
  induction n as [|n IH]; intros a c; cbn [mload foldl fmap list_fmap foldr]; [lia|]. rewrite byte_weight_spec by by apply mem_byte_ok. rewrite IH. cbn [foldr]. unfold fmap. lia.
Qed.

(** ** Numbers *)

(** A number too large for an int is cut to 32 bits and accepted. *)
Theorem match_int_truncates :
  let m := mstore (mstore64 (mstore64 ∅ 0x1000 0x2000) 0x1008 0x200a) 0x2000 (cstr "4294967299") in
  kb_match_int 0x1000 true m = (Some 3, 0).
Proof. by vm_compute. Qed.

Lemma s64_of_u64 z : s64 (u64 z) = s64 z.
Proof. unfold s64, u64. by rewrite Z.add_mod_idemp_l. Qed.
Lemma s64_add y b : s64 (s64 y + b) = s64 (y + b).
Proof.
  unfold s64. f_equal. replace ((y + 0x8000000000000000) mod 0x10000000000000000 - 0x8000000000000000 + b + 0x8000000000000000) with ((y + 0x8000000000000000) mod 0x10000000000000000 + b) by lia.
  rewrite Z.add_mod_idemp_l by done. f_equal. lia.
Qed.
(** A counter counts, modulo 2^64. *)
Theorem percpu_add_sum counter a b m : mem_ok m -> counter <> 0 ->
  kb_percpu_counter_sum_stub counter (kb_percpu_counter_add_batch_stub counter b (kb_percpu_counter_add_batch_stub counter a m)) = s64 (kb_percpu_counter_sum_stub counter m + a + b).
Proof.
  intros Hm Hc. unfold kb_percpu_counter_sum_stub, kb_percpu_counter_add_batch_stub. rewrite (proj2 (Z.eqb_neq counter 0)) by done. set (p := counter + _).
  assert (forall z, is_u64 (u64 z)) as Hu by (intros; apply Z.mod_pos_bound; lia). rewrite !mload64_mstore64_same by auto. rewrite !s64_of_u64. by rewrite s64_add.
Qed.

(** ** Tables of settings *)

(** Whatever else has been registered since, taking a registration back leaves the others, in
    their order. *)
Theorem sysctl_unregister_takes_one header r before after n : sy_address r = header -> header ∉ sy_address <$> before ->
  kb_unregister_sysctl_table header (mk_sysctl_state (before ++ r :: after) n) = mk_sysctl_state (before ++ after) n.
Proof.
  intros Hr Hb. unfold kb_unregister_sysctl_table. cbn [sysctl_registrations sysctl_registration_sequence].
  assert (first_index (fun x => sy_address x =? header) (before ++ r :: after) = Some (length before)) as ->.
  { apply first_index_Some. exists r. split_and!; [by rewrite list_lookup_middle|by apply Z.eqb_eq|]. intros j y Hj Hlt. rewrite lookup_app_l in Hj by done. apply Z.eqb_neq. intros <-. apply Hb, list_elem_of_fmap. exists y. split; [done|]. by apply list_elem_of_lookup_2 with j. }
  f_equal. by rewrite delete_middle.
Qed.
