(* ===== verification/Sync.v ===== *)
(** * Synchronisation (src/src/linux_personality/linux_sync.c, and the wake-up of kernel
      threads in linux_stubs.c)

    Deferred reclamation (RCU), mutexes, completions, and wait queues: rings of entries in
    the module's memory, each with the function that wakes it.  SyncTheorems.v has the
    theorems.  The threads of kobox run one at a time and give way only where they say so:
    atomic operations are single steps here, and what other threads do meanwhile is a
    parameter. *)

From S2P Require Import Prelude Memory RbTree LinkedLists.

(** ** Constants *)

Definition KB_WAITQUEUE_HEAD_OFFSET : Z := 8.
Definition KB_WAITQUEUE_ENTRY_FLAGS_OFFSET : Z := 0.
Definition KB_WAITQUEUE_ENTRY_PRIVATE_OFFSET : Z := 8.
Definition KB_WAITQUEUE_ENTRY_FUNC_OFFSET : Z := 16.
Definition KB_WAITQUEUE_ENTRY_LIST_OFFSET : Z := 24.
Definition KB_WQ_FLAG_EXCLUSIVE : Z := 0x01.
Definition KB_WQ_FLAG_WOKEN : Z := 0x02.
Definition KB_WAIT_BIT_KEY_SIZE : Z := 24.
Definition KB_VAR_WAITQUEUE_COUNT : Z := 256.

(** ** RCU *)

Record kb_rcu_callback := mk_rcu { rc_head : Z; rc_callback : Z; rc_free_ptr : Z }.
(** What a drain does for a record: a call with the head, or kb_kfree. *)
Inductive rcu_event := Called (callback head : Z) | Freed (ptr : Z).

(** [rcu_events] are the calls and frees so far, each with the readers there were. *)
Record rcu_state := mk_rcu_state { rcu_readers : Z; rcu_callbacks : list kb_rcu_callback; rcu_events : list (rcu_event * Z) }.
#[export] Instance rcu_state_eta : Settable rcu_state := fun s => mk_rcu_state (rcu_readers s) (rcu_callbacks s) (rcu_events s).

(** [calloc]: whether there is memory for the record. *)
Definition rcu_enqueue (head callback free_ptr : Z) (calloc : bool) (s : rcu_state) : rcu_state :=
  if negb calloc then s else s <| rcu_callbacks ::= fun l => l ++ [mk_rcu head callback free_ptr] |>.
Definition rcu_pop (s : rcu_state) : rcu_state * option kb_rcu_callback :=
  match rcu_callbacks s with
  | [] => (s, None)
  | record :: l => (s <| rcu_callbacks := l |>, Some record)
  end.
Definition rcu_log (event : rcu_event) (s : rcu_state) : rcu_state := s <| rcu_events ::= fun l => l ++ [(event, rcu_readers s)] |>.

(** What code of a module does with RCU. *)
Inductive rcu_op :=
  | ReadLock
  | ReadUnlock
  | CallRcu (head callback : Z) (calloc : bool)
  | KvfreeCallRcu (head ptr : Z) (calloc : bool).
(** What is left to do: an operation, or the loop of a drain. *)
Inductive rcu_task := Op (op : rcu_op) | Drain.

Definition rcu_drain_callbacks (s : rcu_state) : list rcu_task := if negb (rcu_readers s =? 0) then [] else [Drain].

(** The effect of an operation, and the drain it ends with. *)
Definition kb_rcu_read_lock (s : rcu_state) : rcu_state := s <| rcu_readers ::= fun n => u32 (n + 1) |>.
Definition kb_rcu_read_unlock (s : rcu_state) : rcu_state * list rcu_task :=
  let readers := rcu_readers s in
  let s := if negb (readers =? 0) then s <| rcu_readers := readers - 1 |> else s in
  (s, if readers =? 1 then rcu_drain_callbacks s else []).
Definition kb_call_rcu (head callback : Z) (calloc : bool) (s : rcu_state) : rcu_state * list rcu_task :=
  if callback =? 0 then (s, []) else let s := rcu_enqueue head callback 0 calloc s in (s, rcu_drain_callbacks s).
Definition kb_kvfree_call_rcu (head ptr : Z) (calloc : bool) (s : rcu_state) : rcu_state * list rcu_task :=
  if ptr =? 0 then (s, []) else let s := rcu_enqueue head 0 ptr calloc s in (s, rcu_drain_callbacks s).
Definition rcu_do (op : rcu_op) (s : rcu_state) : rcu_state * list rcu_task :=
  match op with
  | ReadLock => (kb_rcu_read_lock s, [])
  | ReadUnlock => kb_rcu_read_unlock s
  | CallRcu head callback calloc => kb_call_rcu head callback calloc s
  | KvfreeCallRcu head ptr calloc => kb_kvfree_call_rcu head ptr calloc s
  end.

Section rcu.
(** What a callback does with its head. *)
Context (code : Z -> Z -> list rcu_op).

(** What the loop of a drain does with a record: the event, and the operations of the
    callback, which come before the rest of the loop. *)
Definition rcu_dispatch (record : kb_rcu_callback) (s : rcu_state) : rcu_state * list rcu_op :=
  if negb (rc_callback record =? 0) then (rcu_log (Called (rc_callback record) (rc_head record)) s, code (rc_callback record) (rc_head record))
  else if negb (rc_free_ptr record =? 0) then (rcu_log (Freed (rc_free_ptr record)) s, [])
  else (s, []).

(** [None]: not finished after [fuel] steps, as when a callback defers itself again and
    again. *)
Fixpoint rcu_run (fuel : nat) (todo : list rcu_task) (s : rcu_state) : option rcu_state :=
  match todo with
  | [] => Some s
  | task :: todo =>
      match fuel with
      | O => None
      | S fuel =>
          match task with
          | Op op => let '(s, drain) := rcu_do op s in rcu_run fuel (drain ++ todo) s
          | Drain =>
              match rcu_pop s with
              | (s, None) => rcu_run fuel todo s
              | (s, Some record) => let '(s, ops) := rcu_dispatch record s in rcu_run fuel ((Op <$> ops) ++ Drain :: todo) s
              end
          end
      end
  end.

(** [others]: what the threads do that run meanwhile. *)
Fixpoint readers_left (fuel : nat) (others : rcu_state -> rcu_state) (s : rcu_state) : option rcu_state :=
  if negb (rcu_readers s =? 0) then match fuel with O => None | S fuel => readers_left fuel others (others s) end else Some s.
Definition kb_synchronize_rcu (fuel : nat) (others : rcu_state -> rcu_state) (s : rcu_state) : option rcu_state :=
  match readers_left fuel others s with Some s => rcu_run fuel (rcu_drain_callbacks s) s | None => None end.
Fixpoint kb_rcu_barrier (fuel : nat) (others : rcu_state -> rcu_state) (s : rcu_state) : option rcu_state :=
  match fuel with
  | O => None
  | S rest =>
      match kb_synchronize_rcu fuel others s with
      | None => None
      | Some s => match rcu_callbacks s with [] => Some s | _ => kb_rcu_barrier rest others s end
      end
  end.
End rcu.

(** ** Threads *)

Record kb_kthread_record := mk_kthread { kt_task : Z; kt_activated : bool; kt_wait_prepared : bool; kt_wake_pending : bool; kt_finished : bool }.
#[export] Instance kthread_eta : Settable kb_kthread_record := fun t => mk_kthread (kt_task t) (kt_activated t) (kt_wait_prepared t) (kt_wake_pending t) (kt_finished t).

Record sync_state := mk_sync_state { kthread_records : list kb_kthread_record; sy_mem : mem; var_waitqueues_initialized : bool }.
#[export] Instance sync_state_eta : Settable sync_state := fun s => mk_sync_state (kthread_records s) (sy_mem s) (var_waitqueues_initialized s).
Definition with_sync_mem (f : mem -> mem) (s : sync_state) : sync_state := s <| sy_mem ::= f |>.

(** The first record of a task changes. *)
Definition with_kthread (task : Z) (f : kb_kthread_record -> kb_kthread_record) (s : sync_state) : sync_state :=
  match first_index (fun t => kt_task t =? task) (kthread_records s) with Some i => s <| kthread_records ::= alter f i |> | None => s end.
Definition kb_kthread_prepare_wait (task : Z) (s : sync_state) : sync_state :=
  with_kthread task (fun t => t <| kt_wait_prepared := true |> <| kt_wake_pending := false |>) s.
Definition kb_kthread_finish_wait (task : Z) (s : sync_state) : sync_state :=
  with_kthread task (fun t => t <| kt_wait_prepared := false |> <| kt_wake_pending := false |>) s.
Definition kb_wake_up_process (task : Z) (s : sync_state) : sync_state * Z :=
  match first_index (fun t => kt_task t =? task) (kthread_records s) with
  | Some i => (s <| kthread_records ::= alter (fun t => (if kt_wait_prepared t then t <| kt_wake_pending := true |> else t) <| kt_activated := true |>) i |>, 1)
  | None => (s, if task =? 0 then 0 else 1)
  end.
Definition kb_kthread_has_runnable (s : sync_state) : Z := Z.b2z (existsb (fun t => kt_activated t && negb (kt_finished t)) (kthread_records s)).

(** The part of kb_schedule before it gives way, for the active thread with task state
    [state]: whether it goes on at once. *)
Definition kb_schedule_prepare (task state : Z) (s : sync_state) : sync_state * bool :=
  match first_index (fun t => kt_task t =? task) (kthread_records s) with
  | None => (s, false)
  | Some i =>
      match kthread_records s !! i with
      | None => (s, false)
      | Some t =>
          if kt_wait_prepared t || negb (state =? 0) then
            if kt_wake_pending t then (s <| kthread_records ::= alter (fun t => t <| kt_wait_prepared := false |> <| kt_wake_pending := false |>) i |>, true)
            else (s <| kthread_records ::= alter (fun t => t <| kt_activated := false |>) i |>, false)
          else (s, false)
      end
  end.

(** [active]: the task of the thread that is running, when the caller is one; [yielded]: the
    other threads until this one runs again. *)
Definition kb_schedule (active : option Z) (state : Z) (kb_run_deferred_work yielded : sync_state -> sync_state) (s : sync_state) : sync_state :=
  match active with
  | None => kb_run_deferred_work s
  | Some task =>
      let '(s, goes_on) := kb_schedule_prepare task state s in
      if goes_on then s else with_kthread task (fun t => t <| kt_wait_prepared := false |> <| kt_wake_pending := false |>) (yielded s)
  end.

(** ** Mutexes and completions *)

Definition kb_mutex_set_owner (lock owner : Z) (m : mem) : mem := if lock =? 0 then m else mstore64 m lock owner.
Definition kb_mutex_owner (lock : Z) (m : mem) : Z := if lock =? 0 then 0 else mload64 m lock.
Definition kb_mutex_init (lock : Z) (m : mem) : mem := kb_mutex_set_owner lock 0 m.
Definition kb_mutex_unlock (lock : Z) (m : mem) : mem := kb_mutex_set_owner lock 0 m.
Definition kb_mutex_trylock (lock : Z) (m : mem) : mem * Z :=
  if lock =? 0 then (m, 0) else if mload64 m lock =? 0 then (mstore64 m lock 1, 1) else (m, 0).
Definition kb_mutex_is_locked (lock : Z) (m : mem) : Z := Z.b2z (negb (kb_mutex_owner lock m =? 0)).
(** [others]: what runs while this thread gives way. *)
Fixpoint kb_mutex_lock (fuel : nat) (others : mem -> mem) (lock : Z) (m : mem) : option mem :=
  if lock =? 0 then Some m
  else match fuel with
       | O => None
       | S fuel => if mload64 m lock =? 0 then Some (mstore64 m lock 1) else kb_mutex_lock fuel others lock (others m)
       end.

Definition kb_mutex_lock_interruptible (fuel : nat) (others : mem -> mem) (lock : Z) (m : mem) : option (mem * Z) := (fun m => (m, 0)) <$> kb_mutex_lock fuel others lock m.
Definition kb_mutex_lock_killable (fuel : nat) (others : mem -> mem) (lock : Z) (m : mem) : option (mem * Z) := (fun m => (m, 0)) <$> kb_mutex_lock fuel others lock m.

Definition kb_init_completion (completion : Z) (m : mem) : mem := if completion =? 0 then m else mstore32 m completion 0.
Definition kb_complete (completion : Z) (m : mem) : mem := if completion =? 0 then m else mstore32 m completion 1.
Definition kb_complete_all (completion : Z) (m : mem) : mem := if completion =? 0 then m else mstore32 m completion (UINT32_MAX / 2).

(** The loop of both waits: [progress] is a round of deferred work, polling and interrupts,
    [idle] the wait for an interrupt; the rounds left when it was done. *)
Fixpoint completion_loop (rounds : nat) (progress idle : mem -> mem) (completion : Z) (m : mem) : mem * option nat :=
  match rounds with
  | O => (m, None)
  | S rest =>
      let m := progress m in
      let done := mload32 m completion in
      if negb (done =? 0) then (mstore32 m completion (done - 1), Some rounds)
      else completion_loop rest progress idle completion (idle m)
  end.
Definition kb_wait_for_completion (progress idle : mem -> mem) (completion : Z) (m : mem) : mem * Z :=
  if completion =? 0 then (m, 0)
  else match completion_loop (Z.to_nat 10000) progress idle completion m with (m, Some _) => (m, 1) | (m, None) => (m, 0) end.
Definition kb_wait_for_completion_io_timeout (progress idle : mem -> mem) (completion timeout : Z) (m : mem) : mem * Z :=
  if completion =? 0 then (m, 0)
  else
    let loops := if timeout =? 0 then 20 else if 10000 <? timeout then 10000 else timeout in
    match completion_loop (Z.to_nat loops) progress idle completion m with
    | (m, Some remaining) => (m, if timeout =? 0 then 1 else timeout - (loops - Z.of_nat remaining))
    | (m, None) => (m, 0)
    end.

(** ** Wait queues *)

Definition kb_init_waitqueue_head (wq_head : Z) (m : mem) : mem :=
  if wq_head =? 0 then m else let head := wq_head + 8 in mstore64 (mstore64 m head head) (head + 8) head.

Definition kb_wait_low_pointer (ptr : Z) : bool := (ptr <? 4096) || (UINT64_MAX - 4095 <=? ptr).
Definition kb_wait_list_init (entry : Z) (m : mem) : mem :=
  if kb_wait_low_pointer entry then m else mstore64 (mstore64 m entry entry) (entry + 8) entry.
Definition kb_wait_list_empty (entry : Z) (m : mem) : bool :=
  if kb_wait_low_pointer entry then true else (list_next m entry =? entry) && (list_prev m entry =? entry).
Definition kb_wait_list_add (entry head : Z) (m : mem) : mem :=
  if kb_wait_low_pointer entry || kb_wait_low_pointer head then m
  else
    let next := list_next m head in
    let low := kb_wait_low_pointer next in
    let next := if low then head else next in
    let m := if low then kb_wait_list_init head m else m in
    mstore64 (mstore64 (mstore64 (mstore64 m entry next) (entry + 8) head) head entry) (next + 8) entry.
Definition kb_wait_list_add_tail (entry head : Z) (m : mem) : mem :=
  if kb_wait_low_pointer entry || kb_wait_low_pointer head then m
  else
    let prev := list_prev m head in
    let low := kb_wait_low_pointer prev in
    let prev := if low then head else prev in
    let m := if low then kb_wait_list_init head m else m in
    mstore64 (mstore64 (mstore64 (mstore64 m entry head) (entry + 8) prev) prev entry) (head + 8) entry.
Definition kb_wait_list_del_init (entry : Z) (m : mem) : mem :=
  if kb_wait_low_pointer entry || kb_wait_list_empty entry m then kb_wait_list_init entry m
  else
    let next := list_next m entry in
    let prev := list_prev m entry in
    let m := if negb (kb_wait_low_pointer next) && negb (kb_wait_low_pointer prev) then mstore64 (mstore64 m prev next) (next + 8) prev else m in
    kb_wait_list_init entry m.

Definition kb_waitqueue_head_list (wq_head : Z) : Z := if kb_wait_low_pointer wq_head then 0 else wq_head + KB_WAITQUEUE_HEAD_OFFSET.
Definition kb_waitqueue_entry_list (wq_entry : Z) : Z := if kb_wait_low_pointer wq_entry then 0 else wq_entry + KB_WAITQUEUE_ENTRY_LIST_OFFSET.
Definition kb_waitqueue_entry_flags (wq_entry : Z) (m : mem) : Z := if kb_wait_low_pointer wq_entry then 0 else mload32 m (wq_entry + KB_WAITQUEUE_ENTRY_FLAGS_OFFSET).
Definition kb_waitqueue_entry_set_flags (wq_entry flags : Z) (m : mem) : mem :=
  if kb_wait_low_pointer wq_entry then m else mstore32 m (wq_entry + KB_WAITQUEUE_ENTRY_FLAGS_OFFSET) flags.
Definition kb_waitqueue_entry_task (wq_entry : Z) (m : mem) : Z := if kb_wait_low_pointer wq_entry then 0 else mload64 m (wq_entry + KB_WAITQUEUE_ENTRY_PRIVATE_OFFSET).

Definition kb_add_wait_queue (wq_head wq_entry : Z) (m : mem) : mem :=
  let head := kb_waitqueue_head_list wq_head in
  let entry := kb_waitqueue_entry_list wq_entry in
  if (head =? 0) || (entry =? 0) then m
  else
    let m := kb_waitqueue_entry_set_flags wq_entry (Z.ldiff (kb_waitqueue_entry_flags wq_entry m) KB_WQ_FLAG_EXCLUSIVE) m in
    if kb_wait_list_empty entry m then kb_wait_list_add entry head m else m.
Definition kb_add_wait_queue_exclusive (wq_head wq_entry : Z) (m : mem) : mem :=
  let head := kb_waitqueue_head_list wq_head in
  let entry := kb_waitqueue_entry_list wq_entry in
  if (head =? 0) || (entry =? 0) then m
  else
    let m := kb_waitqueue_entry_set_flags wq_entry (Z.lor (kb_waitqueue_entry_flags wq_entry m) KB_WQ_FLAG_EXCLUSIVE) m in
    if kb_wait_list_empty entry m then kb_wait_list_add_tail entry head m else m.
Definition kb_remove_wait_queue (wq_entry : Z) (m : mem) : mem := kb_wait_list_del_init (kb_waitqueue_entry_list wq_entry) m.

(** Where kobox's own wake functions and the table of hashed queues are, the current task,
    and what a wake function of a module does. *)
Record sync_env := mk_sync_env {
  fn_autoremove : Z; fn_default : Z; fn_woken : Z; fn_var : Z; fn_bit : Z;
  var_waitqueues : Z;
  current_task : Z;
  foreign : Z -> Z -> Z -> sync_state -> sync_state * Z;
}.

Section env.
Context (e : sync_env).
Implicit Types s : sync_state.

Definition kb_waitqueue_prepare_task (wq_entry : Z) s : sync_state :=
  let task := kb_waitqueue_entry_task wq_entry (sy_mem s) in
  if task =? 0 then
    let task := current_task e in
    let s := if kb_wait_low_pointer wq_entry then s else with_sync_mem (fun m => mstore64 m (wq_entry + KB_WAITQUEUE_ENTRY_PRIVATE_OFFSET) task) s in
    kb_kthread_prepare_wait task s
  else kb_kthread_prepare_wait task s.
Definition kb_prepare_to_wait (wq_head wq_entry : Z) s : sync_state :=
  kb_waitqueue_prepare_task wq_entry (with_sync_mem (kb_add_wait_queue wq_head wq_entry) s).
Definition kb_prepare_to_wait_exclusive (wq_head wq_entry : Z) s : sync_state * Z :=
  let head := kb_waitqueue_head_list wq_head in
  let was_empty := (head =? 0) || kb_wait_list_empty head (sy_mem s) in
  (kb_waitqueue_prepare_task wq_entry (with_sync_mem (kb_add_wait_queue_exclusive wq_head wq_entry) s), Z.b2z was_empty).
Definition kb_prepare_to_wait_event (wq_head wq_entry : Z) s : sync_state * Z :=
  let s := if negb (Z.land (kb_waitqueue_entry_flags wq_entry (sy_mem s)) KB_WQ_FLAG_EXCLUSIVE =? 0)
           then with_sync_mem (kb_add_wait_queue_exclusive wq_head wq_entry) s
           else with_sync_mem (kb_add_wait_queue wq_head wq_entry) s in
  (kb_waitqueue_prepare_task wq_entry s, 0).
Definition kb_finish_wait (wq_entry : Z) s : sync_state :=
  let s := kb_kthread_finish_wait (kb_waitqueue_entry_task wq_entry (sy_mem s)) s in
  with_sync_mem (kb_wait_list_del_init (kb_waitqueue_entry_list wq_entry)) s.
Definition kb_init_wait_entry (wq_entry flags : Z) (m : mem) : mem :=
  if kb_wait_low_pointer wq_entry then m
  else
    let m := mstore32 m (wq_entry + KB_WAITQUEUE_ENTRY_FLAGS_OFFSET) (u32 flags) in
    let m := mstore64 m (wq_entry + KB_WAITQUEUE_ENTRY_PRIVATE_OFFSET) (current_task e) in
    let m := mstore64 m (wq_entry + KB_WAITQUEUE_ENTRY_FUNC_OFFSET) (fn_autoremove e) in
    kb_wait_list_init (wq_entry + KB_WAITQUEUE_ENTRY_LIST_OFFSET) m.

(** *** Hashed queues *)

Definition kb_var_waitqueues_initialize s : sync_state :=
  if var_waitqueues_initialized s then s
  else with_sync_mem (fun m => foldl (fun m i => kb_init_waitqueue_head (var_waitqueues e + 24 * i) m) m (seqZ 0 KB_VAR_WAITQUEUE_COUNT)) s
         <| var_waitqueues_initialized := true |>.
Definition var_hash (var : Z) : Z :=
  let value := Z.lxor var (Z.shiftr var 17) in
  let value := Z.lxor value (Z.shiftr value 9) in
  Z.land value (KB_VAR_WAITQUEUE_COUNT - 1).
Definition kb_var_waitqueue (var : Z) s : sync_state * Z := (kb_var_waitqueues_initialize s, var_waitqueues e + 24 * var_hash var).
Definition kb_bit_waitqueue (word bit : Z) s : sync_state * Z :=
  kb_var_waitqueue (Z.lxor word (u64 (u32 bit * 0x9e3779b97f4a7c15))) s.

(** A key in memory: flags at 0, the bit number at 8. *)
Definition kb_wait_bit_test (key : Z) (m : mem) : bool :=
  let flags := mload64 m key in
  let bit_nr := mload_int m (key + 8) in
  if (key =? 0) || (flags =? 0) || (bit_nr <? 0) || (64 <=? bit_nr) then false
  else negb (Z.land (mload64 m flags) (Z.shiftl 1 bit_nr) =? 0).
Definition same_key (a b : Z) (m : mem) : bool := (mload64 m a =? mload64 m b) && (mload_int m (a + 8) =? mload_int m (b + 8)).

(** *** Waking *)

Definition kb_default_wake_function (wq_entry : Z) s : sync_state * Z :=
  let task := kb_waitqueue_entry_task wq_entry (sy_mem s) in if task =? 0 then (s, 0) else kb_wake_up_process task s.
Definition kb_autoremove_wake_function (wq_entry : Z) s : sync_state * Z :=
  let '(s, result) := kb_default_wake_function wq_entry s in
  (if negb (result =? 0) then with_sync_mem (kb_wait_list_del_init (kb_waitqueue_entry_list wq_entry)) s else s, result).
Definition kb_woken_wake_function (wq_entry : Z) s : sync_state * Z :=
  kb_default_wake_function wq_entry (with_sync_mem (fun m => kb_waitqueue_entry_set_flags wq_entry (Z.lor (kb_waitqueue_entry_flags wq_entry m) KB_WQ_FLAG_WOKEN) m) s).
(** [schedule_timeout]: kb_schedule_timeout, with the time left. *)
Definition kb_wait_woken (schedule_timeout : Z -> sync_state -> sync_state * Z) (wq_entry timeout : Z) s : sync_state * Z :=
  let '(s, timeout) := if Z.land (kb_waitqueue_entry_flags wq_entry (sy_mem s)) KB_WQ_FLAG_WOKEN =? 0 then schedule_timeout timeout s else (s, timeout) in
  (with_sync_mem (fun m => kb_waitqueue_entry_set_flags wq_entry (Z.ldiff (kb_waitqueue_entry_flags wq_entry m) KB_WQ_FLAG_WOKEN) m) s, timeout).
Definition kb_var_wake_function (wq_entry key : Z) s : sync_state * Z :=
  if kb_wait_low_pointer wq_entry || kb_wait_low_pointer key then (s, 0)
  else if negb (same_key (wq_entry - KB_WAIT_BIT_KEY_SIZE) key (sy_mem s)) then (s, 0)
  else kb_autoremove_wake_function wq_entry s.
Definition kb_bit_wake_function (wq_entry key : Z) s : sync_state * Z :=
  if kb_wait_low_pointer wq_entry || kb_wait_low_pointer key then (s, 0)
  else if negb (same_key (wq_entry - KB_WAIT_BIT_KEY_SIZE) key (sy_mem s)) || kb_wait_bit_test key (sy_mem s) then (s, 0)
  else kb_autoremove_wake_function wq_entry s.
Definition call_wake_function (func wq_entry key : Z) s : sync_state * Z :=
  if func =? fn_autoremove e then kb_autoremove_wake_function wq_entry s
  else if func =? fn_default e then kb_default_wake_function wq_entry s
  else if func =? fn_woken e then kb_woken_wake_function wq_entry s
  else if func =? fn_var e then kb_var_wake_function wq_entry key s
  else if func =? fn_bit e then kb_bit_wake_function wq_entry key s
  else foreign e func wq_entry key s.

Fixpoint wake_loop (fuel : nat) (head entry nr key woken : Z) s : option (sync_state * Z) :=
  if kb_wait_low_pointer entry || (entry =? head) then Some (s, woken)
  else match fuel with
       | O => None
       | S fuel =>
           let next := list_next (sy_mem s) entry in
           let wq_entry := entry - KB_WAITQUEUE_ENTRY_LIST_OFFSET in
           let func := mload64 (sy_mem s) (wq_entry + KB_WAITQUEUE_ENTRY_FUNC_OFFSET) in
           let '(s, result) := if kb_wait_low_pointer func then (s, 1) else call_wake_function func wq_entry key s in
           if 0 <? result then
             let woken := woken + 1 in
             if (0 <? nr) && (nr <=? woken) then Some (s, woken) else wake_loop fuel head next nr key woken s
           else wake_loop fuel head next nr key woken s
       end.
Definition kb_wake_up_waitqueue (fuel : nat) (wq_head nr key : Z) s : option (sync_state * Z) :=
  let head := kb_waitqueue_head_list wq_head in
  if head =? 0 then Some (s, 0) else wake_loop fuel head (list_next (sy_mem s) head) nr key 0 s.

(** *** Waiting for a bit *)

(** [entry]: the address of the entry on the stack, the key first. *)
Definition kb_init_wait_bit_entry (entry word bit : Z) (m : mem) : mem :=
  let m := mzero m entry 64 in
  let m := mstore64 m entry word in
  let m := mstore32 m (entry + 8) (u32 bit) in
  let m := kb_init_wait_entry (entry + KB_WAIT_BIT_KEY_SIZE) 0 m in
  mstore64 m (entry + KB_WAIT_BIT_KEY_SIZE + KB_WAITQUEUE_ENTRY_FUNC_OFFSET) (fn_bit e).
Definition kb_init_wait_var_entry (wait_entry var flags : Z) (m : mem) : mem :=
  if kb_wait_low_pointer wait_entry then m
  else
    let m := mzero m wait_entry KB_WAIT_BIT_KEY_SIZE in
    let m := mstore64 m wait_entry var in
    let m := mstore32 m (wait_entry + 8) (u32 (-1)) in
    let wq_entry := wait_entry + KB_WAIT_BIT_KEY_SIZE in
    mstore64 (kb_init_wait_entry wq_entry flags m) (wq_entry + KB_WAITQUEUE_ENTRY_FUNC_OFFSET) (fn_var e).

Fixpoint wait_on_bit_loop (fuel : nat) (action : Z -> sync_state -> sync_state * Z) (wq_head entry : Z) s : option (sync_state * Z) :=
  match fuel with
  | O => None
  | S fuel =>
      let s := kb_prepare_to_wait wq_head (entry + KB_WAIT_BIT_KEY_SIZE) s in
      let '(s, result) := if kb_wait_bit_test entry (sy_mem s) then action entry s else (s, 0) in
      if kb_wait_bit_test entry (sy_mem s) && (result =? 0) then wait_on_bit_loop fuel action wq_head entry s else Some (s, result)
  end.
Definition kb_out_of_line_wait_on_bit (fuel : nat) (word bit : Z) (action : option (Z -> sync_state -> sync_state * Z)) (entry : Z) s : option (sync_state * Z) :=
  match action with
  | None => Some (s, -22)
  | Some action =>
      if (word =? 0) || (bit <? 0) || (64 <=? bit) then Some (s, -22)
      else
        let s := with_sync_mem (kb_init_wait_bit_entry entry word bit) s in
        let '(s, wq_head) := kb_bit_waitqueue word bit s in
        match wait_on_bit_loop fuel action wq_head entry s with
        | None => None
        | Some (s, result) => Some (kb_finish_wait (entry + KB_WAIT_BIT_KEY_SIZE) s, result)
        end
  end.

Fixpoint wait_on_bit_lock_loop (fuel : nat) (action : Z -> sync_state -> sync_state * Z) (word bit wq_head entry : Z) s : option (sync_state * Z) :=
  match fuel with
  | O => None
  | S fuel =>
      let wq_entry := entry + KB_WAIT_BIT_KEY_SIZE in
      let mask := Z.shiftl 1 bit in
      let '(s, _) := kb_prepare_to_wait_exclusive wq_head wq_entry s in
      let '(s, result) :=
        if kb_wait_bit_test entry (sy_mem s) then
          let '(s, result) := action entry s in (if negb (result =? 0) then kb_finish_wait wq_entry s else s, result)
        else (s, 0) in
      let old := mload64 (sy_mem s) word in
      let s := with_sync_mem (fun m => mstore64 m word (Z.lor old mask)) s in
      if Z.land old mask =? 0 then Some (if result =? 0 then kb_finish_wait wq_entry s else s, 0)
      else if negb (result =? 0) then Some (s, result)
      else wait_on_bit_lock_loop fuel action word bit wq_head entry s
  end.
Definition kb_out_of_line_wait_on_bit_lock (fuel : nat) (word bit : Z) (action : option (Z -> sync_state -> sync_state * Z)) (entry : Z) s : option (sync_state * Z) :=
  match action with
  | None => Some (s, -22)
  | Some action =>
      if (word =? 0) || (bit <? 0) || (64 <=? bit) then Some (s, -22)
      else
        let s := with_sync_mem (kb_init_wait_bit_entry entry word bit) s in
        let '(s, wq_head) := kb_bit_waitqueue word bit s in
        wait_on_bit_lock_loop fuel action word bit wq_head entry s
  end.

(** [key]: where the key is built on the stack; [others]: what runs when the caller gives way. *)
Definition store_key (key flags bit_nr : Z) (m : mem) : mem := mstore64 (mstore32 (mstore64 m key flags) (key + 8) (u32 bit_nr)) (key + 16) 0.
Definition kb_wake_up_bit (fuel : nat) (others : sync_state -> sync_state) (word bit key : Z) s : option sync_state :=
  if (word =? 0) || (bit <? 0) || (64 <=? bit) then Some s
  else
    let s := with_sync_mem (store_key key word bit) s in
    let '(s, wq_head) := kb_bit_waitqueue word bit s in
    others ∘ fst <$> kb_wake_up_waitqueue fuel wq_head 1 key s.
Definition kb_wake_up_var (fuel : nat) (others : sync_state -> sync_state) (var key : Z) s : option sync_state :=
  if var =? 0 then Some s
  else
    let s := with_sync_mem (store_key key var (-1)) s in
    let '(s, wq_head) := kb_var_waitqueue var s in
    others ∘ fst <$> kb_wake_up_waitqueue fuel wq_head 1 key s.
End env.
