(* ===== verification/SyncTheorems.v ===== *)
(** * Theorems about synchronisation (Sync.v)

    What is deferred through RCU is done once, in order and while no reader is inside; a wait
    queue is the list of its entries and a wake-up takes the first of them out and makes their
    threads runnable.  WaitTheorems.v has what happens between waiting and being woken. *)

From S2P Require Import Prelude Memory RbTree LinkedLists Sync.

(** ** RCU *)

(** The readers there are after the tasks when there were [d], each unlock having its lock and
    each drain outside of all readers. *)
Fixpoint rcu_depth (d : nat) (todo : list rcu_task) : option nat :=
  match todo with
  | [] => Some d
  | Op ReadLock :: todo => rcu_depth (S d) todo
  | Op ReadUnlock :: todo => match d with O => None | S d => rcu_depth d todo end
  | Op _ :: todo => rcu_depth d todo
  | Drain :: todo => match d with O => rcu_depth O todo | S _ => None end
  end.
Definition balanced (ops : list rcu_op) : Prop := rcu_depth 0 (Op <$> ops) = Some O.

(** What the operations ask for, as far as there is memory. *)
Definition op_request (op : rcu_op) : list rcu_event :=
  match op with
  | CallRcu head callback true => if callback =? 0 then [] else [Called callback head]
  | KvfreeCallRcu head ptr true => if ptr =? 0 then [] else [Freed ptr]
  | _ => []
  end.
(** What is done for a record. *)
Definition record_event (record : kb_rcu_callback) : list rcu_event :=
  if negb (rc_callback record =? 0) then [Called (rc_callback record) (rc_head record)]
  else if negb (rc_free_ptr record =? 0) then [Freed (rc_free_ptr record)] else [].
(** What was done and is still to be done. *)
Definition rcu_promised (s : rcu_state) : list rcu_event := (fst <$> rcu_events s) ++ (rcu_callbacks s ≫= record_event).
Definition grace (s : rcu_state) : Prop := Forall (fun ev => ev.2 = 0) (rcu_events s).
(** Locks are not nested more than 2^32 times. *)
Fixpoint shallow (d : nat) (todo : list rcu_task) : Prop :=
  match todo with
  | [] => True
  | Op ReadLock :: todo => Z.of_nat (S d) <= UINT32_MAX /\ shallow (S d) todo
  | Op ReadUnlock :: todo => shallow (pred d) todo
  | _ :: todo => shallow d todo
  end.

Section rcu.
Context (code : Z -> Z -> list rcu_op) (Hcode : forall callback head, balanced (code callback head) /\ shallow 0 (Op <$> code callback head)).

Lemma depth_app d t1 t2 d' : rcu_depth d t1 = Some d' -> rcu_depth d (t1 ++ t2) = rcu_depth d' t2.
Proof.
  revert d. induction t1 as [|[[| | |]|] t1 IH]; intros d; cbn; [by intros [= ->]|by apply IH| |by apply IH|by apply IH|].
  - destruct d; [done|]. apply IH.
  - destruct d; [apply IH|done].
Qed.
Lemma shallow_app d t1 t2 d' : rcu_depth d t1 = Some d' -> shallow d (t1 ++ t2) <-> shallow d t1 /\ shallow d' t2.
Proof.
  revert d. induction t1 as [|[[| | |]|] t1 IH]; intros d; cbn; [intros [= ->]; tauto|..]; try (by apply IH).
  - intros H%IH. tauto.
  - destruct d; [done|]. apply IH.
  - destruct d; [apply IH|done].
Qed.

(** What holds between two steps: the readers are those of the tasks, and there is a drain to
    come unless there are readers to leave or nothing is deferred. *)
Definition rcu_inv (todo : list rcu_task) (s : rcu_state) : Prop :=
  exists d, rcu_readers s = Z.of_nat d /\ rcu_depth d todo = Some O /\ shallow d todo /\ Z.of_nat d <= UINT32_MAX /\ grace s /\
    (d = O -> rcu_callbacks s <> [] -> Drain ∈ todo).

Lemma promised_enqueue head callback free_ptr calloc s :
  rcu_promised (rcu_enqueue head callback free_ptr calloc s) = rcu_promised s ++ (if calloc then record_event (mk_rcu head callback free_ptr) else []).
Proof.
  destruct calloc; cbn [negb rcu_enqueue]; [|by rewrite app_nil_r]. unfold rcu_promised. destruct s as [r c e]. cbn. rewrite bind_app. cbn. by rewrite app_nil_r, app_assoc.
Qed.
Lemma enqueue_inv d head callback free_ptr calloc s todo : rcu_readers s = Z.of_nat d -> rcu_depth d todo = Some O -> shallow d todo -> Z.of_nat d <= UINT32_MAX -> grace s ->
  rcu_inv (rcu_drain_callbacks (rcu_enqueue head callback free_ptr calloc s) ++ todo) (rcu_enqueue head callback free_ptr calloc s).
Proof.
  intros Hr Hd Hs Hm Hg. assert (rcu_readers (rcu_enqueue head callback free_ptr calloc s) = Z.of_nat d) as Hr' by (by destruct calloc, s).
  exists d. unfold rcu_drain_callbacks. rewrite Hr'. split; [done|]. destruct d as [|d]; cbn [negb app Z.eqb Z.of_nat].
  - split_and!; [done..|by destruct calloc, s|]. intros _ _. apply elem_of_cons. auto.
  - split_and!; [done..|by destruct calloc, s|done].
Qed.
Lemma rcu_do_spec op s todo : rcu_inv (Op op :: todo) s ->
  rcu_inv ((rcu_do op s).2 ++ todo) (rcu_do op s).1 /\ rcu_promised (rcu_do op s).1 = rcu_promised s ++ op_request op.
Proof.
  intros (d & Hr & Hd & Hs & Hm & Hg & Hdr). destruct op as [| |head callback calloc|head ptr calloc]; cbn [rcu_do op_request].
  - cbn in Hd, Hs. destruct Hs as [Hs1 Hs2]. split; [|by rewrite app_nil_r]. exists (S d). destruct s as [r c e]. change (r = Z.of_nat d) in Hr. split_and!; [|done|done|done|done|done]. unfold kb_rcu_read_lock. change (u32 (r + 1) = Z.of_nat (S d)). subst r. unfold u32. change (2 ^ 32) with 4294967296. unfold UINT32_MAX in *. rewrite Z.mod_small; lia.
  - cbn in Hd, Hs. destruct d as [|d]; [done|]. cbn [pred] in Hs. split; [|rewrite app_nil_r; unfold kb_rcu_read_unlock; cbn [fst]; by destruct (negb _)].
    unfold kb_rcu_read_unlock. rewrite (proj2 (Z.eqb_neq (rcu_readers s) 0)) by lia. cbn [negb fst snd]. exists d. destruct s as [r c e]. cbn in *. subst r. split_and!; [lia|..].
    + case_match eqn:E; [|done]. apply Z.eqb_eq in E. unfold rcu_drain_callbacks. cbn. assert (d = O) as -> by lia. done.
    + case_match eqn:E; [|done]. apply Z.eqb_eq in E. unfold rcu_drain_callbacks. cbn. assert (d = O) as -> by lia. done.
    + lia.
    + done.
    + intros -> _. cbn. apply elem_of_cons. auto.
  - assert (rcu_depth d todo = Some O /\ shallow d todo) as [Hd' Hs'] by done. unfold kb_call_rcu. case_match eqn:E; cbn [fst snd].
    + split; [|destruct calloc; by rewrite app_nil_r]. exists d. split_and!; [done..|]. intros H1 H2. specialize (Hdr H1 H2). apply elem_of_cons in Hdr as [?|?]; done.
    + rewrite promised_enqueue. unfold record_event. cbn [rc_callback rc_head]. rewrite E. split; [|by destruct calloc]. by apply (enqueue_inv d).
  - assert (rcu_depth d todo = Some O /\ shallow d todo) as [Hd' Hs'] by done. unfold kb_kvfree_call_rcu. case_match eqn:E; cbn [fst snd].
    + split; [|destruct calloc; by rewrite app_nil_r]. exists d. split_and!; [done..|]. intros H1 H2. specialize (Hdr H1 H2). apply elem_of_cons in Hdr as [?|?]; done.
    + rewrite promised_enqueue. unfold record_event. cbn [rc_callback rc_head rc_free_ptr]. rewrite E. split; [|by destruct calloc]. by apply (enqueue_inv d).
Qed.

(** The loop of a drain, on a record: its event comes next, with no reader inside. *)
Lemma rcu_dispatch_spec record s todo : rcu_inv (Drain :: todo) s -> rcu_callbacks s = record :: tail (rcu_callbacks s) ->
  let '(s', ops) := rcu_dispatch code record (s <| rcu_callbacks := tail (rcu_callbacks s) |>) in
  rcu_inv ((Op <$> ops) ++ Drain :: todo) s' /\ rcu_promised s' = rcu_promised s /\ rcu_callbacks s' = tail (rcu_callbacks s).
Proof.
  intros (d & Hr & Hd & Hs & Hm & Hg & Hdr) Hc. destruct d as [|d]; [|done]. destruct s as [r c e]. cbn in *. subst r. unfold rcu_dispatch, rcu_log, rcu_inv, rcu_promised, grace in *. rewrite Hc. cbn [tail rcu_callbacks rcu_events rcu_readers].
  unfold record_event at 2. assert (forall todo', Drain ∈ todo' ++ Drain :: todo) as Hin by (intros; rewrite elem_of_app, elem_of_cons; auto).
  destruct (negb (rc_callback record =? 0)) eqn:E1; [|destruct (negb (rc_free_ptr record =? 0)) eqn:E2]; cbn.
  - destruct (Hcode (rc_callback record) (rc_head record)) as [Hb Hsh]. split_and!; [|by rewrite E1, fmap_app, <- app_assoc|done]. exists O. rewrite (depth_app _ _ _ _ Hb). split_and!; [done|done|by apply (shallow_app _ _ _ _ Hb)|done| |auto]. apply Forall_app. split; [done|]. by constructor.
  - split_and!; [|by rewrite E1, E2, fmap_app, <- app_assoc|done]. exists O. split_and!; [done..| |intros; apply elem_of_cons; auto]. apply Forall_app. split; [done|]. by constructor.
  - split_and!; [|by rewrite E1, E2|done]. exists O. split_and!; [done..|]. intros; apply elem_of_cons; auto.
Qed.
(** The operations that are carried out, those of callbacks included, in order. *)
Fixpoint rcu_trace (fuel : nat) (todo : list rcu_task) (s : rcu_state) : list rcu_op :=
  match todo, fuel with
  | Op op :: todo, S fuel => op :: rcu_trace fuel ((rcu_do op s).2 ++ todo) (rcu_do op s).1
  | Drain :: todo, S fuel =>
      match rcu_pop s with
      | (s, None) => rcu_trace fuel todo s
      | (s, Some record) => let '(s, ops) := rcu_dispatch code record s in rcu_trace fuel ((Op <$> ops) ++ Drain :: todo) s
      end
  | _, _ => []
  end.

(** Steps: those of a callback are bounded by [w], so that no chain of callbacks deferring
    callbacks is endless. *)
Context (w : Z -> Z -> nat).
Definition op_steps (op : rcu_op) : nat :=
  match op with ReadLock => 1 | ReadUnlock => 2 | CallRcu head callback _ => 3 + w callback head | KvfreeCallRcu _ _ _ => 3 end.
Definition task_steps (task : rcu_task) : nat := match task with Op op => op_steps op | Drain => 1 end.
Definition record_steps (record : kb_rcu_callback) : nat := 1 + if rc_callback record =? 0 then 0 else w (rc_callback record) (rc_head record).
Definition rcu_steps (todo : list rcu_task) (s : rcu_state) : nat := sum_list_with task_steps todo + sum_list_with record_steps (rcu_callbacks s).
Context (Hw : forall callback head, (sum_list_with op_steps (code callback head) <= w callback head)%nat).

Lemma steps_do op s todo : (rcu_steps ((rcu_do op s).2 ++ todo) (rcu_do op s).1 < rcu_steps (Op op :: todo) s)%nat.
Proof.
  destruct s as [r c e], op as [| |head callback calloc|head ptr calloc]; cbn [rcu_do]; unfold rcu_steps; rewrite sum_list_with_app; cbn [sum_list_with task_steps op_steps fst snd].
  - cbn. lia.
  - unfold kb_rcu_read_unlock. cbn [rcu_readers fst snd]. case_match; [|case_match; cbn; lia]. unfold rcu_drain_callbacks. repeat case_match; cbn; lia.
  - unfold kb_call_rcu. case_match eqn:E; cbn [fst snd]; [cbn; lia|]. unfold rcu_drain_callbacks. destruct calloc; cbn [negb rcu_enqueue]; [|case_match; cbn; lia].
    case_match; cbn; rewrite sum_list_with_app; cbn; unfold record_steps; cbn [rc_callback rc_head]; rewrite E; lia.
  - unfold kb_kvfree_call_rcu. case_match eqn:E; cbn [fst snd]; [cbn; lia|]. unfold rcu_drain_callbacks. destruct calloc; cbn [negb rcu_enqueue]; [|case_match; cbn; lia].
    case_match; cbn; rewrite sum_list_with_app; cbn; lia.
Qed.
Lemma sum_ops ops : sum_list_with task_steps (Op <$> ops) = sum_list_with op_steps ops.
Proof. induction ops as [|op ops IH]; cbn; [done|]. by rewrite IH. Qed.
Lemma steps_dispatch record c s todo : rcu_callbacks s = record :: c ->
  let '(s', ops) := rcu_dispatch code record (s <| rcu_callbacks := c |>) in
  (rcu_steps ((Op <$> ops) ++ Drain :: todo) s' < rcu_steps (Drain :: todo) s)%nat.
Proof.
  intros Hc. unfold rcu_dispatch, rcu_steps. pose proof (Hw (rc_callback record) (rc_head record)) as H. rewrite Hc. destruct s as [r c' e].
  destruct (rc_callback record =? 0) eqn:E1; [|]; cbn [negb]; [destruct (negb (rc_free_ptr record =? 0)) eqn:E2|];
    rewrite sum_list_with_app, sum_ops; cbn; unfold record_steps; rewrite E1; lia.
Qed.

Lemma rcu_run_spec fuel todo s : rcu_inv todo s -> (rcu_steps todo s <= fuel)%nat ->
  exists s', rcu_run code fuel todo s = Some s' /\ rcu_inv [] s' /\ rcu_promised s' = rcu_promised s ++ (rcu_trace fuel todo s ≫= op_request).
Proof.
  revert todo s. induction fuel as [|fuel IH]; intros [|[op|] todo] s Hi Hf; try (exists s; cbn; by rewrite app_nil_r).
  - exfalso. cbn in Hf. destruct op; cbn in Hf; lia.
  - exfalso. cbn in Hf. lia.
  - destruct (rcu_do_spec op s todo Hi) as [Hi' Hp]. pose proof (steps_do op s todo) as Hlt. cbn [rcu_run rcu_trace]. destruct (rcu_do op s) as [s1 drain]. cbn [fst snd] in *.
    destruct (IH _ _ Hi' ltac:(lia)) as (s' & E & Hn & Hp'). exists s'. split_and!; [done..|]. rewrite Hp', Hp. cbn. by rewrite <- app_assoc.
  - cbn [rcu_run rcu_trace]. unfold rcu_pop. destruct (rcu_callbacks s) as [|record c] eqn:Ec.
    + apply IH; [|unfold rcu_steps in *; cbn in Hf; lia]. destruct Hi as (d & ? & Hd & Hs & ? & ? & _). destruct d; [|done]. exists O. split_and!; [done..|]. by rewrite Ec.
    + pose proof (rcu_dispatch_spec record s todo Hi) as Hdis. rewrite Ec in Hdis. specialize (Hdis eq_refl). cbn [tail] in Hdis. pose proof (steps_dispatch record c s todo Ec) as Hlt.
      destruct (rcu_dispatch code record _) as [s1 ops]. destruct Hdis as (Hi' & Hp & _). rewrite <- Hp. apply IH; [done|lia].
Qed.

(** C29: What modules defer through RCU is done once each, in the order of the requests (those
    made inside callbacks included), with no reader inside; when the readers have left nothing
    is left over.  This holds for every balanced use of kb_rcu_read_lock and
    kb_rcu_read_unlock around kb_call_rcu and kb_kvfree_call_rcu, and all of it is done within
    [rcu_steps] steps unless callbacks defer callbacks without end. *)
Theorem rcu_runs_after_readers ops fuel : balanced ops -> shallow 0 (Op <$> ops) -> (sum_list_with op_steps ops <= fuel)%nat ->
  exists s, rcu_run code fuel (Op <$> ops) (mk_rcu_state 0 [] []) = Some s /\
    rcu_readers s = 0 /\ rcu_callbacks s = [] /\ Forall (fun ev => ev.2 = 0) (rcu_events s) /\
    (rcu_events s).*1 = rcu_trace fuel (Op <$> ops) (mk_rcu_state 0 [] []) ≫= op_request.
Proof.
  intros Hb Hs Hf. destruct (rcu_run_spec fuel (Op <$> ops) (mk_rcu_state 0 [] [])) as (s & E & (d & Hr & Hd & _ & _ & Hg & Hc) & Hp).
  - exists O. split_and!; [done|exact Hb|exact Hs|done|by constructor|done].
  - unfold rcu_steps. rewrite sum_ops. cbn. lia.
  - injection Hd as ->. assert (rcu_callbacks s = []) as Hc'. { destruct (rcu_callbacks s); [done|]. by destruct (proj1 (elem_of_nil _) (Hc eq_refl ltac:(done))). }
    exists s. split_and!; [done..|]. unfold rcu_promised in Hp. rewrite Hc' in Hp. cbn in Hp. by rewrite app_nil_r in Hp.
Qed.
End rcu.

(** A reader defers a free and a callback; the callback reads and defers a free too. *)
Definition sample_code (callback head : Z) : list rcu_op := if callback =? 8192 then [ReadLock; KvfreeCallRcu head (head + 64) true; ReadUnlock] else [].
Definition sample_ops : list rcu_op := [ReadLock; KvfreeCallRcu 4096 4096 true; CallRcu 4160 8192 true; ReadUnlock].
Example rcu_sample : rcu_run sample_code 30 (Op <$> sample_ops) (mk_rcu_state 0 [] []) =
  Some (mk_rcu_state 0 [] [(Freed 4096, 0); (Called 8192 4160, 0); (Freed 4224, 0)]).
Proof. reflexivity. Qed.
Lemma rcu_runs_after_readers_witness : exists s, rcu_run sample_code 30 (Op <$> sample_ops) (mk_rcu_state 0 [] []) = Some s /\ rcu_callbacks s = [].
Proof.
  destruct (rcu_runs_after_readers sample_code ltac:(intros callback head; unfold sample_code; case_match; by repeat split)
    (fun callback _ => if callback =? 8192 then 6%nat else 0%nat) ltac:(intros callback head; unfold sample_code; case_match; cbn; lia)
    sample_ops 30%nat ltac:(reflexivity) ltac:(by repeat split) ltac:(cbn; lia)) as (s & E & _ & Hc & _).
  exists s. split; [exact E|exact Hc].
Defined.

(** ** Wait queues *)

Abbreviation entry_links := (fmap (fun entry : Z => entry + KB_WAITQUEUE_ENTRY_LIST_OFFSET)).

(** The queue at [wq] holds the entries [es], which do not overlap. *)
Definition waitq (m : mem) (wq : Z) (es : list Z) : Prop :=
  ring m (wq + KB_WAITQUEUE_HEAD_OFFSET) (entry_links es) /\
  kb_wait_low_pointer wq = false /\ (forall entry, entry ∈ es -> kb_wait_low_pointer entry = false) /\
  (forall e1 e2, e1 ∈ es -> e2 ∈ es -> e1 <> e2 -> e1 + 40 <= e2 \/ e2 + 40 <= e1) /\ (forall entry, entry ∈ es -> entry + 40 <= wq \/ wq + 24 <= entry).

(** A word of no link stays when an entry is taken out. *)
Lemma del_other m e a : (forall u, u ∈ [e; list_next m e; list_prev m e] -> u + 16 <= a \/ a + 8 <= u) -> mload64 (kb_list_del e m) a = mload64 m a.
Proof.
  intros H. unfold kb_list_del. destruct (low_or_error_ptr e); [done|]. cbv zeta. destruct (_ || _); [done|]. assert (H1 := H e). assert (H2 := H (list_next m e)). assert (H3 := H (list_prev m e)). rewrite !elem_of_cons in H1, H2, H3. specialize (H1 ltac:(tauto)). specialize (H2 ltac:(tauto)). specialize (H3 ltac:(tauto)).
  rewrite !mload64_mstore64_other by lia. done.
Qed.

(** An entry of a ring is not linked to itself. *)
Lemma in_ring_not_empty m h l1 e l2 : ring m h (l1 ++ e :: l2) -> kb_wait_list_empty e m = false.
Proof.
  intros (Hnd & [Hap _] & Hw). rewrite <- app_assoc in Hw. cbn [app] in Hw. apply walk_gap in Hw as (_ & _ & Hp & _). unfold kb_wait_list_empty. change (kb_wait_low_pointer e) with (low_or_error_ptr e).
  rewrite (proj1 (Hap e ltac:(rewrite elem_of_cons, elem_of_app, elem_of_cons; auto))), Hp. apply andb_false_iff. right. apply Z.eqb_neq. intros E. pose proof (last_of_in h l1) as Hin. rewrite E in Hin.
  apply NoDup_cons in Hnd as [Hn Hnd]. apply NoDup_app in Hnd as (_ & Hnd & _). apply elem_of_cons in Hin as [->|Hin]; [apply Hn; rewrite elem_of_app, elem_of_cons; auto|]. apply (Hnd e Hin). apply elem_of_cons. auto.
Qed.
(** Taking it out is what kb_list_del does. *)
Lemma del_init_in_ring m h l1 e l2 : ring m h (l1 ++ e :: l2) -> kb_wait_list_del_init e m = kb_list_del e m.
Proof.
  intros Hr. destruct (list_del_keeps_ring m h l1 e l2 Hr) as (Hv & _). pose proof (in_ring_not_empty m h l1 e l2 Hr) as Hne. unfold kb_list_del_entry_valid_or_report in Hv.
  destruct (low_or_error_ptr e) eqn:E1; [done|]. destruct (low_or_error_ptr (list_next m e) || low_or_error_ptr (list_prev m e)) eqn:E2; [done|]. clear Hv.
  unfold kb_wait_list_del_init, kb_list_del, kb_wait_list_init. change kb_wait_low_pointer with low_or_error_ptr. apply orb_false_iff in E2 as E3. destruct E3 as [E3 E4]. by rewrite Hne, E1, E2, E3, E4.
Qed.

Lemma waitq_link m wq es entry : waitq m wq es -> entry ∈ es -> kb_waitqueue_entry_list entry = entry + 24 /\ entry + 24 ∈ entry_links es /\ entry + 24 <> wq + 8.
Proof.
  intros (_ & _ & Hl & _ & Hw) Hin. unfold kb_waitqueue_entry_list. rewrite (Hl entry Hin). split_and!; [done| |pose proof (Hw entry Hin); lia]. apply list_elem_of_fmap. exists entry. auto.
Qed.
Lemma link_of_word m wq es u entry o : waitq m wq es -> entry ∈ es -> u ∈ wq + 8 :: entry_links es -> (0 <= o <= 16) -> u + 16 <= entry + o \/ entry + o + 8 <= u.
Proof.
  intros (_ & _ & _ & Ha & Hw) Hin Hu Ho. apply elem_of_cons in Hu as [->|Hu]; [pose proof (Hw entry Hin); lia|]. apply list_elem_of_fmap in Hu as (e2 & -> & Hu). unfold KB_WAITQUEUE_ENTRY_LIST_OFFSET.
  destruct (decide (entry = e2)) as [->|Hne]; [lia|]. pose proof (Ha entry e2 Hin Hu Hne). lia.
Qed.

(** A word apart from the links of the queue. *)
Definition off_links (wq : Z) (es : list Z) (a : Z) : Prop := forall u, u ∈ wq + 8 :: entry_links es -> u + 16 <= a \/ a + 8 <= u.

(** The first entry leaves: the rest is the queue, and the words of no link stay. *)
Lemma waitq_del_first m wq entry es : waitq m wq (entry :: es) ->
  let m' := kb_wait_list_del_init (entry + 24) m in
  waitq m' wq es /\ kb_wait_list_empty (entry + 24) m' = true /\ list_next m (wq + 8) = entry + 24 /\ list_next m' (wq + 8) = list_next m (entry + 24) /\
  forall a, off_links wq (entry :: es) a -> mload64 m' a = mload64 m a.
Proof.
  intros Hq m'. pose proof Hq as (Hr & Hwq & Hl & Ha & Hw). cbn [fmap list_fmap] in Hr. change (entry + KB_WAITQUEUE_ENTRY_LIST_OFFSET) with (entry + 24) in Hr. change (wq + KB_WAITQUEUE_HEAD_OFFSET) with (wq + 8) in Hr.
  pose proof (del_init_in_ring m _ [] (entry + 24) (entry_links es) Hr) as Hd. destruct (list_del_keeps_ring m _ [] _ _ Hr) as (Hv & Hr' & Hn & Hp). unfold m'. rewrite Hd.
  destruct Hr as (_ & _ & Hwk). cbn [app] in Hwk. apply (walk_gap m _ []) in Hwk as (_ & Hhe & Hpe & Hrest). apply walk_rest in Hrest as (Hne & _). change (last_of (wq + 8) []) with (wq + 8) in Hpe, Hhe. split_and!.
  - split_and!; [done|done|..]; intros; (apply Hl || apply Ha || apply Hw); try apply elem_of_cons; auto.
  - unfold kb_wait_list_empty. rewrite Hn, Hp, Z.eqb_refl. by case_match.
  - done.
  - destruct Hr' as (_ & _ & Hwk'). apply walk_rest in Hwk' as [-> _]. done.
  - intros a Hoff. apply del_other. intros u Hu. apply Hoff. rewrite Hne, Hpe in Hu. pose proof (first_of_in (wq + 8) (entry_links es)) as Hf. cbn [fmap list_fmap]. change (entry + KB_WAITQUEUE_ENTRY_LIST_OFFSET) with (entry + 24).
    rewrite !elem_of_cons, elem_of_nil in *. destruct Hu as [->|[->|[->|[]]]]; tauto.
Qed.
Lemma off_links_tail wq entry es a : off_links wq (entry :: es) a -> off_links wq es a.
Proof. intros H u Hu. apply H. cbn [fmap list_fmap]. rewrite !elem_of_cons in *. tauto. Qed.
Lemma off_links_left m wq entry es o : waitq m wq (entry :: es) -> o = 0 \/ o = 8 -> off_links wq es (entry + 24 + o).
Proof.
  intros ((Hnd & _) & _ & _ & Ha & Hw) Ho u Hu. cbn [fmap list_fmap] in Hnd. apply NoDup_cons in Hnd as [_ Hnd]. apply NoDup_cons in Hnd as [Hnd _]. apply elem_of_cons in Hu as [->|Hu].
  - pose proof (Hw entry ltac:(apply elem_of_cons; auto)). lia.
  - apply list_elem_of_fmap in Hu as (e2 & -> & Hu). unfold KB_WAITQUEUE_ENTRY_LIST_OFFSET in *. assert (entry <> e2) as Hne by (intros ->; apply Hnd, list_elem_of_fmap; eauto). pose proof (Ha entry e2 ltac:(apply elem_of_cons; auto) ltac:(apply elem_of_cons; auto) Hne). lia.
Qed.

Definition entry_task (m : mem) (entry : Z) : Z := mload64 m (entry + KB_WAITQUEUE_ENTRY_PRIVATE_OFFSET).
(** Entries that kb_autoremove_wake_function wakes, with their threads' tasks. *)
Definition waiters (e : sync_env) (m : mem) (es : list Z) : Prop :=
  forall entry, entry ∈ es -> mload64 m (entry + KB_WAITQUEUE_ENTRY_FUNC_OFFSET) = fn_autoremove e /\ entry_task m entry <> 0.
Definition wake_tasks (tasks : list Z) (s : sync_state) : sync_state := foldl (fun s task => (kb_wake_up_process task s).1) s tasks.
(** The entries a wake-up of [nr] wakes, all of them when [nr] is not positive. *)
Definition to_wake (nr woken : Z) (es : list Z) : nat := if nr <=? 0 then length es else Z.to_nat (nr - woken) `min` length es.

Lemma wake_process_mem task s : sy_mem (kb_wake_up_process task s).1 = sy_mem s /\ (task <> 0 -> (kb_wake_up_process task s).2 = 1).
Proof. unfold kb_wake_up_process. destruct (first_index _ _); cbn; [by destruct s|]. split; [done|]. intros H. by rewrite (proj2 (Z.eqb_neq task 0)). Qed.
Lemma wake_tasks_ext tasks s1 s2 : kthread_records s1 = kthread_records s2 -> kthread_records (wake_tasks tasks s1) = kthread_records (wake_tasks tasks s2).
Proof.
  revert s1 s2. induction tasks as [|task tasks IH]; intros s1 s2 H; cbn; [done|]. apply IH. unfold kb_wake_up_process. rewrite H. destruct (first_index _ _); cbn; [|done]. destruct s1, s2. cbn in *. by rewrite H.
Qed.

Section wake.
Context (e : sync_env) (Hfn : kb_wait_low_pointer (fn_autoremove e) = false).

Lemma autoremove_spec entry s : entry_task (sy_mem s) entry <> 0 -> kb_wait_low_pointer entry = false ->
  kb_autoremove_wake_function entry s =
    (with_sync_mem (kb_wait_list_del_init (entry + 24)) (wake_tasks [entry_task (sy_mem s) entry] s), 1).
Proof.
  intros Ht Hl. unfold kb_autoremove_wake_function, kb_default_wake_function, kb_waitqueue_entry_task, kb_waitqueue_entry_list. rewrite Hl. fold (entry_task (sy_mem s) entry). rewrite (proj2 (Z.eqb_neq _ _) Ht).
  destruct (wake_process_mem (entry_task (sy_mem s) entry) s) as [_ Hr]. specialize (Hr Ht). cbn [wake_tasks foldl]. destruct (kb_wake_up_process _ s) as [s' r]. cbn [fst snd] in *. by subst r.
Qed.
Lemma waiters_frame m m' wq es : waitq m wq es -> waiters e m es -> (forall a, off_links wq es a -> mload64 m' a = mload64 m a) ->
  waiters e m' es /\ forall entry, entry ∈ es -> entry_task m' entry = entry_task m entry.
Proof.
  intros Hq Hw Hf. assert (forall entry o, entry ∈ es -> 0 <= o <= 16 -> mload64 m' (entry + o) = mload64 m (entry + o)) as H by (intros entry o Hin Ho; apply Hf; intros u Hu; by apply (link_of_word m wq es)).
  unfold waiters, entry_task, KB_WAITQUEUE_ENTRY_FUNC_OFFSET, KB_WAITQUEUE_ENTRY_PRIVATE_OFFSET in *. split; intros entry Hin; rewrite ?(H entry 8 Hin), ?(H entry 16 Hin) by lia; auto.
Qed.

Lemma wake_loop_spec wq nr key es : forall s woken fuel, waitq (sy_mem s) wq es -> waiters e (sy_mem s) es -> (length es <= fuel)%nat -> (0 < nr -> woken < nr) ->
  let k := to_wake nr woken es in
  exists s', wake_loop e fuel (wq + 8) (list_next (sy_mem s) (wq + 8)) nr key woken s = Some (s', woken + Z.of_nat k) /\
    waitq (sy_mem s') wq (drop k es) /\ (forall entry, entry ∈ take k es -> kb_wait_list_empty (entry + 24) (sy_mem s') = true) /\
    kthread_records s' = kthread_records (wake_tasks (entry_task (sy_mem s) <$> take k es) s) /\
    (forall a, off_links wq es a -> mload64 (sy_mem s') a = mload64 (sy_mem s) a).
Proof.
  induction es as [|entry es IH]; intros s woken fuel Hq Hw Hf Hnr k.
  - pose proof Hq as ((_ & _ & Hwk) & _). cbn [fmap list_fmap app walk] in Hwk. destruct Hwk as (Hn & _). change (wq + KB_WAITQUEUE_HEAD_OFFSET) with (wq + 8) in Hn. assert (k = O) as -> by (unfold k, to_wake; cbn; case_match; lia).
    exists s. rewrite Hn. replace (woken + Z.of_nat 0) with woken by lia. split_and!; [|done|cbn; intros ? []%elem_of_nil|done|done]. destruct fuel; cbn [wake_loop]; by rewrite Z.eqb_refl, orb_true_r.
  - destruct fuel as [|fuel]; [cbn in Hf; lia|]. destruct (waitq_del_first (sy_mem s) wq entry es Hq) as (Hq' & Hem & Hhe & Hhn & Hfr). destruct (waitq_link _ _ _ entry Hq ltac:(apply elem_of_cons; auto)) as (Hel & _ & Hne).
    assert (kb_wait_low_pointer (entry + 24) = false /\ kb_wait_low_pointer entry = false) as [L1 L2].
    { destruct Hq as ((_ & [Hap _] & _) & _ & Hl & _). split; [|apply Hl, elem_of_cons; auto]. apply (Hap (entry + 24)). cbn. rewrite !elem_of_cons. auto. }
    destruct (Hw entry ltac:(apply elem_of_cons; auto)) as [Hfun Htask]. rewrite Hhe. cbn [wake_loop]. rewrite L1, (proj2 (Z.eqb_neq _ _) Hne). cbn [orb]. change KB_WAITQUEUE_ENTRY_LIST_OFFSET with 24. replace (entry + 24 - 24) with entry by lia. rewrite Hfun, Hfn. unfold call_wake_function. rewrite Z.eqb_refl.
    rewrite (autoremove_spec entry s Htask L2). cbn [Z.ltb Z.compare]. set (s1 := with_sync_mem _ _).
    assert (sy_mem s1 = kb_wait_list_del_init (entry + 24) (sy_mem s)) as Hm1. { unfold s1. cbn [wake_tasks foldl]. pose proof (wake_process_mem (entry_task (sy_mem s) entry) s) as [E _]. destruct (kb_wake_up_process _ s) as [[kr mm vi] r]. cbn in *. by rewrite E. }
    assert (kthread_records s1 = kthread_records (wake_tasks [entry_task (sy_mem s) entry] s)) as Hk1 by (unfold s1; by destruct (wake_tasks _ s)).
    rewrite <- Hm1 in Hq', Hem, Hhn, Hfr. destruct (waiters_frame _ (sy_mem s1) wq (entry :: es) Hq Hw Hfr) as [Hw1 Ht1].
    assert (entry_task (sy_mem s1) <$> es = entry_task (sy_mem s) <$> es) as Ht2 by (apply list_fmap_ext; intros i x Hx; apply Ht1, elem_of_cons; right; by apply list_elem_of_lookup_2 in Hx).
    destruct ((0 <? nr) && (nr <=? woken + 1)) eqn:Estop.
    + apply andb_true_iff in Estop as [E1%Z.ltb_lt E2%Z.leb_le]. assert (k = 1%nat) as -> by (unfold k, to_wake; cbn [length]; rewrite (proj2 (Z.leb_gt nr 0)) by lia; lia).
      exists s1. split_and!; [done|done| |done|done]. intros x Hx. cbn in Hx. by apply list_elem_of_singleton in Hx as ->.
    + assert (0 < nr -> woken + 1 < nr) as Hnr' by (intros Hpos; rewrite (proj2 (Z.ltb_lt 0 nr) Hpos) in Estop; by apply Z.leb_gt in Estop).
      destruct (IH s1 (woken + 1) fuel Hq' ltac:(intros x Hx; apply Hw1, elem_of_cons; auto) ltac:(cbn in Hf; lia) Hnr') as (s' & E & Q & Em & K & F). rewrite Hhn in E.
      assert (k = S (to_wake nr (woken + 1) es)) as -> by (unfold k, to_wake; cbn [length]; case_match eqn:En; [done|]; apply Z.leb_gt in En; lia).
      exists s'. rewrite Nat2Z.inj_succ. replace (woken + Z.succ _) with (woken + 1 + Z.of_nat (to_wake nr (woken + 1) es)) by lia. split_and!; [exact E|exact Q|..].
      * intros x Hx. cbn [take] in Hx. apply elem_of_cons in Hx as [->|Hx]; [|by apply Em]. pose proof (F _ (off_links_left _ _ _ _ 0 Hq ltac:(auto))) as F0. pose proof (F _ (off_links_left _ _ _ _ 8 Hq ltac:(auto))) as F8.
        rewrite Z.add_0_r in F0. unfold kb_wait_list_empty, list_next, list_prev in *. by rewrite F0, F8.
      * rewrite K. cbn [take fmap list_fmap wake_tasks foldl]. rewrite fmap_take, Ht2, <- fmap_take. by apply wake_tasks_ext.
      * intros a Ha. rewrite (F a) by (by apply off_links_tail in Ha). by apply Hfr.
Qed.
Lemma wake_up_loop wq nr key es s fuel : waitq (sy_mem s) wq es ->
  kb_wake_up_waitqueue e fuel wq nr key s = wake_loop e fuel (wq + 8) (list_next (sy_mem s) (wq + 8)) nr key 0 s.
Proof.
  intros (_ & Hl & _). unfold kb_wake_up_waitqueue, kb_waitqueue_head_list. rewrite Hl. change (wq + KB_WAITQUEUE_HEAD_OFFSET) with (wq + 8). apply orb_false_iff in Hl as [Hl%Z.ltb_ge _]. by rewrite (proj2 (Z.eqb_neq (wq + 8) 0)) by lia.
Qed.

End wake.



(** ** Completions *)

(** kb_complete does not count: it sets the count to one, also after another kb_complete or
    after kb_complete_all, so that only one wait is answered. *)
Lemma complete_does_not_count completion m : completion <> 0 ->
  mload32 (kb_complete completion (kb_complete completion m)) completion = 1 /\ mload32 (kb_complete completion (kb_complete_all completion m)) completion = 1.
Proof.
  intros Hc. unfold kb_complete, kb_complete_all. rewrite (proj2 (Z.eqb_neq completion 0) Hc). split; apply mload32_mstore32_same; unfold is_u32; lia.
Qed.

(** Two waiters that are not exclusive, woken for one: the second stays asleep. *)
Lemma wake_one_leaves_others e wq e1 e2 key s fuel : kb_wait_low_pointer (fn_autoremove e) = false -> waitq (sy_mem s) wq [e1; e2] -> waiters e (sy_mem s) [e1; e2] -> (2 <= fuel)%nat ->
  exists s', kb_wake_up_waitqueue e fuel wq 1 key s = Some (s', 1) /\ waitq (sy_mem s') wq [e2].
Proof.
  intros Hfn Hq Hw Hf. rewrite (wake_up_loop e wq 1 key [e1; e2]) by done. destruct (wake_loop_spec e Hfn wq 1 key [e1; e2] s 0 fuel Hq Hw ltac:(cbn; lia) ltac:(done)) as (s' & E & Q & _). exists s'. split; [exact E|exact Q].
Qed.
