(* ===== verification/WaitTheorems.v ===== *)
(** * Waiting and waking, interleaved (Sync.v)

    Threads prepare to wait on a queue, give way, are woken and finish, in any order.  The
    queue in memory follows a list of entries, and a thread is woken exactly when a wake-up
    takes its entry off that list: none is lost, before or after it has given way. *)

From S2P Require Import Prelude Memory RbTree LinkedLists Sync SyncTheorems.

(** ** Putting entries into a queue and taking them out *)




(** What the words of a queue are does not depend on its order. *)
Lemma off_links_sub wq es es' a : (forall x, x ∈ es' -> x ∈ es) -> off_links wq es a -> off_links wq es' a.
Proof.
  intros H Ho u Hu. apply Ho. apply elem_of_cons in Hu as [->|Hu]; [apply elem_of_cons; auto|]. apply list_elem_of_fmap in Hu as (x & -> & Hx). apply elem_of_cons. right. apply list_elem_of_fmap. eauto.
Qed.


(** ** Threads *)

(** The first record of the task. *)
Definition thread (s : sync_state) (task : Z) : option kb_kthread_record := first_index (fun t => kt_task t =? task) (kthread_records s) ≫= (kthread_records s !!.).
Lemma thread_index s task t : thread s task = Some t -> exists i, first_index (fun t => kt_task t =? task) (kthread_records s) = Some i /\ kthread_records s !! i = Some t.
Proof. unfold thread. destruct (first_index _ _) as [i|]; [|done]. intros H. by exists i. Qed.
Lemma thread_alter s task t i f : thread s task = Some t -> first_index (fun t => kt_task t =? task) (kthread_records s) = Some i -> (forall t, kt_task (f t) = kt_task t) ->
  thread (s <| kthread_records ::= alter f i |>) task = Some (f t).
Proof.
  intros Ht Hi Hf. destruct s as [kr mm vi]. unfold thread in *. cbn [kthread_records] in *. rewrite Hi in Ht. cbn in Ht. change (kthread_records (mk_sync_state kr mm vi <| kthread_records ::= alter f i |>)) with (alter f i kr).
  rewrite first_index_alter by (intros x; by rewrite Hf). rewrite Hi. cbn. rewrite list_lookup_alter_eq, Ht. done.
Qed.
(** A wake-up of a thread that prepared to wait is noted. *)
Definition woken_record (t : kb_kthread_record) : kb_kthread_record := (if kt_wait_prepared t then t <| kt_wake_pending := true |> else t) <| kt_activated := true |>.
Lemma wake_thread s task t : thread s task = Some t -> thread (kb_wake_up_process task s).1 task = Some (woken_record t).
Proof.
  intros Ht. destruct (thread_index s task t Ht) as (i & Hi & _). unfold kb_wake_up_process. rewrite Hi. apply (thread_alter s task t i); [done|done|]. intros t'. by destruct t' as [a b [] c d].
Qed.



(** ** A thread among others *)

Section waiting.
Context (e : sync_env) (Hfn : kb_wait_low_pointer (fn_autoremove e) = false).
(** The queue, the entries that are ever put into it and the tasks of their threads. *)
Context (wq : Z) (U : list Z) (task_of : Z -> Z).
Context (Hroom : forall x, x ∈ U -> kb_wait_low_pointer x = false /\ link_ptr (x + 24) /\ (x + 40 <= wq \/ wq + 24 <= x)).
Context (Happart : forall x y, x ∈ U -> y ∈ U -> x <> y -> x + 40 <= y \/ y + 40 <= x).





(** *** What threads do *)





(** *** Our thread *)

Context (entry : Z) (Hentry : entry ∈ U) (Hown : forall y, y ∈ U -> y <> entry -> task_of y <> task_of entry).





End waiting.


(** A thread that writes its state before kb_schedule, without kb_prepare_to_wait, does lose a
    wake-up that comes in between: nothing notes it, and the thread gives way. *)
Lemma unprepared_wakeup_is_lost s task state t : thread s task = Some t -> kt_wait_prepared t = false -> kt_wake_pending t = false -> state <> 0 ->
  exists s' t', kb_schedule_prepare task state (kb_wake_up_process task s).1 = (s', false) /\ thread s' task = Some t' /\ kt_activated t' = false.
Proof.
  intros Ht Hp Hn Hs. pose proof (wake_thread s task t Ht) as Hw. destruct (thread_index _ _ _ Hw) as (i & Hi & Hl). unfold kb_schedule_prepare. rewrite Hi, Hl, (proj2 (Z.eqb_neq state 0) Hs). cbn [negb]. rewrite orb_true_r.
  assert (kt_wake_pending (woken_record t) = false) as -> by (unfold woken_record; destruct t; cbn in *; by subst). eexists _, _. split_and!; [done|by apply (thread_alter _ task (woken_record t) i); [| |intros []]|by destruct (woken_record t)].
Qed.
