(* ===== verification/Printk.v ===== *)
(** * Formatted output (src/src/linux_personality/linux_printk.c)

    The formatter behind printk, snprintf and sprintf, and the filter of messages.  A format
    is the list of its characters; the variable arguments are a stream of words, of which the
    conversions take what they need; what strings print is read from memory.  PrintkTheorems.v has
    the theorems. *)

From S2P Require Import Prelude Memory.

Definition INT32_MAX : Z := 0x7fffffff.
(** The character of a one-character literal. *)
Definition chr (s : string) : Z := nth 0 (cstr s) 0.
Definition isdigit (c : Z) : bool := (48 <=? c) && (c <=? 57).
Definition isalnum (c : Z) : bool := isdigit c || (65 <=? c) && (c <=? 90) || (97 <=? c) && (c <=? 122).

(** ** The buffer *)

(** [o_mem] is the memory the buffer is in, [buf] its address or 0. *)
Record safe_snprintf_buffer := mk_out { o_mem : mem; o_buf : Z; o_size : Z; o_used : Z; o_total : Z }.
#[export] Instance out_eta : Settable safe_snprintf_buffer := fun o => mk_out (o_mem o) (o_buf o) (o_size o) (o_used o) (o_total o).

(** [text] is read before the copy.  The code copies with memcpy, which is undefined for a
    %s string that overlaps the buffer; there this is the copy of memmove. *)
Definition safe_buffer_write (text : list Z) (out : safe_snprintf_buffer) : safe_snprintf_buffer :=
  let length := blen text in
  let out :=
    if negb (o_buf out =? 0) && negb (o_size out =? 0) && (o_used out + 1 <? o_size out) then
      let room := o_size out - o_used out - 1 in
      let copied := if length <? room then length else room in
      let used := o_used out + copied in
      out <| o_mem := mstore (mstore (o_mem out) (o_buf out + o_used out) (take (Z.to_nat copied) text)) (o_buf out + used) [0] |> <| o_used := used |>
    else out in
  if INT32_MAX - o_total out <? length then out <| o_total := INT32_MAX |> else out <| o_total ::= fun t => t + length |>.
Definition safe_buffer_putc (value : Z) (out : safe_snprintf_buffer) : safe_snprintf_buffer := safe_buffer_write [value] out.
Definition safe_buffer_repeat (value count : Z) (out : safe_snprintf_buffer) : safe_snprintf_buffer := Nat.iter (Z.to_nat count) (safe_buffer_putc value) out.
(** The characters of a literal up to 512, and those of a string in memory. *)
Definition safe_buffer_puts (text : list Z) (out : safe_snprintf_buffer) : safe_snprintf_buffer := safe_buffer_write (take 512 text) out.
Definition safe_string_arg (value : Z) : option (list Z) :=
  if value =? 0 then Some (cstr "(null)")
  else if value <? 4096 then Some (cstr "(efault)")
  else if UINT64_MAX - 4095 <=? value then Some (cstr "(errptr)")
  else None.
Definition string_text (m : mem) (value : Z) : list Z :=
  match safe_string_arg value with Some text => take 512 text | None => bounded_string m value 512 end.

(** ** Options *)

Inductive printk_length := PRINTK_LEN_NONE | PRINTK_LEN_HH | PRINTK_LEN_H | PRINTK_LEN_L | PRINTK_LEN_LL | PRINTK_LEN_Z | PRINTK_LEN_T | PRINTK_LEN_J.
Record printk_format_options := mk_options {
  f_left : bool; f_plus : bool; f_space : bool; f_alternate : bool; f_zero : bool;
  f_width : Z; f_precision : Z; f_precision_set : bool;
}.
#[export] Instance options_eta : Settable printk_format_options := fun o =>
  mk_options (f_left o) (f_plus o) (f_space o) (f_alternate o) (f_zero o) (f_width o) (f_precision o) (f_precision_set o).
Definition no_options : printk_format_options := mk_options false false false false false 0 0 false.

(** Digits that do not fit an int are passed over. *)
Fixpoint parse_decimal_field (value : Z) (p : list Z) : Z * list Z :=
  match p with
  | c :: rest =>
      if isdigit c then
        let digit := c - 48 in parse_decimal_field (if value <=? (INT32_MAX - digit) / 10 then value * 10 + digit else value) rest
      else (value, p)
  | [] => (value, [])
  end.
Fixpoint parse_flags (options : printk_format_options) (p : list Z) : printk_format_options * list Z :=
  match p with
  | c :: rest =>
      if c =? chr "#" then parse_flags (options <| f_alternate := true |>) rest
      else if c =? chr "0" then parse_flags (options <| f_zero := true |>) rest
      else if c =? chr "-" then parse_flags (options <| f_left := true |>) rest
      else if c =? chr "+" then parse_flags (options <| f_plus := true |>) rest
      else if c =? chr " " then parse_flags (options <| f_space := true |>) rest
      else if c =? chr "'" then parse_flags options rest
      else (options, p)
  | [] => (options, [])
  end.
Definition parse_length (p : list Z) : printk_length * list Z :=
  match p with
  | c :: rest =>
      if c =? chr "h" then match rest with d :: rest' => if d =? chr "h" then (PRINTK_LEN_HH, rest') else (PRINTK_LEN_H, rest) | [] => (PRINTK_LEN_H, []) end
      else if c =? chr "l" then match rest with d :: rest' => if d =? chr "l" then (PRINTK_LEN_LL, rest') else (PRINTK_LEN_L, rest) | [] => (PRINTK_LEN_L, []) end
      else if c =? chr "z" then (PRINTK_LEN_Z, rest)
      else if c =? chr "t" then (PRINTK_LEN_T, rest)
      else if c =? chr "j" then (PRINTK_LEN_J, rest)
      else (PRINTK_LEN_NONE, p)
  | [] => (PRINTK_LEN_NONE, [])
  end.

(** ** Numbers *)

Fixpoint reverse_digits (room : nat) (value base : Z) (alphabet : list Z) : list Z :=
  match room with
  | O => []
  | S room => if value =? 0 then [] else nth (Z.to_nat (value mod base)) alphabet 0 :: reverse_digits room (value / base) base alphabet
  end.
Definition format_unsigned_digits (capacity : nat) (value base : Z) (uppercase : bool) : list Z :=
  let alphabet := if uppercase then cstr "0123456789ABCDEF" else cstr "0123456789abcdef" in
  if (base <? 2) || (16 <? base) || Nat.eqb capacity 0 then []
  else take (pred capacity) (rev (if value =? 0 then [chr "0"] else reverse_digits 65 value base alphabet)).
Definition signed_magnitude (value : Z) : Z * bool := if value <? 0 then (u64 (u64 (- (value + 1)) + 1), true) else (value, false).

(** The parts of a number: sign or prefix, zeroes of the precision, digits, padding. *)
Definition number_digits (magnitude base : Z) (uppercase : bool) (options : printk_format_options) : list Z :=
  if f_precision_set options && (f_precision options =? 0) && (magnitude =? 0) then [] else format_unsigned_digits 65 magnitude base uppercase.
Definition number_prefix (magnitude : Z) (negative : bool) (base : Z) (uppercase is_signed : bool) (options : printk_format_options) (digits : list Z) : list Z :=
  if is_signed && negative then cstr "-"
  else if is_signed && f_plus options then cstr "+"
  else if is_signed && f_space options then cstr " "
  else if f_alternate options && (base =? 8) && match digits with [] => true | c :: _ => negb (c =? chr "0") end then cstr "0"
  else if f_alternate options && (base =? 16) && negb (magnitude =? 0) then if uppercase then cstr "0X" else cstr "0x"
  else [].
(** Sums of ints wrap around where C leaves them undefined. *)
Definition number_zeroes (options : printk_format_options) (digits : list Z) : Z :=
  if f_precision_set options && (blen digits <? f_precision options) then f_precision options - blen digits else 0.
Definition number_padding (options : printk_format_options) (prefix digits : list Z) : Z :=
  let content_width := s32 (blen prefix + number_zeroes options digits + blen digits) in
  if content_width <? f_width options then s32 (f_width options - content_width) else 0.
Definition pads_with_zero (options : printk_format_options) : bool := f_zero options && negb (f_left options) && negb (f_precision_set options).

Definition safe_buffer_put_number (magnitude : Z) (negative : bool) (base : Z) (uppercase is_signed : bool) (options : printk_format_options) (out : safe_snprintf_buffer) : safe_snprintf_buffer :=
  let digits := number_digits magnitude base uppercase options in
  let prefix := number_prefix magnitude negative base uppercase is_signed options digits in
  let width_padding := number_padding options prefix digits in
  let zero := pads_with_zero options in
  let out := if negb (f_left options) && negb zero then safe_buffer_repeat (chr " ") width_padding out else out in
  let out := safe_buffer_write prefix out in
  let out := if negb (f_left options) && zero then safe_buffer_repeat (chr "0") width_padding out else out in
  let out := safe_buffer_repeat (chr "0") (number_zeroes options digits) out in
  let out := safe_buffer_write digits out in
  if f_left options then safe_buffer_repeat (chr " ") width_padding out else out.

(** ** Conversions *)

(** What a conversion prints. *)
Inductive piece :=
  | Chars (text : list Z)
  | Literal (text : list Z)
  | StringAt (value : Z)
  | Number (magnitude : Z) (negative : bool) (base : Z) (uppercase is_signed : bool) (options : printk_format_options).
Definition put_piece (piece : piece) (out : safe_snprintf_buffer) : safe_snprintf_buffer :=
  match piece with
  | Chars text => foldl (fun out c => safe_buffer_putc c out) out text
  | Literal text => safe_buffer_puts text out
  | StringAt value => safe_buffer_write (string_text (o_mem out) value) out
  | Number magnitude negative base uppercase is_signed options => safe_buffer_put_number magnitude negative base uppercase is_signed options out
  end.

Section args.
(** The words of the variable arguments; [k] is the next one. *)
Context (args : nat -> Z).
Definition va_int (k : nat) : Z := s32 (args k).
Definition va_long (k : nat) : Z := s64 (args k).

Definition parse_width (options : printk_format_options) (p : list Z) (k : nat) : printk_format_options * list Z * nat :=
  match p with
  | c :: rest =>
      if c =? chr "*" then
        let width := va_int k in
        (if width <? 0 then options <| f_left := true |> <| f_width := s32 (- width) |> else options <| f_width := width |>, rest, S k)
      else let '(width, p) := parse_decimal_field 0 p in (options <| f_width := width |>, p, k)
  | [] => (options, [], k)
  end.
Definition parse_precision (options : printk_format_options) (p : list Z) (k : nat) : printk_format_options * list Z * nat :=
  match p with
  | c :: rest =>
      if c =? chr "." then
        match rest with
        | d :: rest' =>
            if d =? chr "*" then
              let precision := va_int k in
              (if precision <? 0 then options <| f_precision := 0 |> <| f_precision_set := false |> else options <| f_precision := precision |> <| f_precision_set := true |>, rest', S k)
            else let '(precision, p) := parse_decimal_field 0 rest in (options <| f_precision := precision |> <| f_precision_set := true |>, p, k)
        | [] => (options <| f_precision_set := true |>, [], k)
        end
      else (options, p, k)
  | [] => (options, [], k)
  end.
Definition signed_arg (length : printk_length) (k : nat) : Z :=
  match length with PRINTK_LEN_L | PRINTK_LEN_LL | PRINTK_LEN_Z | PRINTK_LEN_T | PRINTK_LEN_J => va_long k | _ => va_int k end.
Definition unsigned_arg (length : printk_length) (k : nat) : Z :=
  match length with PRINTK_LEN_L | PRINTK_LEN_LL | PRINTK_LEN_Z | PRINTK_LEN_T | PRINTK_LEN_J => u64 (args k) | _ => u32 (args k) end.
Fixpoint skip_alnum (p : list Z) : list Z := match p with c :: rest => if isalnum c then skip_alnum rest else p | [] => [] end.

(** The conversion character and what it takes; [p] is behind it. *)
Definition convert (c : Z) (length : printk_length) (options : printk_format_options) (p : list Z) (k : nat) : piece * list Z * nat :=
  if c =? chr "s" then
    (match length with PRINTK_LEN_L => Literal (cstr "(wstr)") | _ => StringAt (u64 (args k)) end, p, S k)
  else if c =? chr "S" then (Literal (cstr "(wstr)"), p, S k)
  else if c =? chr "p" then (Number (u64 (args k)) false 16 false false (options <| f_alternate := true |>), skip_alnum p, S k)
  else if (c =? chr "c") || (c =? chr "C") then
    let value := va_int k in (Chars [if (32 <=? value) && (value <? 127) then value else chr "?"], p, S k)
  else if (c =? chr "d") || (c =? chr "i") then
    let '(magnitude, negative) := signed_magnitude (signed_arg length k) in (Number magnitude negative 10 false true options, p, S k)
  else if (c =? chr "u") || (c =? chr "x") || (c =? chr "X") || (c =? chr "o") then
    (Number (unsigned_arg length k) false (if c =? chr "o" then 8 else if c =? chr "u" then 10 else 16) (c =? chr "X") false options, p, S k)
  else if c =? chr "n" then (Chars [], p, S k)
  else (Chars [chr "%"; c], p, k).

(** One round of the loop; [None]: the format is at its end. *)
Definition printk_round (p : list Z) (k : nat) : option (piece * list Z * nat) :=
  match p with
  | [] => None
  | c :: p =>
      if negb (c =? chr "%") then Some (Chars [c], p, k)
      else match p with
           | d :: rest =>
               if d =? chr "%" then Some (Chars [chr "%"], rest, k)
               else
                 let '(options, p) := parse_flags no_options p in
                 let '(options, p, k) := parse_width options p k in
                 let '(options, p, k) := parse_precision options p k in
                 let '(length, p) := parse_length p in
                 match p with [] => None | c :: p => Some (convert c length options p k) end
           | [] => None
           end
  end.
Fixpoint format_loop (fuel : nat) (p : list Z) (k : nat) (out : safe_snprintf_buffer) : option safe_snprintf_buffer :=
  match printk_round p k with
  | None => Some out
  | Some (piece, p, k) => match fuel with O => None | S fuel => format_loop fuel p k (put_piece piece out) end
  end.

(** A level in front of the format, as [KERN_INFO] puts it there, is passed over. *)
Definition printk_format (fmt : option (list Z)) : list Z :=
  match fmt with
  | None => []
  | Some ((a :: b :: rest) as p) => if (a =? 1) && (48 <=? b) && (b <=? 55) then rest else p
  | Some p => p
  end.
Definition printk_loglevel (fmt : option (list Z)) : Z :=
  match fmt with Some (a :: b :: _) => if (a =? 1) && (48 <=? b) && (b <=? 55) then b - 48 else -1 | _ => -1 end.

(** The memory and the answer; every round takes a character of the format. *)
Definition kb_vsnprintf_safe (buf size : Z) (fmt : option (list Z)) (m : mem) : option (mem * Z) :=
  let m := if negb (size =? 0) && negb (buf =? 0) then mstore m buf [0] else m in
  let p := printk_format fmt in
  match format_loop (length p) p 0 (mk_out m buf size 0 0) with
  | None => None
  | Some out =>
      let m := if negb (size =? 0) && negb (buf =? 0) then
                 let index := if o_used out <? size then o_used out else size - 1 in mstore (o_mem out) (buf + index) [0]
               else o_mem out in
      Some (m, o_total out)
  end.
Definition kb_snprintf_safe (buf size : Z) (fmt : option (list Z)) (m : mem) : option (mem * Z) := kb_vsnprintf_safe buf size fmt m.
Definition kb_sprintf_safe (buf : Z) (fmt : option (list Z)) (m : mem) : option (mem * Z) := kb_vsnprintf_safe buf 4096 fmt m.

(** ** Messages *)

Fixpoint starts_with (q p : list Z) : bool :=
  match q, p with [], _ => true | a :: q, b :: p => (a =? b) && starts_with q p | _, _ => false end.
Fixpoint strstr (p q : list Z) : bool := starts_with q p || match p with [] => false | _ :: p => strstr p q end.
Definition routine_printk_message (text : list Z) : bool :=
  match text with
  | a :: b :: _ => if (a =? 1) && (53 <=? b) && (b <=? 55) then true
                   else starts_with (cstr "pci function ") text || strstr text (cstr " default/read/poll queues") || starts_with (cstr "Ignoring bogus Namespace Identifiers") text
  | _ => starts_with (cstr "pci function ") text || strstr text (cstr " default/read/poll queues") || starts_with (cstr "Ignoring bogus Namespace Identifiers") text
  end.
Definition forced_printk_message (text : list Z) : bool := starts_with (cstr "kobox linux_tty_core:") text || starts_with (cstr "kobox virtio_") text.

(** [write i text]: what the [i]-th call of write answers.  The bytes that were accepted. *)
Fixpoint stderr_write_all (fuel : nat) (write : nat -> list Z -> Z) (i : nat) (text : list Z) : list Z :=
  match text, fuel with
  | [], _ | _, O => []
  | _, S fuel => let n := write i text in if n <=? 0 then [] else take (Z.to_nat n) text ++ stderr_write_all fuel write (S i) (drop (Z.to_nat n) text)
  end.
(** [buffer]: where the 4096 bytes on the stack are; [trace]: KOBOX_TRACE_PRINTK. *)
Definition printk_trace_enabled (trace : option string) : bool :=
  match trace with Some value => negb (String.eqb value "") && negb (String.eqb value "0") | None => false end.
Definition kb_vprintk_safe (buffer : Z) (trace : option string) (write : nat -> list Z -> Z) (fmt : option (list Z)) (m : mem) : option (mem * Z * list Z) :=
  match kb_vsnprintf_safe buffer 4096 fmt m with
  | None => None
  | Some (m, needed) =>
      let text := bounded_string m buffer 4096 in
      let level := printk_loglevel fmt in
      Some (m, needed,
        if negb (printk_trace_enabled trace) && negb (forced_printk_message text) && ((5 <=? level) || routine_printk_message text) then []
        else stderr_write_all (length text) write 0 text)
  end.
Definition kb_vprintk_filtered := kb_vprintk_safe.
Definition kb_printk := kb_vprintk_filtered.
Definition kb_tracef := kb_vprintk_safe.
Definition printk := kb_vprintk_filtered.
End args.
