(* ===== verification/PrintkTheorems.v ===== *)
(** * Theorems about formatted output (Printk.v)

    The formatter writes the beginning of the text of the format that fits, with a terminator,
    and nothing else; it answers the length of the whole text; numbers can be read back. *)

From S2P Require Import Prelude Memory Printk.

(** ** Stores as maps *)

Lemma lookup_mstore m a q b : mstore m a q !! b = if decide (a <= b < a + blen q) then q !! Z.to_nat (b - a) else m !! b.
Proof.
  revert m a. induction q as [|c q IH]; intros m a; cbn [mstore].
  - rewrite decide_False; [done|]. unfold blen. cbn. lia.
  - rewrite IH. unfold blen in *. cbn [length]. destruct (decide (a = b)) as [->|Hne].
    + rewrite decide_False by lia. rewrite decide_True by lia. rewrite lookup_insert_eq. by replace (Z.to_nat (b - b)) with O by lia.
    + rewrite lookup_insert_ne by done. destruct (decide (a + 1 <= b < a + 1 + Z.of_nat (length q))); [rewrite decide_True by lia|by rewrite decide_False by lia].
      replace (Z.to_nat (b - a)) with (S (Z.to_nat (b - (a + 1)))) by lia. done.
Qed.
(** A string stored behind another one that ends with a terminator, which it replaces. *)
Lemma mstore_append m a x y n : n = blen x -> mstore (mstore (mstore m a (x ++ [0])) (a + n) y) (a + n + blen y) [0] = mstore m a (x ++ y ++ [0]).
Proof.
  intros ->. apply map_eq. intros b. rewrite !lookup_mstore. unfold blen. rewrite !length_app. cbn [length].
  destruct (decide (a <= b < a + Z.of_nat (length x + (length y + 1)))) as [Hin|Hout].
  - destruct (decide (b < a + Z.of_nat (length x))); [|destruct (decide (b < a + Z.of_nat (length x + length y)))].
    + do 2 rewrite (decide_False (P := _ <= b < _)) by lia. rewrite decide_True by lia. rewrite !lookup_app_l by lia. done.
    + rewrite (decide_False (P := _ <= b < _)) by lia. rewrite decide_True by lia. rewrite lookup_app_r, lookup_app_l by lia. f_equal. lia.
    + rewrite decide_True by lia. rewrite !lookup_app_r by lia. f_equal. lia.
  - by rewrite !decide_False by lia.
Qed.

(** ** The buffer *)

Definition active (buf size : Z) : bool := negb (buf =? 0) && negb (size =? 0).
(** The buffer after [text] was written into it, in the memory [m] before. *)
Definition after (m : mem) (buf size : Z) (text : list Z) : safe_snprintf_buffer :=
  mk_out (if active buf size then mstore m buf (take (Z.to_nat (size - 1)) text ++ [0]) else m) buf size
    (if active buf size then Z.min (size - 1) (blen text) else 0) (Z.min INT32_MAX (blen text)).

Section buffer.
Context (m : mem) (buf size : Z) (Hsize : 0 <= size).

(** What the buffer holds and how much of it is used, when [t] is added to [text]. *)
Definition added (text t : list Z) : mem * Z :=
  let used := Z.min (size - 1) (blen text) in
  let old := mstore m buf (take (Z.to_nat (size - 1)) text ++ [0]) in
  if used + 1 <? size then
    let room := size - used - 1 in
    let copied := if blen t <? room then blen t else room in
    (mstore (mstore old (buf + used) (take (Z.to_nat copied) t)) (buf + (used + copied)) [0], used + copied)
  else (old, used).
Lemma added_spec text t : size <> 0 -> added text t = (mstore m buf (take (Z.to_nat (size - 1)) (text ++ t) ++ [0]), Z.min (size - 1) (blen (text ++ t))).
Proof.
  intros Hs. unfold added. assert (blen (text ++ t) = blen text + blen t) as -> by (unfold blen; rewrite length_app; lia). pose proof (Zle_0_nat (length t)) as Ht. pose proof (Zle_0_nat (length text)) as Hx. unfold blen in *. destruct (Z.ltb_spec (Z.min (size - 1) (Z.of_nat (length text)) + 1) size) as [Hroom|Hfull].
  - replace (Z.min (size - 1) (Z.of_nat (length text))) with (Z.of_nat (length text)) by lia. set (copied := if _ <? _ then _ else _). assert (copied = Z.min (Z.of_nat (length t)) (size - Z.of_nat (length text) - 1)) as Hc by (unfold copied; destruct (Z.ltb_spec (Z.of_nat (length t)) (size - Z.of_nat (length text) - 1)); lia).
    rewrite (take_ge text) by lia. rewrite take_app, (take_ge text) by lia. rewrite <- app_assoc. f_equal; [|lia].
    replace (take (Z.to_nat (size - 1) - length text) t) with (take (Z.to_nat copied) t); [|destruct (decide (copied = Z.of_nat (length t))); [rewrite !take_ge by lia; done|f_equal; lia]].
    rewrite <- (mstore_append m buf text _ (Z.of_nat (length text)) eq_refl). f_equal. unfold blen. rewrite length_take. lia.
  - rewrite take_app_le by lia. f_equal. lia.
Qed.
Lemma write_after text t : safe_buffer_write t (after m buf size text) = after m buf size (text ++ t).
Proof.
  assert (Z.min INT32_MAX (blen (text ++ t)) = if INT32_MAX - Z.min INT32_MAX (blen text) <? blen t then INT32_MAX else Z.min INT32_MAX (blen text) + blen t) as Ht.
  { unfold blen. rewrite length_app. destruct (Z.ltb_spec (INT32_MAX - Z.min INT32_MAX (Z.of_nat (length text))) (Z.of_nat (length t))); lia. }
  unfold safe_buffer_write, after. cbn [o_buf o_size o_used o_total o_mem]. rewrite Ht. fold (active buf size). destruct (active buf size) eqn:Ea; cbn [andb].
  - apply andb_true_iff in Ea as [_ Ea%negb_true_iff%Z.eqb_neq]. pose proof (added_spec text t Ea) as Ha. unfold added in Ha. destruct (_ + 1 <? size); injection Ha as Hm Hu; rewrite <- Hm, <- Hu; by destruct (_ <? blen t).
  - by destruct (_ <? blen t).
Qed.
Lemma repeat_after text c n : safe_buffer_repeat c n (after m buf size text) = after m buf size (text ++ replicate (Z.to_nat n) c).
Proof.
  unfold safe_buffer_repeat. induction (Z.to_nat n) as [|k IH]; [by rewrite app_nil_r|]. cbn [replicate]. rewrite replicate_cons_app, app_assoc, <- write_after, <- IH. done.
Qed.
Lemma chars_after t : forall text, foldl (fun out c => safe_buffer_putc c out) (after m buf size text) t = after m buf size (text ++ t).
Proof. induction t as [|c t IH]; intros text; cbn [foldl]; [by rewrite app_nil_r|]. change (safe_buffer_putc c (after m buf size text)) with (safe_buffer_write [c] (after m buf size text)). by rewrite write_after, IH, <- app_assoc. Qed.
End buffer.

(** ** The text of a format *)

Definition number_text (magnitude : Z) (negative : bool) (base : Z) (uppercase is_signed : bool) (options : printk_format_options) : list Z :=
  let digits := number_digits magnitude base uppercase options in
  let prefix := number_prefix magnitude negative base uppercase is_signed options digits in
  let padding := Z.to_nat (number_padding options prefix digits) in
  let zero := pads_with_zero options in
  (if negb (f_left options) && negb zero then replicate padding (chr " ") else []) ++ prefix ++
  (if negb (f_left options) && zero then replicate padding (chr "0") else []) ++ replicate (Z.to_nat (number_zeroes options digits)) (chr "0") ++ digits ++
  (if f_left options then replicate padding (chr " ") else []).
Definition piece_text (m : mem) (piece : piece) : list Z :=
  match piece with
  | Chars text => text
  | Literal text => take 512 text
  | StringAt value => string_text m value
  | Number magnitude negative base uppercase is_signed options => number_text magnitude negative base uppercase is_signed options
  end.
(** The conversions of a format; every round takes a character of it. *)
Fixpoint pieces (args : nat -> Z) (fuel : nat) (p : list Z) (k : nat) : list piece :=
  match fuel, printk_round args p k with
  | S fuel, Some (piece, p, k) => piece :: pieces args fuel p k
  | _, _ => []
  end.
Definition format_pieces (args : nat -> Z) (fmt : option (list Z)) : list piece := pieces args (length (printk_format fmt)) (printk_format fmt) 0.
Definition format_text (args : nat -> Z) (m : mem) (fmt : option (list Z)) : list Z := format_pieces args fmt ≫= piece_text m.
(** A string that is printed is not where the text goes. *)
Definition outside (buf size : Z) (piece : piece) : Prop :=
  match piece with StringAt value => safe_string_arg value = None -> value + 512 <= buf \/ buf + size <= value | _ => True end.

Section text.
Context (args : nat -> Z) (m : mem) (buf size : Z) (Hsize : 0 <= size).

Lemma put_number_after magnitude negative base uppercase is_signed options text :
  safe_buffer_put_number magnitude negative base uppercase is_signed options (after m buf size text) = after m buf size (text ++ number_text magnitude negative base uppercase is_signed options).
Proof.
  unfold safe_buffer_put_number, number_text. destruct (f_left options), (pads_with_zero options); cbn [negb andb]; repeat first [rewrite write_after by done|rewrite repeat_after by done]; by rewrite <- ?app_assoc, ?app_nil_l, ?app_nil_r.
Qed.
Lemma text_at_ext m' n value : (forall a, value <= a < value + Z.of_nat n -> m' !! a = m !! a) -> bounded_string m' value n = bounded_string m value n.
Proof.
  revert value. induction n as [|n IH]; intros value H; cbn [bounded_string]; [done|]. unfold mem_byte. rewrite (H value) by lia. case_match; [done|]. f_equal. apply IH. intros a Ha. apply H. lia.
Qed.
Lemma put_piece_after piece text : outside buf size piece -> put_piece piece (after m buf size text) = after m buf size (text ++ piece_text m piece).
Proof.
  destruct piece as [t|t|value|]; cbn [put_piece piece_text outside]; intros Ho; [by apply chars_after|by apply write_after| |apply put_number_after].
  rewrite write_after by done. do 2 f_equal. unfold string_text. destruct (safe_string_arg value); [done|]. specialize (Ho eq_refl). cbn [after o_mem]. destruct (active buf size) eqn:Ea; [|done]. apply text_at_ext.
  intros a Ha. apply andb_true_iff in Ea as [_ Ea%negb_true_iff%Z.eqb_neq]. rewrite lookup_mstore, decide_False; [done|]. unfold blen. rewrite length_app, length_take. cbn [length]. lia.
Qed.

(** Every part of a format that is passed over gets shorter. *)
Lemma decimal_shrinks p value : (length (parse_decimal_field value p).2 <= length p)%nat.
Proof. revert value. induction p as [|c p IH]; intros value; cbn; [done|]. case_match; cbn; [|done]. specialize (IH (if value <=? (INT32_MAX - (c - 48)) / 10 then value * 10 + (c - 48) else value)). lia. Qed.
Lemma flags_shrink p options : (length (parse_flags options p).2 <= length p)%nat.
Proof. revert options. induction p as [|c p IH]; intros options; cbn [parse_flags]; [done|]. repeat case_match; cbn [length snd]; try (etrans; [apply IH|lia]). done. Qed.
Lemma length_shrinks p : (length (parse_length p).2 <= length p)%nat.
Proof. unfold parse_length. repeat case_match; cbn; lia. Qed.
Lemma width_shrinks options p k : (length (parse_width args options p k).1.2 <= length p)%nat.
Proof. unfold parse_width. destruct p as [|c p]; [done|]. case_match; [cbn; lia|]. pose proof (decimal_shrinks (c :: p) 0). by destruct (parse_decimal_field 0 (c :: p)). Qed.
Lemma precision_shrinks options p k : (length (parse_precision args options p k).1.2 <= length p)%nat.
Proof.
  unfold parse_precision. destruct p as [|c [|d p]]; [done|by case_match; cbn; lia|]. case_match; [|done]. case_match; [cbn; lia|]. pose proof (decimal_shrinks (d :: p) 0). destruct (parse_decimal_field 0 (d :: p)). cbn in *. lia.
Qed.
Lemma alnum_shrinks p : (length (skip_alnum p) <= length p)%nat.
Proof. induction p as [|c p IH]; cbn; [done|]. case_match; cbn; lia. Qed.
Lemma convert_shrinks c length options p k : (List.length (convert args c length options p k).1.2 <= List.length p)%nat.
Proof. unfold convert. repeat case_match; cbn; try done. apply alnum_shrinks. Qed.
Lemma round_shrinks p k piece p' k' : printk_round args p k = Some (piece, p', k') -> (length p' < length p)%nat.
Proof.
  unfold printk_round. destruct p as [|c p]; [done|]. case_match; [intros [= _ <- _]; cbn; lia|]. destruct p as [|d rest]; [done|]. case_match; [intros [= _ <- _]; cbn; lia|].
  pose proof (flags_shrink (d :: rest) no_options) as H1. destruct (parse_flags no_options (d :: rest)) as [o1 p1]. pose proof (width_shrinks o1 p1 k) as H2. destruct (parse_width args o1 p1 k) as [[o2 p2] k2].
  pose proof (precision_shrinks o2 p2 k2) as H3. destruct (parse_precision args o2 p2 k2) as [[o3 p3] k3]. pose proof (length_shrinks p3) as H4. destruct (parse_length p3) as [l p4]. destruct p4 as [|e p5]; [done|].
  intros [= Hc]. pose proof (convert_shrinks e l o3 p5 k3) as H5. rewrite Hc in H5. cbn in *. lia.
Qed.
Lemma format_loop_after fuel : forall p k text, (length p <= fuel)%nat -> Forall (outside buf size) (pieces args fuel p k) ->
  format_loop args fuel p k (after m buf size text) = Some (after m buf size (text ++ (pieces args fuel p k ≫= piece_text m))).
Proof.
  induction fuel as [|fuel IH]; intros p k text Hf Ho; cbn [format_loop pieces] in *; destruct (printk_round args p k) as [[[pc p'] k']|] eqn:E; try (by rewrite app_nil_r).
  - apply round_shrinks in E. lia.
  - apply Forall_cons in Ho as [Ho1 Ho2]. rewrite put_piece_after by done. rewrite IH; [|apply round_shrinks in E; lia|done]. cbn. by rewrite app_assoc.
Qed.

(** C21: kb_vsnprintf_safe writes the beginning of the text of its format that fits into the
    buffer, with a terminator, and nothing else into memory, for every format, all arguments
    and every size; it answers the length of the whole text, at most INT32_MAX; and it always
    comes to an end.  The strings it prints must not be where the text goes. *)
Theorem vsnprintf_writes_the_text fmt : Forall (outside buf size) (format_pieces args fmt) ->
  kb_vsnprintf_safe args buf size fmt m =
    Some (if active buf size then mstore m buf (take (Z.to_nat (size - 1)) (format_text args m fmt) ++ [0]) else m, Z.min INT32_MAX (blen (format_text args m fmt))).
Proof.
  intros Ho. unfold kb_vsnprintf_safe. rewrite (andb_comm (negb (size =? 0))). fold (active buf size).
  assert (mk_out (if active buf size then mstore m buf [0] else m) buf size 0 0 = after m buf size []) as ->.
  { unfold after. rewrite take_nil. cbn [app]. destruct (active buf size) eqn:Ea; [|done]. apply andb_true_iff in Ea as [_ Ea%negb_true_iff%Z.eqb_neq]. f_equal. change (blen []) with 0. lia. }
  rewrite format_loop_after by done. cbn [app]. fold (format_pieces args fmt) (format_text args m fmt). set (text := format_text args m fmt). cbn [after o_used o_mem o_total]. destruct (active buf size) eqn:Ea; [|done]. do 2 f_equal.
  apply andb_true_iff in Ea as [_ Ea%negb_true_iff%Z.eqb_neq]. assert (0 <= blen text) by (unfold blen; lia). rewrite (proj2 (Z.ltb_lt _ size)) by lia.
  pose proof (mstore_append m buf (take (Z.to_nat (size - 1)) text) [] (Z.min (size - 1) (blen text))) as H'. cbn [mstore app] in H'. change (blen []) with 0 in H'. rewrite Z.add_0_r in H'. apply H'. unfold blen. rewrite length_take. unfold blen in *. lia.
Qed.
End text.

(** ** Reading numbers back *)

Definition digit_value (c : Z) : Z :=
  if isdigit c then c - 48 else if (97 <=? c) && (c <=? 102) then c - 87 else if (65 <=? c) && (c <=? 70) then c - 55 else 16.
(** The number of the digits in front, as strtoull reads it. *)
Fixpoint read_digits (base acc : Z) (l : list Z) : Z :=
  match l with c :: l => if digit_value c <? base then read_digits base (acc * base + digit_value c) l else acc | [] => acc end.
Fixpoint skip_spaces (l : list Z) : list Z := match l with c :: l' => if c =? 32 then skip_spaces l' else l | [] => [] end.
Definition read_unsigned (base : Z) (l : list Z) : Z :=
  match l with
  | a :: b :: l' => if (base =? 16) && (a =? 48) && ((b =? 120) || (b =? 88)) then read_digits base 0 l' else read_digits base 0 l
  | _ => read_digits base 0 l
  end.
Definition read_number (base : Z) (l : list Z) : Z :=
  match skip_spaces l with
  | c :: l' => if c =? 45 then - read_unsigned base l' else if c =? 43 then read_unsigned base l' else read_unsigned base (c :: l')
  | [] => 0
  end.

Section numbers.
Context (base : Z) (Hbase : 2 <= base <= 16) (uppercase : bool).
Definition alphabet : list Z := if uppercase then cstr "0123456789ABCDEF" else cstr "0123456789abcdef".
Lemma digit_of_alphabet d : 0 <= d < 16 -> digit_value (nth (Z.to_nat d) alphabet 0) = d.
Proof.
  intros Hd. unfold alphabet. assert (Hall : forall k, (k < 16)%nat -> digit_value (nth k (if uppercase then cstr "0123456789ABCDEF" else cstr "0123456789abcdef") 0) = Z.of_nat k).
  { intros k Hk. do 16 (destruct k as [|k]; [by destruct uppercase|]). lia. }
  rewrite Hall by lia. lia.
Qed.
Definition digits_ok (l : list Z) : Prop := Forall (fun c => 0 <= digit_value c < base) l.
Definition number_of (l : list Z) : Z := foldl (fun acc c => acc * base + digit_value c) 0 l.
Lemma read_digits_app acc l rest : digits_ok l -> read_digits base acc (l ++ rest) = read_digits base (foldl (fun acc c => acc * base + digit_value c) acc l) rest.
Proof. revert acc. induction l as [|c l IH]; intros acc Hl; [done|]. apply Forall_cons in Hl as [Hc Hl]. cbn [app read_digits foldl]. rewrite (proj2 (Z.ltb_lt _ _)) by lia. by apply IH. Qed.
Lemma reverse_digits_spec room v : 0 <= v < base ^ Z.of_nat room -> digits_ok (rev (reverse_digits room v base alphabet)) /\ number_of (rev (reverse_digits room v base alphabet)) = v.
Proof.
  revert v. induction room as [|room IH]; intros v Hv; cbn [reverse_digits].
  - change (base ^ Z.of_nat 0) with 1 in Hv. assert (v = 0) as -> by lia. split; [constructor|done].
  - destruct (Z.eqb_spec v 0) as [->|Hne]; [split; [constructor|done]|]. rewrite Nat2Z.inj_succ, Z.pow_succ_r in Hv by lia.
    assert (0 <= v / base < base ^ Z.of_nat room) as Hq. { split; [apply Z.div_pos; lia|]. apply Z.div_lt_upper_bound; lia. }
    destruct (IH _ Hq) as [H1 H2]. cbn [rev]. pose proof (Z.mod_pos_bound v base ltac:(lia)) as Hm. split.
    + apply Forall_app. split; [done|]. constructor; [|constructor]. rewrite digit_of_alphabet by lia. lia.
    + unfold number_of in *. rewrite foldl_app, H2. cbn. rewrite digit_of_alphabet by lia. pose proof (Z.div_mod v base ltac:(lia)). lia.
Qed.
Lemma reverse_digits_length n room v : 0 <= v < base ^ Z.of_nat n -> (length (reverse_digits room v base alphabet) <= n)%nat.
Proof.
  revert n v. induction room as [|room IH]; intros n v Hv; cbn [reverse_digits]; [cbn; lia|]. destruct (Z.eqb_spec v 0) as [->|Hne]; [cbn; lia|]. destruct n as [|n]; [change (base ^ Z.of_nat 0) with 1 in Hv; lia|]. rewrite Nat2Z.inj_succ, Z.pow_succ_r in Hv by lia.
  cbn [length]. apply le_n_S, IH. split; [apply Z.div_pos; lia|]. apply Z.div_lt_upper_bound; lia.
Qed.
Lemma pow_room n v : is_u64 v -> (64 <= n)%nat -> 0 <= v < base ^ Z.of_nat n.
Proof.
  intros Hv Hn. split; [unfold is_u64 in Hv; lia|]. apply Z.lt_le_trans with (2 ^ 64); [change (2 ^ 64) with 18446744073709551616; unfold is_u64 in Hv; lia|]. etrans; [apply (Z.pow_le_mono_r 2 64 (Z.of_nat n)); lia|]. apply Z.pow_le_mono_l. lia.
Qed.
Lemma unsigned_digits_spec v : is_u64 v -> digits_ok (format_unsigned_digits 65 v base uppercase) /\ number_of (format_unsigned_digits 65 v base uppercase) = v.
Proof.
  intros Hv. unfold format_unsigned_digits. rewrite (proj2 (Z.ltb_ge base 2)), (proj2 (Z.ltb_ge 16 base)) by lia. cbn [orb Nat.eqb pred]. fold alphabet. destruct (Z.eqb_spec v 0) as [->|Hne].
  - split; [|done]. repeat constructor; change (digit_value _) with 0; lia.
  - rewrite take_ge; [|rewrite length_rev; apply reverse_digits_length, pow_room; [done|lia]]. apply reverse_digits_spec, pow_room; [done|lia].
Qed.
End numbers.

Lemma skip_replicate n l : skip_spaces (replicate n (chr " ") ++ l) = skip_spaces l.
Proof. induction n as [|n IH]; cbn; [done|]. exact IH. Qed.
Lemma zeroes_ok base n : 2 <= base -> digits_ok base (replicate n (chr "0")).
Proof. intros H. apply Forall_replicate. change (digit_value (chr "0")) with 0. lia. Qed.
Lemma number_of_zeroes base n l : number_of base (replicate n (chr "0") ++ l) = number_of base l.
Proof. unfold number_of. rewrite foldl_app. f_equal. induction n as [|n IH]; [done|]. cbn [replicate foldl]. change (digit_value (chr "0")) with 0. by rewrite Z.add_0_r, Z.mul_0_l. Qed.
Lemma read_until_space base n l : digits_ok base l -> 2 <= base <= 16 -> read_digits base 0 (l ++ replicate n (chr " ")) = number_of base l.
Proof.
  intros Hl Hb. rewrite read_digits_app by done. destruct n as [|n]; [done|]. cbn [replicate read_digits]. change (digit_value (chr " ")) with 16. by rewrite (proj2 (Z.ltb_ge 16 base)) by lia.
Qed.

Section reading.
Context (base : Z) (Hbase : 2 <= base <= 16) (body : list Z) (Hbody : digits_ok base body) (n : nat).
Abbreviation tail_spaces := (replicate n (chr " ")).

Lemma no_x c : c ∈ body ++ tail_spaces -> c <> 120 /\ c <> 88.
Proof.
  rewrite elem_of_app. intros [Hc|[-> _]%elem_of_replicate]; [|done]. pose proof (proj1 (Forall_forall _ _) Hbody c Hc) as Hd. split; intros ->; cbn in Hd; lia.
Qed.
Lemma read_body : read_unsigned base (body ++ tail_spaces) = number_of base body.
Proof.
  rewrite <- (read_until_space base n body) by done. unfold read_unsigned. destruct (body ++ tail_spaces) as [|a [|b l]] eqn:E; [done..|]. assert (b ∈ body ++ tail_spaces) as Hb by (rewrite E, !elem_of_cons; auto). destruct (no_x b Hb) as [H1 H2].
  by rewrite (proj2 (Z.eqb_neq _ _) H1), (proj2 (Z.eqb_neq _ _) H2), !andb_false_r.
Qed.
Lemma read_plain k : read_number base (replicate k (chr " ") ++ body ++ tail_spaces) = number_of base body.
Proof.
  unfold read_number. rewrite skip_replicate. assert (body = [] \/ exists c l, body = c :: l) as [E|(c & l & E)] by (clear; destruct body; eauto).
  - rewrite E. cbn [app]. rewrite <- (app_nil_r tail_spaces), skip_replicate. done.
  - assert (c ∈ body) as Hc by (rewrite E; apply elem_of_cons; auto). pose proof (proj1 (Forall_forall _ _) Hbody c Hc) as Hd. cbv beta in Hd.
    assert (c <> 32 /\ c <> 45 /\ c <> 43) as (N1 & N2 & N3) by (split_and!; intros ->; cbn in Hd; lia). rewrite <- read_body, E. cbn [app skip_spaces].
    by rewrite (proj2 (Z.eqb_neq _ _) N1), (proj2 (Z.eqb_neq _ _) N2), (proj2 (Z.eqb_neq _ _) N3).
Qed.
Lemma read_signed k : read_number base (replicate k (chr " ") ++ cstr "-" ++ body ++ tail_spaces) = - number_of base body /\
  read_number base (replicate k (chr " ") ++ cstr "+" ++ body ++ tail_spaces) = number_of base body.
Proof. unfold read_number. rewrite !skip_replicate. rewrite <- read_body. done. Qed.
Lemma read_hex k (upper : bool) : base = 16 -> read_number base (replicate k (chr " ") ++ (if upper then cstr "0X" else cstr "0x") ++ body ++ tail_spaces) = number_of base body.
Proof. intros E. rewrite <- (read_until_space base n body) by done. unfold read_number. rewrite skip_replicate. destruct upper; cbn [app]; unfold read_unsigned; rewrite E; done. Qed.
End reading.

Lemma read_alternate base body k n (b8 b16 upper : bool) : 2 <= base <= 16 -> digits_ok base body -> (b16 = true -> base = 16) ->
  read_number base (replicate k (chr " ") ++ (if b8 then cstr "0" else if b16 then if upper then cstr "0X" else cstr "0x" else []) ++ body ++ replicate n (chr " ")) = number_of base body.
Proof.
  intros Hb Hok H16. destruct b8; [|destruct b16; [by apply read_hex; auto|by apply read_plain]].
  rewrite <- (number_of_zeroes base 1 body). rewrite (app_assoc (cstr "0")). apply read_plain; [done|]. apply Forall_app. split; [apply (zeroes_ok base 1); lia|done].
Qed.
(** How wide a number gets, as long as no sum leaves an int. *)
Lemma padding_reaches_width magnitude base uppercase options prefix : blen prefix <= 2 -> f_precision options <= INT32_MAX - 100 -> f_width options <= INT32_MAX ->
  let digits := number_digits magnitude base uppercase options in
  f_width options <= blen prefix + blen digits + Z.max 0 (number_padding options prefix digits) + Z.max 0 (number_zeroes options digits).
Proof.
  intros Hp Hprec Hw digits. assert (0 <= blen digits <= 64) as Hd.
  { unfold blen, digits, number_digits, format_unsigned_digits. destruct (_ && _); [cbn; lia|]. destruct (_ || _); [cbn; lia|]. rewrite length_take. cbn [pred]. lia. }
  assert (0 <= number_zeroes options digits <= INT32_MAX - 100) as Hz. { unfold number_zeroes, INT32_MAX in *. destruct (_ && _) eqn:E; [|lia]. apply andb_true_iff in E as [_ E%Z.ltb_lt]. lia. }
  unfold number_padding. set (zs := number_zeroes options digits) in *. assert (0 <= blen prefix) by (unfold blen; lia). unfold INT32_MAX, s32 in *. rewrite (Z.mod_small (blen prefix + zs + blen digits + 2147483648)) by lia.
  destruct (Z.ltb_spec (blen prefix + zs + blen digits + 2147483648 - 2147483648) (f_width options)); [rewrite Z.mod_small by lia|]; lia.
Qed.

(** The parts of a number around its digits. *)
Lemma number_text_parts magnitude negative base uppercase is_signed options : exists k z n,
  let digits := number_digits magnitude base uppercase options in
  let prefix := number_prefix magnitude negative base uppercase is_signed options digits in
  number_text magnitude negative base uppercase is_signed options = replicate k (chr " ") ++ prefix ++ (replicate z (chr "0") ++ digits) ++ replicate n (chr " ") /\
  Z.of_nat (k + (z + n)) = Z.max 0 (number_padding options prefix digits) + Z.max 0 (number_zeroes options digits).
Proof.
  cbv zeta. unfold number_text. set (digits := number_digits _ _ _ _). set (prefix := number_prefix _ _ _ _ _ _ _). set (pad := number_padding options prefix digits). set (zs := number_zeroes options digits).
  destruct (f_left options) eqn:El; cbn [negb andb].
  - exists O, (Z.to_nat zs), (Z.to_nat pad). split; [by rewrite <- ?app_assoc|lia].
  - destruct (pads_with_zero options) eqn:Ez; cbn [negb andb].
    + exists O, (Z.to_nat pad + Z.to_nat zs)%nat, O. rewrite replicate_add, ?app_nil_r, <- ?app_assoc. split; [done|lia].
    + exists (Z.to_nat pad), (Z.to_nat zs), O. rewrite ?app_nil_r, <- ?app_assoc. split; [done|lia].
Qed.

(** C22: Whatever the flags, the width and the precision of a conversion, the number that is
    printed for it can be read back: the text is the value in its base, with its sign, prefix,
    zeroes and spaces, and it is as wide as asked for. *)
Theorem printed_numbers_read_back m buf size magnitude negative base uppercase is_signed options : 0 <= size -> is_u64 magnitude -> base = 8 \/ base = 10 \/ base = 16 -> (negative = true -> is_signed = true) ->
  exists text, safe_buffer_put_number magnitude negative base uppercase is_signed options (after m buf size []) = after m buf size text /\
    read_number base text = (if negative then - magnitude else magnitude) /\
    (f_precision options <= INT32_MAX - 100 -> f_width options <= INT32_MAX -> f_width options <= blen text).
Proof.
  intros Hsz Hmag Hb Hneg. exists (number_text magnitude negative base uppercase is_signed options). split; [by rewrite put_number_after|]. assert (2 <= base <= 16) as Hb' by lia.
  destruct (number_text_parts magnitude negative base uppercase is_signed options) as (k & z & n & -> & Hlen). set (digits := number_digits _ _ _ _) in *.
  assert (digits_ok base digits /\ number_of base digits = magnitude) as [Hd Hv].
  { unfold digits, number_digits. destruct (_ && _) eqn:E; [|by apply unsigned_digits_spec]. split; [constructor|]. apply andb_true_iff in E as [_ E%Z.eqb_eq]. by rewrite E. }
  assert (digits_ok base (replicate z (chr "0") ++ digits)) as Hok by (apply Forall_app; split; [apply zeroes_ok; lia|done]). split.
  - rewrite <- Hv, <- (number_of_zeroes base z digits). unfold number_prefix. destruct is_signed; cbn [andb]; [destruct negative; [by apply read_signed|]|destruct negative; [by discriminate Hneg|]].
    + destruct (f_plus options); [by apply read_signed|]. destruct (f_space options); [|apply read_alternate; [done..|]; intros [[_ E]%andb_true_iff _]%andb_true_iff; by apply Z.eqb_eq].
      rewrite (app_assoc _ (cstr " ")). change (cstr " ") with (replicate 1 (chr " ")). rewrite <- replicate_add. by apply read_plain.
    + apply read_alternate; [done..|]. intros [[_ E]%andb_true_iff _]%andb_true_iff. by apply Z.eqb_eq.
  - intros Hp Hw. set (prefix := number_prefix _ _ _ _ _ _ _) in *. assert (blen prefix <= 2) as Hpre by (unfold prefix, number_prefix; repeat case_match; done).
    pose proof (padding_reaches_width magnitude base uppercase options prefix Hpre Hp Hw) as H. cbv zeta in H. fold digits in H. unfold blen in *. rewrite !length_app, !length_replicate. lia.
Qed.

(** ** Memory safety *)

Section safety.
Context (args : nat -> Z) (m : mem) (buf size : Z) (Hsize : 0 <= size).

(** Nothing outside of the buffer has changed. *)
Definition stays (out : safe_snprintf_buffer) : Prop :=
  o_buf out = buf /\ o_size out = size /\ 0 <= o_used out /\ (active buf size = true -> o_used out < size) /\ 0 <= o_total out <= INT32_MAX /\
  forall a, ~ (active buf size = true /\ buf <= a < buf + size) -> o_mem out !! a = m !! a.

Lemma write_stays t out : stays out -> stays (safe_buffer_write t out).
Proof.
  destruct out as [mm b sz used total]. intros (Hb & Hs & Hu & Hlt & Ht & Hf). cbn in Hb, Hs, Hu, Hlt, Ht, Hf. subst b sz. assert (0 <= blen t) as Hbt by (unfold blen; lia). unfold safe_buffer_write. cbn [o_buf o_size o_used o_total o_mem]. fold (active buf size).
  destruct (active buf size && (used + 1 <? size)) eqn:E.
  - apply andb_true_iff in E as [Ea Er%Z.ltb_lt]. set (copied := if blen t <? size - used - 1 then blen t else size - used - 1). assert (0 <= copied <= size - used - 1 /\ copied <= blen t) as [Hc Hct] by (unfold copied; destruct (Z.ltb_spec (blen t) (size - used - 1)); lia).
    assert (forall a, ~ (active buf size = true /\ buf <= a < buf + size) -> mstore (mstore mm (buf + used) (take (Z.to_nat copied) t)) (buf + (used + copied)) [0] !! a = m !! a) as Hm.
    { intros a Ha. rewrite !lookup_mstore. unfold blen in *. rewrite length_take. cbn [length]. assert (~ (buf <= a < buf + size)) by tauto. rewrite !decide_False by lia. by apply Hf. }
    match goal with |- stays (if ?c then _ else _) => change c with (INT32_MAX - total <? blen t) end.
    destruct (Z.ltb_spec (INT32_MAX - total) (blen t)); (split_and!; [done|done|cbn; lia|cbn; lia|cbn; unfold INT32_MAX in *; lia..|exact Hm]).
  - match goal with |- stays (if ?c then _ else _) => change c with (INT32_MAX - total <? blen t) end.
    destruct (Z.ltb_spec (INT32_MAX - total) (blen t)); (split_and!; [done|done|done|done|cbn; unfold INT32_MAX in *; lia..|exact Hf]).
Qed.
Lemma repeat_stays c n out : stays out -> stays (safe_buffer_repeat c n out).
Proof. intros H. unfold safe_buffer_repeat. induction (Z.to_nat n) as [|k IH]; [done|]. cbn. by apply write_stays. Qed.
Lemma put_piece_stays piece out : stays out -> stays (put_piece piece out).
Proof.
  intros H. destruct piece as [t|t|value|magnitude negative base uppercase is_signed options]; cbn [put_piece].
  - revert out H. induction t as [|c t IH]; intros out H; [done|]. cbn [foldl]. by apply IH, write_stays.
  - by apply write_stays.
  - by apply write_stays.
  - unfold safe_buffer_put_number. repeat (case_match || apply repeat_stays || apply write_stays); done.
Qed.
Lemma format_loop_stays fuel : forall p k out, (length p <= fuel)%nat -> stays out -> exists out', format_loop args fuel p k out = Some out' /\ stays out'.
Proof.
  induction fuel as [|fuel IH]; intros p k out Hf Ho; cbn [format_loop]; destruct (printk_round args p k) as [[[pc p'] k']|] eqn:E; try (by exists out); apply round_shrinks in E; [lia|].
  apply IH; [lia|by apply put_piece_stays].
Qed.

(** C23: For any format and any arguments, also strings that lie in the buffer or have no
    terminator, kb_vsnprintf_safe returns, changes no byte outside of the buffer, leaves a
    terminator in it, and its answer is not negative. *)
Theorem vsnprintf_stays_in_buffer fmt : exists m' n, kb_vsnprintf_safe args buf size fmt m = Some (m', n) /\ 0 <= n <= INT32_MAX /\
  (forall a, ~ (active buf size = true /\ buf <= a < buf + size) -> m' !! a = m !! a) /\
  (active buf size = true -> exists i, 0 <= i < size /\ mem_byte m' (buf + i) = 0).
Proof.
  unfold kb_vsnprintf_safe. rewrite (andb_comm (negb (size =? 0))). fold (active buf size). set (out := mk_out _ buf size 0 0).
  assert (stays out) as Ho.
  { unfold out. split_and!; cbn; [done|done|done| |done|done|].
    - intros [_ Ea%negb_true_iff%Z.eqb_neq]%andb_true_iff. lia.
    - intros a Ha. destruct (active buf size) eqn:Ea; [|done]. rewrite lookup_insert_ne; [done|]. intros ->. apply Ha. apply andb_true_iff in Ea as [_ Ea%negb_true_iff%Z.eqb_neq]. split; [done|lia]. }
  destruct (format_loop_stays (length (printk_format fmt)) (printk_format fmt) 0 out ltac:(done) Ho) as (out' & -> & (_ & _ & Hu & Hlt & Ht & Hf)). eexists _, _. split; [done|]. split; [done|]. destruct (active buf size) eqn:Ea; [|by split].
  specialize (Hlt eq_refl). rewrite (proj2 (Z.ltb_lt _ _) Hlt). cbn [mstore]. split.
  - intros a Ha. rewrite lookup_insert_ne; [by apply Hf|]. intros <-. apply Ha. split; [done|lia].
  - intros _. exists (o_used out'). split; [lia|]. unfold mem_byte. by rewrite lookup_insert_eq.
Qed.
End safety.

(** ** Messages *)

(** As long as every write takes something, the whole message is written. *)
Lemma messages_are_written_whole write i text : (forall i text, text <> [] -> 0 < write i text) -> stderr_write_all (length text) write i text = text.
Proof.
  intros Hw. remember (length text) as fuel eqn:Ef. assert (length text <= fuel)%nat as Hf by lia. clear Ef. revert i text Hf. induction fuel as [|fuel IH]; intros i [|c text] Hf; cbn [stderr_write_all]; [done|cbn in Hf; lia|done|].
  pose proof (Hw i (c :: text) ltac:(done)) as Hn. rewrite (proj2 (Z.leb_gt _ 0)) by lia. rewrite IH; [apply take_drop|]. rewrite length_drop. cbn [length] in *. lia.
Qed.

(** ** Samples *)

Definition sample_args (k : nat) : Z := nth k [-42; 0xbeef; 12288] 0.
Definition sample_fmt : option (list Z) := Some (1 :: 54 :: cstr "n=%+6d %#08x [%s]").
Definition sample_memory : mem := mstore ∅ 12288 (cstr "kobox" ++ [0]).
Example sample_text : format_text sample_args sample_memory sample_fmt = cstr "n=   -42 0x00beef [kobox]".
Proof. vm_compute. reflexivity. Qed.

Lemma sample_strings_outside : Forall (outside 8192 16) (format_pieces sample_args sample_fmt).
Proof.
  assert (format_pieces sample_args sample_fmt = ltac:(let l := eval vm_compute in (format_pieces sample_args sample_fmt) in exact l)) as -> by (vm_compute; reflexivity).
  repeat (apply Forall_cons; split; [first [exact I|cbn [outside]; intros _; lia]|]). apply Forall_nil. exact I.
Qed.
Lemma vsnprintf_writes_the_text_witness :
  kb_vsnprintf_safe sample_args 8192 16 sample_fmt sample_memory = Some (mstore sample_memory 8192 (cstr "n=   -42 0x00be" ++ [0]), 25).
Proof. exact (vsnprintf_writes_the_text sample_args sample_memory 8192 16 ltac:(discriminate) sample_fmt sample_strings_outside). Defined.
Lemma printed_numbers_read_back_witness : exists text, safe_buffer_put_number 42 true 10 false true (no_options <| f_width := 6 |>) (after ∅ 8192 16 []) = after ∅ 8192 16 text /\ read_number 10 text = -42.
Proof.
  destruct (printed_numbers_read_back ∅ 8192 16 42 true 10 false true (no_options <| f_width := 6 |>) ltac:(discriminate) ltac:(unfold is_u64; lia) ltac:(auto) ltac:(done)) as (text & E & R & _).
  exists text. split; [exact E|exact R].
Defined.
Lemma vsnprintf_stays_in_buffer_witness : exists m' n, kb_vsnprintf_safe sample_args 8192 16 sample_fmt sample_memory = Some (m', n) /\ 0 <= n <= INT32_MAX.
Proof.
  destruct (vsnprintf_stays_in_buffer sample_args sample_memory 8192 16 ltac:(discriminate) sample_fmt) as (m' & n & E & Hn & _). exists m', n. split; [exact E|exact Hn].
Defined.

(** The precision of %s is read and not used: characters behind it are printed. *)
Lemma string_precision_is_ignored : format_text (fun k => nth k [2; 12288] 0) sample_memory (Some (cstr "%.*s")) = cstr "kobox".
Proof. vm_compute. reflexivity. Qed.
(** So is its width, and the length modifiers hh and h do not cut numbers. *)
Lemma string_width_is_ignored : format_text (fun _ => 12288) sample_memory (Some (cstr "%8s")) = cstr "kobox".
Proof. vm_compute. reflexivity. Qed.
Lemma short_numbers_are_not_cut : format_text (fun _ => 0xffffff80) ∅ (Some (cstr "%hhx")) = cstr "ffffff80".
Proof. vm_compute. reflexivity. Qed.
